(* ===== verification/_CoqProject ===== *)
-Q . S2P
Prelude.v
LedCtrl.v
CString.v
Fmt.v
Decimal.v
RingQ.v
ByteQueue.v
EjLex.v
EjLexSpec.v
EjRead.v
Heap.v
Handles.v
DbIface.v
EmfDb.v
EmfDbSpec.v
EmfFile.v
EmfFileSpec.v
EmfRoundTrip.v
Um.v
UmSpec.v
UmRefine.v
UmProps.v
UmFile.v
SymTab.v
SymIface.v
SymMany.v
EjParse.v
EjAst.v
EjEngine.v
EjExprSpec.v
EjStmtSpec.v
EjEvalSpec.v
EjBlock.v
EjNumber.v
EjDemo.v
Url.v
UrlSpec.v
Mime64.v
Session.v
SessionSpec.v
Security.v
SecuritySpec.v
Crypt.v
Login.v
LoginSpec.v
HttpDate.v
HttpDateSpec.v
SafeUrl.v
UrlParse.v
QueryEnv.v
QueryEnvSpec.v
Handler.v
HandlerSpec.v
QueueSvc.v
MsgQueue.v
Md5.v
Digest.v
MulTimer.v
Stm8.v
Subnet.v
SubnetSpec.v
