(* ===== verification/Prelude.v ===== *)
(** * Verification of the test_core router software

    The repository collects the programs of a small router: a web server derived from
    GoAhead (webs/src/src), the LED controller, message queues and a number of
    command-line tools, beside vendored copies of coreutils, iproute2, tar, tcpdump and
    dhcpcd.  This library models the parts of the router's own code that carry state or
    compute something, and proves what makes them correct.

    ** Conventions

    A machine integer is a [Z] with its wrap-around written out ([uwrap], [swrap]).  A
    block of memory is the list of its bytes; an access outside of it, a read through a
    null pointer, a [free] of a block that is not allocated and the like make the result
    [None].  [malloc] and [realloc] are parameters.  A loop that is not structural has
    fuel; running out is [None] as well, and a theorem says that the fuel is enough.
    [a_assert] is empty in this build, and NO_BALLOC makes [balloc] the C [malloc].

    ** Files

    - [Prelude]: machine integers, lists as memory, record updates, tactics.
    - [LedCtrl] (LedCtrl.c, LedCtrl.h): the LED state machines, the shift register.
    - [CString]: strings, character classes, [strcmp], [atoi].
    - [Fmt] (webs/src/src/misc.c): the [printf] family on a growing buffer.
    - [Decimal]: decimal numerals, printed and read, for the files below.
    - [RingQ] (ringq.c, uemf.h): the ring queue.
    - [ByteQueue]: what the lexer needs of a ring queue, as a class with laws, and the
      instance for [RingQ].
    - [EjLex] (ejlex.c, ejIntrn.h, [ejError] of ejparse.c): the lexical analyser of the
      Ejscript engine, over a [ByteQueue]; [EjLexSpec] holds its theorems, which use the
      laws of the class only and are instantiated on the ring queue.  [EjRead] has what
      one request of a token does to the input, for the parser.
    - [Heap]: integer-indexed stores, for the two files below.
    - [Handles] (h.c): handle maps.
    - [DbIface] (emfdb.h): the abstract database of typed tables, the class [Database] of
      its operations and the laws [DatabaseLaws] that a client relies on.
    - [EmfDb] (emfdb.c): the text-file database over handle maps; [EmfDbSpec] proves that it
      is an instance of the laws.
    - [EmfFile] (emfdb.c: [dbSave], [dbLoad]): the text file of the database, on a disk that
      may fail; [EmfFileSpec] has what is written, [EmfRoundTrip] that it is read back.
    - [Um] (um.c, um.h): users, groups and access limits over any [Database]; [UmSpec] is
      the abstract state with one function per call, [UmRefine] the proof that the code
      follows it, [UmProps] the properties, with witnesses on [EmfDb]; [UmFile] has
      [umCommit] and [umRestore] on [EmfFile].
    - [SymTab] (sym.c, value.c): hashed symbol tables, opened through a handle map;
      [SymIface] states what a client relies on, the class [Symbols] and its laws
      [SymbolsLaws] (the open tables are a map of maps), and [SymMany] proves them.
    - [EjParse] (ejparse.c, ejIntrn.h, [stritoa] of uemf.c): the Ejscript parser and
      evaluator, over a [ByteQueue] and [Symbols].  An engine is a record of the store
      [engines]; a computation threads the [world] and may fail.  The host functions that
      a script calls are the parameter [call_fn].
    - [EjAst]: what a script means: its statements, the tokens that they are printed as,
      and their big-step semantics on a map of variable tables.
    - [EjEngine], [EjExprSpec], [EjStmtSpec]: the engine while it parses, and the proof
      that parsing the tokens of an expression, then of a statement, does what it means;
      [EjEvalSpec] has the same for [ejEval], [EjBlock] opening and closing engines and
      blocks, [EjNumber] numbers as strings, [EjDemo] one engine on ring queues and
      symbol tables, on which the theorems are applied.
    - [Url] (webs.c, handler.c, default.c): decoding a URL, reducing its slashes, and
      [websValidateUrl], which makes the path of the file; [UrlSpec] has the theorems.
    - [Mime64] (mime64.c): base 64.
    - [Session] (security.c): the table of sessions, a linked list in a heap of cells;
      [SessionSpec] proves that it is a list of sessions with their ages.
    - [Security] (security.c): which requests pass without a login; [SecuritySpec].
    - [Crypt] (webs_define.c: [jrd_encrypt], [jrd_decrypt]): the cipher of passwords.
    - [Login] (webs_define.c, win_web_api_pro.c): logging in and out over [Session], with
      the timers and the thread that count; [LoginSpec] is its abstract machine.
    - [HttpDate] (webs.c, from [parseNDIGIT] on): the dates of conditional requests;
      [HttpDateSpec] has the calendar, counted day by day.
    - [SafeUrl] (webs.c: [websSafeUrl]), [UrlParse] (url.c: [websUrlParse]).
    - [QueryEnv] (webs.c: [websSetEnv]): the variables of a request; [QueryEnvSpec].
    - [Handler] (handler.c): the array of handlers and the loop that answers a request;
      [HandlerSpec] puts the security handler of [Security] at its head.
    - [QueueSvc] (queue.c, queue.h): doubly linked queues with mutexes.
    - [MsgQueue] (msg_queue/): a message buffer between threads.
    - [Md5] (md5c.c, md5.h): the MD5 digest, both builds.
    - [Digest] (websda.c): the digests of an authenticated request, over [Md5] and [Fmt].
    - [MulTimer] (mul_timer/): ten timers on one signal of the system.
    - [Stm8] (uart1_test/stm8_upgrade.c): the CRC and the frames for the microcontroller.
    - [Subnet] (dhcpd_data/dhcp_server_setting.c, ip_info/netmask_to_len.c): ranges of
      addresses and masks; [SubnetSpec] has bytes, addresses and the theorems.

    ** What is shown

    The Ejscript engine: a script that is printed from statements is evaluated as their
    semantics says ([ejEval_executes]), a block of its own takes its variables with it
    ([ejEvalBlock_scope]), an engine opens with the tables it should have and closes them
    ([ejOpenEngine_rests], [ejCloseEngine_closes]), and a number survives the way through a
    string ([stritoa_gatoi_roundtrip]).  The proofs use the laws of the queues and of the
    tables only, and any host that keeps to [host_ok].

    The web server: a request for a file is confined to the web root
    ([websValidateUrl_confined], [websValidateUrl_resolves]); the login is, call by call, one
    remembered client with an age ([login_system_refines] over [sessions_refine]), is given
    for the password only ([login_needs_password]), ends by itself ([session_lifetime]) and
    is locked after wrong tries ([guesses_bounded]); the access handler does what its tables
    say ([security_page_guard], [security_api_guard]), and is nevertheless passed by a path
    with two dots ([login_bypass]).  Conditional requests follow the calendar
    ([conditional_get], [calendar_counts_days]) but not for the dates that the server sends
    itself ([old_dates_ignored]); digests are those of RFC 2617 ([digest_rfc2617]), but
    not for the qop auth-int ([auth_int_ignored]).  A URL is
    cut as specified ([websUrlParse_splits]) and shown without tags ([websSafeUrl_escapes]);
    base 64 and passwords survive their way ([websDecode64_roundtrip],
    [jrd_decrypt_encrypt]).  The handler with the longest prefix answers first
    ([handlers_longest_first]), a request gets behind the security handler exactly under
    the conditions of that handler ([login_gate], composed of [Handler], [QueryEnv] and
    [Security]), and the variables of a request never lose what the server put there
    ([websSetEnv_variables]).

    The tools: a timer runs when its interval is over ([timers_fire_on_time],
    [set_a_timer_correct]), the CRC is that of CCITT and sees a change of two bytes
    ([crc_is_ccitt]), a frame is what it should be ([uart_tx_frame]), a range of addresses is
    judged by its order and its network ([ip_range_check_correct]), and a mask by its ones
    ([netmask_checks]).

    Refinement: the ring queue is a double-ended byte queue ([ringq_refines_deque]), the
    queue service is a map of lists ([queue_service_refines]), the text-file database is
    the abstract one ([database_refines]), and the user management does, call by call, what
    its specification says on any lawful database ([um_refines]).  MD5 computes RFC 1321 for
    any division of the input ([md5_stream_rfc]), a symbol table is a finite map
    ([symEnter_correct], [symDelete_correct], [symLookup_correct], [sym_walk_complete]),
    and several of them do not disturb each other ([sym_tables_refine]).
    Round trips: tokens printed and lexed ([lex_print_roundtrip]), tokens put back
    ([lex_putback_token]), messages sent and received ([send_receive_roundtrip]), numbers
    printed in hexadecimal ([hextoi_roundtrip]), passwords ([umAddUser_password]), tables
    and users saved and loaded ([dbSave_dbLoad_roundtrip], [umRestore_umCommit]).  The
    access decision: [umUserCanAccessURL_correct] with [umGetAccessLimit_nearest].
    Invariants: [um_names_unique], [nmea_no_data_pattern].  Bounds: the formatter never writes
    outside of its block ([fmtAlloc_correct], [fmtStatic_correct]).  Termination: every
    call of the lexer returns ([lex_calls_return]), [ringqPutBlk_correct],
    [dbSetTableNrow_correct], [um_walk_users].  Interleavings:
    [one_consumer_no_lost_wakeup], and the counterexample [two_consumers_lost_wakeup].  Where the code misbehaves the theorem
    states what it does ([nmea_no_connect_stuck], [q_m_put_delete_breaks],
    [q_linear_delete_deadlocks], [dup_msg_element_double_free], [lex_number_at_end]).

    ** Fuel

    [ringqPutBlk]: one round per byte and six for the nested put of a grow.  The lexer:
    two more than the characters left in the script, since every round of every loop
    reads one.  [format_loop]: the length of the format and two.  [put_ulong]: a round
    per bit of a long.  Symbol chains: one more than the number of symbols.
    [grow_loop]: one more than the rows asked for, since a round fills a row below them.
    [limit_loop]: one more than the length of the URL.  The walks of [Um]: more than the
    number of rows.  The parser has one number for the depth of its recursion and for its
    loops; a script that has a meaning has a number from which on it is evaluated
    ([ejEval_executes]), which depends on the number of rounds of its for loops.
    The loops over a string of the web server ([websDecodeUrl], [decode_into], [charCount],
    [host_loop], [jrd_decrypt]): one more than its characters; those over a block
    ([websCondenseMultipleChars], [parts_loop]) its length; the walks of the session list
    two more than the cells of the heap.  [query_loop]: one more than the
    length of the query, since a keyword has a character.  [mask_loop]: 33, as a mask has 32
    bits.

    ** Not modelled

    The vendored trees, programs that only call the system or a library that is not in
    the repository (libconfig, json-c, sqlite3, sock_client), and small exercises are left
    out; the manifest lists them with the reasons.  Of the web server the socket driven
    parts are left out: reading a request line by line, sending a page, forms, scripts in
    pages, CGI programs and the settings pages behind json-c and sqlite3.  What
    [extractUploadedFileContent] takes out of a multipart form is a parameter of [QueryEnv].
    Of the tools the parts that only read and write devices and files are left out.
    Of the parser everything is modelled; the theorem on [ejEval] speaks of scripts printed
    with a blank behind each token, and does not reach a script that fails or that calls
    the engine again from a host function.  Storage of strings is not modelled, apart from
    the places where a released string is used, which are [None].
    [websUrlParse_splits] speaks of URLs that are not absolute: for an absolute one the
    code reads past its string in the cases named in the manifest. *)

From stdpp Require Export base tactics list numbers.
From Stdlib Require Export ZArith Lia.

(** ** Machine integers *)

(** A [w]-bit unsigned value is the representative in [0 .. 2^w - 1]; a [w]-bit
    signed value the one in [-2^(w-1) .. 2^(w-1) - 1]. *)
Definition uwrap (w z : Z) : Z := (z mod 2 ^ w)%Z.
Definition swrap (w z : Z) : Z :=
  ((z + 2 ^ (w - 1)) mod 2 ^ w - 2 ^ (w - 1))%Z.

Declare Scope cint_scope.
Delimit Scope cint_scope with cint.
Notation "'u8' z" := (uwrap 8 z) (at level 9, z at level 9) : cint_scope.
Notation "'u16' z" := (uwrap 16 z) (at level 9, z at level 9) : cint_scope.
Notation "'u32' z" := (uwrap 32 z) (at level 9, z at level 9) : cint_scope.
Notation "'s32' z" := (swrap 32 z) (at level 9, z at level 9) : cint_scope.
Notation "'s16' z" := (swrap 16 z) (at level 9, z at level 9) : cint_scope.

Open Scope Z_scope.
Open Scope cint_scope.

Definition INT_MAX : Z := 2 ^ 31 - 1.

Lemma uwrap_range w z : 0 <= w -> 0 <= uwrap w z < 2 ^ w.
Proof. intros. apply Z.mod_pos_bound. lia. Qed.

Lemma uwrap_small w z : 0 <= z < 2 ^ w -> uwrap w z = z.
Proof. apply Z.mod_small. Qed.

Lemma uwrap_idemp w z : 0 <= w -> uwrap w (uwrap w z) = uwrap w z.
Proof. intros. apply uwrap_small, uwrap_range. lia. Qed.

Lemma uwrap_add_l w a b : uwrap w (uwrap w a + b) = uwrap w (a + b).
Proof. apply Zplus_mod_idemp_l. Qed.

Lemma uwrap_add_r w a b : uwrap w (a + uwrap w b) = uwrap w (a + b).
Proof. apply Zplus_mod_idemp_r. Qed.

Lemma swrap_pow2 w : 0 < w -> 2 ^ w = 2 * 2 ^ (w - 1).
Proof. intros. rewrite <- Z.pow_succ_r by lia. f_equal. lia. Qed.

Lemma swrap_range w z : 0 < w -> - 2 ^ (w - 1) <= swrap w z < 2 ^ (w - 1).
Proof.
  intros Hw. unfold swrap.
  pose proof (swrap_pow2 w Hw) as E.
  pose proof (Z.mod_pos_bound (z + 2 ^ (w - 1)) (2 ^ w)). lia.
Qed.

Lemma swrap_small w z : 0 < w -> - 2 ^ (w - 1) <= z < 2 ^ (w - 1) -> swrap w z = z.
Proof.
  intros Hw Hz. unfold swrap.
  pose proof (swrap_pow2 w Hw) as E.
  rewrite Z.mod_small; lia.
Qed.

Lemma s32_small z : - 2 ^ 31 <= z < 2 ^ 31 -> s32 z = z.
Proof. intros. apply swrap_small; [lia|]. exact H. Qed.

(** Wrapping does not change the bits below the sign bit. *)
Lemma testbit_swrap w z i : 0 <= i < w - 1 -> Z.testbit (swrap w z) i = Z.testbit z i.
Proof.
  intros Hi. unfold swrap.
  rewrite <- (Z.mod_pow2_bits_low _ (w - 1)) by lia.
  rewrite <- (Z.mod_pow2_bits_low z (w - 1)) by lia. f_equal.
  rewrite <- Zminus_mod_idemp_r, Z_mod_same_full, Z.sub_0_r.
  rewrite Z.mod_mod_divide by (exists 2; apply swrap_pow2; lia).
  rewrite <- Zplus_mod_idemp_r, Z_mod_same_full, Z.add_0_r. done.
Qed.

(** ** Bit fields

    [v & ~mask | st]: store [st] in the bits of [mask]. *)
Definition put_field (v st mask : Z) : Z := Z.lor (Z.land v (Z.lnot mask)) st.

(** Prove an equation between bit expressions bit by bit: the facts [H] about
    [Z.land] in the context are specialised to each bit. *)
Ltac bitwise i :=
  apply Z.bits_inj'; intros i ?;
  repeat match goal with
         | H : @eq Z (Z.land _ _) _ |- _ =>
             apply (f_equal (fun x => Z.testbit x i)) in H;
             rewrite ?Z.land_spec, ?Z.bits_0 in H
         end;
  rewrite ?Z.land_spec, ?Z.lor_spec, ?Z.land_spec, ?Z.lnot_spec by lia.

Lemma put_field_get v st mask :
  Z.land st mask = st -> Z.land (put_field v st mask) mask = st.
Proof.
  unfold put_field. intros H. bitwise i.
  destruct (Z.testbit v i), (Z.testbit st i), (Z.testbit mask i); simpl in *; congruence.
Qed.

Lemma put_field_other v st mask m :
  Z.land st mask = st -> Z.land m mask = 0 ->
  Z.land (put_field v st mask) m = Z.land v m.
Proof.
  unfold put_field. intros H H'. bitwise i.
  destruct (Z.testbit v i), (Z.testbit st i), (Z.testbit mask i), (Z.testbit m i);
    simpl in *; congruence.
Qed.

(** ** Case analysis on C conditions *)

(** Turn the boolean comparisons of the context into propositions. *)
Ltac prop_bools :=
  repeat match goal with
         | H : (_ && _) = true |- _ => apply andb_true_iff in H as [? ?]
         | H : (_ || _) = false |- _ => apply orb_false_iff in H as [? ?]
         | H : (_ && _) = false |- _ => apply andb_false_iff in H
         | H : (_ || _) = true |- _ => apply orb_true_iff in H
         | H : negb _ = true |- _ => apply negb_true_iff in H
         | H : negb _ = false |- _ => apply negb_false_iff in H
         end;
  rewrite ?Z.ltb_lt, ?Z.ltb_ge, ?Z.leb_le, ?Z.leb_gt, ?Z.eqb_eq, ?Z.eqb_neq in *.

(** Follow the control flow of a computation [H]: split its innermost conditions
    one by one, dropping the branches that linear arithmetic refutes. *)
Ltac split_on b :=
  lazymatch b with
  | context [if ?b' then _ else _] => split_on b'
  | _ => let C := fresh "C" in destruct b eqn:C; cbn -[Z.div Z.modulo Z.rem] in C
  end.

Ltac split_tests H :=
  repeat (lazymatch type of H with
          | context [if ?b then _ else _] => split_on b
          end; prop_bools; try lia; cbn -[Z.div Z.modulo Z.rem] in H).

Ltac split_tests_goal :=
  repeat (lazymatch goal with
          | |- context [if ?b then _ else _] => split_on b
          end; prop_bools; try lia).

(** Decide a comparison, as an equation between booleans in either direction. *)
Ltac zb :=
  try match goal with |- ?b = _ => lazymatch b with true => symmetry | false => symmetry end end;
  first [ apply Z.eqb_neq | apply Z.eqb_eq | apply Z.ltb_ge | apply Z.ltb_lt
        | apply Z.leb_gt | apply Z.leb_le | apply andb_true_intro | idtac ];
  lia.

(** ** Record fields

    [r <| f := v |>] is [r] with its field [f] replaced: the C assignment
    [r.f = v].  The setter of a field is found by type class resolution. *)
Class Setter {R E : Type} (getter : R -> E) : Type := set_field : E -> R -> R.
Arguments set_field {R E} getter {Setter} v r.

Ltac derive_setter :=
  lazymatch goal with
  | |- @Setter ?R ?E ?getter =>
      let v := fresh "v" in let r := fresh "r" in
      intros v r;
      change (let _ := r in R); destruct r;
      lazymatch goal with
      | |- let _ := ?c in _ =>
          let old := eval cbn in (getter c) in
          let c' := eval pattern old in c in
          lazymatch c' with
          | ?f _ => let n := eval cbv beta in (f v) in exact n
          end
      end
  end.
#[export] Hint Extern 1 (Setter _) => derive_setter : typeclass_instances.

Notation "r <| f := v |>" := (set_field f v r)
  (at level 1, left associativity, f constr at level 8, v at level 99,
   format "r <| f  :=  v |>") : cint_scope.

(** ** Counters that wrap at a period

    Several programs of the repository advance a counter on a timer tick and
    reset it when it reaches a period.  The lemmas below describe any such
    step function, whatever the rest of its state. *)
Section Periodic.
Context {S : Type} (step : S -> S) (tm : S -> Z) (Inv : S -> Prop) (period : Z).
Hypothesis period_pos : 0 < period.
Hypothesis step_tm : forall s, Inv s -> 0 <= tm s < period ->
  Inv (step s) /\ tm (step s) = (tm s + 1) mod period.

Lemma periodic_iter s n :
  Inv s -> 0 <= tm s < period ->
  Inv (Nat.iter n step s) /\ tm (Nat.iter n step s) = (tm s + Z.of_nat n) mod period.
Proof using All.
  intros Hi Ht. induction n as [|n [IHi IHt]]; simpl Nat.iter.
  - rewrite Z.add_0_r, Z.mod_small by lia. auto.
  - destruct (step_tm _ IHi) as [Hi' Ht'].
    { rewrite IHt. apply Z.mod_pos_bound. lia. }
    split; [done|]. rewrite Ht', IHt, Zplus_mod_idemp_l. f_equal. lia.
Qed.
End Periodic.

(** ** Byte buffers

    A C array is the list of its cells; offsets and lengths are [int]s, hence in
    [Z].  [zget] reads a cell, [bsub] the [n] cells from offset [i] and [bput]
    overwrites the cells from offset [i] ([memcpy]). *)
Abbreviation zlen l := (Z.of_nat (length l)).

Definition zget (l : list Z) (i : Z) : Z := nth (Z.to_nat i) l 0.

Definition bsub (l : list Z) (i n : Z) : list Z :=
  take (Z.to_nat n) (drop (Z.to_nat i) l).

Definition bput (l : list Z) (i : Z) (d : list Z) : list Z :=
  take (Z.to_nat i) l ++ d ++ drop (Z.to_nat i + length d) l.

(** Zeros, and a block of zeros that is filled from its start. *)
Lemma drop_zeros m : forall k, drop k (repeat 0 m) = repeat 0 (m - k).
Proof. induction m as [|m IH]; intros [|k]; [done..|]. apply IH. Qed.

Lemma bput_zeros m d : bput (repeat 0 m) 0 d = d ++ repeat 0 (m - length d).
Proof. unfold bput. cbn [Z.to_nat take app Nat.add]. by rewrite drop_zeros. Qed.

Arguments zget : simpl never.
Arguments bsub : simpl never.
Arguments bput : simpl never.

Lemma length_bsub l i n : 0 <= i -> 0 <= n -> i + n <= zlen l -> zlen (bsub l i n) = n.
Proof. intros. unfold bsub. rewrite length_take, length_drop. lia. Qed.

Lemma length_bput l i d : 0 <= i -> i + zlen d <= zlen l -> zlen (bput l i d) = zlen l.
Proof. intros. unfold bput. rewrite !length_app, length_take, length_drop. lia. Qed.

Lemma zget_nat l (k : nat) : zget l (Z.of_nat k) = nth k l 0.
Proof. unfold zget. by rewrite Nat2Z.id. Qed.

Lemma zget_bsub l i n k :
  0 <= i -> 0 <= k < n -> zget (bsub l i n) k = zget l (i + k).
Proof.
  intros. unfold zget, bsub. rewrite Z2Nat.inj_add, nth_firstn, nth_skipn by lia.
  destruct (Nat.ltb_spec (Z.to_nat k) (Z.to_nat n)); [done|lia].
Qed.

Lemma zget_bput l i d k :
  0 <= i -> i + zlen d <= zlen l -> 0 <= k ->
  zget (bput l i d) k =
    if (i <=? k) && (k <? i + zlen d) then zget d (k - i) else zget l k.
Proof.
  intros. unfold zget, bput.
  destruct (Z.leb_spec i k); simpl.
  - destruct (Z.ltb_spec k (i + zlen d)).
    + rewrite app_nth2, app_nth1; rewrite ?length_take; [f_equal|..]; lia.
    + rewrite app_nth2 by (rewrite length_take; lia).
      rewrite app_nth2 by (rewrite length_take; lia).
      rewrite nth_skipn, length_take. f_equal. lia.
  - rewrite app_nth1 by (rewrite length_take; lia).
    rewrite nth_firstn. destruct (Nat.ltb_spec (Z.to_nat k) (Z.to_nat i)); [done|lia].
Qed.

(** A list is the map of its cells. *)
Lemma map_zget_seq d (a : nat) :
  map (fun k => zget d (Z.of_nat k - Z.of_nat a)) (seq a (length d)) = d.
Proof.
  revert a. induction d as [|x d IH]; intros a; [done|]. cbn [length seq map].
  rewrite Z.sub_diag. f_equal. rewrite <- (IH (S a)) at 2.
  apply map_ext_in. intros k Hk%in_seq. unfold zget.
  replace (Z.to_nat (Z.of_nat k - Z.of_nat a)) with (S (Z.to_nat (Z.of_nat k - Z.of_nat (S a)))) by lia.
  done.
Qed.

Lemma zget_app a b k :
  0 <= k -> zget (a ++ b) k = if k <? zlen a then zget a k else zget b (k - zlen a).
Proof.
  intros. unfold zget. destruct (Z.ltb_spec k (zlen a)).
  - rewrite app_nth1 by lia. done.
  - rewrite app_nth2 by lia. f_equal. lia.
Qed.

Lemma zget_take l n k : 0 <= k < n -> zget (take (Z.to_nat n) l) k = zget l k.
Proof.
  intros. unfold zget. rewrite nth_firstn.
  destruct (Nat.ltb_spec (Z.to_nat k) (Z.to_nat n)); [done|lia].
Qed.

Lemma zget_drop l n k : 0 <= n -> 0 <= k -> zget (drop (Z.to_nat n) l) k = zget l (n + k).
Proof. intros. unfold zget. rewrite nth_skipn, Z2Nat.inj_add by lia. done. Qed.

Lemma zget_ext a b :
  length a = length b -> (forall k, 0 <= k < zlen a -> zget a k = zget b k) -> a = b.
Proof.
  intros Hl Hk. rewrite <- (map_zget_seq a 0), <- (map_zget_seq b 0), <- Hl.
  apply map_ext_in. intros k [_ ?]%in_seq. apply Hk. lia.
Qed.

Lemma zlen_nonneg (l : list Z) : 0 <= zlen l.
Proof. lia. Qed.

Lemma bsub_all l : bsub l 0 (zlen l) = l.
Proof. unfold bsub. rewrite Nat2Z.id, drop_0, take_ge; [done|lia]. Qed.

(** Reading back what was just written. *)
Lemma bsub_bput_same l d : zlen d <= zlen l -> bsub (bput l 0 d) 0 (zlen d) = d.
Proof.
  intros. apply zget_ext.
  - apply Nat2Z.inj. rewrite length_bsub; [done|lia..|].
    rewrite length_bput by lia. lia.
  - intros k Hk. rewrite length_bsub in Hk; [|lia..|rewrite length_bput; lia].
    rewrite zget_bsub, zget_bput by lia.
    replace ((0 <=? 0 + k) && (0 + k <? 0 + zlen d)) with true by lia. f_equal. lia.
Qed.

(** A write leaves what is before it and what is after it. *)
Lemma take_bput l i d :
  0 <= i -> i + zlen d <= zlen l ->
  take (Z.to_nat (i + zlen d)) (bput l i d) = take (Z.to_nat i) l ++ d.
Proof.
  intros. unfold bput. rewrite app_assoc.
  assert (E : Z.to_nat (i + zlen d) = length (take (Z.to_nat i) l ++ d))
    by (rewrite length_app, length_take; lia).
  by rewrite E, take_app_length.
Qed.

Lemma take_bput_before l i d n :
  0 <= i <= zlen l -> (n <= Z.to_nat i)%nat -> take n (bput l i d) = take n l.
Proof.
  intros. unfold bput. rewrite take_app_le by (rewrite length_take; lia).
  rewrite take_take. f_equal. lia.
Qed.

Lemma drop_bput_after l i d n :
  0 <= i <= zlen l -> (Z.to_nat i + length d <= n)%nat -> drop n (bput l i d) = drop n l.
Proof.
  intros. unfold bput. rewrite app_assoc.
  rewrite drop_app_ge by (rewrite length_app, length_take; lia).
  rewrite drop_drop, length_app, length_take. f_equal. lia.
Qed.

Lemma bsub_0 l n : bsub l 0 n = take (Z.to_nat n) l.
Proof. done. Qed.
