(* ===== verification/LedCtrl.v ===== *)
(** * The front-panel LED controller (LedCtrl.c, LedCtrl.h)

    Five bicolour LEDs hang on two cascaded 74HC595 shift registers that are
    driven bit by bit through GPIO pins.  The program keeps the 16 output bits
    in [iLedControlValue] and advances one blink state machine per LED on every
    10 ms timer tick. *)

From S2P Require Import Prelude.

(** ** GPIO traffic *)

(** A byte written to the [value] file of one of the three pins. *)
Inductive gpio : Type :=
| ClkW (v : bool)
| SdaW (v : bool)
| LtW (v : bool).

(** One pass of the bit loop of [hc595_write]: clock low, data bit, clock high;
    the argument is the current value of [data]. *)
Definition hc595_bit (data : Z) : list gpio :=
  [ClkW false; SdaW (Z.land data 0x80 =? 0x80); ClkW true].

Fixpoint hc595_bits (n : nat) (data : Z) : list gpio :=
  match n with
  | O => []
  | S n => hc595_bit data ++ hc595_bits n (s32 (Z.shiftl data 1))
  end.

Definition hc595_write (data : Z) : list gpio :=
  hc595_bits 8 data ++ [LtW false; LtW true].

(** ** The bit assignments of LedCtrl.h *)

Definition LED_NMEA_BIT_MASK : Z := Z.lor (Z.shiftl 0x3 2) (Z.shiftl 0x3 6).
Definition LED_NMEA_RED_ON : Z :=
  Z.lor (Z.lor (Z.lor (Z.shiftl 0 2) (Z.shiftl 0 6)) (Z.shiftl 1 3)) (Z.shiftl 1 7).
Definition LED_NMEA_GREEN_ON : Z :=
  Z.lor (Z.lor (Z.lor (Z.shiftl 0 3) (Z.shiftl 0 7)) (Z.shiftl 1 2)) (Z.shiftl 1 6).
Definition LED_NMEA_ORANGE_ON : Z :=
  Z.lor (Z.lor (Z.lor (Z.shiftl 0 2) (Z.shiftl 0 6)) (Z.shiftl 0 3)) (Z.shiftl 0 7).
Definition LED_NMEA_OFF : Z := Z.lor (Z.shiftl 0x3 2) (Z.shiftl 0x3 6).

Definition LED_WIFI2_BIT_MASK : Z := Z.shiftl 0x3 4.
Definition LED_WIFI2_RED_ON : Z := Z.lor (Z.shiftl 1 4) (Z.shiftl 0 5).
Definition LED_WIFI2_GREEN_ON : Z := Z.lor (Z.shiftl 1 5) (Z.shiftl 0 4).
Definition LED_WIFI2_ORANGE_ON : Z := Z.lor (Z.shiftl 0 4) (Z.shiftl 0 5).
Definition LED_WIFI2_OFF : Z := Z.shiftl 0x3 4.

Definition LED_CLOUD_BIT_MASK : Z := Z.shiftl 0x3 10.
Definition LED_CLOUD_RED_ON : Z := Z.lor (Z.shiftl 0 10) (Z.shiftl 1 11).
Definition LED_CLOUD_GREEN_ON : Z := Z.lor (Z.shiftl 0 11) (Z.shiftl 1 10).
Definition LED_CLOUD_ORANGE_ON : Z := Z.lor (Z.shiftl 0 11) (Z.shiftl 0 10).
Definition LED_CLOUD_OFF : Z := Z.shiftl 0x3 10.

Definition LED_WIFI1_BIT_MASK : Z := Z.shiftl 0x3 14.
Definition LED_WIFI1_RED_ON : Z := Z.lor (Z.shiftl 0 14) (Z.shiftl 1 15).
Definition LED_WIFI1_GREEN_ON : Z := Z.lor (Z.shiftl 0 15) (Z.shiftl 1 14).
Definition LED_WIFI1_ORANGE_ON : Z := Z.lor (Z.shiftl 0 15) (Z.shiftl 0 14).
Definition LED_WIFI1_OFF : Z := Z.shiftl 0x3 14.

Definition LED_LTE_BIT_MASK : Z := Z.shiftl 0x3 12.
Definition LED_LTE_3G_ON : Z := Z.lor (Z.shiftl 0 12) (Z.shiftl 0 13).
Definition LED_LTE_4G_ON : Z := Z.lor (Z.shiftl 1 12) (Z.shiftl 0 13).
Definition LED_LTE_NO_SIG : Z := Z.lor (Z.shiftl 0 12) (Z.shiftl 1 13).
Definition LED_LTE_OFF : Z := Z.shiftl 0x3 12.

(** ** Status codes *)

Definition LED_NMEA_ALL_FINE : Z := 0.
Definition LED_NMEA_BUS_NO_CONNECT : Z := 1.
Definition LED_NMEA_BUS_NO_DATE : Z := 2.

Definition LED_LTE_CONNECTING_4G : Z := 0.
Definition LED_LTE_CONNECTED_4G : Z := 1.
Definition LED_LTE_4G_TRANS : Z := 2.
Definition LED_LTE_CONNECTING_3G : Z := 3.
Definition LED_LTE_CONNECTED_3G : Z := 4.
Definition LED_LTE_3G_TRANS : Z := 5.
Definition LED_LTE_SIG_FAULT : Z := 6.
Definition LED_LTE_NO_SIM : Z := 7.

Definition LED_CLOUD_CONNECTED : Z := 0.
Definition LED_CLOUD_NO_CONNECTED : Z := 1.

Definition LED_WIFI1_ACT : Z := 0.
Definition LED_WIFI1_TRANS : Z := 1.
Definition LED_WIFI1_FAULT : Z := 2.
Definition LED_OFF_WIFI1 : Z := 3.

Definition LED_WIFI2_ACT : Z := 0.
Definition LED_WIFI2_TRANS : Z := 1.
Definition LED_WIFI2_FAULT : Z := 2.
Definition LED_OFF_WIFI2 : Z := 3.

(** ** Program state: the global variables, and the GPIO writes so far *)

Record leds : Type := mkLeds {
  iLedControlValue : Z;
  led_nmea_status : Z; led_nmea_timer : Z; led_nmea_cycle : Z;
  led_lte_status : Z; led_lte_timer : Z;
  led_lte_over_timer : Z; led_lte_total_timer : Z;
  led_cloud_status : Z; led_cloud_timer : Z;
  led_wifi1_status : Z; led_wifi1_timer : Z;
  led_wifi2_status : Z; led_wifi2_timer : Z;
  gpio_log : list gpio
}.

Definition leds_init : leds :=
  mkLeds 0xFFFF 0 0 0 0 0 0 0 0 0 0 0 0 0 [].

(** [x++] on an [int]. *)
Definition inc32 (x : Z) : Z := s32 (x + 1).

Definition led_control (iLedStatus iLedBitMask : Z) (s : leds) : leds :=
  let v := put_field (iLedControlValue s) iLedStatus iLedBitMask in
  s <| iLedControlValue := v |>
    <| gpio_log := gpio_log s ++ hc595_write (Z.land v 0xFF)
                     ++ hc595_write (Z.land (Z.shiftr v 8) 0xFF) |>.

Definition led_nmea_ctrl (s : leds) : leds :=
  let t := led_nmea_timer s in
  if led_nmea_status s =? LED_NMEA_ALL_FINE then
    let s := if t <? 50 then led_control LED_NMEA_OFF LED_NMEA_BIT_MASK s
             else if (50 <=? t) || (t <? 1500) then
               led_control LED_NMEA_GREEN_ON LED_NMEA_BIT_MASK s
             else s in
    let s := s <| led_nmea_timer := inc32 t |> in
    if led_nmea_timer s =? 1500 then s <| led_nmea_timer := 0 |> else s
  else if led_nmea_status s =? LED_NMEA_BUS_NO_CONNECT then
    let s := if t <? 25 then led_control LED_NMEA_RED_ON LED_NMEA_BIT_MASK s
             else if (25 <=? t) && (t <? 80) then
               led_control LED_NMEA_OFF LED_NMEA_BIT_MASK s
             else if (80 <=? t) && (t <? 105) then
               led_control LED_NMEA_RED_ON LED_NMEA_BIT_MASK s
             else if (105 <=? t) && (t <? 400) then
               led_control LED_NMEA_OFF LED_NMEA_BIT_MASK s
             else s in
    let s := s <| led_nmea_timer := inc32 t |> in
    if led_nmea_timer s =? 400 then s <| led_nmea_timer := 0 |> else s
  else if led_nmea_status s =? LED_NMEA_BUS_NO_DATE then
    let c := led_nmea_cycle s in
    let s := if t <? 480 then
               if (c * 80 <=? t) && (t <? 80 * c + 25) then
                 led_control LED_NMEA_RED_ON LED_NMEA_BIT_MASK s
               else led_control LED_NMEA_OFF LED_NMEA_BIT_MASK s
             else s in
    let s := if (t <? 505) && (480 <? t) then
               led_control LED_NMEA_RED_ON LED_NMEA_BIT_MASK s else s in
    let s := if (t <? 900) && (505 <? t) then
               led_control LED_NMEA_OFF LED_NMEA_BIT_MASK s else s in
    let s := s <| led_nmea_timer := inc32 t |> in
    let s := if (Z.rem (led_nmea_timer s) 80 =? 0) && (led_nmea_timer s <? 480)
             then s <| led_nmea_cycle := inc32 c |> else s in
    if led_nmea_timer s =? 900 then
      s <| led_nmea_timer := 0 |> <| led_nmea_cycle := 0 |>
    else s
  else s.

Definition led_lte_ctrl (s : leds) : leds :=
  let st := led_lte_status s in
  let t := led_lte_timer s in
  if (st =? LED_LTE_CONNECTING_4G) || (st =? LED_LTE_CONNECTED_4G)
     || (st =? LED_LTE_4G_TRANS) then
    let s := if t <? led_lte_over_timer s
             then led_control LED_LTE_4G_ON LED_LTE_BIT_MASK s
             else led_control LED_LTE_OFF LED_LTE_BIT_MASK s in
    let s := s <| led_lte_timer := inc32 t |> in
    if led_lte_timer s =? led_lte_total_timer s then s <| led_lte_timer := 0 |> else s
  else if (st =? LED_LTE_CONNECTING_3G) || (st =? LED_LTE_CONNECTED_3G)
          || (st =? LED_LTE_3G_TRANS) then
    let s := if t <? led_lte_over_timer s
             then led_control LED_LTE_3G_ON LED_LTE_BIT_MASK s
             else led_control LED_LTE_OFF LED_LTE_BIT_MASK s in
    let s := s <| led_lte_timer := inc32 t |> in
    if led_lte_timer s =? led_lte_total_timer s then s <| led_lte_timer := 0 |> else s
  else if st =? LED_LTE_SIG_FAULT then
    let s := if t <? 25 then led_control LED_LTE_NO_SIG LED_LTE_BIT_MASK s
             else if (25 <=? t) && (t <? 80) then
               led_control LED_LTE_OFF LED_LTE_BIT_MASK s
             else if (80 <=? t) && (t <? 105) then
               led_control LED_LTE_NO_SIG LED_LTE_BIT_MASK s
             else if (105 <=? t) && (t <? 400) then
               led_control LED_LTE_OFF LED_LTE_BIT_MASK s
             else s in
    let s := s <| led_lte_timer := inc32 t |> in
    if led_lte_timer s =? 400 then s <| led_lte_timer := 0 |> else s
  else if st =? LED_LTE_NO_SIM then
    let s := if t <? 25 then led_control LED_LTE_NO_SIG LED_LTE_BIT_MASK s
             else if (25 <=? t) && (t <? 80) then
               led_control LED_LTE_OFF LED_LTE_BIT_MASK s
             else if (80 <=? t) && (t <? 105) then
               led_control LED_LTE_NO_SIG LED_LTE_BIT_MASK s
             else if (105 <=? t) && (t <? 160) then
               led_control LED_LTE_OFF LED_LTE_BIT_MASK s
             else if (160 <=? t) && (t <? 185) then
               led_control LED_LTE_NO_SIG LED_LTE_BIT_MASK s
             else led_control LED_LTE_OFF LED_LTE_BIT_MASK s in
    let s := s <| led_lte_timer := inc32 t |> in
    if led_lte_timer s =? 500 then s <| led_lte_timer := 0 |> else s
  else s.

Definition led_cloud_ctrl (s : leds) : leds :=
  let t := led_cloud_timer s in
  if led_cloud_status s =? LED_CLOUD_CONNECTED then
    let s := if t <? 1450 then led_control LED_CLOUD_GREEN_ON LED_CLOUD_BIT_MASK s
             else led_control LED_CLOUD_OFF LED_CLOUD_BIT_MASK s in
    let s := s <| led_cloud_timer := inc32 t |> in
    if led_cloud_timer s =? 1500 then s <| led_cloud_timer := 0 |> else s
  else if led_cloud_status s =? LED_CLOUD_NO_CONNECTED then
    led_control LED_CLOUD_OFF LED_CLOUD_BIT_MASK s
  else s.

Definition led_wifi1_ctrl (s : leds) : leds :=
  let t := led_wifi1_timer s in
  if led_wifi1_status s =? LED_WIFI1_ACT then
    let s := if t <? 1450 then led_control LED_WIFI1_GREEN_ON LED_WIFI1_BIT_MASK s
             else led_control LED_WIFI1_OFF LED_WIFI1_BIT_MASK s in
    let s := s <| led_wifi1_timer := inc32 t |> in
    if led_wifi1_timer s =? 1500 then s <| led_wifi1_timer := 0 |> else s
  else if led_wifi1_status s =? LED_WIFI1_TRANS then
    let s := if t <? 50 then led_control LED_WIFI1_GREEN_ON LED_WIFI1_BIT_MASK s
             else led_control LED_WIFI1_OFF LED_WIFI1_BIT_MASK s in
    let s := s <| led_wifi1_timer := inc32 t |> in
    if led_wifi1_timer s =? 100 then s <| led_wifi1_timer := 0 |> else s
  else if led_wifi1_status s =? LED_WIFI1_FAULT then
    let s := if t <? 25 then led_control LED_WIFI1_RED_ON LED_WIFI1_BIT_MASK s
             else if (25 <=? t) && (t <? 80) then
               led_control LED_WIFI1_OFF LED_WIFI1_BIT_MASK s
             else if (80 <=? t) && (t <? 105) then
               led_control LED_WIFI1_RED_ON LED_WIFI1_BIT_MASK s
             else if (105 <=? t) && (t <? 400) then
               led_control LED_WIFI1_OFF LED_WIFI1_BIT_MASK s
             else s in
    let s := s <| led_wifi1_timer := inc32 t |> in
    if led_wifi1_timer s =? 400 then s <| led_wifi1_timer := 0 |> else s
  else if led_wifi1_status s =? LED_OFF_WIFI1 then
    led_control LED_WIFI1_OFF LED_WIFI1_BIT_MASK s
  else s.

Definition led_wifi2_ctrl (s : leds) : leds :=
  let t := led_wifi2_timer s in
  if led_wifi2_status s =? LED_WIFI2_ACT then
    let s := if t <? 1450 then led_control LED_WIFI2_GREEN_ON LED_WIFI2_BIT_MASK s
             else led_control LED_WIFI2_OFF LED_WIFI2_BIT_MASK s in
    let s := s <| led_wifi2_timer := inc32 t |> in
    if led_wifi2_timer s =? 1500 then s <| led_wifi2_timer := 0 |> else s
  else if led_wifi2_status s =? LED_WIFI2_TRANS then
    let s := if t <? 50 then led_control LED_WIFI2_GREEN_ON LED_WIFI2_BIT_MASK s
             else led_control LED_WIFI2_OFF LED_WIFI2_BIT_MASK s in
    let s := s <| led_wifi2_timer := inc32 t |> in
    if led_wifi2_timer s =? 100 then s <| led_wifi2_timer := 0 |> else s
  else if led_wifi2_status s =? LED_WIFI2_FAULT then
    let s := if t <? 25 then led_control LED_WIFI2_RED_ON LED_WIFI2_BIT_MASK s
             else if (25 <=? t) && (t <? 80) then
               led_control LED_WIFI2_OFF LED_WIFI2_BIT_MASK s
             else if (80 <=? t) && (t <? 105) then
               led_control LED_WIFI2_RED_ON LED_WIFI2_BIT_MASK s
             else if (105 <=? t) && (t <? 400) then
               led_control LED_WIFI2_OFF LED_WIFI2_BIT_MASK s
             else s in
    let s := s <| led_wifi2_timer := inc32 t |> in
    if led_wifi2_timer s =? 400 then s <| led_wifi2_timer := 0 |> else s
  else if led_wifi2_status s =? LED_OFF_WIFI2 then
    led_control LED_WIFI2_OFF LED_WIFI2_BIT_MASK s
  else s.

(** The SIGALRM handler. *)
Definition led_set (s : leds) : leds := led_lte_ctrl s.

(** The assignments of [main] before the timer is started. *)
Definition main_setup (s : leds) : leds :=
  let s := led_control LED_NMEA_GREEN_ON LED_NMEA_BIT_MASK s in
  let s := led_control LED_WIFI1_GREEN_ON LED_WIFI1_BIT_MASK s in
  let s := led_control LED_WIFI2_GREEN_ON LED_WIFI2_BIT_MASK s in
  let s := led_control LED_CLOUD_GREEN_ON LED_CLOUD_BIT_MASK s in
  s <| led_nmea_status := LED_NMEA_BUS_NO_DATE |>
    <| led_lte_status := LED_LTE_NO_SIM |>
    <| led_cloud_status := LED_CLOUD_CONNECTED |>
    <| led_wifi1_status := LED_WIFI1_OFF |>
    <| led_wifi2_status := LED_WIFI2_OFF |>.

(** ** What the lamps show *)

(** The levels on SDA at the rising edges of CLK: what the shift registers take in. *)
Fixpoint clocked (clk sda : bool) (l : list gpio) : list bool :=
  match l with
  | [] => []
  | ClkW b :: l => if b && negb clk then sda :: clocked b sda l else clocked b sda l
  | SdaW b :: l => clocked clk b l
  | LtW _ :: l => clocked clk sda l
  end.

(** The eight low bits of [v], most significant first. *)
Definition byte_bits (v : Z) : list bool :=
  map (Z.testbit v) [7; 6; 5; 4; 3; 2; 1; 0].

Lemma clocked_bits n data clk sda rest :
  clocked clk sda (hc595_bits n data ++ rest)
  = map (fun i => Z.land (Nat.iter i (fun d => s32 (Z.shiftl d 1)) data) 0x80 =? 0x80)
        (seq 0 n)
    ++ clocked (match n with O => clk | _ => true end)
         (match n with O => sda | S m =>
            Z.land (Nat.iter m (fun d => s32 (Z.shiftl d 1)) data) 0x80 =? 0x80 end) rest.
Proof.
  revert data clk sda. induction n as [|n IH]; intros; [done|].
  cbn [hc595_bits]. unfold hc595_bit. cbn [app clocked andb negb].
  rewrite IH. cbn [seq map app]. f_equal.
  rewrite <- seq_shift, map_map. f_equal.
  - apply map_ext. intros i. rewrite Nat.iter_succ_r. done.
  - destruct n; [done|]. rewrite Nat.iter_succ_r. done.
Qed.

Lemma iter_shl_bit n data : (n <= 7)%nat ->
  (Z.land (Nat.iter n (fun d => s32 (Z.shiftl d 1)) data) 0x80 =? 0x80)
  = Z.testbit data (7 - Z.of_nat n).
Proof.
  intros Hn.
  assert (forall d, (Z.land d 0x80 =? 0x80) = Z.testbit d 7) as E.
  { intros d. change 0x80 with (2 ^ 7). destruct (Z.testbit d 7) eqn:Hb.
    - apply Z.eqb_eq, Z.bits_inj'. intros i Hi. rewrite Z.land_spec, Z.pow2_bits_eqb by lia.
      destruct (Z.eqb_spec 7 i); subst; [by rewrite Hb|by rewrite andb_false_r].
    - apply Z.eqb_neq. intros H. apply (f_equal (fun x => Z.testbit x 7)) in H.
      rewrite Z.land_spec, Hb in H. discriminate H. }
  rewrite E.
  assert (forall i, 0 <= i <= 7 -> Z.of_nat n <= i ->
    Z.testbit (Nat.iter n (fun d => s32 (Z.shiftl d 1)) data) i
    = Z.testbit data (i - Z.of_nat n)) as G.
  { clear E. induction n as [|n IH]; intros i Hi Hni.
    - simpl. f_equal. lia.
    - simpl Nat.iter. rewrite testbit_swrap by lia. rewrite Z.shiftl_spec by lia.
      rewrite IH by lia. f_equal. lia. }
  apply G; lia.
Qed.

(** [hc595_write] clocks out its argument's low byte, most significant bit first. *)
Lemma hc595_write_clocked data clk sda rest :
  exists sda', clocked clk sda (hc595_write data ++ rest) = byte_bits data ++ clocked true sda' rest.
Proof.
  unfold hc595_write. rewrite <- app_assoc, clocked_bits. cbn [app clocked].
  eexists. f_equal. unfold byte_bits. cbn [seq map].
  rewrite !iter_shl_bit by lia. reflexivity.
Qed.

(** The two bits of one LED. *)
Definition led_field (mask : Z) (s : leds) : Z := Z.land (iLedControlValue s) mask.

(** The five masks do not overlap and cover the sixteen outputs but four. *)
Definition led_masks : list Z :=
  [LED_NMEA_BIT_MASK; LED_WIFI2_BIT_MASK; LED_CLOUD_BIT_MASK;
   LED_LTE_BIT_MASK; LED_WIFI1_BIT_MASK].

Lemma led_control_get st mask s :
  Z.land st mask = st -> led_field mask (led_control st mask s) = st.
Proof. intros H. destruct s. apply put_field_get. exact H. Qed.

Lemma led_control_other st mask m s :
  Z.land st mask = st -> Z.land m mask = 0 ->
  led_field m (led_control st mask s) = led_field m s.
Proof. intros H H'. destruct s. by apply put_field_other. Qed.

(** One tick of an LED's state machine writes at most the LED's own bits. *)
Definition keeps_others (mask : Z) (s s' : leds) : Prop :=
  forall m, Z.land m mask = 0 -> led_field m s' = led_field m s.

Create HintDb leds.
#[export] Hint Resolve led_control_get led_control_other : leds.

Arguments hc595_write : simpl never.
Arguments put_field : simpl never.
Arguments inc32 : simpl never.

(** ** The "no data" pattern of the NMEA LED *)

(** Six red flashes of 25 ticks every 80 ticks, with the last one shifted by a
    tick (481..505), then dark until tick 900. *)
Definition no_date_colour (t : Z) : Z :=
  if t <=? 480 then if (t <? 480) && (t mod 80 <? 25) then LED_NMEA_RED_ON else LED_NMEA_OFF
  else if t <=? 505 then LED_NMEA_RED_ON else LED_NMEA_OFF.

Definition no_date_inv (s : leds) : Prop :=
  led_nmea_status s = LED_NMEA_BUS_NO_DATE /\
  led_nmea_cycle s = Z.min (led_nmea_timer s / 80) 5 /\
  (led_nmea_timer s = 480 -> led_field LED_NMEA_BIT_MASK s = LED_NMEA_OFF) /\
  (led_nmea_timer s = 505 -> led_field LED_NMEA_BIT_MASK s = LED_NMEA_RED_ON).

(** Discharge the facts a tick leaves: bit fields, and arithmetic on the timers. *)
Ltac led_bits :=
  unfold led_field; cbn [iLedControlValue];
  first [ rewrite put_field_get by reflexivity; reflexivity
        | rewrite put_field_other by (reflexivity || assumption); reflexivity
        | reflexivity ].

Ltac led_arith :=
  repeat match goal with
         | H : context [Z.rem ?a ?b] |- _ => rewrite (Z.rem_mod_nonneg a b) in H by lia
         end;
  rewrite ?(s32_small (Z.min _ _ + 1)) by (Z.div_mod_to_equations; lia);
  Z.div_mod_to_equations; lia.

Ltac led_tick E :=
  split_tests E; subst;
  cbn [led_nmea_status led_nmea_timer led_nmea_cycle led_lte_status led_lte_timer
       led_lte_over_timer led_lte_total_timer];
  split_and!; intros;
  try first [done | lia | led_bits | led_arith | exfalso; led_arith].

Lemma inc32_small t : 0 <= t < INT_MAX -> inc32 t = t + 1.
Proof. unfold INT_MAX. intros. apply s32_small. lia. Qed.

Lemma no_date_step s :
  no_date_inv s -> 0 <= led_nmea_timer s < 900 ->
  no_date_inv (led_nmea_ctrl s) /\
  led_nmea_timer (led_nmea_ctrl s) = (led_nmea_timer s + 1) mod 900 /\
  led_field LED_NMEA_BIT_MASK (led_nmea_ctrl s) = no_date_colour (led_nmea_timer s) /\
  keeps_others LED_NMEA_BIT_MASK s (led_nmea_ctrl s).
Proof.
  destruct s as [v st t c]. unfold no_date_inv, keeps_others, no_date_colour.
  cbn [led_nmea_status led_nmea_timer led_nmea_cycle].
  intros (-> & -> & H480 & H505) Ht.
  remember (led_nmea_ctrl _) as s' eqn:E. unfold led_nmea_ctrl in E.
  cbn -[Z.div Z.modulo Z.rem] in E. rewrite inc32_small in E by (unfold INT_MAX; lia).
  unfold inc32 in E. led_tick E; split_tests_goal;
    first [led_bits | apply H480; lia | apply H505; lia | led_arith | exfalso; led_arith].
Qed.

(** ** The NMEA LED with the bus disconnected *)

Definition no_connect_colour (t : Z) : Z :=
  if (t <? 25) || ((80 <=? t) && (t <? 105)) then LED_NMEA_RED_ON else LED_NMEA_OFF.

Lemma no_connect_step s :
  led_nmea_status s = LED_NMEA_BUS_NO_CONNECT -> 0 <= led_nmea_timer s < 400 ->
  led_nmea_status (led_nmea_ctrl s) = LED_NMEA_BUS_NO_CONNECT /\
  led_nmea_timer (led_nmea_ctrl s) = (led_nmea_timer s + 1) mod 400 /\
  led_field LED_NMEA_BIT_MASK (led_nmea_ctrl s) = no_connect_colour (led_nmea_timer s).
Proof.
  destruct s as [v st t c]. unfold no_connect_colour.
  cbn [led_nmea_status led_nmea_timer led_nmea_cycle].
  intros -> Ht.
  remember (led_nmea_ctrl _) as s' eqn:E. unfold led_nmea_ctrl in E.
  cbn -[Z.div Z.modulo Z.rem] in E. rewrite inc32_small in E by (unfold INT_MAX; lia).
  led_tick E; split_tests_goal; first [led_bits | exfalso; led_arith].
Qed.

(** The timer of the disconnected state is only reset when it is exactly 400. *)
Lemma no_connect_late_step s :
  led_nmea_status s = LED_NMEA_BUS_NO_CONNECT -> 400 <= led_nmea_timer s < INT_MAX ->
  led_nmea_status (led_nmea_ctrl s) = LED_NMEA_BUS_NO_CONNECT /\
  led_nmea_timer (led_nmea_ctrl s) = led_nmea_timer s + 1 /\
  iLedControlValue (led_nmea_ctrl s) = iLedControlValue s.
Proof.
  destruct s as [v st t c]. cbn [led_nmea_status led_nmea_timer iLedControlValue].
  intros -> Ht.
  remember (led_nmea_ctrl _) as s' eqn:E. unfold led_nmea_ctrl in E.
  cbn -[Z.div Z.modulo Z.rem] in E. rewrite inc32_small in E by lia.
  split_tests E; subst; auto.
Qed.

(** ** The LTE LED without a SIM card *)

Definition no_sim_colour (t : Z) : Z :=
  if (t <? 25) || ((80 <=? t) && (t <? 105)) || ((160 <=? t) && (t <? 185))
  then LED_LTE_NO_SIG else LED_LTE_OFF.

Lemma no_sim_step s :
  led_lte_status s = LED_LTE_NO_SIM -> 0 <= led_lte_timer s < 500 ->
  led_lte_status (led_lte_ctrl s) = LED_LTE_NO_SIM /\
  led_lte_timer (led_lte_ctrl s) = (led_lte_timer s + 1) mod 500 /\
  led_field LED_LTE_BIT_MASK (led_lte_ctrl s) = no_sim_colour (led_lte_timer s) /\
  keeps_others LED_LTE_BIT_MASK s (led_lte_ctrl s).
Proof.
  destruct s as [v nst nt nc st t]. unfold no_sim_colour, keeps_others.
  cbn [led_lte_status led_lte_timer].
  intros -> Ht.
  remember (led_lte_ctrl _) as s' eqn:E. unfold led_lte_ctrl in E.
  cbn -[Z.div Z.modulo Z.rem] in E. rewrite inc32_small in E by (unfold INT_MAX; lia).
  led_tick E; split_tests_goal; first [led_bits | exfalso; led_arith].
Qed.

(** ** Properties *)

(** [led_control] stores the new status in the LED's own bits and leaves the
    other LEDs alone, and the bits it then clocks out to the two shift registers
    are the new control value, low byte first, most significant bit first. *)
Theorem led_control_correct st mask s :
  Z.land st mask = st ->
  let s' := led_control st mask s in
  led_field mask s' = st /\
  (forall m, Z.land m mask = 0 -> led_field m s' = led_field m s) /\
  exists w, gpio_log s' = gpio_log s ++ w /\
    forall clk sda, clocked clk sda w =
      byte_bits (Z.land (iLedControlValue s') 0xFF) ++
      byte_bits (Z.land (Z.shiftr (iLedControlValue s') 8) 0xFF).
Proof.
  intros H s'. split_and!.
  - by apply led_control_get.
  - intros m Hm. by apply led_control_other.
  - eexists. split; [subst s'; destruct s; reflexivity|]. intros clk sda.
    destruct (hc595_write_clocked (Z.land (iLedControlValue s') 0xFF) clk sda
      (hc595_write (Z.land (Z.shiftr (iLedControlValue s') 8) 0xFF))) as [x Hx].
    destruct (hc595_write_clocked (Z.land (Z.shiftr (iLedControlValue s') 8) 0xFF)
      true x []) as [y Hy].
    change (clocked true y []) with (@nil bool) in Hy. rewrite !app_nil_r in Hy.
    rewrite Hy in Hx. subst s'. destruct s. exact Hx.
Qed.

Lemma led_control_correct_witness :
  led_field LED_WIFI1_BIT_MASK (led_control LED_WIFI1_RED_ON LED_WIFI1_BIT_MASK leds_init)
  = LED_WIFI1_RED_ON.
Proof.
  apply (led_control_correct LED_WIFI1_RED_ON LED_WIFI1_BIT_MASK leds_init). reflexivity.
Defined.

(** After [main]'s set-up, whatever the number of timer ticks, the LTE LED
    shows the three-flash "no SIM" pattern of period 500 ticks and the four other
    LEDs stay green. *)
Theorem main_shows_no_sim n :
  let s := Nat.iter (S n) led_set (main_setup leds_init) in
  led_field LED_LTE_BIT_MASK s = no_sim_colour (Z.of_nat n mod 500) /\
  led_field LED_NMEA_BIT_MASK s = LED_NMEA_GREEN_ON /\
  led_field LED_WIFI1_BIT_MASK s = LED_WIFI1_GREEN_ON /\
  led_field LED_WIFI2_BIT_MASK s = LED_WIFI2_GREEN_ON /\
  led_field LED_CLOUD_BIT_MASK s = LED_CLOUD_GREEN_ON.
Proof.
  set (Inv := fun s => led_lte_status s = LED_LTE_NO_SIM /\
    led_field LED_NMEA_BIT_MASK s = LED_NMEA_GREEN_ON /\
    led_field LED_WIFI1_BIT_MASK s = LED_WIFI1_GREEN_ON /\
    led_field LED_WIFI2_BIT_MASK s = LED_WIFI2_GREEN_ON /\
    led_field LED_CLOUD_BIT_MASK s = LED_CLOUD_GREEN_ON).
  assert (forall s, Inv s -> 0 <= led_lte_timer s < 500 ->
    Inv (led_set s) /\ led_lte_timer (led_set s) = (led_lte_timer s + 1) mod 500) as Hstep.
  { intros s (Hst & Hf) Ht. destruct (no_sim_step s Hst Ht) as (? & ? & _ & Ho).
    unfold Inv, led_set. rewrite !Ho by reflexivity. auto. }
  destruct (periodic_iter led_set led_lte_timer Inv 500 ltac:(lia) Hstep
    (main_setup leds_init) n) as [Hi Ht]; [by vm_compute|by vm_compute|].
  cbn zeta. rewrite Nat.iter_succ. set (s := Nat.iter n led_set _) in *.
  change (led_lte_timer (main_setup leds_init)) with 0 in Ht. rewrite Z.add_0_l in Ht.
  pose proof (Z.mod_pos_bound (Z.of_nat n) 500).
  destruct (Hstep s Hi) as [Hi' _]; [lia|].
  destruct (no_sim_step s (proj1 Hi)) as (_ & _ & Hc & _); [lia|].
  rewrite <- Ht. split; [exact Hc|]. apply Hi'.
Qed.

(** With the bus connected but silent, the NMEA LED repeats its 900-tick
    flash pattern for ever and never disturbs the other LEDs. *)
Theorem nmea_no_data_pattern s n :
  led_nmea_status s = LED_NMEA_BUS_NO_DATE ->
  led_nmea_timer s = 0 -> led_nmea_cycle s = 0 ->
  let s' := Nat.iter (S n) led_nmea_ctrl s in
  led_field LED_NMEA_BIT_MASK s' = no_date_colour (Z.of_nat n mod 900) /\
  keeps_others LED_NMEA_BIT_MASK s s'.
Proof.
  intros Hst Ht0 Hc0.
  set (Inv := fun x => no_date_inv x /\ keeps_others LED_NMEA_BIT_MASK s x).
  assert (forall x, Inv x -> 0 <= led_nmea_timer x < 900 ->
    Inv (led_nmea_ctrl x) /\
    led_nmea_timer (led_nmea_ctrl x) = (led_nmea_timer x + 1) mod 900) as Hstep.
  { intros x (Hx & Ho) Ht. destruct (no_date_step x Hx Ht) as (? & ? & _ & Ho').
    split; [split; [done|]|done]. intros m Hm. rewrite Ho', Ho; auto. }
  destruct (periodic_iter led_nmea_ctrl led_nmea_timer Inv 900 ltac:(lia) Hstep s n)
    as [Hi Ht].
  { split; [|by intros ?]. unfold no_date_inv. rewrite Ht0. split_and!; auto; discriminate. }
  { lia. }
  rewrite Ht0, Z.add_0_l in Ht. pose proof (Z.mod_pos_bound (Z.of_nat n) 900).
  cbn zeta. rewrite Nat.iter_succ. set (x := Nat.iter n led_nmea_ctrl s) in *.
  destruct (Hstep x Hi) as [[_ Ho] _]; [lia|].
  destruct (no_date_step x (proj1 Hi)) as (_ & _ & Hc & _); [lia|].
  rewrite <- Ht. auto.
Qed.

Lemma nmea_no_data_pattern_witness :
  led_field LED_NMEA_BIT_MASK (Nat.iter 901 led_nmea_ctrl (main_setup leds_init))
  = LED_NMEA_RED_ON.
Proof.
  exact (proj1 (nmea_no_data_pattern (main_setup leds_init) 900 eq_refl eq_refl eq_refl)).
Defined.

(** If the bus is reported disconnected when the timer of the previous state
    has already passed 400, the reset test is never met again: the timer runs on
    and the lamp keeps whatever colour it had until the [int] overflows. *)
Theorem nmea_no_connect_stuck s n :
  led_nmea_status s = LED_NMEA_BUS_NO_CONNECT ->
  400 <= led_nmea_timer s -> led_nmea_timer s + Z.of_nat n <= INT_MAX ->
  let s' := Nat.iter n led_nmea_ctrl s in
  led_nmea_timer s' = led_nmea_timer s + Z.of_nat n /\
  iLedControlValue s' = iLedControlValue s.
Proof.
  intros Hst Ht Hn. cbn zeta.
  enough (led_nmea_status (Nat.iter n led_nmea_ctrl s) = LED_NMEA_BUS_NO_CONNECT /\
    led_nmea_timer (Nat.iter n led_nmea_ctrl s) = led_nmea_timer s + Z.of_nat n /\
    iLedControlValue (Nat.iter n led_nmea_ctrl s) = iLedControlValue s) as (_ & ? & ?); [auto|].
  induction n as [|n IH]; [rewrite Z.add_0_r; auto|].
  destruct IH as (IH1 & IH2 & IH3); [lia|]. rewrite Nat.iter_succ.
  destruct (no_connect_late_step _ IH1) as (? & -> & ->); [lia|].
  split_and!; [done|lia|done].
Qed.

Lemma nmea_no_connect_stuck_witness :
  let s := (Nat.iter 700 led_nmea_ctrl leds_init) <| led_nmea_status := LED_NMEA_BUS_NO_CONNECT |> in
  led_field LED_NMEA_BIT_MASK (Nat.iter 4000 led_nmea_ctrl s) = LED_NMEA_GREEN_ON.
Proof.
  intros s. unfold led_field.
  rewrite (proj2 (nmea_no_connect_stuck s 4000 eq_refl ltac:(apply Z.leb_le; vm_compute; reflexivity) ltac:(apply Z.leb_le; vm_compute; reflexivity))).
  vm_compute. reflexivity.
Defined.
