(* ===== verification/CString.v ===== *)
(** * C strings and character classes

    A block of memory that holds a string is the list of its bytes; the string ends
    at the first NUL.  A string value (the [char_t *] a program passes around) is the
    list of the bytes before its NUL. *)

From Stdlib Require Import Ascii String.
Export StringSyntax.
From S2P Require Import Prelude.
#[local] Open Scope Z_scope.

(** A string literal. *)
Definition str (s : String.string) : list Z :=
  map (fun c => Z.of_nat (nat_of_ascii c)) (list_ascii_of_string s).
Arguments str s%_string.

(** A [char_t *]: the null pointer or a string. *)
Abbreviation cptr := (option (list Z)) (only parsing).

(** [bstrdup] of a null pointer gives an empty string; the copy of a string is [bstrdup],
    which may find no memory. *)
Definition bstrdup_ptr (bstrdup : list Z -> cptr) (p : cptr) : cptr := bstrdup (default [] p).

(** The string at the start of a block; a block without a NUL is read past its end. *)
Fixpoint cstr (b : list Z) : option (list Z) :=
  match b with
  | [] => None
  | c :: b => if c =? 0 then Some [] else s ← cstr b; Some (c :: s)
  end.

(** [strlen]. *)
Definition strlen (b : list Z) : option Z := s ← cstr b; Some (zlen s).

(** Bytes that can be part of a string. *)
Definition no_nul (s : list Z) : Prop := Forall (fun c => c <> 0) s.

Lemma cstr_app s b : no_nul s -> cstr (s ++ 0 :: b) = Some s.
Proof.
  induction 1 as [|c s Hc Hs IH]; [done|]. cbn. rewrite IH.
  by destruct (Z.eqb_spec c 0).
Qed.

Lemma cstr_sound b s : cstr b = Some s -> no_nul s /\ exists b', b = s ++ 0 :: b'.
Proof.
  revert s. induction b as [|c b IH]; intros s; cbn; [done|].
  destruct (Z.eqb_spec c 0) as [->|Hc].
  - intros [= <-]. split; [constructor|]. by exists b.
  - destruct (cstr b) as [s'|] eqn:E; cbn; [|done]. intros [= <-].
    destruct (IH s' eq_refl) as (Hs & b' & ->). split; [by constructor|by exists b'].
Qed.

(** The [<ctype.h>] classes of the C locale, on an [int]. *)
Definition isdigit (c : Z) : bool := (48 <=? c) && (c <=? 57).
Definition isupper (c : Z) : bool := (65 <=? c) && (c <=? 90).
Definition islower (c : Z) : bool := (97 <=? c) && (c <=? 122).
Definition isalpha (c : Z) : bool := isupper c || islower c.
Definition isalnum (c : Z) : bool := isalpha c || isdigit c.
Definition isspace (c : Z) : bool := (c =? 32) || ((9 <=? c) && (c <=? 13)).
Definition tolower (c : Z) : Z := if isupper c then c + 32 else c.
Definition toupper (c : Z) : Z := if islower c then c - 32 else c.

(** [strcmp] and its case-insensitive variant, for equality. *)
Fixpoint strcmp (a b : list Z) : Z :=
  match a, b with
  | [], [] => 0
  | [], _ :: _ => -1
  | _ :: _, [] => 1
  | x :: a, y :: b => if x =? y then strcmp a b else if x <? y then -1 else 1
  end.

Lemma strcmp_eq a b : strcmp a b = 0 <-> a = b.
Proof.
  revert b. induction a as [|x a IH]; intros [|y b]; cbn; split; try done.
  - destruct (Z.eqb_spec x y) as [->|]; [|by destruct (x <? y)].
    intros H. f_equal. by apply IH.
  - intros [= -> ->]. rewrite Z.eqb_refl. by apply IH.
Qed.

(** The decimal value of a list of digits. *)
Definition dec_val (s : list Z) : Z := fold_left (fun v c => v * 10 + (c - 48)) s 0.

(** [atoi]: the value of the digits after optional blanks and a sign. *)
Fixpoint digits_prefix (s : list Z) : list Z :=
  match s with
  | c :: s => if isdigit c then c :: digits_prefix s else []
  | [] => []
  end.

Fixpoint skip_space (s : list Z) : list Z :=
  match s with
  | c :: s' => if isspace c then skip_space s' else s
  | [] => []
  end.

(** [None]: the value does not fit an [int], or the block has no NUL. *)
Definition atoi (b : list Z) : option Z :=
  s ← cstr b;
  let s := skip_space s in
  let '(neg, s) := match s with
                   | c :: s' => if c =? 45 then (true, s') else if c =? 43 then (false, s') else (false, s)
                   | [] => (false, [])
                   end in
  let v := dec_val (digits_prefix s) in
  let v := if neg : bool then - v else v in
  if (- 2 ^ 31 <=? v) && (v <? 2 ^ 31) then Some v else None.
