(* ===== verification/Fmt.v ===== *)
(** * The string formatter of the web server (webs/src/src/misc.c)

    [dsnprintf] and the functions on top of it.  The interpretation of a format is
    generic in the sink that takes the characters (class [Sink]): the code's
    [strbuf_t], which grows in steps of 64 bytes up to a limit, or a plain list,
    which is the reference.  A result [None] is undefined behaviour: an argument of
    the wrong type, a read past the format, a write outside of the buffer or through
    a null pointer. *)

From S2P Require Import Prelude CString.
#[local] Open Scope Z_scope.
#[local] Open Scope cint_scope.

(** ** Arguments and flags *)

(** A variadic argument: [int], [long], a string (a null pointer or the memory it
    points to), a pointer value, or the address of a counter for [%n]. *)
Inductive farg : Type :=
| AInt (z : Z)
| ALong (z : Z)
| AStr (s : option (list Z))
| APtr (p : Z)
| ACount.

Definition flag_minus : Z := 1.
Definition flag_plus : Z := 2.
Definition flag_space : Z := 4.
Definition flag_hash : Z := 8.
Definition flag_zero : Z := 16.
Definition flag_short : Z := 32.
Definition flag_long : Z := 64.

Definition has (f flag : Z) : bool := negb (Z.land f flag =? 0).

(** The format pointer: the bytes up to the NUL, or one past the NUL. *)
Definition fmtp : Type := option (list Z).

(** [c = *fmt++] *)
Definition next (fmt : fmtp) : option (Z * fmtp) :=
  match fmt with
  | None => None
  | Some [] => Some (0, None)
  | Some (c :: fmt) => Some (c, Some fmt)
  end.

(** ** The sink *)

Class Sink (B : Type) : Type := {
  put_char : B -> Z -> option B;
  sink_count : B -> Z
}.

Section Format.
Context {B : Type} `{Sink B}.
(** The width of [long] in bits. *)
Context (lw : Z).

Definition ULONG_MAX : Z := 2 ^ lw - 1.

(** [for (i = 0; i < n; ++i) put_char(buf, c)] *)
Fixpoint put_many (n : nat) (buf : B) (c : Z) : option B :=
  match n with
  | O => Some buf
  | S n => buf ← put_char buf c; put_many n buf c
  end.

(** The characters [s[0], s[1], ..] in turn. *)
Fixpoint put_list (buf : B) (s : list Z) : option B :=
  match s with
  | [] => Some buf
  | c :: s => buf ← put_char buf c; put_list buf s
  end.

(** The second argument of [gstrnlen] is an [unsigned int]. *)
Definition gstrnlen (s : list Z) (n : Z) : option Z :=
  len ← strlen s;
  Some (Z.min len (u32 n)).

Definition put_string (buf : B) (s : list Z) (len width prec f : Z) : option B :=
  len ← (if len <? 0 then gstrnlen s (if 0 <=? prec then prec else ULONG_MAX)
         else Some (if (0 <=? prec) && (prec <? len) then prec else len));
  buf ← (if (len <? width) && negb (has f flag_minus)
         then put_many (Z.to_nat (width - len)) buf 32 else Some buf);
  buf ← (if zlen s <? len then None else put_list buf (bsub s 0 len));
  if (len <? width) && has f flag_minus
  then put_many (Z.to_nat (width - len)) buf 32 else Some buf.

(** [for (len = 1, x = 1; x < ULONG_MAX / base; ++len, x = x2) ..] *)
Fixpoint ulong_len (fuel : nat) (value base len x : Z) : option (Z * Z) :=
  match fuel with
  | O => None
  | S fuel =>
      if x <? ULONG_MAX / base then
        let x2 := x * base in
        if value <? x2 then Some (len, x) else ulong_len fuel value base (len + 1) x2
      else Some (len, x)
  end.

Definition digit_char (upper : bool) (digit : Z) : Z :=
  (if digit <? 10 then 48 else (if upper then 65 else 97) - 10) + digit.

(** [for ( ; x > 0; x /= base) ..] *)
Fixpoint put_digits (fuel : nat) (buf : B) (value base : Z) (upper : bool) (x : Z) : option B :=
  match fuel with
  | O => None
  | S fuel =>
      if 0 <? x then
        let digit := (value / x) mod base in
        buf ← put_char buf (digit_char upper digit);
        put_digits fuel buf value base upper (x / base)
      else Some buf
  end.

Definition put_ulong (buf : B) (value base : Z) (upper : bool) (prefix : option (list Z))
  (width prec f : Z) : option B :=
  '(len, x) ← ulong_len (S (Z.to_nat lw)) value base 1 1;
  let zeros := if len <? prec then prec - len else 0 in
  let width := width - (zeros + len) in
  let width := match prefix with Some p => width - zlen p | None => width end in
  buf ← (if negb (has f flag_minus)
         then put_many (Z.to_nat width) buf (if has f flag_zero then 48 else 32)
         else Some buf);
  buf ← (match prefix with
         | Some p => put_string buf (p ++ [0]) (-1) 0 (-1) 0
         | None => Some buf
         end);
  buf ← put_many (Z.to_nat zeros) buf 48;
  buf ← put_digits (S (S (Z.to_nat lw))) buf value base upper x;
  if has f flag_minus then put_many (Z.to_nat width) buf 32 else Some buf.
End Format.

(** ** The format *)

Definition flag_of (c : Z) : option Z :=
  if c =? 45 then Some flag_minus
  else if c =? 43 then Some flag_plus
  else if c =? 32 then Some flag_space
  else if c =? 35 then Some flag_hash
  else if c =? 48 then Some flag_zero
  else None.

Fixpoint flags_loop (fuel : nat) (f c : Z) (fmt : fmtp) : option (Z * Z * fmtp) :=
  match fuel with
  | O => None
  | S fuel =>
      match flag_of c with
      | Some b => '(c, fmt) ← next fmt; flags_loop fuel (Z.lor f b) c fmt
      | None => Some (f, c, fmt)
      end
  end.

(** [for ( ; gisdigit(c); c = *fmt++) n = n * 10 + (c - '0')] *)
Fixpoint number_loop (fuel : nat) (n c : Z) (fmt : fmtp) : option (Z * Z * fmtp) :=
  match fuel with
  | O => None
  | S fuel =>
      if isdigit c then
        let n := s32 (n * 10 + (c - 48)) in
        '(c, fmt) ← next fmt; number_loop fuel n c fmt
      else Some (n, c, fmt)
  end.

Definition va_int (args : list farg) : option (Z * list farg) :=
  match args with AInt z :: args => Some (z, args) | _ => None end.

Definition va_long (args : list farg) : option (Z * list farg) :=
  match args with ALong z :: args => Some (z, args) | _ => None end.

Definition va_str (args : list farg) : option (option (list Z) * list farg) :=
  match args with AStr s :: args => Some (s, args) | _ => None end.

Definition va_ptr (args : list farg) : option (Z * list farg) :=
  match args with APtr p :: args => Some (p, args) | _ => None end.

(** The field width: flags, width, and what follows. *)
Definition spec_width (fuel : nat) (f c : Z) (fmt : fmtp) (args : list farg)
  : option (Z * Z * Z * fmtp * list farg) :=
  if c =? 42 then
    '(width, args) ← va_int args;
    let '(f, width) := if width <? 0 then (Z.lor f flag_minus, s32 (- width)) else (f, width) in
    '(c, fmt) ← next fmt;
    Some (f, width, c, fmt, args)
  else
    '(width, c, fmt) ← number_loop fuel 0 c fmt;
    Some (f, width, c, fmt, args).

(** The precision, -1 if there is none. *)
Definition spec_prec (fuel : nat) (f c : Z) (fmt : fmtp) (args : list farg)
  : option (Z * Z * Z * fmtp * list farg) :=
  if c =? 46 then
    let f := Z.land f (Z.lnot flag_zero) in
    '(c, fmt) ← next fmt;
    if c =? 42 then
      '(prec, args) ← va_int args;
      '(c, fmt) ← next fmt;
      Some (f, prec, c, fmt, args)
    else
      '(prec, c, fmt) ← number_loop fuel 0 c fmt;
      Some (f, prec, c, fmt, args)
  else Some (f, -1, c, fmt, args).

Definition spec_size (f c : Z) (fmt : fmtp) : option (Z * Z * fmtp) :=
  if (c =? 104) || (c =? 108) then
    let f := Z.lor f (if c =? 104 then flag_short else flag_long) in
    '(c, fmt) ← next fmt;
    Some (f, c, fmt)
  else Some (f, c, fmt).

Section Conversions.
Context {B : Type} `{Sink B}.
Context (lw : Z).

(** [%d] and [%i] *)
Definition conv_signed (buf : B) (f width prec : Z) (args : list farg) : option (B * list farg) :=
  '(value, args) ← (if has f flag_short then '(z, args) ← va_int args; Some (swrap 16 z, args)
                    else if has f flag_long then va_long args
                    else va_int args);
  buf ← (if 0 <=? value then
           if has f flag_plus then put_ulong lw buf value 10 false (Some (str "+")) width prec f
           else if has f flag_space
           then put_ulong lw buf value 10 false (Some (str " ")) width prec f
           else put_ulong lw buf value 10 false None width prec f
         else put_ulong lw buf (uwrap lw (- value)) 10 false (Some (str "-")) width prec f);
  Some (buf, args).

(** [%o], [%u], [%x] and [%X] *)
Definition conv_unsigned (buf : B) (c f width prec : Z) (args : list farg)
  : option (B * list farg) :=
  '(value, args) ← (if has f flag_short then '(z, args) ← va_int args; Some (u16 z, args)
                    else if has f flag_long then '(z, args) ← va_long args; Some (uwrap lw z, args)
                    else '(z, args) ← va_int args; Some (u32 z, args));
  buf ← (if c =? 111 then
           if has f flag_hash && negb (value =? 0)
           then put_ulong lw buf value 8 false (Some (str "0")) width prec f
           else put_ulong lw buf value 8 false None width prec f
         else if c =? 117 then put_ulong lw buf value 10 false None width prec f
         else if has f flag_hash && negb (value =? 0) then
           if c =? 120 then put_ulong lw buf value 16 false (Some (str "0x")) width prec f
           else put_ulong lw buf value 16 true (Some (str "0X")) width prec f
         else put_ulong lw buf value 16 (c =? 88) None width prec f);
  Some (buf, args).

(** [%s] and [%S]; with [#] the first byte is a length. *)
Definition conv_string (buf : B) (f width prec : Z) (args : list farg) : option (B * list farg) :=
  '(value, args) ← va_str args;
  buf ← (match value with
         | None => put_string lw buf (str "(null)" ++ [0]) (-1) width prec f
         | Some [] => if has f flag_hash then None else put_string lw buf [] (-1) width prec f
         | Some (n :: s) =>
             if has f flag_hash then put_string lw buf s (swrap 8 n) width prec f
             else put_string lw buf (n :: s) (-1) width prec f
         end);
  Some (buf, args).

(** One conversion: the sink, the arguments left, and the counts stored by [%n]. *)
Definition convert (buf : B) (c f width prec : Z) (args : list farg)
  : option (B * list farg * list Z) :=
  if (c =? 100) || (c =? 105) then
    '(buf, args) ← conv_signed buf f width prec args; Some (buf, args, [])
  else if (c =? 111) || (c =? 117) || (c =? 120) || (c =? 88) then
    '(buf, args) ← conv_unsigned buf c f width prec args; Some (buf, args, [])
  else if c =? 99 then
    '(z, args) ← va_int args;
    buf ← put_char buf (u8 z);
    Some (buf, args, [])
  else if (c =? 115) || (c =? 83) then
    '(buf, args) ← conv_string buf f width prec args; Some (buf, args, [])
  else if c =? 112 then
    '(p, args) ← va_ptr args;
    buf ← put_ulong lw buf (uwrap lw p) 16 false (Some (str "0x")) width prec f;
    Some (buf, args, [])
  else if c =? 110 then
    match args with
    | ACount :: args => Some (buf, args, [sink_count buf])
    | _ => None
    end
  else
    buf ← put_char buf c; Some (buf, args, []).

(** What follows a [%]; [c] is the next character. *)
Definition directive (fuel : nat) (buf : B) (c : Z) (fmt : fmtp) (args : list farg)
  : option (B * fmtp * list farg * list Z) :=
  '(f, c, fmt) ← flags_loop fuel 0 c fmt;
  '(f, width, c, fmt, args) ← spec_width fuel f c fmt args;
  '(f, prec, c, fmt, args) ← spec_prec fuel f c fmt args;
  '(f, c, fmt) ← spec_size f c fmt;
  '(buf, args, counts) ← convert buf c f width prec args;
  Some (buf, fmt, args, counts).

Fixpoint format_loop (fuel : nat) (buf : B) (fmt : fmtp) (args : list farg)
  : option (B * list Z) :=
  match fuel with
  | O => None
  | S n =>
      '(c, fmt) ← next fmt;
      if c =? 0 then Some (buf, [])
      else if negb (c =? 37) then
        buf ← put_char buf c; format_loop n buf fmt args
      else
        '(c, fmt) ← next fmt;
        if c =? 37 then buf ← put_char buf c; format_loop n buf fmt args
        else
          '(buf, fmt, args, counts) ← directive fuel buf c fmt args;
          '(buf, counts') ← format_loop n buf fmt args;
          Some (buf, counts ++ counts')
  end.

(** Every round reads a character of the format. *)
Definition format (buf : B) (fmt : list Z) (args : list farg) : option (B * list Z) :=
  format_loop (S (S (length fmt))) buf (Some fmt) args.
End Conversions.

(** ** The string buffer *)

Record strbuf_t : Type := mkStrbuf {
  s : option (list Z);
  size : Z;
  smax : Z;
  count : Z;
  realloc : bool
}.

Definition STR_INC : Z := 64.

Section Buffer.
Context (balloc : Z -> option (list Z)).
Context (brealloc : list Z -> Z -> option (list Z)).

(** The end of [put_char]: [buf->s[buf->count] = c; if (c) ++buf->count;] *)
Definition store_char (buf : strbuf_t) (c : Z) : option strbuf_t :=
  b ← s buf;
  if (0 <=? count buf) && (count buf <? zlen b) then
    let buf := buf <| s := Some (bput b (count buf) [c]) |> in
    Some (if negb (c =? 0) then buf <| count := count buf + 1 |> else buf)
  else None.

Definition strbuf_put_char (buf : strbuf_t) (c : Z) : option strbuf_t :=
  if size buf - 1 <=? count buf then
    if negb (realloc buf) then Some buf
    else
      let buf := buf <| size := s32 (size buf + STR_INC) |> in
      if (smax buf <? size buf) && (STR_INC <? size buf)
      then Some (buf <| size := s32 (size buf - STR_INC) |>)
      else
        let b := match s buf with None => balloc (size buf) | Some b => brealloc b (size buf) end in
        store_char (buf <| s := b |>) c
  else store_char buf c.

#[export] Instance strbuf_sink : Sink strbuf_t := {
  put_char := strbuf_put_char;
  sink_count := count
}.

Section Width.
Context (lw : Z).

(** The start of [dsnprintf]: [ps] is [*s]. *)
Definition dsn_init (ps : option (list Z)) (sz msize : Z) : option strbuf_t :=
  match ps with
  | None => Some (mkStrbuf None (if negb (msize =? 0) then Z.max msize 0 else 0) sz 0 true)
  | Some b =>
      if negb (msize =? 0) then n ← strlen b; Some (mkStrbuf ps (Z.max msize 0) sz n true)
      else Some (mkStrbuf ps sz 0 0 false)
  end.

(** The loop over the format and the terminating NUL; in the end [*s] is [buf.s]. *)
Definition dsn_run (buf : strbuf_t) (sz : Z) (fmt : list Z) (args : list farg)
  : option (strbuf_t * list Z) :=
  '(buf, counts) ← format lw buf fmt args;
  buf ← (match s buf with None => strbuf_put_char buf 0 | Some _ => Some buf end);
  b ← s buf;
  if 0 <? sz then
    let i := if count buf <? sz then count buf else size buf - 1 in
    if (0 <=? i) && (i <? zlen b) then Some (buf <| s := Some (bput b i [0]) |>, counts) else None
  else Some (buf, counts).

(** [dsnprintf]: the result, the new [*s] and the counts of [%n]. *)
Definition dsnprintf (ps : option (list Z)) (sz : Z) (fmt : list Z) (args : list farg)
  (msize : Z) : option (Z * option (list Z) * list Z) :=
  buf ← dsn_init ps sz msize;
  '(buf, counts) ← dsn_run buf sz fmt args;
  Some (if negb (msize =? 0) then size buf else count buf, s buf, counts).

(** The functions of the interface: their result and the string they leave. *)
Definition fmtAlloc (n : Z) (fmt : list Z) (args : list farg)
  : option (Z * option (list Z)) :=
  '(r, ps, _) ← dsnprintf None n fmt args 0; Some (r, ps).

Definition fmtValloc (n : Z) (fmt : list Z) (args : list farg)
  : option (Z * option (list Z)) := fmtAlloc n fmt args.

Definition fmtStatic (b : list Z) (n : Z) (fmt : list Z) (args : list farg)
  : option (Z * list Z) :=
  if n <=? 0 then Some (-1, b)
  else '(r, ps, _) ← dsnprintf (Some b) n fmt args 0;
       b ← ps; Some (r, b).

Definition fmtRealloc (ps : option (list Z)) (n msize : Z) (fmt : list Z) (args : list farg)
  : option (Z * option (list Z)) :=
  let ps := if msize =? -1 then None else ps in
  '(r, ps, _) ← dsnprintf ps n fmt args msize; Some (r, ps).
End Width.
End Buffer.

(** ** Conversions *)

(** The loop of [hextoi]: [while ((c = *h++) != 0) ..] *)
Fixpoint hex_loop (h : list Z) (v : Z) : option Z :=
  match h with
  | [] => None
  | c :: h =>
      if c =? 0 then Some v
      else if isdigit c then hex_loop h (u32 (u32 (v * 16) + (c - 48)))
      else if (97 <=? c) && (c <=? 102) then hex_loop h (u32 (u32 (v * 16) + (c - 97 + 10)))
      else if (65 <=? c) && (c <=? 70) then hex_loop h (u32 (u32 (v * 16) + (c - 65 + 10)))
      else Some v
  end.

(** Does the string at [s] start with "0x" or "0X"? *)
Definition hex_prefix (s : list Z) : bool :=
  match s with
  | c :: c' :: _ => (c =? 48) && ((c' =? 120) || (c' =? 88))
  | _ => false
  end.

Definition hextoi (hexstring : list Z) : option Z :=
  hex_loop (if hex_prefix hexstring then drop 2 hexstring else hexstring) 0.

Definition gstrtoi (s : list Z) : option Z :=
  if hex_prefix s then hextoi (drop 2 s)
  else z ← atoi s; Some (u32 z).

(** The last position of a character in a string. *)
Fixpoint strrchr (s : list Z) (c : Z) : option Z :=
  match s with
  | [] => None
  | x :: s => match strrchr s c with
              | Some i => Some (i + 1)
              | None => if x =? c then Some 0 else None
              end
  end.

(** [dirname]: the string left in [buf]. *)
Definition dirname (name : list Z) (bufsize : Z) : list Z :=
  match strrchr name 47 with
  | None => str "."
  | Some cp =>
      if (zlen name =? cp + 1) && (cp =? 0) then str "."
      else
        let len := cp in
        if len <? bufsize then bsub name 0 len
        else bsub name 0 (bufsize - 1)
  end.

Section Unicode.
Context (balloc : Z -> option (list Z)).

(** Without UNICODE both conversions are [strncpy], which pads with NULs. *)
Definition ascToUni (ubuf s : list Z) (nBytes : Z) : list Z :=
  let d := bsub s 0 nBytes in
  bput ubuf 0 (d ++ repeat 0 (Z.to_nat (nBytes - zlen d))).

Definition ballocAscToUni (cp : list Z) (alen : Z) : option (list Z) :=
  let ulen := alen + 1 in
  unip ← balloc ulen;
  let unip := ascToUni unip cp ulen in
  Some (bput unip alen [0]).

Definition ballocUniToAsc (unip : list Z) (ulen : Z) : option (list Z) :=
  cp ← balloc (ulen + 1);
  let cp := ascToUni cp unip ulen in
  Some (bput cp ulen [0]).
End Unicode.

(** ** The reference: a sink that keeps the whole text

    [%n] alone sees the limit of the buffer. *)
Definition text_sink (cap : Z) : Sink (list Z) := {|
  put_char l c := Some (if c =? 0 then l else l ++ [c]);
  sink_count l := Z.min (zlen l) cap
|}.

(** The text of a format after the text [l], for a buffer that takes [cap] characters;
    and the counts stored by [%n]. *)
Definition text_after (lw cap : Z) (l fmt : list Z) (args : list farg)
  : option (list Z * list Z) := format (H := text_sink cap) lw l fmt args.

Definition text (lw cap : Z) (fmt : list Z) (args : list farg) : option (list Z * list Z) :=
  text_after lw cap [] fmt args.

Example text_ex1 :
  text 32 1000 (str "%s=%d|%5d|%-5d|%05d|%x|%#X|%.3s|%%")
    [AStr (Some (str "key" ++ [0])); AInt (-42); AInt 7; AInt 7; AInt 7; AInt 255; AInt 255;
     AStr (Some (str "abcdef" ++ [0]))]
  = Some (str "key=-42|    7|7    |00007|ff|0XFF|abc|%", []).
Proof. vm_compute. reflexivity. Qed.
Example text_ex2 :
  text 64 1000 (str "%lu %d %i") [ALong (2 ^ 64 - 1); AInt (- 2 ^ 31); AInt 0]
  = Some (str "18446744073709551615 -2147483648 0", []).
Proof. vm_compute. reflexivity. Qed.

(** ** Simulation between sinks *)

(** Whenever the second computation returns, so does the first, with related results. *)
Definition osim {X Y : Type} (Q : X -> Y -> Prop) (o1 : option X) (o2 : option Y) : Prop :=
  forall y, o2 = Some y -> exists x, o1 = Some x /\ Q x y.

Lemma osim_ret {X Y} (Q : X -> Y -> Prop) x y : Q x y -> osim Q (Some x) (Some y).
Proof. intros HQ y' [= <-]. by exists x. Qed.

Lemma osim_none {X Y} (Q : X -> Y -> Prop) o : osim Q o (None : option Y).
Proof. by intros y. Qed.

Lemma osim_bind {X Y X' Y'} (Q : X -> Y -> Prop) (Q' : X' -> Y' -> Prop) o1 o2 k1 k2 :
  osim Q o1 o2 -> (forall x y, Q x y -> osim Q' (k1 x) (k2 y)) ->
  osim Q' (o1 ≫= k1) (o2 ≫= k2).
Proof.
  intros Ho Hk z. destruct o2 as [y|]; cbn; [|done].
  destruct (Ho y eq_refl) as (x & -> & HQ). cbn. by apply Hk.
Qed.

Lemma osim_bind_same {X X' Y'} (Q' : X' -> Y' -> Prop) (o : option X) k1 k2 :
  (forall x, osim Q' (k1 x) (k2 x)) -> osim Q' (o ≫= k1) (o ≫= k2).
Proof. intros Hk. destruct o; cbn; [apply Hk|apply osim_none]. Qed.

Create HintDb osim.
#[export] Hint Resolve osim_ret osim_none : osim.

Section Simulation.
Context {B1 B2 : Type} `{Sink B1} `{Sink B2}.
Context (R : B1 -> B2 -> Prop).
Hypothesis put_sim : forall b1 b2 c, R b1 b2 -> osim R (put_char b1 c) (put_char b2 c).
Hypothesis count_sim : forall b1 b2, R b1 b2 -> sink_count b1 = sink_count b2.
Context (lw : Z).

(** Walk through two equal programs on related sinks. *)
Ltac sim :=
  repeat first
    [ progress auto with osim
    | match goal with
      | |- osim _ (match ?x with _ => _ end) (match ?x with _ => _ end) => destruct x eqn:?
      end
    | apply osim_bind_same; intros
    | eapply osim_bind; [|intros; simplify_eq]
    | progress cbn [fst snd] ].

Lemma put_many_sim n b1 b2 c : R b1 b2 -> osim R (put_many n b1 c) (put_many n b2 c).
Proof using put_sim.
  revert b1 b2. induction n as [|n IH]; intros b1 b2 HR; cbn [put_many]; [by apply osim_ret|].
  eapply osim_bind; [by apply put_sim|auto].
Qed.

Lemma put_list_sim l b1 b2 : R b1 b2 -> osim R (put_list b1 l) (put_list b2 l).
Proof using put_sim.
  revert b1 b2. induction l as [|c l IH]; intros b1 b2 HR; cbn [put_list]; [by apply osim_ret|].
  eapply osim_bind; [by apply put_sim|auto].
Qed.

#[local] Hint Resolve put_many_sim put_list_sim put_sim : osim.

Lemma put_string_sim b1 b2 l len width prec f :
  R b1 b2 -> osim R (put_string lw b1 l len width prec f) (put_string lw b2 l len width prec f).
Proof using put_sim. intros HR. unfold put_string. sim. Qed.

Lemma put_digits_sim fuel b1 b2 value base upper x :
  R b1 b2 -> osim R (put_digits fuel b1 value base upper x) (put_digits fuel b2 value base upper x).
Proof using put_sim.
  revert b1 b2 x. induction fuel as [|fuel IH]; intros b1 b2 x HR; cbn [put_digits];
    [apply osim_none|]. destruct (0 <? x); [|by apply osim_ret].
  eapply osim_bind; [by apply put_sim|auto].
Qed.

#[local] Hint Resolve put_string_sim put_digits_sim : osim.

Lemma put_ulong_sim b1 b2 value base upper prefix width prec f :
  R b1 b2 -> osim R (put_ulong lw b1 value base upper prefix width prec f)
                    (put_ulong lw b2 value base upper prefix width prec f).
Proof using put_sim. intros HR. unfold put_ulong. sim. Qed.

#[local] Hint Resolve put_ulong_sim : osim.

(** Related sinks, and the same of everything else. *)
Definition with_rest {A : Type} (x : B1 * A) (y : B2 * A) : Prop := R x.1 y.1 /\ x.2 = y.2.

Ltac sim_pair := match goal with
  | H : with_rest ?x ?y |- _ => destruct x, y, H; cbn in *; subst
  | |- osim with_rest (Some _) (Some _) => apply osim_ret; split; cbn; [done|reflexivity]
  end.

Lemma conv_signed_sim b1 b2 f width prec args :
  R b1 b2 -> osim with_rest (conv_signed lw b1 f width prec args) (conv_signed lw b2 f width prec args).
Proof using put_sim. intros HR. unfold conv_signed. sim; sim_pair. Qed.

Lemma conv_unsigned_sim b1 b2 c f width prec args :
  R b1 b2 ->
  osim with_rest (conv_unsigned lw b1 c f width prec args) (conv_unsigned lw b2 c f width prec args).
Proof using put_sim. intros HR. unfold conv_unsigned. sim; sim_pair. Qed.

Lemma conv_string_sim b1 b2 f width prec args :
  R b1 b2 -> osim with_rest (conv_string lw b1 f width prec args) (conv_string lw b2 f width prec args).
Proof using put_sim. intros HR. unfold conv_string. sim; sim_pair. Qed.

#[local] Hint Resolve conv_signed_sim conv_unsigned_sim conv_string_sim : osim.

Definition with_rest2 {A C : Type} (x : B1 * A * C) (y : B2 * A * C) : Prop :=
  R x.1.1 y.1.1 /\ x.1.2 = y.1.2 /\ x.2 = y.2.

Lemma convert_sim b1 b2 c f width prec args :
  R b1 b2 -> osim with_rest2 (convert lw b1 c f width prec args) (convert lw b2 c f width prec args).
Proof using put_sim count_sim.
  intros HR. unfold convert. sim; try sim_pair;
    apply osim_ret; repeat split; cbn; try done. by rewrite (count_sim b1 b2).
Qed.

Lemma directive_sim fuel b1 b2 c fmt args :
  R b1 b2 -> osim (fun x y => R x.1.1.1 y.1.1.1 /\ x.1.1.2 = y.1.1.2 /\ x.1.2 = y.1.2 /\ x.2 = y.2)
                  (directive lw fuel b1 c fmt args) (directive lw fuel b2 c fmt args).
Proof using put_sim count_sim.
  intros HR. unfold directive.
  apply osim_bind_same; intros [[f c1] fmt1].
  apply osim_bind_same; intros [[[[f1 w] c2] fmt2] args2].
  apply osim_bind_same; intros [[[[f2 p] c3] fmt3] args3].
  apply osim_bind_same; intros [[f3 c4] fmt4].
  eapply osim_bind; [by apply convert_sim|].
  intros [[b1' a1] n1] [[b2' a2] n2] (HR' & Ha & Hn); cbn in *; subst. by apply osim_ret.
Qed.

Lemma format_loop_sim fuel : forall b1 b2 fmt args,
  R b1 b2 -> osim with_rest (format_loop lw fuel b1 fmt args) (format_loop lw fuel b2 fmt args).
Proof using put_sim count_sim.
  induction fuel as [|n IH]; intros b1 b2 fmt args HR; cbn [format_loop]; [apply osim_none|].
  apply osim_bind_same; intros [c fmt1].
  destruct (c =? 0); [sim_pair|]. destruct (negb (c =? 37)).
  { eapply osim_bind; [by apply put_sim|auto]. }
  apply osim_bind_same; intros [c2 fmt2]. destruct (c2 =? 37).
  { eapply osim_bind; [by apply put_sim|auto]. }
  eapply osim_bind; [by apply directive_sim|].
  intros [[[b1' p1] a1] n1] [[[b2' p2] a2] n2] (HR' & Hp & Ha & Hn); cbn in *; subst.
  eapply osim_bind; [by apply IH|]. intros [b1'' m1] [b2'' m2] [HR'' Hm]; cbn in *; subst.
  sim_pair.
Qed.

Lemma format_sim b1 b2 fmt args :
  R b1 b2 -> osim with_rest (format lw b1 fmt args) (format lw b2 fmt args).
Proof using put_sim count_sim. apply format_loop_sim. Qed.
End Simulation.

(** ** The buffer holds a prefix of the text *)

Section Alloc.
Context (balloc : Z -> option (list Z)).
Context (brealloc : list Z -> Z -> option (list Z)).
(** [malloc] and [realloc] succeed for blocks of up to [2^30] bytes; a block that
    grows keeps its bytes. *)
Hypothesis balloc_ok : forall n, 0 < n <= 2 ^ 30 -> exists b, balloc n = Some b /\ zlen b = n.
Hypothesis brealloc_ok : forall b n, zlen b <= n <= 2 ^ 30 ->
  exists b', brealloc b n = Some b' /\ zlen b' = n /\ take (length b) b' = b.

(** A growing buffer of at most [STR_INC * k] bytes, after the text [l]. *)
Definition holds (k M : Z) (buf : strbuf_t) (l : list Z) : Prop :=
  count buf = Z.min (zlen l) (STR_INC * k - 1) /\ realloc buf = true /\ 1 <= k <= 2 ^ 20 /\
  (M < STR_INC /\ k = 1 \/ STR_INC * k <= M < STR_INC * (k + 1)) /\ smax buf = M /\
  match s buf with
  | None => size buf = 0 /\ l = []
  | Some b => zlen b = size buf /\ (exists j, 1 <= j <= k /\ size buf = STR_INC * j) /\
              count buf < size buf /\ bsub b 0 (count buf) = take (Z.to_nat (count buf)) l
  end.

Lemma take_snoc_min (l : list Z) c m :
  0 <= m -> take (Z.to_nat (Z.min (zlen (l ++ [c])) m)) (l ++ [c]) =
    if zlen l <? m then l ++ [c] else take (Z.to_nat m) l.
Proof.
  intros Hm. rewrite length_app. cbn [length]. destruct (Z.ltb_spec (zlen l) m).
  - rewrite take_ge; [done|rewrite length_app; cbn; lia].
  - rewrite take_app_le by lia. f_equal. lia.
Qed.

(** Storing a character where there is room. *)
Lemma store_char_holds k M buf l b c :
  s buf = Some b -> zlen b = size buf -> count buf = zlen l -> realloc buf = true ->
  1 <= k <= 2 ^ 20 -> (M < STR_INC /\ k = 1 \/ STR_INC * k <= M < STR_INC * (k + 1)) -> smax buf = M ->
  (exists j, 1 <= j <= k /\ size buf = STR_INC * j) ->
  count buf < size buf - 1 -> bsub b 0 (count buf) = l ->
  exists buf', store_char buf c = Some buf' /\
    holds k M buf' (if c =? 0 then l else l ++ [c]).
Proof.
  intros Hs Hb Hc Hr Hk Hm1 Hm2 (j & Hj & Hsz) Hlt Hl.
  destruct buf as [sb sz mx cn rl]; cbn in *; subst sb rl sz cn.
  unfold store_char. cbn.
  replace ((0 <=? zlen l) && (zlen l <? zlen b)) with true by lia.
  assert (HL : zlen l < STR_INC * k - 1) by (unfold STR_INC in *; nia).
  assert (Hlen : zlen (bput b (zlen l) [c]) = zlen b) by (apply length_bput; cbn; lia).
  destruct (Z.eqb_spec c 0) as [->|Hc]; cbn; eexists; (split; [done|]); unfold holds; cbn.
  - rewrite Hlen. split_and!; try done; try lia; [by exists j|].
    rewrite Nat2Z.id, take_ge by lia. rewrite <- Hl at 3. apply zget_ext.
    + apply Nat2Z.inj. rewrite !length_bsub by lia. done.
    + intros i Hi. rewrite length_bsub in Hi by lia.
      rewrite !zget_bsub, zget_bput by (cbn; lia). by replace (_ && _) with false by lia.
  - rewrite Hlen, length_app. cbn [length]. split_and!; try done; try lia; [by exists j|].
    rewrite take_ge by (rewrite length_app; cbn; lia). apply zget_ext.
    + apply Nat2Z.inj. rewrite length_bsub, length_app by lia. cbn. lia.
    + intros i Hi. rewrite length_bsub in Hi by lia.
      rewrite zget_bsub, zget_bput, zget_app by (cbn; lia). cbn [Z.add].
      destruct (Z.ltb_spec i (zlen l)).
      * replace (_ && _) with false by lia.
        transitivity (zget (bsub b 0 (zlen l)) i); [by rewrite zget_bsub by lia|by rewrite Hl].
      * assert (i = zlen l) as -> by lia. change (zlen [c]) with 1.
        rewrite Z.add_0_l. replace ((zlen l <=? zlen l) && (zlen l <? zlen l + 1)) with true by lia.
        done.
Qed.

#[local] Arguments store_char : simpl never.

(** [k * 64] is the size at which the buffer stops growing. *)
Lemma put_char_holds k M buf l c :
  holds k M buf l ->
  exists buf', strbuf_put_char balloc brealloc buf c = Some buf' /\
    holds k M buf' (if c =? 0 then l else l ++ [c]).
Proof using balloc_ok brealloc_ok.
  intros (Hc & Hr & Hk & Hm1 & Hm2 & Hs).
  unfold strbuf_put_char. destruct (Z.leb_spec (size buf - 1) (count buf)) as [Hfull|Hroom].
  - rewrite Hr. cbn [negb].
    destruct (s buf) as [b|] eqn:Es.
    + destruct Hs as (Hb & (j & Hj & Hsz) & Hlt & Hl).
      assert (s32 (size buf + STR_INC) = STR_INC * (j + 1)) as E.
      { rewrite s32_small; unfold STR_INC in *; lia. }
      destruct buf as [sb sz mx cn rl]; cbn in *; subst sb rl.
      rewrite E. destruct (Z.leb_spec k j) as [Hkj|Hkj].
      * (* the limit is reached *)
        assert (j = k) as -> by lia.
        assert (HL : STR_INC * k - 1 <= zlen l) by (unfold STR_INC in *; lia).
        replace ((mx <? STR_INC * (k + 1)) && (STR_INC <? STR_INC * (k + 1))) with true
          by (unfold STR_INC in *; lia).
        eexists. split; [done|].
        assert (s32 (STR_INC * (k + 1) - STR_INC) = sz) as ->.
        { rewrite s32_small; unfold STR_INC in *; lia. }
        destruct (Z.eqb_spec c 0); unfold holds; cbn.
        -- split_and!; try done; try lia. by exists k.
        -- rewrite length_app. cbn [length].
           split_and!; try done; try (unfold STR_INC in *; lia); [by exists k|].
           rewrite Hl, take_app_le by (unfold STR_INC in *; lia). done.
      * (* grow *)
        replace ((mx <? STR_INC * (j + 1)) && (STR_INC <? STR_INC * (j + 1))) with false
          by (unfold STR_INC in *; lia).
        destruct (brealloc_ok b (STR_INC * (j + 1))) as (b' & -> & Hb' & Hpre);
          [unfold STR_INC in *; lia|].
        assert (HL : cn = zlen l) by (unfold STR_INC in *; lia).
        apply store_char_holds with (b := b'); cbn; try done; try (unfold STR_INC in *; lia).
        { by exists (j + 1); split; [lia|]. }
        rewrite <- (take_ge l (Z.to_nat cn)), <- Hl by lia. rewrite <- Hpre at 1.
        unfold bsub. cbn [Z.to_nat]. rewrite !drop_0, take_take. f_equal. lia.
    + destruct Hs as (Hsz & ->).
      destruct buf as [sb sz mx cn rl]; cbn in *; subst sb rl sz. cbn in Hc.
      change (s32 (0 + STR_INC)) with STR_INC. rewrite Z.ltb_irrefl, andb_false_r.
      destruct (balloc_ok STR_INC) as (b & -> & Hb); [unfold STR_INC; lia|].
      apply store_char_holds with (b := b); cbn; try done; try (unfold STR_INC in *; lia).
      { by exists 1; split; [lia|]. }
      replace cn with 0 by (unfold STR_INC in *; lia). done.
  - destruct (s buf) as [b|] eqn:Es.
    + destruct Hs as (Hb & (j & Hj & Hsz) & Hlt & Hl).
      assert (HL : count buf = zlen l) by (unfold STR_INC in *; nia).
      apply store_char_holds with (b := b); try done; [by exists j|].
      rewrite Hl, take_ge by lia. done.
    + destruct Hs as (Hsz & ->). cbn in Hc. unfold STR_INC in *. lia.
Qed.

Lemma store_char_some buf c buf' : store_char buf c = Some buf' -> is_Some (s buf').
Proof.
  unfold store_char. destruct (s buf) as [b|]; cbn; [|done].
  destruct (_ && _); [|done]. intros [= <-]. destruct buf. by destruct (negb (c =? 0)).
Qed.

(** After the text a buffer exists. *)
Lemma final_buffer k M buf l :
  holds k M buf l ->
  exists buf', match s buf with None => strbuf_put_char balloc brealloc buf 0 | Some _ => Some buf end
                 = Some buf' /\ holds k M buf' l /\ is_Some (s buf').
Proof using balloc_ok brealloc_ok.
  intros Hh. destruct (s buf) as [b|] eqn:Es; [exists buf; by rewrite Es|].
  destruct (put_char_holds k M buf l 0 Hh) as (buf' & E & Hh'). exists buf'. split_and!; [done..|].
  destruct Hh as (Hc & Hr & Hk & Hm1 & Hm2 & Hs). rewrite Es in Hs. destruct Hs as (Hsz & ->).
  assert (count buf = 0) as Hc0 by (cbn in Hc; unfold STR_INC in *; lia).
  revert E. unfold strbuf_put_char. rewrite Hr, Hsz, Hc0. cbn -[STR_INC].
  destruct buf as [sb sz mx cn rl]; cbn in *; subst. change (s32 (0 + STR_INC)) with STR_INC.
  rewrite Z.ltb_irrefl, andb_false_r. apply store_char_some.
Qed.

(** [text] never holds a NUL. *)
Lemma text_no_nul lw cap l fmt args t counts :
  no_nul l -> text_after lw cap l fmt args = Some (t, counts) -> no_nul t.
Proof.
  intros Hl Ht.
  destruct (format_sim (H := text_sink cap) (H0 := text_sink cap)
              (fun x y => x = y /\ no_nul y)) with (lw := lw) (b1 := l) (b2 := l) (fmt := fmt)
              (args := args) (y := (t, counts)) as ([t' c'] & _ & [[_ Hn] _]); try done.
  - intros x y c [-> Hy]. cbn. apply osim_ret. split; [done|].
    destruct (Z.eqb_spec c 0); [done|]. apply Forall_app. by repeat constructor.
  - by intros x y [-> _].
Qed.

Lemma dsn_run_holds lw k M buf l fmt args t counts :
  holds k M buf l -> no_nul l -> text_after lw (STR_INC * k - 1) l fmt args = Some (t, counts) ->
  0 < M -> (STR_INC <= M \/ zlen t < M) ->
  exists buf' b, dsn_run balloc brealloc lw buf M fmt args = Some (buf', counts) /\
    s buf' = Some b /\ count buf' = Z.min (zlen t) (STR_INC * k - 1) /\ zlen b = size buf' /\
    (exists j, 1 <= j <= k /\ size buf' = STR_INC * j) /\
    cstr b = Some (take (Z.to_nat (STR_INC * k - 1)) t).
Proof using balloc_ok brealloc_ok.
  intros Hh Hl Ht Hmax Hsz. pose proof (text_no_nul _ _ _ _ _ _ _ Hl Ht) as Hn.
  destruct (format_sim (H := strbuf_sink balloc brealloc) (H0 := text_sink (STR_INC * k - 1))
              (holds k M)) with (lw := lw) (b1 := buf) (b2 := l) (fmt := fmt)
              (args := args) (y := (t, counts)) as ([buf1 c1] & Hf & [Hh1 Hc1]); try done.
  { intros b1 b2 c Hb y [= <-]. by apply put_char_holds. }
  { by intros b1 b2 (Hc & _). }
  cbn in Hh1, Hc1. subst c1.
  destruct (final_buffer k M buf1 t Hh1) as (buf2 & Hf2 & Hh2 & [b Hb]).
  unfold dsn_run. rewrite Hf. cbn [mbind option_bind]. rewrite Hf2. cbn [mbind option_bind].
  rewrite Hb. cbn [mbind option_bind].
  destruct Hh2 as (Hc & _ & Hk & HM & _ & Hs). rewrite Hb in Hs.
  destruct Hs as (Hlen & (j & Hj & Hj') & Hlt & Hpre).
  set (cap := STR_INC * k - 1) in *. assert (0 <= cap) by (unfold cap, STR_INC; lia).
  assert (Htk : take (Z.to_nat (count buf2)) t = take (Z.to_nat cap) t).
  { rewrite Hc. destruct (Z.le_gt_cases (zlen t) cap).
    - rewrite !take_ge by lia. done.
    - f_equal. lia. }
  assert (HcM : count buf2 < M) by (unfold cap, STR_INC in *; lia).
  replace (0 <? M) with true by lia. replace (count buf2 <? M) with true by lia.
  replace ((0 <=? count buf2) && (count buf2 <? zlen b)) with true by lia.
  exists (buf2 <| s := Some (bput b (count buf2) [0]) |>), (bput b (count buf2) [0]).
  split; [done|]. clear Hf Hf2 Hh Hh1 Ht. destruct buf2 as [sb sz mx cn rl]; cbn in *.
  split_and!; try done; [rewrite length_bput; cbn; lia|by exists j|].
  assert (E : bput b cn [0] = take (Z.to_nat cap) t ++ 0 :: drop (Z.to_nat (cn + 1)) b).
  { rewrite <- Htk, <- Hpre. unfold bput, bsub. cbn [length Z.to_nat]. rewrite drop_0.
    cbn [app]. do 3 f_equal. lia. }
  rewrite E. apply cstr_app. by apply Forall_take.
Qed.
(** The capacity of a buffer limited to [n] bytes: it grows by whole steps, one at
    least, and keeps a byte for the NUL. *)
Definition steps (n : Z) : Z := Z.max 1 (n / STR_INC).
Definition capacity (n : Z) : Z := STR_INC * steps n - 1.

Lemma steps_ok n : 0 < n <= 2 ^ 26 ->
  1 <= steps n <= 2 ^ 20 /\ (n < STR_INC /\ steps n = 1 \/ STR_INC * steps n <= n < STR_INC * (steps n + 1)).
Proof.
  intros Hn. unfold steps, STR_INC.
  assert (E := Z.div_mod n 64 ltac:(lia)). pose proof (Z.mod_pos_bound n 64 ltac:(lia)).
  set (q := n / 64) in *. lia.
Qed.

(** The block that [fmtAlloc] allocates has one step of 64 bytes at least. *)
Lemma fmtAlloc_block lw n fmt args t counts :
  0 < n <= 2 ^ 26 -> text lw (capacity n) fmt args = Some (t, counts) ->
  (STR_INC <= n \/ zlen t < n) ->
  exists b, fmtAlloc balloc brealloc lw n fmt args = Some (Z.min (zlen t) (capacity n), Some b) /\
    cstr b = Some (take (Z.to_nat (capacity n)) t) /\ STR_INC <= zlen b.
Proof using balloc_ok brealloc_ok.
  intros Hn Ht Hsz. destruct (steps_ok n Hn) as [Hk HM].
  destruct (dsn_run_holds lw (steps n) n (mkStrbuf None 0 n 0 true) [] fmt args t counts)
    as (buf & b & E & Hb & Hc & Hlen & (j & Hj & Hsize) & Hs); try done; try lia.
  { unfold holds. cbn. split_and!; try done; unfold STR_INC; lia. }
  { constructor. }
  exists b. split; [|split; [done|unfold STR_INC in *; lia]]. unfold fmtAlloc, dsnprintf. cbn [dsn_init]. cbn [mbind option_bind].
  cbn -[dsn_run STR_INC]. rewrite E. cbn. by rewrite Hb, Hc.
Qed.

Lemma fmtAlloc_spec lw n fmt args t counts :
  0 < n <= 2 ^ 26 -> text lw (capacity n) fmt args = Some (t, counts) ->
  (STR_INC <= n \/ zlen t < n) ->
  exists b, fmtAlloc balloc brealloc lw n fmt args = Some (Z.min (zlen t) (capacity n), Some b) /\
    cstr b = Some (take (Z.to_nat (capacity n)) t).
Proof using balloc_ok brealloc_ok.
  intros Hn Ht Hsz. destruct (fmtAlloc_block lw n fmt args t counts Hn Ht Hsz) as (b & E & Hb & _). by exists b.
Qed.

(** C37. A formatted string is the text of its format, cut to the capacity of the
    buffer: the block is allocated and grown as needed, nothing is written outside of
    it, it ends in a NUL and the result is the length.  Limits below one step of 64
    bytes are obeyed only by texts that are shorter. *)
Theorem fmtAlloc_correct lw n fmt args t counts :
  0 < n <= 2 ^ 26 -> text lw (capacity n) fmt args = Some (t, counts) ->
  (STR_INC <= n \/ zlen t < n) ->
  exists b, fmtAlloc balloc brealloc lw n fmt args = Some (Z.min (zlen t) (capacity n), Some b) /\
    cstr b = Some (take (Z.to_nat (capacity n)) t).
Proof using balloc_ok brealloc_ok. apply fmtAlloc_spec. Qed.

(** What [fmtRealloc] keeps between calls: the string so far and the size of its block,
    or -1 before the first call. *)
Definition appendable (n : Z) (ps : option (list Z)) (msize : Z) (l : list Z) : Prop :=
  msize = -1 /\ l = [] \/
  exists b j, ps = Some b /\ zlen b = msize /\ msize = STR_INC * j /\ 1 <= j <= steps n /\
    cstr b = Some l.

(** Successive calls of [fmtRealloc] append to the string, up to the capacity, and
    leave it ready for the next call. *)
Theorem fmtRealloc_correct lw n ps msize l fmt args t counts :
  STR_INC <= n <= 2 ^ 26 -> appendable n ps msize l ->
  text_after lw (capacity n) l fmt args = Some (t, counts) ->
  exists r ps', fmtRealloc balloc brealloc lw ps n msize fmt args = Some (r, ps') /\
    appendable n ps' r (take (Z.to_nat (capacity n)) t).
Proof using balloc_ok brealloc_ok.
  intros Hn Ha Ht. assert (0 < n) by (unfold STR_INC in *; lia).
  destruct (steps_ok n ltac:(lia)) as [Hk HM].
  assert (exists buf, dsn_init (if msize =? -1 then None else ps) n msize = Some buf /\
            holds (steps n) n buf l /\ no_nul l /\ msize <> 0) as (buf0 & Ei & Hh & Hl & Hm).
  { destruct Ha as [[-> ->]|(b & j & -> & Hb & Hms & Hj & Hc)].
    - eexists. split; [done|]. split_and!; [|by constructor|done].
      unfold holds. cbn. split_and!; try done; unfold STR_INC; lia.
    - destruct (cstr_sound b l Hc) as [Hnn (b' & Eb)].
      assert (zlen b = zlen l + 1 + zlen b') by (rewrite Eb, length_app; cbn; lia).
      replace (msize =? -1) with false by (unfold STR_INC in *; lia). cbn [dsn_init].
      replace (msize =? 0) with false by (unfold STR_INC in *; lia). cbn [negb].
      unfold strlen. rewrite Hc. cbn [mbind option_bind].
      eexists. split; [done|]. split_and!; [|done|unfold STR_INC in *; lia].
      unfold holds. cbn. split_and!; try done; try (unfold STR_INC in *; lia).
      { exists j. split; [done|]. unfold STR_INC in *. lia. }
      rewrite Eb. unfold bsub. cbn [Z.to_nat]. rewrite drop_0, Nat2Z.id, take_app_length.
      by rewrite take_ge by lia. }
  destruct (dsn_run_holds lw (steps n) n buf0 l fmt args t counts)
    as (buf & b & E & Hb & Hc & Hz & (j & Hj & Hj') & Hs); try done; [by left; lia|].
  exists (size buf), (Some b). split.
  - unfold fmtRealloc, dsnprintf. rewrite Ei. cbn [mbind option_bind]. rewrite E. cbn.
    replace (msize =? 0) with false by lia. by rewrite Hb.
  - right. exists b, j. unfold capacity. destruct Hj. by split_and!.
Qed.
End Alloc.

(** ** The static buffer *)

(** The first [n] bytes of the caller's block [b0] hold the text [l]. *)
Definition holds_static (n : Z) (b0 : list Z) (buf : strbuf_t) (l : list Z) : Prop :=
  count buf = Z.min (zlen l) (n - 1) /\ realloc buf = false /\ size buf = n /\
  exists b, s buf = Some b /\ length b = length b0 /\ drop (Z.to_nat n) b = drop (Z.to_nat n) b0 /\
    bsub b 0 (count buf) = take (Z.to_nat (count buf)) l.

Lemma put_char_static balloc brealloc n b0 buf l c :
  0 < n <= zlen b0 -> holds_static n b0 buf l ->
  exists buf', strbuf_put_char balloc brealloc buf c = Some buf' /\
    holds_static n b0 buf' (if c =? 0 then l else l ++ [c]).
Proof.
  intros Hn (Hc & Hr & Hsz & b & Hs & Hb & Hd & Hp).
  destruct buf as [sb sz mx cn rl]; cbn in *; subst sb rl sz.
  unfold strbuf_put_char. cbn -[store_char]. destruct (Z.leb_spec (n - 1) cn).
  - eexists. split; [done|]. unfold holds_static. destruct (Z.eqb_spec c 0); cbn.
    + split_and!; try done. by exists b.
    + rewrite length_app. cbn [length]. split_and!; try done; [lia|]. exists b.
      split_and!; try done. rewrite Hp, take_app_le by lia. done.
  - assert (HL : cn = zlen l) by lia. unfold store_char. cbn.
    replace ((0 <=? cn) && (cn <? zlen b)) with true by lia.
    assert (Hlen : length (bput b cn [c]) = length b)
      by (apply Nat2Z.inj, length_bput; cbn; lia).
    assert (Hdr : drop (Z.to_nat n) (bput b cn [c]) = drop (Z.to_nat n) b0)
      by (rewrite drop_bput_after by (cbn; lia); done).
    rewrite bsub_0, (take_ge l) in Hp by lia.
    destruct (Z.eqb_spec c 0) as [->|Hc0]; cbn; eexists; (split; [done|]); unfold holds_static; cbn.
    + split_and!; try done. eexists. split_and!; [done|congruence|done|].
      by rewrite bsub_0, take_bput_before, Hp, take_ge by lia.
    + rewrite length_app. cbn [length]. split_and!; try done; [lia|].
      eexists. split_and!; [done|congruence|done|].
      rewrite bsub_0. change 1 with (zlen [c]). rewrite take_bput, Hp by (cbn; lia).
      rewrite take_ge; [done|rewrite length_app; cbn; lia].
Qed.

(** The formatter with a static buffer never writes past the [n] bytes it was given
    and always leaves a terminated string: the text cut to [n - 1] characters. *)
Theorem fmtStatic_correct balloc brealloc lw b0 n fmt args t counts :
  0 < n <= zlen b0 -> text lw (n - 1) fmt args = Some (t, counts) ->
  exists b, fmtStatic balloc brealloc lw b0 n fmt args = Some (Z.min (zlen t) (n - 1), b) /\
    cstr b = Some (take (Z.to_nat (n - 1)) t) /\
    length b = length b0 /\ drop (Z.to_nat n) b = drop (Z.to_nat n) b0.
Proof.
  intros Hn Ht. assert (no_nul t) as Hnn by (eapply text_no_nul; [constructor|exact Ht]).
  destruct (format_sim (H := strbuf_sink balloc brealloc) (H0 := text_sink (n - 1))
              (holds_static n b0)) with (lw := lw) (b1 := mkStrbuf (Some b0) n 0 0 false)
              (b2 := @nil Z) (fmt := fmt)
              (args := args) (y := (t, counts)) as ([buf1 c1] & Hf & [Hh1 Hc1]); try done.
  { intros b1 b2 c Hb y [= <-]. by apply put_char_static. }
  { by intros b1 b2 (Hc & _). }
  { unfold holds_static. cbn. split_and!; try done; [lia|]. by exists b0. }
  cbn in Hh1, Hc1. subst c1. destruct Hh1 as (Hc & Hr & Hsz & b & Hs & Hb & Hd & Hp).
  unfold fmtStatic, dsnprintf. cbn [dsn_init]. cbn [Z.eqb negb mbind option_bind].
  replace (n <=? 0) with false by lia. unfold dsn_run. rewrite Hf. cbn [mbind option_bind].
  rewrite Hs. cbn [mbind option_bind]. rewrite Hs. cbn [mbind option_bind].
  replace (0 <? n) with true by lia. replace (count buf1 <? n) with true by lia.
  replace ((0 <=? count buf1) && (count buf1 <? zlen b)) with true by lia.
  destruct buf1 as [sb sz mx cn rl]; cbn in *. subst.
  eexists. split; [done|]. clear Hf.
  assert (Htk : take (Z.to_nat (zlen t `min` (n - 1))) t = take (Z.to_nat (n - 1)) t).
  { destruct (Z.le_gt_cases (zlen t) (n - 1)); [|f_equal; lia]. by rewrite !take_ge by lia. }
  split_and!.
  - rewrite bsub_0 in Hp. unfold bput. rewrite Hp, Htk. cbn [app]. apply cstr_app.
    by apply Forall_take.
  - apply Nat2Z.inj. rewrite length_bput by (cbn; lia). lia.
  - rewrite drop_bput_after by (cbn; lia). done.
Qed.

(** ** Numbers *)

(** The digits [ds] of [value], most significant first, without needless zeros. *)
Definition numeral (base value : Z) (ds : list Z) : Prop :=
  Forall (fun d => 0 <= d < base) ds /\ fold_left (fun v d => v * base + d) ds 0 = value /\
  match ds with [] => False | d :: ds' => d <> 0 \/ ds' = [] end.

(** A field of at least [width] characters. *)
Definition field (f width : Z) (s : list Z) : list Z :=
  let pad := Z.to_nat (width - zlen s) in
  if has f flag_minus then s ++ repeat 32 pad
  else repeat (if has f flag_zero then 48 else 32) pad ++ s.

Lemma field_wide f width s : width <= zlen s -> field f width s = s.
Proof.
  intros. unfold field. replace (Z.to_nat (width - zlen s)) with 0%nat by lia. cbn.
  rewrite app_nil_r. by destruct (has f flag_minus).
Qed.

Definition printed_base (lw base : Z) : Prop :=
  (lw = 32 \/ lw = 64) /\ (base = 8 \/ base = 10 \/ base = 16).

Lemma base_not_limit lw base k :
  printed_base lw base -> 0 <= k <= lw -> base ^ k <> ULONG_MAX lw / base.
Proof.
  intros Hp Hk.
  assert (forallb (fun i => negb (base ^ Z.of_nat i =? ULONG_MAX lw / base)) (seq 0 65) = true) as H.
  { destruct Hp as [[-> | ->] [-> | [-> | ->]]]; vm_compute; reflexivity. }
  rewrite forallb_forall in H. specialize (H (Z.to_nat k)).
  rewrite Z2Nat.id in H by lia. apply Z.eqb_neq, negb_true_iff, H, in_seq.
  destruct Hp as [[-> | ->] _]; lia.
Qed.

Lemma ulong_len_spec lw base value fuel : forall len,
  printed_base lw base -> 0 <= value <= ULONG_MAX lw -> 1 <= len ->
  (base ^ (len - 1) <= value \/ len = 1) -> lw + 1 < Z.of_nat fuel + len ->
  exists len', ulong_len lw fuel value base len (base ^ (len - 1)) = Some (len', base ^ (len' - 1)) /\
    1 <= len' <= lw /\ value < base ^ len' /\ (base ^ (len' - 1) <= value \/ len' = 1).
Proof.
  intros len Hp Hv Hlen Hx Hf. revert len Hlen Hx Hf.
  assert (Hb : 8 <= base <= 16) by (destruct Hp as [_ [-> | [-> | ->]]]; lia).
  assert (Hlw : 32 <= lw) by (destruct Hp as [[-> | ->] _]; lia).
  induction fuel as [|fuel IH]; intros len Hlen Hx Hf.
  - assert (lw < len - 1) by lia. destruct Hx as [Hx|Hx]; [|lia].
    pose proof (Z.pow_le_mono_l 2 base (len - 1)). pose proof (Z.pow_lt_mono_r 2 lw (len - 1)).
    unfold ULONG_MAX in *. lia.
  - assert (Hpow : base ^ len = base ^ (len - 1) * base)
      by (rewrite <- (Z.pow_1_r base) at 3; rewrite <- Z.pow_add_r by lia; f_equal; lia).
    assert (Hlim : len <= lw).
    { destruct Hx as [Hx|Hx]; [|lia]. destruct (Z.le_gt_cases len lw); [done|].
      pose proof (Z.pow_le_mono_l 2 base (len - 1)). pose proof (Z.pow_le_mono_r 2 lw (len - 1)).
      unfold ULONG_MAX in *. lia. }
    cbn [ulong_len]. rewrite <- Hpow.
    destruct (Z.ltb_spec (base ^ (len - 1)) (ULONG_MAX lw / base)) as [Hlt|Hge].
    + destruct (Z.ltb_spec value (base ^ len)).
      * exists len. split_and!; try done.
      * destruct (IH (len + 1)) as (len' & E & H'); [lia|left|lia|].
        { by rewrite Z.add_simpl_r. }
        rewrite Z.add_simpl_r in E. by exists len'.
    + exists len. split_and!; try done. rewrite Hpow.
      pose proof (base_not_limit lw base (len - 1) Hp).
      assert (ULONG_MAX lw / base + 1 <= base ^ (len - 1)) by lia.
      assert (ULONG_MAX lw < base * (ULONG_MAX lw / base + 1)); [|nia].
      apply Z.mul_succ_div_gt. lia.
Qed.

Section Text.
Context (cap : Z).
Local Notation T := (text_sink cap).

Lemma put_many_text n l c : c <> 0 -> put_many (H := T) n l c = Some (l ++ repeat c n).
Proof.
  intros Hc. revert l. induction n as [|n IH]; intros l; cbn; [by rewrite app_nil_r|].
  destruct (Z.eqb_spec c 0); [done|]. cbn. rewrite IH, <- app_assoc. done.
Qed.

Lemma put_list_text l s : no_nul s -> put_list (H := T) l s = Some (l ++ s).
Proof.
  intros Hs. revert l. induction Hs as [|c s Hc Hs IH]; intros l; cbn; [by rewrite app_nil_r|].
  destruct (Z.eqb_spec c 0); [done|]. cbn. rewrite IH, <- app_assoc. done.
Qed.

(** The digits of [value] from the power [k] of the base down. *)
Fixpoint digits_from (k : nat) (value base : Z) : list Z :=
  (value / base ^ Z.of_nat k) mod base ::
  match k with O => [] | S k => digits_from k value base end.

Lemma digits_from_value base value k : 1 < base -> 0 <= value ->
  Forall (fun d => 0 <= d < base) (digits_from k value base) /\
  length (digits_from k value base) = S k /\
  forall acc, fold_left (fun v d => v * base + d) (digits_from k value base) acc =
    acc * base ^ Z.of_nat (S k) + value mod base ^ Z.of_nat (S k).
Proof.
  intros Hb Hv. induction k as [|k (IH1 & IH2 & IH3)].
  - cbn [digits_from]. change (Z.of_nat 0) with 0. change (Z.of_nat 1) with 1.
    rewrite Z.pow_0_r, Z.div_1_r, Z.pow_1_r. split_and!; [|done|done].
    repeat constructor; apply Z.mod_pos_bound; lia.
  - cbn [digits_from fold_left length]. split_and!; [|by rewrite IH2|].
    + constructor; [apply Z.mod_pos_bound; lia|done].
    + intros acc. rewrite IH3. rewrite !(Nat2Z.inj_succ (S k)), Z.pow_succ_r by lia.
      set (P := base ^ Z.of_nat (S k)). assert (0 < P) by (apply Z.pow_pos_nonneg; lia).
      rewrite (Z.mul_comm base P), Z.rem_mul_r by lia. lia.
Qed.

Lemma digit_char_nonzero upper d : 0 <= d -> digit_char upper d <> 0.
Proof. unfold digit_char. destruct (Z.ltb_spec d 10), upper; lia. Qed.

Lemma put_digits_text fuel upper base value k : forall l,
  1 < base -> 0 <= value -> (S k < fuel)%nat ->
  put_digits (H := T) fuel l value base upper (base ^ Z.of_nat k)
    = Some (l ++ map (digit_char upper) (digits_from k value base)).
Proof.
  revert k. induction fuel as [|fuel IH]; intros k l Hb Hv Hf; [lia|]. cbn [put_digits].
  assert (0 < base ^ Z.of_nat k) by (apply Z.pow_pos_nonneg; lia).
  replace (0 <? base ^ Z.of_nat k) with true by lia. cbn [put_char text_sink].
  pose proof (digit_char_nonzero upper ((value / base ^ Z.of_nat k) mod base)) as Hd.
  destruct (Z.eqb_spec (digit_char upper ((value / base ^ Z.of_nat k) mod base)) 0) as [E|_].
  { exfalso. apply Hd; [apply Z.mod_pos_bound; lia|done]. }
  cbn [mbind option_bind]. destruct k as [|k]; cbn [digits_from map].
  - change (base ^ Z.of_nat 0) with 1. rewrite (Z.div_small 1 base) by lia.
    destruct fuel as [|fuel]; [lia|]. cbn. done.
  - rewrite Nat2Z.inj_succ, Z.pow_succ_r, Z.mul_comm, Z.div_mul by lia.
    rewrite IH by lia. rewrite <- app_assoc. cbn [app]. do 4 f_equal. 
Qed.

Lemma gstrnlen_max lw s : printed_base lw 10 -> no_nul s -> zlen s < 2 ^ 32 ->
  gstrnlen (s ++ [0]) (ULONG_MAX lw) = Some (zlen s).
Proof.
  intros Hp Hs Hl. unfold gstrnlen, strlen. rewrite cstr_app by done. cbn [mbind option_bind].
  f_equal. assert (u32 (ULONG_MAX lw) = 2 ^ 32 - 1) as ->; [|lia].
  by destruct Hp as [[-> | ->] _].
Qed.

(** A string argument: cut to the precision, padded with blanks. *)
Lemma put_string_text lw l s width prec f :
  printed_base lw 10 -> no_nul s -> zlen s < 2 ^ 32 -> prec < 2 ^ 32 ->
  has f flag_zero = false ->
  put_string (H := T) lw l (s ++ [0]) (-1) width prec f =
    Some (l ++ field f width (if 0 <=? prec then take (Z.to_nat prec) s else s)).
Proof.
  intros Hp Hs Hl Hprec Hz. unfold put_string. cbn [Z.ltb Z.compare].
  set (s' := if 0 <=? prec then take (Z.to_nat prec) s else s).
  assert (gstrnlen (s ++ [0]) (if 0 <=? prec then prec else ULONG_MAX lw) = Some (zlen s') /\
          bsub (s ++ [0]) 0 (zlen s') = s' /\ zlen s' <= zlen s /\ no_nul s') as (-> & Hb & Hle & Hn).
  { unfold s'. destruct (Z.leb_spec 0 prec).
    - unfold gstrnlen, strlen. rewrite cstr_app by done. cbn [mbind option_bind].
      rewrite length_take, uwrap_small by lia. split_and!; [f_equal; lia| |lia|by apply Forall_take].
      rewrite bsub_0, take_app_le by lia. destruct (Z.le_gt_cases (zlen s) prec).
      + rewrite !take_ge; [done|lia|lia].
      + f_equal. lia.
    - rewrite gstrnlen_max by done. split_and!; [done| |lia|done].
      by rewrite bsub_0, Nat2Z.id, take_app_length. }
  clearbody s'. cbn [mbind option_bind]. rewrite Hb.
  assert (zlen (s ++ [0]) <? zlen s' = false) as ->
    by (apply Z.ltb_ge; rewrite length_app; cbn [length]; lia).
  unfold field. rewrite Hz. destruct (has f flag_minus) eqn:Ef.
  - rewrite andb_false_r, andb_true_r. cbn [mbind option_bind]. rewrite put_list_text by done.
    cbn [mbind option_bind]. destruct (Z.ltb_spec (zlen s') width).
    + rewrite put_many_text, app_assoc by done. done.
    + replace (Z.to_nat (width - zlen s')) with 0%nat by lia. by rewrite app_nil_r.
  - rewrite andb_true_r, andb_false_r. destruct (Z.ltb_spec (zlen s') width).
    + rewrite put_many_text by done. cbn [mbind option_bind].
      rewrite put_list_text by done. cbn [mbind option_bind]. by rewrite app_assoc.
    + replace (Z.to_nat (width - zlen s')) with 0%nat by lia. cbn [mbind option_bind].
      rewrite put_list_text by done. done.
Qed.

Lemma put_ulong_numeral lw l value base upper prefix width prec f :
  printed_base lw base -> 0 <= value <= ULONG_MAX lw ->
  no_nul (default [] prefix) -> zlen (default [] prefix) < 2 ^ 32 ->
  exists ds, numeral base value ds /\
    put_ulong (H := T) lw l value base upper prefix width prec f =
      Some (l ++ field f width (default [] prefix ++ repeat 48 (Z.to_nat (prec - zlen ds)) ++
                                map (digit_char upper) ds)).
Proof.
  intros Hp Hv Hpre Hplen.
  assert (Hb : 8 <= base <= 16) by (destruct Hp as [_ [-> | [-> | ->]]]; lia).
  assert (Hlw : 32 <= lw) by (destruct Hp as [[-> | ->] _]; lia).
  destruct (ulong_len_spec lw base value (S (Z.to_nat lw)) 1 Hp Hv) as (len & E & Hlen & Hlt & Hx);
    [lia|by right|lia|].
  change (base ^ (1 - 1)) with 1 in E.
  set (k := Z.to_nat (len - 1)). assert (Hk : Z.of_nat k = len - 1) by lia.
  destruct (digits_from_value base value k) as (Hd1 & Hd2 & Hd3); [lia|lia|].
  set (ds := digits_from k value base) in *.
  assert (Hzl : zlen ds = len) by lia.
  exists ds. split.
  { split_and!; [done| |].
    - rewrite Hd3. rewrite Z.mod_small; [lia|]. rewrite Nat2Z.inj_succ, Hk.
      replace (Z.succ (len - 1)) with len by lia. lia.
    - unfold ds. destruct k as [|k'] eqn:Ek; cbn [digits_from]; [by right|left].
      rewrite Hk. destruct Hx as [Hx|Hx]; [|lia].
      assert (0 < base ^ (len - 1)) by (apply Z.pow_pos_nonneg; lia).
      assert (value / base ^ (len - 1) < base).
      { apply Z.div_lt_upper_bound; [lia|]. rewrite Z.mul_comm, <- Z.pow_succ_r by lia.
        by replace (Z.succ (len - 1)) with len by lia. }
      pose proof (Z.div_le_lower_bound value (base ^ (len - 1)) 1).
      rewrite Z.mod_small; lia. }
  unfold put_ulong. rewrite E. cbn [mbind option_bind].
  set (p := default [] prefix) in *. set (zeros := if len <? prec then prec - len else 0).
  assert (Hz : Z.to_nat (prec - zlen ds) = Z.to_nat zeros).
  { unfold zeros. destruct (Z.ltb_spec len prec); lia. }
  rewrite Hz. set (body := p ++ repeat 48 (Z.to_nat zeros) ++ map (digit_char upper) ds).
  set (w := match prefix with Some p => _ | None => _ end).
  assert (Hw : w = width - zlen body).
  { unfold w, body, p. rewrite !length_app, repeat_length, length_map.
    assert (0 <= zeros) by (unfold zeros; destruct (Z.ltb_spec len prec); lia).
    destruct prefix; cbn; lia. }
  assert (Hbody : forall l' (K : list Z -> option (list Z)),
    (buf ← match prefix with
         | Some p => put_string (H := T) lw l' (p ++ [0]) (-1) 0 (-1) 0
         | None => Some l'
         end;
     buf ← put_many (H := T) (Z.to_nat zeros) buf 48;
     buf ← put_digits (H := T) (S (S (Z.to_nat lw))) buf value base upper (base ^ (len - 1));
     K buf) = K (l' ++ body)).
  { intros l' K. rewrite <- Hk. unfold body, p. destruct prefix as [q|]; cbn [default] in *.
    - rewrite put_string_text by (done || (destruct Hp; split; auto)). cbn [mbind option_bind].
      change (if 0 <=? -1 then _ else q) with q. rewrite field_wide by lia.
      rewrite put_many_text by done. cbn [mbind option_bind].
      rewrite put_digits_text by lia. rewrite <- !app_assoc. done.
    - cbn [mbind option_bind]. rewrite put_many_text by done. cbn [mbind option_bind].
      rewrite put_digits_text by lia. rewrite <- !app_assoc. done. }
  clearbody w. subst w. unfold field. destruct (has f flag_minus); cbn [negb].
  - cbn [mbind option_bind]. rewrite Hbody, put_many_text by done. by rewrite <- app_assoc.
  - rewrite put_many_text by (by destruct (has f flag_zero)). cbn [mbind option_bind].
    rewrite Hbody. by rewrite <- app_assoc.
Qed.

(** A number is printed as the numeral of its value in its base, preceded by zeros
    up to the precision and by the prefix, in a field of at least the given width. *)
Theorem put_ulong_correct lw l value base upper prefix width prec f :
  printed_base lw base -> 0 <= value <= ULONG_MAX lw ->
  no_nul (default [] prefix) -> zlen (default [] prefix) < 2 ^ 32 ->
  exists ds, numeral base value ds /\
    put_ulong (H := T) lw l value base upper prefix width prec f =
      Some (l ++ field f width (default [] prefix ++ repeat 48 (Z.to_nat (prec - zlen ds)) ++
                                map (digit_char upper) ds)).
Proof. apply put_ulong_numeral. Qed.
End Text.

(** ** Formats piece by piece *)

Section Pieces.
Context (lw cap : Z).
Hypothesis lw_ok : lw = 32 \/ lw = 64.
Local Notation T := (text_sink cap).

(** Plain characters are copied. *)
Lemma format_plain p : Forall (fun c => c <> 0 /\ c <> 37) p -> forall n l fmt args,
  format_loop (H := T) lw (length p + n) l (Some (p ++ fmt)) args =
  format_loop (H := T) lw n (l ++ p) (Some fmt) args.
Proof.
  induction 1 as [|c p [Hc Hp] Hps IH]; intros n l fmt args; [by rewrite app_nil_r|].
  cbn [length Nat.add app]. cbn [format_loop next mbind option_bind].
  replace (c =? 0) with false by zb. replace (c =? 37) with false by zb.
  cbn [negb put_char text_sink mbind option_bind]. replace (c =? 0) with false by zb.
  rewrite IH, <- app_assoc. done.
Qed.

Lemma format_end n l args : format_loop (H := T) lw (S n) l (Some []) args = Some (l, []).
Proof. done. Qed.

Lemma skip_counts {A} (o : option (A * list Z)) : ('(x, y) ← o; Some (x, [] ++ y)) = o.
Proof. by destruct o as [[x y]|]. Qed.

Lemma has_0 f : has 0 f = false.
Proof. by unfold has; rewrite Z.land_0_l. Qed.

(** A plain [%s]. *)
Lemma format_s_cut n l b s fmt args : cstr b = Some s ->
  format_loop (H := T) lw (S (S (S n))) l (Some (37 :: 115 :: fmt)) (AStr (Some b) :: args) =
  format_loop (H := T) lw (S (S n)) (l ++ take (Z.to_nat (Z.min (zlen s) (2 ^ 32 - 1))) s)
    (Some fmt) args.
Proof using lw_ok.
  intros Hs. pose proof (cstr_sound b s Hs) as [Hn (b' & ->)].
  set (m := Z.min (zlen s) (2 ^ 32 - 1)). assert (Hm : 0 <= m <= zlen s) by lia.
  assert (E : forall fuel, directive (H := T) lw (S fuel) l 115 (Some fmt) (AStr (Some (s ++ 0 :: b')) :: args)
            = Some (l ++ take (Z.to_nat m) s, Some fmt, args, [])).
  { intros fuel. unfold directive. cbn [flags_loop flag_of Z.eqb Pos.eqb mbind option_bind].
    unfold spec_width. cbn [Z.eqb Pos.eqb number_loop isdigit Z.leb Z.compare Pos.compare Pos.compare_cont andb mbind option_bind].
    unfold spec_prec, spec_size. cbn [Z.eqb Pos.eqb orb mbind option_bind].
    unfold convert. cbn [Z.eqb Pos.eqb orb].
    unfold conv_string. cbn [va_str mbind option_bind]. rewrite has_0.
    assert (Hp : put_string (H := T) lw l (s ++ 0 :: b') (-1) 0 (-1) 0 = Some (l ++ take (Z.to_nat m) s)).
    { unfold put_string. cbn [Z.ltb Z.compare Z.leb].
      unfold gstrnlen, strlen. rewrite cstr_app by done. cbn [mbind option_bind].
      assert (u32 (ULONG_MAX lw) = 2 ^ 32 - 1) as ->
        by (destruct lw_ok as [Elw|Elw]; rewrite Elw; reflexivity).
      fold m. replace (m <? 0) with false by zb. cbn [andb mbind option_bind].
      assert (zlen (s ++ 0 :: b') <? m = false) as -> by (rewrite length_app; zb).
      rewrite bsub_0, take_app_le, put_list_text by (lia || by apply Forall_take). done. }
    destruct (s ++ 0 :: b') as [|x r] eqn:Eb; [by destruct s|].
    rewrite Hp. done. }
  cbn [format_loop next mbind option_bind Z.eqb Pos.eqb negb].
  rewrite E. cbn [mbind option_bind]. apply skip_counts.
Qed.

Lemma format_s n l b s fmt args : cstr b = Some s -> zlen s < 2 ^ 32 ->
  format_loop (H := T) lw (S (S (S n))) l (Some (37 :: 115 :: fmt)) (AStr (Some b) :: args) =
  format_loop (H := T) lw (S (S n)) (l ++ s) (Some fmt) args.
Proof using lw_ok.
  intros Hs Hl. rewrite (format_s_cut _ _ _ _ _ _ Hs). by rewrite take_ge by lia.
Qed.

(** The decimal text of a number. *)
Definition decimal (z : Z) (s : list Z) : Prop :=
  exists ds, numeral 10 (Z.abs z) ds /\ s = (if z <? 0 then [45] else []) ++ map (digit_char false) ds.

Lemma decimal_no_nul z s : decimal z s -> no_nul s.
Proof.
  intros (ds & (Hd & _) & ->). apply Forall_app. split; [by destruct (z <? 0); repeat constructor|].
  apply Forall_map. eapply Forall_impl; [|exact Hd]. intros d Hdd. cbn in *. apply digit_char_nonzero. lia.
Qed.

(** A plain [%d]. *)
Lemma format_decimal n l z fmt args : - 2 ^ 31 <= z < 2 ^ 31 ->
  exists s, decimal z s /\
  format_loop (H := T) lw (S (S (S n))) l (Some (37 :: 100 :: fmt)) (AInt z :: args) =
  format_loop (H := T) lw (S (S n)) (l ++ s) (Some fmt) args.
Proof using lw_ok.
  intros Hz.
  assert (Hnum : forall v p, 0 <= v <= 2 ^ 31 -> no_nul (default [] p) -> zlen (default [] p) < 2 ^ 32 ->
    exists ds, numeral 10 v ds /\ put_ulong (H := T) lw l v 10 false p 0 (-1) 0 =
      Some (l ++ default [] p ++ map (digit_char false) ds)).
  { intros v p Hv Hp Hpl.
    destruct (put_ulong_numeral cap lw l v 10 false p 0 (-1) 0) as (ds & Hd & E); try done.
    { split; [done|by auto]. } { unfold ULONG_MAX. destruct lw_ok as [-> | ->]; lia. }
    rewrite field_wide in E by lia. replace (Z.to_nat (-1 - zlen ds)) with 0%nat in E by lia. by exists ds. }
  assert (Hc : exists s, decimal z s /\ conv_signed (H := T) lw l 0 0 (-1) (AInt z :: args) = Some (l ++ s, args)).
  { unfold conv_signed. rewrite !has_0. cbn [va_int mbind option_bind]. destruct (Z.leb_spec 0 z).
    - destruct (Hnum z None) as (ds & Hd & E); [lia|constructor|done|]. rewrite E. cbn [mbind option_bind].
      eexists. split; [|done]. exists ds. rewrite Z.abs_eq by lia. split; [done|].
      by replace (z <? 0) with false by zb.
    - rewrite uwrap_small by (destruct lw_ok as [-> | ->]; lia).
      destruct (Hnum (- z) (Some (str "-"))) as (ds & Hd & E); [lia|by repeat constructor|done|].
      rewrite E. cbn [mbind option_bind]. eexists. split; [|done]. exists ds. rewrite Z.abs_neq by lia.
      split; [done|]. by replace (z <? 0) with true by zb. }
  destruct Hc as (s & Hs & Hc). exists s. split; [done|].
  cbn [format_loop next mbind option_bind Z.eqb Pos.eqb negb].
  unfold directive. cbn [flags_loop flag_of Z.eqb Pos.eqb mbind option_bind].
  unfold spec_width. cbn [Z.eqb Pos.eqb number_loop isdigit Z.leb Z.compare Pos.compare Pos.compare_cont andb mbind option_bind].
  unfold spec_prec, spec_size. cbn [Z.eqb Pos.eqb orb mbind option_bind].
  unfold convert. cbn [Z.eqb Pos.eqb orb]. rewrite Hc. cbn [mbind option_bind]. apply skip_counts.
Qed.

Lemma format_d n l z fmt args : - 2 ^ 31 <= z < 2 ^ 31 ->
  exists s, no_nul s /\
  format_loop (H := T) lw (S (S (S n))) l (Some (37 :: 100 :: fmt)) (AInt z :: args) =
  format_loop (H := T) lw (S (S n)) (l ++ s) (Some fmt) args.
Proof using lw_ok.
  intros Hz. destruct (format_decimal n l z fmt args Hz) as (s & Hs & E). exists s. split; [|done].
  by eapply decimal_no_nul.
Qed.
End Pieces.

(** ** Hexadecimal numbers read back *)

Lemma hex_loop_digits upper ds : Forall (fun d => 0 <= d < 16) ds -> forall v,
  0 <= v -> fold_left (fun v d => v * 16 + d) ds v < 2 ^ 32 ->
  hex_loop (map (digit_char upper) ds ++ [0]) v = Some (fold_left (fun v d => v * 16 + d) ds v).
Proof.
  assert (Hmono : forall ds v, Forall (fun d => 0 <= d < 16) ds -> 0 <= v ->
    v <= fold_left (fun v d => v * 16 + d) ds v).
  { intros ds'. induction ds' as [|d ds' IH]; intros v H; cbn; [lia|].
    inversion H as [|x l Hx Hl]; subst. intros Hv. specialize (IH (v * 16 + d) Hl). lia. }
  induction 1 as [|d ds Hd Hds IH]; intros v Hv Hlt; cbn [map app fold_left hex_loop] in *; [done|].
  pose proof (Hmono ds (v * 16 + d) Hds ltac:(lia)).
  rewrite (uwrap_small 32 (v * 16)) by lia.
  assert (E : forall x, x = d -> u32 (v * 16 + x) = v * 16 + d)
    by (intros x ->; apply uwrap_small; lia).
  unfold digit_char, isdigit. destruct (Z.ltb_spec d 10), upper; split_tests_goal;
    rewrite E by lia; apply IH; lia.
Qed.

(** [hextoi] reads back what [%x] and [%X] print. *)
Theorem hextoi_roundtrip lw cap (upper : bool) v :
  (lw = 32 \/ lw = 64) -> 0 <= v < 2 ^ 32 ->
  exists s, text lw cap (if upper then str "%X" else str "%x") [AInt v] = Some (s, []) /\
    hextoi (s ++ [0]) = Some v.
Proof.
  intros Hlw Hv.
  destruct (put_ulong_numeral cap lw [] v 16 upper None 0 (-1) 0) as (ds & (Hd & Hval & Hhd) & E).
  { split; auto. } { unfold ULONG_MAX. destruct Hlw as [-> | ->]; lia. } { constructor. } { done. }
  exists (map (digit_char upper) ds). cbn [default] in E. rewrite field_wide in E by lia.
  assert (Hz : Z.to_nat (-1 - zlen ds) = 0%nat) by lia.
  rewrite Hz in E. cbn [repeat app] in E. split.
  - assert (Hc : conv_unsigned (H := text_sink cap) lw [] (if upper then 88 else 120) 0 0 (-1) [AInt v]
                 = Some (map (digit_char upper) ds, [])).
    { unfold conv_unsigned. change (has 0 flag_short) with false.
      change (has 0 flag_long) with false. change (has 0 flag_hash) with false.
      cbn -[put_ulong uwrap]. rewrite (uwrap_small 32 v) by lia.
      destruct upper; cbn -[put_ulong]; rewrite E; done. }
    unfold text, text_after, format, format_loop.
    change (str "%X") with [37; 88]; change (str "%x") with [37; 120].
    destruct upper; cbn -[conv_unsigned]; rewrite Hc; done.
  - unfold hextoi.
    assert (hex_prefix (map (digit_char upper) ds ++ [0]) = false) as ->.
    { destruct ds as [|d [|d' ds]]; [done|by destruct upper; cbn; rewrite andb_false_r|].
      destruct Hhd as [Hhd|]; [|done]. inversion Hd as [|x l Hx Hl]; subst.
      cbn. assert (digit_char upper d =? 48 = false) as ->; [|done].
      apply Z.eqb_neq. unfold digit_char. destruct (Z.ltb_spec d 10), upper; lia. }
    rewrite hex_loop_digits; [by rewrite Hval|done|lia|rewrite Hval; lia].
Qed.


(** The zeros of a zero-padded field stand before the sign. *)
Example zero_padding_before_sign :
  text 32 100 (str "%06d") [AInt (-42)] = Some (str "000-42", []).
Proof. vm_compute. reflexivity. Qed.

(** ** Instances *)

(** Fresh memory filled with [A]s. *)
Definition demo_balloc (n : Z) : option (list Z) :=
  if n <=? 2 ^ 30 then Some (repeat 65 (Z.to_nat n)) else None.
Definition demo_brealloc (b : list Z) (n : Z) : option (list Z) :=
  if n <=? 2 ^ 30 then Some (take (Z.to_nat n) (b ++ repeat 65 (Z.to_nat n))) else None.

Lemma demo_balloc_ok n : 0 < n <= 2 ^ 30 -> exists b, demo_balloc n = Some b /\ zlen b = n.
Proof.
  intros Hn. unfold demo_balloc. destruct (Z.leb_spec n (2 ^ 30)); [|lia].
  eexists. split; [done|]. rewrite repeat_length. lia.
Qed.

Lemma demo_brealloc_ok b n : zlen b <= n <= 2 ^ 30 ->
  exists b', demo_brealloc b n = Some b' /\ zlen b' = n /\ take (length b) b' = b.
Proof.
  intros Hn. unfold demo_brealloc. destruct (Z.leb_spec n (2 ^ 30)); [|lia].
  eexists. split; [done|]. split.
  - rewrite length_take, length_app, repeat_length. lia.
  - rewrite take_take, take_app_le by lia. rewrite take_ge; [done|lia].
Qed.

(** A text as long as a limit below 64 bytes is not terminated where it ends: the
    caller reads on in the uninitialised rest of the block. *)
Example fmtAlloc_short_limit :
  exists b, fmtAlloc demo_balloc demo_brealloc 32 10 (str "%d") [AInt 1234567890] = Some (10, Some b) /\
    cstr b = Some (str "1234567890" ++ repeat 65 53).
Proof. eexists. split; [vm_compute; reflexivity|]. vm_compute. reflexivity. Qed.

Lemma fmtAlloc_correct_witness :
  exists b, fmtAlloc demo_balloc demo_brealloc 32 80 (str "%s:%d") [AStr (Some (repeat 66 70 ++ [0])); AInt 5]
      = Some (63, Some b) /\
    cstr b = Some (repeat 66 63).
Proof.
  destruct (fmtAlloc_correct demo_balloc demo_brealloc demo_balloc_ok demo_brealloc_ok
    32 80 (str "%s:%d") [AStr (Some (repeat 66 70 ++ [0])); AInt 5] (repeat 66 70 ++ [58; 53]) [])
    as (b & E & Hs).
  - lia.
  - vm_compute. reflexivity.
  - left. unfold STR_INC. lia.
  - exists b. split; [exact E|]. rewrite Hs. vm_compute. reflexivity.
Defined.

Lemma fmtRealloc_correct_witness :
  exists r ps', fmtRealloc demo_balloc demo_brealloc 32 (Some (str "abc" ++ repeat 0 61)) 128 64
      (str "%d") [AInt 7] = Some (r, ps') /\
    appendable 128 ps' r (str "abc7").
Proof.
  apply (fmtRealloc_correct demo_balloc demo_brealloc demo_balloc_ok demo_brealloc_ok
    32 128 (Some (str "abc" ++ repeat 0 61)) 64 (str "abc") (str "%d") [AInt 7] (str "abc7") []).
  - unfold STR_INC. lia.
  - right. exists (str "abc" ++ repeat 0 61), 1. repeat split; (done || (vm_compute; done)).
  - vm_compute. reflexivity.
Defined.

Lemma fmtStatic_correct_witness :
  exists b, fmtStatic demo_balloc demo_brealloc 32 (repeat 65 10) 5 (str "%s") [AStr (Some (str "hello" ++ [0]))]
      = Some (4, b) /\
    cstr b = Some (str "hell") /\ length b = 10%nat /\ drop 5 b = repeat 65 5.
Proof.
  apply (fmtStatic_correct demo_balloc demo_brealloc 32 (repeat 65 10) 5 (str "%s")
           [AStr (Some (str "hello" ++ [0]))] (str "hello") []).
  - cbn. lia.
  - vm_compute. reflexivity.
Defined.

Lemma hextoi_roundtrip_witness :
  exists s, text 32 100 (str "%X") [AInt 48879] = Some (s, []) /\ hextoi (s ++ [0]) = Some 48879.
Proof.
  apply (hextoi_roundtrip 32 100 true 48879); [by left|]. lia.
Defined.

Lemma put_ulong_correct_witness :
  exists ds, numeral 10 42 ds /\
    put_ulong (H := text_sink 100) 32 [] 42 10 false (Some (str "-")) 6 3 0 =
      Some ([] ++ field 0 6 (str "-" ++ repeat 48 (Z.to_nat (3 - zlen ds)) ++ map (digit_char false) ds)).
Proof.
  apply (put_ulong_correct 100 32 [] 42 10 false (Some (str "-")) 6 3 0).
  - split; auto.
  - split; [lia|vm_compute; discriminate].
  - repeat constructor. discriminate.
  - vm_compute. reflexivity.
Defined.
