(* ===== verification/Decimal.v ===== *)
(** * Decimal numbers

    The text of a number, as [decimal] of [Fmt] has it: its length, its characters, and
    that [atoi] reads it back. *)

From S2P Require Import Prelude CString Fmt.
#[local] Open Scope Z_scope.
#[local] Open Scope cint_scope.

Lemma digit_10 d : 0 <= d < 10 -> digit_char false d = 48 + d.
Proof. intros Hd. unfold digit_char. by replace (d <? 10) with true by zb. Qed.

Lemma fold_digits_ge ds : Forall (fun d => 0 <= d < 10) ds -> forall v, 0 <= v ->
  v * 10 ^ zlen ds <= fold_left (fun v d => v * 10 + d) ds v.
Proof.
  induction 1 as [|d ds Hd _ IH]; intros v Hv; cbn [fold_left length].
  - rewrite Z.pow_0_r. lia.
  - specialize (IH (v * 10 + d) ltac:(lia)). rewrite Nat2Z.inj_succ, Z.pow_succ_r by lia.
    assert (0 < 10 ^ zlen ds) by (apply Z.pow_pos_nonneg; lia). nia.
Qed.

Lemma numeral_length v ds k : numeral 10 v ds -> 1 <= k -> v < 10 ^ k -> zlen ds <= k.
Proof.
  intros (Hd & Hv & Hh) Hk Hlt. destruct ds as [|d ds]; [done|]. apply Forall_cons_iff in Hd as [Hd0 Hd].
  destruct Hh as [Hh| ->]; [|cbn; lia]. cbn [fold_left] in Hv.
  pose proof (fold_digits_ge ds Hd (0 * 10 + d) ltac:(lia)) as Hge. cbn [length].
  destruct (Z.le_gt_cases (zlen ds + 1) k) as [|Hgt]; [lia|]. exfalso.
  assert (10 ^ k <= 10 ^ zlen ds) by (apply Z.pow_le_mono_r; lia). nia.
Qed.

Lemma decimal_length z s : decimal z s -> - 2 ^ 31 <= z < 2 ^ 31 -> zlen s <= 11.
Proof.
  intros (ds & Hn & ->) Hz. pose proof (numeral_length _ _ 10 Hn ltac:(lia)) as Hl.
  rewrite length_app, length_map. destruct (z <? 0); cbn [length]; lia.
Qed.

Lemma dec_digits ds : Forall (fun d => 0 <= d < 10) ds ->
  digits_prefix (map (digit_char false) ds) = map (digit_char false) ds /\
  forall v, fold_left (fun v c => v * 10 + (c - 48)) (map (digit_char false) ds) v =
            fold_left (fun v d => v * 10 + d) ds v.
Proof.
  induction 1 as [|d ds Hd _ [IH1 IH2]]; [done|]. cbn [map digits_prefix fold_left].
  rewrite digit_10 by done. unfold isdigit. replace ((48 <=? 48 + d) && (48 + d <=? 57)) with true
    by (symmetry; apply andb_true_intro; split; zb).
  split; [by rewrite IH1|]. intros v. rewrite IH2. f_equal. lia.
Qed.

Lemma atoi_decimal z s : decimal z s -> - 2 ^ 31 <= z < 2 ^ 31 -> atoi (s ++ [0]) = Some z.
Proof.
  intros Hdec Hz. unfold atoi. rewrite cstr_app by (by eapply decimal_no_nul). cbn [mbind option_bind].
  destruct Hdec as (ds & (Hd & Hv & Hh) & ->). destruct (dec_digits ds Hd) as [Hp Hf].
  destruct ds as [|d ds]; [done|]. apply Forall_cons_iff in Hd as Hd'. destruct Hd' as [Hd0 _].
  destruct (Z.ltb_spec z 0) as [Hneg|Hpos]; cbn [app].
  - cbn [skip_space isspace Z.eqb Pos.eqb Z.leb Z.compare Pos.compare Pos.compare_cont andb orb].
    rewrite Hp. unfold dec_val. rewrite Hf, Hv, Z.abs_neq by lia. replace (- - z) with z by lia.
    replace ((- 2 ^ 31 <=? z) && (z <? 2 ^ 31)) with true by lia. done.
  - assert (Hs : skip_space (map (digit_char false) (d :: ds)) = map (digit_char false) (d :: ds)).
    { cbn [map skip_space]. rewrite digit_10 by done. unfold isspace.
      replace ((48 + d =? 32) || (9 <=? 48 + d) && (48 + d <=? 13)) with false; [done|].
      symmetry. apply orb_false_intro; [zb|apply andb_false_intro2; zb]. }
    rewrite Hs. cbn [map]. rewrite digit_10 by done. replace (48 + d =? 45) with false by zb.
    replace (48 + d =? 43) with false by zb. rewrite <- (digit_10 d) by done.
    change (digit_char false d :: map (digit_char false) ds) with (map (digit_char false) (d :: ds)).
    rewrite Hp. unfold dec_val. rewrite Hf, Hv, Z.abs_eq by lia.
    replace ((- 2 ^ 31 <=? z) && (z <? 2 ^ 31)) with true by lia. done.
Qed.

(** The characters of a number. *)
Lemma decimal_chars z s : decimal z s -> s <> [] /\ Forall (fun c => c = 45 \/ 48 <= c <= 57) s.
Proof.
  intros (ds & (Hd & _ & Hh) & ->). split; [destruct ds; [done|by destruct (z <? 0)]|].
  apply Forall_app. split; [destruct (z <? 0); repeat constructor|].
  apply Forall_map. eapply Forall_impl; [|exact Hd]. intros d Hdd. cbn in *. rewrite digit_10 by done. lia.
Qed.
