(* ===== verification/RingQ.v ===== *)
(** * The ring queue of the web server (webs/src/src/ringq.c)

    A byte queue in a circular buffer that grows on demand.  Pointers into the
    buffer are offsets from [rq->buf]; [malloc n] is what [balloc] (a macro for
    malloc) returns for [n] bytes: the initial contents of the block, or nothing.
    A result [None] means that the call does not return. *)

From S2P Require Import Prelude.

Record ringq : Type := mkRingq {
  rq_buf : list Z;
  rq_servp : Z;
  rq_endp : Z;
  rq_endbuf : Z;
  rq_buflen : Z;
  rq_maxsize : Z;
  rq_increment : Z
}.

(** ** Operations that do not allocate *)

Definition RINGQ_LEN (rq : ringq) : Z :=
  if rq_endp rq <? rq_servp rq then rq_buflen rq + (rq_endp rq - rq_servp rq)
  else rq_endp rq - rq_servp rq.

Definition ringqLen (rq : ringq) : Z :=
  if rq_endp rq <? rq_servp rq then rq_buflen rq + rq_endp rq - rq_servp rq
  else rq_endp rq - rq_servp rq.

Definition ringqFlush (rq : ringq) : ringq :=
  rq <| rq_servp := 0 |> <| rq_endp := 0 |> <| rq_buf := bput (rq_buf rq) 0 [0] |>.

Definition ringqClose (rq : ringq) : ringq :=
  (ringqFlush rq) <| rq_buf := [] |>.

Definition ringqPutBlkMax (rq : ringq) : Z :=
  let space := rq_buflen rq - RINGQ_LEN rq - 1 in
  let in_a_line := rq_endbuf rq - rq_endp rq in
  Z.min in_a_line space.

Definition ringqGetBlkMax (rq : ringq) : Z :=
  let len := RINGQ_LEN rq in
  let in_a_line := rq_endbuf rq - rq_servp rq in
  Z.min in_a_line len.

(** [servp += this], wrapped at the end of the buffer. *)
Definition ringq_skip (rq : ringq) (this : Z) : ringq :=
  let rq := rq <| rq_servp := rq_servp rq + this |> in
  if rq_endbuf rq <=? rq_servp rq then rq <| rq_servp := 0 |> else rq.

Definition ringqGetc (rq : ringq) : Z * ringq :=
  if rq_servp rq =? rq_endp rq then (-1, rq)
  else
    let c := zget (rq_buf rq) (rq_servp rq) in
    (u8 c, ringq_skip rq 1).

Definition ringqAddNull (rq : ringq) : ringq :=
  rq <| rq_buf := bput (rq_buf rq) (rq_endp rq) [0] |>.

Definition ringqPutBlkAdj (rq : ringq) (size : Z) : ringq :=
  let rq := rq <| rq_endp := rq_endp rq + size |> in
  let rq := if rq_endbuf rq <=? rq_endp rq
            then rq <| rq_endp := rq_endp rq - rq_buflen rq |> else rq in
  if rq_endbuf rq <=? rq_endp rq then ringqFlush rq else rq.

Definition ringqGetBlkAdj (rq : ringq) (size : Z) : ringq :=
  let rq := rq <| rq_servp := rq_servp rq + size |> in
  let rq := if rq_endbuf rq <=? rq_servp rq
            then rq <| rq_servp := rq_servp rq - rq_buflen rq |> else rq in
  if rq_endbuf rq <=? rq_servp rq then ringqFlush rq else rq.

(** The copy loop of [ringqGetBlk]: the bytes written to the caller's buffer so
    far are [got]; each round takes one straight run. *)
Fixpoint ringqGetBlk_loop (fuel : nat) (rq : ringq) (got : list Z) (size : Z)
  : option (list Z * ringq) :=
  match fuel with
  | O => None
  | S fuel =>
      if 0 <? size then
        let this := Z.min (ringqGetBlkMax rq) size in
        if this <=? 0 then Some (got, rq)
        else
          let d := bsub (rq_buf rq) (rq_servp rq) this in
          ringqGetBlk_loop fuel (ringq_skip rq this) (got ++ d) (size - this)
      else Some (got, rq)
  end.

Definition ringqGetBlk (rq : ringq) (size : Z) : option (list Z * ringq) :=
  ringqGetBlk_loop (S (Z.to_nat size)) rq [] size.

(** [for (q = 0; size; size >>= 1) q++] *)
Fixpoint bin_shift_loop (fuel : nat) (size q : Z) : option Z :=
  match fuel with
  | O => None
  | S fuel => if size =? 0 then Some q
              else bin_shift_loop fuel (Z.shiftr size 1) (q + 1)
  end.

Definition B_SHIFT : Z := 4.

Definition getBinBlockSize (size : Z) : option Z :=
  q ← bin_shift_loop 32 (Z.shiftr size B_SHIFT) 0;
  Some (s32 (Z.shiftl 1 (B_SHIFT + q))).

(** ** Operations that allocate *)

Section Malloc.
Context (malloc : Z -> option (list Z)).

Definition ringqOpen (initSize maxsize : Z) : option (option ringq) :=
  increment ← getBinBlockSize initSize;
  match malloc increment with
  | None => Some None
  | Some buf =>
      Some (Some (mkRingq (bput buf 0 [0]) 0 0 increment increment maxsize increment))
  end.

(** Copy the first [this] bytes of [buf] to the end of the queue. *)
Definition ringq_copyin (rq : ringq) (buf : list Z) (this : Z) : ringq :=
  let rq := rq <| rq_buf := bput (rq_buf rq) (rq_endp rq) (bsub buf 0 this) |>
               <| rq_endp := rq_endp rq + this |> in
  if rq_endbuf rq <=? rq_endp rq then rq <| rq_endp := 0 |> else rq.

(** The queue that [ringqGrow] has built before it puts the old bytes back. *)
Definition ringq_swap (rq : ringq) (newbuf : list Z) (buflen : Z) : ringq :=
  rq <| rq_buflen := buflen |> <| rq_endp := 0 |> <| rq_servp := 0 |>
     <| rq_buf := newbuf |> <| rq_endbuf := buflen |>.

Fixpoint ringqPutBlk_loop (fuel : nat) (rq : ringq) (buf : list Z) (size bytes_put : Z)
  : option (Z * ringq) :=
  match fuel with
  | O => None
  | S fuel =>
      if 0 <? size then
        let this := Z.min (ringqPutBlkMax rq) size in
        if this <=? 0 then
          '(ok, rq) ← ringqGrow fuel rq;
          if negb (ok : bool) then Some (bytes_put, rq)
          else
            let this := Z.min (ringqPutBlkMax rq) size in
            ringqPutBlk_loop fuel (ringq_copyin rq buf this)
              (drop (Z.to_nat this) buf) (size - this) (bytes_put + this)
        else
          ringqPutBlk_loop fuel (ringq_copyin rq buf this)
            (drop (Z.to_nat this) buf) (size - this) (bytes_put + this)
      else Some (bytes_put, rq)
  end
with ringqGrow (fuel : nat) (rq : ringq) : option (bool * ringq) :=
  match fuel with
  | O => None
  | S fuel =>
      if (0 <=? rq_maxsize rq) && (rq_maxsize rq <=? rq_buflen rq) then Some (false, rq)
      else
        let len := ringqLen rq in
        let buflen := s32 (rq_buflen rq + rq_increment rq) in
        match malloc buflen with
        | None => Some (false, rq)
        | Some newbuf =>
            '(d, rq) ← ringqGetBlk rq (ringqLen rq);
            let newbuf := bput newbuf 0 d in
            let rq := ringq_swap rq newbuf buflen in
            '(_, rq) ← ringqPutBlk_loop fuel rq (bsub newbuf 0 len) len 0;
            increment ← getBinBlockSize (s32 (2 * rq_increment rq));
            Some (true, rq <| rq_increment := increment |>)
        end
  end.

(** Rounds that are always enough: one per byte, and the nested put of a grow. *)
Definition put_fuel (size : Z) : nat := Z.to_nat size + 6.

Definition ringqPutBlk (rq : ringq) (buf : list Z) : option (Z * ringq) :=
  ringqPutBlk_loop (put_fuel (zlen buf)) rq buf (zlen buf) 0.

(** The guard of the one-byte operations: [ringqPutBlkMax(rq) < 1 && !ringqGrow(rq)]. *)
Definition ringq_room (rq : ringq) : option (bool * ringq) :=
  if ringqPutBlkMax rq <? 1 then ringqGrow (put_fuel 0) rq else Some (true, rq).

Definition ringqPutc (rq : ringq) (c : Z) : option (Z * ringq) :=
  '(ok, rq) ← ringq_room rq;
  if negb (ok : bool) then Some (-1, rq)
  else
    let rq := rq <| rq_buf := bput (rq_buf rq) (rq_endp rq) [u8 c] |>
                 <| rq_endp := rq_endp rq + 1 |> in
    let rq := if rq_endbuf rq <=? rq_endp rq then rq <| rq_endp := 0 |> else rq in
    Some (0, rq).

(** Store one byte in front of the oldest one. *)
Definition ringq_pushfront (rq : ringq) (b : Z) : ringq :=
  let rq := if rq_servp rq <=? 0 then rq <| rq_servp := rq_endbuf rq |> else rq in
  let rq := rq <| rq_servp := rq_servp rq - 1 |> in
  rq <| rq_buf := bput (rq_buf rq) (rq_servp rq) [b] |>.

Definition ringqInsertc (rq : ringq) (c : Z) : option (Z * ringq) :=
  '(ok, rq) ← ringq_room rq;
  if negb (ok : bool) then Some (-1, rq)
  else Some (0, ringq_pushfront rq (u8 c)).

Definition ringqPutStr (rq : ringq) (str : list Z) : option (Z * ringq) :=
  '(rc, rq) ← ringqPutBlk rq str;
  Some (rc, ringqAddNull rq).

End Malloc.

(** ** The bytes in the queue *)

(** The index reached from the start of a buffer of [B] cells after one wrap at most. *)
Definition widx (B i : Z) : Z := if i <? B then i else i - B.

(** The queued bytes, oldest first. *)
Definition contents (rq : ringq) : list Z :=
  map (fun k => zget (rq_buf rq) (widx (rq_buflen rq) (rq_servp rq + Z.of_nat k)))
      (seq 0 (Z.to_nat (RINGQ_LEN rq))).

(** No block of more than 256 MiB is ever handed out. *)
Definition MALLOC_MAX : Z := 2 ^ 28.

(** What a queue looks like between two calls. *)
Record ringq_wf (rq : ringq) : Prop := {
  wf_len : zlen (rq_buf rq) = rq_buflen rq;
  wf_endbuf : rq_endbuf rq = rq_buflen rq;
  wf_servp : 0 <= rq_servp rq < rq_buflen rq;
  wf_endp : 0 <= rq_endp rq < rq_buflen rq;
  wf_max : rq_buflen rq <= MALLOC_MAX;
  wf_incr : exists k, 4 <= k <= 30 /\ rq_increment rq = 2 ^ k
}.

(** The parts of a queue that the copy operations leave alone. *)
Definition same_shape (rq rq' : ringq) : Prop :=
  rq_buflen rq' = rq_buflen rq /\ rq_maxsize rq' = rq_maxsize rq /\
  rq_increment rq' = rq_increment rq.

Lemma same_shape_refl rq : same_shape rq rq.
Proof. done. Qed.

Lemma same_shape_trans a b c : same_shape a b -> same_shape b c -> same_shape a c.
Proof. unfold same_shape. intuition congruence. Qed.

Create HintDb ringq.
#[export] Hint Resolve same_shape_refl : ringq.
#[export] Hint Extern 1 (_ <= _) => lia : ringq.

(** Open a well-formed queue into its fields. *)
Ltac open_ringq rq H :=
  destruct rq as [bf sp ep eb B mx inc]; destruct H as [Hlen Heb Hsp Hep Hcap Hinc];
  cbn [rq_buf rq_servp rq_endp rq_endbuf rq_buflen rq_maxsize rq_increment] in *;
  subst eb; cbn in *.

(** Split on where the queue wraps and on every test of the operation. *)
Ltac ringq_cases ep sp :=
  unfold ringqPutBlkMax, ringqGetBlkMax, RINGQ_LEN, ringq_copyin, ringq_skip, widx in *; cbn in *;
  destruct (Z.ltb_spec ep sp); split_tests_goal; cbn in *; split_tests_goal.

Lemma RINGQ_LEN_bounds rq : ringq_wf rq -> 0 <= RINGQ_LEN rq < rq_buflen rq.
Proof.
  intros H. open_ringq rq H. unfold RINGQ_LEN. cbn.
  destruct (Z.ltb_spec ep sp); lia.
Qed.

Lemma length_contents rq : ringq_wf rq -> zlen (contents rq) = RINGQ_LEN rq.
Proof.
  intros H%RINGQ_LEN_bounds. unfold contents. rewrite length_map, length_seq. lia.
Qed.

Lemma ringqLen_contents rq : ringq_wf rq -> ringqLen rq = zlen (contents rq).
Proof.
  intros H. rewrite length_contents by done. unfold ringqLen, RINGQ_LEN.
  destruct (rq_endp rq <? rq_servp rq); lia.
Qed.

(** Equality of contents, position by position. *)
Lemma contents_intro rq d :
  ringq_wf rq -> zlen d = RINGQ_LEN rq ->
  (forall k, 0 <= k < RINGQ_LEN rq ->
     zget (rq_buf rq) (widx (rq_buflen rq) (rq_servp rq + k)) = zget d k) ->
  contents rq = d.
Proof.
  intros H Hd Hk. unfold contents. rewrite <- (map_zget_seq d 0).
  replace (length d) with (Z.to_nat (RINGQ_LEN rq)) by lia.
  apply map_ext_in. intros k [_ Hk']%in_seq. rewrite Z.sub_0_r. apply Hk. lia.
Qed.

Lemma zget_contents rq k :
  ringq_wf rq -> 0 <= k < RINGQ_LEN rq ->
  zget (contents rq) k = zget (rq_buf rq) (widx (rq_buflen rq) (rq_servp rq + k)).
Proof.
  intros H Hk. unfold zget at 1, contents.
  erewrite nth_indep by (rewrite length_map, length_seq; lia).
  rewrite (map_nth (fun k => zget _ (widx _ (_ + Z.of_nat k))) _ 0%nat), seq_nth by lia.
  do 3 f_equal. lia.
Qed.

(** ** One straight run *)

Lemma ringq_copyin_spec rq buf this :
  ringq_wf rq -> 0 <= this <= ringqPutBlkMax rq -> this <= zlen buf ->
  ringq_wf (ringq_copyin rq buf this) /\
  same_shape rq (ringq_copyin rq buf this) /\
  contents (ringq_copyin rq buf this) = contents rq ++ take (Z.to_nat this) buf.
Proof.
  intros Hwf Ht Hb.
  pose proof (RINGQ_LEN_bounds rq Hwf) as HL. pose proof (length_contents rq Hwf) as HC.
  pose proof (zget_contents rq) as HG.
  assert (zlen (bsub buf 0 this) = this) as Hd by (apply length_bsub; lia).
  assert (RINGQ_LEN (ringq_copyin rq buf this) = RINGQ_LEN rq + this /\
          ringq_wf (ringq_copyin rq buf this)) as [HL' Hwf'].
  { clear HG. open_ringq rq Hwf. ringq_cases ep sp; (split; [lia|]);
      (split; cbn; rewrite ?length_bput by lia; auto; lia). }
  split_and!; [done|by destruct rq; unfold ringq_copyin; cbn; case_match|].
  apply contents_intro; [done|..].
  { rewrite length_app, length_take. lia. }
  intros k Hk. rewrite HL' in Hk. rewrite zget_app, HC by lia.
  destruct (Z.ltb_spec k (RINGQ_LEN rq)).
  - rewrite HG by (done || lia). clear HG Hwf' HL' HC. open_ringq rq Hwf.
    ringq_cases ep sp; rewrite ?zget_bput by lia; split_tests_goal; auto; lia.
  - rewrite zget_take by lia. clear HG Hwf' HL' HC. open_ringq rq Hwf.
    ringq_cases ep sp; rewrite ?zget_bput by lia; split_tests_goal; auto;
      try lia; rewrite zget_bsub by lia; f_equal; lia.
Qed.

Lemma ringq_skip_spec rq this :
  ringq_wf rq -> 0 <= this <= ringqGetBlkMax rq ->
  ringq_wf (ringq_skip rq this) /\
  same_shape rq (ringq_skip rq this) /\
  contents (ringq_skip rq this) = drop (Z.to_nat this) (contents rq) /\
  bsub (rq_buf rq) (rq_servp rq) this = take (Z.to_nat this) (contents rq).
Proof.
  intros Hwf Ht.
  pose proof (RINGQ_LEN_bounds rq Hwf) as HL. pose proof (length_contents rq Hwf) as HC.
  pose proof (zget_contents rq) as HG.
  assert (this <= RINGQ_LEN rq) by (unfold ringqGetBlkMax in Ht; lia).
  assert (RINGQ_LEN (ringq_skip rq this) = RINGQ_LEN rq - this /\
          ringq_wf (ringq_skip rq this)) as [HL' Hwf'].
  { clear HG. open_ringq rq Hwf. ringq_cases ep sp; (split; [lia|]);
      (split; cbn; rewrite ?length_bput by lia; auto; lia). }
  split_and!; [done|by destruct rq; unfold ringq_skip; cbn; case_match|..].
  - apply contents_intro; [done|rewrite length_drop; lia|].
    intros k Hk. rewrite HL' in Hk. rewrite zget_drop, HG by (done || lia).
    clear HG Hwf' HL' HC. open_ringq rq Hwf.
    ringq_cases ep sp; f_equal; lia.
  - apply zget_ext.
    + rewrite length_take. apply Nat2Z.inj. rewrite length_bsub; [lia|..].
      all: clear HG HL' HC; open_ringq rq Hwf; ringq_cases ep sp; lia.
    + intros k Hk. rewrite length_bsub in Hk;
        [|clear HG HL' HC; open_ringq rq Hwf; ringq_cases ep sp; lia..].
      rewrite zget_bsub, zget_take, HG
        by first [done | lia | clear -Hwf; open_ringq rq Hwf; lia].
      clear HG Hwf' HL' HC. open_ringq rq Hwf. ringq_cases ep sp; f_equal; lia.
Qed.

Lemma ringq_pushfront_spec rq b :
  ringq_wf rq -> 1 <= ringqPutBlkMax rq ->
  ringq_wf (ringq_pushfront rq b) /\ contents (ringq_pushfront rq b) = b :: contents rq.
Proof.
  intros Hwf Hmax.
  pose proof (RINGQ_LEN_bounds rq Hwf) as HL. pose proof (length_contents rq Hwf) as HC.
  pose proof (zget_contents rq) as HG.
  assert (RINGQ_LEN (ringq_pushfront rq b) = RINGQ_LEN rq + 1 /\
          ringq_wf (ringq_pushfront rq b)) as [HL' Hwf'].
  { clear HG. open_ringq rq Hwf. unfold ringq_pushfront.
    ringq_cases ep sp; (split; [lia|]);
      (split; cbn; rewrite ?length_bput by (cbn; lia); auto; lia). }
  split; [done|]. apply contents_intro; [done|cbn; lia|].
  intros k Hk. rewrite HL' in Hk.
  destruct (Z.eq_dec k 0) as [->|].
  - clear HG Hwf' HL' HC. open_ringq rq Hwf. unfold ringq_pushfront.
    ringq_cases ep sp; rewrite ?zget_bput by (cbn; lia); cbn; split_tests_goal; try lia;
      match goal with |- zget [b] ?i = _ => replace i with 0 by lia end; done.
  - replace (zget (b :: contents rq) k) with (zget (contents rq) (k - 1)).
    2:{ unfold zget. replace (Z.to_nat k) with (S (Z.to_nat (k - 1))) by lia. done. }
    rewrite HG by (done || lia).
    clear HG Hwf' HL' HC. open_ringq rq Hwf. unfold ringq_pushfront.
    ringq_cases ep sp; rewrite ?zget_bput by (cbn; lia); cbn; split_tests_goal; try lia;
      f_equal; lia.
Qed.

(** ** Block reads *)

Lemma ringqGetBlk_loop_spec fuel rq got size :
  ringq_wf rq -> 0 <= size -> (Z.to_nat size < fuel)%nat ->
  exists rq', ringqGetBlk_loop fuel rq got size
      = Some (got ++ take (Z.to_nat size) (contents rq), rq') /\
    ringq_wf rq' /\ same_shape rq rq' /\
    contents rq' = drop (Z.to_nat size) (contents rq).
Proof.
  revert rq got size. induction fuel as [|fuel IH]; intros rq got size Hwf Hs Hf; [lia|].
  pose proof (RINGQ_LEN_bounds rq Hwf) as HL. pose proof (length_contents rq Hwf) as HC.
  cbn [ringqGetBlk_loop]. destruct (Z.ltb_spec 0 size).
  2:{ exists rq. replace size with 0 by lia. cbn. rewrite take_0, drop_0, app_nil_r.
      auto with ringq. }
  assert (0 <= ringqGetBlkMax rq) as Hgm.
  { clear IH HC. open_ringq rq Hwf. ringq_cases ep sp; lia. }
  destruct (Z.leb_spec (Z.min (ringqGetBlkMax rq) size) 0).
  - assert (RINGQ_LEN rq = 0) as HL0.
    { clear IH HC. open_ringq rq Hwf. ringq_cases ep sp; lia. }
    exists rq. assert (contents rq = []) as -> by (apply length_zero_iff_nil; lia).
    rewrite take_nil, drop_nil, app_nil_r. auto with ringq.
  - set (this := Z.min _ _) in *.
    destruct (ringq_skip_spec rq this Hwf) as (Hwf' & Hsh & Hc & ->); [lia|].
    destruct (IH (ringq_skip rq this) (got ++ take (Z.to_nat this) (contents rq)) (size - this))
      as (rq' & Heq & Hw' & Hsh' & Hc'); [done|lia..|].
    exists rq'. rewrite Heq, Hc', Hc, <- app_assoc, take_take_drop, drop_drop.
    replace (Z.to_nat this + Z.to_nat (size - this))%nat with (Z.to_nat size) by lia.
    split_and!; [done..|by eapply same_shape_trans|done].
Qed.

(** A block read returns the oldest [size] bytes and leaves the others. *)
Lemma ringqGetBlk_spec rq size :
  ringq_wf rq -> 0 <= size ->
  exists rq', ringqGetBlk rq size = Some (take (Z.to_nat size) (contents rq), rq') /\
    ringq_wf rq' /\ same_shape rq rq' /\
    contents rq' = drop (Z.to_nat size) (contents rq).
Proof.
  intros Hwf Hs. unfold ringqGetBlk. apply (ringqGetBlk_loop_spec _ _ []); auto with lia.
Qed.

(** ** Block sizes *)

Lemma bin_shift_loop_spec fuel size q :
  0 < size -> (Z.to_nat (Z.log2 size) + 1 < fuel)%nat ->
  bin_shift_loop fuel size q = Some (q + Z.log2 size + 1).
Proof.
  revert size q. induction fuel as [|fuel IH]; intros size q Hs Hf; [lia|].
  cbn [bin_shift_loop]. destruct (Z.eqb_spec size 0); [lia|].
  rewrite Z.shiftr_div_pow2 by lia. change (2 ^ 1) with 2.
  destruct (Z.eq_dec size 1) as [->|].
  - change (1 / 2) with 0. destruct fuel; [cbn in Hf; lia|]. cbn. f_equal. lia.
  - assert (2 <= size) by lia. assert (0 < size / 2) by (apply Z.div_str_pos; lia).
    assert (Z.log2 size = Z.log2 (size / 2) + 1) as E.
    { pose proof (Z.log2_shiftr size 1) as E. pose proof (Z.log2_le_mono 2 size).
      change (Z.log2 2) with 1 in *. rewrite Z.shiftr_div_pow2 in E by lia.
      change (2 ^ 1) with 2 in E. lia. }
    pose proof (Z.log2_nonneg (size / 2)).
    rewrite IH by lia. f_equal. lia.
Qed.

(** For [16 <= size < 2^30] the result is the smallest power of two that is
    strictly greater than [size]. *)
Lemma getBinBlockSize_pow2 size :
  16 <= size < 2 ^ 30 -> getBinBlockSize size = Some (2 ^ (Z.log2 size + 1)).
Proof.
  intros Hs. unfold getBinBlockSize, B_SHIFT.
  assert (4 <= Z.log2 size < 30) as Hl.
  { split; [exact (Z.log2_le_mono 16 size ltac:(lia))|]. apply Z.log2_lt_pow2; lia. }
  assert (Z.log2 (Z.shiftr size 4) = Z.log2 size - 4) as Hl4.
  { rewrite Z.log2_shiftr; lia. }
  rewrite bin_shift_loop_spec; [|rewrite Z.shiftr_div_pow2 by lia; apply Z.div_str_pos; lia|lia].
  cbn [mbind option_bind]. rewrite Hl4, Z.shiftl_mul_pow2, Z.mul_1_l by lia.
  rewrite s32_small; [do 2 f_equal; lia|].
  split; [transitivity 0; [lia|]; apply Z.pow_nonneg; lia|].
  apply Z.pow_lt_mono_r; lia.
Qed.

Lemma getBinBlockSize_small size : 0 <= size < 16 -> getBinBlockSize size = Some 16.
Proof.
  intros. unfold getBinBlockSize, B_SHIFT.
  rewrite Z.shiftr_div_pow2, Z.div_small by lia. done.
Qed.

(** ** Growing and block writes *)

Section Grow.
Context (malloc : Z -> option (list Z)).

(** A block has the size asked for, and there is an upper limit to what can be had. *)
Hypothesis malloc_spec : forall n b,
  malloc n = Some b -> zlen b = n /\ 0 <= n <= MALLOC_MAX.

(** When [ringqGrow] refuses. *)
Definition grow_refused (rq : ringq) : Prop :=
  0 <= rq_maxsize rq <= rq_buflen rq \/ malloc (rq_buflen rq + rq_increment rq) = None.

Lemma incr_bounds rq : ringq_wf rq ->
  16 <= rq_increment rq <= 2 ^ 30.
Proof.
  intros H. destruct (wf_incr _ H) as (k & Hk & ->). split.
  - apply (Z.pow_le_mono_r 2 4 k); lia.
  - apply (Z.pow_le_mono_r 2 k 30); lia.
Qed.

(** Putting back the old bytes takes one straight copy. *)
Lemma putback_spec fuel rq buf :
  ringq_wf rq -> rq_servp rq = 0 -> rq_endp rq = 0 -> zlen buf < rq_buflen rq ->
  (2 <= fuel)%nat ->
  exists rq', ringqPutBlk_loop malloc fuel rq buf (zlen buf) 0 = Some (zlen buf, rq') /\
    ringq_wf rq' /\ same_shape rq rq' /\ contents rq' = buf.
Proof.
  intros Hwf Hs He Hb Hf. destruct fuel as [|[|fuel]]; [lia..|].
  assert (RINGQ_LEN rq = 0) as HL by (unfold RINGQ_LEN; rewrite Hs, He; done).
  assert (contents rq = []) as HC.
  { apply length_zero_iff_nil. pose proof (length_contents rq Hwf). lia. }
  cbn [ringqPutBlk_loop]. destruct (Z.ltb_spec 0 (zlen buf)).
  - assert (Z.min (ringqPutBlkMax rq) (zlen buf) = zlen buf) as ->.
    { unfold ringqPutBlkMax. rewrite HL, (wf_endbuf _ Hwf), He. lia. }
    destruct (Z.leb_spec (zlen buf) 0); [lia|]. rewrite Z.sub_diag. cbn.
    destruct (ringq_copyin_spec rq buf (zlen buf) Hwf) as (Hwf' & Hsh & Hc); [|lia|].
    { unfold ringqPutBlkMax. rewrite HL, (wf_endbuf _ Hwf), He. lia. }
    eexists. split_and!; [done|done|done|]. rewrite Hc, HC, Nat2Z.id, firstn_all. done.
  - exists rq. assert (buf = []) as -> by (apply length_zero_iff_nil; lia).
    rewrite HC. auto with ringq.
Qed.

(** Growing keeps the queued bytes; it adds [increment] cells and multiplies the
    increment by four. *)
Lemma ringqGrow_spec fuel rq :
  ringq_wf rq -> (3 <= fuel)%nat ->
  exists ok rq', ringqGrow malloc fuel rq = Some (ok, rq') /\
    ringq_wf rq' /\ contents rq' = contents rq /\
    if (ok : bool) then
      rq_buflen rq' = rq_buflen rq + rq_increment rq /\
      rq_increment rq' = 4 * rq_increment rq /\ rq_maxsize rq' = rq_maxsize rq
    else rq' = rq /\ grow_refused rq.
Proof.
  intros Hwf Hf. destruct fuel as [|fuel]; [lia|]. cbn [ringqGrow].
  pose proof (incr_bounds rq Hwf) as Hib. pose proof (wf_max _ Hwf) as Hm.
  pose proof (wf_servp _ Hwf). pose proof (RINGQ_LEN_bounds rq Hwf) as HL.
  pose proof (length_contents rq Hwf) as HC.
  destruct ((0 <=? rq_maxsize rq) && (rq_maxsize rq <=? rq_buflen rq)) eqn:Ec; prop_bools.
  { exists false, rq. unfold grow_refused. split_and!; [done..|by left]. }
  unfold MALLOC_MAX in Hm. rewrite s32_small by lia.
  destruct (malloc (rq_buflen rq + rq_increment rq)) as [nb|] eqn:Em.
  2:{ exists false, rq. unfold grow_refused. split_and!; [done..|by right]. }
  destruct (malloc_spec _ _ Em) as [Hnb Hlim].
  destruct (ringqGetBlk_spec rq (ringqLen rq) Hwf) as (rq1 & -> & Hw1 & Hsh1 & _).
  { rewrite ringqLen_contents by done. lia. }
  rewrite ringqLen_contents, Nat2Z.id, firstn_all by done. cbn [mbind option_bind].
  rewrite bsub_bput_same by lia.
  set (rq2 := ringq_swap _ _ _). destruct Hsh1 as (Hsb & Hsm & Hsi).
  assert (ringq_wf rq2) as Hw2.
  { destruct rq1. unfold rq2, ringq_swap. cbn in *. subst.
    split; cbn; try lia; [rewrite length_bput; lia|]. exact (wf_incr _ Hw1). }
  destruct (putback_spec fuel rq2 (contents rq) Hw2) as (rq3 & -> & Hw3 & Hsh3 & Hc3).
  { by destruct rq1. } { by destruct rq1. } { destruct rq1; cbn in *; lia. } { lia. }
  cbn [mbind option_bind]. destruct Hsh3 as (Hb3 & Hm3 & Hi3).
  assert (rq_increment rq3 = rq_increment rq) as Hi by (destruct rq1; cbn in *; congruence).
  destruct (wf_incr _ Hw3) as (k & Hk & Hi'). rewrite Hi in *.
  unfold MALLOC_MAX in Hlim.
  assert (k <= 28) by (apply (Z.pow_le_mono_r_iff 2); lia).
  rewrite s32_small by lia.
  assert (2 * rq_increment rq = 2 ^ (k + 1)) as E2 by (rewrite Z.pow_add_r, Hi'; lia).
  assert (2 ^ (k + 1) < 2 ^ 30) by (apply Z.pow_lt_mono_r; lia).
  rewrite getBinBlockSize_pow2 by lia. cbn [mbind option_bind].
  rewrite E2, Z.log2_pow2 by lia.
  exists true, (rq3 <| rq_increment := 2 ^ (k + 1 + 1) |>). split; [done|].
  assert (2 ^ (k + 1 + 1) = 4 * 2 ^ k) as E4 by (rewrite !Z.pow_add_r by lia; lia).
  split_and!.
  - destruct rq3, Hw3. split; cbn in *; auto. exists (k + 1 + 1). lia.
  - destruct rq3. exact Hc3.
  - destruct rq1, rq3; cbn in *. congruence.
  - destruct rq3; cbn. lia.
  - destruct rq1, rq3; cbn in *. congruence.
Qed.

Lemma PutBlkMax_pos rq :
  ringq_wf rq -> RINGQ_LEN rq < rq_buflen rq - 1 -> 1 <= ringqPutBlkMax rq.
Proof.
  intros H HL. unfold ringqPutBlkMax. rewrite (wf_endbuf _ H).
  pose proof (wf_endp _ H). lia.
Qed.

Lemma PutBlkMax_full rq :
  ringq_wf rq -> ringqPutBlkMax rq <= 0 -> RINGQ_LEN rq = rq_buflen rq - 1.
Proof.
  intros H HL. unfold ringqPutBlkMax in HL. rewrite (wf_endbuf _ H) in HL.
  pose proof (wf_endp _ H). pose proof (RINGQ_LEN_bounds _ H). lia.
Qed.

(** A queue that can take no more: full, and growing refused. *)
Definition ringq_full (rq : ringq) : Prop :=
  zlen (contents rq) = rq_buflen rq - 1 /\ grow_refused rq.

Lemma room_after_grow fuel rq :
  ringq_wf rq -> (3 <= fuel)%nat -> ringqPutBlkMax rq <= 0 ->
  exists ok rq', ringqGrow malloc fuel rq = Some (ok, rq') /\
    ringq_wf rq' /\ contents rq' = contents rq /\
    if (ok : bool) then 1 <= ringqPutBlkMax rq' /\ rq_buflen rq <= rq_buflen rq'
    else rq' = rq /\ ringq_full rq.
Proof.
  intros Hwf Hf Hmax.
  destruct (ringqGrow_spec fuel rq Hwf Hf) as (ok & rq' & Heq & Hwf' & Hc & Hok).
  exists ok, rq'. split_and!; [done..|]. pose proof (incr_bounds rq Hwf).
  pose proof (PutBlkMax_full _ Hwf Hmax). pose proof (length_contents _ Hwf).
  pose proof (length_contents _ Hwf'). pose proof (RINGQ_LEN_bounds rq Hwf).
  rewrite Hc in *. destruct ok.
  - split; [apply PutBlkMax_pos; [done|lia]|lia].
  - destruct Hok. split; [done|split; [lia|done]].
Qed.

Lemma ringqPutBlk_loop_spec fuel rq buf put :
  ringq_wf rq -> (length buf + 4 <= fuel)%nat ->
  exists n rq', ringqPutBlk_loop malloc fuel rq buf (zlen buf) put = Some (put + n, rq') /\
    ringq_wf rq' /\ 0 <= n <= zlen buf /\
    contents rq' = contents rq ++ take (Z.to_nat n) buf /\
    (n < zlen buf -> ringq_full rq') /\ rq_buflen rq <= rq_buflen rq'.
Proof.
  revert rq buf put. induction fuel as [|fuel IH]; intros rq buf put Hwf Hf; [lia|].
  cbn [ringqPutBlk_loop]. destruct (Z.ltb_spec 0 (zlen buf)).
  2:{ exists 0, rq. rewrite Z.add_0_r, take_0, app_nil_r. split_and!; try done; lia. }
  assert (forall rq1 put, ringq_wf rq1 -> contents rq1 = contents rq -> 1 <= ringqPutBlkMax rq1 ->
    let this := Z.min (ringqPutBlkMax rq1) (zlen buf) in
    exists n rq', ringqPutBlk_loop malloc fuel (ringq_copyin rq1 buf this)
        (drop (Z.to_nat this) buf) (zlen buf - this) (put + this) = Some (put + n, rq') /\
      ringq_wf rq' /\ 0 <= n <= zlen buf /\
      contents rq' = contents rq ++ take (Z.to_nat n) buf /\
      (n < zlen buf -> ringq_full rq') /\ rq_buflen rq1 <= rq_buflen rq') as Hcopy.
  { intros rq1 put' Hw1 Hc1 H1 this.
    destruct (ringq_copyin_spec rq1 buf this Hw1) as (Hw2 & (Hsh & _) & Hc2); [lia|lia|].
    assert (zlen (drop (Z.to_nat this) buf) = zlen buf - this) as Hd
      by (rewrite length_drop; lia).
    destruct (IH (ringq_copyin rq1 buf this) (drop (Z.to_nat this) buf) (put' + this) Hw2)
      as (n & rq' & Heq & Hw' & Hn & Hc' & Hfull & Hbl); [rewrite length_drop; lia|].
    rewrite Hd in *. exists (this + n), rq'. rewrite Heq, Hc', Hc2, Hc1, <- app_assoc, take_take_drop.
    split_and!; [do 2 f_equal; lia|done|lia|lia| | |lia].
    - do 2 f_equal. lia.
    - intros. apply Hfull. lia. }
  destruct (Z.leb_spec (Z.min (ringqPutBlkMax rq) (zlen buf)) 0).
  - destruct (room_after_grow fuel rq Hwf) as (ok & rq1 & -> & Hw1 & Hc1 & Hok); [lia|lia|].
    cbn [mbind option_bind]. destruct ok; cbn [negb].
    + destruct Hok as [Hm Hbl].
      destruct (Hcopy rq1 put Hw1 Hc1 Hm) as (n & rq' & ? & ? & ? & ? & ? & ?).
      exists n, rq'. split_and!; try done; lia.
    + destruct Hok as [-> Hfull]. exists 0, rq.
      rewrite Z.add_0_r, take_0, app_nil_r. split_and!; try done; lia.
  - apply Hcopy; [done|done|lia].
Qed.

(** A block write appends the longest prefix that fits. *)
Lemma ringqPutBlk_spec rq buf :
  ringq_wf rq ->
  exists n rq', ringqPutBlk malloc rq buf = Some (n, rq') /\
    ringq_wf rq' /\ 0 <= n <= zlen buf /\
    contents rq' = contents rq ++ take (Z.to_nat n) buf /\
    (n < zlen buf -> ringq_full rq') /\ rq_buflen rq <= rq_buflen rq'.
Proof.
  intros Hwf. unfold ringqPutBlk, put_fuel.
  apply (ringqPutBlk_loop_spec _ rq buf 0); [done|lia].
Qed.

Lemma ringq_room_spec rq :
  ringq_wf rq ->
  exists ok rq', ringq_room malloc rq = Some (ok, rq') /\
    ringq_wf rq' /\ contents rq' = contents rq /\
    if (ok : bool) then 1 <= ringqPutBlkMax rq' /\ rq_buflen rq <= rq_buflen rq'
    else rq' = rq /\ ringq_full rq.
Proof.
  intros Hwf. unfold ringq_room. destruct (Z.ltb_spec (ringqPutBlkMax rq) 1).
  - apply room_after_grow; [done|unfold put_fuel; lia|lia].
  - exists true, rq. auto with lia.
Qed.

Lemma ringqPutc_spec rq c :
  ringq_wf rq ->
  exists r rq', ringqPutc malloc rq c = Some (r, rq') /\ ringq_wf rq' /\
    (r = 0 /\ contents rq' = contents rq ++ [u8 c] \/
     r = -1 /\ rq' = rq /\ ringq_full rq).
Proof.
  intros Hwf. unfold ringqPutc.
  destruct (ringq_room_spec rq Hwf) as (ok & rq1 & -> & Hw1 & Hc1 & Hok).
  cbn [mbind option_bind]. destruct ok; cbn [negb].
  - destruct (ringq_copyin_spec rq1 [u8 c] 1 Hw1) as (Hw2 & _ & Hc2); [lia|done|].
    exists 0, (ringq_copyin rq1 [u8 c] 1). rewrite Hc2, Hc1. auto.
  - destruct Hok as [-> Hfull]. exists (-1), rq. auto 6.
Qed.

Lemma ringqInsertc_spec rq c :
  ringq_wf rq ->
  exists r rq', ringqInsertc malloc rq c = Some (r, rq') /\ ringq_wf rq' /\
    (r = 0 /\ contents rq' = u8 c :: contents rq \/
     r = -1 /\ rq' = rq /\ ringq_full rq).
Proof.
  intros Hwf. unfold ringqInsertc.
  destruct (ringq_room_spec rq Hwf) as (ok & rq1 & -> & Hw1 & Hc1 & Hok).
  cbn [mbind option_bind]. destruct ok; cbn [negb].
  - destruct (ringq_pushfront_spec rq1 (u8 c) Hw1 (proj1 Hok)) as (Hw2 & Hc2).
    eexists _, _. rewrite Hc2, Hc1. auto.
  - destruct Hok as [-> Hfull]. exists (-1), rq. auto 6.
Qed.

Lemma ringqOpen_spec initSize maxsize :
  0 <= initSize < 2 ^ 30 ->
  exists r, ringqOpen malloc initSize maxsize = Some r /\
    match r with
    | Some rq => ringq_wf rq /\ contents rq = [] /\ initSize < rq_buflen rq /\
                 rq_maxsize rq = maxsize
    | None => True
    end.
Proof.
  intros Hs. unfold ringqOpen.
  assert (exists k, getBinBlockSize initSize = Some (2 ^ k) /\ initSize < 2 ^ k /\ 4 <= k <= 30)
    as (k & -> & Hk & Hk').
  { destruct (Z.lt_ge_cases initSize 16).
    - exists 4. rewrite getBinBlockSize_small by lia. split; [done|lia].
    - exists (Z.log2 initSize + 1). rewrite getBinBlockSize_pow2 by lia.
      pose proof (Z.log2_spec initSize). rewrite <- Z.add_1_r in *.
      pose proof (Z.log2_le_mono 16 initSize). change (Z.log2 16) with 4 in *.
      assert (Z.log2 initSize < 30) by (apply Z.log2_lt_pow2; lia). split_and!; [done|lia..]. }
  cbn [mbind option_bind]. destruct (malloc (2 ^ k)) as [b|] eqn:Em; [|by exists None].
  destruct (malloc_spec _ _ Em) as [Hb Hlim]. eexists. split; [done|].
  pose proof (Z.pow_le_mono_r 2 4 k).
  split_and!; [|done|done|done].
  split; cbn; rewrite ?length_bput by (cbn; lia); eauto; lia.
Qed.

(** ** The abstract double-ended queue *)

Inductive rq_op : Type :=
| OpPutc (c : Z)
| OpInsertc (c : Z)
| OpPutBlk (buf : list Z)
| OpGetc
| OpGetBlk (size : Z)
| OpFlush.

Definition op_valid (op : rq_op) : Prop :=
  match op with OpGetBlk size => 0 <= size | _ => True end.

(** Perform one operation: the returned [int], the bytes handed to the caller and
    the new queue. *)
Definition ringq_exec (op : rq_op) (rq : ringq) : option (Z * list Z * ringq) :=
  match op with
  | OpPutc c => '(r, rq) ← ringqPutc malloc rq c; Some (r, [], rq)
  | OpInsertc c => '(r, rq) ← ringqInsertc malloc rq c; Some (r, [], rq)
  | OpPutBlk buf => '(r, rq) ← ringqPutBlk malloc rq buf; Some (r, [], rq)
  | OpGetc => let '(r, rq) := ringqGetc rq in Some (r, [], rq)
  | OpGetBlk size => '(d, rq) ← ringqGetBlk rq size; Some (zlen d, d, rq)
  | OpFlush => Some (0, [], ringqFlush rq)
  end.

(** What the operations promise, on the list of queued bytes alone.  The writing
    operations may fail, and then say so. *)
Inductive deque_step : rq_op -> list Z -> Z -> list Z -> list Z -> Prop :=
| dq_putc c q : deque_step (OpPutc c) q 0 [] (q ++ [u8 c])
| dq_putc_full c q : deque_step (OpPutc c) q (-1) [] q
| dq_insertc c q : deque_step (OpInsertc c) q 0 [] (u8 c :: q)
| dq_insertc_full c q : deque_step (OpInsertc c) q (-1) [] q
| dq_putblk buf n q : 0 <= n <= zlen buf ->
    deque_step (OpPutBlk buf) q n [] (q ++ take (Z.to_nat n) buf)
| dq_getc c q : deque_step OpGetc (c :: q) (u8 c) [] q
| dq_getc_empty : deque_step OpGetc [] (-1) [] []
| dq_getblk size d q : 0 <= size -> d = take (Z.to_nat size) q ->
    deque_step (OpGetBlk size) q (zlen d) d (drop (Z.to_nat size) q)
| dq_flush q : deque_step OpFlush q 0 [] [].

Fixpoint ringq_run (ops : list rq_op) (rq : ringq) : option (list (Z * list Z) * ringq) :=
  match ops with
  | [] => Some ([], rq)
  | op :: ops =>
      '(r, d, rq) ← ringq_exec op rq;
      '(outs, rq) ← ringq_run ops rq;
      Some ((r, d) :: outs, rq)
  end.

Inductive deque_run : list rq_op -> list Z -> list (Z * list Z) -> list Z -> Prop :=
| dr_nil q : deque_run [] q [] q
| dr_cons op ops q r d q' outs q'' :
    deque_step op q r d q' -> deque_run ops q' outs q'' ->
    deque_run (op :: ops) q ((r, d) :: outs) q''.

Lemma ringqGetc_spec rq :
  ringq_wf rq ->
  ringq_wf (ringqGetc rq).2 /\
  deque_step OpGetc (contents rq) (ringqGetc rq).1 [] (contents (ringqGetc rq).2).
Proof.
  intros Hwf. pose proof (RINGQ_LEN_bounds rq Hwf) as HL.
  pose proof (length_contents rq Hwf) as HC.
  unfold ringqGetc. destruct (Z.eqb_spec (rq_servp rq) (rq_endp rq)) as [E|E]; cbn.
  - assert (contents rq = []) as ->; [|split; [done|constructor]].
    apply length_zero_iff_nil. unfold RINGQ_LEN in HC. rewrite E, Z.ltb_irrefl in HC. lia.
  - assert (1 <= ringqGetBlkMax rq) as Hm.
    { clear HC. open_ringq rq Hwf. ringq_cases ep sp; lia. }
    destruct (ringq_skip_spec rq 1 Hwf) as (Hw & _ & -> & Hb); [lia|]. split; [done|].
    assert (1 <= RINGQ_LEN rq) by (unfold ringqGetBlkMax in Hm; lia).
    destruct (contents rq) as [|c q] eqn:Eq; [cbn in HC; lia|]. cbn.
    replace (zget (rq_buf rq) (rq_servp rq)) with c; [constructor|].
    transitivity (zget (contents rq) 0); [by rewrite Eq|].
    rewrite zget_contents by (done || lia). unfold widx.
    pose proof (wf_servp _ Hwf). rewrite Z.add_0_r. by replace (_ <? _) with true by lia.
Qed.

Lemma ringqFlush_spec rq :
  ringq_wf rq -> ringq_wf (ringqFlush rq) /\ contents (ringqFlush rq) = [].
Proof.
  intros Hwf. open_ringq rq Hwf. split; [|done].
  split; cbn; rewrite ?length_bput by (cbn; lia); auto; lia.
Qed.

Lemma ringq_exec_spec op rq :
  ringq_wf rq -> op_valid op ->
  exists r d rq', ringq_exec op rq = Some (r, d, rq') /\ ringq_wf rq' /\
    deque_step op (contents rq) r d (contents rq').
Proof.
  intros Hwf Hop. destruct op as [c|c|buf| |size|]; cbn [ringq_exec].
  - destruct (ringqPutc_spec rq c Hwf) as (r & rq' & -> & Hw & [(-> & Hc)|(-> & -> & _)]);
      eexists _, _, _; (split; [done|]); rewrite ?Hc; split; (done || constructor).
  - destruct (ringqInsertc_spec rq c Hwf) as (r & rq' & -> & Hw & [(-> & Hc)|(-> & -> & _)]);
      eexists _, _, _; (split; [done|]); rewrite ?Hc; split; (done || constructor).
  - destruct (ringqPutBlk_spec rq buf Hwf) as (n & rq' & -> & Hw & Hn & Hc & _).
    eexists _, _, _; (split; [done|]); rewrite Hc; split; [done|by constructor].
  - destruct (ringqGetc_spec rq Hwf) as (Hw & Hs).
    destruct (ringqGetc rq) as [r rq']. eexists _, _, _. split; [done|]. auto.
  - destruct (ringqGetBlk_spec rq size Hwf Hop) as (rq' & -> & Hw & _ & Hc).
    eexists _, _, _; (split; [done|]); rewrite Hc; split; [done|by constructor].
  - destruct (ringqFlush_spec rq Hwf) as (Hw & Hc).
    eexists _, _, _; (split; [done|]); rewrite Hc; split; [done|constructor].
Qed.

(** C10. Whatever the sequence of operations, a ring queue returns, produces the
    outputs of a double-ended byte queue, and ends well-formed holding exactly the
    bytes of that queue; only a write may fall short, and it reports it. *)
Theorem ringq_refines_deque ops rq :
  ringq_wf rq -> Forall op_valid ops ->
  exists outs rq', ringq_run ops rq = Some (outs, rq') /\ ringq_wf rq' /\
    deque_run ops (contents rq) outs (contents rq').
Proof.
  intros Hwf Hops. revert rq Hwf.
  induction Hops as [|op ops Hop Hops IH]; intros rq Hwf; cbn [ringq_run].
  - eexists _, _. split_and!; [done|done|constructor].
  - destruct (ringq_exec_spec op rq Hwf Hop) as (r & d & rq1 & -> & Hw1 & Hs).
    destruct (IH rq1 Hw1) as (outs & rq2 & E & Hw2 & Hr). cbn. rewrite E.
    eexists _, _. split_and!; [done|done|by econstructor].
Qed.

(** A block write terminates and appends a prefix of the block, of the length
    it returns; it falls short only when the queue is full and cannot grow. *)
Theorem ringqPutBlk_correct rq buf :
  ringq_wf rq ->
  exists n rq', ringqPutBlk malloc rq buf = Some (n, rq') /\ ringq_wf rq' /\
    contents rq' = contents rq ++ take (Z.to_nat n) buf /\
    (n = zlen buf \/ n < zlen buf /\ ringq_full rq').
Proof.
  intros Hwf. destruct (ringqPutBlk_spec rq buf Hwf) as (n & rq' & ? & ? & Hn & ? & Hf & _).
  exists n, rq'. split_and!; [done..|].
  destruct (Z.eq_dec n (zlen buf)); [by left|right]. split; [lia|apply Hf; lia].
Qed.

(** A successful grow keeps the queued bytes, adds [increment] cells and
    quadruples the increment, and no [int] of it overflows; a refused one leaves
    the queue as it was. *)
Theorem ringqGrow_correct fuel rq :
  ringq_wf rq -> (3 <= fuel)%nat ->
  exists ok rq', ringqGrow malloc fuel rq = Some (ok, rq') /\
    ringq_wf rq' /\ contents rq' = contents rq /\
    if (ok : bool) then
      rq_buflen rq' = rq_buflen rq + rq_increment rq /\ rq_buflen rq' <= INT_MAX /\
      rq_increment rq' = 4 * rq_increment rq /\ rq_increment rq' <= INT_MAX
    else rq' = rq /\ grow_refused rq.
Proof.
  intros Hwf Hf. destruct (ringqGrow_spec fuel rq Hwf Hf) as (ok & rq' & ? & Hw & ? & Hok).
  exists ok, rq'. split_and!; [done..|]. destruct ok; [|done].
  destruct Hok as (? & ? & _). pose proof (wf_max _ Hw). pose proof (incr_bounds _ Hw).
  unfold INT_MAX, MALLOC_MAX in *. lia.
Qed.
End Grow.

(** ** Concrete runs *)

(** An allocator with 4 KiB. *)
Definition small_malloc (n : Z) : option (list Z) :=
  if (0 <=? n) && (n <=? 4096) then Some (replicate (Z.to_nat n) 119) else None.

Lemma small_malloc_spec n b :
  small_malloc n = Some b -> zlen b = n /\ 0 <= n <= MALLOC_MAX.
Proof.
  unfold small_malloc, MALLOC_MAX. intros H. split_tests H; [|done].
  injection H as <-. rewrite length_replicate. lia.
Qed.

(** A queue opened with 16 bytes: 32 cells, no upper limit. *)
Definition small_queue : ringq :=
  mkRingq (bput (replicate 32 119) 0 [0]) 0 0 32 32 (-1) 32.

Example small_queue_open : ringqOpen small_malloc 16 (-1) = Some (Some small_queue).
Proof. vm_compute. reflexivity. Qed.

Lemma small_queue_wf : ringq_wf small_queue.
Proof.
  split; cbn; [vm_compute; reflexivity|reflexivity|lia|lia|unfold MALLOC_MAX; lia|by exists 5].
Qed.

Lemma ringq_refines_deque_witness :
  exists outs rq', ringq_run small_malloc [OpPutBlk [1; 2; 3]; OpGetc; OpInsertc 9; OpGetBlk 2]
      small_queue = Some (outs, rq') /\
    outs = [(3, []); (1, []); (0, []); (2, [9; 2])] /\ contents rq' = [3].
Proof.
  destruct (ringq_refines_deque small_malloc small_malloc_spec
    [OpPutBlk [1; 2; 3]; OpGetc; OpInsertc 9; OpGetBlk 2] small_queue small_queue_wf)
    as (outs & rq' & E & _); [by repeat constructor|].
  exists outs, rq'. split; [done|]. vm_compute in E. injection E as <- <-. by vm_compute.
Defined.

Lemma ringqPutBlk_correct_witness :
  exists n rq', ringqPutBlk small_malloc small_queue (replicate 1000 7) = Some (n, rq') /\
    n = 1000 /\ contents rq' = replicate 1000 7.
Proof.
  destruct (ringqPutBlk_correct small_malloc small_malloc_spec small_queue (replicate 1000 7)
    small_queue_wf) as (n & rq' & E & _ & Hc & _).
  exists n, rq'. split; [done|].
  assert (fst <$> ringqPutBlk small_malloc small_queue (replicate 1000 7) = Some 1000) as E'
    by (vm_compute; reflexivity).
  rewrite E in E'. injection E' as ->. split; [done|]. rewrite Hc. vm_compute. reflexivity.
Defined.

Lemma ringqGrow_correct_witness :
  exists ok rq', ringqGrow small_malloc 3 small_queue = Some (ok, rq') /\
    contents rq' = [] /\ ringq_wf rq'.
Proof.
  destruct (ringqGrow_correct small_malloc small_malloc_spec 3 small_queue small_queue_wf)
    as (ok & rq' & E & Hw & Hc & _); [lia|].
  exists ok, rq'. split; [done|]. split; [rewrite Hc; reflexivity|done].
Defined.
