(* ===== verification/ByteQueue.v ===== *)
(** * The interface of the ring queue to its clients

    The lexical analyser uses a ring queue as a byte queue with putback and as a
    buffer that holds a string.  [ByteQueue] lists the operations, [ByteQueueLaws]
    what they promise in terms of the queued bytes; the ring queue of [RingQ]
    implements them. *)

From S2P Require Import Prelude CString RingQ.
#[local] Open Scope Z_scope.
#[local] Open Scope cint_scope.

Class ByteQueue (Q : Type) : Type := {
  bq_open : Z -> option (option Q);
  bq_flush : Q -> Q;
  bq_len : Q -> Z;
  bq_getc : Q -> Z * Q;
  bq_putc : Q -> Z -> option (Z * Q);
  bq_insertc : Q -> Z -> option (Z * Q);
  bq_putstr : Q -> list Z -> option (Z * Q);
  bq_addnull : Q -> Q;
  (** the string at the read position *)
  bq_servstr : Q -> option (list Z);
  (** [bq_rewind q q0]: a copy [q0] of the queue's pointers, made earlier, is put back; the
      buffer is shared.  [None] when the buffer was replaced since, so that the pointers of
      the copy dangle. *)
  bq_rewind : Q -> Q -> option Q;
  (** the read pointer, relative to the buffer *)
  bq_serv : Q -> Z
}.

(** [bq_bytes] are the queued bytes, [bq_cap] is how many fit without new memory; a
    queue is flat when its bytes start at the start of its buffer.  [bq_text q t]: the
    queue held the bytes [t] and some of them were read; they are still in the buffer. *)
Class ByteQueueLaws (Q : Type) `{ByteQueue Q} : Type := {
  bq_ok : Q -> Prop;
  bq_bytes : Q -> list Z;
  bq_cap : Q -> Z;
  bq_flat : Q -> Prop;
  bq_text : Q -> list Z -> Prop;
  bq_text_flat q : bq_ok q -> bq_flat q -> bq_text q (bq_bytes q);
  bq_text_suffix q t : bq_ok q -> bq_text q t -> exists h, t = h ++ bq_bytes q;
  bq_text_getc q t c r : bq_ok q -> bq_text q t -> bq_bytes q = c :: r -> bq_text (bq_getc q).2 t;
  bq_text_insertc q t c n q' h : bq_ok q -> bq_text q t -> t = h ++ u8 c :: bq_bytes q ->
    zlen (bq_bytes q) < bq_cap q -> bq_insertc q c = Some (n, q') -> bq_text q' t;
  bq_rewind_text q q0 t : bq_ok q -> bq_ok q0 -> bq_text q t -> bq_text q0 t -> bq_cap q = bq_cap q0 ->
    exists q', bq_rewind q q0 = Some q' /\ bq_ok q' /\ bq_text q' t /\ bq_bytes q' = bq_bytes q0 /\
      bq_cap q' = bq_cap q0;
  bq_rewind_flat q q0 : bq_ok q -> bq_ok q0 -> bq_flat q -> bq_flat q0 -> bq_cap q = bq_cap q0 ->
    exists q', bq_rewind q q0 = Some q' /\ bq_ok q' /\ bq_flat q' /\ bq_cap q' = bq_cap q0;
  bq_serv_text q q' t : bq_ok q -> bq_ok q' -> bq_text q t -> bq_text q' t -> bq_serv q = bq_serv q' ->
    bq_bytes q = bq_bytes q';
  bq_fits q : bq_ok q -> zlen (bq_bytes q) <= bq_cap q;
  bq_open_ok n : 0 <= n < 2 ^ 30 -> exists r, bq_open n = Some r /\
    forall q, r = Some q -> bq_ok q /\ bq_bytes q = [] /\ bq_flat q /\ n <= bq_cap q;
  bq_flush_ok q : bq_ok q -> bq_ok (bq_flush q) /\ bq_bytes (bq_flush q) = [] /\
    bq_flat (bq_flush q) /\ bq_cap (bq_flush q) = bq_cap q /\ bq_servstr (bq_flush q) = Some [];
  bq_len_ok q : bq_ok q -> bq_len q = zlen (bq_bytes q);
  bq_getc_ok q c r : bq_ok q -> bq_bytes q = c :: r -> exists q', bq_getc q = (u8 c, q') /\
    bq_ok q' /\ bq_bytes q' = r /\ bq_cap q' = bq_cap q;
  bq_putc_ok q c : bq_ok q -> exists r q', bq_putc q c = Some (r, q') /\ bq_ok q' /\
    (bq_flat q -> bq_flat q') /\
    (r = 0 /\ bq_bytes q' = bq_bytes q ++ [u8 c] \/ r = -1 /\ q' = q) /\
    (zlen (bq_bytes q) < bq_cap q -> r = 0 /\ bq_cap q' = bq_cap q);
  bq_insertc_ok q c : bq_ok q -> zlen (bq_bytes q) < bq_cap q ->
    exists q', bq_insertc q c = Some (0, q') /\ bq_ok q' /\
      bq_bytes q' = u8 c :: bq_bytes q /\ bq_cap q' = bq_cap q;
  bq_putstr_ok q s : bq_ok q -> exists n q', bq_putstr q s = Some (n, q') /\ bq_ok q' /\
    bq_bytes q' = bq_bytes q ++ take (Z.to_nat n) s /\ 0 <= n <= zlen s /\
    (zlen (bq_bytes q) + zlen s <= bq_cap q -> n = zlen s /\ bq_cap q' = bq_cap q) /\
    (bq_flat q -> bq_flat q' /\ bq_servstr q' = cstr (bq_bytes q' ++ [0]));
  bq_addnull_ok q : bq_ok q -> bq_ok (bq_addnull q) /\ bq_bytes (bq_addnull q) = bq_bytes q /\
    bq_cap (bq_addnull q) = bq_cap q /\
    (bq_flat q -> bq_flat (bq_addnull q) /\
       bq_servstr (bq_addnull q) = cstr (bq_bytes q ++ [0]))
}.

(** ** The ring queue *)

Section Ring.
Context (malloc : Z -> option (list Z)).

(** The string that starts at [rq->servp]. *)
Definition ringq_servstr (rq : ringq) : option (list Z) :=
  cstr (drop (Z.to_nat (rq_servp rq)) (rq_buf rq)).

(** A grown queue has another buffer, which is larger. *)
Definition ringq_rewind (rq rq0 : ringq) : option ringq :=
  if rq_buflen rq =? rq_buflen rq0 then Some (rq0 <| rq_buf := rq_buf rq |>) else None.

#[export] Instance ringq_queue : ByteQueue ringq := {
  bq_open n := ringqOpen malloc n (-1);
  bq_flush := ringqFlush;
  bq_len := ringqLen;
  bq_getc := ringqGetc;
  bq_putc := ringqPutc malloc;
  bq_insertc := ringqInsertc malloc;
  bq_putstr := ringqPutStr malloc;
  bq_addnull := ringqAddNull;
  bq_servstr := ringq_servstr;
  bq_rewind := ringq_rewind;
  bq_serv := rq_servp
}.

Hypothesis malloc_spec : forall n b,
  malloc n = Some b -> zlen b = n /\ 0 <= n <= MALLOC_MAX.

(** Putting never moves the start of a queue that starts at 0. *)
Lemma copyin_servp rq buf n : rq_servp (ringq_copyin rq buf n) = rq_servp rq.
Proof. destruct rq. unfold ringq_copyin. cbn. by case_match. Qed.

Lemma put_grow_flat fuel :
  (forall rq buf size put n rq', ringqPutBlk_loop malloc fuel rq buf size put = Some (n, rq') ->
     rq_servp rq = 0 -> rq_servp rq' = 0) /\
  (forall rq ok rq', ringqGrow malloc fuel rq = Some (ok, rq') ->
     rq_servp rq = 0 -> rq_servp rq' = 0).
Proof.
  induction fuel as [|fuel [IHp IHg]]; split; [done..| |].
  - intros rq buf size put n rq'. cbn [ringqPutBlk_loop].
    destruct (0 <? size); [|by intros [= _ <-]].
    destruct (_ <=? 0).
    + destruct (ringqGrow malloc fuel rq) as [[ok rq1]|] eqn:E; cbn [mbind option_bind]; [|done].
      destruct ok; cbn [negb].
      * intros H H0. eapply IHp; [exact H|]. rewrite copyin_servp. by eapply IHg.
      * intros [= _ <-] H0. by eapply IHg.
    + intros H H0. eapply IHp; [exact H|]. by rewrite copyin_servp.
  - intros rq ok rq'. cbn [ringqGrow].
    destruct (_ && _); [by intros [= _ <-]|].
    destruct (malloc _) as [nb|]; [|by intros [= _ <-]].
    destruct (ringqGetBlk rq (ringqLen rq)) as [[d rq1]|]; cbn [mbind option_bind]; [|done].
    destruct (ringqPutBlk_loop malloc fuel _ _ _ 0) as [[n rq2]|] eqn:E; cbn [mbind option_bind]; [|done].
    destruct (getBinBlockSize _); cbn [mbind option_bind]; [|done].
    intros [= _ <-] _. destruct rq2; cbn. eapply (IHp _ _ _ _ _ _ E). by destruct rq1.
Qed.

(** A flat queue followed by a NUL is the string of its bytes. *)
Lemma cstr_prefix l b b' : cstr (l ++ 0 :: b) = cstr (l ++ 0 :: b').
Proof. induction l as [|c l IH]; cbn; [done|]. by rewrite IH. Qed.

Lemma flat_contents rq : ringq_wf rq -> rq_servp rq = 0 ->
  contents rq = take (Z.to_nat (rq_endp rq)) (rq_buf rq) /\ RINGQ_LEN rq = rq_endp rq.
Proof.
  intros Hwf Hs. assert (HL : RINGQ_LEN rq = rq_endp rq).
  { unfold RINGQ_LEN. rewrite Hs. pose proof (wf_endp _ Hwf). destruct (Z.ltb_spec (rq_endp rq) 0); lia. }
  split; [|done]. pose proof (wf_endp _ Hwf). pose proof (wf_len _ Hwf).
  apply contents_intro; [done|rewrite length_take; lia|].
  intros k Hk. rewrite Hs, zget_take by lia. unfold widx.
  by replace (0 + k <? rq_buflen rq) with true by lia.
Qed.

Lemma addnull_spec rq : ringq_wf rq ->
  ringq_wf (ringqAddNull rq) /\ contents (ringqAddNull rq) = contents rq /\
  rq_buflen (ringqAddNull rq) = rq_buflen rq /\ rq_servp (ringqAddNull rq) = rq_servp rq /\
  (rq_servp rq = 0 -> ringq_servstr (ringqAddNull rq) = cstr (contents rq ++ [0])).
Proof.
  intros Hwf. assert (Hw' : ringq_wf (ringqAddNull rq)).
  { open_ringq rq Hwf. split; cbn; rewrite ?length_bput by (cbn; lia); auto; lia. }
  pose proof (RINGQ_LEN_bounds rq Hwf). pose proof (length_contents rq Hwf).
  split_and!; try done; try (by destruct rq).
  - apply contents_intro; [done|by destruct rq|]. intros k Hk.
    assert (RINGQ_LEN (ringqAddNull rq) = RINGQ_LEN rq) as E by (by destruct rq). rewrite E in Hk.
    rewrite zget_contents by done. clear E Hw' H0. unfold RINGQ_LEN in *. open_ringq rq Hwf.
    unfold widx in *. change (zlen [0]) with 1.
    destruct (Z.ltb_spec ep sp), (Z.ltb_spec (sp + k) B); rewrite zget_bput by (cbn [length]; lia);
      cbn [length]; split_tests_goal; lia || done.
  - intros Hs. destruct (flat_contents rq Hwf Hs) as [-> _].
    pose proof (wf_endp _ Hwf). pose proof (wf_len _ Hwf).
    unfold ringq_servstr. destruct rq as [bf sp ep eb B mx inc]; cbn in *. subst sp.
    rewrite drop_0. unfold bput. apply cstr_prefix.
Qed.

Lemma room_when_fits rq : ringq_wf rq -> zlen (contents rq) < rq_buflen rq - 1 ->
  ringq_room malloc rq = Some (true, rq).
Proof.
  intros Hwf Hl. rewrite length_contents in Hl by done. unfold ringq_room.
  pose proof (PutBlkMax_pos rq Hwf Hl). by replace (ringqPutBlkMax rq <? 1) with false by lia.
Qed.

(** A block that fits is put without new memory. *)
Lemma put_fits fuel : forall rq buf put n rq',
  ringq_wf rq -> zlen (contents rq) + zlen buf <= rq_buflen rq - 1 ->
  ringqPutBlk_loop malloc fuel rq buf (zlen buf) put = Some (n, rq') -> rq_buflen rq' = rq_buflen rq.
Proof.
  induction fuel as [|fuel IH]; intros rq buf put n rq' Hwf Hfit; [done|]. cbn [ringqPutBlk_loop].
  destruct (Z.ltb_spec 0 (zlen buf)); [|by intros [= _ <-]].
  pose proof (length_contents rq Hwf) as Hl.
  pose proof (PutBlkMax_pos rq Hwf ltac:(lia)) as Hm.
  set (this := Z.min (ringqPutBlkMax rq) (zlen buf)).
  replace (this <=? 0) with false by zb.
  destruct (ringq_copyin_spec rq buf this Hwf) as (Hw2 & (Hb & _) & Hc2); [unfold this; lia..|].
  assert (Hd : zlen (drop (Z.to_nat this) buf) = zlen buf - this) by (rewrite length_drop; unfold this; lia).
  rewrite <- Hd. intros E. rewrite <- Hb. eapply (IH _ _ _ _ _ Hw2); [|exact E].
  rewrite Hc2, Hd, Hb, length_app, length_take. lia.
Qed.

(** The bytes [t] are at the start of the buffer, read up to [rq_servp]. *)
Definition ringq_text (rq : ringq) (t : list Z) : Prop :=
  rq_servp rq <= rq_endp rq /\ rq_endp rq = zlen t /\ take (length t) (rq_buf rq) = t.

Lemma text_contents rq t : ringq_wf rq -> ringq_text rq t ->
  t = take (Z.to_nat (rq_servp rq)) t ++ contents rq /\ RINGQ_LEN rq = zlen t - rq_servp rq.
Proof.
  intros Hwf (Hs & He & Ht). assert (HL : RINGQ_LEN rq = zlen t - rq_servp rq).
  { unfold RINGQ_LEN. destruct (Z.ltb_spec (rq_endp rq) (rq_servp rq)); lia. }
  split; [|done]. pose proof (wf_servp _ Hwf). pose proof (wf_endp _ Hwf). pose proof (wf_len _ Hwf).
  rewrite <- (take_drop (Z.to_nat (rq_servp rq)) t) at 1. f_equal. symmetry.
  apply contents_intro; [done|rewrite length_drop; lia|]. intros k Hk.
  rewrite zget_drop by lia. rewrite <- Ht. replace (length t) with (Z.to_nat (zlen t)) by lia.
  rewrite zget_take by lia. unfold widx. by replace (rq_servp rq + k <? rq_buflen rq) with true by lia.
Qed.

#[export] Program Instance ringq_queue_laws : ByteQueueLaws ringq := {
  bq_ok := ringq_wf;
  bq_bytes := contents;
  bq_cap rq := rq_buflen rq - 1;
  bq_flat rq := rq_servp rq = 0;
  bq_text := ringq_text
}.
Next Obligation.
  intros q Hq Hs. cbn in Hs. destruct (flat_contents q Hq Hs) as [-> _]. pose proof (wf_endp _ Hq). pose proof (wf_len _ Hq).
  assert (El : length (take (Z.to_nat (rq_endp q)) (rq_buf q)) = Z.to_nat (rq_endp q)) by (rewrite length_take; lia).
  split_and!; [lia|lia|by rewrite El].
Qed.
Next Obligation. intros q t Hq Ht. eexists. apply (text_contents q t Hq Ht). Qed.
Next Obligation.
  intros q t c r Hq Ht Hc. destruct (text_contents q t Hq Ht) as [_ HL]. pose proof (length_contents q Hq) as Hlen.
  rewrite Hc in Hlen. cbn [length] in Hlen. destruct Ht as (Hs & He & Ht). cbn. unfold ringqGetc.
  replace (_ =? _) with false by zb. cbn [snd].
  pose proof (wf_endp _ Hq). pose proof (wf_endbuf _ Hq). destruct q as [bf sp ep eb B mx inc]; unfold ringq_skip; cbn in *.
  destruct (Z.leb_spec eb (sp + 1)); [lia|]. split_and!; cbn; done || lia.
Qed.
Next Obligation.
  intros q t c n q' h Hq Ht Eh Hl. cbn in *. unfold ringqInsertc. rewrite room_when_fits by (done || lia). cbn.
  intros [= _ <-]. destruct (text_contents q t Hq Ht) as [Et HL]. pose proof (length_contents q Hq) as Hlen.
  assert (Hh : rq_servp q = zlen h + 1).
  { pose proof (f_equal length Eh) as E. rewrite length_app in E. cbn [length] in E. lia. }
  destruct Ht as (Hs & He & Ht). pose proof (wf_len _ Hq). pose proof (wf_endp _ Hq).
  destruct q as [bf sp ep eb B mx inc]; unfold ringq_pushfront; cbn in *.
  replace (sp <=? 0) with false by zb. split_and!; cbn; try lia.
  assert (Hb : zget bf (sp - 1) = u8 c).
  { assert (E : zget t (sp - 1) = u8 c).
    { rewrite Eh. replace (sp - 1) with (zlen h + 0) by lia. rewrite zget_app by lia. replace (zlen h + 0 <? zlen h) with false by zb. by replace (zlen h + 0 - zlen h) with 0 by lia. }
    rewrite <- E, <- Ht. replace (length t) with (Z.to_nat (zlen t)) by lia. by rewrite zget_take by lia. }
  replace (bput bf (sp - 1) [u8 c]) with bf; [done|].
  apply zget_ext; [apply Nat2Z.inj; by rewrite length_bput by (cbn [length]; lia)|]. intros k Hk.
  rewrite zget_bput by (cbn [length]; lia). cbn [length].
  destruct (Z.eq_dec k (sp - 1)) as [->|Hne]; split_tests_goal; try lia; try done.
  by replace (sp - 1 - (sp - 1)) with 0 by lia.
Qed.
Next Obligation.
  intros q q0 t Hq Hq0 Ht Ht0 Hc. cbn in *. unfold ringq_rewind. replace (rq_buflen q =? rq_buflen q0) with true by zb.
  eexists. split; [done|].
  assert (Hw : ringq_wf (q0 <| rq_buf := rq_buf q |>)).
  { pose proof (wf_len _ Hq). destruct q, q0, Hq0; cbn in *. split; cbn; auto; lia. }
  assert (Ht' : ringq_text (q0 <| rq_buf := rq_buf q |>) t) by (destruct Ht0 as (? & ? & _), Ht as (_ & _ & ?); by destruct q0).
  split_and!; [done|done| |by destruct q0].
  destruct (text_contents _ _ Hw Ht') as [E _]. destruct (text_contents _ _ Hq0 Ht0) as [E0 _].
  rewrite E in E0 at 1. replace (rq_servp (q0 <| rq_buf := rq_buf q |>)) with (rq_servp q0) in E0 by (by destruct q0).
  by apply app_inv_head in E0.
Qed.
Next Obligation.
  intros q q0 Hq Hq0 Hf Hf0 Hc. cbn in *. unfold ringq_rewind. replace (rq_buflen q =? rq_buflen q0) with true by zb.
  eexists. split; [done|]. split_and!; [|by destruct q0|by destruct q0].
  pose proof (wf_len _ Hq). destruct q, q0, Hq0; cbn in *. split; cbn; auto; lia.
Qed.
Next Obligation.
  intros q q' t Hq Hq' Ht Ht' Hs. cbn in *. destruct (text_contents q t Hq Ht) as [E _].
  destruct (text_contents q' t Hq' Ht') as [E' _]. rewrite Hs in E. rewrite E in E' at 1.
  by apply app_inv_head in E'.
Qed.
Next Obligation.
  intros q Hq. cbn. pose proof (RINGQ_LEN_bounds q Hq). rewrite length_contents by done. lia.
Qed.
Next Obligation.
  intros n Hn. destruct (ringqOpen_spec malloc malloc_spec n (-1) Hn) as (r & E & Hr).
  exists r. split; [done|]. intros q ->. destruct Hr as (Hw & Hc & Hl & Hm). split_and!; try done; [|lia].
  unfold ringqOpen in E. destruct (getBinBlockSize n) as [i|]; cbn in E; [|discriminate E].
  destruct (malloc i); [|discriminate E]. by injection E as <-.
Qed.
Next Obligation.
  intros q Hq. cbn. destruct (ringqFlush_spec q Hq) as [Hw Hc].
  split_and!; try done; by destruct q.
Qed.
Next Obligation. intros q Hq. by apply ringqLen_contents. Qed.
Next Obligation.
  intros q c r Hq Hc. cbn. destruct (ringqGetc_spec q Hq) as [Hw Hs].
  destruct (ringqGetc q) as [z q'] eqn:E; cbn in *. rewrite Hc in Hs. inversion Hs; subst.
  exists q'. split_and!; try done. f_equal. revert E. unfold ringqGetc.
  destruct (_ =? _); intros [= _ <-]; [done|]. destruct q; unfold ringq_skip; cbn. by case_match.
Qed.
Next Obligation.
  intros q c Hq. cbn. destruct (ringqPutc_spec malloc malloc_spec q c Hq) as (r & q' & E & Hw & Hr).
  exists r, q'. split_and!; try done.
  - intros Hs. unfold ringqPutc, ringq_room in E.
    destruct (_ <? 1).
    + destruct (ringqGrow malloc _ q) as [[ok q1]|] eqn:Eg; cbn in E; [|discriminate E].
      apply (proj2 (put_grow_flat _)) in Eg; [|done].
      destruct ok; injection E as _ <-; [|done]. destruct q1; cbn in *. by case_match.
    + cbn in E. injection E as _ <-. destruct q; cbn in *. by case_match.
  - destruct Hr as [[-> Hc]|(-> & -> & _)]; auto.
  - intros Hl. revert E. unfold ringqPutc. rewrite room_when_fits by (done || lia). cbn.
    intros [= <- <-]. split; [done|]. destruct q; cbn. destruct (_ <=? _); done.
Qed.
Next Obligation.
  intros q c Hq Hl. cbn in *.
  destruct (ringqInsertc_spec malloc malloc_spec q c Hq) as (r & q' & E & Hw & Hr).
  assert (E' : ringqInsertc malloc q c = Some (0, ringq_pushfront q (u8 c)))
    by (unfold ringqInsertc; by rewrite room_when_fits by (done || lia)).
  rewrite E' in E. injection E as <- <-. eexists. split_and!; [done|done| |].
  - by destruct Hr as [[_ Hc]|(? & _)].
  - destruct q; unfold ringq_pushfront; cbn. by case_match.
Qed.
Next Obligation.
  intros q s Hq. cbn. unfold ringqPutStr.
  destruct (ringqPutBlk_spec malloc malloc_spec q s Hq) as (n & q1 & E & Hw & Hn & Hc & Hf & Hbl).
  rewrite E. cbn. destruct (addnull_spec q1 Hw) as (Hw' & Hc' & Hb' & Hs' & Hstr).
  exists n, (ringqAddNull q1). split_and!; try done; try lia.
  - by rewrite Hc', Hc.
  - intros Hfit. assert (Hb1 : rq_buflen q1 = rq_buflen q).
    { unfold ringqPutBlk in E. eapply put_fits; [exact Hq| |exact E]. lia. }
    rewrite Hb', Hb1. split; [|done]. destruct (Z.eq_dec n (zlen s)); [done|]. exfalso.
    destruct Hf as [Hfull _]; [lia|]. rewrite Hc, length_app, length_take in Hfull. lia.
  - intros Hs. assert (rq_servp q1 = 0) as Hs1.
    { unfold ringqPutBlk in E. by eapply (proj1 (put_grow_flat _)). }
    split; [by rewrite Hs'|]. by rewrite Hc', Hstr.
Qed.
Next Obligation.
  intros q Hq. cbn. destruct (addnull_spec q Hq) as (Hw' & Hc' & Hb' & Hs' & Hstr).
  split_and!; try done; [by rewrite Hb'|]. intros Hs. split; [by rewrite Hs'|auto].
Qed.
End Ring.
