(* ===== verification/EjLex.v ===== *)
(** * The lexical analyser of the Ejscript engine (webs/src/src/ejlex.c)

    The analyser reads the script from a byte queue with putback and builds the text of
    a token in another one; both are ring queues in the code, and any [ByteQueue] here.
    Characters are the [int]s the code passes around: 0..255, or -1 at the end of the
    script.  A result [None] means that the code crashes (a write through a null [line],
    or memory running out while an error message is formatted) or loops. *)

From S2P Require Import Prelude CString Fmt RingQ ByteQueue.
#[local] Open Scope Z_scope.
#[local] Open Scope cint_scope.

(** ** ejIntrn.h *)

Definition EJ_INC : Z := 110.
Definition EJ_SCRIPT_INC : Z := 1023.
Definition E_MAX_ERROR : Z := 4096.

Definition TOK_ERR : Z := -1.
Definition TOK_LPAREN : Z := 1.
Definition TOK_RPAREN : Z := 2.
Definition TOK_IF : Z := 3.
Definition TOK_ELSE : Z := 4.
Definition TOK_LBRACE : Z := 5.
Definition TOK_RBRACE : Z := 6.
Definition TOK_LOGICAL : Z := 7.
Definition TOK_EXPR : Z := 8.
Definition TOK_SEMI : Z := 9.
Definition TOK_LITERAL : Z := 10.
Definition TOK_FUNCTION : Z := 11.
Definition TOK_NEWLINE : Z := 12.
Definition TOK_ID : Z := 13.
Definition TOK_EOF : Z := 14.
Definition TOK_COMMA : Z := 15.
Definition TOK_VAR : Z := 16.
Definition TOK_ASSIGNMENT : Z := 17.
Definition TOK_FOR : Z := 18.
Definition TOK_INC_DEC : Z := 19.
Definition TOK_RETURN : Z := 20.

Definition EXPR_LESS : Z := 1.
Definition EXPR_LESSEQ : Z := 2.
Definition EXPR_GREATER : Z := 3.
Definition EXPR_GREATEREQ : Z := 4.
Definition EXPR_EQ : Z := 5.
Definition EXPR_NOTEQ : Z := 6.
Definition EXPR_PLUS : Z := 7.
Definition EXPR_MINUS : Z := 8.
Definition EXPR_DIV : Z := 9.
Definition EXPR_MOD : Z := 10.
Definition EXPR_LSHIFT : Z := 11.
Definition EXPR_RSHIFT : Z := 12.
Definition EXPR_MUL : Z := 13.
Definition EXPR_INC : Z := 15.
Definition EXPR_DEC : Z := 16.
Definition EXPR_BOOL_COMP : Z := 17.
Definition COND_AND : Z := 1.
Definition COND_OR : Z := 2.
Definition STATE_STMT : Z := 8.

(** ** The state *)

(** [ep->token]: the constant empty string, or [tokbuf.servp]. *)
Inductive token_ref : Type := TokStatic | TokServp.

Section Lexer.
Context {Q : Type} `{ByteQueue Q}.

(** [ejinput_t], and the fields of [ej_t] the analyser uses. *)
Record ejinput : Type := mkInput {
  tokbuf : Q;
  script : Q;
  putBackToken : option (list Z);
  putBackTokenId : Z;
  line : option (list Z);
  lineLength : Z;
  lineNumber : Z;
  lineColumn : Z
}.

Record ej : Type := mkEj {
  input : ejinput;
  error : option (list Z);
  token : token_ref;
  tid : Z
}.

(** Computations of the analyser. *)
Definition LM (A : Type) : Type := ej -> option (A * ej).

#[export] Instance LM_ret : MRet LM := fun A x ep => Some (x, ep).
#[export] Instance LM_bind : MBind LM := fun A B f m ep =>
  match m ep with Some (x, ep) => f x ep | None => None end.

Definition lfail {A} : LM A := fun _ => None.
Definition upd (f : ejinput -> ejinput) : LM unit := fun ep => Some (tt, ep <| input := f (input ep) |>).
Definition get : LM ejinput := fun ep => Some (input ep, ep).
Definition set_token (t : token_ref) : LM unit := fun ep => Some (tt, ep <| token := t |>).
Definition set_tid (t : Z) : LM unit := fun ep => Some (tt, ep <| tid := t |>).
Definition lift {A} (o : option A) : LM A := fun ep => x ← o; Some (x, ep).

Section Memory.
Context (lw : Z) (balloc : Z -> option (list Z)) (brealloc : list Z -> Z -> option (list Z)).

(** [ejError], with the message formatted from [fmt] and [args]. *)
Definition ejError (fmt : list Z) (args : list farg) : LM unit := fun ep =>
  '(_, msgbuf) ← fmtValloc balloc brealloc lw E_MAX_ERROR fmt args;
  let ip := input ep in
  '(_, errbuf) ← fmtAlloc balloc brealloc lw E_MAX_ERROR
                   (str "%s" ++ [10] ++ str " At line %d, line => " ++ [10; 10] ++ str "%s" ++ [10])
                   [AStr msgbuf; AInt (lineNumber ip); AStr (line ip)];
  Some (tt, ep <| error := errbuf |>).

(** [ejError(ep, T("Syntax Error")); return TOK_ERR;] and the like. *)
Definition lex_error (msg : list Z) : LM Z := ejError msg [];;  mret TOK_ERR.

(** [ip->line[i] = c] *)
Definition line_set (l : option (list Z)) (i c : Z) : option (option (list Z)) :=
  b ← l;
  if (0 <=? i) && (i <? zlen b) then Some (Some (bput b i [c])) else None.

Definition line_realloc (l : option (list Z)) (n : Z) : option (list Z) :=
  match l with None => balloc n | Some b => brealloc b n end.

Definition inputGetc : LM Z :=
  ip ← get;
  if bq_len (script ip) =? 0 then mret (-1)
  else
    let '(c, q) := bq_getc (script ip) in
    upd (fun ip => ip <| script := q |>);;
    if c =? 10 then
      upd (fun ip => ip <| lineNumber := s32 (lineNumber ip + 1) |> <| lineColumn := 0 |>);;
      mret c
    else
      ip ← get;
      let ip := if lineLength ip <=? lineColumn ip + 2
                then ip <| lineLength := lineLength ip + EJ_INC |>
                        <| line := line_realloc (line ip) (lineLength ip + EJ_INC) |>
                else ip in
      l ← lift (line_set (line ip) (lineColumn ip) c);
      l ← lift (line_set l (lineColumn ip + 1) 0);
      upd (fun _ => ip <| line := l |> <| lineColumn := lineColumn ip + 1 |>);;
      mret c.

Definition inputPutback (c : Z) : LM unit :=
  ip ← get;
  '(_, q) ← lift (bq_insertc (script ip) (u8 c));
  let col := if 0 <? lineColumn ip then lineColumn ip - 1 else lineColumn ip in
  l ← lift (line_set (line ip) col 0);
  upd (fun ip => ip <| script := q |> <| lineColumn := col |> <| line := l |>).

Definition tokenAddChar (c : Z) : LM Z :=
  ip ← get;
  '(r, q) ← lift (bq_putc (tokbuf ip) (u8 c));
  upd (fun ip => ip <| tokbuf := q |>);;
  if r <? 0 then ejError (str "Token too big") [];; mret (-1)
  else
    upd (fun ip => ip <| tokbuf := bq_addnull (tokbuf ip) |>);;
    set_token TokServp;;
    mret 0.

(** The string [ep->token]. *)
Definition token_str (ep : ej) : option (list Z) :=
  match token ep with TokStatic => Some [] | TokServp => bq_servstr (tokbuf (input ep)) end.

Definition get_token : LM (list Z) := fun ep => t ← token_str ep; Some (t, ep).

(** ** Pieces of tokens *)

Definition convChar (base c : Z) : Z :=
  if isdigit c then c - 48
  else if (97 <=? c) && (c <=? 102) then c - 97 + 10
  else if (65 <=? c) && (c <=? 70) then c - 65 + 10
  else base.

(** The loop of [charConvert], [n] digits at most. *)
Fixpoint charConvert_loop (n : nat) (base lval : Z) : LM Z :=
  match n with
  | O => mret lval
  | S n =>
      c ← inputGetc;
      if c <? 0 then mret lval
      else if base <=? convChar base c then inputPutback c;; mret lval
      else charConvert_loop n base (lval * base + convChar base c)
  end.

Definition charConvert (base : Z) (maxDig : nat) : LM Z := charConvert_loop maxDig base 0.

Definition is_blank (c : Z) : bool := (c =? 32) || (c =? 9) || (c =? 13).

(** [do { c = inputGetc(ep) } while (blank)] *)
Fixpoint skip_blanks (fuel : nat) : LM Z :=
  match fuel with
  | O => lfail
  | S fuel => c ← inputGetc; if is_blank c then skip_blanks fuel else mret c
  end.

(** The loop that eats a comment: false when the script ends in it. *)
Fixpoint eat_comment (fuel : nat) (style : Z) : LM bool :=
  match fuel with
  | O => lfail
  | S fuel =>
      c ← inputGetc;
      if c <? 0 then ejError (str "Syntax Error") [];; mret false
      else if (c =? 10) && (style =? 47) then mret true
      else if c =? 42 then
        c ← inputGetc;
        if style =? 47 then if c =? 10 then mret true else eat_comment fuel style
        else if c =? 47 then mret true else eat_comment fuel style
      else eat_comment fuel style
  end.

(** The character that an escape sequence stands for, after the backslash. *)
Definition lex_escape : LM (option Z) :=
  c ← inputGetc;
  if isdigit c then inputPutback c;; c ← charConvert 8 3; mret (Some c)
  else if c =? 110 then mret (Some 10)
  else if c =? 98 then mret (Some 8)
  else if c =? 102 then mret (Some 12)
  else if c =? 114 then mret (Some 13)
  else if c =? 116 then mret (Some 9)
  else if c =? 120 then c ← charConvert 16 2; mret (Some c)
  else if c =? 117 then
    c ← charConvert 16 2;
    c' ← charConvert 16 2;
    mret (Some (c * 16 + c'))
  else if (c =? 39) || (c =? 34) || (c =? 92) then mret (Some c)
  else ejError (str "Invalid Escape Sequence") [];; mret None.

(** [while (c != quote) ..] *)
Fixpoint lex_string (fuel : nat) (quote c : Z) : LM Z :=
  match fuel with
  | O => lfail
  | S fuel =>
      if c =? quote then mret TOK_LITERAL
      else
        oc ← (if c =? 92 then lex_escape else mret (Some c));
        match oc with
        | None => mret TOK_ERR
        | Some c =>
            r ← tokenAddChar c;
            if r <? 0 then mret TOK_ERR
            else
              c ← inputGetc;
              if c <? 0 then lex_error (str "Unmatched Quote")
              else lex_string fuel quote c
        end
  end.

(** [do .. while (gisdigit(c))]: the result, and whether the token is complete. *)
Fixpoint lex_number (fuel : nat) (c : Z) : LM Z :=
  match fuel with
  | O => lfail
  | S fuel =>
      r ← tokenAddChar c;
      if r <? 0 then mret TOK_ERR
      else
        c ← inputGetc;
        if negb (c <? 0) && isdigit c then lex_number fuel c
        else inputPutback c;; mret TOK_LITERAL
  end.

Definition ident_char (c : Z) : bool := isalnum c || (c =? 36) || (c =? 95) || (c =? 92).

(** The loop over the characters of an identifier: the character after it. *)
Fixpoint ident_loop (fuel : nat) (c : Z) : LM Z :=
  match fuel with
  | O => lfail
  | S fuel =>
      r ← (if c =? 92 then mret 0 else tokenAddChar c);
      if r <? 0 then mret c
      else
        c ← inputGetc;
        if c <? 0 then mret c
        else if negb (ident_char c) then mret c
        else ident_loop fuel c
  end.

(** [while (c == ' ' || ..)] up to the next character. *)
Fixpoint skip_white (fuel : nat) (c : Z) : LM Z :=
  match fuel with
  | O => lfail
  | S fuel =>
      if is_blank c || (c =? 10) then
        c ← inputGetc;
        if c <? 0 then mret c else skip_white fuel c
      else mret c
  end.

(** The reserved words. *)
Definition keyword (s : list Z) : option Z :=
  if strcmp s (str "if") =? 0 then Some TOK_IF
  else if strcmp s (str "else") =? 0 then Some TOK_ELSE
  else if strcmp s (str "var") =? 0 then Some TOK_VAR
  else if strcmp s (str "for") =? 0 then Some TOK_FOR
  else if strcmp s (str "return") =? 0 then Some TOK_RETURN
  else None.

(** [*tokq->servp], an unsigned char. *)
Definition first_char (s : list Z) : Z := match s with c :: _ => c | [] => 0 end.

Definition lex_ident (fuel : nat) (state c : Z) : LM Z :=
  c ← ident_loop fuel c;
  ip ← get;
  s ← lift (bq_servstr (tokbuf ip));
  if negb (isalpha (first_char s)) && negb (first_char s =? 36) && negb (first_char s =? 95) then
    ejError (str "Invalid identifier %s") [AStr (Some (s ++ [0]))];; mret TOK_ERR
  else
    t ← get_token;
    match (if state =? STATE_STMT then keyword t else None) with
    | Some k =>
        (if (k =? TOK_RETURN) && ((c =? 59) || (c =? 40)) then inputPutback c else mret ());;
        mret k
    | None =>
        c ← skip_white fuel c;
        let tid := if c =? 40 then TOK_FUNCTION else TOK_ID in
        inputPutback c;;
        mret tid
    end.

(** A token of one character. *)
Definition lex_char (c tid : Z) : LM Z := _ ← tokenAddChar c; mret tid.

(** [+] and [++], [-] and [--]. *)
Definition lex_twice (c0 one two : Z) : LM Z :=
  c ← inputGetc;
  if c <? 0 then lex_error (str "Syntax Error")
  else if negb (c =? c0) then inputPutback c;; lex_char one TOK_EXPR
  else lex_char two TOK_INC_DEC.

(** [<], [<=] and [<<], [>], [>=] and [>>]. *)
Definition lex_compare (c0 plain eq shift : Z) : LM Z :=
  c ← inputGetc;
  if c <? 0 then lex_error (str "Syntax Error")
  else if c =? c0 then lex_char shift TOK_EXPR
  else if c =? 61 then lex_char eq TOK_EXPR
  else _ ← tokenAddChar plain; inputPutback c;; mret TOK_EXPR.

(** [||] and [&&]. *)
Definition lex_logical (c0 cond : Z) : LM Z :=
  c ← inputGetc;
  if (c <? 0) || negb (c =? c0) then lex_error (str "Syntax Error")
  else lex_char cond TOK_LOGICAL.

(** The loop over the switch: blanks and comments go round again. *)
Fixpoint lex_loop (fuel : nat) (state c : Z) : LM Z :=
  match fuel with
  | O => lfail
  | S n =>
      if c =? -1 then mret TOK_EOF
      else if is_blank c then c ← skip_blanks fuel; lex_loop n state c
      else if c =? 10 then mret TOK_NEWLINE
      else if c =? 40 then lex_char c TOK_LPAREN
      else if c =? 41 then lex_char c TOK_RPAREN
      else if c =? 123 then lex_char c TOK_LBRACE
      else if c =? 125 then lex_char c TOK_RBRACE
      else if c =? 43 then lex_twice 43 EXPR_PLUS EXPR_INC
      else if c =? 45 then lex_twice 45 EXPR_MINUS EXPR_DEC
      else if c =? 42 then lex_char EXPR_MUL TOK_EXPR
      else if c =? 37 then lex_char EXPR_MOD TOK_EXPR
      else if c =? 47 then
        c ← inputGetc;
        if c <? 0 then lex_error (str "Syntax Error")
        else if negb (c =? 42) && negb (c =? 47) then inputPutback c;; lex_char EXPR_DIV TOK_EXPR
        else
          closed ← eat_comment fuel c;
          if negb (closed : bool) then mret TOK_ERR
          else
            c ← inputGetc;
            if c <? 0 then mret TOK_EOF else lex_loop n state c
      else if c =? 60 then lex_compare 60 EXPR_LESS EXPR_LESSEQ EXPR_LSHIFT
      else if c =? 62 then lex_compare 62 EXPR_GREATER EXPR_GREATEREQ EXPR_RSHIFT
      else if c =? 61 then
        c ← inputGetc;
        if c <? 0 then lex_error (str "Syntax Error")
        else if c =? 61 then lex_char EXPR_EQ TOK_EXPR
        else inputPutback c;; mret TOK_ASSIGNMENT
      else if c =? 33 then
        c ← inputGetc;
        if c <? 0 then lex_error (str "Syntax Error")
        else if c =? 61 then lex_char EXPR_NOTEQ TOK_EXPR
        else inputPutback c;; lex_char EXPR_BOOL_COMP TOK_EXPR
      else if c =? 59 then lex_char c TOK_SEMI
      else if c =? 44 then lex_char c TOK_COMMA
      else if c =? 124 then lex_logical 124 COND_OR
      else if c =? 38 then lex_logical 38 COND_AND
      else if (c =? 34) || (c =? 39) then
        let quote := c in
        c ← inputGetc;
        if c <? 0 then lex_error (str "Syntax Error") else lex_string fuel quote c
      else if isdigit c then lex_number fuel c
      else lex_ident fuel state c
  end.

Definition getLexicalToken (state : Z) : LM Z :=
  set_tid (-1);;
  set_token TokStatic;;
  upd (fun ip => ip <| tokbuf := bq_flush (tokbuf ip) |>);;
  ip ← get;
  if 0 <? putBackTokenId ip then
    s ← lift (putBackToken ip);
    '(_, q) ← lift (bq_putstr (tokbuf ip) s);
    upd (fun ip => ip <| tokbuf := q |> <| putBackTokenId := 0 |>);;
    set_token TokServp;;
    mret (putBackTokenId ip)
  else
    c ← inputGetc;
    if c <? 0 then mret TOK_EOF
    else
      ip ← get;
      lex_loop (S (S (Z.to_nat (bq_len (script ip))))) state c.

Definition ejLexGetToken (state : Z) : LM Z :=
  t ← getLexicalToken state;
  set_tid t;;
  mret t.

(** [bstrdup]: [None] when memory is out. *)
Context (bstrdup : list Z -> option (list Z)).

Definition ejLexPutbackToken (t : Z) (s : list Z) : LM unit :=
  upd (fun ip => ip <| putBackTokenId := t |> <| putBackToken := bstrdup s |>).

(** [ejLexSaveInputState]: the state is a copy of the input block, with a putback token of
    its own; the buffers of the queues are shared. *)
Definition ejLexSaveInputState : LM ejinput :=
  ip ← get;
  mret (match putBackToken ip with Some s => ip <| putBackToken := bstrdup s |> | None => ip end).

(** [ejLexRestoreInputState].  When the state has no putback token the code frees the
    one of the input block and goes on using it: the model stops. *)
Definition ejLexRestoreInputState (state : ejinput) : LM unit :=
  ip ← get;
  tq ← lift (bq_rewind (tokbuf ip) (tokbuf state));
  sq ← lift (bq_rewind (script ip) (script state));
  upd (fun ip => ip <| tokbuf := tq |> <| script := sq |> <| putBackTokenId := putBackTokenId state |>);;
  match putBackToken state, putBackToken ip with
  | Some s, _ => upd (fun ip => ip <| putBackToken := bstrdup s |>)
  | None, None => mret ()
  | None, Some _ => lfail
  end.

Definition ejLexFreeInputState (state : ejinput) : ejinput := state <| putBackToken := None |>.

(** [ejLexOpenScript]: the new input, or nothing when memory is out. *)
Definition ejLexOpenScript (scr : list Z) : option (option ejinput) :=
  tq ← bq_open EJ_INC;
  match tq with
  | None => Some None
  | Some tq =>
      sq ← bq_open EJ_SCRIPT_INC;
      match sq with
      | None => Some None
      | Some sq =>
          '(_, sq) ← bq_putstr sq scr;
          Some (Some (mkInput tq sq None 0 None 0 1 0))
      end
  end.
End Memory.
End Lexer.
