(* ===== verification/EjLexSpec.v ===== *)
(** * What the lexical analyser promises

    The proofs about [EjLex], against the laws of [ByteQueue] only: tokens are read
    back as they were written, every call returns, and what happens at the end of a
    script.  The instances at the end run on the ring queue. *)

From S2P Require Import Prelude CString Fmt RingQ ByteQueue EjLex.
#[local] Open Scope Z_scope.
#[local] Open Scope cint_scope.

Section Spec.
Context {Q : Type} `{ByteQueueLaws Q}.
Context (lw : Z) (balloc : Z -> option (list Z)) (brealloc : list Z -> Z -> option (list Z)).
Hypothesis lw_ok : lw = 32 \/ lw = 64.
(** [malloc] and [realloc] do not fail. *)
Hypothesis balloc_ok : forall n, 0 < n -> exists b, balloc n = Some b /\ zlen b = n.
Hypothesis brealloc_ok : forall b n, zlen b <= n -> exists b', brealloc b n = Some b' /\
  zlen b' = n /\ take (length b) b' = b.

Notation ej := (ej (Q := Q)).
Notation ejinput := (ejinput (Q := Q)).
Notation inputGetc := (inputGetc balloc brealloc).
Notation tokenAddChar := (tokenAddChar lw balloc brealloc).

(** ** The state of the analyser *)

(** The buffer of the current line. *)
Definition line_wf (ip : ejinput) : Prop :=
  0 <= lineColumn ip /\ - 2 ^ 31 <= lineNumber ip < 2 ^ 31 /\
  match line ip with
  | None => lineLength ip = 0 /\ lineColumn ip = 0
  | Some b => zlen b = lineLength ip /\ lineColumn ip < lineLength ip /\ is_Some (cstr b)
  end.

(** A script to be read is [s], with room to put [k] characters back; the token so
    far is [t]. *)
Record at_ (ep : ej) (s : list Z) (k : Z) (t : list Z) : Prop := {
  at_script : bq_ok (script (input ep));
  at_tokbuf : bq_ok (tokbuf (input ep));
  at_flat : bq_flat (tokbuf (input ep));
  at_line : line_wf (input ep);
  at_bytes : bq_bytes (script (input ep)) = s;
  at_chars : Forall (fun c => 0 <= c < 256) s;
  at_room : 0 <= k /\ zlen s + k <= bq_cap (script (input ep));
  at_tok : bq_bytes (tokbuf (input ep)) = t;
  at_ref : token ep = TokStatic /\ t = [] \/
           token ep = TokServp /\ bq_servstr (tokbuf (input ep)) = cstr (t ++ [0])
}.

(** The same between two calls: whatever the token was, it is about to be cleared. *)
Record stand (ip : ejinput) (s : list Z) (k : Z) : Prop := {
  st_script : bq_ok (script ip);
  st_tokbuf : bq_ok (tokbuf ip);
  st_flat : bq_flat (tokbuf ip);
  st_line : line_wf ip;
  st_bytes : bq_bytes (script ip) = s;
  st_chars : Forall (fun c => 0 <= c < 256) s;
  st_room : 0 <= k /\ zlen s + k <= bq_cap (script ip)
}.

Lemma at_stand ep s k t : at_ ep s k t -> stand (input ep) s k.
Proof. by intros []. Qed.

(** Some character of the current line was read. *)
Definition lined (ep : ej) : Prop := line (input ep) <> None.

(** What the input functions leave alone. *)
Definition same_token (ep ep' : ej) : Prop :=
  tokbuf (input ep') = tokbuf (input ep) /\ token ep' = token ep /\
  putBackTokenId (input ep') = putBackTokenId (input ep) /\
  putBackToken (input ep') = putBackToken (input ep).

Lemma bind_step {A B} (m : LM A) (f : A -> LM B) ep x ep' :
  m ep = Some (x, ep') -> mbind (M := LM (Q := Q)) f m ep = f x ep'.
Proof. unfold mbind, LM_bind. by intros ->. Qed.

(** A block with a NUL in it holds a string. *)
Lemma cstr_nul b b' : is_Some (cstr (b ++ 0 :: b')).
Proof.
  induction b as [|c b [s IH]]; cbn; [by eexists|]. rewrite IH. cbn.
  by destruct (c =? 0); eexists.
Qed.

Lemma line_set_ok b i c : 0 <= i < zlen b ->
  exists b', line_set (Some b) i c = Some (Some b') /\ zlen b' = zlen b /\
    (c = 0 -> is_Some (cstr b')).
Proof.
  intros Hi. exists (bput b i [c]). unfold line_set. cbn.
  replace ((0 <=? i) && (i <? zlen b)) with true by lia. split; [done|]. split.
  - apply length_bput; cbn; lia.
  - intros ->. apply cstr_nul.
Qed.

#[local] Arguments line_set : simpl never.
#[local] Arguments ejError : simpl never.

(** *** Reading a character *)

Lemma getc_eof ep k t : at_ ep [] k t -> inputGetc ep = Some (-1, ep).
Proof.
  intros Hat. unfold EjLex.inputGetc, mbind, LM_bind. cbn.
  rewrite bq_len_ok by apply Hat. by rewrite (at_bytes _ _ _ _ Hat).
Qed.

Lemma getc_cons ep c s k t : at_ ep (c :: s) k t ->
  exists ep', inputGetc ep = Some (c, ep') /\ at_ ep' s (k + 1) t /\ same_token ep ep' /\
    (lined ep \/ c <> 10 -> lined ep').
Proof using All.
  intros [Hs Ht Hf Hl Hb Hc Hr Htok Href].
  assert (Hcb : 0 <= c < 256) by (by inversion Hc). assert (Hc' : Forall (fun c => 0 <= c < 256) s) by (by inversion Hc).
  destruct (bq_getc_ok _ _ _ Hs Hb) as (q' & Eq & Hq' & Hqb & Hqc).
  rewrite uwrap_small in Eq by lia.
  unfold EjLex.inputGetc, mbind, LM_bind. cbn.
  rewrite bq_len_ok, Hb, Eq by done. cbn [length].
  replace (Z.of_nat (S (length s)) =? 0) with false by zb.
  destruct ep as [[tq sq pb pbi ln ll lno lc] er tk td]; cbn in *.
  destruct (Z.eqb_spec c 10) as [->|Hne]; cbn.
  - eexists. split; [done|]. split_and!; [|done|by intros [?|?]].
    split; cbn; try done; [|rewrite Hqc; lia].
    destruct Hl as (Hl1 & Hl2 & Hl3); cbn in *. split; cbn; [lia|].
    split; [apply (swrap_range 32); lia|]. destruct ln; [|lia]. destruct Hl3 as (? & ? & ?). split_and!; auto; lia.
  - assert (exists b ll', (if ll <=? lc + 2
               then mkInput tq q' pb pbi (line_realloc balloc brealloc ln (ll + EJ_INC)) (ll + EJ_INC) lno lc
               else mkInput tq q' pb pbi ln ll lno lc) = mkInput tq q' pb pbi (Some b) ll' lno lc /\
             zlen b = ll' /\ lc + 2 < ll' /\ 0 <= lc) as (b & ll' & E & Hbl & Hlc & Hlc0).
    { destruct Hl as (Hl1 & _ & Hl2); cbn in *. unfold EJ_INC. destruct (Z.leb_spec ll (lc + 2)).
      - destruct ln as [b|]; cbn [line_realloc].
        + destruct Hl2 as (? & ? & _). destruct (brealloc_ok b (ll + 110)) as (b' & -> & Hb' & _); [lia|].
          exists b', (ll + 110). split_and!; [done|lia|lia|lia].
        + destruct (balloc_ok (ll + 110)) as (b' & -> & Hb'); [lia|].
          exists b', (ll + 110). split_and!; [done|lia|lia|lia].
      - destruct ln as [b|]; [|lia]. destruct Hl2 as (? & ? & _). exists b, ll. split_and!; [done|lia|lia|lia]. }
    rewrite E. cbn [line lineColumn lineLength].
    destruct (line_set_ok b lc c) as (b1 & E1 & H1 & _); [lia|].
    destruct (line_set_ok b1 (lc + 1) 0) as (b2 & E2 & H2 & Hnul); [lia|].
    unfold lift. rewrite E1. cbn. rewrite E2. cbn.
    eexists. split; [done|]. split_and!; [|done|done].
    split; cbn; try done; [|rewrite Hqc; lia]. destruct Hl as (_ & [? ?] & _); cbn in *.
    split_and!; cbn; try lia. split_and!; auto; lia.
Qed.

Lemma putback_ok ep s k t c : at_ ep s k t -> 1 <= k -> lined ep ->
  exists ep', inputPutback c ep = Some (tt, ep') /\ at_ ep' (u8 c :: s) (k - 1) t /\
    same_token ep ep' /\ lined ep'.
Proof.
  intros [Hs Ht Hf Hl Hb Hc Hr Htok Href] Hk Hlined.
  destruct (bq_insertc_ok (script (input ep)) (u8 c) Hs) as (q' & Eq & Hq' & Hqb & Hqc);
    [rewrite Hb; lia|].
  rewrite uwrap_idemp in Hqb by lia.
  pose proof (uwrap_range 8 c ltac:(lia)).
  unfold inputPutback, mbind, LM_bind, lift. cbn. rewrite Eq. cbn.
  destruct ep as [[tq sq pb pbi ln ll lno lc] er tk td]; cbn in *.
  unfold lined in Hlined; cbn in Hlined. destruct ln as [b|]; [|done].
  destruct Hl as (Hl1 & [? ?] & Hl2 & Hl3 & _); cbn in *.
  set (col := if 0 <? lc then lc - 1 else lc).
  assert (0 <= col < zlen b) by (unfold col; destruct (Z.ltb_spec 0 lc); lia).
  destruct (line_set_ok b col 0) as (b1 & Eb1 & Hb1 & Hnul); [lia|]. rewrite Eb1. cbn.
  eexists. split; [done|]. split_and!; [|done|done].
  split; cbn; try done.
  - split_and!; cbn; try lia. split_and!; auto; lia.
  - by rewrite Hqb, Hb.
  - by constructor.
  - rewrite Hqc. lia.
Qed.

(** *** Extending the token *)

(** A character that fits. *)
Lemma addchar_fits ep s k t c :
  at_ ep s k t -> zlen t < bq_cap (tokbuf (input ep)) -> 0 <= c < 256 ->
  exists ep', tokenAddChar c ep = Some (0, ep') /\ at_ ep' s k (t ++ [c]) /\ token ep' = TokServp /\
    bq_cap (tokbuf (input ep')) = bq_cap (tokbuf (input ep)) /\
    putBackTokenId (input ep') = putBackTokenId (input ep) /\ (lined ep -> lined ep') /\
    script (input ep') = script (input ep) /\ putBackToken (input ep') = putBackToken (input ep).
Proof.
  intros [Hs Ht Hf Hl Hb Hc Hr Htok Href] Hfit Hcb.
  destruct (bq_putc_ok (tokbuf (input ep)) (u8 c) Ht) as (r & q' & Eq & Hq' & Hqf & Hqr & Hqfit).
  destruct Hqfit as [-> Hcap]; [by rewrite Htok|].
  destruct Hqr as [[_ Hqb]|[? _]]; [|done]. rewrite uwrap_idemp, uwrap_small in Hqb by lia.
  destruct (bq_addnull_ok q' Hq') as (Hn1 & Hn2 & Hn3 & Hn4). specialize (Hn4 (Hqf Hf)).
  unfold EjLex.tokenAddChar, mbind, LM_bind, lift. cbn. rewrite Eq. cbn.
  eexists. split; [done|].
  destruct ep as [[tq sq pb pbi ln ll lno lc] er tk td]; cbn in *.
  split_and!; try done; [|congruence].
  split; cbn; try done; [tauto| |right].
  - by rewrite Hn2, Hqb, Htok.
  - split; [done|]. destruct Hn4 as [_ ->]. by rewrite Hqb, Htok.
Qed.

Notation lex_char := (lex_char lw balloc brealloc).
Notation lex_number := (lex_number lw balloc brealloc).
Notation lex_string := (lex_string lw balloc brealloc).
Notation lex_escape := (lex_escape lw balloc brealloc).
Notation ident_loop := (ident_loop lw balloc brealloc).
Notation lex_ident := (lex_ident lw balloc brealloc).
Notation lex_loop := (lex_loop lw balloc brealloc).

(** Run the next step of a computation by a lemma about it. *)
Ltac step_by E := erewrite bind_step by exact E.
Notation ejLexGetToken := (ejLexGetToken lw balloc brealloc).

(** *** Where the reading stands

    [inputGetc] and [inputPutback] act on the script and the line only. *)
Lemma getc_script ep c s k t c' ep' : at_ ep (c :: s) k t -> inputGetc ep = Some (c', ep') ->
  script (input ep') = (bq_getc (script (input ep))).2 /\ tokbuf (input ep') = tokbuf (input ep) /\
  putBackToken (input ep') = putBackToken (input ep).
Proof.
  intros Hat. unfold EjLex.inputGetc, mbind, LM_bind. cbn.
  rewrite bq_len_ok by apply Hat. rewrite (at_bytes _ _ _ _ Hat). cbn [length].
  replace (Z.of_nat (S (length s)) =? 0) with false by zb.
  destruct (bq_getc (script (input ep))) as [c1 q1]. cbn.
  destruct ep as [[tq sq pb pbi ln ll lno lc] er tk td]; cbn.
  destruct (c1 =? 10); cbn; [by intros [= _ <-]|].
  destruct (ll <=? lc + 2); cbn; unfold lift;
    (destruct (line_set _ _ _); cbn; [|done]); (destruct (line_set _ _ _); cbn; [|done]); by intros [= _ <-].
Qed.

Lemma putback_script ep c ep' : inputPutback c ep = Some (tt, ep') ->
  (exists n, bq_insertc (script (input ep)) (u8 c) = Some (n, script (input ep'))) /\
  tokbuf (input ep') = tokbuf (input ep) /\ putBackToken (input ep') = putBackToken (input ep).
Proof.
  unfold inputPutback, mbind, LM_bind, lift. cbn.
  destruct (bq_insertc (script (input ep)) (u8 c)) as [[n q1]|]; cbn; [|done].
  destruct (line_set _ _ _); cbn; [|done]. intros [= <-].
  destruct ep as [[tq sq pb pbi ln ll lno lc] er tk td]; cbn. split; [by eexists|done].
Qed.

(** What stays the same while a script is read, so that it can be read again from a saved
    position: its text and the sizes of the buffers; [tr_put]: and that some token was put
    back. *)
Record track : Type := mkTrack { tr_text : list Z; tr_cap : Z; tr_tok : Z; tr_put : bool }.

Section Track.
(** Nothing is kept track of, or one script. *)
Context {T : option track}.

Definition tracks (ep : ej) : Prop :=
  match T with
  | None => True
  | Some tr => bq_text (script (input ep)) (tr_text tr) /\ bq_cap (script (input ep)) = tr_cap tr /\
               bq_cap (tokbuf (input ep)) = tr_tok tr /\
               (tr_put tr = true -> putBackToken (input ep) <> None)
  end.

(** The character [c] stands before the rest [s] of the script. *)
Definition behind (c : Z) (s : list Z) : Prop :=
  match T with None => True | Some tr => exists h, tr_text tr = h ++ c :: s end.

Lemma getc_tracks ep c s k t ep' : at_ ep (c :: s) k t -> tracks ep -> inputGetc ep = Some (c, ep') ->
  tracks ep' /\ behind c s.
Proof.
  unfold tracks, behind. destruct T as [tr|]; [|done]. intros Hat (Ht & Hc & Hk & Hput) E.
  destruct (getc_script _ _ _ _ _ _ _ Hat E) as (-> & -> & ->).
  destruct (bq_getc_ok _ _ _ (at_script _ _ _ _ Hat) (at_bytes _ _ _ _ Hat)) as (q' & Eq & _ & _ & Hcap).
  destruct (bq_text_suffix _ _ (at_script _ _ _ _ Hat) Ht) as [h Eh]. rewrite (at_bytes _ _ _ _ Hat) in Eh.
  split; [|by exists h]. split_and!; [|by rewrite Eq; cbn; congruence|done|done].
  eapply bq_text_getc; [apply Hat|done|apply Hat].
Qed.

Lemma putback_tracks ep c s k t ep' : at_ ep s k t -> 1 <= k -> tracks ep -> 0 <= c < 256 -> behind c s ->
  inputPutback c ep = Some (tt, ep') -> tracks ep'.
Proof.
  unfold tracks, behind. destruct T as [tr|]; [|done]. intros Hat Hk (Ht & Hc & Hk' & Hput) Hcb [h Eh] E.
  destruct (putback_script _ _ _ E) as ([n En] & -> & ->). pose proof (at_room _ _ _ _ Hat).
  assert (Hroom : zlen (bq_bytes (script (input ep))) < bq_cap (script (input ep)))
    by (rewrite (at_bytes _ _ _ _ Hat); lia).
  rewrite uwrap_small in En by lia. split_and!; [|..|done|done].
  - eapply (bq_text_insertc _ _ c _ _ h); try done; [apply Hat|].
    rewrite (at_bytes _ _ _ _ Hat), uwrap_small by lia. done.
  - destruct (bq_insertc_ok _ c (at_script _ _ _ _ Hat) Hroom) as (q' & Eq & _ & _ & Hcap).
    rewrite Eq in En. injection En as _ <-. congruence.
Qed.

(** *** Inside a token

    The analyser has read a character of the token: [line] exists, and nothing is put
    back.  [C] is the capacity of the token buffer. *)
Definition live (ep : ej) (s : list Z) (k : Z) (t : list Z) (C : Z) : Prop :=
  at_ ep s k t /\ lined ep /\ bq_cap (tokbuf (input ep)) = C /\ putBackTokenId (input ep) = 0 /\ tracks ep.

Lemma live_token ep s k t C : live ep s k t C -> token_str ep = cstr (t ++ [0]).
Proof.
  intros (Hat & _). unfold token_str. destruct (at_ref _ _ _ _ Hat) as [[-> ->]|[-> ->]]; done.
Qed.

Lemma live_error ep s k t C e : live ep s k t C -> live (ep <| error := e |>) s k t C.
Proof.
  intros ([? ? ? ? ? ? ? ? ?] & ? & ? & ? & ?). destruct ep. by split_and!.
Qed.

Lemma live_getc ep c s k t C : live ep (c :: s) k t C ->
  exists ep', inputGetc ep = Some (c, ep') /\ live ep' s (k + 1) t C /\ behind c s.
Proof using All.
  intros (Hat & Hl & Hc & Hp & Htr). destruct (getc_cons _ _ _ _ _ Hat) as (ep' & E & Hat' & (Ht & _ & Hp' & _) & Hl').
  destruct (getc_tracks _ _ _ _ _ _ Hat Htr E) as [Htr' Hb].
  exists ep'. split; [done|]. split; [|done]. split_and!; [done|auto|by rewrite Ht|by rewrite Hp'|done].
Qed.

Lemma live_eof ep k t C : live ep [] k t C -> inputGetc ep = Some (-1, ep).
Proof. intros (Hat & _). by eapply getc_eof. Qed.

Lemma live_putback ep s k t C c : live ep s k t C -> 1 <= k -> T = None \/ 0 <= c < 256 /\ behind c s ->
  exists ep', inputPutback c ep = Some (tt, ep') /\ live ep' (u8 c :: s) (k - 1) t C.
Proof.
  intros (Hat & Hl & Hc & Hp & Htr) Hk Hb.
  destruct (putback_ok _ _ _ _ c Hat Hk Hl) as (ep' & E & Hat' & (Ht & _ & Hp' & _) & Hl').
  exists ep'. split; [done|]. split_and!; [done|auto|by rewrite Ht|by rewrite Hp'|].
  destruct Hb as [HT|[Hcb Hb]]; [unfold tracks; by rewrite HT|].
  exact (putback_tracks _ _ _ _ _ _ Hat Hk Htr Hcb Hb E).
Qed.

Lemma live_add ep s k t C c : live ep s k t C -> zlen t < C -> 0 <= c < 256 ->
  exists ep', tokenAddChar c ep = Some (0, ep') /\ live ep' s k (t ++ [c]) C.
Proof.
  intros (Hat & Hl & Hc & Hp & Htr) Hfit Hcb. subst C.
  destruct (addchar_fits _ _ _ _ c Hat Hfit Hcb) as (ep' & E & Hat' & _ & Hc' & Hp' & Hl' & Hs' & Hb').
  exists ep'. split; [done|]. split_and!; auto; try congruence.
  revert Htr. unfold tracks. destruct T; [|done]. by rewrite Hs', Hc', Hb'.
Qed.

Lemma live_room ep s k t C : live ep s k t C -> 0 <= k.
Proof. intros (Hat & _). apply (at_room _ _ _ _ Hat). Qed.

Lemma live_chars ep s k t C : live ep s k t C -> Forall (fun c => 0 <= c < 256) s.
Proof. intros (Hat & _). apply (at_chars _ _ _ _ Hat). Qed.

Lemma live_char ep s k C c id : live ep s k [] C -> 0 < C -> 0 <= c < 256 ->
  exists ep', lex_char c id ep = Some (id, ep') /\ live ep' s k [c] C.
Proof.
  intros Hl HC Hc. destruct (live_add _ _ _ _ _ c Hl) as (ep' & E & Hl'); [done..|].
  exists ep'. split; [|done]. unfold EjLex.lex_char. by step_by E.
Qed.

(** *** Numbers *)

Lemma number_ok C rest ds : forall fuel c ep k t,
  isdigit c = true -> Forall (fun c => isdigit c = true) ds ->
  live ep (ds ++ 32 :: rest) k t C -> zlen t + 1 + zlen ds <= C -> (length ds < fuel)%nat ->
  exists ep' k', lex_number fuel c ep = Some (TOK_LITERAL, ep') /\
    live ep' (32 :: rest) k' (t ++ c :: ds) C.
Proof using All.
  induction ds as [|d ds IH]; intros fuel c ep k t Hd Hds Hl HC Hf;
    (destruct fuel as [|fuel]; [lia|]); cbn [EjLex.lex_number];
    (assert (0 <= c < 256) by (unfold isdigit in Hd; lia));
    (destruct (live_add _ _ _ _ _ c Hl) as (ep1 & E1 & Hl1); [cbn in HC; lia|done|]);
    step_by E1; cbn [Z.ltb Z.compare].
  - destruct (live_getc _ _ _ _ _ _ Hl1) as (ep2 & E2 & Hl2 & Hl2b). step_by E2. cbn.
    pose proof (live_room _ _ _ _ _ Hl1).
    destruct (live_putback _ _ _ _ _ 32 Hl2) as (ep3 & E3 & Hl3); [lia|by right|].
    step_by E3. eexists _, _. split; [done|]. exact Hl3.
  - destruct (live_getc _ _ _ _ _ _ Hl1) as (ep2 & E2 & Hl2 & Hl2b). step_by E2.
    inversion Hds as [|x l Hd' Hds']; subst.
    assert (0 <= d) by (unfold isdigit in Hd'; lia).
    replace (d <? 0) with false by zb. rewrite Hd'. cbn [negb andb].
    destruct (IH fuel d ep2 _ _ Hd' Hds' Hl2) as (ep' & k' & E & Hl').
    { rewrite length_app in *. cbn in *. lia. } { cbn in Hf. lia. }
    exists ep', k'. split; [done|]. by rewrite <- app_assoc in Hl'.
Qed.

(** *** Strings *)

(** How a string is written between quotes [q]. *)
Definition esc (q b : Z) : list Z := if (b =? 92) || (b =? q) then [92; b] else [b].

Lemma string_ok C rest q body : (q = 34 \/ q = 39) -> forall fuel c r ep k t,
  concat (map (esc q) body) ++ q :: 32 :: rest = c :: r ->
  live ep r k t C -> Forall (fun b => 0 < b < 256) body -> zlen t + zlen body <= C ->
  (length body < fuel)%nat ->
  exists ep' k', lex_string fuel q c ep = Some (TOK_LITERAL, ep') /\
    live ep' (32 :: rest) k' (t ++ body) C.
Proof using All.
  intros Hq. induction body as [|b body IH]; intros fuel c r ep k t Hs Hl Hb HC Hf;
    (destruct fuel as [|fuel]; [lia|]); cbn [EjLex.lex_string].
  - injection Hs as <- <-. rewrite Z.eqb_refl, app_nil_r. by eexists _, _.
  - inversion Hb as [|x l Hb0 Hbs]; subst. cbn [map concat] in Hs.
    assert (Hnext : forall ep1 k1, live ep1 (concat (map (esc q) body) ++ q :: 32 :: rest) k1 t C ->
      exists ep' k', mbind (M := LM) (fun r => if r <? 0 then mret TOK_ERR else
            c ← inputGetc;
            if c <? 0 then lex_error lw balloc brealloc (str "Unmatched Quote")
            else lex_string fuel q c) (tokenAddChar b) ep1 = Some (TOK_LITERAL, ep') /\
        live ep' (32 :: rest) k' (t ++ b :: body) C).
    { intros ep1 k1 Hl1.
      destruct (live_add _ _ _ _ _ b Hl1) as (ep2 & E2 & Hl2); [cbn in HC; lia|lia|].
      step_by E2. cbn [Z.ltb Z.compare].
      destruct (concat (map (esc q) body) ++ q :: 32 :: rest) as [|c' r'] eqn:Es;
        [by destruct (concat _)|].
      assert (0 <= c' < 256) by (pose proof (live_chars _ _ _ _ _ Hl2) as Hch; by inversion Hch).
      destruct (live_getc _ _ _ _ _ _ Hl2) as (ep3 & E3 & Hl3 & Hl3b). step_by E3.
      replace (c' <? 0) with false by zb.
      destruct (IH fuel c' r' ep3 _ _ eq_refl Hl3 Hbs) as (ep' & k' & E & Hl').
      { rewrite length_app. cbn in *. lia. } { cbn in Hf. lia. }
      exists ep', k'. split; [exact E|]. by rewrite <- app_assoc in Hl'. }
    unfold esc in Hs at 1. destruct ((b =? 92) || (b =? q)) eqn:Ee; cbn [app] in Hs; injection Hs as <- <-.
    + (* an escaped character *)
      replace (92 =? q) with false by (destruct Hq; subst; done). rewrite Z.eqb_refl.
      destruct (live_getc _ _ _ _ _ _ Hl) as (ep1 & E1 & Hl1 & Hl1b).
      assert (Eesc : lex_escape ep = Some (Some b, ep1)).
      { unfold EjLex.lex_escape. step_by E1.
        assert (b = 92 \/ b = 34 \/ b = 39) as [-> | [-> | ->]] by
          (prop_bools; destruct Ee; destruct Hq; lia); done. }
      step_by Eesc. by eapply Hnext.
    + prop_bools. replace (b =? q) with false by zb. replace (b =? 92) with false by zb.
      unfold mbind at 1, LM_bind at 1. cbn. by eapply Hnext.
Qed.

(** *** Identifiers *)

Definition name_start (c : Z) : bool := isalpha c || (c =? 36) || (c =? 95).
Definition name_char (c : Z) : bool := isalnum c || (c =? 36) || (c =? 95).

Lemma name_char_range c : name_char c = true -> 36 <= c < 123 /\ c <> 92.
Proof. unfold name_char, isalnum, isalpha, isupper, islower, isdigit. lia. Qed.

(** The loop stops after the blank behind the name. *)
Lemma ident_loop_ok C rest name : forall fuel c ep k t,
  Forall (fun c => name_char c = true) (c :: name) ->
  live ep (name ++ 32 :: rest) k t C -> zlen t + 1 + zlen name <= C -> (length name < fuel)%nat ->
  exists ep' k', ident_loop fuel c ep = Some (32, ep') /\ live ep' rest k' (t ++ c :: name) C /\ 1 <= k'.
Proof using All.
  induction name as [|d name IH]; intros fuel c ep k t Hn Hl HC Hf;
    (destruct fuel as [|fuel]; [lia|]); cbn [EjLex.ident_loop];
    inversion Hn as [|x l Hc Hn']; subst; (destruct (name_char_range c Hc) as [Hcr Hc92]);
    replace (c =? 92) with false by zb;
    (destruct (live_add _ _ _ _ _ c Hl) as (ep1 & E1 & Hl1); [cbn in HC; lia|lia|]);
    step_by E1; cbn [Z.ltb Z.compare].
  - destruct (live_getc _ _ _ _ _ _ Hl1) as (ep2 & E2 & Hl2 & Hl2b). step_by E2. cbn.
    pose proof (live_room _ _ _ _ _ Hl1).
    eexists _, _. split; [done|]. split; [exact Hl2|lia].
  - destruct (live_getc _ _ _ _ _ _ Hl1) as (ep2 & E2 & Hl2 & Hl2b). step_by E2.
    inversion Hn' as [|x' l' Hd Hn'']; subst. destruct (name_char_range d Hd) as [Hdr Hd92].
    replace (d <? 0) with false by zb.
    replace (ident_char d) with true
      by (symmetry; unfold ident_char; unfold name_char in Hd; by rewrite Hd).
    cbn [negb].
    destruct (IH fuel d ep2 _ _ Hn' Hl2) as (ep' & k' & E & Hl' & Hk').
    { rewrite length_app in *. cbn in *. lia. } { cbn in Hf. lia. }
    exists ep', k'. split; [done|]. by rewrite <- app_assoc in Hl'.
Qed.

(** A character that starts a token. *)
Definition visible (c : Z) : bool := negb (is_blank c) && negb (c =? 10).

(** What a name is lexed as, before the characters [rest]. *)
Definition name_tid (state : Z) (name rest : list Z) : Z :=
  match (if state =? STATE_STMT then keyword name else None) with
  | Some k => k
  | None => if first_char rest =? 40 then TOK_FUNCTION else TOK_ID
  end.

Lemma cstr_no_nul s : no_nul s -> cstr (s ++ [0]) = Some s.
Proof. intros. by apply cstr_app. Qed.

Lemma ident_ok state C n rest name fuel c ep k :
  name_start c = true -> Forall (fun c => name_char c = true) name ->
  live ep (name ++ 32 :: n :: rest) k [] C -> visible n = true ->
  1 + zlen name <= C -> (length name < fuel)%nat -> (1 < fuel)%nat ->
  exists ep' k', lex_ident fuel state c ep = Some (name_tid state (c :: name) (n :: rest), ep') /\
    live ep' (n :: rest) k' (c :: name) C.
Proof using All.
  intros Hc Hn Hl Hv HC Hf Hf1.
  assert (Hcn : Forall (fun c => name_char c = true) (c :: name)).
  { constructor; [|done]. unfold name_char, name_start, isalnum in *. destruct (isalpha c), (isdigit c), (c =? 36), (c =? 95); done. }
  destruct (ident_loop_ok C (n :: rest) name fuel c ep k [] Hcn Hl) as (ep1 & k1 & E1 & Hl1 & Hk1);
    [cbn; lia|done|].
  unfold EjLex.lex_ident. step_by E1.
  assert (Hnn : no_nul (c :: name)).
  { eapply Forall_impl; [|exact Hcn]. intros x Hx%name_char_range. lia. }
  assert (Hserv : bq_servstr (tokbuf (input ep1)) = Some (c :: name)).
  { destruct Hl1 as (Hat & _). destruct (at_ref _ _ _ _ Hat) as [[_ ?]|[_ ->]]; [done|].
    by apply cstr_no_nul. }
  assert (Htok : token_str ep1 = Some (c :: name)).
  { rewrite (live_token _ _ _ _ _ Hl1). by apply cstr_no_nul. }
  unfold mbind at 1, LM_bind at 1. cbn [get]. unfold mbind at 1, LM_bind at 1, lift at 1.
  rewrite Hserv. cbn [mbind option_bind first_char].
  assert (negb (isalpha c) && negb (c =? 36) && negb (c =? 95) = false) as ->.
  { unfold name_start in Hc. destruct (isalpha c), (c =? 36), (c =? 95); done. }
  assert (Eg : get_token ep1 = Some (c :: name, ep1)) by (unfold get_token; by rewrite Htok).
  step_by Eg. unfold name_tid.
  destruct (if state =? STATE_STMT then keyword (c :: name) else None) as [kw|].
  - replace ((kw =? TOK_RETURN) && ((32 =? 59) || (32 =? 40))) with false by (symmetry; apply andb_false_r).
    eexists _, _. split; [done|]. exact Hl1.
  - destruct fuel as [|[|fuel]]; [lia|lia|]. 
    destruct (live_getc _ _ _ _ _ _ Hl1) as (ep2 & E2 & Hl2 & Hl2b).
    assert (0 <= n < 256) by (pose proof (live_chars _ _ _ _ _ Hl1) as Hch; by inversion Hch).
    assert (Hw : skip_white balloc brealloc (S (S fuel)) 32 ep1 = Some (n, ep2)).
    { cbn [skip_white]. replace (is_blank 32 || (32 =? 10)) with true by done.
      step_by E2. replace (n <? 0) with false by zb.
      unfold visible in Hv. destruct (is_blank n), (n =? 10); done. }
    step_by Hw.
    destruct (live_putback _ _ _ _ _ n Hl2) as (ep3 & E3 & Hl3); [lia|by right|].
    step_by E3. rewrite uwrap_small in Hl3 by lia. eexists _, _. split; [done|]. exact Hl3.
Qed.

(** ** Tokens *)

(** The tokens of the language, apart from the end of a line. *)
Inductive tok : Type :=
| KPunct (i : nat)
| KString (quote : Z) (body : list Z)
| KNumber (digits : list Z)
| KName (name : list Z).

(** The tokens without a value: how they are written, their token id and their text. *)
Definition puncts : list (list Z * Z * list Z) := [
  (str "(", TOK_LPAREN, str "("); (str ")", TOK_RPAREN, str ")");
  (str "{", TOK_LBRACE, str "{"); (str "}", TOK_RBRACE, str "}");
  (str ";", TOK_SEMI, str ";"); (str ",", TOK_COMMA, str ",");
  (str "+", TOK_EXPR, [EXPR_PLUS]); (str "++", TOK_INC_DEC, [EXPR_INC]);
  (str "-", TOK_EXPR, [EXPR_MINUS]); (str "--", TOK_INC_DEC, [EXPR_DEC]);
  (str "*", TOK_EXPR, [EXPR_MUL]); (str "%", TOK_EXPR, [EXPR_MOD]);
  (str "/", TOK_EXPR, [EXPR_DIV]);
  (str "<", TOK_EXPR, [EXPR_LESS]); (str "<=", TOK_EXPR, [EXPR_LESSEQ]);
  (str "<<", TOK_EXPR, [EXPR_LSHIFT]);
  (str ">", TOK_EXPR, [EXPR_GREATER]); (str ">=", TOK_EXPR, [EXPR_GREATEREQ]);
  (str ">>", TOK_EXPR, [EXPR_RSHIFT]);
  (str "=", TOK_ASSIGNMENT, []); (str "==", TOK_EXPR, [EXPR_EQ]);
  (str "!=", TOK_EXPR, [EXPR_NOTEQ]); (str "!", TOK_EXPR, [EXPR_BOOL_COMP]);
  (str "||", TOK_LOGICAL, [COND_OR]); (str "&&", TOK_LOGICAL, [COND_AND])
].

Definition punct (i : nat) : list Z * Z * list Z := nth i puncts ([], 0, []).

(** How a token is written. *)
Definition print (t : tok) : list Z :=
  match t with
  | KPunct i => (punct i).1.1
  | KString q body => q :: concat (map (esc q) body) ++ [q]
  | KNumber ds => ds
  | KName name => name
  end.

(** Its text, [ep->token]. *)
Definition tok_text (t : tok) : list Z :=
  match t with
  | KPunct i => (punct i).2
  | KString _ body => body
  | KNumber ds => ds
  | KName name => name
  end.

Definition tok_tid (state : Z) (t : tok) (rest : list Z) : Z :=
  match t with
  | KPunct i => (punct i).1.2
  | KString _ _ | KNumber _ => TOK_LITERAL
  | KName name => name_tid state name rest
  end.

Definition tok_valid (t : tok) : Prop :=
  match t with
  | KPunct i => (i < length puncts)%nat
  | KString q body => (q = 34 \/ q = 39) /\ Forall (fun b => 0 < b < 256) body /\ zlen body <= EJ_INC
  | KNumber ds => ds <> [] /\ Forall (fun c => isdigit c = true) ds /\ zlen ds <= EJ_INC
  | KName name => match name with
                  | [] => False
                  | c :: name => name_start c = true /\ Forall (fun c => name_char c = true) name
                  end /\ zlen name <= EJ_INC
  end.

(** *** Dispatch on the first character *)

(** One step of the analyser on a live state. *)
Ltac lex_step :=
  match goal with
  | Hl : live ?ep (?c :: ?s) ?k ?t ?C |- context [mbind _ (EjLex.inputGetc _ _) ?ep] =>
      let E := fresh "E" in let Hl' := fresh "Hl" in let ep' := fresh "ep" in
      pose proof (live_room _ _ _ _ _ Hl);
      let Hb := fresh "Hb" in destruct (live_getc _ _ _ _ _ _ Hl) as (ep' & E & Hl' & Hb); step_by E; clear E Hl
  | Hl : live ?ep ?s ?k ?t ?C |- context [mbind _ (inputPutback ?c) ?ep] =>
      let E := fresh "E" in let Hl' := fresh "Hl" in let ep' := fresh "ep" in
      destruct (live_putback _ _ _ _ _ c Hl) as (ep' & E & Hl'); [lia|right; split; [lia|assumption]|]; step_by E; clear E Hl
  | Hl : live ?ep ?s ?k ?t ?C |- context [mbind _ (EjLex.tokenAddChar _ _ _ ?c) ?ep] =>
      let E := fresh "E" in let Hl' := fresh "Hl" in let ep' := fresh "ep" in
      destruct (live_add _ _ _ _ _ c Hl) as (ep' & E & Hl'); [cbn; lia|lia|]; step_by E; clear E Hl
  end.

(** The analyser comes to the token [t] and leaves [s] to be read. *)
Definition lexes (m : LM Z) (ep : ej) (id : Z) (s text : list Z) (C : Z) : Prop :=
  exists ep' k', m ep = Some (id, ep') /\ live ep' s k' text C.

Lemma char_lexes ep s k C c id : live ep s k [] C -> 0 < C -> 0 <= c < 256 ->
  lexes (lex_char c id) ep id s [c] C.
Proof.
  intros Hl HC Hc. destruct (live_char _ _ _ _ c id Hl HC Hc) as (ep' & E & Hl').
  by exists ep', k.
Qed.

Section Operators.
Context (ep : ej) (rest : list Z) (k C : Z).
Hypothesis C_pos : 0 < C.

(** A blank follows: it is put back. *)
Lemma twice_one c0 one two : live ep (32 :: rest) k [] C -> c0 <> 32 -> 0 <= one < 256 ->
  lexes (lex_twice lw balloc brealloc c0 one two) ep TOK_EXPR (32 :: rest) [one] C.
Proof using All.
  intros Hl Hc H1. unfold lexes, lex_twice. lex_step. cbn [Z.ltb Z.compare].
  replace (32 =? c0) with false by zb. cbn [negb]. lex_step.
  by eapply char_lexes.
Qed.

Lemma twice_two c0 one two : live ep (c0 :: 32 :: rest) k [] C -> 0 <= c0 -> 0 <= two < 256 ->
  lexes (lex_twice lw balloc brealloc c0 one two) ep TOK_INC_DEC (32 :: rest) [two] C.
Proof using All.
  intros Hl Hc H2. unfold lexes, lex_twice. lex_step.
  replace (c0 <? 0) with false by zb. rewrite Z.eqb_refl. cbn [negb]. by eapply char_lexes.
Qed.

Lemma compare_plain c0 p e sh : live ep (32 :: rest) k [] C -> c0 <> 32 -> 0 <= p < 256 ->
  lexes (lex_compare lw balloc brealloc c0 p e sh) ep TOK_EXPR (32 :: rest) [p] C.
Proof using All.
  intros Hl Hc Hp. unfold lexes, lex_compare. lex_step. cbn [Z.ltb Z.compare].
  replace (32 =? c0) with false by zb. replace (32 =? 61) with false by done.
  lex_step. lex_step. eexists _, _. split; [done|]. eassumption.
Qed.

Lemma compare_eq c0 p e sh : live ep (61 :: 32 :: rest) k [] C -> c0 <> 61 -> 0 <= e < 256 ->
  lexes (lex_compare lw balloc brealloc c0 p e sh) ep TOK_EXPR (32 :: rest) [e] C.
Proof using All.
  intros Hl Hc Hp. unfold lexes, lex_compare. lex_step. cbn [Z.ltb Z.compare].
  replace (61 =? c0) with false by zb. replace (61 =? 61) with true by done.
  by eapply char_lexes.
Qed.

Lemma compare_shift c0 p e sh : live ep (c0 :: 32 :: rest) k [] C -> 0 <= c0 -> 0 <= sh < 256 ->
  lexes (lex_compare lw balloc brealloc c0 p e sh) ep TOK_EXPR (32 :: rest) [sh] C.
Proof using All.
  intros Hl Hc Hp. unfold lexes, lex_compare. lex_step.
  replace (c0 <? 0) with false by zb. rewrite Z.eqb_refl. by eapply char_lexes.
Qed.

Lemma logical_ok c0 cond : live ep (c0 :: 32 :: rest) k [] C -> 0 <= c0 -> 0 <= cond < 256 ->
  lexes (lex_logical lw balloc brealloc c0 cond) ep TOK_LOGICAL (32 :: rest) [cond] C.
Proof using All.
  intros Hl Hc Hp. unfold lexes, lex_logical. lex_step.
  replace (c0 <? 0) with false by zb. rewrite Z.eqb_refl. cbn [negb orb]. by eapply char_lexes.
Qed.
End Operators.

Lemma punct_ok state i c tail rest n ep k C :
  (i < length puncts)%nat -> (punct i).1.1 = c :: tail ->
  live ep (tail ++ 32 :: rest) k [] C -> 0 < C ->
  lexes (lex_loop (S n) state c) ep (punct i).1.2 (32 :: rest) (punct i).2 C.
Proof using All.
  intros Hi Hp Hl HC.
  do 25 (try (destruct i as [|i]; [clear Hi; vm_compute in Hp; injection Hp as <- <-; cbn [app] in Hl|])).
  26: cbn in Hi; lia.
  all: match goal with |- lexes _ _ (punct ?i).1.2 _ (punct ?i).2 _ =>
    let t := eval vm_compute in ((punct i).1.2) in change ((punct i).1.2) with t;
    let s := eval vm_compute in ((punct i).2) in change ((punct i).2) with s end.
  1-6: by eapply char_lexes.
  1,3: by eapply twice_one.
  1,2: by eapply twice_two.
  1,2: by eapply char_lexes.
  2,5: by eapply compare_plain.
  2,4: by eapply compare_eq.
  2,3: by eapply compare_shift.
  6,7: by eapply logical_ok.
  all: unfold lexes; cbn [EjLex.lex_loop Z.eqb Pos.eqb is_blank orb].
  all: lex_step; cbn [Z.ltb Z.compare Z.eqb Pos.eqb negb andb].
  - lex_step. by eapply char_lexes.
  - lex_step. by eexists _, _.
  - by eapply char_lexes.
  - by eapply char_lexes.
  - lex_step. by eapply char_lexes.
Qed.

(** Unfold the switch for a character that is none of the special ones. *)
Lemma loop_number state n c : isdigit c = true ->
  lex_loop (S n) state c = lex_number (S n) c.
Proof.
  intros Hc. cbn [EjLex.lex_loop]. rewrite Hc. unfold is_blank, isdigit in *.
  repeat match goal with |- context [c =? ?x] => replace (c =? x) with false by zb end.
  done.
Qed.

Lemma loop_ident state n c : name_start c = true ->
  lex_loop (S n) state c = lex_ident (S n) state c.
Proof.
  intros Hc. unfold name_start, isalpha, isupper, islower in Hc.
  cbn [EjLex.lex_loop]. unfold is_blank, isdigit.
  assert (Hr : c = 36 \/ 65 <= c <= 90 \/ c = 95 \/ 97 <= c <= 122) by lia.
  repeat match goal with |- context [c =? ?x] => replace (c =? x) with false by zb end.
  replace ((48 <=? c) && (c <=? 57)) with false by lia. done.
Qed.

Lemma loop_string state n c : (c = 34 \/ c = 39) ->
  lex_loop (S n) state c =
    mbind (M := LM (Q := Q)) (fun c0 => if c0 <? 0 then lex_error lw balloc brealloc (str "Syntax Error")
                               else lex_string (S n) c c0) inputGetc.
Proof. by intros [-> | ->]. Qed.

(** What is left to be read after a token and a blank: a name takes the blank. *)
Definition after (t : tok) (rest : list Z) : list Z :=
  match t with KName _ => rest | _ => 32 :: rest end.

(** The characters behind a name must show where it ends. *)
Definition followed (t : tok) (rest : list Z) : Prop :=
  match t with KName _ => exists n r, rest = n :: r /\ visible n = true | _ => True end.

Lemma token_ok state t c tail rest n ep k C :
  tok_valid t -> print t = c :: tail -> followed t rest ->
  live ep (tail ++ 32 :: rest) k [] C -> EJ_INC <= C -> (length tail < n)%nat ->
  lexes (lex_loop (S n) state c) ep (tok_tid state t rest) (after t rest) (tok_text t) C.
Proof using All.
  unfold EJ_INC. intros Hv Hp Hfo Hl HC Hn. destruct t as [i|q body|ds|name]; cbn [tok_tid after tok_text].
  - eapply punct_ok; [exact Hv|exact Hp|exact Hl|lia].
  - destruct Hv as (Hq & Hb & Hlen). injection Hp as <- <-. unfold EJ_INC in Hlen.
    rewrite loop_string by done. unfold lexes. rewrite <- app_assoc in Hl. cbn [app] in Hl.
    destruct (concat (map (esc q) body) ++ q :: 32 :: rest) as [|c r] eqn:Er; [by destruct (concat _)|].
    assert (0 <= c < 256) by (pose proof (live_chars _ _ _ _ _ Hl) as Hch; by inversion Hch).
    lex_step. replace (c <? 0) with false by zb.
    apply (string_ok C rest q body Hq (S n) c r ep0 (k + 1) []); [done|done|done|cbn; lia|].
    assert (length body <= length (concat (map (esc q) body)))%nat.
    { clear. induction body as [|b body IH]; cbn; [lia|]. rewrite length_app.
      unfold esc at 1. destruct (_ || _); cbn; lia. }
    rewrite length_app in Hn. lia.
  - destruct Hv as (_ & Hd & Hlen). cbn in Hp. subst ds. inversion Hd as [|x l Hc Hds]; subst.
    unfold EJ_INC in Hlen. cbn in Hlen. rewrite loop_number by done.
    destruct (number_ok C rest tail (S n) c ep k [] Hc Hds Hl) as (ep' & k' & E & Hl');
      [cbn; lia|lia|]. by exists ep', k'.
  - destruct Hv as (Hv & Hlen). cbn in Hp. subst name. destruct Hv as [Hc Hds].
    destruct Hfo as (m & r & -> & Hvis). unfold EJ_INC in Hlen. cbn in Hlen.
    rewrite loop_ident by done.
    eapply ident_ok; try done; try lia.
Qed.

(** ** The analyser from the outside *)

(** Between two calls: the script still to be read is [s], no token is put back. *)
Definition ready (ep : ej) (s : list Z) : Prop :=
  (exists k, stand (input ep) s k) /\ EJ_INC <= bq_cap (tokbuf (input ep)) /\ putBackTokenId (input ep) = 0 /\
  tracks ep.

Lemma live_ready ep s k t C : live ep s k t C -> EJ_INC <= C -> ready ep s.
Proof. intros (Hat & _ & <- & Hp & Htr) HC. split_and!; [exists k; by eapply at_stand|done..]. Qed.

(** The token buffer as [getLexicalToken] clears it. *)
Definition flushed (ep : ej) : ej :=
  let ep := ep <| tid := -1 |> in
  let ep := ep <| token := TokStatic |> in
  ep <| input := (input ep) <| tokbuf := bq_flush (tokbuf (input ep)) |> |>.

Lemma flushed_ok ep s k : stand (input ep) s k ->
  at_ (flushed ep) s k [] /\ bq_cap (tokbuf (input (flushed ep))) = bq_cap (tokbuf (input ep)) /\
  putBackTokenId (input (flushed ep)) = putBackTokenId (input ep).
Proof.
  intros [Hs Ht Hf Hl Hb Hc Hr].
  destruct (bq_flush_ok _ Ht) as (F1 & F2 & F3 & F4 & F5).
  destruct ep as [[tq sq pb pbi ln ll lno lc] er tk td]; cbn in *.
  split_and!; try done. split; cbn; try done. by left.
Qed.

Lemma flushed_tracks ep s k : stand (input ep) s k -> tracks ep -> tracks (flushed ep).
Proof.
  intros Hat. destruct (flushed_ok _ _ _ Hat) as (_ & Hc & _). revert Hc. unfold tracks.
  destruct T; [|done]. intros ->. by destruct ep as [[] ? ? ?].
Qed.

(** A call on a script whose first character is [c]. *)
Lemma getToken_starts ep c s id text rest state :
  ready ep (c :: s) ->
  (forall ep' k C fuel, tracks ep' -> at_ ep' s k [] -> 1 <= k -> (c <> 10 -> lined ep') ->
     bq_cap (tokbuf (input ep')) = C -> putBackTokenId (input ep') = 0 -> EJ_INC <= C ->
     fuel = S (S (length s)) -> lexes (lex_loop fuel state c) ep' id rest text C) ->
  exists ep', ejLexGetToken state ep = Some (id, ep') /\ ready ep' rest /\
    token_str ep' = cstr (text ++ [0]).
Proof using All.
  intros [(k & Hat) (HC & Hp & Htr)] Hlex.
  destruct (flushed_ok _ _ _ Hat) as (Hat1 & Hc1 & Hp1).
  destruct (getc_cons _ _ _ _ _ Hat1) as (ep2 & E2 & Hat2 & (Ht2 & _ & Hp2 & _) & Hl2).
  destruct (getc_tracks _ _ _ _ _ _ Hat1 (flushed_tracks _ _ _ Hat Htr) E2) as [Htr2 _].
  destruct (Hlex ep2 (k + 1) (bq_cap (tokbuf (input ep))) (S (S (length s)))) as (ep3 & k3 & E3 & Hl3);
    auto; try congruence.
  { pose proof (st_room _ _ _ Hat). lia. }
  exists (ep3 <| tid := id |>).
  assert (Eg : getLexicalToken lw balloc brealloc state ep = Some (id, ep3)).
  { unfold getLexicalToken. unfold mbind at 1, LM_bind at 1. cbn [set_tid].
    unfold mbind at 1, LM_bind at 1. cbn [set_token]. unfold mbind at 1, LM_bind at 1. cbn [upd].
    fold (flushed ep). unfold mbind at 1, LM_bind at 1. cbn [get].
    rewrite Hp1, Hp. cbn [Z.ltb Z.compare]. step_by E2.
    assert (0 <= c < 256) by (pose proof (st_chars _ _ _ Hat) as Hch; by inversion Hch).
    replace (c <? 0) with false by zb. unfold mbind at 1, LM_bind at 1. cbn [get].
    rewrite bq_len_ok by apply Hat2. rewrite (at_bytes _ _ _ _ Hat2), Nat2Z.id. exact E3. }
  unfold EjLex.ejLexGetToken. step_by Eg. split_and!; [done| |].
  - pose proof (live_ready _ _ _ _ _ Hl3 HC) as Hr.
    destruct Hr as [(k4 & ?) (? & ? & ?)]. destruct ep3; cbn in *. split; [by exists k4|done].
  - rewrite <- (live_token _ _ _ _ _ Hl3). by destruct ep3.
Qed.

Lemma print_start t : tok_valid t -> exists c tail, print t = c :: tail /\ visible c = true /\ is_blank c = false /\ 0 <= c < 256.
Proof.
  destruct t as [i|q body|ds|name]; cbn [print tok_valid].
  - intros Hi. do 25 (try (destruct i as [|i]; [vm_compute; eexists _, _; split; [done|]; split_and!; done|])).
    cbn in Hi. lia.
  - intros ([-> | ->] & _); eexists _, _; (split; [done|]); split_and!; done.
  - intros (Hne & Hd & _). destruct ds as [|c ds]; [done|]. inversion Hd; subst.
    exists c, ds. split; [done|]. unfold isdigit, visible, is_blank in *. split_and!; lia.
  - intros (Hv & _). destruct name as [|c name]; [done|]. destruct Hv as [Hc _].
    exists c, name. split; [done|].
    unfold name_start, isalpha, isupper, islower, visible, is_blank in *. split_and!; lia.
Qed.

(** One token, perhaps behind a blank. *)
Lemma getToken_ok state t rest ep sp :
  tok_valid t -> followed t rest -> (sp = [] \/ sp = [32]) ->
  ready ep (sp ++ print t ++ 32 :: rest) ->
  exists ep', ejLexGetToken state ep = Some (tok_tid state t rest, ep') /\
    ready ep' (after t rest) /\ token_str ep' = cstr (tok_text t ++ [0]).
Proof using All.
  intros Hv Hfo Hsp Hr. destruct (print_start t Hv) as (c & tail & Ep & Hvis & Hbl & Hc).
  rewrite Ep in Hr. destruct Hsp as [-> | ->]; cbn [app] in Hr.
  - eapply getToken_starts; [exact Hr|].
    intros ep' k C fuel Htr Hat Hk Hl HC Hp HCl ->. eapply token_ok; try done.
    + split_and!; try done. apply Hl. intros ->. done.
    + rewrite length_app. lia.
  - eapply getToken_starts; [exact Hr|].
    intros ep' k C fuel Htr Hat Hk Hl HC Hp HCl ->. 
    assert (Hlive : live ep' (c :: tail ++ 32 :: rest) k [] C) by (split_and!; auto; by apply Hl).
    unfold lexes. cbn [EjLex.lex_loop Z.eqb]. change (is_blank 32) with true. cbn iota.
    destruct (live_getc _ _ _ _ _ _ Hlive) as (ep1 & E1 & Hl1 & Hl1b).
    assert (Es : skip_blanks balloc brealloc (S (S (length (c :: tail ++ 32 :: rest)))) ep' = Some (c, ep1)).
    { cbn [skip_blanks]. step_by E1. by rewrite Hbl. }
    step_by Es. eapply token_ok; try done. cbn. rewrite length_app. cbn. lia.
Qed.

(** At the end of the script. *)
Lemma getToken_eof state ep sp : (sp = [] \/ sp = [32]) -> ready ep sp ->
  exists ep', ejLexGetToken state ep = Some (TOK_EOF, ep') /\ ready ep' [] /\ token_str ep' = Some [].
Proof using All.
  intros [-> | ->] Hr.
  - destruct Hr as [(k & Hat) (HC & Hp & Htr)].
    destruct (flushed_ok _ _ _ Hat) as (Hat1 & Hc1 & Hp1). pose proof (flushed_tracks _ _ _ Hat Htr) as Htr1.
    exists ((flushed ep) <| tid := TOK_EOF |>).
    assert (Eg : getLexicalToken lw balloc brealloc state ep = Some (TOK_EOF, flushed ep)).
    { unfold getLexicalToken. unfold mbind at 1, LM_bind at 1. cbn [set_tid].
      unfold mbind at 1, LM_bind at 1. cbn [set_token]. unfold mbind at 1, LM_bind at 1. cbn [upd].
      fold (flushed ep). unfold mbind at 1, LM_bind at 1. cbn [get].
      rewrite Hp1, Hp. cbn [Z.ltb Z.compare]. step_by (getc_eof _ _ _ Hat1). done. }
    unfold EjLex.ejLexGetToken. step_by Eg. rewrite <- Hc1 in HC. rewrite <- Hp1 in Hp.
    clear Eg Hc1 Hp1. split_and!; [done| |by destruct ep as [[] ? ? ?]].
    apply at_stand in Hat1. destruct (flushed ep); cbn in *. split; [by exists k|]. split_and!; done.
  - destruct (getToken_starts ep 32 [] TOK_EOF [] [] state Hr) as (ep' & E & Hr' & Ht);
      [|by exists ep'].
    intros ep' k C fuel Htr Hat Hk Hl HC Hp HCl ->.
    assert (Hlive : live ep' [] k [] C) by (split_and!; auto; by apply Hl).
    unfold lexes. cbn [EjLex.lex_loop Z.eqb]. change (is_blank 32) with true. cbn iota.
    assert (Es : skip_blanks balloc brealloc (S (S (@length Z []))) ep' = Some (-1, ep')).
    { cbn [skip_blanks]. step_by (live_eof _ _ _ _ Hlive). done. }
    step_by Es. cbn. by exists ep', k.
Qed.

(** A script with a blank behind every token. *)
Definition print_all (ts : list tok) : list Z := concat (map (fun t => print t ++ [32]) ts).

(** Valid tokens; the last one is not a name. *)
Fixpoint script_valid (ts : list tok) : Prop :=
  match ts with
  | [] => True
  | t :: ts => tok_valid t /\ match t, ts with KName _, [] => False | _, _ => True end /\ script_valid ts
  end.

Fixpoint expected (state : Z) (ts : list tok) : list (Z * list Z) :=
  match ts with
  | [] => [(TOK_EOF, [])]
  | t :: ts => (tok_tid state t (print_all ts), tok_text t) :: expected state ts
  end.

(** [n] calls: the token ids and the texts. *)
Fixpoint lex_all (state : Z) (n : nat) (ep : ej) : option (list (Z * list Z)) :=
  match n with
  | O => Some []
  | S n =>
      '(t, ep) ← ejLexGetToken state ep;
      s ← token_str ep;
      r ← lex_all state n ep;
      Some ((t, s) :: r)
  end.

Lemma tok_text_string t : tok_valid t -> cstr (tok_text t ++ [0]) = Some (tok_text t).
Proof.
  intros Hv. apply cstr_no_nul. destruct t as [i|q body|ds|name]; cbn [tok_text tok_valid] in *.
  - do 25 (try (destruct i as [|i]; [vm_compute; repeat constructor; discriminate|])). cbn in Hv. lia.
  - destruct Hv as (_ & Hb & _). eapply Forall_impl; [|exact Hb]. cbn. lia.
  - destruct Hv as (_ & Hb & _). eapply Forall_impl; [|exact Hb]. unfold isdigit. cbn. lia.
  - destruct Hv as (Hv & _). destruct name as [|c name]; [done|]. destruct Hv as [Hc Hn].
    constructor; [unfold name_start, isalpha, isupper, islower in Hc; lia|].
    eapply Forall_impl; [|exact Hn]. intros x Hx%name_char_range. lia.
Qed.

Lemma lex_all_S state n ep : lex_all state (S n) ep =
  ('(t, ep) ← ejLexGetToken state ep; s ← token_str ep; r ← lex_all state n ep; Some ((t, s) :: r)).
Proof. done. Qed.

Lemma lex_all_ok state ts : script_valid ts -> forall ep sp, (sp = [] \/ sp = [32]) ->
  ready ep (sp ++ print_all ts) ->
  lex_all state (S (length ts)) ep = Some (expected state ts).
Proof using All.
  induction ts as [|t ts IH]; intros Hv ep sp Hsp Hr.
  - cbn [print_all map concat] in Hr. rewrite app_nil_r in Hr.
    destruct (getToken_eof state ep sp Hsp Hr) as (ep' & E & _ & Et).
    cbn [length lex_all]. rewrite E. cbn. by rewrite Et.
  - destruct Hv as (Ht & Hlast & Hts).
    assert (Hfo : followed t (print_all ts)).
    { destruct t as [| | |name]; try done. destruct ts as [|t' ts]; [done|].
      destruct Hts as (Ht' & _). destruct (print_start t' Ht') as (c & tail & Ep & Hvis & _).
      unfold print_all. cbn [map concat]. rewrite Ep. by eexists _, _. }
    assert (Hr' : ready ep (sp ++ print t ++ 32 :: print_all ts)).
    { unfold print_all in Hr. cbn [map concat] in Hr. by rewrite <- app_assoc in Hr. }
    destruct (getToken_ok state t (print_all ts) ep sp Ht Hfo Hsp Hr') as (ep' & E & Hra & Et).
    rewrite tok_text_string in Et by done.
    assert (Hsp' : exists sp', (sp' = [] \/ sp' = [32]) /\ after t (print_all ts) = sp' ++ print_all ts).
    { destruct t; cbn [after]; (exists [32]; by auto) || (exists []; by auto). }
    destruct Hsp' as (sp' & Hsp' & Ea). rewrite Ea in Hra.
    cbn [length]. rewrite lex_all_S, E. cbn [mbind option_bind]. rewrite Et. cbn [mbind option_bind].
    by rewrite (IH Hts ep' sp' Hsp' Hra).
Qed.

End Track.
Arguments tracks : clear implicits.
Arguments behind : clear implicits.
Arguments live : clear implicits.
Arguments ready : clear implicits.

Lemma ready_untracked T ep s : ready T ep s -> ready None ep s.
Proof. by intros (? & ? & ? & _). Qed.

(** [ejLexOpenScript] leaves the analyser ready. *)
Definition ep0 (ip : ejinput) : ej := mkEj ip None TokStatic 0.

Definition opened (s : list Z) (ip : ejinput) : track :=
  mkTrack s (bq_cap (script ip)) (bq_cap (tokbuf ip)) false.

Lemma open_ready s ip :
  ejLexOpenScript s = Some (Some ip) -> Forall (fun c => 0 <= c < 256) s -> bq_bytes (script ip) = s ->
  ready (Some (opened s ip)) (ep0 ip) s.
Proof.
  unfold ejLexOpenScript. intros E Hs Hb.
  destruct (bq_open_ok EJ_INC) as (r1 & E1 & H1); [unfold EJ_INC; lia|].
  rewrite E1 in E. cbn in E. destruct r1 as [tq|]; [|done].
  destruct (bq_open_ok EJ_SCRIPT_INC) as (r2 & E2 & H2); [unfold EJ_SCRIPT_INC; lia|].
  rewrite E2 in E. cbn in E. destruct r2 as [sq|]; [|done].
  destruct (H1 tq eq_refl) as (T1 & T2 & T3 & T4). destruct (H2 sq eq_refl) as (S1 & S2 & S3 & S4).
  destruct (bq_putstr_ok sq s S1) as (n & sq' & Ep & P1 & P2 & P3 & _ & P4).
  rewrite Ep in E. cbn in E. injection E as <-. cbn in Hb.
  assert (Ht : bq_text sq' s).
  { rewrite <- Hb. apply bq_text_flat; [done|]. by apply P4. }
  split_and!; [|done|done|done]. exists 0. split; cbn; try done.
  rewrite <- Hb, Z.add_0_r. split; [done|]. by apply bq_fits.
Qed.
(** ** Every call returns

    The text of an error message exists, so reporting an error never fails. *)

Definition plain (s : list Z) : bool := forallb (fun c => negb (c =? 0) && negb (c =? 37)) s.

Lemma plain_ok s : plain s = true -> Forall (fun c => c <> 0 /\ c <> 37) s.
Proof.
  unfold plain. rewrite forallb_forall, Forall_forall. intros Hs c Hc%Hs. lia.
Qed.

Lemma text_plain lw' cap fmt args : plain fmt = true -> text lw' cap fmt args = Some (fmt, []).
Proof.
  intros Hp%plain_ok. unfold text, text_after, format.
  replace (S (S (length fmt))) with (length fmt + 2)%nat by lia.
  pose proof (format_plain lw' cap fmt Hp 2 [] [] args) as E. rewrite app_nil_r in E. by rewrite E.
Qed.

Lemma text_error cap msg m z l t :
  cstr msg = Some m -> cstr l = Some t -> - 2 ^ 31 <= z < 2 ^ 31 ->
  exists r, text lw cap (str "%s" ++ [10] ++ str " At line %d, line => " ++ [10; 10] ++ str "%s" ++ [10])
              [AStr (Some msg); AInt z; AStr (Some l)] = Some (r, []).
Proof using lw_ok.
  intros Hm Ht Hz. unfold text, text_after, format.
  set (p1 := [10] ++ str " At line "). set (p2 := str ", line => " ++ [10; 10]).
  change (str "%s" ++ [10] ++ str " At line %d, line => " ++ [10; 10] ++ str "%s" ++ [10])
    with (37 :: 115 :: p1 ++ 37 :: 100 :: p2 ++ 37 :: 115 :: [10] ++ []).
  change (S (S (length (37 :: 115 :: p1 ++ 37 :: 100 :: p2 ++ 37 :: 115 :: [10] ++ [])))) with 31%nat.
  rewrite (format_s_cut lw cap lw_ok 28 _ _ _ _ _ Hm).
  change 30%nat with (length p1 + 20)%nat. rewrite (format_plain lw cap p1) by by apply plain_ok.
  destruct (format_d lw cap lw_ok 17 ([] ++ take (Z.to_nat (Z.min (zlen m) (2 ^ 32 - 1))) m ++ p1) z
    (p2 ++ 37 :: 115 :: [10] ++ []) [AStr (Some l)] Hz) as (d & _ & E).
  rewrite <- app_assoc. change 20%nat with (S (S (S 17))). rewrite E.
  change (S (S 17)) with (length p2 + 7)%nat. rewrite (format_plain lw cap p2) by by apply plain_ok.
  rewrite (format_s_cut lw cap lw_ok 4 _ _ _ _ _ Ht).
  change 6%nat with (length [10] + 5)%nat. rewrite (format_plain lw cap [10]) by by apply plain_ok.
  eexists. apply format_end.
Qed.

Lemma ejError_ok fmt args ep t counts s k tk :
  text lw (capacity E_MAX_ERROR) fmt args = Some (t, counts) -> at_ ep s k tk -> lined ep ->
  exists e, ejError lw balloc brealloc fmt args ep = Some (tt, ep <| error := e |>).
Proof using All.
  intros Ht Hat Hl.
  assert (Hb : forall n, 0 < n <= 2 ^ 30 -> exists b, balloc n = Some b /\ zlen b = n)
    by (intros; apply balloc_ok; lia).
  assert (Hr : forall b n, zlen b <= n <= 2 ^ 30 ->
    exists b', brealloc b n = Some b' /\ zlen b' = n /\ take (length b) b' = b)
    by (intros; apply brealloc_ok; lia).
  destruct (fmtAlloc_spec balloc brealloc Hb Hr lw E_MAX_ERROR fmt args t counts) as (msg & E1 & C1);
    [unfold E_MAX_ERROR; lia|done|unfold E_MAX_ERROR, STR_INC; lia|].
  destruct (at_line _ _ _ _ Hat) as (_ & Hz & Hline). unfold lined in Hl.
  destruct (line (input ep)) as [l|] eqn:El; [|done]. destruct Hline as (_ & _ & [lt Hlt]).
  destruct (text_error (capacity E_MAX_ERROR) msg _ (lineNumber (input ep)) l lt C1 Hlt Hz) as (r & Er).
  destruct (fmtAlloc_spec balloc brealloc Hb Hr lw E_MAX_ERROR _ _ _ _ ltac:(unfold E_MAX_ERROR; lia) Er)
    as (e & E2 & _); [unfold E_MAX_ERROR, STR_INC; lia|].
  exists (Some e). unfold ejError, fmtValloc. rewrite E1. cbn [mbind option_bind]. rewrite El, E2. done.
Qed.

(** The token buffer holds a string. *)
Definition served (q : Q) : Prop := exists s, bq_servstr q = Some s /\ no_nul s.

(** A state inside a token, with [n] characters to be read and room to put [k] back. *)
Definition fine (ep : ej) (n : nat) (k : Z) : Prop :=
  (exists s t, at_ ep s k t /\ length s = n) /\ lined ep /\
  served (tokbuf (input ep)) /\ putBackTokenId (input ep) <= 0.

(** [m] returns from every such state, in one that satisfies [P]. *)
Definition runs {A} (m : LM (Q := Q) A) (n : nat) (k : Z) (P : A -> nat -> Z -> Prop) : Prop :=
  forall ep, fine ep n k -> exists a ep' n' k', m ep = Some (a, ep') /\ fine ep' n' k' /\ P a n' k'.

Lemma lexruns_ret {A} (a : A) n k (P : A -> nat -> Z -> Prop) : P a n k -> runs (mret a) n k P.
Proof. intros HP ep Hf. by exists a, ep, n, k. Qed.

Lemma lexruns_bind {A B} (m : LM A) (f : A -> LM B) n k P :
  runs m n k (fun a n' k' => runs (f a) n' k' P) -> runs (mbind f m) n k P.
Proof.
  intros Hm ep Hf. destruct (Hm ep Hf) as (a & ep1 & n1 & k1 & E & Hf1 & HP).
  destruct (HP ep1 Hf1) as (b & ep2 & n2 & k2 & E2 & Hf2 & HP2).
  exists b, ep2, n2, k2. split_and!; try done. by rewrite (bind_step _ _ _ _ _ E).
Qed.

Lemma lexruns_mono {A} (m : LM A) n k (P P' : A -> nat -> Z -> Prop) :
  runs m n k P -> (forall a n' k', P a n' k' -> P' a n' k') -> runs m n k P'.
Proof.
  intros Hm HP ep Hf. destruct (Hm ep Hf) as (a & ep1 & n1 & k1 & E & Hf1 & H1).
  exists a, ep1, n1, k1. auto.
Qed.

Lemma runs_getc n k (P : Z -> nat -> Z -> Prop) :
  (n = O -> P (-1) O k) -> (forall c n', n = S n' -> 0 <= c < 256 -> P c n' (k + 1)) ->
  runs inputGetc n k P.
Proof using All.
  intros P0 PS ep ((s & t & Hat & Hn) & Hl & Hs & Hp). destruct s as [|c s]; cbn in Hn; subst n.
  - exists (-1), ep, O, k. split_and!; [by eapply getc_eof| |auto]. by split; [exists [], t|].
  - destruct (getc_cons _ _ _ _ _ Hat) as (ep' & E & Hat' & (Ht & _ & Hp' & _) & Hl').
    assert (0 <= c < 256) by (pose proof (at_chars _ _ _ _ Hat) as Hch; by inversion Hch).
    exists c, ep', (length s), (k + 1). split_and!; [done| |auto].
    split_and!; [by exists s, t|auto|by rewrite Ht|by rewrite Hp'].
Qed.

Lemma runs_putback c n k (P : unit -> nat -> Z -> Prop) :
  1 <= k -> P tt (S n) (k - 1) -> runs (inputPutback c) n k P.
Proof.
  intros Hk HP ep ((s & t & Hat & Hn) & Hl & Hs & Hp).
  destruct (putback_ok _ _ _ _ c Hat Hk Hl) as (ep' & E & Hat' & (Ht & _ & Hp' & _) & Hl').
  exists tt, ep', (S n), (k - 1). split_and!; [done| |done].
  split_and!; [by exists (u8 c :: s), t; subst|done|by rewrite Ht|by rewrite Hp'].
Qed.

Lemma runs_error fmt args n k t counts (P : unit -> nat -> Z -> Prop) :
  text lw (capacity E_MAX_ERROR) fmt args = Some (t, counts) -> P tt n k ->
  runs (ejError lw balloc brealloc fmt args) n k P.
Proof using All.
  intros Ht HP ep ((s & tk & Hat & Hn) & Hl & Hs & Hp).
  destruct (ejError_ok _ _ _ _ _ _ _ _ Ht Hat Hl) as (e & E).
  exists tt, (ep <| error := e |>), n, k. split_and!; try done.
  destruct Hat, ep; cbn in *. split_and!; try done. exists s, tk. by split.
Qed.

Lemma runs_lex_error msg n k (P : Z -> nat -> Z -> Prop) :
  plain msg = true -> P TOK_ERR n k ->
  runs (lex_error lw balloc brealloc msg) n k P.
Proof using All.
  intros Hm HP. apply lexruns_bind. eapply runs_error; [by apply text_plain|]. by apply lexruns_ret.
Qed.

Lemma runs_add c n k (P : Z -> nat -> Z -> Prop) :
  P 0 n k -> P (-1) n k -> runs (tokenAddChar c) n k P.
Proof using All.
  intros P0 P1 ep ((s & t & [Hs Ht Hf Hl Hb Hc Hr Htok Href] & Hn) & Hlined & Hss & Hp).
  destruct (bq_putc_ok (tokbuf (input ep)) (u8 c) Ht) as (r & q' & Eq & Hq' & Hqf & Hqr & _).
  unfold EjLex.tokenAddChar. unfold mbind at 1, LM_bind at 1. cbn [get].
  unfold mbind at 1, LM_bind at 1, lift at 1. rewrite Eq. cbn [mbind option_bind].
  unfold mbind at 1, LM_bind at 1. cbn [upd].
  destruct ep as [[tq sq pb pbi ln ll lno lc] er tk td]; cbn in *.
  destruct Hqr as [[-> Hqb]|[-> ->]]; cbn [Z.ltb Z.compare].
  - destruct (bq_addnull_ok q' Hq') as (Hn1 & Hn2 & Hn3 & Hn4). destruct (Hn4 (Hqf Hf)) as [Hn5 Hn6].
    exists 0. eexists _, n, k. split; [done|]. split; [|done].
    split_and!; cbn; try done; [|by destruct (cstr_nul (bq_bytes q') []) as [st Hst]; exists st; rewrite Hn6; split; [|by apply cstr_sound in Hst as [? _]]].
    exists s, (bq_bytes q'). split; [|done]. split; cbn; try done. by right.
  - set (ep1 := mkEj _ er tk td).
    assert (Hat1 : at_ ep1 s k t) by (by split).
    destruct (ejError_ok (str "Token too big") [] ep1 _ _ _ _ _
      (text_plain _ _ (str "Token too big") _ eq_refl) Hat1 Hlined) as (e & E).
    exists (-1), (ep1 <| error := e |>), n, k. split_and!; [by step_by E| |done].
    split_and!; try done. exists s, t. split; [|done]. by split.
Qed.

(** Apply the rules to a computation of the analyser. *)
Ltac run :=
  repeat first
    [ lazymatch goal with
      | |- runs (mbind _ _) _ _ _ => apply lexruns_bind
      | |- runs (EjLex.inputGetc _ _) _ _ _ => apply runs_getc; [intros ?|intros ? ? ? ?]
      | |- runs (inputPutback _) _ _ _ => apply runs_putback; [lia|]
      | |- runs (EjLex.lex_error _ _ _ _) _ _ _ => apply runs_lex_error; [done|]
      | |- runs (EjLex.tokenAddChar _ _ _ _) _ _ _ => apply runs_add
      | |- runs (mret _) _ _ _ => apply lexruns_ret
      | |- runs (if ?b then _ else _) _ _ _ => destruct b eqn:?
      | |- runs (match ?o with Some _ => _ | None => _ end) _ _ _ => destruct o eqn:?
      | |- runs ((fun _ => _) _) _ _ _ => cbv beta
      end
    | progress cbv beta zeta iota ].

Lemma charConvert_runs base m : forall v n k, 1 <= k ->
  runs (charConvert_loop balloc brealloc m base v) n k (fun _ n' k' => (n' <= n)%nat /\ 1 <= k').
Proof using All.
  induction m as [|m IH]; intros v n k Hk; cbn [charConvert_loop]; run; try lia.
  eapply lexruns_mono; [apply IH; lia|]. cbn. lia.
Qed.

Lemma escape_runs n k : 1 <= k ->
  runs lex_escape n k (fun _ n' k' => (n' <= n)%nat /\ 1 <= k').
Proof using All.
  intros Hk. unfold EjLex.lex_escape. unfold charConvert. run; try lia.
  all: try (by subst; unfold isdigit in *; lia).
  all: try (eapply runs_error; [by apply text_plain|]; run; lia).
  all: try (eapply lexruns_mono; [apply charConvert_runs; lia|]; cbn; intros ? ? ? [? ?]; run; lia).
  all: eapply lexruns_mono; [apply charConvert_runs; lia|]; cbn; intros ? ? ? [? ?]; run.
  all: eapply lexruns_mono; [apply charConvert_runs; lia|]; cbn; intros ? ? ? [? ?]; run; lia.
Qed.

Lemma string_runs q fuel : forall c n k, (n < fuel)%nat -> 1 <= k ->
  runs (lex_string fuel q c) n k (fun _ n' k' => 1 <= k').
Proof using All.
  induction fuel as [|fuel IH]; intros c n k Hf Hk; [lia|]. cbn [EjLex.lex_string].
  assert (Hnext : forall c n' k', (n' <= n)%nat -> 1 <= k' ->
    runs (mbind (M := LM) (fun r => if r <? 0 then mret TOK_ERR else
            c ← inputGetc;
            if c <? 0 then lex_error lw balloc brealloc (str "Unmatched Quote")
            else lex_string fuel q c) (tokenAddChar c)) n' k' (fun _ n' k' => 1 <= k')).
  { intros. run; try lia. apply IH; lia. }
  destruct (c =? q); [by apply lexruns_ret|]. apply lexruns_bind. destruct (c =? 92).
  - eapply lexruns_mono; [by apply escape_runs|]. intros [c'|] n' k' [? ?]; [by apply Hnext|by apply lexruns_ret].
  - apply lexruns_ret. by apply Hnext.
Qed.

Lemma number_runs fuel : forall c n k, (n < fuel)%nat -> 1 <= k ->
  runs (lex_number fuel c) n k (fun _ n' k' => 0 <= k').
Proof using All.
  induction fuel as [|fuel IH]; intros c n k Hf Hk; [lia|]. cbn [EjLex.lex_number]. run; try lia.
  all: apply IH; lia.
Qed.

Lemma ident_loop_runs fuel : forall c n k, (n < fuel)%nat -> 1 <= k ->
  runs (ident_loop fuel c) n k (fun _ n' k' => (n' <= n)%nat /\ 1 <= k').
Proof using All.
  induction fuel as [|fuel IH]; intros c n k Hf Hk; [lia|]. cbn [EjLex.ident_loop].
  run; try lia.
  all: eapply lexruns_mono; [apply IH; lia|]; cbn; lia.
Qed.

Lemma skip_white_runs fuel : forall c n k, (n < fuel)%nat -> 1 <= k ->
  runs (skip_white balloc brealloc fuel c) n k (fun _ n' k' => (n' <= n)%nat /\ 1 <= k').
Proof using All.
  induction fuel as [|fuel IH]; intros c n k Hf Hk; [lia|]. cbn [skip_white]. run; try lia.
  all: eapply lexruns_mono; [apply IH; lia|]; cbn; lia.
Qed.

(** Blanks are passed, or the script is over. *)
Lemma skip_blanks_runs fuel : forall n k, (n < fuel)%nat -> 1 <= k ->
  runs (skip_blanks balloc brealloc fuel) n k (fun c n' k' => ((n' < n)%nat \/ c = -1) /\ 1 <= k').
Proof using All.
  induction fuel as [|fuel IH]; intros n k Hf Hk; [lia|]. cbn [skip_blanks]. run; try done; try lia.
  all: eapply lexruns_mono; [apply IH; lia|]; cbn; intros ? ? ? [? ?]; lia.
Qed.

Lemma comment_runs style fuel : forall n k, (n < fuel)%nat -> 1 <= k ->
  runs (eat_comment lw balloc brealloc fuel style) n k (fun _ n' k' => (n' <= n)%nat /\ 1 <= k').
Proof using All.
  induction fuel as [|fuel IH]; intros n k Hf Hk; [lia|]. cbn [eat_comment]. run; try lia.
  all: try (eapply runs_error; [by apply text_plain|]; run; lia).
  all: try lia.
  all: eapply lexruns_mono; [apply IH; lia|]; cbn; intros ? ? ? [? ?]; lia.
Qed.

(** The string at the start of the token buffer, and [ep->token]. *)
Lemma runs_servstr {A} (f : list Z -> LM A) n k P :
  (forall s, no_nul s -> runs (f s) n k P) ->
  runs (mbind (M := LM) (fun ip => mbind (M := LM) f (lift (bq_servstr (tokbuf ip)))) get) n k P.
Proof.
  intros Hf ep Hfi. destruct (Hfi) as (_ & _ & (s & Hs & Hn) & _).
  destruct (Hf s Hn ep Hfi) as (a & ep' & n' & k' & E & Hfi' & HP).
  exists a, ep', n', k'. split_and!; try done. unfold mbind at 1, LM_bind at 1. cbn [get].
  unfold mbind at 1, LM_bind at 1, lift at 1. by rewrite Hs.
Qed.

Lemma runs_get_token n k (P : list Z -> nat -> Z -> Prop) :
  (forall s, P s n k) -> runs get_token n k P.
Proof.
  intros HP ep Hfi. destruct (Hfi) as (_ & _ & (s & Hs & Hn) & _).
  unfold get_token, token_str. destruct (token ep).
  - by exists [], ep, n, k.
  - rewrite Hs. by exists s, ep, n, k.
Qed.

Lemma text_identifier s : no_nul s -> exists t,
  text lw (capacity E_MAX_ERROR) (str "Invalid identifier %s") [AStr (Some (s ++ [0]))] = Some (t, []).
Proof using lw_ok.
  intros Hs. unfold text, text_after, format. set (p := str "Invalid identifier ").
  change (str "Invalid identifier %s") with (p ++ 37 :: 115 :: []).
  change (S (S (length (p ++ [37; 115])))) with (length p + 4)%nat.
  rewrite (format_plain lw _ p) by by apply plain_ok.
  rewrite (format_s_cut lw _ lw_ok 1 _ _ s) by by apply cstr_no_nul.
  eexists. apply format_end.
Qed.

Lemma ident_runs fuel state c n k : (n < fuel)%nat -> 1 <= k ->
  runs (lex_ident fuel state c) n k (fun _ n' k' => 0 <= k').
Proof using All.
  intros Hf Hk. unfold EjLex.lex_ident. apply lexruns_bind.
  eapply lexruns_mono; [by apply ident_loop_runs|]. intros c' n' k' [Hn Hk']. cbv beta.
  apply runs_servstr. intros s Hs. destruct (_ && negb (first_char s =? 95)).
  - apply lexruns_bind. destruct (text_identifier s Hs) as (t & Et).
    eapply runs_error; [exact Et|]. apply lexruns_ret. lia.
  - apply lexruns_bind, runs_get_token. intros t.
    destruct (if state =? STATE_STMT then keyword t else None) as [kw|].
    + run; lia.
    + apply lexruns_bind. eapply lexruns_mono; [apply skip_white_runs; lia|].
      cbn. intros ? ? ? [? ?]. run; lia.
Qed.

Lemma twice_runs c0 a b n k : 1 <= k ->
  runs (lex_twice lw balloc brealloc c0 a b) n k (fun _ _ k' => 0 <= k').
Proof using All. intros Hk. unfold lex_twice, EjLex.lex_char. run; lia. Qed.

Lemma compare_runs c0 a b c n k : 1 <= k ->
  runs (lex_compare lw balloc brealloc c0 a b c) n k (fun _ _ k' => 0 <= k').
Proof using All. intros Hk. unfold lex_compare, EjLex.lex_char. run; lia. Qed.

Lemma logical_runs c0 a n k : 1 <= k ->
  runs (lex_logical lw balloc brealloc c0 a) n k (fun _ _ k' => 0 <= k').
Proof using All. intros Hk. unfold lex_logical, EjLex.lex_char. run; lia. Qed.

Lemma loop_runs state fuel : forall c n k, (n + 2 <= fuel)%nat \/ c = -1 /\ (1 <= fuel)%nat -> 1 <= k ->
  runs (lex_loop fuel state c) n k (fun _ _ k' => 0 <= k').
Proof using All.
  induction fuel as [|fuel IH]; intros c n k Hf Hk; [lia|]. cbn [EjLex.lex_loop].
  destruct (Z.eqb_spec c (-1)) as [->|Hc]; [run; lia|].
  destruct Hf as [Hf|[? _]]; [|done].
  destruct (is_blank c).
  { apply lexruns_bind. eapply lexruns_mono; [apply skip_blanks_runs; lia|].
    cbn. intros c' n' k' [Hn Hk']. apply IH; [|done].
    destruct Hn; [left; lia|right; split; [done|lia]]. }
  repeat match goal with
         | |- runs (if ?b then _ else _) _ _ _ => destruct b
         end; try (unfold EjLex.lex_char; run; lia);
    try (by apply twice_runs); try (by apply compare_runs); try (by apply logical_runs).
  - (* comments and division *)
    apply lexruns_bind, runs_getc; intros; run; unfold EjLex.lex_char; run; try lia.
    eapply lexruns_mono; [apply comment_runs; lia|]. cbn. intros ? ? ? [? ?]. run; try lia.
    apply IH; lia.
  - apply lexruns_bind, runs_getc; intros; run; try lia.
    eapply lexruns_mono; [apply string_runs; lia|]. cbn. lia.
  - apply number_runs; lia.
  - apply ident_runs; lia.
Qed.

(** ** The state between two calls *)

Definition sane (ep : ej) : Prop :=
  (exists s k t, at_ ep s k t) /\
  (0 < putBackTokenId (input ep) -> exists t, putBackToken (input ep) = Some t).

Lemma sane_tid ep t : sane ep -> sane (ep <| tid := t |>).
Proof.
  intros [(s & k & tk & [? ? ? ? ? ? ? ? ?]) Hp]. destruct ep; cbn in *.
  split; [exists s, k, tk; by split|done].
Qed.

Lemma fine_sane ep n k : fine ep n k -> sane ep.
Proof. intros ((s & t & Hat & _) & _ & _ & Hp). split; [by exists s, k, t|lia]. Qed.

(** The call takes the token that was put back: its text is cut to what the token
    buffer can hold. *)
Lemma getToken_again state ep s k id text :
  stand (input ep) s k -> putBackTokenId (input ep) = id -> 0 < id -> putBackToken (input ep) = Some text ->
  exists ep' m, getLexicalToken lw balloc brealloc state ep = Some (id, ep') /\
    at_ ep' s k (take m text) /\ putBackTokenId (input ep') = 0 /\
    token_str ep' = cstr (take m text ++ [0]) /\
    (zlen text <= bq_cap (tokbuf (input ep)) -> (length text <= m)%nat /\
      bq_cap (tokbuf (input ep')) = bq_cap (tokbuf (input ep))) /\
    script (input ep') = script (input ep) /\ putBackToken (input ep') = Some text.
Proof using All.
  intros Hat Hid Hpos Hpb. destruct (flushed_ok _ _ _ Hat) as (Hat1 & Hc1 & Hp1).
  assert (Hpb1 : putBackToken (input (flushed ep)) = Some text) by (by destruct ep as [[] ? ? ?]).
  unfold getLexicalToken. unfold mbind at 1, LM_bind at 1. cbn [set_tid].
  unfold mbind at 1, LM_bind at 1. cbn [set_token]. unfold mbind at 1, LM_bind at 1. cbn [upd].
  fold (flushed ep). unfold mbind at 1, LM_bind at 1. cbn [get].
  assert (Hsc : script (input (flushed ep)) = script (input ep)) by (by destruct ep as [[] ? ? ?]).
  rewrite Hp1, Hid, Hpb1. replace (0 <? id) with true by zb.
  rewrite <- Hc1, <- Hp1, <- Hsc in *. clear Hsc Hc1 Hp1 Hpb Hat. revert Hat1 Hid Hpb1. generalize (flushed ep). clear ep.
  intros ep [Hs Ht Hf Hl Hb Hc Hr Htok Href] Hid Hpb1.
  destruct (bq_putstr_ok (tokbuf (input ep)) text Ht) as (m & q' & Eq & Hq' & Hqb & Hm & Hfit & Hflat).
  destruct (Hflat Hf) as [Hf' Hserv]. rewrite Htok in Hqb. cbn [app] in Hqb.
  unfold mbind at 1, LM_bind at 1. cbn [lift mbind option_bind].
  unfold mbind at 1, LM_bind at 1, lift at 1. rewrite Eq. cbn [mbind option_bind].
  destruct ep as [[tq sq pb pbi ln ll lno lc] er tk td]; cbn in *.
  eexists _, (Z.to_nat m). split; [done|]. rewrite Hqb in Hserv. split_and!; [|done|done| |done|done].
  - split; cbn; try done. by right.
  - rewrite Htok in Hfit. cbn in Hfit. intros [? ?]%Hfit. split; [lia|done].
Qed.

Lemma getLexicalToken_total state ep : sane ep ->
  exists t ep', getLexicalToken lw balloc brealloc state ep = Some (t, ep') /\ sane ep'.
Proof using All.
  intros [(s & k & t & Hat) Hp]. destruct (Z.ltb_spec 0 (putBackTokenId (input ep))) as [Hpos|Hpos].
  { destruct (Hp Hpos) as [text Htext].
    destruct (getToken_again state _ _ _ _ _ (at_stand _ _ _ _ Hat) eq_refl Hpos Htext) as (ep' & m & E & Hat' & Hp' & _).
    eexists _, ep'. split; [exact E|]. split; [by eexists _, _, _|lia]. }
  destruct (flushed_ok _ _ _ (at_stand _ _ _ _ Hat)) as (Hat1 & _ & Hp1).
  assert (Hserv : served (tokbuf (input (flushed ep)))).
  { destruct (bq_flush_ok _ (at_tokbuf _ _ _ _ Hat)) as (_ & _ & _ & _ & E).
    exists []. split; [by destruct ep as [[] ? ? ?]|constructor]. }
  unfold getLexicalToken. unfold mbind at 1, LM_bind at 1. cbn [set_tid].
  unfold mbind at 1, LM_bind at 1. cbn [set_token]. unfold mbind at 1, LM_bind at 1. cbn [upd].
  fold (flushed ep). unfold mbind at 1, LM_bind at 1. cbn [get].
  rewrite Hp1. replace (0 <? putBackTokenId (input ep)) with false by zb.
  rewrite <- Hp1 in Hpos. clear Hp1 Hp Hat. revert Hat1 Hpos Hserv. generalize (flushed ep). clear ep t.
  intros ep Hat Hpos Hserv. destruct s as [|c s].
  { step_by (getc_eof _ _ _ Hat). eexists _, ep. split; [done|]. split; [by eexists _, _, _|lia]. }
  destruct (getc_cons _ _ _ _ _ Hat) as (ep2 & E2 & Hat2 & (Ht2 & _ & Hp2 & _) & Hl2).
  assert (0 <= c < 256) by (pose proof (at_chars _ _ _ _ Hat) as Hch; by inversion Hch).
  step_by E2. replace (c <? 0) with false by zb. unfold mbind at 1, LM_bind at 1. cbn [get].
  rewrite bq_len_ok by apply Hat2. rewrite (at_bytes _ _ _ _ Hat2), Nat2Z.id.
  destruct (Z.eq_dec c 10) as [->|Hne].
  { eexists _, ep2. split; [done|]. split; [by eexists _, _, _|lia]. }
  destruct (loop_runs state (S (S (length s))) c (length s) (k + 1)) with (ep := ep2)
    as (id & ep3 & n3 & k3 & E3 & Hf3 & _).
  - left. lia.
  - pose proof (at_room _ _ _ _ Hat). lia.
  - split_and!; [by exists s, []|auto|by rewrite Ht2|by rewrite Hp2].
  - exists id, ep3. split; [exact E3|by eapply fine_sane].
Qed.

Lemma getToken_total state ep : sane ep ->
  exists t ep', ejLexGetToken state ep = Some (t, ep') /\ sane ep'.
Proof using All.
  intros Hs. destruct (getLexicalToken_total state ep Hs) as (t & ep' & E & Hs').
  exists t, (ep' <| tid := t |>). split; [|by apply sane_tid].
  unfold EjLex.ejLexGetToken. by step_by E.
Qed.

Lemma open_sane s ip : Forall (fun c => 0 <= c < 256) s ->
  ejLexOpenScript s = Some (Some ip) -> sane (ep0 ip) /\
  exists n, bq_bytes (script ip) = take n s.
Proof.
  unfold ejLexOpenScript. intros Hs E.
  destruct (bq_open_ok EJ_INC) as (r1 & E1 & H1); [unfold EJ_INC; lia|].
  rewrite E1 in E. cbn in E. destruct r1 as [tq|]; [|done].
  destruct (bq_open_ok EJ_SCRIPT_INC) as (r2 & E2 & H2); [unfold EJ_SCRIPT_INC; lia|].
  rewrite E2 in E. cbn in E. destruct r2 as [sq|]; [|done].
  destruct (H1 tq eq_refl) as (T1 & T2 & T3 & T4). destruct (H2 sq eq_refl) as (S1 & S2 & S3 & S4).
  destruct (bq_putstr_ok sq s S1) as (n & sq' & Ep & P1 & P2 & P3 & _).
  rewrite Ep in E. cbn in E. injection E as <-. rewrite S2 in P2. cbn [app] in P2. split; [|by eexists].
  split; [|done]. exists (take (Z.to_nat n) s), 0, []. split; cbn; try done.
  - by apply Forall_take.
  - rewrite <- P2, Z.add_0_r. split; [done|]. by apply bq_fits.
  - by left.
Qed.

(** The calls of the parser: get a token, put a token back. *)
Inductive call : Type :=
| CGet (state : Z)
| CPutback (t : Z) (s : list Z).

Context (bstrdup : list Z -> option (list Z)).
Hypothesis bstrdup_ok : forall s, exists b, bstrdup s = Some b.

Definition do_call (c : call) : LM (Q := Q) unit :=
  match c with
  | CGet state => _ ← ejLexGetToken state; mret ()
  | CPutback t s => ejLexPutbackToken bstrdup t s
  end.

Fixpoint do_calls (cs : list call) : LM (Q := Q) unit :=
  match cs with [] => mret () | c :: cs => _ ← do_call c; do_calls cs end.

Lemma do_calls_total cs : forall ep, sane ep -> exists ep', do_calls cs ep = Some (tt, ep') /\ sane ep'.
Proof using All.
  induction cs as [|c cs IH]; intros ep Hsane; [by eexists|]. cbn [do_calls].
  assert (exists ep', do_call c ep = Some (tt, ep') /\ sane ep') as (ep' & E & Hs').
  { destruct c as [state|t text]; cbn [do_call].
    - destruct (getToken_total state ep Hsane) as (t & ep' & E & Hs').
      exists ep'. split; [by step_by E|done].
    - destruct (bstrdup_ok text) as [b Eb]. unfold ejLexPutbackToken. rewrite Eb.
      eexists. split; [done|]. destruct Hsane as [(s' & k & t' & [? ? ? ? ? ? ? ? ?]) _].
      destruct ep as [[] ? ? ?]; cbn in *. split; [exists s', k, t'; by split|by intros; exists b]. }
  step_by E. by apply IH.
Qed.

(** The text of a token fits its buffer. *)
Lemma token_fits ep s k t text : at_ ep s k t -> token_str ep = Some text ->
  no_nul text /\ zlen text <= bq_cap (tokbuf (input ep)).
Proof.
  intros Hat Ht. pose proof (bq_fits _ (at_tokbuf _ _ _ _ Hat)) as Hfit.
  rewrite (at_tok _ _ _ _ Hat) in Hfit. unfold token_str in Ht.
  destruct (at_ref _ _ _ _ Hat) as [[E _]|[E Es]]; rewrite E in Ht.
  - injection Ht as <-. split; [constructor|cbn; lia].
  - rewrite Es in Ht. destruct (cstr_sound _ _ Ht) as [Hn (b & Eb)]. split; [done|].
    apply (f_equal length) in Eb. rewrite !length_app in Eb. cbn in Eb. lia.
Qed.

Lemma putback_token state ep s k t id text :
  at_ ep s k t -> 0 < id -> zlen text <= bq_cap (tokbuf (input ep)) -> bstrdup text = Some text ->
  no_nul text ->
  exists ep1 ep2, ejLexPutbackToken bstrdup id text ep = Some (tt, ep1) /\
    ejLexGetToken state ep1 = Some (id, ep2) /\ token_str ep2 = Some text /\ tid ep2 = id /\
    bq_bytes (script (input ep2)) = s.
Proof using All.
  intros Hat Hid Hfit Hd Hn. unfold ejLexPutbackToken. rewrite Hd.
  set (ip1 := (input ep) <| putBackTokenId := id |> <| putBackToken := Some text |>).
  set (ep1 := ep <| input := ip1 |>).
  assert (at_ ep1 s k t /\ putBackTokenId (input ep1) = id /\
    putBackToken (input ep1) = Some text /\ tokbuf (input ep1) = tokbuf (input ep)) as (Hat1 & Hp1 & Hp2 & Hq).
  { unfold ep1, ip1. destruct Hat as [? ? ? ? ? ? ? ? ?], ep as [[] ? ? ?]; cbn in *. split_and!; done || by split. }
  destruct (getToken_again state ep1 s k id text (at_stand _ _ _ _ Hat1) Hp1 Hid Hp2) as (ep2 & m & E & Hat2 & Hid2 & Ht2 & Hm & _).
  rewrite Hq in Hm. destruct (Hm Hfit) as [Hm' _]. clear Hm. rewrite take_ge in Ht2, Hat2 by done.
  exists ep1, (ep2 <| tid := id |>). split; [done|]. unfold EjLex.ejLexGetToken. step_by E.
  split_and!; [done| |by destruct ep2|].
  - transitivity (token_str ep2); [by destruct ep2|]. rewrite Ht2. by apply cstr_no_nul.
  - rewrite <- (at_bytes _ _ _ _ Hat2). by destruct ep2.
Qed.

(** A number at the very end of the script: the end of file is put back behind it. *)
Lemma number_eof C ds : forall fuel c ep k t,
  isdigit c = true -> Forall (fun c => isdigit c = true) ds ->
  live None ep ds k t C -> 1 <= k -> zlen t + 1 + zlen ds <= C -> (length ds < fuel)%nat ->
  exists ep' k', lex_number fuel c ep = Some (TOK_LITERAL, ep') /\ live None ep' [255] k' (t ++ c :: ds) C.
Proof using lw_ok balloc_ok brealloc_ok.
  induction ds as [|d ds IH]; intros fuel c ep k t Hd Hds Hl Hk HC Hf;
    (destruct fuel as [|fuel]; [lia|]); cbn [EjLex.lex_number];
    (assert (0 <= c < 256) by (unfold isdigit in Hd; lia));
    (destruct (live_add _ _ _ _ _ c Hl) as (ep1 & E1 & Hl1); [cbn in HC; lia|done|]);
    step_by E1; cbn [Z.ltb Z.compare].
  - step_by (live_eof _ _ _ _ Hl1). cbn [Z.ltb Z.compare negb andb].
    destruct (live_putback _ _ _ _ _ (-1) Hl1) as (ep3 & E3 & Hl3); [lia|by left|].
    step_by E3. eexists _, _. split; [done|]. exact Hl3.
  - destruct (live_getc _ _ _ _ _ _ Hl1) as (ep2 & E2 & Hl2 & Hl2b). step_by E2.
    inversion Hds as [|x l Hd' Hds']; subst.
    assert (0 <= d) by (unfold isdigit in Hd'; lia).
    replace (d <? 0) with false by zb. rewrite Hd'. cbn [negb andb].
    destruct (IH fuel d ep2 (k + 1) _ Hd' Hds' Hl2) as (ep' & k' & E & Hl'); [lia| | |].
    { rewrite length_app in *. cbn in *. lia. } { cbn in Hf. lia. }
    exists ep', k'. split; [done|]. by rewrite <- app_assoc in Hl'.
Qed.

(** A character that belongs to no token, at the end of the script. *)
Lemma getToken_255 state ep : ready None ep [255] ->
  exists ep', ejLexGetToken state ep = Some (TOK_ERR, ep') /\ ready None ep' [] /\ token_str ep' = Some [255].
Proof using lw_ok balloc_ok brealloc_ok.
  intros Hr. eapply (getToken_starts ep 255 [] TOK_ERR [255] [] state Hr).
  intros ep1 k C fuel Htr Hat Hk Hl HC Hp HCl ->.
  assert (Hlive : live None ep1 [] k [] C) by (split_and!; done || by apply Hl).
  unfold lexes. change (lex_loop (S (S (@length Z []))) state 255) with (lex_ident 2 state 255).
  destruct (live_add _ _ _ _ _ 255 Hlive) as (ep2 & E2 & Hl2); [unfold EJ_INC in *; cbn; lia|lia|].
  assert (Ei : ident_loop 2 255 ep1 = Some (-1, ep2)).
  { cbn [EjLex.ident_loop]. change (255 =? 92) with false. cbn iota. step_by E2.
    cbn [Z.ltb Z.compare]. by step_by (live_eof _ _ _ _ Hl2). }
  unfold EjLex.lex_ident. step_by Ei. unfold mbind at 1, LM_bind at 1. cbn [get].
  assert (Hserv : bq_servstr (tokbuf (input ep2)) = Some [255]).
  { destruct Hl2 as (Hat2 & _). destruct (at_ref _ _ _ _ Hat2) as [[_ ?]|[_ ->]]; done. }
  unfold mbind at 1, LM_bind at 1, lift at 1. rewrite Hserv. cbn [mbind option_bind].
  change (negb (isalpha (first_char [255])) && negb (first_char [255] =? 36) &&
          negb (first_char [255] =? 95)) with true. cbn iota.
  destruct (text_identifier [255]) as (t & Et); [by repeat constructor|].
  destruct (Hl2) as (Hat2 & Hlin2 & _).
  destruct (ejError_ok _ _ _ _ _ _ _ _ Et Hat2 Hlin2) as (e & E). step_by E.
  eexists _, k. split; [done|]. by apply live_error.
Qed.

(** C14. The analyser is total: on every script, every sequence of requests for tokens and
    putbacks of tokens returns, in every parser state; no loop runs on and nothing is
    written through a null line. *)
Theorem lex_calls_return s ip cs :
  Forall (fun c => 0 <= c < 256) s -> ejLexOpenScript s = Some (Some ip) ->
  exists ep, do_calls cs (ep0 ip) = Some (tt, ep).
Proof using All.
  intros Hs Ho. destruct (open_sane s ip Hs Ho) as [Hsane _].
  destruct (do_calls_total cs _ Hsane) as (ep & E & _). by exists ep.
Qed.

(** C20. A script that is printed from tokens, with a blank behind each, is read back as
    these tokens and the end of the script. *)
Theorem lex_print_roundtrip state ts ip :
  ejLexOpenScript (print_all ts) = Some (Some ip) -> bq_bytes (script ip) = print_all ts ->
  script_valid ts -> Forall (fun c => 0 <= c < 256) (print_all ts) ->
  lex_all state (S (length ts)) (ep0 ip) = Some (expected state ts).
Proof using lw_ok balloc_ok brealloc_ok.
  intros Ho Hb Hv Hc. eapply (lex_all_ok state ts Hv _ []); [by left|]. by eapply open_ready.
Qed.

(** A token that is read and put back comes again with its text, whatever calls came
    before, and nothing of the script is used up. *)
Theorem lex_putback_token s ip cs ep state state' id ep1 text :
  Forall (fun c => 0 <= c < 256) s -> ejLexOpenScript s = Some (Some ip) ->
  do_calls cs (ep0 ip) = Some (tt, ep) -> ejLexGetToken state ep = Some (id, ep1) ->
  token_str ep1 = Some text -> 0 < id -> bstrdup text = Some text ->
  exists ep2 ep3, ejLexPutbackToken bstrdup id text ep1 = Some (tt, ep2) /\
    ejLexGetToken state' ep2 = Some (id, ep3) /\ token_str ep3 = Some text /\ tid ep3 = id /\
    bq_bytes (script (input ep3)) = bq_bytes (script (input ep1)).
Proof using All.
  intros Hs Ho Hcs Hget Ht Hid Hd. destruct (open_sane s ip Hs Ho) as [Hsane _].
  destruct (do_calls_total cs _ Hsane) as (ep' & E & Hsane'). rewrite Hcs in E. injection E as <-.
  destruct (getToken_total state ep Hsane') as (id' & ep1' & E & Hsane1). rewrite Hget in E.
  injection E as <- <-. destruct Hsane1 as [(r & k & t & Hat) _].
  destruct (token_fits _ _ _ _ _ Hat Ht) as [Hn Hfit].
  rewrite (at_bytes _ _ _ _ Hat). by eapply putback_token.
Qed.

(** A script that ends in a number, without a newline behind it, is not read to its
    end: the end of file is put back as the character 255, and the next token is an
    error. *)
Theorem lex_number_at_end state d ds ip :
  Forall (fun c => isdigit c = true) (d :: ds) -> zlen (d :: ds) <= EJ_INC ->
  ejLexOpenScript (d :: ds) = Some (Some ip) -> bq_bytes (script ip) = d :: ds ->
  lex_all state 3 (ep0 ip) = Some [(TOK_LITERAL, d :: ds); (TOK_ERR, [255]); (TOK_EOF, [])].
Proof using lw_ok balloc_ok brealloc_ok.
  intros Hd Hlen Ho Hb. inversion Hd as [|x l Hd1 Hds]; subst.
  assert (Hr : ready None (ep0 ip) (d :: ds)).
  { eapply ready_untracked, open_ready; try done. eapply Forall_impl; [|exact Hd]. unfold isdigit. cbn. lia. }
  destruct (getToken_starts _ d ds TOK_LITERAL (d :: ds) [255] state Hr) as (ep1 & E1 & Hr1 & Ht1).
  { intros ep' k C fuel Htr Hat Hk Hl HC Hp HCl ->. rewrite loop_number by done.
    apply (number_eof C ds _ d ep' k []); try done; [|unfold EJ_INC in *; cbn in Hlen |- *; lia|lia].
    split_and!; try done. apply Hl. intros ->. done. }
  destruct (getToken_255 state ep1 Hr1) as (ep2 & E2 & Hr2 & Ht2).
  destruct (getToken_eof state ep2 [] (or_introl eq_refl) Hr2) as (ep3 & E3 & _ & Ht3).
  rewrite cstr_no_nul in Ht1
    by (eapply Forall_impl; [|exact Hd]; unfold isdigit; cbn; lia).
  rewrite lex_all_S, E1. cbn [mbind option_bind]. rewrite Ht1. cbn [mbind option_bind].
  rewrite lex_all_S, E2. cbn [mbind option_bind]. rewrite Ht2. cbn [mbind option_bind].
  rewrite lex_all_S, E3. cbn [mbind option_bind]. rewrite Ht3. done.
Qed.
End Spec.

Arguments ready {Q _ _} T ep s.
Arguments tracks {Q _ _} T ep.

(** ** On the ring queue *)

Definition ring_malloc (n : Z) : option (list Z) :=
  if (0 <=? n) && (n <=? MALLOC_MAX) then Some (repeat 119 (Z.to_nat n)) else None.
Definition all_malloc (n : Z) : option (list Z) :=
  if 0 <? n then Some (repeat 119 (Z.to_nat n)) else None.
Definition all_realloc (b : list Z) (n : Z) : option (list Z) :=
  Some (b ++ repeat 119 (Z.to_nat (n - zlen b))).

Lemma ring_malloc_spec n b : ring_malloc n = Some b -> zlen b = n /\ 0 <= n <= MALLOC_MAX.
Proof.
  unfold ring_malloc. destruct ((0 <=? n) && (n <=? MALLOC_MAX)) eqn:E; [|done].
  intros [= <-]. rewrite repeat_length. lia.
Qed.

Lemma all_malloc_ok n : 0 < n -> exists b, all_malloc n = Some b /\ zlen b = n.
Proof.
  intros Hn. unfold all_malloc. replace (0 <? n) with true by zb.
  eexists. split; [done|]. rewrite repeat_length. lia.
Qed.

Lemma all_realloc_ok b n : zlen b <= n -> exists b', all_realloc b n = Some b' /\
  zlen b' = n /\ take (length b) b' = b.
Proof.
  intros Hn. eexists. split; [done|]. rewrite length_app, repeat_length. split; [lia|].
  apply take_app_length.
Qed.

#[local] Existing Instance ringq_queue.
#[local] Instance demo_queue : ByteQueue ringq := ringq_queue ring_malloc.
#[local] Instance demo_laws : ByteQueueLaws ringq := ringq_queue_laws ring_malloc ring_malloc_spec.

Lemma lex_calls_return_witness : exists ip : ejinput (Q := ringq),
  ejLexOpenScript (str "a = 0x1 /* **/ @") = Some (Some ip) /\
  exists ep, do_calls 32 all_malloc all_realloc Some
    [CGet 8; CGet 8; CPutback 17 (str "="); CGet 8; CGet 8; CGet 8; CGet 8] (ep0 ip) = Some (tt, ep).
Proof.
  eexists. split; [vm_compute; reflexivity|].
  apply (lex_calls_return 32 all_malloc all_realloc (or_introl eq_refl) all_malloc_ok all_realloc_ok
    Some (fun s => ex_intro _ s eq_refl) (str "a = 0x1 /* **/ @")).
  - vm_compute. repeat constructor; discriminate.
  - vm_compute. reflexivity.
Defined.

(** A call with a string that holds an escaped quote. *)
Definition demo_tokens : list tok :=
  [KName (str "f"); KPunct 0; KName (str "x"); KPunct 7; KPunct 1;
   KString 34 [97; 34; 98]; KNumber (str "12"); KPunct 4].

Lemma lex_print_roundtrip_witness : exists ip : ejinput (Q := ringq),
  ejLexOpenScript (print_all demo_tokens) = Some (Some ip) /\
  lex_all 32 all_malloc all_realloc 8 9 (ep0 ip) = Some (expected 8 demo_tokens).
Proof.
  eexists. split; [vm_compute; reflexivity|].
  apply (lex_print_roundtrip 32 all_malloc all_realloc (or_introl eq_refl) all_malloc_ok all_realloc_ok
    8 demo_tokens).
  - vm_compute. reflexivity.
  - vm_compute. reflexivity.
  - repeat split; try (by vm_compute); try (by left); try lia; repeat constructor; done.
  - vm_compute. repeat constructor; discriminate.
Defined.

Lemma lex_putback_token_witness : exists (ip : ejinput (Q := ringq)) ep1,
  ejLexOpenScript (str "a = 1;") = Some (Some ip) /\
  ejLexGetToken 32 all_malloc all_realloc 8 (ep0 ip) = Some (TOK_ID, ep1) /\
  exists ep2 ep3, ejLexPutbackToken Some TOK_ID (str "a") ep1 = Some (tt, ep2) /\
    ejLexGetToken 32 all_malloc all_realloc 8 ep2 = Some (TOK_ID, ep3) /\
    token_str ep3 = Some (str "a") /\ tid ep3 = TOK_ID /\
    bq_bytes (script (input ep3)) = bq_bytes (script (input ep1)).
Proof.
  eexists _, _. split; [vm_compute; reflexivity|]. split; [vm_compute; reflexivity|].
  eapply (lex_putback_token 32 all_malloc all_realloc (or_introl eq_refl) all_malloc_ok all_realloc_ok
    Some (fun s => ex_intro _ s eq_refl) (str "a = 1;") _ [] _ 8 8 TOK_ID).
  - vm_compute. repeat constructor; discriminate.
  - vm_compute. reflexivity.
  - reflexivity.
  - vm_compute. reflexivity.
  - vm_compute. reflexivity.
  - done.
  - done.
Defined.

Lemma lex_number_at_end_witness : exists ip : ejinput (Q := ringq),
  ejLexOpenScript (str "42") = Some (Some ip) /\
  lex_all 32 all_malloc all_realloc 8 3 (ep0 ip) =
    Some [(TOK_LITERAL, str "42"); (TOK_ERR, [255]); (TOK_EOF, [])].
Proof.
  eexists. split; [vm_compute; reflexivity|].
  apply (lex_number_at_end 32 all_malloc all_realloc (or_introl eq_refl) all_malloc_ok all_realloc_ok
    8 52 [50]).
  - by repeat constructor.
  - done.
  - vm_compute. reflexivity.
  - vm_compute. reflexivity.
Defined.
