(* ===== verification/EjRead.v ===== *)
(** * The tokens that the parser reads

    What the parser relies on: the input of an engine holds a list of tokens, of which
    one may have been put back; getting a token takes the first one, putting it back
    restores the list, and a saved input can be restored.  Proved from the lemmas of
    [EjLexSpec]. *)

From S2P Require Import Prelude CString Fmt RingQ ByteQueue EjLex EjLexSpec.
#[local] Open Scope Z_scope.
#[local] Open Scope cint_scope.

(** The id and the text of the first token, in a statement; behind the last token there
    is the end of the script. *)
Definition hd_id (ts : list tok) : Z :=
  match ts with [] => TOK_EOF | t :: ts => tok_tid STATE_STMT t (print_all ts) end.
Definition hd_text (ts : list tok) : list Z :=
  match ts with [] => [] | t :: _ => tok_text t end.

(** The first token is the same in [state] as in a statement: only there a reserved word
    is no name. *)
Definition agrees (state : Z) (ts : list tok) : Prop :=
  match ts with KName nm :: _ => state = STATE_STMT \/ keyword nm = None | _ => True end.

Lemma hd_id_agrees state t ts : agrees state (t :: ts) ->
  tok_tid state t (print_all ts) = hd_id (t :: ts).
Proof.
  destruct t as [| | |nm]; try done. cbn. unfold name_tid. intros [-> | ->]; [done|].
  by rewrite !Tauto.if_same.
Qed.

Lemma keyword_pos nm k : keyword nm = Some k -> 0 < k.
Proof. unfold keyword. repeat case_match; intros [= <-]; done. Qed.

Lemma hd_id_pos ts : script_valid ts -> 0 < hd_id ts.
Proof.
  destruct ts as [|[i|q body|ds|nm] ts]; [done|..]; cbn [hd_id tok_tid script_valid tok_valid]; intros (Hv & _); try done.
  - do 25 (try (destruct i as [|i]; [by vm_compute|])). cbn in Hv. lia.
  - unfold name_tid. cbn. destruct (keyword nm) eqn:E; [by eapply keyword_pos|]. destruct (_ =? _); reflexivity.
Qed.

Lemma script_valid_tl ts : script_valid ts -> script_valid (tl ts).
Proof. destruct ts; [done|]. by intros (_ & _ & ?). Qed.

Lemma print_all_cons t ts : print_all (t :: ts) = print t ++ 32 :: print_all ts.
Proof. unfold print_all. cbn [map concat]. by rewrite <- app_assoc. Qed.

Lemma hd_text_string ts : script_valid ts ->
  cstr (hd_text ts ++ [0]) = Some (hd_text ts) /\ zlen (hd_text ts) <= EJ_INC.
Proof.
  destruct ts as [|t ts]; [done|]. intros (Hv & _). split; [by apply tok_text_string|].
  cbn [hd_text]. destruct t as [i|q body|ds|nm]; cbn [tok_text tok_valid] in *; [|tauto..].
  do 25 (try (destruct i as [|i]; [vm_compute; discriminate|])). cbn in Hv. lia.
Qed.

Lemma script_valid_followed t ts : script_valid (t :: ts) -> followed t (print_all ts).
Proof.
  intros (Ht & Hlast & Hts). destruct t as [| | |name]; try done. destruct ts as [|t' ts]; [done|].
  destruct Hts as (Ht' & _). destruct (print_start t' Ht') as (c & tail & Ep & Hvis & _).
  rewrite print_all_cons, Ep. by eexists _, _.
Qed.

Definition blank_or_none (sp : list Z) : Prop := sp = [] \/ sp = [32].

Lemma after_split t ts : exists sp, blank_or_none sp /\ after t (print_all ts) = sp ++ print_all ts.
Proof. unfold blank_or_none. destruct t; cbn [after]; (exists [32]; by auto) || (exists []; by auto). Qed.

Section Read.
Context {Q : Type} `{ByteQueueLaws Q}.
Context (lw : Z) (balloc : Z -> option (list Z)) (brealloc : list Z -> Z -> option (list Z)).
Hypothesis lw_ok : lw = 32 \/ lw = 64.
Hypothesis balloc_ok : forall n, 0 < n -> exists b, balloc n = Some b /\ zlen b = n.
Hypothesis brealloc_ok : forall b n, zlen b <= n -> exists b', brealloc b n = Some b' /\
  zlen b' = n /\ take (length b) b' = b.
Context (bstrdup : list Z -> option (list Z)).
Hypothesis bstrdup_ok : forall s, bstrdup s = Some s.

(** The script, and the sizes of its queue and of the token buffer. *)
Context (text : list Z) (cap tokcap : Z).

Notation ej := (ej (Q := Q)).
Notation ejinput := (ejinput (Q := Q)).

(** [b]: some token was put back since the script was opened. *)
Definition tr (b : bool) : option track := Some (mkTrack text cap tokcap b).

(** [ts] are to be read, and no token is put back. *)
Definition clean (b : bool) (ip : ejinput) (ts : list tok) : Prop :=
  script_valid ts /\ exists sp, blank_or_none sp /\ ready (tr b) (ep0 ip) (sp ++ print_all ts).

(** [ts] are to be read, the first one was put back. *)
Definition put_back (ip : ejinput) (ts : list tok) : Prop :=
  script_valid ts /\ putBackTokenId ip = hd_id ts /\ putBackToken ip = Some (hd_text ts) /\
  EJ_INC <= bq_cap (tokbuf ip) /\ tracks (tr true) (ep0 ip) /\
  exists sp, blank_or_none sp /\ exists k, stand ip (sp ++ print_all (tl ts)) k.

Definition upcoming (b : bool) (ip : ejinput) (ts : list tok) : Prop := clean b ip ts \/ put_back ip ts.

Lemma tracks_weaken ip b : tracks (tr true) (ep0 ip) -> tracks (tr b) (ep0 ip).
Proof. intros (? & ? & ? & Hp). split_and!; try done. intros _. by apply Hp. Qed.

Lemma upcoming_valid b ip ts : upcoming b ip ts -> script_valid ts.
Proof. by intros [(? & _)|(? & _)]. Qed.

Lemma clean_false b ip ts : clean b ip ts -> clean false ip ts.
Proof.
  intros (Hv & sp & Hsp & Hs & Hc & Hp & (? & ? & ? & ?)). split; [done|]. exists sp. split; [done|].
  split_and!; try done.
Qed.

Lemma upcoming_false b ip ts : upcoming b ip ts -> upcoming false ip ts.
Proof. intros [Hc|Hp]; [left; by eapply clean_false|by right]. Qed.

Lemma put_back_true ip ts : put_back ip ts -> upcoming true ip ts.
Proof. by right. Qed.

(** Getting a token takes the first one. *)
Lemma get_upcoming b state ep ts : upcoming b (input ep) ts -> agrees state ts ->
  exists ep', ejLexGetToken lw balloc brealloc state ep = Some (hd_id ts, ep') /\
    token_str ep' = Some (hd_text ts) /\ clean b (input ep') (tl ts).
Proof using All.
  intros [(Hv & sp & Hsp & Hr)|(Hv & Hid & Ht & Hcap & Htr & sp & Hsp & k & Hs)] Ha.
  - change (ready (tr b) ep (sp ++ print_all ts)) in Hr. destruct ts as [|t ts].
    + unfold print_all in Hr. cbn [map concat] in Hr. rewrite app_nil_r in Hr.
      destruct (getToken_eof lw balloc brealloc lw_ok balloc_ok brealloc_ok state ep sp Hsp Hr)
        as (ep' & E & Hr' & Et).
      exists ep'. split_and!; [done..|]. split; [done|]. exists []. split; [by left|exact Hr'].
    + rewrite print_all_cons in Hr. destruct (Hv) as (Hv1 & _ & Hv2).
      destruct (getToken_ok lw balloc brealloc lw_ok balloc_ok brealloc_ok state t (print_all ts) ep sp
        Hv1 (script_valid_followed _ _ Hv) Hsp Hr) as (ep' & E & Hr' & Et).
      rewrite (hd_id_agrees _ _ _ Ha) in E. rewrite tok_text_string in Et by done.
      exists ep'. split_and!; [done..|]. split; [done|].
      destruct (after_split t ts) as (sp' & Hsp' & Ea). exists sp'. split; [done|].
      rewrite Ea in Hr'. exact Hr'.
  - pose proof (hd_id_pos _ Hv) as Hpos. destruct (hd_text_string _ Hv) as [Hstr Hlen].
    destruct (getToken_again lw balloc brealloc lw_ok balloc_ok brealloc_ok state ep _ _ _ _ Hs Hid Hpos Ht)
      as (ep' & m & E & Hat & Hz & Htok & Hm & Hsc & Hpb).
    destruct Hm as [Hm Hcap']; [lia|]. rewrite take_ge in Hat, Htok by done.
    exists (ep' <| EjLex.tid := hd_id ts |>). split; [|split].
    + unfold ejLexGetToken. unfold mbind, LM_bind. rewrite E. done.
    + transitivity (token_str ep'); [by destruct ep'|]. by rewrite Htok.
    + split; [by apply script_valid_tl|]. exists sp. split; [done|]. apply at_stand in Hat.
      destruct Htr as (Htx & Hcp & Htc & Hput). cbn in Htx, Hcp, Htc, Hput.
      destruct ep' as [ip' ? ? ?]; cbn in *. split; [by exists k|]. split; [by cbn; rewrite Hcap'|]. split; [done|].
      split_and!; cbn; [by rewrite Hsc|by rewrite Hsc|by rewrite Hcap'|by rewrite Hpb].
Qed.

(** Putting it back restores the list. *)
Lemma putback_clean b ep ts : script_valid ts -> clean b (input ep) (tl ts) ->
  exists ep', ejLexPutbackToken bstrdup (hd_id ts) (hd_text ts) ep = Some (tt, ep') /\
    put_back (input ep') ts /\ token ep' = token ep /\ error ep' = error ep /\
    tokbuf (input ep') = tokbuf (input ep).
Proof using bstrdup_ok.
  intros Hv (_ & sp & Hsp & (k & Hs) & Hcap & _ & (Htx & Hcp & Htc & _)).
  unfold ejLexPutbackToken. rewrite bstrdup_ok. eexists. split; [done|].
  destruct ep as [[tq sq pb pbi ln ll lno lc] er tk td]; cbn in *.
  split_and!; try done. split_and!; try done. exists sp. split; [done|]. exists k.
  destruct Hs. by split.
Qed.

(** Saving and restoring. *)
Lemma save_upcoming b ep ts : upcoming b (input ep) ts ->
  exists st, ejLexSaveInputState bstrdup ep = Some (st, ep) /\ upcoming b st ts.
Proof using bstrdup_ok.
  intros Hu. exists (input ep). split; [|done]. unfold ejLexSaveInputState, mbind, LM_bind. cbn.
  destruct ep as [[tq sq [pb|] pbi ln ll lno lc] er tk td]; cbn; [by rewrite bstrdup_ok|done].
Qed.

(** What an input with tokens to come is. *)
Lemma upcoming_parts ip ts : upcoming true ip ts ->
  (exists s k, stand ip s k) /\ EJ_INC <= bq_cap (tokbuf ip) /\ bq_text (script ip) text /\
  bq_cap (script ip) = cap /\ bq_cap (tokbuf ip) = tokcap /\ putBackToken ip <> None.
Proof.
  intros [(_ & sp & _ & (k & Hs) & Hc & _ & (Htx & Hcp & Htc & Hput))|(_ & _ & _ & Hc & (Htx & Hcp & Htc & Hput) & sp & _ & k & Hs)];
    cbn in *; (split_and!; [by eexists _, _|auto..]).
Qed.

Lemma restore_upcoming ep ts' st ts : upcoming true (input ep) ts' -> upcoming true st ts ->
  exists ep', ejLexRestoreInputState bstrdup st ep = Some (tt, ep') /\ upcoming true (input ep') ts.
Proof using bstrdup_ok.
  intros Hu Hst. destruct (upcoming_parts _ _ Hu) as ((s & k & Hs) & Hcap & Htx & Hcp & Htc & Hput).
  destruct (upcoming_parts _ _ Hst) as ((s0 & k0 & Hs0) & Hcap0 & Htx0 & Hcp0 & Htc0 & Hput0).
  destruct (bq_rewind_text _ _ text (st_script _ _ _ Hs) (st_script _ _ _ Hs0) Htx Htx0) as (sq & Esq & S1 & S2 & S3 & S4);
    [congruence|].
  destruct (bq_rewind_flat _ _ (st_tokbuf _ _ _ Hs) (st_tokbuf _ _ _ Hs0) (st_flat _ _ _ Hs) (st_flat _ _ _ Hs0))
    as (tq & Etq & T1 & T2 & T3); [congruence|].
  destruct (putBackToken st) as [pb|] eqn:Epb; [|done].
  unfold ejLexRestoreInputState, mbind, LM_bind, lift. cbn. rewrite Etq. cbn. rewrite Esq. cbn.
  rewrite Epb, bstrdup_ok. cbn. eexists. split; [done|].
  destruct ep as [[tq1 sq1 pb1 pbi1 ln ll lno lc] er tk td]; cbn in *.
  assert (Hstand : forall s' k', stand st s' k' ->
    stand (mkInput tq sq (Some pb) (putBackTokenId st) ln ll lno lc) s' k').
  { intros s' k' []. destruct Hs. split; cbn in *; try done; congruence. }
  assert (Htr : tracks (tr true) (ep0 (mkInput tq sq (Some pb) (putBackTokenId st) ln ll lno lc))).
  { split_and!; cbn; [done|congruence|congruence|done]. }
  destruct Hst as [(Hv & sp & Hsp & (k1 & Hs1) & Hc1 & Hz & _)|(Hv & Hid & Ht & Hc1 & _ & sp & Hsp & k1 & Hs1)].
  - left. split; [done|]. exists sp. split; [done|]. cbn in *. split_and!; [eexists; by apply Hstand|cbn; by rewrite T3|done|done].
  - right. rewrite Epb in Ht. split_and!; cbn; try done; [by rewrite T3|]. exists sp. split; [done|]. eexists. by apply Hstand.
Qed.

(** The characters that are left, up to a blank and a token put back. *)
Lemma upcoming_chars b ip ts : upcoming b ip ts ->
  zlen (print_all (tl ts)) <= zlen (bq_bytes (script ip)) <= 1 + zlen (print_all ts) /\
  bq_text (script ip) text /\ bq_ok (script ip).
Proof.
  assert (Htl : zlen (print_all (tl ts)) <= zlen (print_all ts)).
  { destruct ts as [|t ts]; [done|]. rewrite print_all_cons, length_app. cbn [tl length]. lia. }
  assert (Hsp : forall sp, blank_or_none sp -> zlen sp <= 1) by (by intros ? [-> | ->]).
  intros [(_ & sp & Hb & (k & Hs) & _ & _ & (Htx & _))|(_ & _ & _ & _ & (Htx & _) & sp & Hb & k & Hs)];
    pose proof (st_bytes _ _ _ Hs) as Eb; cbn in Eb; rewrite Eb, length_app; specialize (Hsp _ Hb);
    (split_and!; [lia|lia|exact Htx|apply Hs]).
Qed.
End Read.
