(* ===== verification/Heap.v ===== *)
(** * Linked nodes in a store

    The linked lists of the repository are nodes reached through a pointer
    field.  A store maps addresses to nodes, the null pointer is 0, and
    [seg h p l q] says that following the field [nxt] from [p] meets exactly the
    nodes [l] and arrives at [q]; [chain h p l] is a null-terminated list. *)

From S2P Require Import Prelude.
From stdpp Require Export gmap.
#[local] Open Scope Z_scope.

(** ** Lists of lists *)

Lemma elem_of_concat {A} (x : A) (ls : list (list A)) :
  x ∈ concat ls <-> exists i l, ls !! i = Some l /\ x ∈ l.
Proof.
  induction ls as [|l ls IH]; cbn [concat].
  - split; [by intros ?%elem_of_nil|]. intros (i & l & ? & _). done.
  - rewrite elem_of_app, IH. split.
    + intros [?|(i & l' & ? & ?)]; [by exists 0%nat, l|by exists (S i), l'].
    + intros ([|i] & l' & Hi & ?); cbn in Hi; [left; congruence|right; eauto].
Qed.

Lemma NoDup_of_concat {A} (ls : list (list A)) :
  (forall i l, ls !! i = Some l -> NoDup l) ->
  (forall i j l l' x, ls !! i = Some l -> ls !! j = Some l' -> x ∈ l -> x ∈ l' -> i = j) ->
  NoDup (concat ls).
Proof.
  induction ls as [|l ls IH]; intros Hl Hd; [constructor|]. cbn [concat].
  apply NoDup_app. split; [by apply (Hl 0%nat)|]. split.
  - intros x Hx (i & l' & Hi & Hx')%elem_of_concat.
    by specialize (Hd 0%nat (S i) l l' x eq_refl Hi Hx Hx').
  - apply IH; [intros i; apply (Hl (S i))|].
    intros i j l1 l2 x Hi Hj H1 H2.
    pose proof (Hd (S i) (S j) l1 l2 x Hi Hj H1 H2). lia.
Qed.

(** ** The last element *)

Lemma zlast_cons (x d : Z) l : List.last (x :: l) d = List.last l x.
Proof.
  revert x d. induction l as [|y l IH]; intros x d; [done|].
  change (List.last (x :: y :: l) d) with (List.last (y :: l) d). by rewrite !IH.
Qed.

Lemma last_snoc_cases (l : list Z) d :
  (l = [] /\ List.last l d = d) \/ exists l0 y, l = l0 ++ [y] /\ List.last l d = y.
Proof.
  destruct l as [|z l]; [by left|right].
  exists (removelast (z :: l)), (List.last (z :: l) d).
  split; [by apply app_removelast_last|done].
Qed.

Section Seg.
Context {N : Type} (nxt : N -> Z).
Implicit Types (h : gmap Z N) (l : list Z) (p q x : Z) (n : N).

Fixpoint seg h p l q : Prop :=
  match l with
  | [] => p = q
  | x :: l' => p = x /\ x <> 0 /\ exists n, h !! x = Some n /\ seg h (nxt n) l' q
  end.

Definition chain h p l : Prop := seg h p l 0.

Lemma seg_app h p l1 l2 q :
  seg h p (l1 ++ l2) q <-> exists m, seg h p l1 m /\ seg h m l2 q.
Proof.
  revert p. induction l1 as [|x l1 IH]; intros p; simpl.
  - split; [eauto|]. intros (m & -> & ?). done.
  - split.
    + intros (-> & ? & n & ? & (m & ? & ?)%IH). eauto 10.
    + intros (m & (-> & ? & n & ? & ?) & ?). do 2 (split; [done|]).
      exists n. split; [done|]. apply IH. eauto.
Qed.

Lemma seg_frame h h' p l q :
  (forall x, x ∈ l -> h' !! x = h !! x) -> seg h p l q -> seg h' p l q.
Proof.
  revert p. induction l as [|x l IH]; intros p Hf; simpl; [done|].
  intros (-> & ? & n & Hn & Hs). split; [done|]. split; [done|]. exists n.
  rewrite Hf by set_solver. split; [done|]. apply IH; [|done]. set_solver.
Qed.

Lemma seg_insert_other h x n p l q : x ∉ l -> seg h p l q -> seg (<[x:=n]> h) p l q.
Proof.
  intros Hx. apply seg_frame. intros y Hy. rewrite lookup_insert_ne; [done|]. set_solver.
Qed.

Lemma seg_delete_other h x p l q : x ∉ l -> seg h p l q -> seg (delete x h) p l q.
Proof.
  intros Hx. apply seg_frame. intros y Hy. rewrite lookup_delete_ne; [done|]. set_solver.
Qed.

Lemma seg_nonzero h p l q x : seg h p l q -> x ∈ l -> x <> 0.
Proof.
  revert p. induction l as [|y l IH]; intros p; simpl; [set_solver|].
  intros (-> & ? & n & ? & ?) [->|?]%elem_of_cons; eauto.
Qed.

Lemma seg_lookup h p l q x : seg h p l q -> x ∈ l -> is_Some (h !! x).
Proof.
  revert p. induction l as [|y l IH]; intros p; simpl; [set_solver|].
  intros (-> & ? & n & ? & ?) [->|?]%elem_of_cons; eauto.
Qed.

Lemma chain_nil h p l : chain h p l -> p = 0 -> l = [].
Proof. destruct l as [|x l]; [done|]. intros (-> & ? & _). done. Qed.

Lemma chain_cons h p l : chain h p l -> p <> 0 ->
  exists n l', l = p :: l' /\ h !! p = Some n /\ chain h (nxt n) l'.
Proof. destruct l as [|x l]; [done|]. intros (-> & ? & n & ? & ?) _. eauto. Qed.

(** Following a field is deterministic, so a null-terminated list has no cycle. *)
Lemma chain_inj h p l l' : chain h p l -> chain h p l' -> l = l'.
Proof.
  revert p l'. induction l as [|x l IH]; intros p l' H H'.
  - symmetry. by eapply chain_nil.
  - destruct H as (-> & ? & n & Hn & Hl).
    apply chain_cons in H' as (n' & l'' & -> & Hn' & Hl''); [|done].
    simplify_eq. f_equal. eauto.
Qed.

Lemma chain_suffix h p l1 x l2 : chain h p (l1 ++ x :: l2) -> chain h x (x :: l2).
Proof.
  intros (m & _ & Hm)%seg_app. pose proof Hm as (-> & _ & _). exact Hm.
Qed.

Lemma chain_NoDup h p l : chain h p l -> NoDup l.
Proof.
  revert p. induction l as [|x l IH]; intros p H; [constructor|].
  pose proof H as (-> & ? & n & Hn & Hl). constructor; [|by eapply IH].
  intros (l1 & l2 & ->)%list_elem_of_split.
  assert (Hx : chain h x (x :: l2)).
  { apply (chain_suffix _ x (x :: l1)). exact H. }
  pose proof (chain_inj _ _ _ _ H Hx) as E.
  apply (f_equal length) in E. revert E. simpl. rewrite length_app. simpl. lia.
Qed.

(** Redirecting the field of one node of a list. *)
Lemma chain_relink h h' p l1 x l2 n' l2' :
  chain h p (l1 ++ x :: l2) -> (forall y, y ∈ l1 -> h' !! y = h !! y) ->
  h' !! x = Some n' -> chain h' (nxt n') l2' -> chain h' p (l1 ++ x :: l2').
Proof.
  intros (m & H1 & Hm)%seg_app Hf Hx H2. pose proof Hm as (-> & ? & _).
  apply seg_app. exists x. split; [by apply (seg_frame h)|].
  split; [done|]. split; [done|]. eauto.
Qed.

Lemma chain_size h p l : chain h p l -> (length l <= size h)%nat.
Proof.
  intros H. rewrite <- size_dom, <- (size_list_to_set (C := gset Z) l) by by eapply chain_NoDup.
  apply subseteq_size. intros x Hx%elem_of_list_to_set.
  apply elem_of_dom. by eapply seg_lookup.
Qed.
End Seg.
