(* ===== verification/Handles.v ===== *)
(** * Handle maps (webs/src/src/h.c)

    A handle map is a dynamic array of pointers whose first two words hold its
    length and the number of handles in use.  [void *] and [int] are both one
    word, as on the 32-bit target: the module stores one through a pointer to the
    other.  [map] is [None] for the null pointer and otherwise the array from its
    hidden header on.  [balloc] and [brealloc] are macros for [malloc] and
    [realloc]; they take a size in bytes and give the words of the block. *)

From S2P Require Import Prelude.

Definition H_LEN : Z := 0.
Definition H_USED : Z := 1.
Definition H_OFFSET : Z := 2.
Definition H_INCR : Z := 16.
Definition WORD : Z := 4.

Abbreviation handle_map := (option (list Z)) (only parsing).

(** [mp[i] = v] *)
Definition wset (mp : list Z) (i v : Z) : list Z := bput mp i [v].

(** [map[i]]: the two words of the header are at -2 and -1. *)
Definition hread (map : handle_map) (i : Z) : option Z :=
  mp ← map;
  if (- H_OFFSET <=? i) && (i + H_OFFSET <? zlen mp) then Some (zget mp (i + H_OFFSET)) else None.

(** The loop that looks for the first null handle, [n] cells from [handle]. *)
Fixpoint scan_null (n : nat) (mp : list Z) (handle : Z) : option Z :=
  match n with
  | O => None
  | S n => if zget mp (handle + H_OFFSET) =? 0 then Some handle
           else scan_null n mp (handle + 1)
  end.

(** The loop that looks for the greatest handle in use, from [n - 1] down; -1
    when there is none. *)
Fixpoint scan_used (n : nat) (mp : list Z) : Z :=
  match n with
  | O => -1
  | S n => if negb (zget mp (Z.of_nat n + H_OFFSET) =? 0) then Z.of_nat n
           else scan_used n mp
  end.

Definition hFree (map : handle_map) (handle : Z) : option (Z * handle_map) :=
  mp ← map;
  let mp := wset mp (handle + H_OFFSET) 0 in
  let mp := wset mp H_USED (zget mp H_USED - 1) in
  let map := if zget mp H_USED =? 0 then None else Some mp in
  let handle :=
    match map with
    | None => -1
    | Some mp =>
        let len := zget mp H_LEN in
        if zget mp H_USED <? zget mp H_LEN then scan_used (Z.to_nat len) mp else len
    end in
  Some (handle + 1, map).

Section Alloc.
Context (balloc_words : Z -> option (list Z)).
Context (brealloc_words : list Z -> Z -> option (list Z)).
Context (balloc : Z -> Z).

(** The tail of [hAlloc]: no free handle, so grow the list. *)
Definition hAlloc_grow (mp : list Z) (len handle : Z) : Z * handle_map :=
  let len := len + H_INCR in
  let memsize := (len + H_OFFSET) * WORD in
  match brealloc_words mp memsize with
  | None => (-1, Some mp)
  | Some mp =>
      let mp := wset mp H_LEN len in
      let mp := bput mp (H_OFFSET + len - H_INCR) (repeat 0 (Z.to_nat H_INCR)) in
      let mp := wset mp H_USED (zget mp H_USED + 1) in
      (handle, Some mp)
  end.

Definition hAlloc_in (mp : list Z) : Z * handle_map :=
  let len := zget mp H_LEN in
  if zget mp H_USED <? zget mp H_LEN then
    match scan_null (Z.to_nat len) mp 0 with
    | Some handle => (handle, Some (wset mp H_USED (zget mp H_USED + 1)))
    | None => hAlloc_grow mp len len
    end
  else hAlloc_grow mp len len.

Definition hAlloc (map : handle_map) : Z * handle_map :=
  match map with
  | None =>
      let incr := H_INCR in
      let memsize := (incr + H_OFFSET) * WORD in
      match balloc_words memsize with
      | None => (-1, None)
      | Some mp =>
          let mp := bput mp 0 (repeat 0 (Z.to_nat (memsize / WORD))) in
          let mp := wset mp H_LEN incr in
          let mp := wset mp H_USED 0 in
          hAlloc_in mp
      end
  | Some mp => hAlloc_in mp
  end.

(** [hAllocEntry]: the new handle, the map and the new maximum; [None] when the
    call does not return. *)
Definition hAllocEntry (list_ : handle_map) (max size : Z) : option (Z * handle_map * Z) :=
  let '(id, list_) := hAlloc list_ in
  if id <? 0 then Some (-1, list_, max)
  else
    let finish list_ :=
      let max := if max <=? id then id + 1 else max in
      Some (id, list_, max) in
    if 0 <? size then
      let cp := balloc size in
      if cp =? 0 then
        '(_, list_) ← hFree list_ id;
        Some (-1, list_, max)
      else
        mp ← list_;
        finish (Some (wset mp (id + H_OFFSET) cp))
    else finish list_.

(** ** Well-formed handle maps *)

(** The pointers of the map: what the caller sees as [map[0..len-1]]. *)
Definition entries (map : handle_map) : list Z :=
  match map with None => [] | Some mp => drop (Z.to_nat H_OFFSET) mp end.

(** The number of handles in use. *)
Fixpoint in_use (l : list Z) : nat :=
  match l with
  | [] => O
  | p :: l => if p =? 0 then in_use l else S (in_use l)
  end.

(** Entry [h] of a list of pointers that is null beyond its end. *)
Definition hget (map : handle_map) (h : Z) : Z := zget (entries map) h.

(** A map with [k] handles that were allocated and not yet stored. *)
Definition handles_ok (k : Z) (map : handle_map) : Prop :=
  match map with
  | None => k = 0
  | Some mp => exists len used, exists l : list Z,
      mp = len :: used :: l /\ len = zlen l /\ (H_INCR | len) /\ 0 < len /\
      used = Z.of_nat (in_use l) + k /\ 0 < used /\ used <= len
  end.

(** ** Lemmas on arrays and scans *)

Lemma zlen_wset l h v : 0 <= h < zlen l -> zlen (wset l h v) = zlen l.
Proof. intros. apply length_bput; simpl; lia. Qed.

Lemma zget_wset l h v k : 0 <= h < zlen l -> 0 <= k ->
  zget (wset l h v) k = if k =? h then v else zget l k.
Proof.
  intros. unfold wset. rewrite zget_bput by (simpl; lia). cbn [length].
  destruct (Z.eqb_spec k h) as [->|].
  - destruct (Z.leb_spec h h), (Z.ltb_spec h (h + Z.of_nat 1)); simpl; [|lia..].
    by rewrite Z.sub_diag.
  - destruct (Z.leb_spec h k), (Z.ltb_spec k (h + Z.of_nat 1)); simpl; [lia|done..].
Qed.

Lemma zget_header a b l h : 0 <= h -> zget (a :: b :: l) (h + H_OFFSET) = zget l h.
Proof.
  intros. unfold zget, H_OFFSET. rewrite Z2Nat.inj_add by lia.
  change (Z.to_nat 2) with 2%nat. rewrite Nat.add_comm. done.
Qed.

Lemma wset_header a b l h v : 0 <= h ->
  wset (a :: b :: l) (h + H_OFFSET) v = a :: b :: wset l h v.
Proof.
  intros. unfold wset, bput, H_OFFSET. rewrite Z2Nat.inj_add by lia.
  change (Z.to_nat 2) with 2%nat. rewrite Nat.add_comm. done.
Qed.

Lemma wset_cons x l h v : 0 < h -> wset (x :: l) h v = x :: wset l (h - 1) v.
Proof.
  intros. unfold wset, bput.
  replace (Z.to_nat h) with (S (Z.to_nat (h - 1))) by lia. done.
Qed.

Lemma zget_cons x l h : 0 < h -> zget (x :: l) h = zget l (h - 1).
Proof.
  intros. unfold zget. replace (Z.to_nat h) with (S (Z.to_nat (h - 1))) by lia. done.
Qed.

Lemma in_use_wset l h v : 0 <= h < zlen l ->
  Z.of_nat (in_use (wset l h v)) + (if zget l h =? 0 then 0 else 1) =
  Z.of_nat (in_use l) + (if v =? 0 then 0 else 1).
Proof.
  revert h. induction l as [|p l IH]; intros h Hh; [simpl in Hh; lia|].
  cbn [length] in Hh. destruct (Z.eq_dec h 0) as [->|].
  - unfold wset, bput, zget. change (Z.to_nat 0) with 0%nat. cbn [take drop length plus app nth in_use]. rewrite drop_0.
      destruct (p =? 0), (v =? 0); lia.
  - rewrite wset_cons, zget_cons by lia. specialize (IH (h - 1)).
    cbn [in_use]. destruct (p =? 0); lia.
Qed.

Lemma in_use_le l : (in_use l <= length l)%nat.
Proof. induction l as [|p l IH]; simpl; [lia|]. destruct (p =? 0); lia. Qed.

Lemma in_use_full l : in_use l = length l -> forall h, 0 <= h < zlen l -> zget l h <> 0.
Proof.
  induction l as [|p l IH]; simpl; [lia|]. intros E h Hh.
  pose proof (in_use_le l). destruct (Z.eqb_spec p 0) as [->|]; [lia|].
  destruct (Z.eq_dec h 0) as [->|]; [done|].
  rewrite zget_cons by lia. apply IH; lia.
Qed.

Lemma in_use_none l : in_use l = O -> forall h, 0 <= h -> zget l h = 0.
Proof.
  induction l as [|p l IH]; simpl; intros E h Hh.
  - unfold zget. by destruct (Z.to_nat h).
  - destruct (Z.eqb_spec p 0) as [->|]; [|lia].
    destruct (Z.eq_dec h 0) as [->|]; [done|]. rewrite zget_cons by lia. apply IH; [done|lia].
Qed.

Lemma in_use_pos l h : 0 <= h -> zget l h <> 0 -> (0 < in_use l)%nat.
Proof.
  intros Hh Hg. destruct (in_use l) eqn:E; [|lia].
  destruct Hg. by apply in_use_none.
Qed.

Lemma in_use_zeros l n : in_use (l ++ repeat 0 n) = in_use l.
Proof.
  induction l as [|p l IH]; simpl; [induction n; done|]. destruct (p =? 0); auto.
Qed.

Lemma zget_zeros l n h : 0 <= h -> zget (l ++ repeat 0 n) h = zget l h.
Proof.
  intros. rewrite zget_app by lia. destruct (Z.ltb_spec h (zlen l)); [done|].
  unfold zget. rewrite nth_repeat. symmetry. apply nth_overflow. lia.
Qed.

Lemma zget_beyond l h : zlen l <= h -> zget l h = 0.
Proof. intros. apply nth_overflow. lia. Qed.

Lemma scan_null_spec n mp h :
  0 <= h ->
  match scan_null n mp h with
  | Some h' => h <= h' < h + Z.of_nat n /\ zget mp (h' + H_OFFSET) = 0 /\
  forall j, h <= j < h' -> zget mp (j + H_OFFSET) <> 0
  | None => forall j, h <= j < h + Z.of_nat n -> zget mp (j + H_OFFSET) <> 0
  end.
Proof.
  revert h. induction n as [|n IH]; intros h Hh; cbn [scan_null]; [lia|].
  destruct (Z.eqb_spec (zget mp (h + H_OFFSET)) 0) as [E|E].
  - split; [lia|]. split; [done|]. lia.
  - specialize (IH (h + 1)). destruct (scan_null n mp (h + 1)) as [h'|].
    + destruct IH as (? & ? & Hj); [lia|]. split; [lia|]. split; [done|].
      intros j ?. destruct (Z.eq_dec j h) as [->|]; [done|]. apply Hj. lia.
    + intros j ?. destruct (Z.eq_dec j h) as [->|]; [done|]. apply IH; lia.
Qed.

Lemma scan_used_spec n mp :
  let h := scan_used n mp in
  -1 <= h < Z.of_nat n /\ (0 <= h -> zget mp (h + H_OFFSET) <> 0) /\  forall j, h < j < Z.of_nat n -> 0 <= j -> zget mp (j + H_OFFSET) = 0.
Proof.
  induction n as [|n IH]; cbn [scan_used]; [simpl; repeat split; intros; lia|].
  destruct (Z.eqb_spec (zget mp (Z.of_nat n + H_OFFSET)) 0) as [E|E]; simpl negb; cbv iota.
  - destruct IH as (? & ? & Hj). split; [lia|]. split; [done|].
    intros j ??. destruct (Z.eq_dec j (Z.of_nat n)) as [->|]; [done|]. apply Hj; lia.
  - simpl. split; [lia|]. split; [done|]. lia.
Qed.

Hypothesis balloc_words_spec : forall n mp, 0 <= n -> balloc_words n = Some mp -> zlen mp = n / WORD.
Hypothesis brealloc_words_spec : forall old n mp, brealloc_words old n = Some mp ->
  zlen old * WORD <= n -> exists rest, mp = old ++ rest /\ zlen mp = n / WORD.

Lemma handles_ok_entries k map h :
  handles_ok k map -> 0 <= h -> hget map h <> 0 -> h < zlen (entries map).
Proof.
  intros _ ? Hg. destruct (Z.lt_ge_cases h (zlen (entries map))); [done|].
  destruct Hg. by apply zget_beyond.
Qed.

Lemma hAlloc_grow_spec len used l h map' :
  handles_ok 0 (Some (len :: used :: l)) ->
  used = len ->
  hAlloc_grow (len :: used :: l) len len = (h, map') ->
  (h = -1 /\ map' = Some (len :: used :: l)) \/
  (h = len /\ map' = Some (len + H_INCR :: used + 1 :: l ++ repeat 0 (Z.to_nat H_INCR))).
Proof using brealloc_words_spec.
  intros (len' & used' & l' & [= <- <- <-] & Hlen & _ & ? & _) Hu E.
  unfold hAlloc_grow in E.
  destruct (brealloc_words _ _) as [mp|] eqn:B; [|left; by simplify_eq].
  right. injection E as <- <-. split; [done|]. f_equal.
  pose proof (brealloc_words_spec _ _ _ B) as (rest & -> & Hr).
  { cbn [length]. unfold WORD, H_OFFSET, H_INCR. lia. }
  rewrite Z.div_mul in Hr by (unfold WORD; lia).
  rewrite length_app in Hr. cbn [length] in Hr. unfold H_OFFSET, H_INCR in *.
  assert (Hrest : length rest = 16%nat) by lia.
  change (wset ((len :: used :: l) ++ rest) H_LEN (len + 16))
    with (len + 16 :: used :: l ++ rest).
  replace (2 + (len + 16) - 16) with (len + 2) by lia.
  assert (Hb : bput (len + 16 :: used :: l ++ rest) (len + 2) (repeat 0 (Z.to_nat 16))
               = len + 16 :: used :: l ++ repeat 0 (Z.to_nat 16)).
  { unfold bput. rewrite Hlen.
    replace (Z.to_nat (zlen l + 2)) with (S (S (length l))) by lia. cbn [take].
    rewrite take_app_length. cbn [app]. do 2 f_equal. f_equal.
    change (Z.to_nat 16) with 16%nat. rewrite repeat_length.
    replace (S (S (length l)) + 16)%nat with (S (S (length l + 16))) by lia. cbn [drop].
    rewrite drop_ge; [by rewrite app_nil_r|]. rewrite length_app. lia. }
  change [0;0;0;0;0;0;0;0;0;0;0;0;0;0;0;0] with (repeat 0 (Z.to_nat 16)).
  rewrite Hb. done.
Qed.

(** ** The operations on well-formed maps *)

Lemma entries_some len used l : entries (Some (len :: used :: l)) = l.
Proof. reflexivity. Qed.

Lemma hAlloc_in_spec len used l h map' :
  handles_ok 0 (Some (len :: used :: l)) \/ (used = 0 /\ l = repeat 0 16 /\ len = 16) ->
  hAlloc_in (len :: used :: l) = (h, map') ->
  (h = -1 /\ used = len /\ map' = Some (len :: used :: l)) \/
  (handles_ok 1 map' /\ 0 <= h < zlen (entries map') /\ zget l h = 0 /\
   (forall j, 0 <= j < h -> zget l j <> 0) /\
   (forall j, 0 <= j -> hget map' j = zget l j)).
Proof using brealloc_words_spec.
  intros Hok E.
  assert (Hl : len = zlen l /\ (H_INCR | len) /\ 0 < len /\
               used = Z.of_nat (in_use l) /\ 0 <= used).
  { destruct Hok as [(len' & used' & l' & [= <- <- <-] & ? & ? & ? & ? & ?)|(-> & -> & ->)].
      { repeat split; first [done|lia]. }
    unfold H_INCR. repeat split; try done. }
  destruct Hl as (Hlen & Hdiv & Hpos & Hused & Hu0). pose proof (in_use_le l) as Hle.
  unfold hAlloc_in in E.
  change (zget (len :: used :: l) H_USED) with used in E.
  change (zget (len :: used :: l) H_LEN) with len in E.
  pose proof (scan_null_spec (Z.to_nat len) (len :: used :: l) 0) as Hs.
  specialize (Hs ltac:(lia)).
  destruct (Z.ltb_spec used len) as [Hlt|Hge].
  - destruct (scan_null _ _ 0) as [h'|].
    + right. injection E as <- <-. destruct Hs as (Hr & Hz & Hj).
      rewrite zget_header in Hz by lia.
      change (wset (len :: used :: l) H_USED (used + 1)) with (len :: used + 1 :: l).
      split; [|split; [|split; [done|split; [|done]]]].
      * exists len, (used + 1), l. repeat split; first [done|lia].
      * rewrite entries_some. lia.
      * intros j ?. specialize (Hj j ltac:(lia)). by rewrite zget_header in Hj by lia.
    + exfalso. assert (in_use l = length l); [|lia].
      clear -Hs Hlen. assert (Hn : forall j, 0 <= j < zlen l -> zget l j <> 0).
      { intros j ?. specialize (Hs j). rewrite zget_header in Hs by lia. apply Hs. lia. }
      clear Hs Hlen. induction l as [|p l IH]; [done|]. cbn [in_use length].
      assert (p <> 0) by (apply (Hn 0); cbn [length]; lia).
      destruct (Z.eqb_spec p 0); [done|]. f_equal. apply IH. intros j Hj.
      specialize (Hn (j + 1)). rewrite zget_cons in Hn by lia.
      replace (j + 1 - 1) with j in Hn by lia. apply Hn. cbn [length]. lia.
  - destruct Hok as [Hok|(-> & _ & ->)]; [|lia].
    destruct (hAlloc_grow_spec _ _ _ _ _ Hok ltac:(lia) E) as [[-> ->]|[-> ->]];
      [left; split; [done|]; split; [lia|done]|].
    right. assert (Hfull : in_use l = length l) by lia.
    split; [|split; [|split; [|split]]].
    + exists (len + H_INCR), (used + 1), (l ++ repeat 0 (Z.to_nat H_INCR)).
      rewrite in_use_zeros, length_app, repeat_length. unfold H_INCR in *.
      repeat split; try lia. by apply Z.divide_add_r.
    + rewrite entries_some, length_app, repeat_length. unfold H_INCR. lia.
    + apply zget_beyond. lia.
    + intros j ?. apply in_use_full; [done|lia].
    + intros j ?. unfold hget. rewrite entries_some. by rewrite zget_zeros.
Qed.

Lemma hAlloc_spec map h map' :
  handles_ok 0 map -> hAlloc map = (h, map') ->
  (h = -1 /\ map' = map) \/
  (handles_ok 1 map' /\ 0 <= h < zlen (entries map') /\ hget map h = 0 /\
   (forall j, 0 <= j < h -> hget map j <> 0) /\
   (forall j, 0 <= j -> hget map' j = hget map j)).
Proof using balloc_words_spec brealloc_words_spec.
  intros Hok E. destruct map as [mp|]; cbn [hAlloc] in E.
  - pose proof Hok as (len & used & l & -> & _).
    destruct (hAlloc_in_spec _ _ _ _ _ (or_introl Hok) E) as [(-> & _ & ->)|Hs]; [by left|right].
    exact Hs.
  - destruct (balloc_words _) as [mp|] eqn:B; [|left; by simplify_eq].
    apply balloc_words_spec in B; [|unfold H_INCR, H_OFFSET, WORD; lia].
    change ((H_INCR + H_OFFSET) * WORD / WORD) with 18 in *.
    assert (Hb : bput mp 0 (repeat 0 (Z.to_nat 18)) = 0 :: 0 :: repeat 0 16).
    { unfold bput. rewrite drop_ge; [done|]. rewrite repeat_length. lia. }
    rewrite Hb in E. clear Hb.
    change (wset (wset (0 :: 0 :: repeat 0 16) H_LEN H_INCR) H_USED 0)
      with (16 :: 0 :: repeat 0 16) in E.
    assert (Hz : forall j, zget (repeat 0 16) j = zget [] j).
    { intros j. unfold zget. rewrite nth_repeat. by destruct (Z.to_nat j). }
    apply hAlloc_in_spec in E; [|right; auto].
    destruct E as [(_ & ? & _)|(? & ? & ? & Hj & Hg)]; [lia|].
    right. do 2 (split; [done|]). unfold hget. cbn [entries]. setoid_rewrite <- Hz. auto.
Qed.

(** Storing a pointer in a handle that was allocated, or clearing one. *)
Lemma hset_spec k len used l h v :
  handles_ok k (Some (len :: used :: l)) -> 0 <= h < zlen l ->
  let map' := Some (len :: used :: wset l h v) in
  (forall j, 0 <= j -> hget map' j = if j =? h then v else hget (Some (len :: used :: l)) j) /\
  handles_ok (k + (if zget l h =? 0 then 0 else 1) - (if v =? 0 then 0 else 1)) map'.
Proof.
  intros (len' & used' & l' & [= <- <- <-] & ? & ? & ? & Hu & ?) Hh map'. split.
  - intros j ?. unfold hget, map'. rewrite !entries_some. by apply zget_wset.
  - exists len, used, (wset l h v). rewrite zlen_wset by lia. split; [done|].
    pose proof (in_use_wset l h v Hh). repeat split; first [done|lia].
Qed.

(** [hFree] on a map with [k] handles not stored: the handle is one that is
    stored or one of those [k]. *)
Lemma hFree_spec k map h :
  handles_ok k map -> 0 <= k -> 0 <= h < zlen (entries map) ->
  hget map h <> 0 \/ 0 < k ->
  exists r map', hFree map h = Some (r, map') /\
    (forall j, 0 <= j -> hget map' j = if j =? h then 0 else hget map j) /\
    handles_ok (if hget map h =? 0 then k - 1 else k) map' /\
    0 <= r /\ (0 < r -> hget map' (r - 1) <> 0) /\
    (forall j, r <= j -> hget map' j = 0).
Proof.
  intros Hok Hk Hh Hcase. destruct map as [mp|]; [|cbn in Hh; lia].
  pose proof Hok as (len & used & l & -> & Hlen & Hdiv & Hlp & Hused & Hup & Hul).
  unfold hget in Hcase |- *. rewrite entries_some in Hcase, Hh |- *.
  destruct (hset_spec _ _ _ _ _ 0 Hok Hh) as [Hg _]. clear Hok.
  pose proof (in_use_wset l h 0 Hh) as Hcount. cbn [Z.eqb] in Hcount.
  set (l' := wset l h 0) in *. assert (Hlen' : zlen l' = len) by (subst l'; rewrite zlen_wset; lia).
  cbn [hFree option_bind mbind]. rewrite wset_header by lia. fold l'.
  change (wset (len :: used :: l') H_USED (zget (len :: used :: l') H_USED - 1))
    with (len :: used - 1 :: l').
  change (zget (len :: used - 1 :: l') H_USED) with (used - 1).
  destruct (Z.eqb_spec (used - 1) 0) as [Hz|Hz].
  - eexists _, None. split; [done|]. cbn [entries].
    assert (Hz' : forall j, 0 <= j -> zget l' j = 0).
    { apply in_use_none. destruct (Z.eqb_spec (zget l h) 0) as [E|E]; [lia|].
      pose proof (in_use_pos l h (proj1 Hh) E). lia. }
    assert (Hnil : forall j, zget [] j = 0) by (intros j; unfold zget; by destruct (Z.to_nat j)).
    split.
    { intros j ?. rewrite Hnil. etransitivity; [symmetry; by apply Hz'|by apply Hg]. }
    split; [|split; [lia|split; [lia|done]]].
    cbn. destruct (Z.eqb_spec (zget l h) 0) as [E|E].
    + lia.
    + pose proof (in_use_pos l h (proj1 Hh) E). lia.
  - change (zget (len :: used - 1 :: l') H_LEN) with len.
    change (zget (len :: used - 1 :: l') H_USED) with (used - 1).
    destruct (Z.ltb_spec (used - 1) len); [|lia].
    eexists _, (Some _). split; [done|]. rewrite entries_some.
    split; [done|]. split.
    { exists len, (used - 1), l'. repeat split; try first [done|lia].
      destruct (zget l h =? 0); lia. }
    pose proof (scan_used_spec (Z.to_nat len) (len :: used - 1 :: l')) as (Hr & Hnz & Hz').
    set (r := scan_used _ _) in *. split; [lia|]. split.
    + intros ?. replace (r + 1 - 1) with r by lia. specialize (Hnz ltac:(lia)).
      by rewrite zget_header in Hnz by lia.
    + intros j ?. destruct (Z.lt_ge_cases j len).
      * specialize (Hz' j ltac:(lia) ltac:(lia)). by rewrite zget_header in Hz' by lia.
      * apply zget_beyond. lia.
Qed.

(** The entry that is allocated, or none. *)
Lemma hAllocEntry_spec list_ max size :
  handles_ok 0 list_ -> 0 < size ->
  exists id list' max', hAllocEntry list_ max size = Some (id, list', max') /\
    handles_ok 0 list' /\
    ((id = -1 /\ max' = max /\ forall j, 0 <= j -> hget list' j = hget list_ j) \/
     (0 <= id /\ hget list_ id = 0 /\ (forall j, 0 <= j < id -> hget list_ j <> 0) /\
      balloc size <> 0 /\ max' = Z.max max (id + 1) /\
      forall j, 0 <= j -> hget list' j = if j =? id then balloc size else hget list_ j)).
Proof using balloc_words_spec brealloc_words_spec.
  intros Hok Hsize. unfold hAllocEntry.
  destruct (hAlloc list_) as [id map'] eqn:E.
  destruct (hAlloc_spec _ _ _ Hok E) as [[-> ->]|(Hok' & Hid & Hz & Hleast & Hsame)].
  { do 3 eexists. split; [done|]. split; [done|]. by left. }
  destruct (Z.ltb_spec id 0); [lia|]. destruct (Z.ltb_spec 0 size); [|lia].
  destruct (Z.eqb_spec (balloc size) 0) as [Hc|Hc].
  - destruct (hFree_spec 1 map' id) as (r & map'' & -> & Hg & Hok'' & _); [done|lia|lia|lia|].
    rewrite Hsame, Hz in Hok'' by lia. cbn.
    do 3 eexists. split; [done|]. split; [exact Hok''|]. left. split; [done|]. split; [done|].
    intros j ?. rewrite Hg by done. destruct (Z.eqb_spec j id) as [->|]; [done|]. by apply Hsame.
  - destruct map' as [mp|]; [|cbn in Hid; lia].
    pose proof Hok' as (len & used & l & -> & _). rewrite entries_some in Hid.
    destruct (hset_spec _ _ _ _ id (balloc size) Hok' Hid) as [Hg Hok''].
    assert (Hzl : zget l id = 0) by (rewrite <- Hz, <- Hsame by lia; done).
    rewrite Hzl in Hok''. destruct (Z.eqb_spec (balloc size) 0); [done|]. cbn in Hok''.
    cbn [mbind option_bind]. rewrite wset_header by lia.
    do 3 eexists. split; [done|]. split; [exact Hok''|]. right.
    do 4 (split; [first [done|lia]|]). split; [destruct (Z.leb_spec max id); lia|].
    intros j ?. rewrite Hg by done. destruct (j =? id); [done|]. by apply Hsame.
Qed.

(** Allocating an entry ([hAllocEntry], with a positive size) on a well-formed
    handle map: either memory is exhausted and the call returns -1 with no handle
    changed, or it returns the least free handle, that handle now holds the new
    block, every other handle is unchanged, and [*max] is at least one past it.
    The map stays well-formed (its header counts exactly the handles in use). *)
Theorem hAllocEntry_correct list_ max size :
  handles_ok 0 list_ -> 0 < size ->
  exists id list' max', hAllocEntry list_ max size = Some (id, list', max') /\
    handles_ok 0 list' /\
    ((id = -1 /\ max' = max /\ forall j, 0 <= j -> hget list' j = hget list_ j) \/
     (0 <= id /\ hget list_ id = 0 /\ (forall j, 0 <= j < id -> hget list_ j <> 0) /\
      balloc size <> 0 /\ max' = Z.max max (id + 1) /\
      forall j, 0 <= j -> hget list' j = if j =? id then balloc size else hget list_ j)).
Proof using balloc_words_spec brealloc_words_spec.
  intros Hok Hsize. exact (hAllocEntry_spec list_ max size Hok Hsize).
Qed.

(** With memory, a handle is always found. *)
Lemma hAlloc_in_nonneg mp : (forall old n, brealloc_words old n <> None) -> 0 <= zget mp H_LEN -> 0 <= (hAlloc_in mp).1.
Proof.
  intros Hr Hlen.
  assert (Hg : 0 <= (hAlloc_grow mp (zget mp H_LEN) (zget mp H_LEN)).1).
  { unfold hAlloc_grow. destruct (brealloc_words mp _) eqn:E; [done|]. by apply Hr in E. }
  unfold hAlloc_in. destruct (_ <? _); [|done].
  pose proof (scan_null_spec (Z.to_nat (zget mp H_LEN)) mp 0 ltac:(lia)) as Hs.
  destruct (scan_null _ mp 0); [cbn; lia|done].
Qed.

Lemma hAlloc_nonneg map : (forall n, balloc_words n <> None) -> (forall old n, brealloc_words old n <> None) ->
  handles_ok 0 map -> 0 <= (hAlloc map).1.
Proof using balloc_words_spec.
  intros Hb Hr Hok. destruct map as [mp|]; cbn [hAlloc].
  - destruct Hok as (len & used & l & -> & ? & _ & ? & _). apply hAlloc_in_nonneg; [done|]. change (zget (len :: used :: l) H_LEN) with len. lia.
  - destruct (balloc_words _) as [mp|] eqn:B; [|by apply Hb in B].
    apply balloc_words_spec in B; [|unfold H_INCR, H_OFFSET, WORD; lia].
    change ((H_INCR + H_OFFSET) * WORD / WORD) with 18 in *.
    assert (E : bput mp 0 (repeat 0 (Z.to_nat 18)) = 0 :: 0 :: repeat 0 16).
    { unfold bput. rewrite drop_ge; [done|]. rewrite repeat_length. lia. }
    rewrite E. by apply hAlloc_in_nonneg.
Qed.
Lemma hAllocEntry_nonneg list_ max size id list' max' : (forall n, balloc_words n <> None) ->
  (forall old n, brealloc_words old n <> None) -> handles_ok 0 list_ -> (0 < size -> balloc size <> 0) ->
  hAllocEntry list_ max size = Some (id, list', max') -> 0 <= id.
Proof using balloc_words_spec.
  intros Hb Hr Hok Hp. pose proof (hAlloc_nonneg list_ Hb Hr Hok) as Hn. unfold hAllocEntry.
  destruct (hAlloc list_) as [h map]. cbn [fst] in Hn. replace (h <? 0) with false by lia. cbv zeta.
  destruct (Z.ltb_spec 0 size); [|by intros [= <- _ _]].
  replace (balloc size =? 0) with false by (specialize (Hp ltac:(done)); zb).
  destruct map; cbn; [by intros [= <- _ _]|done].
Qed.

End Alloc.

(** Freeing a handle in use ([hFree]): the handle becomes free, the others are
    unchanged, the map stays well-formed (and is released with its last handle),
    and the result is one past the greatest handle still in use, 0 if there is
    none. *)
Theorem hFree_correct map h :
  handles_ok 0 map -> 0 <= h -> hget map h <> 0 ->
  exists r map', hFree map h = Some (r, map') /\ handles_ok 0 map' /\
    (forall j, 0 <= j -> hget map' j = if j =? h then 0 else hget map j) /\
    0 <= r /\ (0 < r -> hget map' (r - 1) <> 0) /\
    (forall j, r <= j -> hget map' j = 0).
Proof.
  intros Hok Hh Hnz. pose proof (handles_ok_entries _ _ _ Hok Hh Hnz).
  destruct (hFree_spec 0 map h) as (r & map' & ? & ? & Hok' & ?); [done|lia|lia|by left|].
  destruct (Z.eqb_spec (hget map h) 0); [done|]. eauto 10.
Qed.

(** A handle below one in use is in the list. *)
Lemma hread_below map h h' : handles_ok 0 map -> 0 <= h <= h' -> hget map h' <> 0 ->
  hread map h = Some (hget map h).
Proof.
  intros Hok Hh Hnz. assert (h' < zlen (entries map)) as Hlt by (eapply handles_ok_entries; eauto; lia).
  destruct map as [mp|]; [|cbn in Hlt; lia].
  destruct Hok as (len & used & l & -> & _). rewrite entries_some in Hlt.
  unfold hread, hget. cbn [mbind option_bind]. rewrite entries_some, zget_header by lia.
  replace ((- H_OFFSET <=? h) && (h + H_OFFSET <? zlen (len :: used :: l))) with true; [done|].
  symmetry. unfold H_OFFSET. cbn [length]. apply andb_true_intro. split; zb.
Qed.

(** ** The hypotheses hold together: an allocator with a small limit *)

Definition demo_words (n : Z) : option (list Z) :=
  if n <=? 4096 then Some (repeat 119 (Z.to_nat (n / WORD))) else None.
Definition demo_rewords (old : list Z) (n : Z) : option (list Z) :=
  if n <=? 4096 then Some (old ++ repeat 119 (Z.to_nat (n / WORD) - length old)) else None.

Lemma demo_words_spec n mp : 0 <= n -> demo_words n = Some mp -> zlen mp = n / WORD.
Proof.
  unfold demo_words. intros ?. destruct (n <=? 4096); [|done]. intros [= <-]. rewrite repeat_length.
  assert (0 <= n / WORD) by (apply Z.div_pos; unfold WORD; lia). lia.
Qed.

Lemma demo_rewords_spec old n mp : demo_rewords old n = Some mp ->
  zlen old * WORD <= n -> exists rest, mp = old ++ rest /\ zlen mp = n / WORD.
Proof.
  unfold demo_rewords. destruct (n <=? 4096); [|done]. intros [= <-] Hn.
  eexists. split; [done|]. rewrite length_app, repeat_length.
  assert (zlen old <= n / WORD) by (apply Z.div_le_lower_bound; unfold WORD in *; lia). lia.
Qed.

(** A map of 16 handles of which handle 1 is free. *)
Definition demo_map : handle_map := Some (16 :: 2 :: 4096 :: 0 :: 8192 :: repeat 0 13).

Lemma demo_map_ok : handles_ok 0 demo_map.
Proof.
  exists 16, 2, (4096 :: 0 :: 8192 :: repeat 0 13). repeat split; try done.
Qed.

Lemma hAllocEntry_correct_witness :
  exists list', hAllocEntry demo_words demo_rewords (fun _ => 12288) demo_map 3 8
    = Some (1, list', 3) /\ hget list' 1 = 12288.
Proof.
  destruct (hAllocEntry_correct demo_words demo_rewords (fun _ => 12288)
              demo_words_spec demo_rewords_spec demo_map 3 8 demo_map_ok eq_refl)
    as (id & list' & max' & E & _ & H).
  vm_compute in E. injection E as <- <- <-. eexists. split; [vm_compute; reflexivity|].
  reflexivity.
Defined.

Lemma hFree_correct_witness :
  exists map', hFree demo_map 2 = Some (1, map') /\ hget map' 0 = 4096.
Proof.
  destruct (hFree_correct demo_map 2 demo_map_ok) as (r & map' & E & _ & H & _); [done|done|].
  vm_compute in E. injection E as <- <-. eexists. split; [vm_compute; reflexivity|].
  reflexivity.
Defined.
