(* ===== verification/DbIface.v ===== *)
(** * The database as its clients see it

    What the user management (um.c) needs of the database module (emfdb.h): tables of
    typed columns whose rows are numbered and may be deleted.  [adb] is the abstract
    database with one function per operation; the class [Database] lists the operations
    of an implementation and [DatabaseLaws] says that they behave like the functions on
    [adb].  [EmfDb] is the implementation of the repository. *)

From stdpp Require Import gmap.
From S2P Require Import Prelude CString.
#[local] Open Scope Z_scope.
#[local] Open Scope cint_scope.

(** ** emfdb.h *)

Definition T_INT : Z := 0.
Definition T_STRING : Z := 1.
Definition DB_ERR_COL_NOT_FOUND : Z := -2.
Definition DB_ERR_ROW_NOT_FOUND : Z := -4.
Definition DB_ERR_ROW_DELETED : Z := -5.
Definition DB_ERR_TABLE_NOT_FOUND : Z := -6.
Definition DB_ERR_TABLE_DELETED : Z := -7.
Definition DB_ERR_BAD_FORMAT : Z := -8.
Definition DB_CASE_INSENSITIVE : Z := 1.

(** A word of a row: a number, 0 being the null pointer as well, or the address of a
    string. *)
Inductive cell : Type := CInt (z : Z) | CStr (s : list Z).

#[export] Instance cell_eq_dec : EqDecision cell.
Proof. solve_decision. Defined.

(** The word as a [char_t *]; a number is no address. *)
Definition ptr_of_cell (c : cell) : option cptr :=
  match c with CInt z => if z =? 0 then Some None else None | CStr s => Some (Some s) end.

(** A table definition, without rows. *)
Record schema : Type := mkSchema {
  sch_name : list Z;
  sch_cols : list (list Z * Z)
}.

(** ** The abstract database *)

(** A table: its columns with their types, and its rows; a deleted row leaves a hole. *)
Record tview : Type := mkView {
  tv_name : list Z;
  tv_cols : list (list Z * Z);
  tv_slots : list (option (list cell))
}.

Abbreviation adb := (list tview) (only parsing).

(** The position of the first element that satisfies [f]. *)
Fixpoint findi {A} (f : A -> bool) (l : list A) : option nat :=
  match l with
  | [] => None
  | x :: l => if f x then Some 0%nat else S <$> findi f l
  end.

Definition table_at (vs : adb) (nm : list Z) : option (nat * tview) :=
  i ← findi (fun v => bool_decide (tv_name v = nm)) vs;
  v ← vs !! i;
  Some (i, v).

Definition col_at (v : tview) (nm : list Z) : option nat :=
  findi (fun c => bool_decide (c.1 = nm)) (tv_cols v).

(** The type of a column. *)
Definition col_type (vs : adb) (t c : list Z) : option Z :=
  '(_, v) ← table_at vs t;
  j ← col_at v c;
  snd <$> tv_cols v !! j.

Definition row_at (v : tview) (r : Z) : option (list cell) :=
  if 0 <=? r then mjoin (tv_slots v !! Z.to_nat r) else None.

Definition same_str (flags : Z) (a b : list Z) : bool :=
  if flags =? DB_CASE_INSENSITIVE then bool_decide (map tolower a = map tolower b)
  else bool_decide (a = b).

Definition slot_has (j : nat) (value : list Z) (flags : Z) (slot : option (list cell)) : bool :=
  match slot ≫= (.!! j) with Some (CStr s) => same_str flags s value | _ => false end.

Definition a_search (vs : adb) (t c value : list Z) (flags : Z) : Z :=
  match table_at vs t with
  | None => DB_ERR_TABLE_NOT_FOUND
  | Some (_, v) =>
      match col_at v c with
      | None => DB_ERR_COL_NOT_FOUND
      | Some j => match findi (slot_has j value flags) (tv_slots v) with
                  | Some r => Z.of_nat r
                  | None => -1
                  end
      end
  end.

Definition a_read (vs : adb) (t c : list Z) (r : Z) : Z * option cell :=
  match table_at vs t with
  | None => (DB_ERR_TABLE_NOT_FOUND, None)
  | Some (_, v) =>
      if (0 <=? r) && (r <? zlen (tv_slots v)) then
        match col_at v c with
        | None => (DB_ERR_COL_NOT_FOUND, None)
        | Some j => match row_at v r with
                    | None => (DB_ERR_ROW_DELETED, None)
                    | Some cells => (0, cells !! j)
                    end
        end
      else (DB_ERR_ROW_NOT_FOUND, None)
  end.

Definition set_slots (v : tview) (f : list (option (list cell)) -> list (option (list cell))) : tview :=
  mkView (tv_name v) (tv_cols v) (f (tv_slots v)).

Definition put_cell (v : tview) (r : Z) (j : nat) (c : cell) : tview :=
  set_slots v (alter (fmap (<[j := c]>)) (Z.to_nat r)).

(** Writing a cell, [c] a number or a string; a string needs a string column. *)
Definition a_write (vs : adb) (t cn : list Z) (r : Z) (c : cell) : Z * adb :=
  match table_at vs t with
  | None => (DB_ERR_TABLE_NOT_FOUND, vs)
  | Some (i, v) =>
      match col_at v cn with
      | None => (DB_ERR_COL_NOT_FOUND, vs)
      | Some j =>
          match c, snd <$> tv_cols v !! j with
          | CStr _, Some 0 => (DB_ERR_BAD_FORMAT, vs)
          | _, _ =>
              if (0 <=? r) && (r <? zlen (tv_slots v)) then
                match row_at v r with
                | None => (DB_ERR_ROW_DELETED, vs)
                | Some _ => (0, <[i := put_cell v r j c]> vs)
                end
              else (DB_ERR_ROW_NOT_FOUND, vs)
          end
      end
  end.

(** The first hole, or a new slot at the end. *)
Definition is_hole {A} (s : option A) : bool := match s with None => true | Some _ => false end.
Definition free_slot {A} (slots : list (option A)) : nat :=
  default (length slots) (findi is_hole slots).

Definition fill_slot {A} (slots : list (option A)) (n : nat) (cells : A) : list (option A) :=
  if decide (n < length slots)%nat then <[n := Some cells]> slots else slots ++ [Some cells].

Definition a_add (vs : adb) (t : list Z) : Z * adb :=
  match table_at vs t with
  | None => (DB_ERR_TABLE_NOT_FOUND, vs)
  | Some (i, v) =>
      let n := free_slot (tv_slots v) in
      (Z.of_nat n,
       <[i := set_slots v (fun s => fill_slot s n (repeat (CInt 0) (length (tv_cols v))))]> vs)
  end.

(** Holes at the end are not kept. *)
Fixpoint trim {A} (l : list (option A)) : list (option A) :=
  match l with
  | [] => []
  | x :: l => match x, trim l with None, [] => [] | x, l => x :: l end
  end.

Definition a_delete (vs : adb) (t : list Z) (r : Z) : Z * adb :=
  match table_at vs t with
  | None => (DB_ERR_TABLE_NOT_FOUND, vs)
  | Some (i, v) =>
      if (0 <=? r) && (r <? zlen (tv_slots v)) then
        (0, <[i := set_slots v (fun s => trim (<[Z.to_nat r := None]> s))]> vs)
      else (-1, vs)
  end.

Definition a_zero (vs : adb) : adb := map (fun v => set_slots v (fun _ => [])) vs.

(** *** Well-formed databases *)

(** A cell of a column of type [ty]. *)
Definition cell_ok (ty : Z) (c : cell) : Prop :=
  match c with
  | CInt z => ty = T_INT \/ ty = T_STRING /\ z = 0
  | CStr s => ty = T_STRING /\ no_nul s
  end.

Definition row_ok (cols : list (list Z * Z)) (cells : list cell) : Prop :=
  Forall2 (fun col c => cell_ok col.2 c) cols cells.

Record view_ok (v : tview) : Prop := {
  vo_types : Forall (fun col => col.2 = T_INT \/ col.2 = T_STRING) (tv_cols v);
  vo_cols : tv_cols v <> [];
  vo_rows : forall r cells, tv_slots v !! r = Some (Some cells) -> row_ok (tv_cols v) cells;
  vo_trim : trim (tv_slots v) = tv_slots v
}.

Definition adb_ok (vs : adb) : Prop := Forall view_ok vs.

(** ** The interface *)

Class Database (D : Type) : Type := {
  dbOpen : D -> Z * D;
  dbClose : D -> option D;
  dbZero : D -> option D;
  dbRegisterDBSchema : D -> schema -> option (Z * D);
  dbSearchStr : D -> cptr -> cptr -> cptr -> Z -> option Z;
  dbReadInt : D -> cptr -> cptr -> Z -> option (Z * option cell);
  dbReadStr : D -> cptr -> cptr -> Z -> option (Z * option cell);
  dbWriteInt : D -> cptr -> cptr -> Z -> Z -> option (Z * D);
  dbWriteStr : D -> cptr -> cptr -> Z -> cptr -> option (Z * D);
  dbAddRow : D -> cptr -> option (Z * D);
  dbDeleteRow : D -> cptr -> Z -> option (Z * D)
}.

(** [db_rep d vs]: the implementation state [d] stands for [vs]. *)
Class DatabaseLaws (D : Type) `{Database D} : Type := {
  db_rep : D -> adb -> Prop;
  db_rep_ok d vs : db_rep d vs -> adb_ok vs;
  (** the strings of a column of numbers are no strings *)
  db_search_ok d vs t c value flags : db_rep d vs -> col_type vs t c <> Some T_INT ->
    dbSearchStr d (Some t) (Some c) (Some value) flags = Some (a_search vs t c value flags);
  db_readint_ok d vs t c r : db_rep d vs ->
    dbReadInt d (Some t) (Some c) r = Some (a_read vs t c r);
  db_readstr_ok d vs t c r : db_rep d vs ->
    dbReadStr d (Some t) (Some c) r = Some (a_read vs t c r);
  (** a number is only written to a column of numbers *)
  db_writeint_ok d vs t c r z : db_rep d vs -> col_type vs t c <> Some T_STRING ->
    exists d', dbWriteInt d (Some t) (Some c) r z = Some ((a_write vs t c r (CInt z)).1, d') /\
      db_rep d' (a_write vs t c r (CInt z)).2;
  db_writestr_ok d vs t c r s : db_rep d vs -> no_nul s ->
    exists d', dbWriteStr d (Some t) (Some c) r (Some s) = Some ((a_write vs t c r (CStr s)).1, d') /\
      db_rep d' (a_write vs t c r (CStr s)).2;
  db_writenull_ok d t c r : dbWriteStr d (Some t) (Some c) r None = dbWriteStr d (Some t) (Some c) r (Some []);
  (** a new row, or no memory *)
  db_add_ok d vs t : db_rep d vs -> exists r d', dbAddRow d (Some t) = Some (r, d') /\
    (r = (a_add vs t).1 /\ db_rep d' (a_add vs t).2 \/ r = -1 /\ db_rep d' vs);
  db_delete_ok d vs t r : db_rep d vs -> exists d', dbDeleteRow d (Some t) r =
    Some ((a_delete vs t r).1, d') /\ db_rep d' (a_delete vs t r).2;
  db_zero_ok d vs : db_rep d vs -> exists d', dbZero d = Some d' /\ db_rep d' (a_zero vs);
  db_close_ok d vs : db_rep d vs -> exists d', dbClose d = Some d' /\ db_rep d' [];
  db_open_ok d : (dbOpen d).1 = 0 /\ db_rep (dbOpen d).2 [];
  (** registering crashes when memory is out *)
  db_register_ok d vs sch r d' : db_rep d vs -> view_ok (mkView (sch_name sch) (sch_cols sch) []) ->
    dbRegisterDBSchema d sch = Some (r, d') ->
    r = 0 /\ db_rep d' (vs ++ [mkView (sch_name sch) (sch_cols sch) []])
}.

(** ** Lemmas on the abstract database *)

Lemma findi_Some {A} (f : A -> bool) l i : findi f l = Some i <->
  exists x, l !! i = Some x /\ f x = true /\ forall k y, (k < i)%nat -> l !! k = Some y -> f y = false.
Proof.
  revert i. induction l as [|x l IH]; intros i; cbn [findi].
  { split; [done|]. by intros (? & ? & _). }
  destruct (f x) eqn:E.
  - split; [intros [= <-]; exists x; split_and!; [done|done|lia]|].
    intros (y & Hy & Hf & Hk). destruct i as [|i]; [done|].
    specialize (Hk 0%nat x ltac:(lia) eq_refl). congruence.
  - rewrite fmap_Some. split.
    + intros (k & Hk & ->). apply IH in Hk as (y & Hy & Hf & Hk). exists y. split_and!; [done|done|].
      intros [|k'] z Hlt Hz; [by injection Hz as <-|]. apply (Hk k'); [lia|done].
    + intros (y & Hy & Hf & Hk). destruct i as [|i]; cbn in Hy; [by injection Hy as ->; congruence|].
      exists i. split; [|done]. apply IH. exists y. split_and!; [done|done|].
      intros k z Hlt Hz. apply (Hk (S k)); [lia|done].
Qed.

Lemma findi_None {A} (f : A -> bool) l : findi f l = None <-> Forall (fun x => f x = false) l.
Proof.
  induction l as [|x l IH]; cbn [findi]; [by split|].
  rewrite Forall_cons_iff, <- IH. destruct (f x), (findi f l); cbn; naive_solver.
Qed.

Lemma findi_lt {A} (f : A -> bool) l i : findi f l = Some i -> (i < length l)%nat.
Proof. intros (x & Hx & _)%findi_Some. by eapply lookup_lt_Some. Qed.

Lemma table_at_lookup vs nm i v : table_at vs nm = Some (i, v) -> vs !! i = Some v /\ tv_name v = nm.
Proof.
  unfold table_at. destruct (findi _ vs) as [k|] eqn:E; [|done]. cbn.
  apply findi_Some in E as (x & Hx & Hf & _). rewrite Hx. intros [= -> ->].
  split; [done|]. by apply bool_decide_eq_true in Hf.
Qed.

Lemma col_at_lt v nm j : col_at v nm = Some j -> (j < length (tv_cols v))%nat.
Proof. apply findi_lt. Qed.

Lemma findi_insert {A} (f : A -> bool) l i x y : l !! i = Some y -> f x = f y ->
  findi f (<[i := x]> l) = findi f l.
Proof.
  revert i. induction l as [|z l IH]; intros i; [done|]. destruct i as [|i].
  - cbn. intros [= ->] ->. done.
  - change (<[S i := x]> (z :: l)) with (z :: <[i := x]> l). cbn. intros Hi Hf. by rewrite (IH i Hi Hf).
Qed.

Lemma table_at_insert vs nm i v v' : table_at vs nm = Some (i, v) -> tv_name v' = tv_name v ->
  table_at (<[i := v']> vs) nm = Some (i, v').
Proof.
  intros Ht Hn. pose proof (table_at_lookup _ _ _ _ Ht) as [Hv _]. unfold table_at in *.
  rewrite (findi_insert _ _ _ _ v Hv) by by rewrite Hn.
  destruct (findi _ vs) as [k|]; [|done]. cbn [mbind option_bind] in *.
  destruct (vs !! k) as [w|] eqn:Ew; [|done]. injection Ht as -> ->. cbn.
  by rewrite list_lookup_insert_eq by by eapply lookup_lt_Some.
Qed.


(** Operations do not change the definitions of the tables. *)
Definition schema_of (vs : adb) : list (list Z * list (list Z * Z)) :=
  map (fun v => (tv_name v, tv_cols v)) vs.

Lemma schema_insert vs i v v' : vs !! i = Some v -> tv_name v' = tv_name v -> tv_cols v' = tv_cols v ->
  schema_of (<[i := v']> vs) = schema_of vs.
Proof.
  intros Hv Hn Hc. unfold schema_of. rewrite list_fmap_insert, Hn, Hc. apply list_insert_id.
  by rewrite list_lookup_fmap, Hv.
Qed.

Lemma write_schema vs t c r x : schema_of (a_write vs t c r x).2 = schema_of vs.
Proof.
  unfold a_write. destruct (table_at vs t) as [[i v]|] eqn:Et; [|done].
  apply table_at_lookup in Et as [Hv _].
  repeat case_match; try done; cbn [snd]; by eapply schema_insert.
Qed.

Lemma add_schema vs t : schema_of (a_add vs t).2 = schema_of vs.
Proof.
  unfold a_add. destruct (table_at vs t) as [[i v]|] eqn:Et; [|done].
  apply table_at_lookup in Et as [Hv _]. by eapply schema_insert.
Qed.

Lemma delete_schema vs t r : schema_of (a_delete vs t r).2 = schema_of vs.
Proof.
  unfold a_delete. destruct (table_at vs t) as [[i v]|] eqn:Et; [|done].
  apply table_at_lookup in Et as [Hv _]. case_match; [|done]. by eapply schema_insert.
Qed.

Lemma zero_schema vs : schema_of (a_zero vs) = schema_of vs.
Proof. unfold schema_of, a_zero. by rewrite map_map. Qed.

Lemma findi_map {A B} (f : B -> bool) (g : A -> B) l : findi f (map g l) = findi (fun x => f (g x)) l.
Proof. induction l as [|x l IH]; cbn; [done|]. by rewrite IH. Qed.

Lemma col_type_schema vs vs' t c : schema_of vs = schema_of vs' -> col_type vs t c = col_type vs' t c.
Proof.
  intros Hs.
  assert (H : forall ws, col_type ws t c =
    (i ← findi (fun s => bool_decide (s.1 = t)) (schema_of ws);
     s ← schema_of ws !! i;
     j ← findi (fun col => bool_decide (col.1 = c)) s.2;
     snd <$> s.2 !! j)).
  { intros ws. unfold col_type, table_at, schema_of, col_at. rewrite findi_map. cbn [fst].
    destruct (findi _ ws) as [i|]; [|done]. cbn [mbind option_bind]. rewrite list_lookup_fmap.
    by destruct (ws !! i). }
  by rewrite !H, Hs.
Qed.

(** ** Sequences of operations *)

Inductive dbop : Type :=
| OSearch (t c value : list Z) (flags : Z)
| OReadInt (t c : list Z) (r : Z)
| OReadStr (t c : list Z) (r : Z)
| OWriteInt (t c : list Z) (r z : Z)
| OWriteStr (t c : list Z) (r : Z) (s : list Z)
| OAddRow (t : list Z)
| ODeleteRow (t : list Z) (r : Z)
| OZero.

(** The calls that respect the types of the columns of [vs]. *)
Definition op_typed (vs : adb) (op : dbop) : Prop :=
  match op with
  | OSearch t c _ _ => col_type vs t c <> Some T_INT
  | OWriteInt t c _ _ => col_type vs t c <> Some T_STRING
  | OWriteStr _ _ _ s => no_nul s
  | _ => True
  end.

(** One operation: the code it returns, the value it reads and the new state. *)
Definition do_op `{Database D} (d : D) (op : dbop) : option ((Z * option cell) * D) :=
  match op with
  | OSearch t c value flags =>
      r ← dbSearchStr d (Some t) (Some c) (Some value) flags; Some ((r, None), d)
  | OReadInt t c r => res ← dbReadInt d (Some t) (Some c) r; Some (res, d)
  | OReadStr t c r => res ← dbReadStr d (Some t) (Some c) r; Some (res, d)
  | OWriteInt t c r z => '(e, d) ← dbWriteInt d (Some t) (Some c) r z; Some ((e, None), d)
  | OWriteStr t c r s => '(e, d) ← dbWriteStr d (Some t) (Some c) r (Some s); Some ((e, None), d)
  | OAddRow t => '(e, d) ← dbAddRow d (Some t); Some ((e, None), d)
  | ODeleteRow t r => '(e, d) ← dbDeleteRow d (Some t) r; Some ((e, None), d)
  | OZero => d ← dbZero d; Some ((0, None), d)
  end.

Fixpoint run_ops `{Database D} (d : D) (ops : list dbop) : option (list (Z * option cell) * D) :=
  match ops with
  | [] => Some ([], d)
  | op :: ops => '(r, d) ← do_op d op; '(rs, d) ← run_ops d ops; Some (r :: rs, d)
  end.

(** What the operation does to the abstract database; a new row may find no memory. *)
Inductive a_step : adb -> dbop -> Z * option cell -> adb -> Prop :=
| as_search vs t c value flags :
    a_step vs (OSearch t c value flags) (a_search vs t c value flags, None) vs
| as_readint vs t c r : a_step vs (OReadInt t c r) (a_read vs t c r) vs
| as_readstr vs t c r : a_step vs (OReadStr t c r) (a_read vs t c r) vs
| as_writeint vs t c r z :
    a_step vs (OWriteInt t c r z) ((a_write vs t c r (CInt z)).1, None) (a_write vs t c r (CInt z)).2
| as_writestr vs t c r s :
    a_step vs (OWriteStr t c r s) ((a_write vs t c r (CStr s)).1, None) (a_write vs t c r (CStr s)).2
| as_add vs t : a_step vs (OAddRow t) ((a_add vs t).1, None) (a_add vs t).2
| as_nomem vs t : a_step vs (OAddRow t) (-1, None) vs
| as_delete vs t r : a_step vs (ODeleteRow t r) ((a_delete vs t r).1, None) (a_delete vs t r).2
| as_zero vs : a_step vs OZero (0, None) (a_zero vs).

Inductive a_steps : adb -> list dbop -> list (Z * option cell) -> adb -> Prop :=
| as_nil vs : a_steps vs [] [] vs
| as_cons vs op r vs1 ops rs vs2 : a_step vs op r vs1 -> a_steps vs1 ops rs vs2 ->
    a_steps vs (op :: ops) (r :: rs) vs2.

#[export] Hint Constructors a_step a_steps : dbops.

Lemma a_step_schema vs op r vs' : a_step vs op r vs' -> schema_of vs' = schema_of vs.
Proof.
  destruct 1; auto using write_schema, add_schema, delete_schema, zero_schema.
Qed.

Lemma op_typed_schema vs vs' op : schema_of vs' = schema_of vs -> op_typed vs op -> op_typed vs' op.
Proof. intros E. destruct op; cbn; try done; by rewrite (col_type_schema _ _ _ _ E). Qed.

Lemma do_op_ok `{DatabaseLaws D} (d : D) vs op : db_rep d vs -> op_typed vs op ->
  exists r d' vs', do_op d op = Some (r, d') /\ a_step vs op r vs' /\ db_rep d' vs'.
Proof.
  intros Hr Hty. destruct op; cbn [do_op op_typed] in *.
  - rewrite (db_search_ok _ _ _ _ _ _ Hr Hty). cbn. eauto 6 with dbops.
  - rewrite (db_readint_ok _ _ _ _ _ Hr). cbn. eauto 6 with dbops.
  - rewrite (db_readstr_ok _ _ _ _ _ Hr). cbn. eauto 6 with dbops.
  - destruct (db_writeint_ok _ _ _ _ r z Hr Hty) as (d' & -> & ?). cbn. eauto 6 with dbops.
  - destruct (db_writestr_ok _ _ t c r _ Hr Hty) as (d' & -> & ?). cbn. eauto 6 with dbops.
  - destruct (db_add_ok _ _ t Hr) as (r & d' & -> & [[-> ?]|[-> ?]]); cbn; eauto 6 with dbops.
  - destruct (db_delete_ok _ _ t r Hr) as (d' & -> & ?). cbn. eauto 6 with dbops.
  - destruct (db_zero_ok _ _ Hr) as (d' & -> & ?). cbn. eauto 6 with dbops.
Qed.

Lemma run_ops_ok `{DatabaseLaws D} ops : forall (d : D) vs, db_rep d vs -> Forall (op_typed vs) ops ->
  exists rs d' vs', run_ops d ops = Some (rs, d') /\ a_steps vs ops rs vs' /\ db_rep d' vs'.
Proof.
  induction ops as [|op ops IH]; intros d vs Hr Hty; [eauto 7 with dbops|].
  apply Forall_cons_iff in Hty as [Ho Hty].
  destruct (do_op_ok d vs op Hr Ho) as (r & d1 & vs1 & E1 & Hs1 & Hr1).
  destruct (IH d1 vs1 Hr1) as (rs & d' & vs' & E & Hs & Hr').
  { eapply List.Forall_impl; [|exact Hty]. intros o. by apply op_typed_schema, (a_step_schema _ _ _ _ Hs1). }
  cbn [run_ops]. rewrite E1. cbn [mbind option_bind]. rewrite E. cbn. eauto 7 with dbops.
Qed.

(** Registering tables one after the other. *)
Fixpoint register_all `{Database D} (d : D) (schs : list schema) : option D :=
  match schs with
  | [] => Some d
  | sch :: schs => '(_, d) ← dbRegisterDBSchema d sch; register_all d schs
  end.

Definition empty_table (sch : schema) : tview := mkView (sch_name sch) (sch_cols sch) [].

Lemma register_all_ok `{DatabaseLaws D} schs : forall (d : D) vs d', db_rep d vs ->
  Forall (fun sch => view_ok (empty_table sch)) schs -> register_all d schs = Some d' ->
  db_rep d' (vs ++ map empty_table schs).
Proof.
  induction schs as [|sch schs IH]; intros d vs d' Hr Hok; cbn [register_all].
  { intros [= <-]. by rewrite app_nil_r. }
  apply Forall_cons_iff in Hok as [Hs Hok].
  destruct (dbRegisterDBSchema d sch) as [[r d1]|] eqn:E; [|done]. cbn.
  destruct (db_register_ok _ _ _ _ _ Hr Hs E) as [_ Hr1]. intros E'.
  rewrite cons_middle, app_assoc. by apply (IH d1).
Qed.
