(* ===== verification/EmfDb.v ===== *)
(** * The text-file database (webs/src/src/emfdb.c, emfdb.h)

    Tables of typed columns, registered with a schema and found by name; a table's rows
    and the tables themselves are reached through handle maps.  Tables and rows live in
    stores, under the addresses that the handle maps hold.  A result [None] means that
    the code crashes: a null or wild pointer is followed.

    [dbSave] and [dbLoad], which write and read the text file, are in [EmfFile]. *)

From stdpp Require Import gmap.
From S2P Require Import Prelude CString Handles DbIface.
#[local] Open Scope Z_scope.
#[local] Open Scope cint_scope.

Record dbTable : Type := mkTable {
  name : cptr;
  nColumns : Z;
  columnNames : list cptr;
  columnTypes : list Z;
  nRows : Z;
  rows : handle_map
}.

(** The variables of the module, and the tables and rows in memory. *)
Record db : Type := mkDb {
  dbMaxTables : Z;
  dbListTables : handle_map;
  tables : gmap Z dbTable;
  rowcells : gmap Z (list cell)
}.

(** [gstrcmp] and [gstricmp] follow their arguments. *)
Definition gstrcmp (a b : cptr) : option Z := a ← a; b ← b; Some (strcmp a b).
Definition gstricmp (a b : cptr) : option Z :=
  a ← a; b ← b; Some (strcmp (map tolower a) (map tolower b)).

(** [p[i]] of an array that is a list of its elements. *)
Definition aread {A} (l : list A) (i : Z) : option A :=
  if 0 <=? i then l !! Z.to_nat i else None.

(** ** Finding tables and columns *)

(** The loop of [dbGetTableId] over the tables from [tid] on, [n] of them. *)
Fixpoint dbGetTableId_loop (n : nat) (st : db) (tid : Z) (tablename : cptr) : option Z :=
  match n with
  | O => Some (-1)
  | S n =>
      p ← hread (dbListTables st) tid;
      if p =? 0 then dbGetTableId_loop n st (tid + 1) tablename
      else
        t ← tables st !! p;
        c ← gstrcmp tablename (name t);
        if c =? 0 then Some tid else dbGetTableId_loop n st (tid + 1) tablename
  end.

Definition dbGetTableId (st : db) (tablename : cptr) : option Z :=
  dbGetTableId_loop (Z.to_nat (dbMaxTables st)) st 0 tablename.

(** [(tid >= 0) && (tid < dbMaxTables) && (dbListTables[tid] != NULL)]: the address of
    the table, 0 when the test fails. *)
Definition valid_tid (st : db) (tid : Z) : option Z :=
  if (0 <=? tid) && (tid <? dbMaxTables st) then hread (dbListTables st) tid else Some 0.

Definition dbGetTableName (st : db) (tid : Z) : option cptr :=
  p ← valid_tid st tid;
  if p =? 0 then Some None else t ← tables st !! p; Some (name t).

Fixpoint GetColumnIndex_loop (n : nat) (t : dbTable) (column : Z) (colName : cptr) : option Z :=
  match n with
  | O => Some (-1)
  | S n =>
      nm ← aread (columnNames t) column;
      c ← gstrcmp colName nm;
      if c =? 0 then Some column else GetColumnIndex_loop n t (column + 1) colName
  end.

Definition GetColumnIndex (st : db) (tid : Z) (colName : cptr) : option Z :=
  p ← valid_tid st tid;
  if p =? 0 then Some (-1)
  else t ← tables st !! p; GetColumnIndex_loop (Z.to_nat (nColumns t)) t 0 colName.

(** ** Searching and reading *)

(** [while (row < nRows) ..] *)
Fixpoint search_loop (n : nat) (st : db) (t : dbTable) (column row : Z) (value : cptr) (flags : Z)
  : option Z :=
  match n with
  | O => Some (-1)
  | S n =>
      pRow ← hread (rows t) row;
      if pRow =? 0 then search_loop n st t column (row + 1) value flags
      else
        cells ← rowcells st !! pRow;
        c ← aread cells column;
        match c with
        | CInt z => if z =? 0 then search_loop n st t column (row + 1) value flags else None
        | CStr s =>
            m ← (if flags =? DB_CASE_INSENSITIVE then gstricmp (Some s) value
                 else gstrcmp (Some s) value);
            if m =? 0 then Some row else search_loop n st t column (row + 1) value flags
        end
  end.

Definition dbSearchStr (st : db) (tablename colName value : cptr) (flags : Z) : option Z :=
  tid ← dbGetTableId st tablename;
  p ← valid_tid st tid;
  if p =? 0 then Some DB_ERR_TABLE_NOT_FOUND
  else
    t ← tables st !! p;
    column ← GetColumnIndex st tid colName;
    if 0 <=? column then search_loop (Z.to_nat (nRows t)) st t column 0 value flags
    else Some DB_ERR_COL_NOT_FOUND.

(** The code that is returned, and what is stored in [*returnValue]. *)
Definition dbReadInt (st : db) (table column : cptr) (row : Z) : option (Z * option cell) :=
  tid ← dbGetTableId st table;
  if tid <? 0 then Some (DB_ERR_TABLE_NOT_FOUND, None)
  else
    p ← hread (dbListTables st) tid;
    if p =? 0 then Some (DB_ERR_TABLE_DELETED, None)
    else
      t ← tables st !! p;
      if (0 <=? row) && (row <? nRows t) then
        colIndex ← GetColumnIndex st tid column;
        if 0 <=? colIndex then
          pRow ← hread (rows t) row;
          if negb (pRow =? 0) then
            cells ← rowcells st !! pRow;
            c ← aread cells colIndex;
            Some (0, Some c)
          else Some (DB_ERR_ROW_DELETED, None)
        else Some (DB_ERR_COL_NOT_FOUND, None)
      else Some (DB_ERR_ROW_NOT_FOUND, None).

Definition dbReadStr (st : db) (table column : cptr) (row : Z) : option (Z * option cell) :=
  dbReadInt st table column row.

Definition dbGetTableNrow (st : db) (tablename : cptr) : option Z :=
  tid ← dbGetTableId st tablename;
  p ← valid_tid st tid;
  if p =? 0 then Some (-1) else t ← tables st !! p; Some (nRows t).

(** ** Writing *)

(** [p[i] = v] *)
Definition awrite {A} (l : list A) (i : Z) (v : A) : option (list A) :=
  if (0 <=? i) && (i <? zlen l) then Some (<[Z.to_nat i := v]> l) else None.

(** [pRow[colIndex] = c] *)
Definition write_cell (st : db) (pRow colIndex : Z) (c : cell) : option db :=
  cells ← rowcells st !! pRow;
  cells ← awrite cells colIndex c;
  Some (st <| rowcells := <[pRow := cells]> (rowcells st) |>).

Definition dbWriteInt (st : db) (table column : cptr) (row iData : Z) : option (Z * db) :=
  tid ← dbGetTableId st table;
  if tid <? 0 then Some (DB_ERR_TABLE_NOT_FOUND, st)
  else
    p ← hread (dbListTables st) tid;
    if negb (p =? 0) then
      t ← tables st !! p;
      colIndex ← GetColumnIndex st tid column;
      if 0 <=? colIndex then
        if (0 <=? row) && (row <? nRows t) then
          pRow ← hread (rows t) row;
          if negb (pRow =? 0) then
            st ← write_cell st pRow colIndex (CInt iData);
            Some (0, st)
          else Some (DB_ERR_ROW_DELETED, st)
        else Some (DB_ERR_ROW_NOT_FOUND, st)
      else Some (DB_ERR_COL_NOT_FOUND, st)
    else Some (DB_ERR_TABLE_DELETED, st).

(** [if (p) bfree(p)] for the word of a string column: only a string can be freed. *)
Definition free_cell (c : cell) : option unit :=
  match c with CInt z => if z =? 0 then Some tt else None | CStr _ => Some tt end.

Section Memory.
Context (balloc_words : Z -> option (list Z)).
Context (brealloc_words : list Z -> Z -> option (list Z)).
(** [balloc] of a table and of a row: an address outside of the ones in use, or 0. *)
Context (new_table : gmap Z dbTable -> Z) (new_row : gmap Z (list cell) -> Z).
Context (bstrdup : list Z -> cptr).

Definition cell_of_ptr (p : cptr) : cell := match p with None => CInt 0 | Some s => CStr s end.

Definition dbWriteStr (st : db) (table column : cptr) (row : Z) (s : cptr) : option (Z * db) :=
  tid ← dbGetTableId st table;
  if tid <? 0 then Some (DB_ERR_TABLE_NOT_FOUND, st)
  else
    p ← hread (dbListTables st) tid;
    if p =? 0 then Some (DB_ERR_TABLE_DELETED, st)
    else
      t ← tables st !! p;
      colIndex ← GetColumnIndex st tid column;
      if colIndex <? 0 then Some (DB_ERR_COL_NOT_FOUND, st)
      else
        type ← aread (columnTypes t) colIndex;
        if negb (type =? T_STRING) then Some (DB_ERR_BAD_FORMAT, st)
        else if (0 <=? row) && (row <? nRows t) then
          pRow ← hread (rows t) row;
          if pRow =? 0 then Some (DB_ERR_ROW_DELETED, st)
          else
            cells ← rowcells st !! pRow;
            c ← aread cells colIndex;
            _ ← free_cell c;
            st ← write_cell st pRow colIndex (cell_of_ptr (bstrdup_ptr bstrdup s));
            Some (0, st)
        else Some (DB_ERR_ROW_NOT_FOUND, st).

(** ** Rows *)

Definition dbAddRow (st : db) (tablename : cptr) : option (Z * db) :=
  tid ← dbGetTableId st tablename;
  p ← valid_tid st tid;
  if p =? 0 then Some (DB_ERR_TABLE_NOT_FOUND, st)
  else
    t ← tables st !! p;
    let size := nColumns t * WORD in
    let cp := new_row (rowcells st) in
    '(id, rows', nRows') ← hAllocEntry balloc_words brealloc_words (fun _ => cp) (rows t) (nRows t) size;
    let st := st <| tables := <[p := t <| rows := rows' |> <| nRows := nRows' |>]> (tables st) |> in
    let st := if 0 <=? id
              then st <| rowcells := <[cp := repeat (CInt 0) (Z.to_nat (nColumns t))]> (rowcells st) |>
              else st in
    Some (id, st).

(** The loop over the columns of a row that frees the strings. *)
Fixpoint free_columns (n : nat) (t : dbTable) (cells : list cell) (column : Z) : option unit :=
  match n with
  | O => Some tt
  | S n =>
      c ← aread cells column;
      type ← aread (columnTypes t) column;
      _ ← (if type =? T_STRING then free_cell c else Some tt);
      free_columns n t cells (column + 1)
  end.

Definition dbDeleteRow (st : db) (tablename : cptr) (row : Z) : option (Z * db) :=
  tid ← dbGetTableId st tablename;
  p ← valid_tid st tid;
  if p =? 0 then Some (DB_ERR_TABLE_NOT_FOUND, st)
  else
    t ← tables st !! p;
    if (0 <=? row) && (row <? nRows t) then
      pRow ← hread (rows t) row;
      if negb (pRow =? 0) then
        cells ← rowcells st !! pRow;
        _ ← free_columns (Z.to_nat (nColumns t)) t cells 0;
        '(n, rows') ← hFree (rows t) row;
        Some (0, st <| rowcells := delete pRow (rowcells st) |>
                    <| tables := <[p := t <| rows := rows' |> <| nRows := n |>]> (tables st) |>)
      else Some (0, st)
    else Some (-1, st).

(** [while (pTable->nRows < nNewRows) ..] *)
Fixpoint grow_loop (fuel : nat) (st : db) (p : Z) (tablename : cptr) (nNewRows : Z)
  : option (Z * db) :=
  match fuel with
  | O => None
  | S fuel =>
      t ← tables st !! p;
      if nRows t <? nNewRows then
        '(r, st) ← dbAddRow st tablename;
        if r <? 0 then Some (-1, st) else grow_loop fuel st p tablename nNewRows
      else Some (0, st)
  end.

(** Every round fills a free row below [nNewRows]. *)
Definition dbSetTableNrow (st : db) (tablename : cptr) (nNewRows : Z) : option (Z * db) :=
  tid ← dbGetTableId st tablename;
  p ← valid_tid st tid;
  if p =? 0 then Some (DB_ERR_TABLE_NOT_FOUND, st)
  else
    t ← tables st !! p;
    if nNewRows <=? nRows t then Some (0, st)
    else grow_loop (S (Z.to_nat nNewRows)) st p tablename nNewRows.

(** ** Tables *)

(** The definitions of the caller are copied.  Without memory for the entry the code
    goes on with the handle -1. *)
Definition dbRegisterDBSchema (st : db) (reg : schema) : option (Z * db) :=
  let p := new_table (tables st) in
  let n := zlen (sch_cols reg) in
  '(tid, list_, mx) ← hAllocEntry balloc_words brealloc_words (fun _ => p)
                        (dbListTables st) (dbMaxTables st) (6 * WORD);
  if tid <? 0 then None
  else
    _ ← (if 0 <? n then balloc_words (WORD * n) else Some []);
    _ ← (if 0 <? n then balloc_words (WORD * n) else Some []);
    let t := mkTable (bstrdup (sch_name reg)) n (map (fun c => bstrdup c.1) (sch_cols reg))
               (map snd (sch_cols reg)) 0 None in
    Some (0, st <| dbListTables := list_ |> <| dbMaxTables := mx |>
                <| tables := <[p := t]> (tables st) |>).

Definition dbOpen (st : db) : Z * db :=
  (0, st <| dbMaxTables := 0 |> <| dbListTables := None |>).

(** [dbZero]: the loop over the rows of a table. *)
Fixpoint zero_rows (n : nat) (t : dbTable) (cs : gmap Z (list cell)) (row : Z)
  : option (dbTable * gmap Z (list cell)) :=
  match n with
  | O => Some (t, cs)
  | S n =>
      pRow ← hread (rows t) row;
      if negb (pRow =? 0) then
        cells ← cs !! pRow;
        _ ← free_columns (Z.to_nat (nColumns t)) t cells 0;
        '(_, rows') ← hFree (rows t) row;
        zero_rows n (t <| rows := rows' |>) (delete pRow cs) (row + 1)
      else zero_rows n t cs (row + 1)
  end.

Fixpoint dbZero_loop (n : nat) (st : db) (table : Z) : option db :=
  match n with
  | O => Some st
  | S n =>
      p ← hread (dbListTables st) table;
      if p =? 0 then dbZero_loop n st (table + 1)
      else
        t ← tables st !! p;
        '(t, cs) ← zero_rows (Z.to_nat (nRows t)) t (rowcells st) 0;
        dbZero_loop n (st <| tables := <[p := t <| rows := None |> <| nRows := 0 |>]> (tables st) |>
                          <| rowcells := cs |>) (table + 1)
  end.

Definition dbZero (st : db) : option db := dbZero_loop (Z.to_nat (dbMaxTables st)) st 0.

Fixpoint dbClose_loop (n : nat) (st : db) (table : Z) : option db :=
  match n with
  | O => Some st
  | S n =>
      p ← hread (dbListTables st) table;
      if p =? 0 then dbClose_loop n st (table + 1)
      else
        _ ← tables st !! p;
        '(_, list_) ← hFree (dbListTables st) table;
        dbClose_loop n (st <| tables := delete p (tables st) |> <| dbListTables := list_ |>) (table + 1)
  end.

(** [if (dbListTables) bfree(dbListTables)]: the pointer is past the header of the block,
    so it cannot be freed. *)
Definition dbClose (st : db) : option db :=
  st ← dbZero st;
  st ← dbClose_loop (Z.to_nat (dbMaxTables st)) st 0;
  _ ← (match dbListTables st with Some _ => None | None => Some tt end);
  Some (st <| dbListTables := None |> <| dbMaxTables := 0 |>).
End Memory.
