(* ===== verification/EmfDbSpec.v ===== *)
(** * The text-file database implements the abstract one

    [EmfDb] is an instance of [Database]: every operation behaves like the function on
    [adb] of the same kind, whatever rows were deleted before. *)

From stdpp Require Import gmap.
From S2P Require Import Prelude CString Handles DbIface EmfDb.
#[local] Open Scope Z_scope.
#[local] Open Scope cint_scope.

(** ** Trimmed lists *)

(** A trimmed list has no hole at its end. *)
Lemma trim_last {A} (l : list (option A)) : trim l = l -> l <> [] ->
  exists x, l !! (length l - 1)%nat = Some (Some x).
Proof.
  induction l as [|x l IH]; [done|]. intros E _. cbn [trim] in E.
  destruct x as [x|], l as [|y l]; [by exists x| |done|].
  - assert (E' : trim (y :: l) = y :: l) by (by injection E).
    destruct (IH E') as (z & Hz); [done|]. exists z. cbn [length] in *.
    replace (S (S (length l)) - 1)%nat with (S (S (length l) - 1)) by lia. exact Hz.
  - assert (E' : trim (y :: l) = y :: l) by (destruct (trim (y :: l)); [done|by injection E as -> ->]).
    destruct (IH E') as (z & Hz); [done|]. exists z. cbn [length] in *.
    replace (S (S (length l)) - 1)%nat with (S (S (length l) - 1)) by lia. exact Hz.
Qed.

Lemma trim_lookup {A} (l : list (option A)) r : mjoin (trim l !! r) = mjoin (l !! r).
Proof.
  revert r. induction l as [|x l IH]; intros r; [done|]. cbn [trim].
  destruct x as [x|]; [destruct r; [done|apply IH]|].
  destruct (trim l) as [|y l'] eqn:E.
  - destruct r; [done|]. cbn. by rewrite <- IH.
  - destruct r; [done|apply IH].
Qed.

Lemma trim_idemp {A} (l : list (option A)) : trim (trim l) = trim l.
Proof.
  induction l as [|x l IH]; [done|]. cbn [trim].
  destruct x as [x|]; [cbn [trim]; by rewrite IH|].
  destruct (trim l) as [|y l'] eqn:E; [done|]. cbn [trim] in IH |- *. by rewrite IH.
Qed.

(** The trimmed list is the one with these elements. *)
Lemma trim_unique {A} (l : list (option A)) n :
  (forall r, (n <= r)%nat -> mjoin (l !! r) = None) -> (n = 0%nat \/ mjoin (l !! (n - 1)%nat) <> None) ->
  length (trim l) = n.
Proof.
  intros Hn Hl. pose proof (trim_lookup l) as Hk.
  destruct (Nat.lt_trichotomy (length (trim l)) n) as [?|[?|?]]; [|done|].
  - destruct Hl as [->|Hl]; [lia|]. destruct Hl. rewrite <- Hk, lookup_ge_None_2 by lia. done.
  - destruct (trim_last (trim l)) as (x & Hx); [apply trim_idemp|by (intros E; rewrite E in *; cbn in *; lia)|].
    specialize (Hk (length (trim l) - 1)%nat). rewrite Hx, Hn in Hk by lia. done.
Qed.

Lemma trim_prefix {A} (l : list (option A)) : trim l `prefix_of` l.
Proof.
  induction l as [|x l [k IH]]; [by exists []|]. cbn [trim].
  destruct x as [x|]; [exists k; cbn; by f_equal|].
  destruct (trim l) as [|y l'] eqn:E; [by exists (None :: l)|]. exists k. cbn. by f_equal.
Qed.

Lemma trim_iff {A} (l : list (option A)) :
  trim l = l <-> l = [] \/ mjoin (l !! (length l - 1)%nat) <> None.
Proof.
  split.
  - intros E. destruct (decide (l = [])) as [?|Hne]; [by left|right].
    destruct (trim_last l E Hne) as (x & ->). done.
  - intros [->|Hl]; [done|].
    assert (El : length (trim l) = length l).
    { apply trim_unique; [|by right]. intros r Hr. by rewrite lookup_ge_None_2. }
    destruct (trim_prefix l) as [k Ek]. rewrite Ek in El at 2. rewrite length_app in El.
    destruct k; [|cbn in El; lia]. by rewrite app_nil_r in Ek.
Qed.

(** ** Handle maps *)

Lemma hget_none i : hget None i = 0.
Proof. unfold hget, zget. cbn. by destruct (Z.to_nat i). Qed.

(** ** The representation *)

(** The rows of a table: [own] gives the table and the position of a row's address. *)
Definition rows_rep (own : Z -> nat * nat) (cs : gmap Z (list cell)) (i : nat) (t : dbTable)
  (slots : list (option (list cell))) : Prop :=
  nRows t = zlen slots /\ handles_ok 0 (rows t) /\
  forall r : nat, let a := hget (rows t) (Z.of_nat r) in
    match mjoin (slots !! r) with
    | Some cells => a <> 0 /\ cs !! a = Some cells /\ own a = (i, r)
    | None => a = 0
    end.

Record tab_rep (own : Z -> nat * nat) (st : db) (i : nat) (t : dbTable) (v : tview) : Prop := {
  tr_name : name t = Some (tv_name v);
  tr_cols : nColumns t = zlen (tv_cols v);
  tr_names : columnNames t = map (fun c => Some c.1) (tv_cols v);
  tr_types : columnTypes t = map snd (tv_cols v);
  tr_rows : rows_rep own (rowcells st) i t (tv_slots v)
}.

Record rep_with (own : Z -> nat * nat) (town : Z -> nat) (st : db) (vs : list tview) : Prop := {
  rp_ok : adb_ok vs;
  rp_max : dbMaxTables st = zlen vs;
  rp_list : handles_ok 0 (dbListTables st);
  rp_tabs : forall i : nat, let p := hget (dbListTables st) (Z.of_nat i) in
    match vs !! i with
    | Some v => p <> 0 /\ town p = i /\ exists t, tables st !! p = Some t /\ tab_rep own st i t v
    | None => p = 0
    end
}.

Definition rep (st : db) (vs : list tview) : Prop := exists own town, rep_with own town st vs.

Lemma rep_hread own town st vs i : rep_with own town st vs -> (i < length vs)%nat ->
  hread (dbListTables st) (Z.of_nat i) = Some (hget (dbListTables st) (Z.of_nat i)).
Proof.
  intros Hr Hi. eapply (hread_below _ _ (Z.of_nat (length vs - 1))); [apply Hr|lia|].
  pose proof (rp_tabs _ _ _ _ Hr (length vs - 1)%nat) as Ht. cbn in Ht.
  destruct (lookup_lt_is_Some_2 vs (length vs - 1)%nat) as [v Hv]; [lia|]. rewrite Hv in Ht. apply Ht.
Qed.

Lemma rep_table own town st vs i v : rep_with own town st vs -> vs !! i = Some v ->
  exists t, hread (dbListTables st) (Z.of_nat i) = Some (hget (dbListTables st) (Z.of_nat i)) /\
    hget (dbListTables st) (Z.of_nat i) <> 0 /\
    tables st !! hget (dbListTables st) (Z.of_nat i) = Some t /\ tab_rep own st i t v /\ view_ok v.
Proof.
  intros Hr Hv. pose proof (rp_tabs _ _ _ _ Hr i) as Ht. cbn in Ht. rewrite Hv in Ht.
  destruct Ht as (Hp & _ & t & Et & Htr). exists t. split_and!; try done.
  - eapply rep_hread; [done|]. by eapply lookup_lt_Some.
  - apply (Forall_lookup_1 _ vs i); [apply Hr|done].
Qed.

Lemma gstrcmp_some a b : gstrcmp (Some a) (Some b) = Some (strcmp a b).
Proof. done. Qed.

Lemma strcmp_bool a b : (strcmp a b =? 0) = bool_decide (a = b).
Proof.
  destruct (decide (a = b)) as [->|Hn].
  - rewrite bool_decide_true by done. apply Z.eqb_eq. by apply strcmp_eq.
  - rewrite bool_decide_false by done. apply Z.eqb_neq. by rewrite strcmp_eq.
Qed.

Lemma tid_loop_ok own town st vs nm : rep_with own town st vs -> forall n i,
  (i + n = length vs)%nat ->
  dbGetTableId_loop n st (Z.of_nat i) (Some nm) =
    Some (match findi (fun v => bool_decide (tv_name v = nm)) (drop i vs) with
          | Some k => Z.of_nat (i + k) | None => -1 end).
Proof.
  intros Hr. induction n as [|n IH]; intros i Hi.
  { rewrite drop_ge by lia. done. }
  destruct (lookup_lt_is_Some_2 vs i) as [v Hv]; [lia|].
  destruct (rep_table _ _ _ _ _ _ Hr Hv) as (t & Eh & Hp & Et & Htr & _).
  cbn [dbGetTableId_loop]. rewrite Eh. cbn [mbind option_bind].
  replace (hget (dbListTables st) (Z.of_nat i) =? 0) with false by zb.
  rewrite Et. cbn [mbind option_bind]. rewrite (tr_name _ _ _ _ _ Htr), gstrcmp_some. cbn [mbind option_bind].
  rewrite strcmp_bool. rewrite (drop_S vs v i Hv). cbn [findi].
  destruct (decide (tv_name v = nm)) as [->|Hne].
  - rewrite !bool_decide_true by done. do 2 f_equal. lia.
  - rewrite !bool_decide_false by congruence.
    replace (Z.of_nat i + 1) with (Z.of_nat (S i)) by lia. rewrite IH by lia.
    destruct (findi _ (drop (S i) vs)); cbn; do 2 f_equal; lia.
Qed.

Lemma tid_ok own town st vs nm : rep_with own town st vs ->
  dbGetTableId st (Some nm) = Some (match table_at vs nm with Some (i, _) => Z.of_nat i | None => -1 end).
Proof.
  intros Hr. unfold dbGetTableId. rewrite (rp_max _ _ _ _ Hr), Nat2Z.id.
  pose proof (tid_loop_ok _ _ _ _ nm Hr (length vs) 0 eq_refl) as E.
  change (Z.of_nat 0) with 0 in E. rewrite E, drop_0. clear E. unfold table_at.
  destruct (findi _ vs) as [i|] eqn:E; [|done]. cbn [mbind option_bind].
  destruct (lookup_lt_is_Some_2 vs i) as [v ->]; [by eapply findi_lt|]. done.
Qed.

Lemma valid_tid_ok own town st vs i : rep_with own town st vs -> (i < length vs)%nat ->
  valid_tid st (Z.of_nat i) = Some (hget (dbListTables st) (Z.of_nat i)).
Proof.
  intros Hr Hi. unfold valid_tid. rewrite (rp_max _ _ _ _ Hr).
  replace ((0 <=? Z.of_nat i) && (Z.of_nat i <? zlen vs)) with true by lia. by eapply rep_hread.
Qed.

Lemma col_loop_ok own st k t v nm : tab_rep own st k t v -> forall n j,
  (j + n = length (tv_cols v))%nat ->
  GetColumnIndex_loop n t (Z.of_nat j) (Some nm) =
    Some (match findi (fun c => bool_decide (c.1 = nm)) (drop j (tv_cols v)) with
          | Some m => Z.of_nat (j + m) | None => -1 end).
Proof.
  intros Hr. induction n as [|n IH]; intros j Hj.
  { rewrite drop_ge by lia. done. }
  destruct (lookup_lt_is_Some_2 (tv_cols v) j) as [c Hc]; [lia|].
  cbn [GetColumnIndex_loop]. rewrite (tr_names _ _ _ _ _ Hr).
  unfold aread. replace (0 <=? Z.of_nat j) with true by zb. rewrite Nat2Z.id, list_lookup_fmap, Hc.
  cbn [fmap option_fmap option_map mbind option_bind]. rewrite gstrcmp_some. cbn [mbind option_bind].
  rewrite strcmp_bool, (drop_S _ c j Hc). cbn [findi].
  destruct (decide (c.1 = nm)) as [->|Hne].
  - rewrite !bool_decide_true by done. do 2 f_equal. lia.
  - rewrite !bool_decide_false by congruence.
    replace (Z.of_nat j + 1) with (Z.of_nat (S j)) by lia. rewrite IH by lia.
    destruct (findi _ (drop (S j) (tv_cols v))); cbn; do 2 f_equal; lia.
Qed.

Lemma col_ok own town st vs i v nm : rep_with own town st vs -> vs !! i = Some v ->
  GetColumnIndex st (Z.of_nat i) (Some nm) =
    Some (match col_at v nm with Some j => Z.of_nat j | None => -1 end).
Proof.
  intros Hr Hv. destruct (rep_table _ _ _ _ _ _ Hr Hv) as (t & Eh & Hp & Et & Htr & _).
  unfold GetColumnIndex. rewrite (valid_tid_ok _ _ _ _ _ Hr) by (by eapply lookup_lt_Some).
  cbn [mbind option_bind]. replace (_ =? 0) with false by zb. rewrite Et. cbn [mbind option_bind].
  rewrite (tr_cols _ _ _ _ _ Htr), Nat2Z.id.
  pose proof (col_loop_ok _ _ _ _ _ nm Htr (length (tv_cols v)) 0 eq_refl) as E.
  change (Z.of_nat 0) with 0 in E. by rewrite E, drop_0.
Qed.

Lemma col_at_type vs t c i v j : adb_ok vs -> table_at vs t = Some (i, v) -> col_at v c = Some j ->
  exists ty nm, tv_cols v !! j = Some (nm, ty) /\ col_type vs t c = Some ty /\ (ty = T_INT \/ ty = T_STRING).
Proof.
  intros Hok Ht Hc. destruct (lookup_lt_is_Some_2 (tv_cols v) j) as [[nm ty] Hj]; [by apply col_at_lt in Hc|].
  exists ty, nm. split; [done|]. split.
  - unfold col_type. rewrite Ht. cbn [mbind option_bind]. rewrite Hc. cbn [mbind option_bind]. by rewrite Hj.
  - destruct (table_at_lookup _ _ _ _ Ht) as [Hv _].
    assert (Hvo : view_ok v) by (by apply (Forall_lookup_1 _ vs i)).
    apply (Forall_lookup_1 _ _ j (nm, ty) (vo_types _ Hvo) Hj).
Qed.

(** ** Rows *)

Lemma row_hread own cs i t slots r : rows_rep own cs i t slots -> trim slots = slots ->
  (r < length slots)%nat -> hread (rows t) (Z.of_nat r) = Some (hget (rows t) (Z.of_nat r)).
Proof.
  intros (Hn & Hok & Hrows) Htrim Hr.
  destruct (trim_last slots Htrim) as (cells & Hc); [by destruct slots; cbn in *; [lia|]|].
  eapply (hread_below _ _ (Z.of_nat (length slots - 1))); [done|lia|].
  specialize (Hrows (length slots - 1)%nat). cbn in Hrows. rewrite Hc in Hrows. apply Hrows.
Qed.

(** A row of a table: a hole, or its cells under its address. *)
Lemma row_cases own cs i t v r : rows_rep own cs i t (tv_slots v) -> view_ok v -> (r < length (tv_slots v))%nat ->
  hread (rows t) (Z.of_nat r) = Some (hget (rows t) (Z.of_nat r)) /\
  ((exists cells, tv_slots v !! r = Some (Some cells) /\ row_at v (Z.of_nat r) = Some cells /\
      hget (rows t) (Z.of_nat r) <> 0 /\ cs !! hget (rows t) (Z.of_nat r) = Some cells /\
      own (hget (rows t) (Z.of_nat r)) = (i, r) /\ row_ok (tv_cols v) cells) \/
   tv_slots v !! r = Some None /\ row_at v (Z.of_nat r) = None /\ hget (rows t) (Z.of_nat r) = 0).
Proof.
  intros Hrr Hvo Hr. split; [eapply row_hread; [done|apply Hvo|done]|].
  destruct Hrr as (_ & _ & Hrows). specialize (Hrows r). cbn in Hrows.
  destruct (lookup_lt_is_Some_2 (tv_slots v) r Hr) as [s Hs]. rewrite Hs in Hrows.
  unfold row_at. replace (0 <=? Z.of_nat r) with true by zb. rewrite Nat2Z.id, Hs.
  destruct s as [cells|]; cbn in *; [left|by right].
  exists cells. destruct Hrows as (? & ? & ?). split_and!; try done. by eapply (vo_rows v Hvo r).
Qed.

Lemma row_cell cols cells j nm ty : row_ok cols cells -> cols !! j = Some (nm, ty) ->
  exists c, cells !! j = Some c /\ aread cells (Z.of_nat j) = Some c /\ cell_ok ty c.
Proof.
  intros Hr Hj. destruct (Forall2_lookup_l _ _ _ _ _ Hr Hj) as (c & Hc & Hok). cbn in Hok.
  exists c. split_and!; [done| |done]. unfold aread. replace (0 <=? Z.of_nat j) with true by zb. by rewrite Nat2Z.id.
Qed.

Lemma str_match flags a b : 
  (m ← (if flags =? DB_CASE_INSENSITIVE then gstricmp (Some a) (Some b) else gstrcmp (Some a) (Some b));
   Some (m =? 0)) = Some (same_str flags a b).
Proof.
  unfold same_str. destruct (flags =? DB_CASE_INSENSITIVE); cbn [gstricmp gstrcmp mbind option_bind];
    by rewrite strcmp_bool.
Qed.

Lemma search_loop_ok own st i t v j nm value flags : tab_rep own st i t v -> view_ok v ->
  tv_cols v !! j = Some (nm, T_STRING) -> forall n r, (r + n = length (tv_slots v))%nat ->
  search_loop n st t (Z.of_nat j) (Z.of_nat r) (Some value) flags =
    Some (match findi (slot_has j value flags) (drop r (tv_slots v)) with
          | Some k => Z.of_nat (r + k) | None => -1 end).
Proof.
  intros Htr Hvo Hj. induction n as [|n IH]; intros r Hr.
  { rewrite drop_ge by lia. done. }
  assert (Hnext : search_loop n st t (Z.of_nat j) (Z.of_nat r + 1) (Some value) flags =
    Some (match findi (slot_has j value flags) (drop (S r) (tv_slots v)) with
          | Some k => Z.of_nat (r + S k) | None => -1 end)).
  { replace (Z.of_nat r + 1) with (Z.of_nat (S r)) by lia. rewrite IH by lia.
    destruct (findi _ _); do 2 f_equal; lia. }
  destruct (row_cases _ _ _ _ _ r (tr_rows _ _ _ _ _ Htr) Hvo ltac:(lia)) as [Eh Hcase].
  cbn [search_loop]. rewrite Eh. cbn [mbind option_bind].
  destruct Hcase as [(cells & Hs & _ & Hnz & Hc & _ & Hro)|(Hs & _ & Hz)];
    rewrite (drop_S _ _ _ Hs); cbn [findi].
  - replace (_ =? 0) with false by zb. rewrite Hc. cbn [mbind option_bind].
    destruct (row_cell _ _ _ _ _ Hro Hj) as (c & Hcj & Ha & Hok). rewrite Ha. cbn [mbind option_bind].
    unfold slot_has at 1. cbn [mbind option_bind]. rewrite Hcj.
    destruct c as [z|s].
    + destruct Hok as [?|[_ ->]]; [done|]. cbn [Z.eqb]. rewrite Hnext.
      destruct (findi _ (drop (S r) _)); done.
    + pose proof (str_match flags s value) as Em. destruct (if flags =? _ then _ else _) as [m|]; [|done].
      cbn [mbind option_bind] in *. injection Em as ->. destruct (same_str flags s value).
      * do 2 f_equal. lia.
      * rewrite Hnext. destruct (findi _ (drop (S r) _)); done.
  - rewrite Hz. cbn [Z.eqb]. rewrite Hnext. unfold slot_has at 2. cbn [mbind option_bind].
    destruct (findi _ (drop (S r) _)); done.
Qed.

Lemma search_ok st vs t c value flags : rep st vs -> col_type vs t c <> Some T_INT ->
  dbSearchStr st (Some t) (Some c) (Some value) flags = Some (a_search vs t c value flags).
Proof.
  intros (own & town & Hr) Hty. unfold dbSearchStr. rewrite (tid_ok _ _ _ _ t Hr). cbn [mbind option_bind].
  unfold a_search. destruct (table_at vs t) as [[i v]|] eqn:Et; [|done].
  destruct (table_at_lookup _ _ _ _ Et) as [Hv _].
  rewrite (valid_tid_ok _ _ _ _ _ Hr) by (by eapply lookup_lt_Some). cbn [mbind option_bind].
  destruct (rep_table _ _ _ _ _ _ Hr Hv) as (tb & Eh & Hp & Etb & Htr & Hvo).
  replace (_ =? 0) with false by zb. rewrite Etb. cbn [mbind option_bind].
  rewrite (col_ok _ _ _ _ _ _ c Hr Hv). cbn [mbind option_bind].
  destruct (col_at v c) as [j|] eqn:Ec; [|done]. replace (0 <=? Z.of_nat j) with true by zb.
  destruct (col_at_type _ _ _ _ _ _ (rp_ok _ _ _ _ Hr) Et Ec) as (ty & nm & Hj & Hct & [->| ->]); [done|].
  destruct (tr_rows _ _ _ _ _ Htr) as (Hn & _). rewrite Hn, Nat2Z.id.
  pose proof (search_loop_ok _ _ _ _ _ _ _ value flags Htr Hvo Hj (length (tv_slots v)) 0 eq_refl) as E.
  change (Z.of_nat 0) with 0 in E. rewrite E, drop_0. by destruct (findi _ _).
Qed.

Lemma readint_ok st vs t c r : rep st vs ->
  dbReadInt st (Some t) (Some c) r = Some (a_read vs t c r).
Proof.
  intros (own & town & Hr). unfold dbReadInt. rewrite (tid_ok _ _ _ _ t Hr). cbn [mbind option_bind].
  unfold a_read. destruct (table_at vs t) as [[i v]|] eqn:Et; [|done].
  destruct (table_at_lookup _ _ _ _ Et) as [Hv _].
  destruct (rep_table _ _ _ _ _ _ Hr Hv) as (tb & Eh & Hp & Etb & Htr & Hvo).
  replace (Z.of_nat i <? 0) with false by zb. rewrite Eh. cbn [mbind option_bind].
  replace (_ =? 0) with false by zb. rewrite Etb. cbn [mbind option_bind].
  destruct (tr_rows _ _ _ _ _ Htr) as (Hn & _). rewrite Hn.
  destruct ((0 <=? r) && (r <? zlen (tv_slots v))) eqn:Er; [|done].
  rewrite (col_ok _ _ _ _ _ _ c Hr Hv). cbn [mbind option_bind].
  destruct (col_at v c) as [j|] eqn:Ec; [|done]. replace (0 <=? Z.of_nat j) with true by zb.
  destruct (row_cases _ _ _ _ _ (Z.to_nat r) (tr_rows _ _ _ _ _ Htr) Hvo ltac:(lia)) as [Ehr Hcase].
  rewrite Z2Nat.id in Ehr, Hcase by lia. rewrite Ehr. cbn [mbind option_bind].
  destruct (col_at_type _ _ _ _ _ _ (rp_ok _ _ _ _ Hr) Et Ec) as (ty & nm & Hj & _).
  destruct Hcase as [(cells & Hs & -> & Hnz & Hc & _ & Hro)|(Hs & -> & ->)]; [|done].
  replace (_ =? 0) with false by zb. cbn [negb]. rewrite Hc. cbn [mbind option_bind].
  destruct (row_cell _ _ _ _ _ Hro Hj) as (cl & -> & -> & _). done.
Qed.

(** ** Writing a cell *)

Lemma put_cell_slot v r j c k : tv_slots (put_cell v r j c) !! k =
  if decide (k = Z.to_nat r) then fmap (<[j := c]>) <$> tv_slots v !! k else tv_slots v !! k.
Proof.
  cbn [put_cell set_slots tv_slots]. destruct (decide (k = Z.to_nat r)) as [->|Hne].
  - by rewrite list_lookup_alter_eq.
  - by rewrite list_lookup_alter_ne.
Qed.

Lemma row_ok_insert cols cells j c nm ty : row_ok cols cells -> cols !! j = Some (nm, ty) -> cell_ok ty c ->
  row_ok cols (<[j := c]> cells).
Proof.
  intros Hr Hj Hc. unfold row_ok. apply Forall2_same_length_lookup. split.
  - rewrite length_insert. by apply Forall2_length in Hr.
  - intros k [nm' ty'] c' Hk Hc'. destruct (decide (k = j)) as [->|Hne].
    + rewrite list_lookup_insert_eq in Hc' by (apply Forall2_length in Hr; rewrite <- Hr; by eapply lookup_lt_Some).
      rewrite Hj in Hk. injection Hk as -> ->. by injection Hc' as <-.
    + rewrite list_lookup_insert_ne in Hc' by done. by apply (Forall2_lookup_lr _ _ _ _ _ _ Hr Hk).
Qed.

Lemma put_cell_ok v r j c nm ty : view_ok v -> tv_cols v !! j = Some (nm, ty) -> cell_ok ty c ->
  view_ok (put_cell v r j c).
Proof.
  intros [Ht Hc Hr Htr] Hj Hok. split; [done|done| |].
  - intros k cells. rewrite put_cell_slot. destruct (decide _) as [->|]; [|apply Hr].
    destruct (tv_slots v !! Z.to_nat r) as [[cs|]|] eqn:E; cbn; try done.
    intros [= <-]. eapply row_ok_insert; [by eapply Hr|done|done].
  - apply trim_iff. apply trim_iff in Htr as [E|Hl]; [left; cbn; by rewrite E|right].
    rewrite put_cell_slot. replace (length (tv_slots (put_cell v r j c))) with (length (tv_slots v))
      by (cbn; by rewrite length_alter).
    destruct (decide _); [|done]. destruct (tv_slots v !! _) as [[cs|]|]; done.
Qed.

(** The rows of one table are replaced, those of the others stay as they are. *)
Lemma rep_replace own own' town st vs i v t rows' n' rcs' slots' :
  rep_with own town st vs -> vs !! i = Some v ->
  tables st !! hget (dbListTables st) (Z.of_nat i) = Some t -> tab_rep own st i t v ->
  view_ok (set_slots v (fun _ => slots')) ->
  rows_rep own' rcs' i (t <| rows := rows' |> <| nRows := n' |>) slots' ->
  (forall a i' r' cells, i' <> i -> own a = (i', r') -> rowcells st !! a = Some cells ->
     rcs' !! a = Some cells /\ own' a = (i', r')) ->
  rep_with own' town
    (st <| rowcells := rcs' |>
        <| tables := <[hget (dbListTables st) (Z.of_nat i) := t <| rows := rows' |> <| nRows := n' |>]> (tables st) |>)
    (<[i := set_slots v (fun _ => slots')]> vs).
Proof.
  intros Hr Hv Et Htr Hvo Hrr Hother. destruct st as [mx lst tbs rcs]; cbn in *. split; cbn.
  - apply Forall_insert; [apply Hr|done].
  - rewrite length_insert. apply Hr.
  - apply Hr.
  - intros i'. pose proof (rp_tabs _ _ _ _ Hr i') as Ht'. cbn in Ht'.
    rewrite list_lookup_insert. case_decide as Hne; [destruct Hne as [<- Hlt]|].
    + rewrite Hv in Ht'. destruct Ht' as (Hp & Htown & _). split_and!; [done|done|].
      eexists. split; [by rewrite lookup_insert_eq|].
      destruct Htr as [Hname Hcols Hnames Htypes _]. destruct t; cbn in *. by split.
    + destruct (vs !! i') as [v'|] eqn:Hv'; [|done].
      assert (Hii : i' <> i) by (intros ->; destruct Hne; split; [done|by eapply lookup_lt_Some]).
      destruct Ht' as (Hp & Htown & t' & Et' & Htr'). split_and!; [done|done|]. exists t'. split.
      { rewrite lookup_insert_ne; [done|]. intros Ep.
        pose proof (rp_tabs _ _ _ _ Hr i) as Hti. cbn in Hti. rewrite Hv in Hti.
        destruct Hti as (_ & Htown' & _). rewrite Ep in Htown'. congruence. }
      destruct Htr' as [Hname Hcols Hnames Htypes (Hn' & Hok' & Hrows')]. split; cbn in *; try done.
      split_and!; [done|done|]. intros r'. specialize (Hrows' r'). cbn in *.
      destruct (mjoin (tv_slots v' !! r')) as [cells'|]; [|done].
      destruct Hrows' as (? & Hc & Ho). by destruct (Hother _ _ _ _ Hii Ho Hc).
Qed.

Lemma rep_write own town st vs i v t r j c nm ty cells :
  rep_with own town st vs -> vs !! i = Some v -> tables st !! hget (dbListTables st) (Z.of_nat i) = Some t ->
  tab_rep own st i t v -> tv_slots v !! r = Some (Some cells) ->
  tv_cols v !! j = Some (nm, ty) -> cell_ok ty c ->
  write_cell st (hget (rows t) (Z.of_nat r)) (Z.of_nat j) c =
    Some (st <| rowcells := <[hget (rows t) (Z.of_nat r) := <[j := c]> cells]> (rowcells st) |>) /\
  rep_with own town (st <| rowcells := <[hget (rows t) (Z.of_nat r) := <[j := c]> cells]> (rowcells st) |>)
    (<[i := put_cell v (Z.of_nat r) j c]> vs).
Proof.
  intros Hr Hv Et Htr Hs Hj Hc. set (a := hget (rows t) (Z.of_nat r)).
  destruct (tr_rows _ _ _ _ _ Htr) as (Hn & Hok & Hrows). pose proof (Hrows r) as Hrow. cbn in Hrow.
  rewrite Hs in Hrow. cbn in Hrow. fold a in Hrow. destruct Hrow as (Hnz & Hcs & Hown).
  assert (Hvo : view_ok v) by (by apply (Forall_lookup_1 _ vs i); [apply Hr|]).
  split.
  { pose proof (vo_rows v Hvo r cells Hs) as Hro. apply Forall2_length in Hro.
    apply lookup_lt_Some in Hj. unfold write_cell. rewrite Hcs. cbn [mbind option_bind]. unfold awrite.
    replace ((0 <=? Z.of_nat j) && (Z.of_nat j <? zlen cells)) with true by lia. by rewrite Nat2Z.id. }
  pose proof (rep_replace own own town st vs i v t (rows t) (nRows t)
    (<[a := <[j := c]> cells]> (rowcells st)) (alter (fmap (<[j := c]>)) (Z.to_nat (Z.of_nat r)) (tv_slots v))
    Hr Hv Et Htr) as H.
  assert (Et' : t <| rows := rows t |> <| nRows := nRows t |> = t) by (by destruct t).
  destruct st as [mx lst tbs rcs]; cbn in *. rewrite Et', (insert_id tbs) in H by done. apply H.
  - by apply (put_cell_ok v (Z.of_nat r) j c nm ty).
  - split_and!; [by rewrite length_alter|done|]. intros r'. cbn.
    change (alter (fmap (<[j := c]>)) (Z.to_nat (Z.of_nat r)) (tv_slots v))
      with (tv_slots (put_cell v (Z.of_nat r) j c)). rewrite put_cell_slot, Nat2Z.id.
    specialize (Hrows r'). cbn in Hrows. destruct (decide (r' = r)) as [->|Hne].
    + rewrite Hs in *. cbn in *. fold a. by rewrite lookup_insert_eq.
    + destruct (mjoin (tv_slots v !! r')) as [cells'|]; [|done].
      destruct Hrows as (? & ? & Ho). split_and!; [done| |done].
      rewrite lookup_insert_ne; [done|]. intros Ea. rewrite <- Ea, Hown in Ho. congruence.
  - intros a' i' r' cells' Hii Ho Hc'. split; [|done].
    rewrite lookup_insert_ne; [done|]. intros <-. rewrite Hown in Ho. congruence.
Qed.

Lemma writeint_ok st vs t c r z : rep st vs -> col_type vs t c <> Some T_STRING ->
  exists st', dbWriteInt st (Some t) (Some c) r z = Some ((a_write vs t c r (CInt z)).1, st') /\
    rep st' (a_write vs t c r (CInt z)).2.
Proof.
  intros (own & town & Hr) Hty. unfold dbWriteInt. rewrite (tid_ok _ _ _ _ t Hr). cbn [mbind option_bind].
  unfold a_write. destruct (table_at vs t) as [[i v]|] eqn:Et; [|exists st; split; [done|by exists own, town]].
  destruct (table_at_lookup _ _ _ _ Et) as [Hv _].
  destruct (rep_table _ _ _ _ _ _ Hr Hv) as (tb & Eh & Hp & Etb & Htr & Hvo).
  replace (Z.of_nat i <? 0) with false by zb. rewrite Eh. cbn [mbind option_bind].
  replace (_ =? 0) with false by zb. cbn [negb]. rewrite Etb. cbn [mbind option_bind].
  rewrite (col_ok _ _ _ _ _ _ c Hr Hv). cbn [mbind option_bind].
  destruct (col_at v c) as [j|] eqn:Ec; [|exists st; split; [done|by exists own, town]].
  replace (0 <=? Z.of_nat j) with true by zb.
  destruct (tr_rows _ _ _ _ _ Htr) as (Hn & _). rewrite Hn.
  destruct ((0 <=? r) && (r <? zlen (tv_slots v))) eqn:Er; [|exists st; split; [done|by exists own, town]].
  destruct (row_cases _ _ _ _ _ (Z.to_nat r) (tr_rows _ _ _ _ _ Htr) Hvo ltac:(lia)) as [Ehr Hcase].
  assert (Er' : Z.of_nat (Z.to_nat r) = r) by lia. rewrite Er' in *. rewrite Ehr. cbn [mbind option_bind].
  destruct (col_at_type _ _ _ _ _ _ (rp_ok _ _ _ _ Hr) Et Ec) as (ty & nm & Hj & Hct & Hty').
  destruct Hcase as [(cells & Hs & -> & Hnz & Hc & _ & Hro)|(Hs & -> & ->)];
    [|exists st; split; [done|by exists own, town]].
  replace (_ =? 0) with false by zb. cbn [negb].
  destruct (rep_write _ _ _ _ _ _ _ _ _ (CInt z) _ _ _ Hr Hv Etb Htr Hs Hj) as [Ew Hrep].
  { left. destruct Hty'; [done|congruence]. }
  rewrite Er' in *. rewrite Ew. cbn [mbind option_bind]. eexists. split; [done|]. by exists own, town.
Qed.

(** ** New and deleted rows *)

Lemma free_slot_unique (slots : list (option (list cell))) n :
  (n <= length slots)%nat -> mjoin (slots !! n) = None ->
  (forall k, (k < n)%nat -> mjoin (slots !! k) <> None) -> free_slot slots = n.
Proof.
  intros Hn Hnone Hlt. unfold free_slot. destruct (findi _ slots) as [k|] eqn:E; cbn.
  - apply findi_Some in E as (x & Hx & Hf & Hk). destruct x; [done|].
    destruct (Nat.lt_trichotomy k n) as [Hkn|[?|Hkn]]; [|done|].
    + destruct (Hlt k Hkn). by rewrite Hx.
    + destruct (lookup_lt_is_Some_2 slots n) as [y Hy]; [apply lookup_lt_Some in Hx; lia|].
      specialize (Hk n y Hkn Hy). rewrite Hy in Hnone. cbn in Hnone. subst y. done.
  - apply findi_None in E. destruct (decide (n < length slots)%nat) as [Hl|]; [|lia].
    destruct (lookup_lt_is_Some_2 slots n Hl) as [y Hy]. rewrite Hy in Hnone. cbn in Hnone. subst y.
    pose proof (Forall_lookup_1 _ _ _ _ E Hy) as Ef. done.
Qed.

Lemma fill_slot_lookup {A} (slots : list (option A)) n row r : (n <= length slots)%nat ->
  mjoin (fill_slot slots n row !! r) = if decide (r = n) then Some row else mjoin (slots !! r).
Proof.
  intros Hn. unfold fill_slot. destruct (decide (n < length slots)%nat) as [Hl|Hl].
  - destruct (decide (r = n)) as [->|Hne]; [by rewrite list_lookup_insert_eq by done|].
    by rewrite list_lookup_insert_ne.
  - assert (n = length slots) as -> by lia. destruct (decide (r = length slots)) as [->|Hne].
    + by rewrite list_lookup_middle.
    + destruct (decide (r < length slots)%nat); [by rewrite lookup_app_l|].
      by rewrite !lookup_ge_None_2 by (rewrite ?length_app; cbn; lia).
Qed.

Lemma length_fill_slot {A} (slots : list (option A)) n row : (n <= length slots)%nat ->
  length (fill_slot slots n row) = Nat.max (length slots) (S n).
Proof.
  intros Hn. unfold fill_slot. destruct (decide _); rewrite ?length_insert, ?length_app; cbn; lia.
Qed.

Lemma slot_of_lookup {A} (l : list (option A)) r x : l !! r = Some (Some x) <-> mjoin (l !! r) = Some x.
Proof. destruct (l !! r) as [[y|]|]; cbn; naive_solver. Qed.

Lemma zero_row_ok cols : Forall (fun col : list Z * Z => col.2 = T_INT \/ col.2 = T_STRING) cols ->
  row_ok cols (repeat (CInt 0) (length cols)).
Proof.
  induction 1 as [|col cols Hc Hcs IH]; [constructor|]. constructor; [|done].
  cbn. destruct Hc; [by left|by right].
Qed.

Lemma fill_slot_ok v n : view_ok v -> (n <= length (tv_slots v))%nat ->
  view_ok (set_slots v (fun s => fill_slot s n (repeat (CInt 0) (length (tv_cols v))))).
Proof.
  intros [Ht Hc Hr Htr] Hn. split; [done|done| |]; cbn.
  - intros r cells Hs%slot_of_lookup. rewrite fill_slot_lookup in Hs by done.
    destruct (decide (r = n)); [injection Hs as <-; by apply zero_row_ok|].
    apply (Hr r). by apply slot_of_lookup.
  - apply trim_iff. right. rewrite fill_slot_lookup, length_fill_slot by done.
    destruct (decide _) as [|Hne]; [done|].
    apply trim_iff in Htr as [E|Hl]; [rewrite E in *; cbn in *; lia|].
    by replace (Nat.max (length (tv_slots v)) (S n) - 1)%nat with (length (tv_slots v) - 1)%nat by lia.
Qed.


Lemma cell_free ty c : cell_ok ty c -> (if ty =? T_STRING then free_cell c else Some tt) = Some tt.
Proof. destruct c as [z|s]; cbn; [|by intros [-> _]]. by intros [->|[-> ->]]. Qed.

Lemma free_columns_ok t cols cells : row_ok cols cells -> columnTypes t = map snd cols -> forall n k,
  (k + n = length cols)%nat -> free_columns n t cells (Z.of_nat k) = Some tt.
Proof.
  intros Hro Hty. induction n as [|n IH]; intros k Hk; [done|].
  destruct (lookup_lt_is_Some_2 cols k) as [[nm ty] Hc]; [lia|].
  destruct (row_cell _ _ _ _ _ Hro Hc) as (c & _ & Ea & Hcell).
  cbn [free_columns]. rewrite Ea. cbn [mbind option_bind]. rewrite Hty. unfold aread at 1.
  replace (0 <=? Z.of_nat k) with true by zb. rewrite Nat2Z.id, list_lookup_fmap, Hc.
  cbn [fmap option_fmap option_map snd mbind option_bind]. rewrite (cell_free _ _ Hcell).
  cbn [mbind option_bind]. replace (Z.of_nat k + 1) with (Z.of_nat (S k)) by lia. apply IH. lia.
Qed.

Lemma free_row_ok own st i t v cells : tab_rep own st i t v -> row_ok (tv_cols v) cells ->
  free_columns (Z.to_nat (nColumns t)) t cells 0 = Some tt.
Proof.
  intros Htr Hro. rewrite (tr_cols _ _ _ _ _ Htr), Nat2Z.id.
  exact (free_columns_ok t _ _ Hro (tr_types _ _ _ _ _ Htr) (length (tv_cols v)) 0 eq_refl).
Qed.

Lemma hole_lookup (slots : list (option (list cell))) r k :
  mjoin (<[r := None]> slots !! k) = if decide (k = r) then None else mjoin (slots !! k).
Proof.
  destruct (decide (k = r)) as [->|Hne]; [|by rewrite list_lookup_insert_ne].
  rewrite list_lookup_insert. by case_decide; [|destruct (slots !! r) eqn:E; [apply lookup_lt_Some in E; naive_solver|]].
Qed.

Lemma trim_hole_ok v r : view_ok v -> view_ok (set_slots v (fun s => trim (<[r := None]> s))).
Proof.
  intros [Ht Hc Hr Htr]. split; [done|done| |]; cbn; [|apply trim_idemp].
  intros k cells Hs%slot_of_lookup. rewrite trim_lookup, hole_lookup in Hs.
  destruct (decide _); [done|]. apply (Hr k). by apply slot_of_lookup.
Qed.

(** The rows of a table after [hFree] of a row. *)
Lemma rows_rep_free own cs i t slots r a cells : rows_rep own cs i t slots -> trim slots = slots ->
  slots !! r = Some (Some cells) -> a = hget (rows t) (Z.of_nat r) ->
  exists n' rows', hFree (rows t) (Z.of_nat r) = Some (n', rows') /\
    rows_rep own (delete a cs) i (t <| rows := rows' |> <| nRows := n' |>) (trim (<[r := None]> slots)).
Proof.
  intros (Hn & Hok & Hrows) Htrim Hs ->. pose proof (Hrows r) as Hrow. cbn in Hrow. rewrite Hs in Hrow.
  cbn in Hrow. destruct Hrow as (Hnz & Hcs & Hown).
  pose proof (handles_ok_entries _ _ _ Hok (Nat2Z.is_nonneg r) Hnz) as Hlt.
  destruct (hFree_spec 0 (rows t) (Z.of_nat r) Hok) as (n' & rows' & E & Hget & Hok' & Hn' & Hlast & Hbeyond);
    [lia|lia|by left|]. replace (hget (rows t) (Z.of_nat r) =? 0) with false in Hok' by zb.
  exists n', rows'. split; [done|].
  assert (Hgap : forall k : nat, mjoin (<[r := None]> slots !! k) = None <-> hget rows' (Z.of_nat k) = 0).
  { intros k. rewrite hole_lookup, Hget by lia. destruct (decide (k = r)) as [->|Hne].
    - by rewrite Z.eqb_refl.
    - replace (Z.of_nat k =? Z.of_nat r) with false by zb. specialize (Hrows k). cbn in Hrows.
      destruct (mjoin _); [|done]. split; [done|]. by destruct Hrows. }
  split_and!.
  - replace (nRows _) with n' by (by destruct t).
    rewrite (trim_unique _ (Z.to_nat n')); [lia| |].
    + intros k Hk. apply Hgap, Hbeyond. lia.
    + destruct (Z.eq_dec n' 0) as [->|Hne]; [by left|right]. rewrite Hgap.
      replace (Z.of_nat (Z.to_nat n' - 1)) with (n' - 1) by lia. apply Hlast. lia.
  - by destruct t.
  - intros k. cbn. replace (rows _) with rows' by (by destruct t). rewrite trim_lookup.
    specialize (Hgap k). rewrite hole_lookup, Hget in * by lia. specialize (Hrows k). cbn in Hrows.
    destruct (decide (k = r)) as [->|Hne]; [by rewrite Z.eqb_refl|].
    replace (Z.of_nat k =? Z.of_nat r) with false in * by zb.
    destruct (mjoin (slots !! k)) as [cells'|]; [|done]. destruct Hrows as (? & ? & Ho).
    split_and!; [done| |done]. rewrite lookup_delete_ne; [done|]. congruence.
Qed.

Lemma delete_ok st vs t r : rep st vs ->
  exists st', dbDeleteRow st (Some t) r = Some ((a_delete vs t r).1, st') /\ rep st' (a_delete vs t r).2.
Proof.
  intros (own & town & Hr). unfold dbDeleteRow. rewrite (tid_ok _ _ _ _ t Hr). cbn [mbind option_bind].
  unfold a_delete. destruct (table_at vs t) as [[i v]|] eqn:Et; [|exists st; split; [done|by exists own, town]].
  destruct (table_at_lookup _ _ _ _ Et) as [Hv _].
  rewrite (valid_tid_ok _ _ _ _ _ Hr) by (by eapply lookup_lt_Some). cbn [mbind option_bind].
  destruct (rep_table _ _ _ _ _ _ Hr Hv) as (tb & Eh & Hp & Etb & Htr & Hvo).
  replace (_ =? 0) with false by zb. rewrite Etb. cbn [mbind option_bind].
  pose proof (tr_rows _ _ _ _ _ Htr) as Hrr. rewrite (proj1 Hrr).
  destruct ((0 <=? r) && (r <? zlen (tv_slots v))) eqn:Er; [|exists st; split; [done|by exists own, town]].
  destruct (row_cases _ _ _ _ _ (Z.to_nat r) Hrr Hvo ltac:(lia)) as [Ehr Hcase].
  assert (Er' : Z.of_nat (Z.to_nat r) = r) by lia. rewrite Er' in *. rewrite Ehr. cbn [mbind option_bind].
  destruct Hcase as [(cells & Hs & _ & Hnz & Hc & Hown & Hro)|(Hs & _ & ->)].
  - replace (_ =? 0) with false by zb. cbn [negb]. rewrite Hc. cbn [mbind option_bind].
    rewrite (free_row_ok _ _ _ _ _ _ Htr Hro). cbn [mbind option_bind].
    destruct (rows_rep_free _ _ _ _ _ _ _ _ Hrr (vo_trim v Hvo) Hs eq_refl) as (n' & rows' & Ef & Hrr').
    rewrite Er' in Ef. rewrite Ef. cbn [mbind option_bind]. eexists. split; [done|]. exists own, town.
    pose proof (rep_replace own own town st vs i v tb rows' n' (delete (hget (rows tb) r) (rowcells st))
      (trim (<[Z.to_nat r := None]> (tv_slots v))) Hr Hv Etb Htr) as H.
    rewrite Er' in Hrr'. destruct st; cbn in *. apply H; [by apply trim_hole_ok|done|].
    intros a i' r' cells' Hii Ho Hc'. split; [|done]. rewrite lookup_delete_ne; [done|]. congruence.
  - cbn [Z.eqb negb]. exists st. split; [done|]. cbn [snd]. exists own, town.
    unfold set_slots. rewrite (list_insert_id (tv_slots v)) by done. rewrite (vo_trim v Hvo).
    replace (mkView _ _ _) with v by (by destruct v). by rewrite list_insert_id.
Qed.

(** ** Emptying and closing *)

Lemma zero_rows_ok own st i t0 v : tab_rep own st i t0 v -> view_ok v -> forall n k t cs,
  (k + n = length (tv_slots v))%nat -> nColumns t = nColumns t0 -> columnTypes t = columnTypes t0 ->
  handles_ok 0 (rows t) ->
  (forall r : nat, (k <= r)%nat -> let a := hget (rows t) (Z.of_nat r) in
     match mjoin (tv_slots v !! r) with
     | Some cells => a <> 0 /\ cs !! a = Some cells /\ own a = (i, r)
     | None => a = 0
     end) ->
  exists rows' cs', zero_rows n t cs (Z.of_nat k) = Some (t <| rows := rows' |>, cs') /\
    forall a i' r' cells, i' <> i -> own a = (i', r') -> cs !! a = Some cells -> cs' !! a = Some cells.
Proof.
  intros Htr Hvo. induction n as [|n IH]; intros k t cs Hk Hcols Htypes Hok Hrows.
  { exists (rows t), cs. split; [by destruct t|done]. }
  destruct (trim_last (tv_slots v) (vo_trim v Hvo)) as (last & Hlast); [by destruct (tv_slots v); cbn in *; [lia|]|].
  pose proof (Hrows (length (tv_slots v) - 1)%nat ltac:(lia)) as Hl. cbn in Hl. rewrite Hlast in Hl.
  destruct Hl as (Hlnz & _). cbn [zero_rows].
  rewrite (hread_below (rows t) (Z.of_nat k) (Z.of_nat (length (tv_slots v) - 1)) Hok ltac:(lia) Hlnz). cbn [mbind option_bind].
  pose proof (Hrows k ltac:(lia)) as Hrow. cbn in Hrow. replace (Z.of_nat k + 1) with (Z.of_nat (S k)) by lia.
  destruct (mjoin (tv_slots v !! k)) as [cells|] eqn:Es.
  - destruct Hrow as (Hnz & Hc & Hown). replace (_ =? 0) with false by zb. cbn [negb].
    rewrite Hc. cbn [mbind option_bind].
    assert (Hro : row_ok (tv_cols v) cells) by (apply (vo_rows v Hvo k); by apply slot_of_lookup).
    assert (Ef : free_columns (Z.to_nat (nColumns t)) t cells 0 = Some tt).
    { pose proof (free_columns_ok t _ _ Hro) as Ef. rewrite Htypes, Hcols, (tr_cols _ _ _ _ _ Htr), Nat2Z.id in *.
      exact (Ef (tr_types _ _ _ _ _ Htr) _ 0%nat eq_refl). }
    rewrite Ef. cbn [mbind option_bind].
    pose proof (handles_ok_entries _ _ _ Hok (Nat2Z.is_nonneg k) Hnz) as Hlt.
    destruct (hFree_spec 0 (rows t) (Z.of_nat k) Hok) as (n' & rows' & E & Hget & Hok' & _);
      [lia|lia|by left|]. replace (hget (rows t) (Z.of_nat k) =? 0) with false in Hok' by zb.
    rewrite E. cbn [mbind option_bind].
    destruct (IH (S k) (t <| rows := rows' |>) (delete (hget (rows t) (Z.of_nat k)) cs)) as (rows2 & cs2 & E2 & Hkeep);
      [lia|by destruct t|by destruct t|by destruct t| |].
    + intros r Hr. cbn. replace (rows (t <| rows := rows' |>)) with rows' by (by destruct t).
      rewrite Hget by lia. replace (Z.of_nat r =? Z.of_nat k) with false by zb.
      specialize (Hrows r ltac:(lia)). cbn in Hrows. destruct (mjoin (tv_slots v !! r)) as [cells'|]; [|done].
      destruct Hrows as (? & ? & Ho). split_and!; [done| |done]. rewrite lookup_delete_ne; [done|].
      intros Ea. rewrite <- Ea, Hown in Ho. injection Ho as ->. lia.
    + exists rows2, cs2. split; [refine (eq_trans E2 _); by destruct t|].
      intros a i' r' cells' Hii Ho Hc'. eapply Hkeep; [done|done|].
      rewrite lookup_delete_ne; [done|]. intros Ea. rewrite <- Ea, Hown in Ho. congruence.
  - rewrite Hrow. cbn [Z.eqb negb]. destruct (IH (S k) t cs) as (rows2 & cs2 & E2 & Hkeep); try done; [lia| |].
    + intros r Hr. apply Hrows. lia.
    + by exists rows2, cs2.
Qed.

Definition empty_view (v : tview) : tview := set_slots v (fun _ => []).

Lemma empty_view_ok v : view_ok v -> view_ok (empty_view v).
Proof. intros [? ? ? ?]. by split. Qed.

Lemma empty_rows_rep own cs i t : rows_rep own cs i (t <| rows := None |> <| nRows := 0 |>) [].
Proof.
  split_and!; [by destruct t|by destruct t|]. intros r. rewrite lookup_nil. cbn.
  destruct t. apply hget_none.
Qed.

Lemma zero_loop_ok own town vs : forall n i st vs', (i + n = length vs)%nat ->
  vs' = map empty_view (take i vs) ++ drop i vs -> rep_with own town st vs' ->
  exists st', dbZero_loop n st (Z.of_nat i) = Some st' /\ rep_with own town st' (map empty_view vs) /\
    dbMaxTables st' = dbMaxTables st.
Proof.
  induction n as [|n IH]; intros i st vs' Hi Hvs Hr.
  { exists st. split; [done|]. rewrite take_ge, drop_ge, app_nil_r in Hvs by lia. by subst vs'. }
  destruct (lookup_lt_is_Some_2 vs i) as [v Hv]; [lia|].
  assert (Hv' : vs' !! i = Some v).
  { rewrite Hvs, (drop_S vs v i Hv), list_lookup_middle; [done|]. rewrite length_map, length_take. lia. }
  destruct (rep_table _ _ _ _ _ _ Hr Hv') as (tb & Eh & Hp & Etb & Htr & Hvo).
  cbn [dbZero_loop]. rewrite Eh. cbn [mbind option_bind]. replace (_ =? 0) with false by zb.
  rewrite Etb. cbn [mbind option_bind].
  destruct (tr_rows _ _ _ _ _ Htr) as (Hn & Hok & Hrows). rewrite Hn, Nat2Z.id.
  destruct (zero_rows_ok _ _ _ _ _ Htr Hvo (length (tv_slots v)) 0 tb (rowcells st) eq_refl eq_refl eq_refl Hok
    (fun r _ => Hrows r)) as (rows' & cs' & E & Hkeep). change (Z.of_nat 0) with 0 in E. rewrite E.
  cbn [mbind option_bind]. replace (Z.of_nat i + 1) with (Z.of_nat (S i)) by lia.
  pose proof (rep_replace own own town st vs' i v tb None 0 cs' [] Hr Hv' Etb Htr (empty_view_ok v Hvo)) as H.
  specialize (H (empty_rows_rep own cs' i tb)
    (fun a i' r' cells Hii Ho Hc => conj (Hkeep a i' r' cells Hii Ho Hc) Ho)).
  destruct (fun Hvs => IH (S i) _ (<[i := empty_view v]> vs') ltac:(lia) Hvs H) as (st' & E' & Hr' & Hmx).
  - rewrite Hvs, (drop_S vs v i Hv), (take_S_r vs i v Hv), map_app. cbn [map].
    rewrite insert_app_r_alt by (rewrite length_map, length_take; lia).
    rewrite length_map, length_take, Nat.min_l, Nat.sub_diag by lia. cbn. by rewrite <- app_assoc.
  - exists st'. destruct st, tb; cbn in *. split; [exact E'|]. by split.
Qed.

Lemma zero_rep st vs : rep st vs -> exists st', dbZero st = Some st' /\ rep st' (a_zero vs).
Proof.
  intros (own & town & Hr). unfold dbZero. rewrite (rp_max _ _ _ _ Hr), Nat2Z.id.
  destruct (zero_loop_ok own town vs (length vs) 0 st vs eq_refl eq_refl Hr) as (st' & E & Hr' & _).
  exists st'. split; [exact E|]. by exists own, town.
Qed.

(** A map without handles in use has no block. *)
Lemma handles_none map : handles_ok 0 map -> (forall k : nat, hget map (Z.of_nat k) = 0) -> map = None.
Proof.
  destruct map as [mp|]; [|done]. intros (len & used & l & -> & Hlen & _ & _ & Hu & Hpos & _) Hz. exfalso.
  assert (Hl : Forall (fun a => a = 0) l).
  { apply Forall_lookup. intros k a Ha. specialize (Hz k). unfold hget in Hz. rewrite entries_some in Hz.
    unfold zget in Hz. rewrite Nat2Z.id in Hz. by rewrite (nth_lookup_Some _ _ _ _ Ha) in Hz. }
  assert (in_use l = 0%nat) as E by (clear -Hl; induction Hl as [|a l -> _ IH]; [done|exact IH]). lia.
Qed.

Lemma close_loop_ok town (m : nat) : forall n i st, (i + n = m)%nat ->
  handles_ok 0 (dbListTables st) ->
  (forall k : nat, let p := hget (dbListTables st) (Z.of_nat k) in
     if decide (i <= k < m)%nat then p <> 0 /\ town p = k /\ is_Some (tables st !! p) else p = 0) ->
  exists st', dbClose_loop n st (Z.of_nat i) = Some st' /\ dbListTables st' = None.
Proof.
  induction n as [|n IH]; intros i st Hi Hok Hp.
  { exists st. split; [done|]. apply handles_none; [done|]. intros k. specialize (Hp k). cbn in Hp.
    by rewrite decide_False in Hp by lia. }
  pose proof (Hp (m - 1)%nat) as Hlast. cbn in Hlast. rewrite decide_True in Hlast by lia.
  destruct Hlast as (Hlast & _). cbn [dbClose_loop].
  rewrite (hread_below (dbListTables st) (Z.of_nat i) (Z.of_nat (m - 1)) Hok ltac:(lia) Hlast). cbn [mbind option_bind].
  pose proof (Hp i) as Hpi. cbn in Hpi. rewrite decide_True in Hpi by lia.
  destruct Hpi as (Hnz & Htown & [t Et]). replace (_ =? 0) with false by zb.
  rewrite Et. cbn [mbind option_bind].
  pose proof (handles_ok_entries _ _ _ Hok (Nat2Z.is_nonneg i) Hnz) as Hlt.
  destruct (hFree_spec 0 (dbListTables st) (Z.of_nat i) Hok) as (n' & list' & E & Hget & Hok' & _);
    [lia|lia|by left|]. replace (hget (dbListTables st) (Z.of_nat i) =? 0) with false in Hok' by zb.
  rewrite E. cbn [mbind option_bind]. replace (Z.of_nat i + 1) with (Z.of_nat (S i)) by lia.
  apply IH; [lia|by destruct st|]. intros k. destruct st as [mx lst tbs cs]; cbn in *.
  rewrite Hget by lia. specialize (Hp k). destruct (decide (k = i)) as [->|Hne].
  { rewrite Z.eqb_refl. by rewrite decide_False by lia. }
  replace (Z.of_nat k =? Z.of_nat i) with false by zb.
  destruct (decide (S i <= k < m)%nat) as [Hk|Hk]; [|by rewrite decide_False in Hp by lia].
  rewrite decide_True in Hp by lia. destruct Hp as (Hnz' & Htown' & Ht'). split_and!; [done|done|].
  rewrite lookup_delete_ne; [done|]. intros Ea. rewrite <- Ea, Htown in Htown'. lia.
Qed.

Lemma rep_nil st : dbMaxTables st = 0 -> dbListTables st = None -> rep st [].
Proof.
  intros Hm Hl. exists (fun _ => (0, 0)%nat), (fun _ => 0%nat). split; [constructor|done|by rewrite Hl|].
  intros i. cbn. by rewrite lookup_nil, Hl, hget_none.
Qed.

Lemma close_rep st vs : rep st vs -> exists st', dbClose st = Some st' /\ rep st' [].
Proof.
  intros (own & town & Hr). unfold dbClose, dbZero. rewrite (rp_max _ _ _ _ Hr), Nat2Z.id.
  destruct (zero_loop_ok own town vs (length vs) 0 st vs eq_refl eq_refl Hr) as (st1 & E1 & Hr1 & Hm1).
  change (Z.of_nat 0) with 0 in E1. rewrite E1. cbn [mbind option_bind].
  rewrite Hm1, (rp_max _ _ _ _ Hr), Nat2Z.id.
  destruct (close_loop_ok town (length vs) (length vs) 0 st1 eq_refl (rp_list _ _ _ _ Hr1)) as (st2 & E2 & Hnone).
  { intros k. pose proof (rp_tabs _ _ _ _ Hr1 k) as Ht. cbn in *. case_decide as Hk.
    - destruct (lookup_lt_is_Some_2 (map empty_view vs) k) as [v Hv]; [rewrite length_map; lia|].
      rewrite Hv in Ht. destruct Ht as (? & ? & t & ? & _). split_and!; [done|done|by exists t].
    - by rewrite lookup_ge_None_2 in Ht by (rewrite length_map; lia). }
  change (Z.of_nat 0) with 0 in E2. rewrite E2. cbn [mbind option_bind]. rewrite Hnone. cbn [mbind option_bind].
  eexists. split; [done|]. destruct st2. by apply rep_nil.
Qed.

Section Memory.
Context (balloc_words : Z -> option (list Z)).
Context (brealloc_words : list Z -> Z -> option (list Z)).
Context (new_table : gmap Z dbTable -> Z) (new_row : gmap Z (list cell) -> Z).
Context (bstrdup : list Z -> option (list Z)).
Hypothesis balloc_words_spec : forall n mp, 0 <= n -> balloc_words n = Some mp -> zlen mp = n / WORD.
Hypothesis brealloc_words_spec : forall old n mp, brealloc_words old n = Some mp ->
  zlen old * WORD <= n -> exists rest, mp = old ++ rest /\ zlen mp = n / WORD.
(** A new block is outside of the blocks in use; there is memory for strings. *)
Hypothesis new_table_fresh : forall ts, new_table ts = 0 \/ ts !! new_table ts = None.
Hypothesis new_row_fresh : forall cs, new_row cs = 0 \/ cs !! new_row cs = None.
Hypothesis bstrdup_ok : forall s, bstrdup s = Some s.

Lemma writestr_ok st vs t c r s : rep st vs -> no_nul s ->
  exists st', dbWriteStr bstrdup st (Some t) (Some c) r (Some s) = Some ((a_write vs t c r (CStr s)).1, st') /\
    rep st' (a_write vs t c r (CStr s)).2.
Proof using bstrdup_ok.
  intros (own & town & Hr) Hns. unfold dbWriteStr. rewrite (tid_ok _ _ _ _ t Hr). cbn [mbind option_bind].
  unfold a_write. destruct (table_at vs t) as [[i v]|] eqn:Et; [|exists st; split; [done|by exists own, town]].
  destruct (table_at_lookup _ _ _ _ Et) as [Hv _].
  destruct (rep_table _ _ _ _ _ _ Hr Hv) as (tb & Eh & Hp & Etb & Htr & Hvo).
  replace (Z.of_nat i <? 0) with false by zb. rewrite Eh. cbn [mbind option_bind].
  replace (_ =? 0) with false by zb. rewrite Etb. cbn [mbind option_bind].
  rewrite (col_ok _ _ _ _ _ _ c Hr Hv). cbn [mbind option_bind].
  destruct (col_at v c) as [j|] eqn:Ec; [|exists st; split; [done|by exists own, town]].
  replace (Z.of_nat j <? 0) with false by zb.
  destruct (col_at_type _ _ _ _ _ _ (rp_ok _ _ _ _ Hr) Et Ec) as (ty & nm & Hj & Hct & Hty).
  assert (Ety : aread (columnTypes tb) (Z.of_nat j) = Some ty).
  { rewrite (tr_types _ _ _ _ _ Htr). unfold aread. replace (0 <=? Z.of_nat j) with true by zb.
    by rewrite Nat2Z.id, list_lookup_fmap, Hj. }
  rewrite Ety. cbn [mbind option_bind]. rewrite Hj. cbn [fmap option_fmap option_map snd].
  destruct Hty as [->| ->]; [exists st; split; [done|by exists own, town]|].
  change (negb (T_STRING =? T_STRING)) with false. cbn iota. unfold T_STRING at 1 2. cbn iota.
  destruct (tr_rows _ _ _ _ _ Htr) as (Hn & _). rewrite Hn.
  destruct ((0 <=? r) && (r <? zlen (tv_slots v))) eqn:Er; [|exists st; split; [done|by exists own, town]].
  destruct (row_cases _ _ _ _ _ (Z.to_nat r) (tr_rows _ _ _ _ _ Htr) Hvo ltac:(lia)) as [Ehr Hcase].
  assert (Er' : Z.of_nat (Z.to_nat r) = r) by lia. rewrite Er' in *. rewrite Ehr. cbn [mbind option_bind].
  destruct Hcase as [(cells & Hs & -> & Hnz & Hc & _ & Hro)|(Hs & -> & ->)];
    [|exists st; split; [done|by exists own, town]].
  replace (_ =? 0) with false by zb. rewrite Hc. cbn [mbind option_bind].
  destruct (row_cell _ _ _ _ _ Hro Hj) as (cl & _ & Ea & Hcl). rewrite Ea. cbn [mbind option_bind].
  pose proof (cell_free _ _ Hcl) as Ef. change (T_STRING =? T_STRING) with true in Ef. cbn iota in Ef.
  rewrite Ef. cbn [mbind option_bind].
  destruct (rep_write _ _ _ _ _ _ _ _ _ (CStr s) _ _ _ Hr Hv Etb Htr Hs Hj ltac:(done)) as [Ew Hrep].
  change (bstrdup_ptr bstrdup (Some s)) with (bstrdup s). rewrite bstrdup_ok. cbn [cell_of_ptr].
  rewrite Er' in *. rewrite Ew. cbn [mbind option_bind]. eexists. split; [done|]. by exists own, town.
Qed.

Lemma set_slots_same v : set_slots v (fun _ => tv_slots v) = v.
Proof. by destruct v. Qed.

Lemma add_ok st vs t : rep st vs ->
  exists r st', dbAddRow balloc_words brealloc_words new_row st (Some t) = Some (r, st') /\
    (r = (a_add vs t).1 /\ rep st' (a_add vs t).2 \/ r = -1 /\ rep st' vs).
Proof using balloc_words_spec brealloc_words_spec new_row_fresh.
  intros (own & town & Hr). unfold dbAddRow. rewrite (tid_ok _ _ _ _ t Hr). cbn [mbind option_bind].
  unfold a_add. destruct (table_at vs t) as [[i v]|] eqn:Et;
    [|exists DB_ERR_TABLE_NOT_FOUND, st; split; [done|left; split; [done|by exists own, town]]].
  destruct (table_at_lookup _ _ _ _ Et) as [Hv _].
  rewrite (valid_tid_ok _ _ _ _ _ Hr) by (by eapply lookup_lt_Some). cbn [mbind option_bind].
  destruct (rep_table _ _ _ _ _ _ Hr Hv) as (tb & Eh & Hp & Etb & Htr & Hvo).
  replace (_ =? 0) with false by zb. rewrite Etb. cbn [mbind option_bind].
  destruct (tr_rows _ _ _ _ _ Htr) as (Hn & Hok & Hrows).
  assert (Hsize : 0 < nColumns tb * WORD).
  { rewrite (tr_cols _ _ _ _ _ Htr). pose proof (vo_cols v Hvo). unfold WORD. destruct (tv_cols v); cbn; [done|lia]. }
  set (cp := new_row (rowcells st)).
  destruct (hAllocEntry_spec balloc_words brealloc_words (fun _ => cp) balloc_words_spec brealloc_words_spec
    (rows tb) (nRows tb) _ Hok Hsize) as (id & rows' & n' & E & Hok' & Hcase).
  rewrite E. cbn [mbind option_bind]. destruct Hcase as [(-> & -> & Hsame)|(Hid & Hfree & Hbelow & Hcp & Hmax & Hget)].
  - cbn [Z.leb Z.compare]. eexists _, _. split; [done|]. right. split; [done|]. exists own, town.
    pose proof (rep_replace own own town st vs i v tb rows' (nRows tb) (rowcells st) (tv_slots v)
      Hr Hv Etb Htr) as H. rewrite set_slots_same, list_insert_id in H by done.
    destruct st; cbn in *. apply H; [done| |done].
    split_and!; [by destruct tb|by destruct tb|]. intros r. specialize (Hrows r). cbn in *.
    replace (rows _) with rows' by (by destruct tb). by rewrite Hsame by lia.
  - set (n := Z.to_nat id). assert (Hn_id : Z.of_nat n = id) by lia.
    assert (Hgap : forall k : nat, mjoin (tv_slots v !! k) = None <-> hget (rows tb) (Z.of_nat k) = 0).
    { intros k. specialize (Hrows k). cbn in Hrows. destruct (mjoin _); [|done]. split; [done|]. by destruct Hrows. }
    assert (Hnl : (n <= length (tv_slots v))%nat).
    { destruct (decide (n <= length (tv_slots v))%nat) as [|Hgt]; [done|].
      destruct (Hbelow (Z.of_nat (length (tv_slots v)))); [lia|]. apply Hgap. by rewrite lookup_ge_None_2. }
    assert (Hslot : free_slot (tv_slots v) = n).
    { apply free_slot_unique; [done|apply Hgap; by rewrite Hn_id|].
      intros k Hk. rewrite Hgap. apply Hbelow. lia. }
    rewrite Hslot. replace (0 <=? id) with true by zb. eexists _, _. split; [done|]. left. cbn [fst snd].
    split; [done|]. exists (fun a => if a =? cp then (i, n) else own a), town.
    assert (Hfresh : rowcells st !! cp = None) by (destruct (new_row_fresh (rowcells st)); [done|done]).
    pose proof (rep_replace own (fun a => if a =? cp then (i, n) else own a) town st vs i v tb rows' n'
      (<[cp := repeat (CInt 0) (Z.to_nat (nColumns tb))]> (rowcells st))
      (fill_slot (tv_slots v) n (repeat (CInt 0) (length (tv_cols v)))) Hr Hv Etb Htr) as H.
    destruct st; cbn in *. apply H.
    + by apply fill_slot_ok.
    + split_and!; [|by destruct tb|].
      * replace (nRows _) with n' by (by destruct tb). rewrite length_fill_slot by done. lia.
      * intros r. cbn. replace (rows _) with rows' by (by destruct tb).
        rewrite fill_slot_lookup, Hget by (done || lia). destruct (decide (r = n)) as [->|Hne].
        -- replace (Z.of_nat n =? id) with true by zb. rewrite Z.eqb_refl, lookup_insert_eq.
           rewrite (tr_cols _ _ _ _ _ Htr), Nat2Z.id. done.
        -- replace (Z.of_nat r =? id) with false by zb. specialize (Hrows r).
           destruct (mjoin (tv_slots v !! r)) as [cells|]; [|done]. destruct Hrows as (? & Hc & ?).
           assert (hget (rows tb) (Z.of_nat r) <> cp) by congruence.
           replace (_ =? cp) with false by zb. by rewrite lookup_insert_ne.
    + intros a i' r' cells Hii Ho Hc. assert (a <> cp) by congruence.
      replace (a =? cp) with false by zb. by rewrite lookup_insert_ne.
Qed.

(** ** Registering a table *)

Lemma rep_register own town st vs v list' p t :
  rep_with own town st vs -> view_ok v -> tv_slots v = [] -> handles_ok 0 list' ->
  (forall j, 0 <= j -> hget list' j = if j =? zlen vs then p else hget (dbListTables st) j) ->
  p <> 0 -> tables st !! p = None ->
  name t = Some (tv_name v) -> nColumns t = zlen (tv_cols v) ->
  columnNames t = map (fun c => Some c.1) (tv_cols v) -> columnTypes t = map snd (tv_cols v) ->
  nRows t = 0 -> rows t = None ->
  rep_with own (fun a => if a =? p then length vs else town a)
    (st <| dbListTables := list' |> <| dbMaxTables := zlen vs + 1 |> <| tables := <[p := t]> (tables st) |>)
    (vs ++ [v]).
Proof.
  intros Hr Hvo Hslots Hok Hget Hp Hfresh T1 T2 T3 T4 T5 T6.
  destruct st as [mx lst tbs cs]; cbn in *. split; cbn.
  - apply Forall_app. split; [apply Hr|by constructor; [|apply Forall_nil]].
  - rewrite length_app. cbn. lia.
  - done.
  - intros i. rewrite Hget by lia. pose proof (rp_tabs _ _ _ _ Hr i) as Ht. cbn in Ht.
    destruct (decide (i = length vs)) as [->|Hne].
    + rewrite list_lookup_middle by done. rewrite Z.eqb_refl. split_and!; [done|by rewrite Z.eqb_refl|].
      exists t. split; [by rewrite lookup_insert_eq|]. split; try done.
      split_and!; [by rewrite Hslots|by rewrite T6|]. intros r. by rewrite Hslots, lookup_nil, T6, hget_none.
    + replace (Z.of_nat i =? zlen vs) with false by zb.
      assert (Hl : (vs ++ [v]) !! i = vs !! i).
      { destruct (decide (i < length vs)%nat); [by rewrite lookup_app_l|].
        by rewrite !lookup_ge_None_2 by (rewrite ?length_app; cbn; lia). }
      rewrite Hl. destruct (vs !! i) as [w|] eqn:Hw; [|done].
      destruct Ht as (Hnz & Htown & t' & Et' & Htr). assert (Hpa : p <> hget lst (Z.of_nat i)) by congruence.
      split_and!; [done|by replace (_ =? p) with false by zb|].
      exists t'. split; [by rewrite lookup_insert_ne|]. destruct Htr. by split.
Qed.

Lemma register_ok st vs sch r st' : rep st vs -> view_ok (mkView (sch_name sch) (sch_cols sch) []) ->
  dbRegisterDBSchema balloc_words brealloc_words new_table bstrdup st sch = Some (r, st') ->
  r = 0 /\ rep st' (vs ++ [mkView (sch_name sch) (sch_cols sch) []]).
Proof using balloc_words_spec brealloc_words_spec new_table_fresh bstrdup_ok.
  intros (own & town & Hr) Hvo. unfold dbRegisterDBSchema. set (p := new_table (tables st)).
  destruct (hAllocEntry_spec balloc_words brealloc_words (fun _ => p) balloc_words_spec brealloc_words_spec
    (dbListTables st) (dbMaxTables st) (6 * WORD) (rp_list _ _ _ _ Hr) eq_refl)
    as (id & list' & mx & E & Hok & Hcase).
  rewrite E. cbn [mbind option_bind]. destruct Hcase as [(-> & _)|(Hid & Hfree & Hbelow & Hp & Hmax & Hget)]; [done|].
  replace (id <? 0) with false by zb.
  destruct (if 0 <? zlen (sch_cols sch) then balloc_words _ else _) as [m1|]; [|done]. cbn [mbind option_bind].
  intros [= <- <-]. split; [done|].
  assert (Hnext : id = zlen vs).
  { pose proof (rp_tabs _ _ _ _ Hr (length vs)) as Hl. cbn in Hl. rewrite lookup_ge_None_2 in Hl by done.
    destruct (Z.lt_trichotomy id (zlen vs)) as [Hlt|[?|Hgt]]; [|done|].
    - pose proof (rp_tabs _ _ _ _ Hr (Z.to_nat id)) as Hi. cbn in Hi. rewrite Z2Nat.id in Hi by done.
      destruct (lookup_lt_is_Some_2 vs (Z.to_nat id)) as [w Hw]; [lia|]. rewrite Hw in Hi. by destruct Hi.
    - destruct (Hbelow (zlen vs)); [lia|done]. }
  subst id. assert (Hmx : mx = zlen vs + 1) by (rewrite (rp_max _ _ _ _ Hr) in Hmax; lia). clear Hmax. subst mx.
  exists own, (fun a => if a =? p then length vs else town a).
  set (t := mkTable _ _ _ _ _ _).
  refine (rep_register own town st vs _ list' p t Hr Hvo eq_refl Hok Hget Hp _ _ eq_refl _ eq_refl eq_refl eq_refl).
  - by destruct (new_table_fresh (tables st)).
  - apply bstrdup_ok.
  - apply map_ext. intros. apply bstrdup_ok.
Qed.

(** ** Growing a table *)

(** A table filled up to [n] rows. *)
Definition zero_row (v : tview) : list cell := repeat (CInt 0) (length (tv_cols v)).
Definition filled (v : tview) (n : nat) : list (option (list cell)) :=
  map (fun s => Some (default (zero_row v) s)) (tv_slots v) ++
  repeat (Some (zero_row v)) (n - length (tv_slots v)).

Fixpoint holes (slots : list (option (list cell))) : nat :=
  match slots with [] => 0 | None :: l => S (holes l) | _ :: l => holes l end.

Lemma holes_le slots : (holes slots <= length slots)%nat.
Proof. induction slots as [|[c|] l IH]; cbn; lia. Qed.

Lemma fill_hole v n slots' : (length (tv_slots v) < n)%nat ->
  slots' = fill_slot (tv_slots v) (free_slot (tv_slots v)) (zero_row v) ->
  filled (set_slots v (fun _ => slots')) n = filled v n /\
  (length slots' <= n)%nat /\ (length (tv_slots v) <= length slots')%nat /\
  (S (holes slots' + (n - length slots')) = holes (tv_slots v) + (n - length (tv_slots v)))%nat /\
  ((length slots' < n)%nat \/ holes slots' = 0%nat).
Proof.
  intros Hn ->. unfold filled, zero_row. cbn [tv_slots set_slots tv_cols].
  set (z := repeat (CInt 0) (length (tv_cols v))). set (l := tv_slots v) in *.
  unfold fill_slot, free_slot. destruct (findi is_hole l) as [k|] eqn:E; cbn [default from_option id].
  - pose proof (findi_lt _ _ _ E) as Hk. apply findi_Some in E as (x & Hx & Hf & Hlt).
    destruct x; [done|]. rewrite decide_True by done.
    rewrite length_insert. split_and!; [|lia|lia| |by left].
    + f_equal. rewrite list_fmap_insert. cbn. apply list_insert_id. by rewrite list_lookup_fmap, Hx.
    + assert (H : forall m, m !! k = Some None -> S (holes (<[k := Some z]> m)) = holes m).
      { clear. revert k. induction k as [|k IH]; intros [|y m] Hm; try done; cbn in Hm.
        - by injection Hm as ->.
        - change (<[S k := Some z]> (y :: m)) with (y :: <[k := Some z]> m). cbn [holes].
          destruct y; rewrite <- (IH m Hm); done. }
      specialize (H l Hx). lia.
  - rewrite decide_False by (cbn; lia). rewrite length_app. cbn [length].
    assert (Hz : holes l = 0%nat).
    { clear -E. apply findi_None in E. induction E as [|[c|] l Hc _ IH]; done. }
    split_and!; [|lia|lia| |].
    + rewrite map_app. cbn. rewrite <- app_assoc. f_equal. cbn.
      replace (n - length l)%nat with (S (n - (length l + 1))) by lia. done.
    + assert (H : forall m, holes (m ++ [Some z]) = holes m).
      { clear. induction m as [|[c|] m IH]; cbn; [done|done|]. by rewrite IH. }
      rewrite H. lia.
    + right. rewrite <- Hz. clear. induction l as [|[c|] m IH]; cbn; [done|done|]. by rewrite IH.
Qed.

Lemma filled_full v n : length (tv_slots v) = n -> holes (tv_slots v) = 0%nat -> filled v n = tv_slots v.
Proof.
  intros <- Hz. unfold filled. rewrite Nat.sub_diag, app_nil_r. induction (tv_slots v) as [|[c|] l IH]; [done| |done].
  cbn in *. by rewrite IH.
Qed.

Lemma add_list st t r st' : dbAddRow balloc_words brealloc_words new_row st t = Some (r, st') ->
  dbListTables st' = dbListTables st.
Proof.
  unfold dbAddRow. destruct (dbGetTableId st t) as [tid|]; [|done]. cbn.
  destruct (valid_tid st tid) as [p|]; [|done]. cbn. destruct (p =? 0); [by intros [= _ <-]|].
  destruct (tables st !! p) as [tb|]; [|done]. cbn.
  destruct (hAllocEntry _ _ _ _ _ _) as [[[id rows'] n']|]; [|done]. cbn.
  intros [= _ <-]. destruct st. by destruct (0 <=? id).
Qed.

Lemma grow_loop_ok t i n : forall fuel st vs v, rep st vs -> table_at vs t = Some (i, v) ->
  (holes (tv_slots v) + (n - length (tv_slots v)) < fuel)%nat -> (length (tv_slots v) <= n)%nat ->
  ((length (tv_slots v) < n)%nat \/ holes (tv_slots v) = 0%nat) ->
  exists r st', grow_loop balloc_words brealloc_words new_row fuel st
      (hget (dbListTables st) (Z.of_nat i)) (Some t) (Z.of_nat n) = Some (r, st') /\
    (r = 0 /\ rep st' (<[i := set_slots v (fun _ => filled v n)]> vs) \/ r = -1 /\ exists vs', rep st' vs').
Proof using balloc_words_spec brealloc_words_spec new_row_fresh.
  induction fuel as [|fuel IH]; intros st vs v Hrep Ht Hf Hle Hfull; [lia|]. cbn [grow_loop].
  destruct (table_at_lookup _ _ _ _ Ht) as [Hv _]. pose proof Hrep as (own & town & Hr).
  destruct (rep_table _ _ _ _ _ _ Hr Hv) as (tb & Eh & Hp & Etb & Htr & Hvo).
  rewrite Etb. cbn [mbind option_bind]. destruct (tr_rows _ _ _ _ _ Htr) as (Hn & _). rewrite Hn.
  destruct (Z.ltb_spec (zlen (tv_slots v)) (Z.of_nat n)) as [Hlt|Hge].
  - destruct (add_ok st vs t Hrep) as (r & st1 & E & Hcase). rewrite E. cbn [mbind option_bind].
    unfold a_add in Hcase. rewrite Ht in Hcase. cbn [fst snd] in Hcase.
    destruct Hcase as [[-> Hrep1]|[-> Hrep1]]; [|eexists _, _; split; [done|right; split; [done|by exists vs]]].
    replace (_ <? 0) with false by zb. rewrite <- (add_list _ _ _ _ E).
    set (slots' := fill_slot (tv_slots v) (free_slot (tv_slots v)) (zero_row v)).
    destruct (fill_hole v n slots' ltac:(lia) eq_refl) as (F1 & F2 & F3 & F4 & F5).
    destruct (IH st1 _ (set_slots v (fun _ => slots')) Hrep1) as (r & st' & E' & Hcase);
      [by apply (table_at_insert vs t i v)|cbn; lia|done|done|].
    exists r, st'. split; [exact E'|]. destruct Hcase as [[-> Hrep']|[-> Hrep']]; [left|by right].
    split; [done|]. rewrite F1, list_insert_insert_eq in Hrep'. exact Hrep'.
  - exists 0, st. split; [done|]. left. split; [done|].
    rewrite filled_full by lia. rewrite set_slots_same. by rewrite list_insert_id.
Qed.

(** ** The interface *)

Definition emf_db : Database db := {|
  DbIface.dbOpen := EmfDb.dbOpen;
  DbIface.dbClose := EmfDb.dbClose;
  DbIface.dbZero := EmfDb.dbZero;
  DbIface.dbRegisterDBSchema :=
    EmfDb.dbRegisterDBSchema balloc_words brealloc_words new_table bstrdup;
  DbIface.dbSearchStr := EmfDb.dbSearchStr;
  DbIface.dbReadInt := EmfDb.dbReadInt;
  DbIface.dbReadStr := EmfDb.dbReadStr;
  DbIface.dbWriteInt := EmfDb.dbWriteInt;
  DbIface.dbWriteStr := EmfDb.dbWriteStr bstrdup;
  DbIface.dbAddRow := EmfDb.dbAddRow balloc_words brealloc_words new_row;
  DbIface.dbDeleteRow := EmfDb.dbDeleteRow
|}.

#[local] Existing Instance emf_db.

Lemma rep_adb_ok st vs : rep st vs -> adb_ok vs.
Proof. intros (own & town & Hr). apply Hr. Qed.

Definition emf_laws : DatabaseLaws db.
Proof using balloc_words_spec brealloc_words_spec new_table_fresh new_row_fresh bstrdup_ok.
  refine {| db_rep := rep |}; cbn.
  - apply rep_adb_ok.
  - apply search_ok.
  - apply readint_ok.
  - apply readint_ok.
  - apply writeint_ok.
  - intros. by apply writestr_ok.
  - done.
  - apply add_ok.
  - apply delete_ok.
  - apply zero_rep.
  - apply close_rep.
  - intros st. split; [done|]. destruct st. by apply rep_nil.
  - apply register_ok.
Defined.

(** C9. The text-file database refines the abstract one.  After [dbOpen] and the
    registration of any well-formed tables, every sequence of searches, reads, writes, new
    rows, deleted rows and [dbZero] that respects the types of the columns runs without
    a crash, and its results are those of the abstract database, on every branch: table or
    column not found, row out of range, row deleted, wrong type.  An error is the code of
    emfdb.h that belongs to it; the comments of [dbWriteInt] and [dbWriteStr], which say -1
    for every error, do not hold.  Only a new row may fail, with -1 and nothing changed,
    when there is no memory. *)
Theorem database_refines st0 schs st ops :
  Forall (fun sch => view_ok (empty_table sch)) schs ->
  register_all (dbOpen st0).2 schs = Some st ->
  Forall (op_typed (map empty_table schs)) ops ->
  exists rs st' vs', run_ops st ops = Some (rs, st') /\ a_steps (map empty_table schs) ops rs vs'.
Proof using balloc_words_spec brealloc_words_spec new_table_fresh new_row_fresh bstrdup_ok.
  intros Hok Hreg Hty.
  pose proof (@register_all_ok _ emf_db emf_laws schs _ [] st
    (proj2 (@db_open_ok _ emf_db emf_laws st0)) Hok Hreg) as Hr.
  destruct (@run_ops_ok _ emf_db emf_laws ops st _ Hr Hty) as (rs & st' & vs' & E & Hs & _). eauto.
Qed.

(** [dbSetTableNrow] returns, and the rounds of its loop are bounded by the rows that
    are asked for: unless memory is out, the table has at least [n] rows, every hole is
    filled with an empty row and no other row changed.  A table that is long enough is
    left alone, holes included. *)
Theorem dbSetTableNrow_correct st vs t i v n : rep st vs -> table_at vs t = Some (i, v) ->
  exists r st', dbSetTableNrow balloc_words brealloc_words new_row st (Some t) n = Some (r, st') /\
    (r = 0 /\ rep st' (<[i := set_slots v (fun l => if n <=? zlen l then l else filled v (Z.to_nat n))]> vs) \/
     r = -1 /\ zlen (tv_slots v) < n /\ exists vs', rep st' vs').
Proof using balloc_words_spec brealloc_words_spec new_row_fresh.
  intros Hrep Ht. pose proof Hrep as (own & town & Hr). unfold dbSetTableNrow.
  rewrite (tid_ok _ _ _ _ t Hr), Ht. cbn [mbind option_bind].
  destruct (table_at_lookup _ _ _ _ Ht) as [Hv _].
  rewrite (valid_tid_ok _ _ _ _ _ Hr) by (by eapply lookup_lt_Some). cbn [mbind option_bind].
  destruct (rep_table _ _ _ _ _ _ Hr Hv) as (tb & Eh & Hp & Etb & Htr & Hvo).
  replace (_ =? 0) with false by zb. rewrite Etb. cbn [mbind option_bind].
  destruct (tr_rows _ _ _ _ _ Htr) as (Hn & _). rewrite Hn. unfold set_slots at 1.
  destruct (Z.leb_spec n (zlen (tv_slots v))) as [Hle|Hgt].
  - exists 0, st. split; [done|]. left. split; [done|].
    replace (mkView _ _ _) with v by (by destruct v). by rewrite list_insert_id.
  - pose proof (holes_le (tv_slots v)).
    destruct (grow_loop_ok t i (Z.to_nat n) (S (Z.to_nat n)) st vs v Hrep Ht) as (r & st' & E & Hcase);
      [lia|lia|left; lia|].
    rewrite Z2Nat.id in E by lia. exists r, st'. split; [exact E|].
    destruct Hcase as [[-> Hr']|[-> Hr']]; [by left|right]. split_and!; [done|lia|done].
Qed.
End Memory.

(** ** Witnesses *)

(** A new block lies above the blocks in use. *)
Definition demo_block {A} (m : gmap Z A) : Z := 4096 + foldr Z.max 0 (map_to_list m).*1.

Lemma demo_block_fresh {A} (m : gmap Z A) : demo_block m = 0 \/ m !! demo_block m = None.
Proof.
  right. destruct (m !! demo_block m) as [x|] eqn:E; [|done]. exfalso.
  apply elem_of_map_to_list, (list_elem_of_fmap_2 fst) in E. unfold demo_block in E. cbn in E.
  assert (H : forall (l : list Z) k, k ∈ l -> k <= foldr Z.max 0 l).
  { clear. induction l as [|a l IH]; intros k; [by intros ?%elem_of_nil|].
    intros [->|Hk]%elem_of_cons; cbn; [lia|]. specialize (IH k Hk). lia. }
  apply H in E. lia.
Qed.

Definition demo_schema : schema :=
  mkSchema (str "users") [(str "name", T_STRING); (str "prot", T_INT)].

Lemma demo_schema_ok : view_ok (empty_table demo_schema).
Proof.
  split; cbn; [by repeat constructor; first [by left|by right]|done| |done].
  intros r cells. by rewrite lookup_nil.
Qed.

Definition demo_db : Database db := emf_db demo_words demo_rewords demo_block demo_block Some.

Definition demo_ops : list dbop :=
  [OAddRow (str "users"); OWriteStr (str "users") (str "name") 0 (str "amy");
   OAddRow (str "users"); OWriteStr (str "users") (str "name") 1 (str "bob");
   OWriteStr (str "users") (str "prot") 1 (str "x"); ODeleteRow (str "users") 0;
   OReadStr (str "users") (str "name") 0; OReadStr (str "users") (str "name") 1;
   OSearch (str "users") (str "name") (str "BOB") DB_CASE_INSENSITIVE;
   OReadInt (str "users") (str "prot") 2].

Definition demo_state0 : db := mkDb 0 None ∅ ∅.

Lemma database_refines_witness :
  exists st rs st' vs', @register_all _ demo_db (dbOpen demo_state0).2 [demo_schema] = Some st /\
    @run_ops _ demo_db st demo_ops = Some (rs, st') /\ a_steps [empty_table demo_schema] demo_ops rs vs' /\
    rs = [(0, None); (0, None); (1, None); (0, None); (DB_ERR_BAD_FORMAT, None); (0, None);
          (DB_ERR_ROW_DELETED, None); (0, Some (CStr (str "bob"))); (1, None);
          (DB_ERR_ROW_NOT_FOUND, None)].
Proof.
  destruct (@register_all _ demo_db (dbOpen demo_state0).2 [demo_schema]) as [st|] eqn:E;
    [|vm_compute in E; discriminate E].
  destruct (database_refines demo_words demo_rewords demo_block demo_block Some
    demo_words_spec demo_rewords_spec demo_block_fresh demo_block_fresh (fun _ => eq_refl)
    demo_state0 [demo_schema] st demo_ops) as (rs & st' & vs' & Er & Hs).
  - by constructor; [apply demo_schema_ok|apply Forall_nil].
  - exact E.
  - unfold demo_ops. repeat (apply Forall_cons_iff; split);
      [..|apply Forall_nil]; cbn [op_typed]; try exact I; try (by repeat constructor); vm_compute; discriminate.
  - exists st, rs, st', vs'. split; [done|]. split; [exact Er|]. split; [exact Hs|].
    vm_compute in E. injection E as <-. vm_compute in Er. by injection Er as <- _.
Defined.

(** The table of [demo_schema] with no rows, in memory. *)
Definition demo_state : db :=
  default demo_state0 (@register_all _ demo_db (dbOpen demo_state0).2 [demo_schema]).

Lemma emf_demo_rep : rep demo_state [empty_table demo_schema].
Proof.
  destruct (register_ok demo_words demo_rewords demo_block Some
    demo_words_spec demo_rewords_spec demo_block_fresh (fun _ => eq_refl)
    (dbOpen demo_state0).2 [] demo_schema 0 demo_state) as [_ H];
    [by apply rep_nil|apply demo_schema_ok|vm_compute; reflexivity|exact H].
Qed.

Lemma dbSetTableNrow_correct_witness :
  exists r st', dbSetTableNrow demo_words demo_rewords demo_block demo_state (Some (str "users")) 2 =
      Some (r, st') /\ r = 0 /\ dbGetTableNrow st' (Some (str "users")) = Some 2 /\
    (r = 0 /\ rep st' [mkView (str "users") (sch_cols demo_schema)
                         (repeat (Some [CInt 0; CInt 0]) 2)] \/
     r = -1 /\ 0 < 2 /\ exists vs', rep st' vs').
Proof.
  destruct (dbSetTableNrow_correct demo_words demo_rewords demo_block
    demo_words_spec demo_rewords_spec demo_block_fresh demo_state _ (str "users") 0
    (empty_table demo_schema) 2 emf_demo_rep eq_refl) as (r & st' & E & H).
  exists r, st'. split; [exact E|]. split; [|split; [|exact H]].
  - vm_compute in E. by injection E as <- _.
  - vm_compute in E. injection E as _ <-. vm_compute. reflexivity.
Defined.
