(* ===== verification/EmfFile.v ===== *)
(** * The file of the database (webs/src/src/emfdb.c: dbSave, dbLoad)

    The tables are written as lines KEY=value and read back.  The disk is a finite map
    from paths to contents; what the system calls answer is a record [io], so that opens,
    writes, renames and reads may fail.  The text is made with [fmtAlloc] of [Fmt]. *)

From stdpp Require Import gmap.
From S2P Require Import Prelude CString Fmt Handles DbIface EmfDb.
#[local] Open Scope Z_scope.
#[local] Open Scope cint_scope.

Definition KEYWORD_TABLE : list Z := str "TABLE".
Definition KEYWORD_ROW : list Z := str "ROW".
Definition BUF_MAX : Z := 4096.
Definition FNAMESIZE : Z := 254.

(** The answers of the system: whether the temporary file can be created; what [write]
    returns for a line after what was written so far; whether [rename] succeeds and the
    file can be opened; how much [read] reads. *)
Record io : Type := mkIo {
  io_create : bool;
  io_write : list Z -> list Z -> Z;
  io_rename : bool;
  io_open : bool;
  io_read : list Z -> Z
}.

Abbreviation disk := (gmap (list Z) (list Z)) (only parsing).

(** The block of a string, and the string of a block. *)
Definition blk (p : cptr) : option (list Z) := (fun s => s ++ [0]) <$> p.
Definition unblk (b : option (list Z)) : option cptr :=
  match b with None => Some None | Some b => s ← cstr b; Some (Some s) end.

Definition newline : Z := 10.

(** The copy of the directory that is kept, without a separator at its end; without memory
    for it the length of a null pointer is taken. *)
Definition basicSetProductDir (bstrdup : list Z -> cptr) (proddir : list Z) : option cptr :=
  basicProdDir ← bstrdup proddir;
  let len := zlen basicProdDir in
  Some (Some (if (0 <? len) && (zget basicProdDir (len - 1) =? 47)
              then take (Z.to_nat (len - 1)) basicProdDir else basicProdDir)).

Section File.
Context (lw : Z) (balloc : Z -> option (list Z)) (brealloc : list Z -> Z -> option (list Z)).
Context (basicProdDir : cptr) (sys : io).

Definition basicGetProductDir : list Z := default (str ".") basicProdDir.

(** [fmtAlloc] and the string it leaves. *)
Definition fmt_string (n : Z) (fmt : list Z) (args : list farg) : option cptr :=
  '(_, b) ← fmtAlloc balloc brealloc lw n fmt args; unblk b.

(** ** Saving *)

(** [out] is what the file holds so far. *)
Definition dbWriteKeyValue (out : list Z) (key value : cptr) : option (Z * list Z) :=
  pLineOut ← fmt_string BUF_MAX (str "%s=%s" ++ [newline]) [AStr (blk key); AStr (blk value)];
  match pLineOut with
  | Some line =>
      let rc := io_write sys out line in
      Some (rc, out ++ take (Z.to_nat rc) line)
  | None => Some (-1, out)
  end.

(** [dbWriteKeyValue] of a number. *)
Definition write_number (out : list Z) (key : cptr) (z : Z) : option (Z * list Z) :=
  tmpNum ← fmt_string 20 (str "%d") [AInt z];
  dbWriteKeyValue out key tmpNum.

Fixpoint save_columns (n : nat) (t : dbTable) (cells : list cell) (column rc : Z) (out : list Z)
  : option (Z * list Z) :=
  match n with
  | O => Some (rc, out)
  | S n =>
      if rc <? 0 then Some (rc, out)
      else
        type ← aread (columnTypes t) column;
        nm ← aread (columnNames t) column;
        c ← aread cells column;
        '(rc, out) ← (if type =? T_STRING then p ← ptr_of_cell c; dbWriteKeyValue out nm p
                      else match c with
                           | CInt z => write_number out nm z
                           | CStr _ => None
                           end);
        save_columns n t cells (column + 1) rc out
  end.

(** [(pRow[0] == 0) || ( *(char_t * )(pRow[0]) == 0)] *)
Definition unsaved (cells : list cell) : option bool :=
  c ← aread cells 0;
  p ← ptr_of_cell c;
  Some (match p with None | Some [] => true | Some _ => false end).

Fixpoint save_rows (n : nat) (st : db) (t : dbTable) (row nRet : Z) (out : list Z)
  : option (Z * list Z) :=
  match n with
  | O => Some (nRet, out)
  | S n =>
      if negb (nRet =? 0) then Some (nRet, out)
      else
        pRow ← hread (rows t) row;
        if pRow =? 0 then save_rows n st t (row + 1) nRet out
        else
          cells ← rowcells st !! pRow;
          skip ← unsaved cells;
          if (skip : bool) then save_rows n st t (row + 1) nRet out
          else
            '(rc, out) ← write_number out (Some KEYWORD_ROW) row;
            '(rc, out) ← save_columns (Z.to_nat (nColumns t)) t cells 0 rc out;
            save_rows n st t (row + 1) (if rc <? 0 then -1 else nRet) out
  end.

Fixpoint save_tables (n : nat) (st : db) (tid nRet : Z) (out : list Z) : option (Z * list Z) :=
  match n with
  | O => Some (nRet, out)
  | S n =>
      if nRet =? -1 then Some (nRet, out)
      else
        p ← hread (dbListTables st) tid;
        if p =? 0 then save_tables n st (tid + 1) nRet out
        else
          t ← tables st !! p;
          '(_, out) ← dbWriteKeyValue out (Some KEYWORD_TABLE) (name t);
          '(nRet, out) ← save_rows (Z.to_nat (nRows t)) st t 0 nRet out;
          save_tables n st (tid + 1) nRet out
  end.

(** A path that could not be made is a null pointer, which the calls refuse. *)
Definition dbSave (st : db) (files : disk) (filename : cptr) : option (Z * disk) :=
  tmpFile ← fmt_string FNAMESIZE (str "%s/data.tmp") [AStr (blk (Some basicGetProductDir))];
  match tmpFile with
  | None => Some (-1, files)
  | Some tmpFile =>
      if negb (io_create sys) then Some (-1, files)
      else
        '(nRet, out) ← save_tables (Z.to_nat (dbMaxTables st)) st 0 0 [];
        let files := <[tmpFile := out]> files in
        if nRet =? 0 then
          path ← fmt_string FNAMESIZE (str "%s/%s") [AStr (blk (Some basicGetProductDir)); AStr (blk filename)];
          match path with
          | None => Some (-1, files)
          | Some path =>
              let files := delete path files in
              match files !! tmpFile with
              | Some b => if io_rename sys then Some (0, <[path := b]> (delete tmpFile files))
                          else Some (-1, files)
              | None => Some (-1, files)
              end
          end
        else Some (nRet, files)
  end.

(** ** Loading *)

(** [strtok] at newlines: the next token of the string and what is behind it. *)
Fixpoint upto_newline (s : list Z) : list Z * list Z :=
  match s with
  | [] => ([], [])
  | c :: s => if c =? newline then ([], s) else let '(tok, rest) := upto_newline s in (c :: tok, rest)
  end.

Fixpoint strtok (s : list Z) : option (list Z * list Z) :=
  match s with
  | [] => None
  | c :: s' => if c =? newline then strtok s' else Some (upto_newline s)
  end.

(** The two parts of a string around the first [c]. *)
Fixpoint split_at (c : Z) (s : list Z) : option (list Z * list Z) :=
  match s with
  | [] => None
  | x :: s => if x =? c then Some ([], s) else '(a, b) ← split_at c s; Some (x :: a, b)
  end.

Definition trim_blanks (s : list Z) : list Z := skip_space s.

(** Keyword and value of a line; [None] for -1. *)
Definition crack (buf : list Z) : option (list Z * list Z) :=
  let buf := match strrchr buf newline with
             | Some i => take (Z.to_nat i) buf
             | None => match strrchr buf 13 with Some i => take (Z.to_nat i) buf | None => buf end
             end in
  '(k, v) ← split_at 61 buf;
  Some (trim_blanks k, trim_blanks v).

(** The variables of [dbLoad]; [pTable] is an address, 0 for the null pointer. *)
Record lstate : Type := mkL {
  l_db : db;
  l_tablename : cptr;
  l_tid : Z;
  l_pTable : Z;
  l_row : Z
}.

Context (balloc_words : Z -> option (list Z)) (brealloc_words : list Z -> Z -> option (list Z)).
Context (new_row : gmap Z (list cell) -> Z) (bstrdup : list Z -> cptr).

Definition load_column (l : lstate) (keyword value : list Z) : option lstate :=
  nColumn ← GetColumnIndex (l_db l) (l_tid l) (Some keyword);
  if (0 <=? nColumn) && negb (l_pTable l =? 0) then
    t ← tables (l_db l) !! l_pTable l;
    nColumnType ← aread (columnTypes t) nColumn;
    '(_, st) ← (if nColumnType =? T_STRING
                then dbWriteStr bstrdup (l_db l) (l_tablename l) (Some keyword) (l_row l) (Some value)
                else z ← gstrtoi (value ++ [0]);
                     dbWriteInt (l_db l) (l_tablename l) (Some keyword) (l_row l) (s32 z));
    Some (mkL st (l_tablename l) (l_tid l) (l_pTable l) (l_row l))
  else Some l.

Definition load_line (l : lstate) (line : list Z) : option lstate :=
  match crack line with
  | None => Some l
  | Some (keyword, value) =>
      if strcmp keyword KEYWORD_TABLE =? 0 then
        let tablename := bstrdup value in
        tid ← dbGetTableId (l_db l) tablename;
        p ← (if 0 <=? tid then hread (dbListTables (l_db l)) tid else Some 0);
        Some (mkL (l_db l) tablename tid p (l_row l))
      else if strcmp keyword KEYWORD_ROW =? 0 then
        if 0 <=? l_tid l then
          nRows ← dbGetTableNrow (l_db l) (l_tablename l);
          '(r, st) ← dbSetTableNrow balloc_words brealloc_words new_row (l_db l) (l_tablename l) (nRows + 1);
          Some (mkL st (l_tablename l) (l_tid l) (l_pTable l) (if r =? 0 then nRows else l_row l))
        else Some l
      else if negb (l_row l =? -1) then load_column l keyword value
      else Some l
  end.

(** [do .. while ((ptr = gstrtok(NULL, ..)) != NULL)]: the line [ptr] and the rest of the
    text. *)
Fixpoint load_loop (fuel : nat) (l : lstate) (ptr rest : list Z) : option lstate :=
  match fuel with
  | O => None
  | S fuel =>
      l ← load_line l ptr;
      match strtok rest with
      | Some (ptr, rest) => load_loop fuel l ptr rest
      | None => Some l
      end
  end.

(** Every round takes a line of the text; [read] into the null pointer fails. *)
Definition dbLoad (st : db) (files : disk) (filename : cptr) : option (Z * db) :=
  path ← fmt_string FNAMESIZE (str "%s/%s") [AStr (blk (Some basicGetProductDir)); AStr (blk filename)];
  match path ≫= (files !!.) with
  | None => Some (-1, st)
  | Some content =>
      if negb (io_open sys) then Some (-1, st)
      else if zlen content <=? 0 then Some (-1, st)
      else
        match balloc (zlen content + 1) with
        | None => Some (-1, st)
        | Some _ =>
            if negb (io_read sys content =? zlen content) then Some (-1, st)
            else
              text ← cstr (content ++ [0]);
              '(ptr, rest) ← strtok text;
              l ← load_loop (S (length text)) (mkL st None (-1) 0 (-1)) ptr rest;
              Some (0, l_db l)
        end
  end.
End File.
