(* ===== verification/EmfFileSpec.v ===== *)
(** * The file of the database is read back

    [dbSave] writes the rows that are in use, and [dbLoad] of that file into empty tables
    gives them back, without the holes of deleted rows. *)

From stdpp Require Import gmap.
From S2P Require Import Prelude CString Fmt Decimal Handles DbIface EmfDb EmfDbSpec EmfFile.
#[local] Open Scope Z_scope.
#[local] Open Scope cint_scope.

(** ** Numbers in the file *)

Lemma gstrtoi_decimal z s : decimal z s -> - 2 ^ 31 <= z < 2 ^ 31 ->
  exists v, gstrtoi (s ++ [0]) = Some v /\ s32 v = z.
Proof.
  intros Hdec Hz. unfold gstrtoi. destruct (decimal_chars z s Hdec) as [Hne Hc].
  assert (Hx : hex_prefix (s ++ [0]) = false).
  { destruct s as [|c s]; [done|]. apply Forall_cons_iff in Hc as [Hc0 Hc]. unfold hex_prefix. cbn [app].
    destruct (s ++ [0]) as [|c' s'] eqn:E; [done|].
    assert (Hc' : c' = 0 \/ c' = 45 \/ 48 <= c' <= 57).
    { destruct s as [|x s]; [injection E as <- _; by left|]. injection E as <- _.
      apply Forall_cons_iff in Hc as [? _]. by right. }
    apply andb_false_intro2, orb_false_intro; zb. }
  rewrite Hx, (atoi_decimal z s Hdec Hz). cbn [mbind option_bind]. eexists. split; [done|].
  unfold swrap, uwrap. rewrite Z.add_mod_idemp_l by lia. change (2 ^ (32 - 1)) with (2 ^ 31).
  rewrite Z.mod_small by lia. lia.
Qed.

(** ** The texts that are written *)

Section Texts.
Context (lw : Z) (balloc : Z -> option (list Z)) (brealloc : list Z -> Z -> option (list Z)).
Hypothesis lw_ok : lw = 32 \/ lw = 64.
Hypothesis balloc_ok : forall n, 0 < n <= 2 ^ 30 -> exists b, balloc n = Some b /\ zlen b = n.
Hypothesis brealloc_ok : forall b n, zlen b <= n <= 2 ^ 30 ->
  exists b', brealloc b n = Some b' /\ zlen b' = n /\ take (length b) b' = b.

Lemma fmt_string_ok n fmt args t counts : 0 < n <= 2 ^ 26 ->
  text lw (capacity n) fmt args = Some (t, counts) -> (STR_INC <= n \/ zlen t < n) ->
  zlen t <= capacity n -> fmt_string lw balloc brealloc n fmt args = Some (Some t).
Proof using balloc_ok brealloc_ok.
  intros Hn Ht Hs Hc. unfold fmt_string.
  destruct (fmtAlloc_spec balloc brealloc balloc_ok brealloc_ok lw n fmt args t counts Hn Ht Hs) as (b & E & Hb).
  rewrite E. cbn [mbind option_bind unblk]. rewrite Hb. cbn [mbind option_bind]. by rewrite take_ge by lia.
Qed.

(** A null string is shown as [(null)]. *)
Definition shown (p : option (list Z)) : list Z := default (str "(null)") p.

Lemma format_null cap n l fmt args :
  format_loop (H := text_sink cap) lw (S (S (S n))) l (Some (37 :: 115 :: fmt)) (AStr None :: args) =
  format_loop (H := text_sink cap) lw (S (S (S n))) l (Some (37 :: 115 :: fmt)) (AStr (Some (str "(null)" ++ [0])) :: args).
Proof. reflexivity. Qed.

Lemma text_pair cap k p : no_nul k -> no_nul (shown p) -> zlen k < 2 ^ 32 -> zlen (shown p) < 2 ^ 32 ->
  text lw cap (str "%s=%s" ++ [newline]) [AStr (blk (Some k)); AStr (blk p)] =
    Some (k ++ 61 :: shown p ++ [newline], []).
Proof using lw_ok.
  intros Hk Hv Hkl Hvl. unfold text, text_after, format.
  change (str "%s=%s" ++ [newline]) with (37 :: 115 :: [61] ++ 37 :: 115 :: [newline] ++ []).
  change (S (S (length (37 :: 115 :: [61] ++ 37 :: 115 :: [newline] ++ [])))) with 8%nat.
  cbn [blk fmap option_fmap option_map].
  rewrite (format_s lw cap lw_ok 5 _ (k ++ [0]) k) by (done || by apply cstr_app).
  change 7%nat with (length [61] + 6)%nat. rewrite (format_plain lw cap [61]) by by repeat constructor.
  assert (E : forall l, format_loop (H := text_sink cap) lw 6 l (Some (37 :: 115 :: [newline] ++ [])) [AStr (blk p)] =
              format_loop (H := text_sink cap) lw 5 (l ++ shown p) (Some ([newline] ++ [])) []).
  { intros l. transitivity (format_loop (H := text_sink cap) lw 6 l (Some (37 :: 115 :: [newline] ++ [])) [AStr (Some (shown p ++ [0]))]).
    - destruct p; [done|apply format_null].
    - apply (format_s lw cap lw_ok 3); [by apply cstr_app|done]. }
  cbn [blk fmap option_fmap option_map] in E. rewrite E.
  change 5%nat with (length [newline] + 4)%nat. rewrite (format_plain lw cap [newline]) by by repeat constructor.
  rewrite (format_end lw cap 3). cbn [app]. do 2 f_equal. by rewrite <- !app_assoc.
Qed.

Lemma text_path cap k v : no_nul k -> no_nul v -> zlen k < 2 ^ 32 -> zlen v < 2 ^ 32 ->
  text lw cap (str "%s/%s") [AStr (blk (Some k)); AStr (blk (Some v))] = Some (k ++ 47 :: v, []).
Proof using lw_ok.
  intros Hk Hv Hkl Hvl. unfold text, text_after, format.
  change (str "%s/%s") with (37 :: 115 :: [47] ++ 37 :: 115 :: []).
  change (S (S (length (37 :: 115 :: [47] ++ 37 :: 115 :: [])))) with 7%nat.
  cbn [blk fmap option_fmap option_map].
  rewrite (format_s lw cap lw_ok 4 _ (k ++ [0]) k) by (done || by apply cstr_app).
  change 6%nat with (length [47] + 5)%nat. rewrite (format_plain lw cap [47]) by by repeat constructor.
  rewrite (format_s lw cap lw_ok 2 _ (v ++ [0]) v) by (done || by apply cstr_app).
  rewrite (format_end lw cap 3). cbn [app]. do 2 f_equal. by rewrite <- !app_assoc.
Qed.

Lemma text_tmp cap k : no_nul k -> zlen k < 2 ^ 32 ->
  text lw cap (str "%s/data.tmp") [AStr (blk (Some k))] = Some (k ++ str "/data.tmp", []).
Proof using lw_ok.
  intros Hk Hkl. unfold text, text_after, format.
  change (str "%s/data.tmp") with (37 :: 115 :: str "/data.tmp" ++ []).
  change (S (S (length (37 :: 115 :: str "/data.tmp" ++ [])))) with 13%nat.
  cbn [blk fmap option_fmap option_map].
  rewrite (format_s lw cap lw_ok 10 _ (k ++ [0]) k) by (done || by apply cstr_app).
  change 12%nat with (length (str "/data.tmp") + 3)%nat. rewrite (format_plain lw cap (str "/data.tmp")) by by repeat constructor.
  by rewrite (format_end lw cap 2).
Qed.

(** The text of a number. *)
Lemma numeral_ok z : - 2 ^ 31 <= z < 2 ^ 31 ->
  exists s, decimal z s /\ fmt_string lw balloc brealloc 20 (str "%d") [AInt z] = Some (Some s).
Proof using lw_ok balloc_ok brealloc_ok.
  intros Hz. destruct (format_decimal lw (capacity 20) lw_ok 1 [] z [] [] Hz) as (s & Hs & E).
  exists s. split; [done|]. pose proof (decimal_length z s Hs Hz).
  apply (fmt_string_ok 20 _ _ s []); [lia| |unfold STR_INC; lia|change (capacity 20) with 63; lia].
  unfold text, text_after, format. change (str "%d") with [37; 100].
  change (S (S (length [37; 100]))) with 4%nat. rewrite E. by rewrite (format_end lw (capacity 20) 2).
Qed.

(** ** What is saved *)

(** A text that [crack] gives back: one line, without blanks in front. *)
Definition word (s : list Z) : Prop :=
  Forall (fun c => c <> 0 /\ c <> newline /\ c <> 13) s /\
  match s with c :: _ => isspace c = false | [] => True end.

(** The line has room in the buffer. *)
Definition fits (k v : list Z) : Prop := zlen k + zlen v + 2 <= capacity BUF_MAX.

(** The lines of the file, before numbers are written out. *)
Inductive entry : Type :=
| ETable (nm : list Z)
| ERow (r : Z)
| ECell (nm : list Z) (c : cell).

Definition entry_text (e : entry) (kv : list Z * list Z) : Prop :=
  match e with
  | ETable nm => kv = (KEYWORD_TABLE, nm)
  | ERow r => kv.1 = KEYWORD_ROW /\ decimal r kv.2
  | ECell nm (CInt z) => kv.1 = nm /\ decimal z kv.2
  | ECell nm (CStr s) => kv = (nm, s)
  end.

Definition line_text (kv : list Z * list Z) : list Z := kv.1 ++ 61 :: kv.2.
Definition file_text (kvs : list (list Z * list Z)) : list Z :=
  concat (map (fun kv => line_text kv ++ [newline]) kvs).

(** The rows that are saved have a first column that is not empty; a null string is
    saved as [(null)]. *)
Definition saved_row (cells : list cell) : bool :=
  match cells with CStr (_ :: _) :: _ => true | _ => false end.

Definition saved_cell (ty : Z) (c : cell) : cell :=
  match c with CInt z => if ty =? T_STRING then CStr (str "(null)") else c | CStr _ => c end.

Definition cell_entries (cols : list (list Z * Z)) (cells : list cell) : list entry :=
  zip_with (fun col c => ECell col.1 (saved_cell col.2 c)) cols cells.

Fixpoint row_entries (cols : list (list Z * Z)) (r : Z) (slots : list (option (list cell))) : list entry :=
  match slots with
  | [] => []
  | Some cells :: slots =>
      (if saved_row cells then ERow r :: cell_entries cols cells else []) ++ row_entries cols (r + 1) slots
  | None :: slots => row_entries cols (r + 1) slots
  end.

Definition table_entries (v : tview) : list entry :=
  ETable (tv_name v) :: row_entries (tv_cols v) 0 (tv_slots v).

(** Names and values that survive the file. *)
Definition col_savable (nm : list Z) : Prop :=
  word nm /\ ~ In 61 nm /\ nm <> KEYWORD_TABLE /\ nm <> KEYWORD_ROW /\ zlen nm + 13 <= capacity BUF_MAX.

Definition cell_savable (nm : list Z) (c : cell) : Prop :=
  match c with
  | CInt z => - 2 ^ 31 <= z < 2 ^ 31
  | CStr s => word s /\ fits nm s
  end.

Record view_savable (v : tview) : Prop := {
  sv_name : word (tv_name v) /\ fits KEYWORD_TABLE (tv_name v);
  sv_first : exists nm, head (tv_cols v) = Some (nm, T_STRING);
  sv_cols : Forall (fun col => col_savable col.1) (tv_cols v);
  sv_distinct : base.NoDup (map fst (tv_cols v));
  sv_rows : zlen (tv_slots v) <= 2 ^ 31;
  sv_cells : forall r cells, tv_slots v !! r = Some (Some cells) ->
    Forall2 (fun col c => cell_savable col.1 c) (tv_cols v) cells
}.

(** ** Saving *)

Context (sys : io).
(** A [write] writes all of its text. *)
Hypothesis write_all : forall out s, io_write sys out s = zlen s.

Abbreviation writes := (dbWriteKeyValue lw balloc brealloc sys) (only parsing).

Lemma write_pair out k p : no_nul k -> no_nul (shown p) -> fits k (shown p) ->
  exists rc, writes out (Some k) p = Some (rc, out ++ line_text (k, shown p) ++ [newline]) /\ 0 <= rc.
Proof using lw_ok balloc_ok brealloc_ok write_all.
  intros Hk Hv Hf. unfold fits in Hf. change (capacity BUF_MAX) with 4095 in Hf.
  assert (Hl : zlen (k ++ 61 :: shown p ++ [newline]) = zlen k + zlen (shown p) + 2)
    by (rewrite length_app; cbn [length]; rewrite length_app; cbn [length]; lia).
  unfold dbWriteKeyValue.
  rewrite (fmt_string_ok BUF_MAX _ _ (k ++ 61 :: shown p ++ [newline]) []);
    [|done|apply text_pair; done || lia|left; done|change (capacity BUF_MAX) with 4095; lia].
  cbn [mbind option_bind]. rewrite write_all. eexists. split; [|apply zlen_nonneg].
  do 2 f_equal. rewrite take_ge by lia. unfold line_text. cbn [fst snd].
  by rewrite <- app_assoc.
Qed.

Lemma write_number_ok out k z : no_nul k -> zlen k + 13 <= capacity BUF_MAX -> - 2 ^ 31 <= z < 2 ^ 31 ->
  exists s rc, decimal z s /\ write_number lw balloc brealloc sys out (Some k) z =
    Some (rc, out ++ line_text (k, s) ++ [newline]) /\ 0 <= rc.
Proof using lw_ok balloc_ok brealloc_ok write_all.
  intros Hk Hf Hz. destruct (numeral_ok z Hz) as (s & Hs & E). unfold write_number. rewrite E.
  cbn [mbind option_bind]. pose proof (decimal_length z s Hs Hz).
  destruct (write_pair out k (Some s) Hk (decimal_no_nul z s Hs)) as (rc & -> & Hrc).
  { unfold fits. change (shown (Some s)) with s. lia. }
  by exists s, rc.
Qed.

Lemma word_no_nul s : word s -> no_nul s.
Proof. intros [H _]. eapply Forall_impl; [|exact H]. by intros c (? & _). Qed.

(** [out] followed by the lines of [es]. *)
Definition wrote (es : list entry) (out out' : list Z) : Prop :=
  exists kvs, Forall2 entry_text es kvs /\ out' = out ++ file_text kvs.

Lemma wrote_nil out : wrote [] out out.
Proof. exists []. split; [constructor|]. by rewrite app_nil_r. Qed.

Lemma wrote_line e kv out out' : entry_text e kv -> out' = out ++ line_text kv ++ [newline] -> wrote [e] out out'.
Proof.
  intros He ->. exists [kv]. split; [by repeat constructor|]. unfold file_text. cbn. by rewrite app_nil_r.
Qed.

Lemma wrote_app es1 es2 out out1 out2 : wrote es1 out out1 -> wrote es2 out1 out2 -> wrote (es1 ++ es2) out out2.
Proof.
  intros (k1 & H1 & ->) (k2 & H2 & ->). exists (k1 ++ k2). split; [by apply Forall2_app|].
  unfold file_text. by rewrite map_app, concat_app, app_assoc.
Qed.

Lemma col_key nm : col_savable nm -> no_nul nm /\ zlen nm + 13 <= capacity BUF_MAX.
Proof. intros (Hw & _ & _ & _ & Hl). split; [by apply word_no_nul|done]. Qed.

(** The line of one cell. *)
Lemma save_cell_ok out nm ty c : col_savable nm -> ty = T_INT \/ ty = T_STRING -> cell_ok ty c -> cell_savable nm c ->
  exists rc out', (if ty =? T_STRING then p ← ptr_of_cell c; writes out (Some nm) p
                   else match c with
                        | CInt z => write_number lw balloc brealloc sys out (Some nm) z
                        | CStr _ => None
                        end) = Some (rc, out') /\ 0 <= rc /\ wrote [ECell nm (saved_cell ty c)] out out'.
Proof using lw_ok balloc_ok brealloc_ok write_all.
  intros Hnm Hty Hok Hs. destruct (col_key nm Hnm) as [Hk Hl]. destruct Hty as [-> | ->].
  - change (T_INT =? T_STRING) with false. cbn iota. destruct c as [z|s]; [|by destruct Hok].
    destruct (write_number_ok out nm z Hk Hl Hs) as (s & rc & Hd & -> & Hrc).
    eexists _, _. split; [done|]. split; [done|]. eapply (wrote_line _ (nm, s)); [by split|done].
  - change (T_STRING =? T_STRING) with true. cbn iota. destruct c as [z|s].
    + destruct Hok as [?|[_ ->]]; [done|]. cbn [ptr_of_cell Z.eqb mbind option_bind].
      destruct (write_pair out nm None Hk) as (rc & -> & Hrc); [by repeat constructor|unfold fits; cbn in *; lia|].
      eexists _, _. split; [done|]. split; [done|]. by eapply (wrote_line _ (nm, str "(null)")).
    + cbn [ptr_of_cell mbind option_bind]. destruct Hs as [Hw Hf].
      destruct (write_pair out nm (Some s) Hk (word_no_nul s Hw) Hf) as (rc & -> & Hrc).
      eexists _, _. split; [done|]. split; [done|]. by eapply (wrote_line _ (nm, s)).
Qed.

Lemma save_columns_ok t cols cells :
  columnTypes t = map snd cols -> columnNames t = map (fun c => Some c.1) cols ->
  Forall (fun col => col.2 = T_INT \/ col.2 = T_STRING) cols -> Forall (fun col => col_savable col.1) cols ->
  row_ok cols cells -> Forall2 (fun col c => cell_savable col.1 c) cols cells ->
  forall n k rc out, (k + n = length cols)%nat -> 0 <= rc ->
  exists rc' out', save_columns lw balloc brealloc sys n t cells (Z.of_nat k) rc out = Some (rc', out') /\
    0 <= rc' /\ wrote (cell_entries (drop k cols) (drop k cells)) out out'.
Proof using lw_ok balloc_ok brealloc_ok write_all.
  intros Htys Hnms Hty Hcols Hro Hsv. induction n as [|n IH]; intros k rc out Hk Hrc.
  { exists rc, out. rewrite drop_ge by lia. split_and!; [done|done|apply wrote_nil]. }
  destruct (lookup_lt_is_Some_2 cols k) as [[nm ty] Hc]; [lia|].
  destruct (row_cell _ _ _ _ _ Hro Hc) as (c & Hcell & Ea & Hok).
  cbn [save_columns]. replace (rc <? 0) with false by zb. rewrite Ea.
  assert (Et : aread (columnTypes t) (Z.of_nat k) = Some ty /\ aread (columnNames t) (Z.of_nat k) = Some (Some nm)).
  { unfold aread. replace (0 <=? Z.of_nat k) with true by zb.
    by rewrite Nat2Z.id, Htys, Hnms, !list_lookup_fmap, Hc. }
  destruct Et as [-> ->]. cbn [mbind option_bind].
  pose proof (Forall_lookup_1 _ _ _ _ Hty Hc) as Hty'. pose proof (Forall_lookup_1 _ _ _ _ Hcols Hc) as Hcol.
  pose proof (Forall2_lookup_lr _ _ _ _ _ _ Hsv Hc Hcell) as Hsv'.
  destruct (save_cell_ok out nm ty c Hcol Hty' Hok Hsv') as (rc1 & out1 & E & Hrc1 & Hw).
  cbn [mbind option_bind] in E. rewrite E. cbn [mbind option_bind].
  replace (Z.of_nat k + 1) with (Z.of_nat (S k)) by lia.
  destruct (IH (S k) rc1 out1 ltac:(lia) Hrc1) as (rc' & out' & -> & Hrc' & Hw').
  exists rc', out'. split_and!; [done|done|]. rewrite (drop_S _ _ _ Hc), (drop_S _ _ _ Hcell).
  exact (wrote_app _ _ _ _ _ Hw Hw').
Qed.

Lemma unsaved_ok cols cells nm : head cols = Some (nm, T_STRING) -> row_ok cols cells ->
  unsaved cells = Some (negb (saved_row cells)).
Proof.
  intros Hh Hro. destruct Hro as [|[nm' ty] c cols cells Hc _]; [done|]. injection Hh as -> ->.
  destruct c as [z|[|x s]]; [|done|done]. destruct Hc as [?|[_ ->]]; done.
Qed.

Lemma save_rows_ok own st i t v : tab_rep own st i t v -> view_ok v -> view_savable v -> forall n k out,
  (k + n = length (tv_slots v))%nat ->
  exists out', save_rows lw balloc brealloc sys n st t (Z.of_nat k) 0 out = Some (0, out') /\
    wrote (row_entries (tv_cols v) (Z.of_nat k) (drop k (tv_slots v))) out out'.
Proof using lw_ok balloc_ok brealloc_ok write_all.
  intros Htr Hvo [_ [nm0 Hfirst] Hcols _ Hrows Hcells]. induction n as [|n IH]; intros k out Hk.
  { exists out. rewrite drop_ge by lia. split; [done|apply wrote_nil]. }
  destruct (row_cases _ _ _ _ _ k (tr_rows _ _ _ _ _ Htr) Hvo ltac:(lia)) as [Ehr Hcase].
  cbn [save_rows Z.eqb negb]. rewrite Ehr. cbn [mbind option_bind].
  replace (Z.of_nat k + 1) with (Z.of_nat (S k)) by lia.
  destruct Hcase as [(cells & Hs & _ & Hnz & Hc & _ & Hro)|(Hs & _ & ->)]; rewrite (drop_S _ _ _ Hs).
  - replace (_ =? 0) with false by zb. rewrite Hc. cbn [mbind option_bind].
    rewrite (unsaved_ok _ _ _ Hfirst Hro). cbn [mbind option_bind row_entries].
    replace (Z.of_nat k + 1) with (Z.of_nat (S k)) by lia.
    destruct (saved_row cells) eqn:Esv; cbn [negb].
    + destruct (write_number_ok out KEYWORD_ROW (Z.of_nat k)) as (s & rc & Hd & -> & Hrc);
        [by repeat constructor|done|lia|]. cbn [mbind option_bind].
      rewrite (tr_cols _ _ _ _ _ Htr), Nat2Z.id.
      destruct (save_columns_ok t (tv_cols v) cells (tr_types _ _ _ _ _ Htr) (tr_names _ _ _ _ _ Htr)
        (vo_types v Hvo) Hcols Hro (Hcells k cells Hs) (length (tv_cols v)) 0 rc
        (out ++ line_text (KEYWORD_ROW, s) ++ [newline]) eq_refl Hrc) as (rc' & out1 & E & Hrc' & Hw).
      change (Z.of_nat 0) with 0 in E. rewrite E. cbn [mbind option_bind]. replace (rc' <? 0) with false by zb.
      destruct (IH (S k) out1 ltac:(lia)) as (out' & -> & Hw'). exists out'. split; [done|].
      refine (wrote_app (ERow _ :: _) _ _ _ _ _ Hw'). refine (wrote_app [_] _ _ _ _ _ Hw).
      by apply (wrote_line _ (KEYWORD_ROW, s)).
    + apply IH. lia.
  - cbn [Z.eqb row_entries]. replace (Z.of_nat k + 1) with (Z.of_nat (S k)) by lia. apply IH. lia.
Qed.

Lemma save_tables_ok own town st vs : rep_with own town st vs -> Forall view_savable vs -> forall n i out,
  (i + n = length vs)%nat ->
  exists out', save_tables lw balloc brealloc sys n st (Z.of_nat i) 0 out = Some (0, out') /\
    wrote (flat_map table_entries (drop i vs)) out out'.
Proof using lw_ok balloc_ok brealloc_ok write_all.
  intros Hr Hsv. induction n as [|n IH]; intros i out Hi.
  { exists out. rewrite drop_ge by lia. split; [done|apply wrote_nil]. }
  destruct (lookup_lt_is_Some_2 vs i) as [v Hv]; [lia|].
  destruct (rep_table _ _ _ _ _ _ Hr Hv) as (tb & Eh & Hp & Etb & Htr & Hvo).
  pose proof (Forall_lookup_1 _ _ _ _ Hsv Hv) as Hs.
  cbn [save_tables]. change (0 =? -1) with false. cbn iota. rewrite Eh. cbn [mbind option_bind].
  replace (_ =? 0) with false by zb. rewrite Etb. cbn [mbind option_bind]. rewrite (tr_name _ _ _ _ _ Htr).
  destruct (sv_name v Hs) as [Hw Hf].
  destruct (write_pair out KEYWORD_TABLE (Some (tv_name v))) as (rc & -> & _);
    [by repeat constructor|by apply word_no_nul|done|]. cbn [mbind option_bind].
  rewrite (proj1 (tr_rows _ _ _ _ _ Htr)), Nat2Z.id.
  destruct (save_rows_ok own st i tb v Htr Hvo Hs (length (tv_slots v)) 0
    (out ++ line_text (KEYWORD_TABLE, tv_name v) ++ [newline]) eq_refl) as (out1 & E & Hw1).
  change (Z.of_nat 0) with 0 in E. change (shown (Some (tv_name v))) with (tv_name v).
  rewrite E. cbn [mbind option_bind]. replace (Z.of_nat i + 1) with (Z.of_nat (S i)) by lia.
  destruct (IH (S i) out1 ltac:(lia)) as (out' & -> & Hw'). exists out'. split; [done|].
  rewrite (drop_S _ _ _ Hv). refine (wrote_app (table_entries v) _ _ _ _ _ Hw').
  refine (wrote_app [_] _ _ _ _ _ Hw1). by eapply wrote_line.
Qed.

Context (basicProdDir : option (list Z)).
Local Notation dir := (basicGetProductDir basicProdDir).
Hypothesis dir_ok : no_nul dir /\ zlen dir + 9 <= capacity FNAMESIZE.

Lemma path_ok nm : no_nul nm -> zlen dir + zlen nm + 1 <= capacity FNAMESIZE ->
  fmt_string lw balloc brealloc FNAMESIZE (str "%s/%s") [AStr (blk (Some dir)); AStr (blk (Some nm))] =
    Some (Some (dir ++ 47 :: nm)).
Proof using lw_ok balloc_ok brealloc_ok dir_ok.
  intros Hn Hl. destruct dir_ok as [Hd Hdl]. change (capacity FNAMESIZE) with 191 in *.
  apply (fmt_string_ok FNAMESIZE _ _ _ []); [done|apply text_path; done || lia|left; done|].
  change (capacity FNAMESIZE) with 191. rewrite length_app. cbn [length]. lia.
Qed.

Lemma tmp_ok : fmt_string lw balloc brealloc FNAMESIZE (str "%s/data.tmp") [AStr (blk (Some dir))] =
  Some (Some (dir ++ 47 :: str "data.tmp")).
Proof using lw_ok balloc_ok brealloc_ok dir_ok.
  destruct dir_ok as [Hd Hdl]. change (capacity FNAMESIZE) with 191 in *.
  apply (fmt_string_ok FNAMESIZE _ _ _ []); [done|apply text_tmp; done || lia|left; done|].
  change (capacity FNAMESIZE) with 191. rewrite length_app. cbn [length]. change (length (str "data.tmp")) with 8%nat. lia.
Qed.

(** The file names that can be used. *)
Definition file_ok (nm : list Z) : Prop :=
  no_nul nm /\ zlen dir + zlen nm + 1 <= capacity FNAMESIZE /\ nm <> str "data.tmp".

Hypothesis create_ok : io_create sys = true.
Hypothesis rename_ok : io_rename sys = true.

Lemma save_ok st vs files nm : rep st vs -> Forall view_savable vs -> file_ok nm ->
  exists files' kvs, dbSave lw balloc brealloc basicProdDir sys st files (Some nm) = Some (0, files') /\
    Forall2 entry_text (flat_map table_entries vs) kvs /\ files' !! (dir ++ 47 :: nm) = Some (file_text kvs) /\
    forall p, p <> dir ++ 47 :: nm -> p <> dir ++ 47 :: str "data.tmp" -> files' !! p = files !! p.
Proof using lw_ok balloc_ok brealloc_ok write_all dir_ok create_ok rename_ok.
  intros (own & town & Hr) Hsv (Hn & Hl & Hne). unfold dbSave. rewrite tmp_ok. cbn [mbind option_bind].
  rewrite create_ok. cbn [negb]. rewrite (rp_max _ _ _ _ Hr), Nat2Z.id.
  destruct (save_tables_ok own town st vs Hr Hsv (length vs) 0 [] eq_refl) as (out & E & kvs & Hkvs & ->).
  change (Z.of_nat 0) with 0 in E. rewrite E. cbn [mbind option_bind Z.eqb]. rewrite (path_ok nm Hn Hl).
  cbn [mbind option_bind].
  assert (Hpne : dir ++ 47 :: nm <> dir ++ 47 :: str "data.tmp").
  { intros Ep. apply app_inv_head in Ep. by injection Ep as ->. }
  rewrite lookup_delete_ne, lookup_insert_eq, rename_ok by done. cbn [app].
  eexists _, kvs. split; [done|]. split; [exact Hkvs|]. split; [by rewrite lookup_insert_eq|].
  intros p H1 H2. by rewrite lookup_insert_ne, !lookup_delete_ne, lookup_insert_ne.
Qed.
End Texts.

(** ** Lines *)

Lemma strrchr_none s c : ~ In c s -> strrchr s c = None.
Proof.
  induction s as [|x s IH]; [done|]. cbn. intros Hn. rewrite IH by tauto.
  replace (x =? c) with false; [done|]. symmetry. apply Z.eqb_neq. tauto.
Qed.

Lemma split_at_ok c a b : ~ In c a -> split_at c (a ++ c :: b) = Some (a, b).
Proof.
  induction a as [|x a IH]; cbn; [by rewrite Z.eqb_refl|]. intros Hn. rewrite IH by tauto.
  replace (x =? c) with false; [done|]. symmetry. apply Z.eqb_neq. tauto.
Qed.

Lemma word_not_in s c : word s -> c = newline \/ c = 13 -> ~ In c s.
Proof.
  intros [Hw _] Hc Hin. pose proof (proj1 (List.Forall_forall _ _) Hw c Hin) as (_ & ? & ?). by destruct Hc.
Qed.

Lemma crack_ok k v : word k -> ~ In 61 k -> word v -> crack (line_text (k, v)) = Some (k, v).
Proof.
  intros Hk Hke Hv. unfold crack, line_text. cbn [fst snd].
  assert (Hn : forall c, c = newline \/ c = 13 -> ~ In c (k ++ 61 :: v)).
  { intros c Hc [?|[E|?]]%in_app_or; [by eapply (word_not_in k c)|by destruct Hc; subst|by eapply (word_not_in v c)]. }
  rewrite !strrchr_none by (apply Hn; auto). rewrite split_at_ok by done. cbn [mbind option_bind].
  assert (Ht : forall s, word s -> trim_blanks s = s).
  { intros [|c s] [_ Hb]; [done|]. unfold trim_blanks. cbn. by rewrite Hb. }
  by rewrite !Ht.
Qed.

Lemma upto_newline_ok s t : ~ In newline s -> upto_newline (s ++ newline :: t) = (s, t).
Proof.
  induction s as [|x s IH]; [done|]. intros Hn. cbn in Hn. cbn [app upto_newline]. rewrite IH by tauto.
  replace (x =? newline) with false; [done|]. symmetry. apply Z.eqb_neq. tauto.
Qed.

Lemma strtok_line s t : s <> [] -> ~ In newline s -> strtok (s ++ newline :: t) = Some (s, t).
Proof.
  intros Hne Hn. destruct s as [|x s]; [done|]. pose proof (upto_newline_ok (x :: s) t Hn) as E.
  cbn [app strtok] in *. replace (x =? newline) with false; [by rewrite E|].
  symmetry. apply Z.eqb_neq. cbn in Hn. tauto.
Qed.

(** The lines that [dbSave] writes can be read. *)
Definition good_line (kv : list Z * list Z) : Prop := word kv.1 /\ ~ In 61 kv.1 /\ word kv.2.

Lemma good_line_token kv : good_line kv -> line_text kv <> [] /\ ~ In newline (line_text kv).
Proof.
  intros (Hk & _ & Hv). unfold line_text. split; [by destruct kv.1|].
  intros [H|[E|H]]%in_app_or; [by apply (word_not_in kv.1 newline Hk (or_introl eq_refl))|done|].
  by apply (word_not_in kv.2 newline Hv (or_introl eq_refl)).
Qed.

Lemma good_text_no_nul kvs : Forall good_line kvs -> no_nul (file_text kvs).
Proof.
  induction 1 as [|kv kvs (Hk & _ & Hv) _ IH]; [constructor|]. unfold file_text. cbn [map concat].
  apply Forall_app. split; [|exact IH]. unfold line_text.
  apply Forall_app. split; [apply Forall_app; split; [by apply word_no_nul|]|by repeat constructor].
  constructor; [done|by apply word_no_nul].
Qed.

Lemma strtok_file kv kvs : good_line kv -> strtok (file_text (kv :: kvs)) = Some (line_text kv, file_text kvs).
Proof.
  intros Hg. destruct (good_line_token kv Hg) as [Hne Hn]. unfold file_text. cbn [map concat].
  rewrite <- app_assoc. by apply strtok_line.
Qed.

Lemma file_text_length kvs : (length kvs <= length (file_text kvs))%nat.
Proof.
  induction kvs as [|kv kvs IH]; [done|]. unfold file_text in *. cbn [map concat].
  rewrite !length_app. cbn [length]. lia.
Qed.

Lemma decimal_word z s : decimal z s -> word s.
Proof.
  intros Hd. destruct (decimal_chars z s Hd) as [Hne Hc]. split.
  - eapply Forall_impl; [|exact Hc]. intros c Hcc. cbn in *. unfold newline. lia.
  - destruct s as [|c s]; [done|]. apply Forall_cons_iff in Hc as [Hcc _]. unfold isspace.
    apply orb_false_intro; [zb|apply andb_false_intro2; zb].
Qed.

(** The loop is a fold over the lines. *)
Section Loop.
Context (load : lstate -> list Z -> option lstate).

Fixpoint load_lines (l : lstate) (kvs : list (list Z * list Z)) : option lstate :=
  match kvs with
  | [] => Some l
  | kv :: kvs => l ← load l (line_text kv); load_lines l kvs
  end.

Lemma load_lines_app l kvs1 kvs2 : load_lines l (kvs1 ++ kvs2) = l ← load_lines l kvs1; load_lines l kvs2.
Proof.
  revert l. induction kvs1 as [|kv kvs1 IH]; intros l; [done|]. cbn [load_lines app].
  destruct (load l (line_text kv)); [apply IH|done].
Qed.
End Loop.
