(* ===== verification/EmfRoundTrip.v ===== *)
(** * The file of the database is read back into empty tables

    [dbLoad] of the file that [dbSave] writes: the lines are read one by one, every row
    is appended to its table and filled cell by cell.  The round trip. *)

From stdpp Require Import gmap.
From S2P Require Import Prelude CString Fmt Handles EmfDb EmfDbSpec DbIface EmfFile EmfFileSpec.
#[local] Open Scope Z_scope.
#[local] Open Scope cint_scope.

(** ** The addresses of the tables stay *)

Lemma write_cell_list st p j c st' : write_cell st p j c = Some st' -> dbListTables st' = dbListTables st.
Proof.
  unfold write_cell. destruct (rowcells st !! p) as [cells|]; [|done]. cbn [mbind option_bind].
  destruct (awrite cells j c); [|done]. cbn [mbind option_bind]. intros [= <-]. by destruct st.
Qed.

(** Follow the tests of an operation to where it stops. *)
Ltac follow_tests :=
  repeat (cbn [mbind option_bind]; match goal with
          | |- (if ?b then _ else _) = _ -> _ => destruct b
          | |- mbind _ ?o = _ -> _ => let E := fresh "E" in destruct o eqn:E
          | |- (_ ← (if ?b then _ else _); _) = _ -> _ => destruct b
          end).

Lemma writeint_list st t c r z e st' : EmfDb.dbWriteInt st t c r z = Some (e, st') -> dbListTables st' = dbListTables st.
Proof. unfold EmfDb.dbWriteInt. follow_tests; intros [= _ <-]; try done; by eapply write_cell_list. Qed.

Lemma writestr_list bstrdup st t c r s e st' :
  EmfDb.dbWriteStr bstrdup st t c r s = Some (e, st') -> dbListTables st' = dbListTables st.
Proof. unfold EmfDb.dbWriteStr. follow_tests; intros [= _ <-]; try done; by eapply write_cell_list. Qed.

(** ** Distinct names *)

Lemma findi_distinct {A} (g : A -> list Z) l i x : base.NoDup (map g l) -> l !! i = Some x ->
  findi (fun y => bool_decide (g y = g x)) l = Some i.
Proof.
  intros Hnd Hx. apply findi_Some. exists x. split_and!; [done|by apply bool_decide_true|].
  intros k y Hk Hy. apply bool_decide_false. intros E.
  assert (k = i); [|lia]. apply (NoDup_lookup _ k i (g x) Hnd); rewrite list_lookup_fmap; [by rewrite Hy, <- E|by rewrite Hx].
Qed.

Lemma table_at_distinct vs i v : base.NoDup (map tv_name vs) -> vs !! i = Some v ->
  table_at vs (tv_name v) = Some (i, v).
Proof. intros Hnd Hv. unfold table_at. rewrite (findi_distinct tv_name vs i v Hnd Hv). cbn. by rewrite Hv. Qed.

Lemma col_at_distinct v j nm ty : base.NoDup (map fst (tv_cols v)) -> tv_cols v !! j = Some (nm, ty) ->
  col_at v nm = Some j.
Proof. intros Hnd Hj. exact (findi_distinct fst (tv_cols v) j (nm, ty) Hnd Hj). Qed.

(** ** What comes back *)

Definition restore_row (cols : list (list Z * Z)) (cells : list cell) : list cell :=
  zip_with (fun col c => saved_cell col.2 c) cols cells.

Definition restore_slot (cols : list (list Z * Z)) (slot : option (list cell)) : option (option (list cell)) :=
  match slot with
  | Some cells => if saved_row cells then Some (Some (restore_row cols cells)) else None
  | None => None
  end.

(** The rows that were saved, without holes between them. *)
Definition restored (v : tview) : tview := set_slots v (omap (restore_slot (tv_cols v))).

(** A cell of the type of its column, null strings excluded. *)
Definition written_cell (ty : Z) (c : cell) : Prop :=
  match c with CInt z => ty = T_INT /\ - 2 ^ 31 <= z < 2 ^ 31 | CStr s => ty = T_STRING /\ word s end.

Lemma restore_row_written cols cells : row_ok cols cells ->
  Forall2 (fun col c => cell_savable col.1 c) cols cells ->
  Forall2 (fun col c => written_cell col.2 c) cols (restore_row cols cells).
Proof.
  induction 1 as [|[nm ty] c cols cells Hc _ IH]; intros Hs; [constructor|].
  apply Forall2_cons_1 in Hs as [Hsc Hs]. constructor; [|by apply IH]. cbn in *.
  destruct c as [z|s]; cbn in *.
  - destruct Hc as [->|[-> ->]]; [by split|]. split; [done|]. split; [|done].
    repeat match goal with |- Forall _ _ => constructor; [done|] end. constructor.
  - by destruct Hc, Hsc.
Qed.

Lemma cell_entries_restore cols cells :
  cell_entries cols cells = zip_with (fun col c => ECell col.1 c) cols (restore_row cols cells).
Proof.
  revert cells. induction cols as [|col cols IH]; intros [|c cells]; [done..|]. cbn. by rewrite <- IH.
Qed.

Section Memory.
Context (balloc_words : Z -> option (list Z)).
Context (brealloc_words : list Z -> Z -> option (list Z)).
Context (new_row : gmap Z (list cell) -> Z).
Context (bstrdup : list Z -> option (list Z)).
Hypothesis balloc_words_spec : forall n mp, 0 <= n -> balloc_words n = Some mp -> zlen mp = n / WORD.
Hypothesis brealloc_words_spec : forall old n mp, brealloc_words old n = Some mp ->
  zlen old * WORD <= n -> exists rest, mp = old ++ rest /\ zlen mp = n / WORD.
Hypothesis new_row_fresh : forall cs, new_row cs = 0 \/ cs !! new_row cs = None.
Hypothesis bstrdup_ok : forall s, bstrdup s = Some s.
(** There is memory for the rows. *)
Hypothesis balloc_words_total : forall n, balloc_words n <> None.
Hypothesis brealloc_words_total : forall old n, brealloc_words old n <> None.
Hypothesis new_row_total : forall cs, new_row cs <> 0.

(** ** Rows are appended *)

Lemma hAlloc_total map h map' : handles_ok 0 map -> hAlloc balloc_words brealloc_words map = (h, map') -> h <> -1.
Proof using balloc_words_spec brealloc_words_spec balloc_words_total brealloc_words_total.
  intros Hok E ->.
  destruct (hAlloc_spec _ _ balloc_words_spec brealloc_words_spec _ _ _ Hok E) as [[_ ->]|(_ & Hid & _)]; [|lia].
  assert (Hin : forall mp, (hAlloc_in brealloc_words mp).2 <> None).
  { intros mp. unfold hAlloc_in, hAlloc_grow. repeat case_match; done. }
  destruct map as [mp|]; cbn [hAlloc] in E.
  - destruct Hok as (len & used & l & -> & Hlen & _ & Hpos & _ & Hused & _).
    unfold hAlloc_in in E. cbn [zget nth Z.to_nat H_LEN H_USED] in E.
    change (zget (len :: used :: l) H_LEN) with len in E. change (zget (len :: used :: l) H_USED) with used in E.
    pose proof (scan_null_spec (Z.to_nat len) (len :: used :: l) 0 ltac:(lia)) as Hs.
    assert (Hg : forall mp h', hAlloc_grow brealloc_words mp len h' = (-1, Some (len :: used :: l)) -> h' = -1).
    { intros mp h'. unfold hAlloc_grow. destruct (brealloc_words mp _) eqn:Eb; [by intros [= ->]|].
      by destruct (brealloc_words_total mp _ Eb). }
    destruct (used <? len); [|apply Hg in E; lia].
    destruct (scan_null _ _ _) as [h|]; [|apply Hg in E; lia]. injection E as -> _. lia.
  - destruct (balloc_words _) as [mp|] eqn:Eb; [|by apply balloc_words_total in Eb].
    specialize (Hin (wset (wset (bput mp 0 (repeat 0 (Z.to_nat ((H_INCR + H_OFFSET) * WORD / WORD)))) H_LEN H_INCR) H_USED 0)).
    by rewrite E in Hin.
Qed.

Lemma hAllocEntry_total p map max size id map' max' : handles_ok 0 map -> 0 < size -> p <> 0 ->
  hAllocEntry balloc_words brealloc_words (fun _ => p) map max size = Some (id, map', max') -> id <> -1.
Proof using balloc_words_spec brealloc_words_spec balloc_words_total brealloc_words_total.
  intros Hok Hsize Hp. unfold hAllocEntry. destruct (hAlloc _ _ map) as [h mp] eqn:E.
  pose proof (hAlloc_total _ _ _ Hok E) as Hh.
  destruct (hAlloc_spec _ _ balloc_words_spec brealloc_words_spec _ _ _ Hok E) as [[-> _]|(_ & Hid & _)]; [done|].
  replace (h <? 0) with false by zb. replace (0 <? size) with true by zb. replace (p =? 0) with false by zb.
  destruct mp; [|done]. cbn [mbind option_bind]. by intros [= <- _ _].
Qed.

Lemma add_total st vs t r st' i v : rep st vs -> table_at vs t = Some (i, v) ->
  EmfDb.dbAddRow balloc_words brealloc_words new_row st (Some t) = Some (r, st') ->
  r = (a_add vs t).1 /\ rep st' (a_add vs t).2.
Proof using balloc_words_spec brealloc_words_spec balloc_words_total brealloc_words_total new_row_fresh new_row_total.
  intros Hrep Ht E.
  destruct (add_ok _ _ _ balloc_words_spec brealloc_words_spec new_row_fresh st vs t Hrep) as (r' & st2 & E' & Hcase).
  rewrite E in E'. injection E' as <- <-. destruct Hcase as [?|[-> _]]; [done|]. exfalso.
  destruct Hrep as (own & town & Hr). destruct (table_at_lookup _ _ _ _ Ht) as [Hv _].
  destruct (rep_table _ _ _ _ _ _ Hr Hv) as (tb & Eh & Hp & Etb & Htr & Hvo).
  unfold EmfDb.dbAddRow in E. rewrite (tid_ok _ _ _ _ t Hr), Ht in E. cbn [mbind option_bind] in E.
  rewrite (valid_tid_ok _ _ _ _ _ Hr) in E by (by eapply lookup_lt_Some). cbn [mbind option_bind] in E.
  replace (_ =? 0) with false in E by zb. rewrite Etb in E. cbn [mbind option_bind] in E.
  destruct (hAllocEntry _ _ _ _ _ _) as [[[id rows'] n']|] eqn:Eh'; [|done]. cbn [mbind option_bind] in E.
  injection E as Eid _. subst id. eapply hAllocEntry_total in Eh'; [done|apply (tr_rows _ _ _ _ _ Htr)| |done].
  rewrite (tr_cols _ _ _ _ _ Htr). pose proof (vo_cols v Hvo). unfold WORD. destruct (tv_cols v); cbn; [done|lia].
Qed.

Definition no_holes (v : tview) : Prop := Forall (fun s => is_hole s = false) (tv_slots v).

(** A row added to a table without holes is appended. *)
Definition append_row (v : tview) : tview := set_slots v (fun s => s ++ [Some (zero_row v)]).

Lemma append_row_ok st vs t i v : rep st vs -> table_at vs t = Some (i, v) -> no_holes v ->
  exists st', EmfDb.dbSetTableNrow balloc_words brealloc_words new_row st (Some t) (zlen (tv_slots v) + 1) = Some (0, st') /\
    rep st' (<[i := append_row v]> vs) /\ dbListTables st' = dbListTables st.
Proof using balloc_words_spec brealloc_words_spec balloc_words_total brealloc_words_total new_row_fresh new_row_total.
  intros Hrep Ht Hnh. pose proof Hrep as (own & town & Hr). unfold EmfDb.dbSetTableNrow.
  rewrite (tid_ok _ _ _ _ t Hr), Ht. cbn [mbind option_bind].
  destruct (table_at_lookup _ _ _ _ Ht) as [Hv _].
  rewrite (valid_tid_ok _ _ _ _ _ Hr) by (by eapply lookup_lt_Some). cbn [mbind option_bind].
  destruct (rep_table _ _ _ _ _ _ Hr Hv) as (tb & Eh & Hp & Etb & Htr & Hvo).
  replace (_ =? 0) with false by zb. rewrite Etb. cbn [mbind option_bind].
  destruct (tr_rows _ _ _ _ _ Htr) as (Hn & _). rewrite Hn.
  replace (zlen (tv_slots v) + 1 <=? zlen (tv_slots v)) with false by zb.
  replace (S (Z.to_nat (zlen (tv_slots v) + 1))) with (S (S (length (tv_slots v)))) by lia.
  cbn [grow_loop]. rewrite Etb. cbn [mbind option_bind]. rewrite Hn.
  replace (zlen (tv_slots v) <? zlen (tv_slots v) + 1) with true by zb.
  destruct (add_ok _ _ _ balloc_words_spec brealloc_words_spec new_row_fresh st vs t Hrep) as (r & st1 & E & _).
  destruct (add_total _ _ _ _ _ _ _ Hrep Ht E) as [-> Hrep1]. rewrite E. cbn [mbind option_bind].
  assert (Ea : a_add vs t = (zlen (tv_slots v), <[i := append_row v]> vs)).
  { unfold a_add. rewrite Ht. unfold free_slot. rewrite (proj2 (findi_None _ _) Hnh). cbn [default from_option].
    f_equal. unfold append_row, set_slots, fill_slot, zero_row. rewrite decide_False by (cbn; lia). done. }
  rewrite Ea in *. cbn [fst snd] in *. replace (zlen (tv_slots v) <? 0) with false by zb.
  pose proof (add_list _ _ _ _ _ _ _ E) as El. rewrite <- El.
  pose proof Hrep1 as (own1 & town1 & Hr1).
  destruct (rep_table _ _ _ _ i (append_row v) Hr1) as (tb1 & _ & _ & Etb1 & Htr1 & _).
  { apply list_lookup_insert_eq. by eapply lookup_lt_Some. }
  rewrite Etb1. cbn [mbind option_bind]. rewrite (proj1 (tr_rows _ _ _ _ _ Htr1)). cbn [tv_slots append_row set_slots].
  rewrite length_app. cbn [length].
  replace (Z.of_nat (length (tv_slots v) + 1) <? zlen (tv_slots v) + 1) with false by zb.
  exists st1. by split_and!.
Qed.

(** ** Reading lines *)

Abbreviation load := (load_line balloc_words brealloc_words new_row bstrdup) (only parsing).

Lemma keyword_ok k : k = KEYWORD_TABLE \/ k = KEYWORD_ROW -> word k /\ ~ In 61 k.
Proof.
  intros [-> | ->]; (split; [split; [|done]|cbn; intuition discriminate]);
    repeat match goal with |- Forall _ _ => constructor; [done|] end; constructor.
Qed.

(** The variables of [dbLoad] while it reads the rows of table [i]. *)
Record loading (l : lstate) (vs : list tview) (i : nat) (v : tview) (row : Z) : Prop := {
  ld_rep : rep (l_db l) vs;
  ld_at : table_at vs (tv_name v) = Some (i, v);
  ld_name : l_tablename l = Some (tv_name v);
  ld_tid : l_tid l = Z.of_nat i;
  ld_ptr : l_pTable l = hget (dbListTables (l_db l)) (Z.of_nat i);
  ld_row : l_row l = row
}.

Lemma load_table l vs i v : rep (l_db l) vs -> table_at vs (tv_name v) = Some (i, v) -> word (tv_name v) ->
  exists l', load l (line_text (KEYWORD_TABLE, tv_name v)) = Some l' /\ loading l' vs i v (l_row l).
Proof using bstrdup_ok.
  intros Hrep Ht Hw. unfold load_line. rewrite crack_ok by first [done|apply keyword_ok; by left].
  change (strcmp KEYWORD_TABLE KEYWORD_TABLE =? 0) with true. cbn iota. rewrite bstrdup_ok.
  pose proof Hrep as (own & town & Hr). rewrite (tid_ok _ _ _ _ _ Hr), Ht. cbn [mbind option_bind].
  replace (0 <=? Z.of_nat i) with true by zb. destruct (table_at_lookup _ _ _ _ Ht) as [Hv _].
  rewrite (rep_hread _ _ _ _ i Hr) by (by eapply lookup_lt_Some). cbn [mbind option_bind].
  eexists. split; [done|]. by split.
Qed.

Lemma load_row l vs i v row r s : loading l vs i v row -> no_holes v -> decimal r s ->
  exists l', load l (line_text (KEYWORD_ROW, s)) = Some l' /\
    loading l' (<[i := append_row v]> vs) i (append_row v) (zlen (tv_slots v)).
Proof using balloc_words_spec brealloc_words_spec balloc_words_total brealloc_words_total new_row_fresh new_row_total.
  intros [Hrep Ht Hnm Htid Hptr _] Hnh Hd. unfold load_line.
  rewrite crack_ok by first [by eapply decimal_word|apply keyword_ok; by right].
  change (strcmp KEYWORD_ROW KEYWORD_TABLE =? 0) with false. change (strcmp KEYWORD_ROW KEYWORD_ROW =? 0) with true.
  cbn iota. rewrite Htid. replace (0 <=? Z.of_nat i) with true by zb. rewrite Hnm.
  assert (En : EmfDb.dbGetTableNrow (l_db l) (Some (tv_name v)) = Some (zlen (tv_slots v))).
  { destruct Hrep as (own & town & Hr). unfold EmfDb.dbGetTableNrow. rewrite (tid_ok _ _ _ _ _ Hr), Ht. cbn [mbind option_bind].
    destruct (table_at_lookup _ _ _ _ Ht) as [Hv _].
    rewrite (valid_tid_ok _ _ _ _ _ Hr) by (by eapply lookup_lt_Some). cbn [mbind option_bind].
    destruct (rep_table _ _ _ _ _ _ Hr Hv) as (tb & Eh & Hp & Etb & Htr & Hvo).
    replace (_ =? 0) with false by zb. rewrite Etb. cbn [mbind option_bind]. by rewrite (proj1 (tr_rows _ _ _ _ _ Htr)). }
  rewrite En. cbn [mbind option_bind].
  destruct (append_row_ok _ _ _ _ _ Hrep Ht Hnh) as (st' & -> & Hrep' & El). cbn [mbind option_bind Z.eqb].
  eexists. split; [done|]. split; cbn [l_db l_tablename l_tid l_pTable l_row tv_name append_row set_slots]; try done.
  - exact (table_at_insert vs _ i v (append_row v) Ht eq_refl).
  - by rewrite El.
Qed.

Lemma a_write_put vs i v r j nm ty c cells : adb_ok vs -> table_at vs (tv_name v) = Some (i, v) ->
  col_at v nm = Some j -> tv_cols v !! j = Some (nm, ty) -> written_cell ty c ->
  tv_slots v !! r = Some (Some cells) ->
  a_write vs (tv_name v) nm (Z.of_nat r) c = (0, <[i := put_cell v (Z.of_nat r) j c]> vs).
Proof.
  intros Hok Ht Hc Hj Hw Hs. unfold a_write. rewrite Ht, Hc, Hj. cbn [fmap option_fmap option_map snd].
  assert (Hrow : (if (0 <=? Z.of_nat r) && (Z.of_nat r <? zlen (tv_slots v)) then
            match row_at v (Z.of_nat r) with
            | None => (DB_ERR_ROW_DELETED, vs)
            | Some _ => (0, <[i := put_cell v (Z.of_nat r) j c]> vs)
            end else (DB_ERR_ROW_NOT_FOUND, vs)) = (0, <[i := put_cell v (Z.of_nat r) j c]> vs)).
  { pose proof (lookup_lt_Some _ _ _ Hs). replace ((0 <=? Z.of_nat r) && (Z.of_nat r <? zlen (tv_slots v))) with true by lia.
    unfold row_at. replace (0 <=? Z.of_nat r) with true by zb. rewrite Nat2Z.id, Hs. done. }
  destruct c as [z|s]; destruct Hw as [-> _]; exact Hrow.
Qed.

Lemma load_cell l vs i v r j nm ty c val cells : loading l vs i v (Z.of_nat r) ->
  col_at v nm = Some j -> tv_cols v !! j = Some (nm, ty) -> col_savable nm -> written_cell ty c ->
  tv_slots v !! r = Some (Some cells) -> entry_text (ECell nm c) (nm, val) ->
  exists l', load l (line_text (nm, val)) = Some l' /\
    loading l' (<[i := put_cell v (Z.of_nat r) j c]> vs) i (put_cell v (Z.of_nat r) j c) (Z.of_nat r).
Proof using bstrdup_ok.
  intros [Hrep Ht Hnm Htid Hptr Hrow] Hc Hj (Hwn & Hne & Hnt & Hnr & _) Hw Hs He.
  assert (Hval : word val).
  { destruct c as [z|s]; [destruct He as [_ He]; by eapply decimal_word|injection He as ->; by destruct Hw]. }
  unfold load_line. rewrite crack_ok by done. rewrite !strcmp_bool, !bool_decide_false by done.
  rewrite Hrow. replace (Z.of_nat r =? -1) with false by zb. cbn [negb]. unfold load_column.
  pose proof Hrep as (own & town & Hr). destruct (table_at_lookup _ _ _ _ Ht) as [Hv _].
  destruct (col_at_type _ _ _ _ _ _ (rp_ok _ _ _ _ Hr) Ht Hc) as (ty' & nm' & Hj' & Hct & _).
  rewrite Hj in Hj'. injection Hj' as <- <-.
  rewrite Hrow, Htid, (col_ok _ _ _ _ _ _ nm Hr Hv), Hc, Hptr, Hnm. cbn [mbind option_bind].
  destruct (rep_table _ _ _ _ _ _ Hr Hv) as (tb & _ & Hp & Etb & Htr & _).
  replace (0 <=? Z.of_nat j) with true by zb. replace (_ =? 0) with false by zb. cbn [negb andb].
  rewrite Etb. cbn [mbind option_bind].
  assert (Ety : aread (columnTypes tb) (Z.of_nat j) = Some ty).
  { rewrite (tr_types _ _ _ _ _ Htr). unfold aread. replace (0 <=? Z.of_nat j) with true by zb.
    by rewrite Nat2Z.id, list_lookup_fmap, Hj. }
  rewrite Ety. cbn [mbind option_bind].
  assert (Hres : forall st', rep st' (a_write vs (tv_name v) nm (Z.of_nat r) c).2 ->
    dbListTables st' = dbListTables (l_db l) ->
    loading (mkL st' (Some (tv_name v)) (Z.of_nat i) (hget (dbListTables (l_db l)) (Z.of_nat i)) (Z.of_nat r))
      (<[i := put_cell v (Z.of_nat r) j c]> vs) i (put_cell v (Z.of_nat r) j c) (Z.of_nat r)).
  { intros st' Hrep' El. rewrite (a_write_put vs i v r j nm ty c cells) in Hrep' by (done || apply Hr).
    split; cbn [l_db l_tablename l_tid l_pTable l_row tv_name put_cell set_slots]; try done.
    - exact (table_at_insert vs _ i v (put_cell v (Z.of_nat r) j c) Ht eq_refl).
    - by rewrite El. }
  destruct c as [z|s].
  - destruct Hw as [-> Hz]. destruct He as [_ He]. change (T_INT =? T_STRING) with false. cbn iota.
    destruct (gstrtoi_decimal z val He Hz) as (u & -> & Eu). cbn [mbind option_bind]. rewrite Eu.
    destruct (writeint_ok _ vs (tv_name v) nm (Z.of_nat r) z Hrep) as (st' & E & Hrep'); [by rewrite Hct|].
    rewrite E. cbn [mbind option_bind]. eexists. split; [done|].
    apply Hres; [exact Hrep'|by eapply writeint_list].
  - destruct Hw as [-> _]. injection He as ->. change (T_STRING =? T_STRING) with true. cbn iota.
    destruct (writestr_ok bstrdup bstrdup_ok _ vs (tv_name v) nm (Z.of_nat r) s Hrep (word_no_nul s Hval)) as (st' & E & Hrep').
    rewrite E. cbn [mbind option_bind]. eexists. split; [done|].
    apply Hres; [exact Hrep'|by eapply writestr_list].
Qed.

(** The cells of a row, from the first on. *)
Lemma load_cells i r : forall cols2 cells2 kvs cols1 done_ v vs l,
  loading l vs i v (Z.of_nat r) -> tv_cols v = cols1 ++ cols2 -> length done_ = length cols1 ->
  base.NoDup (map fst (tv_cols v)) -> Forall (fun col => col_savable col.1) cols2 ->
  tv_slots v !! r = Some (Some (done_ ++ repeat (CInt 0) (length cols2))) ->
  Forall2 (fun col c => written_cell col.2 c) cols2 cells2 ->
  Forall2 entry_text (zip_with (fun col c => ECell col.1 c) cols2 cells2) kvs ->
  let v' := set_slots v (fun s => <[r := Some (done_ ++ cells2)]> s) in
  exists l', load_lines load l kvs = Some l' /\ loading l' (<[i := v']> vs) i v' (Z.of_nat r).
Proof using bstrdup_ok.
  induction cols2 as [|[nm ty] cols2 IH]; intros cells2 kvs cols1 done_ v vs l Hl Hcols Hlen Hnd Hsv Hs Hw He v'.
  { apply Forall2_nil_inv_l in Hw as ->. apply Forall2_nil_inv_l in He as ->. exists l. split; [done|].
    assert (Ev : v' = v).
    { unfold v', set_slots. cbn [length repeat] in Hs. rewrite (list_insert_id _ _ _ Hs). by destruct v. }
    rewrite Ev, list_insert_id; [done|]. destruct Hl as [_ Ht _ _ _ _]. by apply table_at_lookup in Ht as [? _]. }
  destruct cells2 as [|c cells2]; [by apply Forall2_cons_nil_inv in Hw|].
  apply Forall2_cons_1 in Hw as [Hw Hws]. cbn [zip_with fst] in He.
  apply Forall2_cons_inv_l in He as (kv & kvs' & He & Hes & ->). cbn [snd] in Hw.
  apply Forall_cons_iff in Hsv as [Hsvc Hsv]. cbn [fst] in Hsvc.
  assert (Ekv : kv = (nm, kv.2)).
  { destruct kv as [k' v0]. destruct c; cbn in He; [by destruct He as [-> _]|by injection He as -> _]. }
  rewrite Ekv in He |- *.
  assert (Hj : tv_cols v !! length done_ = Some (nm, ty)) by (rewrite Hcols, Hlen; by apply list_lookup_middle).
  destruct (load_cell l vs i v r (length done_) nm ty c kv.2 _ Hl (col_at_distinct v _ _ _ Hnd Hj) Hj Hsvc Hw Hs He)
    as (l1 & E1 & Hl1).
  set (v1 := set_slots v (fun s => <[r := Some ((done_ ++ [c]) ++ repeat (CInt 0) (length cols2))]> s)).
  assert (Ep : put_cell v (Z.of_nat r) (length done_) c = v1).
  { unfold v1, put_cell, set_slots. f_equal. rewrite Nat2Z.id. apply list_eq. intros k.
    destruct (decide (k = r)) as [->|Hne].
    - rewrite list_lookup_alter_eq, Hs, list_lookup_insert_eq by by eapply lookup_lt_Some. cbn [fmap option_fmap option_map].
      do 2 f_equal. rewrite insert_app_r_alt, Nat.sub_diag by lia. cbn [length repeat].
      by rewrite <- app_assoc.
    - by rewrite list_lookup_alter_ne, list_lookup_insert_ne. }
  rewrite Ep in Hl1.
  destruct (IH cells2 kvs' (cols1 ++ [(nm, ty)]) (done_ ++ [c]) v1 _ l1 Hl1) as (l' & E & Hl'); try done.
  - cbn. by rewrite Hcols, <- app_assoc.
  - rewrite !length_app. cbn. lia.
  - cbn. apply list_lookup_insert_eq. by eapply lookup_lt_Some.
  - exists l'. cbn [load_lines]. rewrite E1. cbn [mbind option_bind]. split; [exact E|].
    rewrite list_insert_insert_eq in Hl'. unfold v1, set_slots in Hl'. cbn [tv_slots tv_name tv_cols] in Hl'.
    rewrite list_insert_insert_eq, <- app_assoc in Hl'. exact Hl'.
Qed.

(** What the lemmas on a table need. *)
Definition slots_savable (cols : list (list Z * Z)) (slots : list (option (list cell))) : Prop :=
  Forall (fun s => match s with
                   | Some cells => Forall2 (fun col c => written_cell col.2 c) cols (restore_row cols cells)
                   | None => True
                   end) slots.

Lemma load_rows i : forall slots kvs k v vs l row,
  loading l vs i v row -> no_holes v ->
  base.NoDup (map fst (tv_cols v)) -> Forall (fun col => col_savable col.1) (tv_cols v) ->
  slots_savable (tv_cols v) slots -> Forall2 entry_text (row_entries (tv_cols v) k slots) kvs ->
  let v' := set_slots v (fun s => s ++ omap (restore_slot (tv_cols v)) slots) in
  exists l' row', load_lines load l kvs = Some l' /\ loading l' (<[i := v']> vs) i v' row'.
Proof using balloc_words_spec brealloc_words_spec balloc_words_total brealloc_words_total new_row_fresh
  new_row_total bstrdup_ok.
  induction slots as [|slot slots IH]; intros kvs k v vs l row Hl Hnh Hnd Hsv Hss He v'.
  { cbn in He. apply Forall2_nil_inv_l in He as ->. exists l, row. split; [done|].
    assert (Ev : v' = v) by (unfold v', set_slots; cbn; rewrite app_nil_r; by destruct v).
    rewrite Ev, list_insert_id; [done|]. destruct Hl as [_ Ht _ _ _ _]. by apply table_at_lookup in Ht as [? _]. }
  apply Forall_cons_iff in Hss as [Hs Hss].
  destruct slot as [cells|]; [|exact (IH kvs (k + 1) v vs l row Hl Hnh Hnd Hsv Hss He)].
  cbn [row_entries] in He. unfold v'. cbn [omap list_omap restore_slot].
  destruct (saved_row cells); [|exact (IH kvs (k + 1) v vs l row Hl Hnh Hnd Hsv Hss He)].
  rewrite <- app_comm_cons in He. apply Forall2_cons_inv_l in He as ([kw s] & kvs' & [Ek Hd] & Hes & ->).
  cbn [fst snd] in Ek, Hd. subst kw.
  apply Forall2_app_inv_l in Hes as (kvs1 & kvs2 & He1 & He2 & ->).
  destruct (load_row _ _ _ _ _ _ _ Hl Hnh Hd) as (l1 & E1 & Hl1).
  rewrite cell_entries_restore in He1.
  destruct (load_cells i (length (tv_slots v)) (tv_cols v) (restore_row (tv_cols v) cells) kvs1 [] []
    (append_row v) _ l1 Hl1) as (l2 & E2 & Hl2); try done.
  { cbn. by rewrite list_lookup_middle. }
  set (v2 := set_slots v (fun s => s ++ [Some (restore_row (tv_cols v) cells)])).
  assert (Ev : set_slots (append_row v) (fun s => <[length (tv_slots v) := Some ([] ++ restore_row (tv_cols v) cells)]> s) = v2).
  { unfold v2, append_row, set_slots. cbn [tv_name tv_cols tv_slots app]. f_equal.
    by rewrite insert_app_r_alt, Nat.sub_diag by lia. }
  rewrite Ev, list_insert_insert_eq in Hl2.
  destruct (IH kvs2 (k + 1) v2 _ l2 _ Hl2) as (l' & row' & E & Hl'); try done.
  { unfold no_holes, v2. cbn. apply Forall_app. split; [exact Hnh|by repeat constructor]. }
  exists l', row'. cbn [load_lines]. rewrite E1. cbn [mbind option_bind]. rewrite load_lines_app, E2.
  cbn [mbind option_bind]. split; [exact E|]. rewrite list_insert_insert_eq in Hl'.
  unfold v2, set_slots in Hl'. cbn [tv_slots tv_name tv_cols] in Hl'. by rewrite <- app_assoc in Hl'.
Qed.

Lemma savable_slots v : view_ok v -> view_savable v -> slots_savable (tv_cols v) (tv_slots v).
Proof.
  intros Hvo Hsv. apply Forall_lookup_2. intros r [cells|] Hs; [|done].
  apply restore_row_written; [by apply (vo_rows v Hvo r)|by apply (sv_cells v Hsv r)].
Qed.

Lemma empty_name v : tv_name (empty_view v) = tv_name v.
Proof. done. Qed.

(** The tables, one after the other. *)
Lemma load_tables vs : Forall view_ok vs -> Forall view_savable vs -> base.NoDup (map tv_name vs) ->
  forall vs2 vs1 kvs l, vs = vs1 ++ vs2 -> rep (l_db l) (map restored vs1 ++ map empty_view vs2) ->
  Forall2 entry_text (flat_map table_entries vs2) kvs ->
  exists l', load_lines load l kvs = Some l' /\ rep (l_db l') (map restored vs).
Proof using balloc_words_spec brealloc_words_spec balloc_words_total brealloc_words_total new_row_fresh
  new_row_total bstrdup_ok.
  intros Hok Hsv Hnd. induction vs2 as [|v vs2 IH]; intros vs1 kvs l Hvs Hrep He.
  { apply Forall2_nil_inv_l in He as ->. exists l. split; [done|]. by rewrite Hvs, app_nil_r in *. }
  assert (Hv : vs !! length vs1 = Some v) by (rewrite Hvs; by apply list_lookup_middle).
  pose proof (Forall_lookup_1 _ _ _ _ Hok Hv) as Hvo. pose proof (Forall_lookup_1 _ _ _ _ Hsv Hv) as Hvs'.
  cbn [flat_map] in He. apply Forall2_app_inv_l in He as (kvs1 & kvs2 & He1 & He2 & ->).
  apply Forall2_cons_inv_l in He1 as (kv & kvs1' & -> & He1 & ->).
  set (ws := map restored vs1 ++ map empty_view (v :: vs2)) in *.
  assert (Hw : ws !! length vs1 = Some (empty_view v)).
  { unfold ws. cbn [map]. rewrite list_lookup_middle; [done|by rewrite length_map]. }
  assert (Ht : table_at ws (tv_name (empty_view v)) = Some (length vs1, empty_view v)).
  { apply table_at_distinct; [|done]. unfold ws. rewrite map_app, !map_map.
    rewrite <- map_app. by rewrite <- Hvs. }
  destruct (load_table l ws (length vs1) (empty_view v) Hrep Ht (proj1 (sv_name v Hvs'))) as (l1 & E1 & Hl1).
  destruct (load_rows (length vs1) (tv_slots v) kvs1' 0 (empty_view v) ws l1 _ Hl1) as (l2 & row & E2 & Hl2);
    [exact (List.Forall_nil _)|exact (sv_distinct v Hvs')|exact (sv_cols v Hvs')|exact (savable_slots v Hvo Hvs')|exact He1|].
  assert (Ew : <[length vs1 := set_slots (empty_view v) (fun s => s ++ omap (restore_slot (tv_cols (empty_view v))) (tv_slots v))]> ws
               = map restored (vs1 ++ [v]) ++ map empty_view vs2).
  { unfold ws. rewrite map_app, <- app_assoc, insert_app_r_alt, length_map, Nat.sub_diag by (rewrite length_map; lia).
    done. }
  rewrite Ew in Hl2. rewrite empty_name in E1.
  destruct (IH (vs1 ++ [v]) kvs2 l2) as (l' & E & Hl'); [by rewrite <- app_assoc|apply Hl2|done|].
  exists l'. split; [|done]. rewrite <- app_comm_cons. cbn [load_lines]. rewrite E1. cbn [mbind option_bind].
  by rewrite load_lines_app, E2.
Qed.

(** ** The file *)

Lemma load_loop_ok kvs : Forall good_line kvs -> forall kv l fuel, (length kvs < fuel)%nat ->
  load_loop balloc_words brealloc_words new_row bstrdup fuel l (line_text kv) (file_text kvs) = load_lines load l (kv :: kvs).
Proof.
  induction 1 as [|kv' kvs Hg _ IH]; intros kv l [|fuel] Hf; cbn [length] in Hf; try lia; cbn [load_loop load_lines];
    (destruct (load l (line_text kv)) as [l'|]; [|done]); cbn [mbind option_bind]; [done|].
  rewrite strtok_file by done. apply IH. lia.
Qed.

Definition entry_good (e : entry) : Prop :=
  match e with
  | ETable nm => word nm
  | ERow _ => True
  | ECell nm c => word nm /\ ~ In 61 nm /\ match c with CStr s => word s | CInt _ => True end
  end.

Lemma entry_good_line e kv : entry_good e -> entry_text e kv -> good_line kv.
Proof.
  destruct kv as [k s]. destruct e as [nm|r|nm [z|s']]; cbn; unfold good_line; cbn [fst snd].
  - intros Hw [= -> ->]. destruct (keyword_ok KEYWORD_TABLE (or_introl eq_refl)). by split_and!.
  - intros _ [-> Hd]. destruct (keyword_ok KEYWORD_ROW (or_intror eq_refl)).
    split_and!; [done|done|by eapply decimal_word].
  - intros (? & ? & _) [-> Hd]. split_and!; [done|done|by eapply decimal_word].
  - intros (? & ? & ?) [= -> ->]. by split_and!.
Qed.

Lemma row_entries_good cols slots : Forall (fun col => col_savable col.1) cols -> slots_savable cols slots ->
  forall k, Forall entry_good (row_entries cols k slots).
Proof.
  intros Hcols. induction 1 as [|[cells|] slots Hs _ IH]; intros k; cbn [row_entries]; [constructor| |apply IH].
  apply Forall_app. split; [|apply IH]. destruct (saved_row cells); [|constructor]. constructor; [done|].
  rewrite cell_entries_restore. clear IH. revert Hcols Hs. generalize (restore_row cols cells).
  induction cols as [|col cols IH]; intros [|c cells'] Hcols Hs; try constructor.
  - apply Forall_cons_iff in Hcols as [(Hw & Hn & _) _]. apply Forall2_cons_1 in Hs as [Hc _].
    split_and!; [done|done|]. by destruct c, Hc.
  - apply Forall_cons_iff in Hcols as [_ Hcols]. apply Forall2_cons_1 in Hs as [_ Hs]. by apply IH.
Qed.

Lemma entries_good vs kvs : Forall view_ok vs -> Forall view_savable vs ->
  Forall2 entry_text (flat_map table_entries vs) kvs -> Forall good_line kvs.
Proof.
  intros Hok Hsv He.
  assert (Hg : Forall entry_good (flat_map table_entries vs)).
  { clear He. induction Hok as [|v vs Hv Hok IH]; [constructor|]. apply Forall_cons_iff in Hsv as [Hs Hsv].
    cbn [flat_map]. apply Forall_app. split; [|by apply IH]. constructor; [apply (sv_name v Hs)|].
    apply row_entries_good; [apply Hs|by apply savable_slots]. }
  clear Hok Hsv. revert Hg. induction He as [|e kv es kvs He _ IH]; intros Hg; [constructor|].
  apply Forall_cons_iff in Hg as [Hg Hgs]. constructor; [by eapply entry_good_line|by apply IH].
Qed.

Context (lw : Z) (balloc : Z -> option (list Z)) (brealloc : list Z -> Z -> option (list Z)).
Hypothesis lw_ok : lw = 32 \/ lw = 64.
Hypothesis balloc_ok : forall n, 0 < n <= 2 ^ 30 -> exists b, balloc n = Some b /\ zlen b = n.
Hypothesis brealloc_ok : forall b n, zlen b <= n <= 2 ^ 30 ->
  exists b', brealloc b n = Some b' /\ zlen b' = n /\ take (length b) b' = b.
Context (basicProdDir : option (list Z)).
Local Notation dir := (basicGetProductDir basicProdDir).
Hypothesis dir_ok : no_nul dir /\ zlen dir + 9 <= capacity FNAMESIZE.
(** The disk does what it is asked. *)
Context (sys : io).
Hypothesis write_all : forall out s, io_write sys out s = zlen s.
Hypothesis create_ok : io_create sys = true.
Hypothesis rename_ok : io_rename sys = true.
Hypothesis open_ok : io_open sys = true.
Hypothesis read_all : forall s, io_read sys s = zlen s.

Abbreviation save_to := (dbSave lw balloc brealloc basicProdDir sys) (only parsing).
Abbreviation load_from :=
  (dbLoad lw balloc brealloc basicProdDir sys balloc_words brealloc_words new_row bstrdup) (only parsing).

Lemma load_ok st vs files nm kvs : rep st (map empty_view vs) -> vs <> [] -> Forall view_ok vs ->
  Forall view_savable vs -> base.NoDup (map tv_name vs) ->
  Forall2 entry_text (flat_map table_entries vs) kvs -> file_ok basicProdDir nm ->
  files !! (dir ++ 47 :: nm) = Some (file_text kvs) -> zlen (file_text kvs) < 2 ^ 30 ->
  exists st', load_from st files (Some nm) = Some (0, st') /\ rep st' (map restored vs).
Proof using balloc_words_spec brealloc_words_spec balloc_words_total brealloc_words_total new_row_fresh
  new_row_total bstrdup_ok lw_ok balloc_ok brealloc_ok dir_ok open_ok read_all.
  intros Hrep Hne Hok Hsv Hnd He (Hn & Hl & _) Hf Hsize. unfold dbLoad.
  rewrite (path_ok lw balloc brealloc lw_ok balloc_ok brealloc_ok basicProdDir dir_ok nm Hn Hl).
  cbn [mbind option_bind]. rewrite Hf, open_ok. cbn [negb].
  pose proof (entries_good vs kvs Hok Hsv He) as Hg.
  destruct kvs as [|kv kvs]; [by destruct vs; [|apply Forall2_nil_inv_r in He]|].
  pose proof (file_text_length (kv :: kvs)) as Hlen. cbn [length] in Hlen.
  replace (zlen (file_text (kv :: kvs)) <=? 0) with false by zb.
  destruct (balloc_ok (zlen (file_text (kv :: kvs)) + 1)) as (b & -> & _); [lia|].
  rewrite read_all, Z.eqb_refl. cbn [negb]. rewrite cstr_app by by apply good_text_no_nul.
  cbn [mbind option_bind]. pose proof Hg as Hg'. apply Forall_cons_iff in Hg' as [Hg0 Hgs].
  rewrite strtok_file by done. cbn [mbind option_bind].
  rewrite load_loop_ok by (done || lia).
  destruct (load_tables vs Hok Hsv Hnd vs [] (kv :: kvs) (mkL st None (-1) 0 (-1)) eq_refl Hrep He) as (l' & -> & Hr).
  cbn [mbind option_bind]. by eexists.
Qed.

(** C21. Saving and loading.  The file that [dbSave] writes from tables with distinct
    names, whose names and values are lines of text without leading blanks that fit the
    line buffer, is loaded by [dbLoad] into the same tables, empty: every row whose first
    column is not empty comes back with its cells, in order and without the holes of the
    deleted rows; a null string comes back as [(null)].  No other file but the temporary
    one is touched. *)
Theorem dbSave_dbLoad_roundtrip st st0 vs files nm : rep st vs -> rep st0 (a_zero vs) -> vs <> [] ->
  Forall view_savable vs -> base.NoDup (map tv_name vs) -> file_ok basicProdDir nm ->
  exists files' content, save_to st files (Some nm) = Some (0, files') /\
    files' !! (dir ++ 47 :: nm) = Some content /\
    (forall p, p <> dir ++ 47 :: nm -> p <> dir ++ 47 :: str "data.tmp" -> files' !! p = files !! p) /\
    (zlen content < 2 ^ 30 ->
     exists st', load_from st0 files' (Some nm) = Some (0, st') /\ rep st' (map restored vs)).
Proof using All.
  intros Hrep Hrep0 Hne Hsv Hnd Hnm.
  destruct (save_ok lw balloc brealloc lw_ok balloc_ok brealloc_ok sys write_all basicProdDir dir_ok create_ok
    rename_ok st vs files nm Hrep Hsv Hnm) as (files' & kvs & E & He & Hf & Hother).
  exists files', (file_text kvs). split_and!; [exact E|exact Hf|exact Hother|]. intros Hsize.
  pose proof (rep_adb_ok _ _ Hrep) as Hok.
  exact (load_ok st0 vs files' nm kvs Hrep0 Hne Hok Hsv Hnd He Hnm Hf Hsize).
Qed.
End Memory.

(** ** A concrete file *)

Definition plenty_words (n : Z) : option (list Z) := Some (repeat 119 (Z.to_nat (n / WORD))).
Definition plenty_rewords (old : list Z) (n : Z) : option (list Z) :=
  Some (old ++ repeat 119 (Z.to_nat (n / WORD) - length old)).

Lemma plenty_words_spec n mp : 0 <= n -> plenty_words n = Some mp -> zlen mp = n / WORD.
Proof.
  intros ?. intros [= <-]. rewrite repeat_length.
  assert (0 <= n / WORD) by (apply Z.div_pos; unfold WORD; lia). lia.
Qed.

Lemma plenty_rewords_spec old n mp : plenty_rewords old n = Some mp ->
  zlen old * WORD <= n -> exists rest, mp = old ++ rest /\ zlen mp = n / WORD.
Proof.
  intros [= <-] Hn. eexists. split; [done|]. rewrite length_app, repeat_length.
  assert (zlen old <= n / WORD) by (apply Z.div_le_lower_bound; unfold WORD in *; lia). lia.
Qed.

Lemma demo_block_nonzero {A} (m : gmap Z A) : demo_block m <> 0.
Proof.
  unfold demo_block. assert (H : forall l, 0 <= foldr Z.max 0 l); [|specialize (H (map_to_list m).*1); lia].
  induction l; cbn; lia.
Qed.

Definition demo_disk : io := mkIo true (fun _ s => zlen s) true true (fun s => zlen s).

(** A deleted row, a row, a row without a name and a row with a null string. *)
Definition demo_slots : list (option (list cell)) :=
  [None; Some [CStr (str "bob"); CInt (-7)]; Some [CInt 0; CInt 3]].
Definition demo_view : tview := mkView (str "users") (sch_cols demo_schema) demo_slots.

Definition demo_saving_ops : list dbop :=
  [OAddRow (str "users"); OAddRow (str "users"); OAddRow (str "users");
   OWriteStr (str "users") (str "name") 1 (str "bob"); OWriteInt (str "users") (str "prot") 1 (-7);
   OWriteInt (str "users") (str "prot") 2 3; ODeleteRow (str "users") 0].

Definition plenty_db : Database db := emf_db plenty_words plenty_rewords demo_block demo_block Some.

Definition demo_saving : db :=
  match @run_ops _ plenty_db demo_state demo_saving_ops with Some (_, st) => st | None => demo_state end.

(** The only run when there is memory. *)
Lemma demo_saving_rep : rep demo_saving [demo_view].
Proof.
  destruct (@run_ops_ok _ plenty_db
    (emf_laws plenty_words plenty_rewords demo_block demo_block Some plenty_words_spec plenty_rewords_spec
       demo_block_fresh demo_block_fresh (fun _ => eq_refl)) demo_saving_ops demo_state _ emf_demo_rep)
    as (rs & st' & vs' & E & Hs & Hr).
  { unfold demo_saving_ops.
    repeat match goal with |- Forall _ (_ :: _) => apply Forall_cons_iff; split end;
      [..|apply Forall_nil]; cbn [op_typed]; try exact I; try (by repeat constructor); vm_compute; discriminate. }
  unfold demo_saving. rewrite E. cbn [db_rep] in Hr.
  assert (Ers : rs = [(0, None); (1, None); (2, None); (0, None); (0, None); (0, None); (0, None)]).
  { vm_compute in E. by injection E as <- _. }
  subst rs. clear E. unfold demo_saving_ops in Hs.
  repeat match goal with H : a_steps _ (_ :: _) _ _ |- _ => inversion H; clear H; subst end.
  match goal with H : a_steps _ [] _ _ |- _ => inversion H; clear H; subst end.
  repeat match goal with H : a_step _ _ _ _ |- _ => inversion H; clear H; subst end.
  exact Hr.
Qed.

Lemma demo_word s : forallb (fun c => negb ((c =? 0) || (c =? newline) || (c =? 13))) s = true ->
  match s with c :: _ => isspace c = false | [] => True end -> word s.
Proof.
  intros Hs Hh. split; [|done]. apply List.Forall_forall. intros c Hc.
  apply (proj1 (forallb_forall _ _) Hs) in Hc. apply negb_true_iff in Hc.
  apply orb_false_iff in Hc as [Hc H13]. apply orb_false_iff in Hc as [H0 H10].
  by rewrite !Z.eqb_neq in *.
Qed.

Lemma demo_savable : view_savable demo_view.
Proof.
  assert (Hc : forall nm, nm = str "name" \/ nm = str "prot" -> col_savable nm).
  { intros nm [-> | ->]; (split_and!; [by apply demo_word|cbn; intuition discriminate|done|done|done]). }
  split.
  - split; [by apply demo_word|done].
  - by exists (str "name").
  - constructor; [apply Hc; by left|]. constructor; [apply Hc; by right|apply Forall_nil].
  - apply NoDup_cons_2; [by intros ?%list_elem_of_singleton|apply NoDup_singleton].
  - done.
  - intros [|[|[|r]]] cells Hs; [done| | |by rewrite lookup_ge_None_2 in Hs by (cbn; lia)];
      injection Hs as <-; constructor.
    + split; [by apply demo_word|done].
    + by repeat constructor.
    + done.
    + by repeat constructor.
Qed.

Lemma demo_dir_ok : no_nul (basicGetProductDir None) /\ zlen (basicGetProductDir None) + 9 <= capacity FNAMESIZE.
Proof. split; [by repeat constructor|by vm_compute]. Qed.

Lemma dbSave_dbLoad_roundtrip_witness :
  exists files' st', dbSave 32 demo_balloc demo_brealloc None demo_disk demo_saving ∅ (Some (str "users.txt")) = Some (0, files') /\
    files' !! str "./users.txt" = Some (str "TABLE=users" ++ [10] ++ str "ROW=1" ++ [10] ++ str "name=bob" ++ [10] ++
      str "prot=-7" ++ [10]) /\
    dbLoad 32 demo_balloc demo_brealloc None demo_disk plenty_words plenty_rewords demo_block Some demo_state files'
      (Some (str "users.txt")) = Some (0, st') /\
    rep st' [mkView (str "users") (sch_cols demo_schema) [Some [CStr (str "bob"); CInt (-7)]]].
Proof.
  destruct (dbSave_dbLoad_roundtrip plenty_words plenty_rewords demo_block Some plenty_words_spec plenty_rewords_spec
    demo_block_fresh (fun _ => eq_refl) (fun _ H => ltac:(discriminate H)) (fun _ _ H => ltac:(discriminate H))
    demo_block_nonzero 32 demo_balloc demo_brealloc (or_introl eq_refl) demo_balloc_ok demo_brealloc_ok
    None demo_dir_ok demo_disk (fun _ _ => eq_refl) eq_refl eq_refl eq_refl
    (fun _ => eq_refl) demo_saving demo_state [demo_view] ∅ (str "users.txt") demo_saving_rep emf_demo_rep)
    as (files' & content & E & Hf & _ & Hload).
  - discriminate.
  - constructor; [apply demo_savable|apply Forall_nil].
  - apply NoDup_singleton.
  - split_and!; [by repeat constructor|vm_compute; discriminate|discriminate].
  - assert (Ec : content = str "TABLE=users" ++ [10] ++ str "ROW=1" ++ [10] ++ str "name=bob" ++ [10] ++ str "prot=-7" ++ [10]).
    { assert (Er : match dbSave 32 demo_balloc demo_brealloc None demo_disk demo_saving ∅ (Some (str "users.txt")) with
                   | Some (_, fs) => fs !! (basicGetProductDir None ++ 47 :: str "users.txt") | None => None end =
                   Some (str "TABLE=users" ++ [10] ++ str "ROW=1" ++ [10] ++ str "name=bob" ++ [10] ++ str "prot=-7" ++ [10]))
        by (vm_compute; reflexivity).
      rewrite E, Hf in Er. by injection Er. }
    destruct Hload as (st' & El & Hr); [rewrite Ec; vm_compute; reflexivity|].
    exists files', st'. split; [exact E|]. split; [rewrite <- Ec; exact Hf|]. split; [exact El|exact Hr].
Defined.
