(* ===== verification/Um.v ===== *)
(** * User management (webs/src/src/um.c, um.h)

    Users, groups and access limits in three tables of a database, whatever its
    implementation: the functions are over the class [Database].  The state of the
    functions that work on the tables is the database; [umOpen] and [umClose] also have the
    variables of the module.  A string argument may be the null pointer, and [None] as a
    result means that the code follows a null pointer or uses a word as what it is not.

    [umCommit] and [umRestore], which need a disk, are in [UmFile]. *)

From S2P Require Import Prelude CString DbIface.
#[local] Open Scope Z_scope.
#[local] Open Scope cint_scope.

(** ** Constants and tables *)

Definition UM_ERR_GENERAL : Z := -1.
Definition UM_ERR_NOT_FOUND : Z := -2.
Definition UM_ERR_PROTECTED : Z := -3.
Definition UM_ERR_DUPLICATE : Z := -4.
Definition UM_ERR_IN_USE : Z := -5.
Definition UM_ERR_BAD_NAME : Z := -6.
Definition UM_ERR_BAD_PASSWORD : Z := -7.

Definition AM_NONE : Z := 0.
Definition AM_FULL : Z := 1.
Definition AM_INVALID : Z := 4.

Definition UM_USER_TABLENAME : list Z := str "users".
Definition UM_GROUP_TABLENAME : list Z := str "groups".
Definition UM_ACCESS_TABLENAME : list Z := str "access".

Definition UM_NAME : list Z := str "name".
Definition UM_PASS : list Z := str "password".
Definition UM_GROUP : list Z := str "group".
Definition UM_PROT : list Z := str "prot".
Definition UM_DISABLE : list Z := str "disable".
Definition UM_METHOD : list Z := str "method".
Definition UM_PRIVILEGE : list Z := str "priv".
Definition UM_SECURE : list Z := str "secure".

Definition UM_XOR_ENCRYPT : list Z := str "*j7a(L#yZ98sSd5HfSgGjMj8;Ss;d)(" ++ str "*&^#@$a2s0i3g".
Definition UM_TXT_FILENAME : list Z := str "umconfig.txt".

Definition userTable : schema := mkSchema UM_USER_TABLENAME
  [(UM_NAME, T_STRING); (UM_PASS, T_STRING); (UM_GROUP, T_STRING); (UM_PROT, T_INT); (UM_DISABLE, T_INT)].
Definition groupTable : schema := mkSchema UM_GROUP_TABLENAME
  [(UM_NAME, T_STRING); (UM_PRIVILEGE, T_INT); (UM_METHOD, T_INT); (UM_PROT, T_INT); (UM_DISABLE, T_INT)].
Definition accessTable : schema := mkSchema UM_ACCESS_TABLENAME
  [(UM_NAME, T_STRING); (UM_METHOD, T_INT); (UM_SECURE, T_INT); (UM_GROUP, T_STRING)].

(** ** Passwords and names *)

(** The loop over the text with its mask; a character that would become a blank or the
    end of the string is kept. *)
Fixpoint umEncrypt_loop (textString enMask : list Z) : list Z :=
  match textString with
  | [] => []
  | c :: textString =>
      let enChar := Z.lxor c (hd 0 enMask) in
      let c := if negb (enChar =? 0) && negb (isspace enChar) then enChar else c in
      let enMask := match tl enMask with [] => UM_XOR_ENCRYPT | enMask => enMask end in
      c :: umEncrypt_loop textString enMask
  end.

(** The text afterwards, and the number of characters. *)
Definition umEncryptString (textString : list Z) : list Z * Z :=
  (umEncrypt_loop textString UM_XOR_ENCRYPT, zlen textString).

Definition umCheckName (name : cptr) : bool :=
  match name with
  | Some (c :: s) => forallb (fun c => negb (isspace c)) (c :: s)
  | _ => false
  end.

(** [p && *p] *)
Definition nonempty (p : cptr) : bool := match p with Some (_ :: _) => true | _ => false end.

(** The variable that [dbReadInt] or [dbReadStr] stores into; without a store it keeps
    its value [old], where it has one.  A word that is not of the type of the variable is
    no value. *)
Definition int_var (old : option Z) (v : option cell) : option Z :=
  match v with None => old | Some (CInt z) => Some z | Some (CStr _) => None end.
Definition ptr_var (old : cptr) (v : option cell) : option cptr :=
  match v with None => Some old | Some c => ptr_of_cell c end.

Definition bool_t (b : bool) : Z := if b then 1 else 0.

Section Um.
Context {D : Type} `{Database D}.
(** [bstrdup] of a string. *)
Context (bstrdup : list Z -> cptr).

(** ** Walking through a column *)

Fixpoint first_loop (fuel : nat) (d : D) (tableName columnName : cptr) (row : Z) (columnData : cptr)
  : option cptr :=
  match fuel with
  | O => None
  | S fuel =>
      '(check, v) ← dbReadStr d tableName columnName row;
      columnData ← ptr_var columnData v;
      if (check =? 0) || (check =? DB_ERR_ROW_DELETED) then
        if nonempty columnData then Some columnData
        else first_loop fuel d tableName columnName (row + 1) columnData
      else Some None
  end.

Definition umGetFirstRowData (fuel : nat) (d : D) (tableName columnName : cptr) : option cptr :=
  first_loop fuel d tableName columnName 0 None.

(** The loop that looks for [keyLast]: the row after it, and the last key that was read. *)
Fixpoint find_loop (fuel : nat) (d : D) (tableName columnName : cptr) (keyLast : list Z) (row : Z)
  (key : cptr) : option (Z * cptr) :=
  match fuel with
  | O => None
  | S fuel =>
      '(check, v) ← dbReadStr d tableName columnName row;
      key ← ptr_var key v;
      if ((check =? 0) || (check =? DB_ERR_ROW_DELETED)) &&
         (match key with None => true | Some k => negb (strcmp k keyLast =? 0) end)
      then find_loop fuel d tableName columnName keyLast (row + 1) key
      else Some (row + 1, key)
  end.

Fixpoint next_loop (fuel : nat) (d : D) (tableName columnName : cptr) (keyLast : list Z) (row : Z)
  (key : cptr) : option cptr :=
  match fuel with
  | O => None
  | S fuel =>
      '(check, v) ← dbReadStr d tableName columnName row;
      key ← ptr_var key v;
      if (check =? 0) || (check =? DB_ERR_ROW_DELETED) then
        if nonempty key && match key with Some k => negb (strcmp k keyLast =? 0) | None => true end
        then Some key
        else next_loop fuel d tableName columnName keyLast (row + 1) key
      else Some None
  end.

Definition umGetNextRowData (fuel : nat) (d : D) (tableName columnName : cptr) (keyLast : list Z)
  : option cptr :=
  '(row, key) ← find_loop fuel d tableName columnName keyLast 0 None;
  match key with
  | Some k => if strcmp k keyLast =? 0 then next_loop fuel d tableName columnName keyLast row key else Some None
  | None => Some None
  end.

(** ** Users *)

Definition umUserExists (d : D) (user : cptr) : option Z :=
  row ← dbSearchStr d (Some UM_USER_TABLENAME) (Some UM_NAME) user 0;
  Some (bool_t (0 <=? row)).

Definition umGroupExists (d : D) (group : cptr) : option Z :=
  row ← dbSearchStr d (Some UM_GROUP_TABLENAME) (Some UM_NAME) group 0;
  Some (bool_t (0 <=? row)).

Definition umAddUser (d : D) (user pass group : cptr) (prot disabled : Z) : option (Z * D) :=
  e ← umUserExists d user;
  if negb (e =? 0) then Some (UM_ERR_DUPLICATE, d)
  else if negb (umCheckName user) then Some (UM_ERR_BAD_NAME, d)
  else if negb (umCheckName pass) then Some (UM_ERR_BAD_PASSWORD, d)
  else
    g ← umGroupExists d group;
    if g =? 0 then Some (UM_ERR_NOT_FOUND, d)
    else
      '(row, d) ← dbAddRow d (Some UM_USER_TABLENAME);
      if row <? 0 then Some (UM_ERR_GENERAL, d)
      else
        '(e, d) ← dbWriteStr d (Some UM_USER_TABLENAME) (Some UM_NAME) row user;
        if negb (e =? 0) then Some (UM_ERR_GENERAL, d)
        else
          password ← bstrdup_ptr bstrdup pass;
          let password := (umEncryptString password).1 in
          '(_, d) ← dbWriteStr d (Some UM_USER_TABLENAME) (Some UM_PASS) row (Some password);
          '(_, d) ← dbWriteStr d (Some UM_USER_TABLENAME) (Some UM_GROUP) row group;
          '(_, d) ← dbWriteInt d (Some UM_USER_TABLENAME) (Some UM_PROT) row prot;
          '(_, d) ← dbWriteInt d (Some UM_USER_TABLENAME) (Some UM_DISABLE) row disabled;
          Some (0, d).

Definition umGetUserProtected (d : D) (user : cptr) : option Z :=
  row ← dbSearchStr d (Some UM_USER_TABLENAME) (Some UM_NAME) user 0;
  if 0 <=? row then
    '(_, v) ← dbReadInt d (Some UM_USER_TABLENAME) (Some UM_PROT) row;
    protect ← int_var (Some 0) v;
    Some (s16 protect)
  else Some 0.

Definition umDeleteUser (d : D) (user : cptr) : option (Z * D) :=
  p ← umGetUserProtected d user;
  if negb (p =? 0) then Some (UM_ERR_PROTECTED, d)
  else
    row ← dbSearchStr d (Some UM_USER_TABLENAME) (Some UM_NAME) user 0;
    if 0 <=? row then dbDeleteRow d (Some UM_USER_TABLENAME) row
    else Some (UM_ERR_NOT_FOUND, d).

Definition umGetFirstUser (fuel : nat) (d : D) : option cptr :=
  umGetFirstRowData fuel d (Some UM_USER_TABLENAME) (Some UM_NAME).

Definition umGetNextUser (fuel : nat) (d : D) (userLast : list Z) : option cptr :=
  umGetNextRowData fuel d (Some UM_USER_TABLENAME) (Some UM_NAME) userLast.

Definition umGetUserPassword (d : D) (user : cptr) : option cptr :=
  row ← dbSearchStr d (Some UM_USER_TABLENAME) (Some UM_NAME) user 0;
  if 0 <=? row then
    '(_, v) ← dbReadStr d (Some UM_USER_TABLENAME) (Some UM_PASS) row;
    pass ← ptr_var None v;
    password ← bstrdup_ptr bstrdup pass;
    Some (Some (umEncryptString password).1)
  else Some None.

Definition umSetUserPassword (d : D) (user pass : cptr) : option (Z * D) :=
  row ← dbSearchStr d (Some UM_USER_TABLENAME) (Some UM_NAME) user 0;
  if row <? 0 then Some (UM_ERR_NOT_FOUND, d)
  else
    password ← bstrdup_ptr bstrdup pass;
    dbWriteStr d (Some UM_USER_TABLENAME) (Some UM_PASS) row (Some (umEncryptString password).1).

Definition umGetUserGroup (d : D) (user : cptr) : option cptr :=
  row ← dbSearchStr d (Some UM_USER_TABLENAME) (Some UM_NAME) user 0;
  if 0 <=? row then
    '(_, v) ← dbReadStr d (Some UM_USER_TABLENAME) (Some UM_GROUP) row;
    ptr_var None v
  else Some None.

Definition umSetUserGroup (d : D) (user group : cptr) : option (Z * D) :=
  row ← dbSearchStr d (Some UM_USER_TABLENAME) (Some UM_NAME) user 0;
  if 0 <=? row then dbWriteStr d (Some UM_USER_TABLENAME) (Some UM_GROUP) row group
  else Some (UM_ERR_NOT_FOUND, d).

Definition umGetUserEnabled (d : D) (user : cptr) : option Z :=
  row ← dbSearchStr d (Some UM_USER_TABLENAME) (Some UM_NAME) user 0;
  disabled ← (if 0 <=? row then
                '(_, v) ← dbReadInt d (Some UM_USER_TABLENAME) (Some UM_DISABLE) row;
                int_var (Some 1) v
              else Some 1);
  Some (bool_t (disabled =? 0)).

Definition umSetUserEnabled (d : D) (user : cptr) (enabled : Z) : option (Z * D) :=
  row ← dbSearchStr d (Some UM_USER_TABLENAME) (Some UM_NAME) user 0;
  if 0 <=? row then
    dbWriteInt d (Some UM_USER_TABLENAME) (Some UM_DISABLE) row (bool_t (enabled =? 0))
  else Some (UM_ERR_NOT_FOUND, d).

Definition umSetUserProtected (d : D) (user : cptr) (protect : Z) : option (Z * D) :=
  row ← dbSearchStr d (Some UM_USER_TABLENAME) (Some UM_NAME) user 0;
  if 0 <=? row then dbWriteInt d (Some UM_USER_TABLENAME) (Some UM_PROT) row protect
  else Some (UM_ERR_NOT_FOUND, d).

(** ** Groups *)

Definition umAddGroup (d : D) (group : cptr) (priv am prot disabled : Z) : option (Z * D) :=
  g ← umGroupExists d group;
  if negb (g =? 0) then Some (UM_ERR_DUPLICATE, d)
  else if negb (umCheckName group) then Some (UM_ERR_BAD_NAME, d)
  else
    '(row, d) ← dbAddRow d (Some UM_GROUP_TABLENAME);
    if row <? 0 then Some (UM_ERR_GENERAL, d)
    else
      '(e, d) ← dbWriteStr d (Some UM_GROUP_TABLENAME) (Some UM_NAME) row group;
      if negb (e =? 0) then Some (UM_ERR_GENERAL, d)
      else
        '(_, d) ← dbWriteInt d (Some UM_GROUP_TABLENAME) (Some UM_PRIVILEGE) row priv;
        '(_, d) ← dbWriteInt d (Some UM_GROUP_TABLENAME) (Some UM_METHOD) row am;
        '(_, d) ← dbWriteInt d (Some UM_GROUP_TABLENAME) (Some UM_PROT) row prot;
        '(_, d) ← dbWriteInt d (Some UM_GROUP_TABLENAME) (Some UM_DISABLE) row disabled;
        Some (0, d).

Definition umGetGroupInUse (d : D) (group : cptr) : option Z :=
  row ← dbSearchStr d (Some UM_USER_TABLENAME) (Some UM_GROUP) group 0;
  if 0 <=? row then Some 1
  else
    row ← dbSearchStr d (Some UM_ACCESS_TABLENAME) (Some UM_GROUP) group 0;
    if 0 <=? row then Some 1 else Some 0.

Definition umGetGroupProtected (d : D) (group : cptr) : option Z :=
  row ← dbSearchStr d (Some UM_GROUP_TABLENAME) (Some UM_NAME) group 0;
  protect ← (if 0 <=? row then
               '(_, v) ← dbReadInt d (Some UM_GROUP_TABLENAME) (Some UM_PROT) row;
               int_var (Some 0) v
             else Some 0);
  Some (s16 protect).

Definition umDeleteGroup (d : D) (group : cptr) : option (Z * D) :=
  u ← umGetGroupInUse d group;
  if negb (u =? 0) then Some (UM_ERR_IN_USE, d)
  else
    p ← umGetGroupProtected d group;
    if negb (p =? 0) then Some (UM_ERR_PROTECTED, d)
    else
      row ← dbSearchStr d (Some UM_GROUP_TABLENAME) (Some UM_NAME) group 0;
      if row <? 0 then Some (UM_ERR_NOT_FOUND, d)
      else dbDeleteRow d (Some UM_GROUP_TABLENAME) row.

Definition umGetFirstGroup (fuel : nat) (d : D) : option cptr :=
  umGetFirstRowData fuel d (Some UM_GROUP_TABLENAME) (Some UM_NAME).

Definition umGetNextGroup (fuel : nat) (d : D) (groupLast : list Z) : option cptr :=
  umGetNextRowData fuel d (Some UM_GROUP_TABLENAME) (Some UM_NAME) groupLast.

(** [am] is not initialised. *)
Definition umGetGroupAccessMethod (d : D) (group : cptr) : option Z :=
  row ← dbSearchStr d (Some UM_GROUP_TABLENAME) (Some UM_NAME) group 0;
  if 0 <=? row then
    '(_, v) ← dbReadInt d (Some UM_GROUP_TABLENAME) (Some UM_METHOD) row;
    int_var None v
  else Some AM_INVALID.

Definition umSetGroupAccessMethod (d : D) (group : cptr) (am : Z) : option (Z * D) :=
  row ← dbSearchStr d (Some UM_GROUP_TABLENAME) (Some UM_NAME) group 0;
  if 0 <=? row then dbWriteInt d (Some UM_GROUP_TABLENAME) (Some UM_METHOD) row am
  else Some (UM_ERR_NOT_FOUND, d).

Definition umGetGroupPrivilege (d : D) (group : cptr) : option Z :=
  row ← dbSearchStr d (Some UM_GROUP_TABLENAME) (Some UM_NAME) group 0;
  privilege ← (if 0 <=? row then
                 '(_, v) ← dbReadInt d (Some UM_GROUP_TABLENAME) (Some UM_PRIVILEGE) row;
                 int_var (Some (-1)) v
               else Some (-1));
  Some (s16 privilege).

Definition umSetGroupPrivilege (d : D) (group : cptr) (privilege : Z) : option (Z * D) :=
  row ← dbSearchStr d (Some UM_GROUP_TABLENAME) (Some UM_NAME) group 0;
  if 0 <=? row then dbWriteInt d (Some UM_GROUP_TABLENAME) (Some UM_PRIVILEGE) row privilege
  else Some (UM_ERR_NOT_FOUND, d).

Definition umGetGroupEnabled (d : D) (group : cptr) : option Z :=
  row ← dbSearchStr d (Some UM_GROUP_TABLENAME) (Some UM_NAME) group 0;
  disabled ← (if 0 <=? row then
                '(_, v) ← dbReadInt d (Some UM_GROUP_TABLENAME) (Some UM_DISABLE) row;
                int_var (Some 1) v
              else Some 1);
  Some (bool_t (disabled =? 0)).

Definition umSetGroupEnabled (d : D) (group : cptr) (enabled : Z) : option (Z * D) :=
  row ← dbSearchStr d (Some UM_GROUP_TABLENAME) (Some UM_NAME) group 0;
  if 0 <=? row then
    dbWriteInt d (Some UM_GROUP_TABLENAME) (Some UM_DISABLE) row (bool_t (enabled =? 0))
  else Some (UM_ERR_NOT_FOUND, d).

Definition umSetGroupProtected (d : D) (group : cptr) (protect : Z) : option (Z * D) :=
  row ← dbSearchStr d (Some UM_GROUP_TABLENAME) (Some UM_NAME) group 0;
  if 0 <=? row then dbWriteInt d (Some UM_GROUP_TABLENAME) (Some UM_PROT) row protect
  else Some (UM_ERR_NOT_FOUND, d).

(** ** Access limits *)

Definition umAccessLimitExists (d : D) (url : cptr) : option Z :=
  row ← dbSearchStr d (Some UM_ACCESS_TABLENAME) (Some UM_NAME) url 0;
  Some (if row <? 0 then 0 else 1).

Definition umAddAccessLimit (d : D) (url : cptr) (am secure : Z) (group : cptr) : option (Z * D) :=
  e ← umAccessLimitExists d url;
  if negb (e =? 0) then Some (UM_ERR_DUPLICATE, d)
  else
    '(row, d) ← dbAddRow d (Some UM_ACCESS_TABLENAME);
    if row <? 0 then Some (UM_ERR_GENERAL, d)
    else
      '(e, d) ← dbWriteStr d (Some UM_ACCESS_TABLENAME) (Some UM_NAME) row url;
      if e <? 0 then Some (UM_ERR_GENERAL, d)
      else
        '(_, d) ← dbWriteInt d (Some UM_ACCESS_TABLENAME) (Some UM_METHOD) row am;
        '(_, d) ← dbWriteInt d (Some UM_ACCESS_TABLENAME) (Some UM_SECURE) row secure;
        '(_, d) ← dbWriteStr d (Some UM_ACCESS_TABLENAME) (Some UM_GROUP) row group;
        Some (0, d).

Definition umDeleteAccessLimit (d : D) (url : cptr) : option (Z * D) :=
  row ← dbSearchStr d (Some UM_ACCESS_TABLENAME) (Some UM_NAME) url 0;
  if row <? 0 then Some (UM_ERR_NOT_FOUND, d)
  else dbDeleteRow d (Some UM_ACCESS_TABLENAME) row.

Definition umGetFirstAccessLimit (fuel : nat) (d : D) : option cptr :=
  umGetFirstRowData fuel d (Some UM_ACCESS_TABLENAME) (Some UM_NAME).

Definition umGetNextAccessLimit (fuel : nat) (d : D) (urlLast : list Z) : option cptr :=
  umGetNextRowData fuel d (Some UM_ACCESS_TABLENAME) (Some UM_NAME) urlLast.

Definition umGetAccessLimitMethod (d : D) (url : cptr) : option Z :=
  row ← dbSearchStr d (Some UM_ACCESS_TABLENAME) (Some UM_NAME) url 0;
  if 0 <=? row then
    '(_, v) ← dbReadInt d (Some UM_ACCESS_TABLENAME) (Some UM_METHOD) row;
    int_var (Some AM_INVALID) v
  else Some AM_INVALID.

Definition umSetAccessLimitMethod (d : D) (url : cptr) (am : Z) : option (Z * D) :=
  row ← dbSearchStr d (Some UM_ACCESS_TABLENAME) (Some UM_NAME) url 0;
  if 0 <=? row then dbWriteInt d (Some UM_ACCESS_TABLENAME) (Some UM_METHOD) row am
  else Some (UM_ERR_NOT_FOUND, d).

Definition umGetAccessLimitSecure (d : D) (url : cptr) : option Z :=
  row ← dbSearchStr d (Some UM_ACCESS_TABLENAME) (Some UM_NAME) url 0;
  secure ← (if 0 <=? row then
              '(_, v) ← dbReadInt d (Some UM_ACCESS_TABLENAME) (Some UM_SECURE) row;
              int_var (Some (-1)) v
            else Some (-1));
  Some (s16 secure).

Definition umSetAccessLimitSecure (d : D) (url : cptr) (secure : Z) : option (Z * D) :=
  row ← dbSearchStr d (Some UM_ACCESS_TABLENAME) (Some UM_NAME) url 0;
  if 0 <=? row then dbWriteInt d (Some UM_ACCESS_TABLENAME) (Some UM_SECURE) row secure
  else Some (UM_ERR_NOT_FOUND, d).

Definition umGetAccessLimitGroup (d : D) (url : cptr) : option cptr :=
  row ← dbSearchStr d (Some UM_ACCESS_TABLENAME) (Some UM_NAME) url 0;
  if 0 <=? row then
    '(_, v) ← dbReadStr d (Some UM_ACCESS_TABLENAME) (Some UM_GROUP) row;
    ptr_var None v
  else Some None.

Definition umSetAccessLimitGroup (d : D) (url group : cptr) : option (Z * D) :=
  row ← dbSearchStr d (Some UM_ACCESS_TABLENAME) (Some UM_NAME) url 0;
  if 0 <=? row then dbWriteStr d (Some UM_ACCESS_TABLENAME) (Some UM_GROUP) row group
  else Some (UM_ERR_NOT_FOUND, d).

(** ** Deciding on a URL *)

Definition is_sep (c : Z) : bool := (c =? 47) || (c =? 92).

(** The loop that moves [lastChar] backwards and overwrites the characters of class [f]
    with NUL; [n] is the number of characters up to [lastChar]. *)
Fixpoint zero_back (f : Z -> bool) (urlCheck : list Z) (n : nat) : list Z * nat :=
  match n with
  | O => (urlCheck, O)
  | S k => if f (nth k urlCheck 0) then zero_back f (<[k := 0]> urlCheck) k else (urlCheck, n)
  end.

(** Cutting the last part of the path: the separators at the end, then up to the next one. *)
Definition cut_last (urlCheck : list Z) (len : nat) : list Z :=
  let '(urlCheck, n) := zero_back is_sep urlCheck len in
  (zero_back (fun c => negb (is_sep c)) urlCheck n).1.

(** [while (len && !urlRet)], [urlCheck] with its NUL. *)
Fixpoint limit_loop (fuel : nat) (d : D) (urlCheck : list Z) : option cptr :=
  match fuel with
  | O => None
  | S fuel =>
      s ← cstr urlCheck;
      if bool_decide (s = []) then Some None
      else
        e ← umAccessLimitExists d (Some s);
        if negb (e =? 0) then
          urlRet ← bstrdup s;
          Some (Some urlRet)
        else limit_loop fuel d (cut_last urlCheck (length s))
  end.

(** Every round shortens the string. *)
Definition umGetAccessLimit (d : D) (url : cptr) : option cptr :=
  urlCheck ← bstrdup_ptr bstrdup url;
  limit_loop (S (length urlCheck)) d (urlCheck ++ [0]).

Definition umGetAccessMethodForURL (d : D) (url : cptr) : option Z :=
  urlHavingLimit ← umGetAccessLimit d url;
  match urlHavingLimit with
  | Some _ =>
      group ← umGetAccessLimitGroup d urlHavingLimit;
      if nonempty group then umGetGroupAccessMethod d group
      else umGetAccessLimitMethod d urlHavingLimit
  | None => Some AM_FULL
  end.

Definition umUserCanAccessURL (d : D) (user url : cptr) : option Z :=
  e ← umUserExists d user;
  if e =? 0 then Some 0
  else
    en ← umGetUserEnabled d user;
    if en =? 0 then Some 0
    else
      usergroup ← umGetUserGroup d user;
      priv ← umGetGroupPrivilege d usergroup;
      if priv =? 0 then Some 0
      else
        ge ← umGetGroupEnabled d usergroup;
        if ge =? 0 then Some 0
        else
          gam ← umGetGroupAccessMethod d usergroup;
          if gam =? AM_NONE then Some 0
          else
            urlHavingLimit ← umGetAccessLimit d url;
            match urlHavingLimit with
            | None => Some 1
            | Some _ =>
                amURL ← umGetAccessLimitMethod d urlHavingLimit;
                group ← umGetAccessLimitGroup d urlHavingLimit;
                if amURL =? AM_NONE then Some 0
                else
                  match group, usergroup with
                  | Some g, Some ug => if nonempty group && negb (strcmp g ug =? 0) then Some 0 else Some 1
                  | _, _ => Some 1
                  end
            end.

(** ** Opening and closing *)

(** The variables of the module. *)
Record um : Type := mkUm {
  didUM : Z;
  saveFilename : cptr;
  umOpenCount : Z;
  um_db : D
}.

Definition umOpen (s : um) : option (Z * um) :=
  let s := mkUm (didUM s) (saveFilename s) (s32 (umOpenCount s + 1)) (um_db s) in
  if negb (umOpenCount s =? 1) then Some (didUM s, s)
  else
    s ← (if didUM s =? -1 then
           let '(did, d) := dbOpen (um_db s) in
           '(_, d) ← dbRegisterDBSchema d userTable;
           '(_, d) ← dbRegisterDBSchema d groupTable;
           '(_, d) ← dbRegisterDBSchema d accessTable;
           Some (mkUm did (saveFilename s) (umOpenCount s) d)
         else Some s);
    let s := match saveFilename s with
             | None => mkUm (didUM s) (bstrdup UM_TXT_FILENAME) (umOpenCount s) (um_db s)
             | Some _ => s
             end in
    Some (didUM s, s).

Definition umClose (s : um) : option um :=
  let s := mkUm (didUM s) (saveFilename s) (s32 (umOpenCount s - 1)) (um_db s) in
  if 0 <? umOpenCount s then Some s
  else
    s ← (if negb (didUM s =? -1) then
           d ← dbClose (um_db s);
           Some (mkUm (-1) (saveFilename s) (umOpenCount s) d)
         else Some s);
    Some (mkUm (didUM s) None (umOpenCount s) (um_db s)).
End Um.
