(* ===== verification/UmSpec.v ===== *)
(** * What the user management promises

    [ums] is the abstract state: users, groups and access limits as records, in the slots
    of their tables.  [s_op] says what every function of the module returns and does to
    it; [um_refines] proves that the code does that on any database that keeps the
    laws of [DbIface]. *)

From S2P Require Import Prelude CString DbIface Um.
#[local] Open Scope Z_scope.
#[local] Open Scope cint_scope.

(** ** The abstract state *)

(** A password is stored as it is encrypted. *)
Record user : Type := mkUser { u_name : list Z; u_pass : list Z; u_group : list Z; u_prot : Z; u_disable : Z }.
Record group : Type := mkGroup { g_name : list Z; g_priv : Z; g_method : Z; g_prot : Z; g_disable : Z }.
Record limit : Type := mkLimit { l_url : list Z; l_method : Z; l_secure : Z; l_group : list Z }.

Record ums : Type := mkUms {
  users : list (option user);
  groups : list (option group);
  limits : list (option limit)
}.

(** A table of the database whose rows are the records of type [A]. *)
Class Table (A : Type) : Type := {
  tsch : schema;
  key : A -> list Z;
  enc : A -> list cell;
  tget : ums -> list (option A);
  tput : ums -> list (option A) -> ums
}.

#[export] Instance user_table : Table user := {|
  tsch := userTable;
  key := u_name;
  enc u := [CStr (u_name u); CStr (u_pass u); CStr (u_group u); CInt (u_prot u); CInt (u_disable u)];
  tget := users;
  tput s l := mkUms l (groups s) (limits s)
|}.
#[export] Instance group_table : Table group := {|
  tsch := groupTable;
  key := g_name;
  enc g := [CStr (g_name g); CInt (g_priv g); CInt (g_method g); CInt (g_prot g); CInt (g_disable g)];
  tget := groups;
  tput s l := mkUms (users s) l (limits s)
|}.
#[export] Instance limit_table : Table limit := {|
  tsch := accessTable;
  key := l_url;
  enc l := [CStr (l_url l); CInt (l_method l); CInt (l_secure l); CStr (l_group l)];
  tget := limits;
  tput s l := mkUms (users s) (groups s) l
|}.

Definition view {A} `{Table A} (l : list (option A)) : tview :=
  mkView (sch_name tsch) (sch_cols tsch) (map (fmap enc) l).

(** The database that stores it. *)
Definition adb_of (s : ums) : list tview := [view (users s); view (groups s); view (limits s)].

(** ** Finding records *)

(** The slot of the first record that satisfies [p]. *)
Definition find_by {A} (p : A -> bool) (l : list (option A)) : option nat :=
  findi (fun s => match s with Some a => p a | None => false end) l.

Definition find_key {A} `{Table A} (k : list Z) (l : list (option A)) : option nat :=
  find_by (fun a => bool_decide (key a = k)) l.

(** The record with a key. *)
Definition with_key {A} `{Table A} (s : ums) (k : list Z) : option A :=
  r ← find_key k (tget s); mjoin (tget s !! r).

(** Changing the record with a key. *)
Definition update {A} `{Table A} (s : ums) (k : list Z) (f : A -> A) : option ums :=
  r ← find_key k (tget s); Some (tput s (alter (fmap f) r (tget s))).

Definition insert {A} `{Table A} (s : ums) (a : A) : ums :=
  tput s (fill_slot (tget s) (free_slot (tget s)) a).

Definition remove {A} `{Table A} (s : ums) (k : list Z) : option ums :=
  r ← find_key k (tget s); Some (tput s (trim (<[r := None]> (tget s)))).

(** The keys in the order of the rows. *)
Definition keys {A} `{Table A} (s : ums) : list (list Z) := map key (omap id (tget s)).

(** The first key that is not empty, and the next one after [k]. *)
Definition first_key (ks : list (list Z)) : option (list Z) :=
  i ← findi (fun k => bool_decide (k <> [])) ks; ks !! i.
Definition next_key (ks : list (list Z)) (k : list Z) : option (list Z) :=
  i ← findi (fun k' => bool_decide (k' = k)) ks;
  first_key (filter (fun k' => k' <> k) (drop (S i) ks)).

(** ** The access decision *)

(** The part of the path before its last component, with its separator. *)
Fixpoint dropwhile_back (f : Z -> bool) (s : list Z) : list Z :=
  match s with
  | [] => []
  | c :: s => match dropwhile_back f s with [] => if f c then [] else [c] | s' => c :: s' end
  end.

Definition parent (s : list Z) : list Z :=
  dropwhile_back (fun c => negb (is_sep c)) (dropwhile_back is_sep s).

(** The nearest of the URL and its parents that has a limit. *)
Fixpoint nearest_in (fuel : nat) (s : ums) (url : list Z) : option limit :=
  match fuel, url with
  | O, _ | _, [] => None
  | S fuel, _ => match with_key s url with
                 | Some l => Some l
                 | None => nearest_in fuel s (parent url)
                 end
  end.
Definition nearest (s : ums) (url : list Z) : option limit := nearest_in (length url) s url.

Definition can_access (s : ums) (u url : list Z) : bool :=
  match with_key s u : option user with
  | None => false
  | Some u =>
      (u_disable u =? 0) &&
      match with_key s (u_group u) : option group with
      | None => false
      | Some g =>
          negb (s16 (g_priv g) =? 0) && (g_disable g =? 0) && negb (g_method g =? AM_NONE) &&
          match nearest s url with
          | None => true
          | Some l => negb (l_method l =? AM_NONE) &&
                      (bool_decide (l_group l = []) || bool_decide (l_group l = u_group u))
          end
      end
  end.

Definition method_for_url (s : ums) (url : list Z) : Z :=
  match nearest s url with
  | None => AM_FULL
  | Some l => match l_group l with
              | [] => l_method l
              | _ => match with_key s (l_group l) : option group with
                     | Some g => g_method g
                     | None => AM_INVALID
                     end
              end
  end.

(** ** The functions of the module *)

Inductive umop : Type :=
| AddUser (u pass g : list Z) (prot disabled : Z) | DeleteUser (u : list Z) | UserExists (u : list Z)
| FirstUser | NextUser (u : list Z)
| GetUserPassword (u : list Z) | SetUserPassword (u pass : list Z)
| GetUserGroup (u : list Z) | SetUserGroup (u g : list Z)
| GetUserEnabled (u : list Z) | SetUserEnabled (u : list Z) (z : Z)
| GetUserProtected (u : list Z) | SetUserProtected (u : list Z) (z : Z)
| AddGroup (g : list Z) (priv am prot disabled : Z) | DeleteGroup (g : list Z) | GroupExists (g : list Z)
| GetGroupInUse (g : list Z) | FirstGroup | NextGroup (g : list Z)
| GetGroupAccessMethod (g : list Z) | SetGroupAccessMethod (g : list Z) (z : Z)
| GetGroupPrivilege (g : list Z) | SetGroupPrivilege (g : list Z) (z : Z)
| GetGroupEnabled (g : list Z) | SetGroupEnabled (g : list Z) (z : Z)
| GetGroupProtected (g : list Z) | SetGroupProtected (g : list Z) (z : Z)
| AddAccessLimit (url : list Z) (am secure : Z) (g : cptr) | DeleteAccessLimit (url : list Z)
| AccessLimitExists (url : list Z) | FirstAccessLimit | NextAccessLimit (url : list Z)
| GetAccessLimitMethod (url : list Z) | SetAccessLimitMethod (url : list Z) (z : Z)
| GetAccessLimitSecure (url : list Z) | SetAccessLimitSecure (url : list Z) (z : Z)
| GetAccessLimitGroup (url : list Z) | SetAccessLimitGroup (url : list Z) (g : cptr)
| GetAccessLimit (url : list Z) | GetAccessMethodForURL (url : list Z)
| UserCanAccessURL (u url : list Z).

(** A number or a pointer. *)
Inductive ures : Type := RInt (z : Z) | RStr (p : cptr).

(** The strings of a call are C strings. *)
Definition op_ok (op : umop) : Prop :=
  match op with
  | AddUser u pass g _ _ => no_nul u /\ no_nul pass /\ no_nul g
  | SetUserPassword _ pass => no_nul pass
  | SetUserGroup _ g | AddGroup g _ _ _ _ => no_nul g
  | AddAccessLimit url _ _ g => no_nul url /\ no_nul (default [] g)
  | SetAccessLimitGroup _ g => no_nul (default [] g)
  | GetAccessLimit url | GetAccessMethodForURL url | UserCanAccessURL _ url => no_nul url
  | _ => True
  end.

(** What an operation returns and the state after it; [mem] tells whether there is memory
    for a new row. *)
Definition s_op (mem : bool) (s : ums) (op : umop) : ures * ums :=
  let get {A} `{Table A} (k : list Z) (f : A -> ures) (dflt : ures) : ures * ums :=
    (match with_key s k with Some a => f a | None => dflt end, s) in
  let set (o : option ums) : ures * ums :=
    match o with Some s' => (RInt 0, s') | None => (RInt UM_ERR_NOT_FOUND, s) end in
  let exists_ {A} `{Table A} (k : list Z) : bool := bool_decide (is_Some (with_key s k : option A)) in
  let err z := (RInt z, s) in
  let in_use g := bool_decide (is_Some (find_by (fun u => bool_decide (u_group u = g)) (users s))) ||
                  bool_decide (is_Some (find_by (fun l => bool_decide (l_group l = g)) (limits s))) in
  match op with
  | AddUser u pass g prot disabled =>
      if exists_ (A := user) u then err UM_ERR_DUPLICATE
      else if negb (umCheckName (Some u)) then err UM_ERR_BAD_NAME
      else if negb (umCheckName (Some pass)) then err UM_ERR_BAD_PASSWORD
      else if negb (exists_ (A := group) g) then err UM_ERR_NOT_FOUND
      else if negb mem then err UM_ERR_GENERAL
      else (RInt 0, insert s (mkUser u (umEncryptString pass).1 g prot disabled))
  | DeleteUser u =>
      match with_key s u : option user with
      | None => err UM_ERR_NOT_FOUND
      | Some a => if negb (s16 (u_prot a) =? 0) then err UM_ERR_PROTECTED else set (remove (A := user) s u)
      end
  | UserExists u => err (bool_t (exists_ (A := user) u))
  | FirstUser => (RStr (first_key (keys (A := user) s)), s)
  | NextUser u => (RStr (next_key (keys (A := user) s) u), s)
  | GetUserPassword u => get u (fun a => RStr (Some (umEncryptString (u_pass a)).1)) (RStr None)
  | SetUserPassword u pass => set (update s u (fun a => a <| u_pass := (umEncryptString pass).1 |>))
  | GetUserGroup u => get u (fun a => RStr (Some (u_group a))) (RStr None)
  | SetUserGroup u g => set (update s u (fun a => a <| u_group := g |>))
  | GetUserEnabled u => get u (fun a => RInt (bool_t (u_disable a =? 0))) (RInt 0)
  | SetUserEnabled u z => set (update s u (fun a => a <| u_disable := bool_t (z =? 0) |>))
  | GetUserProtected u => get u (fun a => RInt (s16 (u_prot a))) (RInt 0)
  | SetUserProtected u z => set (update s u (fun a => a <| u_prot := z |>))
  | AddGroup g priv am prot disabled =>
      if exists_ (A := group) g then err UM_ERR_DUPLICATE
      else if negb (umCheckName (Some g)) then err UM_ERR_BAD_NAME
      else if negb mem then err UM_ERR_GENERAL
      else (RInt 0, insert s (mkGroup g priv am prot disabled))
  | DeleteGroup g =>
      if in_use g then err UM_ERR_IN_USE
      else match with_key s g : option group with
           | None => err UM_ERR_NOT_FOUND
           | Some a => if negb (s16 (g_prot a) =? 0) then err UM_ERR_PROTECTED
                       else set (remove (A := group) s g)
           end
  | GroupExists g => err (bool_t (exists_ (A := group) g))
  | GetGroupInUse g => err (bool_t (in_use g))
  | FirstGroup => (RStr (first_key (keys (A := group) s)), s)
  | NextGroup g => (RStr (next_key (keys (A := group) s) g), s)
  | GetGroupAccessMethod g => get g (fun a => RInt (g_method a)) (RInt AM_INVALID)
  | SetGroupAccessMethod g z => set (update s g (fun a => a <| g_method := z |>))
  | GetGroupPrivilege g => get g (fun a => RInt (s16 (g_priv a))) (RInt (-1))
  | SetGroupPrivilege g z => set (update s g (fun a => a <| g_priv := z |>))
  | GetGroupEnabled g => get g (fun a => RInt (bool_t (g_disable a =? 0))) (RInt 0)
  | SetGroupEnabled g z => set (update s g (fun a => a <| g_disable := bool_t (z =? 0) |>))
  | GetGroupProtected g => get g (fun a => RInt (s16 (g_prot a))) (RInt 0)
  | SetGroupProtected g z => set (update s g (fun a => a <| g_prot := z |>))
  | AddAccessLimit url am secure g =>
      if exists_ (A := limit) url then err UM_ERR_DUPLICATE
      else if negb mem then err UM_ERR_GENERAL
      else (RInt 0, insert s (mkLimit url am secure (default [] g)))
  | DeleteAccessLimit url => set (remove (A := limit) s url)
  | AccessLimitExists url => err (bool_t (exists_ (A := limit) url))
  | FirstAccessLimit => (RStr (first_key (keys (A := limit) s)), s)
  | NextAccessLimit url => (RStr (next_key (keys (A := limit) s) url), s)
  | GetAccessLimitMethod url => get url (fun a => RInt (l_method a)) (RInt AM_INVALID)
  | SetAccessLimitMethod url z => set (update s url (fun a => a <| l_method := z |>))
  | GetAccessLimitSecure url => get url (fun a => RInt (s16 (l_secure a))) (RInt (-1))
  | SetAccessLimitSecure url z => set (update s url (fun a => a <| l_secure := z |>))
  | GetAccessLimitGroup url => get url (fun a => RStr (Some (l_group a))) (RStr None)
  | SetAccessLimitGroup url g => set (update s url (fun a => a <| l_group := default [] g |>))
  | GetAccessLimit url => (RStr (l_url <$> nearest s url), s)
  | GetAccessMethodForURL url => err (method_for_url s url)
  | UserCanAccessURL u url => err (bool_t (can_access s u url))
  end.

(** The calls of the code. *)
Section Calls.
Context {D : Type} `{Database D} (bstrdup : list Z -> cptr).

Definition ri (d : D) (r : option Z) : option (ures * D) := z ← r; Some (RInt z, d).
Definition rp (d : D) (r : option cptr) : option (ures * D) := p ← r; Some (RStr p, d).
Definition rw (r : option (Z * D)) : option (ures * D) := '(z, d) ← r; Some (RInt z, d).

Definition do_um (fuel : nat) (d : D) (op : umop) : option (ures * D) :=
  match op with
  | AddUser u pass g prot disabled => rw (umAddUser bstrdup d (Some u) (Some pass) (Some g) prot disabled)
  | DeleteUser u => rw (umDeleteUser d (Some u))
  | UserExists u => ri d (umUserExists d (Some u))
  | FirstUser => rp d (umGetFirstUser fuel d)
  | NextUser u => rp d (umGetNextUser fuel d u)
  | GetUserPassword u => rp d (umGetUserPassword bstrdup d (Some u))
  | SetUserPassword u pass => rw (umSetUserPassword bstrdup d (Some u) (Some pass))
  | GetUserGroup u => rp d (umGetUserGroup d (Some u))
  | SetUserGroup u g => rw (umSetUserGroup d (Some u) (Some g))
  | GetUserEnabled u => ri d (umGetUserEnabled d (Some u))
  | SetUserEnabled u z => rw (umSetUserEnabled d (Some u) z)
  | GetUserProtected u => ri d (umGetUserProtected d (Some u))
  | SetUserProtected u z => rw (umSetUserProtected d (Some u) z)
  | AddGroup g priv am prot disabled => rw (umAddGroup d (Some g) priv am prot disabled)
  | DeleteGroup g => rw (umDeleteGroup d (Some g))
  | GroupExists g => ri d (umGroupExists d (Some g))
  | GetGroupInUse g => ri d (umGetGroupInUse d (Some g))
  | FirstGroup => rp d (umGetFirstGroup fuel d)
  | NextGroup g => rp d (umGetNextGroup fuel d g)
  | GetGroupAccessMethod g => ri d (umGetGroupAccessMethod d (Some g))
  | SetGroupAccessMethod g z => rw (umSetGroupAccessMethod d (Some g) z)
  | GetGroupPrivilege g => ri d (umGetGroupPrivilege d (Some g))
  | SetGroupPrivilege g z => rw (umSetGroupPrivilege d (Some g) z)
  | GetGroupEnabled g => ri d (umGetGroupEnabled d (Some g))
  | SetGroupEnabled g z => rw (umSetGroupEnabled d (Some g) z)
  | GetGroupProtected g => ri d (umGetGroupProtected d (Some g))
  | SetGroupProtected g z => rw (umSetGroupProtected d (Some g) z)
  | AddAccessLimit url am secure g => rw (umAddAccessLimit d (Some url) am secure g)
  | DeleteAccessLimit url => rw (umDeleteAccessLimit d (Some url))
  | AccessLimitExists url => ri d (umAccessLimitExists d (Some url))
  | FirstAccessLimit => rp d (umGetFirstAccessLimit fuel d)
  | NextAccessLimit url => rp d (umGetNextAccessLimit fuel d url)
  | GetAccessLimitMethod url => ri d (umGetAccessLimitMethod d (Some url))
  | SetAccessLimitMethod url z => rw (umSetAccessLimitMethod d (Some url) z)
  | GetAccessLimitSecure url => ri d (umGetAccessLimitSecure d (Some url))
  | SetAccessLimitSecure url z => rw (umSetAccessLimitSecure d (Some url) z)
  | GetAccessLimitGroup url => rp d (umGetAccessLimitGroup d (Some url))
  | SetAccessLimitGroup url g => rw (umSetAccessLimitGroup d (Some url) g)
  | GetAccessLimit url => rp d (umGetAccessLimit bstrdup d (Some url))
  | GetAccessMethodForURL url => ri d (umGetAccessMethodForURL bstrdup d (Some url))
  | UserCanAccessURL u url => ri d (umUserCanAccessURL bstrdup d (Some u) (Some url))
  end.

Fixpoint run_um (fuel : nat) (d : D) (ops : list umop) : option (list ures * D) :=
  match ops with
  | [] => Some ([], d)
  | op :: ops => '(r, d) ← do_um fuel d op; '(rs, d) ← run_um fuel d ops; Some (r :: rs, d)
  end.
End Calls.

(** A run of the specification; [mems] tells for every operation whether there is memory. *)
Fixpoint s_run (s : ums) (ops : list (bool * umop)) : list ures * ums :=
  match ops with
  | [] => ([], s)
  | (mem, op) :: ops => let '(r, s) := s_op mem s op in let '(rs, s) := s_run s ops in (r :: rs, s)
  end.

(** ** Tables of records *)

Class TableLaws (A : Type) `{Table A} : Prop := {
  t_cols : map fst (sch_cols tsch) !! 0%nat = Some UM_NAME;
  t_key a : enc a !! 0%nat = Some (CStr (key a));
  t_len a : length (enc a) = length (sch_cols (tsch (A := A)));
  t_type : snd <$> sch_cols (tsch (A := A)) !! 0%nat = Some T_STRING;
  t_getput s l : tget (tput s l) = l;
  t_view s : exists idx, table_at (adb_of s) (sch_name tsch) = Some (idx, view (tget s)) /\
    (forall l, adb_of (tput s l) = <[idx := view l]> (adb_of s))
}.

#[export] Instance user_laws : TableLaws user.
Proof. split; try done. intros s. by exists 0%nat. Qed.
#[export] Instance group_laws : TableLaws group.
Proof. split; try done. intros s. by exists 1%nat. Qed.
#[export] Instance limit_laws : TableLaws limit.
Proof. split; try done. intros s. by exists 2%nat. Qed.

Lemma findi_ext {A} (f g : A -> bool) l : (forall x, f x = g x) -> findi f l = findi g l.
Proof. intros E. induction l as [|x l IH]; cbn; [done|]. by rewrite E, IH. Qed.

Lemma find_by_Some {A} (p : A -> bool) l r : find_by p l = Some r ->
  exists a, l !! r = Some (Some a) /\ p a = true.
Proof.
  intros (x & Hx & Hp & _)%findi_Some. destruct x as [a|]; [|done]. by exists a.
Qed.

Lemma row_at_view {A} `{Table A} (l : list (option A)) (r : nat) :
  row_at (view l) (Z.of_nat r) = enc <$> mjoin (l !! r).
Proof.
  unfold row_at. replace (0 <=? Z.of_nat r) with true by zb. rewrite Nat2Z.id. cbn [view tv_slots].
  rewrite list_lookup_fmap. by destruct (l !! r) as [[a|]|].
Qed.

Lemma trim_map {A B} (f : A -> B) (l : list (option A)) : trim (map (fmap f) l) = map (fmap f) (trim l).
Proof.
  induction l as [|[a|] l IH]; cbn [map trim fmap option_fmap option_map]; [done|by rewrite IH|].
  rewrite IH. by destruct (trim l).
Qed.

Lemma free_slot_map {A B} (f : A -> B) (l : list (option A)) : free_slot (map (fmap f) l) = free_slot l.
Proof.
  unfold free_slot. rewrite findi_map, length_map. f_equal. apply findi_ext. by intros [].
Qed.

Lemma fill_slot_map {A B} (f : A -> B) l n a : map (fmap f) (fill_slot l n a) = fill_slot (map (fmap f) l) n (f a).
Proof.
  unfold fill_slot. rewrite length_map. case_decide; [by rewrite list_fmap_insert|by rewrite map_app].
Qed.

Lemma free_slot_le {A} (l : list (option A)) : (free_slot l <= length l)%nat.
Proof.
  unfold free_slot. destruct (findi is_hole l) as [k|] eqn:E; cbn; [|lia]. apply findi_lt in E. lia.
Qed.

(** The slot that was filled. *)
Lemma fill_slot_at {A} (l : list (option A)) a : fill_slot l (free_slot l) a !! free_slot l = Some (Some a).
Proof.
  pose proof (free_slot_le l). unfold fill_slot. case_decide as Hn; [by apply list_lookup_insert_eq|].
  replace (free_slot l) with (length l) by lia. by apply list_lookup_middle.
Qed.

Lemma fill_slot_alter {A} (f : A -> A) (l : list (option A)) a :
  alter (fmap f) (free_slot l) (fill_slot l (free_slot l) a) = fill_slot l (free_slot l) (f a).
Proof.
  pose proof (free_slot_le l). unfold fill_slot. case_decide as Hn.
  - apply list_eq. intros i. destruct (decide (i = free_slot l)) as [->|Hne].
    + by rewrite list_lookup_alter_eq, !list_lookup_insert_eq by done.
    + by rewrite list_lookup_alter_ne, !list_lookup_insert_ne by done.
  - replace (free_slot l) with (length l + 0)%nat by lia. by rewrite alter_app_r.
Qed.

Lemma length_fill {A} (l : list (option A)) a :
  (length l <= length (fill_slot l (free_slot l) a) <= S (length l))%nat /\
  (free_slot l < length (fill_slot l (free_slot l) a))%nat.
Proof.
  pose proof (free_slot_le l). unfold fill_slot. case_decide; rewrite ?length_insert, ?length_app; cbn; lia.
Qed.

(** ** The database under the records *)

Section Refinement.
Context {D : Type} `{DatabaseLaws D} (bstrdup : list Z -> cptr).
(** There is memory for strings. *)
Hypothesis bstrdup_ok : forall s, bstrdup s = Some s.

(** [d] stores [s]. *)
Definition um_rep (d : D) (s : ums) : Prop := db_rep d (adb_of s).

Section Rows.
Context {A : Type} `{TableLaws A}.
Implicit Types (s : ums) (a : A) (r : nat).

Lemma search_by s d c j ty value (p : A -> bool) : um_rep d s ->
  col_at (view (tget (A := A) s)) c = Some j -> snd <$> sch_cols (tsch (A := A)) !! j = Some ty -> ty <> T_INT ->
  (forall a, match enc a !! j with Some (CStr x) => bool_decide (x = value) | _ => false end = p a) ->
  dbSearchStr d (Some (sch_name (tsch (A := A)))) (Some c) (Some value) 0 =
    Some (match find_by p (tget s) with Some r => Z.of_nat r | None => -1 end).
Proof using Type*.
  intros Hr Hc Hty Hne Hp. destruct (t_view s) as (idx & Ht & _).
  assert (Hct : col_type (adb_of s) (sch_name (tsch (A := A))) c = Some ty).
  { unfold col_type. rewrite Ht. cbn [mbind option_bind]. rewrite Hc. cbn [mbind option_bind]. exact Hty. }
  rewrite (db_search_ok d (adb_of s)) by (done || congruence).
  unfold a_search. rewrite Ht, Hc. do 2 f_equal. cbn [view tv_slots]. unfold find_by.
  rewrite findi_map. erewrite findi_ext; [reflexivity|].
  intros [a|]; [|done]. unfold slot_has. cbn [fmap option_fmap option_map mbind option_bind].
  rewrite <- Hp. destruct (enc a !! j) as [[]|]; done.
Qed.

Lemma name_col (l : list (option A)) : col_at (view l) UM_NAME = Some 0%nat.
Proof using Type*.
  unfold col_at. cbn [view tv_cols]. pose proof t_cols as Hc. destruct (sch_cols tsch) as [|[nm ty] cols]; [done|].
  injection Hc as ->. cbn [findi fst]. by rewrite bool_decide_true.
Qed.

Lemma search_key s d k : um_rep d s ->
  dbSearchStr d (Some (sch_name (tsch (A := A)))) (Some UM_NAME) (Some k) 0 =
    Some (match find_key (A := A) k (tget s) with Some r => Z.of_nat r | None => -1 end).
Proof using Type*.
  intros Hr. apply (search_by s d UM_NAME 0 T_STRING); [done|apply name_col|apply t_type|done|].
  intros a. by rewrite t_key.
Qed.

Lemma key_cases s k :
  (exists r a, find_key k (tget s) = Some r /\ tget s !! r = Some (Some a) /\ with_key s k = Some a /\ key a = k) \/
  find_key (A := A) k (tget s) = None /\ with_key (A := A) s k = None.
Proof using Type.
  unfold with_key. destruct (find_key k (tget s)) as [r|] eqn:E; [left|by right].
  destruct (find_by_Some _ _ _ E) as (a & Ha & Hk). exists r, a. apply bool_decide_eq_true in Hk.
  split_and!; [done|done| |done]. cbn. by rewrite Ha.
Qed.

Lemma read_at s d r c j : um_rep d s -> col_at (view (tget (A := A) s)) c = Some j ->
  (r < length (tget (A := A) s))%nat ->
  a_read (adb_of s) (sch_name (tsch (A := A))) c (Z.of_nat r) =
    match mjoin (tget (A := A) s !! r) with Some a => (0, enc a !! j) | None => (DB_ERR_ROW_DELETED, None) end.
Proof using Type*.
  intros Hr Hc Hlt. destruct (t_view s) as (idx & Ht & _). unfold a_read. rewrite Ht.
  replace ((0 <=? Z.of_nat r) && (Z.of_nat r <? zlen (tv_slots (view (tget s))))) with true
    by (cbn [view tv_slots]; rewrite length_map; symmetry; apply andb_true_intro; split; zb).
  rewrite Hc, row_at_view. by destruct (mjoin (tget s !! r)).
Qed.

Lemma read_int s d r a c j x : um_rep d s -> tget s !! r = Some (Some a) ->
  col_at (view (tget (A := A) s)) c = Some j -> enc a !! j = Some x ->
  dbReadInt d (Some (sch_name (tsch (A := A)))) (Some c) (Z.of_nat r) = Some (0, Some x).
Proof using Type*.
  intros Hr Ha Hc Hx. rewrite (db_readint_ok _ _ _ _ _ Hr), (read_at s d r c j) by (done || by eapply lookup_lt_Some).
  rewrite Ha. cbn. by rewrite Hx.
Qed.

Lemma read_str s d r a c j x : um_rep d s -> tget s !! r = Some (Some a) ->
  col_at (view (tget (A := A) s)) c = Some j -> enc a !! j = Some x ->
  dbReadStr d (Some (sch_name (tsch (A := A)))) (Some c) (Z.of_nat r) = Some (0, Some x).
Proof using Type*.
  intros Hr Ha Hc Hx. rewrite (db_readstr_ok _ _ _ _ _ Hr), (read_at s d r c j) by (done || by eapply lookup_lt_Some).
  rewrite Ha. cbn. by rewrite Hx.
Qed.

(** The name in a row, whatever the row is. *)
Lemma read_name s d r : um_rep d s ->
  dbReadStr d (Some (sch_name (tsch (A := A)))) (Some UM_NAME) (Z.of_nat r) =
    Some (match tget (A := A) s !! r with
          | Some (Some a) => (0, Some (CStr (key a)))
          | Some None => (DB_ERR_ROW_DELETED, None)
          | None => (DB_ERR_ROW_NOT_FOUND, None)
          end).
Proof using Type*.
  intros Hr. rewrite (db_readstr_ok _ _ _ _ _ Hr). destruct (tget s !! r) as [o|] eqn:Er.
  - rewrite (read_at s d r _ _ Hr (name_col _)) by (by eapply lookup_lt_Some).
    rewrite Er. destruct o as [a|]; cbn; [by rewrite t_key|done].
  - apply lookup_ge_None in Er. destruct (t_view s) as (idx & Ht & _). unfold a_read. rewrite Ht.
    replace ((0 <=? Z.of_nat r) && (Z.of_nat r <? zlen (tv_slots (view (tget s))))) with false; [done|].
    cbn [view tv_slots]. rewrite length_map. symmetry. apply andb_false_intro2. zb.
Qed.

(** *** Changing a record *)

Lemma put_view (l : list (option A)) r j c f : (forall a, <[j := c]> (enc a) = enc (f a)) ->
  put_cell (view l) (Z.of_nat r) j c = view (alter (fmap f) r l).
Proof using Type.
  intros Hf. unfold put_cell, set_slots, view. cbn [tv_name tv_cols tv_slots]. f_equal. rewrite Nat2Z.id.
  apply list_eq. intros i. destruct (decide (i = r)) as [->|Hne].
  - rewrite list_lookup_alter_eq, !list_lookup_fmap, list_lookup_alter_eq.
    destruct (l !! r) as [[a|]|]; [|done|done]. cbn. by rewrite Hf.
  - by rewrite list_lookup_alter_ne, !list_lookup_fmap, list_lookup_alter_ne.
Qed.

Lemma write_at s r a c j ty x f : tget s !! r = Some (Some a) ->
  col_at (view (tget (A := A) s)) c = Some j -> snd <$> sch_cols (tsch (A := A)) !! j = Some ty ->
  (match x with CInt _ => True | CStr _ => ty = T_STRING end) ->
  (forall a, <[j := x]> (enc a) = enc (f a)) ->
  a_write (adb_of s) (sch_name (tsch (A := A))) c (Z.of_nat r) x =
    (0, adb_of (tput s (alter (fmap f) r (tget s)))).
Proof using Type*.
  intros Ha Hc Hty Hx Hf. destruct (t_view s) as (idx & Ht & Hput). unfold a_write. rewrite Ht, Hc.
  cbn [view tv_cols]. rewrite Hty.
  replace (match x with CInt _ => _ | CStr _ => _ end) with
    (0, adb_of (tput s (alter (fmap f) r (tget s)))); [done|].
  assert (Hlt : (r < length (tget s))%nat) by (by eapply lookup_lt_Some).
  replace ((0 <=? Z.of_nat r) && (Z.of_nat r <? zlen (tv_slots (view (tget s))))) with true
    by (cbn [view tv_slots]; rewrite length_map; symmetry; apply andb_true_intro; split; zb).
  rewrite row_at_view, Ha. cbn [mjoin option_join fmap option_fmap option_map].
  rewrite (put_view _ _ _ _ f Hf), <- Hput. destruct x; [done|]. subst ty. done.
Qed.

Lemma write_int s d r a c j z f : um_rep d s -> tget s !! r = Some (Some a) ->
  col_at (view (tget (A := A) s)) c = Some j -> snd <$> sch_cols (tsch (A := A)) !! j = Some T_INT ->
  (forall a, <[j := CInt z]> (enc a) = enc (f a)) ->
  exists d', dbWriteInt d (Some (sch_name (tsch (A := A)))) (Some c) (Z.of_nat r) z = Some (0, d') /\
    um_rep d' (tput s (alter (fmap f) r (tget s))).
Proof using Type*.
  intros Hr Ha Hc Hty Hf. destruct (t_view s) as (idx & Ht & _).
  destruct (db_writeint_ok d (adb_of s) (sch_name (tsch (A := A))) c (Z.of_nat r) z Hr) as (d' & E & Hr').
  { unfold col_type. rewrite Ht. cbn [mbind option_bind]. rewrite Hc. cbn [mbind option_bind view tv_cols].
    by rewrite Hty. }
  rewrite (write_at s r a c j T_INT _ f) in E, Hr' by done. by exists d'.
Qed.

Lemma write_str s d r a c j p f : um_rep d s -> no_nul (default [] p) -> tget s !! r = Some (Some a) ->
  col_at (view (tget (A := A) s)) c = Some j -> snd <$> sch_cols (tsch (A := A)) !! j = Some T_STRING ->
  (forall a, <[j := CStr (default [] p)]> (enc a) = enc (f a)) ->
  exists d', dbWriteStr d (Some (sch_name (tsch (A := A)))) (Some c) (Z.of_nat r) p = Some (0, d') /\
    um_rep d' (tput s (alter (fmap f) r (tget s))).
Proof using Type*.
  intros Hr Hn Ha Hc Hty Hf.
  destruct (db_writestr_ok d (adb_of s) (sch_name (tsch (A := A))) c (Z.of_nat r) (default [] p) Hr Hn) as (d' & E & Hr').
  rewrite (write_at s r a c j T_STRING _ f) in E, Hr' by done. exists d'. split; [|done].
  destruct p; [exact E|]. rewrite db_writenull_ok. exact E.
Qed.

Lemma delete_at s d r a : um_rep d s -> tget (A := A) s !! r = Some (Some a) ->
  exists d', dbDeleteRow d (Some (sch_name (tsch (A := A)))) (Z.of_nat r) = Some (0, d') /\
    um_rep d' (tput s (trim (<[r := None]> (tget (A := A) s)))).
Proof using Type*.
  intros Hr Ha. destruct (t_view s) as (idx & Ht & Hput).
  destruct (db_delete_ok d (adb_of s) (sch_name (tsch (A := A))) (Z.of_nat r) Hr) as (d' & E & Hr').
  assert (Hlt : (r < length (tget (A := A) s))%nat) by (by eapply lookup_lt_Some).
  assert (Ed : a_delete (adb_of s) (sch_name (tsch (A := A))) (Z.of_nat r) =
    (0, adb_of (tput s (trim (<[r := None]> (tget (A := A) s)))))).
  { unfold a_delete. rewrite Ht.
    replace ((0 <=? Z.of_nat r) && (Z.of_nat r <? zlen (tv_slots (view (tget s))))) with true
      by (cbn [view tv_slots]; rewrite length_map; symmetry; apply andb_true_intro; split; zb).
    rewrite Hput. unfold set_slots. cbn [view tv_slots tv_name tv_cols]. rewrite Nat2Z.id.
    do 3 f_equal. unfold view. f_equal. rewrite <- trim_map. f_equal. by rewrite list_fmap_insert. }
  rewrite Ed in E, Hr'. by exists d'.
Qed.

(** *** A new row, while it is filled *)

(** The tables while the new row of [A] holds [cells]. *)
Definition raw s (cells : list cell) : list tview :=
  match table_at (adb_of s) (sch_name (tsch (A := A))) with
  | Some (idx, v) => <[idx := set_slots v (fun sl => fill_slot sl (free_slot sl) cells)]> (adb_of s)
  | None => adb_of s
  end.

Lemma raw_enc s a : raw s (enc a) = adb_of (insert s a).
Proof using Type*.
  destruct (t_view (A := A) s) as (idx & Ht & Hput). unfold raw, insert. rewrite Ht, Hput.
  f_equal. unfold set_slots, view. cbn [tv_name tv_cols tv_slots]. f_equal.
  by rewrite free_slot_map, fill_slot_map.
Qed.

Lemma add_row s d : um_rep d s ->
  exists (r : Z) d', dbAddRow d (Some (sch_name (tsch (A := A)))) = Some (r, d') /\
    (r = Z.of_nat (free_slot (tget (A := A) s)) /\
       db_rep d' (raw s (repeat (CInt 0) (length (sch_cols (tsch (A := A)))))) \/ r = -1 /\ um_rep d' s).
Proof using Type*.
  intros Hr. destruct (t_view (A := A) s) as (idx & Ht & Hput).
  destruct (db_add_ok d (adb_of s) (sch_name (tsch (A := A))) Hr) as (r & d' & E & Hcase).
  exists r, d'. split; [exact E|]. destruct Hcase as [[-> Hr']|[-> Hr']]; [left|by right].
  unfold raw. rewrite Ht. unfold a_add in *. rewrite Ht in *. cbn [fst snd view tv_slots tv_cols] in *.
  rewrite free_slot_map in *. split; [done|]. unfold set_slots in *. cbn [view tv_slots tv_name tv_cols] in *.
  by rewrite free_slot_map.
Qed.

Lemma raw_write s c j ty x cells : col_at (view (tget (A := A) s)) c = Some j ->
  snd <$> sch_cols (tsch (A := A)) !! j = Some ty -> (match x with CInt _ => True | CStr _ => ty = T_STRING end) ->
  a_write (raw s cells) (sch_name (tsch (A := A))) c (Z.of_nat (free_slot (tget (A := A) s))) x =
    (0, raw s (<[j := x]> cells)).
Proof using Type*.
  intros Hc Hty Hx. destruct (t_view (A := A) s) as (idx & Ht & Hput). unfold raw. rewrite Ht.
  pose proof (table_at_lookup _ _ _ _ Ht) as [Hv _].
  set (v' := set_slots (view (tget s)) _).
  assert (Hsl : tv_slots v' = fill_slot (map (fmap enc) (tget (A := A) s)) (free_slot (map (fmap enc) (tget (A := A) s))) cells)
    by done.
  unfold a_write. rewrite (table_at_insert _ _ _ _ v' Ht eq_refl).
  replace (col_at v' c) with (Some j) by (symmetry; exact Hc).
  replace (snd <$> tv_cols v' !! j) with (Some ty) by (symmetry; exact Hty).
  pose proof (fill_slot_at (map (fmap enc) (tget (A := A) s)) cells) as Hat. rewrite <- Hsl in Hat.
  replace (free_slot (map (fmap enc) (tget (A := A) s))) with (free_slot (tget (A := A) s)) in * by (by rewrite free_slot_map).
  set (n := free_slot (tget (A := A) s)) in *.
  replace (row_at v' (Z.of_nat n)) with (Some cells)
    by (unfold row_at; replace (0 <=? Z.of_nat n) with true by zb; by rewrite Nat2Z.id, Hat).
  replace ((0 <=? Z.of_nat n) && (Z.of_nat n <? zlen (tv_slots v'))) with true
    by (symmetry; apply andb_true_intro; apply lookup_lt_Some in Hat; split; zb).
  replace (match x with CInt _ => _ | CStr _ => _ end) with
    (0, <[idx := put_cell v' (Z.of_nat n) j x]> (<[idx := v']> (adb_of s))) by (destruct x; [done|by subst ty]).
  f_equal. rewrite list_insert_insert_eq. f_equal. unfold put_cell. rewrite Nat2Z.id.
  unfold v', set_slots. cbn [tv_name tv_cols tv_slots view]. f_equal.
  rewrite free_slot_map. fold n.
  pose proof (fill_slot_alter (<[j := x]>) (map (fmap enc) (tget (A := A) s)) cells) as E.
  by rewrite free_slot_map in E.
Qed.

Lemma raw_write_int s d c j z cells : db_rep d (raw s cells) -> col_at (view (tget (A := A) s)) c = Some j ->
  snd <$> sch_cols (tsch (A := A)) !! j = Some T_INT ->
  exists d', dbWriteInt d (Some (sch_name (tsch (A := A)))) (Some c) (Z.of_nat (free_slot (tget (A := A) s))) z =
      Some (0, d') /\ db_rep d' (raw s (<[j := CInt z]> cells)).
Proof using Type*.
  intros Hr Hc Hty. destruct (t_view (A := A) s) as (idx & Ht & _).
  destruct (db_writeint_ok d (raw s cells) (sch_name (tsch (A := A))) c (Z.of_nat (free_slot (tget (A := A) s))) z Hr)
    as (d' & E & Hr').
  { pose proof (table_at_lookup _ _ _ _ Ht) as [Hv _].
    rewrite (col_type_schema (raw s cells) (adb_of s)) by (unfold raw; rewrite Ht; by eapply schema_insert).
    unfold col_type. rewrite Ht. cbn [mbind option_bind]. rewrite Hc. cbn [mbind option_bind view tv_cols].
    by rewrite Hty. }
  rewrite (raw_write s c j T_INT (CInt z) cells Hc Hty I) in E, Hr'. by exists d'.
Qed.

Lemma raw_write_str s d c j p cells : db_rep d (raw s cells) -> no_nul (default [] p) ->
  col_at (view (tget (A := A) s)) c = Some j -> snd <$> sch_cols (tsch (A := A)) !! j = Some T_STRING ->
  exists d', dbWriteStr d (Some (sch_name (tsch (A := A)))) (Some c) (Z.of_nat (free_slot (tget (A := A) s))) p =
      Some (0, d') /\ db_rep d' (raw s (<[j := CStr (default [] p)]> cells)).
Proof using Type*.
  intros Hr Hn Hc Hty.
  destruct (db_writestr_ok d (raw s cells) (sch_name (tsch (A := A))) c (Z.of_nat (free_slot (tget (A := A) s))) _ Hr Hn)
    as (d' & E & Hr').
  rewrite (raw_write s c j T_STRING (CStr (default [] p)) cells Hc Hty eq_refl) in E, Hr'. exists d'. split; [|done].
  destruct p; [exact E|]. rewrite db_writenull_ok. exact E.
Qed.
End Rows.
End Refinement.
