(* ===== verification/UmRefine.v ===== *)
(** * The user management keeps its promise

    Every function of [Um] does what [s_op] of [UmSpec] says, on any database with the
    laws of [DbIface] and on the text-file database; what follows for unique names,
    passwords and the access decision. *)

From S2P Require Import Prelude Handles EmfDb EmfDbSpec CString DbIface Um UmSpec.
#[local] Open Scope Z_scope.
#[local] Open Scope cint_scope.

(** ** Keys in the order of the rows *)

Definition keys_of {A} `{Table A} (l : list (option A)) : list (list Z) := map key (omap id l).

Lemma keys_drop {A} `{Table A} (l : list (option A)) r :
  keys_of (drop r l) = match l !! r with
                       | Some (Some a) => key a :: keys_of (drop (S r) l)
                       | Some None => keys_of (drop (S r) l)
                       | None => []
                       end.
Proof.
  destruct (l !! r) as [o|] eqn:E.
  - rewrite (drop_S l o r E). by destruct o.
  - apply lookup_ge_None in E. by rewrite drop_ge by done.
Qed.

Lemma first_key_cons k ks : first_key (k :: ks) = match k with [] => first_key ks | _ => Some k end.
Proof.
  unfold first_key. cbn [findi]. destruct k as [|c k].
  - rewrite bool_decide_false by (by intros E). destruct (findi _ ks); done.
  - by rewrite bool_decide_true.
Qed.

Lemma next_key_split l1 k l2 : k ∉ l1 ->
  next_key (l1 ++ k :: l2) k = first_key (filter (fun k' => k' <> k) l2).
Proof.
  intros Hk. unfold next_key. assert (E : findi (fun k' => bool_decide (k' = k)) (l1 ++ k :: l2) = Some (length l1)).
  { apply findi_Some. exists k. split_and!; [by apply list_lookup_middle|by apply bool_decide_eq_true|].
    intros i y Hi Hy. rewrite lookup_app_l in Hy by done. apply bool_decide_eq_false. intros ->.
    apply Hk. by eapply list_elem_of_lookup_2. }
  rewrite E. cbn [mbind option_bind]. do 2 f_equal.
  replace (S (length l1)) with (length (l1 ++ [k])) by (rewrite length_app; cbn; lia).
  rewrite (app_assoc l1 [k] l2 : l1 ++ k :: l2 = (l1 ++ [k]) ++ l2). by rewrite drop_app_length.
Qed.

Lemma next_key_none ks k : k ∉ ks -> next_key ks k = None.
Proof.
  intros Hk. unfold next_key. replace (findi _ ks) with (@None nat); [done|]. symmetry. apply findi_None.
  apply Forall_forall. intros k' Hk'%list_elem_of_In. apply bool_decide_eq_false. intros E. by subst k'.
Qed.

Lemma strcmp_eqb a b : (strcmp a b =? 0) = bool_decide (a = b).
Proof.
  destruct (decide (a = b)) as [->|Hn].
  - rewrite bool_decide_true by done. apply Z.eqb_eq. by apply strcmp_eq.
  - rewrite bool_decide_false by done. apply Z.eqb_neq. by rewrite strcmp_eq.
Qed.

(** The names of the tables as those of their records. *)
Ltac table_names :=
  change UM_USER_TABLENAME with (sch_name (tsch (A := user)));
  change UM_GROUP_TABLENAME with (sch_name (tsch (A := group)));
  change UM_ACCESS_TABLENAME with (sch_name (tsch (A := limit))).

(** ** Walking *)

Section Walk.
Context {D : Type} `{DatabaseLaws D} {A : Type} `{TableLaws A}.
Implicit Types (s : ums) (d : D).

Lemma first_loop_ok s d : um_rep d s -> forall fuel r cd, nonempty cd = false ->
  (length (tget (A := A) s) - r < fuel)%nat ->
  first_loop fuel d (Some (sch_name (tsch (A := A)))) (Some UM_NAME) (Z.of_nat r) cd =
    Some (first_key (keys_of (drop r (tget (A := A) s)))).
Proof using Type*.
  intros Hr. induction fuel as [|fuel IH]; intros r cd Hcd Hf; [lia|].
  cbn [first_loop]. rewrite (read_name (A := A) s d r Hr), keys_drop. cbn [mbind option_bind].
  replace (Z.of_nat r + 1) with (Z.of_nat (S r)) by lia.
  destruct (tget s !! r) as [[a|]|] eqn:Er; cbn [ptr_var ptr_of_cell mbind option_bind Z.eqb orb];
    [apply lookup_lt_Some in Er|apply lookup_lt_Some in Er|done].
  - rewrite first_key_cons. destruct (key a) as [|c k]; [|done]. cbn [nonempty]. apply IH; [done|lia].
  - change (DB_ERR_ROW_DELETED =? DB_ERR_ROW_DELETED) with true. rewrite orb_true_r, Hcd. apply IH; [done|lia].
Qed.

Lemma find_loop_ok s d k : um_rep d s -> forall fuel r key0, key0 <> Some k ->
  (length (tget (A := A) s) - r < fuel)%nat ->
  exists r' key', find_loop fuel d (Some (sch_name (tsch (A := A)))) (Some UM_NAME) k (Z.of_nat r) key0 =
      Some (Z.of_nat r', key') /\
    (key' = Some k /\ (exists l1, keys_of (drop r (tget (A := A) s)) = l1 ++ k :: keys_of (drop r' (tget (A := A) s))
                               /\ k ∉ l1) \/
     key' <> Some k /\ k ∉ keys_of (drop r (tget (A := A) s))).
Proof using Type*.
  intros Hr. induction fuel as [|fuel IH]; intros r key0 Hk0 Hf; [lia|].
  cbn [find_loop]. rewrite (read_name (A := A) s d r Hr), keys_drop. cbn [mbind option_bind].
  replace (Z.of_nat r + 1) with (Z.of_nat (S r)) by lia.
  destruct (tget s !! r) as [[a|]|] eqn:Er; cbn [ptr_var ptr_of_cell mbind option_bind].
  - apply lookup_lt_Some in Er. cbn [Z.eqb orb andb]. rewrite strcmp_eqb. case_bool_decide as Ek; cbn [negb].
    + exists (S r), (Some (key a)). split; [done|]. left. rewrite Ek. split; [done|]. exists []. split; [done|].
      apply not_elem_of_nil.
    + destruct (IH (S r) (Some (key a))) as (r' & key' & E & Hcase); [congruence|lia|].
      exists r', key'. split; [exact E|]. destruct Hcase as [(-> & l1 & El & Hl1)|[Hne Hnk]]; [left|right].
      * split; [done|]. exists (key a :: l1). split; [by rewrite El|]. apply not_elem_of_cons. by split.
      * split; [done|]. apply not_elem_of_cons. by split.
  - apply lookup_lt_Some in Er. change (DB_ERR_ROW_DELETED =? 0) with false. cbn [orb].
    change (DB_ERR_ROW_DELETED =? DB_ERR_ROW_DELETED) with true. cbn [andb].
    assert (Et : match key0 with None => true | Some k0 => negb (strcmp k0 k =? 0) end = true).
    { destruct key0 as [k0|]; [|done]. rewrite strcmp_eqb, bool_decide_false; [done|congruence]. }
    rewrite Et. apply IH; [done|lia].
  - change (DB_ERR_ROW_NOT_FOUND =? 0) with false. change (DB_ERR_ROW_NOT_FOUND =? DB_ERR_ROW_DELETED) with false.
    cbn [orb andb]. exists (S r), key0. split; [done|]. right. split; [done|apply not_elem_of_nil].
Qed.

Lemma next_loop_ok s d k : um_rep d s -> forall fuel r key0, (nonempty key0 = false \/ key0 = Some k) ->
  (length (tget (A := A) s) - r < fuel)%nat ->
  next_loop fuel d (Some (sch_name (tsch (A := A)))) (Some UM_NAME) k (Z.of_nat r) key0 =
    Some (first_key (filter (fun k' => k' <> k) (keys_of (drop r (tget (A := A) s))))).
Proof using Type*.
  intros Hr. induction fuel as [|fuel IH]; intros r key0 Hk0 Hf; [lia|].
  cbn [next_loop]. rewrite (read_name (A := A) s d r Hr), keys_drop. cbn [mbind option_bind].
  replace (Z.of_nat r + 1) with (Z.of_nat (S r)) by lia.
  destruct (tget s !! r) as [[a|]|] eqn:Er; cbn [ptr_var ptr_of_cell mbind option_bind];
    [apply lookup_lt_Some in Er|apply lookup_lt_Some in Er|done].
  - cbn [Z.eqb orb]. rewrite strcmp_eqb, filter_cons. case_bool_decide as Ek; cbn [negb].
    + rewrite decide_False by (by intros ?). rewrite andb_false_r. apply IH; [by right; rewrite Ek|lia].
    + rewrite decide_True by done. rewrite andb_true_r, first_key_cons.
      destruct (key a) as [|c k0]; [|done]. cbn [nonempty]. apply IH; [by left|lia].
  - change (DB_ERR_ROW_DELETED =? 0) with false. cbn [orb].
    change (DB_ERR_ROW_DELETED =? DB_ERR_ROW_DELETED) with true. cbn iota.
    assert (Et : nonempty key0 && match key0 with Some k0 => negb (strcmp k0 k =? 0) | None => true end = false).
    { destruct Hk0 as [->| ->]; [done|]. rewrite strcmp_eqb, bool_decide_true by done. by rewrite andb_false_r. }
    rewrite Et. apply IH; [done|lia].
Qed.

Lemma first_ok s d fuel : um_rep d s -> (length (tget (A := A) s) < fuel)%nat ->
  umGetFirstRowData fuel d (Some (sch_name (tsch (A := A)))) (Some UM_NAME) = Some (first_key (keys (A := A) s)).
Proof using Type*.
  intros Hr Hf. unfold umGetFirstRowData.
  pose proof (first_loop_ok s d Hr fuel 0 None eq_refl) as E. change (Z.of_nat 0) with 0 in E.
  rewrite E by lia. by rewrite drop_0.
Qed.

Lemma next_ok s d fuel k : um_rep d s -> (length (tget (A := A) s) < fuel)%nat ->
  umGetNextRowData fuel d (Some (sch_name (tsch (A := A)))) (Some UM_NAME) k = Some (next_key (keys (A := A) s) k).
Proof using Type*.
  intros Hr Hf. unfold umGetNextRowData.
  destruct (find_loop_ok s d k Hr fuel 0 None) as (r' & key' & E & Hcase); [done|lia|].
  change (Z.of_nat 0) with 0 in E. rewrite E. cbn [mbind option_bind].
  change (keys (A := A) s) with (keys_of (tget (A := A) s)). rewrite drop_0 in Hcase.
  destruct Hcase as [(-> & l1 & El & Hl1)|[Hne Hnk]].
  - rewrite strcmp_eqb, bool_decide_true by done. rewrite (next_loop_ok s d k Hr) by (lia || by right).
    by rewrite El, next_key_split.
  - rewrite next_key_none by done. destruct key' as [k'|]; [|done].
    rewrite strcmp_eqb, bool_decide_false; [done|congruence].
Qed.
End Walk.

(** ** The URL and its parents *)

Lemma dropwhile_back_app f u c : dropwhile_back f (u ++ [c]) = if f c then dropwhile_back f u else u ++ [c].
Proof.
  induction u as [|a u IH]; cbn [app dropwhile_back]; [by destruct (f c)|]. rewrite IH.
  destruct (f c); [done|]. by destruct u.
Qed.

Lemma dropwhile_back_prefix f u : dropwhile_back f u `prefix_of` u.
Proof.
  induction u as [|c u IH] using rev_ind; [by exists []|]. rewrite dropwhile_back_app.
  destruct (f c); [|done]. by apply prefix_app_r.
Qed.

Lemma zero_back_ok f u : forall rest, exists z,
  zero_back f (u ++ rest) (length u) = (dropwhile_back f u ++ z ++ rest, length (dropwhile_back f u)) /\
  Forall (fun c => c = 0) z.
Proof.
  induction u as [|c u IH] using rev_ind; intros rest; [exists []; by split|].
  rewrite dropwhile_back_app, <- app_assoc, length_app. cbn [length app].
  replace (length u + 1)%nat with (S (length u)) by lia. cbn [zero_back].
  rewrite nth_middle. destruct (f c).
  - replace (<[length u := 0]> (u ++ c :: rest)) with (u ++ 0 :: rest)
      by (replace (length u) with (length u + 0)%nat by lia; by rewrite insert_app_r).
    destruct (IH (0 :: rest)) as (z & E & Hz). exists (z ++ [0]). rewrite E, <- app_assoc. split; [done|].
    apply Forall_app. split; [done|]. by repeat constructor.
  - exists []. split; [|done]. rewrite length_app. cbn. f_equal; [by rewrite <- app_assoc|lia].
Qed.

Lemma parent_prefix u : parent u `prefix_of` u.
Proof. unfold parent. etrans; apply dropwhile_back_prefix. Qed.

Lemma parent_no_nul u : no_nul u -> no_nul (parent u).
Proof. intros Hu. destruct (parent_prefix u) as [v Hv]. rewrite Hv in Hu. by apply Forall_app in Hu as [? _]. Qed.

Lemma parent_shorter u : u <> [] -> (length (parent u) < length u)%nat.
Proof.
  destruct u as [|c u _] using rev_ind; [done|]. intros _. unfold parent.
  rewrite dropwhile_back_app, length_app. cbn [length]. destruct (is_sep c) eqn:Ec.
  - pose proof (prefix_length _ _ (dropwhile_back_prefix is_sep u)).
    pose proof (prefix_length _ _ (dropwhile_back_prefix (fun c => negb (is_sep c)) (dropwhile_back is_sep u))). lia.
  - rewrite dropwhile_back_app, Ec. cbn [negb].
    pose proof (prefix_length _ _ (dropwhile_back_prefix (fun c => negb (is_sep c)) u)). lia.
Qed.

Lemma cut_last_ok u z : exists z', cut_last (u ++ 0 :: z) (length u) = parent u ++ 0 :: z'.
Proof.
  unfold cut_last. destruct (zero_back_ok is_sep u (0 :: z)) as (z1 & E1 & H1). rewrite E1.
  destruct (zero_back_ok (fun c => negb (is_sep c)) (dropwhile_back is_sep u) (z1 ++ 0 :: z)) as (z2 & E2 & H2).
  rewrite E2. cbn [fst]. change (dropwhile_back _ (dropwhile_back is_sep u)) with (parent u).
  destruct H2 as [|c z2 -> H2]; [destruct H1 as [|c z1 -> H1]|]; by eexists.
Qed.

Section Urls.
Context {D : Type} `{DatabaseLaws D} (bstrdup : list Z -> cptr).
Hypothesis bstrdup_ok : forall s, bstrdup s = Some s.

Lemma exists_limit_ok s d k : um_rep d s ->
  umAccessLimitExists d (Some k) = Some (bool_t (bool_decide (is_Some (with_key s k : option limit)))).
Proof using Type*.
  intros Hr. unfold umAccessLimitExists. table_names. rewrite (search_key (A := limit) s d k Hr). cbn [mbind option_bind].
  destruct (key_cases (A := limit) s k) as [(r & a & -> & _ & -> & _)|[-> ->]].
  - rewrite bool_decide_true by done. replace (Z.of_nat r <? 0) with false by zb. done.
  - rewrite bool_decide_false by (by intros [? ?]). done.
Qed.

Lemma limit_loop_ok s d : um_rep d s -> forall fuel f' u z, no_nul u -> (length u < fuel)%nat ->
  (length u <= f')%nat ->
  limit_loop bstrdup fuel d (u ++ 0 :: z) = Some (l_url <$> nearest_in f' s u).
Proof using Type* bstrdup_ok.
  intros Hr. induction fuel as [|fuel IH]; intros f' u z Hu Hf Hf'; [lia|]. cbn [limit_loop].
  rewrite cstr_app by done. cbn [mbind option_bind]. case_bool_decide as Eu; [subst u; by destruct f'|].
  destruct f' as [|f']; [by destruct u; cbn in *; [|lia]|].
  rewrite (exists_limit_ok s d u Hr). cbn [mbind option_bind].
  assert (En : nearest_in (S f') s u = match with_key s u with Some l => Some l | None => nearest_in f' s (parent u) end)
    by (by destruct u).
  rewrite En. destruct (key_cases (A := limit) s u) as [(r & a & _ & _ & -> & Hk)|[_ ->]].
  - rewrite bool_decide_true by done. cbn [bool_t Z.eqb negb]. rewrite bstrdup_ok. cbn. do 2 f_equal. by symmetry.
  - rewrite bool_decide_false by (by intros [? ?]). cbn [bool_t Z.eqb negb].
    destruct (cut_last_ok u z) as [z' ->]. pose proof (parent_shorter u Eu).
    apply IH; [by apply parent_no_nul|lia|lia].
Qed.

Lemma access_limit_ok s d u : um_rep d s -> no_nul u ->
  umGetAccessLimit bstrdup d (Some u) = Some (l_url <$> nearest s u).
Proof using Type* bstrdup_ok.
  intros Hr Hu. unfold umGetAccessLimit, bstrdup_ptr. cbn [default from_option id]. rewrite bstrdup_ok.
  cbn [mbind option_bind]. apply limit_loop_ok; [done|done|lia|lia].
Qed.

(** The limit that was found is the record with its own key. *)
Lemma nearest_key s u l : nearest s u = Some l -> with_key s (l_url l) = Some l.
Proof.
  unfold nearest. generalize (length u) as f. intros f. revert u. induction f as [|f IH]; intros u; [done|].
  destruct u as [|c u]; [done|]. cbn [nearest_in].
  destruct (key_cases (A := limit) s (c :: u)) as [(r & a & _ & _ & E & Hk)|[_ E]]; rewrite E.
  - intros [= ->]. cbn in Hk. by rewrite Hk.
  - apply IH.
Qed.
End Urls.

(** ** Reading a record *)

(** After the search for the record of [k]: the row of the record, or none. *)
Ltac at_key A s k Hr :=
  table_names; rewrite (search_key (A := A) s _ k Hr); cbn [mbind option_bind];
  let r := fresh "r" in let a := fresh "a" in let Ef := fresh "Ef" in
  let Er := fresh "Er" in let Ew := fresh "Ew" in let Ek := fresh "Ek" in
  destruct (key_cases (A := A) s k) as [(r & a & Ef & Er & Ew & Ek)|[Ef Ew]]; rewrite Ef, ?Ew;
  [try replace (0 <=? Z.of_nat r) with true by zb; try replace (Z.of_nat r <? 0) with false by zb
  |try change (0 <=? -1) with false; try change (-1 <? 0) with true].

(** Reading column [c], the [j]th, of the record in row [r]. *)
Ltac read_col d c j :=
  match goal with
  | Hr : um_rep d ?s, Er : tget ?s !! ?r = Some (Some ?a) |- context [dbReadInt d _ (Some c) _] =>
      rewrite (read_int s d r a c j _ Hr Er eq_refl eq_refl)
  | Hr : um_rep d ?s, Er : tget ?s !! ?r = Some (Some ?a) |- context [dbReadStr d _ (Some c) _] =>
      rewrite (read_str s d r a c j _ Hr Er eq_refl eq_refl)
  end; cbn [mbind option_bind int_var ptr_var ptr_of_cell].

Section Reads.
Context {D : Type} `{DatabaseLaws D}.
Implicit Types (s : ums) (d : D).

Lemma user_exists_ok s d k : um_rep d s ->
  umUserExists d (Some k) = Some (bool_t (bool_decide (is_Some (with_key s k : option user)))).
Proof using Type*.
  intros Hr. unfold umUserExists. at_key user s k Hr;
    [by rewrite bool_decide_true|by rewrite bool_decide_false by (by intros [? ?])].
Qed.

Lemma group_exists_ok s d k : um_rep d s ->
  umGroupExists d (Some k) = Some (bool_t (bool_decide (is_Some (with_key s k : option group)))).
Proof using Type*.
  intros Hr. unfold umGroupExists. at_key group s k Hr;
    [by rewrite bool_decide_true|by rewrite bool_decide_false by (by intros [? ?])].
Qed.

Lemma user_protected_ok s d k : um_rep d s ->
  umGetUserProtected d (Some k) = Some (match with_key s k with Some a => s16 (u_prot a) | None => 0 end).
Proof using Type*.
  intros Hr. unfold umGetUserProtected. at_key user s k Hr; [|done]. by read_col d UM_PROT 3%nat.
Qed.

Lemma user_enabled_ok s d k : um_rep d s ->
  umGetUserEnabled d (Some k) = Some (match with_key s k with Some a => bool_t (u_disable a =? 0) | None => 0 end).
Proof using Type*.
  intros Hr. unfold umGetUserEnabled. at_key user s k Hr; [|done]. by read_col d UM_DISABLE 4%nat.
Qed.

Lemma user_group_ok s d k : um_rep d s ->
  umGetUserGroup d (Some k) = Some (u_group <$> with_key s k).
Proof using Type*.
  intros Hr. unfold umGetUserGroup. at_key user s k Hr; [|done]. by read_col d UM_GROUP 2%nat.
Qed.

Lemma group_method_ok s d k : um_rep d s ->
  umGetGroupAccessMethod d (Some k) = Some (match with_key s k with Some a => g_method a | None => AM_INVALID end).
Proof using Type*.
  intros Hr. unfold umGetGroupAccessMethod. at_key group s k Hr; [|done]. by read_col d UM_METHOD 2%nat.
Qed.

Lemma group_privilege_ok s d k : um_rep d s ->
  umGetGroupPrivilege d (Some k) = Some (match with_key s k with Some a => s16 (g_priv a) | None => -1 end).
Proof using Type*.
  intros Hr. unfold umGetGroupPrivilege. at_key group s k Hr; [|done]. by read_col d UM_PRIVILEGE 1%nat.
Qed.

Lemma group_enabled_ok s d k : um_rep d s ->
  umGetGroupEnabled d (Some k) = Some (match with_key s k with Some a => bool_t (g_disable a =? 0) | None => 0 end).
Proof using Type*.
  intros Hr. unfold umGetGroupEnabled. at_key group s k Hr; [|done]. by read_col d UM_DISABLE 4%nat.
Qed.

Lemma group_protected_ok s d k : um_rep d s ->
  umGetGroupProtected d (Some k) = Some (match with_key s k with Some a => s16 (g_prot a) | None => 0 end).
Proof using Type*.
  intros Hr. unfold umGetGroupProtected. at_key group s k Hr; [|done]. by read_col d UM_PROT 3%nat.
Qed.

Lemma limit_method_ok s d k : um_rep d s ->
  umGetAccessLimitMethod d (Some k) = Some (match with_key s k with Some a => l_method a | None => AM_INVALID end).
Proof using Type*.
  intros Hr. unfold umGetAccessLimitMethod. at_key limit s k Hr; [|done]. by read_col d UM_METHOD 1%nat.
Qed.

Lemma limit_secure_ok s d k : um_rep d s ->
  umGetAccessLimitSecure d (Some k) = Some (match with_key s k with Some a => s16 (l_secure a) | None => -1 end).
Proof using Type*.
  intros Hr. unfold umGetAccessLimitSecure. at_key limit s k Hr; [|done]. by read_col d UM_SECURE 2%nat.
Qed.

Lemma limit_group_ok s d k : um_rep d s ->
  umGetAccessLimitGroup d (Some k) = Some (l_group <$> with_key s k).
Proof using Type*.
  intros Hr. unfold umGetAccessLimitGroup. at_key limit s k Hr; [|done]. by read_col d UM_GROUP 3%nat.
Qed.

(** A user or a limit refers to the group. *)
Definition group_in_use s (g : list Z) : bool :=
  bool_decide (is_Some (find_by (fun u => bool_decide (u_group u = g)) (users s))) ||
  bool_decide (is_Some (find_by (fun l => bool_decide (l_group l = g)) (limits s))).

Lemma group_in_use_ok s d g : um_rep d s -> umGetGroupInUse d (Some g) = Some (bool_t (group_in_use s g)).
Proof using Type*.
  intros Hr. unfold umGetGroupInUse, group_in_use. table_names.
  rewrite (search_by (A := user) s d UM_GROUP 2 T_STRING g (fun u => bool_decide (u_group u = g)) Hr) by done.
  cbn [mbind option_bind]. change (tget s) with (users s) at 1.
  destruct (find_by _ (users s)) as [r|].
  { replace (0 <=? Z.of_nat r) with true by zb. by rewrite bool_decide_true. }
  rewrite bool_decide_false by (by intros [? ?]). change (0 <=? -1) with false. cbn [orb].
  rewrite (search_by (A := limit) s d UM_GROUP 3 T_STRING g (fun l => bool_decide (l_group l = g)) Hr) by done.
  cbn [mbind option_bind]. change (tget s) with (limits s).
  destruct (find_by _ (limits s)) as [r|].
  { replace (0 <=? Z.of_nat r) with true by zb. by rewrite bool_decide_true. }
  by rewrite bool_decide_false by (by intros [? ?]).
Qed.
End Reads.

(** ** Changing records *)

(** Writing column [c], the [j]th, of the record in row [r], which becomes [f] of it. *)
Ltac write_col d c j f :=
  match goal with
  | Hr : um_rep d ?s, Er : tget ?s !! ?r = Some (Some ?a) |- context [dbWriteInt d _ (Some c) _ ?z] =>
      let E := fresh "E" in let Hr' := fresh "Hr'" in
      destruct (write_int s d r a c j z f Hr Er eq_refl eq_refl) as (? & E & Hr');
        [by intros []|rewrite E]
  | Hr : um_rep d ?s, Er : tget ?s !! ?r = Some (Some ?a) |- context [dbWriteStr d _ (Some c) _ ?p] =>
      let E := fresh "E" in let Hr' := fresh "Hr'" in
      destruct (write_str s d r a c j p f) with (1 := Hr) (3 := Er) as (? & E & Hr');
        [done|done|done|by intros []|rewrite E]
  end; cbn [mbind option_bind].

Section Writes.
Context {D : Type} `{DatabaseLaws D} (bstrdup : list Z -> cptr).
Hypothesis bstrdup_ok : forall s, bstrdup s = Some s.
Implicit Types (s : ums) (d : D).

(** What a change returns: 0 and the new state, or that the record was not found. *)
Definition changed (r : option (Z * D)) s (o : option ums) : Prop :=
  exists d', r = Some (match o with Some _ => 0 | None => UM_ERR_NOT_FOUND end, d') /\
    um_rep d' (match o with Some s' => s' | None => s end).

Ltac setter A s k Hr c j f :=
  unfold changed, update;
  at_key A s k Hr; cbn [mbind option_bind];
  [match type of Hr with um_rep ?d _ => write_col d c j f end; eexists; split; [reflexivity|eassumption]
  |eexists; split; [reflexivity|exact Hr]].

Lemma encrypt_no_nul p : forall mask, no_nul p -> no_nul (umEncrypt_loop p mask).
Proof using Type.
  induction p as [|c p IH]; intros mask Hp; cbn [umEncrypt_loop]; [constructor|].
  apply Forall_cons_iff in Hp as [Hc Hp]. constructor; [|by apply IH].
  destruct (Z.lxor c (hd 0 mask) =? 0) eqn:E; cbn [negb andb]; [done|].
  destruct (isspace _); cbn [negb]; [done|]. by apply Z.eqb_neq.
Qed.

Lemma set_password_ok s d k p : um_rep d s -> no_nul p ->
  changed (umSetUserPassword bstrdup d (Some k) (Some p)) s
    (update s k (fun a => a <| u_pass := (umEncryptString p).1 |>)).
Proof using Type* bstrdup_ok.
  intros Hr Hp. unfold umSetUserPassword, bstrdup_ptr. cbn [default from_option id]. rewrite bstrdup_ok.
  assert (Hn : no_nul (umEncryptString p).1) by (by apply encrypt_no_nul).
  setter user s k Hr UM_PASS 1%nat (fun a : user => a <| u_pass := (umEncryptString p).1 |>).
Qed.

Lemma set_user_group_ok s d k g : um_rep d s -> no_nul g ->
  changed (umSetUserGroup d (Some k) (Some g)) s (update s k (fun a => a <| u_group := g |>)).
Proof using Type*.
  intros Hr Hg. unfold umSetUserGroup. setter user s k Hr UM_GROUP 2%nat (fun a : user => a <| u_group := g |>).
Qed.

Lemma set_user_enabled_ok s d k z : um_rep d s ->
  changed (umSetUserEnabled d (Some k) z) s (update s k (fun a => a <| u_disable := bool_t (z =? 0) |>)).
Proof using Type*.
  intros Hr. unfold umSetUserEnabled.
  setter user s k Hr UM_DISABLE 4%nat (fun a : user => a <| u_disable := bool_t (z =? 0) |>).
Qed.

Lemma set_user_protected_ok s d k z : um_rep d s ->
  changed (umSetUserProtected d (Some k) z) s (update s k (fun a => a <| u_prot := z |>)).
Proof using Type*.
  intros Hr. unfold umSetUserProtected. setter user s k Hr UM_PROT 3%nat (fun a : user => a <| u_prot := z |>).
Qed.

Lemma set_group_method_ok s d k z : um_rep d s ->
  changed (umSetGroupAccessMethod d (Some k) z) s (update s k (fun a => a <| g_method := z |>)).
Proof using Type*.
  intros Hr. unfold umSetGroupAccessMethod.
  setter group s k Hr UM_METHOD 2%nat (fun a : group => a <| g_method := z |>).
Qed.

Lemma set_group_privilege_ok s d k z : um_rep d s ->
  changed (umSetGroupPrivilege d (Some k) z) s (update s k (fun a => a <| g_priv := z |>)).
Proof using Type*.
  intros Hr. unfold umSetGroupPrivilege.
  setter group s k Hr UM_PRIVILEGE 1%nat (fun a : group => a <| g_priv := z |>).
Qed.

Lemma set_group_enabled_ok s d k z : um_rep d s ->
  changed (umSetGroupEnabled d (Some k) z) s (update s k (fun a => a <| g_disable := bool_t (z =? 0) |>)).
Proof using Type*.
  intros Hr. unfold umSetGroupEnabled.
  setter group s k Hr UM_DISABLE 4%nat (fun a : group => a <| g_disable := bool_t (z =? 0) |>).
Qed.

Lemma set_group_protected_ok s d k z : um_rep d s ->
  changed (umSetGroupProtected d (Some k) z) s (update s k (fun a => a <| g_prot := z |>)).
Proof using Type*.
  intros Hr. unfold umSetGroupProtected. setter group s k Hr UM_PROT 3%nat (fun a : group => a <| g_prot := z |>).
Qed.

Lemma set_limit_method_ok s d k z : um_rep d s ->
  changed (umSetAccessLimitMethod d (Some k) z) s (update s k (fun a => a <| l_method := z |>)).
Proof using Type*.
  intros Hr. unfold umSetAccessLimitMethod.
  setter limit s k Hr UM_METHOD 1%nat (fun a : limit => a <| l_method := z |>).
Qed.

Lemma set_limit_secure_ok s d k z : um_rep d s ->
  changed (umSetAccessLimitSecure d (Some k) z) s (update s k (fun a => a <| l_secure := z |>)).
Proof using Type*.
  intros Hr. unfold umSetAccessLimitSecure.
  setter limit s k Hr UM_SECURE 2%nat (fun a : limit => a <| l_secure := z |>).
Qed.

Lemma set_limit_group_ok s d k g : um_rep d s -> no_nul (default [] g) ->
  changed (umSetAccessLimitGroup d (Some k) g) s (update s k (fun a => a <| l_group := default [] g |>)).
Proof using Type*.
  intros Hr Hg. unfold umSetAccessLimitGroup.
  setter limit s k Hr UM_GROUP 3%nat (fun a : limit => a <| l_group := default [] g |>).
Qed.

(** *** Deleting *)

Lemma delete_limit_ok s d k : um_rep d s ->
  changed (umDeleteAccessLimit d (Some k)) s (remove (A := limit) s k).
Proof using Type*.
  intros Hr. unfold umDeleteAccessLimit, changed, remove. at_key limit s k Hr; [|by exists d].
  destruct (delete_at s d r a Hr Er) as (d' & E & Hr'). rewrite E. by exists d'.
Qed.

Lemma delete_user_ok s d k a : um_rep d s -> with_key s k = Some a -> s16 (u_prot a) = 0 ->
  changed (umDeleteUser d (Some k)) s (remove (A := user) s k).
Proof using Type*.
  intros Hr Ha Hp. unfold umDeleteUser, changed, remove. rewrite (user_protected_ok s d k Hr), Ha, Hp.
  cbn [mbind option_bind Z.eqb negb]. at_key user s k Hr; [|by exists d].
  destruct (delete_at s d r a0 Hr Er) as (d' & E & Hr'). rewrite E. by exists d'.
Qed.

Lemma delete_group_ok s d k a : um_rep d s -> group_in_use s k = false -> with_key s k = Some a ->
  s16 (g_prot a) = 0 -> changed (umDeleteGroup d (Some k)) s (remove (A := group) s k).
Proof using Type*.
  intros Hr Hu Ha Hp. unfold umDeleteGroup, changed, remove.
  rewrite (group_in_use_ok s d k Hr), Hu. cbn [mbind option_bind bool_t Z.eqb negb].
  rewrite (group_protected_ok s d k Hr), Ha, Hp.
  cbn [mbind option_bind Z.eqb negb]. at_key group s k Hr; [|by exists d].
  destruct (delete_at s d r a0 Hr Er) as (d' & E & Hr'). rewrite E. by exists d'.
Qed.
End Writes.

(** ** Adding records *)

(** Writing column [c], the [j]th, of the new row of [s]. *)
Ltac raw_col A s c j :=
  match goal with
  | Hr : db_rep ?d (raw (A := A) s ?cells) |- context [dbWriteInt ?d _ (Some c) _ ?z] =>
      let E := fresh "E" in let Hr' := fresh "Hraw" in
      destruct (raw_write_int (A := A) s d c j z cells Hr eq_refl eq_refl) as (? & E & Hr');
      rewrite E; clear E Hr
  | Hr : db_rep ?d (raw (A := A) s ?cells) |- context [dbWriteStr ?d _ (Some c) _ ?p] =>
      let E := fresh "E" in let Hr' := fresh "Hraw" in
      destruct (raw_write_str (A := A) s d c j p cells) with (1 := Hr) as (? & E & Hr');
      [done|done|done|rewrite E; clear E Hr]
  end; cbn [mbind option_bind].

Section Adds.
Context {D : Type} `{DatabaseLaws D} (bstrdup : list Z -> cptr).
Hypothesis bstrdup_ok : forall s, bstrdup s = Some s.
Implicit Types (s : ums) (d : D).

(** What an addition returns: 0 and the new record, or no memory. *)
Definition added {A} `{Table A} (r : option (Z * D)) s (a : A) : Prop :=
  exists mem d', r = Some (if mem : bool then 0 else UM_ERR_GENERAL, d') /\
    um_rep d' (if mem then insert s a else s).

Ltac start_row A s d Hr :=
  table_names; destruct (add_row (A := A) s d Hr) as (? & ? & E & [[-> Hraw]|[-> Hr']]); rewrite E; clear E;
  cbn [mbind option_bind];
  [replace (Z.of_nat _ <? 0) with false by zb; cbn iota
  |exists false; eexists; split; [reflexivity|exact Hr']].

Lemma add_user_ok s d u p g prot dis : um_rep d s -> no_nul u -> no_nul p -> no_nul g ->
  with_key (A := user) s u = None -> umCheckName (Some u) = true -> umCheckName (Some p) = true ->
  is_Some (with_key (A := group) s g) ->
  added (umAddUser bstrdup d (Some u) (Some p) (Some g) prot dis) s (mkUser u (umEncryptString p).1 g prot dis).
Proof using Type* bstrdup_ok.
  intros Hr Hu Hp Hg Hnew Hcu Hcp Hgr. unfold umAddUser, added.
  assert (Hn : no_nul (umEncryptString p).1) by (by apply encrypt_no_nul).
  rewrite (user_exists_ok s d u Hr), Hnew, bool_decide_false by (by intros [? ?]).
  cbn [bool_t Z.eqb negb mbind option_bind]. rewrite Hcu, Hcp. cbn [negb].
  rewrite (group_exists_ok s d g Hr), bool_decide_true by done. cbn [bool_t Z.eqb mbind option_bind].
  start_row user s d Hr. raw_col user s UM_NAME 0%nat. cbn [Z.eqb negb].
  unfold bstrdup_ptr. cbn [default from_option id]. rewrite bstrdup_ok. cbn [mbind option_bind].
  raw_col user s UM_PASS 1%nat. raw_col user s UM_GROUP 2%nat. raw_col user s UM_PROT 3%nat.
  raw_col user s UM_DISABLE 4%nat. exists true. eexists. split; [reflexivity|].
  unfold um_rep. rewrite <- raw_enc. assumption.
Qed.

Lemma add_group_ok s d g priv am prot dis : um_rep d s -> no_nul g ->
  with_key (A := group) s g = None -> umCheckName (Some g) = true ->
  added (umAddGroup d (Some g) priv am prot dis) s (mkGroup g priv am prot dis).
Proof using Type*.
  intros Hr Hg Hnew Hcg. unfold umAddGroup, added.
  rewrite (group_exists_ok s d g Hr), Hnew, bool_decide_false by (by intros [? ?]).
  cbn [bool_t Z.eqb negb mbind option_bind]. rewrite Hcg. cbn [negb].
  start_row group s d Hr. raw_col group s UM_NAME 0%nat. cbn [Z.eqb negb].
  raw_col group s UM_PRIVILEGE 1%nat. raw_col group s UM_METHOD 2%nat. raw_col group s UM_PROT 3%nat.
  raw_col group s UM_DISABLE 4%nat. exists true. eexists. split; [reflexivity|].
  unfold um_rep. rewrite <- raw_enc. assumption.
Qed.

Lemma add_limit_ok s d url am secure g : um_rep d s -> no_nul url -> no_nul (default [] g) ->
  with_key (A := limit) s url = None ->
  added (umAddAccessLimit d (Some url) am secure g) s (mkLimit url am secure (default [] g)).
Proof using Type*.
  intros Hr Hu Hg Hnew. unfold umAddAccessLimit, added.
  rewrite (exists_limit_ok s d url Hr), Hnew, bool_decide_false by (by intros [? ?]).
  cbn [bool_t Z.eqb negb mbind option_bind].
  start_row limit s d Hr. raw_col limit s UM_NAME 0%nat. change (0 <? 0) with false. cbn iota.
  raw_col limit s UM_METHOD 1%nat. raw_col limit s UM_SECURE 2%nat. raw_col limit s UM_GROUP 3%nat.
  exists true. eexists. split; [reflexivity|]. unfold um_rep. rewrite <- raw_enc. assumption.
Qed.
End Adds.

(** ** Deciding *)

Section Access.
Context {D : Type} `{DatabaseLaws D} (bstrdup : list Z -> cptr).
Hypothesis bstrdup_ok : forall s, bstrdup s = Some s.
Implicit Types (s : ums) (d : D).

Lemma method_for_url_ok s d url : um_rep d s -> no_nul url ->
  umGetAccessMethodForURL bstrdup d (Some url) = Some (method_for_url s url).
Proof using Type* bstrdup_ok.
  intros Hr Hu. unfold umGetAccessMethodForURL, method_for_url.
  rewrite (access_limit_ok bstrdup bstrdup_ok s d url Hr Hu). cbn [mbind option_bind].
  destruct (nearest s url) as [l|] eqn:El; [|done]. cbn [fmap option_fmap option_map].
  pose proof (nearest_key s url l El) as Hk.
  rewrite (limit_group_ok s d _ Hr), Hk. cbn [fmap option_fmap option_map mbind option_bind].
  destruct (l_group l) as [|c g] eqn:Eg; cbn [nonempty].
  - by rewrite (limit_method_ok s d _ Hr), Hk.
  - by rewrite (group_method_ok s d _ Hr).
Qed.

Lemma can_access_ok s d u url : um_rep d s -> no_nul url ->
  umUserCanAccessURL bstrdup d (Some u) (Some url) = Some (bool_t (can_access s u url)).
Proof using Type* bstrdup_ok.
  intros Hr Hurl. unfold umUserCanAccessURL, can_access.
  rewrite (user_exists_ok s d u Hr). cbn [mbind option_bind].
  destruct (with_key s u) as [usr|] eqn:Eu; [|by rewrite bool_decide_false by (by intros [? ?])].
  rewrite bool_decide_true by done. cbn [bool_t Z.eqb].
  rewrite (user_enabled_ok s d u Hr), Eu. cbn [mbind option_bind].
  destruct (u_disable usr =? 0); [|done]. cbn [bool_t Z.eqb andb].
  rewrite (user_group_ok s d u Hr), Eu. cbn [mbind option_bind fmap option_fmap option_map].
  rewrite (group_privilege_ok s d _ Hr). cbn [mbind option_bind].
  rewrite (group_enabled_ok s d _ Hr), (group_method_ok s d _ Hr).
  destruct (with_key s (u_group usr)) as [grp|] eqn:Eg; [|done]. cbn [mbind option_bind].
  destruct (s16 (g_priv grp) =? 0); [done|]. cbn [negb andb mbind option_bind].
  destruct (g_disable grp =? 0); [|done]. cbn [bool_t Z.eqb andb].
  destruct (g_method grp =? AM_NONE); [done|]. cbn [negb andb].
  rewrite (access_limit_ok bstrdup bstrdup_ok s d url Hr Hurl). cbn [mbind option_bind].
  destruct (nearest s url) as [l|] eqn:El; [|done]. cbn [fmap option_fmap option_map].
  pose proof (nearest_key s url l El) as Hk.
  rewrite (limit_method_ok s d _ Hr), (limit_group_ok s d _ Hr), Hk.
  cbn [mbind option_bind fmap option_fmap option_map].
  destruct (l_method l =? AM_NONE); [done|]. cbn [negb andb]. rewrite strcmp_eqb.
  destruct (l_group l) as [|c g]; cbn [nonempty andb].
  - by rewrite bool_decide_true.
  - rewrite (bool_decide_false (c :: g = [])) by done. cbn [orb]. by destruct (bool_decide _).
Qed.
End Access.

(** ** Any sequence of calls *)

(** The tables have at most [n] rows. *)
Definition sizes (s : ums) (n : nat) : Prop :=
  (length (users s) <= n /\ length (groups s) <= n /\ length (limits s) <= n)%nat.

Lemma length_trim {A} (l : list (option A)) : (length (trim l) <= length l)%nat.
Proof. induction l as [|[a|] l IH]; cbn; [lia|lia|]. destruct (trim l); cbn in *; lia. Qed.

Section TableSizes.
Context {A : Type} `{TableLaws A}.

Lemma update_size s k f s' : update (A := A) s k f = Some s' ->
  exists l, s' = tput s l /\ (length l <= length (tget (A := A) s))%nat.
Proof using Type.
  unfold update. destruct (find_key k (tget s)); [|done]. intros [= <-]. eexists. split; [done|].
  by rewrite length_alter.
Qed.

Lemma remove_size s k s' : remove (A := A) s k = Some s' ->
  exists l, s' = tput s l /\ (length l <= length (tget (A := A) s))%nat.
Proof using Type.
  unfold remove. destruct (find_key k (tget s)) as [r|]; [|done]. intros [= <-]. eexists. split; [done|].
  pose proof (length_trim (<[r := None]> (tget (A := A) s))) as Hl. by rewrite length_insert in Hl.
Qed.

Lemma insert_size s a : exists l, insert (A := A) s a = tput s l /\ (length l <= S (length (tget (A := A) s)))%nat.
Proof using Type. eexists. split; [done|]. apply length_fill. Qed.
End TableSizes.

Lemma sizes_user s l n : sizes s n -> (length l <= S (length (users s)))%nat -> sizes (tput (A := user) s l) (S n).
Proof. unfold sizes. cbn. lia. Qed.
Lemma sizes_group s l n : sizes s n -> (length l <= S (length (groups s)))%nat -> sizes (tput (A := group) s l) (S n).
Proof. unfold sizes. cbn. lia. Qed.
Lemma sizes_limit s l n : sizes s n -> (length l <= S (length (limits s)))%nat -> sizes (tput (A := limit) s l) (S n).
Proof. unfold sizes. cbn. lia. Qed.

Lemma sizes_S s n : sizes s n -> sizes s (S n).
Proof. unfold sizes. lia. Qed.

(** Every operation adds at most one row. *)
Lemma s_op_sizes mem s op n : sizes s n -> sizes (s_op mem s op).2 (S n).
Proof.
  intros Hs.
  assert (Hu : forall k f s', update (A := user) s k f = Some s' -> sizes s' (S n))
    by (intros k f s' (l & -> & Hl)%update_size; apply sizes_user; cbn in *; [done|lia]).
  assert (Hg : forall k f s', update (A := group) s k f = Some s' -> sizes s' (S n))
    by (intros k f s' (l & -> & Hl)%update_size; apply sizes_group; cbn in *; [done|lia]).
  assert (Hl : forall k f s', update (A := limit) s k f = Some s' -> sizes s' (S n))
    by (intros k f s' (l & -> & Hl)%update_size; apply sizes_limit; cbn in *; [done|lia]).
  assert (Hru : forall k s', remove (A := user) s k = Some s' -> sizes s' (S n))
    by (intros k s' (l & -> & Hl')%remove_size; apply sizes_user; cbn in *; [done|lia]).
  assert (Hrg : forall k s', remove (A := group) s k = Some s' -> sizes s' (S n))
    by (intros k s' (l & -> & Hl')%remove_size; apply sizes_group; cbn in *; [done|lia]).
  assert (Hrl : forall k s', remove (A := limit) s k = Some s' -> sizes s' (S n))
    by (intros k s' (l & -> & Hl')%remove_size; apply sizes_limit; cbn in *; [done|lia]).
  pose proof (sizes_S _ _ Hs) as H0.
  destruct op; cbn [s_op]; repeat case_match; try exact H0; cbn [snd]; eauto;
    [apply sizes_user|apply sizes_group|apply sizes_limit]; try done; apply length_fill.
Qed.

Section Runs.
Context {D : Type} `{DatabaseLaws D} (bstrdup : list Z -> cptr).
Hypothesis bstrdup_ok : forall s, bstrdup s = Some s.
Implicit Types (s : ums) (d : D).

(** [r] is what the specification returns for [op], and the state follows it. *)
Definition follows (r : option (ures * D)) s op : Prop :=
  exists mem d', r = Some ((s_op mem s op).1, d') /\ um_rep d' (s_op mem s op).2.

Lemma follows_read d s op (r : option (ures * D)) : um_rep d s -> (forall mem, (s_op mem s op).2 = s) ->
  r = Some ((s_op true s op).1, d) -> follows r s op.
Proof using Type. intros Hr Hs ->. exists true, d. by rewrite Hs. Qed.

Lemma follows_changed s op r o : changed r s o ->
  (forall mem, s_op mem s op = match o with Some s' => (RInt 0, s') | None => (RInt UM_ERR_NOT_FOUND, s) end) ->
  follows (rw r) s op.
Proof using Type.
  intros (d' & -> & Hr) E. exists true, d'. rewrite E. unfold rw. cbn. by destruct o.
Qed.

Lemma follows_added {A} `{Table A} s op r (a : A) : added r s a ->
  (forall mem : bool, s_op mem s op = if mem then (RInt 0, insert s a) else (RInt UM_ERR_GENERAL, s)) ->
  follows (rw r) s op.
Proof using Type.
  intros (mem & d' & -> & Hr) E. exists mem, d'. rewrite E. unfold rw. cbn. by destruct mem.
Qed.

Lemma follows_err d s op z : um_rep d s -> (forall mem, s_op mem s op = (RInt z, s)) ->
  follows (rw (Some (z, d))) s op.
Proof using Type. intros Hr E. exists true, d. by rewrite E. Qed.

Lemma AddUser_ok d s u p g prot dis : um_rep d s -> op_ok (AddUser u p g prot dis) ->
  follows (rw (umAddUser bstrdup d (Some u) (Some p) (Some g) prot dis)) s (AddUser u p g prot dis).
Proof using Type* bstrdup_ok.
  intros Hr (Hu & Hp & Hg).
  destruct (with_key (A := user) s u) as [a|] eqn:Eu; [|destruct (umCheckName (Some u)) eqn:Ecu;
    [destruct (umCheckName (Some p)) eqn:Ecp; [destruct (with_key (A := group) s g) as [b|] eqn:Eg|]|]].
  2: { eapply (follows_added (A := user)); [apply (add_user_ok bstrdup bstrdup_ok); try done; by rewrite Eg|].
       intros []; cbn [s_op]; by rewrite Eu, Ecu, Ecp, Eg. }
  all: unfold umAddUser; rewrite (user_exists_ok s d u Hr), Eu;
    rewrite ?bool_decide_true by done; rewrite ?(bool_decide_false (is_Some (@None user))) by (by intros [? ?]);
    cbn [bool_t Z.eqb negb mbind option_bind]; rewrite ?Ecu; cbn [negb]; rewrite ?Ecp; cbn [negb].
  2: rewrite (group_exists_ok s d g Hr), Eg, bool_decide_false by (by intros [? ?]);
     cbn [bool_t Z.eqb negb mbind option_bind].
  all: apply follows_err; [done|]; intros mem; cbn [s_op]; by rewrite Eu, ?Ecu, ?Ecp, ?Eg.
Qed.

Lemma AddGroup_ok d s g priv am prot dis : um_rep d s -> no_nul g ->
  follows (rw (umAddGroup d (Some g) priv am prot dis)) s (AddGroup g priv am prot dis).
Proof using Type*.
  intros Hr Hg. destruct (with_key (A := group) s g) as [a|] eqn:Eg; [|destruct (umCheckName (Some g)) eqn:Ecg].
  2: { eapply (follows_added (A := group)); [by apply add_group_ok|]. intros []; cbn [s_op]; by rewrite Eg, Ecg. }
  all: unfold umAddGroup; rewrite (group_exists_ok s d g Hr), Eg;
    rewrite ?bool_decide_true by done; rewrite ?(bool_decide_false (is_Some (@None group))) by (by intros [? ?]);
    cbn [bool_t Z.eqb negb mbind option_bind]; rewrite ?Ecg; cbn [negb];
    apply follows_err; [done|]; intros mem; cbn [s_op]; by rewrite Eg, ?Ecg.
Qed.

Lemma AddAccessLimit_ok d s url am secure g : um_rep d s -> no_nul url -> no_nul (default [] g) ->
  follows (rw (umAddAccessLimit d (Some url) am secure g)) s (AddAccessLimit url am secure g).
Proof using Type*.
  intros Hr Hu Hg. destruct (with_key (A := limit) s url) as [a|] eqn:Eu.
  2: { eapply (follows_added (A := limit)); [by apply add_limit_ok|]. intros []; cbn [s_op]; by rewrite Eu. }
  unfold umAddAccessLimit; rewrite (exists_limit_ok s d url Hr), Eu, bool_decide_true by done.
  cbn [bool_t Z.eqb negb mbind option_bind]. apply follows_err; [done|]; intros mem; cbn [s_op]; by rewrite Eu.
Qed.

Lemma DeleteUser_ok d s u : um_rep d s -> follows (rw (umDeleteUser d (Some u))) s (DeleteUser u).
Proof using Type*.
  intros Hr. destruct (with_key (A := user) s u) as [a|] eqn:Eu; [destruct (s16 (u_prot a) =? 0) eqn:Ep|].
  - eapply follows_changed; [apply (delete_user_ok s d u a Hr Eu); lia|].
    intros mem. cbn [s_op]. by rewrite Eu, Ep.
  - unfold umDeleteUser. rewrite (user_protected_ok s d u Hr), Eu. cbn [mbind option_bind]. rewrite Ep. cbn [negb].
    apply follows_err; [done|]. intros mem. cbn [s_op]. by rewrite Eu, Ep.
  - unfold umDeleteUser. rewrite (user_protected_ok s d u Hr), Eu. cbn [mbind option_bind Z.eqb negb].
    at_key user s u Hr; [congruence|].
    apply follows_err; [done|]. intros mem. cbn [s_op]. by rewrite Eu.
Qed.

Lemma DeleteGroup_ok d s g : um_rep d s -> follows (rw (umDeleteGroup d (Some g))) s (DeleteGroup g).
Proof using Type*.
  intros Hr. destruct (group_in_use s g) eqn:Eu;
    [|destruct (with_key (A := group) s g) as [a|] eqn:Eg; [destruct (s16 (g_prot a) =? 0) eqn:Ep|]].
  - unfold umDeleteGroup. rewrite (group_in_use_ok s d g Hr), Eu. cbn [mbind option_bind bool_t Z.eqb negb].
    apply follows_err; [done|]. intros mem. cbn [s_op]. fold (group_in_use s g). by rewrite Eu.
  - eapply follows_changed; [apply (delete_group_ok s d g a Hr Eu Eg); lia|].
    intros mem. cbn [s_op]. fold (group_in_use s g). by rewrite Eu, Eg, Ep.
  - unfold umDeleteGroup. rewrite (group_in_use_ok s d g Hr), Eu. cbn [mbind option_bind bool_t Z.eqb negb].
    rewrite (group_protected_ok s d g Hr), Eg. cbn [mbind option_bind]. rewrite Ep. cbn [negb].
    apply follows_err; [done|]. intros mem. cbn [s_op]. fold (group_in_use s g). by rewrite Eu, Eg, Ep.
  - unfold umDeleteGroup. rewrite (group_in_use_ok s d g Hr), Eu. cbn [mbind option_bind bool_t Z.eqb negb].
    rewrite (group_protected_ok s d g Hr), Eg. cbn [mbind option_bind Z.eqb negb].
    at_key group s g Hr; [congruence|].
    apply follows_err; [done|]. intros mem. cbn [s_op]. fold (group_in_use s g). by rewrite Eu, Eg.
Qed.

Lemma password_ok s d k : um_rep d s ->
  umGetUserPassword bstrdup d (Some k) =
    Some (match with_key s k with Some a => Some (umEncryptString (u_pass a)).1 | None => None end).
Proof using Type* bstrdup_ok.
  intros Hr. unfold umGetUserPassword. at_key user s k Hr; [|done]. read_col d UM_PASS 1%nat.
  unfold bstrdup_ptr. cbn [default from_option id]. by rewrite bstrdup_ok.
Qed.

(** A function that only reads. *)
Ltac reads l := eapply follows_read; [eassumption|intros; reflexivity|]; erewrite l by eassumption;
  unfold ri, rp; cbn [mbind option_bind s_op fst]; do 2 f_equal; try (by case_match); try (by f_equal; case_match).

Lemma do_um_ok fuel d s op : um_rep d s -> op_ok op -> (exists n, sizes s n /\ (n < fuel)%nat) ->
  follows (do_um bstrdup fuel d op) s op.
Proof using Type* bstrdup_ok.
  intros Hr Hop (n & (Hu & Hg & Hl) & Hn).
  destruct op; cbn [do_um op_ok] in *; try destruct Hop as [Hop1 Hop2].
  - by apply AddUser_ok.
  - by apply DeleteUser_ok.
  - reads user_exists_ok.
  - eapply follows_read; [done|done|]. unfold umGetFirstUser. table_names. rewrite (first_ok (A := user) s) by (done || cbn; lia). done.
  - eapply follows_read; [done|done|]. unfold umGetNextUser. table_names. rewrite (next_ok (A := user) s) by (done || cbn; lia). done.
  - reads password_ok.
  - by eapply follows_changed; [apply (set_password_ok bstrdup bstrdup_ok)|].
  - reads user_group_ok.
  - by eapply follows_changed; [apply set_user_group_ok|].
  - reads user_enabled_ok.
  - by eapply follows_changed; [apply set_user_enabled_ok|].
  - reads user_protected_ok.
  - by eapply follows_changed; [apply set_user_protected_ok|].
  - by apply AddGroup_ok.
  - by apply DeleteGroup_ok.
  - reads group_exists_ok.
  - reads group_in_use_ok.
  - eapply follows_read; [done|done|]. unfold umGetFirstGroup. table_names. rewrite (first_ok (A := group) s) by (done || cbn; lia). done.
  - eapply follows_read; [done|done|]. unfold umGetNextGroup. table_names. rewrite (next_ok (A := group) s) by (done || cbn; lia). done.
  - reads group_method_ok.
  - by eapply follows_changed; [apply set_group_method_ok|].
  - reads group_privilege_ok.
  - by eapply follows_changed; [apply set_group_privilege_ok|].
  - reads group_enabled_ok.
  - by eapply follows_changed; [apply set_group_enabled_ok|].
  - reads group_protected_ok.
  - by eapply follows_changed; [apply set_group_protected_ok|].
  - by apply AddAccessLimit_ok.
  - by eapply follows_changed; [apply delete_limit_ok|].
  - reads exists_limit_ok.
  - eapply follows_read; [done|done|]. unfold umGetFirstAccessLimit. table_names. rewrite (first_ok (A := limit) s) by (done || cbn; lia). done.
  - eapply follows_read; [done|done|]. unfold umGetNextAccessLimit. table_names. rewrite (next_ok (A := limit) s) by (done || cbn; lia). done.
  - reads limit_method_ok.
  - by eapply follows_changed; [apply set_limit_method_ok|].
  - reads limit_secure_ok.
  - by eapply follows_changed; [apply set_limit_secure_ok|].
  - reads limit_group_ok.
  - by eapply follows_changed; [apply set_limit_group_ok|].
  - eapply follows_read; [done|done|]. rewrite (access_limit_ok bstrdup bstrdup_ok s) by done. done.
  - eapply follows_read; [done|done|]. rewrite (method_for_url_ok bstrdup bstrdup_ok s) by done. done.
  - eapply follows_read; [done|done|]. rewrite (can_access_ok bstrdup bstrdup_ok s) by done. done.
Qed.

Lemma run_um_ok fuel ops : forall d s n, um_rep d s -> Forall op_ok ops -> sizes s n -> (n + length ops <= fuel)%nat ->
  exists mems d', length mems = length ops /\
    run_um bstrdup fuel d ops = Some ((s_run s (zip mems ops)).1, d') /\ um_rep d' (s_run s (zip mems ops)).2.
Proof using Type* bstrdup_ok.
  induction ops as [|op ops IH]; intros d s n Hr Hops Hs Hf; [by exists [], d|].
  apply Forall_cons_iff in Hops as [Hop Hops]. cbn [length] in Hf.
  destruct (do_um_ok fuel d s op Hr Hop) as (mem & d1 & E1 & Hr1); [exists n; split; [done|lia]|].
  destruct (IH d1 _ (S n) Hr1 Hops) as (mems & d' & El & E & Hr'); [by apply s_op_sizes|lia|].
  exists (mem :: mems), d'. cbn [length run_um]. rewrite E1. cbn [mbind option_bind]. rewrite E.
  cbn [mbind option_bind zip zip_with s_run]. destruct (s_op mem s op) as [r s1]. cbn [fst snd] in *.
  destruct (s_run s1 (zip mems ops)) as [rs s2]. by rewrite El.
Qed.

Definition no_users : ums := mkUms [] [] [].

Lemma umOpen_rep st did st' : didUM st = -1 -> umOpenCount st = 0 -> umOpen bstrdup st = Some (did, st') ->
  did = 0 /\ um_rep (um_db st') no_users.
Proof using Type*.
  intros Hd Hc. destruct st as [did0 fn cnt d0]. cbn in Hd, Hc. subst. unfold umOpen. cbn [umOpenCount didUM].
  change (s32 (0 + 1)) with 1. cbn [Z.eqb Pos.eqb negb um_db].
  destruct (dbOpen d0) as [r0 d] eqn:E0. pose proof (db_open_ok d0) as [Er Hr]. rewrite E0 in Er, Hr. cbn in Er, Hr. subst r0.
  assert (Hv : forall sch, In sch [userTable; groupTable; accessTable] -> view_ok (mkView (sch_name sch) (sch_cols sch) [])).
  { intros sch Hin. assert (Hty : Forall (fun col => col.2 = T_INT \/ col.2 = T_STRING) (sch_cols sch) /\ sch_cols sch <> []).
    { destruct Hin as [<-|[<-|[<-|[]]]]; (split; [by repeat constructor; first [by left|by right]|done]). }
    destruct Hty. split; cbn; [done|done|by intros r cells; rewrite lookup_nil|done]. }
  destruct (dbRegisterDBSchema d userTable) as [[r1 d1]|] eqn:E1; [|done]. cbn [mbind option_bind].
  destruct (db_register_ok _ _ _ _ _ Hr (Hv _ ltac:(by left)) E1) as [_ H1].
  destruct (dbRegisterDBSchema d1 groupTable) as [[r2 d2]|] eqn:E2; [|done]. cbn [mbind option_bind].
  destruct (db_register_ok _ _ _ _ _ H1 (Hv _ ltac:(by right; left)) E2) as [_ H2].
  destruct (dbRegisterDBSchema d2 accessTable) as [[r3 d3]|] eqn:E3; [|done]. cbn [mbind option_bind].
  destruct (db_register_ok _ _ _ _ _ H2 (Hv _ ltac:(by right; right; left)) E3) as [_ H3].
  intros [= <- <-]. destruct fn; (split; [done|exact H3]).
Qed.
End Runs.
