(* ===== verification/UmProps.v ===== *)
(** * Properties of the user management

    What any run of calls of um.c gives: the refinement of [s_op], unique names and groups
    that exist, the walk over the users, passwords, and who may open which URL. *)

From S2P Require Import Prelude Handles EmfDb EmfDbSpec CString DbIface Um UmSpec UmRefine.
#[local] Open Scope Z_scope.
#[local] Open Scope cint_scope.

(** ** Passwords *)

(** Encrypting twice is the identity on text without blanks. *)
Lemma encrypt_involutive p : forall mask, no_nul p -> forallb (fun c => negb (isspace c)) p = true ->
  umEncrypt_loop (umEncrypt_loop p mask) mask = p.
Proof.
  induction p as [|c p IH]; intros mask Hn Hb; [done|]. cbn [umEncrypt_loop forallb] in *.
  apply Forall_cons_iff in Hn as [Hc Hn]. apply andb_true_iff in Hb as [Hs Hb]. rewrite IH by done. f_equal.
  set (m := hd 0 mask). destruct (Z.eqb_spec (Z.lxor c m) 0) as [E|E]; cbn [negb andb].
  - by rewrite E.
  - destruct (isspace (Z.lxor c m)) eqn:Ei; cbn [negb andb].
    + destruct (Z.eqb_spec (Z.lxor c m) 0); [done|]. by rewrite Ei.
    + rewrite Z.lxor_assoc, Z.lxor_nilpotent, Z.lxor_0_r, Hs. by destruct (Z.eqb_spec c 0).
Qed.

Lemma check_name_chars p : umCheckName (Some p) = true -> forallb (fun c => negb (isspace c)) p = true.
Proof. by destruct p. Qed.

(** ** The slots of a table *)

Section Slots.
Context {A : Type} `{TableLaws A}.
Implicit Types (l : list (option A)) (a : A).

Lemma elem_keys l k : k ∈ keys_of l <-> exists r a, l !! r = Some (Some a) /\ key a = k.
Proof using Type.
  unfold keys_of. rewrite list_elem_of_fmap. split.
  - intros (a & -> & Ha). apply list_elem_of_omap in Ha as (o & Ho & E). cbn in E. subst o.
    apply list_elem_of_lookup_1 in Ho as [r Hr]. by exists r, a.
  - intros (r & a & Hr & <-). exists a. split; [done|]. apply list_elem_of_omap. exists (Some a).
    split; [by eapply list_elem_of_lookup_2|done].
Qed.

Lemma find_key_None l k : find_key k l = None <-> k ∉ keys_of l.
Proof using Type.
  unfold find_key, find_by. rewrite findi_None, elem_keys. split.
  - intros HF (r & a & Hr & Hk). pose proof (Forall_lookup_1 _ _ _ _ HF Hr) as E. cbn in E.
    by apply bool_decide_eq_false in E.
  - intros Hn. apply Forall_lookup. intros r [a|] Hr; [|done]. apply bool_decide_eq_false. intros Hk.
    apply Hn. by exists r, a.
Qed.

Lemma with_key_elem s k : is_Some (with_key (A := A) s k) <-> k ∈ keys (A := A) s.
Proof using Type.
  change (keys (A := A) s) with (keys_of (tget (A := A) s)).
  destruct (decide (k ∈ keys_of (tget (A := A) s))) as [Hk|Hk].
  - split; [done|intros _]. destruct (key_cases (A := A) s k) as [(r & a & _ & _ & E & _)|[E _]]; [by rewrite E|].
    by apply find_key_None in E.
  - split; [|done]. intros [a Ha]. exfalso. unfold with_key in Ha. apply find_key_None in Hk. by rewrite Hk in Ha.
Qed.

Lemma keys_alter l f r : (forall a, key (f a) = key a) -> keys_of (alter (fmap f) r l) = keys_of l.
Proof using Type.
  intros Hf. unfold keys_of. revert r. induction l as [|[a|] l IH]; intros [|r]; cbn; try done; f_equal; auto.
Qed.

Lemma keys_trim l : keys_of (trim l) = keys_of l.
Proof using Type.
  unfold keys_of. induction l as [|[a|] l IH]; cbn [trim omap list_omap id map]; [done|by rewrite <- IH|].
  rewrite <- IH. by destruct (trim l).
Qed.

Lemma keys_insert l r o x : l !! r = Some x ->
  keys_of (<[r := o]> l) ++ keys_of [x] ≡ₚ keys_of l ++ keys_of [o].
Proof using Type.
  intros Hr. pose proof (lookup_lt_Some _ _ _ Hr).
  assert (Hk : forall (l1 l2 : list (option A)), keys_of (l1 ++ l2) = keys_of l1 ++ keys_of l2)
    by (intros; unfold keys_of; by rewrite omap_app, map_app).
  assert (E1 : keys_of (<[r := o]> l) = keys_of (take r l) ++ keys_of [o] ++ keys_of (drop (S r) l))
    by (rewrite insert_take_drop by done; by rewrite <- !Hk).
  assert (E2 : keys_of l = keys_of (take r l) ++ keys_of [x] ++ keys_of (drop (S r) l))
    by (rewrite <- !Hk; cbn [app]; by rewrite take_drop_middle).
  rewrite E1, E2, <- !app_assoc. apply Permutation_app_head.
  rewrite (Permutation_app_comm (keys_of [o])), (Permutation_app_comm (keys_of [x]) (_ ++ _)), <- !app_assoc.
  apply Permutation_app_head, Permutation_app_comm.
Qed.

Lemma keys_fill l a : keys_of (fill_slot l (free_slot l) a) ≡ₚ key a :: keys_of l.
Proof using Type.
  unfold fill_slot. case_decide as Hn.
  - assert (Hh : l !! free_slot l = Some None).
    { unfold free_slot in *. destruct (findi is_hole l) as [k|] eqn:E; cbn in *; [|lia].
      apply findi_Some in E as (x & Hx & Ex & _). by destruct x. }
    pose proof (keys_insert l (free_slot l) (Some a) None Hh) as E. cbn in E. rewrite app_nil_r in E. rewrite E.
    by rewrite Permutation_app_comm.
  - unfold keys_of. rewrite omap_app, map_app. cbn. by rewrite Permutation_app_comm.
Qed.

Lemma keys_free l r a : l !! r = Some (Some a) -> keys_of l ≡ₚ key a :: keys_of (trim (<[r := None]> l)).
Proof using Type.
  intros Hr. rewrite keys_trim. pose proof (keys_insert l r None (Some a) Hr) as E. cbn in E.
  rewrite app_nil_r in E. rewrite <- E. by rewrite Permutation_app_comm.
Qed.

(** The record that was added is found by its key. *)
Lemma with_key_insert s a : with_key (A := A) s (key a) = None -> with_key (insert s a) (key a) = Some a.
Proof using Type*.
  intros Hn. assert (Hf : find_key (key a) (tget (A := A) s) = None).
  { destruct (key_cases (A := A) s (key a)) as [(r & b & _ & _ & E & _)|[E _]]; [congruence|done]. }
  unfold with_key, insert. rewrite t_getput. set (l := tget s) in *. set (n := free_slot l).
  assert (E : find_key (key a) (fill_slot l n a) = Some n).
  { apply findi_Some. exists (Some a). split_and!; [apply fill_slot_at|by apply bool_decide_eq_true|].
    intros i [b|] Hi Hb; [|done]. pose proof (free_slot_le l).
    assert (Hl : l !! i = Some (Some b)).
    { unfold fill_slot in Hb. fold n in Hb. case_decide; [by rewrite list_lookup_insert_ne in Hb by lia|].
      rewrite lookup_app_l in Hb by (unfold n in *; lia). done. }
    apply bool_decide_eq_false. intros Hk. apply find_key_None in Hf. apply Hf, elem_keys. by exists i, b. }
  rewrite E. cbn [mbind option_bind]. subst n. by rewrite fill_slot_at.
Qed.
End Slots.

(** ** The invariant *)

(** No name twice, and all of them good. *)
Definition tab_inv {A} `{Table A} (good : list Z -> Prop) (l : list (option A)) : Prop :=
  NoDup (keys_of l) /\ forall k, k ∈ keys_of l -> good k.

Definition good_name (k : list Z) : Prop := umCheckName (Some k) = true.

Record um_inv (s : ums) : Prop := {
  inv_users : tab_inv good_name (users s);
  inv_groups : tab_inv good_name (groups s);
  inv_limits : tab_inv (fun _ => True) (limits s)
}.

(** The group of every user exists. *)
Definition refs (s : ums) : Prop :=
  forall r u, users s !! r = Some (Some u) -> u_group u ∈ keys (A := group) s.

Section TabInv.
Context {A : Type} `{TableLaws A} (good : list Z -> Prop).
Implicit Types (l : list (option A)) (s : ums).

Lemma tab_update s k f s' : tab_inv good (tget (A := A) s) -> (forall a, key (f a) = key a) ->
  update s k f = Some s' -> exists l, s' = tput s l /\ tab_inv good l /\ keys_of l = keys (A := A) s /\
    exists r, l = alter (fmap f) r (tget s).
Proof using Type.
  intros Hi Hf. unfold update. destruct (find_key k (tget s)) as [r|]; [|done]. intros [= <-].
  eexists. split; [done|]. unfold tab_inv. rewrite keys_alter by done. split; [exact Hi|]. split; [done|]. by exists r.
Qed.

Lemma tab_insert s a : tab_inv good (tget (A := A) s) -> with_key (A := A) s (key a) = None -> good (key a) ->
  exists l, insert s a = tput s l /\ tab_inv good l /\ keys_of l ≡ₚ key a :: keys (A := A) s /\
    l = fill_slot (tget s) (free_slot (tget s)) a.
Proof using Type.
  intros [Hn Hg] Hk Hga. eexists. split; [done|].
  assert (Hnew : key a ∉ keys_of (tget (A := A) s)).
  { intros Hin. apply (with_key_elem (A := A) s (key a)) in Hin as [b Hb]. congruence. }
  split; [split|split; [apply keys_fill|done]].
  - rewrite keys_fill. by constructor.
  - intros k Hin. rewrite keys_fill in Hin. apply elem_of_cons in Hin as [->|Hin]; auto.
Qed.

Lemma tab_remove s k s' : tab_inv good (tget (A := A) s) -> remove (A := A) s k = Some s' ->
  exists l, s' = tput s l /\ tab_inv good l /\ keys (A := A) s ≡ₚ k :: keys_of l /\
    exists r, l = trim (<[r := None]> (tget s)).
Proof using Type.
  intros [Hn Hg]. unfold remove.
  destruct (key_cases (A := A) s k) as [(r & a & -> & Er & _ & <-)|[-> _]]; [|done]. intros [= <-].
  eexists. split; [done|]. pose proof (keys_free _ _ _ Er) as Hp. split; [|split; [exact Hp|by exists r]].
  rewrite Hp in Hn. apply NoDup_cons_1_2 in Hn. split; [done|].
  intros k Hk. apply Hg. rewrite Hp. apply elem_of_cons. by right.
Qed.
End TabInv.

(** The calls that do not move a user to another group. *)
Definition keeps_groups (op : umop) : Prop := match op with SetUserGroup _ _ => False | _ => True end.

Lemma refs_groups s l : refs s -> (forall r u, users s !! r = Some (Some u) -> u_group u ∈ keys_of l) ->
  refs (tput (A := group) s l).
Proof. intros Hr Hl r u Hu. by apply (Hl r). Qed.

Lemma refs_users s l : (forall r u, l !! r = Some (Some u) -> u_group u ∈ keys (A := group) s) ->
  refs (tput (A := user) s l).
Proof. intros Hl r u Hu. by apply (Hl r). Qed.

Lemma refs_update s f r : refs s -> (forall a, u_group (f a) = u_group a) ->
  refs (tput (A := user) s (alter (fmap f) r (users s))).
Proof.
  intros Hr Hf. apply refs_users. intros i u Hu. destruct (decide (i = r)) as [->|Hne].
  - rewrite list_lookup_alter_eq in Hu. destruct (users s !! r) as [[a|]|] eqn:E; try done.
    injection Hu as <-. rewrite Hf. by apply (Hr r).
  - rewrite list_lookup_alter_ne in Hu by done. by apply (Hr i).
Qed.

Lemma slot_trim {A} (l : list (option A)) r a : trim l !! r = Some (Some a) -> l !! r = Some (Some a).
Proof.
  intros Hu. assert (Hm : mjoin (trim l !! r) = Some a) by (by rewrite Hu). rewrite trim_lookup in Hm.
  by destruct (l !! r) as [[b|]|]; cbn in Hm; [injection Hm as ->| |].
Qed.

Lemma refs_remove_user s r : refs s -> refs (tput (A := user) s (trim (<[r := None]> (users s)))).
Proof.
  intros Hr. apply refs_users. intros i u Hu. apply slot_trim in Hu. destruct (decide (i = r)) as [->|Hne].
  - destruct (decide (r < length (users s))%nat) as [Hl|Hl].
    + by rewrite list_lookup_insert_eq in Hu.
    + rewrite lookup_ge_None_2 in Hu; [done|]. rewrite length_insert. lia.
  - rewrite list_lookup_insert_ne in Hu by done. by apply (Hr i).
Qed.

Lemma refs_insert_user s a : refs s -> u_group a ∈ keys (A := group) s -> refs (insert (A := user) s a).
Proof.
  intros Hr Ha. apply refs_users. intros i u Hu.
  assert (Hm : mjoin (fill_slot (users s) (free_slot (users s)) a !! i) = Some u)
    by (change (users s) with (tget (A := user) s); by rewrite Hu).
  rewrite fill_slot_lookup in Hm by apply free_slot_le. case_decide; [by injection Hm as <-|].
  destruct (users s !! i) as [[b|]|] eqn:E; cbn in Hm; [injection Hm as ->|done|done]. by apply (Hr i).
Qed.

Lemma not_in_use s g r u : group_in_use s g = false -> users s !! r = Some (Some u) -> u_group u <> g.
Proof.
  intros Hg Hu Heq. unfold group_in_use in Hg. apply orb_false_iff in Hg as [Hg _].
  apply bool_decide_eq_false in Hg. destruct (find_by _ (users s)) eqn:E; [by destruct Hg|].
  apply findi_None in E. pose proof (Forall_lookup_1 _ _ _ _ E Hu) as E1. cbn in E1.
  by apply bool_decide_eq_false in E1.
Qed.

Lemma is_some_elem {A} `{TableLaws A} s k : bool_decide (is_Some (with_key (A := A) s k)) = true ->
  k ∈ keys (A := A) s.
Proof. intros E. apply bool_decide_eq_true in E. by apply with_key_elem. Qed.

Lemma not_some_none {A} `{TableLaws A} s k : bool_decide (is_Some (with_key (A := A) s k)) = false ->
  with_key (A := A) s k = None.
Proof. intros E. apply bool_decide_eq_false in E. destruct (with_key s k); [by destruct E|done]. Qed.

(** A change of a record that keeps its name; [U] is the fact about its table. *)
Ltac by_update U :=
  case_match; [|split; [by split|done]];
  match goal with E : update _ _ _ = Some _ |- _ =>
    let Hrefs := fresh "Hrefs" in destruct (U _ _ _ E) as [? Hrefs]; [by intros []|]
  end; split; [done|].

Lemma s_op_inv mem s op : um_inv s ->
  um_inv (s_op mem s op).2 /\ (keeps_groups op -> refs s -> refs (s_op mem s op).2).
Proof.
  intros [Hu Hg Hl].
  assert (Uu : forall k f s', update (A := user) s k f = Some s' -> (forall a, u_name (f a) = u_name a) ->
    um_inv s' /\ ((forall a, u_group (f a) = u_group a) -> refs s -> refs s')).
  { intros k f s' E Hf. destruct (tab_update (A := user) good_name s k f s' Hu Hf E) as (l & -> & Hi & _ & r & ->).
    split; [by split|]. intros. by apply refs_update. }
  assert (Ug : forall k f s', update (A := group) s k f = Some s' -> (forall a, g_name (f a) = g_name a) ->
    um_inv s' /\ (refs s -> refs s')).
  { intros k f s' E Hf. destruct (tab_update (A := group) good_name s k f s' Hg Hf E) as (l & -> & Hi & Hk & _).
    split; [by split|]. intros Hr. apply refs_groups; [done|]. rewrite Hk. exact Hr. }
  assert (Ul : forall k f s', update (A := limit) s k f = Some s' -> (forall a, l_url (f a) = l_url a) ->
    um_inv s' /\ (refs s -> refs s')).
  { intros k f s' E Hf. destruct (tab_update (A := limit) (fun _ => True) s k f s' Hl Hf E) as (l & -> & Hi & _).
    split; [by split|done]. }
  destruct op; cbn [s_op keeps_groups]; try (split; [by split|done]).
  - (* AddUser *)
    repeat case_match; try (split; [by split|done]); cbn [snd].
    destruct (tab_insert (A := user) good_name s (mkUser u (umEncryptString pass).1 g prot disabled) Hu) as (l & E & Hi & _);
      [by apply not_some_none|by apply negb_false_iff|]. rewrite E.
    split; [by split|]. intros _ Hr. rewrite <- E. apply refs_insert_user; [done|].
    by apply (is_some_elem (A := group)), negb_false_iff.
  - (* DeleteUser *)
    repeat case_match; try (split; [by split|done]); cbn [snd].
    match goal with E : remove _ _ = Some _ |- _ =>
      destruct (tab_remove (A := user) good_name s _ _ Hu E) as (l & -> & Hi & _ & r & ->) end.
    split; [by split|]. intros _ Hr. by apply refs_remove_user.
  - by_update Uu. intros _. by apply Hrefs; intros [].
  - by_update Uu. done.
  - by_update Uu. intros _. by apply Hrefs; intros [].
  - by_update Uu. intros _. by apply Hrefs; intros [].
  - (* AddGroup *)
    repeat case_match; try (split; [by split|done]); cbn [snd].
    destruct (tab_insert (A := group) good_name s (mkGroup g priv am prot disabled) Hg) as (l & E & Hi & Hk & _);
      [by apply not_some_none|by apply negb_false_iff|]. rewrite E.
    split; [by split|]. intros _ Hr. apply refs_groups; [done|]. intros r u Hur. rewrite Hk.
    apply elem_of_cons. right. by apply (Hr r).
  - (* DeleteGroup *)
    fold (group_in_use s g). destruct (group_in_use s g) eqn:Eu; [split; [by split|done]|].
    repeat case_match; try (split; [by split|done]); cbn [snd].
    match goal with E : remove _ _ = Some _ |- _ =>
      destruct (tab_remove (A := group) good_name s _ _ Hg E) as (l & -> & Hi & Hk & _) end.
    split; [by split|]. intros _ Hr. apply refs_groups; [done|]. intros r u Hur.
    pose proof (Hr r u Hur) as Hin. rewrite Hk in Hin. apply elem_of_cons in Hin as [Hin|Hin]; [|done].
    by destruct (not_in_use s g r u Eu Hur).
  - by_update Ug. auto.
  - by_update Ug. auto.
  - by_update Ug. auto.
  - by_update Ug. auto.
  - (* AddAccessLimit *)
    repeat case_match; try (split; [by split|done]); cbn [snd].
    destruct (tab_insert (A := limit) (fun _ => True) s (mkLimit url am secure (default [] g)) Hl) as (l & E & Hi & _);
      [by apply not_some_none|done|]. rewrite E. split; [by split|done].
  - (* DeleteAccessLimit *)
    repeat case_match; try (split; [by split|done]); cbn [snd].
    match goal with E : remove _ _ = Some _ |- _ =>
      destruct (tab_remove (A := limit) (fun _ => True) s _ _ Hl E) as (l & -> & Hi & _) end.
    split; [by split|done].
  - by_update Ul. auto.
  - by_update Ul. auto.
  - by_update Ul. auto.
Qed.

Lemma s_run_inv ops : forall s, um_inv s -> um_inv (s_run s ops).2 /\
  (Forall (fun op => keeps_groups op.2) ops -> refs s -> refs (s_run s ops).2).
Proof.
  induction ops as [|[mem op] ops IH]; intros s Hs; [by split|]. cbn [s_run].
  destruct (s_op_inv mem s op Hs) as [Hi Hr]. destruct (s_op mem s op) as [r s1]. cbn [snd] in *.
  destruct (IH s1 Hi) as [Hi' Hr']. destruct (s_run s1 ops) as [rs s2]. cbn [snd] in *.
  split; [done|]. intros [H1 H2]%Forall_cons_iff Hrefs. auto.
Qed.

Lemma no_users_inv : um_inv no_users /\ refs no_users.
Proof.
  split; [split; (split; [apply NoDup_nil_2|intros k Hk; by apply elem_of_nil in Hk])|].
  intros r u. cbn. by rewrite lookup_nil.
Qed.

(** ** The parents of a URL *)

(** The first [n] characters of [url] are [url] itself, or a directory it is in: they end
    with a separator that the name of the next part follows. *)
Definition path_end (url : list Z) (n : nat) : Prop :=
  (0 < n)%nat /\ (n = length url \/
    exists s c, url !! (n - 1)%nat = Some s /\ is_sep s = true /\ url !! n = Some c /\ is_sep c = false).

Lemma dropwhile_back_spec f u : exists t, u = dropwhile_back f u ++ t /\ Forall (fun c => f c = true) t /\
  (dropwhile_back f u = [] \/ exists q c, dropwhile_back f u = q ++ [c] /\ f c = false).
Proof.
  induction u as [|c u (t & E & Ht & Hl)] using rev_ind; [exists []; split_and!; [done|constructor|by left]|].
  rewrite dropwhile_back_app. destruct (f c) eqn:Ec.
  - exists (t ++ [c]). rewrite app_assoc, <- E. split_and!; [done| |done].
    apply Forall_app. split; [done|]. by repeat constructor.
  - exists []. rewrite app_nil_r. split_and!; [done|constructor|]. right. by exists u, c.
Qed.

Lemma parent_spec u : exists m t, u = parent u ++ m ++ t /\ Forall (fun c => is_sep c = false) m /\
  Forall (fun c => is_sep c = true) t /\ (m <> [] \/ parent u = []) /\
  (parent u = [] \/ exists q c, parent u = q ++ [c] /\ is_sep c = true).
Proof.
  unfold parent. destruct (dropwhile_back_spec is_sep u) as (t & E & Ht & Hl).
  destruct (dropwhile_back_spec (fun c => negb (is_sep c)) (dropwhile_back is_sep u)) as (m & Em & Hm & Hlm).
  set (r := dropwhile_back _ (dropwhile_back is_sep u)) in *. exists m, t. split_and!.
  - by rewrite app_assoc, <- Em.
  - eapply List.Forall_impl; [|exact Hm]. intros c. apply negb_true_iff.
  - done.
  - destruct Hl as [Hl|(q & c & Hl & Hc)].
    + right. rewrite Hl in Em. symmetry in Em. by apply app_eq_nil in Em as [? _].
    + left. intros ->. rewrite app_nil_r in Em. rewrite Em in Hl.
      destruct Hlm as [Hlm|(q' & c' & Hlm & Hc')]; [rewrite Hlm in Hl; by destruct q|].
      rewrite Hlm in Hl. apply app_inj_tail in Hl as [_ ->]. by rewrite Hc in Hc'.
  - destruct Hlm as [Hlm|(q & c & Hlm & Hc)]; [by left|right]. exists q, c. split; [done|]. by apply negb_false_iff.
Qed.

Lemma path_end_parent u n : (n < length u)%nat -> path_end u n <-> path_end (parent u) n.
Proof.
  intros Hn. destruct (parent_spec u) as (m & t & E & Hm & Ht & Hne & Hl). set (r := parent u) in *.
  split; intros [H0 Hp]; (split; [done|]).
  - destruct Hp as [->|(s & c & Hs & Es & Hc & Ec)]; [lia|]. rewrite E in Hs, Hc.
    destruct (Nat.lt_trichotomy n (length r)) as [Hlt|[?|Hgt]]; [right|by left|exfalso].
    + exists s, c. rewrite lookup_app_l in Hs, Hc by lia. done.
    + rewrite lookup_app_r in Hs, Hc by lia. destruct (decide (n - length r < length m)%nat) as [Hlm|Hlm].
      * rewrite lookup_app_l in Hs by lia. pose proof (Forall_lookup_1 _ _ _ _ Hm Hs) as E'. cbn in E'. congruence.
      * rewrite lookup_app_r in Hc by lia. pose proof (Forall_lookup_1 _ _ _ _ Ht Hc) as E'. cbn in E'. congruence.
  - right. destruct Hp as [->|(s & c & Hs & Es & Hc & Ec)].
    + destruct Hl as [Hl|(q & s & Hl & Es)]; [by rewrite Hl in H0; cbn in H0; lia|].
      destruct Hne as [Hne|Hne]; [|by rewrite Hne in H0; cbn in H0; lia].
      destruct m as [|c m]; [done|]. apply Forall_cons_iff in Hm as [Hc _].
      exists s, c. rewrite E. split_and!; [|done| |done].
      * rewrite lookup_app_l by lia. rewrite Hl, length_app. cbn [length].
        replace (length q + 1 - 1)%nat with (length q) by lia. by apply list_lookup_middle.
      * change ((c :: m) ++ t) with (c :: (m ++ t)). by rewrite list_lookup_middle.
    + exists s, c. rewrite E. apply lookup_lt_Some in Hc as Hlt. rewrite !lookup_app_l by lia. done.
Qed.

Lemma take_parent u n : (n <= length (parent u))%nat -> take n u = take n (parent u).
Proof.
  intros Hn. destruct (parent_spec u) as (m & t & E & _). rewrite E at 1. by rewrite take_app_le.
Qed.

Lemma path_end_le u n : path_end u n -> (n <= length u)%nat.
Proof. intros [_ [->|(s & c & _ & _ & Hc & _)]]; [lia|]. apply lookup_lt_Some in Hc. lia. Qed.

(** The limit that governs a URL: of the URL and the directories it is in, the longest
    that has a limit. *)
Definition governs (s : ums) (url : list Z) (l : limit) : Prop :=
  exists n, path_end url n /\ with_key s (take n url) = Some l /\
    forall m, path_end url m -> (n < m)%nat -> with_key (A := limit) s (take m url) = None.

Lemma nearest_spec s url :
  match nearest s url with
  | Some l => governs s url l
  | None => forall n, path_end url n -> with_key (A := limit) s (take n url) = None
  end.
Proof.
  unfold nearest. assert (H : forall f u, (length u <= f)%nat -> match nearest_in f s u with
    | Some l => governs s u l
    | None => forall n, path_end u n -> with_key (A := limit) s (take n u) = None end); [|by apply H].
  induction f as [|f IH]; intros u Hf.
  { destruct u; [|cbn in Hf; lia]. intros n [H0 Hn]. cbn in Hn. destruct Hn as [->|(? & ? & ? & _)]; [lia|done]. }
  destruct (decide (u = [])) as [->|Hu].
  { intros n [H0 Hn]. cbn in Hn. destruct Hn as [->|(? & ? & ? & _)]; [lia|done]. }
  assert (En : nearest_in (S f) s u = match with_key s u with Some l => Some l | None => nearest_in f s (parent u) end)
    by (by destruct u).
  rewrite En. pose proof (parent_shorter u Hu) as Hps.
  destruct (with_key s u) as [l|] eqn:Ew.
  - exists (length u). rewrite firstn_all. split_and!; [|done|].
    + split; [destruct u; cbn; [done|lia]|by left].
    + intros m Hm Hlt. apply path_end_le in Hm. lia.
  - specialize (IH (parent u) ltac:(lia)).
    assert (Hstep : forall n, path_end u n -> n = length u \/ path_end (parent u) n /\ take n u = take n (parent u)).
    { intros n Hn. destruct (decide (n = length u)) as [|Hne]; [by left|right]. pose proof (path_end_le _ _ Hn).
      assert (Hp : path_end (parent u) n) by (by apply (path_end_parent u); [lia|]).
      split; [done|]. apply take_parent. by apply path_end_le. }
    destruct (nearest_in f s (parent u)) as [l|].
    + destruct IH as (n & Hn & Hk & Hmax). pose proof (path_end_le _ _ Hn).
      exists n. split_and!.
      * by apply (path_end_parent u); [lia|].
      * by rewrite take_parent.
      * intros m Hm Hlt. destruct (Hstep m Hm) as [->|[Hp Et]]; [by rewrite firstn_all|]. rewrite Et. by apply Hmax.
    + intros n Hn. destruct (Hstep n Hn) as [->|[Hp Et]]; [by rewrite firstn_all|]. rewrite Et. by apply IH.
Qed.

Lemma governs_unique s url l l' : governs s url l -> governs s url l' -> l = l'.
Proof.
  intros (n & Hn & Hk & Hmax) (n' & Hn' & Hk' & Hmax').
  destruct (Nat.lt_trichotomy n n') as [Hlt|[->|Hlt]].
  - by rewrite (Hmax n' Hn' Hlt) in Hk'.
  - congruence.
  - by rewrite (Hmax' n Hn Hlt) in Hk.
Qed.

(** ** The properties *)

Section Properties.
Context {D : Type} `{DatabaseLaws D} (bstrdup : list Z -> cptr).
Hypothesis bstrdup_ok : forall s, bstrdup s = Some s.

(** The database after [umOpen] and any calls. *)
Lemma opened_run st did st' ops fuel : didUM st = -1 -> umOpenCount st = 0 ->
  umOpen bstrdup st = Some (did, st') -> Forall op_ok ops -> (length ops <= fuel)%nat ->
  exists mems d', length mems = length ops /\
    run_um bstrdup fuel (um_db st') ops = Some ((s_run no_users (zip mems ops)).1, d') /\
    um_rep d' (s_run no_users (zip mems ops)).2.
Proof using Type* bstrdup_ok.
  intros Hd Hc Ho Hops Hf. destruct (umOpen_rep bstrdup bstrdup_ok st did st' Hd Hc Ho) as [_ Hr].
  apply (run_um_ok bstrdup bstrdup_ok fuel ops (um_db st') no_users 0); done.
Qed.

(** C3. After [umOpen] every sequence of calls of the 41 functions on users, groups and access
    limits runs without a crash and returns, call by call, what the specification [s_op]
    says: every error code, every default of a record that is not found, the walks, the
    parents of a URL and the access decision.  [mems] tells for which additions there was
    memory.  It holds on every database with the laws of [DbIface]. *)
Theorem um_refines st did st' ops fuel : didUM st = -1 -> umOpenCount st = 0 ->
  umOpen bstrdup st = Some (did, st') -> Forall op_ok ops -> (length ops <= fuel)%nat ->
  exists mems d', length mems = length ops /\
    run_um bstrdup fuel (um_db st') ops = Some ((s_run no_users (zip mems ops)).1, d').
Proof using Type* bstrdup_ok.
  intros Hd Hc Ho Hops Hf.
  destruct (opened_run st did st' ops fuel Hd Hc Ho Hops Hf) as (mems & d' & El & E & _). by exists mems, d'.
Qed.

(** Whatever calls were made since [umOpen], no two users, groups or access limits have
    the same name, and the names of users and groups are not empty and have no blank.  If no
    call moved a user with [umSetUserGroup], the group of every user exists: [umAddUser] asks
    for it and [umDeleteGroup] does not remove a group in use. *)
Theorem um_names_unique st did st' ops fuel : didUM st = -1 -> umOpenCount st = 0 ->
  umOpen bstrdup st = Some (did, st') -> Forall op_ok ops -> (length ops <= fuel)%nat ->
  exists rs d' s, run_um bstrdup fuel (um_db st') ops = Some (rs, d') /\ um_rep d' s /\ um_inv s /\
    (Forall keeps_groups ops -> forall u g, umGetUserGroup d' (Some u) = Some (Some g) ->
       umGroupExists d' (Some g) = Some 1).
Proof using Type* bstrdup_ok.
  intros Hd Hc Ho Hops Hf.
  destruct (opened_run st did st' ops fuel Hd Hc Ho Hops Hf) as (mems & d' & El & E & Hr).
  eexists _, d', _. split; [exact E|]. split; [exact Hr|].
  destruct no_users_inv as [Hi0 Hr0]. destruct (s_run_inv (zip mems ops) no_users Hi0) as [Hi Hrefs].
  split; [done|]. intros Hk u g Hu.
  assert (Hrf : refs (s_run no_users (zip mems ops)).2).
  { apply Hrefs; [|done]. clear -Hk. revert ops Hk. induction mems as [|b mems IH]; intros [|op ops] Hk; try constructor.
    - by apply Forall_cons_iff in Hk as [? _].
    - apply IH. by apply Forall_cons_iff in Hk as [_ ?]. }
  set (s := (s_run no_users (zip mems ops)).2) in *.
  rewrite (user_group_ok s d' u Hr) in Hu. rewrite (group_exists_ok s d' g Hr).
  destruct (key_cases (A := user) s u) as [(r & a & _ & Er & Ew & _)|[_ Ew]]; rewrite Ew in Hu; [|done].
  injection Hu as <-. specialize (Hrf r a Er). apply (with_key_elem (A := group)) in Hrf.
  by rewrite bool_decide_true.
Qed.

(** The walk over the users: [umGetFirstUser] and then [umGetNextUser] give every user
    once, those and no others, in the order of the rows, and then the null pointer.  The
    rows of deleted users are passed over, and the loops of the walk end. *)
Theorem um_walk_users st did st' ops fuel : didUM st = -1 -> umOpenCount st = 0 ->
  umOpen bstrdup st = Some (did, st') -> Forall op_ok ops -> (length ops < fuel)%nat ->
  exists rs d' names, run_um bstrdup fuel (um_db st') ops = Some (rs, d') /\ NoDup names /\
    (forall u, umUserExists d' (Some u) = Some 1 <-> u ∈ names) /\
    umGetFirstUser fuel d' = Some (names !! 0%nat) /\
    forall i u, names !! i = Some u -> umGetNextUser fuel d' u = Some (names !! S i).
Proof using Type* bstrdup_ok.
  intros Hd Hc Ho Hops Hf.
  destruct (opened_run st did st' ops fuel Hd Hc Ho Hops) as (mems & d' & El & E & Hr); [lia|].
  destruct no_users_inv as [Hi0 _]. destruct (s_run_inv (zip mems ops) no_users Hi0) as [[[Hnd Hgood] _ _] _].
  assert (Hsz : forall l s n, sizes s n -> sizes (s_run s l).2 (n + length l)).
  { clear. induction l as [|[mem op] l IH]; intros s n Hs; [by rewrite Nat.add_0_r|]. cbn [s_run length].
    pose proof (s_op_sizes mem s op n Hs) as H1. destruct (s_op mem s op) as [r s1]. cbn [snd] in H1.
    specialize (IH s1 (S n) H1). destruct (s_run s1 l) as [rs s2]. cbn [snd] in *.
    by replace (n + S (length l))%nat with (S n + length l)%nat by lia. }
  destruct (Hsz (zip mems ops) no_users 0%nat) as [Hlen _]; [by repeat split|]. rewrite length_zip_with in Hlen.
  set (s := (s_run no_users (zip mems ops)).2) in *.
  assert (Hfu : (length (tget (A := user) s) < fuel)%nat) by (cbn; lia).
  assert (Hfk : forall ks, (forall k, k ∈ ks -> good_name k) -> first_key ks = ks !! 0%nat).
  { intros [|k ks] Hk; [done|]. rewrite first_key_cons. specialize (Hk k ltac:(apply elem_of_cons; by left)). by destruct k. }
  eexists _, d', (keys (A := user) s). split; [exact E|]. split; [exact Hnd|]. split_and!.
  - intros u. rewrite (user_exists_ok s d' u Hr), <- with_key_elem. case_bool_decide; cbn; naive_solver.
  - unfold umGetFirstUser. table_names. rewrite (first_ok (A := user) s d' fuel Hr Hfu). f_equal. by apply Hfk.
  - intros i u Hiu. unfold umGetNextUser. table_names. rewrite (next_ok (A := user) s d' fuel u Hr Hfu). f_equal.
    change (keys (A := user) s) with (keys_of (users s)) in *.
    pose proof (take_drop_middle _ _ _ Hiu) as Es. rewrite <- Es in Hnd.
    apply list.NoDup_app in Hnd as (_ & Hd1 & Hnd). apply list.NoDup_cons in Hnd as [Hd2 _].
    rewrite <- Es at 1. rewrite next_key_split by (intros Hin; apply (Hd1 u Hin), elem_of_cons; by left).
    assert (Hfl : forall l : list (list Z), u ∉ l -> filter (fun k' => k' <> u) l = l).
    { clear. induction l as [|k l IH]; intros Hu; [done|]. apply not_elem_of_cons in Hu as [Hk Hl].
      rewrite filter_cons, decide_True by congruence. by rewrite IH. }
    rewrite Hfl by done. rewrite Hfk, lookup_drop; [by rewrite Nat.add_0_r|].
    intros k Hk. apply Hgood. rewrite <- Es. apply elem_of_app. right. apply elem_of_cons. by right.
Qed.

(** [umGetAccessLimit] ends, and gives the nearest limit: of the URL and the directories
    it is in, cut where a separator is followed by the name of the next part, the longest
    one that has a limit, and the null pointer when none has. *)
Theorem umGetAccessLimit_nearest s d url : um_rep d s -> no_nul url ->
  exists res, umGetAccessLimit bstrdup d (Some url) = Some res /\
    match res with
    | Some p => exists n, path_end url n /\ p = take n url /\ umAccessLimitExists d (Some p) = Some 1 /\
                  forall m, path_end url m -> (n < m)%nat -> umAccessLimitExists d (Some (take m url)) = Some 0
    | None => forall n, path_end url n -> umAccessLimitExists d (Some (take n url)) = Some 0
    end.
Proof using Type* bstrdup_ok.
  intros Hr Hu. eexists. split; [by apply (access_limit_ok bstrdup bstrdup_ok s)|].
  pose proof (nearest_spec s url) as Hn.
  assert (Hno : forall k, with_key (A := limit) s k = None -> umAccessLimitExists d (Some k) = Some 0).
  { intros k Hk. rewrite (exists_limit_ok s d k Hr), Hk. by rewrite bool_decide_false by (by intros [? ?]). }
  destruct (nearest s url) as [l|]; cbn [fmap option_fmap option_map]; [|auto].
  destruct Hn as (n & Hp & Hk & Hmax). exists n.
  assert (El : l_url l = take n url).
  { destruct (key_cases (A := limit) s (take n url)) as [(r & a & _ & _ & E & Ek)|[E _]]; [|].
    - rewrite E in Hk. injection Hk as ->. exact Ek.
    - unfold with_key in Hk. by rewrite E in Hk. }
  rewrite El. split_and!; [done|done| |auto].
  rewrite (exists_limit_ok s d _ Hr), Hk. by rewrite bool_decide_true.
Qed.

(** C38. Who may open a URL.  [umUserCanAccessURL] returns 1 exactly when the user exists and
    is enabled, the group of the user exists, is enabled, has a privilege and an access
    method other than [AM_NONE], and the nearest limit of the URL, where there is one, has
    a method other than [AM_NONE] and names no group or the group of the user; it returns
    0 in every other case. *)
Theorem umUserCanAccessURL_correct s d u url : um_rep d s -> no_nul url ->
  exists z, umUserCanAccessURL bstrdup d (Some u) (Some url) = Some z /\ (z = 0 \/ z = 1) /\
    (z = 1 <-> exists usr grp,
       with_key s u = Some usr /\ u_disable usr = 0 /\
       with_key s (u_group usr) = Some grp /\ g_disable grp = 0 /\
       s16 (g_priv grp) <> 0 /\ g_method grp <> AM_NONE /\
       forall l, governs s url l -> l_method l <> AM_NONE /\ (l_group l = [] \/ l_group l = u_group usr)).
Proof using Type* bstrdup_ok.
  intros Hr Hu. exists (bool_t (can_access s u url)).
  split; [by apply (can_access_ok bstrdup bstrdup_ok)|]. split; [destruct (can_access _ _ _); [by right|by left]|].
  assert (Hb : forall b, bool_t b = 1 <-> b = true) by (by intros []). rewrite Hb. unfold can_access.
  pose proof (nearest_spec s url) as Hn.
  assert (Hlim : forall g : list Z, match nearest s url with
      | None => true
      | Some l => negb (l_method l =? AM_NONE) && (bool_decide (l_group l = []) || bool_decide (l_group l = g))
      end = true <-> forall l, governs s url l -> l_method l <> AM_NONE /\ (l_group l = [] \/ l_group l = g)).
  { intros g. destruct (nearest s url) as [l|].
    - rewrite andb_true_iff, orb_true_iff, !bool_decide_eq_true, negb_true_iff, Z.eqb_neq. split.
      + intros Hl l' Hl'. by rewrite <- (governs_unique s url l l' Hn Hl').
      + intros Hl. by apply Hl.
    - split; [|done]. intros _ l (n & Hp & Hk & _). by rewrite (Hn n Hp) in Hk. }
  destruct (with_key s u) as [usr|]; [|split; [done|by intros (? & ? & ? & _)]].
  rewrite andb_true_iff, Z.eqb_eq.
  destruct (with_key s (u_group usr)) as [grp|] eqn:Eg.
  - rewrite !andb_true_iff, !negb_true_iff, !Z.eqb_neq, Z.eqb_eq, Hlim. split.
    + intros (? & ((? & ?) & ?) & ?). by exists usr, grp.
    + intros (usr' & grp' & [= <-] & ? & Hg & ?). rewrite Eg in Hg. injection Hg as <-. naive_solver.
  - split; [by intros []|]. intros (usr' & grp' & [= <-] & _ & Hg & _). congruence.
Qed.

(** The specification returned another code than 0. *)
Ltac other_code E := exfalso; cbn [negb] in E; apply (f_equal fst) in E; vm_compute in E; discriminate E.

(** A password that [umAddUser] accepted is given back by [umGetUserPassword], although
    it is stored encrypted: the mask is undone, also past its 43 characters and where a
    character had to be kept. *)
Theorem umAddUser_password s d u pass g prot disabled d' : um_rep d s ->
  no_nul u -> no_nul pass -> no_nul g ->
  umAddUser bstrdup d (Some u) (Some pass) (Some g) prot disabled = Some (0, d') ->
  umGetUserPassword bstrdup d' (Some u) = Some (Some pass).
Proof using Type* bstrdup_ok.
  intros Hr Hu Hp Hg Hadd.
  destruct (AddUser_ok bstrdup bstrdup_ok d s u pass g prot disabled Hr) as (mem & d1 & E & Hr1); [done|].
  destruct (s_op mem s (AddUser u pass g prot disabled)) as [res s'] eqn:Eop. rewrite Hadd in E. injection E as <- <-.
  cbn [s_op fst snd] in *. destruct (bool_decide (is_Some (with_key s u))) eqn:Ew; [other_code Eop|].
  destruct (umCheckName (Some u)); [|other_code Eop]. destruct (umCheckName (Some pass)) eqn:Ec; [|other_code Eop].
  destruct (bool_decide (is_Some (with_key s g))); [|other_code Eop]. destruct mem; [|other_code Eop].
  apply (f_equal snd) in Eop. cbn [negb snd] in Eop. subst s'.
  rewrite (password_ok bstrdup bstrdup_ok _ d' u Hr1).
  pose proof (with_key_insert s (mkUser u (umEncryptString pass).1 g prot disabled)) as Hw. cbn [key user_table u_name] in Hw.
  rewrite Hw by by apply not_some_none. cbn [u_pass]. unfold umEncryptString. cbn [fst].
  do 2 f_equal. apply encrypt_involutive; [done|by apply check_name_chars].
Qed.
End Properties.

(** A password with a blank, which only [umSetUserPassword] takes, does not come back. *)
Lemma set_password_blank :
  (umEncryptString (umEncryptString (str "a b")).1).1 = str "aJb".
Proof. reflexivity. Qed.

(** ** Witnesses on the text-file database *)

#[local] Instance demo_emf : Database db := demo_db.
#[local] Instance demo_laws : DatabaseLaws db :=
  emf_laws demo_words demo_rewords demo_block demo_block Some demo_words_spec demo_rewords_spec
    demo_block_fresh demo_block_fresh (fun _ => eq_refl).

Definition demo_um0 : um (D := db) := mkUm (-1) None 0 demo_state0.
Definition demo_um : um (D := db) :=
  match umOpen Some demo_um0 with Some (_, st) => st | None => demo_um0 end.

Lemma demo_open : umOpen Some demo_um0 = Some (0, demo_um).
Proof. vm_compute. reflexivity. Qed.

Definition demo_calls : list umop :=
  [AddGroup (str "staff") 1 1 0 0; AddUser (str "amy") (str "secret9") (str "staff") 0 0;
   AddUser (str "bob") (str "pass") (str "staff") 0 0; AddUser (str "bob") (str "pass") (str "staff") 0 0;
   DeleteUser (str "amy"); DeleteGroup (str "staff"); AddUser (str "cid") (str "x") (str "staff") 0 0;
   AddUser (str "dan") (str "x") (str "staff") 0 1;
   AddAccessLimit (str "/a/") 1 0 (Some (str "staff")); AddAccessLimit (str "/a/c/") 0 0 None;
   UserCanAccessURL (str "bob") (str "/a/b/x.htm"); UserCanAccessURL (str "bob") (str "/a/c/y.htm");
   UserCanAccessURL (str "dan") (str "/"); FirstUser; NextUser (str "cid");
   GetUserPassword (str "bob")].

Lemma demo_calls_ok : Forall op_ok demo_calls.
Proof.
  assert (H : forall s, forallb (fun c => negb (c =? 0)) s = true -> no_nul s).
  { intros s Hs. apply Forall_forall. intros c Hc. rewrite forallb_forall in Hs.
    specialize (Hs c Hc). by apply negb_true_iff, Z.eqb_neq in Hs. }
  unfold demo_calls. repeat match goal with |- Forall op_ok (_ :: _) => apply Forall_cons_iff; split end;
    [..|apply Forall_nil]; cbn [op_ok];
    repeat match goal with |- _ /\ _ => split end; first [exact I|apply H; vm_compute; reflexivity].
Qed.

Definition demo_results : list ures :=
  [RInt 0; RInt 0; RInt 0; RInt UM_ERR_DUPLICATE; RInt 0; RInt UM_ERR_IN_USE; RInt 0; RInt 0; RInt 0; RInt 0;
   RInt 1; RInt 0; RInt 0; RStr (Some (str "cid")); RStr (Some (str "bob")); RStr (Some (str "pass"))].

Lemma demo_run : fst <$> run_um Some 20 (um_db demo_um) demo_calls = Some demo_results.
Proof. vm_compute. reflexivity. Qed.

Lemma um_refines_witness : exists mems d', length mems = length demo_calls /\
  run_um Some 20 (um_db demo_um) demo_calls = Some ((s_run no_users (zip mems demo_calls)).1, d') /\
  (s_run no_users (zip mems demo_calls)).1 = demo_results.
Proof.
  destruct (um_refines Some (fun _ => eq_refl) demo_um0 0 demo_um demo_calls 20 eq_refl eq_refl demo_open
    demo_calls_ok) as (mems & d' & El & E); [cbn; lia|].
  exists mems, d'. split; [exact El|]. split; [exact E|].
  pose proof demo_run as R. rewrite E in R. exact (f_equal (default []) R).
Defined.

Lemma um_names_unique_witness : exists rs d' s, run_um Some 20 (um_db demo_um) demo_calls = Some (rs, d') /\
  um_rep d' s /\ um_inv s /\ umGetUserGroup d' (Some (str "bob")) = Some (Some (str "staff")) /\
  umGroupExists d' (Some (str "staff")) = Some 1.
Proof.
  destruct (um_names_unique Some (fun _ => eq_refl) demo_um0 0 demo_um demo_calls 20 eq_refl eq_refl demo_open
    demo_calls_ok) as (rs & d' & s & E & Hr & Hi & Hg); [cbn; lia|].
  assert (Hb : umGetUserGroup d' (Some (str "bob")) = Some (Some (str "staff"))).
  { clear -E. vm_compute in E. injection E as _ <-. vm_compute. reflexivity. }
  exists rs, d', s. split; [exact E|]. split; [exact Hr|]. split; [exact Hi|]. split; [exact Hb|].
  apply (Hg ltac:(by repeat constructor) _ _ Hb).
Defined.

Lemma um_walk_users_witness : exists rs d' names, run_um Some 20 (um_db demo_um) demo_calls = Some (rs, d') /\
  NoDup names /\ umGetFirstUser 20 d' = Some (names !! 0%nat) /\
  names !! 0%nat = Some (str "cid") /\ umGetNextUser 20 d' (str "cid") = Some (names !! 1%nat) /\
  names !! 1%nat = Some (str "bob").
Proof.
  destruct (um_walk_users Some (fun _ => eq_refl) demo_um0 0 demo_um demo_calls 20 eq_refl eq_refl demo_open
    demo_calls_ok) as (rs & d' & names & E & Hn & _ & Hf & Hnext); [cbn; lia|].
  exists rs, d', names. split; [exact E|]. split; [exact Hn|]. split; [exact Hf|].
  assert (H0 : names !! 0%nat = Some (str "cid")).
  { vm_compute in E. injection E as _ <-. vm_compute in Hf. exact (eq_sym (f_equal (default None) Hf)). }
  split; [exact H0|]. pose proof (Hnext _ _ H0) as H1. split; [exact H1|].
  vm_compute in E. injection E as _ <-. vm_compute in H1. exact (eq_sym (f_equal (default None) H1)).
Defined.

(** The state after [demo_calls]. *)
Lemma demo_state_rep : exists rs d' s, run_um Some 20 (um_db demo_um) demo_calls = Some (rs, d') /\ um_rep d' s.
Proof.
  destruct (opened_run Some (fun _ => eq_refl) demo_um0 0 demo_um demo_calls 20 eq_refl eq_refl demo_open
    demo_calls_ok) as (mems & d' & _ & E & Hr); [cbn; lia|]. eauto.
Qed.

Lemma umGetAccessLimit_nearest_witness : exists rs d' res,
  run_um Some 20 (um_db demo_um) demo_calls = Some (rs, d') /\
  umGetAccessLimit Some d' (Some (str "/a/b/x.htm")) = Some res /\ res = Some (str "/a/") /\
  exists n, path_end (str "/a/b/x.htm") n /\ str "/a/" = take n (str "/a/b/x.htm").
Proof.
  destruct demo_state_rep as (rs & d' & s & E & Hr).
  destruct (umGetAccessLimit_nearest Some (fun _ => eq_refl) s d' (str "/a/b/x.htm") Hr) as (res & El & H);
    [by repeat constructor|].
  exists rs, d', res. split; [exact E|]. split; [exact El|].
  assert (Hres : res = Some (str "/a/")).
  { clear -E El. vm_compute in E. injection E as _ <-. vm_compute in El. by injection El as <-. }
  split; [exact Hres|]. rewrite Hres in H. destruct H as (n & Hp & Hn & _). exists n. split; [exact Hp|exact Hn].
Defined.

Lemma umUserCanAccessURL_correct_witness : exists rs d' s,
  run_um Some 20 (um_db demo_um) demo_calls = Some (rs, d') /\
  umUserCanAccessURL Some d' (Some (str "bob")) (Some (str "/a/b")) = Some 1 /\
  exists usr grp, with_key s (str "bob") = Some usr /\ with_key s (u_group usr) = Some grp /\ g_disable grp = 0.
Proof.
  destruct demo_state_rep as (rs & d' & s & E & Hr).
  destruct (umUserCanAccessURL_correct Some (fun _ => eq_refl) s d' (str "bob") (str "/a/b") Hr) as (z & Ez & _ & H);
    [by repeat constructor|].
  assert (Hz : z = 1).
  { clear -E Ez. vm_compute in E. injection E as _ <-. vm_compute in Ez. by injection Ez as <-. }
  exists rs, d', s. split; [exact E|]. split; [by rewrite Hz in Ez|].
  destruct (proj1 H Hz) as (usr & grp & H1 & _ & H2 & H3 & _).
  exists usr, grp. split; [exact H1|]. split; [exact H2|exact H3].
Defined.

Lemma umAddUser_password_witness : exists rs d' d'', run_um Some 20 (um_db demo_um) demo_calls = Some (rs, d') /\
  umAddUser Some d' (Some (str "eve")) (Some (str "j*X-y")) (Some (str "staff")) 0 0 = Some (0, d'') /\
  umGetUserPassword Some d'' (Some (str "eve")) = Some (Some (str "j*X-y")).
Proof.
  destruct demo_state_rep as (rs & d' & s & E & Hr).
  destruct (umAddUser Some d' (Some (str "eve")) (Some (str "j*X-y")) (Some (str "staff")) 0 0) as [[z d'']|] eqn:Ea.
  2: { vm_compute in E. injection E as _ <-. vm_compute in Ea. discriminate Ea. }
  assert (Hz : z = 0).
  { clear -E Ea. vm_compute in E. injection E as _ <-. vm_compute in Ea. by injection Ea as <- _. }
  subst z. exists rs, d', d''. split; [exact E|]. split; [exact Ea|].
  apply (umAddUser_password Some (fun _ => eq_refl) s d' (str "eve") (str "j*X-y") (str "staff") 0 0 d'' Hr);
    [by repeat constructor|by repeat constructor|by repeat constructor|exact Ea].
Defined.
