(* ===== verification/UmFile.v ===== *)
(** * The user management and its file (webs/src/src/um.c: umCommit, umRestore)

    The tables of [Um] in the text-file database of [EmfDb], written to the disk and read
    back with [EmfFile].  What [umCommit] wrote, [umRestore] brings back: no call of the
    module tells the difference. *)

From stdpp Require Import gmap.
From S2P Require Import Prelude CString Fmt Handles EmfDb EmfDbSpec DbIface EmfFile EmfFileSpec EmfRoundTrip.
From S2P Require Import Um UmSpec UmRefine UmProps.
#[local] Open Scope Z_scope.
#[local] Open Scope cint_scope.

Section File.
Context (lw : Z) (balloc : Z -> option (list Z)) (brealloc : list Z -> Z -> option (list Z)).
Context (basicProdDir : option (list Z)) (sys : io).
Context (balloc_words : Z -> option (list Z)) (brealloc_words : list Z -> Z -> option (list Z)).
Context (new_row : gmap Z (list cell) -> Z) (bstrdup : list Z -> option (list Z)).

(** The file name that a call leaves in [saveFilename]. *)
Definition set_filename (s : um) (filename : option (list Z)) : um (D := db) :=
  match filename with
  | Some (c :: nm) => mkUm (didUM s) (bstrdup (c :: nm)) (umOpenCount s) (um_db s)
  | _ => s
  end.

Definition umCommit (s : um) (files : disk) (filename : option (list Z)) : option (Z * um (D := db) * disk) :=
  let s := set_filename s filename in
  '(r, files) ← dbSave lw balloc brealloc basicProdDir sys (um_db s) files (saveFilename s);
  Some (r, s, files).

Definition umRestore (s : um) (files : disk) (filename : option (list Z)) : option (Z * um (D := db)) :=
  let s := set_filename s filename in
  d ← EmfDb.dbZero (um_db s);
  '(r, d) ← dbLoad lw balloc brealloc basicProdDir sys balloc_words brealloc_words new_row bstrdup d files (saveFilename s);
  Some (r, mkUm (didUM s) (saveFilename s) (umOpenCount s) d).
End File.

(** ** Without the holes *)

Definition packed {A} (l : list (option A)) : list (option A) := map Some (omap id l).
Definition compact (s : ums) : ums := mkUms (packed (users s)) (packed (groups s)) (packed (limits s)).

Lemma omap_packed {A} (l : list (option A)) : omap id (packed l) = omap id l.
Proof.
  assert (H : forall m : list A, omap id (map Some m) = m) by (induction m as [|a m IH]; cbn; [done|by rewrite IH]).
  apply H.
Qed.

(** What a search finds depends on the records only. *)
Lemma find_by_records {A} (p : A -> bool) l :
  (r ← find_by p l; mjoin (l !! r)) = (i ← findi p (omap id l); omap id l !! i).
Proof.
  unfold find_by. induction l as [|[a|] l IH]; cbn [findi omap list_omap]; [done| |].
  - destruct (p a) eqn:Ep; cbn [id mbind option_bind findi]; rewrite Ep; [done|].
    destruct (findi _ l) as [r|], (findi p (omap id l)) as [i|]; exact IH.
  - cbn [id]. destruct (findi _ l) as [r|]; exact IH.
Qed.

Lemma find_by_is_Some {A} (p : A -> bool) l : is_Some (find_by p l) <-> is_Some (findi p (omap id l)).
Proof.
  unfold find_by. induction l as [|[a|] l IH]; cbn [findi omap list_omap]; [done| |].
  - cbn [id]. cbn [findi]. destruct (p a); [done|]. by rewrite !fmap_is_Some.
  - cbn [id]. by rewrite fmap_is_Some.
Qed.

Lemma find_by_packed {A} (p : A -> bool) l : is_Some (find_by p (packed l)) <-> is_Some (find_by p l).
Proof. by rewrite !find_by_is_Some, omap_packed. Qed.

Class Packs (A : Type) `{Table A} : Prop := tget_compact s : tget (compact s) = packed (tget s).
#[export] Instance user_packs : Packs user. Proof. done. Qed.
#[export] Instance group_packs : Packs group. Proof. done. Qed.
#[export] Instance limit_packs : Packs limit. Proof. done. Qed.

Lemma with_key_compact {A} `{Packs A} s k : with_key (compact s) k = with_key (A := A) s k.
Proof. unfold with_key, find_key. by rewrite !find_by_records, tget_compact, omap_packed. Qed.

Lemma keys_compact {A} `{Packs A} s : keys (compact s) = keys (A := A) s.
Proof. unfold keys. by rewrite tget_compact, omap_packed. Qed.

(** A bound search succeeds when the search does. *)
Lemma found_packed {A B} (p : A -> bool) l (f g : nat -> B) :
  is_Some (r ← find_by p (packed l); Some (f r)) <-> is_Some (r ← find_by p l; Some (g r)).
Proof.
  pose proof (find_by_packed p l) as H. destruct (find_by p (packed l)), (find_by p l); cbn; [done| | |done].
  - by destruct (proj1 H (mk_is_Some _ _ eq_refl)).
  - by destruct (proj2 H (mk_is_Some _ _ eq_refl)).
Qed.

Lemma update_compact {A} `{Packs A} s k f : is_Some (update (compact s) k f) <-> is_Some (update (A := A) s k f).
Proof. unfold update, find_key. rewrite tget_compact. apply found_packed. Qed.

Lemma remove_compact {A} `{Packs A} s k : is_Some (remove (A := A) (compact s) k) <-> is_Some (remove (A := A) s k).
Proof. unfold remove, find_key. rewrite tget_compact. apply found_packed. Qed.

Lemma nearest_compact s url : nearest (compact s) url = nearest s url.
Proof.
  unfold nearest. generalize (length url). intros n. revert url.
  induction n as [|n IH]; intros url; cbn [nearest_in]; [done|].
  by rewrite (with_key_compact (A := limit)), IH.
Qed.

Lemma can_access_compact s u url : can_access (compact s) u url = can_access s u url.
Proof.
  unfold can_access. rewrite (with_key_compact (A := user)), nearest_compact.
  destruct (with_key s u) as [a|]; [|done]. by rewrite (with_key_compact (A := group)).
Qed.

Lemma method_compact s url : method_for_url (compact s) url = method_for_url s url.
Proof.
  unfold method_for_url. rewrite nearest_compact. destruct (nearest s url) as [l|]; [|done].
  destruct (l_group l); [done|]. by rewrite (with_key_compact (A := group)).
Qed.

Lemma in_use_compact s g :
  bool_decide (is_Some (find_by (fun u => bool_decide (u_group u = g)) (users (compact s)))) ||
  bool_decide (is_Some (find_by (fun l => bool_decide (l_group l = g)) (limits (compact s)))) =
  bool_decide (is_Some (find_by (fun u => bool_decide (u_group u = g)) (users s))) ||
  bool_decide (is_Some (find_by (fun l => bool_decide (l_group l = g)) (limits s))).
Proof. by f_equal; apply bool_decide_ext, find_by_packed. Qed.

Lemma set_compact (s s' : ums) (o o' : option ums) : (is_Some o <-> is_Some o') ->
  (match o with Some x => (RInt 0, x) | None => (RInt UM_ERR_NOT_FOUND, s) end).1 =
  (match o' with Some x => (RInt 0, x) | None => (RInt UM_ERR_NOT_FOUND, s') end).1.
Proof.
  intros Hi. destruct o, o'; try done.
  - by destruct (proj1 Hi (mk_is_Some _ _ eq_refl)).
  - by destruct (proj2 Hi (mk_is_Some _ _ eq_refl)).
Qed.

(** No call of the module sees the holes. *)
Lemma s_op_compact mem s op : (s_op mem (compact s) op).1 = (s_op mem s op).1.
Proof.
  destruct op; cbn [s_op fst]; cbv zeta;
    rewrite ?in_use_compact, ?with_key_compact, ?keys_compact, ?nearest_compact, ?can_access_compact, ?method_compact;
    repeat first [done | by apply set_compact, update_compact | by apply set_compact, remove_compact | case_match].
Qed.

(** ** Records that survive the file *)

Definition field_ok (nm : list Z) (s : list Z) : Prop := word s /\ fits nm s.
Definition int_ok (z : Z) : Prop := - 2 ^ 31 <= z < 2 ^ 31.

Definition user_savable (u : user) : Prop :=
  u_name u <> [] /\ field_ok UM_NAME (u_name u) /\ field_ok UM_PASS (u_pass u) /\ field_ok UM_GROUP (u_group u) /\
  int_ok (u_prot u) /\ int_ok (u_disable u).
Definition group_savable (g : group) : Prop :=
  g_name g <> [] /\ field_ok UM_NAME (g_name g) /\ int_ok (g_priv g) /\ int_ok (g_method g) /\ int_ok (g_prot g) /\
  int_ok (g_disable g).
Definition limit_savable (l : limit) : Prop :=
  l_url l <> [] /\ field_ok UM_NAME (l_url l) /\ int_ok (l_method l) /\ int_ok (l_secure l) /\
  field_ok UM_GROUP (l_group l).

Definition rows_savable {A} (P : A -> Prop) (l : list (option A)) : Prop :=
  zlen l <= 2 ^ 31 /\ forall r a, l !! r = Some (Some a) -> P a.

Record ums_savable (s : ums) : Prop := {
  us_users : rows_savable user_savable (users s);
  us_groups : rows_savable group_savable (groups s);
  us_limits : rows_savable limit_savable (limits s)
}.

(** The definitions of the tables can be saved. *)
Lemma columns_savable nm : In nm [UM_NAME; UM_PASS; UM_GROUP; UM_PROT; UM_DISABLE; UM_METHOD; UM_PRIVILEGE; UM_SECURE] ->
  col_savable nm.
Proof.
  intros Hin. repeat (destruct Hin as [<-|Hin]; [split_and!; [by apply demo_word|cbn; intuition discriminate|done|done|done]|]).
  destruct Hin.
Qed.

Lemma view_savable_of {A} `{Table A} (l : list (option A)) :
  word (sch_name (tsch (A := A))) /\ fits KEYWORD_TABLE (sch_name (tsch (A := A))) ->
  (exists nm, head (sch_cols (tsch (A := A))) = Some (nm, T_STRING)) ->
  Forall (fun col => col_savable col.1) (sch_cols (tsch (A := A))) -> base.NoDup (map fst (sch_cols (tsch (A := A)))) ->
  zlen l <= 2 ^ 31 ->
  (forall r a, l !! r = Some (Some a) -> Forall2 (fun col c => cell_savable col.1 c) (sch_cols tsch) (enc a)) ->
  view_savable (view l).
Proof.
  intros Hn Hf Hc Hd Hl Hr. split; cbn [view tv_name tv_cols tv_slots]; try done.
  - by rewrite length_map.
  - intros r cells. rewrite list_lookup_fmap. destruct (l !! r) as [[a|]|] eqn:E; cbn; try done.
    intros [= <-]. by eapply Hr.
Qed.

(** A table whose records have keys comes back without its holes. *)
Lemma restored_view {A} `{Table A} (l : list (option A)) :
  (forall r a, l !! r = Some (Some a) -> restore_slot (sch_cols tsch) (Some (enc a)) = Some (Some (enc a))) ->
  restored (view l) = view (packed l).
Proof.
  intros Hl. unfold restored, set_slots, view, packed. cbn [tv_name tv_cols tv_slots]. f_equal.
  induction l as [|[a|] l IH]; [done| |].
  - cbn [map fmap option_fmap option_map omap list_omap id]. rewrite (Hl 0%nat a eq_refl). cbn [map fmap option_fmap option_map].
    f_equal. apply IH. intros r b Hb. by apply (Hl (S r)).
  - cbn [map fmap option_fmap option_map omap list_omap id restore_slot]. apply IH. intros r b Hb. by apply (Hl (S r)).
Qed.

Lemma ums_restored s : ums_savable s -> map restored (adb_of s) = adb_of (compact s).
Proof.
  intros [[_ Hu] [_ Hg] [_ Hl]]. unfold adb_of, compact. cbn [map users groups limits].
  f_equal; [|f_equal; [|f_equal]]; apply restored_view; intros r a Ha; cbn [restore_slot].
  - destruct (Hu r a Ha) as [Hne _]. cbn. by destruct (u_name a).
  - destruct (Hg r a Ha) as [Hne _]. cbn. by destruct (g_name a).
  - destruct (Hl r a Ha) as [Hne _]. cbn. by destruct (l_url a).
Qed.

Lemma ums_views s : ums_savable s -> Forall view_savable (adb_of s).
Proof.
  intros [[Hul Hu] [Hgl Hg] [Hll Hl]].
  assert (Hcols : forall sch, In sch [userTable; groupTable; accessTable] ->
    Forall (fun col => col_savable col.1) (sch_cols sch) /\ base.NoDup (map fst (sch_cols sch)) /\
    word (sch_name sch) /\ fits KEYWORD_TABLE (sch_name sch) /\
    exists nm, head (sch_cols sch) = Some (nm, T_STRING)).
  { intros sch Hin. repeat (destruct Hin as [<-|Hin]; [split_and!|]); try (by destruct Hin); try (by eexists);
      try (by apply demo_word); try done; try (by apply (bool_decide_unpack _); vm_compute);
      apply List.Forall_forall; intros col Hcol; apply columns_savable;
      repeat (destruct Hcol as [<-|Hcol]; [cbn [fst In]; tauto|]); destruct Hcol. }
  constructor; [|constructor; [|constructor; [|apply List.Forall_nil]]].
  - destruct (Hcols userTable (or_introl eq_refl)) as (Hc & Hd & Hw & Hf & Hh).
    apply view_savable_of; try done. intros r a Ha. destruct (Hu r a Ha) as (_ & ? & ? & ? & ? & ?).
    by repeat (constructor; [done|]).
  - destruct (Hcols groupTable (or_intror (or_introl eq_refl))) as (Hc & Hd & Hw & Hf & Hh).
    apply view_savable_of; try done. intros r a Ha. destruct (Hg r a Ha) as (_ & ? & ? & ? & ? & ?).
    by repeat (constructor; [done|]).
  - destruct (Hcols accessTable (or_intror (or_intror (or_introl eq_refl)))) as (Hc & Hd & Hw & Hf & Hh).
    apply view_savable_of; try done. intros r a Ha. destruct (Hl r a Ha) as (_ & ? & ? & ? & ?).
    by repeat (constructor; [done|]).
Qed.

(** ** The round trip *)

Section Memory.
Context (balloc_words : Z -> option (list Z)).
Context (brealloc_words : list Z -> Z -> option (list Z)).
Context (new_row : gmap Z (list cell) -> Z).
Context (bstrdup : list Z -> option (list Z)).
Hypothesis balloc_words_spec : forall n mp, 0 <= n -> balloc_words n = Some mp -> zlen mp = n / WORD.
Hypothesis brealloc_words_spec : forall old n mp, brealloc_words old n = Some mp ->
  zlen old * WORD <= n -> exists rest, mp = old ++ rest /\ zlen mp = n / WORD.
Hypothesis new_row_fresh : forall cs, new_row cs = 0 \/ cs !! new_row cs = None.
Hypothesis bstrdup_ok : forall s, bstrdup s = Some s.
Hypothesis balloc_words_total : forall n, balloc_words n <> None.
Hypothesis brealloc_words_total : forall old n, brealloc_words old n <> None.
Hypothesis new_row_total : forall cs, new_row cs <> 0.
Context (lw : Z) (balloc : Z -> option (list Z)) (brealloc : list Z -> Z -> option (list Z)).
Hypothesis lw_ok : lw = 32 \/ lw = 64.
Hypothesis balloc_ok : forall n, 0 < n <= 2 ^ 30 -> exists b, balloc n = Some b /\ zlen b = n.
Hypothesis brealloc_ok : forall b n, zlen b <= n <= 2 ^ 30 ->
  exists b', brealloc b n = Some b' /\ zlen b' = n /\ take (length b) b' = b.
Context (basicProdDir : option (list Z)).
Local Notation dir := (basicGetProductDir basicProdDir).
Hypothesis dir_ok : no_nul dir /\ zlen dir + 9 <= capacity FNAMESIZE.
Context (sys : io).
Hypothesis write_all : forall out s, io_write sys out s = zlen s.
Hypothesis create_ok : io_create sys = true.
Hypothesis rename_ok : io_rename sys = true.
Hypothesis open_ok : io_open sys = true.
Hypothesis read_all : forall s, io_read sys s = zlen s.

Abbreviation commit := (umCommit lw balloc brealloc basicProdDir sys bstrdup) (only parsing).
Abbreviation restore :=
  (umRestore lw balloc brealloc basicProdDir sys balloc_words brealloc_words new_row bstrdup) (only parsing).

(** C22. What [umCommit] wrote, [umRestore] brings back, in the same process or after a
    restart: whatever users, groups and limits [st2] had, afterwards it holds the records
    of [st], and every call of the module returns what it returned before the commit.  The
    records must have names, strings of one line without a leading blank that fit the
    line buffer, and numbers that fit an int. *)
Theorem umRestore_umCommit st s st2 s2 files filename filename2 nm :
  rep (um_db st) (adb_of s) -> ums_savable s -> rep (um_db st2) (adb_of s2) ->
  saveFilename (set_filename bstrdup st filename) = Some nm ->
  saveFilename (set_filename bstrdup st2 filename2) = Some nm -> file_ok basicProdDir nm ->
  exists st' files' content, commit st files filename = Some (0, st', files') /\ um_db st' = um_db st /\
    files' !! (dir ++ 47 :: nm) = Some content /\
    (zlen content < 2 ^ 30 ->
     exists st'', restore st2 files' filename2 = Some (0, st'') /\ rep (um_db st'') (adb_of (compact s)) /\
       forall mem op, (s_op mem (compact s) op).1 = (s_op mem s op).1).
Proof using All.
  intros Hrep Hs Hrep2 Hf1 Hf2 Hnm.
  assert (Hdb : forall x fn, um_db (set_filename bstrdup x fn) = um_db x) by (intros x [[|? ?]|]; done).
  pose proof (ums_views s Hs) as Hviews. pose proof (rep_adb_ok _ _ Hrep) as Hok.
  assert (Hnd : base.NoDup (map tv_name (adb_of s))) by (by apply (bool_decide_unpack _)).
  destruct (save_ok lw balloc brealloc lw_ok balloc_ok brealloc_ok sys write_all basicProdDir dir_ok create_ok
    rename_ok _ _ files nm Hrep Hviews Hnm) as (files' & kvs & E & He & Hf & _).
  unfold umCommit, umRestore. rewrite Hf1, Hf2, !Hdb, E. cbn [mbind option_bind].
  eexists _, files', (file_text kvs). split; [done|]. split; [apply Hdb|]. split; [exact Hf|]. intros Hsize.
  destruct (zero_rep _ _ Hrep2) as (d & -> & Hd). cbn [mbind option_bind].
  change (a_zero (adb_of s2)) with (map empty_view (adb_of s)) in Hd.
  destruct (load_ok balloc_words brealloc_words new_row bstrdup balloc_words_spec brealloc_words_spec new_row_fresh
    bstrdup_ok balloc_words_total brealloc_words_total new_row_total lw balloc brealloc lw_ok balloc_ok brealloc_ok
    basicProdDir dir_ok sys open_ok read_all
    d (adb_of s) files' nm kvs Hd ltac:(done) Hok Hviews Hnd He Hnm Hf Hsize) as (d' & -> & Hr').
  cbn [mbind option_bind]. eexists. split; [done|]. cbn [um_db]. rewrite ums_restored in Hr' by done.
  split; [exact Hr'|]. intros mem op. apply s_op_compact.
Qed.
End Memory.

(** ** A concrete configuration *)

#[local] Existing Instance demo_emf.
#[local] Existing Instance demo_laws.

Definition demo_config : list umop :=
  [AddGroup (str "staff") 1 1 0 0; AddUser (str "amy") (str "secret9") (str "staff") 0 0;
   AddUser (str "bob") (str "pa=ss") (str "staff") 1 0; DeleteUser (str "amy");
   AddAccessLimit (str "/a/") 1 0 (Some (str "staff"))].

Definition demo_records : ums := mkUms
  [None; Some (mkUser (str "bob") (umEncryptString (str "pa=ss")).1 (str "staff") 1 0)]
  [Some (mkGroup (str "staff") 1 1 0 0)] [Some (mkLimit (str "/a/") 1 0 (str "staff"))].

Definition demo_config_db : db :=
  match run_um Some 20 (um_db demo_um) demo_config with Some (_, d) => d | None => demo_state0 end.

Lemma demo_config_rep : rep demo_config_db (adb_of demo_records).
Proof.
  destruct (opened_run Some (fun _ => eq_refl) demo_um0 0 demo_um demo_config 20 eq_refl eq_refl demo_open)
    as (mems & d' & El & E & Hr); [|cbn; lia|].
  { unfold demo_config. repeat (constructor; [cbn [op_ok]; split_and?; by repeat constructor|]). constructor. }
  unfold demo_config_db. rewrite E.
  assert (Hrs : (s_run no_users (zip mems demo_config)).1 = [RInt 0; RInt 0; RInt 0; RInt 0; RInt 0]).
  { assert (R : fst <$> run_um Some 20 (um_db demo_um) demo_config = Some [RInt 0; RInt 0; RInt 0; RInt 0; RInt 0])
      by (vm_compute; reflexivity). rewrite E in R. exact (f_equal (default []) R). }
  clear E. do 5 (destruct mems as [|[] mems]; [discriminate El| |]);
    (destruct mems; [|discriminate El]); try (vm_compute in Hrs; discriminate Hrs); exact Hr.
Qed.

Lemma demo_records_savable : ums_savable demo_records.
Proof.
  assert (Hf : forall nm s, forallb (fun c => negb ((c =? 0) || (c =? newline) || (c =? 13))) s = true ->
    match s with c :: _ => isspace c = false | [] => True end -> zlen nm + zlen s + 2 <= capacity BUF_MAX -> field_ok nm s).
  { intros nm s H1 H2 H3. split; [by apply demo_word|exact H3]. }
  split; (split; [done|]); intros r a Ha.
  - destruct r as [|[|r]]; [done| |by rewrite lookup_ge_None_2 in Ha by (cbn; lia)]. injection Ha as <-.
    split_and!; [done|by apply Hf|by apply Hf|by apply Hf|done|done].
  - destruct r as [|r]; [|by rewrite lookup_ge_None_2 in Ha by (cbn; lia)]. injection Ha as <-.
    split_and!; [done|by apply Hf|done|done|done|done].
  - destruct r as [|r]; [|by rewrite lookup_ge_None_2 in Ha by (cbn; lia)]. injection Ha as <-.
    split_and!; [done|by apply Hf|done|done|by apply Hf].
Qed.

Definition demo_um1 : um (D := db) := mkUm 0 (Some (str "old.txt")) 1 demo_config_db.

Lemma umRestore_umCommit_witness :
  exists st' files' st'', umCommit 32 demo_balloc demo_brealloc None demo_disk Some demo_um1 ∅ (Some (str "um.txt")) =
      Some (0, st', files') /\
    umRestore 32 demo_balloc demo_brealloc None demo_disk plenty_words plenty_rewords demo_block Some demo_um files'
      (Some (str "um.txt")) = Some (0, st'') /\
    rep (um_db st'') (adb_of (compact demo_records)) /\
    umGetUserPassword Some (um_db st'') (Some (str "bob")) = Some (Some (str "pa=ss")).
Proof.
  destruct (umOpen_rep Some (fun _ => eq_refl) demo_um0 0 demo_um eq_refl eq_refl demo_open) as [_ Hopen].
  destruct (umRestore_umCommit plenty_words plenty_rewords demo_block Some plenty_words_spec plenty_rewords_spec
    demo_block_fresh (fun _ => eq_refl) (fun _ H => ltac:(discriminate H)) (fun _ _ H => ltac:(discriminate H))
    demo_block_nonzero 32 demo_balloc demo_brealloc (or_introl eq_refl) demo_balloc_ok demo_brealloc_ok
    None demo_dir_ok demo_disk (fun _ _ => eq_refl) eq_refl eq_refl eq_refl (fun _ => eq_refl)
    demo_um1 demo_records demo_um no_users ∅ (Some (str "um.txt")) (Some (str "um.txt")) (str "um.txt")
    demo_config_rep demo_records_savable Hopen eq_refl eq_refl)
    as (st' & files' & content & E & _ & Hf & Hload).
  - split_and!; [by repeat constructor|vm_compute; discriminate|discriminate].
  - assert (Hc : zlen content < 2 ^ 30).
    { assert (Er : match umCommit 32 demo_balloc demo_brealloc None demo_disk Some demo_um1 ∅ (Some (str "um.txt")) with
                   | Some (_, fs) => match fs !! (basicGetProductDir None ++ 47 :: str "um.txt") with
                                     | Some c => zlen c <? 2 ^ 30 | None => false end
                   | None => false end = true) by (vm_compute; reflexivity).
      rewrite E, Hf in Er. by apply Z.ltb_lt. }
    destruct (Hload Hc) as (st'' & El & Hr & _). exists st', files', st''.
    split; [exact E|]. split; [exact El|]. split; [exact Hr|].
    assert (Hr' : um_rep (um_db st'') (compact demo_records)) by exact Hr.
    destruct (do_um_ok Some (fun _ => eq_refl) 20 (um_db st'') (compact demo_records) (GetUserPassword (str "bob")) Hr' I)
      as (mem & d1 & E1 & _).
    + exists 1%nat. split; [by split; cbn; lia|cbn; lia].
    + cbn [do_um] in E1. destruct (umGetUserPassword Some (um_db st'') (Some (str "bob"))) as [p|]; [|discriminate E1].
      cbn [rp mbind option_bind] in E1. vm_compute in E1. by injection E1 as -> _.
Defined.
