(* ===== verification/SymTab.v ===== *)
(** * Symbol tables (webs/src/src/sym.c, value.c)

    Hash tables of named values.  The symbols are nodes of a store, chained from
    the cells of the hash table; the tables are found through a handle map.
    Addresses are [Z], 0 is the null pointer; character strings are the lists of
    their [char] values, without the final zero.  A call that dereferences a null
    or dangling pointer, or does not return, gives [None].

    [new_cell] and [new_tabent] are [malloc] for the two kinds of records: the
    address of a block outside the ones in use, or 0.  Released blocks are logged
    in [freed].  [beyond] is what the word after a hash table holds: the iteration
    reads it ([tp->hash_table[hash_size]]). *)

From Stdlib Require Import Znumtheory.
From S2P Require Import Prelude Heap Handles.
#[local] Open Scope Z_scope.
#[local] Open Scope cint_scope.

(** ** Values *)

Inductive vtype_t : Type :=
  | undefined | byteint | shortint | integer | hex | percent | octal | big
  | flag | floating | string_ | bytes | symbol | errmsg.

Abbreviation cstring := (list Z) (only parsing).

(** The union of [value_t], as far as it is used: a number or a string pointer. *)
Inductive payload : Type :=
  | VInteger (z : Z)
  | VString (s : option cstring).

Record value_t : Type := mkValue {
  v_value : payload;
  v_type : vtype_t;
  v_valid : Z;
  v_allocated : Z
}.

Definition VALUE_ALLOCATE : Z := 1.

Inductive block : Type :=
  | BString (s : cstring) | BSym (p : Z) | BTable (p : Z) | BTabent (p : Z).

Definition valueInteger (value : Z) : value_t := mkValue (VInteger value) integer 1 0.

(** [valueFree]: the value afterwards, and the block that was released. *)
Definition valueFree (v : value_t) : value_t * list block :=
  let blocks :=
    match v_type v, v_value v with
    | string_, VString (Some s) =>
        if negb (v_valid v =? 0) && negb (v_allocated v =? 0) then [BString s] else []
    | _, _ => []
    end in
  (mkValue (v_value v) undefined 0 0, blocks).

(** ** Hashing *)

Definition BITS_int : Z := 32.
Definition BITSPERBYTE : Z := 8.

Fixpoint hash_loop (name : cstring) (sum i : Z) : Z :=
  match name with
  | [] => sum
  | c :: name => hash_loop name (u32 (sum + Z.shiftl c i)) ((i + 7) mod (BITS_int - BITSPERBYTE))
  end.

Record sym_tabent_t : Type := mkTabent {
  inuse : Z;
  hash_size : Z;
  hash_table : list Z
}.

Definition hashIndex (tp : sym_tabent_t) (name : cstring) : Z :=
  hash_loop name 0 0 mod hash_size tp.

(** The loop of [isPrime], [k] candidates from [i]. *)
Fixpoint isPrime_loop (k : nat) (n i : Z) : bool :=
  match k with
  | O => true
  | S k => if n mod i =? 0 then false else isPrime_loop k n (i + 1)
  end.

Definition isPrime (n : Z) : bool :=
  let max := n / 2 in
  isPrime_loop (Z.to_nat (max - 1)) n 2.

Fixpoint calcPrime_loop (count : nat) : Z :=
  match count with
  | O => 1
  | S count' => if isPrime (Z.of_nat count) then Z.of_nat count else calcPrime_loop count'
  end.

Definition calcPrime (size : Z) : Z := calcPrime_loop (Z.to_nat size).

(** ** The state of the module *)

Record sym_t : Type := mkSym {
  forw : Z;
  name : value_t;
  content : value_t;
  arg : Z
}.

Record sym_sys : Type := mkSys {
  sym : handle_map;
  symMax : Z;
  symOpenCount : Z;
  htIndex : Z;
  next : Z;
  tabents : gmap Z sym_tabent_t;
  cells : gmap Z sym_t;
  freed : list block
}.

Definition symSubOpen (st : sym_sys) : Z * sym_sys :=
  let st := st <| symOpenCount := symOpenCount st + 1 |> in
  let st := if symOpenCount st =? 1 then st <| symMax := 0 |> <| sym := None |> else st in
  (0, st).

Definition symSubClose (st : sym_sys) : sym_sys :=
  let st := st <| symOpenCount := symOpenCount st - 1 |> in
  if symOpenCount st <=? 0 then st <| symOpenCount := 0 |> else st.

(** [sym[sd]] *)
Definition sym_get (st : sym_sys) (sd : Z) : option Z :=
  match sym st with
  | None => None
  | Some _ => if (0 <=? sd) && (sd <? zlen (entries (sym st))) then Some (hget (sym st) sd)
              else None
  end.

(** [tp = sym[sd]], dereferenced *)
Definition sym_table (st : sym_sys) (sd : Z) : option (Z * sym_tabent_t) :=
  p ← sym_get st sd;
  tp ← tabents st !! p;
  Some (p, tp).

Definition bfree (b : list block) (st : sym_sys) : sym_sys := st <| freed := freed st ++ b |>.

(** [sp->name.value.string], dereferenced *)
Definition sym_name (n : sym_t) : option cstring :=
  match v_value (name n) with VString s => s | VInteger _ => None end.

(** [cp[0] == name[0] && gstrcmp(cp, name) == 0] *)
Definition same_name (cp nm : cstring) : bool :=
  (zget cp 0 =? zget nm 0) && bool_decide (cp = nm).

(** The search of a chain; [last] is the node before the result. *)
Fixpoint chain_find (fuel : nat) (cs : gmap Z sym_t) (nm : cstring) (last sp : Z)
  : option (Z * Z) :=
  match fuel with
  | O => None
  | S fuel =>
      if sp =? 0 then Some (last, sp)
      else
        n ← cs !! sp;
        cp ← sym_name n;
        if same_name cp nm then Some (last, sp)
        else chain_find fuel cs nm sp (forw n)
  end.

Definition chain_fuel (cs : gmap Z sym_t) : nat := S (size cs).

(** [hash] *)
Definition hash (tp : sym_tabent_t) (nm : cstring) : Z :=
  zget (hash_table tp) (hashIndex tp nm).

Definition symLookup (st : sym_sys) (sd : Z) (nm : cstring) : option Z :=
  p ← sym_get st sd;
  if p =? 0 then Some 0
  else if bool_decide (nm = []) then Some 0
  else
    tp ← tabents st !! p;
    '(_, sp) ← chain_find (chain_fuel (cells st)) (cells st) nm 0 (hash tp nm);
    Some sp.

Definition symDelete (st : sym_sys) (sd : Z) (nm : cstring) : option (Z * sym_sys) :=
  '(p, tp) ← sym_table st sd;
  let hindex := hashIndex tp nm in
  '(last, sp) ← chain_find (chain_fuel (cells st)) (cells st) nm 0 (zget (hash_table tp) hindex);
  if sp =? 0 then Some (-1, st)
  else
    n ← cells st !! sp;
    st ← (if negb (last =? 0) then
            l ← cells st !! last;
            Some (st <| cells := <[last := l <| forw := forw n |>]> (cells st) |>)
          else
            let tp := tp <| hash_table := wset (hash_table tp) hindex (forw n) |> in
            Some (st <| tabents := <[p := tp]> (tabents st) |>));
    let st := bfree (snd (valueFree (name n))) st in
    let st := bfree (snd (valueFree (content n))) st in
    let st := bfree [BSym sp] (st <| cells := delete sp (cells st) |>) in
    Some (0, st).

Section Memory.
Context (balloc_words : Z -> option (list Z)).
Context (brealloc_words : list Z -> Z -> option (list Z)).
Context (strdup : cstring -> option cstring).
Context (new_cell : gmap Z sym_t -> Z) (new_tabent : gmap Z sym_tabent_t -> Z).
Context (beyond : Z).

Definition valueString (value : cstring) (flags : Z) : value_t :=
  if negb (Z.land flags VALUE_ALLOCATE =? 0)
  then mkValue (VString (strdup value)) string_ 1 1
  else mkValue (VString (Some value)) string_ 1 0.

Definition symEnter (st : sym_sys) (sd : Z) (nm : cstring) (v : value_t) (a : Z)
  : option (Z * sym_sys) :=
  '(p, tp) ← sym_table st sd;
  let hindex := hashIndex tp nm in
  let sp := zget (hash_table tp) hindex in
  if negb (sp =? 0) then
    '(last, sp) ← chain_find (chain_fuel (cells st)) (cells st) nm 0 sp;
    if negb (sp =? 0) then
      n ← cells st !! sp;
      let st := if negb (v_valid (content n) =? 0)
                then bfree (snd (valueFree (content n))) st else st in
      let n := n <| content := v |> <| arg := a |> in
      Some (sp, st <| cells := <[sp := n]> (cells st) |>)
    else
      let sp := new_cell (cells st) in
      if sp =? 0 then Some (0, st)
      else
        let n := mkSym 0 (valueString nm VALUE_ALLOCATE) v a in
        let st := st <| cells := <[sp := n]> (cells st) |> in
        l ← cells st !! last;
        Some (sp, st <| cells := <[last := l <| forw := sp |>]> (cells st) |>)
  else
    let sp := new_cell (cells st) in
    if sp =? 0 then Some (0, st)
    else
      let tp := tp <| hash_table := wset (hash_table tp) hindex sp |> in
      let tp := tp <| hash_table := wset (hash_table tp) (hashIndex tp nm) sp |> in
      let n := mkSym 0 (valueString nm VALUE_ALLOCATE) v a in
      Some (sp, st <| tabents := <[p := tp]> (tabents st) |>
                   <| cells := <[sp := n]> (cells st) |>).

Definition symOpen (st : sym_sys) (hash_size : Z) : option (Z * sym_sys) :=
  let '(sd, map) := hAlloc balloc_words brealloc_words (sym st) in
  let st := st <| sym := map |> in
  if sd <? 0 then Some (-1, st)
  else
    let p := new_tabent (tabents st) in
    if p =? 0 then
      '(max, map) ← hFree (sym st) sd;
      Some (-1, st <| symMax := max |> <| sym := map |>)
    else
      let st := if symMax st <=? sd then st <| symMax := sd + 1 |> else st in
      mp ← sym st;
      let st := st <| sym := Some (wset mp (sd + H_OFFSET) p) |> in
      let size := calcPrime hash_size in
      table ← balloc_words (size * WORD);
      let table := bput table 0 (repeat 0 (Z.to_nat size)) in
      Some (sd, st <| tabents := <[p := mkTabent 0 size table]> (tabents st) |>).

(** The inner loop of [symClose]: release a chain. *)
Fixpoint free_chain (fuel : nat) (st : sym_sys) (sp : Z) : option sym_sys :=
  match fuel with
  | O => None
  | S fuel =>
      if sp =? 0 then Some st
      else
        n ← cells st !! sp;
        let f := forw n in
        let st := bfree (snd (valueFree (name n))) st in
        let st := bfree (snd (valueFree (content n))) st in
        let st := bfree [BSym sp] (st <| cells := delete sp (cells st) |>) in
        free_chain fuel st f
  end.

Fixpoint free_buckets (table : list Z) (st : sym_sys) : option sym_sys :=
  match table with
  | [] => Some st
  | sp :: table =>
      st ← free_chain (chain_fuel (cells st)) st sp;
      free_buckets table st
  end.

Definition symClose (st : sym_sys) (sd : Z) : option sym_sys :=
  '(p, tp) ← sym_table st sd;
  st ← free_buckets (hash_table tp) st;
  let st := bfree [BTable p] st in
  '(max, map) ← hFree (sym st) sd;
  let st := st <| symMax := max |> <| sym := map |> in
  Some (bfree [BTabent p] (st <| tabents := delete p (tabents st) |>)).

(** ** Iteration *)

(** [tp->hash_table[i]] *)
Definition ht_read (tp : sym_tabent_t) (i : Z) : Z :=
  if (0 <=? i) && (i <? hash_size tp) then zget (hash_table tp) i else beyond.

(** Return node [sp] of bucket [i], remembering where the iteration stands. *)
Definition sym_visit (st : sym_sys) (tp : sym_tabent_t) (i sp : Z) : option (Z * sym_sys) :=
  n ← cells st !! sp;
  let st := if forw n =? 0
            then st <| htIndex := i + 1 |> <| next := ht_read tp (i + 1) |>
            else st <| htIndex := i |> <| next := forw n |> in
  Some (sp, st).

(** The loops over the buckets; [k] buckets are left from [i]. *)
Fixpoint symFirst_loop (k : nat) (st : sym_sys) (tp : sym_tabent_t) (i : Z)
  : option (Z * sym_sys) :=
  match k with
  | O => Some (0, st)
  | S k =>
      let sp := ht_read tp i in
      if negb (sp =? 0) then sym_visit st tp i sp else symFirst_loop k st tp (i + 1)
  end.

Definition symFirst (st : sym_sys) (sd : Z) : option (Z * sym_sys) :=
  '(_, tp) ← sym_table st sd;
  symFirst_loop (Z.to_nat (hash_size tp)) st tp 0.

Fixpoint symNext_loop (k : nat) (st : sym_sys) (tp : sym_tabent_t) (i : Z)
  : option (Z * sym_sys) :=
  match k with
  | O => Some (0, st)
  | S k =>
      let sp := next st in
      if negb (sp =? 0) then sym_visit st tp i sp
      else symNext_loop k (st <| next := ht_read tp (i + 1) |>) tp (i + 1)
  end.

Definition symNext (st : sym_sys) (sd : Z) : option (Z * sym_sys) :=
  '(_, tp) ← sym_table st sd;
  symNext_loop (Z.to_nat (hash_size tp - htIndex st)) st tp (htIndex st).

(** How the callers walk a table:
    [for (s = symFirst(sd); s != NULL; s = symNext(sd))]. *)
Fixpoint walk_from (fuel : nat) (sd : Z) (r : option (Z * sym_sys)) : option (list Z) :=
  match fuel with
  | O => None
  | S fuel =>
      '(sp, st) ← r;
      if sp =? 0 then Some []
      else
        rest ← walk_from fuel sd (symNext st sd);
        Some (sp :: rest)
  end.

Definition sym_walk (fuel : nat) (st : sym_sys) (sd : Z) : option (list Z) :=
  walk_from fuel sd (symFirst st sd).
End Memory.

(** ** What a table contains *)

Abbreviation binding := (cstring * (value_t * Z))%type (only parsing).

Fixpoint assoc (nm : cstring) (es : list binding) : option (value_t * Z) :=
  match es with
  | [] => None
  | (k, r) :: es => if decide (k = nm) then Some r else assoc nm es
  end.

(** Node [x] holds the binding [e]. *)
Definition node_entry (cs : gmap Z sym_t) (x : Z) (e : binding) : Prop :=
  exists n, cs !! x = Some n /\ sym_name n = Some (fst e) /\ (content n, arg n) = snd e.

(** Bucket [i], whose chain starts at [p], has the nodes [l] with the bindings [es]. *)
Record bucket_ok (cs : gmap Z sym_t) (tp : sym_tabent_t) (i p : Z) (l : list Z)
    (es : list binding) : Prop := {
  bo_chain : chain forw cs p l;
  bo_nodes : Forall2 (node_entry cs) l es;
  bo_names : NoDup (fst <$> es);
  bo_hash : forall nm r, (nm, r) ∈ es -> hashIndex tp nm = i
}.

Record table_ok (cs : gmap Z sym_t) (tp : sym_tabent_t) (bs : list (list Z))
    (ess : list (list binding)) : Prop := {
  to_size : 0 < hash_size tp;
  to_table : zlen (hash_table tp) = hash_size tp;
  to_bs : zlen bs = hash_size tp;
  to_ess : zlen ess = hash_size tp;
  to_bucket : forall i l es, bs !! i = Some l -> ess !! i = Some es ->
    bucket_ok cs tp (Z.of_nat i) (zget (hash_table tp) (Z.of_nat i)) l es
}.

Definition table_get (tp : sym_tabent_t) (ess : list (list binding)) (nm : cstring)
  : option (value_t * Z) :=
  assoc nm (default [] (ess !! Z.to_nat (hashIndex tp nm))).

(** Table [sd] represents the finite map [m] from names to values. *)
Definition sym_rep (st : sym_sys) (sd : Z) (m : gmap cstring (value_t * Z)) : Prop :=
  exists p tp bs ess, sym_get st sd = Some p /\ p <> 0 /\ tabents st !! p = Some tp /\
    table_ok (cells st) tp bs ess /\ forall nm, m !! nm = table_get tp ess nm.

(** The same, with the address of the table and its nodes. *)
Definition table_at (st : sym_sys) (sd : Z) (m : gmap cstring (value_t * Z)) (p : Z) (ns : list Z) : Prop :=
  exists tp bs ess, sym_get st sd = Some p /\ p <> 0 /\ tabents st !! p = Some tp /\
    table_ok (cells st) tp bs ess /\ (forall nm, m !! nm = table_get tp ess nm) /\ ns = concat bs.

Lemma rep_table_at st sd m : sym_rep st sd m <-> exists p ns, table_at st sd m p ns.
Proof.
  split.
  - intros (p & tp & bs & ess & ? & ? & ? & ? & ?). exists p, (concat bs), tp, bs, ess. done.
  - intros (p & ns & tp & bs & ess & ? & ? & ? & ? & ? & _). exists p, tp, bs, ess. done.
Qed.

(** The table becomes [m'], and nothing else changes: the nodes of the table are old ones
    of its own, or fresh. *)
Record moves (st st' : sym_sys) (sd : Z) (p : Z) (ns : list Z) (m' : gmap cstring (value_t * Z)) : Prop := {
  mv_table : exists ns', table_at st' sd m' p ns' /\ forall x, x ∈ ns' -> x ∈ ns \/ cells st !! x = None;
  mv_sym : sym st' = sym st;
  mv_tabents : forall q, q <> p -> tabents st' !! q = tabents st !! q;
  mv_cells : forall x, x ∉ ns -> is_Some (cells st !! x) -> cells st' !! x = cells st !! x
}.

Lemma moves_rep st st' sd p ns m' : moves st st' sd p ns m' -> sym_rep st' sd m'.
Proof. intros [(ns' & Ht & _) _ _ _]. apply rep_table_at. by exists p, ns'. Qed.

Lemma moves_refl st sd p ns m : table_at st sd m p ns -> moves st st sd p ns m.
Proof. intros Ht. split; [|done..]. exists ns. split; [done|]. by left. Qed.

(** ** Association lists *)

Lemma assoc_app nm es1 es2 :
  assoc nm (es1 ++ es2) = match assoc nm es1 with Some r => Some r | None => assoc nm es2 end.
Proof. induction es1 as [|[k r] es1 IH]; simpl; [done|]. by destruct (decide (k = nm)). Qed.

Lemma assoc_None nm es : assoc nm es = None <-> nm ∉ (fst <$> es).
Proof.
  induction es as [|[k r] es IH]; simpl; [set_solver|].
  rewrite not_elem_of_cons. destruct (decide (k = nm)) as [->|]; [naive_solver|].
  rewrite IH. naive_solver.
Qed.

Lemma assoc_elem nm es r : assoc nm es = Some r -> (nm, r) ∈ es.
Proof.
  induction es as [|[k r'] es IH]; simpl; [done|].
  destruct (decide (k = nm)) as [->|]; [intros [= ->]; by left|right; auto].
Qed.

Lemma elem_assoc nm es r : NoDup (fst <$> es) -> (nm, r) ∈ es -> assoc nm es = Some r.
Proof.
  induction es as [|[k r'] es IH]; simpl; [by intros _ ?%elem_of_nil|].
  intros [Hk Hn]%NoDup_cons [[= -> ->]|He]%elem_of_cons.
  - by rewrite decide_True.
  - rewrite decide_False; [auto|]. intros ->. apply Hk.
    apply list_elem_of_fmap. by exists (nm, r).
Qed.

Lemma same_name_spec cp nm : same_name cp nm = true <-> cp = nm.
Proof.
  unfold same_name. rewrite andb_true_iff, bool_decide_eq_true.
  split; [tauto|]. intros ->. by rewrite Z.eqb_refl.
Qed.

(** ** The search *)

Lemma chain_find_spec cs nm fuel last sp l es :
  chain forw cs sp l -> Forall2 (node_entry cs) l es -> (length l < fuel)%nat ->
  ((nm ∉ (fst <$> es)) /\ chain_find fuel cs nm last sp = Some (List.last l last, 0)) \/
  (exists l1 x l2 es1 r es2, l = l1 ++ x :: l2 /\ es = es1 ++ (nm, r) :: es2 /\
     length l1 = length es1 /\ (nm ∉ (fst <$> es1)) /\
     chain_find fuel cs nm last sp = Some (List.last l1 last, x)).
Proof.
  intros Hc Hn. revert sp last fuel Hc.
  induction Hn as [|x e l es (n & Hx & Hname & He) Hn IH]; intros sp last fuel Hc Hf;
    (destruct fuel as [|fuel]; [simpl in Hf; lia|]).
  - left. rewrite Hc. split; [set_solver|done].
  - destruct Hc as (-> & Hnz & n' & Hx' & Hc). rewrite Hx in Hx'. injection Hx' as <-.
    cbn [chain_find]. destruct (Z.eqb_spec x 0) as [|_]; [done|].
    rewrite Hx. cbn [mbind option_bind]. rewrite Hname. cbn [mbind option_bind].
    destruct e as [k r]. cbn [fst] in *.
    destruct (same_name k nm) eqn:E.
    + apply same_name_spec in E as ->. right.
      exists [], x, l, [], r, es. repeat split; try done. set_solver.
    + assert (k <> nm) by (intros <-; by rewrite (proj2 (same_name_spec k k)) in E).
      destruct (IH (forw n) x fuel Hc) as [[? ->]|(l1 & y & l2 & es1 & r' & es2 & -> & -> & ? & ? & ->)];
        [simpl in Hf; lia|left|right].
      * split; [|by rewrite zlast_cons]. rewrite fmap_cons, not_elem_of_cons. simpl. naive_solver.
      * exists (x :: l1), y, l2, ((k, r) :: es1), r', es2. rewrite zlast_cons.
        repeat split; simpl; try done; [lia|]. rewrite not_elem_of_cons. naive_solver.
Qed.

Lemma last_nonzero h p l1 x l2 d :
  chain forw h p (l1 ++ x :: l2) -> l1 <> [] -> exists l0, l1 = l0 ++ [List.last l1 d].
Proof. intros _ Hl. exists (removelast l1). by apply app_removelast_last. Qed.

(** ** Buckets *)

Lemma hashIndex_range tp nm : 0 < hash_size tp -> 0 <= hashIndex tp nm < hash_size tp.
Proof. intros. apply Z.mod_pos_bound. done. Qed.

Lemma bucket_lookup cs tp bs ess nm :
  table_ok cs tp bs ess ->
  exists l es, bs !! Z.to_nat (hashIndex tp nm) = Some l /\
    ess !! Z.to_nat (hashIndex tp nm) = Some es /\ table_get tp ess nm = assoc nm es /\
    bucket_ok cs tp (hashIndex tp nm) (hash tp nm) l es.
Proof.
  intros Hok. pose proof (hashIndex_range tp nm (to_size _ _ _ _ Hok)).
  destruct (lookup_lt_is_Some_2 bs (Z.to_nat (hashIndex tp nm))) as [l Hl];
    [rewrite <- (to_bs _ _ _ _ Hok) in *; lia|].
  destruct (lookup_lt_is_Some_2 ess (Z.to_nat (hashIndex tp nm))) as [es Hes];
    [rewrite <- (to_ess _ _ _ _ Hok) in *; lia|].
  exists l, es. split; [done|]. split; [done|]. split.
  - unfold table_get. by rewrite Hes.
  - pose proof (to_bucket _ _ _ _ Hok _ _ _ Hl Hes) as Hb.
    rewrite Z2Nat.id in Hb by lia. exact Hb.
Qed.

Lemma node_in_bucket cs tp i p l es x :
  bucket_ok cs tp i p l es -> x ∈ l ->
  exists n nm, cs !! x = Some n /\ sym_name n = Some nm /\ hashIndex tp nm = i.
Proof.
  intros Hb Hx. apply list_elem_of_lookup in Hx as [k Hk].
  destruct (Forall2_lookup_l _ _ _ _ _ (bo_nodes _ _ _ _ _ _ Hb) Hk) as ([nm r] & He & n & Hn & Hnm & _).
  exists n, nm. split; [done|]. split; [done|].
  apply (bo_hash _ _ _ _ _ _ Hb nm r). by eapply list_elem_of_lookup_2.
Qed.

(** The nodes of two buckets are different: a node has one name. *)
Lemma buckets_disjoint cs tp i j p q l l' es es' x :
  bucket_ok cs tp i p l es -> bucket_ok cs tp j q l' es' -> x ∈ l -> x ∈ l' -> i = j.
Proof.
  intros Hb Hb' Hx Hx'.
  destruct (node_in_bucket _ _ _ _ _ _ _ Hb Hx) as (n & nm & Hn & Hnm & <-).
  destruct (node_in_bucket _ _ _ _ _ _ _ Hb' Hx') as (n' & nm' & Hn' & Hnm' & <-).
  by simplify_eq.
Qed.

Lemma node_entry_same cs cs' l es :
  (forall x n, x ∈ l -> cs !! x = Some n ->
     exists n', cs' !! x = Some n' /\ name n' = name n /\ content n' = content n /\
                arg n' = arg n) ->
  Forall2 (node_entry cs) l es -> Forall2 (node_entry cs') l es.
Proof.
  intros Hf Hn. induction Hn as [|x e l es (n & Hx & Hname & He) _ IH]; constructor.
  - destruct (Hf x n) as (n' & ? & En & Ec & Ea); [set_solver|done|].
    exists n'. unfold sym_name. rewrite En, Ec, Ea. done.
  - apply IH. set_solver.
Qed.

Lemma node_entry_frame cs cs' l es :
  (forall x, x ∈ l -> cs' !! x = cs !! x) ->
  Forall2 (node_entry cs) l es -> Forall2 (node_entry cs') l es.
Proof.
  intros Hf. apply node_entry_same. intros x n ? ?. exists n. rewrite Hf by done. done.
Qed.

(** Changing bucket [i] alone. *)
Lemma table_ok_update cs tp bs ess cs' ht' i p' l' es' :
  table_ok cs tp bs ess -> 0 <= i < hash_size tp -> zlen ht' = hash_size tp ->
  (forall j, 0 <= j -> zget ht' j = if j =? i then p' else zget (hash_table tp) j) ->
  (forall j l x, bs !! j = Some l -> Z.of_nat j <> i -> x ∈ l -> cs' !! x = cs !! x) ->
  bucket_ok cs' tp i p' l' es' ->
  table_ok cs' (tp <| hash_table := ht' |>) (<[Z.to_nat i:=l']> bs) (<[Z.to_nat i:=es']> ess).
Proof.
  intros [Hs Ht Hb He Hbk] Hi Hl Hget Hframe Hnew. destruct tp as [iu size ht]. cbn in *.
  constructor; cbn; rewrite ?length_insert; try done.
  intros j l es Hj Hje.
  destruct (decide (j = Z.to_nat i)) as [->|Hne].
  - rewrite list_lookup_insert_eq in Hj by lia. rewrite list_lookup_insert_eq in Hje by lia.
    injection Hj as <-. injection Hje as <-. rewrite Z2Nat.id by lia.
    rewrite Hget by lia. rewrite Z.eqb_refl. by destruct Hnew.
  - rewrite list_lookup_insert_ne in Hj by done. rewrite list_lookup_insert_ne in Hje by done.
    assert (Hji : Z.of_nat j <> i) by lia.
    rewrite Hget by lia. destruct (Z.eqb_spec (Z.of_nat j) i); [done|].
    destruct (Hbk j l es Hj Hje) as [Hc Hn Hnd Hh].
    constructor; [..|done|done].
    + eapply seg_frame; [|exact Hc]. intros x ?. by eapply Hframe.
    + eapply node_entry_frame; [|exact Hn]. intros x ?. by eapply Hframe.
Qed.

Lemma table_get_update tp ess ht' i es' nm :
  0 <= i < zlen ess -> 0 < hash_size tp ->
  table_get (tp <| hash_table := ht' |>) (<[Z.to_nat i:=es']> ess) nm =
    if hashIndex tp nm =? i then assoc nm es' else table_get tp ess nm.
Proof.
  intros Hi Hs. unfold table_get. destruct tp as [iu size ht]. cbn in *.
  change (hashIndex (mkTabent iu size ht') nm) with (hashIndex (mkTabent iu size ht) nm).
  pose proof (hashIndex_range (mkTabent iu size ht) nm Hs).
  destruct (Z.eqb_spec (hashIndex (mkTabent iu size ht) nm) i) as [->|].
  - rewrite list_lookup_insert_eq by lia. done.
  - rewrite list_lookup_insert_ne by lia. done.
Qed.

Lemma bucket_fuel cs tp i p l es :
  bucket_ok cs tp i p l es -> (length l < chain_fuel cs)%nat.
Proof. intros [Hc _ _ _]. apply chain_size in Hc. unfold chain_fuel. lia. Qed.

Lemma sym_table_rep st sd p tp :
  sym_get st sd = Some p -> tabents st !! p = Some tp -> sym_table st sd = Some (p, tp).
Proof. unfold sym_table. intros -> E. cbn. by rewrite E. Qed.

Lemma symLookup_finds st sd m nm :
  sym_rep st sd m -> nm <> [] ->
  exists sp, symLookup st sd nm = Some sp /\
    match m !! nm with
    | None => sp = 0
    | Some (v, a) => sp <> 0 /\
        exists n, cells st !! sp = Some n /\ content n = v /\ arg n = a
    end.
Proof.
  intros (p & tp & bs & ess & Hg & Hp & Ht & Hok & Hm) Hnm.
  destruct (bucket_lookup _ _ _ _ nm Hok) as (l & es & _ & _ & Hget & Hb).
  unfold symLookup. rewrite Hg. cbn [mbind option_bind].
  destruct (Z.eqb_spec p 0); [done|]. rewrite bool_decide_eq_false_2 by done.
  rewrite Ht. cbn [mbind option_bind]. rewrite Hm, Hget.
  pose proof (bucket_fuel _ _ _ _ _ _ Hb) as Hf. destruct Hb as [Hc Hn Hnd Hh].
  destruct (chain_find_spec _ nm _ 0 _ _ _ Hc Hn Hf)
    as [[Hno ->]|(l1 & x & l2 & es1 & r & es2 & -> & -> & Hlen & Hno & ->)];
    cbn [mbind option_bind]; eexists; (split; [done|]).
  - by rewrite (proj2 (assoc_None nm es) Hno).
  - rewrite assoc_app, (proj2 (assoc_None nm es1) Hno). simpl. rewrite decide_True by done.
    apply Forall2_app_inv in Hn as [_ Hn]; [|done].
    inversion Hn as [|? ? ? ? (nd & Hx & _ & He) _]; subst. destruct r as [v a].
    split; [|exists nd; by simplify_eq/=].
    eapply seg_nonzero; [exact Hc|]. set_solver.
Qed.

(** [symLookup] on a table that represents the map [m]: it returns, the null
    pointer when the name is not bound, and otherwise a symbol that holds exactly
    the value and the argument bound to the name. *)
Theorem symLookup_correct st sd m nm :
  sym_rep st sd m -> nm <> [] ->
  exists sp, symLookup st sd nm = Some sp /\
    match m !! nm with
    | None => sp = 0
    | Some (v, a) => sp <> 0 /\
        exists n, cells st !! sp = Some n /\ content n = v /\ arg n = a
    end.
Proof. apply symLookup_finds. Qed.

(** Removing a binding from the bindings of a bucket. *)
Lemma bindings_delete (f : cstring -> Z) i es1 nm r es2 :
  NoDup (fst <$> (es1 ++ (nm, r) :: es2)) ->
  (forall k r', (k, r') ∈ es1 ++ (nm, r) :: es2 -> f k = i) ->
  NoDup (fst <$> (es1 ++ es2)) /\ (forall k r', (k, r') ∈ es1 ++ es2 -> f k = i) /\
  forall k, assoc k (es1 ++ es2) = if decide (k = nm) then None
                                   else assoc k (es1 ++ (nm, r) :: es2).
Proof.
  intros Hnd Hh. pose proof Hnd as Hnd'. rewrite fmap_app, fmap_cons in Hnd'.
  apply NoDup_app in Hnd' as (Hn1 & Hd & [Hn2 Hnd2]%NoDup_cons). cbn [fst] in *.
  split; [|split].
  - rewrite fmap_app. apply NoDup_app. split; [done|]. split; [|done].
    intros z Hz Hz2. apply (Hd z Hz). by right.
  - intros k r' Hk. apply (Hh k r'). set_solver.
  - intros k. rewrite !assoc_app. simpl. destruct (decide (k = nm)) as [->|Hne].
    + rewrite (proj2 (assoc_None nm es1)), (proj2 (assoc_None nm es2)); [done..|].
      intros Hz. apply (Hd nm Hz). by left.
    + by rewrite decide_False.
Qed.

(** Unlinking the node after [y] and releasing it. *)
Lemma bucket_delete_mid cs tp i p l0 y x l2 es1 nm r es2 n ny :
  bucket_ok cs tp i p (l0 ++ y :: x :: l2) (es1 ++ (nm, r) :: es2) ->
  length (l0 ++ [y]) = length es1 -> cs !! x = Some n -> cs !! y = Some ny ->
  bucket_ok (delete x (<[y := ny <| forw := forw n |>]> cs)) tp i p
    (l0 ++ y :: l2) (es1 ++ es2).
Proof.
  intros [Hc Hn Hnd Hh] Hlen Hx Hy.
  pose proof (chain_NoDup _ _ _ _ Hc) as Hnodup.
  apply NoDup_app in Hnodup as (_ & Hd0 & [Hdy [Hdx Hd2]%NoDup_cons]%NoDup_cons).
  assert (Hl0 : forall z, z ∈ l0 -> z <> x /\ z <> y) by set_solver.
  assert (y <> x) by set_solver.
  destruct (bindings_delete _ _ _ _ _ _ Hnd Hh) as (Hnd' & Hh' & _).
  constructor; [| |exact Hnd'|exact Hh'].
  - apply (chain_relink _ cs _ _ _ _ (x :: l2) (ny <| forw := forw n |>)); [done|..].
    + intros z Hz. apply Hl0 in Hz as [? ?].
      rewrite lookup_delete_ne, lookup_insert_ne by done. done.
    + rewrite lookup_delete_ne, lookup_insert_eq by done. done.
    + apply seg_app in Hc as (m & _ & _ & _ & ny' & Hy' & _ & _ & n' & Hx' & Hc).
      simplify_eq. destruct ny'. cbn. apply seg_delete_other; [done|].
      apply seg_insert_other; [set_solver|]. done.
  - apply node_entry_same with (cs := cs).
    + intros z nz Hz Hnz. destruct (decide (z = y)) as [->|].
      * eexists. rewrite lookup_delete_ne, lookup_insert_eq by done. simplify_eq.
        split; [done|]. by destruct ny.
      * exists nz. rewrite lookup_delete_ne, lookup_insert_ne; [done|done|set_solver].
    + rewrite cons_middle, (assoc_L (++)) in Hn |- *.
      apply Forall2_app_inv in Hn as [Hn1 Hn2]; [|done]. inversion Hn2; subst.
      by apply Forall2_app.
Qed.

(** Unlinking the first node. *)
Lemma bucket_delete_head cs tp i p x l2 nm r es2 n :
  bucket_ok cs tp i p (x :: l2) ((nm, r) :: es2) -> cs !! x = Some n ->
  bucket_ok (delete x cs) tp i (forw n) l2 es2.
Proof.
  intros [Hc Hn Hnd Hh] Hx. pose proof (chain_NoDup _ _ _ _ Hc) as [Hd _]%NoDup_cons.
  destruct (bindings_delete _ _ [] _ _ _ Hnd Hh) as (Hnd' & Hh' & _).
  constructor; [| |exact Hnd'|exact Hh'].
  - destruct Hc as (_ & _ & n' & Hx' & Hc). simplify_eq. by apply seg_delete_other.
  - apply node_entry_frame with (cs := cs); [|by inversion Hn].
    intros z ?. rewrite lookup_delete_ne; [done|set_solver].
Qed.

(** An operation on the name [nm] that leaves every node outside its bucket
    alone and rebinds the name to [r'] there. *)
Lemma sym_rep_update (st st' : sym_sys) (sd : Z) (m m' : gmap cstring (value_t * Z)) p tp bs ess l es nm
    ht' p' l' es' r' :
  sym_get st sd = Some p -> p <> 0 -> table_ok (cells st) tp bs ess ->
  (forall k, m !! k = table_get tp ess k) ->
  bs !! Z.to_nat (hashIndex tp nm) = Some l -> ess !! Z.to_nat (hashIndex tp nm) = Some es ->
  sym st' = sym st -> tabents st' = <[p := tp <| hash_table := ht' |>]> (tabents st) ->
  zlen ht' = hash_size tp ->
  (forall j, 0 <= j -> zget ht' j = if j =? hashIndex tp nm then p' else zget (hash_table tp) j) ->
  (forall x, x ∉ l -> is_Some (cells st !! x) -> cells st' !! x = cells st !! x) ->
  bucket_ok (cells st') tp (hashIndex tp nm) p' l' es' ->
  (forall k, assoc k es' = if decide (k = nm) then r' else assoc k es) ->
  (forall k, m' !! k = if decide (k = nm) then r' else m !! k) ->
  (forall x, x ∈ l' -> x ∈ l \/ cells st !! x = None) ->
  moves st st' sd p (concat bs) m'.
Proof.
  intros Hg Hp Hok Hm Hl Hes Hsym Ht Hlen Hget Hframe Hb Has Hm' Hl'.
  pose proof (hashIndex_range tp nm (to_size _ _ _ _ Hok)) as Hi.
  pose proof (to_bucket _ _ _ _ Hok _ _ _ Hl Hes) as Hold.
  assert (Hconcat : forall x, x ∈ l -> x ∈ concat bs) by (intros x Hx; apply elem_of_concat; eauto).
  split; [|done|by intros q Hq; rewrite Ht, lookup_insert_ne|by intros x Hx; apply Hframe; auto].
  exists (concat (<[Z.to_nat (hashIndex tp nm):=l']> bs)). split.
  2: { intros x (j & lj & Hj & Hx)%elem_of_concat. destruct (decide (j = Z.to_nat (hashIndex tp nm))) as [->|Hne].
       - apply lookup_lt_Some in Hl. rewrite list_lookup_insert_eq in Hj by done. injection Hj as <-.
         destruct (Hl' x Hx); auto.
       - rewrite list_lookup_insert_ne in Hj by done. left. apply elem_of_concat. eauto. }
  exists (tp <| hash_table := ht' |>), (<[Z.to_nat (hashIndex tp nm):=l']> bs),
    (<[Z.to_nat (hashIndex tp nm):=es']> ess).
  split; [unfold sym_get in *; by rewrite Hsym|]. split; [done|]. split; [by rewrite Ht, lookup_insert_eq|]. split; [|split; [|done]].
  - apply (table_ok_update (cells st) tp bs ess _ _ _ p'); try done.
    intros j lj x Hj Hne Hx. apply Hframe.
    + intros Hxl. destruct (lookup_lt_is_Some_2 ess j) as [ej Hej].
      { apply lookup_lt_Some in Hj. pose proof (to_bs _ _ _ _ Hok).
        pose proof (to_ess _ _ _ _ Hok). lia. }
      pose proof (to_bucket _ _ _ _ Hok _ _ _ Hj Hej) as Hbj.
      pose proof (buckets_disjoint _ _ _ _ _ _ _ _ _ _ _ Hbj Hold Hx Hxl) as E. lia.
    + destruct (lookup_lt_is_Some_2 ess j) as [ej Hej].
      { apply lookup_lt_Some in Hj. pose proof (to_bs _ _ _ _ Hok).
        pose proof (to_ess _ _ _ _ Hok). lia. }
      eapply seg_lookup; [apply (bo_chain _ _ _ _ _ _ (to_bucket _ _ _ _ Hok _ _ _ Hj Hej))|done].
  - intros k. rewrite Hm', table_get_update.
    + destruct (Z.eqb_spec (hashIndex tp k) (hashIndex tp nm)) as [E|E].
      * rewrite Has, Hm. unfold table_get. rewrite E, Hes. done.
      * rewrite decide_False by congruence. apply Hm.
    + rewrite (to_ess _ _ _ _ Hok). done.
    + by apply to_size in Hok.
Qed.

Lemma same_table tp : tp = tp <| hash_table := hash_table tp |>.
Proof. by destruct tp. Qed.

(** The table [tp] of the handle [sd], and the chain [l] with the bindings [es] where the
    name [nm] belongs. *)
Record located (st : sym_sys) (sd : Z) (m : gmap cstring (value_t * Z)) (nm : cstring) p tp bs ess
  (l : list Z) (es : list binding) : Prop := {
  lo_get : sym_get st sd = Some p;
  lo_nonzero : p <> 0;
  lo_tab : tabents st !! p = Some tp;
  lo_ok : table_ok (cells st) tp bs ess;
  lo_map : forall k, m !! k = table_get tp ess k;
  lo_chain : bs !! Z.to_nat (hashIndex tp nm) = Some l;
  lo_binds : ess !! Z.to_nat (hashIndex tp nm) = Some es
}.

Lemma locate st sd m nm p ns : table_at st sd m p ns -> exists tp bs ess l es,
  located st sd m nm p tp bs ess l es /\ ns = concat bs /\ m !! nm = assoc nm es /\
  bucket_ok (cells st) tp (hashIndex tp nm) (zget (hash_table tp) (hashIndex tp nm)) l es /\
  0 <= hashIndex tp nm < zlen (hash_table tp).
Proof.
  intros (tp & bs & ess & Hg & Hp & Ht & Hok & Hm & ->).
  destruct (bucket_lookup _ _ _ _ nm Hok) as (l & es & Hl & Hes & Hget & Hb).
  exists tp, bs, ess, l, es. split; [by split|]. split; [done|]. split; [by rewrite Hm|]. split; [done|].
  rewrite (to_table _ _ _ _ Hok). apply hashIndex_range. by apply (to_size _ _ _ _ Hok).
Qed.

Lemma insert_cases (m : gmap cstring (value_t * Z)) nm r k :
  <[nm := r]> m !! k = if decide (k = nm) then Some r else m !! k.
Proof. case_decide as E; [subst; apply lookup_insert_eq|by rewrite lookup_insert_ne]. Qed.

Lemma delete_cases (m : gmap cstring (value_t * Z)) nm k :
  delete nm m !! k = if decide (k = nm) then None else m !! k.
Proof. case_decide as E; [subst; apply lookup_delete_eq|by rewrite lookup_delete_ne]. Qed.

(** The head of the chain changes, or nothing but the nodes of the chain does. *)
Lemma rep_head st st' sd m m' nm p tp bs ess l es sp l' es' r' :
  located st sd m nm p tp bs ess l es -> 0 <= hashIndex tp nm < zlen (hash_table tp) ->
  sym st' = sym st ->
  tabents st' = <[p := tp <| hash_table := wset (hash_table tp) (hashIndex tp nm) sp |>]> (tabents st) ->
  (forall x, x ∉ l -> is_Some (cells st !! x) -> cells st' !! x = cells st !! x) ->
  bucket_ok (cells st') tp (hashIndex tp nm) sp l' es' ->
  (forall k, assoc k es' = if decide (k = nm) then r' else assoc k es) ->
  (forall k, m' !! k = if decide (k = nm) then r' else m !! k) ->
  (forall x, x ∈ l' -> x ∈ l \/ cells st !! x = None) -> moves st st' sd p (concat bs) m'.
Proof.
  intros [Hg Hp Ht Hok Hm Hl Hes] Hi Hs Ht' Hf Hb Ha Hm' Hl'.
  eapply (sym_rep_update st st' sd m m' p tp); try done.
  - rewrite zlen_wset by done. by apply to_table in Hok.
  - intros j ?. by apply zget_wset.
Qed.

Lemma rep_nodes st st' sd m m' nm p tp bs ess l es l' es' r' :
  located st sd m nm p tp bs ess l es -> 0 <= hashIndex tp nm < zlen (hash_table tp) ->
  sym st' = sym st -> tabents st' = tabents st ->
  (forall x, x ∉ l -> is_Some (cells st !! x) -> cells st' !! x = cells st !! x) ->
  bucket_ok (cells st') tp (hashIndex tp nm) (zget (hash_table tp) (hashIndex tp nm)) l' es' ->
  (forall k, assoc k es' = if decide (k = nm) then r' else assoc k es) ->
  (forall k, m' !! k = if decide (k = nm) then r' else m !! k) ->
  (forall x, x ∈ l' -> x ∈ l \/ cells st !! x = None) -> moves st st' sd p (concat bs) m'.
Proof.
  intros [Hg Hp Ht Hok Hm Hl Hes] Hi Hs Ht' Hf Hb Ha Hm' Hl'.
  eapply (sym_rep_update st st' sd m m' p tp); try done.
  - rewrite <- same_table. by rewrite Ht', insert_id.
  - by apply to_table in Hok.
  - intros j ?. by destruct (Z.eqb_spec j (hashIndex tp nm)) as [->|].
Qed.

(** Unlinking the first node, and another one. *)
Lemma rep_unlink_head st st' sd m nm p tp bs ess x n l2 r es2 :
  located st sd m nm p tp bs ess (x :: l2) ((nm, r) :: es2) -> 0 <= hashIndex tp nm < zlen (hash_table tp) ->
  bucket_ok (cells st) tp (hashIndex tp nm) (zget (hash_table tp) (hashIndex tp nm)) (x :: l2) ((nm, r) :: es2) ->
  cells st !! x = Some n -> sym st' = sym st ->
  tabents st' = <[p := tp <| hash_table := wset (hash_table tp) (hashIndex tp nm) (forw n) |>]> (tabents st) ->
  cells st' = delete x (cells st) -> moves st st' sd p (concat bs) (delete nm m).
Proof.
  intros Hlo Hi Hb Hx Hs Ht Hc.
  destruct (bindings_delete _ _ [] _ _ _ (bo_names _ _ _ _ _ _ Hb) (bo_hash _ _ _ _ _ _ Hb)) as (_ & _ & Has).
  eapply (rep_head st st' sd m _ nm); try done.
  - intros z Hz _. rewrite Hc, lookup_delete_ne; [done|set_solver].
  - rewrite Hc. by eapply bucket_delete_head.
  - apply delete_cases.
  - set_solver.
Qed.

Lemma rep_unlink_mid st st' sd m nm p tp bs ess l0 y ny x n l2 es1 r es2 :
  located st sd m nm p tp bs ess (l0 ++ y :: x :: l2) (es1 ++ (nm, r) :: es2) ->
  0 <= hashIndex tp nm < zlen (hash_table tp) -> length (l0 ++ [y]) = length es1 ->
  bucket_ok (cells st) tp (hashIndex tp nm) (zget (hash_table tp) (hashIndex tp nm))
    (l0 ++ y :: x :: l2) (es1 ++ (nm, r) :: es2) ->
  cells st !! x = Some n -> cells st !! y = Some ny -> sym st' = sym st -> tabents st' = tabents st ->
  cells st' = delete x (<[y := ny <| forw := forw n |>]> (cells st)) -> moves st st' sd p (concat bs) (delete nm m).
Proof.
  intros Hlo Hi Hlen Hb Hx Hy Hs Ht Hc.
  destruct (bindings_delete _ _ _ _ _ _ (bo_names _ _ _ _ _ _ Hb) (bo_hash _ _ _ _ _ _ Hb)) as (_ & _ & Has).
  eapply (rep_nodes st st' sd m _ nm); try done.
  - intros z Hz _. rewrite Hc, lookup_delete_ne, lookup_insert_ne; [done|set_solver..].
  - rewrite Hc. by eapply bucket_delete_mid.
  - apply delete_cases.
  - set_solver.
Qed.

Lemma symDelete_moves st sd m nm p ns :
  table_at st sd m p ns ->
  exists r st', symDelete st sd nm = Some (r, st') /\ moves st st' sd p ns (delete nm m) /\
    match m !! nm with None => r = -1 /\ st' = st | Some _ => r = 0 end.
Proof.
  intros Hrep. destruct (locate st sd m nm p ns Hrep) as (tp & bs & ess & l & es & Hlo & -> & Hget & Hb & Hi).
  unfold symDelete. rewrite (sym_table_rep _ _ _ _ (lo_get _ _ _ _ _ _ _ _ _ _ Hlo) (lo_tab _ _ _ _ _ _ _ _ _ _ Hlo)).
  cbn [mbind option_bind]. pose proof (bucket_fuel _ _ _ _ _ _ Hb) as Hf. pose proof Hb as [Hc Hn Hnd Hh].
  pose proof (chain_find_spec _ nm _ 0 _ _ _ Hc Hn Hf)
    as [[Hno E]|(l1 & x & l2 & es1 & r & es2 & -> & -> & Hlen & Hno & E)]; rewrite E; cbn [mbind option_bind]; clear E.
  { assert (Hnone : m !! nm = None) by (by rewrite Hget; apply assoc_None).
    exists (-1), st. split; [done|]. rewrite delete_id, Hnone by done. split; [by apply moves_refl|done]. }
  assert (Hx0 : x <> 0) by (eapply seg_nonzero; [exact Hc|set_solver]).
  destruct (Z.eqb_spec x 0) as [|_]; [done|].
  destruct (seg_lookup _ _ _ _ _ x Hc) as [n Hx]; [set_solver|]. rewrite Hx. cbn [mbind option_bind].
  rewrite Hget, assoc_app, (proj2 (assoc_None nm es1) Hno). simpl. rewrite decide_True by done.
  destruct (last_snoc_cases l1 0) as [[-> ->]|(l0 & y & -> & ->)].
  - destruct es1; [|done]. cbn [negb Z.eqb mbind option_bind]. do 2 eexists. split; [done|]. split; [|done].
    eapply (rep_unlink_head st); try done; by destruct st.
  - assert (y <> 0) by (eapply seg_nonzero; [exact Hc|set_solver]).
    destruct (Z.eqb_spec y 0) as [|_]; [done|].
    destruct (seg_lookup _ _ _ _ _ y Hc) as [ny Hy]; [set_solver|].
    rewrite <- (assoc_L (++)) in *. cbn [app negb] in *. rewrite Hy. cbn [mbind option_bind].
    do 2 eexists. split; [done|]. split; [|done]. eapply (rep_unlink_mid st); try done; by destruct st.
Qed.

(** [symDelete]: -1 and no change for a name that is not bound; otherwise 0
    and the table now represents the map without the name. *)
Theorem symDelete_correct st sd m nm :
  sym_rep st sd m ->
  exists r st', symDelete st sd nm = Some (r, st') /\ sym_rep st' sd (delete nm m) /\
    match m !! nm with None => r = -1 /\ st' = st | Some _ => r = 0 end.
Proof.
  intros (p & ns & Ht)%rep_table_at. destruct (symDelete_moves st sd m nm p ns Ht) as (r & st' & E & Hm & Hr).
  exists r, st'. split; [done|]. split; [by eapply moves_rep|done].
Qed.

(** ** Entering *)

Lemma bindings_update (f : cstring -> Z) i es1 nm r r' es2 :
  nm ∉ (fst <$> es1) ->
  NoDup (fst <$> (es1 ++ (nm, r) :: es2)) ->
  (forall k q, (k, q) ∈ es1 ++ (nm, r) :: es2 -> f k = i) ->
  NoDup (fst <$> (es1 ++ (nm, r') :: es2)) /\
  (forall k q, (k, q) ∈ es1 ++ (nm, r') :: es2 -> f k = i) /\
  forall k, assoc k (es1 ++ (nm, r') :: es2) = if decide (k = nm) then Some r'
                                   else assoc k (es1 ++ (nm, r) :: es2).
Proof.
  intros Hno Hnd Hh. split; [|split].
  - by rewrite fmap_app, fmap_cons in Hnd |- *.
  - intros k q [Hk|[[= -> ->]|Hk]%elem_of_cons]%elem_of_app.
    + apply (Hh k q). set_solver.
    + apply (Hh nm r). set_solver.
    + apply (Hh k q). set_solver.
  - intros k. rewrite !assoc_app. simpl. destruct (decide (k = nm)) as [->|Hne].
    + by rewrite (proj2 (assoc_None nm es1)), decide_True.
    + by rewrite !decide_False.
Qed.

Lemma bindings_snoc (f : cstring -> Z) i es nm r :
  nm ∉ (fst <$> es) -> f nm = i -> NoDup (fst <$> es) ->
  (forall k q, (k, q) ∈ es -> f k = i) ->
  NoDup (fst <$> (es ++ [(nm, r)])) /\
  (forall k q, (k, q) ∈ es ++ [(nm, r)] -> f k = i) /\
  forall k, assoc k (es ++ [(nm, r)]) = if decide (k = nm) then Some r else assoc k es.
Proof.
  intros Hno Hf Hnd Hh. split; [|split].
  - rewrite fmap_app. apply NoDup_app. split; [done|]. split; [|apply NoDup_singleton].
    intros z ? ->%list_elem_of_singleton. done.
  - intros k q [Hk|[= -> ->]%list_elem_of_singleton]%elem_of_app; eauto.
  - intros k. rewrite assoc_app. simpl. destruct (decide (k = nm)) as [->|Hne].
    + by rewrite (proj2 (assoc_None nm es)), decide_True.
    + rewrite decide_False by done. by destruct (assoc k es).
Qed.

(** Storing a new value in the node of a name. *)
Lemma bucket_update cs tp i p l1 x l2 es1 nm r es2 n v a :
  bucket_ok cs tp i p (l1 ++ x :: l2) (es1 ++ (nm, r) :: es2) ->
  length l1 = length es1 -> nm ∉ (fst <$> es1) -> cs !! x = Some n ->
  bucket_ok (<[x := n <| content := v |> <| arg := a |>]> cs) tp i p
    (l1 ++ x :: l2) (es1 ++ (nm, (v, a)) :: es2).
Proof.
  intros [Hc Hn Hnd Hh] Hlen Hno Hx.
  pose proof (chain_NoDup _ _ _ _ Hc) as (_ & Hd0 & [Hdx Hd2]%NoDup_cons)%NoDup_app.
  assert (x ∉ l1) by set_solver.
  destruct (bindings_update _ _ _ _ _ (v, a) _ Hno Hnd Hh) as (Hnd' & Hh' & _).
  constructor; [| |exact Hnd'|exact Hh'].
  - apply (chain_relink _ cs _ _ _ _ l2 (n <| content := v |> <| arg := a |>)); [done|..].
    + intros z ?. rewrite lookup_insert_ne; [done|set_solver].
    + apply lookup_insert_eq.
    + apply seg_app in Hc as (q & _ & _ & _ & n' & Hx' & Hc). simplify_eq.
      destruct n'. cbn. by apply seg_insert_other.
  - apply Forall2_app_inv in Hn as [Hn1 Hn2]; [|done].
    inversion Hn2 as [|? ? ? ? (n' & Hx' & Hnm & _) Hn2']; subst. simplify_eq.
    apply Forall2_app; [|constructor].
    + apply node_entry_frame with (cs := cs); [|done].
      intros z ?. rewrite lookup_insert_ne; [done|set_solver].
    + eexists. split; [apply lookup_insert_eq|]. destruct n. by cbn in *.
    + apply node_entry_frame with (cs := cs); [|done].
      intros z ?. rewrite lookup_insert_ne; [done|set_solver].
Qed.

(** Appending a new node after the last one, [y]. *)
Lemma bucket_append cs tp i p l0 y es x n nm v a ny :
  bucket_ok cs tp i p (l0 ++ [y]) es ->
  nm ∉ (fst <$> es) -> hashIndex tp nm = i -> cs !! x = None -> x <> 0 ->
  forw n = 0 -> sym_name n = Some nm -> content n = v -> arg n = a ->
  cs !! y = Some ny ->
  bucket_ok (<[y := ny <| forw := x |>]> (<[x:=n]> cs)) tp i p
    (l0 ++ [y; x]) (es ++ [(nm, (v, a))]).
Proof.
  intros [Hc Hn Hnd Hh] Hno Hi Hx Hx0 Hf Hnm <- <- Hy.
  pose proof (chain_NoDup _ _ _ _ Hc) as (_ & Hd0 & _)%NoDup_app.
  assert (Hfresh : x ∉ l0 ++ [y]).
  { intros Hin. destruct (seg_lookup _ _ _ _ _ x Hc Hin). by simplify_eq. }
  assert (y ∉ l0) by set_solver. assert (x ∉ l0) by set_solver. assert (y <> x) by set_solver.
  destruct (bindings_snoc _ _ _ _ (content n, arg n) Hno Hi Hnd Hh) as (Hnd' & Hh' & _).
  constructor; [| |exact Hnd'|exact Hh'].
  - apply (chain_relink _ cs _ _ _ _ [] (ny <| forw := x |>)); [done|..].
    + intros z ?. rewrite !lookup_insert_ne; [done|set_solver..].
    + apply lookup_insert_eq.
    + destruct ny. cbn. split; [done|]. split; [done|]. exists n.
      rewrite lookup_insert_ne, lookup_insert_eq by done. split; [done|]. done.
  - change (l0 ++ [y; x]) with (l0 ++ [y] ++ [x]). rewrite (assoc_L (++)).
    apply Forall2_app; [|constructor; [|done]].
    + apply node_entry_same with (cs := cs); [|done].
      intros z nz Hz Hnz. destruct (decide (z = y)) as [->|].
      * eexists. rewrite lookup_insert_eq. simplify_eq. split; [done|]. by destruct ny.
      * exists nz. rewrite !lookup_insert_ne; [done|set_solver..].
    + exists n. rewrite lookup_insert_ne, lookup_insert_eq by done. done.
Qed.

(** Starting a chain. *)
Lemma bucket_start cs tp i x n nm v a :
  hashIndex tp nm = i -> x <> 0 ->
  forw n = 0 -> sym_name n = Some nm -> content n = v -> arg n = a ->
  bucket_ok (<[x:=n]> cs) tp i x [x] [(nm, (v, a))].
Proof.
  intros Hi Hx0 Hf Hnm <- <-. constructor.
  - split; [done|]. split; [done|]. exists n. by rewrite lookup_insert_eq.
  - constructor; [|constructor]. exists n. by rewrite lookup_insert_eq.
  - apply NoDup_singleton.
  - by intros k r [= -> ->]%list_elem_of_singleton.
Qed.

(** Entering a name: into an empty chain, at the end of a chain, and into its node. *)
Lemma rep_start st st' sd m nm p tp bs ess es sp n v a :
  located st sd m nm p tp bs ess [] es -> 0 <= hashIndex tp nm < zlen (hash_table tp) -> es = [] ->
  sp <> 0 -> cells st !! sp = None -> forw n = 0 -> sym_name n = Some nm -> content n = v -> arg n = a -> sym st' = sym st ->
  tabents st' = <[p := tp <| hash_table := wset (hash_table tp) (hashIndex tp nm) sp |>]> (tabents st) ->
  cells st' = <[sp := n]> (cells st) -> moves st st' sd p (concat bs) (<[nm := (v, a)]> m).
Proof.
  intros Hlo Hi -> Hsp Hfr Hfo Hnm <- <- Hs Ht Hc.
  eapply (rep_head st st' sd m _ nm _ _ _ _ _ _ sp [sp] [(nm, (content n, arg n))]); try done.
  - intros z _ [? Hz]. rewrite Hc, lookup_insert_ne; [done|congruence].
  - rewrite Hc. by eapply bucket_start.
  - intros k. simpl. by repeat destruct (decide _).
  - apply insert_cases.
  - set_solver.
Qed.

Lemma rep_append st st' sd m nm p tp bs ess l0 y ny es sp n v a :
  located st sd m nm p tp bs ess (l0 ++ [y]) es -> 0 <= hashIndex tp nm < zlen (hash_table tp) ->
  bucket_ok (cells st) tp (hashIndex tp nm) (zget (hash_table tp) (hashIndex tp nm)) (l0 ++ [y]) es ->
  nm ∉ (fst <$> es) -> sp <> 0 -> cells st !! sp = None -> forw n = 0 -> sym_name n = Some nm -> content n = v -> arg n = a ->
  cells st !! y = Some ny -> sym st' = sym st -> tabents st' = tabents st ->
  cells st' = <[y := ny <| forw := sp |>]> (<[sp := n]> (cells st)) ->
  moves st st' sd p (concat bs) (<[nm := (v, a)]> m).
Proof.
  intros Hlo Hi Hb Hno Hsp Hfr Hfo Hnm <- <- Hy Hs Ht Hc.
  eapply (rep_nodes st st' sd m _ nm _ _ _ _ _ _ (l0 ++ [y; sp]) (es ++ [(nm, (content n, arg n))])); try done.
  - intros z Hz [? Hz']. rewrite Hc, !lookup_insert_ne; [done|congruence|set_solver].
  - rewrite Hc. by eapply bucket_append.
  - intros k. by apply (bindings_snoc _ _ _ _ _ Hno eq_refl (bo_names _ _ _ _ _ _ Hb) (bo_hash _ _ _ _ _ _ Hb)).
  - apply insert_cases.
  - set_solver.
Qed.

Lemma rep_node_update st st' sd m nm p tp bs ess l1 x n l2 es1 r es2 v a :
  located st sd m nm p tp bs ess (l1 ++ x :: l2) (es1 ++ (nm, r) :: es2) ->
  0 <= hashIndex tp nm < zlen (hash_table tp) ->
  bucket_ok (cells st) tp (hashIndex tp nm) (zget (hash_table tp) (hashIndex tp nm))
    (l1 ++ x :: l2) (es1 ++ (nm, r) :: es2) ->
  length l1 = length es1 -> nm ∉ (fst <$> es1) -> cells st !! x = Some n ->
  sym st' = sym st -> tabents st' = tabents st ->
  cells st' = <[x := n <| content := v |> <| arg := a |>]> (cells st) -> moves st st' sd p (concat bs) (<[nm := (v, a)]> m).
Proof.
  intros Hlo Hi Hb Hlen Hno Hx Hs Ht Hc.
  eapply (rep_nodes st st' sd m _ nm _ _ _ _ _ _ (l1 ++ x :: l2) (es1 ++ (nm, (v, a)) :: es2)); try done.
  - intros z Hz [? Hz']. rewrite Hc, lookup_insert_ne; [done|set_solver].
  - rewrite Hc. by eapply bucket_update.
  - intros k. by apply (bindings_update _ _ _ _ _ (v, a) _ Hno (bo_names _ _ _ _ _ _ Hb) (bo_hash _ _ _ _ _ _ Hb)).
  - apply insert_cases.
  - set_solver.
Qed.

Section EnterSpec.
Context (strdup : cstring -> option cstring) (new_cell : gmap Z sym_t -> Z).
(** [malloc] gives the null pointer or a block that is not in use. *)
Hypothesis new_cell_fresh : forall cs, new_cell cs = 0 \/ cs !! new_cell cs = None.

Lemma valueString_alloc s :
  strdup s = Some s -> v_value (valueString strdup s VALUE_ALLOCATE) = VString (Some s).
Proof. intros E. unfold valueString. cbn. by rewrite E. Qed.

(** [symEnter] stores the start of a new chain twice. *)
Lemma store_twice tp nm sp : 0 <= hashIndex tp nm < zlen (hash_table tp) ->
  (let tp1 := tp <| hash_table := wset (hash_table tp) (hashIndex tp nm) sp |> in
   tp1 <| hash_table := wset (hash_table tp1) (hashIndex tp1 nm) sp |>) =
  tp <| hash_table := wset (hash_table tp) (hashIndex tp nm) sp |>.
Proof.
  intros Hi. destruct tp as [iu size ht]. cbn in *.
  change (hashIndex (mkTabent iu size (wset ht (hashIndex (mkTabent iu size ht) nm) sp)) nm)
    with (hashIndex (mkTabent iu size ht) nm).
  set (i := hashIndex _ _) in *. f_equal. apply zget_ext.
  - apply Nat2Z.inj. rewrite !zlen_wset; rewrite ?zlen_wset; lia.
  - intros k Hk. rewrite !zget_wset; rewrite ?zlen_wset; try lia. by destruct (k =? i).
Qed.

Lemma symEnter_moves st sd m nm v a p ns :
  table_at st sd m p ns -> strdup nm = Some nm ->
  exists sp st', symEnter strdup new_cell st sd nm v a = Some (sp, st') /\
    ((sp = 0 /\ st' = st /\ m !! nm = None /\ new_cell (cells st) = 0) \/
     (sp <> 0 /\ moves st st' sd p ns (<[nm:=(v, a)]> m) /\
      exists n, cells st' !! sp = Some n /\ content n = v /\ arg n = a)).
Proof using new_cell_fresh.
  intros Hrep Hdup. destruct (locate st sd m nm p ns Hrep) as (tp & bs & ess & l & es & Hlo & -> & Hget & Hb & Hi).
  unfold symEnter. rewrite (sym_table_rep _ _ _ _ (lo_get _ _ _ _ _ _ _ _ _ _ Hlo) (lo_tab _ _ _ _ _ _ _ _ _ _ Hlo)).
  cbn [mbind option_bind]. pose proof (bucket_fuel _ _ _ _ _ _ Hb) as Hf. pose proof Hb as [Hc Hn Hnd Hh].
  fold (hash tp nm). destruct (Z.eqb_spec (hash tp nm) 0) as [E0|E0]; cbn [negb].
  { unfold hash in E0. rewrite E0 in Hc. apply chain_nil in Hc as ->; [|done]. inversion Hn; subst.
    destruct (Z.eqb_spec (new_cell (cells st)) 0) as [E|E]; [do 2 eexists; split; [done|]; by left|].
    destruct (new_cell_fresh (cells st)) as [?|Hfr]; [done|].
    rewrite (store_twice tp nm) by done. do 2 eexists. split; [done|]. right. split; [done|].
    split; [|eexists; split; [destruct st; cbn; apply lookup_insert_eq|done]].
    eapply (rep_start st); try done. all: destruct st; try done; try exact Hdup. all: try reflexivity. }
  pose proof (chain_find_spec _ nm _ 0 _ _ _ Hc Hn Hf)
    as [[Hno Ef]|(l1 & x & l2 & es1 & r & es2 & -> & -> & Hlen & Hno & Ef)];
    unfold hash; rewrite Ef; cbn [mbind option_bind]; clear Ef.
  - cbn [negb Z.eqb]. destruct (Z.eqb_spec (new_cell (cells st)) 0) as [E|E].
    { do 2 eexists. split; [done|]. left. by rewrite Hget, (proj2 (assoc_None _ _)). }
    destruct (new_cell_fresh (cells st)) as [?|Hfr]; [done|].
    destruct (last_snoc_cases l 0) as [[-> ->]|(l0 & y & -> & ->)]; [by cbn in Hc|].
    destruct (seg_lookup _ _ _ _ _ y Hc) as [ny Hy]; [set_solver|].
    assert (Hny : y <> new_cell (cells st)) by congruence.
    assert (Hy' : forall n, cells (st <| cells := <[new_cell (cells st):=n]> (cells st) |>) !! y = Some ny)
      by (intros; destruct st; cbn in *; by rewrite lookup_insert_ne).
    rewrite Hy'. cbn [mbind option_bind]. do 2 eexists. split; [done|]. right. split; [done|]. split.
    + eapply (rep_append st); try done. all: destruct st; try done; try exact Hdup. all: reflexivity.
    + destruct st. cbn. rewrite lookup_insert_ne, lookup_insert_eq by done. eauto.
  - destruct (Z.eqb_spec x 0) as [|_]; [exfalso; eapply seg_nonzero; [exact Hc| |done]; set_solver|].
    destruct (seg_lookup _ _ _ _ _ x Hc) as [n Hx]; [set_solver|]. cbn [negb]. rewrite Hx. cbn [mbind option_bind].
    do 2 eexists. split; [done|]. right. split; [eapply seg_nonzero; [exact Hc|set_solver]|]. split.
    + eapply (rep_node_update st); try done; by destruct (negb (v_valid (content n) =? 0)), st.
    + exists (n <| content := v |> <| arg := a |>). split; [|by destruct n].
      destruct (negb (v_valid (content n) =? 0)), st; cbn; by rewrite lookup_insert_eq.
Qed.

(** [symEnter], when the name can be copied: the call returns the null
    pointer and changes nothing when there is no memory for a new symbol;
    otherwise it returns a symbol that holds the value and the argument, and the
    table represents the map with the name bound to them, whether the name was
    bound before or not. *)
Theorem symEnter_correct st sd m nm v a :
  sym_rep st sd m -> strdup nm = Some nm ->
  exists sp st', symEnter strdup new_cell st sd nm v a = Some (sp, st') /\
    ((sp = 0 /\ st' = st /\ m !! nm = None /\ new_cell (cells st) = 0) \/
     (sp <> 0 /\ sym_rep st' sd (<[nm:=(v, a)]> m) /\
      exists n, cells st' !! sp = Some n /\ content n = v /\ arg n = a)).
Proof using new_cell_fresh.
  intros (p & ns & Ht)%rep_table_at Hdup.
  destruct (symEnter_moves st sd m nm v a p ns Ht Hdup) as (sp & st' & E & [?|(? & Hm & ?)]); exists sp, st'; split; try done;
    [by left|right]. split; [done|]. split; [by eapply moves_rep|done].
Qed.
End EnterSpec.

(** ** All the entries of a table *)

Lemma zget_lookup (l : list Z) i x : l !! i = Some x -> zget l (Z.of_nat i) = x.
Proof. rewrite zget_nat. intros H. by apply nth_lookup_Some. Qed.

Section Whole.
Context (cs : gmap Z sym_t) (tp : sym_tabent_t) (bs : list (list Z)) (ess : list (list binding)).
Hypothesis Hok : table_ok cs tp bs ess.

Lemma table_bucket i l :
  bs !! i = Some l ->
  exists es, ess !! i = Some es /\
    bucket_ok cs tp (Z.of_nat i) (zget (hash_table tp) (Z.of_nat i)) l es.
Proof using Hok.
  intros Hl. destruct (lookup_lt_is_Some_2 ess i) as [es Hes].
  { apply lookup_lt_Some in Hl. pose proof (to_bs _ _ _ _ Hok).
    pose proof (to_ess _ _ _ _ Hok). lia. }
  exists es. split; [done|]. by eapply to_bucket.
Qed.

Lemma table_bucket_r i es :
  ess !! i = Some es ->
  exists l, bs !! i = Some l /\
    bucket_ok cs tp (Z.of_nat i) (zget (hash_table tp) (Z.of_nat i)) l es.
Proof using Hok.
  intros Hes. destruct (lookup_lt_is_Some_2 bs i) as [l Hl].
  { apply lookup_lt_Some in Hes. pose proof (to_bs _ _ _ _ Hok).
    pose proof (to_ess _ _ _ _ Hok). lia. }
  exists l. split; [done|]. by eapply to_bucket.
Qed.

Lemma table_NoDup : NoDup (concat bs).
Proof using Hok.
  apply NoDup_of_concat.
  - intros i l (es & _ & Hb)%table_bucket. eapply chain_NoDup, (bo_chain _ _ _ _ _ _ Hb).
  - intros i j l l' x (es & _ & Hb)%table_bucket (es' & _ & Hb')%table_bucket Hx Hx'.
    pose proof (buckets_disjoint _ _ _ _ _ _ _ _ _ _ _ Hb Hb' Hx Hx'). lia.
Qed.

Lemma table_entries : Forall2 (node_entry cs) (concat bs) (concat ess).
Proof using Hok.
  assert (H : Forall2 (Forall2 (node_entry cs)) bs ess).
  { apply Forall2_same_length_lookup. split.
    - pose proof (to_bs _ _ _ _ Hok). pose proof (to_ess _ _ _ _ Hok). lia.
    - intros i l es Hl Hes. apply (bo_nodes _ _ _ _ _ _ (to_bucket _ _ _ _ Hok _ _ _ Hl Hes)). }
  clear Hok. induction H as [|l es bs' ess' H _ IH]; [constructor|].
  cbn [concat]. by apply Forall2_app.
Qed.

Lemma table_bindings (m : gmap cstring (value_t * Z)) :
  (forall k, m !! k = table_get tp ess k) -> concat ess ≡ₚ map_to_list m.
Proof using Hok.
  intros Hm. apply NoDup_Permutation; [|apply NoDup_map_to_list|].
  - apply NoDup_of_concat.
    + intros i es (l & _ & Hb)%table_bucket_r. eapply NoDup_fmap_1, (bo_names _ _ _ _ _ _ Hb).
    + intros i j es es' [k r] (l & _ & Hb)%table_bucket_r (l' & _ & Hb')%table_bucket_r Hx Hx'.
      apply (bo_hash _ _ _ _ _ _ Hb) in Hx. apply (bo_hash _ _ _ _ _ _ Hb') in Hx'. lia.
  - intros [k r]. rewrite elem_of_map_to_list, Hm, elem_of_concat.
    destruct (bucket_lookup _ _ _ _ k Hok) as (l & es & _ & Hes & -> & Hb). split.
    + intros (i & es' & Hes' & Hk). pose proof (table_bucket_r _ _ Hes') as (l' & _ & Hb').
      pose proof (bo_hash _ _ _ _ _ _ Hb' _ _ Hk) as Hi.
      rewrite Hi, Nat2Z.id in Hes. simplify_eq.
      apply elem_assoc; [|done]. apply (bo_names _ _ _ _ _ _ Hb).
    + intros Hk%assoc_elem. eauto.
Qed.
End Whole.

(** ** The walk *)

Section Walk.
Context (beyond : Z).

(** The iteration stands in bucket [j] with the nodes [rest] to come, [nx] being
    the first of them in the bucket. *)
Definition iter_at (cs : gmap Z sym_t) (tp : sym_tabent_t) (bs : list (list Z))
    (j nx : Z) (rest : list Z) : Prop :=
  (j = hash_size tp /\ rest = []) \/
  (0 <= j < hash_size tp /\
   exists l, chain forw cs nx l /\ rest = l ++ concat (drop (S (Z.to_nat j)) bs)).

Lemma iter_bucket cs tp bs ess j :
  table_ok cs tp bs ess -> 0 <= j <= hash_size tp ->
  iter_at cs tp bs j (ht_read beyond tp j) (concat (drop (Z.to_nat j) bs)).
Proof.
  intros Hok Hj. pose proof (to_bs _ _ _ _ Hok) as Hb.
  destruct (Z.eq_dec j (hash_size tp)) as [->|].
  - left. split; [done|]. by rewrite drop_ge by lia.
  - right. split; [lia|].
    destruct (lookup_lt_is_Some_2 bs (Z.to_nat j)) as [l Hl]; [lia|].
    destruct (table_bucket _ _ _ _ Hok _ _ Hl) as (es & _ & [Hc _ _ _]).
    rewrite Z2Nat.id in Hc by lia. exists l. split.
    + unfold ht_read. by replace ((0 <=? j) && (j <? hash_size tp)) with true by lia.
    + by rewrite (drop_S _ _ _ Hl).
Qed.

(** States that differ in the iteration only. *)
Definition same_but_iter (st st' : sym_sys) : Prop :=
  st' = st <| htIndex := htIndex st' |> <| next := next st' |>.

Lemma sym_visit_spec st tp bs ess j sp l :
  table_ok (cells st) tp bs ess -> 0 <= j < hash_size tp ->
  chain forw (cells st) sp (sp :: l) ->
  exists st', sym_visit beyond st tp j sp = Some (sp, st') /\ same_but_iter st st' /\
    iter_at (cells st) tp bs (htIndex st') (next st')
      (l ++ concat (drop (S (Z.to_nat j)) bs)).
Proof.
  intros Hok Hj (_ & _ & n & Hn & Hc). unfold sym_visit. rewrite Hn. cbn [mbind option_bind].
  eexists. split; [done|]. destruct (Z.eqb_spec (forw n) 0) as [E|E].
  - split; [by destruct st|].
    rewrite E in Hc. apply chain_nil in Hc as ->; [|done]. cbn [app].
    replace (S (Z.to_nat j)) with (Z.to_nat (j + 1)) by lia.
    destruct st. cbn. eapply iter_bucket; [exact Hok|lia].
  - split; [by destruct st|]. right. destruct st. cbn in *. eauto.
Qed.

Lemma symNext_loop_spec k st tp bs ess i rest :
  table_ok (cells st) tp bs ess -> Z.of_nat k = hash_size tp - i ->
  iter_at (cells st) tp bs i (next st) rest ->
  exists st', same_but_iter st st' /\
    match rest with
    | [] => symNext_loop beyond k st tp i = Some (0, st')
    | x :: rest' => symNext_loop beyond k st tp i = Some (x, st') /\ x <> 0 /\
        iter_at (cells st) tp bs (htIndex st') (next st') rest'
    end.
Proof.
  revert st i rest. induction k as [|k IH]; intros st i rest Hok Hk Hit; cbn [symNext_loop].
  - destruct Hit as [[_ ->]|[? _]]; [|lia]. exists st. by destruct st.
  - destruct Hit as [[? _]|[Hi (l & Hc & ->)]]; [lia|].
    destruct (Z.eqb_spec (next st) 0) as [E|E]; cbn [negb].
    + rewrite E in Hc. apply chain_nil in Hc as ->; [|done]. cbn [app].
      assert (Hcs : cells (st <| next := ht_read beyond tp (i + 1) |>) = cells st) by by destruct st.
      assert (Hnx : next (st <| next := ht_read beyond tp (i + 1) |>) = ht_read beyond tp (i + 1))
        by by destruct st.
      replace (S (Z.to_nat i)) with (Z.to_nat (i + 1)) by lia.
      destruct (IH (st <| next := ht_read beyond tp (i + 1) |>) (i + 1)
                  (concat (drop (Z.to_nat (i + 1)) bs))) as (st' & Hs & Hr).
      { by rewrite Hcs. } { lia. }
      { rewrite Hcs, Hnx. eapply iter_bucket; [exact Hok|lia]. }
      exists st'. split; [unfold same_but_iter in *; rewrite Hs at 1; by destruct st|].
      by rewrite Hcs in Hr.
    + apply chain_cons in Hc as (n & l' & -> & Hn & Hc); [|done]. cbn [app].
      destruct (sym_visit_spec st tp bs ess i (next st) l' Hok Hi) as (st' & -> & Hs & Hit).
      { split; [done|]. eauto. }
      exists st'. auto.
Qed.

Lemma symFirst_loop_spec k st tp bs ess i :
  table_ok (cells st) tp bs ess -> Z.of_nat k = hash_size tp - i -> 0 <= i ->
  exists st', same_but_iter st st' /\
    match concat (drop (Z.to_nat i) bs) with
    | [] => symFirst_loop beyond k st tp i = Some (0, st')
    | x :: rest' => symFirst_loop beyond k st tp i = Some (x, st') /\ x <> 0 /\
        iter_at (cells st) tp bs (htIndex st') (next st') rest'
    end.
Proof.
  intros Hok. revert i. induction k as [|k IH]; intros i Hk Hi; cbn [symFirst_loop].
  - exists st. split; [by destruct st|]. rewrite drop_ge; [done|].
    pose proof (to_bs _ _ _ _ Hok). lia.
  - pose proof (iter_bucket _ _ _ _ i Hok ltac:(lia)) as [[? _]|[_ (l & Hc & ->)]]; [lia|].
    destruct (Z.eqb_spec (ht_read beyond tp i) 0) as [E|E]; cbn [negb].
    + rewrite E in Hc. apply chain_nil in Hc as ->; [|done]. cbn [app].
      replace (S (Z.to_nat i)) with (Z.to_nat (i + 1)) by lia. apply IH; lia.
    + apply chain_cons in Hc as (n & l' & -> & Hn & Hc); [|done]. cbn [app].
      destruct (sym_visit_spec st tp bs ess i (ht_read beyond tp i) l' Hok) as (st' & -> & Hs & Hit);
        [lia| |].
      { split; [done|]. eauto. }
      exists st'. auto.
Qed.

Lemma same_but_iter_table st st' sd p tp :
  same_but_iter st st' -> sym_table st sd = Some (p, tp) -> sym_table st' sd = Some (p, tp).
Proof. unfold same_but_iter. intros ->. by destruct st. Qed.

Lemma walk_rest n st tp p bs ess sd rest :
  table_ok (cells st) tp bs ess -> sym_table st sd = Some (p, tp) ->
  iter_at (cells st) tp bs (htIndex st) (next st) rest -> (length rest < n)%nat ->
  walk_from beyond n sd (symNext beyond st sd) = Some rest.
Proof.
  revert st rest. induction n as [|n IH]; intros st rest Hok Ht Hit Hn; [lia|].
  assert (E : symNext beyond st sd =
    symNext_loop beyond (Z.to_nat (hash_size tp - htIndex st)) st tp (htIndex st)).
  { unfold symNext. by rewrite Ht. }
  cbn [walk_from]. rewrite E.
  destruct (symNext_loop_spec (Z.to_nat (hash_size tp - htIndex st)) st tp bs ess (htIndex st) rest)
    as (st' & Hs & Hr); [done| |done|].
  { destruct Hit as [[-> _]|[? _]]; pose proof (to_size _ _ _ _ Hok); lia. }
  destruct rest as [|x rest].
  - rewrite Hr. done.
  - destruct Hr as (-> & Hx & Hit'). cbn [mbind option_bind].
    destruct (Z.eqb_spec x 0) as [|_]; [done|].
    assert (Hcs : cells st' = cells st) by (rewrite Hs; by destruct st).
    rewrite (IH st' rest); [done|by rewrite Hcs|by eapply same_but_iter_table|by rewrite Hcs|].
    simpl in Hn. lia.
Qed.

(** Walking a table with [symFirst] and [symNext] terminates and meets every
    binding of the map it represents exactly once, whatever the word after the
    hash table holds: the iteration reads that word when the last chain ends, but
    never uses it. *)
Theorem sym_walk_complete st sd m fuel :
  sym_rep st sd m -> (size m < fuel)%nat ->
  exists ps es, sym_walk beyond fuel st sd = Some ps /\
    NoDup ps /\ Forall2 (node_entry (cells st)) ps es /\ es ≡ₚ map_to_list m.
Proof.
  intros (p & tp & bs & ess & Hg & Hp & Ht & Hok & Hm) Hf.
  pose proof (table_bindings _ _ _ _ Hok _ Hm) as Hperm.
  pose proof (table_entries _ _ _ _ Hok) as Hes.
  exists (concat bs), (concat ess). split; [|eauto using table_NoDup].
  pose proof (sym_table_rep _ _ _ _ Hg Ht) as Htab.
  assert (Hlen : length (concat bs) = size m).
  { rewrite (Forall2_length _ _ _ Hes), (Permutation_length Hperm). apply length_map_to_list. }
  unfold sym_walk. destruct fuel as [|fuel]; [lia|]. cbn [walk_from].
  unfold symFirst. rewrite Htab. cbn [mbind option_bind].
  destruct (symFirst_loop_spec (Z.to_nat (hash_size tp)) st tp bs ess 0 Hok) as (st' & Hs & Hr);
    [pose proof (to_size _ _ _ _ Hok); lia|lia|].
  change (drop (Z.to_nat 0) bs) with (drop 0 bs) in Hr. rewrite drop_0 in Hr.
  destruct (concat bs) as [|x rest]; [by rewrite Hr|].
  destruct Hr as (-> & Hx & Hit). cbn [mbind option_bind].
  destruct (Z.eqb_spec x 0) as [|_]; [done|].
  assert (Hcs : cells st' = cells st) by (rewrite Hs; by destruct st).
  rewrite (walk_rest fuel st' tp p bs ess sd rest); [done|by rewrite Hcs| |by rewrite Hcs|].
  - by eapply same_but_iter_table.
  - simpl in Hlen. lia.
Qed.
End Walk.

(** ** Prime sizes *)

Lemma isPrime_loop_spec k n i :
  isPrime_loop k n i = true <-> forall d, i <= d < i + Z.of_nat k -> n mod d <> 0.
Proof.
  revert i. induction k as [|k IH]; intros i; cbn [isPrime_loop]; [split; [lia|done]|].
  destruct (Z.eqb_spec (n mod i) 0) as [E|E].
  - split; [done|]. intros H. by destruct (H i ltac:(lia)).
  - rewrite IH. split; intros H d Hd.
    + destruct (Z.eq_dec d i) as [->|]; [done|]. apply H. lia.
    + apply H. lia.
Qed.

Lemma isPrime_spec n : 1 < n -> isPrime n = true <-> prime n.
Proof.
  intros Hn. unfold isPrime. rewrite isPrime_loop_spec. rewrite <- prime_alt. split.
  - intros H. split; [done|]. intros d Hd [q ->].
    assert (2 <= q) by nia.
    assert (d <= q * d / 2) by (apply Z.div_le_lower_bound; nia).
    apply (H d); [lia|]. apply Z.mod_mul. lia.
  - intros [_ H] d Hd Hm. apply (H d).
    + assert (n / 2 < n) by (apply Z.div_lt; lia). lia.
    + apply Z.mod_divide; [lia|done].
Qed.

Lemma calcPrime_loop_spec k :
  let p := calcPrime_loop k in
  1 <= p /\ (p <= Z.of_nat k \/ k = 0%nat) /\ (p = 1 \/ prime p) /\
  forall q, prime q -> q <= Z.of_nat k -> q <= p.
Proof.
  induction k as [|k IH].
  - simpl. repeat split; auto; try lia.
  - cbn [calcPrime_loop]. destruct (isPrime (Z.of_nat (S k))) eqn:E; cbn zeta.
    + split; [lia|]. split; [lia|]. split; [|lia].
      destruct (Z.eq_dec (Z.of_nat (S k)) 1) as [|]; [auto|right].
      apply isPrime_spec; [lia|done].
    + destruct IH as (? & Hle & Hp & Hq). split; [done|]. split.
      { destruct Hle as [?| ->]; [left; lia|]. left. by vm_compute in E. }
      split; [done|]. intros q Hpq Hqk. apply Hq; [done|].
      destruct (Z.eq_dec q (Z.of_nat (S k))) as [->|]; [|lia].
      apply isPrime_spec in Hpq; [congruence|]. apply prime_ge_2 in Hpq. lia.
Qed.

(** [calcPrime]: the largest prime that does not exceed the requested size (1
    for a size of 1).  The comment in the source promises a prime smaller than the
    size: a size that is itself prime is kept. *)
Theorem calcPrime_correct size :
  0 < size ->
  1 <= calcPrime size <= size /\ (size = 1 \/ prime (calcPrime size)) /\
  forall q, prime q -> q <= size -> q <= calcPrime size.
Proof.
  intros Hs. pose proof (calcPrime_loop_spec (Z.to_nat size)) as (? & ? & Hp & Hq).
  fold (calcPrime size) in *. rewrite Z2Nat.id in * by lia.
  split; [lia|]. split; [|done].
  destruct (Z.eq_dec size 1); [auto|right]. destruct Hp as [Hp|]; [|done].
  specialize (Hq 2 prime_2). lia.
Qed.

Lemma calcPrime_correct_witness : calcPrime 64 = 61 /\ prime (calcPrime 64).
Proof.
  destruct (calcPrime_correct 64) as (_ & [?|?] & _); [reflexivity|lia|].
  split; [vm_compute; reflexivity|assumption].
Defined.

(** ** Creating a table *)

Section OpenSpec.
Context (balloc_words : Z -> option (list Z)).
Context (brealloc_words : list Z -> Z -> option (list Z)).
Context (new_tabent : gmap Z sym_tabent_t -> Z).
Hypothesis balloc_words_spec : forall n mp, 0 <= n -> balloc_words n = Some mp -> zlen mp = n / WORD.
Hypothesis brealloc_words_spec : forall old n mp, brealloc_words old n = Some mp ->
  zlen old * WORD <= n -> exists rest, mp = old ++ rest /\ zlen mp = n / WORD.

Lemma calcPrime_range size : 0 < size -> 1 <= calcPrime size <= size.
Proof.
  intros. pose proof (calcPrime_loop_spec (Z.to_nat size)) as (? & ? & _).
  fold (calcPrime size) in *. lia.
Qed.

Lemma empty_table_ok cs size :
  0 < size ->
  table_ok cs (mkTabent 0 size (repeat 0 (Z.to_nat size)))
    (replicate (Z.to_nat size) []) (replicate (Z.to_nat size) []).
Proof.
  intros Hs. constructor; cbn; rewrite ?repeat_length, ?length_replicate; try lia.
  intros i l es Hl Hes. apply lookup_replicate in Hl as [-> ?].
  apply lookup_replicate in Hes as [-> _]. constructor.
  - unfold zget. by rewrite nth_repeat.
  - constructor.
  - constructor.
  - by intros nm r ?%elem_of_nil.
Qed.

Lemma concat_nils {A} n : concat (replicate n ([] : list A)) = [].
Proof. by induction n. Qed.

Lemma symOpen_opens st size :
  handles_ok 0 (sym st) -> 0 < size -> balloc_words (calcPrime size * WORD) <> None ->
  exists sd st', symOpen balloc_words brealloc_words new_tabent st size = Some (sd, st') /\
    handles_ok 0 (sym st') /\
    ((sd = -1 /\ tabents st' = tabents st /\
      (forall j, 0 <= j -> hget (sym st') j = hget (sym st) j) /\
      ((hAlloc balloc_words brealloc_words (sym st)).1 = -1 \/ new_tabent (tabents st) = 0)) \/
     (0 <= sd /\ hget (sym st) sd = 0 /\ table_at st' sd ∅ (new_tabent (tabents st)) [] /\
      (forall j, 0 <= j -> j <> sd -> hget (sym st') j = hget (sym st) j) /\ cells st' = cells st /\
      forall q, q <> new_tabent (tabents st) -> tabents st' !! q = tabents st !! q)).
Proof using balloc_words_spec brealloc_words_spec.
  intros Hok Hsize Hmem. unfold symOpen.
  destruct (hAlloc balloc_words brealloc_words (sym st)) as [sd map] eqn:E.
  destruct (hAlloc_spec _ _ balloc_words_spec brealloc_words_spec _ _ _ Hok E)
    as [[-> ->]|(Hok' & Hsd & Hz & _ & Hsame)].
  { cbn [Z.ltb Z.compare]. do 2 eexists. split; [done|]. destruct st; cbn. split; [done|]. left. auto. }
  destruct (Z.ltb_spec sd 0); [lia|].
  assert (Es : forall x, sym (st <| sym := x |>) = x) by (by destruct st).
  assert (Et : forall x, tabents (st <| sym := x |>) = tabents st) by (by destruct st).
  rewrite Es, Et. destruct (Z.eqb_spec (new_tabent (tabents st)) 0) as [Ep|Ep].
  - destruct (hFree_spec 1 map sd) as (r & map'' & -> & Hg & Hok'' & _); [done|lia|lia|lia|].
    rewrite Hsame, Hz in Hok'' by lia. cbn.
    do 2 eexists. split; [done|]. destruct st; cbn. split; [exact Hok''|]. left.
    do 2 (split; [done|]). split; [|auto]. intros j ?. rewrite Hg by done.
    destruct (Z.eqb_spec j sd) as [->|]; [done|]. by apply Hsame.
  - destruct map as [mp|]; [|cbn in Hsd; lia].
    pose proof Hok' as (len & used & l & -> & _). rewrite entries_some in Hsd.
    set (p := new_tabent (tabents st)) in *.
    destruct (hset_spec _ _ _ _ sd p Hok' Hsd) as [Hg Hok''].
    assert (Hzl : zget l sd = 0) by (rewrite <- Hz, <- Hsame by lia; done).
    rewrite Hzl in Hok''. destruct (Z.eqb_spec p 0); [done|]. cbn in Hok''.
    destruct (balloc_words (calcPrime size * WORD)) as [table|] eqn:Eb; [|done]. clear Hmem.
    pose proof (calcPrime_range size Hsize) as Hr.
    apply balloc_words_spec in Eb; [|unfold WORD; lia]. rewrite Z.div_mul in Eb by done.
    assert (Ez : bput table 0 (repeat 0 (Z.to_nat (calcPrime size))) =
                 repeat 0 (Z.to_nat (calcPrime size))).
    { unfold bput. rewrite drop_ge, app_nil_r; [done|]. rewrite repeat_length. lia. }
    clear Eb.
    set (tp := mkTabent 0 (calcPrime size) (repeat 0 (Z.to_nat (calcPrime size)))).
    assert (Hrep : forall st', sym st' = Some (len :: used :: wset l sd p) ->
        tabents st' !! p = Some tp -> table_at st' sd ∅ p []).
    { intros st' Hs Ht. exists tp. do 2 eexists. split.
      { unfold sym_get. rewrite Hs, entries_some, zlen_wset by lia.
        replace ((0 <=? sd) && (sd <? zlen l)) with true by lia.
        f_equal. rewrite Hg by lia. by rewrite Z.eqb_refl. }
      do 2 (split; [done|]). split; [apply empty_table_ok; lia|].
      split; [|by rewrite concat_nils].
      intros k. rewrite lookup_empty. unfold table_get. symmetry.
      destruct (replicate _ [] !! _) eqn:El; [|done]. by apply lookup_replicate in El as [-> _]. }
    destruct (symMax _ <=? sd); destruct st; cbn -[hget entries calcPrime] in *; rewrite wset_header, Ez by lia;
      (do 2 eexists; split; [done|]; cbn -[hget entries]; split; [exact Hok''|]; right;
       split; [lia|]; split; [done|]; split;
       [apply Hrep; [done|apply lookup_insert_eq]|];
       split; [intros j ? Hj; rewrite Hg by done; destruct (Z.eqb_spec j sd); [done|]; by apply Hsame|];
       split; [done|]; intros q Hq; by rewrite lookup_insert_ne).
Qed.

(** [symOpen], when the hash table itself can be allocated: either memory is
    exhausted and the result is -1 with no handle changed, or the result is a
    handle that was free, and it now stands for an empty table; no other handle
    changes, and the handle map stays well-formed. *)
Theorem symOpen_correct st size :
  handles_ok 0 (sym st) -> 0 < size -> balloc_words (calcPrime size * WORD) <> None ->
  exists sd st', symOpen balloc_words brealloc_words new_tabent st size = Some (sd, st') /\
    handles_ok 0 (sym st') /\
    ((sd = -1 /\ tabents st' = tabents st /\
      forall j, 0 <= j -> hget (sym st') j = hget (sym st) j) \/
     (0 <= sd /\ hget (sym st) sd = 0 /\ sym_rep st' sd ∅ /\
      forall j, 0 <= j -> j <> sd -> hget (sym st') j = hget (sym st) j)).
Proof using balloc_words_spec brealloc_words_spec.
  intros Hok Hsize Hmem. destruct (symOpen_opens st size Hok Hsize Hmem) as (sd & st' & E & Hok' & H).
  exists sd, st'. split; [done|]. split; [done|]. destruct H as [(? & ? & ? & _)|(? & ? & Ht & ? & _)]; [by left|right].
  do 2 (split; [done|]). split; [|done]. apply rep_table_at. eauto.
Qed.
End OpenSpec.

(** ** Closing a table *)

(** The symbols among the blocks released so far. *)
Definition sym_blocks (log : list block) : list Z :=
  omap (fun b => match b with BSym p => Some p | _ => None end) log.

(** Between [st] and [st'] exactly the symbols [l] were released, in that order. *)
Record released (st st' : sym_sys) (l : list Z) : Prop := {
  rel_sym : sym st' = sym st;
  rel_tabents : tabents st' = tabents st;
  rel_cells : forall x, cells st' !! x = if decide (x ∈ l) then None else cells st !! x;
  rel_freed : sym_blocks (freed st') = sym_blocks (freed st) ++ l
}.

Lemma released_refl st : released st st [].
Proof.
  constructor; try done. by rewrite app_nil_r.
Qed.

Lemma released_trans st st1 st2 l1 l2 :
  released st st1 l1 -> released st1 st2 l2 -> released st st2 (l1 ++ l2).
Proof.
  intros [S1 T1 C1 F1] [S2 T2 C2 F2]. constructor; [congruence..| |].
  - intros x. rewrite C2, C1. repeat destruct (decide _); set_solver.
  - by rewrite F2, F1, <- (assoc_L (++)).
Qed.

Lemma sym_blocks_value v : sym_blocks (snd (valueFree v)) = [].
Proof.
  unfold valueFree. cbn [snd]. destruct (v_type v); try done. destruct (v_value v) as [|[?|]]; try done.
  by destruct (_ && _).
Qed.

Lemma sym_blocks_bfree b st : sym_blocks (freed (bfree b st)) = sym_blocks (freed st) ++ sym_blocks b.
Proof. unfold sym_blocks. rewrite <- omap_app. by destruct st. Qed.

Lemma freed_cells st cs : freed (st <| cells := cs |>) = freed st.
Proof. by destruct st. Qed.

Lemma free_chain_spec fuel st p l :
  chain forw (cells st) p l -> (length l < fuel)%nat ->
  exists st', free_chain fuel st p = Some st' /\ released st st' l.
Proof.
  revert st p l. induction fuel as [|fuel IH]; intros st p l Hc Hf; [lia|].
  cbn [free_chain]. destruct (Z.eqb_spec p 0) as [->|Hp].
  - apply chain_nil in Hc as ->; [|done]. eauto using released_refl.
  - pose proof (chain_NoDup _ _ _ _ Hc) as Hnd.
    apply chain_cons in Hc as (n & l' & -> & Hn & Hc); [|done]. rewrite Hn.
    cbn [mbind option_bind]. apply NoDup_cons in Hnd as [Hpl _].
    set (st1 := bfree [BSym p] _).
    assert (R : released st st1 [p]).
  { subst st1. constructor; [by destruct st..| |].
      - intros x. destruct st; cbn. destruct (decide (x ∈ [p])) as [->%list_elem_of_singleton|Hx].
        + apply lookup_delete_eq.
        + rewrite lookup_delete_ne; [done|set_solver].
      - rewrite sym_blocks_bfree, freed_cells, !sym_blocks_bfree, !sym_blocks_value.
        by rewrite !app_nil_r. }
    destruct (IH st1 (forw n) l') as (st' & -> & R').
    + eapply seg_frame; [|exact Hc]. intros x Hx. rewrite (rel_cells _ _ _ R).
      rewrite decide_False; [done|set_solver].
    + simpl in Hf. lia.
    + exists st'. split; [done|]. exact (released_trans _ _ _ [p] l' R R').
Qed.

Lemma free_buckets_spec st ht bs :
  Forall2 (chain forw (cells st)) ht bs -> NoDup (concat bs) ->
  exists st', free_buckets ht st = Some st' /\ released st st' (concat bs).
Proof.
  revert st bs. induction ht as [|p ht IH]; intros st bs Hc Hnd;
    inversion Hc as [|? l ? bs' Hp Hc']; subst; cbn [free_buckets concat].
  - eauto using released_refl.
  - cbn [concat] in Hnd. apply NoDup_app in Hnd as (_ & Hd & Hnd).
    destruct (free_chain_spec (chain_fuel (cells st)) st p l Hp) as (st1 & -> & R).
    { apply chain_size in Hp. unfold chain_fuel. lia. }
    cbn [mbind option_bind]. destruct (IH st1 bs') as (st' & -> & R'); [|done|].
    + apply Forall2_same_length_lookup. split; [by eapply Forall2_length|].
      intros i q lq Hq Hlq. pose proof (Forall2_lookup_lr _ _ _ _ _ _ Hc' Hq Hlq) as Hcq.
      eapply seg_frame; [|exact Hcq]. intros x Hx. rewrite (rel_cells _ _ _ R).
      rewrite decide_False; [done|]. intros Hxl. apply (Hd x Hxl), elem_of_concat. eauto.
    + exists st'. split; [done|]. by eapply released_trans.
Qed.

Lemma symClose_closes st sd m p ns :
  table_at st sd m p ns -> handles_ok 0 (sym st) ->
  exists st' es, symClose st sd = Some st' /\
    Forall2 (node_entry (cells st)) ns es /\ es ≡ₚ map_to_list m /\ NoDup ns /\
    sym_blocks (freed st') = sym_blocks (freed st) ++ ns /\
    (forall x, cells st' !! x = if decide (x ∈ ns) then None else cells st !! x) /\
    tabents st' = delete p (tabents st) /\ handles_ok 0 (sym st') /\
    forall j, 0 <= j -> hget (sym st') j = if j =? sd then 0 else hget (sym st) j.
Proof.
  intros (tp & bs & ess & Hg & Hp & Ht & Hok & Hm & ->) Hh.
  unfold symClose. rewrite (sym_table_rep _ _ _ _ Hg Ht). cbn [mbind option_bind].
  destruct (free_buckets_spec st (hash_table tp) bs) as (st1 & -> & [Rs Rt Rc Rf]).
  { apply Forall2_same_length_lookup. pose proof (to_bs _ _ _ _ Hok). pose proof (to_table _ _ _ _ Hok).
    split; [lia|]. intros i q l Hq Hl.
    destruct (table_bucket _ _ _ _ Hok _ _ Hl) as (es & _ & [Hc _ _ _]).
    by rewrite (zget_lookup _ _ _ Hq) in Hc. }
  { exact (table_NoDup _ _ _ _ Hok). }
  cbn [mbind option_bind].
  assert (Hsd : 0 <= sd < zlen (entries (sym st)) /\ hget (sym st) sd = p).
  { unfold sym_get in Hg. destruct (sym st) as [mp|]; [|done].
    destruct (Z.leb_spec 0 sd), (Z.ltb_spec sd (zlen (entries (Some mp)))); simplify_eq/=. lia. }
  destruct Hsd as [Hsd Hval].
  destruct (hFree_spec 0 (sym st) sd) as (r & map' & Ef & Hget & Hok' & _); [done|lia|lia|left; lia|].
  rewrite Hval in Hok'. destruct (Z.eqb_spec p 0) as [|_]; [done|].
  replace (sym (bfree [BTable p] st1)) with (sym st) by (rewrite <- Rs; by destruct st1).
  rewrite Ef. cbn [mbind option_bind].
  exists (bfree [BTabent p] ((bfree [BTable p] st1) <| symMax := r |> <| sym := map' |>
            <| tabents := delete p (tabents ((bfree [BTable p] st1) <| symMax := r |>
                 <| sym := map' |>)) |>)), (concat ess).
  split; [done|]. split; [exact (table_entries _ _ _ _ Hok)|].
  split; [exact (table_bindings _ _ _ _ Hok _ Hm)|].
  split; [exact (table_NoDup _ _ _ _ Hok)|].
  destruct st1. cbn -[sym_blocks hget] in *. repeat split; try done; [|by rewrite Rt].
  unfold sym_blocks in *. rewrite !omap_app, Rf. cbn. by rewrite !app_nil_r.
Qed.


(** [symClose] terminates; it releases every symbol of the table exactly once
    and no other symbol, and frees the handle: the map of handles stays
    well-formed and no other handle changes. *)
Theorem symClose_correct st sd m :
  sym_rep st sd m -> handles_ok 0 (sym st) ->
  exists st' ps es, symClose st sd = Some st' /\
    Forall2 (node_entry (cells st)) ps es /\ es ≡ₚ map_to_list m /\ NoDup ps /\
    sym_blocks (freed st') = sym_blocks (freed st) ++ ps /\
    (forall x, cells st' !! x = if decide (x ∈ ps) then None else cells st !! x) /\
    handles_ok 0 (sym st') /\
    forall j, 0 <= j -> hget (sym st') j = if j =? sd then 0 else hget (sym st) j.
Proof.
  intros (p & ns & Ht)%rep_table_at Hh.
  destruct (symClose_closes st sd m p ns Ht Hh) as (st' & es & E & H1 & H2 & H3 & H4 & H5 & _ & H6 & H7).
  by exists st', ns, es.
Qed.

(** ** A concrete table

    Handle 0 is a table of two buckets with the symbols a, c and b. *)

Definition demo_value (z : Z) : value_t := valueInteger z.
Definition demo_sym (f : Z) (c z : Z) : sym_t :=
  mkSym f (mkValue (VString (Some [c])) string_ 1 1) (demo_value z) 0.

Definition demo_cells : gmap Z sym_t :=
  {[10 := demo_sym 20 97 1; 20 := demo_sym 0 99 2; 30 := demo_sym 0 98 3]}.
Definition demo_tabent : sym_tabent_t := mkTabent 0 2 [30; 10].
Definition demo_sys : sym_sys :=
  mkSys demo_map 3 1 0 0 {[4096 := demo_tabent]} demo_cells [].
Definition demo_bindings : gmap cstring (value_t * Z) :=
  {[[97] := (demo_value 1, 0); [99] := (demo_value 2, 0); [98] := (demo_value 3, 0)]}.

Definition demo_bs : list (list Z) := [[30]; [10; 20]].
Definition demo_ess : list (list binding) :=
  [[([98], (demo_value 3, 0))]; [([97], (demo_value 1, 0)); ([99], (demo_value 2, 0))]].

Lemma demo_table_ok : table_ok demo_cells demo_tabent demo_bs demo_ess.
Proof.
  constructor; [done..|]. intros [|[|i]] l es [= <-] [= <-].
  - constructor.
    + split; [done|]. split; [done|]. eexists. split; [vm_compute; reflexivity|done].
    + repeat constructor. eexists. split; [vm_compute; reflexivity|done].
    + apply NoDup_singleton.
    + by intros nm r [= -> ->]%list_elem_of_singleton.
  - constructor.
    + split; [done|]. split; [done|]. eexists. split; [vm_compute; reflexivity|].
      split; [done|]. split; [done|]. eexists. split; [vm_compute; reflexivity|done].
    + constructor; [|constructor; [|constructor]];
        eexists; (split; [vm_compute; reflexivity|done]).
    + vm_compute. repeat constructor; set_solver.
    + by intros nm r [[= -> ->]|[= -> ->]%list_elem_of_singleton]%elem_of_cons.
Qed.

Lemma demo_rep : sym_rep demo_sys 0 demo_bindings.
Proof.
  exists 4096, demo_tabent, demo_bs, demo_ess. split; [done|]. split; [done|].
  split; [done|]. split; [exact demo_table_ok|]. intros k.
  unfold demo_bindings. rewrite !lookup_insert, lookup_singleton.
  pose proof (hashIndex_range demo_tabent k eq_refl) as Hr.
  repeat destruct (decide _) as [<-|]; [done..|].
  unfold table_get. symmetry. apply assoc_None.
  assert (hashIndex demo_tabent k = 0 \/ hashIndex demo_tabent k = 1) as [->| ->]
    by (cbn in Hr; lia); cbn; set_solver.
Qed.

Lemma symLookup_correct_witness : symLookup demo_sys 0 [99] = Some 20.
Proof.
  destruct (symLookup_correct demo_sys 0 demo_bindings [99] demo_rep) as (sp & E & _); [done|].
  assert (Esp : sp = 20) by (vm_compute in E; congruence). by subst sp.
Defined.

Lemma symDelete_correct_witness :
  exists st', symDelete demo_sys 0 [97] = Some (0, st') /\
    sym_rep st' 0 (delete [97] demo_bindings).
Proof.
  destruct (symDelete_correct demo_sys 0 demo_bindings [97] demo_rep) as (r & st' & E & Hr & Hm).
  vm_compute in Hm. subst r. exists st'. split; [exact E|exact Hr].
Defined.

Definition demo_new_cell (cs : gmap Z sym_t) : Z :=
  match cs !! 40 with None => 40 | Some _ => 0 end.

Lemma demo_new_cell_fresh cs : demo_new_cell cs = 0 \/ cs !! demo_new_cell cs = None.
Proof. unfold demo_new_cell. destruct (cs !! 40) eqn:E; auto. Qed.

Lemma symEnter_correct_witness :
  exists st', symEnter Some demo_new_cell demo_sys 0 [100] (demo_value 9) 5 = Some (40, st') /\
    sym_rep st' 0 (<[[100] := (demo_value 9, 5)]> demo_bindings).
Proof.
  destruct (symEnter_correct Some demo_new_cell demo_new_cell_fresh demo_sys 0 demo_bindings
              [100] (demo_value 9) 5 demo_rep eq_refl)
    as (sp & st' & E & [(_ & _ & _ & H)|(_ & Hr & _)]).
  - exfalso. vm_compute in H. discriminate H.
  - assert (Esp : sp = 40) by (vm_compute in E; congruence). subst sp.
    exists st'. split; [exact E|exact Hr].
Defined.

Lemma sym_walk_complete_witness : sym_walk 12345 4 demo_sys 0 = Some [30; 10; 20].
Proof.
  destruct (sym_walk_complete 12345 demo_sys 0 demo_bindings 4 demo_rep) as (ps & es & E & _).
  - vm_compute. lia.
  - rewrite E. vm_compute in E. congruence.
Defined.

Lemma symOpen_correct_witness :
  exists st', symOpen demo_words demo_rewords (fun _ => 16384) demo_sys 8 = Some (1, st') /\
    sym_rep st' 1 ∅.
Proof.
  destruct (symOpen_correct demo_words demo_rewords (fun _ => 16384) demo_words_spec
              demo_rewords_spec demo_sys 8 demo_map_ok eq_refl) as (sd & st' & E & _ & H).
  - vm_compute. discriminate.
  - assert (Esd : sd = 1) by (vm_compute in E; congruence). subst sd.
    exists st'. split; [exact E|].
    destruct H as [[H _]|(_ & _ & H & _)]; [discriminate H|exact H].
Defined.

Lemma symClose_correct_witness :
  exists st', symClose demo_sys 0 = Some st' /\ sym_blocks (freed st') = [30; 10; 20].
Proof.
  destruct (symClose_correct demo_sys 0 demo_bindings demo_rep demo_map_ok)
    as (st' & ps & es & E & _).
  exists st'. split; [exact E|]. vm_compute in E. injection E as <-. vm_compute. reflexivity.
Defined.
