(* ===== verification/SymIface.v ===== *)
(** * Symbol tables as their clients see them

    What the Ejscript parser needs of sym.c: tables of named values, found by a handle.
    [Symbols] lists the operations; [SymbolsLaws] says that they are maps, one for each
    open table, and that what is done to a table leaves the others alone. *)

From stdpp Require Import gmap.
From S2P Require Import Prelude CString SymTab.
#[local] Open Scope Z_scope.

(** [sy_enter sd name v arg] and [sy_lookup sd name] give the symbol: its address for the
    first, its content for the second; 0 and [None] are the null pointer. *)
Class Symbols (Y : Type) : Type := {
  sy_open : Z -> Y -> option (Z * Y);
  sy_close : Z -> Y -> option Y;
  sy_enter : Z -> list Z -> value_t -> Z -> Y -> option (Z * Y);
  sy_lookup : Z -> list Z -> Y -> option (option value_t);
  sy_delete : Z -> list Z -> Y -> option (Z * Y)
}.

Abbreviation table := (gmap (list Z) value_t) (only parsing).

(** [sy_rep y ts]: the open tables are [ts].  Memory is not out. *)
Class SymbolsLaws (Y : Type) `{Symbols Y} : Type := {
  sy_rep : Y -> gmap Z table -> Prop;
  sy_lookup_ok y ts sd t nm : sy_rep y ts -> ts !! sd = Some t -> nm <> [] ->
    sy_lookup sd nm y = Some (t !! nm);
  sy_enter_ok y ts sd t nm v a : sy_rep y ts -> ts !! sd = Some t -> nm <> [] ->
    exists sp y', sy_enter sd nm v a y = Some (sp, y') /\ sp <> 0 /\
      sy_rep y' (<[sd := <[nm := v]> t]> ts);
  sy_delete_ok y ts sd t nm : sy_rep y ts -> ts !! sd = Some t -> nm <> [] ->
    exists r y', sy_delete sd nm y = Some (r, y') /\ (r = if decide (t !! nm = None) then -1 else 0) /\
      sy_rep y' (<[sd := delete nm t]> ts);
  sy_open_ok y ts n : sy_rep y ts -> 1 < n < 2 ^ 16 ->
    exists sd y', sy_open n y = Some (sd, y') /\ 0 <= sd /\ ts !! sd = None /\
      sy_rep y' (<[sd := ∅]> ts);
  sy_close_ok y ts sd t : sy_rep y ts -> ts !! sd = Some t ->
    exists y', sy_close sd y = Some y' /\ sy_rep y' (delete sd ts)
}.

(** ** The tables of sym.c *)

Section Tables.
Context (balloc_words : Z -> option (list Z)).
Context (brealloc_words : list Z -> Z -> option (list Z)).
Context (strdup : list Z -> option (list Z)).
Context (new_cell : gmap Z sym_t -> Z) (new_tabent : gmap Z sym_tabent_t -> Z).

(** The content of the symbol that [symLookup] finds. *)
Definition lookup_content (sd : Z) (nm : list Z) (st : sym_sys) : option (option value_t) :=
  sp ← symLookup st sd nm;
  if sp =? 0 then Some None else n ← cells st !! sp; Some (Some (content n)).

#[export] Instance sym_symbols : Symbols sym_sys := {
  sy_open n st := symOpen balloc_words brealloc_words new_tabent st n;
  sy_close sd st := symClose st sd;
  sy_enter sd nm v a st := symEnter strdup new_cell st sd nm v a;
  sy_lookup := lookup_content;
  sy_delete sd nm st := symDelete st sd nm
}.
End Tables.
