(* ===== verification/SymMany.v ===== *)
(** * The tables of sym.c next to each other

    [SymTab] follows one table at a time.  Here all the open tables are one map of maps:
    what an operation does to a table leaves the others alone, because their records and
    nodes are different blocks.  So sym.c has the laws that its clients rely on. *)

From stdpp Require Import gmap.
From S2P Require Import Prelude Heap Handles SymTab SymIface.
#[local] Open Scope Z_scope.

(** ** Frames *)

Lemma table_at_frame st st' sd m p ns :
  table_at st sd m p ns -> sym_get st' sd = sym_get st sd -> tabents st' !! p = tabents st !! p ->
  (forall x, x ∈ ns -> cells st' !! x = cells st !! x) -> table_at st' sd m p ns.
Proof.
  intros (tp & bs & ess & Hg & Hp & Ht & Hok & Hm & ->) Hg' Ht' Hf.
  exists tp, bs, ess. rewrite Hg', Ht'. do 3 (split; [done|]). split; [|done].
  destruct Hok as [Hs Htb Hb He Hbk]. split; [done..|]. intros i l es Hl Hes.
  destruct (Hbk i l es Hl Hes) as [Hc Hn Hnd Hh].
  assert (Hin : forall x, x ∈ l -> cells st' !! x = cells st !! x).
  { intros x Hx. apply Hf, elem_of_concat. eauto. }
  split; [by eapply seg_frame|by eapply node_entry_frame|done..].
Qed.

Lemma table_at_live st sd m p ns x : table_at st sd m p ns -> x ∈ ns -> is_Some (cells st !! x).
Proof.
  intros (tp & bs & ess & _ & _ & _ & Hok & _ & ->) (i & l & Hl & Hx)%elem_of_concat.
  destruct (table_bucket _ _ _ _ Hok _ _ Hl) as (es & _ & [Hc _ _ _]). by eapply seg_lookup.
Qed.

Lemma table_at_get st sd m p ns : table_at st sd m p ns -> sym_get st sd = Some p /\ p <> 0 /\ 0 <= sd.
Proof.
  intros (tp & bs & ess & Hg & Hp & _). split_and!; [done..|]. unfold sym_get in Hg.
  destruct (sym st); [|done]. destruct (Z.leb_spec 0 sd); [done|done].
Qed.

Lemma sym_get_hget st sd p : p <> 0 -> sym_get st sd = Some p <-> 0 <= sd /\ hget (sym st) sd = p.
Proof.
  intros Hp. unfold sym_get. destruct (sym st) as [mp|] eqn:E.
  - destruct (Z.leb_spec 0 sd), (Z.ltb_spec sd (zlen (entries (Some mp)))); cbn [andb]; split; intros Hx; try done.
    + by injection Hx.
    + by destruct Hx as [_ ->].
    + destruct Hx as [_ Hx]. unfold hget in Hx. rewrite zget_beyond in Hx by lia. congruence.
    + lia.
    + lia.
  - split; [done|]. intros [? Hx]. unfold hget in Hx. cbn in Hx. unfold zget in Hx. by destruct (Z.to_nat sd).
Qed.

(** ** The tables that are open *)

Section Many.
Context (balloc_words : Z -> option (list Z)).
Context (brealloc_words : list Z -> Z -> option (list Z)).
Context (strdup : list Z -> option (list Z)).
Context (new_cell : gmap Z sym_t -> Z) (new_tabent : gmap Z sym_tabent_t -> Z).

(** Memory is not out: [malloc] gives blocks that are not in use. *)
Class Memory : Prop := {
  words_spec : forall n mp, 0 <= n -> balloc_words n = Some mp -> zlen mp = n / WORD;
  rewords_spec : forall old n mp, brealloc_words old n = Some mp ->
    zlen old * WORD <= n -> exists rest, mp = old ++ rest /\ zlen mp = n / WORD;
  words_total : forall n, balloc_words n <> None;
  rewords_total : forall old n, brealloc_words old n <> None;
  strdup_total : forall s, strdup s = Some s;
  new_cell_fresh : forall cs, new_cell cs <> 0 /\ cs !! new_cell cs = None;
  new_tabent_fresh : forall ts, new_tabent ts <> 0 /\ ts !! new_tabent ts = None
}.

(** [own sd]: the address of table [sd], and its nodes. *)
Record owned (st : sym_sys) (ts : gmap Z (gmap (list Z) value_t)) (own : Z -> Z * list Z) : Prop := {
  ow_table : forall sd t, ts !! sd = Some t ->
    exists m, table_at st sd m (own sd).1 (own sd).2 /\ fst <$> m = t;
  ow_apart : forall sd sd', is_Some (ts !! sd) -> is_Some (ts !! sd') -> sd <> sd' ->
    (own sd).1 <> (own sd').1 /\ forall x, x ∈ (own sd).2 -> x ∉ (own sd').2
}.

Definition sym_tables (st : sym_sys) (ts : gmap Z (gmap (list Z) value_t)) : Prop :=
  handles_ok 0 (sym st) /\ exists own, owned st ts own.

(** A step of one table. *)
Lemma owned_moves st st' ts own sd t m' : owned st ts own -> ts !! sd = Some t ->
  moves st st' sd (own sd).1 (own sd).2 m' ->
  exists own', owned st' (<[sd := fst <$> m']> ts) own'.
Proof.
  intros [Ht Ha] Hsd [(ns' & Htab & Hns') Hsym Htb Hc].
  exists (fun j => if decide (j = sd) then ((own sd).1, ns') else own j). split.
  - intros j tj. destruct (decide (j = sd)) as [->|Hj].
    + rewrite lookup_insert_eq. intros [= <-]. by exists m'.
    + rewrite lookup_insert_ne by done. intros Hjt. destruct (Ht j tj Hjt) as (m & Hm & Em). exists m. split; [|done].
      destruct (Ha j sd) as [Hp Hd]; [eauto..|done|]. eapply table_at_frame; [exact Hm|unfold sym_get; by rewrite Hsym|by apply Htb|].
      intros x Hx. apply Hc; [by apply Hd|by eapply table_at_live].
  - assert (Hothers : forall j, is_Some (<[sd := fst <$> m']> ts !! j) -> is_Some (ts !! j)).
    { intros j [tj Hj]. destruct (decide (j = sd)) as [->|]; [eauto|]. rewrite lookup_insert_ne in Hj by done. eauto. }
    assert (Hnew : forall j, is_Some (ts !! j) -> j <> sd -> (own sd).1 <> (own j).1 /\ forall x, x ∈ ns' -> x ∉ (own j).2).
    { intros j Hj Hne. destruct (Ha sd j) as [Hp Hd]; [eauto..|done|]. split; [done|]. intros x Hx Hxj.
      destruct (Hns' x Hx) as [Hx'|Hx']; [by eapply Hd|]. destruct Hj as [tj Hj]. destruct (Ht j tj Hj) as (m & Hm & _).
      destruct (table_at_live _ _ _ _ _ _ Hm Hxj). congruence. }
    intros j k Hj%Hothers Hk%Hothers Hjk. destruct (decide (j = sd)) as [->|], (decide (k = sd)) as [->|]; [done|..].
    + by apply Hnew.
    + destruct (Hnew j) as [Hp Hd]; [done..|]. split; [done|]. intros x Hx Hx'. by apply (Hd x).
    + by apply Ha.
Qed.

(** A table that is gone. *)
Lemma owned_close st st' ts own sd t m : owned st ts own -> ts !! sd = Some t ->
  table_at st sd m (own sd).1 (own sd).2 ->
  (forall x, cells st' !! x = if decide (x ∈ (own sd).2) then None else cells st !! x) ->
  tabents st' = delete (own sd).1 (tabents st) ->
  (forall j, 0 <= j -> hget (sym st') j = if j =? sd then 0 else hget (sym st) j) ->
  owned st' (delete sd ts) own.
Proof.
  intros [Ht Ha] Hsd _ Hc Htb Hg. split.
  - intros j tj [Hne Hj]%lookup_delete_Some. destruct (Ht j tj Hj) as (m' & Hm & Em). exists m'. split; [|done].
    destruct (Ha j sd) as [Hp Hd]; [eauto..|done|]. destruct (table_at_get _ _ _ _ _ Hm) as (Hget & Hp0 & Hj0).
    eapply table_at_frame; [exact Hm| |by rewrite Htb, lookup_delete_ne|].
    + rewrite Hget. apply sym_get_hget; [done|]. split; [done|]. apply sym_get_hget in Hget as [_ <-]; [|done].
      rewrite Hg by done. by replace (j =? sd) with false by zb.
    + intros x Hx. rewrite Hc, decide_False; [done|by apply Hd].
  - intros j k [tj [_ Hj]%lookup_delete_Some] [tk [_ Hk]%lookup_delete_Some]. apply Ha; eauto.
Qed.

(** A new table. *)
Lemma owned_open st st' ts own sd p : owned st ts own -> hget (sym st) sd = 0 -> p <> 0 -> tabents st !! p = None ->
  table_at st' sd ∅ p [] -> (forall j, 0 <= j -> j <> sd -> hget (sym st') j = hget (sym st) j) ->
  cells st' = cells st -> (forall q, q <> p -> tabents st' !! q = tabents st !! q) ->
  ts !! sd = None /\ exists own', owned st' (<[sd := ∅]> ts) own'.
Proof.
  intros [Ht Ha] Hz Hp Hfresh Htab Hg Hc Htb.
  assert (Hsd : ts !! sd = None).
  { destruct (ts !! sd) as [t|] eqn:E; [|done]. destruct (Ht sd t E) as (m & Hm & _).
    destruct (table_at_get _ _ _ _ _ Hm) as (Hget & Hp0 & _). apply sym_get_hget in Hget as [_ Hget]; [congruence|done]. }
  split; [done|].
  assert (Hne : forall j tj, ts !! j = Some tj -> (own j).1 <> p).
  { intros j tj Hj E. destruct (Ht j tj Hj) as (m & (tp & _ & _ & _ & _ & Htp & _) & _). congruence. }
  exists (fun j => if decide (j = sd) then (p, []) else own j). split.
  - intros j tj. destruct (decide (j = sd)) as [->|Hj].
    + rewrite lookup_insert_eq. intros [= <-]. exists ∅. split; [done|by rewrite fmap_empty].
    + rewrite lookup_insert_ne by done. intros Hjt. destruct (Ht j tj Hjt) as (m & Hm & Em). exists m. split; [|done].
      destruct (table_at_get _ _ _ _ _ Hm) as (Hget & Hp0 & Hj0).
      eapply table_at_frame; [exact Hm| |by apply Htb, (Hne j tj)|by rewrite Hc].
      rewrite Hget. apply sym_get_hget; [done|]. split; [done|]. apply sym_get_hget in Hget as [_ <-]; [by apply Hg|done].
  - intros j k [tj Hj] [tk Hk] Hjk. destruct (decide (j = sd)) as [->|], (decide (k = sd)) as [->|]; [done|..];
      rewrite ?lookup_insert_ne in * by done; cbn [fst snd].
    + split; [by apply not_eq_sym, (Hne k tk)|]. by intros x ?%elem_of_nil.
    + split; [by apply (Hne j tj)|]. intros x _ ?%elem_of_nil. done.
    + apply Ha; eauto.
Qed.

(** ** The operations *)

Context {M : Memory}.
Notation sym_ops := (sym_symbols balloc_words brealloc_words strdup new_cell new_tabent).

Lemma tables_lookup st ts sd t nm : sym_tables st ts -> ts !! sd = Some t -> nm <> [] ->
  lookup_content sd nm st = Some (t !! nm).
Proof.
  intros (_ & own & Ho) Hsd Hnm. destruct (ow_table _ _ _ Ho sd t Hsd) as (m & Hm & <-).
  destruct (symLookup_finds st sd m nm) as (sp & E & Hsp); [apply rep_table_at; eauto|done|].
  unfold lookup_content. rewrite E. cbn [mbind option_bind]. rewrite lookup_fmap.
  destruct (m !! nm) as [[v a]|].
  - destruct Hsp as (Hne & n & Hn & Hc & _). replace (sp =? 0) with false by zb. rewrite Hn. cbn. by rewrite Hc.
  - by subst sp.
Qed.

Lemma tables_enter st ts sd t nm v a : sym_tables st ts -> ts !! sd = Some t ->
  exists sp st', symEnter strdup new_cell st sd nm v a = Some (sp, st') /\ sp <> 0 /\
    sym_tables st' (<[sd := <[nm := v]> t]> ts).
Proof using M.
  intros (Hok & own & Ho) Hsd. destruct (ow_table _ _ _ Ho sd t Hsd) as (m & Hm & <-).
  destruct (symEnter_moves strdup new_cell) with (st := st) (sd := sd) (m := m) (nm := nm) (v := v) (a := a)
    (p := (own sd).1) (ns := (own sd).2) as (sp & st' & E & H); [|done|apply strdup_total|].
  { intros cs. right. apply new_cell_fresh. }
  destruct H as [(_ & _ & _ & Hz)|(Hsp & Hmv & _)]; [by destruct (proj1 (new_cell_fresh (cells st)))|].
  exists sp, st'. split_and!; [done..|]. split; [by rewrite (mv_sym _ _ _ _ _ _ Hmv)|].
  destruct (owned_moves _ _ _ _ _ _ _ Ho Hsd Hmv) as (own' & Ho'). exists own'. by rewrite fmap_insert in Ho'.
Qed.

Lemma tables_delete st ts sd t nm : sym_tables st ts -> ts !! sd = Some t ->
  exists r st', symDelete st sd nm = Some (r, st') /\ (r = if decide (t !! nm = None) then -1 else 0) /\
    sym_tables st' (<[sd := delete nm t]> ts).
Proof.
  intros (Hok & own & Ho) Hsd. destruct (ow_table _ _ _ Ho sd t Hsd) as (m & Hm & <-).
  destruct (symDelete_moves st sd m nm _ _ Hm) as (r & st' & E & Hmv & Hr).
  exists r, st'. split; [done|]. split.
  - rewrite lookup_fmap. destruct (m !! nm); [by rewrite Hr|by destruct Hr as [-> _]].
  - split; [by rewrite (mv_sym _ _ _ _ _ _ Hmv)|].
    destruct (owned_moves _ _ _ _ _ _ _ Ho Hsd Hmv) as (own' & Ho'). exists own'. by rewrite fmap_delete in Ho'.
Qed.

Lemma tables_open st ts n : sym_tables st ts -> 0 < n ->
  exists sd st', symOpen balloc_words brealloc_words new_tabent st n = Some (sd, st') /\ 0 <= sd /\ ts !! sd = None /\
    sym_tables st' (<[sd := ∅]> ts).
Proof using M.
  intros (Hok & own & Ho) Hn.
  destruct (symOpen_opens balloc_words brealloc_words new_tabent words_spec rewords_spec st n Hok Hn (words_total _))
    as (sd & st' & E & Hok' & H).
  destruct H as [(_ & _ & _ & [Hz|Hz])|(Hsd & Hz & Htab & Hg & Hc & Htb)].
  - pose proof (hAlloc_nonneg balloc_words brealloc_words words_spec (sym st) words_total rewords_total Hok). lia.
  - by destruct (proj1 (new_tabent_fresh (tabents st))).
  - destruct (new_tabent_fresh (tabents st)) as [Hp Hfresh].
    destruct (owned_open _ _ _ _ _ _ Ho Hz Hp Hfresh Htab Hg Hc Htb) as (Hnone & Ho').
    exists sd, st'. by split_and!.
Qed.

Lemma tables_close st ts sd t : sym_tables st ts -> ts !! sd = Some t ->
  exists st', symClose st sd = Some st' /\ sym_tables st' (delete sd ts).
Proof.
  intros (Hok & own & Ho) Hsd. destruct (ow_table _ _ _ Ho sd t Hsd) as (m & Hm & <-).
  destruct (symClose_closes st sd m _ _ Hm Hok) as (st' & es & E & _ & _ & _ & _ & Hc & Htb & Hok' & Hg).
  exists st'. split; [done|]. split; [done|]. exists own. by eapply owned_close.
Qed.

(** sym.c has the laws. *)
#[export] Program Instance sym_laws : @SymbolsLaws sym_sys sym_ops := {
  sy_rep := sym_tables
}.
Next Obligation. cbn. intros. by eapply tables_lookup. Qed.
Next Obligation. cbn. intros. by eapply tables_enter. Qed.
Next Obligation. cbn. intros. by eapply tables_delete. Qed.
Next Obligation. cbn. intros. eapply tables_open; [done|lia]. Qed.
Next Obligation. cbn. intros. by eapply tables_close. Qed.

(** C13. The open tables are a map of maps, and each operation acts on its own table: a
    symbol that is entered is found in that table, one that is deleted is gone from it, a
    table is opened empty under a handle that was free, and closing it leaves the others. *)
Theorem sym_tables_refine st ts : sym_tables st ts ->
  (forall sd t nm, ts !! sd = Some t -> nm <> [] -> lookup_content sd nm st = Some (t !! nm)) /\
  (forall sd t nm v a, ts !! sd = Some t ->
     exists sp st', symEnter strdup new_cell st sd nm v a = Some (sp, st') /\ sp <> 0 /\
       sym_tables st' (<[sd := <[nm := v]> t]> ts)) /\
  (forall sd t nm, ts !! sd = Some t ->
     exists r st', symDelete st sd nm = Some (r, st') /\ (r = if decide (t !! nm = None) then -1 else 0) /\
       sym_tables st' (<[sd := delete nm t]> ts)) /\
  (forall n, 0 < n -> exists sd st', symOpen balloc_words brealloc_words new_tabent st n = Some (sd, st') /\
     0 <= sd /\ ts !! sd = None /\ sym_tables st' (<[sd := ∅]> ts)) /\
  (forall sd t, ts !! sd = Some t -> exists st', symClose st sd = Some st' /\ sym_tables st' (delete sd ts)).
Proof using M.
  intros Hst. split_and!; intros.
  - by eapply tables_lookup.
  - by eapply tables_enter.
  - by eapply tables_delete.
  - by eapply tables_open.
  - by eapply tables_close.
Qed.
End Many.

(** ** Memory that is never out *)

Definition roomy_words (n : Z) : option (list Z) := Some (repeat 0 (Z.to_nat (n / WORD))).
Definition roomy_rewords (old : list Z) (n : Z) : option (list Z) :=
  Some (old ++ repeat 0 (Z.to_nat (n / WORD) - length old)).
(** An address above those in use. *)
Definition next_free {A} (m : gmap Z A) : Z := 1 + foldr Z.max 0 (map fst (map_to_list m)).

Lemma next_free_fresh {A} (m : gmap Z A) : next_free m <> 0 /\ m !! next_free m = None.
Proof.
  assert (Hmax : forall l : list Z, 0 <= foldr Z.max 0 l /\ forall k, k ∈ l -> k <= foldr Z.max 0 l).
  { induction l as [|x l [IH1 IH2]]; cbn; [split; [done|by intros k ?%elem_of_nil]|].
    split; [lia|]. intros k [->|Hk]%elem_of_cons; [lia|]. specialize (IH2 k Hk). lia. }
  destruct (Hmax (map fst (map_to_list m))) as [Hpos Hle]. unfold next_free. split; [lia|].
  destruct (m !! _) as [a|] eqn:E; [|done]. apply elem_of_map_to_list in E.
  assert (Hin : 1 + foldr Z.max 0 (map fst (map_to_list m)) ∈ map fst (map_to_list m)).
  { apply list_elem_of_In, in_map_iff. eexists (_, a). split; [reflexivity|]. by apply list_elem_of_In. }
  specialize (Hle _ Hin). lia.
Qed.

#[export] Instance roomy_memory : Memory roomy_words roomy_rewords Some next_free next_free.
Proof.
  split; try done.
  - intros n mp Hn [= <-]. rewrite repeat_length, Z2Nat.id; [done|]. by apply Z.div_pos.
  - intros old n mp [= <-] Hn. eexists. split; [done|]. rewrite length_app, repeat_length.
    assert (zlen old <= n / WORD) by (apply Z.div_le_lower_bound; unfold WORD in *; lia). lia.
  - apply next_free_fresh.
  - apply next_free_fresh.
Qed.

Definition no_tables : sym_sys := mkSys None 0 1 0 0 ∅ ∅ [].

Lemma no_tables_ok : sym_tables no_tables ∅.
Proof. split; [done|]. exists (fun _ => (0, [])). split; [done|]. by intros sd sd' [? ?]. Qed.

(** Two tables are opened and a symbol is entered into the first: it is found there, and not
    in the second. *)
Lemma sym_tables_refine_witness : let v := mkValue (VInteger 7) integer 1 0 in exists sd1 sd2 st, sd1 <> sd2 /\
  lookup_content sd1 [120] st = Some (Some v) /\ lookup_content sd2 [120] st = Some None.
Proof.
  intros v. pose proof (sym_tables_refine roomy_words roomy_rewords Some next_free next_free) as R.
  destruct (R _ _ no_tables_ok) as (_ & _ & _ & Hopen & _). destruct (Hopen 64 eq_refl) as (sd1 & st1 & _ & _ & _ & H1).
  destruct (R _ _ H1) as (_ & _ & _ & Hopen1 & _). destruct (Hopen1 64 eq_refl) as (sd2 & st2 & _ & _ & Hnew & H2).
  assert (Hne : sd1 <> sd2) by (intros <-; by rewrite lookup_insert_eq in Hnew).
  destruct (R _ _ H2) as (_ & Henter & _).
  destruct (Henter sd1 ∅ [120] v 0) as (sp & st3 & _ & _ & H3).
  { rewrite lookup_insert_ne by congruence. apply lookup_insert_eq. }
  destruct (R _ _ H3) as (Hlook & _). exists sd1, sd2, st3. split; [exact Hne|]. split.
  - rewrite (Hlook sd1 (<[[120] := v]> ∅)); [by rewrite lookup_insert_eq|apply lookup_insert_eq|discriminate].
  - rewrite (Hlook sd2 ∅); [by rewrite lookup_empty|by rewrite lookup_insert_ne, lookup_insert_eq by congruence|discriminate].
Defined.
