(* ===== verification/EjParse.v ===== *)
(** * The Ejscript parser and evaluator (webs/src/src/ejparse.c, ejIntrn.h)

    Engines are found through a handle map; each has an input that the lexical analyser
    of [EjLex] reads, a list of variable tables, a table of functions, the result of the
    last expression and an error message.  The parser is a recursive descent that runs
    the script while it reads it.

    A result [None] means that the code crashes or runs on: a null pointer is followed, a
    released string is used, a signed computation overflows, or the fuel is out.  The host
    functions that a script calls are a parameter: they may do anything to the engines,
    evaluating scripts included.  A string is the list of its characters, [cptr] a pointer
    to one; [ejPtr] reports a bad handle through a null engine, so it returns only for a
    good one. *)

From stdpp Require Import gmap.
From S2P Require Import Prelude CString Fmt Handles SymTab SymIface RingQ ByteQueue EjLex.
#[local] Open Scope Z_scope.
#[local] Open Scope cint_scope.

Definition EJ_OFFSET : Z := 1.

Definition STATE_ERR : Z := -1.
Definition STATE_EOF : Z := 1.
Definition STATE_COND : Z := 2.
Definition STATE_COND_DONE : Z := 3.
Definition STATE_RELEXP : Z := 4.
Definition STATE_RELEXP_DONE : Z := 5.
Definition STATE_EXPR : Z := 6.
Definition STATE_EXPR_DONE : Z := 7.
Definition STATE_STMT_DONE : Z := 9.
Definition STATE_STMT_BLOCK_DONE : Z := 10.
Definition STATE_ARG_LIST : Z := 11.
Definition STATE_ARG_LIST_DONE : Z := 12.
Definition STATE_DEC_LIST : Z := 16.
Definition STATE_DEC_LIST_DONE : Z := 17.
Definition STATE_DEC : Z := 18.
Definition STATE_DEC_DONE : Z := 19.
Definition STATE_RET : Z := 20.
Definition STATE_BEGIN : Z := STATE_STMT.

Definition FLAGS_EXE : Z := 1.
Definition FLAGS_VARIABLES : Z := 2.
Definition FLAGS_FUNCTIONS : Z := 4.

(** [flags & f] *)
Definition flag_set (flags f : Z) : bool := negb (Z.land flags f =? 0).

(** ** Strings and numbers *)

(** The block of a string. *)
Definition blk (p : cptr) : option (list Z) := s ← p; Some (s ++ [0]).

(** [stritoa] of uemf.c; the digits of [n] from the last one on, while there is room. *)
Fixpoint stritoa_loop (fuel : nat) (n lim : Z) (out : list Z) : list Z :=
  match fuel with
  | O => out
  | S fuel =>
      if (9 <? n) && (zlen out <? lim) then stritoa_loop fuel (n / 10) lim (n - n / 10 * 10 + 48 :: out)
      else if zlen out <? lim then n + 48 :: out else out
  end.

Definition stritoa (n width : Z) : option (list Z) :=
  if n =? - 2 ^ 31 then None
  else
    let minus := n <? 0 in
    let '(n, width) := if minus then (- n, width - 1) else (n, width) in
    Some ((if minus then [45] else []) ++ stritoa_loop (S (Z.to_nat (width - 1))) n (width - 1) []).

(** A result of a signed computation. *)
Definition int_fits (z : Z) : option Z :=
  if (- 2 ^ 31 <=? z) && (z <? 2 ^ 31) then Some z else None.

Definition bool_int (b : bool) : Z := if b then 1 else 0.

(** The switch of [evalExpr] on numbers: [Some None] is a bad operator. *)
Definition eval_num (l rel r : Z) : option (option Z) :=
  if rel =? EXPR_PLUS then v ← int_fits (l + r); Some (Some v)
  else if rel =? EXPR_INC then v ← int_fits (l + 1); Some (Some v)
  else if rel =? EXPR_MINUS then v ← int_fits (l - r); Some (Some v)
  else if rel =? EXPR_DEC then v ← int_fits (l - 1); Some (Some v)
  else if rel =? EXPR_MUL then v ← int_fits (l * r); Some (Some v)
  else if rel =? EXPR_DIV then Some (Some (if negb (r =? 0) then Z.quot l r else 0))
  else if rel =? EXPR_MOD then Some (Some (if negb (r =? 0) then Z.rem l r else 0))
  else if rel =? EXPR_LSHIFT then
    if (0 <=? r) && (r <? 32) then v ← int_fits (Z.shiftl l r); Some (Some v) else None
  else if rel =? EXPR_RSHIFT then
    if (0 <=? r) && (r <? 32) then Some (Some (Z.shiftr l r)) else None
  else if rel =? EXPR_EQ then Some (Some (bool_int (l =? r)))
  else if rel =? EXPR_NOTEQ then Some (Some (bool_int (negb (l =? r))))
  else if rel =? EXPR_LESS then Some (Some (bool_int (l <? r)))
  else if rel =? EXPR_LESSEQ then Some (Some (bool_int (l <=? r)))
  else if rel =? EXPR_GREATER then Some (Some (bool_int (r <? l)))
  else if rel =? EXPR_GREATEREQ then Some (Some (bool_int (r <=? l)))
  else if rel =? EXPR_BOOL_COMP then Some (Some (bool_int (r =? 0)))
  else Some None.

(** The switch on strings that are not numbers, [+] apart. *)
Definition eval_str (l : list Z) (rel : Z) (r : list Z) : option Z :=
  let c := strcmp l r in
  if rel =? EXPR_LESS then Some (bool_int (c <? 0))
  else if rel =? EXPR_LESSEQ then Some (bool_int (c <=? 0))
  else if rel =? EXPR_GREATER then Some (bool_int (0 <? c))
  else if rel =? EXPR_GREATEREQ then Some (bool_int (0 <=? c))
  else if rel =? EXPR_EQ then Some (bool_int (c =? 0))
  else if rel =? EXPR_NOTEQ then Some (bool_int (negb (c =? 0)))
  else None.

(** ** The state *)

(** [ejfunc_t].  [args] is an hAlloc list of string pointers: its cells, [used] of them
    allocated. *)
Record ejfunc : Type := mkFunc {
  fname : cptr;
  args : list cptr;
  used : Z;
  nArgs : Z
}.

(** [ep->func]: null, a frame of [parseStmt], or a frame that is gone. *)
Inductive func_ptr : Type := FNull | FDead | FFrame (f : ejfunc).

Section Parser.
Context {Q : Type} `{ByteQueue Q} {Y : Type} `{Symbols Y}.

Record ej_t : Type := mkEjT {
  ep_input : option (ejinput (Q := Q));
  ep_functions : Z;
  ep_variables : handle_map;
  ep_variableMax : Z;
  ep_func : func_ptr;
  ep_result : cptr;
  ep_error : option (list Z);
  ep_token : token_ref;
  ep_tid : Z;
  ep_eid : Z;
  ep_flags : Z;
  ep_userHandle : Z
}.

(** The engines in memory, the handle map that finds them, and the symbol tables. *)
Record world : Type := mkWorld {
  ejHandles : handle_map;
  ejMax : Z;
  engines : gmap Z ej_t;
  symbols : Y
}.

Definition PM (A : Type) : Type := world -> option (A * world).

#[export] Instance PM_ret : MRet PM := fun A x w => Some (x, w).
#[export] Instance PM_bind : MBind PM := fun A B f m w =>
  match m w with Some (x, w) => f x w | None => None end.

Definition pfail {A} : PM A := fun _ => None.
Definition plift {A} (o : option A) : PM A := fun w => x ← o; Some (x, w).

(** [ep->field] and [ep->field = ..] *)
Definition ep_get {A} (ep : Z) (field : ej_t -> A) : PM A := fun w =>
  e ← engines w !! ep; Some (field e, w).
Definition ep_set (ep : Z) (f : ej_t -> ej_t) : PM unit := fun w =>
  e ← engines w !! ep; Some (tt, w <| engines := <[ep := f e]> (engines w) |>).

(** A call of the symbol tables. *)
Definition sym_call {A} (f : Y -> option (A * Y)) : PM A := fun w =>
  '(a, y) ← f (symbols w); Some (a, w <| symbols := y |>).
Definition sym_look (sd : Z) (nm : list Z) : PM (option value_t) := fun w =>
  r ← sy_lookup sd nm (symbols w); Some (r, w).

(** The analyser runs on the input of the engine. *)
Definition lex {A} (ep : Z) (m : LM (Q := Q) A) : PM A := fun w =>
  e ← engines w !! ep;
  ip ← ep_input e;
  '(x, l) ← m (mkEj ip (ep_error e) (ep_token e) (ep_tid e));
  let e := e <| ep_input := Some (input l) |> <| ep_error := error l |>
             <| ep_token := token l |> <| ep_tid := tid l |> in
  Some (x, w <| engines := <[ep := e]> (engines w) |>).

Section Memory.
Context (lw : Z) (balloc : Z -> option (list Z)) (brealloc : list Z -> Z -> option (list Z)).
Context (bstrdup : list Z -> cptr).
(** [malloc] and [realloc] of the handle maps, and of an engine: its address, or 0. *)
Context (balloc_words : Z -> option (list Z)) (brealloc_words : list Z -> Z -> option (list Z)).
Context (new_engine : gmap Z ej_t -> Z).
(** Whether an argument list can grow to so many cells. *)
Context (args_room : Z -> bool).
(** A host function is called: its address, the engine, the user handle, the arguments. *)
Context (call_fn : Z -> Z -> Z -> Z -> list cptr -> PM Z).

Abbreviation ejLexGetToken ep state := (lex ep (EjLex.ejLexGetToken lw balloc brealloc state)).
(** [ep->token] *)
Abbreviation ep_token_str ep := (lex ep get_token).
(** [ejLexPutbackToken(ep, t, ep->token)] *)
Definition putback (ep t : Z) : PM unit :=
  s ← ep_token_str ep; lex ep (ejLexPutbackToken bstrdup t s).

(** [setString(B_L, &p, s)]: the new value of [p]. *)
Definition setString (s : cptr) : cptr := bstrdup_ptr bstrdup s.
Definition set_result (ep : Z) (s : cptr) : PM unit :=
  ep_set ep (fun e => e <| ep_result := setString s |>).

(** [appendString] *)
Definition appendString (p s : cptr) : option cptr :=
  match p with
  | Some old =>
      s ← s;
      _ ← brealloc (old ++ [0]) (zlen s + zlen old + 1);
      Some (Some (old ++ s))
  | None => Some (setString s)
  end.

(** [ejError] with an engine; without input the message is formatted and dropped. *)
Definition ejError (ep : Z) (fmt : list Z) (args : list farg) : PM unit :=
  ip ← ep_get ep ep_input;
  match ip with
  | Some _ => lex ep (EjLex.ejError lw balloc brealloc fmt args)
  | None => _ ← plift (fmtValloc balloc brealloc lw E_MAX_ERROR fmt args); mret ()
  end.

Definition ejPtr (eid : Z) : PM Z := fun w =>
  if (eid <? 0) || (ejMax w <=? eid) then None
  else
    p ← hread (ejHandles w) eid;
    if p =? 0 then None else Some (p, w).

(** ** Variables *)

(** [ep->variables[i] - EJ_OFFSET] *)
Definition variable_table (ep i : Z) : PM Z :=
  vs ← ep_get ep ep_variables;
  h ← plift (hread vs i);
  mret (h - EJ_OFFSET).

Definition variable_value (value : cptr) : value_t :=
  match value with
  | None => mkValue (VString None) string_ 1 0
  | Some s => valueString bstrdup s VALUE_ALLOCATE
  end.

Definition set_in (ep i : Z) (var value : cptr) : PM unit :=
  sd ← variable_table ep i;
  nm ← plift var;
  _ ← sym_call (sy_enter sd nm (variable_value value) 0);
  mret ().

Definition ejSetLocalVar (eid : Z) (var value : cptr) : PM unit :=
  ep ← ejPtr eid;
  n ← ep_get ep ep_variableMax;
  set_in ep (n - 1) var value.

Definition ejSetVar (eid : Z) (var value : cptr) : PM unit :=
  ep ← ejPtr eid;
  n ← ep_get ep ep_variableMax;
  set_in ep (n - 1) var value.

Definition ejSetGlobalVar (eid : Z) (var value : cptr) : PM unit :=
  ep ← ejPtr eid;
  set_in ep 0 var value.

(** [sp->content.value.string] *)
Definition string_content (v : value_t) : option cptr :=
  match v_value v with VString s => Some s | VInteger _ => None end.

(** The result and the value, if there is one: it is in table [i]. *)
Definition ejGetVar (eid : Z) (var : cptr) : PM (Z * cptr) :=
  ep ← ejPtr eid;
  nm ← plift var;
  n ← ep_get ep ep_variableMax;
  let i := n - 1 in
  sd ← variable_table ep i;
  sp ← sym_look sd nm;
  match sp with
  | Some v => s ← plift (string_content v); mret (i, s)
  | None =>
      sd ← variable_table ep 0;
      sp ← sym_look sd nm;
      match sp with
      | Some v => s ← plift (string_content v); mret (0, s)
      | None => mret (-1, None)
      end
  end.

(** ** Evaluation *)

Definition all_digits (s : list Z) : bool := forallb isdigit s.

(** [gatoi] *)
Definition gatoi (s : list Z) : option Z := atoi (s ++ [0]).

Definition evalExpr (ep : Z) (lhs : cptr) (rel : Z) (rhs : cptr) : PM Z :=
  l ← plift lhs;
  numeric ← (if all_digits l then r ← plift rhs; mret (all_digits r) else mret false);
  if numeric : bool then
    r ← plift rhs;
    l ← plift (gatoi l);
    r ← plift (gatoi r);
    lval ← plift (eval_num l rel r);
    match lval with
    | None => ejError ep (str "Bad operator %d") [AInt rel];; mret (-1)
    | Some lval => buf ← plift (stritoa lval 16); set_result ep (Some buf);; mret 0
    end
  else if rel =? EXPR_PLUS then
    p ← plift (appendString None lhs);
    p ← plift (appendString p rhs);
    ep_set ep (fun e => e <| ep_result := p |>);;
    mret 0
  else if (rel =? EXPR_LESS) || (rel =? EXPR_LESSEQ) || (rel =? EXPR_GREATER) ||
          (rel =? EXPR_GREATEREQ) || (rel =? EXPR_EQ) || (rel =? EXPR_NOTEQ) then
    r ← plift rhs;
    lval ← plift (eval_str l rel r);
    buf ← plift (stritoa lval 16);
    set_result ep (Some buf);;
    mret 0
  else ejError ep (str "Bad operator") [];; mret (-1).

Definition evalCond (ep : Z) (lhs : cptr) (rel : Z) (rhs : cptr) : PM Z :=
  l ← plift lhs;
  both ← (if isdigit (first_char l) then r ← plift rhs; mret (isdigit (first_char r)) else mret false);
  lval ← (if both : bool then
            r ← plift rhs;
            l ← plift (gatoi l);
            r ← plift (gatoi r);
            if rel =? COND_AND then mret (Some (bool_int (negb (l =? 0) && negb (r =? 0))))
            else if rel =? COND_OR then mret (Some (bool_int (negb (l =? 0) || negb (r =? 0))))
            else ejError ep (str "Bad operator %d") [AInt rel];; mret None
          else ejError ep (str "Conditional must be numeric") [];; mret (Some 0));
  match lval with
  | None => mret (-1)
  | Some lval => buf ← plift (stritoa lval 16); set_result ep (Some buf);; mret 0
  end.

(** [sp->content.value.integer], a function pointer. *)
Definition function_content (v : value_t) : option Z :=
  match v_value v with VInteger z => Some z | VString _ => None end.

(** [ep->func], dereferenced *)
Definition get_func (ep : Z) : PM ejfunc :=
  p ← ep_get ep ep_func;
  match p with FFrame f => mret f | _ => pfail end.

Definition evalFunction (ep : Z) : PM Z :=
  f ← get_func ep;
  functions ← ep_get ep ep_functions;
  nm ← plift (fname f);
  sp ← sym_look functions nm;
  fn ← (match sp with None => mret 0 | Some v => plift (function_content v) end);
  if fn =? 0 then ejError ep (str "Undefined procedure %s") [AStr (blk (fname f))];; mret (-1)
  else
    eid ← ep_get ep ep_eid;
    h ← ep_get ep ep_userHandle;
    call_fn fn eid h (nArgs f) (args f).

(** ** Argument lists *)

Fixpoint first_null (l : list cptr) : option nat :=
  match l with
  | [] => None
  | None :: _ => Some O
  | Some _ :: l => S <$> first_null l
  end.

(** [hAlloc(&func->args)]; the code stores behind the end when that fails. *)
Definition args_alloc (f : ejfunc) : option (nat * ejfunc) :=
  let grow :=
    if args_room (zlen (args f) + H_INCR)
    then Some (length (args f), f <| args := args f ++ repeat None (Z.to_nat H_INCR) |> <| used := used f + 1 |>)
    else None in
  if used f <? zlen (args f) then
    match first_null (args f) with
    | Some aid => Some (aid, f <| used := used f + 1 |>)
    | None => grow
    end
  else grow.

(** [args[aid] = bstrdup(s); nArgs++] *)
Definition add_arg (f : ejfunc) (s : cptr) : option ejfunc :=
  '(aid, f) ← args_alloc f;
  Some (f <| args := <[aid := setString s]> (args f) |> <| nArgs := nArgs f + 1 |>).

(** ** The parser

    [n] is fuel for the loops, [parse] the recursive call. *)
Section Rec.
Context (n : nat) (ep : Z) (parse : Z -> Z -> PM Z).

Fixpoint remove_newlines (fuel : nat) (state : Z) : PM unit :=
  match fuel with
  | O => pfail
  | S fuel =>
      tid ← ejLexGetToken ep state;
      if tid =? TOK_NEWLINE then remove_newlines fuel state else putback ep tid
  end.
Definition ejRemoveNewlines (state : Z) : PM unit := remove_newlines n state.

(** [do { .. } while (tid == TOK_COMMA)] *)
Fixpoint declaration_loop (fuel : nat) (state flags : Z) : PM Z :=
  match fuel with
  | O => pfail
  | S fuel =>
      tid ← ejLexGetToken ep state;
      if negb (tid =? TOK_ID) then mret STATE_ERR
      else
        putback ep tid;;
        st ← parse STATE_DEC flags;
        if negb (st =? STATE_DEC_DONE) then mret STATE_ERR
        else
          tid ← ejLexGetToken ep state;
          if tid =? TOK_SEMI then mret STATE_DEC_LIST_DONE
          else if negb (tid =? TOK_COMMA) then mret STATE_ERR
          else declaration_loop fuel state flags
  end.
Definition parseDeclaration (state flags : Z) : PM Z := declaration_loop n state flags.

Fixpoint args_loop (fuel : nat) (flags : Z) : PM Z :=
  match fuel with
  | O => pfail
  | S fuel =>
      state ← parse STATE_RELEXP flags;
      if (state =? STATE_EOF) || (state =? STATE_ERR) then mret state
      else
        (if state =? STATE_RELEXP_DONE then
           s ← ep_get ep ep_result;
           f ← get_func ep;
           f ← plift (add_arg f s);
           ep_set ep (fun e => e <| ep_func := FFrame f |>)
         else mret ());;
        tid ← ejLexGetToken ep state;
        if tid =? TOK_COMMA then args_loop fuel flags
        else
          putback ep tid;;
          if negb (tid =? TOK_RPAREN) && negb (state =? STATE_RELEXP_DONE) then mret STATE_ERR
          else mret STATE_ARG_LIST_DONE
  end.
Definition parseArgs (state flags : Z) : PM Z := args_loop n flags.

Fixpoint cond_loop (fuel : nat) (flags operator : Z) (lhs : cptr) : PM Z :=
  match fuel with
  | O => pfail
  | S fuel =>
      state ← parse STATE_RELEXP flags;
      if negb (state =? STATE_RELEXP_DONE) then mret STATE_ERR
      else
        ok ← (if 0 <? operator then
                s ← ep_get ep ep_result;
                evalCond ep lhs operator (setString s)
              else mret 0);
        if ok <? 0 then mret STATE_ERR
        else
          s ← ep_get ep ep_result;
          let lhs := setString s in
          tid ← ejLexGetToken ep state;
          if tid =? TOK_LOGICAL then
            t ← ep_token_str ep;
            cond_loop fuel flags (first_char t) lhs
          else if (tid =? TOK_RPAREN) || (tid =? TOK_SEMI) then
            putback ep tid;;
            mret STATE_COND_DONE
          else
            putback ep tid;;
            cond_loop fuel flags operator lhs
  end.
Definition parseCond (state flags : Z) : PM Z :=
  set_result ep (Some []);;
  cond_loop n flags 0 None.

Fixpoint expr_loop (fuel : nat) (flags tid rel : Z) (lhs : cptr) : PM Z :=
  match fuel with
  | O => pfail
  | S fuel =>
      ok ← (if tid =? TOK_LOGICAL then
              st ← parse STATE_RELEXP flags; mret (st =? STATE_RELEXP_DONE)
            else st ← parse STATE_EXPR flags; mret (st =? STATE_EXPR_DONE));
      if negb (ok : bool) then mret STATE_ERR
      else
        let state := if tid =? TOK_LOGICAL then STATE_RELEXP_DONE else STATE_EXPR_DONE in
        r ← (if 0 <? rel then
               s ← ep_get ep ep_result;
               if tid =? TOK_LOGICAL then evalCond ep lhs rel (setString s)
               else evalExpr ep lhs rel (setString s)
             else mret 0);
        if r <? 0 then mret STATE_ERR
        else
          s ← ep_get ep ep_result;
          let lhs := setString s in
          tid ← ejLexGetToken ep state;
          if (tid =? TOK_EXPR) || (tid =? TOK_INC_DEC) || (tid =? TOK_LOGICAL) then
            t ← ep_token_str ep;
            if state =? STATE_EXPR_DONE then expr_loop fuel flags tid (first_char t) lhs
            else mret state
          else
            putback ep tid;;
            mret STATE_RELEXP_DONE
  end.
Definition parseExpr (state flags : Z) : PM Z :=
  set_result ep (Some []);;
  expr_loop n flags 0 0 None.

(** *** Statements

    What the switch of [parseStmt] does with a token: go round with a state, return from
    the function, go to [error], or leave the loop with a state and [expectSemi]. *)
Inductive outcome : Type :=
| Again (state : Z)
| Return (r : Z)
| Error
| Done (state : Z) (expectSemi : bool).

Definition exe (flags : Z) : bool := flag_set flags FLAGS_EXE.
Definition no_exe (flags : Z) : Z := Z.land flags (Z.lnot FLAGS_EXE).

(** The end of a case that may be a whole statement. *)
Definition done_semi (state : Z) : PM outcome := mret (Done state (state =? STATE_STMT)).

(** [x = e] *)
Definition stmt_assign (state flags : Z) (identifier : cptr) : PM outcome :=
  st ← parse STATE_RELEXP flags;
  if negb (st =? STATE_RELEXP_DONE) then mret Error
  else
    (if exe flags then
       eid ← ep_get ep ep_eid;
       if state =? STATE_DEC then
         r ← ep_get ep ep_result;
         ejSetLocalVar eid identifier r
       else
         '(ejVarType, _) ← ejGetVar eid identifier;
         r ← ep_get ep ep_result;
         if 0 <? ejVarType then ejSetLocalVar eid identifier r
         else ejSetGlobalVar eid identifier r
     else mret ());;
    done_semi state.

Definition undefined_variable (identifier : cptr) : PM outcome :=
  ejError ep (str "Undefined variable %s" ++ [10]) [AStr (blk identifier)];; mret Error.

(** [x++] and [x--] *)
Definition stmt_inc_dec (state flags : Z) (identifier : cptr) : PM outcome :=
  if exe flags then
    eid ← ep_get ep ep_eid;
    '(ejVarType, value) ← ejGetVar eid identifier;
    if ejVarType <? 0 then undefined_variable identifier
    else
      set_result ep value;;
      t ← ep_token_str ep;
      ok ← evalExpr ep value (first_char t) (Some (str "1"));
      if ok <? 0 then mret (Again STATE_ERR)
      else
        r ← ep_get ep ep_result;
        (if 0 <? ejVarType then ejSetLocalVar eid identifier r else ejSetGlobalVar eid identifier r);;
        done_semi state
  else done_semi state.

(** A variable on its own, or its declaration; [tid] is the token behind it.  When the
    declaration is made in the global table, the value that was found there is released
    before it is used. *)
Definition stmt_name (state flags tid : Z) (identifier : cptr) : PM outcome :=
  eid ← ep_get ep ep_eid;
  value ← (if state =? STATE_DEC then
             '(ejVarType, value) ← ejGetVar eid identifier;
             if 0 <? ejVarType then
               ejError ep (str "Variable already declared") [AStr (blk identifier)];; mret None
             else
               ejSetLocalVar eid identifier None;;
               max ← ep_get ep ep_variableMax;
               match value with
               | Some _ => if max =? 1 then pfail else mret (Some value)
               | None => mret (Some value)
               end
           else if exe flags then
             '(ejVarType, value) ← ejGetVar eid identifier;
             if ejVarType <? 0 then undefined_variable identifier;; mret None
             else mret (Some value)
           else mret (Some None));
  match value with
  | None => mret Error
  | Some value =>
      set_result ep value;;
      putback ep tid;;
      done_semi state
  end.

Definition stmt_id (state flags : Z) : PM outcome :=
  t ← ep_token_str ep;
  let identifier := setString (Some t) in
  tid ← ejLexGetToken ep state;
  if tid =? TOK_ASSIGNMENT then stmt_assign state flags identifier
  else if tid =? TOK_INC_DEC then stmt_inc_dec state flags identifier
  else stmt_name state flags tid identifier.

Definition set_func (f : func_ptr) : PM unit := ep_set ep (fun e => e <| ep_func := f |>).

Definition stmt_function (state flags : Z) : PM outcome :=
  saveFunc ← ep_get ep ep_func;
  t ← ep_token_str ep;
  set_func (FFrame (mkFunc (setString (Some t)) [] 0 0));;
  set_result ep (Some []);;
  tid ← ejLexGetToken ep state;
  if negb (tid =? TOK_LPAREN) then set_func FDead;; mret Error
  else
    st ← parse STATE_ARG_LIST flags;
    if negb (st =? STATE_ARG_LIST_DONE) then set_func saveFunc;; mret Error
    else
      r ← (if exe flags then evalFunction ep else mret 0);
      if r <? 0 then set_func saveFunc;; mret Error
      else
        set_func saveFunc;;
        tid ← ejLexGetToken ep state;
        if negb (tid =? TOK_RPAREN) then mret Error else done_semi state.

(** [if (parse(ep, st, flags) != done) goto error; ..] *)
Definition expect_parse (st done flags : Z) (k : PM outcome) : PM outcome :=
  r ← parse st flags; if r =? done then k else mret Error.
Definition expect_token (tok state : Z) (k : PM outcome) : PM outcome :=
  tid ← ejLexGetToken ep state; if tid =? tok then k else mret Error.
(** A statement that may return. *)
Definition sub_statement (flags : Z) (k : PM outcome) : PM outcome :=
  r ← parse STATE_STMT flags;
  if r =? STATE_RET then mret (Return STATE_RET)
  else if r =? STATE_STMT_DONE then k else mret Error.

(** [*ep->result] *)
Definition result_char : PM Z :=
  r ← ep_get ep ep_result;
  s ← plift r;
  mret (first_char s).

Definition stmt_if (state flags : Z) : PM outcome :=
  if negb (state =? STATE_STMT) then mret Error
  else
    expect_token TOK_LPAREN state (
    expect_parse STATE_COND STATE_COND_DONE flags (
    expect_token TOK_RPAREN state (
    c ← result_char;
    let '(thenFlags, elseFlags) := if c =? 49 then (flags, no_exe flags) else (no_exe flags, flags) in
    sub_statement thenFlags (
    ejRemoveNewlines state;;
    tid ← ejLexGetToken ep state;
    if negb (tid =? TOK_ELSE) then putback ep tid;; mret (Done state false)
    else sub_statement elseFlags (mret (Done state false)))))).

Definition save_input : PM ejinput := lex ep (ejLexSaveInputState bstrdup).
Definition restore_input (st : ejinput) : PM unit := lex ep (ejLexRestoreInputState bstrdup st).

(** [while (cond && (flags & FLAGS_EXE))], then [ejLexRestoreInputState(ep, &endScript)] *)
Fixpoint for_loop (fuel : nat) (state flags : Z) (cond : bool) (condScript incrScript bodyScript endScript : ejinput)
  : PM outcome :=
  match fuel with
  | O => pfail
  | S fuel =>
      if cond && exe flags then
        restore_input bodyScript;;
        sub_statement flags (
        restore_input incrScript;;
        expect_parse STATE_EXPR STATE_EXPR_DONE flags (
        restore_input condScript;;
        expect_parse STATE_COND STATE_COND_DONE flags (
        c ← result_char;
        for_loop fuel state flags (negb (c =? 48)) condScript incrScript bodyScript endScript)))
      else restore_input endScript;; mret (Done state false)
  end.

Definition stmt_for (state flags : Z) : PM outcome :=
  if negb (state =? STATE_STMT) then mret Error
  else
    expect_token TOK_LPAREN state (
    expect_parse STATE_EXPR STATE_EXPR_DONE flags (
    expect_token TOK_SEMI state (
    condScript ← save_input;
    expect_parse STATE_COND STATE_COND_DONE flags (
    c ← result_char;
    expect_token TOK_SEMI state (
    let forFlags := no_exe flags in
    incrScript ← save_input;
    expect_parse STATE_EXPR STATE_EXPR_DONE forFlags (
    expect_token TOK_RPAREN state (
    bodyScript ← save_input;
    expect_parse STATE_STMT STATE_STMT_DONE forFlags (
    endScript ← save_input;
    for_loop n state flags (negb (c =? 48)) condScript incrScript bodyScript endScript)))))))).

(** [do { state = parse(ep, STATE_STMT, flags); } while (state == STATE_STMT_DONE)] *)
Fixpoint block_loop (fuel : nat) (flags : Z) : PM Z :=
  match fuel with
  | O => pfail
  | S fuel =>
      state ← parse STATE_STMT flags;
      if state =? STATE_STMT_DONE then block_loop fuel flags else mret state
  end.

Definition stmt_block (state flags : Z) : PM outcome :=
  if negb (state =? STATE_STMT) then mret Error
  else
    state ← block_loop n flags;
    if state =? STATE_RET then mret (Return state)
    else expect_token TOK_RBRACE state (mret (Return STATE_STMT_DONE)).

(** [while (ejLexGetToken(ep, state) != TOK_EOF)] *)
Fixpoint skip_script (fuel : nat) (state : Z) : PM unit :=
  match fuel with
  | O => pfail
  | S fuel =>
      tid ← ejLexGetToken ep state;
      if tid =? TOK_EOF then mret () else skip_script fuel state
  end.

Definition stmt_case (tid state flags : Z) : PM outcome :=
  if tid =? TOK_ERR then mret (Done STATE_ERR false)
  else if tid =? TOK_EOF then mret (Done STATE_EOF false)
  else if tid =? TOK_NEWLINE then mret (Again state)
  else if tid =? TOK_SEMI then
    (if negb (state =? STATE_STMT) then putback ep tid else mret ());; mret (Done state false)
  else if tid =? TOK_ID then stmt_id state flags
  else if tid =? TOK_LITERAL then
    t ← ep_token_str ep; set_result ep (Some t);; done_semi state
  else if tid =? TOK_FUNCTION then stmt_function state flags
  else if tid =? TOK_IF then stmt_if state flags
  else if tid =? TOK_FOR then stmt_for state flags
  else if tid =? TOK_VAR then
    expect_parse STATE_DEC_LIST STATE_DEC_LIST_DONE flags (mret (Done state false))
  else if tid =? TOK_COMMA then putback ep TOK_EXPR;; mret (Done state false)
  else if tid =? TOK_LPAREN then
    if state =? STATE_EXPR then
      expect_parse STATE_RELEXP STATE_RELEXP_DONE flags (
      expect_token TOK_RPAREN state (mret (Return STATE_EXPR_DONE)))
    else mret (Done state false)
  else if tid =? TOK_RPAREN then putback ep tid;; mret (Return STATE_EXPR_DONE)
  else if tid =? TOK_LBRACE then stmt_block state flags
  else if tid =? TOK_RBRACE then
    if state =? STATE_STMT then putback ep tid;; mret (Return STATE_STMT_BLOCK_DONE) else mret Error
  else if tid =? TOK_RETURN then
    expect_parse STATE_RELEXP STATE_RELEXP_DONE flags (
    if exe flags then skip_script n state;; mret (Return STATE_RET) else mret (Again state))
  else putback ep TOK_EXPR;; mret (Done state false).

Fixpoint stmt_loop (fuel : nat) (state flags : Z) : PM outcome :=
  match fuel with
  | O => pfail
  | S fuel =>
      tid ← ejLexGetToken ep state;
      o ← stmt_case tid state flags;
      match o with Again state => stmt_loop fuel state flags | _ => mret o end
  end.

(** The code behind [doneParse]. *)
Definition done_state (state : Z) : Z :=
  if state =? STATE_STMT then STATE_STMT_DONE
  else if state =? STATE_DEC then STATE_DEC_DONE
  else if state =? STATE_EXPR then STATE_EXPR_DONE
  else if state =? STATE_EOF then state
  else STATE_ERR.

Definition parseStmt (state flags : Z) : PM Z :=
  o ← stmt_loop n state flags;
  match o with
  | Return r => mret r
  | Error | Again _ => mret STATE_ERR
  | Done state expectSemi =>
      if expectSemi : bool then
        tid ← ejLexGetToken ep state;
        if negb (tid =? TOK_SEMI) && negb (tid =? TOK_NEWLINE) then mret STATE_ERR
        else ejRemoveNewlines state;; mret (done_state state)
      else mret (done_state state)
  end.

(** A state that is one of [ok], or [STATE_ERR]. *)
Definition only (ok : list Z) (state : Z) : Z := if bool_decide (state ∈ ok) then state else STATE_ERR.

Definition parse_body (state flags : Z) : PM Z :=
  state ← (if state =? STATE_STMT then
             st ← parseStmt state flags; mret (only [STATE_STMT_DONE; STATE_EOF; STATE_STMT_BLOCK_DONE; STATE_RET] st)
           else if state =? STATE_DEC then st ← parseStmt state flags; mret (only [STATE_DEC_DONE; STATE_EOF] st)
           else if state =? STATE_EXPR then st ← parseStmt state flags; mret (only [STATE_EXPR_DONE; STATE_EOF] st)
           else if state =? STATE_DEC_LIST then parseDeclaration state flags
           else if state =? STATE_ARG_LIST then parseArgs state flags
           else if state =? STATE_COND then parseCond state flags
           else if state =? STATE_RELEXP then parseExpr state flags
           else mret state);
  (if state =? STATE_ERR then
     e ← ep_get ep ep_error;
     match e with None => ejError ep (str "Syntax error") [] | Some _ => mret () end
   else mret ());;
  mret state.
End Rec.

Fixpoint parse (fuel : nat) (ep state flags : Z) : PM Z :=
  match fuel with
  | O => pfail
  | S n => parse_body n ep (parse n ep) state flags
  end.

(** ** Scripts *)

(** [ejLexOpenScript]; the code ignores its failure and runs into a null queue. *)
Definition open_script (ep : Z) (scr : list Z) : PM unit :=
  r ← plift (ejLexOpenScript scr);
  ip ← plift r;
  ep_set ep (fun e => e <| ep_input := Some ip |>).

Definition servp (ep : Z) : PM Z :=
  ip ← ep_get ep ep_input;
  ip ← plift ip;
  mret (bq_serv (script ip)).

(** The loop of [ejEval]: parse statements, and give up when the read pointer stays where
    it is.  [test] is [endlessLoopTest]. *)
Fixpoint eval_loop (fuel n : nat) (ep : Z) (test : option Z) (loopCounter : Z) : PM Z :=
  match fuel with
  | O => pfail
  | S fuel =>
      state ← parse n ep STATE_BEGIN FLAGS_EXE;
      let state := if state =? STATE_RET then STATE_EOF else state in
      p ← servp ep;
      let same := match test with Some q => q =? p | None => false end in
      state ← (if same && (10 <? loopCounter) then ejError ep (str "Syntax error") [];; mret STATE_ERR
               else mret state);
      if (state =? STATE_EOF) || (state =? STATE_ERR) then mret state
      else eval_loop fuel n ep (Some p) (if same then loopCounter + 1 else 0)
  end.

(** The result, and what is stored in [*emsg]. *)
Definition ejEval (fuel : nat) (eid : Z) (scr : list Z) : PM (cptr * cptr) :=
  ep ← ejPtr eid;
  set_result ep (Some []);;
  oldBlock ← ep_get ep ep_input;
  open_script ep scr;;
  state ← eval_loop fuel fuel ep None 0;
  ep_set ep (fun e => e <| ep_input := None |>);;
  emsg ← (if state =? STATE_ERR then
            err ← ep_get ep ep_error;
            match err with
            | None => mret (setString None)
            | Some b => s ← plift (cstr b); mret (setString (Some s))
            end
          else mret None);
  ep_set ep (fun e => e <| ep_input := oldBlock |>);;
  r ← ep_get ep ep_result;
  mret (if state =? STATE_ERR then None else r, emsg).

(** [wset] of a handle list. *)
Definition put_variables (ep vid v : Z) : PM unit :=
  vs ← ep_get ep ep_variables;
  mp ← plift vs;
  ep_set ep (fun e => e <| ep_variables := Some (wset mp (vid + H_OFFSET) v) |>).

(** [hAlloc(&ep->variables)], and [variableMax]. *)
Definition new_variables (ep : Z) : PM Z :=
  vs ← ep_get ep ep_variables;
  let '(vid, vs) := hAlloc balloc_words brealloc_words vs in
  ep_set ep (fun e => e <| ep_variables := vs |>);;
  if vid <? 0 then mret (-1)
  else
    ep_set ep (fun e => if ep_variableMax e <=? vid then e <| ep_variableMax := vid + 1 |> else e);;
    mret vid.

Definition ejOpenBlock (eid : Z) : PM Z :=
  ep ← ejPtr eid;
  vid ← new_variables ep;
  if vid <? 0 then mret (-1)
  else
    sd ← sym_call (sy_open 64);
    put_variables ep vid (sd + EJ_OFFSET);;
    mret vid.

(** [ep->variableMax = hFree(&ep->variables, vid)] *)
Definition free_variables (ep vid : Z) : PM unit :=
  vs ← ep_get ep ep_variables;
  '(max, vs) ← plift (hFree vs vid);
  ep_set ep (fun e => e <| ep_variables := vs |> <| ep_variableMax := max |>).

Definition sym_close (sd : Z) : PM unit := sym_call (fun y => y ← sy_close sd y; Some (tt, y)).

Definition ejCloseBlock (eid vid : Z) : PM Z :=
  ep ← ejPtr eid;
  sd ← variable_table ep vid;
  sym_close sd;;
  free_variables ep vid;;
  mret 0.

Definition ejEvalBlock (fuel : nat) (eid : Z) (scr : list Z) : PM (cptr * cptr) :=
  vid ← ejOpenBlock eid;
  r ← ejEval fuel eid scr;
  _ ← ejCloseBlock eid vid;
  mret r.

(** What [ejEvalFile] meets on the disk: no file, no status of it, or a size and what
    reading yields. *)
Inductive file : Type := NoFile | NoStat | File (st_size : Z) (contents : list Z).

(** The script is the contents up to the first zero byte: [ballocAscToUni] copies a
    string. *)
Definition ejEvalFile (fuel : nat) (eid : Z) (path : list Z) (fd : file) : PM (cptr * cptr) :=
  ep ← ejPtr eid;
  match fd with
  | NoFile => ejError ep (str "Bad handle %d") [AInt eid];; mret (None, None)
  | NoStat => ejError ep (str "Cant stat %s") [AStr (Some (path ++ [0]))];; mret (None, None)
  | File st_size contents =>
      match balloc (st_size + 1) with
      | None => ejError ep (str "Cant malloc %d") [AInt st_size];; mret (None, None)
      | Some _ =>
          if negb (zlen contents =? st_size)
          then ejError ep (str "Error reading %s") [AStr (Some (path ++ [0]))];; mret (None, None)
          else
            script ← plift (cstr (contents ++ [0]));
            ejEvalBlock fuel eid script
      end
  end.

(** ** Engines *)

Definition SIZEOF_ej_t : Z := 48.

Definition set_handles (hs : handle_map) (max : Z) : PM unit := fun w =>
  Some (tt, w <| ejHandles := hs |> <| ejMax := max |>).
Definition get_handles : PM (handle_map * Z) := fun w => Some ((ejHandles w, ejMax w), w).

(** The record that [hAllocEntry] cleared. *)
Definition null_engine : ej_t := mkEjT None 0 None 0 FNull None None TokStatic 0 0 0 0.

(** [hAllocEntry] for [ejHandles]: the handle and the engine. *)
Definition alloc_engine : PM (Z * Z) := fun w =>
  let p := new_engine (engines w) in
  '(eid, hs, max) ← hAllocEntry balloc_words brealloc_words (fun _ => p) (ejHandles w) (ejMax w) SIZEOF_ej_t;
  let w := w <| ejHandles := hs |> <| ejMax := max |> in
  Some ((eid, p), if eid <? 0 then w else w <| engines := <[p := null_engine]> (engines w) |>).

Definition free_handle (eid : Z) : PM unit :=
  '(hs, _) ← get_handles;
  '(max, hs) ← plift (hFree hs eid);
  set_handles hs max.

Definition ejOpenEngine (variables functions : Z) : PM Z :=
  '(eid, ep) ← alloc_engine;
  if eid <? 0 then mret (-1)
  else
    ep_set ep (fun e => e <| ep_eid := eid |>);;
    vid ← new_variables ep;
    if vid <? 0 then free_handle eid;; mret (-1)
    else
      (if variables =? -1 then
         sd ← sym_call (sy_open 64);
         put_variables ep vid (sd + EJ_OFFSET);;
         ep_set ep (fun e => e <| ep_flags := Z.lor (ep_flags e) FLAGS_VARIABLES |>)
       else put_variables ep vid (variables + EJ_OFFSET));;
      (if functions =? -1 then
         sd ← sym_call (sy_open 64);
         ep_set ep (fun e => e <| ep_functions := sd |> <| ep_flags := Z.lor (ep_flags e) FLAGS_FUNCTIONS |>)
       else ep_set ep (fun e => e <| ep_functions := functions |>));;
      ejSetGlobalVar eid (Some (str "null")) None;;
      mret eid.

(** The loop over the variable tables, from [i] down. *)
Fixpoint close_tables (k : nat) (ep : Z) : PM unit :=
  match k with
  | O => mret ()
  | S k =>
      let i := Z.of_nat k in
      f ← ep_get ep ep_flags;
      (if flag_set f FLAGS_VARIABLES then sd ← variable_table ep i; sym_close sd else mret ());;
      free_variables ep i;;
      close_tables k ep
  end.

Definition free_engine (ep : Z) : PM unit := fun w =>
  Some (tt, w <| engines := delete ep (engines w) |>).

Definition ejCloseEngine (eid : Z) : PM unit :=
  ep ← ejPtr eid;
  ep_set ep (fun e => e <| ep_error := None |> <| ep_result := None |>);;
  max ← ep_get ep ep_variableMax;
  close_tables (Z.to_nat max) ep;;
  f ← ep_get ep ep_flags;
  (if flag_set f FLAGS_FUNCTIONS then sd ← ep_get ep ep_functions; sym_close sd else mret ());;
  id ← ep_get ep ep_eid;
  free_handle id;;
  free_engine ep.

(** ** Functions, results and the rest of the interface *)

Definition ejSetGlobalFunctionDirect (functions : Z) (nm : list Z) (fn : Z) : PM Z :=
  sp ← sym_call (sy_enter functions nm (valueInteger fn) 0);
  mret (if sp =? 0 then -1 else 0).

Definition ejSetGlobalFunction (eid : Z) (nm : list Z) (fn : Z) : PM Z :=
  ep ← ejPtr eid;
  functions ← ep_get ep ep_functions;
  ejSetGlobalFunctionDirect functions nm fn.

Definition ejRemoveGlobalFunction (eid : Z) (nm : list Z) : PM Z :=
  ep ← ejPtr eid;
  functions ← ep_get ep ep_functions;
  sym_call (sy_delete functions nm).

Definition ejGetGlobalFunction (eid : Z) (nm : list Z) : PM Z :=
  ep ← ejPtr eid;
  functions ← ep_get ep ep_functions;
  sp ← sym_look functions nm;
  match sp with Some v => plift (function_content v) | None => mret 0 end.

Definition ejSetUserHandle (eid handle : Z) : PM unit :=
  ep ← ejPtr eid; ep_set ep (fun e => e <| ep_userHandle := handle |>).
Definition ejGetUserHandle (eid : Z) : PM Z := ep ← ejPtr eid; ep_get ep ep_userHandle.

Definition ejGetLineNumber (eid : Z) : PM Z :=
  ep ← ejPtr eid;
  ip ← ep_get ep ep_input;
  ip ← plift ip;
  mret (lineNumber ip).

Definition ejSetResult (eid : Z) (s : cptr) : PM unit := ep ← ejPtr eid; set_result ep s.
Definition ejGetResult (eid : Z) : PM cptr := ep ← ejPtr eid; ep_get ep ep_result.

(** [*ep->variables] *)
Definition ejGetVariableTable (eid : Z) : PM Z :=
  ep ← ejPtr eid;
  vs ← ep_get ep ep_variables;
  plift (hread vs 0).
Definition ejGetFunctionTable (eid : Z) : PM Z := ep ← ejPtr eid; ep_get ep ep_functions.
End Memory.
End Parser.

(** ** [ejArgs]

    The values that are stored through the pointers behind the format. *)
Inductive arg_out : Type := OutInt (z : Z) | OutStr (s : list Z).

Fixpoint ejArgs_loop (fmt : list Z) (argv : list cptr) (argn : Z) : option (Z * list arg_out) :=
  match fmt with
  | [] => Some (argn, [])
  | c :: fmt =>
      match argv with
      | [] => None
      | None :: _ => Some (argn, [])
      | Some s :: rest =>
          if negb (c =? 37) then ejArgs_loop fmt argv argn
          else
            out ← (match fmt with
                   | 100 :: _ => z ← gatoi s; Some [OutInt z]
                   | 115 :: _ => Some [OutStr s]
                   | _ => Some []
                   end);
            '(n, outs) ← ejArgs_loop fmt rest (argn + 1);
            Some (n, out ++ outs)
      end
  end.

Definition ejArgs (argv : list cptr) (fmt : list Z) : option (Z * list arg_out) := ejArgs_loop fmt argv 0.
