(* ===== verification/EjAst.v ===== *)
(** * Ejscript: syntax and meaning

    The language that ejparse.c reads, as trees: how they are written in tokens, and what
    they mean.  The meaning is a relation between the state before and after: the symbol
    tables and the result of the last expression.  It has a mode: code that is parsed but
    not executed still evaluates its operators and declares its variables. *)

From stdpp Require Import gmap.
From S2P Require Import Prelude CString Fmt SymTab SymIface RingQ ByteQueue EjLex EjLexSpec EjParse.
#[local] Open Scope Z_scope.
#[local] Open Scope cint_scope.

(** ** Syntax *)

Inductive binop : Type :=
| OAdd | OSub | OMul | OMod | ODiv | OLt | OLe | OShl | OGt | OGe | OShr | OEq | ONe | ONot.

(** All operators have the same precedence and group to the left; an operator without a
    left operand has the empty string there.  Behind [||] or [&&] stands a whole
    expression. *)
Inductive term : Type :=
| TNumber (ds : list Z)
| TString (quote : Z) (body : list Z)
| TVar (x : list Z)
| TIncr (x : list Z) (inc : bool)
| TCall0 (f : list Z)
| TCall (f : list Z) (a : arguments)
| TParen (e : expr)
with expr : Type :=
| EAssign (x : list Z) (e : expr)
| EStart (t : term) (c : tail)
| EPrefix (o : binop) (t : term) (c : tail)
with tail : Type :=
| CEnd
| COp (o : binop) (t : term) (c : tail)
| CLog (conj : bool) (e : expr)
with arguments : Type :=
| AOne (e : expr)
| AMore (e : expr) (a : arguments).

(** A statement that is an assignment or a term; the increment of a loop. *)
Inductive simple : Type :=
| MAssign (x : list Z) (e : expr)
| MTerm (t : term).

Inductive decls : Type :=
| DOne (x : list Z) (e : option expr)
| DMore (x : list Z) (e : option expr) (ds : decls).

Inductive stmt : Type :=
| SEmpty
| SSimple (m : simple)
| SVar (ds : decls)
| SIf (e : expr) (s : stmt)
| SIfElse (e : expr) (s1 s2 : stmt)
| SBlock (ss : stmts)
| SFor (x : list Z) (init cond : expr) (inc : simple) (body : stmt)
| SReturn (e : expr)
with stmts : Type :=
| SNil
| SCons (s : stmt) (ss : stmts).

(** ** How they are written *)

Definition LPAREN : tok := KPunct 0.
Definition RPAREN : tok := KPunct 1.
Definition LBRACE : tok := KPunct 2.
Definition RBRACE : tok := KPunct 3.
Definition SEMI : tok := KPunct 4.
Definition COMMA : tok := KPunct 5.
Definition ASSIGN : tok := KPunct 19.

Definition op_index (o : binop) : nat :=
  match o with
  | OAdd => 6 | OSub => 8 | OMul => 10 | OMod => 11 | ODiv => 12 | OLt => 13 | OLe => 14
  | OShl => 15 | OGt => 16 | OGe => 17 | OShr => 18 | OEq => 20 | ONe => 21 | ONot => 22
  end.
Definition op_tok (o : binop) : tok := KPunct (op_index o).
Definition op_code (o : binop) : Z := first_char (tok_text (op_tok o)).

Definition inc_tok (inc : bool) : tok := KPunct (if inc then 7 else 9).
Definition inc_code (inc : bool) : Z := if inc then EXPR_INC else EXPR_DEC.
Definition log_tok (conj : bool) : tok := KPunct (if conj then 24 else 23).
Definition log_code (conj : bool) : Z := if conj then COND_AND else COND_OR.

Fixpoint term_toks (t : term) : list tok :=
  match t with
  | TNumber ds => [KNumber ds]
  | TString q body => [KString q body]
  | TVar x => [KName x]
  | TIncr x inc => [KName x; inc_tok inc]
  | TCall0 f => [KName f; LPAREN; RPAREN]
  | TCall f a => KName f :: LPAREN :: args_toks a ++ [RPAREN]
  | TParen e => LPAREN :: expr_toks e ++ [RPAREN]
  end
with expr_toks (e : expr) : list tok :=
  match e with
  | EAssign x e => KName x :: ASSIGN :: expr_toks e
  | EStart t c => term_toks t ++ tail_toks c
  | EPrefix o t c => op_tok o :: term_toks t ++ tail_toks c
  end
with tail_toks (c : tail) : list tok :=
  match c with
  | CEnd => []
  | COp o t c => op_tok o :: term_toks t ++ tail_toks c
  | CLog j e => log_tok j :: expr_toks e
  end
with args_toks (a : arguments) : list tok :=
  match a with
  | AOne e => expr_toks e
  | AMore e a => expr_toks e ++ COMMA :: args_toks a
  end.

Definition simple_toks (m : simple) : list tok :=
  match m with MAssign x e => KName x :: ASSIGN :: expr_toks e | MTerm t => term_toks t end.

Definition decl_toks (x : list Z) (e : option expr) : list tok :=
  KName x :: match e with None => [] | Some e => ASSIGN :: expr_toks e end.

Fixpoint decls_toks (ds : decls) : list tok :=
  match ds with
  | DOne x e => decl_toks x e
  | DMore x e ds => decl_toks x e ++ COMMA :: decls_toks ds
  end.

Fixpoint stmt_toks (s : stmt) : list tok :=
  match s with
  | SEmpty => [SEMI]
  | SSimple m => simple_toks m ++ [SEMI]
  | SVar ds => KName (str "var") :: decls_toks ds ++ [SEMI]
  | SIf e s => KName (str "if") :: LPAREN :: expr_toks e ++ RPAREN :: stmt_toks s
  | SIfElse e s1 s2 =>
      KName (str "if") :: LPAREN :: expr_toks e ++ RPAREN :: stmt_toks s1 ++ KName (str "else") :: stmt_toks s2
  | SBlock ss => LBRACE :: stmts_toks ss ++ [RBRACE]
  | SFor x init cond inc body =>
      KName (str "for") :: LPAREN :: KName x :: ASSIGN :: expr_toks init ++ SEMI :: expr_toks cond ++
      SEMI :: simple_toks inc ++ RPAREN :: stmt_toks body
  | SReturn e => KName (str "return") :: expr_toks e ++ [SEMI]
  end
with stmts_toks (ss : stmts) : list tok :=
  match ss with SNil => [] | SCons s ss => stmt_toks s ++ stmts_toks ss end.

(** ** Well-formed trees

    Names are not reserved words; a statement does not start with a parenthesis; the
    statement before an [else] does not end in an [if] without [else]. *)
Definition plain_name (x : list Z) : Prop := keyword x = None.

Fixpoint term_wf (t : term) : Prop :=
  match t with
  | TNumber _ | TString _ _ => True
  | TVar x | TIncr x _ | TCall0 x => plain_name x
  | TCall f a => plain_name f /\ args_wf a
  | TParen e => expr_wf e
  end
with expr_wf (e : expr) : Prop :=
  match e with
  | EAssign x e => plain_name x /\ expr_wf e
  | EStart t c | EPrefix _ t c => term_wf t /\ tail_wf c
  end
with tail_wf (c : tail) : Prop :=
  match c with
  | CEnd => True
  | COp _ t c => term_wf t /\ tail_wf c
  | CLog _ e => expr_wf e
  end
with args_wf (a : arguments) : Prop :=
  match a with AOne e => expr_wf e | AMore e a => expr_wf e /\ args_wf a end.

Definition simple_wf (m : simple) : Prop :=
  match m with MAssign x e => plain_name x /\ expr_wf e | MTerm t => term_wf t end.

Definition no_paren (m : simple) : Prop :=
  match m with MTerm (TParen _) => False | _ => True end.

Definition decl_wf (x : list Z) (e : option expr) : Prop :=
  plain_name x /\ match e with None => True | Some e => expr_wf e end.

Fixpoint decls_wf (ds : decls) : Prop :=
  match ds with DOne x e => decl_wf x e | DMore x e ds => decl_wf x e /\ decls_wf ds end.

(** An [else] behind the statement would be its own. *)
Fixpoint open_if (s : stmt) : bool :=
  match s with
  | SIf _ _ => true
  | SIfElse _ _ s | SFor _ _ _ _ s => open_if s
  | _ => false
  end.

Fixpoint stmt_wf (s : stmt) : Prop :=
  match s with
  | SEmpty => True
  | SSimple m => simple_wf m /\ no_paren m
  | SVar ds => decls_wf ds
  | SIf e s => expr_wf e /\ stmt_wf s
  | SIfElse e s1 s2 => expr_wf e /\ stmt_wf s1 /\ open_if s1 = false /\ stmt_wf s2
  | SBlock ss => stmts_wf ss
  | SFor x init cond inc body =>
      plain_name x /\ expr_wf init /\ expr_wf cond /\ simple_wf inc /\ stmt_wf body
  | SReturn e => expr_wf e
  end
with stmts_wf (ss : stmts) : Prop :=
  match ss with SNil => True | SCons s ss => stmt_wf s /\ stmts_wf ss end.

(** ** Values

    A value is a string.  Two strings of digits are numbers to an operator; [None] when
    the operator is not defined on the operands or the computation overflows. *)
Definition evalop (l : list Z) (op : Z) (r : list Z) : option (list Z) :=
  if all_digits l && all_digits r then
    a ← gatoi l; b ← gatoi r; v ← eval_num a op b; v ← v; stritoa v 16
  else if op =? EXPR_PLUS then Some (l ++ r)
  else v ← eval_str l op r; stritoa v 16.

Definition evallog (conj : bool) (l r : list Z) : option (list Z) :=
  if isdigit (first_char l) && isdigit (first_char r) then
    a ← gatoi l; b ← gatoi r;
    Some (if (if conj then negb (a =? 0) && negb (b =? 0) else negb (a =? 0) || negb (b =? 0))
          then [49] else [48])
  else None.

(** ** Meaning *)

(** The open symbol tables, and [ep->result]. *)
Record est : Type := mkEst { env : gmap Z (gmap (list Z) value_t); res : list Z }.

Definition str_value (s : cptr) : value_t :=
  match s with
  | Some s => mkValue (VString (Some s)) string_ 1 1
  | None => mkValue (VString None) string_ 1 0
  end.

Section Meaning.
(** The tables: of the current block, of the global variables, of the functions; [nblocks]
    counts the variable tables, so that 1 means that there is no block. *)
Context (top glob funs nblocks : Z).
(** A host function: its address, the arguments, the state before and after. *)
Context (host : Z -> list (list Z) -> est -> est -> Prop).

Definition var_at (σ : est) (h : Z) (x : list Z) : option value_t := t ← env σ !! h; t !! x.

(** The block a variable is in, and its value; -1 when there is none. *)
Definition find_var (σ : est) (x : list Z) : option (Z * cptr) :=
  match var_at σ top x with
  | Some v => s ← string_content v; Some (nblocks - 1, s)
  | None =>
      match var_at σ glob x with
      | Some v => s ← string_content v; Some (0, s)
      | None => Some (-1, None)
      end
  end.

Definition set_at (h : Z) (x : list Z) (s : cptr) (σ : est) : est :=
  mkEst (partial_alter (fun t => Some (<[x := str_value s]> (default ∅ t))) h (env σ)) (res σ).

(** A variable of the block is assigned there, all others globally. *)
Definition assign (i : Z) (x s : list Z) (σ : est) : est :=
  set_at (if 0 <? i then top else glob) x (Some s) σ.

Definition result (s : list Z) (σ : est) : est := mkEst (env σ) s.

Definition fun_at (σ : est) (f : list Z) : option Z := v ← var_at σ funs f; function_content v.

Inductive ev_term : bool -> est -> term -> est -> Prop :=
| T_number b σ ds : ev_term b σ (TNumber ds) (result ds σ)
| T_string b σ q body : ev_term b σ (TString q body) (result body σ)
| T_var σ x i v : find_var σ x = Some (i, v) -> 0 <= i ->
    ev_term true σ (TVar x) (result (default [] v) σ)
| T_var_skip σ x : ev_term false σ (TVar x) (result [] σ)
| T_incr σ x inc i v r : find_var σ x = Some (i, Some v) -> 0 <= i ->
    evalop v (inc_code inc) [49] = Some r ->
    ev_term true σ (TIncr x inc) (assign i x r (result r σ))
| T_incr_skip σ x inc : ev_term false σ (TIncr x inc) σ
| T_call0 σ f fn σ' : fun_at σ f = Some fn -> fn <> 0 -> host fn [[]] (result [] σ) σ' ->
    ev_term true σ (TCall0 f) σ'
| T_call0_skip σ f : ev_term false σ (TCall0 f) (result [] σ)
| T_call σ f a vs fn σ1 σ' : ev_args true (result [] σ) a vs σ1 ->
    fun_at σ1 f = Some fn -> fn <> 0 -> host fn vs σ1 σ' ->
    ev_term true σ (TCall f a) σ'
| T_call_skip σ f a vs σ1 : ev_args false (result [] σ) a vs σ1 -> ev_term false σ (TCall f a) σ1
| T_paren b σ e σ' : ev_expr b σ e σ' -> ev_term b σ (TParen e) σ'
with ev_expr : bool -> est -> expr -> est -> Prop :=
| E_assign σ x e σ1 i v : ev_expr true σ e σ1 -> find_var σ1 x = Some (i, v) ->
    ev_expr true σ (EAssign x e) (assign i x (res σ1) σ1)
| E_assign_skip σ x e σ1 : ev_expr false σ e σ1 -> ev_expr false σ (EAssign x e) σ1
| E_start b σ t c σ1 σ2 : ev_term b (result [] σ) t σ1 -> ev_tail b σ1 c σ2 ->
    ev_expr b σ (EStart t c) σ2
| E_prefix b σ o t c σ1 v σ2 : ev_term b (result [] σ) t σ1 -> evalop [] (op_code o) (res σ1) = Some v ->
    ev_tail b (result v σ1) c σ2 ->
    ev_expr b σ (EPrefix o t c) σ2
with ev_tail : bool -> est -> tail -> est -> Prop :=
| C_end b σ : ev_tail b σ CEnd σ
| C_op b σ o t c σ1 v σ2 : ev_term b σ t σ1 -> evalop (res σ) (op_code o) (res σ1) = Some v ->
    ev_tail b (result v σ1) c σ2 -> ev_tail b σ (COp o t c) σ2
| C_log b σ j e σ1 v : ev_expr b σ e σ1 -> evallog j (res σ) (res σ1) = Some v ->
    ev_tail b σ (CLog j e) (result v σ1)
with ev_args : bool -> est -> arguments -> list (list Z) -> est -> Prop :=
| A_one b σ e σ1 : ev_expr b σ e σ1 -> ev_args b σ (AOne e) [res σ1] σ1
| A_more b σ e a σ1 vs σ2 : ev_expr b σ e σ1 -> ev_args b σ1 a vs σ2 ->
    ev_args b σ (AMore e a) (res σ1 :: vs) σ2.

Inductive ev_simple : bool -> est -> simple -> est -> Prop :=
| M_assign b σ x e σ' : ev_expr b σ (EAssign x e) σ' -> ev_simple b σ (MAssign x e) σ'
| M_term b σ t σ' : ev_term b σ t σ' -> ev_simple b σ (MTerm t) σ'.

(** A declaration, executed or not; without a value the variable is null, and the result
    is the global value that it hides. *)
Inductive ev_decl : bool -> est -> list Z -> option expr -> est -> Prop :=
| D_assign σ x e σ1 : ev_expr true σ e σ1 ->
    ev_decl true σ x (Some e) (set_at top x (Some (res σ1)) σ1)
| D_assign_skip σ x e σ1 : ev_expr false σ e σ1 -> ev_decl false σ x (Some e) σ1
| D_null b σ x i v : find_var σ x = Some (i, v) -> i <= 0 -> (nblocks = 1 -> v = None) ->
    ev_decl b σ x None (result (default [] v) (set_at top x None σ)).

Inductive ev_decls : bool -> est -> decls -> est -> Prop :=
| D_one b σ x e σ' : ev_decl b σ x e σ' -> ev_decls b σ (DOne x e) σ'
| D_more b σ x e ds σ1 σ' : ev_decl b σ x e σ1 -> ev_decls b σ1 ds σ' -> ev_decls b σ (DMore x e ds) σ'.

(** The flag of an outcome: the script has returned. *)
Inductive exec : bool -> est -> stmt -> bool -> est -> Prop :=
| X_empty b σ : exec b σ SEmpty false σ
| X_simple b σ m σ' : ev_simple b σ m σ' -> exec b σ (SSimple m) false σ'
| X_var b σ ds σ' : ev_decls b σ ds σ' -> exec b σ (SVar ds) false σ'
| X_if b σ e s σ1 o σ2 : ev_expr b σ e σ1 ->
    exec (b && (first_char (res σ1) =? 49)) σ1 s o σ2 -> exec b σ (SIf e s) o σ2
| X_if_ret b σ e s1 s2 σ1 σ2 : ev_expr b σ e σ1 ->
    exec (b && (first_char (res σ1) =? 49)) σ1 s1 true σ2 -> exec b σ (SIfElse e s1 s2) true σ2
| X_if_else b σ e s1 s2 σ1 σ2 o σ3 : ev_expr b σ e σ1 ->
    exec (b && (first_char (res σ1) =? 49)) σ1 s1 false σ2 ->
    exec (b && negb (first_char (res σ1) =? 49)) σ2 s2 o σ3 -> exec b σ (SIfElse e s1 s2) o σ3
| X_block b σ ss o σ' : exec_list b σ ss o σ' -> exec b σ (SBlock ss) o σ'
| X_for b σ x init cond inc body σ1 σ2 σ3 σ4 o σ5 :
    ev_simple b σ (MAssign x init) σ1 -> ev_expr b σ1 cond σ2 ->
    ev_simple false σ2 inc σ3 -> exec false σ3 body false σ4 ->
    loop b (negb (first_char (res σ2) =? 48)) σ4 cond inc body o σ5 ->
    exec b σ (SFor x init cond inc body) o σ5
| X_return σ e σ' : ev_expr true σ e σ' -> exec true σ (SReturn e) true σ'
| X_return_skip σ e σ' : ev_expr false σ e σ' -> exec false σ (SReturn e) false σ'
with exec_list : bool -> est -> stmts -> bool -> est -> Prop :=
| X_nil b σ : exec_list b σ SNil false σ
| X_stop b σ s ss σ' : exec b σ s true σ' -> exec_list b σ (SCons s ss) true σ'
| X_cons b σ s ss σ1 o σ' : exec b σ s false σ1 -> exec_list b σ1 ss o σ' -> exec_list b σ (SCons s ss) o σ'
with loop : bool -> bool -> est -> expr -> simple -> stmt -> bool -> est -> Prop :=
| L_end b c σ cond inc body : b && c = false -> loop b c σ cond inc body false σ
| L_stop σ cond inc body σ1 : exec true σ body true σ1 -> loop true true σ cond inc body true σ1
| L_round σ cond inc body σ1 σ2 σ3 o σ4 :
    exec true σ body false σ1 -> ev_simple true σ1 inc σ2 -> ev_expr true σ2 cond σ3 ->
    loop true (negb (first_char (res σ3) =? 48)) σ3 cond inc body o σ4 ->
    loop true true σ cond inc body o σ4.
End Meaning.

Scheme ev_term_mind := Minimality for ev_term Sort Prop
  with ev_expr_mind := Minimality for ev_expr Sort Prop
  with ev_tail_mind := Minimality for ev_tail Sort Prop
  with ev_args_mind := Minimality for ev_args Sort Prop.
Combined Scheme ev_mutind from ev_term_mind, ev_expr_mind, ev_tail_mind, ev_args_mind.

Scheme exec_mind := Minimality for exec Sort Prop
  with exec_list_mind := Minimality for exec_list Sort Prop
  with loop_mind := Minimality for loop Sort Prop.
Combined Scheme exec_mutind from exec_mind, exec_list_mind, loop_mind.
