(* ===== verification/EjEngine.v ===== *)
(** * The engine while it parses

    Rules for the steps of the parser: an invariant ties an engine in memory to an
    abstract state (the symbol tables and the result) and to the input it reads, and each
    call of the analyser, of the symbol tables and of the evaluation has a rule that says
    how it moves the three. *)

From stdpp Require Import gmap.
From S2P Require Import Prelude CString Fmt Handles SymTab SymIface RingQ ByteQueue EjLex EjLexSpec EjRead EjParse EjAst.
#[local] Open Scope Z_scope.
#[local] Open Scope cint_scope.

Section Engine.
Context {Q : Type} `{ByteQueueLaws Q} {Y : Type} `{SymbolsLaws Y}.
Context (lw : Z) (balloc : Z -> option (list Z)) (brealloc : list Z -> Z -> option (list Z)).
Hypothesis lw_ok : lw = 32 \/ lw = 64.
Hypothesis balloc_ok : forall n, 0 < n -> exists b, balloc n = Some b /\ zlen b = n.
Hypothesis brealloc_ok : forall b n, zlen b <= n -> exists b', brealloc b n = Some b' /\
  zlen b' = n /\ take (length b) b' = b.
Context (bstrdup : list Z -> option (list Z)).
Hypothesis bstrdup_ok : forall s, bstrdup s = Some s.

(** The script, the engine, its handle, and its tables. *)
Context (text : list Z) (cap tokcap : Z).
Context (ep eid uh : Z) (vs : handle_map) (top glob funs nblocks : Z).
Hypothesis ep_ok : ep <> 0.
Hypothesis top_ok : hread vs (nblocks - 1) = Some (top + EJ_OFFSET).
Hypothesis glob_ok : hread vs 0 = Some (glob + EJ_OFFSET).
Hypothesis nblocks_ok : 1 <= nblocks.

Notation world := (world (Q := Q) (Y := Y)).
Notation PM := (PM (Q := Q) (Y := Y)).
Notation ejinput := (ejinput (Q := Q)).
Notation clean := (clean text cap tokcap).
Notation put_back := (put_back text cap tokcap).
Notation upcoming := (upcoming text cap tokcap).
Notation find_var := (find_var top glob nblocks).

(** ** Running a computation *)

(** [m] returns from [w], with a result and a world that satisfy [P]. *)
Definition run {A} (m : PM A) (w : world) (P : A -> world -> Prop) : Prop :=
  exists x w', m w = Some (x, w') /\ P x w'.

Lemma run_ret {A} (x : A) w (P : A -> world -> Prop) : P x w -> run (mret x) w P.
Proof. intros HP. by exists x, w. Qed.

Lemma run_bind {A B} (m : PM A) (k : A -> PM B) w P :
  run m w (fun x w' => run (k x) w' P) -> run (mbind k m) w P.
Proof.
  intros (x & w' & E & y & w'' & E' & HP). exists y, w''. split; [|done].
  unfold mbind, PM_bind. by rewrite E.
Qed.

Lemma run_mono {A} (m : PM A) w (P P' : A -> world -> Prop) :
  run m w P -> (forall x w', P x w' -> P' x w') -> run m w P'.
Proof. intros (x & w' & E & HP) Hi. exists x, w'. auto. Qed.

Lemma run_lift {A} (o : option A) x w (P : A -> world -> Prop) : o = Some x -> P x w -> run (plift o) w P.
Proof. intros -> HP. by exists x, w. Qed.

(** ** The invariant *)

Record engine_is (e : ej_t (Q := Q)) (f : func_ptr) (σ : est) (ip : ejinput) (tk : option (list Z)) : Prop := {
  en_input : ep_input e = Some ip;
  en_func : ep_func e = f;
  en_result : ep_result e = Some (res σ);
  en_eid : ep_eid e = eid;
  en_user : ep_userHandle e = uh;
  en_variables : ep_variables e = vs;
  en_variableMax : ep_variableMax e = nblocks;
  en_functions : ep_functions e = funs;
  (** the text of [ep->token], when it is known *)
  en_token : match tk with
             | None => True
             | Some t => token_str (mkEj ip (ep_error e) (ep_token e) (ep_tid e)) = Some t
             end
}.

Record Inv (f : func_ptr) (σ : est) (ip : ejinput) (tk : option (list Z)) (w : world) : Prop := {
  inv_engine : exists e, engines w !! ep = Some e /\ engine_is e f σ ip tk;
  inv_handle : 0 <= eid < ejMax w /\ hread (ejHandles w) eid = Some ep;
  inv_syms : sy_rep (symbols w) (env σ);
  inv_open : is_Some (env σ !! top) /\ is_Some (env σ !! glob) /\ is_Some (env σ !! funs)
}.

Lemma inv_forget f σ ip tk w : Inv f σ ip tk w -> Inv f σ ip None w.
Proof.
  intros [(e & He & []) ? ? ?]. split; try done. exists e. split; [done|]. by split.
Qed.

(** *** The fields of the engine *)

Lemma run_ep_get {A} (field : ej_t -> A) f σ ip tk w (P : A -> world -> Prop) :
  Inv f σ ip tk w -> (forall e, engine_is e f σ ip tk -> P (field e) w) -> run (ep_get ep field) w P.
Proof.
  intros [(e & He & Hi) _ _ _] HP. exists (field e), w. unfold ep_get. rewrite He. split; [done|]. by apply HP.
Qed.

Lemma run_result f σ ip tk w (P : cptr -> world -> Prop) :
  Inv f σ ip tk w -> P (Some (res σ)) w -> run (ep_get ep ep_result) w P.
Proof. intros Hi HP. eapply run_ep_get; [done|]. intros e He. by rewrite (en_result _ _ _ _ _ He). Qed.

Lemma run_eid f σ ip tk w (P : Z -> world -> Prop) :
  Inv f σ ip tk w -> P eid w -> run (ep_get ep ep_eid) w P.
Proof. intros Hi HP. eapply run_ep_get; [done|]. intros e He. by rewrite (en_eid _ _ _ _ _ He). Qed.

Lemma run_func f σ ip tk w (P : func_ptr -> world -> Prop) :
  Inv f σ ip tk w -> P f w -> run (ep_get ep ep_func) w P.
Proof. intros Hi HP. eapply run_ep_get; [done|]. intros e He. by rewrite (en_func _ _ _ _ _ He). Qed.

Lemma run_variableMax f σ ip tk w (P : Z -> world -> Prop) :
  Inv f σ ip tk w -> P nblocks w -> run (ep_get ep ep_variableMax) w P.
Proof. intros Hi HP. eapply run_ep_get; [done|]. intros e He. by rewrite (en_variableMax _ _ _ _ _ He). Qed.

Lemma run_ep_set (g : ej_t -> ej_t) f f' σ σ' ip tk w (P : unit -> world -> Prop) :
  Inv f σ ip tk w -> env σ' = env σ -> (forall e, engine_is e f σ ip tk -> engine_is (g e) f' σ' ip tk) ->
  (forall w', Inv f' σ' ip tk w' -> P tt w') -> run (ep_set ep g) w P.
Proof.
  intros [(e & He & Hi) Hh Hs Ho] Henv Hg HP.
  exists tt, (w <| engines := <[ep := g e]> (engines w) |>). unfold ep_set. rewrite He. split; [done|].
  apply HP. destruct w as [hs mx es sy]; cbn in *. split; cbn; try done; [|by rewrite Henv..].
  exists (g e). split; [by rewrite lookup_insert_eq|]. by apply Hg.
Qed.

Lemma run_set_result s f σ ip tk w (P : unit -> world -> Prop) :
  Inv f σ ip tk w -> (forall w', Inv f (result (default [] s) σ) ip tk w' -> P tt w') ->
  run (set_result bstrdup ep s) w P.
Proof.
  intros Hi HP. eapply run_ep_set; [exact Hi| | |exact HP]; [by destruct σ|].
  intros e []. destruct e, σ; cbn in *. split; cbn; try done.
  unfold setString, bstrdup_ptr. by rewrite bstrdup_ok.
Qed.

Lemma run_set_func g f σ ip tk w (P : unit -> world -> Prop) :
  Inv f σ ip tk w -> (forall w', Inv g σ ip tk w' -> P tt w') -> run (set_func ep g) w P.
Proof.
  intros Hi HP. eapply run_ep_set; [exact Hi|done| |exact HP]. intros e []. destruct e; cbn in *. by split.
Qed.

Lemma run_ejPtr f σ ip tk w (P : Z -> world -> Prop) : Inv f σ ip tk w -> P ep w -> run (ejPtr eid) w P.
Proof.
  intros [_ [Hm Hh] _ _] HP. exists ep, w. split; [|done]. unfold ejPtr.
  replace ((eid <? 0) || (ejMax w <=? eid)) with false by lia. rewrite Hh. cbn.
  by replace (ep =? 0) with false by zb.
Qed.

(** *** Variables and functions *)

Lemma run_variable_table i h f σ ip tk w (P : Z -> world -> Prop) :
  Inv f σ ip tk w -> hread vs i = Some (h + EJ_OFFSET) -> P h w -> run (variable_table ep i) w P.
Proof.
  intros Hi Hr HP. unfold variable_table. apply run_bind. eapply run_ep_get; [done|]. intros e He.
  rewrite (en_variables _ _ _ _ _ He). apply run_bind. eapply run_lift; [done|]. apply run_ret.
  by rewrite Z.add_simpl_r.
Qed.

Lemma run_sym_look h nm f σ ip tk w (P : option value_t -> world -> Prop) :
  Inv f σ ip tk w -> is_Some (env σ !! h) -> nm <> [] -> P (var_at σ h nm) w ->
  run (sym_look h nm) w P.
Proof.
  intros [_ _ Hs _] [t Ht] Hnm HP. exists (t !! nm), w. unfold sym_look.
  rewrite (sy_lookup_ok _ _ _ _ _ Hs Ht Hnm). split; [done|]. unfold var_at in HP. by rewrite Ht in HP.
Qed.

Lemma run_getvar x i v f σ ip tk w (P : Z * cptr -> world -> Prop) :
  Inv f σ ip tk w -> x <> [] -> find_var σ x = Some (i, v) -> P (i, v) w ->
  run (ejGetVar eid (Some x)) w P.
Proof.
  intros Hi Hx Hf HP. pose proof (inv_open _ _ _ _ _ Hi) as (Ht & Hg & _). unfold ejGetVar, EjAst.find_var in *.
  apply run_bind. eapply run_ejPtr; [done|]. apply run_bind. eapply run_lift; [done|].
  apply run_bind. eapply run_variableMax; [done|].
  apply run_bind. eapply run_variable_table; [done..|]. apply run_bind. eapply run_sym_look; [done..|].
  destruct (var_at σ top x) as [v0|].
  - apply bind_Some in Hf as (s & Hs & [= <- <-]). apply run_bind. eapply run_lift; [done|]. by apply run_ret.
  - apply run_bind. eapply run_variable_table; [done..|]. apply run_bind. eapply run_sym_look; [done..|].
    destruct (var_at σ glob x) as [v0|].
    + apply bind_Some in Hf as (s & Hs & [= <- <-]). apply run_bind. eapply run_lift; [done|]. by apply run_ret.
    + injection Hf as <- <-. by apply run_ret.
Qed.

Lemma variable_value_str s : variable_value bstrdup s = str_value s.
Proof. destruct s; [|done]. unfold variable_value, valueString, str_value. by rewrite bstrdup_ok. Qed.

Lemma run_set_in i h x s f σ ip tk w (P : unit -> world -> Prop) :
  Inv f σ ip tk w -> hread vs i = Some (h + EJ_OFFSET) -> is_Some (env σ !! h) -> x <> [] ->
  (forall w', Inv f (set_at h x s σ) ip tk w' -> P tt w') -> run (set_in bstrdup ep i (Some x) s) w P.
Proof.
  intros Hi Hr [t Ht] Hx HP. unfold set_in. apply run_bind. eapply run_variable_table; [done..|].
  apply run_bind. eapply run_lift; [done|]. rewrite variable_value_str.
  destruct (sy_enter_ok _ _ _ _ x (str_value s) 0 (inv_syms _ _ _ _ _ Hi) Ht Hx) as (sp & y' & E & _ & Hy).
  apply run_bind. exists sp, (w <| symbols := y' |>). unfold sym_call. rewrite E. split; [done|].
  apply run_ret, HP. destruct Hi as [(e & He & Hi) Hh Hs (Ho1 & Ho2 & Ho3)]. destruct w as [hs mx es sy]; cbn in *.
  assert (Henv : env (set_at h x s σ) = <[h := <[x := str_value s]> t]> (env σ)).
  { destruct σ as [en rs]; cbn in *. apply map_eq. intros j.
    destruct (decide (j = h)) as [->|Hj];
      [rewrite lookup_partial_alter_eq, lookup_insert_eq, Ht; done|by rewrite lookup_partial_alter_ne, lookup_insert_ne]. }
  split; cbn [engines ejMax ejHandles symbols]; [|done|by rewrite Henv|].
  - exists e. split; [done|]. destruct Hi. by destruct σ; split.
  - rewrite Henv.
    assert (Hins : forall j, is_Some (env σ !! j) -> is_Some (<[h := <[x := str_value s]> t]> (env σ) !! j)).
    { intros j Hj. destruct (decide (j = h)) as [->|]; [rewrite lookup_insert_eq; eauto|by rewrite lookup_insert_ne]. }
    auto.
Qed.

Lemma run_set_local x s f σ ip tk w (P : unit -> world -> Prop) :
  Inv f σ ip tk w -> x <> [] -> (forall w', Inv f (set_at top x s σ) ip tk w' -> P tt w') ->
  run (ejSetLocalVar bstrdup eid (Some x) s) w P.
Proof.
  intros Hi Hx HP. unfold ejSetLocalVar. apply run_bind. eapply run_ejPtr; [done|]. apply run_bind.
  eapply run_variableMax; [done|]. eapply run_set_in; [done..| |done|done].
  by destruct (inv_open _ _ _ _ _ Hi) as (? & _).
Qed.

Lemma run_set_global x s f σ ip tk w (P : unit -> world -> Prop) :
  Inv f σ ip tk w -> x <> [] -> (forall w', Inv f (set_at glob x s σ) ip tk w' -> P tt w') ->
  run (ejSetGlobalVar bstrdup eid (Some x) s) w P.
Proof.
  intros Hi Hx HP. unfold ejSetGlobalVar. apply run_bind. eapply run_ejPtr; [done|].
  eapply run_set_in; [done..| |done|done]. by destruct (inv_open _ _ _ _ _ Hi) as (_ & ? & _).
Qed.

(** An assignment goes where the variable was found. *)
Lemma run_assign i x s f σ ip tk w (P : unit -> world -> Prop) :
  Inv f σ ip tk w -> x <> [] -> (forall w', Inv f (assign top glob i x s σ) ip tk w' -> P tt w') ->
  run (if 0 <? i then ejSetLocalVar bstrdup eid (Some x) (Some s) else ejSetGlobalVar bstrdup eid (Some x) (Some s)) w P.
Proof.
  intros Hi Hx HP. unfold assign in HP. destruct (0 <? i); [by eapply run_set_local|by eapply run_set_global].
Qed.

(** *** Tokens *)

Definition token_is (l : ej (Q := Q)) (tk : option (list Z)) : Prop :=
  match tk with None => True | Some t => token_str l = Some t end.

Lemma run_lex {A} (m : LM (Q := Q) A) f σ ip tk w (P : A -> world -> Prop) :
  Inv f σ ip tk w ->
  (forall l, input l = ip -> token_is l tk -> exists x l' tk', m l = Some (x, l') /\ token_is l' tk' /\
     forall w', Inv f σ (input l') tk' w' -> P x w') ->
  run (lex ep m) w P.
Proof.
  intros [(e & He & Hi) Hh Hs Ho] Hm.
  destruct (Hm (mkEj ip (ep_error e) (ep_token e) (ep_tid e)) eq_refl (en_token _ _ _ _ _ Hi))
    as (x & l' & tk' & E & Ht & HP).
  eexists x, _. split.
  - unfold lex. rewrite He. cbn. rewrite (en_input _ _ _ _ _ Hi). cbn. rewrite E. cbn. reflexivity.
  - apply HP. destruct w as [hs mx es sy]; cbn in *. split; cbn; try done.
    eexists. split; [by rewrite lookup_insert_eq|]. destruct Hi, e, l' as [ip' er' tk'' td']; cbn in *.
    by split.
Qed.

Notation get state := (lex ep (ejLexGetToken lw balloc brealloc state)).
Notation token_text := (lex ep get_token).
Notation putback := (putback bstrdup ep).

Lemma run_get b state ts f σ ip tk w (P : Z -> world -> Prop) :
  Inv f σ ip tk w -> upcoming b ip ts -> agrees state ts ->
  (forall ip' w', Inv f σ ip' (Some (hd_text ts)) w' -> clean b ip' (tl ts) -> P (hd_id ts) w') ->
  run (get state) w P.
Proof using lw_ok balloc_ok brealloc_ok bstrdup_ok.
  intros Hi Hu Ha HP. eapply run_lex; [done|]. intros l <- _.
  destruct (get_upcoming lw balloc brealloc lw_ok balloc_ok brealloc_ok bstrdup bstrdup_ok _ _ _ b state l ts Hu Ha)
    as (l' & E & Ht & Hc).
  eexists _, l', (Some (hd_text ts)). split_and!; [exact E|exact Ht|]. intros w' Hi'. by eapply HP.
Qed.

Lemma run_token_text t f σ ip w (P : list Z -> world -> Prop) :
  Inv f σ ip (Some t) w -> (forall w', Inv f σ ip (Some t) w' -> P t w') -> run token_text w P.
Proof.
  intros Hi HP. eapply run_lex; [done|]. intros l <- Ht. exists t, l, (Some t).
  split_and!; [|done|done]. unfold get_token. by rewrite Ht.
Qed.

Lemma run_putback b ts f σ ip w (P : unit -> world -> Prop) :
  Inv f σ ip (Some (hd_text ts)) w -> clean b ip (tl ts) -> script_valid ts ->
  (forall ip' w', Inv f σ ip' None w' -> put_back ip' ts -> P tt w') -> run (putback (hd_id ts)) w P.
Proof using bstrdup_ok.
  intros Hi Hc Hv HP. unfold EjParse.putback. apply run_bind. eapply run_token_text; [done|].
  intros w' Hi'. eapply run_lex; [done|]. intros l <- Ht.
  destruct (putback_clean bstrdup bstrdup_ok _ _ _ b l ts Hv Hc) as (l' & E & Hp & _).
  exists tt, l', None. split_and!; [exact E|done|]. intros w'' Hi''. by eapply HP.
Qed.

(** A token put back under another id: the parser only does so for operators. *)
Lemma run_save b ts f σ ip tk w (P : ejinput -> world -> Prop) :
  Inv f σ ip tk w -> upcoming b ip ts ->
  (forall st w', Inv f σ ip tk w' -> upcoming b st ts -> P st w') -> run (save_input bstrdup ep) w P.
Proof using bstrdup_ok.
  intros Hi Hu HP. unfold save_input. eapply run_lex; [done|]. intros l <- Ht.
  destruct (save_upcoming bstrdup bstrdup_ok _ _ _ b l ts Hu) as (st & E & Hst).
  exists st, l, tk. split_and!; [exact E|done|]. intros w' Hi'. by apply HP.
Qed.

Lemma run_restore ts' st ts f σ ip tk w (P : unit -> world -> Prop) :
  Inv f σ ip tk w -> upcoming true ip ts' -> upcoming true st ts ->
  (forall ip' w', Inv f σ ip' None w' -> upcoming true ip' ts -> P tt w') ->
  run (restore_input bstrdup ep st) w P.
Proof using bstrdup_ok.
  intros Hi Hu Hst HP. unfold restore_input. eapply run_lex; [done|]. intros l <- Ht.
  destruct (restore_upcoming bstrdup bstrdup_ok _ _ _ l ts' st ts Hu Hst) as (l' & E & Hu').
  exists tt, l', None. split_and!; [exact E|done|]. intros w' Hi'. by eapply HP.
Qed.

(** *** Operators *)

Notation evalExpr := (evalExpr lw balloc brealloc bstrdup ep).
Notation evalCond := (evalCond lw balloc brealloc bstrdup ep).

Lemma run_evalExpr l op r v f σ ip tk w (P : Z -> world -> Prop) :
  Inv f σ ip tk w -> evalop l op r = Some v ->
  (forall w', Inv f (result v σ) ip tk w' -> P 0 w') -> run (evalExpr (Some l) op (Some r)) w P.
Proof using bstrdup_ok brealloc_ok.
  intros Hi Hv HP. unfold EjParse.evalExpr. apply run_bind. eapply run_lift; [done|]. apply run_bind.
  unfold evalop in Hv.
  assert (Hnum : run (if all_digits l then (r' ← plift (Some r); mret (all_digits r')) else mret false) w
    (fun num w' => num = all_digits l && all_digits r /\ w' = w)).
  { destruct (all_digits l); [|by apply run_ret]. apply run_bind. eapply run_lift; [done|]. by apply run_ret. }
  eapply run_mono; [exact Hnum|]. intros num w' [-> ->]. clear Hnum.
  destruct (all_digits l && all_digits r).
  - apply run_bind. eapply run_lift; [done|].
    apply bind_Some in Hv as (a & Ea & Hv). apply bind_Some in Hv as (c & Ec & Hv).
    apply bind_Some in Hv as (o & Eo & Hv). apply bind_Some in Hv as (z & -> & Ez).
    apply run_bind. eapply run_lift; [done|]. apply run_bind. eapply run_lift; [done|].
    apply run_bind. eapply run_lift; [done|]. apply run_bind. eapply run_lift; [done|].
    apply run_bind. eapply run_set_result; [done|]. intros w' Hi'. by apply run_ret, HP.
  - destruct (op =? EXPR_PLUS) eqn:Eop.
    + injection Hv as <-. apply run_bind. eapply run_lift; [done|]. apply run_bind.
      destruct (brealloc_ok (l ++ [0]) (zlen r + zlen l + 1)) as (b' & Eb & _); [rewrite length_app; cbn; lia|].
      eapply run_lift.
      { unfold appendString, setString, bstrdup_ptr. cbn. rewrite bstrdup_ok, Eb. done. }
      apply run_bind. eapply run_ep_set; [exact Hi| | |].
      * instantiate (1 := result (l ++ r) σ). by destruct σ.
      * intros e []. destruct e, σ; cbn in *. by split.
      * intros w' Hi'. by apply run_ret, HP.
    + apply bind_Some in Hv as (z & Ez & Hst).
      assert ((op =? EXPR_LESS) || (op =? EXPR_LESSEQ) || (op =? EXPR_GREATER) ||
              (op =? EXPR_GREATEREQ) || (op =? EXPR_EQ) || (op =? EXPR_NOTEQ) = true) as ->.
      { revert Ez. unfold eval_str. destruct (op =? EXPR_LESS), (op =? EXPR_LESSEQ), (op =? EXPR_GREATER),
          (op =? EXPR_GREATEREQ), (op =? EXPR_EQ), (op =? EXPR_NOTEQ); done. }
      apply run_bind. eapply run_lift; [done|]. apply run_bind. eapply run_lift; [done|].
      apply run_bind. eapply run_lift; [done|]. apply run_bind. eapply run_set_result; [done|].
      intros w' Hi'. by apply run_ret, HP.
Qed.

Lemma stritoa_bool b : stritoa (bool_int b) 16 = Some (if b then [49] else [48]).
Proof. by destruct b. Qed.

Lemma run_evalCond conj l r v f σ ip tk w (P : Z -> world -> Prop) :
  Inv f σ ip tk w -> evallog conj l r = Some v ->
  (forall w', Inv f (result v σ) ip tk w' -> P 0 w') -> run (evalCond (Some l) (log_code conj) (Some r)) w P.
Proof using bstrdup_ok.
  intros Hi Hv HP. unfold EjParse.evalCond. apply run_bind. eapply run_lift; [done|].
  unfold evallog in Hv. destruct (isdigit (first_char l)); [|done]. cbn [andb] in Hv.
  apply run_bind, run_bind. eapply run_lift; [done|]. apply run_ret.
  destruct (isdigit (first_char r)); [|done].
  apply bind_Some in Hv as (a & Ea & Hv). apply bind_Some in Hv as (c & Ec & [= <-]).
  apply run_bind, run_bind. eapply run_lift; [done|]. apply run_bind. eapply run_lift; [done|].
  apply run_bind. eapply run_lift; [done|].
  destruct conj; cbn [log_code]; change (COND_AND =? COND_AND) with true;
    change (COND_OR =? COND_AND) with false; change (COND_OR =? COND_OR) with true; cbn iota; apply run_ret;
    apply run_bind; (eapply run_lift; [apply stritoa_bool|]);
    apply run_bind; (eapply run_set_result; [done|]); intros w' Hi'; by apply run_ret, HP.
Qed.
End Engine.
