(* ===== verification/EjExprSpec.v ===== *)
(** * Expressions are evaluated as they mean

    The parser, at an expression that is written in the script, returns and leaves the
    state that the meaning of [EjAst] gives, for every expression that has a meaning, in
    code that is executed and in code that is not. *)

From stdpp Require Import gmap.
From S2P Require Import Prelude CString Fmt Handles SymTab SymIface RingQ ByteQueue EjLex EjLexSpec EjRead EjParse EjAst EjEngine.
#[local] Open Scope Z_scope.
#[local] Open Scope cint_scope.

Definition fl (b : bool) : Z := if b then FLAGS_EXE else 0.

Lemma exe_fl b : exe (fl b) = b.
Proof. by destruct b. Qed.

Lemma no_exe_fl b : no_exe (fl b) = fl false.
Proof. by destruct b. Qed.

(** What may follow an expression. *)
Definition stops (ts : list tok) : Prop := exists ts', ts = SEMI :: ts' \/ ts = RPAREN :: ts' \/ ts = COMMA :: ts'.

(** What may follow a term: no parenthesis, no assignment, no increment. *)
Definition term_follow (ts : list tok) : Prop :=
  exists i ts', ts = KPunct i :: ts' /\ i <> 0%nat /\ i <> 7%nat /\ i <> 9%nat /\ i <> 19%nat.

Lemma stops_follow ts : stops ts -> term_follow ts.
Proof. intros (ts' & [-> |[-> | ->]]); eexists _, ts'; split; try reflexivity; done. Qed.

Lemma op_follow o ts : term_follow (op_tok o :: ts).
Proof. eexists _, ts. split; [reflexivity|]. by destruct o. Qed.

Lemma log_follow j ts : term_follow (log_tok j :: ts).
Proof. eexists _, ts. split; [reflexivity|]. by destruct j. Qed.

Lemma tail_follow c ts : stops ts -> term_follow (tail_toks c ++ ts).
Proof. destruct c; cbn; intros; [by apply stops_follow|apply op_follow|apply log_follow]. Qed.

Lemma follow_agrees st ts : term_follow ts -> agrees st ts.
Proof. by intros (i & ts' & -> & _). Qed.

Lemma stops_agrees st ts : stops ts -> agrees st ts.
Proof. intros Hs. by apply follow_agrees, stops_follow. Qed.

Lemma follow_id ts : script_valid ts -> term_follow ts ->
  (hd_id ts =? TOK_ASSIGNMENT) = false /\ (hd_id ts =? TOK_INC_DEC) = false.
Proof.
  intros Hv (i & ts' & -> & H0 & H7 & H9 & H19). destruct Hv as (Hi & _). cbn [tok_valid] in Hi.
  do 25 (try (destruct i as [|i]; [try done; by vm_compute|])). cbn in Hi. lia.
Qed.

Lemma stops_id ts : stops ts ->
  (hd_id ts =? TOK_EXPR) = false /\ (hd_id ts =? TOK_INC_DEC) = false /\ (hd_id ts =? TOK_LOGICAL) = false.
Proof. by intros (ts' & [-> |[-> | ->]]). Qed.

Lemma op_id o ts : hd_id (op_tok o :: ts) = TOK_EXPR.
Proof. by destruct o. Qed.
Lemma log_id j ts : hd_id (log_tok j :: ts) = TOK_LOGICAL.
Proof. by destruct j. Qed.
Lemma inc_id inc ts : hd_id (inc_tok inc :: ts) = TOK_INC_DEC.
Proof. by destruct inc. Qed.
Lemma inc_text inc ts : first_char (hd_text (inc_tok inc :: ts)) = inc_code inc.
Proof. by destruct inc. Qed.
Lemma op_text o ts : first_char (hd_text (op_tok o :: ts)) = op_code o.
Proof. done. Qed.
Lemma log_text j ts : first_char (hd_text (log_tok j :: ts)) = log_code j.
Proof. by destruct j. Qed.
Lemma op_code_pos o : (0 <? op_code o) = true.
Proof. by destruct o. Qed.
Lemma log_code_pos j : (0 <? log_code j) = true.
Proof. by destruct j. Qed.

Lemma punct_paren i rest : (i < length puncts)%nat -> i <> 0%nat ->
  (first_char (print (KPunct i) ++ rest) =? 40) = false.
Proof.
  intros Hi H0. do 25 (try (destruct i as [|i]; [try done; by vm_compute|])). cbn in Hi. lia.
Qed.

Lemma name_id x ts : plain_name x -> script_valid ts -> term_follow ts \/ (exists i ts', ts = KPunct i :: ts' /\ i <> 0%nat) ->
  hd_id (KName x :: ts) = TOK_ID.
Proof.
  intros Hx Hv Hf. assert (exists i ts', ts = KPunct i :: ts' /\ i <> 0%nat) as (i & ts' & -> & Hi).
  { destruct Hf as [(i & ts' & -> & Hi & _)|Hf]; [by exists i, ts'|done]. }
  destruct Hv as (Hv & _). cbn [hd_id tok_tid]. unfold name_tid, plain_name in *. change (STATE_STMT =? STATE_STMT) with true.
  rewrite Hx, print_all_cons, punct_paren by done. done.
Qed.

Lemma call_id x ts : plain_name x -> hd_id (KName x :: LPAREN :: ts) = TOK_FUNCTION.
Proof.
  intros Hx. cbn [hd_id tok_tid]. unfold name_tid, plain_name in *. change (STATE_STMT =? STATE_STMT) with true.
  by rewrite Hx, print_all_cons.
Qed.

Lemma name_agrees st x ts : plain_name x -> agrees st (KName x :: ts).
Proof. intros Hx. by right. Qed.

Lemma name_nonempty x ts : script_valid (KName x :: ts) -> x <> [].
Proof. intros ((Hv & _) & _) ->. done. Qed.

(** The arguments collected in a frame. *)
Definition args_are (fr : ejfunc) (vs : list (list Z)) : Prop :=
  (exists k, args fr = map Some vs ++ repeat None k) /\ used fr = zlen vs /\ nArgs fr = zlen vs.

Lemma first_null_spec (vs : list (list Z)) k : first_null (map Some vs ++ repeat None (S k)) = Some (length vs).
Proof. induction vs as [|v vs IH]; [done|]. cbn in *. by rewrite IH. Qed.

Lemma add_arg_spec bstrdup args_room fr vs s :
  (forall s, bstrdup s = Some s) -> (forall n, args_room n = true) -> args_are fr vs ->
  exists fr', add_arg bstrdup args_room fr (Some s) = Some fr' /\ args_are fr' (vs ++ [s]) /\ fname fr' = fname fr.
Proof.
  intros Hd Hr ((k & Ea) & Hu & Hn).
  assert (exists k', args_alloc args_room fr =
    Some (length vs, mkFunc (fname fr) (map Some vs ++ repeat None (S k')) (zlen vs + 1) (nArgs fr))) as (k' & E).
  { unfold args_alloc. rewrite Hr, Hu, Ea, length_app, length_map, repeat_length. destruct fr as [nm ar us na]; cbn in *.
    destruct k as [|k].
    - rewrite Nat.add_0_r. replace (zlen vs <? zlen vs) with false by zb. exists 15%nat.
      cbn [repeat]. rewrite app_nil_r, ?length_map. unfold set_field; cbn. done.
    - replace (zlen vs <? Z.of_nat (length vs + S k)) with true by zb. exists k.
      change (None :: repeat None k) with (repeat (@None (list Z)) (S k)). rewrite first_null_spec.
      unfold set_field; cbn. by rewrite ?Ea, ?Hu. }
  unfold add_arg. rewrite E. cbn [mbind option_bind]. eexists. split; [done|]. split; [|done].
  unfold args_are, set_field; cbn. split_and!; [|rewrite length_app; cbn; lia..].
  exists k'. unfold setString, bstrdup_ptr. cbn [default from_option id]. rewrite Hd.
  rewrite insert_app_r_alt by (by rewrite length_map). rewrite length_map, Nat.sub_diag, map_app, <- app_assoc. done.
Qed.

Section Exprs.
Context {Q : Type} `{ByteQueueLaws Q} {Y : Type} `{SymbolsLaws Y}.
Context (lw : Z) (balloc : Z -> option (list Z)) (brealloc : list Z -> Z -> option (list Z)).
Hypothesis lw_ok : lw = 32 \/ lw = 64.
Hypothesis balloc_ok : forall n, 0 < n -> exists b, balloc n = Some b /\ zlen b = n.
Hypothesis brealloc_ok : forall b n, zlen b <= n -> exists b', brealloc b n = Some b' /\
  zlen b' = n /\ take (length b) b' = b.
Context (bstrdup : list Z -> option (list Z)).
Hypothesis bstrdup_ok : forall s, bstrdup s = Some s.
Context (args_room : Z -> bool).
Hypothesis args_room_ok : forall n, args_room n = true.

Context (text : list Z) (cap tokcap : Z).
Context (ep eid uh : Z) (vs : handle_map) (top glob funs nblocks : Z).
Hypothesis ep_ok : ep <> 0.
Hypothesis top_ok : hread vs (nblocks - 1) = Some (top + EJ_OFFSET).
Hypothesis glob_ok : hread vs 0 = Some (glob + EJ_OFFSET).
Hypothesis nblocks_ok : 1 <= nblocks.

Notation world := (world (Q := Q) (Y := Y)).
Notation PM := (PM (Q := Q) (Y := Y)).
Notation ejinput := (ejinput (Q := Q)).
Notation put_back := (put_back text cap tokcap).
Notation upcoming := (upcoming text cap tokcap).
Notation clean := (clean text cap tokcap).
Notation Inv := (Inv ep eid uh vs top glob funs nblocks).

(** The host functions do what [host] says, and leave the engine as it is otherwise. *)
Context (call_fn : Z -> Z -> Z -> Z -> list (option (list Z)) -> PM Z).
Context (host : Z -> list (list Z) -> est -> est -> Prop).
Hypothesis host_ok : forall fn args σ σ' f ip tk w k, host fn args σ σ' -> Inv f σ ip tk w ->
  run (call_fn fn eid uh (zlen args) (map Some args ++ repeat None k)) w
    (fun r w' => 0 <= r /\ Inv f σ' ip None w').

Notation parse := (parse lw balloc brealloc bstrdup args_room call_fn).
Notation rec n := (parse n ep).
Notation expr_loop n := (expr_loop lw balloc brealloc bstrdup ep (rec n)).
Notation args_loop n := (args_loop lw balloc brealloc bstrdup args_room ep (rec n)).
Notation stmt_loop n := (stmt_loop lw balloc brealloc bstrdup call_fn n ep (rec n)).
Notation stmt_case n := (stmt_case lw balloc brealloc bstrdup call_fn n ep (rec n)).
Notation parseStmt n := (parseStmt lw balloc brealloc bstrdup call_fn n ep (rec n)).
Notation run_get := (run_get lw balloc brealloc lw_ok balloc_ok brealloc_ok bstrdup bstrdup_ok text cap tokcap ep eid uh vs top glob funs nblocks).
Notation run_putback := (run_putback bstrdup bstrdup_ok text cap tokcap ep eid uh vs top glob funs nblocks).
Notation run_result := (run_result ep eid uh vs top glob funs nblocks).
Notation run_set_result := (run_set_result bstrdup bstrdup_ok ep eid uh vs top glob funs nblocks).
Notation run_token_text := (run_token_text ep eid uh vs top glob funs nblocks).
Notation run_eid := (run_eid ep eid uh vs top glob funs nblocks).

Notation ev_term := (ev_term top glob funs nblocks host).
Notation ev_expr := (ev_expr top glob funs nblocks host).
Notation ev_tail := (ev_tail top glob funs nblocks host).
Notation ev_args := (ev_args top glob funs nblocks host).
Notation find_var := (find_var top glob nblocks).

(** ** The recursive call *)

(** The tail of [parse] does nothing when there is no error. *)
Lemma run_parse_tail (m : PM Z) w (P : Z -> world -> Prop) :
  run m w (fun r w' => r <> STATE_ERR /\ P r w') ->
  run (state ← m;
       (if state =? STATE_ERR then
          e ← ep_get ep ep_error;
          match e with None => ejError lw balloc brealloc ep (str "Syntax error") [] | Some _ => mret () end
        else mret ());;
       mret state) w P.
Proof.
  intros Hm. apply run_bind. eapply run_mono; [exact Hm|]. intros r w' [Hr HP].
  replace (r =? STATE_ERR) with false by zb. apply run_bind, run_ret, run_ret. done.
Qed.

Lemma run_parse_stmt n st ok flags w (P : Z -> world -> Prop) :
  (st = STATE_STMT /\ ok = [STATE_STMT_DONE; STATE_EOF; STATE_STMT_BLOCK_DONE; STATE_RET] \/
   st = STATE_DEC /\ ok = [STATE_DEC_DONE; STATE_EOF] \/ st = STATE_EXPR /\ ok = [STATE_EXPR_DONE; STATE_EOF]) ->
  run (parseStmt n st flags) w (fun r w' => r ∈ ok /\ P r w') ->
  run (parse (S n) ep st flags) w P.
Proof.
  intros Hst Hm. cbn [EjParse.parse]. unfold parse_body. apply run_parse_tail.
  assert (Hok : Forall (fun r => r <> STATE_ERR) ok).
  { destruct Hst as [[-> ->]|[[-> ->]|[-> ->]]]; repeat constructor; done. }
  destruct Hst as [[-> ->]|[[-> ->]|[-> ->]]];
    (apply run_bind; eapply run_mono; [exact Hm|]; intros r w' [Hr HP]; apply run_ret;
     unfold only; rewrite bool_decide_true by done; split; [|done];
     rewrite List.Forall_forall in Hok; apply Hok; by apply list_elem_of_In).
Qed.

Lemma run_parse_expr n flags f σ ip tk w (P : Z -> world -> Prop) :
  Inv f σ ip tk w ->
  (forall w', Inv f (result [] σ) ip tk w' -> run (expr_loop n n flags 0 0 None) w' (fun r w' => r <> STATE_ERR /\ P r w')) ->
  run (parse (S n) ep STATE_RELEXP flags) w P.
Proof.
  intros Hi Hm. cbn [EjParse.parse]. unfold parse_body. apply run_parse_tail. cbn. unfold parseExpr.
  apply run_bind. eapply run_set_result; [done|]. cbn. exact Hm.
Qed.

Lemma run_parse_args n flags w (P : Z -> world -> Prop) :
  run (args_loop n n flags) w (fun r w' => r <> STATE_ERR /\ P r w') ->
  run (parse (S n) ep STATE_ARG_LIST flags) w P.
Proof. intros Hm. cbn [EjParse.parse]. unfold parse_body. by apply run_parse_tail. Qed.

(** ** What the pieces of the parser do *)

Definition is_paren (t : term) : bool := match t with TParen _ => true | _ => false end.

(** The loop of [parseStmt] after a term. *)
Definition term_outcome (st : Z) (o : outcome) : Prop :=
  o = Done st (st =? STATE_STMT) \/ st = STATE_EXPR /\ o = Return STATE_EXPR_DONE.

Definition term_parsed (b : bool) (σ : est) (t : term) (σ' : est) : Prop :=
  exists N, forall n k st f ip tk w ts pb (P : outcome -> world -> Prop), (N <= n)%nat ->
    st = STATE_EXPR \/ st = STATE_STMT /\ is_paren t = false ->
    Inv f σ ip tk w -> term_wf t -> term_follow ts -> upcoming pb ip (term_toks t ++ ts) ->
    (forall o ip' w', term_outcome st o -> Inv f σ' ip' None w' -> upcoming pb ip' ts -> P o w') ->
    run (stmt_loop n (S k) st (fl b)) w P.

(** Whatever the result was before. *)
Definition expr_parsed (b : bool) (σ : est) (e : expr) (σ' : est) : Prop :=
  exists N, forall n f σ0 ip tk w ts pb (P : Z -> world -> Prop), (N <= n)%nat -> env σ0 = env σ ->
    Inv f σ0 ip tk w -> expr_wf e -> stops ts -> upcoming pb ip (expr_toks e ++ ts) ->
    (forall ip' w', Inv f σ' ip' None w' -> put_back ip' ts -> P STATE_RELEXP_DONE w') ->
    run (parse n ep STATE_RELEXP (fl b)) w P.

(** What [parseExpr] does once it has a left operand. *)
Definition expr_rest (n fuel : nat) (flags state : Z) : PM Z :=
  s ← ep_get ep ep_result;
  let lhs := setString bstrdup s in
  tid ← lex ep (ejLexGetToken lw balloc brealloc state);
  if (tid =? TOK_EXPR) || (tid =? TOK_INC_DEC) || (tid =? TOK_LOGICAL) then
    t ← lex ep get_token;
    if state =? STATE_EXPR_DONE then expr_loop n fuel flags tid (first_char t) lhs
    else mret state
  else
    putback bstrdup ep tid;;
    mret STATE_RELEXP_DONE.

Definition tail_parsed (b : bool) (σ : est) (c : tail) (σ' : est) : Prop :=
  exists N, forall n k f ip tk w ts pb (P : Z -> world -> Prop), (N <= n)%nat -> (N <= k)%nat ->
    Inv f σ ip tk w -> tail_wf c -> stops ts -> upcoming pb ip (tail_toks c ++ ts) ->
    (forall ip' w', Inv f σ' ip' None w' -> put_back ip' ts -> P STATE_RELEXP_DONE w') ->
    run (expr_rest n k (fl b) STATE_EXPR_DONE) w P.

Definition args_parsed (b : bool) (σ : est) (a : arguments) (vs : list (list Z)) (σ' : est) : Prop :=
  exists N, forall n k fr vs0 ip tk w ts pb (P : Z -> world -> Prop), (N <= n)%nat -> (N <= k)%nat ->
    Inv (FFrame fr) σ ip tk w -> args_are fr vs0 -> args_wf a -> upcoming pb ip (args_toks a ++ RPAREN :: ts) ->
    (forall fr' ip' w', Inv (FFrame fr') σ' ip' None w' -> args_are fr' (vs0 ++ vs) -> fname fr' = fname fr ->
       put_back ip' (RPAREN :: ts) -> P STATE_ARG_LIST_DONE w') ->
    run (args_loop n k (fl b)) w P.

(** A term as an operand. *)
Lemma parse_term b σ t σ' : term_parsed b σ t σ' ->
  exists N, forall n f ip tk w ts pb (P : Z -> world -> Prop), (N <= n)%nat ->
    Inv f σ ip tk w -> term_wf t -> term_follow ts -> upcoming pb ip (term_toks t ++ ts) ->
    (forall ip' w', Inv f σ' ip' None w' -> upcoming pb ip' ts -> P STATE_EXPR_DONE w') ->
    run (parse n ep STATE_EXPR (fl b)) w P.
Proof.
  intros (N & HN). exists (S (S N)). intros n f ip tk w ts pb P Hn Hi Hw Hf Hu HP.
  destruct n as [|[|n]]; [lia..|]. eapply run_parse_stmt; [by right; right|].
  unfold EjParse.parseStmt. apply run_bind.
  apply (HN (S n) n STATE_EXPR f ip tk w ts pb); [lia|by left|done..|].
  intros o ip' w' [-> |[_ ->]] Hi' Hu'; apply run_ret; (split; [set_solver|by eapply HP]).
Qed.

Lemma run_expr_end b n k state f σ ip tk w ts pb (P : Z -> world -> Prop) :
  Inv f σ ip tk w -> stops ts -> upcoming pb ip ts ->
  (forall ip' w', Inv f σ ip' None w' -> put_back ip' ts -> P STATE_RELEXP_DONE w') ->
  run (expr_rest n k (fl b) state) w P.
Proof using lw_ok balloc_ok brealloc_ok bstrdup_ok.
  intros Hi Hs Hu HP. pose proof (upcoming_valid _ _ _ _ _ _ Hu) as Hv. unfold expr_rest.
  apply run_bind. eapply run_result; [done|]. apply run_bind.
  eapply run_get; [done|done|by apply stops_agrees|]. intros ip1 w1 Hi1 Hc1.
  destruct (stops_id _ Hs) as (-> & -> & ->). cbn [orb].
  apply run_bind. eapply run_putback; [done|done|done|]. intros ip2 w2 Hi2 Hp2. apply run_ret. by eapply HP.
Qed.

Notation evalExpr := (evalExpr lw balloc brealloc bstrdup ep).
Notation evalCond := (evalCond lw balloc brealloc bstrdup ep).
Notation run_evalExpr := (run_evalExpr lw balloc brealloc brealloc_ok bstrdup bstrdup_ok ep eid uh vs top glob funs nblocks).
Notation run_evalCond := (run_evalCond lw balloc brealloc bstrdup bstrdup_ok ep eid uh vs top glob funs nblocks).

(** The right operand [x] is applied to the left one. *)
Definition apply_op (tid rel : Z) (lhs : option (list Z)) : PM Z :=
  if 0 <? rel then
    s ← ep_get ep ep_result;
    if tid =? TOK_LOGICAL then evalCond lhs rel (setString bstrdup s)
    else evalExpr lhs rel (setString bstrdup s)
  else mret 0.

Lemma expr_loop_S n k flags tid rel lhs : expr_loop n (S k) flags tid rel lhs =
  (ok ← (if tid =? TOK_LOGICAL then st ← parse n ep STATE_RELEXP flags; mret (st =? STATE_RELEXP_DONE)
         else st ← parse n ep STATE_EXPR flags; mret (st =? STATE_EXPR_DONE));
   if negb ok then mret STATE_ERR
   else
     r ← apply_op tid rel lhs;
     if r <? 0 then mret STATE_ERR
     else expr_rest n k flags (if tid =? TOK_LOGICAL then STATE_RELEXP_DONE else STATE_EXPR_DONE)).
Proof. done. Qed.

(** The operand of an operator has been found. *)
Lemma run_operand n k flags tid rel lhs w (P : Z -> world -> Prop) : tid <> TOK_LOGICAL ->
  run (parse n ep STATE_EXPR flags) w (fun st w' => st = STATE_EXPR_DONE /\
    run (apply_op tid rel lhs) w' (fun r w'' => r = 0 /\ run (expr_rest n k flags STATE_EXPR_DONE) w'' P)) ->
  run (expr_loop n (S k) flags tid rel lhs) w P.
Proof.
  intros Ht Hm. rewrite expr_loop_S. replace (tid =? TOK_LOGICAL) with false by zb.
  apply run_bind, run_bind. eapply run_mono; [exact Hm|]. intros st w' [-> Ha]. apply run_ret. cbn [negb].
  rewrite Z.eqb_refl. cbn [negb]. apply run_bind. eapply run_mono; [exact Ha|]. by intros r w'' [-> HP].
Qed.

Lemma run_apply_op o f σ ip tk w l v (P : Z -> world -> Prop) :
  Inv f σ ip tk w -> evalop l (op_code o) (res σ) = Some v ->
  (forall w', Inv f (result v σ) ip tk w' -> P 0 w') ->
  run (apply_op TOK_EXPR (op_code o) (Some l)) w P.
Proof using brealloc_ok bstrdup_ok.
  intros Hi Hv HP. unfold apply_op. rewrite op_code_pos. apply run_bind. eapply run_result; [done|].
  change (TOK_EXPR =? TOK_LOGICAL) with false. cbn iota. unfold setString, bstrdup_ptr. cbn. rewrite bstrdup_ok.
  by eapply run_evalExpr.
Qed.

(** The rest of a chain that goes on with an operator. *)
Lemma tail_op b σ o t c σ1 v σ2 : term_parsed b σ t σ1 -> evalop (res σ) (op_code o) (res σ1) = Some v ->
  tail_parsed b (result v σ1) c σ2 -> tail_parsed b σ (COp o t c) σ2.
Proof using All.
  intros (N1 & H1')%parse_term Hv (N2 & H2'). exists (S (N1 + N2)). intros n k f ip tk w ts pb P Hn Hk Hi [Hwt Hwc] Hs Hu HP.
  destruct k as [|k]; [lia|]. cbn [tail_toks app] in Hu. unfold expr_rest. apply run_bind. eapply run_result; [done|].
  apply run_bind. eapply run_get; [done|exact Hu|done|]. intros ip1 w1 Hi1 Hc1. rewrite op_id.
  change ((TOK_EXPR =? TOK_EXPR) || (TOK_EXPR =? TOK_INC_DEC) || (TOK_EXPR =? TOK_LOGICAL)) with true. cbn iota.
  apply run_bind. eapply run_token_text; [done|]. intros w2 Hi2. rewrite Z.eqb_refl, op_text.
  unfold setString, bstrdup_ptr. cbn [default from_option id]. rewrite bstrdup_ok.
  apply run_operand; [done|]. cbn [tl] in Hc1. rewrite <- app_assoc in Hc1.
  eapply H1'; [lia|exact Hi2|done|by apply tail_follow|left; exact Hc1|]. intros ip3 w3 Hi3 Hu3. split; [done|].
  eapply run_apply_op; [done|exact Hv|]. intros w4 Hi4. split; [done|].
  eapply H2'; [lia|lia|exact Hi4|done..].
Qed.

(** ... with [||] or [&&]. *)
Lemma tail_log b σ j e σ1 v : expr_parsed b σ e σ1 -> evallog j (res σ) (res σ1) = Some v ->
  tail_parsed b σ (CLog j e) (result v σ1).
Proof using All.
  intros (N1 & H1') Hv. exists (S N1). intros n k f ip tk w ts pb P Hn Hk Hi Hwe Hs Hu HP.
  destruct k as [|k]; [lia|]. cbn [tail_toks app] in Hu. unfold expr_rest. apply run_bind. eapply run_result; [done|].
  apply run_bind. eapply run_get; [done|exact Hu|done|]. intros ip1 w1 Hi1 Hc1. rewrite log_id.
  change ((TOK_LOGICAL =? TOK_EXPR) || (TOK_LOGICAL =? TOK_INC_DEC) || (TOK_LOGICAL =? TOK_LOGICAL)) with true. cbn iota.
  apply run_bind. eapply run_token_text; [done|]. intros w2 Hi2. rewrite Z.eqb_refl, log_text.
  unfold setString, bstrdup_ptr. cbn [default from_option id]. rewrite bstrdup_ok.
  rewrite expr_loop_S. change (TOK_LOGICAL =? TOK_LOGICAL) with true. cbn iota.
  apply run_bind, run_bind. eapply H1'; [lia|reflexivity|exact Hi2|done|done|left; exact Hc1|]. intros ip3 w3 Hi3 Hu3.
  apply run_ret. rewrite Z.eqb_refl. cbn [negb]. apply run_bind. unfold apply_op. rewrite log_code_pos.
  apply run_bind. eapply run_result; [done|]. change (TOK_LOGICAL =? TOK_LOGICAL) with true. cbn iota.
  unfold setString, bstrdup_ptr. cbn [default from_option id]. rewrite bstrdup_ok.
  eapply run_evalCond; [done|exact Hv|]. intros w4 Hi4.
  change (0 <? 0) with false. cbn iota.
  eapply run_expr_end with (pb := true); [exact Hi4|done|by right|done].
Qed.

(** *** Arguments *)

Notation run_func := (run_func ep eid uh vs top glob funs nblocks).
Notation run_set_func := (run_set_func ep eid uh vs top glob funs nblocks).

Lemma run_get_func fr σ ip tk w (P : ejfunc -> world -> Prop) :
  Inv (FFrame fr) σ ip tk w -> P fr w -> run (get_func ep) w P.
Proof. intros Hi HP. unfold get_func. apply run_bind. eapply run_func; [done|]. by apply run_ret. Qed.

(** A round of the loop over the arguments, after its expression. *)
Definition args_rest (n k : nat) (flags : Z) : PM Z :=
  s ← ep_get ep ep_result;
  f ← get_func ep;
  f ← plift (add_arg bstrdup args_room f s);
  ep_set ep (fun e => e <| ep_func := FFrame f |>);;
  tid ← lex ep (ejLexGetToken lw balloc brealloc STATE_RELEXP_DONE);
  if tid =? TOK_COMMA then args_loop n k flags
  else
    putback bstrdup ep tid;;
    if negb (tid =? TOK_RPAREN) && negb (STATE_RELEXP_DONE =? STATE_RELEXP_DONE) then mret STATE_ERR
    else mret STATE_ARG_LIST_DONE.

Lemma run_args_loop n k flags w (P : Z -> world -> Prop) :
  run (parse n ep STATE_RELEXP flags) w (fun st w' => st = STATE_RELEXP_DONE /\ run (args_rest n k flags) w' P) ->
  run (args_loop n (S k) flags) w P.
Proof.
  intros Hm. cbn [EjParse.args_loop]. apply run_bind. eapply run_mono; [exact Hm|]. intros st w' [-> Hr].
  change ((STATE_RELEXP_DONE =? STATE_EOF) || (STATE_RELEXP_DONE =? STATE_ERR)) with false. cbn iota.
  rewrite Z.eqb_refl. revert Hr. unfold args_rest, run, mbind, PM_bind.
  intros (x & w'' & E & HP). exists x, w''. split; [|done]. revert E.
  destruct (ep_get ep ep_result w') as [[s w1]|]; [|done].
  destruct (get_func ep w1) as [[fr w2]|]; [|done].
  destruct (plift _ w2) as [[fr' w3]|]; [|done].
  by destruct (ep_set ep _ w3) as [[[] w4]|].
Qed.

(** The result becomes an argument, and the next token is looked at. *)
Lemma run_args_rest n k b fr vs0 σ ip tk w ts pb (P : Z -> world -> Prop) :
  Inv (FFrame fr) σ ip tk w -> args_are fr vs0 -> agrees STATE_RELEXP_DONE ts -> upcoming pb ip ts ->
  (forall fr' ip' w', Inv (FFrame fr') σ ip' (Some (hd_text ts)) w' -> args_are fr' (vs0 ++ [res σ]) ->
     fname fr' = fname fr -> clean pb ip' (tl ts) ->
     run (if hd_id ts =? TOK_COMMA then args_loop n k (fl b)
          else putback bstrdup ep (hd_id ts);; mret STATE_ARG_LIST_DONE) w' P) ->
  run (args_rest n k (fl b)) w P.
Proof using lw_ok balloc_ok brealloc_ok bstrdup_ok args_room_ok.
  intros Hi Ha Hag Hu HP. unfold args_rest. apply run_bind. eapply run_result; [done|].
  apply run_bind. eapply run_get_func; [done|].
  destruct (add_arg_spec bstrdup args_room fr vs0 (res σ) bstrdup_ok args_room_ok Ha) as (fr' & E & Ha' & Hn).
  apply run_bind. eapply run_lift; [exact E|]. apply run_bind.
  change (fun e : ej_t => e <| ep_func := FFrame fr' |>) with (fun e : ej_t (Q := Q) => e <| ep_func := FFrame fr' |>).
  apply (run_set_func (FFrame fr') _ _ _ _ _ _ Hi). intros w1 Hi1.
  apply run_bind. eapply run_get; [done|exact Hu|done|]. intros ip2 w2 Hi2 Hc2.
  specialize (HP _ _ _ Hi2 Ha' Hn Hc2). destruct (hd_id ts =? TOK_COMMA); [done|].
  change (negb (STATE_RELEXP_DONE =? STATE_RELEXP_DONE)) with false. by rewrite andb_false_r.
Qed.

Lemma run_args_last n k b fr vs0 σ ip tk w ts pb (P : Z -> world -> Prop) :
  Inv (FFrame fr) σ ip tk w -> args_are fr vs0 -> upcoming pb ip (RPAREN :: ts) ->
  (forall fr' ip' w', Inv (FFrame fr') σ ip' None w' -> args_are fr' (vs0 ++ [res σ]) -> fname fr' = fname fr ->
     put_back ip' (RPAREN :: ts) -> P STATE_ARG_LIST_DONE w') ->
  run (args_rest n k (fl b)) w P.
Proof using lw_ok balloc_ok brealloc_ok bstrdup_ok args_room_ok.
  intros Hi Ha Hu HP. pose proof (upcoming_valid _ _ _ _ _ _ Hu) as Hv.
  eapply run_args_rest with (ts := RPAREN :: ts); [done|done|done|exact Hu|]. intros fr' ip' w' Hi' Ha' Hn Hc'.
  change (hd_id (RPAREN :: ts) =? TOK_COMMA) with false. cbn iota.
  apply run_bind. eapply run_putback; [done|exact Hc'|done|]. intros ip2 w2 Hi2 Hp2. apply run_ret. by eapply HP.
Qed.

Lemma args_one b σ e σ1 : expr_parsed b σ e σ1 -> args_parsed b σ (AOne e) [res σ1] σ1.
Proof using All.
  intros (N & HN). exists (S N). intros n k fr vs0 ip tk w ts pb P Hn Hk Hi Ha Hw Hu HP.
  destruct k as [|k]; [lia|]. apply run_args_loop.
  eapply HN; [lia|reflexivity|exact Hi|exact Hw|by eexists; right; left|exact Hu|]. intros ip1 w1 Hi1 Hp1. split; [done|].
  eapply run_args_last with (pb := true); [exact Hi1|exact Ha|by right|exact HP].
Qed.

Lemma args_more b σ e a σ1 vs' σ2 : expr_parsed b σ e σ1 -> args_parsed b σ1 a vs' σ2 ->
  args_parsed b σ (AMore e a) (res σ1 :: vs') σ2.
Proof using All.
  intros (N1 & H1') (N2 & H2'). exists (S (N1 + N2)). intros n k fr vs0 ip tk w ts pb P Hn Hk Hi Ha [Hwe Hwa] Hu HP.
  destruct k as [|k]; [lia|]. apply run_args_loop. cbn [args_toks] in Hu. rewrite <- app_assoc in Hu.
  eapply H1'; [lia|reflexivity|exact Hi|exact Hwe|eexists; right; right; reflexivity|exact Hu|].
  intros ip1 w1 Hi1 Hp1. split; [done|].
  eapply run_args_rest with (pb := true) (ts := COMMA :: args_toks a ++ RPAREN :: ts); [exact Hi1|exact Ha|done|by right|]. intros fr2 ip2 w2 Hi2 Ha2 Hn2 Hc2.
  change (hd_id (COMMA :: args_toks a ++ RPAREN :: ts) =? TOK_COMMA) with true. cbn iota.
  eapply H2'; [lia|lia|exact Hi2|exact Ha2|exact Hwa|left; exact Hc2|].
  intros fr3 ip3 w3 Hi3 Ha3 Hn3 Hp3. rewrite <- app_assoc in Ha3. eapply HP; [exact Hi3|exact Ha3|congruence|exact Hp3].
Qed.

(** An empty argument list is one empty argument. *)
Lemma parse_nothing b σ : exists N, forall n f ip tk w ts pb (P : Z -> world -> Prop), (N <= n)%nat ->
  Inv f σ ip tk w -> upcoming pb ip (RPAREN :: ts) ->
  (forall ip' w', Inv f (result [] σ) ip' None w' -> put_back ip' (RPAREN :: ts) -> P STATE_RELEXP_DONE w') ->
  run (parse n ep STATE_RELEXP (fl b)) w P.
Proof using All.
  exists 3%nat. intros n f ip tk w ts pb P Hn Hi Hu HP. destruct n as [|[|[|n]]]; [lia..|].
  pose proof (upcoming_valid _ _ _ _ _ _ Hu) as Hv.
  eapply run_parse_expr; [done|]. intros w1 Hi1. apply run_operand; [done|].
  eapply run_parse_stmt; [by right; right|]. unfold EjParse.parseStmt. apply run_bind. cbn [EjParse.stmt_loop].
  apply run_bind. eapply run_get; [done|exact Hu|done|]. intros ip2 w2 Hi2 Hc2.
  apply run_bind. change (hd_id (RPAREN :: ts)) with TOK_RPAREN. cbn -[stmt_loop putback EjParse.parse].
  apply run_bind. eapply (run_putback pb (RPAREN :: ts)); [exact Hi2|exact Hc2|done|]. intros ip3 w3 Hi3 Hp3.
  apply run_ret, run_ret, run_ret. split; [set_solver|]. split; [done|].
  unfold apply_op. change (0 <? 0) with false. cbn iota. apply run_ret. split; [done|].
  eapply run_expr_end with (pb := true); [exact Hi3|by eexists; right; left|by right|].
  intros ip4 w4 Hi4 Hp4. split; [done|]. by eapply HP.
Qed.

(** *** Terms *)

Definition final (o : outcome) : Prop := match o with Again _ => False | _ => True end.

(** A round of the loop of [parseStmt] that is the last one. *)
Lemma run_stmt_loop n k st flags f σ ip tk w ts pb (P : outcome -> world -> Prop) :
  Inv f σ ip tk w -> upcoming pb ip ts -> agrees st ts ->
  (forall ip' w', Inv f σ ip' (Some (hd_text ts)) w' -> clean pb ip' (tl ts) ->
     run (stmt_case n (hd_id ts) st flags) w' (fun o w'' => final o /\ P o w'')) ->
  run (stmt_loop n (S k) st flags) w P.
Proof using lw_ok balloc_ok brealloc_ok bstrdup_ok.
  intros Hi Hu Ha HP. cbn [EjParse.stmt_loop]. apply run_bind. eapply run_get; [done|exact Hu|done|].
  intros ip' w' Hi' Hc'. apply run_bind. eapply run_mono; [eapply HP; [exact Hi'|exact Hc']|].
  intros o w'' [Hf Ho]. destruct o; [done|by apply run_ret..].
Qed.

Lemma term_literal b σ t text' : (exists q, t = TString q text') \/ t = TNumber text' ->
  term_parsed b σ t (result text' σ).
Proof using All.
  intros Ht. exists O. intros n k st f ip tk w ts pb P _ Hst Hi _ Hf Hu HP.
  assert (Hl : exists t', hd_id (t' :: ts) = TOK_LITERAL /\ hd_text (t' :: ts) = text' /\ term_toks t = [t'] /\
    agrees st (t' :: ts)).
  { destruct Ht as [[q ->]| ->]; eexists; (split_and!; [| |reflexivity|]); done. }
  destruct Hl as (t' & El & Et & Ett & Ha). rewrite Ett in Hu. cbn [app] in Hu.
  eapply run_stmt_loop; [done|exact Hu|done|]. intros ip1 w1 Hi1 Hc1. rewrite El, Et in *.
  cbn -[putback]. apply run_bind. eapply run_token_text; [done|]. intros w2 Hi2.
  apply run_bind. eapply run_set_result; [done|]. intros w3 Hi3. apply run_ret. split; [done|].
  eapply HP; [by left|eapply inv_forget; exact Hi3|by left].
Qed.

(** [stmt_id] behind the name: the next token is taken. *)
Lemma run_stmt_id st flags f σ ip x ts pb w n (P : outcome -> world -> Prop) :
  Inv f σ ip (Some x) w -> upcoming pb ip ts -> agrees st ts ->
  (forall ip' w', Inv f σ ip' (Some (hd_text ts)) w' -> clean pb ip' (tl ts) ->
     run (if hd_id ts =? TOK_ASSIGNMENT then stmt_assign bstrdup ep (rec n) st flags (Some x)
          else if hd_id ts =? TOK_INC_DEC then stmt_inc_dec lw balloc brealloc bstrdup ep st flags (Some x)
          else stmt_name lw balloc brealloc bstrdup ep st flags (hd_id ts) (Some x)) w' P) ->
  run (stmt_id lw balloc brealloc bstrdup ep (rec n) st flags) w P.
Proof using lw_ok balloc_ok brealloc_ok bstrdup_ok.
  intros Hi Hu Ha HP. unfold stmt_id. apply run_bind. eapply run_token_text; [done|]. intros w1 Hi1.
  apply run_bind. eapply run_get; [done|exact Hu|done|]. intros ip2 w2 Hi2 Hc2.
  unfold setString, bstrdup_ptr. cbn [default from_option id]. rewrite bstrdup_ok. eapply HP; [exact Hi2|exact Hc2].
Qed.

Lemma stmt_case_id n st flags : stmt_case n TOK_ID st flags = stmt_id lw balloc brealloc bstrdup ep (rec n) st flags.
Proof. done. Qed.

Notation run_getvar := (run_getvar ep eid uh vs top glob funs nblocks ep_ok top_ok glob_ok).
Notation run_assign := (run_assign bstrdup bstrdup_ok ep eid uh vs top glob funs nblocks ep_ok top_ok glob_ok).


(** The end of a variable that stands alone: it becomes the result, and the token behind
    it is put back. *)
Lemma run_name_end st v f σ ip ts pb w (P : outcome -> world -> Prop) :
  Inv f σ ip (Some (hd_text ts)) w -> clean pb ip (tl ts) -> script_valid ts ->
  (forall ip' w', Inv f (result (default [] v) σ) ip' None w' -> put_back ip' ts ->
     P (Done st (st =? STATE_STMT)) w') ->
  run (set_result bstrdup ep v;; putback bstrdup ep (hd_id ts);; done_semi st) w P.
Proof using bstrdup_ok.
  intros Hi Hc Hv HP. apply run_bind. eapply run_set_result; [done|]. intros w1 Hi1.
  apply run_bind. eapply run_putback; [exact Hi1|exact Hc|done|]. intros ip2 w2 Hi2 Hp2. apply run_ret. by eapply HP.
Qed.

Lemma term_var b σ x v : (b = true /\ exists i, find_var σ x = Some (i, v) /\ 0 <= i) \/ b = false /\ v = None ->
  term_parsed b σ (TVar x) (result (default [] v) σ).
Proof using All.
  intros Hb. exists O. intros n k st f ip tk w ts pb P _ Hst Hi Hw Hf Hu HP. cbn [term_toks app] in Hu.
  pose proof (upcoming_valid _ _ _ _ _ _ Hu) as Hv. pose proof (script_valid_tl _ Hv) as Hv'. cbn [tl] in Hv'.
  eapply run_stmt_loop; [done|exact Hu|by apply name_agrees|]. intros ip1 w1 Hi1 Hc1. cbn [tl] in Hc1.
  rewrite name_id, stmt_case_id by auto. eapply run_stmt_id; [exact Hi1|left; exact Hc1|by apply follow_agrees|].
  intros ip2 w2 Hi2 Hc2. cbn [tl] in Hc2. destruct (follow_id ts Hv' Hf) as [-> ->].
  unfold stmt_name. apply run_bind. eapply run_eid; [done|].
  replace (st =? STATE_DEC) with false by (by destruct Hst as [-> |[-> _]]). rewrite exe_fl. apply run_bind.
  assert (Hend : forall w', w' = w2 -> run (set_result bstrdup ep v;; putback bstrdup ep (hd_id ts);; done_semi st) w'
    (fun o w'' => final o /\ P o w'')).
  { intros w' ->. eapply run_name_end; [exact Hi2|exact Hc2|done|]. intros ip3 w3 Hi3 Hp3. split; [done|].
    eapply HP; [by left|exact Hi3|by right]. }
  destruct Hb as [(-> & i & Hfv & Hi0)|[-> ->]].
  - apply run_bind. eapply run_getvar; [done|by eapply name_nonempty|done|].
    replace (i <? 0) with false by zb. apply run_ret. by apply Hend.
  - apply run_ret. by apply Hend.
Qed.

Lemma term_incr_skip σ x inc : term_parsed false σ (TIncr x inc) σ.
Proof using All.
  exists O. intros n k st f ip tk w ts pb P _ Hst Hi Hw Hf Hu HP. cbn [term_toks app] in Hu.
  pose proof (script_valid_tl _ (upcoming_valid _ _ _ _ _ _ Hu)) as Hv'. cbn [tl] in Hv'.
  eapply run_stmt_loop; [done|exact Hu|by apply name_agrees|]. intros ip1 w1 Hi1 Hc1. cbn [tl] in Hc1.
  rewrite name_id, stmt_case_id; [|done|done|right; eexists _, _; split; [reflexivity|by destruct inc]].
  eapply run_stmt_id; [exact Hi1|left; exact Hc1|done|]. intros ip2 w2 Hi2 Hc2. cbn [tl] in Hc2. rewrite inc_id.
  change (TOK_INC_DEC =? TOK_ASSIGNMENT) with false. rewrite Z.eqb_refl. cbn iota.
  unfold stmt_inc_dec. rewrite exe_fl. apply run_ret. split; [done|].
  eapply HP; [by left|eapply inv_forget; exact Hi2|left; exact Hc2].
Qed.

Lemma term_incr σ x inc i v r : find_var σ x = Some (i, Some v) -> 0 <= i ->
  evalop v (inc_code inc) [49] = Some r ->
  term_parsed true σ (TIncr x inc) (assign top glob i x r (result r σ)).
Proof using All.
  intros Hfv Hi0 Hr. exists O. intros n k st f ip tk w ts pb P _ Hst Hi Hw Hf Hu HP. cbn [term_toks app] in Hu.
  pose proof (upcoming_valid _ _ _ _ _ _ Hu) as Hv. pose proof (script_valid_tl _ Hv) as Hv'. cbn [tl] in Hv'.
  eapply run_stmt_loop; [done|exact Hu|by apply name_agrees|]. intros ip1 w1 Hi1 Hc1. cbn [tl] in Hc1.
  rewrite name_id, stmt_case_id; [|done|done|right; eexists _, _; split; [reflexivity|by destruct inc]].
  eapply run_stmt_id; [exact Hi1|left; exact Hc1|done|]. intros ip2 w2 Hi2 Hc2. cbn [tl] in Hc2. rewrite inc_id.
  change (TOK_INC_DEC =? TOK_ASSIGNMENT) with false. rewrite Z.eqb_refl. cbn iota.
  unfold stmt_inc_dec. rewrite exe_fl. apply run_bind. eapply run_eid; [done|].
  apply run_bind. eapply run_getvar; [done|by eapply name_nonempty|done|]. replace (i <? 0) with false by zb.
  apply run_bind. eapply run_set_result; [done|]. intros w3 Hi3.
  apply run_bind. eapply run_token_text; [exact Hi3|]. intros w4 Hi4. rewrite inc_text.
  apply run_bind. eapply run_evalExpr; [exact Hi4|exact Hr|]. intros w5 Hi5. change (0 <? 0) with false. cbn iota.
  apply run_bind. eapply run_result; [exact Hi5|].
  apply run_bind. eapply run_assign; [exact Hi5|by eapply name_nonempty|]. intros w6 Hi6. apply run_ret. split; [done|].
  eapply HP; [by left| |left; exact Hc2]. eapply inv_forget. destruct σ. exact Hi6.
Qed.

Lemma term_paren b σ e σ' : expr_parsed b σ e σ' -> term_parsed b σ (TParen e) σ'.
Proof using All.
  intros (N & HN). exists N. intros n k st f ip tk w ts pb P Hn Hst Hi Hw Hf Hu HP.
  destruct Hst as [-> |[_ ?]]; [|done]. cbn [term_toks app] in Hu. rewrite <- app_assoc in Hu.
  eapply run_stmt_loop; [done|exact Hu|done|]. intros ip1 w1 Hi1 Hc1. cbn [tl] in Hc1.
  change (hd_id (LPAREN :: expr_toks e ++ [RPAREN] ++ ts)) with TOK_LPAREN.
  cbn -[expect_parse expect_token]. unfold expect_parse. apply run_bind.
  eapply HN; [exact Hn|reflexivity|exact Hi1|exact Hw|eexists; right; left; reflexivity|left; exact Hc1|].
  intros ip2 w2 Hi2 Hp2. rewrite Z.eqb_refl. unfold expect_token. apply run_bind.
  eapply (run_get pb); [exact Hi2|right; exact Hp2|done|]. intros ip3 w3 Hi3 Hc3. cbn [tl app] in Hc3.
  change (hd_id ([RPAREN] ++ ts) =? TOK_RPAREN) with true. cbn iota. apply run_ret. split; [done|].
  eapply HP; [by right|eapply inv_forget; exact Hi3|left; exact Hc3].
Qed.

(** *** Calls

    [k] is what the arguments need: the loop over them runs with the frame of the call. *)
Definition call_args (b : bool) (σ : est) (toks : list tok) (vs' : list (list Z)) (σ1 : est) : Prop :=
  exists N, forall n fr ip tk w ts pb (P : Z -> world -> Prop), (N <= n)%nat ->
    Inv (FFrame fr) (result [] σ) ip tk w -> args_are fr [] -> upcoming pb ip (toks ++ RPAREN :: ts) ->
    (forall fr' ip' w', Inv (FFrame fr') σ1 ip' None w' -> args_are fr' vs' -> fname fr' = fname fr ->
       put_back ip' (RPAREN :: ts) -> P STATE_ARG_LIST_DONE w') ->
    run (parse n ep STATE_ARG_LIST (fl b)) w P.

Lemma call_nothing b σ : call_args b σ [] [[]] (result [] σ).
Proof using All.
  destruct (parse_nothing b (result [] σ)) as (N & HN). exists (S (S N)).
  intros n fr ip tk w ts pb P Hn Hi Ha Hu HP. destruct n as [|[|n]]; [lia..|].
  apply run_parse_args. apply run_args_loop. eapply HN; [lia|exact Hi|exact Hu|]. intros ip1 w1 Hi1 Hp1. split; [done|].
  eapply run_args_last with (pb := true); [exact Hi1|exact Ha|by right|]. intros fr2 ip2 w2 Hi2 Ha2 Hn2 Hp2.
  split; [done|]. eapply HP; [|exact Ha2|exact Hn2|exact Hp2]. by destruct σ.
Qed.

Lemma call_some b σ a vs' σ1 : args_wf a -> args_parsed b (result [] σ) a vs' σ1 -> call_args b σ (args_toks a) vs' σ1.
Proof using All.
  intros Hw (N & HN). exists (S N). intros n fr ip tk w ts pb P Hn Hi Ha Hu HP. destruct n as [|n]; [lia|].
  apply run_parse_args. eapply HN; [lia|lia|exact Hi|exact Ha|exact Hw|exact Hu|].
  intros fr2 ip2 w2 Hi2 Ha2 Hn2 Hp2. split; [done|]. by eapply HP.
Qed.

Lemma run_evalFunction fr x vs' fn σ σ' ip tk w (P : Z -> world -> Prop) :
  Inv (FFrame fr) σ ip tk w -> fname fr = Some x -> x <> [] -> args_are fr vs' ->
  fun_at funs σ x = Some fn -> fn <> 0 -> host fn vs' σ σ' ->
  (forall r w', 0 <= r -> Inv (FFrame fr) σ' ip None w' -> P r w') ->
  run (evalFunction lw balloc brealloc call_fn ep) w P.
Proof using host_ok.
  intros Hi Hx Hne ((k & Ea) & _ & En) Hf Hfn Hh HP. unfold evalFunction.
  apply run_bind. eapply run_get_func; [done|].
  apply run_bind. eapply run_ep_get; [done|]. intros e He. rewrite (en_functions _ _ _ _ _ _ _ _ _ _ He).
  apply run_bind. eapply run_lift; [exact Hx|].
  destruct (inv_open _ _ _ _ _ _ _ _ _ _ _ _ _ Hi) as (_ & _ & Ho).
  apply run_bind. eapply run_sym_look; [done|exact Ho|done|].
  unfold fun_at in Hf. apply bind_Some in Hf as (v & Ev & Hv). rewrite Ev.
  apply run_bind. eapply run_lift; [exact Hv|]. replace (fn =? 0) with false by zb.
  apply run_bind. eapply run_eid; [done|].
  apply run_bind. eapply run_ep_get; [done|]. intros e' He'. rewrite (en_user _ _ _ _ _ _ _ _ _ _ He').
  rewrite Ea, En. eapply run_mono; [by eapply host_ok|]. intros r w' [Hr Hi']. by apply HP.
Qed.

Lemma term_call b σ x toks vs' σ1 σ' t : plain_name x -> call_args b σ toks vs' σ1 ->
  term_toks t = KName x :: LPAREN :: toks ++ [RPAREN] ->
  (b = true /\ exists fn, fun_at funs σ1 x = Some fn /\ fn <> 0 /\ host fn vs' σ1 σ') \/ b = false /\ σ' = σ1 ->
  term_parsed b σ t σ'.
Proof using All.
  intros Hx (N & HN) Ett Hb. exists N. intros n k st f ip tk w ts pb P Hn Hst Hi Hw Hf Hu HP.
  rewrite Ett in Hu. cbn [app] in Hu. rewrite <- app_assoc in Hu. cbn [app] in Hu.
  pose proof (name_nonempty _ _ (upcoming_valid _ _ _ _ _ _ Hu)) as Hne.
  eapply run_stmt_loop; [done|exact Hu|by apply name_agrees|]. intros ip1 w1 Hi1 Hc1. cbn [tl hd_text tok_text] in Hc1, Hi1.
  rewrite call_id by done. cbn -[stmt_function]. unfold stmt_function.
  apply run_bind. eapply run_func; [done|]. apply run_bind. eapply run_token_text; [done|]. intros w2 Hi2.
  apply run_bind. eapply run_set_func; [exact Hi2|]. intros w3 Hi3.
  apply run_bind. eapply run_set_result; [exact Hi3|]. intros w4 Hi4. cbn [default from_option id] in Hi4.
  apply run_bind. eapply run_get; [exact Hi4|left; exact Hc1|done|]. intros ip5 w5 Hi5 Hc5. cbn [tl] in Hc5.
  change (hd_id (LPAREN :: toks ++ RPAREN :: ts) =? TOK_LPAREN) with true. cbn [negb].
  apply run_bind. eapply HN; [exact Hn|exact Hi5| |left; exact Hc5|].
  { split_and!; [by exists O|done|done]. }
  intros fr6 ip6 w6 Hi6 Ha6 Hn6 Hp6. rewrite Z.eqb_refl. cbn [negb]. rewrite exe_fl.
  cbn [fname] in Hn6. unfold setString, bstrdup_ptr in Hn6. cbn [default from_option id] in Hn6. rewrite bstrdup_ok in Hn6.
  assert (Hend : forall w7, Inv (FFrame fr6) σ' ip6 None w7 ->
    run (set_func ep f;; tid ← lex ep (ejLexGetToken lw balloc brealloc st);
         if negb (tid =? TOK_RPAREN) then mret Error else done_semi st) w7 (fun o w'' => final o /\ P o w'')).
  { intros w7 Hi7. apply run_bind. eapply run_set_func; [exact Hi7|]. intros w8 Hi8.
    apply run_bind. eapply (run_get pb); [exact Hi8|right; exact Hp6|done|]. intros ip9 w9 Hi9 Hc9. cbn [tl] in Hc9.
    change (hd_id (RPAREN :: ts) =? TOK_RPAREN) with true. cbn [negb]. apply run_ret. split; [done|].
    eapply HP; [by left|eapply inv_forget; exact Hi9|left; exact Hc9]. }
  apply run_bind. destruct Hb as [(-> & fn & Hfn & Hnz & Hh)|[-> ->]].
  - eapply run_evalFunction; [exact Hi6|exact Hn6|exact Hne|exact Ha6|exact Hfn|exact Hnz|exact Hh|].
    intros r w7 Hr Hi7. replace (r <? 0) with false by zb. by apply Hend.
  - apply run_ret. change (0 <? 0) with false. cbn iota. by apply Hend.
Qed.

(** *** Expressions *)

(** An expression that starts with a term. *)
Lemma expr_start b σ t c σ1 σ2 : term_parsed b (result [] σ) t σ1 -> tail_parsed b σ1 c σ2 ->
  expr_parsed b σ (EStart t c) σ2.
Proof using All.
  intros (N1 & H1')%parse_term (N2 & H2'). exists (S (S (N1 + N2))). intros n f σ0 ip tk w ts pb P Hn H0' Hi [Hwt Hwc] Hs Hu HP.
  destruct n as [|[|n]]; [lia..|]. cbn [expr_toks] in Hu. rewrite <- app_assoc in Hu.
  eapply run_parse_expr; [done|]. intros w1 Hi1. apply run_operand; [done|].
  unfold result in Hi1. rewrite H0' in Hi1. eapply H1'; [lia|exact Hi1|exact Hwt|by apply tail_follow|exact Hu|]. intros ip2 w2 Hi2 Hu2. split; [done|].
  unfold apply_op. change (0 <? 0) with false. cbn iota. apply run_ret. split; [done|].
  eapply H2'; [lia|lia|exact Hi2|exact Hwc|exact Hs|exact Hu2|]. intros ip3 w3 Hi3 Hp3. split; [done|]. by eapply HP.
Qed.

(** An operator where a term should be: nothing is read. *)
Lemma parse_no_term b o : forall n f σ ip tk w ts pb (P : Z -> world -> Prop), (2 <= n)%nat ->
  Inv f σ ip tk w -> upcoming pb ip (op_tok o :: ts) ->
  (forall ip' w', Inv f σ ip' None w' -> put_back ip' (op_tok o :: ts) -> P STATE_EXPR_DONE w') ->
  run (parse n ep STATE_EXPR (fl b)) w P.
Proof using All.
  intros n f σ ip tk w ts pb P Hn Hi Hu HP. pose proof (upcoming_valid _ _ _ _ _ _ Hu) as Hv.
  destruct n as [|[|n]]; [lia..|]. eapply run_parse_stmt; [by right; right|]. unfold EjParse.parseStmt. apply run_bind.
  eapply run_stmt_loop; [done|exact Hu|done|]. intros ip1 w1 Hi1 Hc1. rewrite op_id. cbn -[putback EjParse.parse].
  apply run_bind. rewrite <- (op_id o ts). eapply (run_putback pb); [exact Hi1|exact Hc1|done|]. intros ip2 w2 Hi2 Hp2.
  apply run_ret. split; [done|]. apply run_ret. split; [set_solver|]. by eapply HP.
Qed.

Lemma expr_prefix b σ o t c σ1 v σ2 : term_parsed b (result [] σ) t σ1 -> evalop [] (op_code o) (res σ1) = Some v ->
  tail_parsed b (result v σ1) c σ2 -> expr_parsed b σ (EPrefix o t c) σ2.
Proof using All.
  intros Ht Hv Hc. destruct (tail_op b (result [] σ) o t c σ1 v σ2 Ht) as (N & HN); [by destruct σ|done|].
  exists (S (S (S N))). intros n f σ0 ip tk w ts pb P Hn H0' Hi Hw Hs Hu HP. destruct n as [|[|[|n]]]; [lia..|].
  eapply run_parse_expr; [done|]. intros w1 Hi1. apply run_operand; [done|].
  unfold result in Hi1. rewrite H0' in Hi1. eapply (parse_no_term b o); [lia|exact Hi1|exact Hu|]. intros ip2 w2 Hi2 Hp2. split; [done|].
  unfold apply_op. change (0 <? 0) with false. cbn iota. apply run_ret. split; [done|].
  eapply (HN _ _ _ _ _ _ ts pb); [lia|lia|exact Hi2|exact Hw|exact Hs|right; exact Hp2|].
  intros ip3 w3 Hi3 Hp3. split; [done|]. by eapply HP.
Qed.

(** The loop of [parseStmt] at [x = e]. *)
Definition assign_parsed (b : bool) (σ : est) (x : list Z) (e : expr) (σ' : est) : Prop :=
  exists N, forall n k st f σ0 ip tk w ts pb (P : outcome -> world -> Prop), (N <= n)%nat -> env σ0 = env σ ->
    st = STATE_EXPR \/ st = STATE_STMT -> Inv f σ0 ip tk w -> plain_name x -> expr_wf e -> stops ts ->
    upcoming pb ip (KName x :: ASSIGN :: expr_toks e ++ ts) ->
    (forall ip' w', Inv f σ' ip' None w' -> put_back ip' ts -> P (Done st (st =? STATE_STMT)) w') ->
    run (stmt_loop n (S k) st (fl b)) w P.

(** The name and [=] are read, the right-hand side is parsed. *)
Lemma run_assignment n k st b f σ ip tk w x e ts pb (P : outcome -> world -> Prop) :
  Inv f σ ip tk w -> plain_name x -> upcoming pb ip (KName x :: ASSIGN :: expr_toks e ++ ts) ->
  (forall ip' w', Inv f σ ip' None w' -> upcoming pb ip' (expr_toks e ++ ts) ->
     run (stmt_assign bstrdup ep (rec n) st (fl b) (Some x)) w' (fun o w'' => final o /\ P o w'')) ->
  run (stmt_loop n (S k) st (fl b)) w P.
Proof using All.
  intros Hi Hx Hu HP. pose proof (script_valid_tl _ (upcoming_valid _ _ _ _ _ _ Hu)) as Hv'. cbn [tl] in Hv'.
  eapply run_stmt_loop; [done|exact Hu|by apply name_agrees|]. intros ip1 w1 Hi1 Hc1. cbn [tl hd_text tok_text] in Hc1, Hi1.
  rewrite name_id, stmt_case_id; [|done|done|right; eexists _, _; split; [reflexivity|done]].
  eapply run_stmt_id; [exact Hi1|left; exact Hc1|done|]. intros ip2 w2 Hi2 Hc2.
  change (hd_id (ASSIGN :: expr_toks e ++ ts) =? TOK_ASSIGNMENT) with true. cbn iota.
  eapply HP; [eapply inv_forget; exact Hi2|left; exact Hc2].
Qed.

Lemma assign_executed σ x e σ1 i v : expr_parsed true σ e σ1 -> find_var σ1 x = Some (i, v) ->
  assign_parsed true σ x e (assign top glob i x (res σ1) σ1).
Proof using All.
  intros (N & HN) Hf. exists N. intros n k st f σ0 ip tk w ts pb P Hn H0' Hst Hi Hx Hw Hs Hu HP.
  pose proof (name_nonempty _ _ (upcoming_valid _ _ _ _ _ _ Hu)) as Hne.
  eapply run_assignment; [done|done|exact Hu|]. intros ip1 w1 Hi1 Hu1. unfold stmt_assign. apply run_bind.
  eapply HN; [exact Hn|exact H0'|exact Hi1|exact Hw|exact Hs|exact Hu1|]. intros ip2 w2 Hi2 Hp2. rewrite Z.eqb_refl. cbn [negb].
  rewrite exe_fl. apply run_bind, run_bind. eapply run_eid; [done|].
  replace (st =? STATE_DEC) with false by (by destruct Hst as [-> | ->]).
  apply run_bind. eapply run_getvar; [done|done|exact Hf|].
  apply run_bind. eapply run_result; [done|]. eapply run_assign; [done|done|]. intros w3 Hi3.
  apply run_ret. split; [done|]. by eapply HP.
Qed.

Lemma assign_skipped σ x e σ1 : expr_parsed false σ e σ1 -> assign_parsed false σ x e σ1.
Proof using All.
  intros (N & HN). exists N. intros n k st f σ0 ip tk w ts pb P Hn H0' Hst Hi Hx Hw Hs Hu HP.
  eapply run_assignment; [done|done|exact Hu|]. intros ip1 w1 Hi1 Hu1. unfold stmt_assign. apply run_bind.
  eapply HN; [exact Hn|exact H0'|exact Hi1|exact Hw|exact Hs|exact Hu1|]. intros ip2 w2 Hi2 Hp2. rewrite Z.eqb_refl. cbn [negb].
  rewrite exe_fl. apply run_bind, run_ret, run_ret. split; [done|]. by eapply HP.
Qed.

(** An assignment as an expression. *)
Lemma expr_assign b σ x e σ' : assign_parsed b σ x e σ' -> expr_parsed b σ (EAssign x e) σ'.
Proof using All.
  intros (N & HN). exists (S (S (S N))). intros n f σ0 ip tk w ts pb P Hn H0' Hi [Hx Hw] Hs Hu HP.
  destruct n as [|[|[|n]]]; [lia..|]. eapply run_parse_expr; [done|]. intros w1 Hi1. apply run_operand; [done|].
  eapply run_parse_stmt; [by right; right|]. unfold EjParse.parseStmt. apply run_bind.
  eapply HN; [| |by left|exact Hi1|exact Hx|exact Hw|exact Hs|exact Hu|]; [lia|done|]. intros ip2 w2 Hi2 Hp2.
  apply run_ret. split; [set_solver|]. split; [done|].
  unfold apply_op. change (0 <? 0) with false. cbn iota. apply run_ret. split; [done|].
  eapply run_expr_end with (pb := true); [exact Hi2|done|by right|]. intros ip3 w3 Hi3 Hp3. split; [done|]. by eapply HP.
Qed.

(** ** Every expression that has a meaning *)

Theorem exprs_parsed :
  (forall b σ t σ', ev_term b σ t σ' -> term_wf t -> term_parsed b σ t σ') /\
  (forall b σ e σ', ev_expr b σ e σ' -> expr_wf e -> expr_parsed b σ e σ') /\
  (forall b σ c σ', ev_tail b σ c σ' -> tail_wf c -> tail_parsed b σ c σ') /\
  (forall b σ a vs σ', ev_args b σ a vs σ' -> args_wf a -> args_parsed b σ a vs σ').
Proof using All.
  apply ev_mutind.
  - intros b σ ds _. apply term_literal. by right.
  - intros b σ q body _. apply term_literal. left. by exists q.
  - intros σ x i v Hf Hi _. apply term_var. left. split; [done|]. by exists i.
  - intros σ x _. apply (term_var false σ x None). by right.
  - intros σ x inc i v r Hf Hi Hr _. by eapply term_incr.
  - intros σ x inc _. apply term_incr_skip.
  - intros σ f fn σ' Hf Hn Hh Hw. eapply (term_call true σ f []); [done|apply call_nothing|done|].
    left. split; [done|]. by exists fn.
  - intros σ f Hw. eapply (term_call false σ f []); [done|apply call_nothing|done|by right].
  - intros σ f a vs' fn σ1 σ' _ IH Hf Hn Hh [Hw Hwa].
    eapply (term_call true σ f (args_toks a)); [done|by apply call_some, IH|done|]. left. split; [done|]. by exists fn.
  - intros σ f a vs' σ1 _ IH [Hw Hwa]. eapply (term_call false σ f (args_toks a)); [done|by apply call_some, IH|done|by right].
  - intros b σ e σ' _ IH Hw. by apply term_paren, IH.
  - intros σ x e σ1 i v _ IH Hf [Hx Hw]. eapply expr_assign, assign_executed; [by apply IH|done].
  - intros σ x e σ1 _ IH [Hx Hw]. by apply expr_assign, assign_skipped, IH.
  - intros b σ t c σ1 σ2 _ IH1 _ IH2 [Hw1 Hw2]. eapply expr_start; [by apply IH1|by apply IH2].
  - intros b σ o t c σ1 v σ2 _ IH1 Hv _ IH2 [Hw1 Hw2]. eapply expr_prefix; [by apply IH1|done|by apply IH2].
  - intros b σ _. exists O. intros n k f ip tk w ts pb P _ _ Hi _ Hs Hu HP. by eapply run_expr_end.
  - intros b σ o t c σ1 v σ2 _ IH1 Hv _ IH2 [Hw1 Hw2]. eapply tail_op; [by apply IH1|done|by apply IH2].
  - intros b σ j e σ1 v _ IH Hv Hw. eapply tail_log; [by apply IH|done].
  - intros b σ e σ1 _ IH Hw. by apply args_one, IH.
  - intros b σ e a σ1 vs' σ2 _ IH1 _ IH2 [Hw1 Hw2]. eapply args_more; [by apply IH1|by apply IH2].
Qed.
End Exprs.
