(* ===== verification/EjStmtSpec.v ===== *)
(** * Statements are executed as they mean

    The parser, at a statement that is written in the script, returns and leaves the state
    that the meaning of [EjAst] gives, for every statement that has a meaning: declarations,
    conditionals, loops, blocks and returns, in code that is executed and in code that is
    not.  The fuel that a statement needs depends on the tokens that follow it, since a
    return reads the rest of the script. *)

From stdpp Require Import gmap.
From S2P Require Import Prelude CString Fmt Handles SymTab SymIface RingQ ByteQueue EjLex EjLexSpec EjRead EjParse EjAst EjEngine EjExprSpec.
#[local] Open Scope Z_scope.
#[local] Open Scope cint_scope.

Definition ELSE : tok := KName (str "else").

(** No [else] is next: it would belong to the [if] in front of it. *)
Definition not_else (ts : list tok) : Prop := head ts <> Some ELSE.

Lemma script_valid_app l ts : script_valid (l ++ ts) -> script_valid ts.
Proof. induction l as [|t l IH]; [done|]. intros Hv. by apply IH, (script_valid_tl _ Hv). Qed.

Lemma keyword_else x : keyword x = Some TOK_ELSE -> x = str "else".
Proof.
  unfold keyword. repeat case_match; intros [=]. apply strcmp_eq. lia.
Qed.

Lemma keyword_newline x k : keyword x = Some k -> k <> TOK_NEWLINE.
Proof. unfold keyword. repeat case_match; intros [= <-]; done. Qed.

Lemma hd_id_else ts : script_valid ts -> not_else ts -> (hd_id ts =? TOK_ELSE) = false.
Proof.
  intros Hv Hn. destruct ts as [|[i|q body|ds|x] ts]; [done|..|done|done|].
  - destruct Hv as (Hi & _). cbn [tok_valid] in Hi. do 25 (try (destruct i as [|i]; [by vm_compute|])). cbn in Hi. lia.
  - cbn [hd_id tok_tid]. unfold name_tid. change (STATE_STMT =? STATE_STMT) with true. cbn iota.
    destruct (keyword x) as [k|] eqn:Ek; [|by destruct (_ =? 40)].
    apply Z.eqb_neq. intros ->. apply keyword_else in Ek as ->. done.
Qed.

Lemma hd_id_newline ts : script_valid ts -> (hd_id ts =? TOK_NEWLINE) = false.
Proof.
  intros Hv. destruct ts as [|[i|q body|ds|x] ts]; [done|..|done|done|].
  - destruct Hv as (Hi & _). cbn [tok_valid] in Hi. do 25 (try (destruct i as [|i]; [by vm_compute|])). cbn in Hi. lia.
  - cbn [hd_id tok_tid]. unfold name_tid. change (STATE_STMT =? STATE_STMT) with true. cbn iota.
    destruct (keyword x) as [k|] eqn:Ek; [|by destruct (_ =? 40)].
    by apply Z.eqb_neq, (keyword_newline x).
Qed.

(** The first token of a statement is no [else]. *)
Lemma plain_not_else x ts : plain_name x -> not_else (KName x :: ts).
Proof. unfold plain_name. intros Hx [= ->]. done. Qed.

Lemma term_not_else t ts : term_wf t -> not_else (term_toks t ++ ts).
Proof. destruct t; cbn; intros Hw; try discriminate; apply plain_not_else; [done..|apply Hw]. Qed.

Lemma stmt_not_else s ts : stmt_wf s -> not_else (stmt_toks s ++ ts).
Proof.
  destruct s as [|[x e|t]| | | | | |]; cbn [stmt_toks stmt_wf simple_wf simple_toks]; intros Hw; try discriminate.
  - by apply plain_not_else, Hw.
  - rewrite <- app_assoc. by apply term_not_else, Hw.
Qed.

Lemma stmts_not_else ss ts : stmts_wf ss -> not_else ts -> not_else (stmts_toks ss ++ ts).
Proof. destruct ss as [|s ss]; [done|]. intros [Hs _] _. cbn [stmts_toks]. rewrite <- app_assoc. by apply stmt_not_else. Qed.

Section Stmts.
Context {Q : Type} `{ByteQueueLaws Q} {Y : Type} `{SymbolsLaws Y}.
Context (lw : Z) (balloc : Z -> option (list Z)) (brealloc : list Z -> Z -> option (list Z)).
Hypothesis lw_ok : lw = 32 \/ lw = 64.
Hypothesis balloc_ok : forall n, 0 < n -> exists b, balloc n = Some b /\ zlen b = n.
Hypothesis brealloc_ok : forall b n, zlen b <= n -> exists b', brealloc b n = Some b' /\
  zlen b' = n /\ take (length b) b' = b.
Context (bstrdup : list Z -> option (list Z)).
Hypothesis bstrdup_ok : forall s, bstrdup s = Some s.
Context (args_room : Z -> bool).
Hypothesis args_room_ok : forall n, args_room n = true.

Context (text : list Z) (cap tokcap : Z).
Context (ep eid uh : Z) (vs : handle_map) (top glob funs nblocks : Z).
Hypothesis ep_ok : ep <> 0.
Hypothesis top_ok : hread vs (nblocks - 1) = Some (top + EJ_OFFSET).
Hypothesis glob_ok : hread vs 0 = Some (glob + EJ_OFFSET).
Hypothesis nblocks_ok : 1 <= nblocks.

Notation world := (world (Q := Q) (Y := Y)).
Notation PM := (PM (Q := Q) (Y := Y)).
Notation put_back := (put_back text cap tokcap).
Notation upcoming := (upcoming text cap tokcap).
Notation clean := (clean text cap tokcap).
Notation Inv := (Inv ep eid uh vs top glob funs nblocks).

(** The host functions, as for expressions. *)
Context (call_fn : Z -> Z -> Z -> Z -> list (option (list Z)) -> PM Z).
Context (host : Z -> list (list Z) -> est -> est -> Prop).
Hypothesis host_ok : forall fn args σ σ' f ip tk w k, host fn args σ σ' -> Inv f σ ip tk w ->
  run (call_fn fn eid uh (zlen args) (map Some args ++ repeat None k)) w
    (fun r w' => 0 <= r /\ Inv f σ' ip None w').

Notation parse := (parse lw balloc brealloc bstrdup args_room call_fn).
Notation rec n := (parse n ep).
Notation stmt_loop n := (stmt_loop lw balloc brealloc bstrdup call_fn n ep (rec n)).
Notation stmt_case n := (stmt_case lw balloc brealloc bstrdup call_fn n ep (rec n)).
Notation parseStmt n := (parseStmt lw balloc brealloc bstrdup call_fn n ep (rec n)).
Notation get state := (lex ep (ejLexGetToken lw balloc brealloc state)).
Notation expect_token := (expect_token lw balloc brealloc ep).
Notation run_get := (run_get lw balloc brealloc lw_ok balloc_ok brealloc_ok bstrdup bstrdup_ok text cap tokcap ep eid uh vs top glob funs nblocks).
Notation run_putback := (run_putback bstrdup bstrdup_ok text cap tokcap ep eid uh vs top glob funs nblocks).
Notation run_save := (run_save bstrdup bstrdup_ok text cap tokcap ep eid uh vs top glob funs nblocks).
Notation run_restore := (run_restore bstrdup bstrdup_ok text cap tokcap ep eid uh vs top glob funs nblocks).
Notation run_result := (run_result ep eid uh vs top glob funs nblocks).
Notation run_set_result := (run_set_result bstrdup bstrdup_ok ep eid uh vs top glob funs nblocks).
Notation run_eid := (run_eid ep eid uh vs top glob funs nblocks).
Notation run_getvar := (run_getvar ep eid uh vs top glob funs nblocks ep_ok top_ok glob_ok).
Notation run_set_local := (run_set_local bstrdup bstrdup_ok ep eid uh vs top glob funs nblocks ep_ok top_ok).
Notation run_variableMax := (run_variableMax ep eid uh vs top glob funs nblocks).
Notation run_parse_stmt := (run_parse_stmt lw balloc brealloc bstrdup args_room ep call_fn).
Notation run_parse_tail := (run_parse_tail lw balloc brealloc ep).
Notation run_stmt_loop := (run_stmt_loop lw balloc brealloc lw_ok balloc_ok brealloc_ok bstrdup bstrdup_ok args_room text cap tokcap ep eid uh vs top glob funs nblocks call_fn).
Notation run_stmt_id := (run_stmt_id lw balloc brealloc lw_ok balloc_ok brealloc_ok bstrdup bstrdup_ok args_room text cap tokcap ep eid uh vs top glob funs nblocks call_fn).
Notation run_name_end := (run_name_end bstrdup bstrdup_ok text cap tokcap ep eid uh vs top glob funs nblocks).

Notation ev_term := (ev_term top glob funs nblocks host).
Notation ev_expr := (ev_expr top glob funs nblocks host).
Notation ev_simple := (ev_simple top glob funs nblocks host).
Notation ev_decl := (ev_decl top glob funs nblocks host).
Notation ev_decls := (ev_decls top glob funs nblocks host).
Notation exec := (exec top glob funs nblocks host).
Notation exec_list := (exec_list top glob funs nblocks host).
Notation loop := (loop top glob funs nblocks host).
Notation find_var := (find_var top glob nblocks).

Notation term_parsed := (term_parsed lw balloc brealloc bstrdup args_room text cap tokcap ep eid uh vs top glob funs nblocks call_fn).
Notation expr_parsed := (expr_parsed lw balloc brealloc bstrdup args_room text cap tokcap ep eid uh vs top glob funs nblocks call_fn).
Notation assign_parsed := (assign_parsed lw balloc brealloc bstrdup args_room text cap tokcap ep eid uh vs top glob funs nblocks call_fn).
Notation exprs_parsed := (exprs_parsed lw balloc brealloc lw_ok balloc_ok brealloc_ok bstrdup bstrdup_ok args_room args_room_ok
  text cap tokcap ep eid uh vs top glob funs nblocks ep_ok top_ok glob_ok nblocks_ok call_fn host host_ok).
Notation assign_executed := (assign_executed lw balloc brealloc lw_ok balloc_ok brealloc_ok bstrdup bstrdup_ok args_room args_room_ok
  text cap tokcap ep eid uh vs top glob funs nblocks ep_ok top_ok glob_ok nblocks_ok call_fn host host_ok).
Notation assign_skipped := (assign_skipped lw balloc brealloc lw_ok balloc_ok brealloc_ok bstrdup bstrdup_ok args_room args_room_ok
  text cap tokcap ep eid uh vs top glob funs nblocks ep_ok top_ok glob_ok nblocks_ok call_fn host host_ok).

Notation run_assignment := (run_assignment lw balloc brealloc lw_ok balloc_ok brealloc_ok bstrdup bstrdup_ok args_room args_room_ok
  text cap tokcap ep eid uh vs top glob funs nblocks ep_ok top_ok glob_ok nblocks_ok call_fn host host_ok).

Lemma upcoming_any b ip ts : upcoming true ip ts -> upcoming b ip ts.
Proof. destruct b; [done|]. apply upcoming_false. Qed.

(** ** Steps that the cases share *)

Lemma agrees_stmt ts : agrees STATE_STMT ts.
Proof. destruct ts as [|[] ts]; try done. by left. Qed.

Lemma run_expect_token t ts tok k f σ ip tk w pb (P : outcome -> world -> Prop) :
  Inv f σ ip tk w -> upcoming pb ip (t :: ts) -> hd_id (t :: ts) = tok ->
  (forall ip' w', Inv f σ ip' None w' -> clean pb ip' ts -> run k w' P) ->
  run (expect_token tok STATE_STMT k) w P.
Proof using All.
  intros Hi Hu Hid HP. unfold EjParse.expect_token. apply run_bind.
  eapply run_get; [exact Hi|exact Hu|apply agrees_stmt|]. intros ip' w' Hi' Hc'. rewrite Hid, Z.eqb_refl.
  eapply HP; [eapply inv_forget; exact Hi'|exact Hc'].
Qed.

Lemma run_expect_parse n st done flags k w (P : outcome -> world -> Prop) :
  run (parse n ep st flags) w (fun r w' => r = done /\ run k w' P) ->
  run (expect_parse (rec n) st done flags k) w P.
Proof.
  intros Hm. unfold expect_parse. apply run_bind. eapply run_mono; [exact Hm|]. intros r w' [-> HP]. by rewrite Z.eqb_refl.
Qed.

Lemma run_result_char f σ ip tk w (P : Z -> world -> Prop) : Inv f σ ip tk w -> P (first_char (res σ)) w ->
  run (result_char ep) w P.
Proof using All.
  intros Hi HP. unfold result_char. apply run_bind. eapply run_result; [exact Hi|]. apply run_bind.
  eapply run_lift; [reflexivity|]. by apply run_ret.
Qed.

(** A statement that may return. *)
Lemma run_sub_statement n flags k w (P : outcome -> world -> Prop) :
  run (parse n ep STATE_STMT flags) w (fun r w' => r = STATE_RET /\ P (Return STATE_RET) w' \/
    r = STATE_STMT_DONE /\ run k w' P) ->
  run (sub_statement (rec n) flags k) w P.
Proof.
  intros Hm. unfold sub_statement. apply run_bind. eapply run_mono; [exact Hm|].
  intros r w' [[-> HP]|[-> HP]]; [by apply run_ret|exact HP].
Qed.

(** ** Conditions *)

Definition cond_end (ts : list tok) : Prop := exists ts', ts = SEMI :: ts' \/ ts = RPAREN :: ts'.

Lemma parse_cond b σ e σ' : expr_parsed b σ e σ' ->
  exists N, forall n f ip tk w ts pb (P : Z -> world -> Prop), (N <= n)%nat ->
    Inv f σ ip tk w -> expr_wf e -> cond_end ts -> upcoming pb ip (expr_toks e ++ ts) ->
    (forall ip' w', Inv f σ' ip' None w' -> put_back ip' ts -> P STATE_COND_DONE w') ->
    run (parse n ep STATE_COND (fl b)) w P.
Proof using All.
  intros (N & HN). exists (S (S N)). intros n f ip tk w ts pb P Hn Hi Hw Hs Hu HP.
  destruct n as [|[|n]]; [lia..|]. cbn [EjParse.parse]. unfold parse_body. apply run_parse_tail. cbn -[EjParse.parse cond_loop].
  unfold parseCond. apply run_bind. eapply run_set_result; [done|]. intros w1 Hi1. cbn [default from_option id] in Hi1.
  cbn [cond_loop]. apply run_bind.
  assert (Hs' : stops ts) by (destruct Hs as (ts' & [-> | ->]); eexists; auto).
  eapply (HN (S n) f (result [] σ)); [lia|done|exact Hi1|exact Hw|exact Hs'|exact Hu|]. intros ip2 w2 Hi2 Hp2.
  change (negb (STATE_RELEXP_DONE =? STATE_RELEXP_DONE)) with false. change (0 <? 0) with false. cbn iota.
  apply run_bind, run_ret. change (0 <? 0) with false. cbn iota. apply run_bind. eapply run_result; [done|].
  pose proof (upcoming_valid _ _ _ true _ _ (or_intror Hp2)) as Hv.
  apply run_bind. eapply (run_get true); [exact Hi2|by right|by apply stops_agrees|]. intros ip3 w3 Hi3 Hc3.
  assert ((hd_id ts =? TOK_LOGICAL) = false /\ (hd_id ts =? TOK_RPAREN) || (hd_id ts =? TOK_SEMI) = true) as [-> ->]
    by (by destruct Hs as (ts' & [-> | ->])).
  apply run_bind. eapply run_putback; [exact Hi3|exact Hc3|exact Hv|]. intros ip4 w4 Hi4 Hp4. apply run_ret.
  split; [done|]. by eapply HP.
Qed.

(** ** Assignments and terms as statements *)

Lemma assign_parsed_ev b σ x e σ' : ev_expr b σ (EAssign x e) σ' -> expr_wf e -> assign_parsed b σ x e σ'.
Proof using All.
  intros He Hw. destruct exprs_parsed as (_ & Hexpr & _).
  inversion He; subst; [eapply assign_executed; [by apply Hexpr|done]|by apply assign_skipped, Hexpr].
Qed.

Definition simple_parsed (b : bool) (σ : est) (m : simple) (σ' : est) : Prop :=
  exists N, forall n k st f ip tk w ts pb (P : outcome -> world -> Prop), (N <= n)%nat ->
    st = STATE_EXPR \/ st = STATE_STMT /\ no_paren m ->
    Inv f σ ip tk w -> simple_wf m -> stops ts -> upcoming pb ip (simple_toks m ++ ts) ->
    (forall o ip' w', term_outcome st o -> Inv f σ' ip' None w' -> upcoming pb ip' ts -> P o w') ->
    run (stmt_loop n (S k) st (fl b)) w P.

Lemma simples_parsed b σ m σ' : ev_simple b σ m σ' -> simple_wf m -> simple_parsed b σ m σ'.
Proof using All.
  intros [b' σ0 x e σ1 He|b' σ0 t σ1 Ht] Hwf.
  - destruct (assign_parsed_ev _ _ _ _ _ He (proj2 Hwf)) as (N & HN). exists N.
    intros n k st f ip tk w ts pb P Hn Hst Hi [Hx Hw] Hs Hu HP.
    eapply HN; [exact Hn|reflexivity|tauto|exact Hi|exact Hx|exact Hw|exact Hs|exact Hu|].
    intros ip' w' Hi' Hp'. eapply HP; [by left|exact Hi'|by right].
  - destruct exprs_parsed as (Hterm & _). destruct (Hterm _ _ _ _ Ht Hwf) as (N & HN). exists N.
    intros n k st f ip tk w ts pb P Hn Hst Hi Hw Hs Hu HP.
    eapply HN; [exact Hn| |exact Hi|exact Hw|by apply stops_follow|exact Hu|exact HP].
    destruct Hst as [-> |[-> Hp]]; [by left|right]. split; [done|]. by destruct t.
Qed.

(** The increment of a loop. *)
Lemma parse_simple b σ m σ' : simple_parsed b σ m σ' ->
  exists N, forall n f ip tk w ts pb (P : Z -> world -> Prop), (N <= n)%nat ->
    Inv f σ ip tk w -> simple_wf m -> stops ts -> upcoming pb ip (simple_toks m ++ ts) ->
    (forall ip' w', Inv f σ' ip' None w' -> upcoming pb ip' ts -> P STATE_EXPR_DONE w') ->
    run (parse n ep STATE_EXPR (fl b)) w P.
Proof.
  intros (N & HN). exists (S (S N)). intros n f ip tk w ts pb P Hn Hi Hw Hf Hu HP.
  destruct n as [|[|n]]; [lia..|]. eapply run_parse_stmt; [by right; right|].
  unfold EjParse.parseStmt. apply run_bind.
  apply (HN (S n) n STATE_EXPR f ip tk w ts pb); [lia|by left|done..|].
  intros o ip' w' [-> |[_ ->]] Hi' Hu'; apply run_ret; (split; [set_solver|by eapply HP]).
Qed.

(** The start of a loop; a token is put back behind it. *)
Lemma parse_init b σ x e σ' : assign_parsed b σ x e σ' ->
  exists N, forall n f ip tk w ts pb (P : Z -> world -> Prop), (N <= n)%nat ->
    Inv f σ ip tk w -> plain_name x -> expr_wf e -> stops ts -> upcoming pb ip (KName x :: ASSIGN :: expr_toks e ++ ts) ->
    (forall ip' w', Inv f σ' ip' None w' -> put_back ip' ts -> P STATE_EXPR_DONE w') ->
    run (parse n ep STATE_EXPR (fl b)) w P.
Proof.
  intros (N & HN). exists (S (S N)). intros n f ip tk w ts pb P Hn Hi Hx Hw Hf Hu HP.
  destruct n as [|[|n]]; [lia..|]. eapply run_parse_stmt; [by right; right|].
  unfold EjParse.parseStmt. apply run_bind.
  eapply (HN (S n) n STATE_EXPR f σ ip tk w ts pb); [lia|done|by left|done..|].
  intros ip' w' Hi' Hp'. apply run_ret. split; [set_solver|by eapply HP].
Qed.

(** ** The loop of [parseStmt] at a statement *)

Lemma run_remove_newlines n st f σ ip tk w ts pb (P : unit -> world -> Prop) :
  Inv f σ ip tk w -> upcoming pb ip ts -> agrees st ts ->
  (forall ip' w', Inv f σ ip' None w' -> put_back ip' ts -> P tt w') ->
  run (ejRemoveNewlines lw balloc brealloc bstrdup (S n) ep st) w P.
Proof using All.
  intros Hi Hu Ha HP. pose proof (upcoming_valid _ _ _ _ _ _ Hu) as Hv. unfold ejRemoveNewlines. cbn [remove_newlines].
  apply run_bind. eapply run_get; [exact Hi|exact Hu|exact Ha|]. intros ip1 w1 Hi1 Hc1. rewrite hd_id_newline by done.
  eapply run_putback; [exact Hi1|exact Hc1|exact Hv|exact HP].
Qed.

(** What the cases of the switch may end with at a statement. *)
Definition stmt_outcome (ts : list tok) (pb : bool) (f : func_ptr) (σ : est) (P : Z -> world -> Prop)
  (o : outcome) (w : world) : Prop :=
  match o with
  | Return r => r ∈ [STATE_STMT_DONE; STATE_STMT_BLOCK_DONE; STATE_RET] /\ P r w
  | Done st false => st = STATE_STMT /\ P STATE_STMT_DONE w \/ st = STATE_EOF /\ P STATE_EOF w
  | Done st true => st = STATE_STMT /\ exists ip, Inv f σ ip None w /\ upcoming pb ip (SEMI :: ts) /\
      forall ip' w', Inv f σ ip' None w' -> put_back ip' ts -> P STATE_STMT_DONE w'
  | _ => False
  end.

Lemma run_statement n flags ts pb f σ w (P : Z -> world -> Prop) :
  run (stmt_loop (S n) (S n) STATE_STMT flags) w (stmt_outcome ts pb f σ P) ->
  run (parse (S (S n)) ep STATE_STMT flags) w P.
Proof using All.
  intros Hm. eapply run_parse_stmt; [by left|]. unfold EjParse.parseStmt. apply run_bind.
  eapply run_mono; [exact Hm|]. intros o w' Ho. destruct o as [| r | |st []]; cbn in Ho; try done.
  - destruct Ho as [Hr HP]. apply run_ret. split; [set_solver|done].
  - destruct Ho as (-> & ip & Hi & Hu & HP). apply run_bind. eapply run_get; [exact Hi|exact Hu|done|].
    intros ip1 w1 Hi1 Hc1. cbn [tl] in Hc1. change (hd_id (SEMI :: ts)) with TOK_SEMI. rewrite Z.eqb_refl. cbn [negb andb].
    apply run_bind. eapply (run_remove_newlines n _ _ _ _ _ _ _ pb); [exact Hi1|by left|apply agrees_stmt|].
    intros ip2 w2 Hi2 Hp2. apply run_ret. split; [set_solver|by eapply HP].
  - destruct Ho as [[-> HP]|[-> HP]]; apply run_ret; (split; [set_solver|done]).
Qed.

(** A statement, from its first token. *)
Lemma run_statement_at n flags t ts ts' pb f σ σ' ip tk w (P : Z -> world -> Prop) :
  Inv f σ ip tk w -> upcoming pb ip (t :: ts) ->
  (forall ip' w', Inv f σ ip' (Some (tok_text t)) w' -> clean pb ip' ts ->
     run (stmt_case (S n) (hd_id (t :: ts)) STATE_STMT flags) w' (stmt_outcome ts' pb f σ' P)) ->
  run (parse (S (S n)) ep STATE_STMT flags) w P.
Proof using All.
  intros Hi Hu Hm. eapply run_statement. eapply run_stmt_loop; [exact Hi|exact Hu|apply agrees_stmt|].
  intros ip' w' Hi' Hc'. eapply run_mono; [by eapply Hm|]. intros o w'' Ho. split; [|exact Ho].
  by destruct o.
Qed.

(** ** Declarations *)

Definition decl_end (ts : list tok) : Prop := exists ts', ts = SEMI :: ts' \/ ts = COMMA :: ts'.

Lemma decl_end_follow ts : decl_end ts -> term_follow ts.
Proof. intros (ts' & [-> | ->]); apply stops_follow; exists ts'; auto. Qed.

Lemma decl_end_stops ts : decl_end ts -> stops ts.
Proof. intros (ts' & [-> | ->]); exists ts'; auto. Qed.

Definition decl_parsed (b : bool) (σ : est) (x : list Z) (e : option expr) (σ' : est) : Prop :=
  exists N, forall n f ip tk w ts pb (P : Z -> world -> Prop), (N <= n)%nat ->
    Inv f σ ip tk w -> decl_wf x e -> decl_end ts -> upcoming pb ip (decl_toks x e ++ ts) ->
    (forall ip' w', Inv f σ' ip' None w' -> put_back ip' ts -> P STATE_DEC_DONE w') ->
    run (parse n ep STATE_DEC (fl b)) w P.

(** With a value. *)
Lemma decl_assign b σ x e σ1 : expr_parsed b σ e σ1 ->
  decl_parsed b σ x (Some e) (if b then set_at top x (Some (res σ1)) σ1 else σ1).
Proof using All.
  intros (N & HN). exists (S (S N)). intros n f ip tk w ts pb P Hn Hi [Hx Hw] Hs Hu HP. destruct n as [|[|n]]; [lia..|].
  pose proof (name_nonempty _ _ (upcoming_valid _ _ _ _ _ _ Hu)) as Hne.
  eapply run_parse_stmt; [by right; left|]. unfold EjParse.parseStmt. apply run_bind.
  eapply run_assignment; [exact Hi|exact Hx|exact Hu|]. intros ip1 w1 Hi1 Hu1. unfold stmt_assign. apply run_bind.
  eapply HN; [lia|reflexivity|exact Hi1|exact Hw|by apply decl_end_stops|exact Hu1|]. intros ip2 w2 Hi2 Hp2.
  rewrite Z.eqb_refl. cbn [negb]. rewrite exe_fl. apply run_bind.
  assert (Hend : forall w3, Inv f (if b then set_at top x (Some (res σ1)) σ1 else σ1) ip2 None w3 ->
    run (done_semi STATE_DEC) w3 (fun o w'' => final o /\ run (match o with
      | Return r => mret r
      | Error | Again _ => mret STATE_ERR
      | Done state expectSemi =>
          if expectSemi : bool then
            tid ← get state;
            if negb (tid =? TOK_SEMI) && negb (tid =? TOK_NEWLINE) then mret STATE_ERR
            else ejRemoveNewlines lw balloc brealloc bstrdup (S n) ep state;; mret (done_state state)
          else mret (done_state state) end) w'' (fun r w' => r ∈ [STATE_DEC_DONE; STATE_EOF] /\ P r w'))).
  { intros w3 Hi3. apply run_ret. split; [done|]. cbn. apply run_ret. split; [set_solver|by eapply HP]. }
  destruct b; [|by apply run_ret, Hend].
  apply run_bind. eapply run_eid; [done|]. change (STATE_DEC =? STATE_DEC) with true. cbn iota.
  apply run_bind. eapply run_result; [done|]. eapply run_set_local; [done|done|]. intros w3 Hi3. by apply Hend.
Qed.

(** Without one. *)
Lemma decl_null b σ x i v : find_var σ x = Some (i, v) -> i <= 0 -> (nblocks = 1 -> v = None) ->
  decl_parsed b σ x None (result (default [] v) (set_at top x None σ)).
Proof using All.
  intros Hf Hi0 Hv1. exists 2%nat. intros n f ip tk w ts pb P Hn Hi [Hx _] Hs Hu HP. destruct n as [|[|n]]; [lia..|].
  pose proof (upcoming_valid _ _ _ _ _ _ Hu) as Hv. pose proof (name_nonempty _ _ Hv) as Hne.
  pose proof (script_valid_tl _ Hv) as Hv'. cbn [tl decl_toks app] in Hv'.
  destruct (follow_id ts Hv' (decl_end_follow _ Hs)) as [Ea Eb].
  eapply run_parse_stmt; [by right; left|]. unfold EjParse.parseStmt. apply run_bind. cbn [decl_toks app] in Hu.
  eapply run_stmt_loop; [exact Hi|exact Hu|by apply name_agrees|]. intros ip1 w1 Hi1 Hc1. cbn [tl hd_text tok_text] in Hc1, Hi1.
  rewrite name_id, stmt_case_id by (done || left; by apply decl_end_follow).
  eapply run_stmt_id; [exact Hi1|left; exact Hc1|by apply follow_agrees, decl_end_follow|]. intros ip2 w2 Hi2 Hc2.
  rewrite Ea, Eb. unfold stmt_name. apply run_bind. eapply run_eid; [done|]. change (STATE_DEC =? STATE_DEC) with true. cbn iota.
  apply run_bind, run_bind. eapply run_getvar; [done|done|exact Hf|]. replace (0 <? i) with false by zb.
  apply run_bind. eapply run_set_local; [done|done|]. intros w3 Hi3.
  apply run_bind. eapply run_variableMax; [done|].
  assert (Hend : run (set_result bstrdup ep v;; putback bstrdup ep (hd_id ts);; done_semi STATE_DEC) w3
    (fun o w'' => o = Done STATE_DEC false /\ P STATE_DEC_DONE w'')).
  { eapply run_name_end; [exact Hi3|exact Hc2|done|]. intros ip4 w4 Hi4 Hp4. split; [done|by eapply HP]. }
  assert (E : (match v with Some _ => if nblocks =? 1 then pfail else mret (Some v) | None => mret (Some v) end
             : PM (option (option (list Z)))) = mret (Some v)).
  { destruct v; [|done]. destruct (Z.eqb_spec nblocks 1) as [E|]; [by specialize (Hv1 E)|done]. }
  rewrite E. apply run_ret. eapply run_mono; [exact Hend|]. intros o w4 [-> HP4]. split; [done|].
  cbn. apply run_ret. split; [set_solver|done].
Qed.

Lemma decl_parsed_ev b σ x e σ' : ev_decl b σ x e σ' -> decl_wf x e -> decl_parsed b σ x e σ'.
Proof using All.
  destruct exprs_parsed as (_ & Hexpr & _). intros [σ0 x0 e0 σ1 He|σ0 x0 e0 σ1 He|] Hw.
  - apply (decl_assign true). by apply Hexpr, Hw.
  - apply (decl_assign false). by apply Hexpr, Hw.
  - by eapply decl_null.
Qed.

Definition decls_parsed (b : bool) (σ : est) (ds : decls) (σ' : est) : Prop :=
  exists N, forall n k f ip tk w ts pb (P : Z -> world -> Prop), (N <= n)%nat -> (N <= k)%nat ->
    Inv f σ ip tk w -> decls_wf ds -> upcoming pb ip (decls_toks ds ++ SEMI :: ts) ->
    (forall ip' w', Inv f σ' ip' None w' -> upcoming pb ip' ts -> P STATE_DEC_LIST_DONE w') ->
    run (declaration_loop lw balloc brealloc bstrdup ep (rec n) k STATE_DEC_LIST (fl b)) w P.

(** A round of the loop over the declarations. *)
Lemma run_declaration b σ x e σ' : decl_parsed b σ x e σ' ->
  exists N, forall n k f ip tk w ts pb (P : Z -> world -> Prop), (N <= n)%nat ->
    Inv f σ ip tk w -> decl_wf x e -> decl_end ts -> upcoming pb ip (decl_toks x e ++ ts) ->
    (forall ip' w', Inv f σ' ip' None w' -> clean pb ip' (tl ts) ->
       run (if hd_id ts =? TOK_SEMI then mret STATE_DEC_LIST_DONE
            else if negb (hd_id ts =? TOK_COMMA) then mret STATE_ERR
            else declaration_loop lw balloc brealloc bstrdup ep (rec n) k STATE_DEC_LIST (fl b)) w' P) ->
    run (declaration_loop lw balloc brealloc bstrdup ep (rec n) (S k) STATE_DEC_LIST (fl b)) w P.
Proof using All.
  intros (N & HN). exists N. intros n k f ip tk w ts pb P Hn Hi [Hx Hw] Hs Hu HP.
  pose proof (upcoming_valid _ _ _ _ _ _ Hu) as Hv. pose proof (script_valid_tl _ Hv) as Hv'. cbn [tl decl_toks app] in Hv'.
  assert (Eid : hd_id (decl_toks x e ++ ts) = TOK_ID).
  { cbn [decl_toks app]. apply name_id; [done|done|]. destruct e as [e|]; [right|left; by apply decl_end_follow].
    eexists _, _. split; [reflexivity|done]. }
  cbn [declaration_loop]. apply run_bind. eapply run_get; [exact Hi|exact Hu|by right|]. intros ip1 w1 Hi1 Hc1.
  rewrite Eid, Z.eqb_refl. cbn [negb]. apply run_bind. rewrite <- Eid.
  eapply run_putback; [exact Hi1|exact Hc1|exact Hv|]. intros ip2 w2 Hi2 Hp2.
  apply run_bind. eapply (HN n _ _ _ _ ts true); [exact Hn|exact Hi2|by split|exact Hs|by right|]. intros ip3 w3 Hi3 Hp3.
  rewrite Z.eqb_refl. cbn [negb]. apply run_bind.
  eapply (run_get pb); [exact Hi3|by right|by apply stops_agrees, decl_end_stops|]. intros ip4 w4 Hi4 Hc4.
  eapply HP; [eapply inv_forget; exact Hi4|exact Hc4].
Qed.

Lemma decls_parsed_ev b σ ds σ' : ev_decls b σ ds σ' -> decls_wf ds -> decls_parsed b σ ds σ'.
Proof using All.
  induction 1 as [b σ x e σ' Hd|b σ x e ds σ1 σ' Hd _ IH]; cbn [decls_wf].
  - intros Hw. destruct (run_declaration _ _ _ _ _ (decl_parsed_ev _ _ _ _ _ Hd Hw)) as (N & HN).
    exists (S N). intros n k f ip tk w ts pb P Hn Hk Hi _ Hu HP. destruct k as [|k]; [lia|].
    eapply HN; [lia|exact Hi|exact Hw|exists ts; by left|exact Hu|]. intros ip1 w1 Hi1 Hc1.
    change (hd_id (SEMI :: ts) =? TOK_SEMI) with true. cbn iota. apply run_ret. eapply HP; [exact Hi1|by left].
  - intros [Hw1 Hw2]. destruct (run_declaration _ _ _ _ _ (decl_parsed_ev _ _ _ _ _ Hd Hw1)) as (N1 & HN1).
    destruct (IH Hw2) as (N2 & HN2). exists (S (N1 + N2)). intros n k f ip tk w ts pb P Hn Hk Hi _ Hu HP.
    destruct k as [|k]; [lia|]. cbn [decls_toks] in Hu. rewrite <- app_assoc in Hu. cbn [app] in Hu.
    eapply HN1; [lia|exact Hi|exact Hw1|eexists; right; reflexivity|exact Hu|]. intros ip1 w1 Hi1 Hc1.
    change (hd_id (COMMA :: decls_toks ds ++ SEMI :: ts) =? TOK_SEMI) with false.
    change (hd_id (COMMA :: decls_toks ds ++ SEMI :: ts) =? TOK_COMMA) with true. cbn [negb].
    eapply HN2; [lia|lia|exact Hi1|exact Hw2|left; exact Hc1|exact HP].
Qed.

(** ** Statements *)

(** The script has returned, or [ts] are left. *)
Definition leaves (o : bool) (ts : list tok) (pb : bool) (ip : EjLex.ejinput (Q := Q)) (r : Z) : Prop :=
  if o then r = STATE_RET else r = STATE_STMT_DONE /\ upcoming pb ip ts.

Definition stmt_parsed (b : bool) (σ : est) (s : stmt) (o : bool) (σ' : est) : Prop :=
  exists N, forall n f ip tk w ts pb (P : Z -> world -> Prop), (N + length (stmt_toks s ++ ts) <= n)%nat ->
    Inv f σ ip tk w -> stmt_wf s -> (open_if s = true -> not_else ts) -> upcoming pb ip (stmt_toks s ++ ts) ->
    (forall r ip' w', Inv f σ' ip' None w' -> leaves o ts pb ip' r -> P r w') ->
    run (parse n ep STATE_STMT (fl b)) w P.

(** The statements of a block. *)
Definition stmts_parsed (b : bool) (σ : est) (ss : stmts) (o : bool) (σ' : est) : Prop :=
  exists N, forall n k f ip tk w ts pb (P : Z -> world -> Prop),
    (N + length (stmts_toks ss ++ RBRACE :: ts) <= n)%nat -> (N <= k)%nat ->
    Inv f σ ip tk w -> stmts_wf ss -> upcoming pb ip (stmts_toks ss ++ RBRACE :: ts) ->
    (forall r ip' w', Inv f σ' ip' None w' ->
       (if o then r = STATE_RET else r = STATE_STMT_BLOCK_DONE /\ put_back ip' (RBRACE :: ts)) -> P r w') ->
    run (block_loop (rec n) k (fl b)) w P.

(** The rounds of a loop; the saved inputs have the condition, the increment, the body and
    what is behind the loop to be read. *)
Definition loop_parsed (b c : bool) (σ : est) (cond : expr) (inc : simple) (body : stmt) (o : bool) (σ' : est) : Prop :=
  exists N, forall n k f ip tk w ts0 ts ic ii ib ie (P : outcome -> world -> Prop),
    let rest := stmt_toks body ++ ts in
    (N + length rest <= n)%nat -> (N <= k)%nat ->
    Inv f σ ip tk w -> expr_wf cond -> simple_wf inc -> stmt_wf body -> (open_if body = true -> not_else ts) ->
    upcoming true ip ts0 ->
    upcoming true ic (expr_toks cond ++ SEMI :: simple_toks inc ++ RPAREN :: rest) ->
    upcoming true ii (simple_toks inc ++ RPAREN :: rest) -> upcoming true ib rest -> upcoming true ie ts ->
    (forall out ip' w', Inv f σ' ip' None w' ->
       (if o then out = Return STATE_RET else out = Done STATE_STMT false /\ upcoming true ip' ts) -> P out w') ->
    run (for_loop bstrdup ep (rec n) k STATE_STMT (fl b) c ic ii ib ie) w P.

Lemma stmt_empty b σ : stmt_parsed b σ SEmpty false σ.
Proof using All.
  exists 2%nat. intros n f ip tk w ts pb P Hn Hi _ _ Hu HP. destruct n as [|[|n]]; [lia..|].
  eapply (run_statement_at n _ SEMI ts ts pb f σ σ); [exact Hi|exact Hu|]. intros ip1 w1 Hi1 Hc1.
  change (hd_id (SEMI :: ts)) with TOK_SEMI. cbn -[stmt_outcome]. apply run_ret. left. split; [done|].
  eapply HP; [eapply inv_forget; exact Hi1|]. split; [done|by left].
Qed.

Lemma stmt_simple b σ m σ' : ev_simple b σ m σ' -> simple_wf m -> stmt_parsed b σ (SSimple m) false σ'.
Proof using All.
  intros Hm Hwm. destruct (simples_parsed _ _ _ _ Hm Hwm) as (N & HN). exists (S (S N)).
  intros n f ip tk w ts pb P Hn Hi [Hw Hp] _ Hu HP. destruct n as [|[|n]]; [lia..|].
  cbn [stmt_toks] in Hu. rewrite <- app_assoc in Hu.
  apply (run_statement n _ ts pb f σ'). eapply HN; [lia|by right|exact Hi|exact Hw|by eexists; left|exact Hu|].
  intros o ip1 w1 [-> |[[=] _]] Hi1 Hu1. cbn. split; [done|]. exists ip1. split_and!; [exact Hi1|exact Hu1|].
  intros ip2 w2 Hi2 Hp2. eapply HP; [exact Hi2|]. split; [done|by right].
Qed.

Lemma stmt_var b σ ds σ' : ev_decls b σ ds σ' -> decls_wf ds -> stmt_parsed b σ (SVar ds) false σ'.
Proof using All.
  intros Hd Hwd. destruct (decls_parsed_ev _ _ _ _ Hd Hwd) as (N & HN). exists (S (S (S N))).
  intros n f ip tk w ts pb P Hn Hi Hw _ Hu HP. destruct n as [|[|[|n]]]; [lia..|].
  cbn [stmt_toks app] in Hu. rewrite <- app_assoc in Hu. cbn [app] in Hu.
  eapply (run_statement_at (S n) _ _ _ ts pb f σ σ'); [exact Hi|exact Hu|]. intros ip1 w1 Hi1 Hc1.
  match goal with |- context [hd_id ?l] => change (hd_id l) with TOK_VAR end.
  cbn -[stmt_outcome expect_parse EjParse.parse]. unfold expect_parse. apply run_bind.
  cbn [EjParse.parse]. unfold parse_body at 1. apply run_parse_tail. cbn -[EjParse.parse parse_body declaration_loop]. unfold parseDeclaration.
  eapply (HN (S n)); [lia|lia|exact Hi1|exact Hw|left; exact Hc1|]. intros ip2 w2 Hi2 Hu2. split; [done|].
  rewrite Z.eqb_refl. apply run_ret. left. split; [done|]. eapply HP; [exact Hi2|by split].
Qed.

(** *** Conditionals *)

Notation stmt_if n := (stmt_if lw balloc brealloc bstrdup n ep (rec n)).
Notation sub_statement n := (sub_statement (rec n)).

Definition taken (b : bool) (σ : est) : bool := b && (first_char (res σ) =? 49).
Definition not_taken (b : bool) (σ : est) : bool := b && negb (first_char (res σ) =? 49).

(** An [if] up to the token behind its first statement. *)
Lemma run_if b σ e σ1 s o σ2 : expr_parsed b σ e σ1 -> stmt_parsed (taken b σ1) σ1 s o σ2 ->
  exists N, forall n f ip tk w ts pb (P : outcome -> world -> Prop), (N + length (stmt_toks s ++ ts) <= n)%nat ->
    Inv f σ ip tk w -> expr_wf e -> stmt_wf s -> (open_if s = true -> not_else ts) ->
    upcoming pb ip (LPAREN :: expr_toks e ++ RPAREN :: stmt_toks s ++ ts) ->
    (forall ip' w', if o then Inv f σ2 ip' None w' -> P (Return STATE_RET) w' else
       Inv f σ2 ip' (Some (hd_text ts)) w' -> clean pb ip' (tl ts) ->
       run (if negb (hd_id ts =? TOK_ELSE) then putback bstrdup ep (hd_id ts);; mret (Done STATE_STMT false)
            else sub_statement n (fl (not_taken b σ1)) (mret (Done STATE_STMT false))) w' P) ->
    run (stmt_if n STATE_STMT (fl b)) w P.
Proof using All.
  intros (N1 & HN1)%parse_cond (N2 & HN2). exists (S (N1 + N2)). intros n f ip tk w ts pb P Hn Hi Hwe Hws Ho Hu HP.
  destruct n as [|n]; [lia|]. unfold EjParse.stmt_if. change (negb (STATE_STMT =? STATE_STMT)) with false. cbn iota.
  eapply run_expect_token; [exact Hi|exact Hu|done|]. intros ip1 w1 Hi1 Hc1. apply run_expect_parse.
  eapply HN1; [lia|exact Hi1|exact Hwe|eexists; right; reflexivity|left; exact Hc1|]. intros ip2 w2 Hi2 Hp2. split; [done|].
  eapply (run_expect_token _ _ _ _ _ _ _ _ _ pb); [exact Hi2|right; exact Hp2|done|]. intros ip3 w3 Hi3 Hc3.
  apply run_bind. eapply run_result_char; [exact Hi3|].
  assert (E : (if first_char (res σ1) =? 49 then (fl b, no_exe (fl b)) else (no_exe (fl b), fl b)) =
    (fl (taken b σ1), fl (not_taken b σ1))).
  { unfold taken, not_taken. rewrite no_exe_fl. by destruct (_ =? 49), b. }
  rewrite E. apply run_sub_statement.
  eapply (HN2 _ _ _ _ _ ts pb); [lia|exact Hi3|exact Hws|exact Ho|left; exact Hc3|]. intros r ip4 w4 Hi4 Hl.
  destruct o; cbn in Hl; [left; split; [done|by eapply HP]|right]. destruct Hl as [-> Hu4]. split; [done|].
  apply run_bind. eapply (run_remove_newlines n); [exact Hi4|exact Hu4|apply agrees_stmt|]. intros ip5 w5 Hi5 Hp5.
  apply run_bind. eapply (run_get pb); [exact Hi5|right; exact Hp5|apply agrees_stmt|]. intros ip6 w6 Hi6 Hc6.
  exact (HP ip6 w6 Hi6 Hc6).
Qed.

Lemma stmt_if_only b σ e s σ1 o σ2 : expr_parsed b σ e σ1 -> stmt_parsed (taken b σ1) σ1 s o σ2 ->
  stmt_parsed b σ (SIf e s) o σ2.
Proof using All.
  intros He Hs. destruct (run_if _ _ _ _ _ _ _ He Hs) as (N & HN). exists (S (S N)).
  intros n f ip tk w ts pb P Hn Hi [Hwe Hws] Ho Hu HP. destruct n as [|[|n]]; [lia..|]. specialize (Ho eq_refl).
  cbn [stmt_toks app length] in Hu, Hn. rewrite length_app, <- app_assoc in *. cbn [app length] in Hu, Hn. rewrite length_app in Hn.
  pose proof (upcoming_valid _ _ _ _ _ _ Hu) as Hv.
  eapply (run_statement_at n _ _ _ ts pb f σ σ2); [exact Hi|exact Hu|]. intros ip1 w1 Hi1 Hc1.
  match goal with |- context [hd_id ?l] => change (hd_id l) with TOK_IF end.
  change (run (stmt_if (S n) STATE_STMT (fl b)) w1 (stmt_outcome ts pb f σ2 P)).
  eapply (HN _ _ _ _ _ ts pb); [rewrite length_app; cbn in Hn; lia|exact Hi1|exact Hwe|exact Hws|done|left; exact Hc1|].
  intros ip2 w2. destruct o; intros Hi2; [cbn; split; [set_solver|by eapply HP]|]. intros Hc2.
  assert (Hvts : script_valid ts).
  { apply script_valid_tl, script_valid_tl in Hv. cbn [tl] in Hv. by apply script_valid_app, script_valid_tl, script_valid_app in Hv. }
  rewrite hd_id_else by done. cbn [negb]. apply run_bind. eapply run_putback; [exact Hi2|exact Hc2|exact Hvts|].
  intros ip3 w3 Hi3 Hp3. apply run_ret. left. split; [done|]. eapply HP; [exact Hi3|]. split; [done|by right].
Qed.

Lemma stmt_if_else b σ e s1 s2 σ1 o σ2 : expr_parsed b σ e σ1 ->
  (exists σ', stmt_parsed (taken b σ1) σ1 s1 false σ' /\ stmt_parsed (not_taken b σ1) σ' s2 o σ2) \/
  (o = true /\ stmt_parsed (taken b σ1) σ1 s1 true σ2) ->
  stmt_parsed b σ (SIfElse e s1 s2) o σ2.
Proof using All.
  intros He Hs.
  assert (exists o1 σ', stmt_parsed (taken b σ1) σ1 s1 o1 σ' /\
    if o1 then o = true /\ σ' = σ2 else stmt_parsed (not_taken b σ1) σ' s2 o σ2) as (o1 & σ' & Hs1 & Hs2).
  { destruct Hs as [(σ' & ? & ?)|[-> ?]]; [by exists false, σ'|by exists true, σ2]. }
  clear Hs. destruct (run_if _ _ _ _ _ _ _ He Hs1) as (N & HN).
  assert (exists N2, if o1 then True else forall n f ip tk w ts pb (P : Z -> world -> Prop), (N2 + length (stmt_toks s2 ++ ts) <= n)%nat ->
    Inv f σ' ip tk w -> stmt_wf s2 -> (open_if s2 = true -> not_else ts) -> upcoming pb ip (stmt_toks s2 ++ ts) ->
    (forall r ip' w', Inv f σ2 ip' None w' -> leaves o ts pb ip' r -> P r w') ->
    run (parse n ep STATE_STMT (fl (not_taken b σ1))) w P) as (N2 & HN2).
  { destruct o1; [by exists O|]. destruct Hs2 as (N2 & HN2). by exists N2. }
  exists (S (S (N + N2))).
  intros n f ip tk w ts pb P Hn Hi (Hwe & Hw1 & Ho1 & Hw2) Ho Hu HP. destruct n as [|[|n]]; [lia..|].
  cbn [stmt_toks app] in Hu. rewrite <- app_assoc in Hu. cbn [app] in Hu. rewrite <- app_assoc in Hu. cbn [app] in Hu.
  assert (Hlen : (N + length (stmt_toks s1 ++ ELSE :: stmt_toks s2 ++ ts) <= S n /\ N2 + length (stmt_toks s2 ++ ts) <= S n)%nat).
  { revert Hn. cbn [stmt_toks]. repeat (rewrite ?length_app; cbn [app length]). lia. }
  eapply (run_statement_at n _ _ _ ts pb f σ σ2); [exact Hi|exact Hu|]. intros ip1 w1 Hi1 Hc1.
  match goal with |- context [hd_id ?l] => change (hd_id l) with TOK_IF end.
  change (run (stmt_if (S n) STATE_STMT (fl b)) w1 (stmt_outcome ts pb f σ2 P)).
  eapply (HN _ _ _ _ _ (ELSE :: stmt_toks s2 ++ ts) pb); [apply Hlen|exact Hi1|exact Hwe|exact Hw1|by rewrite Ho1|left; exact Hc1|].
  intros ip2 w2. destruct o1; intros Hi2.
  { destruct Hs2 as [-> ->]. split; [set_solver|by eapply HP]. }
  intros Hc2. change (negb (hd_id (ELSE :: stmt_toks s2 ++ ts) =? TOK_ELSE)) with false. cbn iota.
  apply run_sub_statement.
  eapply (HN2 _ _ _ _ _ ts pb); [apply Hlen|exact Hi2|exact Hw2|exact Ho|left; exact Hc2|]. intros r ip3 w3 Hi3 Hl.
  destruct o; cbn in Hl; [left; split; [done|]; split; [set_solver|by eapply HP]|right]. destruct Hl as [-> Hu3]. split; [done|].
  apply run_ret. left. split; [done|].
  eapply HP; [exact Hi3|by split].
Qed.

(** *** Blocks *)

Lemma stmts_end b σ : stmts_parsed b σ SNil false σ.
Proof using All.
  exists 3%nat. intros n k f ip tk w ts pb P Hn Hk Hi _ Hu HP. destruct n as [|[|n]], k as [|k]; [lia..|].
  cbn [stmts_toks app] in Hu. pose proof (upcoming_valid _ _ _ _ _ _ Hu) as Hv. cbn [block_loop]. apply run_bind.
  eapply (run_statement_at n _ _ _ ts pb f σ σ); [exact Hi|exact Hu|]. intros ip1 w1 Hi1 Hc1.
  change (hd_id (RBRACE :: ts)) with TOK_RBRACE. cbn -[stmt_outcome putback].
  apply run_bind. eapply (run_putback pb (RBRACE :: ts)); [exact Hi1|exact Hc1|exact Hv|]. intros ip2 w2 Hi2 Hp2.
  apply run_ret. split; [set_solver|]. change (STATE_STMT_BLOCK_DONE =? STATE_STMT_DONE) with false. cbn iota.
  apply run_ret. by eapply HP.
Qed.

(** A round of the loop over the statements of a block. *)
Lemma stmts_stop b σ s ss σ' : stmt_parsed b σ s true σ' -> stmts_parsed b σ (SCons s ss) true σ'.
Proof using All.
  intros (N & HN). exists (S N). intros n k f ip tk w ts pb P Hn Hk Hi [Hw Hws] Hu HP. destruct k as [|k]; [lia|].
  cbn [stmts_toks] in Hu, Hn. rewrite <- app_assoc in Hu, Hn. cbn [block_loop]. apply run_bind.
  eapply (HN _ _ _ _ _ (stmts_toks ss ++ RBRACE :: ts) pb); [lia|exact Hi|exact Hw|intros _; by apply stmts_not_else|exact Hu|].
  intros r ip1 w1 Hi1 Hl. cbn in Hl. subst r. change (STATE_RET =? STATE_STMT_DONE) with false. cbn iota.
  apply run_ret. by eapply HP.
Qed.

Lemma stmts_more b σ s ss σ1 o σ' : stmt_parsed b σ s false σ1 -> stmts_parsed b σ1 ss o σ' ->
  stmts_parsed b σ (SCons s ss) o σ'.
Proof using All.
  intros (N1 & HN1) (N2 & HN2). exists (S (N1 + N2)). intros n k f ip tk w ts pb P Hn Hk Hi [Hw Hws] Hu HP.
  destruct k as [|k]; [lia|]. cbn [stmts_toks] in Hu, Hn. rewrite <- app_assoc in Hu, Hn. cbn [block_loop]. apply run_bind.
  eapply (HN1 _ _ _ _ _ (stmts_toks ss ++ RBRACE :: ts) pb); [lia|exact Hi|exact Hw|intros _; by apply stmts_not_else|exact Hu|].
  intros r ip1 w1 Hi1 [-> Hu1]. rewrite Z.eqb_refl. rewrite length_app in Hn.
  eapply (HN2 _ _ _ _ _ _ ts pb); [lia|lia|exact Hi1|exact Hws|exact Hu1|exact HP].
Qed.

Lemma stmt_block_parsed b σ ss o σ' : stmts_parsed b σ ss o σ' -> stmt_parsed b σ (SBlock ss) o σ'.
Proof using All.
  intros (N & HN). exists (S (S N)). intros n f ip tk w ts pb P Hn Hi Hw _ Hu HP. destruct n as [|[|n]]; [lia..|].
  cbn [stmt_toks app] in Hu. rewrite <- app_assoc in Hu. cbn [app] in Hu.
  assert (Hlen : (N + length (stmts_toks ss ++ RBRACE :: ts) <= S n)%nat).
  { revert Hn. cbn [stmt_toks]. repeat (rewrite ?length_app; cbn [app length]). lia. }
  eapply (run_statement_at n _ _ _ ts pb f σ σ'); [exact Hi|exact Hu|]. intros ip1 w1 Hi1 Hc1.
  match goal with |- context [hd_id ?l] => change (hd_id l) with TOK_LBRACE end.
  cbn -[stmt_outcome block_loop EjParse.parse EjParse.expect_token]. unfold stmt_block.
  change (negb (STATE_STMT =? STATE_STMT)) with false. cbn iota. apply run_bind.
  eapply (HN _ _ _ _ _ _ ts pb); [exact Hlen|lia|exact Hi1|exact Hw|left; exact Hc1|]. intros r ip2 w2 Hi2 Hr.
  destruct o; [subst r; rewrite Z.eqb_refl; apply run_ret; split; [set_solver|by eapply HP]|]. destruct Hr as [-> Hp2].
  change (STATE_STMT_BLOCK_DONE =? STATE_RET) with false. cbn iota. unfold EjParse.expect_token. apply run_bind.
  eapply (run_get pb); [exact Hi2|right; exact Hp2|done|]. intros ip3 w3 Hi3 Hc3.
  change (hd_id (RBRACE :: ts) =? TOK_RBRACE) with true. cbn iota. apply run_ret. split; [set_solver|].
  eapply HP; [eapply inv_forget; exact Hi3|]. split; [done|by left].
Qed.

(** *** Returns *)

(** The rest of the script is read. *)
Lemma run_skip k f σ : forall ts ip tk w pb (P : unit -> world -> Prop), (length ts < k)%nat ->
  Inv f σ ip tk w -> upcoming pb ip ts -> (forall ip' w', Inv f σ ip' None w' -> P tt w') ->
  run (skip_script lw balloc brealloc ep k STATE_STMT) w P.
Proof using All.
  induction k as [|k IH]; intros ts ip tk w pb P Hk Hi Hu HP; [lia|]. cbn [skip_script].
  pose proof (upcoming_valid _ _ _ _ _ _ Hu) as Hv.
  apply run_bind. eapply run_get; [exact Hi|exact Hu|apply agrees_stmt|]. intros ip1 w1 Hi1 Hc1.
  destruct ts as [|t ts]; cbn [tl] in Hc1.
  - change (hd_id [] =? TOK_EOF) with true. cbn iota. apply run_ret. eapply HP. eapply inv_forget; exact Hi1.
  - destruct (hd_id (t :: ts) =? TOK_EOF); [apply run_ret; eapply HP; eapply inv_forget; exact Hi1|].
    cbn [length] in Hk. eapply (IH ts _ _ _ pb); [lia|exact Hi1|by left|exact HP].
Qed.

Lemma stmt_return b σ e σ' : expr_parsed b σ e σ' -> stmt_parsed b σ (SReturn e) b σ'.
Proof using All.
  intros (N & HN). exists (S (S (S N))). intros n f ip tk w ts pb P Hn Hi Hw _ Hu HP. destruct n as [|[|n]]; [lia..|].
  assert (Hlen : (N <= S n /\ S (length ts) < S n /\ exists n', n = S n')%nat).
  { revert Hn. cbn [stmt_toks]. repeat (rewrite ?length_app; cbn [app length]). intros ?. split_and!; [lia..|].
    destruct n as [|n]; [lia|by eexists]. }
  destruct Hlen as (HlN & Hlts & (n' & En)).
  cbn [stmt_toks app] in Hu. rewrite <- app_assoc in Hu. cbn [app] in Hu.
  apply (run_statement n _ ts pb f σ'). cbn [EjParse.stmt_loop].
  apply run_bind. eapply run_get; [exact Hi|exact Hu|apply agrees_stmt|]. intros ip1 w1 Hi1 Hc1. cbn [tl] in Hc1.
  match goal with |- context [hd_id ?l] => change (hd_id l) with TOK_RETURN end.
  apply run_bind. cbn -[stmt_outcome EjParse.parse EjParse.skip_script EjParse.stmt_loop]. unfold expect_parse. apply run_bind.
  eapply (HN _ _ σ); [exact HlN|reflexivity|exact Hi1|exact Hw|by eexists; left|left; exact Hc1|]. intros ip2 w2 Hi2 Hp2.
  rewrite Z.eqb_refl, exe_fl. destruct b.
  - apply run_bind. eapply (run_skip _ _ _ (SEMI :: ts) _ _ _ pb); [exact Hlts|exact Hi2|by right|]. intros ip3 w3 Hi3.
    apply run_ret, run_ret. split; [set_solver|by eapply HP].
  - apply run_ret. subst n. eapply (run_stmt_loop _ _ _ _ _ _ _ _ _ (SEMI :: ts) pb); [exact Hi2|by right|done|]. intros ip3 w3 Hi3 Hc3.
    change (hd_id (SEMI :: ts)) with TOK_SEMI. cbn -[stmt_outcome]. apply run_ret. split; [done|]. left. split; [done|].
    eapply HP; [eapply inv_forget; exact Hi3|]. split; [done|by left].
Qed.

(** *** Loops *)

Lemma loop_end b c σ cond inc body : b && c = false -> loop_parsed b c σ cond inc body false σ.
Proof using All.
  intros Hbc. exists 1%nat. intros n k f ip tk w ts0 ts ic ii ib ie P rest Hn Hk Hi _ _ _ _ H0' _ _ _ He HP. subst rest.
  destruct k as [|k]; [lia|]. cbn [for_loop]. rewrite exe_fl, andb_comm, Hbc. apply run_bind.
  eapply run_restore; [exact Hi|exact H0'|exact He|]. intros ip1 w1 Hi1 Hu1. apply run_ret. by eapply HP.
Qed.

Lemma loop_stop σ cond inc body σ1 : stmt_parsed true σ body true σ1 -> loop_parsed true true σ cond inc body true σ1.
Proof using All.
  intros (N & HN). exists (S N). intros n k f ip tk w ts0 ts ic ii ib ie P rest Hn Hk Hi _ _ Hw Ho H0' _ _ Hb _ HP. subst rest.
  destruct k as [|k]; [lia|]. cbn [for_loop]. rewrite exe_fl. cbn [andb]. apply run_bind.
  eapply run_restore; [exact Hi|exact H0'|exact Hb|]. intros ip1 w1 Hi1 Hu1.
  apply run_sub_statement. eapply (HN _ _ _ _ _ ts true); [lia|exact Hi1|exact Hw|exact Ho|exact Hu1|].
  intros r ip2 w2 Hi2 Hr. left. split; [done|by eapply HP].
Qed.

Lemma loop_round σ cond inc body σ1 σ2 σ3 o σ4 : stmt_parsed true σ body false σ1 -> simple_parsed true σ1 inc σ2 ->
  expr_parsed true σ2 cond σ3 -> loop_parsed true (negb (first_char (res σ3) =? 48)) σ3 cond inc body o σ4 ->
  loop_parsed true true σ cond inc body o σ4.
Proof using All.
  intros (N1 & HN1) (N2 & HN2)%parse_simple (N3 & HN3)%parse_cond (N4 & HN4). exists (S (N1 + N2 + N3 + N4)).
  intros n k f ip tk w ts0 ts ic ii ib ie P rest Hn Hk Hi Hwc Hwi Hwb Ho H0' Hc Hii Hb He HP. subst rest.
  destruct k as [|k]; [lia|]. cbn [for_loop]. rewrite exe_fl. cbn [andb]. apply run_bind.
  eapply run_restore; [exact Hi|exact H0'|exact Hb|]. intros ip1 w1 Hi1 Hu1.
  apply run_sub_statement. eapply (HN1 _ _ _ _ _ ts true); [lia|exact Hi1|exact Hwb|exact Ho|exact Hu1|].
  intros r ip2 w2 Hi2 [-> Hu2]. right. split; [done|].
  apply run_bind. eapply run_restore; [exact Hi2|exact Hu2|exact Hii|]. intros ip3 w3 Hi3 Hu3. apply run_expect_parse.
  eapply HN2; [lia|exact Hi3|exact Hwi|eexists; right; left; reflexivity|exact Hu3|]. intros ip4 w4 Hi4 Hu4. split; [done|].
  apply run_bind. eapply run_restore; [exact Hi4|exact Hu4|exact Hc|]. intros ip5 w5 Hi5 Hu5. apply run_expect_parse.
  eapply HN3; [lia|exact Hi5|exact Hwc|eexists; left; reflexivity|exact Hu5|]. intros ip6 w6 Hi6 Hp6. split; [done|].
  apply run_bind. eapply run_result_char; [exact Hi6|].
  eapply (HN4 n k _ _ _ _ _ ts); [lia|lia|exact Hi6|exact Hwc|exact Hwi|exact Hwb|exact Ho|right; exact Hp6|done..].
Qed.

Notation stmt_for n := (stmt_for lw balloc brealloc bstrdup n ep (rec n)).

Lemma stmt_for_parsed b σ x init cond inc body σ1 σ2 σ3 σ4 o σ5 :
  assign_parsed b σ x init σ1 -> expr_parsed b σ1 cond σ2 -> simple_parsed false σ2 inc σ3 ->
  stmt_parsed false σ3 body false σ4 -> loop_parsed b (negb (first_char (res σ2) =? 48)) σ4 cond inc body o σ5 ->
  stmt_parsed b σ (SFor x init cond inc body) o σ5.
Proof using All.
  intros (N1 & HN1)%parse_init (N2 & HN2)%parse_cond (N3 & HN3)%parse_simple (N4 & HN4) (N5 & HN5).
  exists (S (S (N1 + N2 + N3 + N4 + N5))). intros n f ip tk w ts pb P Hn Hi (Hx & Hw1 & Hw2 & Hw3 & Hw4) Ho Hu HP.
  destruct n as [|[|n]]; [lia..|].
  assert (Hlen : (N1 <= S n /\ N2 <= S n /\ N3 <= S n /\ N4 + length (stmt_toks body ++ ts) <= S n /\
    N5 + length (stmt_toks body ++ ts) <= S n)%nat).
  { revert Hn. cbn [stmt_toks]. repeat (rewrite ?length_app; cbn [app length]). lia. }
  destruct Hlen as (HL1 & HL2 & HL3 & HL4 & HL5).
  cbn [stmt_toks app] in Hu. repeat (rewrite <- app_assoc in Hu; cbn [app] in Hu).
  eapply (run_statement_at n _ _ _ ts pb f σ σ5); [exact Hi|exact Hu|]. intros ip1 w1 Hi1 Hc1.
  match goal with |- context [hd_id ?l] => change (hd_id l) with TOK_FOR end.
  change (run (stmt_for (S n) STATE_STMT (fl b)) w1 (stmt_outcome ts pb f σ5 P)).
  unfold EjParse.stmt_for. change (negb (STATE_STMT =? STATE_STMT)) with false. cbn iota.
  eapply (run_expect_token _ _ _ _ _ _ _ _ _ pb); [exact Hi1|left; exact Hc1|done|]. intros ip2 w2 Hi2 Hc2. apply run_expect_parse.
  eapply HN1; [exact HL1|exact Hi2|exact Hx|exact Hw1|eexists; left; reflexivity|left; exact Hc2|]. intros ip3 w3 Hi3 Hp3. split; [done|].
  eapply (run_expect_token _ _ _ _ _ _ _ _ _ true); [exact Hi3|right; exact Hp3|done|]. intros ip4 w4 Hi4 Hc4.
  apply run_bind. eapply (run_save true); [exact Hi4|left; exact Hc4|]. intros ic w5 Hi5 Hic. apply run_expect_parse.
  eapply (HN2 _ _ _ _ _ _ true); [exact HL2|exact Hi5|exact Hw2|eexists; left; reflexivity|left; exact Hc4|]. intros ip6 w6 Hi6 Hp6. split; [done|].
  apply run_bind. eapply run_result_char; [exact Hi6|].
  eapply (run_expect_token _ _ _ _ _ _ _ _ _ true); [exact Hi6|right; exact Hp6|done|]. intros ip7 w7 Hi7 Hc7.
  apply run_bind. eapply (run_save true); [exact Hi7|left; exact Hc7|]. intros ii w8 Hi8 Hii. rewrite no_exe_fl. apply run_expect_parse.
  eapply (HN3 _ _ _ _ _ _ true); [exact HL3|exact Hi8|exact Hw3|eexists; right; left; reflexivity|left; exact Hc7|]. intros ip9 w9 Hi9 Hu9. split; [done|].
  eapply (run_expect_token _ _ _ _ _ _ _ _ _ true); [exact Hi9|exact Hu9|done|]. intros ip10 w10 Hi10 Hc10.
  apply run_bind. eapply (run_save true); [exact Hi10|left; exact Hc10|]. intros ib w11 Hi11 Hib. apply run_expect_parse.
  eapply (HN4 _ _ _ _ _ ts true); [exact HL4|exact Hi11|exact Hw4|exact Ho|left; exact Hc10|]. intros r ip12 w12 Hi12 [-> Hu12]. split; [done|].
  apply run_bind. eapply (run_save true); [exact Hi12|exact Hu12|]. intros ie w13 Hi13 Hie.
  eapply (HN5 _ _ _ _ _ _ _ ts); [exact HL5|lia|exact Hi13|exact Hw2|exact Hw3|exact Hw4|exact Ho|exact Hu12|exact Hic|exact Hii|exact Hib|exact Hie|].
  intros out ip14 w14 Hi14 Hout. destruct o; [subst out; split; [set_solver|by eapply HP]|]. destruct Hout as [-> Hu14].
  left. split; [done|]. eapply HP; [exact Hi14|]. split; [done|by apply upcoming_any].
Qed.

(** ** Every statement that has a meaning *)

Lemma execs_parsed :
  (forall b σ s o σ', exec b σ s o σ' -> stmt_wf s -> stmt_parsed b σ s o σ') /\
  (forall b σ ss o σ', exec_list b σ ss o σ' -> stmts_wf ss -> stmts_parsed b σ ss o σ') /\
  (forall b c σ cond inc body o σ', loop b c σ cond inc body o σ' ->
     expr_wf cond -> simple_wf inc -> stmt_wf body -> loop_parsed b c σ cond inc body o σ').
Proof using All.
  destruct exprs_parsed as (_ & Hexpr & _). apply exec_mutind.
  - intros b σ _. apply stmt_empty.
  - intros b σ m σ' Hm [Hw _]. by apply stmt_simple.
  - intros b σ ds σ' Hd Hw. by apply stmt_var.
  - intros b σ e s σ1 o σ2 He _ IH [Hwe Hws]. by eapply stmt_if_only; [apply Hexpr|apply IH].
  - intros b σ e s1 s2 σ1 σ2 He _ IH (Hwe & Hw1 & _ & Hw2). eapply stmt_if_else; [by apply Hexpr|]. right. split; [done|by apply IH].
  - intros b σ e s1 s2 σ1 σ2 o σ3 He _ IH1 _ IH2 (Hwe & Hw1 & _ & Hw2). eapply stmt_if_else; [by apply Hexpr|].
    left. exists σ2. split; [by apply IH1|by apply IH2].
  - intros b σ ss o σ' _ IH Hw. by apply stmt_block_parsed, IH.
  - intros b σ x init cond inc body σ1 σ2 σ3 σ4 o σ5 Hm Hc Hi _ IHb _ IHl (Hx & Hw1 & Hw2 & Hw3 & Hw4).
    eapply stmt_for_parsed; [|by apply Hexpr|by apply simples_parsed|by apply IHb|by apply IHl].
    inversion Hm; subst. by apply assign_parsed_ev.
  - intros σ e σ' He Hw. by apply (stmt_return true), Hexpr.
  - intros σ e σ' He Hw. by apply (stmt_return false), Hexpr.
  - intros b σ _. apply stmts_end.
  - intros b σ s ss σ' _ IH [Hw _]. by apply stmts_stop, IH.
  - intros b σ s ss σ1 o σ' _ IH1 _ IH2 [Hw Hws]. eapply stmts_more; [by apply IH1|by apply IH2].
  - intros b c σ cond inc body Hbc _ _ _. by apply loop_end.
  - intros σ cond inc body σ1 _ IH _ _ Hw. by apply loop_stop, IH.
  - intros σ cond inc body σ1 σ2 σ3 o σ4 _ IHb Hi Hc _ IHl Hwc Hwi Hwb.
    eapply loop_round; [by apply IHb|by apply simples_parsed|by apply Hexpr|by apply IHl].
Qed.
End Stmts.
