(* ===== verification/EjEvalSpec.v ===== *)
(** * Scripts are evaluated as they mean

    [ejEval] on a script that is written from a well-formed program returns, with the
    result and the variables that the meaning of the program gives and without a message,
    and leaves the engine as it found it otherwise.  The guard against endless loops in
    [ejEval], that gives up when the read pointer stays where it is, never strikes: a
    statement takes a token, so two statements move the pointer. *)

From stdpp Require Import gmap.
From S2P Require Import Prelude CString Fmt Handles SymTab SymIface RingQ ByteQueue EjLex EjLexSpec EjRead EjParse EjAst EjEngine EjExprSpec EjStmtSpec.
#[local] Open Scope Z_scope.
#[local] Open Scope cint_scope.

Lemma print_all_app (a b : list tok) : zlen (print_all (a ++ b)) = zlen (print_all a) + zlen (print_all b).
Proof. unfold print_all. rewrite map_app, concat_app, length_app. lia. Qed.

Lemma print_all_two t ts : script_valid (t :: ts) -> 2 + zlen (print_all ts) <= zlen (print_all (t :: ts)).
Proof.
  intros (Ht & _). destruct (print_start t Ht) as (c & l & Ep & _). rewrite print_all_cons, Ep.
  cbn [app length]. rewrite length_app. cbn [length]. lia.
Qed.

(** A printed script is made of bytes. *)
Lemma esc_bytes q b : (q = 34 \/ q = 39) -> 0 < b < 256 -> Forall (fun c => 0 <= c < 256) (esc q b).
Proof. intros Hq Hb. unfold esc. destruct (_ || _); repeat constructor; lia. Qed.

Lemma tok_bytes t : tok_valid t -> Forall (fun c => 0 <= c < 256) (print t).
Proof.
  destruct t as [i|q body|ds|x]; cbn [tok_valid print].
  - intros Hi. do 25 (try (destruct i as [|i]; [repeat constructor; lia|])). cbn in Hi. lia.
  - intros (Hq & Hb & _). constructor; [lia|]. apply Forall_app_2; [|repeat constructor; lia].
    induction Hb as [|b body Hb _ IH]; [constructor|]. cbn. apply Forall_app_2; [by apply esc_bytes|done].
  - intros (_ & Hd & _). eapply List.Forall_impl; [|exact Hd]. intros y. unfold isdigit. lia.
  - destruct x as [|c x]; [by intros [[] _]|]. intros [[Hc Hx] _]. constructor.
    + revert Hc. unfold name_start, isalpha, isupper, islower. lia.
    + eapply List.Forall_impl; [|exact Hx]. intros y Hy. cbn in Hy. apply name_char_range in Hy. lia.
Qed.

Lemma script_bytes ts : script_valid ts -> Forall (fun c => 0 <= c < 256) (print_all ts).
Proof.
  induction ts as [|t ts IH]; [constructor|]. intros (Ht & _ & Hts). rewrite print_all_cons.
  apply Forall_app_2; [by apply tok_bytes|]. constructor; [lia|by apply IH].
Qed.

(** A statement takes a token. *)
Lemma stmt_toks_nonempty s : stmt_wf s -> exists t ts, stmt_toks s = t :: ts.
Proof. destruct s as [|[x e|[]]| | | | | |]; cbn; intros Hw; by eexists _, _. Qed.

Section Eval.
Context {Q : Type} `{ByteQueueLaws Q} {Y : Type} `{SymbolsLaws Y}.
Context (lw : Z) (balloc : Z -> option (list Z)) (brealloc : list Z -> Z -> option (list Z)).
Hypothesis lw_ok : lw = 32 \/ lw = 64.
Hypothesis balloc_ok : forall n, 0 < n -> exists b, balloc n = Some b /\ zlen b = n.
Hypothesis brealloc_ok : forall b n, zlen b <= n -> exists b', brealloc b n = Some b' /\
  zlen b' = n /\ take (length b) b' = b.
Context (bstrdup : list Z -> option (list Z)).
Hypothesis bstrdup_ok : forall s, bstrdup s = Some s.
Context (args_room : Z -> bool).
Hypothesis args_room_ok : forall n, args_room n = true.

Context (ep eid uh : Z) (vs : handle_map) (top glob funs nblocks : Z).
Hypothesis ep_ok : ep <> 0.
Hypothesis top_ok : hread vs (nblocks - 1) = Some (top + EJ_OFFSET).
Hypothesis glob_ok : hread vs 0 = Some (glob + EJ_OFFSET).
Hypothesis nblocks_ok : 1 <= nblocks.

Notation world := (world (Q := Q) (Y := Y)).
Notation PM := (PM (Q := Q) (Y := Y)).
Notation Inv := (Inv ep eid uh vs top glob funs nblocks).

(** The host functions, as for expressions. *)
Context (call_fn : Z -> Z -> Z -> Z -> list (option (list Z)) -> PM Z).
Context (host : Z -> list (list Z) -> est -> est -> Prop).
Hypothesis host_ok : forall fn args σ σ' f ip tk w k, host fn args σ σ' -> Inv f σ ip tk w ->
  run (call_fn fn eid uh (zlen args) (map Some args ++ repeat None k)) w
    (fun r w' => 0 <= r /\ Inv f σ' ip None w').


Notation parse := (parse lw balloc brealloc bstrdup args_room call_fn).
Notation eval_loop := (eval_loop lw balloc brealloc bstrdup args_room call_fn).
Notation ejEval := (ejEval lw balloc brealloc bstrdup args_room call_fn).
Notation exec_list := (exec_list top glob funs nblocks host).
Notation execs_parsed text cap tokcap := (execs_parsed lw balloc brealloc lw_ok balloc_ok brealloc_ok bstrdup bstrdup_ok args_room args_room_ok
  text cap tokcap ep eid uh vs top glob funs nblocks ep_ok top_ok glob_ok nblocks_ok call_fn host host_ok).
Notation run_statement text cap tokcap := (run_statement lw balloc brealloc lw_ok balloc_ok brealloc_ok bstrdup bstrdup_ok args_room args_room_ok
  text cap tokcap ep eid uh vs top glob funs nblocks ep_ok top_ok glob_ok nblocks_ok call_fn host host_ok).
Notation run_stmt_loop text cap tokcap := (run_stmt_loop lw balloc brealloc lw_ok balloc_ok brealloc_ok bstrdup bstrdup_ok args_room text cap tokcap ep eid uh vs top glob funs nblocks call_fn).

(** ** The loop of [ejEval] *)

Section Script.
Context (text : list Z) (cap tokcap : Z).
Notation upcoming := (upcoming text cap tokcap).

(** The end of the script. *)
Lemma run_eof n b f σ ip tk w pb (P : Z -> world -> Prop) :
  Inv f σ ip tk w -> upcoming pb ip [] -> (forall ip' w', Inv f σ ip' None w' -> P STATE_EOF w') ->
  run (parse (S (S n)) ep STATE_STMT (fl b)) w P.
Proof using All.
  intros Hi Hu HP. apply (run_statement text cap tokcap n _ [] pb f σ).
  eapply (run_stmt_loop text cap tokcap _ _ _ _ _ _ _ _ _ [] pb); [exact Hi|exact Hu|done|]. intros ip' w' Hi' Hc'.
  change (hd_id []) with TOK_EOF. cbn -[stmt_outcome]. apply run_ret. split; [done|]. right. split; [done|].
  eapply HP. eapply inv_forget. exact Hi'.
Qed.

Lemma run_servp f σ ip tk w (P : Z -> world -> Prop) : Inv f σ ip tk w -> P (bq_serv (script ip)) w -> run (servp ep) w P.
Proof using All.
  intros Hi HP. unfold servp. apply run_bind. eapply run_ep_get; [done|]. intros e He.
  rewrite (en_input _ _ _ _ _ _ _ _ _ _ He). apply run_bind. eapply run_lift; [done|]. by apply run_ret.
Qed.

(** What [endlessLoopTest] and [loopCounter] are before the tokens [ts]: the pointer of an
    input that had more to read, even more when it was seen twice. *)
Definition counts (test : option Z) (c : Z) (ts : list tok) : Prop :=
  match test with
  | None => c = 0
  | Some p => exists q, bq_ok q /\ bq_text q text /\ bq_serv q = p /\
      (c = 0 /\ zlen (print_all (tl ts)) <= zlen (bq_bytes q) \/ c = 1 /\ zlen (print_all ts) <= zlen (bq_bytes q))
  end.

Lemma counts_low test c ts : counts test c ts -> (10 <? c) = false.
Proof. destruct test as [p|]; cbn; [intros (q & _ & _ & _ & H3)|intros ->]; lia. Qed.

Lemma counts_next test c t l ts ip pb : script_valid (t :: l ++ ts) -> counts test c (t :: l ++ ts) -> upcoming pb ip ts ->
  counts (Some (bq_serv (script ip)))
    (if match test with Some q => q =? bq_serv (script ip) | None => false end then c + 1 else 0) ts.
Proof using All.
  intros Hv Hc Hu. destruct (upcoming_chars _ _ _ _ _ _ Hu) as ([Hlo Hhi] & Htx & Hok).
  cbn [counts]. exists (script ip). split_and!; [done..|]. destruct test as [p|]; [|by left]. destruct Hc as (q & Hq & Hqt & <- & Hc).
  destruct (Z.eqb_spec (bq_serv q) (bq_serv (script ip))) as [E|]; [|by left].
  pose proof (print_all_two _ _ Hv) as Htwo. cbn [tl] in Hc. rewrite (print_all_app l ts) in *.
  rewrite (bq_serv_text _ _ text Hq Hok Hqt Htx E) in Hc. lia.
Qed.

(** The statements of a script are run to their end. *)
Lemma run_script ss : forall σ o σ', exec_list true σ ss o σ' -> stmts_wf ss ->
  exists N, forall n k f ip tk w test c pb (P : Z -> world -> Prop), (N + length (stmts_toks ss) <= n)%nat -> (N <= k)%nat ->
    Inv f σ ip tk w -> upcoming pb ip (stmts_toks ss) -> counts test c (stmts_toks ss) ->
    (forall ip' w', Inv f σ' ip' None w' -> P STATE_EOF w') ->
    run (eval_loop k n ep test c) w P.
Proof using All.
  induction ss as [|s ss IH]; intros σ o σ' He Hw.
  - inversion He; subst. exists 2%nat. intros n k f ip tk w test c pb P Hn Hk Hi Hu Hc HP.
    destruct n as [|[|n]], k as [|k]; [lia..|]. cbn [EjParse.eval_loop]. apply run_bind.
    eapply (run_eof n true _ _ _ _ _ pb); [exact Hi|exact Hu|]. intros ip1 w1 Hi1. cbv zeta.
    change (STATE_EOF =? STATE_RET) with false. cbn iota. apply run_bind. eapply run_servp; [exact Hi1|].
    rewrite (counts_low _ _ _ Hc), andb_false_r. apply run_bind, run_ret. rewrite Z.eqb_refl. apply run_ret. by eapply HP.
  - destruct Hw as [Hws Hwss]. destruct (execs_parsed text cap tokcap) as (Hstmt & _).
    assert (exists o1 σ1, exec top glob funs nblocks host true σ s o1 σ1 /\
      if o1 then σ1 = σ' else exec_list true σ1 ss o σ') as (o1 & σ1 & Hs & Hrest).
    { inversion He; subst; [by exists true, σ'|by exists false, σ1]. }
    destruct (Hstmt _ _ _ _ _ Hs Hws) as (N1 & HN1).
    assert (exists N2, if o1 then True else forall n k f ip tk w test c pb (P : Z -> world -> Prop),
      (N2 + length (stmts_toks ss) <= n)%nat -> (N2 <= k)%nat -> Inv f σ1 ip tk w -> upcoming pb ip (stmts_toks ss) ->
      counts test c (stmts_toks ss) -> (forall ip' w', Inv f σ' ip' None w' -> P STATE_EOF w') ->
      run (eval_loop k n ep test c) w P) as (N2 & HN2).
    { destruct o1; [by exists O|]. destruct (IH _ _ _ Hrest Hwss) as (N2 & HN2). by exists N2. }
    exists (S (N1 + N2)). intros n k f ip tk w test c pb P Hn Hk Hi Hu Hc HP. destruct k as [|k]; [lia|].
    cbn [stmts_toks] in *. rewrite length_app in Hn. cbn [EjParse.eval_loop]. apply run_bind.
    pose proof (upcoming_valid _ _ _ _ _ _ Hu) as Hv. destruct (stmt_toks_nonempty s Hws) as (t & l & Es).
    eapply (HN1 n f ip tk w (stmts_toks ss) pb); [rewrite length_app; lia|exact Hi|exact Hws| |exact Hu|].
    { intros _. rewrite <- (app_nil_r (stmts_toks ss)). by apply stmts_not_else. }
    intros r ip1 w1 Hi1 Hr. cbv zeta. apply run_bind. eapply run_servp; [exact Hi1|].
    rewrite (counts_low _ _ _ Hc), andb_false_r. destruct o1.
    + cbn in Hr. subst r σ1. rewrite Z.eqb_refl. apply run_bind, run_ret. rewrite Z.eqb_refl. apply run_ret. by eapply HP.
    + destruct Hr as [-> Hu1]. change (STATE_STMT_DONE =? STATE_RET) with false. cbn iota. apply run_bind, run_ret.
      change ((STATE_STMT_DONE =? STATE_EOF) || (STATE_STMT_DONE =? STATE_ERR)) with false. cbn iota.
      eapply (HN2 _ _ _ _ _ _ _ _ pb); [lia|lia|exact Hi1|exact Hu1| |exact HP].
      rewrite Es in Hv, Hc. by eapply (counts_next test c t l).
Qed.
End Script.

(** ** [ejEval] *)

(** An engine between two scripts: its input, its function, the open tables and its
    result. *)
Definition holds (old : option (ejinput (Q := Q))) (f : func_ptr) (r : option (list Z)) (e : ej_t) : Prop :=
  (ep_input e, ep_func e, ep_result e, ep_eid e) = (old, f, r, eid) /\
  (ep_userHandle e, ep_variables e, ep_variableMax e, ep_functions e) = (uh, vs, nblocks, funs).

Record idle (old : option (ejinput (Q := Q))) (f : func_ptr) (en : gmap Z (gmap (list Z) value_t)) (r : option (list Z))
  (w : world) : Prop := {
  idle_engine : exists e, engines w !! ep = Some e /\ holds old f r e;
  idle_handle : 0 <= eid < ejMax w /\ hread (ejHandles w) eid = Some ep;
  idle_syms : sy_rep (symbols w) en;
  idle_open : is_Some (en !! top) /\ is_Some (en !! glob) /\ is_Some (en !! funs)
}.

Lemma inv_idle f σ ip tk w : Inv f σ ip tk w -> idle (Some ip) f (env σ) (Some (res σ)) w.
Proof.
  intros [(e & He & []) ? ? ?]. split; [|done..]. exists e. split; [done|]. split; congruence.
Qed.

Lemma idle_inv f σ ip w : idle (Some ip) f (env σ) (Some (res σ)) w -> Inv f σ ip None w.
Proof.
  intros [(e & He & [= ? ? ? ?] & [= ? ? ? ?]) ? ? ?]. split; [|done..]. exists e. split; [done|]. by split.
Qed.

(** The steps of [ejEval] outside the loop. *)
Lemma run_idle_ptr old f en r w (P : Z -> world -> Prop) : idle old f en r w -> P ep w -> run (ejPtr eid) w P.
Proof using ep_ok.
  intros [_ [Hm Hh] _ _] HP. exists ep, w. split; [|done]. unfold ejPtr.
  replace ((eid <? 0) || (ejMax w <=? eid)) with false by lia. rewrite Hh. cbn.
  by replace (ep =? 0) with false by zb.
Qed.

Lemma run_idle_get {A} (field : ej_t -> A) x old f en r w (P : A -> world -> Prop) : idle old f en r w ->
  (forall e, holds old f r e -> field e = x) -> P x w -> run (ep_get ep field) w P.
Proof.
  intros [(e & He & Hi) _ _ _] Hx HP. exists x, w. unfold ep_get. rewrite He. cbn. by rewrite (Hx e Hi).
Qed.

Lemma run_idle_set (g : ej_t -> ej_t) old old' f en r r' w (P : unit -> world -> Prop) : idle old f en r w ->
  (forall e, holds old f r e -> holds old' f r' (g e)) -> (forall w', idle old' f en r' w' -> P tt w') -> run (ep_set ep g) w P.
Proof.
  intros [(e & He & Hi) Hh Hs Ho] Hg HP.
  exists tt, (w <| engines := <[ep := g e]> (engines w) |>). unfold ep_set. rewrite He. split; [done|].
  apply HP. destruct w as [hs mx es sy]; cbn in *. split; cbn; [|done..].
  exists (g e). split; [by rewrite lookup_insert_eq|by apply Hg].
Qed.

Lemma run_set_input new old f en r w (P : unit -> world -> Prop) : idle old f en r w ->
  (forall w', idle new f en r w' -> P tt w') -> run (ep_set ep (fun e => e <| ep_input := new |>)) w P.
Proof.
  intros Hi HP. eapply run_idle_set; [exact Hi| |exact HP].
  intros e [[= ? ? ? ?] [= ? ? ? ?]]. destruct e; cbn in *. split; cbn; congruence.
Qed.

(** A script of a well-formed program, that fits into the queue of the input. *)
Lemma run_ejEval ss en σ o old f r w ip : exec_list true (mkEst en []) ss o σ -> stmts_wf ss -> script_valid (stmts_toks ss) ->
  ejLexOpenScript (print_all (stmts_toks ss)) = Some (Some ip) ->
  bq_bytes (script ip) = print_all (stmts_toks ss) ->
  idle old f en r w ->
  exists N, forall n, (N <= n)%nat ->
    run (ejEval n eid (print_all (stmts_toks ss))) w
      (fun x w' => x = (Some (res σ), None) /\ idle old f (env σ) (Some (res σ)) w').
Proof using All.
  intros He Hw Hv Hopen Hbytes Hi.
  destruct (run_script (print_all (stmts_toks ss)) (bq_cap (script ip)) (bq_cap (tokbuf ip)) ss _ _ _ He Hw) as (N & HN).
  exists (N + length (stmts_toks ss))%nat. intros n Hn. unfold EjParse.ejEval.
  apply run_bind. eapply run_idle_ptr; [exact Hi|].
  apply run_bind. unfold set_result. eapply (run_idle_set _ old old f en r (Some [])); [exact Hi| |].
  { intros e [[= ? ? ? ?] [= ? ? ? ?]]. destruct e; cbn in *. split; cbn; [|congruence].
    unfold setString, bstrdup_ptr. cbn [default from_option id]. rewrite bstrdup_ok. congruence. }
  intros w1 Hi1. apply run_bind. eapply (run_idle_get _ old); [exact Hi1|by intros e [[= <- _ _ _] _]|].
  apply run_bind. unfold open_script. apply run_bind. eapply run_lift; [exact Hopen|].
  apply run_bind. eapply run_lift; [reflexivity|]. eapply run_set_input; [exact Hi1|]. intros w2 Hi2.
  apply run_bind. eapply (HN n n f ip None w2 None 0 false); [lia|lia|by apply idle_inv| |done|].
  { left. split; [done|]. exists []. split; [by left|]. apply open_ready; [done|by apply script_bytes|done]. }
  intros ip3 w3 Hi3. apply inv_idle in Hi3. apply run_bind. eapply run_set_input; [exact Hi3|]. intros w4 Hi4.
  change (STATE_EOF =? STATE_ERR) with false. cbn iota. apply run_bind, run_ret.
  apply run_bind. eapply run_set_input; [exact Hi4|]. intros w5 Hi5.
  apply run_bind. eapply (run_idle_get _ (Some (res σ))); [exact Hi5|by intros e [[= _ _ -> _] _]|].
  apply run_ret. done.
Qed.

(** C1. A script that is printed from a well-formed program, and that has a meaning, is
    evaluated to its end: with enough fuel [ejEval] returns the result and the variables
    that the meaning of the program gives, without a message, and the input and the
    function of the engine are as before. *)
Theorem ejEval_executes ss en σ o old f r w ip : exec_list true (mkEst en []) ss o σ -> stmts_wf ss ->
  script_valid (stmts_toks ss) -> ejLexOpenScript (print_all (stmts_toks ss)) = Some (Some ip) ->
  bq_bytes (script ip) = print_all (stmts_toks ss) -> idle old f en r w ->
  exists N, forall n, (N <= n)%nat -> exists w',
    ejEval n eid (print_all (stmts_toks ss)) w = Some ((Some (res σ), None), w') /\
    idle old f (env σ) (Some (res σ)) w'.
Proof using All.
  intros He Hw Hv Ho Hb Hi. destruct (run_ejEval ss en σ o old f r w ip He Hw Hv Ho Hb Hi) as (N & HN).
  exists N. intros n Hn. destruct (HN n Hn) as (x & w' & E & -> & Hi'). by exists w'.
Qed.
End Eval.
