(* ===== verification/EjBlock.v ===== *)
(** * Engines and blocks

    An engine is opened with a table of global variables and a table of functions of its
    own; a block is one more table of variables, in front of the others.  Opening a block,
    evaluating a script in it and closing it leaves the global variables that the script
    assigned, and nothing of its own variables. *)

From stdpp Require Import gmap.
From S2P Require Import Prelude CString Fmt Heap Handles SymTab SymIface RingQ ByteQueue EjLex EjLexSpec EjRead EjParse EjAst EjEngine EjExprSpec EjStmtSpec EjEvalSpec.
#[local] Open Scope Z_scope.
#[local] Open Scope cint_scope.

(** ** The list of variable tables

    [ep->variables] holds the handles of the tables [ts], from the global one on. *)
Record frames (vs : handle_map) (ts : list Z) : Prop := {
  fr_ok : handles_ok 0 vs;
  fr_get : forall i, 0 <= i -> hget vs i = match ts !! Z.to_nat i with Some h => h + EJ_OFFSET | None => 0 end;
  fr_nonneg : Forall (fun h => 0 <= h) ts
}.

Lemma frames_read vs ts k h : frames vs ts -> ts !! k = Some h -> hread vs (Z.of_nat k) = Some (h + EJ_OFFSET).
Proof.
  intros [Hok Hg Hn] Hk. assert (E : hget vs (Z.of_nat k) = h + EJ_OFFSET) by (rewrite Hg, Nat2Z.id, Hk; [done|lia]).
  rewrite (hread_below _ _ (Z.of_nat k)) by (rewrite ?E; try done; try lia; unfold EJ_OFFSET;
    pose proof (Forall_lookup_1 _ _ _ _ Hn Hk) as Hx; cbn in Hx; lia).
  by rewrite E.
Qed.

Lemma frames_nil : frames None [].
Proof. split; [done| |done]. intros i _. unfold hget, zget. cbn. by destruct (Z.to_nat i). Qed.

Section Words.
Context (balloc_words : Z -> option (list Z)) (brealloc_words : list Z -> Z -> option (list Z)).
Hypothesis words_spec : forall n mp, 0 <= n -> balloc_words n = Some mp -> zlen mp = n / WORD.
Hypothesis rewords_spec : forall old n mp, brealloc_words old n = Some mp ->
  zlen old * WORD <= n -> exists rest, mp = old ++ rest /\ zlen mp = n / WORD.
Hypothesis words_total : forall n, balloc_words n <> None.
Hypothesis rewords_total : forall old n, brealloc_words old n <> None.

(** A handle for one more table, and the table in it. *)
Lemma frames_push vs ts sd : frames vs ts -> 0 <= sd ->
  exists mp, hAlloc balloc_words brealloc_words vs = (zlen ts, Some mp) /\
    frames (Some (wset mp (zlen ts + H_OFFSET) (sd + EJ_OFFSET))) (ts ++ [sd]).
Proof using All.
  intros [Hok Hg Hn] Hsd. destruct (hAlloc balloc_words brealloc_words vs) as [h vs'] eqn:E.
  pose proof (hAlloc_nonneg balloc_words brealloc_words words_spec vs words_total rewords_total Hok) as Hnn.
  rewrite E in Hnn. cbn [fst] in Hnn.
  destruct (hAlloc_spec _ _ words_spec rewords_spec _ _ _ Hok E) as [[-> _]|(Hok' & Hh & Hz & Hlow & Hsame)]; [lia|].
  assert (Hnz : forall i, 0 <= i < zlen ts -> hget vs i <> 0).
  { intros i Hi. rewrite Hg by lia. destruct (ts !! Z.to_nat i) as [x|] eqn:Ex; [|apply lookup_ge_None in Ex; lia].
    pose proof (Forall_lookup_1 _ _ _ _ Hn Ex) as Hx. cbn in Hx.
    unfold EJ_OFFSET. lia. }
  assert (h = zlen ts) as ->.
  { destruct (Z.lt_trichotomy h (zlen ts)) as [Hlt|[?|Hgt]]; [by destruct (Hnz h ltac:(lia))|done|].
    destruct (Hlow (zlen ts) ltac:(lia)). rewrite Hg by lia. rewrite lookup_ge_None_2; [done|lia]. }
  destruct vs' as [mp|]; [|cbn in Hh; lia]. exists mp. split; [done|].
  pose proof Hok' as (len & used & l & -> & _). rewrite entries_some in Hh.
  destruct (hset_spec _ _ _ _ (zlen ts) (sd + EJ_OFFSET) Hok' Hh) as [Hset Hok2].
  rewrite wset_header by lia.
  assert (Hzl : zget l (zlen ts) = 0) by (rewrite <- Hz, <- Hsame by lia; done).
  rewrite Hzl in Hok2. replace (sd + EJ_OFFSET =? 0) with false in Hok2 by (unfold EJ_OFFSET; zb). cbn [Z.eqb] in Hok2.
  split; [exact Hok2| |by apply Forall_app_2; [|constructor]].
  intros i Hi. rewrite Hset by done. destruct (Z.eqb_spec i (zlen ts)) as [->|Hne].
  - rewrite Nat2Z.id, lookup_app_r, Nat.sub_diag by lia. done.
  - rewrite Hsame, Hg by done. destruct (decide (i < zlen ts)) as [Hlt|Hge].
    + by rewrite lookup_app_l by lia.
    + rewrite lookup_ge_None_2 by lia. rewrite lookup_ge_None_2; [done|]. rewrite length_app. cbn. lia.
Qed.
End Words.

(** The last table goes. *)
Lemma frames_pop vs ts sd : frames vs (ts ++ [sd]) ->
  exists vs', hFree vs (zlen ts) = Some (zlen ts, vs') /\ frames vs' ts.
Proof.
  intros [Hok Hg Hn]. assert (Hlast : (ts ++ [sd]) !! length ts = Some sd) by (by rewrite lookup_app_r, Nat.sub_diag).
  apply Forall_app in Hn as [Hn1 [Hsd _]%Forall_cons].
  assert (E : hget vs (zlen ts) = sd + EJ_OFFSET) by (rewrite Hg, Nat2Z.id, Hlast; [done|lia]).
  assert (Hnz : hget vs (zlen ts) <> 0) by (rewrite E; unfold EJ_OFFSET; lia).
  pose proof (handles_ok_entries _ _ (zlen ts) Hok ltac:(lia) Hnz) as Hlt.
  destruct (hFree_spec 0 vs (zlen ts)) as (r & vs' & Ef & Hget & Hok' & Hr & Hr1 & Hr2); [done|lia|lia|by left|].
  replace (hget vs (zlen ts) =? 0) with false in Hok' by zb.
  assert (Hget' : forall i, 0 <= i -> hget vs' i = match ts !! Z.to_nat i with Some h => h + EJ_OFFSET | None => 0 end).
  { intros i Hi. rewrite Hget by done. destruct (Z.eqb_spec i (zlen ts)) as [->|Hne].
    - by rewrite lookup_ge_None_2 by lia.
    - rewrite Hg by done. destruct (decide (i < zlen ts)) as [Hl|Hge].
      + by rewrite lookup_app_l by lia.
      + rewrite lookup_ge_None_2 by (rewrite length_app; cbn; lia). by rewrite lookup_ge_None_2 by lia. }
  assert (Hpos : forall i, 0 <= i < zlen ts -> hget vs' i <> 0).
  { intros i Hi. rewrite Hget' by lia. destruct (ts !! Z.to_nat i) as [x|] eqn:Ex; [|apply lookup_ge_None in Ex; lia].
    pose proof (Forall_lookup_1 _ _ _ _ Hn1 Ex) as Hx. cbn in Hx.
    unfold EJ_OFFSET. lia. }
  assert (r = zlen ts) as ->.
  { destruct (Z.lt_trichotomy r (zlen ts)) as [Hl|[?|Hgt]]; [by destruct (Hpos r ltac:(lia)); apply Hr2|done|].
    destruct (Hr1 ltac:(lia)). rewrite Hget' by lia. rewrite lookup_ge_None_2; [done|lia]. }
  exists vs'. split; [done|]. by split.
Qed.

(** ** A script closes no table *)

Section Grows.
Context (top glob funs nblocks : Z) (host : Z -> list (list Z) -> est -> est -> Prop).

Definition grows (σ σ' : est) : Prop := forall h, is_Some (env σ !! h) -> is_Some (env σ' !! h).

Hypothesis host_grows : forall fn args σ σ', host fn args σ σ' -> grows σ σ'.

Lemma grows_set_at h x s σ : grows σ (set_at h x s σ).
Proof.
  intros j Hj. cbn. destruct (decide (j = h)) as [->|]; [by rewrite lookup_partial_alter_eq|by rewrite lookup_partial_alter_ne].
Qed.

Lemma grows_result v σ σ' : grows σ σ' -> grows σ (result v σ').
Proof. done. Qed.
Lemma grows_result_l v σ σ' : grows (result v σ) σ' -> grows σ σ'.
Proof. done. Qed.
Lemma grows_refl σ : grows σ σ.
Proof. by intros h. Qed.
Lemma grows_trans σ1 σ2 σ3 : grows σ1 σ2 -> grows σ2 σ3 -> grows σ1 σ3.
Proof. intros H1 H2 h Hh. by apply H2, H1. Qed.
Lemma grows_set σ σ' h x s : grows σ σ' -> grows σ (set_at h x s σ').
Proof. intros Hg. eapply grows_trans; [exact Hg|apply grows_set_at]. Qed.
Lemma grows_assign σ σ' i x s : grows σ σ' -> grows σ (assign top glob i x s σ').
Proof. apply grows_set. Qed.

Local Ltac grow := intros; repeat match goal with H : grows (result _ _) _ |- _ => apply grows_result_l in H end;
  repeat first [apply grows_refl|assumption|apply grows_result|apply grows_assign|apply grows_set];
  eauto 6 using grows_trans, grows_result.

Lemma ev_grows :
  (forall b σ t σ', ev_term top glob funs nblocks host b σ t σ' -> grows σ σ') /\
  (forall b σ e σ', ev_expr top glob funs nblocks host b σ e σ' -> grows σ σ') /\
  (forall b σ c σ', ev_tail top glob funs nblocks host b σ c σ' -> grows σ σ') /\
  (forall b σ a vs σ', ev_args top glob funs nblocks host b σ a vs σ' -> grows σ σ').
Proof using host_grows.
  apply ev_mutind; try by grow. intros σ f fn σ' _ _ Hh. by apply host_grows in Hh.
Qed.

Lemma ev_simple_grows b σ m σ' : ev_simple top glob funs nblocks host b σ m σ' -> grows σ σ'.
Proof using host_grows. destruct ev_grows as (Ht & He & _). intros []; eauto. Qed.

Lemma ev_decls_grows b σ ds σ' : ev_decls top glob funs nblocks host b σ ds σ' -> grows σ σ'.
Proof using host_grows.
  destruct ev_grows as (_ & He & _).
  assert (Hd : forall b σ x e σ', ev_decl top glob funs nblocks host b σ x e σ' -> grows σ σ').
  { intros b0 σ0 x e σ1 []; [apply grows_set; by eapply He|by eapply He|]. apply grows_result, grows_set, grows_refl. }
  induction 1; [by eapply Hd|]. eapply grows_trans; [by eapply Hd|done].
Qed.

Lemma exec_grows :
  (forall b σ s o σ', exec top glob funs nblocks host b σ s o σ' -> grows σ σ') /\
  (forall b σ ss o σ', exec_list top glob funs nblocks host b σ ss o σ' -> grows σ σ') /\
  (forall b c σ cond inc body o σ', loop top glob funs nblocks host b c σ cond inc body o σ' -> grows σ σ').
Proof using host_grows.
  destruct ev_grows as (_ & He & _).
  apply exec_mutind; intros; eauto using grows_refl, ev_simple_grows, ev_decls_grows.
  all: eauto 8 using grows_trans, ev_simple_grows.
Qed.
End Grows.

Section Blocks.
Context {Q : Type} `{ByteQueueLaws Q} {Y : Type} `{SymbolsLaws Y}.

Notation world := (world (Q := Q) (Y := Y)).
Notation PM := (PM (Q := Q) (Y := Y)).
Notation ej_t := (ej_t (Q := Q)).
Notation ejinput := (ejinput (Q := Q)).

(** ** One engine in the world, and the symbol tables *)

(** [ot]: the other engines, and the handle map of all. *)
Record sees (ot : gmap Z ej_t * handle_map) (ep eid : Z) (e : ej_t) (en : gmap Z (gmap (list Z) value_t)) (w : world) : Prop := {
  se_engine : engines w !! ep = Some e;
  se_handle : 0 <= eid < ejMax w /\ hread (ejHandles w) eid = Some ep;
  se_syms : sy_rep (symbols w) en;
  se_others : (delete ep (engines w), ejHandles w) = ot
}.

Lemma run_sees_get {A} (field : ej_t -> A) ot ep eid e en w (P : A -> world -> Prop) :
  sees ot ep eid e en w -> P (field e) w -> run (ep_get ep field) w P.
Proof. intros [He _ _ _] HP. exists (field e), w. unfold ep_get. by rewrite He. Qed.

Lemma run_sees_set (g : ej_t -> ej_t) ot ep eid e en w (P : unit -> world -> Prop) :
  sees ot ep eid e en w -> (forall w', sees ot ep eid (g e) en w' -> P tt w') -> run (ep_set ep g) w P.
Proof.
  intros [He Hh Hs Hot] HP. eexists tt, _. unfold ep_set. rewrite He. split; [done|].
  apply HP. destruct w; cbn in *. split; cbn; [by rewrite lookup_insert_eq|done..|by rewrite delete_insert_eq].
Qed.

Lemma run_sees_ptr ot ep eid e en w (P : Z -> world -> Prop) : ep <> 0 ->
  sees ot ep eid e en w -> P ep w -> run (ejPtr eid) w P.
Proof.
  intros Hep [_ [Hm Hh] _ _] HP. exists ep, w. split; [|done]. unfold ejPtr.
  replace ((eid <? 0) || (ejMax w <=? eid)) with false by lia. rewrite Hh. cbn.
  by replace (ep =? 0) with false by zb.
Qed.

Lemma run_sees_call {A} (call : Y -> option (A * Y)) a y' ot ep eid e en en' w (P : A -> world -> Prop) :
  sees ot ep eid e en w -> call (symbols w) = Some (a, y') -> sy_rep y' en' ->
  (forall w', sees ot ep eid e en' w' -> P a w') -> run (sym_call call) w P.
Proof.
  intros [He Hh Hs Hot] Hc Hr HP. eexists a, _. unfold sym_call. rewrite Hc. split; [done|].
  apply HP. destruct w; cbn in *. by split.
Qed.

(** A new table, and its end. *)
Lemma run_sees_open ot ep eid e en w (P : Z -> world -> Prop) : sees ot ep eid e en w ->
  (forall sd w', 0 <= sd -> en !! sd = None -> sees ot ep eid e (<[sd := ∅]> en) w' -> P sd w') ->
  run (sym_call (sy_open 64)) w P.
Proof.
  intros Hs HP. destruct (sy_open_ok _ _ 64 (se_syms _ _ _ _ _ _ Hs)) as (sd & y' & E & Hsd & Hn & Hr); [lia|].
  eapply run_sees_call; [exact Hs|exact E|exact Hr|]. intros w' Hs'. by eapply HP.
Qed.

Lemma run_sees_close ot ep eid e en t sd w (P : unit -> world -> Prop) : sees ot ep eid e en w -> en !! sd = Some t ->
  (forall w', sees ot ep eid e (delete sd en) w' -> P tt w') -> run (sym_close sd) w P.
Proof.
  intros Hs Ht HP. destruct (sy_close_ok _ _ sd t (se_syms _ _ _ _ _ _ Hs) Ht) as (y' & E & Hr).
  eapply run_sees_call; [exact Hs| |exact Hr|exact HP]. cbn. by rewrite E.
Qed.

(** ** An engine at rest: its tables are [ts] *)

Record rests (ep eid uh funs : Z) (ts : list Z) (old : option ejinput) (f : func_ptr)
  (en : gmap Z (gmap (list Z) value_t)) (r : option (list Z)) (w : world) : Prop := {
  re_engine : exists ot e vs, sees ot ep eid e en w /\ holds eid uh vs funs (zlen ts) old f r e /\ frames vs ts;
  re_open : is_Some (en !! funs) /\ Forall (fun h => is_Some (en !! h)) ts;
  re_apart : NoDup (funs :: ts)
}.

Lemma rests_idle ep eid uh funs ts top glob old f en r w : rests ep eid uh funs ts old f en r w ->
  ts !! 0%nat = Some glob -> list.last ts = Some top ->
  exists vs, frames vs ts /\ hread vs (zlen ts - 1) = Some (top + EJ_OFFSET) /\ hread vs 0 = Some (glob + EJ_OFFSET) /\
    1 <= zlen ts /\ idle ep eid uh vs top glob funs (zlen ts) old f en r w.
Proof.
  intros [(ot & e & vs & [He Hh Hs _] & Ho & Hf) [Hfo Hto] _] Hg Ht. exists vs.
  rewrite last_lookup in Ht. pose proof (lookup_lt_Some _ _ _ Hg) as Hlen.
  split; [done|]. split; [|split; [|split; [lia|]]].
  - pose proof (frames_read _ _ _ _ Hf Ht) as E. by replace (zlen ts - 1) with (Z.of_nat (Nat.pred (length ts))) by lia.
  - exact (frames_read _ _ _ _ Hf Hg).
  - split; [by exists e|done..|]. split_and!; [by apply (Forall_lookup_1 _ _ _ _ Hto Ht)|by apply (Forall_lookup_1 _ _ _ _ Hto Hg)|done].
Qed.

Lemma idle_rests ep eid uh vs top glob funs ts old f en r w : idle ep eid uh vs top glob funs (zlen ts) old f en r w ->
  frames vs ts -> Forall (fun h => is_Some (en !! h)) ts -> NoDup (funs :: ts) ->
  rests ep eid uh funs ts old f en r w.
Proof.
  intros [(e & He & Ho) Hh Hs (_ & _ & Hfo)] Hf Hto Hnd. split; [|done..]. exists (delete ep (engines w), ejHandles w), e, vs. split; [by split|done].
Qed.

Section Open.
Context (bstrdup : list Z -> option (list Z)).
Context (balloc_words : Z -> option (list Z)) (brealloc_words : list Z -> Z -> option (list Z)).
Hypothesis words_spec : forall n mp, 0 <= n -> balloc_words n = Some mp -> zlen mp = n / WORD.
Hypothesis rewords_spec : forall old n mp, brealloc_words old n = Some mp ->
  zlen old * WORD <= n -> exists rest, mp = old ++ rest /\ zlen mp = n / WORD.
Hypothesis words_total : forall n, balloc_words n <> None.
Hypothesis rewords_total : forall old n, brealloc_words old n <> None.

Notation ejOpenBlock := (ejOpenBlock balloc_words brealloc_words).

(** [ejOpenBlock]: a new table [sd] behind the others; the result is its place. *)
Lemma run_ejOpenBlock ep eid uh funs ts old f en r w (P : Z -> world -> Prop) : ep <> 0 ->
  rests ep eid uh funs ts old f en r w ->
  (forall sd w', 0 <= sd -> en !! sd = None -> rests ep eid uh funs (ts ++ [sd]) old f (<[sd := ∅]> en) r w' -> P (zlen ts) w') ->
  run (ejOpenBlock eid) w P.
Proof using words_spec rewords_spec words_total rewords_total.
  intros Hep [(ot & e & vs & Hs & [[= Hin Hfu Hre Hei] [= Huh Hvs Hmx Hfn]] & Hf) [Hfo Hto] Hnd] HP.
  unfold EjParse.ejOpenBlock. apply run_bind. eapply run_sees_ptr; [done|exact Hs|]. apply run_bind.
  unfold new_variables. apply run_bind. eapply run_sees_get; [exact Hs|]. rewrite Hvs.
  assert (Hpush : forall sd, 0 <= sd -> exists mp, hAlloc balloc_words brealloc_words vs = (zlen ts, Some mp) /\
    frames (Some (wset mp (zlen ts + H_OFFSET) (sd + EJ_OFFSET))) (ts ++ [sd])).
  { intros sd Hsd. by eapply frames_push. }
  destruct (Hpush 0 ltac:(lia)) as (mp & E & _). rewrite E. cbv zeta.
  apply run_bind. eapply run_sees_set; [exact Hs|]. intros w1 Hs1. replace (zlen ts <? 0) with false by lia.
  apply run_bind. eapply run_sees_set; [exact Hs1|]. intros w2 Hs2. apply run_ret.
  replace (zlen ts <? 0) with false by lia. apply run_bind. eapply run_sees_open; [exact Hs2|].
  intros sd w3 Hsd Hnone Hs3. apply run_bind. unfold put_variables.
  destruct (Hpush sd Hsd) as (mp' & E' & Hfr). rewrite E in E'. injection E' as <-.
  destruct e as [ein efn evs emx efu ere eer etk etd eei efl euh]; cbn in *. subst.
  replace (zlen ts <=? zlen ts) with true in Hs3 by lia. cbn in Hs3.
  apply run_bind. eapply run_sees_get; [exact Hs3|]. cbn. apply run_bind. eapply run_lift; [reflexivity|].
  eapply run_sees_set; [exact Hs3|]. intros w4 Hs4. apply run_ret. cbn in Hs4. eapply HP; [exact Hsd|exact Hnone|].
  assert (Hle : zlen (ts ++ [sd]) = zlen ts + 1) by (rewrite length_app; cbn; lia).
  assert (Hne : forall h, is_Some (en !! h) -> h <> sd) by (intros h [x Hx] ->; congruence).
  split.
  - eexists _, _, _. split; [exact Hs4|]. rewrite Hle. split; [by split|exact Hfr].
  - split; [by rewrite lookup_insert_ne by (apply not_eq_sym, Hne, Hfo)|]. apply Forall_app_2.
    + eapply List.Forall_impl; [|exact Hto]. intros h Hh. by rewrite lookup_insert_ne by (apply not_eq_sym, Hne, Hh).
    + constructor; [by rewrite lookup_insert_eq|done].
  - rewrite app_comm_cons. apply NoDup_app. split; [done|]. split; [|apply NoDup_singleton].
    intros h Hh ->%list_elem_of_singleton. apply elem_of_cons in Hh as [->|Hh]; [by destruct (Hne funs Hfo)|].
    rewrite List.Forall_forall in Hto. apply (Hne sd); [|done]. apply Hto. by apply list_elem_of_In.
Qed.

(** [ejCloseBlock], of the last block. *)
Lemma run_ejCloseBlock ep eid uh funs ts sd old f en r w (P : Z -> world -> Prop) : ep <> 0 ->
  rests ep eid uh funs (ts ++ [sd]) old f en r w ->
  (forall w', rests ep eid uh funs ts old f (delete sd en) r w' -> P 0 w') ->
  run (ejCloseBlock eid (zlen ts)) w P.
Proof.
  intros Hep [(ot & e & vs & Hs & [[= Hin Hfu Hre Hei] [= Huh Hvs Hmx Hfn]] & Hf) [Hfo Hto] Hnd] HP.
  unfold ejCloseBlock. apply run_bind. eapply run_sees_ptr; [done|exact Hs|].
  assert (Hlast : (ts ++ [sd]) !! length ts = Some sd) by (by rewrite lookup_app_r, Nat.sub_diag).
  apply run_bind. unfold variable_table. apply run_bind. eapply run_sees_get; [exact Hs|]. rewrite Hvs.
  apply run_bind. eapply run_lift; [exact (frames_read _ _ _ _ Hf Hlast)|]. apply run_ret. rewrite Z.add_simpl_r.
  destruct (Forall_lookup_1 _ _ _ _ Hto Hlast) as [t Ht].
  apply run_bind. eapply run_sees_close; [exact Hs|exact Ht|]. intros w1 Hs1.
  destruct (frames_pop _ _ _ Hf) as (vs' & E & Hf'). apply run_bind. unfold free_variables.
  apply run_bind. eapply run_sees_get; [exact Hs1|]. rewrite Hvs. apply run_bind. eapply run_lift; [exact E|].
  eapply run_sees_set; [exact Hs1|]. intros w2 Hs2. apply run_ret, HP.
  rewrite app_comm_cons in Hnd. apply NoDup_app in Hnd as (Hnd & Hd & _).
  assert (Hne : forall h, h ∈ funs :: ts -> h <> sd) by (intros h Hh ->; apply (Hd sd Hh), list_elem_of_singleton; done).
  destruct e as [ein efn evs emx efu ere eer etk etd eei efl euh]; cbn in *. subst. split.
  - eexists _, _, _. split; [exact Hs2|]. split; [by split|exact Hf'].
  - split; [by rewrite lookup_delete_ne by (apply not_eq_sym, Hne; left)|].
    apply Forall_app in Hto as [Hto _]. rewrite List.Forall_forall in Hto |- *. intros h Hh.
    rewrite lookup_delete_ne; [by apply Hto|]. apply not_eq_sym, Hne. right. by apply list_elem_of_In.
  - done.
Qed.

(** ** The life of an engine *)

Section Life.
Context (new_engine : gmap Z ej_t -> Z).
Hypothesis new_engine_fresh : forall es, new_engine es <> 0 /\ es !! new_engine es = None.
Hypothesis bstrdup_ok : forall s, bstrdup s = Some s.

Notation ejOpenEngine := (ejOpenEngine bstrdup balloc_words brealloc_words new_engine).

(** A handle and a cleared record for one more engine. *)
Lemma run_alloc_engine en w (P : Z * Z -> world -> Prop) : handles_ok 0 (ejHandles w) -> sy_rep (symbols w) en ->
  (forall eid hs w', let ep := new_engine (engines w) in hget (ejHandles w) eid = 0 -> handles_ok 0 hs ->
     (forall j, 0 <= j -> hget hs j = if j =? eid then ep else hget (ejHandles w) j) ->
     sees (engines w, hs) ep eid null_engine en w' -> P (eid, ep) w') ->
  run (alloc_engine balloc_words brealloc_words new_engine) w P.
Proof using words_spec rewords_spec words_total rewords_total new_engine_fresh.
  intros Hok Hs HP. destruct (new_engine_fresh (engines w)) as [Hp Hfresh].
  destruct (hAllocEntry_spec balloc_words brealloc_words (fun _ => new_engine (engines w)) words_spec rewords_spec
    (ejHandles w) (ejMax w) SIZEOF_ej_t Hok eq_refl) as (eid & hs & mx & E & Hok' & H').
  pose proof (hAllocEntry_nonneg balloc_words brealloc_words (fun _ => new_engine (engines w)) words_spec
    _ _ _ _ _ _ words_total rewords_total Hok (fun _ => Hp) E) as Hnn.
  destruct H' as [(-> & _)|(_ & Hz & _ & _ & -> & Hget)]; [lia|].
  eexists _, _. unfold alloc_engine. cbv zeta. rewrite E. cbn [mbind option_bind]. split; [reflexivity|].
  replace (eid <? 0) with false by lia. apply (HP eid hs); [done..|].
  assert (Hge : hget hs eid = new_engine (engines w)) by (rewrite Hget by done; by rewrite Z.eqb_refl).
  assert (Hread : hread hs eid = Some (new_engine (engines w))).
  { rewrite (hread_below hs eid eid) by (done || lia || congruence). by rewrite Hge. }
  destruct w as [h0 m0 es sy]; cbn in *. split; cbn; [by rewrite lookup_insert_eq| |done|].
  - split; [lia|exact Hread].
  - by rewrite delete_insert_id.
Qed.

(** [ejOpenEngine] without tables of the caller: the engine gets two empty tables, and the
    global variable null. *)
Lemma run_ejOpenEngine en w (P : Z -> world -> Prop) : handles_ok 0 (ejHandles w) -> sy_rep (symbols w) en ->
  (forall ep eid funs glob w', ep = new_engine (engines w) -> en !! funs = None -> en !! glob = None ->
     rests ep eid 0 funs [glob] None FNull
       (<[glob := {[str "null" := str_value None]}]> (<[funs := ∅]> (<[glob := ∅]> en))) None w' -> P eid w') ->
  run (ejOpenEngine (-1) (-1)) w P.
Proof using All.
  intros Hok Hs HP. unfold EjParse.ejOpenEngine. apply run_bind. eapply run_alloc_engine; [done..|].
  intros eid hs w1 ep Hz Hok1 Hget Hs1. pose proof (se_handle _ _ _ _ _ _ Hs1) as [Heid _].
  assert (Hep : ep <> 0) by apply new_engine_fresh.
  replace (eid <? 0) with false by lia. apply run_bind. eapply run_sees_set; [exact Hs1|]. intros w2 Hs2. cbn in Hs2.
  apply run_bind. unfold new_variables. apply run_bind. eapply run_sees_get; [exact Hs2|]. cbn [ep_variables].
  assert (Hpush : forall sd, 0 <= sd -> exists mp, hAlloc balloc_words brealloc_words None = (0, Some mp) /\
    frames (Some (wset mp (0 + H_OFFSET) (sd + EJ_OFFSET))) [sd]).
  { intros sd Hsd. destruct (frames_push balloc_words brealloc_words words_spec rewords_spec words_total rewords_total None [] sd frames_nil Hsd) as (mp & E & Hf). by exists mp. }
  destruct (Hpush 0 ltac:(lia)) as (mp & E & _). rewrite E. cbv zeta.
  apply run_bind. eapply run_sees_set; [exact Hs2|]. intros w3 Hs3. cbn in Hs3. change (0 <? 0) with false. cbn iota.
  apply run_bind. eapply run_sees_set; [exact Hs3|]. intros w4 Hs4. cbn in Hs4. apply run_ret. change (0 <? 0) with false. cbn iota.
  rewrite !Z.eqb_refl. apply run_bind, run_bind. eapply run_sees_open; [exact Hs4|]. intros glob w5 Hg Hgn Hs5.
  destruct (Hpush glob Hg) as (mp' & E' & Hfr). rewrite E in E'. injection E' as <-.
  apply run_bind. unfold put_variables. apply run_bind. eapply run_sees_get; [exact Hs5|]. cbn [ep_variables].
  apply run_bind. eapply run_lift; [reflexivity|]. eapply run_sees_set; [exact Hs5|]. intros w6 Hs6. cbn in Hs6.
  eapply run_sees_set; [exact Hs6|]. intros w7 Hs7. cbn in Hs7.
  apply run_bind, run_bind. eapply run_sees_open; [exact Hs7|]. intros funs w8 Hf Hfn Hs8.
  assert (Hne : funs <> glob) by (intros ->; by rewrite lookup_insert_eq in Hfn).
  eapply run_sees_set; [exact Hs8|]. intros w9 Hs9. cbn in Hs9.
  apply run_bind. unfold ejSetGlobalVar. apply run_bind. eapply run_sees_ptr; [exact Hep|exact Hs9|].
  unfold set_in. apply run_bind. unfold variable_table. apply run_bind. eapply run_sees_get; [exact Hs9|]. cbn [ep_variables].
  apply run_bind. eapply run_lift; [exact (frames_read _ _ 0%nat glob Hfr eq_refl)|]. apply run_ret. rewrite Z.add_simpl_r.
  apply run_bind. eapply run_lift; [reflexivity|].
  destruct (sy_enter_ok _ _ glob ∅ (str "null") (variable_value bstrdup None) 0 (se_syms _ _ _ _ _ _ Hs9)) as (sp & y' & Ee & _ & Hr); [|done|].
  { by rewrite lookup_insert_ne, lookup_insert_eq. }
  apply run_bind. eapply run_sees_call; [exact Hs9|exact Ee|exact Hr|]. intros w10 Hs10. apply run_ret, run_ret.
  eapply (HP ep); [done| | |].
  { rewrite lookup_insert_ne in Hfn by done. exact Hfn. }
  { done. }
  assert (Hlook : is_Some ((<[glob := {[str "null" := str_value None]}]> (<[funs := ∅]> (<[glob := ∅]> en)) : gmap Z (gmap (list Z) value_t)) !! funs)).
  { rewrite lookup_insert_ne, lookup_insert_eq by done. eauto. }
  split.
  - eexists _, _, _. split; [exact Hs10|]. split; [by split|exact Hfr].
  - split; [exact Hlook|]. constructor; [|done]. rewrite lookup_insert_eq. eauto.
  - constructor; [by intros ?%list_elem_of_singleton|apply NoDup_singleton].
Qed.

(** A function is registered. *)
Lemma run_ejSetGlobalFunction ep eid uh funs ts old f en r w t nm fn (P : Z -> world -> Prop) : ep <> 0 ->
  rests ep eid uh funs ts old f en r w -> en !! funs = Some t -> nm <> [] ->
  (forall w', rests ep eid uh funs ts old f (<[funs := <[nm := valueInteger fn]> t]> en) r w' -> P 0 w') ->
  run (ejSetGlobalFunction eid nm fn) w P.
Proof.
  intros Hep [(ot & e & vs & Hs & [[= Hin Hfu Hre Hei] [= Huh Hvs Hmx Hfn]] & Hf) [_ Hto] Hnd] Ht Hnm HP.
  unfold ejSetGlobalFunction. apply run_bind. eapply run_sees_ptr; [exact Hep|exact Hs|].
  apply run_bind. eapply run_sees_get; [exact Hs|]. rewrite Hfn. unfold ejSetGlobalFunctionDirect.
  destruct (sy_enter_ok _ _ funs t nm (valueInteger fn) 0 (se_syms _ _ _ _ _ _ Hs) Ht Hnm) as (sp & y' & E & Hsp & Hr).
  apply run_bind. eapply run_sees_call; [exact Hs|exact E|exact Hr|]. intros w1 Hs1.
  replace (sp =? 0) with false by zb. apply run_ret, HP. apply NoDup_cons in Hnd as [Hfnd Hnd]. split.
  - exists ot, e, vs. split; [exact Hs1|]. split; [|exact Hf]. split; congruence.
  - split; [rewrite lookup_insert_eq; eauto|]. rewrite List.Forall_forall in Hto |- *. intros h Hh.
    rewrite lookup_insert_ne; [by apply Hto|]. intros <-. by apply Hfnd, list_elem_of_In.
  - by apply NoDup_cons.
Qed.

(** *** Its end *)

Lemma flag_both : flag_set (Z.lor FLAGS_VARIABLES FLAGS_FUNCTIONS) FLAGS_VARIABLES = true /\
  flag_set (Z.lor FLAGS_VARIABLES FLAGS_FUNCTIONS) FLAGS_FUNCTIONS = true.
Proof. done. Qed.

(** The variable tables are closed, from the last one on. *)
Lemma run_close_tables ot ep eid ts : forall e en w (P : unit -> world -> Prop),
  sees ot ep eid e en w -> frames (ep_variables e) ts -> ep_flags e = Z.lor FLAGS_VARIABLES FLAGS_FUNCTIONS ->
  Forall (fun h => is_Some (en !! h)) ts -> NoDup ts ->
  (forall e' w', sees ot ep eid e' (foldr delete en ts) w' -> ep_functions e' = ep_functions e -> ep_eid e' = ep_eid e ->
     ep_flags e' = ep_flags e -> P tt w') ->
  run (close_tables (length ts) ep) w P.
Proof using All.
  induction ts as [|sd ts IH] using rev_ind; intros e en w P Hs Hf Hfl Hto Hnd HP.
  - apply run_ret. by eapply HP.
  - rewrite length_app, Nat.add_1_r. cbn [close_tables]. cbv zeta.
    apply run_bind. eapply run_sees_get; [exact Hs|]. rewrite Hfl. rewrite (proj1 flag_both).
    assert (Hlast : (ts ++ [sd]) !! length ts = Some sd) by (by rewrite lookup_app_r, Nat.sub_diag).
    apply run_bind, run_bind. unfold variable_table. apply run_bind. eapply run_sees_get; [exact Hs|].
    apply run_bind. eapply run_lift; [exact (frames_read _ _ _ _ Hf Hlast)|]. apply run_ret. rewrite Z.add_simpl_r.
    destruct (Forall_lookup_1 _ _ _ _ Hto Hlast) as [t Ht]. eapply run_sees_close; [exact Hs|exact Ht|]. intros w1 Hs1.
    destruct (frames_pop _ _ _ Hf) as (vs' & E & Hf'). apply run_bind. unfold free_variables.
    apply run_bind. eapply run_sees_get; [exact Hs1|]. apply run_bind. eapply run_lift; [exact E|].
    eapply run_sees_set; [exact Hs1|]. intros w2 Hs2.
    apply NoDup_app in Hnd as (Hnd & Hd & _). apply Forall_app in Hto as [Hto _].
    destruct e as [ein efn evs emx efu ere eer etk etd eei efl euh]; cbn in *.
    eapply IH; [exact Hs2|exact Hf'|exact Hfl| |exact Hnd|].
    + rewrite List.Forall_forall in Hto |- *. intros h Hh. rewrite lookup_delete_ne; [by apply Hto|].
      intros <-. apply (Hd sd); [by apply list_elem_of_In|by apply list_elem_of_singleton].
    + intros e' w' Hs' H1' H2' H3'. eapply HP; [|exact H1'|exact H2'|exact H3']. by rewrite foldr_app.
Qed.

Lemma hread_hget map h v : handles_ok 0 map -> 0 <= h -> hread map h = Some v -> hget map h = v /\ h < zlen (entries map).
Proof.
  intros Hok Hh. destruct map as [mp|]; [|done]. destruct Hok as (len & used & l & -> & _).
  unfold hread, hget. cbn [mbind option_bind]. rewrite entries_some, zget_header by lia.
  destruct ((- H_OFFSET <=? h) && (h + H_OFFSET <? zlen (len :: used :: l))) eqn:E; [|done].
  intros [= <-]. split; [done|]. apply andb_prop in E as [_ E%Z.ltb_lt]. unfold H_OFFSET in E. cbn [length] in E. lia.
Qed.

(** [ejCloseEngine] of an engine that has its tables for itself. *)
Lemma run_ejCloseEngine ep eid uh funs ts old f en r w : ep <> 0 ->
  rests ep eid uh funs ts old f en r w ->
  (forall e, engines w !! ep = Some e -> ep_flags e = Z.lor FLAGS_VARIABLES FLAGS_FUNCTIONS) ->
  handles_ok 0 (ejHandles w) ->
  run (ejCloseEngine eid) w (fun _ w' => engines w' = delete ep (engines w) /\
    sy_rep (symbols w') (delete funs (foldr delete en ts)) /\ handles_ok 0 (ejHandles w') /\
    forall j, 0 <= j -> hget (ejHandles w') j = if j =? eid then 0 else hget (ejHandles w) j).
Proof using All.
  intros Hep [(ot & e & vs & Hs & [[= Hin Hfu Hre Hei] [= Huh Hvs Hmx Hfn]] & Hf) [[tf Hfo] Hto] Hnd] Hfl Hok.
  specialize (Hfl e (se_engine _ _ _ _ _ _ Hs)). pose proof (se_others _ _ _ _ _ _ Hs) as Hot.
  pose proof (se_handle _ _ _ _ _ _ Hs) as [Heid Hread].
  unfold ejCloseEngine. apply run_bind. eapply run_sees_ptr; [exact Hep|exact Hs|].
  apply run_bind. eapply run_sees_set; [exact Hs|]. intros w1 Hs1.
  apply run_bind. eapply run_sees_get; [exact Hs1|].
  destruct e as [ein efn evs emx efu ere eer etk etd eei efl euh]; cbn in Hin, Hfu, Hre, Hei, Huh, Hvs, Hmx, Hfn, Hfl, Hs1 |- *.
  rewrite Hmx, Nat2Z.id. apply NoDup_cons in Hnd as [Hfnd Hnd].
  apply run_bind. eapply run_close_tables; [exact Hs1|cbn; by rewrite Hvs|exact Hfl|exact Hto|exact Hnd|].
  intros e2 w2 Hs2 F1 F2 F3. cbn in F1, F2, F3. apply run_bind. eapply run_sees_get; [exact Hs2|]. rewrite F3, Hfl, (proj2 flag_both).
  apply run_bind, run_bind. eapply run_sees_get; [exact Hs2|]. rewrite F1, Hfn.
  assert (Hfo' : foldr delete en ts !! funs = Some tf).
  { clear -Hfo Hfnd. induction ts as [|h ts IH]; [done|]. apply not_elem_of_cons in Hfnd as [Hne Hfnd]. cbn.
    rewrite lookup_delete_ne by congruence. by apply IH. }
  eapply run_sees_close; [exact Hs2|exact Hfo'|]. intros w3 Hs3.
  apply run_bind. eapply run_sees_get; [exact Hs3|]. rewrite F2, Hei.
  pose proof (se_others _ _ _ _ _ _ Hs3) as Hot3. rewrite <- Hot in Hot3. injection Hot3 as Hes Hhs.
  destruct (hread_hget _ eid _ Hok (proj1 Heid) Hread) as [Hget Hlt].
  destruct (hFree_spec 0 (ejHandles w) eid) as (mx & hs' & E & Hg' & Hok' & _); [done|lia|lia|left; lia|].
  replace (hget (ejHandles w) eid =? 0) with false in Hok' by (rewrite Hget; zb).
  apply run_bind. unfold free_handle. apply run_bind. eexists _, _. split; [reflexivity|]. cbn beta iota zeta. rewrite Hhs.
  apply run_bind. eapply run_lift; [exact E|]. eexists _, _. split; [reflexivity|]. eexists _, _. split; [reflexivity|].
  destruct Hs3 as [_ _ Hsy _]. destruct w3 as [h3 m3 es3 sy3]; cbn in *. split_and!; [exact Hes|exact Hsy|exact Hok'|exact Hg'].
Qed.

(** [ejOpenEngine] without tables of the caller gives a handle of a new engine, with a
    new table of functions, which is empty, and one of global variables, which has null
    only. *)
Theorem ejOpenEngine_rests en w : handles_ok 0 (ejHandles w) -> sy_rep (symbols w) en ->
  exists ep eid funs glob w', ejOpenEngine (-1) (-1) w = Some (eid, w') /\ ep = new_engine (engines w) /\
    en !! funs = None /\ en !! glob = None /\
    rests ep eid 0 funs [glob] None FNull
      (<[glob := {[str "null" := str_value None]}]> (<[funs := ∅]> (<[glob := ∅]> en))) None w'.
Proof using All.
  intros Hok Hs.
  destruct (run_ejOpenEngine en w (fun eid w' => exists ep funs glob, ep = new_engine (engines w) /\
    en !! funs = None /\ en !! glob = None /\
    rests ep eid 0 funs [glob] None FNull
      (<[glob := {[str "null" := str_value None]}]> (<[funs := ∅]> (<[glob := ∅]> en))) None w') Hok Hs)
    as (eid & w' & E & ep & funs & glob & H'); [by eauto 10|].
  exists ep, eid, funs, glob, w'. by split.
Qed.

(** [ejCloseEngine] of an engine that has its tables for itself closes all of them and
    no other, frees the handle and no other, and releases the record. *)
Theorem ejCloseEngine_closes ep eid uh funs ts old f en r w : ep <> 0 ->
  rests ep eid uh funs ts old f en r w ->
  (forall e, engines w !! ep = Some e -> ep_flags e = Z.lor FLAGS_VARIABLES FLAGS_FUNCTIONS) ->
  handles_ok 0 (ejHandles w) ->
  exists w', ejCloseEngine eid w = Some (tt, w') /\ engines w' = delete ep (engines w) /\
    sy_rep (symbols w') (delete funs (foldr delete en ts)) /\ handles_ok 0 (ejHandles w') /\
    forall j, 0 <= j -> hget (ejHandles w') j = if j =? eid then 0 else hget (ejHandles w) j.
Proof using All.
  intros Hep Hr Hf Hok. destruct (run_ejCloseEngine ep eid uh funs ts old f en r w Hep Hr Hf Hok) as ([] & w' & E & H').
  by exists w'.
Qed.
End Life.

(** ** A script in a block *)

Section EvalBlock.
Context (lw : Z) (balloc : Z -> option (list Z)) (brealloc : list Z -> Z -> option (list Z)).
Hypothesis lw_ok : lw = 32 \/ lw = 64.
Hypothesis balloc_ok : forall n, 0 < n -> exists b, balloc n = Some b /\ zlen b = n.
Hypothesis brealloc_ok : forall b n, zlen b <= n -> exists b', brealloc b n = Some b' /\
  zlen b' = n /\ take (length b) b' = b.
Hypothesis bstrdup_ok : forall s, bstrdup s = Some s.
Context (args_room : Z -> bool).
Hypothesis args_room_ok : forall n, args_room n = true.
Context (ep eid uh glob funs : Z).
Hypothesis ep_ok : ep <> 0.

(** The host functions do what [host] says, whatever blocks are open, and close no table. *)
Context (call_fn : Z -> Z -> Z -> Z -> list (option (list Z)) -> PM Z).
Context (host : Z -> list (list Z) -> est -> est -> Prop).
Hypothesis host_ok : forall vs top n fn args σ σ' f ip tk w k, host fn args σ σ' ->
  Inv ep eid uh vs top glob funs n f σ ip tk w ->
  run (call_fn fn eid uh (zlen args) (map Some args ++ repeat None k)) w
    (fun r w' => 0 <= r /\ Inv ep eid uh vs top glob funs n f σ' ip None w').
Hypothesis host_grows : forall fn args σ σ', host fn args σ σ' -> grows σ σ'.

Notation ejEval := (ejEval lw balloc brealloc bstrdup args_room call_fn).
Notation ejEvalBlock := (ejEvalBlock lw balloc brealloc bstrdup balloc_words brealloc_words args_room call_fn).
Notation rests := (rests ep eid uh funs).

(** The engine evaluates a script in its last block. *)
Lemma rests_eval ts top old f en r w ss o σ ip : rests ts old f en r w -> ts !! 0%nat = Some glob -> list.last ts = Some top ->
  exec_list top glob funs (zlen ts) host true (mkEst en []) ss o σ -> stmts_wf ss -> script_valid (stmts_toks ss) ->
  ejLexOpenScript (print_all (stmts_toks ss)) = Some (Some ip) -> bq_bytes (script ip) = print_all (stmts_toks ss) ->
  exists N, forall n, (N <= n)%nat ->
    run (ejEval n eid (print_all (stmts_toks ss))) w
      (fun x w' => x = (Some (res σ), None) /\ rests ts old f (env σ) (Some (res σ)) w').
Proof using lw_ok balloc_ok brealloc_ok bstrdup_ok args_room_ok ep_ok host_ok host_grows.
  intros Hr Hg Ht He Hw Hv Ho Hb.
  destruct (rests_idle _ _ _ _ _ _ _ _ _ _ _ _ Hr Hg Ht) as (vs & Hf & Etop & Eglob & Hn & Hi).
  destruct (run_ejEval lw balloc brealloc lw_ok balloc_ok brealloc_ok bstrdup bstrdup_ok args_room args_room_ok
    ep eid uh vs top glob funs (zlen ts) ep_ok Etop Eglob Hn call_fn host (host_ok vs top (zlen ts))
    ss en σ o old f r w ip He Hw Hv Ho Hb Hi) as (N & HN).
  exists N. intros n Hle. eapply run_mono; [by apply HN|]. intros x w' [-> Hi']. split; [done|].
  destruct Hr as [_ [_ Hto] Hnd]. eapply idle_rests; [exact Hi'|exact Hf| |exact Hnd].
  destruct (exec_grows top glob funs (zlen ts) host host_grows) as (_ & Hgr & _). apply Hgr in He.
  eapply List.Forall_impl; [|exact Hto]. intros h Hh. by apply He.
Qed.

(** C11. [ejEvalBlock] runs the script in a table [sd] of its own, in front of the tables of
    the engine: its assignments to variables that are not the block's stay, its
    declarations go, and the engine is left with the tables that it had. *)
Theorem ejEvalBlock_scope ts old f en r w : rests ts old f en r w -> ts !! 0%nat = Some glob ->
  exists sd, en !! sd = None /\ forall ss o σ ip,
    exec_list sd glob funs (zlen ts + 1) host true (mkEst (<[sd := ∅]> en) []) ss o σ ->
    stmts_wf ss -> script_valid (stmts_toks ss) ->
    ejLexOpenScript (print_all (stmts_toks ss)) = Some (Some ip) -> bq_bytes (script ip) = print_all (stmts_toks ss) ->
    exists N, forall n, (N <= n)%nat -> exists w',
      ejEvalBlock n eid (print_all (stmts_toks ss)) w = Some ((Some (res σ), None), w') /\
      rests ts old f (delete sd (env σ)) (Some (res σ)) w'.
Proof using All.
  intros Hr Hg.
  destruct (run_ejOpenBlock ep eid uh funs ts old f en r w
    (fun vid w1 => vid = zlen ts /\ exists sd, en !! sd = None /\ rests (ts ++ [sd]) old f (<[sd := ∅]> en) r w1) ep_ok Hr)
    as (vid & w1 & E & -> & sd & Hnone & Hr1); [by eauto|].
  exists sd. split; [done|]. intros ss o σ ip He Hw Hv Ho Hb.
  replace (zlen ts + 1) with (zlen (ts ++ [sd])) in He by (rewrite length_app; cbn; lia).
  destruct (rests_eval (ts ++ [sd]) sd old f _ r w1 ss o σ ip Hr1) as (N & HN); try done.
  { rewrite lookup_app_l; [done|]. by apply lookup_lt_Some in Hg. }
  { by rewrite last_snoc. }
  exists N. intros n Hle.
  assert (Hrun : run (ejEvalBlock n eid (print_all (stmts_toks ss))) w
    (fun x w' => x = (Some (res σ), None) /\ rests ts old f (delete sd (env σ)) (Some (res σ)) w')).
  { unfold EjParse.ejEvalBlock. apply run_bind. eexists _, _. split; [exact E|].
    apply run_bind. eapply run_mono; [by apply HN|]. intros x w2 [-> Hr2].
    apply run_bind. eapply run_ejCloseBlock; [done|exact Hr2|]. intros w3 Hr3. by apply run_ret. }
  destruct Hrun as (x & w' & E' & -> & Hr'). by exists w'.
Qed.
End EvalBlock.
End Open.
End Blocks.
