(* ===== verification/EjNumber.v ===== *)
(** * Numbers in scripts

    A number that an operator gives is written by [stritoa] and read back by [gatoi] when
    it is an operand again; but only a number that is not negative is taken for one. *)

From S2P Require Import Prelude CString Fmt Decimal EjParse.
#[local] Open Scope Z_scope.
#[local] Open Scope cint_scope.

(** One more digit at the end. *)
Lemma numeral_snoc n ds d : numeral 10 n ds -> 0 < n -> 0 <= d < 10 -> numeral 10 (n * 10 + d) (ds ++ [d]).
Proof.
  intros (Hd & Hv & Hh) Hn Hd'. split_and!.
  - apply List.Forall_app. split; [done|by constructor].
  - by rewrite fold_left_app, Hv.
  - destruct ds as [|c ds]; [done|]. cbn [app]. left. destruct Hh as [Hh| ->]; [done|]. cbn in Hv. lia.
Qed.

Lemma numeral_digit d : 0 <= d < 10 -> numeral 10 d [d].
Proof. intros Hd. split_and!; [by constructor|done|by right]. Qed.

(** The loop of [stritoa]: the digits of [n], in front of those it has. *)
Lemma stritoa_loop_digits k : forall n fuel lim out, (k < fuel)%nat -> 0 <= n < 10 ^ Z.of_nat (S k) ->
  zlen out + Z.of_nat (S k) <= lim ->
  exists ds, numeral 10 n ds /\ stritoa_loop fuel n lim out = map (digit_char false) ds ++ out.
Proof.
  induction k as [|k IH]; intros n fuel lim out Hf Hn Hl; (destruct fuel as [|fuel]; [lia|]); cbn [stritoa_loop];
    (replace (zlen out <? lim) with true by zb); rewrite andb_true_r.
  - change (10 ^ Z.of_nat 1) with 10 in Hn. replace (9 <? n) with false by (symmetry; apply Z.ltb_ge; lia). exists [n].
    split; [by apply numeral_digit|]. cbn. rewrite digit_10 by lia. by rewrite Z.add_comm.
  - destruct (Z.ltb_spec 9 n) as [Hbig|Hsmall].
    + assert (Hp : 10 ^ Z.of_nat (S (S k)) = 10 * 10 ^ Z.of_nat (S k)) by (rewrite <- Z.pow_succ_r by lia; f_equal; lia).
      pose proof (Z.div_mod n 10 ltac:(lia)) as Hdm. pose proof (Z.mod_pos_bound n 10 ltac:(lia)) as Hm.
      destruct (IH (n / 10) fuel lim (n - n / 10 * 10 + 48 :: out)) as (ds & Hds & ->); [lia|split; [apply Z.div_pos; lia|apply Z.div_lt_upper_bound; [done|rewrite <- Hp; lia]]|cbn [length]; lia|].
      exists (ds ++ [n mod 10]). split.
      * rewrite Hdm at 1. rewrite (Z.mul_comm 10). apply numeral_snoc; [done|nia|lia].
      * rewrite map_app, <- app_assoc. cbn [map app]. rewrite digit_10 by lia. do 2 f_equal.
        replace (n - n / 10 * 10 + 48) with (48 + n mod 10) by lia. done.
    + exists [n]. split; [by apply numeral_digit; lia|]. cbn. rewrite digit_10 by lia. by rewrite Z.add_comm.
Qed.

Lemma stritoa_decimal v : - 2 ^ 31 < v < 2 ^ 31 -> exists s, stritoa v 16 = Some s /\ decimal v s.
Proof.
  intros Hv. unfold stritoa. replace (v =? - 2 ^ 31) with false by zb. cbv zeta.
  destruct (Z.ltb_spec v 0) as [Hneg|Hpos].
  - destruct (stritoa_loop_digits 9 (- v) (S (Z.to_nat (16 - 1 - 1))) (16 - 1 - 1) []) as (ds & Hds & E); [lia|lia|done|].
    eexists. split; [reflexivity|]. rewrite E, app_nil_r. exists ds.
    replace (v <? 0) with true by zb. by rewrite Z.abs_neq by lia.
  - destruct (stritoa_loop_digits 9 v (S (Z.to_nat (16 - 1))) (16 - 1) []) as (ds & Hds & E); [lia|lia|done|].
    eexists. split; [reflexivity|]. rewrite E, app_nil_r. exists ds.
    replace (v <? 0) with false by zb. by rewrite Z.abs_eq by lia.
Qed.

Lemma decimal_all_digits v s : decimal v s -> all_digits s = (0 <=? v).
Proof.
  intros (ds & (Hd & _ & _) & ->). unfold all_digits. rewrite forallb_app.
  assert (E : forallb isdigit (map (digit_char false) ds) = true).
  { apply forallb_forall. intros c (d & <- & Hin)%in_map_iff. rewrite List.Forall_forall in Hd. specialize (Hd d Hin).
    rewrite digit_10 by done. unfold isdigit. apply andb_true_intro. split; zb. }
  rewrite E. by destruct (Z.ltb_spec v 0), (Z.leb_spec 0 v); [lia|..|lia].
Qed.

(** C28. The text that [evalExpr] makes of a number is the number to [gatoi], for every
    result but the least [int]; it counts as a number for the next operator exactly when
    it is not negative. *)
Theorem stritoa_gatoi_roundtrip v : - 2 ^ 31 < v < 2 ^ 31 ->
  exists s, stritoa v 16 = Some s /\ gatoi s = Some v /\ all_digits s = (0 <=? v).
Proof.
  intros Hv. destruct (stritoa_decimal v Hv) as (s & E & Hd). exists s. split; [done|]. split.
  - apply atoi_decimal; [done|lia].
  - by apply decimal_all_digits.
Qed.

Lemma stritoa_gatoi_roundtrip_witness : exists s, stritoa (-13) 16 = Some s /\ gatoi s = Some (-13) /\ all_digits s = false.
Proof. exact (stritoa_gatoi_roundtrip (-13) (conj eq_refl eq_refl)). Defined.
