(* ===== verification/EjDemo.v ===== *)
(** * A script, evaluated

    The hypotheses of the theorems on scripts hold together: with the ring queues of
    ringq.c, the symbol tables of sym.c and memory that is never out, an engine is opened,
    a host function is registered, and scripts that use it are evaluated. *)

From stdpp Require Import gmap.
From S2P Require Import Prelude CString Fmt Handles SymTab SymIface SymMany RingQ ByteQueue EjLex EjLexSpec EjRead EjParse EjAst EjEngine EjExprSpec EjStmtSpec EjEvalSpec EjBlock.
#[local] Open Scope Z_scope.
#[local] Open Scope cint_scope.

#[local] Instance demo_queue : ByteQueue ringq := ringq_queue ring_malloc.
#[local] Instance demo_laws : ByteQueueLaws ringq := ringq_queue_laws ring_malloc ring_malloc_spec.
#[local] Instance demo_symbols : Symbols sym_sys := sym_symbols roomy_words roomy_rewords Some next_free next_free.
#[local] Instance demo_symbol_laws : SymbolsLaws sym_sys := sym_laws roomy_words roomy_rewords Some next_free next_free.

#[local] Notation memory law := (law roomy_words roomy_rewords Some next_free next_free _) (only parsing).

Abbreviation demo_world := (world (Q := ringq) (Y := sym_sys)).
Abbreviation demo_rests := (rests (Q := ringq) (Y := sym_sys)).
Abbreviation demo_PM := (PM (Q := ringq) (Y := sym_sys)).

(** The host function echo sets the result to its first argument. *)
Definition demo_call (fn eid h argc : Z) (argv : list (option (list Z))) : demo_PM Z :=
  match argv with
  | s :: _ => ejSetResult Some eid s;; mret 0
  | [] => mret 0
  end.

Definition demo_host (fn : Z) (args : list (list Z)) (σ σ' : est) : Prop :=
  exists s rest, args = s :: rest /\ σ' = result s σ.

Lemma demo_host_ok ep eid uh glob funs : ep <> 0 -> forall vs top n fn args σ σ' f ip tk w k, demo_host fn args σ σ' ->
  Inv ep eid uh vs top glob funs n f σ ip tk w ->
  run (demo_call fn eid uh (zlen args) (map Some args ++ repeat None k)) w
    (fun r w' => 0 <= r /\ Inv ep eid uh vs top glob funs n f σ' ip None w').
Proof.
  intros Hep vs top n fn args σ σ' f ip tk w k (s & rest & -> & ->) Hi. cbn [map app demo_call].
  apply run_bind. unfold ejSetResult. apply run_bind. eapply run_ejPtr; [exact Hep|exact Hi|].
  eapply run_set_result; [done|exact Hi|]. intros w' Hi'. apply run_ret. split; [done|]. eapply inv_forget. exact Hi'.
Qed.

Lemma demo_host_grows fn args σ σ' : demo_host fn args σ σ' -> grows σ σ'.
Proof. by intros (s & rest & _ & ->) h. Qed.

(** ** An engine with the function *)

Definition demo_start : demo_world := mkWorld None 0 ∅ no_tables.

Definition demo_funs : gmap (list Z) value_t := {[str "echo" := valueInteger 7]}.
Definition demo_vars : gmap (list Z) value_t := {[str "null" := str_value None]}.
Definition demo_env : gmap Z (gmap (list Z) value_t) := {[0 := demo_vars; 1 := demo_funs]}.

(** The engine that [ejOpenEngine] gives: handle 0, at 1, with the tables 0 and 1. *)
Lemma demo_opened : exists w, ejOpenEngine Some roomy_words roomy_rewords next_free (-1) (-1) demo_start = Some (0, w) /\
  rests 1 0 0 1 [0] None FNull {[0 := demo_vars; 1 := ∅]} None w.
Proof.
  destruct (run_ejOpenEngine Some roomy_words roomy_rewords (memory words_spec) (memory rewords_spec) (memory words_total) (memory rewords_total)
    next_free next_free_fresh (fun s => eq_refl) ∅ demo_start
    (fun eid w' => exists ep funs glob, ep = next_free (engines demo_start) /\
       rests ep eid 0 funs [glob] None FNull
       (<[glob := demo_vars]> (<[funs := ∅]> (<[glob := ∅]> ∅))) None w'))
    as (eid & w & E & ep & funs & glob & Hep & Hr); [done|apply no_tables_ok|eauto 10|].
  assert (Ew := E). vm_compute in Ew. injection Ew as <- Ew. exists w. split; [exact E|].
  pose proof Hr as [(ot & e & vs & [He _ _ _] & [_ [= _ Evs _ Efuns]] & [_ Hget _]) _ _]. subst ep.
  rewrite <- Ew in He. vm_compute in He. injection He as <-. cbn in Efuns, Evs. subst funs vs.
  specialize (Hget 0 ltac:(done)). change (1 = glob + EJ_OFFSET) in Hget.
  assert (glob = 0) as -> by (unfold EJ_OFFSET in Hget; lia). exact Hr.
Qed.

(** ... with the function echo. *)
Lemma demo_ready : exists w, demo_rests 1 0 0 1 [0] None FNull demo_env None w.
Proof.
  destruct demo_opened as (w & _ & Hr).
  destruct (run_ejSetGlobalFunction 1 0 0 1 [0] None FNull _ None w ∅ (str "echo") 7
    (fun _ w' => demo_rests 1 0 0 1 [0] None FNull demo_env None w') ltac:(done) Hr eq_refl ltac:(done)) as (x & w' & _ & Hr'); [|eauto].
  intros w' Hr'. exact Hr'.
Qed.

(** ** Two scripts *)

Definition num (s : String.string) : expr := EStart (TNumber (str s)) CEnd.
Definition var (x : String.string) : expr := EStart (TVar (str x)) CEnd.
Arguments num s%_string_scope.
Arguments var x%_string_scope.

(** [for (i = 0; i < 2; i++) x = x + i; if (x == 3) return echo(x); else ;] *)
Definition demo_loop : stmts :=
  SCons (SFor (str "i") (num "0") (EStart (TVar (str "i")) (COp OLt (TNumber (str "2")) CEnd)) (MTerm (TIncr (str "i") true))
    (SSimple (MAssign (str "x") (EStart (TVar (str "x")) (COp OAdd (TVar (str "i")) CEnd)))))
  (SCons (SIfElse (EStart (TVar (str "x")) (COp OEq (TNumber (str "3")) CEnd))
    (SReturn (EStart (TCall (str "echo") (AOne (var "x"))) CEnd)) SEmpty) SNil).

(** [x = 2;] and the loop. *)
Definition demo_program : stmts := SCons (SSimple (MAssign (str "x") (num "2"))) demo_loop.

(** [var x = 'a'; g = x; return g;] *)
Definition demo_block : stmts :=
  SCons (SVar (DOne (str "x") (Some (EStart (TString 39 (str "a")) CEnd))))
  (SCons (SSimple (MAssign (str "g") (var "x"))) (SCons (SReturn (var "g")) SNil)).

(** The steps of a meaning: the shape of the tree and the mode give the rule, and what the
    rule asks of the state is computed. *)
Ltac computes := first [done|vm_compute; reflexivity|vm_compute; discriminate].
Ltac means :=
  lazymatch goal with
  | |- ev_term _ _ _ _ _ _ _ (TNumber _) _ => eapply T_number
  | |- ev_term _ _ _ _ _ _ _ (TString _ _) _ => eapply T_string
  | |- ev_term _ _ _ _ _ true _ (TVar _) _ => eapply T_var; computes
  | |- ev_term _ _ _ _ _ false _ (TVar _) _ => eapply T_var_skip
  | |- ev_term _ _ _ _ _ true _ (TIncr _ _) _ => eapply T_incr; computes
  | |- ev_term _ _ _ _ _ false _ (TIncr _ _) _ => eapply T_incr_skip
  | |- ev_term _ _ _ _ _ true _ (TCall _ _) _ => eapply T_call; [means|computes|computes|by eexists _, _]
  | |- ev_term _ _ _ _ _ false _ (TCall _ _) _ => eapply T_call_skip; means
  | |- ev_expr _ _ _ _ _ true _ (EAssign _ _) _ => eapply E_assign; [means|computes]
  | |- ev_expr _ _ _ _ _ false _ (EAssign _ _) _ => eapply E_assign_skip; means
  | |- ev_expr _ _ _ _ _ _ _ (EStart _ _) _ => eapply E_start; [means|means]
  | |- ev_tail _ _ _ _ _ _ _ CEnd _ => eapply C_end
  | |- ev_tail _ _ _ _ _ _ _ (COp _ _ _) _ => eapply C_op; [means|computes|means]
  | |- ev_args _ _ _ _ _ _ _ (AOne _) _ _ => eapply A_one; means
  | |- ev_simple _ _ _ _ _ _ _ (MAssign _ _) _ => eapply M_assign; means
  | |- ev_simple _ _ _ _ _ _ _ (MTerm _) _ => eapply M_term; means
  end.
Ltac executes :=
  lazymatch goal with
  | |- exec ?t ?g ?f ?n ?h (?b && ?c) ?σ ?s ?o ?σ' =>
      let v := eval vm_compute in (b && c) in change (exec t g f n h v σ s o σ'); executes
  | |- exec _ _ _ _ _ _ _ SEmpty _ _ => eapply X_empty
  | |- exec _ _ _ _ _ _ _ (SSimple _) _ _ => eapply X_simple; means
  | |- exec _ _ _ _ _ _ _ (SVar (DOne _ (Some _))) _ _ => eapply X_var, D_one; constructor; means
  | |- exec _ _ _ _ _ true _ (SReturn _) _ _ => eapply X_return; means
  | |- exec _ _ _ _ _ false _ (SReturn _) _ _ => eapply X_return_skip; means
  end.

Lemma demo_means : exists σ, exec_list 0 0 1 1 demo_host true (mkEst demo_env []) demo_program true σ /\ res σ = str "3".
Proof.
  unfold demo_program, demo_loop, num, var. eexists. split.
  - eapply X_cons; [executes|]. eapply X_cons.
    + eapply X_for; [means|means|means|executes|].
      eapply L_round; [executes|means|means|]. eapply L_round; [executes|means|means|]. eapply L_end. computes.
    + eapply X_stop. eapply X_if_ret; [means|executes].
  - vm_compute. reflexivity.
Qed.

(** In a block at any place. *)
Lemma find_local sd t m r x s : t !! x = Some (str_value (Some s)) ->
  find_var sd 0 2 (mkEst (<[sd := t]> m) r) x = Some (1, Some s).
Proof. intros E. unfold find_var, var_at. cbn [env]. rewrite lookup_insert_eq. cbn [mbind option_bind]. by rewrite E. Qed.

Lemma find_global sd t m r x g : t !! x = None -> sd <> 0 -> m !! 0 = Some g ->
  find_var sd 0 2 (mkEst (<[sd := t]> m) r) x =
  match g !! x with Some v => s ← string_content v; Some (0, s) | None => Some (-1, None) end.
Proof.
  intros E Hsd Hg. unfold find_var, var_at. cbn [env]. rewrite lookup_insert_eq, lookup_insert_ne by done.
  cbn [mbind option_bind]. rewrite E, Hg. done.
Qed.

Lemma set_local sd t m r x s : set_at sd x s (mkEst (<[sd := t]> m) r) = mkEst (<[sd := <[x := str_value s]> t]> m) r.
Proof.
  unfold set_at. cbn [env res]. f_equal. apply map_eq. intros j. destruct (decide (j = sd)) as [->|Hj].
  - by rewrite lookup_partial_alter_eq, !lookup_insert_eq.
  - by rewrite lookup_partial_alter_ne, !lookup_insert_ne.
Qed.

Lemma set_global sd t m r x s : sd <> 0 ->
  set_at 0 x s (mkEst (<[sd := t]> m) r) = mkEst (<[sd := t]> (env (set_at 0 x s (mkEst m r)))) r.
Proof.
  intros Hsd. unfold set_at. cbn [env res]. f_equal. apply map_eq. intros j. destruct (decide (j = 0)) as [->|Hj].
  - by rewrite lookup_partial_alter_eq, !lookup_insert_ne, lookup_partial_alter_eq.
  - rewrite lookup_partial_alter_ne by done. destruct (decide (j = sd)) as [->|Hj'].
    + by rewrite !lookup_insert_eq.
    + by rewrite !lookup_insert_ne, lookup_partial_alter_ne.
Qed.

Lemma demo_block_means sd : demo_env !! sd = None -> exists σ,
  exec_list sd 0 1 2 demo_host true (mkEst (<[sd := ∅]> demo_env) []) demo_block true σ /\ res σ = str "a".
Proof.
  intros Hsd. assert (Hne : sd <> 0) by (intros ->; done). unfold demo_block, var.
  eexists. split.
  - eapply X_cons; [executes|]. unfold result. cbn [env res]. rewrite set_local.
    eapply X_cons.
    { apply X_simple, M_assign. eapply E_assign.
      - eapply E_start; [|apply C_end]. eapply T_var; [by apply find_local|done].
      - unfold result. cbn [env res default from_option id]. by rewrite (find_global _ _ _ _ _ demo_vars). }
    unfold result, assign. cbn [env res default from_option id]. change (0 <? -1) with false. cbn iota. rewrite set_global by done.
    eapply X_stop, X_return. eapply E_start; [|apply C_end].
    eapply T_var; [unfold result; cbn [env res]; by rewrite (find_global _ _ _ _ _ (<[str "g" := str_value (Some (str "a"))]> demo_vars))|done].
  - done.
Qed.

(** ** The theorems on these scripts *)

Abbreviation demo_eval := (ejEval (Q := ringq) (Y := sym_sys) 32 all_malloc all_realloc Some (fun _ => true) demo_call).
Abbreviation demo_eval_block := (ejEvalBlock (Q := ringq) (Y := sym_sys) 32 all_malloc all_realloc Some roomy_words roomy_rewords (fun _ => true) demo_call).

Lemma demo_program_ok : stmts_wf demo_program /\ script_valid (stmts_toks demo_program).
Proof.
  split; [by vm_compute|].
  repeat split; try (by vm_compute); try (by left); try lia; repeat constructor; done.
Qed.

Lemma demo_block_ok : stmts_wf demo_block /\ script_valid (stmts_toks demo_block).
Proof.
  split; [by vm_compute|].
  repeat split; try (by vm_compute); try (by right); try (by left); try lia; repeat constructor; done.
Qed.

Lemma ejEval_executes_witness : exists (w : demo_world) N, forall n, (N <= n)%nat -> exists w',
  demo_eval n 0 (print_all (stmts_toks demo_program)) w = Some ((Some (str "3"), None), w').
Proof.
  destruct demo_ready as (w & Hr). exists w. destruct demo_means as (σ & He & Hres). destruct demo_program_ok as [Hw Hv].
  destruct (rests_idle _ _ _ _ _ 0 0 _ _ _ _ _ Hr eq_refl eq_refl) as (vs & Hf & Et & Eg & Hn & Hi).
  destruct (ejEval_executes 32 all_malloc all_realloc (or_introl eq_refl) all_malloc_ok all_realloc_ok Some (fun s => eq_refl)
    (fun _ => true) (fun _ => eq_refl) 1 0 0 vs 0 0 1 1 ltac:(done) Et Eg ltac:(done) demo_call demo_host
    (demo_host_ok 1 0 0 0 1 ltac:(done) vs 0 1) demo_program demo_env σ true None FNull None w _ He Hw Hv
    ltac:(vm_compute; reflexivity) ltac:(vm_compute; reflexivity) Hi) as (N & HN).
  exists N. intros n Hle. destruct (HN n Hle) as (w' & E & _). exists w'. by rewrite Hres in E.
Defined.

Lemma ejEvalBlock_scope_witness : exists (w : demo_world) N, forall n, (N <= n)%nat -> exists w',
  demo_eval_block n 0 (print_all (stmts_toks demo_block)) w = Some ((Some (str "a"), None), w').
Proof.
  destruct demo_ready as (w & Hr). exists w. destruct demo_block_ok as [Hw Hv].
  destruct (ejEvalBlock_scope Some roomy_words roomy_rewords (memory words_spec) (memory rewords_spec) (memory words_total)
    (memory rewords_total) 32 all_malloc all_realloc (or_introl eq_refl) all_malloc_ok all_realloc_ok (fun s => eq_refl)
    (fun _ => true) (fun _ => eq_refl) 1 0 0 0 1 ltac:(done) demo_call demo_host
    (demo_host_ok 1 0 0 0 1 ltac:(done)) demo_host_grows [0] None FNull demo_env None w Hr eq_refl) as (sd & Hsd & Hall).
  destruct (demo_block_means sd Hsd) as (σ & He & Hres).
  destruct (Hall demo_block true σ _ He Hw Hv ltac:(vm_compute; reflexivity) ltac:(vm_compute; reflexivity)) as (N & HN).
  exists N. intros n Hle. destruct (HN n Hle) as (w' & E & _). exists w'. by rewrite Hres in E.
Defined.

Lemma ejOpenEngine_rests_witness : exists eid (w' : demo_world),
  ejOpenEngine Some roomy_words roomy_rewords next_free (-1) (-1) demo_start = Some (eid, w').
Proof.
  destruct (ejOpenEngine_rests Some roomy_words roomy_rewords (memory words_spec) (memory rewords_spec) (memory words_total)
    (memory rewords_total) next_free next_free_fresh (fun s => eq_refl) ∅ demo_start)
    as (ep & eid & funs & glob & w' & E & _); [done|exact no_tables_ok|].
  exists eid, w'. exact E.
Defined.

(** The engine that was opened is closed: what is left is the start. *)
Lemma ejCloseEngine_closes_witness : exists w w' : demo_world,
  ejOpenEngine Some roomy_words roomy_rewords next_free (-1) (-1) demo_start = Some (0, w) /\
  ejCloseEngine 0 w = Some (tt, w') /\ engines w' = ∅ /\ sym_tables (symbols w') ∅.
Proof.
  destruct demo_opened as (w & E & Hr). exists w. assert (Ew := E). vm_compute in Ew. injection Ew as Ew.
  destruct (ejCloseEngine_closes Some roomy_words roomy_rewords (memory words_spec) (memory rewords_spec) (memory words_total)
    (memory rewords_total) next_free next_free_fresh (fun s => eq_refl) 1 0 0 1 [0] None FNull _ None w ltac:(done) Hr)
    as (w' & E' & Hes & Hsy & _).
  - intros e He. rewrite <- Ew in He. vm_compute in He. injection He as <-. vm_compute. reflexivity.
  - rewrite <- Ew. exists 16, 1, [1; 0; 0; 0; 0; 0; 0; 0; 0; 0; 0; 0; 0; 0; 0; 0].
    split_and!; [done|done|by exists 1|done|done|done|done].
  - exists w'. split; [exact E|]. split; [exact E'|]. split; [rewrite Hes, <- Ew; vm_compute; reflexivity|exact Hsy].
Defined.
