(* ===== verification/Url.v ===== *)
(** * Request paths (webs/src/src/webs.c, default.c, handler.c, mime64.c)

    What happens to the path of a request before a file is opened: escapes are decoded in
    place ([websDecodeUrl]), repeated slashes are condensed ([websCondenseMultipleChars])
    and the segments are walked from the root directory ([websValidateUrl]).  The base 64
    decoder for the credentials of a request is here as well ([websDecode64]).

    A block of memory is a list of bytes; an access outside of it, also through a null
    pointer, is [None]. *)

From stdpp Require Import gmap.
From S2P Require Import Prelude CString.
#[local] Open Scope Z_scope.
#[local] Open Scope cint_scope.

Definition MAX_URL_DEPTH : Z := 8.
Definition JRD_WEBRC_CFGBAK : list Z := str "/jrd-resource/resource/webs-cfg".
Definition JRD_CFGBAK : list Z := str "/cfgbak".

(** [b[i]] and [b[i] = v] *)
Definition load (b : list Z) (i : Z) : option Z := if 0 <=? i then b !! Z.to_nat i else None.
Definition store (b : list Z) (i v : Z) : option (list Z) :=
  if (0 <=? i) && (i <? zlen b) then Some (<[Z.to_nat i := v]> b) else None.

(** ** Escapes *)

Definition isxdigit (c : Z) : bool := isdigit c || ((65 <=? c) && (c <=? 70)) || ((97 <=? c) && (c <=? 102)).

(** A digit of [%nn], added to [num]. *)
Definition hex_step (num ch : Z) : Z :=
  let c := tolower ch in
  if (97 <=? c) && (c <=? 102) then num * 16 + 10 + c - 97 else num * 16 + c - 48.

(** The loop of [websDecodeUrl]; [ip] and [op] point into the one block [b]. *)
Fixpoint decode_loop (fuel : nat) (b : list Z) (ip op len : Z) : option (list Z) :=
  match fuel with
  | O => None
  | S fuel =>
      c ← load b ip;
      if (c =? 0) || negb (0 <? len) then store b op 0
      else if c =? 43 then b ← store b op 32; decode_loop fuel b (ip + 1) (op + 1) (len - 1)
      else
        esc ← (if c =? 37 then
                 h ← load b (ip + 1);
                 if isxdigit h then l ← load b (ip + 2); Some (if isxdigit l then Some (h, l) else None)
                 else Some None
               else Some None);
        match esc with
        | Some (h, l) =>
            b ← store b op (hex_step (hex_step 0 h) l);
            decode_loop fuel b (ip + 3) (op + 1) (len - 1)
        | None => b ← store b op c; decode_loop fuel b (ip + 1) (op + 1) (len - 1)
        end
  end.

Definition websDecodeUrl (b : list Z) (decoded token len : Z) : option (list Z) :=
  decode_loop (S (Z.to_nat len)) b token decoded len.

(** ** Repeated characters

    [pScan] reads, [pStr] writes. *)
Fixpoint condense_skip (fuel : nat) (b : list Z) (cCondense pScan : Z) : option Z :=
  match fuel with
  | O => None
  | S fuel =>
      c ← load b pScan;
      if c =? cCondense then
        d ← load b (pScan + 1);
        if d =? cCondense then condense_skip fuel b cCondense (pScan + 1) else Some pScan
      else Some pScan
  end.

Fixpoint condense_loop (fuel : nat) (b : list Z) (cCondense pStr pScan : Z) : option (list Z) :=
  match fuel with
  | O => None
  | S fuel =>
      c ← load b pScan;
      go ← (if c =? 0 then Some false else d ← load b pStr; Some (negb (d =? 0)));
      if go : bool then
        pScan ← condense_skip fuel b cCondense pScan;
        b ← (if negb (pStr =? pScan) then c ← load b pScan; store b pStr c else Some b);
        condense_loop fuel b cCondense (pStr + 1) (pScan + 1)
      else if negb (pStr =? pScan) then store b pStr 0 else Some b
  end.

Definition websCondenseMultipleChars (b : list Z) (cCondense : Z) : option (list Z) :=
  condense_loop (S (length b)) b cCondense 0 0.

(** ** The request

    The fields of [websRec] that paths and sessions use, and the variables of the request
    ([cgiVars]): the finite map that a symbol table is. *)
Record websRec : Type := mkWebs {
  ipaddr : list Z;
  w_dir : cptr;
  w_path : cptr;
  w_url : cptr;
  w_lpath : cptr;
  userAgent : cptr;
  referer : cptr;
  w_flags : Z;
  nSessionid : Z;
  isDownloadfile : Z;
  b_default_unredirect : Z;
  cgiVars : gmap (list Z) (list Z);
  cookiebuf : list Z;
  w_postData : cptr;
  w_token : cptr;
  cer_key : cptr;
  token_flag : Z;
  w_query : cptr;
  lenPostData : Z;
  protoVersion : cptr;
  ifaddr : list Z
}.

Section Memory.
Context (balloc : Z -> option (list Z)).
Context (bstrdup : list Z -> cptr).

Definition websGetRequestDir (wp : websRec) : list Z := default [] (w_dir wp).

Definition websSetVar (wp : websRec) (var : list Z) (value : cptr) : websRec :=
  wp <| cgiVars := <[var := default [] value]> (cgiVars wp) |>.

Definition websSetRequestLpath (wp : websRec) (lpath : cptr) : websRec :=
  let p := bstrdup_ptr bstrdup lpath in
  websSetVar (wp <| w_lpath := p |>) (str "PATH_TRANSLATED") p.

Definition websSetRequestPath (wp : websRec) (dir path : cptr) : websRec :=
  let wp := match dir with Some _ => wp <| w_dir := bstrdup_ptr bstrdup dir |> | None => wp end in
  match path with
  | Some _ =>
      let p := bstrdup_ptr bstrdup path in
      websSetVar (wp <| w_path := p |>) (str "PATH_INFO") p
  | None => wp
  end.

(** ** Validation *)

(** The loop that turns the backslashes of the string into slashes. *)
Fixpoint unbackslash (b : list Z) : list Z :=
  match b with
  | [] => []
  | c :: b => if c =? 0 then c :: b else (if c =? 92 then 47 else c) :: unbackslash b
  end.

Fixpoint span (p : Z -> bool) (l : list Z) : list Z * list Z :=
  match l with
  | [] => ([], [])
  | c :: l' => if p c then let '(a, r) := span p l' in (c :: a, r) else ([], l)
  end.

(** [gstrtok] at the one delimiter [d].  The block is [before ++ rest], and [rest] is where
    the next call goes on; behind the token the delimiter becomes a zero byte. *)
Definition strtok_at (d : Z) (before rest : list Z) : option (cptr * list Z * list Z) :=
  let '(sl, rest) := span (fun c => c =? d) rest in
  match rest with
  | [] => None
  | c :: _ =>
      if c =? 0 then Some (None, before ++ sl, rest)
      else
        let '(token, rest) := span (fun c => negb (c =? d) && negb (c =? 0)) rest in
        match rest with
        | [] => None
        | c :: rest' =>
            if c =? 0 then Some (Some token, before ++ sl ++ token, rest)
            else Some (Some token, before ++ sl ++ token ++ [0], rest')
        end
  end.

(** The loop over the segments: [parts], up to [npart], holds the tokens; they lie apart
    from each other in the block and do not change.  [Some None]: too many parts. *)
Fixpoint parts_loop (fuel : nat) (before rest : list Z) (parts : list (list Z)) (len : Z)
  : option (option (list Z * list (list Z) * Z)) :=
  match fuel with
  | O => None
  | S fuel =>
      '(token, before, rest) ← strtok_at 47 before rest;
      match token with
      | None => Some (Some (before ++ rest, parts, len))
      | Some token =>
          if MAX_URL_DEPTH <=? zlen parts then Some None
          else if strcmp token (str "..") =? 0 then parts_loop fuel before rest (removelast parts) len
          else if negb (strcmp token (str ".") =? 0) then
            parts_loop fuel before rest (parts ++ [token]) (len + zlen token + 1)
          else parts_loop fuel before rest parts len
      end
  end.

(** [gstrstr(s, find) != NULL] *)
Fixpoint strstr (s find : list Z) : bool :=
  bool_decide (find `prefix_of` s) || match s with [] => false | _ :: s => strstr s find end.

Definition strcpy (b s : list Z) : option (list Z) :=
  if zlen s <? zlen b then Some (bput b 0 (s ++ [0])) else None.
Definition strcat (b s : list Z) : option (list Z) :=
  d ← cstr b;
  if zlen d + zlen s <? zlen b then Some (bput b (zlen d) (s ++ [0])) else None.

Fixpoint add_parts (lpath : list Z) (parts : list (list Z)) : option (list Z) :=
  match parts with
  | [] => Some lpath
  | part :: parts => lpath ← strcat lpath (str "/"); lpath ← strcat lpath part; add_parts lpath parts
  end.

Definition websValidateUrl (wp : websRec) (path : list Z) : option (Z * websRec) :=
  let dir := websGetRequestDir wp in
  if bool_decide (dir = []) then Some (-1, wp)
  else
    s ← bstrdup path;
    b ← websDecodeUrl (s ++ [0]) 0 0 (zlen s);
    let b := unbackslash b in
    r ← parts_loop (S (length b)) [] b [] 0;
    match r with
    | None => Some (-1, wp)
    | Some (b, parts, len) =>
        path ← cstr b;
        if negb (bool_decide (parts = [])) || (strcmp path (str "/") =? 0) || bool_decide (path = []) then
          lpath ← balloc (zlen dir + 1 + len + 1);
          lpath ← strcpy lpath (if strstr path JRD_CFGBAK then JRD_WEBRC_CFGBAK else dir);
          lpath ← add_parts lpath parts;
          lpath ← cstr lpath;
          Some (0, websSetRequestLpath wp (Some lpath))
        else Some (-1, wp)
    end.
End Memory.
