(* ===== verification/UrlSpec.v ===== *)
(** * What the request path functions do

    [decode_url] is the text that an escaped text stands for, [condense] removes repeated
    characters, [segments] splits a path and [walk] follows its segments from the root. *)

From stdpp Require Import gmap.
From S2P Require Import Prelude CString Url.
#[local] Open Scope Z_scope.
#[local] Open Scope cint_scope.

(** ** Blocks *)

Lemma load_app b c l : load (b ++ c :: l) (zlen b) = Some c.
Proof. unfold load. replace (0 <=? zlen b) with true by zb. by rewrite Nat2Z.id, list_lookup_middle. Qed.

Lemma store_app b c l v : store (b ++ c :: l) (zlen b) v = Some (b ++ v :: l).
Proof.
  unfold store. rewrite length_app. cbn [length].
  replace ((0 <=? zlen b) && _) with true by (symmetry; apply andb_true_intro; split; zb).
  by rewrite Nat2Z.id, insert_app_r_alt, Nat.sub_diag by lia.
Qed.

(** The same with the offset given as a sum. *)
Lemma load_at b c l i : i = zlen b -> load (b ++ c :: l) i = Some c.
Proof. intros ->. apply load_app. Qed.
Lemma store_at b c l v i : i = zlen b -> store (b ++ c :: l) i v = Some (b ++ v :: l).
Proof. intros ->. apply store_app. Qed.

Lemma repeat_replicate (x : Z) n : repeat x n = replicate n x.
Proof. induction n; [done|]. cbn. by f_equal. Qed.

(** ** Escapes *)

Definition esc_val (h l : Z) : Z := hex_step (hex_step 0 h) l.

Fixpoint decode_url (s : list Z) : list Z :=
  match s with
  | [] => []
  | c :: s1 =>
      match s1 with
      | h :: l :: s2 => if (c =? 37) && isxdigit h && isxdigit l then esc_val h l :: decode_url s2
                        else (if c =? 43 then 32 else c) :: decode_url s1
      | _ => (if c =? 43 then 32 else c) :: decode_url s1
      end
  end.

(** The digits of an escape behind a percent sign. *)
Definition escape_at (s : list Z) : option (Z * Z) :=
  match s with h :: l :: _ => if isxdigit h && isxdigit l then Some (h, l) else None | _ => None end.

Lemma decode_url_cons c s : decode_url (c :: s) =
  match (if c =? 37 then escape_at s else None) with
  | Some (h, l) => esc_val h l :: decode_url (drop 2 s)
  | None => (if c =? 43 then 32 else c) :: decode_url s
  end.
Proof. destruct s as [|h [|l s]]; cbn; destruct (c =? 37); cbn; try done. by destruct (isxdigit h), (isxdigit l). Qed.

Lemma escape_read b s post i : i = zlen b ->
  (h ← load (b ++ s ++ 0 :: post) i;
   if isxdigit h then l ← load (b ++ s ++ 0 :: post) (i + 1); Some (if isxdigit l then Some (h, l) else None)
   else Some None) = Some (escape_at s).
Proof.
  intros Hi. destruct s as [|h s]; cbn [app]; rewrite (load_at _ _ _ i Hi); [done|]. cbn [mbind option_bind].
  destruct (isxdigit h) eqn:Eh; [|destruct s; cbn; by rewrite ?Eh].
  rewrite (cons_middle h), app_assoc.
  destruct s as [|l s]; cbn [app]; rewrite (load_at _ _ _ (i + 1)) by (rewrite length_app; cbn; lia); [done|].
  cbn. rewrite Eh. by destruct (isxdigit l).
Qed.

(** A byte is stored in front of what was read. *)
Lemma store_front pre m t v : m <> [] ->
  exists m', store (pre ++ m ++ t) (zlen pre) v = Some ((pre ++ [v]) ++ m' ++ t) /\ zlen m = zlen m' + 1.
Proof.
  destruct m as [|x m]; [done|]. intros _. exists m. cbn [app length]. rewrite store_app, <- app_assoc. split; [done|lia].
Qed.

(** The string [s] lies behind [mid], its decoding goes to the place of [mid]; what lies
    behind its zero byte stays. *)
Definition decodes (fuel : nat) : Prop := forall pre mid s post len,
  no_nul s -> zlen s <= len -> (length s < fuel)%nat ->
  exists gap, decode_loop fuel (pre ++ mid ++ s ++ 0 :: post) (zlen pre + zlen mid) (zlen pre) len =
    Some (pre ++ decode_url s ++ 0 :: gap ++ post).

Lemma decodes_step fuel pre m s post ip len v : decodes fuel -> m <> [] -> ip = zlen pre + zlen m ->
  no_nul s -> zlen s < len -> (length s < fuel)%nat ->
  exists gap, (b ← store (pre ++ m ++ s ++ 0 :: post) (zlen pre) v; decode_loop fuel b ip (zlen pre + 1) (len - 1)) =
    Some (pre ++ v :: decode_url s ++ 0 :: gap ++ post).
Proof.
  intros IH Hm -> Hs Hlen Hf. destruct (store_front pre m (s ++ 0 :: post) v Hm) as (m' & E & El). rewrite E.
  destruct (IH (pre ++ [v]) m' s post (len - 1) Hs ltac:(lia) Hf) as (gap & E'). exists gap.
  rewrite <- (app_assoc pre [v] (decode_url s ++ _)) in E'. cbn [mbind option_bind app] in *. rewrite <- E'.
  rewrite length_app. cbn [length]. f_equal; lia.
Qed.

Lemma decode_loop_correct fuel : decodes fuel.
Proof.
  induction fuel as [|fuel IH]; intros pre mid s post len Hs Hlen Hf; [lia|]. cbn [decode_loop].
  destruct s as [|c s].
  { rewrite (app_assoc pre). cbn [app]. rewrite (load_at _ 0 _ (zlen pre + zlen mid)) by (rewrite length_app; lia).
    cbn. rewrite <- app_assoc. destruct mid as [|x mid]; cbn [app]; rewrite store_app; [by exists []|].
    exists (mid ++ [0]). by rewrite <- app_assoc. }
  apply Forall_cons_1 in Hs as [Hc Hs]. cbn [length] in *.
  assert (Hstep : forall v, exists gap, (b ← store (pre ++ mid ++ (c :: s) ++ 0 :: post) (zlen pre) v;
    decode_loop fuel b (zlen pre + zlen mid + 1) (zlen pre + 1) (len - 1)) = Some (pre ++ (v :: decode_url s) ++ 0 :: gap ++ post)).
  { intros v. change (c :: s) with ([c] ++ s). rewrite <- (app_assoc [c]), (app_assoc mid).
    apply decodes_step; try done; try lia; [by destruct mid|rewrite length_app; cbn; lia]. }
  assert (Hc' : load (pre ++ mid ++ (c :: s) ++ 0 :: post) (zlen pre + zlen mid) = Some c).
  { rewrite (app_assoc pre). apply load_at. rewrite length_app. lia. }
  rewrite Hc'. cbn [mbind option_bind]. replace ((c =? 0) || negb (0 <? len)) with false
    by (symmetry; apply orb_false_intro; [zb|apply negb_false_iff, Z.ltb_lt; lia]).
  rewrite decode_url_cons. destruct (Z.eqb_spec c 43) as [->|]; [apply Hstep|].
  destruct (Z.eqb_spec c 37) as [->|]; [|apply Hstep].
  pose proof (escape_read (pre ++ mid ++ [37]) s post (zlen pre + zlen mid + 1)) as E. rewrite <- !app_assoc in E.
  rewrite <- (Z.add_assoc (zlen pre + zlen mid) 1 1) in E. change (1 + 1) with 2 in E. cbn [app] in *. rewrite E by (rewrite !length_app; cbn; lia).
  cbn [mbind option_bind].
  destruct s as [|h [|l s]]; cbn [escape_at]; [apply Hstep..|].
  destruct (isxdigit h && isxdigit l); [|apply Hstep]. cbn [drop].
  replace (pre ++ mid ++ 37 :: (h :: l :: s) ++ 0 :: post) with (pre ++ (mid ++ [37; h; l]) ++ s ++ 0 :: post)
    by (by rewrite <- !app_assoc).
  apply Forall_cons_1 in Hs as [_ Hs]. apply Forall_cons_1 in Hs as [_ Hs]. cbn [length] in *.
  apply decodes_step; try done; try lia; [by destruct mid|rewrite length_app; cbn; lia].
Qed.

Lemma store_length b i v b' : store b i v = Some b' -> length b' = length b.
Proof. unfold store. destruct (_ && _); [|done]. intros [= <-]. apply length_insert. Qed.

Lemma decode_loop_length fuel : forall b ip op len b', decode_loop fuel b ip op len = Some b' -> length b' = length b.
Proof.
  induction fuel as [|fuel IH]; intros b ip op len b'; [done|]. cbn [decode_loop].
  destruct (load b ip) as [c|]; cbn [mbind option_bind]; [|done]. destruct (_ || _); [apply store_length|].
  assert (Hs : forall v ip', (b ← store b op v; decode_loop fuel b ip' (op + 1) (len - 1)) = Some b' -> length b' = length b).
  { intros v ip'. destruct (store b op v) as [b1|] eqn:E; cbn [mbind option_bind]; [|done]. intros H. rewrite (IH _ _ _ _ _ H).
    by apply store_length in E. }
  destruct (c =? 43); [apply Hs|]. destruct (if c =? 37 then _ else _) as [[[h l]|]|]; cbn [mbind option_bind]; [apply Hs|apply Hs|done].
Qed.

(** [websDecodeUrl] of a string in place: the decoded text, which ends in a zero byte. *)
Lemma websDecodeUrl_at pre s post i : no_nul s -> i = zlen pre ->
  exists gap, websDecodeUrl (pre ++ s ++ 0 :: post) i i (zlen s) = Some (pre ++ decode_url s ++ 0 :: gap ++ post) /\
    zlen (decode_url s) + zlen gap = zlen s.
Proof.
  intros Hs ->. destruct (decode_loop_correct (S (Z.to_nat (zlen s))) pre [] s post (zlen s) Hs) as (gap & E); [lia..|].
  rewrite Z.add_0_r in E. exists gap. split; [exact E|]. apply decode_loop_length in E. cbn [app] in E.
  rewrite !length_app in E. cbn [length] in E. rewrite length_app in E. lia.
Qed.

Lemma websDecodeUrl_inplace s post : no_nul s ->
  exists rest, websDecodeUrl (s ++ 0 :: post) 0 0 (zlen s) = Some (decode_url s ++ 0 :: rest).
Proof. intros Hs. destruct (websDecodeUrl_at [] s post 0 Hs eq_refl) as (gap & E & _). by eexists. Qed.

(** ** Repeated characters *)

Fixpoint condense (c : Z) (s : list Z) : list Z :=
  match s with
  | [] => []
  | x :: s' => if (x =? c) && (match s' with y :: _ => y =? c | [] => false end) then condense c s'
               else x :: condense c s'
  end.

(** The scan pointer moves over all but the last of a row of [c]. *)
Lemma condense_skip_correct c fuel : c <> 0 -> forall b s post x i, no_nul s -> i = zlen b -> (length s < fuel)%nat ->
  exists k x' s', x :: s = repeat c k ++ x' :: s' /\
    condense_skip fuel (b ++ x :: s ++ 0 :: post) c i = Some (i + Z.of_nat k) /\
    condense c (x :: s) = x' :: condense c s'.
Proof.
  intros Hc. induction fuel as [|fuel IH]; intros b s post x i Hs Hi Hf; [lia|]. cbn [condense_skip].
  rewrite (load_at b x _ i) by done. cbn [mbind option_bind].
  assert (Hstop : condense c (x :: s) = x :: condense c s -> exists k x' s', x :: s = repeat c k ++ x' :: s' /\
    Some i = Some (i + Z.of_nat k) /\ condense c (x :: s) = x' :: condense c s').
  { intros E. exists 0%nat, x, s. rewrite Z.add_0_r. done. }
  destruct (Z.eqb_spec x c) as [->|Hx]; [|apply Hstop; cbn; by rewrite (proj2 (Z.eqb_neq x c) Hx)].
  rewrite (cons_middle c), app_assoc.
  destruct s as [|y s]; cbn [app]; rewrite (load_at (b ++ [c]) _ _ (i + 1)) by (rewrite length_app; cbn; lia); cbn [mbind option_bind].
  { rewrite (proj2 (Z.eqb_neq 0 c)) by congruence. apply Hstop. cbn. by rewrite Z.eqb_refl. }
  destruct (Z.eqb_spec y c) as [->|Hy]; [|apply Hstop; cbn; by rewrite Z.eqb_refl, (proj2 (Z.eqb_neq y c) Hy)].
  apply Forall_cons_1 in Hs as [_ Hs]. cbn [length] in Hf.
  destruct (IH (b ++ [c]) s post c (i + 1) Hs) as (k & x' & s' & E1 & E2 & E3); [rewrite length_app; cbn; lia|lia|].
  exists (S k), x', s'. cbn [repeat app]. rewrite <- E1, E2. split; [done|]. split; [f_equal; lia|].
  rewrite <- E3. cbn. by rewrite Z.eqb_refl.
Qed.

(** The character that is kept moves to the front. *)
Lemma condense_copy pre m x t pScan : no_nul m -> x <> 0 -> pScan = zlen pre + zlen m ->
  exists m', (if negb (zlen pre =? pScan)
              then c ← load (pre ++ m ++ x :: t) pScan; store (pre ++ m ++ x :: t) (zlen pre) c
              else Some (pre ++ m ++ x :: t)) = Some ((pre ++ [x]) ++ m' ++ t) /\
    no_nul m' /\ zlen m' = zlen m.
Proof.
  intros Hm Hx ->. destruct m as [|y m].
  - replace (_ =? _) with true by (cbn; zb). exists []. rewrite <- app_assoc. done.
  - apply Forall_cons_1 in Hm as [_ Hm]. replace (_ =? _) with false by (cbn; zb). cbn [negb].
    rewrite (app_assoc pre), (load_at _ x _ (zlen pre + zlen (y :: m))) by (rewrite length_app; lia).
    cbn [mbind option_bind]. rewrite <- app_assoc. cbn [app]. rewrite store_app. exists (m ++ [x]).
    rewrite <- !app_assoc. split; [done|]. rewrite length_app. cbn [length].
    split; [apply Forall_app; split; [done|by repeat constructor]|lia].
Qed.

(** The string [s] lies behind [mid], what is left of it goes to the place of [mid]. *)
Lemma condense_loop_correct c fuel : c <> 0 -> forall pre mid s post, no_nul mid -> no_nul s -> (length s < fuel)%nat ->
  exists rest, condense_loop fuel (pre ++ mid ++ s ++ 0 :: post) c (zlen pre) (zlen pre + zlen mid) =
    Some (pre ++ condense c s ++ 0 :: rest).
Proof.
  intros Hc. induction fuel as [|fuel IH]; intros pre mid s post Hm Hs Hf; [lia|]. cbn [condense_loop].
  destruct s as [|x s].
  { cbn [app condense]. rewrite (app_assoc pre mid (0 :: post)), (load_at _ 0 _ (zlen pre + zlen mid)) by (rewrite length_app; lia).
    cbn. destruct mid as [|m mid].
    - rewrite app_nil_r, Z.add_0_r, Z.eqb_refl. by exists post.
    - replace (_ =? _) with false by (cbn; zb). cbn [negb]. rewrite <- app_assoc. cbn [app]. rewrite store_app. eauto. }
  assert (Ex : load (pre ++ mid ++ (x :: s) ++ 0 :: post) (zlen pre + zlen mid) = Some x).
  { rewrite (app_assoc pre). apply load_at. rewrite length_app. lia. }
  assert (exists d, load (pre ++ mid ++ (x :: s) ++ 0 :: post) (zlen pre) = Some d /\ d <> 0) as (d & Ed & Hd).
  { apply Forall_cons_1 in Hs as [Hx _]. destruct mid as [|d mid]; cbn [app]; rewrite load_app; [by exists x|].
    apply Forall_cons_1 in Hm as [Hd _]. by exists d. }
  apply Forall_cons_1 in Hs as [Hx Hs]. cbn [length] in Hf.
  rewrite Ex. cbn [mbind option_bind]. rewrite (proj2 (Z.eqb_neq x 0)) by done. rewrite Ed. cbn [mbind option_bind].
  rewrite (proj2 (Z.eqb_neq d 0)) by done. cbn [negb].
  destruct (condense_skip_correct c fuel Hc (pre ++ mid) s post x (zlen pre + zlen mid) Hs) as (k & x' & s' & E1 & E2 & ->);
    [rewrite length_app; lia|lia|]. rewrite <- app_assoc in E2. cbn [app] in *. rewrite E2. cbn [mbind option_bind].
  assert (Hs' : no_nul (repeat c k ++ x' :: s')) by (rewrite <- E1; by constructor).
  apply Forall_app in Hs' as [Hk Hs']. apply Forall_cons_1 in Hs' as [Hx' Hs'].
  apply (f_equal length) in E1 as El. rewrite length_app, repeat_length in El. cbn [length] in El.
  replace (pre ++ mid ++ x :: s ++ 0 :: post) with (pre ++ (mid ++ repeat c k) ++ x' :: s' ++ 0 :: post)
    by (change (x :: s ++ 0 :: post) with ((x :: s) ++ 0 :: post); rewrite E1, <- !app_assoc; done).
  destruct (condense_copy pre (mid ++ repeat c k) x' (s' ++ 0 :: post) (zlen pre + zlen mid + Z.of_nat k)) as (m' & -> & Hm' & Elm);
    [by apply Forall_app|done|rewrite length_app, repeat_length; lia|]. rewrite length_app, repeat_length in Elm.
  cbn [mbind option_bind].
  destruct (IH (pre ++ [x']) m' s' post Hm' Hs' ltac:(lia)) as (rest & E). exists rest.
  rewrite <- (app_assoc pre [x'] (condense c s' ++ _)) in E. cbn [app] in *. rewrite <- E, length_app. cbn [length].
  f_equal; lia.
Qed.

(** [websCondenseMultipleChars] leaves the string with every row of the character
    reduced to one, in its place, with its zero byte behind it. *)
Theorem websCondenseMultipleChars_correct s post c : c <> 0 -> no_nul s ->
  exists rest, websCondenseMultipleChars (s ++ 0 :: post) c = Some (condense c s ++ 0 :: rest).
Proof.
  intros Hc Hs. destruct (condense_loop_correct c (S (length (s ++ 0 :: post))) Hc [] [] s post) as (rest & E);
    [constructor|done|rewrite length_app; lia|]. by exists rest.
Qed.

(** ** Paths *)

(** The string that the decoded text is, with slashes for backslashes. *)
Fixpoint cut0 (s : list Z) : list Z :=
  match s with [] => [] | c :: s => if c =? 0 then [] else c :: cut0 s end.
Definition clean (path : list Z) : list Z := map (fun c => if c =? 92 then 47 else c) (cut0 (decode_url path)).

(** The pieces between delimiters [d], without the empty ones. *)
Fixpoint pieces_at (d : Z) (s : list Z) : list (list Z) :=
  match s with
  | [] => [[]]
  | c :: s => if c =? d then [] :: pieces_at d s
              else match pieces_at d s with w :: ws => (c :: w) :: ws | [] => [[c]] end
  end.
Definition segments_at (d : Z) (s : list Z) : list (list Z) := filter (fun w => w <> []) (pieces_at d s).

(** Those of a path. *)
Abbreviation pieces := (pieces_at 47).
Abbreviation segments := (segments_at 47).

(** The way from the root along the segments, with eight segments at most. *)
Fixpoint walk (at_dir : list (list Z)) (segs : list (list Z)) : option (list (list Z)) :=
  match segs with
  | [] => Some at_dir
  | t :: segs =>
      if MAX_URL_DEPTH <=? zlen at_dir then None
      else if decide (t = str "..") then walk (removelast at_dir) segs
      else if decide (t = str ".") then walk at_dir segs
      else walk (at_dir ++ [t]) segs
  end.

(** The path up to its first segment, which is what the cut block holds. *)
Definition head_path (s : list Z) : list Z :=
  let '(sl, r) := span (fun c => c =? 47) s in
  sl ++ fst (span (fun c => negb (c =? 47) && negb (c =? 0)) r).

Definition join (parts : list (list Z)) : list Z := concat (map (cons 47) parts).

(** The local path of a request, if it has one. *)
Definition resolve (dir path : list Z) : option (list Z) :=
  let p := clean path in
  parts ← walk [] (segments p);
  if bool_decide (parts = []) && negb (bool_decide (p = [])) && negb (bool_decide (p = str "/")) then None
  else Some ((if strstr (head_path p) JRD_CFGBAK then JRD_WEBRC_CFGBAK else dir) ++ join parts).

Lemma span_app p a b : forallb p a = true -> (forall c b', b = c :: b' -> p c = false) -> span p (a ++ b) = (a, b).
Proof.
  intros Ha Hb. induction a as [|x a IH]; cbn in *.
  - destruct b as [|c b]; [done|]. cbn. by rewrite (Hb c b eq_refl).
  - apply andb_true_iff in Ha as [-> Ha]. by rewrite IH.
Qed.

(** *** Tokens

    Delimiters only, and a token of [gstrtok]. *)
Abbreviation all_at d sl := (forallb (fun c => c =? d) sl = true).
Definition token_at (d : Z) (t : list Z) : Prop := t <> [] /\ forallb (fun c => negb (c =? d) && negb (c =? 0)) t = true.

Section Tokens.
Context {d : Z}.

Lemma token_head t : token_at d t -> exists c t', t = c :: t' /\ (c =? d) = false /\ (c =? 0) = false.
Proof.
  intros [Hne Ht]. destruct t as [|c t]; [done|]. exists c, t. cbn in Ht. split; [done|].
  by destruct (c =? d), (c =? 0).
Qed.

Lemma strtok_none before sl post : d <> 0 -> all_at d sl ->
  strtok_at d before (sl ++ 0 :: post) = Some (None, before ++ sl, 0 :: post).
Proof.
  intros Hd H. unfold strtok_at. rewrite span_app; [done|done|]. intros c b' [= <- _]. apply Z.eqb_neq. lia.
Qed.

Lemma strtok_token before sl t c r : all_at d sl -> token_at d t -> c = 0 \/ c = d ->
  strtok_at d before (sl ++ t ++ c :: r) =
    Some (Some t, before ++ sl ++ t ++ (if c =? 0 then [] else [0]), if c =? 0 then c :: r else r).
Proof.
  intros Hsl Ht Hc. destruct (token_head t Ht) as (e & t' & -> & He & He0). unfold strtok_at.
  rewrite span_app by (done || intros ? ? [= <- _]; done). cbn [app]. rewrite He0.
  change (e :: t' ++ c :: r) with ((e :: t') ++ c :: r).
  rewrite span_app; [|by apply Ht|intros ? ? [= <- _]; destruct Hc as [-> | ->]; by rewrite Z.eqb_refl, ?andb_false_r].
  destruct (c =? 0); by rewrite ?app_nil_r.
Qed.

Lemma span_spec p l a b : span p l = (a, b) ->
  l = a ++ b /\ forallb p a = true /\ (forall c b', b = c :: b' -> p c = false).
Proof.
  revert a b. induction l as [|c l IH]; intros a b; cbn; [intros [= <- <-]; done|].
  destruct (p c) eqn:Ec; [|intros [= <- <-]; split_and!; [done..|by intros ? ? [= <- _]]].
  destruct (span p l) as [a' r]. intros [= <- <-]. destruct (IH a' r eq_refl) as (-> & Ha & Hb).
  cbn. by rewrite Ec.
Qed.

(** A text is delimiters, or has a first token, behind which it ends or goes on. *)
Lemma path_cases s : no_nul s -> all_at d s \/
  exists sl t, all_at d sl /\ token_at d t /\ (s = sl ++ t \/ exists r, s = sl ++ t ++ d :: r /\ no_nul r).
Proof.
  intros Hs. destruct (span (fun c => c =? d) s) as [sl r] eqn:E1. destruct (span_spec _ _ _ _ E1) as (-> & Hsl & Hr).
  destruct r as [|c r]; [left; by rewrite app_nil_r|right]. specialize (Hr c r eq_refl). cbn in Hr.
  apply Forall_app in Hs as [_ Hs]. pose proof (Forall_cons_1 _ _ _ Hs) as [Hc _].
  destruct (span (fun c => negb (c =? d) && negb (c =? 0)) (c :: r)) as [t r2] eqn:E2.
  destruct (span_spec _ _ _ _ E2) as (E & Ht & Hr2). exists sl, t. split; [done|]. split.
  - split; [|done]. intros ->. cbn in E. specialize (Hr2 c r (eq_sym E)). cbn in Hr2.
    by rewrite Hr, (proj2 (Z.eqb_neq c 0) Hc) in Hr2.
  - rewrite E in *. apply Forall_app in Hs as [_ Hs]. destruct r2 as [|e r2]; [left; by rewrite app_nil_r|right].
    apply Forall_cons_1 in Hs as [He Hs]. specialize (Hr2 e r2 eq_refl). cbn in Hr2.
    rewrite (proj2 (Z.eqb_neq e 0) He), andb_true_r in Hr2. apply negb_false_iff, Z.eqb_eq in Hr2 as ->. by exists r2.
Qed.

(** *** Segments *)

Lemma pieces_slash a b : forallb (fun c => negb (c =? d)) a = true -> pieces_at d (a ++ d :: b) = a :: pieces_at d b.
Proof.
  induction a as [|c a IH]; cbn; [by rewrite Z.eqb_refl|]. intros [Hc Ha]%andb_true_iff. rewrite IH by done. by destruct (c =? d).
Qed.

Lemma pieces_one a : forallb (fun c => negb (c =? d)) a = true -> pieces_at d a = [a].
Proof. induction a as [|c a IH]; [done|]. cbn. intros [Hc Ha]%andb_true_iff. rewrite IH by done. by destruct (c =? d). Qed.

Lemma token_no_slash t : token_at d t -> forallb (fun c => negb (c =? d)) t = true.
Proof. intros [_ Ht]. rewrite forallb_forall in *. intros c Hc. by apply Ht, andb_true_iff in Hc as [? _]. Qed.

Lemma segments_slashes sl s : all_at d sl -> segments_at d (sl ++ s) = segments_at d s.
Proof.
  induction sl as [|c sl IH]; [done|]. cbn [forallb]. intros [->%Z.eqb_eq H]%andb_true_iff. rewrite <- (IH H).
  unfold segments_at. cbn [app pieces_at]. rewrite Z.eqb_refl. by rewrite filter_cons_False by (by intros []).
Qed.

Lemma segments_last t : token_at d t -> segments_at d t = [t].
Proof. intros Ht. unfold segments_at. rewrite pieces_one by by apply token_no_slash. destruct Ht as [Ht _]. by destruct t. Qed.

Lemma segments_token t s : token_at d t -> segments_at d (t ++ d :: s) = t :: segments_at d s.
Proof. intros Ht. unfold segments_at. rewrite pieces_slash by by apply token_no_slash. destruct Ht as [Ht _]. by destruct t. Qed.
End Tokens.

(** The tokens of a path. *)
Abbreviation slashes sl := (all_at 47 sl).
Abbreviation token_ok := (token_at 47).

Lemma head_path_slashes sl : slashes sl -> head_path sl = sl.
Proof. intros H. unfold head_path. pose proof (span_app (fun c => c =? 47) sl [] H) as E. rewrite app_nil_r in E.
  rewrite E by done. cbn. by rewrite app_nil_r. Qed.

Lemma head_path_token sl t r : slashes sl -> token_ok t -> r = [] \/ (exists r', r = 47 :: r') -> head_path (sl ++ t ++ r) = sl ++ t.
Proof.
  intros Hsl Ht Hr. destruct (token_head t Ht) as (d & t' & -> & Hd & Hd0). unfold head_path.
  rewrite span_app by (done || by intros ? ? [= <- _]). rewrite span_app; [done|apply Ht|].
  intros c b' ->. by destruct Hr as [?|(r' & [= -> _])].
Qed.

(** *** The loop over the segments *)

Lemma join_snoc ps t : join (ps ++ [t]) = join ps ++ 47 :: t.
Proof. unfold join. rewrite map_app, concat_app. cbn. by rewrite app_nil_r. Qed.

Lemma join_removelast ps : zlen (join (removelast ps)) <= zlen (join ps).
Proof.
  destruct ps as [|t ps] using rev_ind; [done|]. rewrite removelast_last, join_snoc, length_app. lia.
Qed.

(** What the segment [t] does to the parts. *)
Definition step_part (parts : list (list Z)) (t : list Z) : list (list Z) :=
  if decide (t = str "..") then removelast parts
  else if decide (t = str ".") then parts else parts ++ [t].

Lemma walk_cons parts t segs :
  walk parts (t :: segs) = if MAX_URL_DEPTH <=? zlen parts then None else walk (step_part parts t) segs.
Proof. unfold step_part. cbn [walk]. destruct (_ <=? _); [done|]. by repeat destruct (decide _). Qed.

(** One round: the token and where the loop goes on. *)
Lemma parts_loop_token fuel before sl t c r parts len : slashes sl -> token_ok t -> c = 0 \/ c = 47 ->
  zlen (join parts) <= len ->
  exists len', zlen (join (step_part parts t)) <= len' /\
    parts_loop (S fuel) before (sl ++ t ++ c :: r) parts len =
      if MAX_URL_DEPTH <=? zlen parts then Some None
      else parts_loop fuel (before ++ sl ++ t ++ (if c =? 0 then [] else [0])) (if c =? 0 then c :: r else r)
             (step_part parts t) len'.
Proof.
  intros Hsl Ht Hc Hlen. cbn [parts_loop]. rewrite strtok_token by done. cbn [mbind option_bind].
  unfold step_part. pose proof (join_removelast parts).
  destruct (decide (t = str "..")) as [->|H1].
  { exists len. split; [lia|]. by destruct (_ <=? _). }
  replace (strcmp t (str "..") =? 0) with false by (symmetry; apply Z.eqb_neq; by rewrite strcmp_eq).
  destruct (decide (t = str ".")) as [->|H2].
  { exists len. split; [lia|]. by destruct (_ <=? _). }
  replace (strcmp t (str ".") =? 0) with false by (symmetry; apply Z.eqb_neq; by rewrite strcmp_eq).
  exists (len + zlen t + 1). rewrite join_snoc, length_app. cbn [length]. split; [lia|]. by destruct (_ <=? _).
Qed.

Lemma parts_loop_correct fuel : forall s before post parts len, no_nul s -> (length s < fuel)%nat ->
  zlen (join parts) <= len ->
  match walk parts (segments s) with
  | None => parts_loop fuel before (s ++ 0 :: post) parts len = Some None
  | Some ps => exists tail len', zlen (join ps) <= len' /\
      parts_loop fuel before (s ++ 0 :: post) parts len = Some (Some (before ++ head_path s ++ 0 :: tail, ps, len'))
  end.
Proof.
  induction fuel as [|fuel IH]; intros s before post parts len Hs Hf Hlen; [lia|].
  destruct (path_cases (d := 47) s Hs) as [Hsl|(sl & t & Hsl & Ht & [->|(r & -> & Hr)])].
  - rewrite <- (app_nil_r s), segments_slashes, app_nil_r by done. cbn [segments_at pieces_at filter list_filter walk].
    exists post, len. split; [done|]. cbn [parts_loop]. rewrite strtok_none by done. cbn.
    by rewrite head_path_slashes, <- app_assoc.
  - rewrite segments_slashes, segments_last, walk_cons by done. rewrite <- app_assoc.
    destruct (parts_loop_token fuel before sl t 0 post parts len) as (len' & Hlen' & ->); [done|done|by left|done|].
    destruct (_ <=? _); [done|]. rewrite Z.eqb_refl, app_nil_r. rewrite !length_app in Hf.
    assert (length t > 0)%nat by (destruct Ht as [Ht _]; destruct t; [done|cbn; lia]).
    specialize (IH [] (before ++ sl ++ t) post (step_part parts t) len' ltac:(constructor) ltac:(cbn; lia) Hlen').
    cbn in IH. destruct IH as (tail & l' & Hl & E). exists tail, l'. split; [done|]. cbn [app] in E. rewrite E.
    pose proof (head_path_token sl t [] Hsl Ht (or_introl eq_refl)) as Eh. rewrite app_nil_r in Eh.
    by rewrite Eh, <- !app_assoc.
  - rewrite segments_slashes, segments_token, walk_cons by done. rewrite <- !app_assoc. cbn [app].
    destruct (parts_loop_token fuel before sl t 47 (r ++ 0 :: post) parts len) as (len' & Hlen' & ->); [done|done|by right|done|].
    destruct (_ <=? _); [done|]. change (47 =? 0) with false. cbn iota. rewrite !length_app in Hf. cbn [length] in Hf.
    specialize (IH r (before ++ sl ++ t ++ [0]) post (step_part parts t) len' Hr ltac:(lia) Hlen').
    destruct (walk _ _) as [ps|]; [|done]. destruct IH as (tail & l' & Hl & ->).
    exists (head_path r ++ 0 :: tail), l'. split; [done|].
    rewrite head_path_token by (done || by right; eauto). by rewrite <- !app_assoc.
Qed.

(** *** The local path *)

Lemma bput_string d s x t : bput (d ++ x :: t) (zlen d) (s ++ [0]) = d ++ s ++ 0 :: drop (length s) t.
Proof.
  unfold bput. rewrite Nat2Z.id, take_app_length, <- app_assoc. f_equal. f_equal. cbn [app]. f_equal.
  rewrite length_app, <- drop_drop, drop_app_length. cbn [length].
  by rewrite Nat.add_1_r.
Qed.

(** A string [d] at the start of a block of [n] bytes. *)
Definition holds_str (n : Z) (b d : list Z) : Prop := zlen b = n /\ no_nul d /\ exists x t, b = d ++ x :: t /\ cstr b = Some d.

Lemma strcpy_holds n b s : zlen b = n -> no_nul s -> zlen s < n -> exists b', strcpy b s = Some b' /\ holds_str n b' s.
Proof.
  intros Hb Hs Hn. unfold strcpy. replace (_ <? _) with true by zb. eexists. split; [done|].
  destruct b as [|x t]; [cbn in *; lia|]. pose proof (bput_string [] s x t) as E. change (zlen []) with 0 in E. cbn [app] in E. rewrite E.
  assert (Hl : zlen (bput (x :: t) 0 (s ++ [0])) = zlen (x :: t)) by (apply length_bput; rewrite ?length_app; cbn [length] in *; lia).
  rewrite E in Hl. split; [lia|]. split; [done|]. exists 0, (drop (length s) t). split; [done|]. by apply cstr_app.
Qed.

Lemma strcat_holds n b d s : holds_str n b d -> no_nul s -> zlen d + zlen s < n ->
  exists b', strcat b s = Some b' /\ holds_str n b' (d ++ s).
Proof.
  intros (Hb & Hd & x & t & -> & E) Hs Hn. unfold strcat. rewrite E. cbn [mbind option_bind].
  replace (_ <? _) with true by zb. eexists. split; [done|].
  assert (Hl : zlen (bput (d ++ x :: t) (zlen d) (s ++ [0])) = n) by (rewrite length_bput; rewrite ?length_app in *; cbn [length] in *; lia).
  rewrite bput_string in *. split; [done|]. split; [by apply Forall_app|]. exists 0, (drop (length s) t).
  rewrite app_assoc. split; [done|]. by apply cstr_app, Forall_app.
Qed.

Lemma add_parts_holds n parts : Forall no_nul parts -> forall b d, holds_str n b d -> zlen d + zlen (join parts) < n ->
  exists b', add_parts b parts = Some b' /\ holds_str n b' (d ++ join parts).
Proof.
  induction 1 as [|p parts Hp Hps IH]; intros b d Hb Hn; cbn [add_parts].
  - exists b. by rewrite app_nil_r.
  - unfold join in Hn. cbn in Hn. rewrite length_app in Hn.
    destruct (strcat_holds n b d (str "/") Hb) as (b1 & -> & H1); [by repeat constructor|cbn; lia|]. cbn [mbind option_bind].
    destruct (strcat_holds n b1 _ p H1 Hp) as (b2 & -> & H2); [rewrite length_app; cbn; lia|]. cbn [mbind option_bind].
    destruct (IH b2 _ H2) as (b' & E & H'); [rewrite !length_app; unfold join; cbn; lia|].
    exists b'. split; [done|]. unfold join in *. cbn. by rewrite <- !app_assoc in H'.
Qed.

(** *** Validation *)

Lemma unbackslash_cut d rest : exists tail,
  unbackslash (d ++ 0 :: rest) = map (fun c => if c =? 92 then 47 else c) (cut0 d) ++ 0 :: tail.
Proof.
  induction d as [|c d [tail IH]]; cbn [app unbackslash cut0]; [by exists rest|].
  destruct (Z.eqb_spec c 0) as [->|]; [by exists (d ++ 0 :: rest)|]. exists tail. by rewrite IH.
Qed.

Lemma cut0_no_nul d : no_nul (cut0 d).
Proof. induction d as [|c d IH]; cbn; [constructor|]. destruct (Z.eqb_spec c 0); constructor; done. Qed.

Lemma cut0_split d rest : exists tail, d ++ 0 :: rest = cut0 d ++ 0 :: tail.
Proof.
  induction d as [|c d [tail IH]]; cbn [app cut0]; [by exists rest|]. destruct (Z.eqb_spec c 0) as [->|Hc]; [by eexists|].
  exists tail. cbn [app]. by f_equal.
Qed.

Lemma cstr_cut0 d rest : cstr (d ++ 0 :: rest) = Some (cut0 d).
Proof. destruct (cut0_split d rest) as [tail ->]. apply cstr_app, cut0_no_nul. Qed.

(** A character of a cleaned path. *)
Definition path_char (c : Z) : Prop := c <> 0 /\ c <> 92.

Lemma clean_chars path : Forall path_char (clean path).
Proof.
  apply Forall_map. eapply List.Forall_impl; [|exact (cut0_no_nul (decode_url path))]. intros c Hc.
  destruct (Z.eqb_spec c 92); split; cbn in *; lia.
Qed.

(** What a part of a local path is. *)
Definition safe_part (p : list Z) : Prop :=
  p <> [] /\ p <> str "." /\ p <> str ".." /\ Forall (fun c => c <> 0 /\ c <> 47 /\ c <> 92) p.

Lemma pieces_chars s : Forall path_char s -> Forall (Forall (fun c => c <> 0 /\ c <> 47 /\ c <> 92)) (pieces s).
Proof.
  induction 1 as [|c s [Hc Hc'] Hs IH]; cbn; [by repeat constructor|].
  destruct (Z.eqb_spec c 47); [by constructor|].
  destruct (pieces s) as [|w ws]; [by repeat constructor|]. apply Forall_cons_1 in IH as [Hw Hws].
  by repeat constructor.
Qed.

Lemma walk_safe segs : Forall (Forall (fun c => c <> 0 /\ c <> 47 /\ c <> 92)) segs -> Forall (fun t => t <> []) segs ->
  forall parts ps, Forall safe_part parts -> zlen parts <= MAX_URL_DEPTH -> walk parts segs = Some ps ->
  Forall safe_part ps /\ zlen ps <= MAX_URL_DEPTH.
Proof.
  induction 1 as [|t segs Ht Hsegs IH]; intros Hne parts ps Hp Hl; [by intros [= <-]|]. rewrite walk_cons.
  apply Forall_cons_1 in Hne as [Hne Hnes]. destruct (Z.leb_spec MAX_URL_DEPTH (zlen parts)); [done|].
  apply (IH Hnes); unfold step_part.
  - destruct (decide _) as [_|H1].
    + destruct parts as [|p parts _] using rev_ind; [done|]. rewrite removelast_last. by apply Forall_app in Hp as [Hp _].
    + destruct (decide _); [done|]. apply Forall_app. split; [done|]. by repeat constructor.
  - destruct (decide _).
    + destruct parts as [|p parts _] using rev_ind; [done|]. rewrite removelast_last. rewrite length_app in *. cbn in *. lia.
    + destruct (decide _); [lia|]. rewrite length_app. cbn. lia.
Qed.

Lemma segments_walk_safe path ps : walk [] (segments (clean path)) = Some ps ->
  Forall safe_part ps /\ zlen ps <= MAX_URL_DEPTH.
Proof.
  apply walk_safe; [| |constructor|done]; unfold segments; apply List.Forall_forall; intros w Hw;
    apply list_elem_of_In, list_elem_of_filter in Hw as [Hne Hw]; [|done].
  apply list_elem_of_In in Hw. pose proof (pieces_chars _ (clean_chars path)) as H. rewrite List.Forall_forall in H. by apply H.
Qed.

(** The head of a path without segments is the path. *)
Lemma head_root p : no_nul p ->
  bool_decide (p = []) || bool_decide (p = str "/") = bool_decide (head_path p = []) || (strcmp (head_path p) (str "/") =? 0).
Proof.
  intros Hp. assert (Es : forall s, (strcmp s (str "/") =? 0) = bool_decide (s = str "/")).
  { intros s. apply eq_bool_prop_intro. rewrite bool_decide_spec. split; intros H; [|by apply Is_true_true, Z.eqb_eq, strcmp_eq].
    by apply strcmp_eq, Z.eqb_eq, Is_true_true. }
  rewrite Es. destruct (path_cases (d := 47) p Hp) as [Hsl|(sl & t & Hsl & Ht & Hr)]; [by rewrite head_path_slashes|].
  assert (exists r, p = sl ++ t ++ r /\ head_path p = sl ++ t) as (r & -> & ->).
  { destruct Hr as [->|(r & -> & _)].
    - exists []. pose proof (head_path_token sl t [] Hsl Ht (or_introl eq_refl)) as E. rewrite app_nil_r in *. done.
    - exists (47 :: r). split; [done|]. apply head_path_token; eauto. }
  destruct (token_head t Ht) as (d & t' & -> & Hd & _).
  assert (H : forall r', sl ++ (d :: t') ++ r' <> [] /\ sl ++ (d :: t') ++ r' <> str "/").
  { intros r'. split; intros E; destruct sl as [|x [|y sl]]; try done; cbn in E; injection E as -> E; try done;
      (by destruct sl) || by rewrite Z.eqb_refl in Hd. }
  pose proof (H r) as [H1 H2]. pose proof (H []) as [H3 H4]. rewrite app_nil_r in H3, H4.
  by rewrite !bool_decide_eq_false_2.
Qed.

Lemma head_path_no_nul p : no_nul p -> no_nul (head_path p).
Proof.
  intros Hp. unfold head_path. destruct (span _ p) as [sl r] eqn:E. destruct (span_spec _ _ _ _ E) as (-> & _ & _).
  apply Forall_app in Hp as [Hsl Hr]. apply Forall_app. split; [done|].
  destruct (span _ r) as [t r'] eqn:E'. destruct (span_spec _ _ _ _ E') as (-> & _ & _). by apply Forall_app in Hr as [? _].
Qed.

Section Validate.
Context (balloc : Z -> option (list Z)).
Context (bstrdup : list Z -> cptr).
Hypothesis balloc_ok : forall n, 0 < n -> exists b, balloc n = Some b /\ zlen b = n.
Hypothesis bstrdup_ok : forall s, bstrdup s = Some s.

Lemma cfgbak_no_nul : no_nul JRD_WEBRC_CFGBAK.
Proof. apply (bool_decide_unpack _). by vm_compute. Qed.

Lemma set_lpath wp l : w_lpath (websSetRequestLpath bstrdup wp (Some l)) = Some l /\
  cgiVars (websSetRequestLpath bstrdup wp (Some l)) !! str "PATH_TRANSLATED" = Some l.
Proof using bstrdup_ok.
  unfold websSetRequestLpath, websSetVar, bstrdup_ptr. cbn [default from_option id]. rewrite bstrdup_ok.
  destruct wp. split; [reflexivity|]. apply lookup_insert_eq.
Qed.

(** The block for the local path has room for the root and the parts. *)
Lemma build_lpath {A} root ps n (k : list Z -> option A) : no_nul root -> Forall safe_part ps ->
  0 < n -> zlen root + zlen (join ps) < n ->
  (lpath ← balloc n; lpath ← strcpy lpath root; lpath ← add_parts lpath ps; lpath ← cstr lpath; k lpath) =
    k (root ++ join ps).
Proof using All.
  intros Hrn Hsafe Hn Hfit. destruct (balloc_ok n Hn) as (b & -> & Hb). cbn [mbind option_bind].
  destruct (strcpy_holds _ b root Hb Hrn) as (b1 & -> & H1); [lia|]. cbn [mbind option_bind].
  destruct (add_parts_holds n ps) with (b := b1) (d := root) as (b2 & -> & _ & _ & x & t & _ & E); [|done|lia|].
  { eapply List.Forall_impl; [|exact Hsafe]. intros p (_ & _ & _ & Hc).
    eapply List.Forall_impl; [|exact Hc]. by intros c (Hc0 & _). }
  cbn [mbind option_bind]. by rewrite E.
Qed.

Lemma validate_resolve wp dir path : w_dir wp = Some dir -> dir <> [] -> no_nul dir -> no_nul path ->
  zlen JRD_WEBRC_CFGBAK <= zlen dir + 1 ->
  websValidateUrl balloc bstrdup wp path =
    Some match resolve dir path with
         | Some lpath => (0, websSetRequestLpath bstrdup wp (Some lpath))
         | None => (-1, wp)
         end.
Proof using All.
  intros Hdir Hne Hnd Hpath Hfit. unfold websValidateUrl, websGetRequestDir. rewrite Hdir. cbn [default from_option id].
  rewrite bool_decide_eq_false_2 by done. rewrite bstrdup_ok. cbn [mbind option_bind].
  destruct (websDecodeUrl_inplace path [] Hpath) as (rest & ->). cbn [mbind option_bind].
  destruct (unbackslash_cut (decode_url path) rest) as (tail & ->). fold (clean path). unfold resolve.
  assert (Hp : no_nul (clean path)) by (eapply List.Forall_impl; [|exact (clean_chars path)]; by intros c [Hc _]).
  pose proof (parts_loop_correct (S (length (clean path ++ 0 :: tail))) (clean path) [] tail [] 0 Hp
    ltac:(rewrite length_app; lia) ltac:(done)) as Hloop.
  destruct (walk [] (segments (clean path))) as [ps|] eqn:Ew; [|by rewrite Hloop].
  destruct Hloop as (tail' & len & Hlen & ->). cbn [mbind option_bind app].
  rewrite cstr_app by by apply head_path_no_nul. cbn [mbind option_bind].
  rewrite <- orb_assoc, (orb_comm (strcmp _ _ =? 0)), <- head_root by done.
  destruct (segments_walk_safe _ _ Ew) as [Hsafe _].
  rewrite build_lpath; [|destruct (strstr _ _); [exact cfgbak_no_nul|done]|done|lia|destruct (strstr _ _); cbn iota; lia].
  by destruct (bool_decide (ps = [])), (bool_decide (clean path = [])), (bool_decide (clean path = str "/")).
Qed.

(** C6. [websValidateUrl] returns, and the local path that it sets is a root, the directory
    of the request or the one of the saved configuration, followed by at most eight
    segments of the decoded path, none of them empty, a dot, two dots or with a slash
    in it: no request leaves the root. *)
Theorem websValidateUrl_confined wp dir path : w_dir wp = Some dir -> dir <> [] -> no_nul dir -> no_nul path ->
  zlen JRD_WEBRC_CFGBAK <= zlen dir + 1 ->
  exists rc wp', websValidateUrl balloc bstrdup wp path = Some (rc, wp') /\
    (rc = -1 /\ wp' = wp \/
     rc = 0 /\ exists root ps, (root = dir \/ root = JRD_WEBRC_CFGBAK) /\ Forall safe_part ps /\ zlen ps <= MAX_URL_DEPTH /\
       w_lpath wp' = Some (root ++ join ps) /\ cgiVars wp' !! str "PATH_TRANSLATED" = Some (root ++ join ps)).
Proof using All.
  intros Hdir Hne Hnd Hpath Hfit. rewrite (validate_resolve wp dir path) by done. unfold resolve.
  destruct (walk _ _) as [ps|] eqn:Ew; cbn [mbind option_bind]; [|exists (-1), wp; split; [done|by left]].
  destruct (_ && _); [exists (-1), wp; split; [done|by left]|]. destruct (segments_walk_safe _ _ Ew) as [Hsafe Hlen].
  eexists _, _. split; [reflexivity|right]. split; [done|]. set (root := if strstr _ _ then _ else _).
  exists root, ps. split; [unfold root; destruct (strstr _ _); eauto|]. do 2 (split; [done|]).
  by apply set_lpath.
Qed.

(** The path that [websValidateUrl] makes is the one that the segments of the decoded
    path lead to from the root, two dots going back and a dot staying; a path that has more
    than eight segments on the way, or that comes back to the root, is refused. *)
Theorem websValidateUrl_resolves wp dir path : w_dir wp = Some dir -> dir <> [] -> no_nul dir -> no_nul path ->
  zlen JRD_WEBRC_CFGBAK <= zlen dir + 1 ->
  websValidateUrl balloc bstrdup wp path =
    Some match resolve dir path with
         | Some lpath => (0, websSetRequestLpath bstrdup wp (Some lpath))
         | None => (-1, wp)
         end.
Proof using All. apply validate_resolve. Qed.
End Validate.

(** ** Examples *)

Definition demo_balloc (n : Z) : option (list Z) := Some (repeat 0 (Z.to_nat n)).
Definition web_root : list Z := str "/ipq-resource/resource/webrc/www".
Definition demo_request (path : list Z) : websRec :=
  mkWebs (str "10.0.0.2") (Some web_root) (Some path) (Some path) None None None 0 0 0 0 ∅ [] None None None 0 None 0 None [].

Lemma url_balloc_ok n : 0 < n -> exists b, demo_balloc n = Some b /\ zlen b = n.
Proof. intros Hn. eexists. split; [done|]. rewrite repeat_length. lia. Qed.

Lemma websCondenseMultipleChars_correct_witness :
  exists rest, websCondenseMultipleChars (str "//a///b" ++ [0]) 47 = Some (str "/a/b" ++ 0 :: rest).
Proof. apply (websCondenseMultipleChars_correct (str "//a///b") [] 47); [done|]. apply (bool_decide_unpack _). by vm_compute. Defined.

Lemma websValidateUrl_confined_witness : exists rc wp',
  websValidateUrl demo_balloc Some (demo_request []) (str "/css/..%2f..\..//%2E%2e/etc/passwd") = Some (rc, wp') /\
  (rc = -1 /\ wp' = demo_request [] \/
   rc = 0 /\ exists root ps, (root = web_root \/ root = JRD_WEBRC_CFGBAK) /\ Forall safe_part ps /\ zlen ps <= MAX_URL_DEPTH /\
     w_lpath wp' = Some (root ++ join ps) /\ cgiVars wp' !! str "PATH_TRANSLATED" = Some (root ++ join ps)).
Proof.
  apply (websValidateUrl_confined demo_balloc Some url_balloc_ok (fun s => eq_refl) (demo_request []) web_root);
    [done|done|apply (bool_decide_unpack _); by vm_compute|apply (bool_decide_unpack _); by vm_compute|by vm_compute].
Defined.

Lemma websValidateUrl_resolves_witness :
  websValidateUrl demo_balloc Some (demo_request []) (str "/a/./b/../c%2ehtml") =
    Some (0, websSetRequestLpath Some (demo_request []) (Some (web_root ++ str "/a/c.html"))).
Proof.
  rewrite (websValidateUrl_resolves demo_balloc Some url_balloc_ok (fun s => eq_refl) (demo_request []) web_root);
    [by vm_compute|done|done|apply (bool_decide_unpack _); by vm_compute|apply (bool_decide_unpack _); by vm_compute|by vm_compute].
Defined.

(** With a root directory that is shorter than the one of the saved configuration by two
    characters or more, a request for the latter writes behind the block. *)
Example cfgbak_overflow : websValidateUrl demo_balloc Some ((demo_request []) <| w_dir := Some (str "/www") |>) (str "/cfgbak") = None.
Proof. vm_compute. reflexivity. Qed.
