(* ===== verification/Mime64.v ===== *)
(** * Base 64 (webs/src/src/mime64.c)

    [websDecode64] decodes the credentials of a request into a buffer of its caller.  The
    theorems compare it with the encoding of RFC 4648 and bound what it writes.  A
    [char_t] is signed, as on the compilers of the code: a [char] of the table may be -1. *)

From S2P Require Import Prelude CString Url UrlSpec.
#[local] Open Scope Z_scope.
#[local] Open Scope cint_scope.

Definition map64 : list Z := [
  -1; -1; -1; -1; -1; -1; -1; -1; -1; -1; -1; -1; -1; -1; -1; -1;
  -1; -1; -1; -1; -1; -1; -1; -1; -1; -1; -1; -1; -1; -1; -1; -1;
  -1; -1; -1; -1; -1; -1; -1; -1; -1; -1; -1; 62; -1; -1; -1; 63;
  52; 53; 54; 55; 56; 57; 58; 59; 60; 61; -1; -1; -1; -1; -1; -1;
  -1;  0;  1;  2;  3;  4;  5;  6;  7;  8;  9; 10; 11; 12; 13; 14;
  15; 16; 17; 18; 19; 20; 21; 22; 23; 24; 25; -1; -1; -1; -1; -1;
  -1; 26; 27; 28; 29; 30; 31; 32; 33; 34; 35; 36; 37; 38; 39; 40;
  41; 42; 43; 44; 45; 46; 47; 48; 49; 50; 51; -1; -1; -1; -1; -1] ++ repeat (-1) 128.

(** The loop over four characters from [cp], which is the rest [s] of the string: their
    number, [shiftbuf] and the rest; [Some None] is a bad character. *)
Fixpoint quad_loop (n : nat) (s : list Z) (i shift shiftbuf : Z) : option (option (Z * Z * list Z)) :=
  match n with
  | O => Some (Some (i, shiftbuf, s))
  | S n =>
      match s with
      | [] => None
      | ch :: s' =>
          if (ch =? 0) || (ch =? 61) then Some (Some (i, shiftbuf, s))
          else
            let c := zget map64 (Z.land ch 255) in
            if c =? -1 then Some None
            else quad_loop n s' (i + 1) (shift - 6) (Z.lor shiftbuf (Z.shiftl c shift))
      end
  end.

(** [for (j = 0; j < i; j++) *op++ = ..], from [j] on. *)
Fixpoint put_loop (n : nat) (out : list Z) (op j shiftbuf : Z) : option (list Z * Z) :=
  match n with
  | O => Some (out, op)
  | S n =>
      out ← store out op (Z.land (Z.shiftr shiftbuf (8 * (2 - j))) 255);
      put_loop n out (op + 1) (j + 1) shiftbuf
  end.

Fixpoint decode64_loop (fuel : nat) (out s : list Z) (op outlen : Z) : option (Z * list Z) :=
  match fuel with
  | O => None
  | S fuel =>
      match s with
      | [] => None
      | ch :: _ =>
          if (ch =? 0) || (ch =? 61) then Some (0, out)
          else
            r ← quad_loop 4 s 0 18 0;
            match r with
            | None => Some (-1, out)
            | Some (i, shiftbuf, s) =>
                let i := i - 1 in
                if outlen <=? op + i then
                  out ← strcpy out (str "String too big"); Some (-1, out)
                else
                  '(out, op) ← put_loop (Z.to_nat i) out op 0 shiftbuf;
                  out ← store out op 0;
                  decode64_loop fuel out s op outlen
            end
      end
  end.

(** The result and the block at [outbuf]. *)
Definition websDecode64 (outbuf string : list Z) (outlen : Z) : option (Z * list Z) :=
  outbuf ← store outbuf 0 0;
  decode64_loop (S (length string)) outbuf string 0 outlen.

(** ** The encoding of RFC 4648 *)

Definition alphabet : list Z := str "ABCDEFGHIJKLMNOPQRSTUVWXYZabcdefghijklmnopqrstuvwxyz0123456789+/".
Definition b64_char (v : Z) : Z := zget alphabet v.

Definition b64_group (a b c : Z) : list Z :=
  let v := a * 65536 + b * 256 + c in
  map b64_char [v / 262144; v / 4096 mod 64; v / 64 mod 64; v mod 64].

Fixpoint b64_encode (s : list Z) : list Z :=
  match s with
  | a :: b :: c :: s => b64_group a b c ++ b64_encode s
  | [a; b] => take 3 (b64_group a b 0) ++ str "="
  | [a] => take 2 (b64_group a 0 0) ++ str "=="
  | [] => []
  end.

Definition bytes (s : list Z) : Prop := Forall (fun c => 0 <= c < 256) s.

Example b64_Man : b64_encode (str "Many hands") = str "TWFueSBoYW5kcw==".
Proof. reflexivity. Qed.

Example decode_Man : websDecode64 (repeat 7 12) (str "TWFueSBoYW5kcw==" ++ [0]) 12 = Some (0, str "Many hands" ++ [0; 7]).
Proof. vm_compute. reflexivity. Qed.

(** ** Decoding *)

Lemma b64_char_ok v : 0 <= v < 64 ->
  (b64_char v =? 0) || (b64_char v =? 61) = false /\ zget map64 (Z.land (b64_char v) 255) = v.
Proof.
  intros Hv. assert (H : forallb (fun n => let v := Z.of_nat n in
    negb ((b64_char v =? 0) || (b64_char v =? 61)) && (zget map64 (Z.land (b64_char v) 255) =? v)) (seq 0 64) = true)
    by (by vm_compute).
  rewrite forallb_forall in H. specialize (H (Z.to_nat v) ltac:(apply in_seq; lia)). cbv zeta in H.
  rewrite Z2Nat.id in H by lia. apply andb_true_iff in H as [H1%negb_true_iff H2%Z.eqb_eq]. done.
Qed.

(** Six bits are added below the bits that are there. *)
Lemma lor_digit x v s : 0 <= s -> 0 <= v < 64 -> x mod 2 ^ (s + 6) = 0 -> Z.lor x (Z.shiftl v s) = x + v * 2 ^ s.
Proof.
  intros Hs Hv Hx. rewrite <- Z.shiftl_mul_pow2 by done. symmetry. rewrite Z.add_nocarry_lxor; [apply Z.lxor_lor|];
    (apply Z.bits_inj'; intros n Hn; rewrite Z.land_spec, Z.bits_0, Z.shiftl_spec by done;
     destruct (Z.lt_ge_cases n (s + 6)) as [Hlt|Hge];
     [rewrite <- (Z.mod_pow2_bits_low x (s + 6) n), Hx, Z.bits_0 by lia; done|]; apply andb_false_intro2;
     rewrite <- (Z.mod_small v (2 ^ 6)) by lia; apply Z.mod_pow2_bits_high; lia).
Qed.

Lemma quad_char n v s i shift x : 0 <= v < 64 -> 0 <= shift -> x mod 2 ^ (shift + 6) = 0 ->
  quad_loop (S n) (b64_char v :: s) i shift x = quad_loop n s (i + 1) (shift - 6) (x + v * 2 ^ shift).
Proof.
  intros Hv Hs Hx. cbn [quad_loop]. destruct (b64_char_ok v Hv) as [-> ->].
  replace (v =? -1) with false by zb. by rewrite lor_digit.
Qed.

(** The bytes that [put_loop] takes out of [shiftbuf]. *)
Definition byte_at (shiftbuf j : Z) : Z := Z.land (Z.shiftr shiftbuf (8 * (2 - j))) 255.

Lemma put_loop_bytes n : forall pre tail j sb, (n <= length tail)%nat ->
  put_loop n (pre ++ tail) (zlen pre) j sb =
    Some (pre ++ map (fun k => byte_at sb (j + Z.of_nat k)) (seq 0 n) ++ drop n tail, zlen pre + Z.of_nat n).
Proof.
  induction n as [|n IH]; intros pre tail j sb Hn; cbn [put_loop]; [cbn; by rewrite Z.add_0_r|].
  destruct tail as [|x tail]; [cbn in Hn; lia|]. rewrite store_app. cbn [mbind option_bind].
  change (Z.land _ 255) with (byte_at sb j). rewrite (cons_middle (byte_at sb j)), app_assoc.
  replace (zlen pre + 1) with (zlen (pre ++ [byte_at sb j])) by (rewrite length_app; cbn; lia).
  rewrite IH by (cbn in Hn; lia). rewrite length_app. cbn [length seq map drop app]. rewrite <- seq_shift, map_map, <- app_assoc.
  f_equal. f_equal; [|lia]. f_equal. cbn [app]. f_equal; [f_equal; lia|]. f_equal. apply map_ext. intros k. f_equal. lia.
Qed.

(** The bytes of a group of four characters. *)
Lemma byte_at_group a b c : 0 <= a < 256 -> 0 <= b < 256 -> 0 <= c < 256 ->
  let v := a * 65536 + b * 256 + c in byte_at v 0 = a /\ byte_at v 1 = b /\ byte_at v 2 = c.
Proof.
  intros Ha Hb Hc v. unfold byte_at. change 255 with (Z.ones 8). rewrite !Z.land_ones, !Z.shiftr_div_pow2 by lia.
  subst v. change (8 * (2 - 0)) with 16. change (8 * (2 - 1)) with 8. change (8 * (2 - 2)) with 0.
  change (2 ^ 16) with 65536. change (2 ^ 8) with 256. change (2 ^ 0) with 1.
  repeat split; Z.to_euclidean_division_equations; lia.
Qed.

Lemma group_bytes a b c n : 0 <= a < 256 -> 0 <= b < 256 -> 0 <= c < 256 -> (n <= 3)%nat ->
  map (fun k => byte_at (a * 65536 + b * 256 + c) (Z.of_nat k)) (seq 0 n) = take n [a; b; c].
Proof.
  intros Ha Hb Hc Hn. destruct (byte_at_group a b c Ha Hb Hc) as (Ea & Eb & Ec).
  assert (n = 0 \/ n = 1 \/ n = 2 \/ n = 3)%nat as [->|[->|[-> | ->]]] by lia; cbn [seq map take];
    change (Z.of_nat 0) with 0; change (Z.of_nat 1) with 1; change (Z.of_nat 2) with 2; by rewrite ?Ea, ?Eb, ?Ec.
Qed.

Lemma digits_group a b c : 0 <= a < 256 -> 0 <= b < 256 -> 0 <= c < 256 ->
  let v := a * 65536 + b * 256 + c in
  0 <= v / 262144 < 64 /\ 0 <= v / 4096 mod 64 < 64 /\ 0 <= v / 64 mod 64 < 64 /\ 0 <= v mod 64 < 64 /\
  v / 262144 * 262144 + (v / 4096 mod 64) * 4096 + (v / 64 mod 64) * 64 + v mod 64 = v.
Proof. intros Ha Hb Hc v. subst v. repeat split; Z.to_euclidean_division_equations; lia. Qed.

Lemma align x v s : 0 <= s -> x mod 2 ^ (s + 6) = 0 -> (x + v * 2 ^ s) mod 2 ^ s = 0.
Proof.
  intros Hs Hx. rewrite Z.mod_add by lia. apply Z.mod_divide; [lia|]. apply Z.mod_divide in Hx; [|lia].
  etransitivity; [|exact Hx]. rewrite Z.pow_add_r by lia. apply Z.divide_factor_l.
Qed.

Lemma zero_digits a b : (a * 65536 + b * 256 + 0) mod 64 = 0 /\ (b = 0 -> (a * 65536 + b * 256 + 0) / 64 mod 64 = 0 /\
  (a * 65536 + b * 256 + 0) mod 64 = 0).
Proof. split; [|intros ->; split]; Z.to_euclidean_division_equations; lia. Qed.

(** The loop on [k] characters of a group, the others being zero. *)
Lemma quad_group k a b c rest : 0 <= a < 256 -> 0 <= b < 256 -> 0 <= c < 256 ->
  let v := a * 65536 + b * 256 + c in
  (k = 4%nat \/ k = 3%nat /\ c = 0 /\ head rest = Some 61 \/ k = 2%nat /\ b = 0 /\ c = 0 /\ head rest = Some 61) ->
  quad_loop 4 (take k (b64_group a b c) ++ rest) 0 18 0 = Some (Some (Z.of_nat k, v, rest)).
Proof.
  intros Ha Hb Hc v Hk. destruct (digits_group a b c Ha Hb Hc) as (H1 & H2 & H3 & H4 & Hsum). fold v in H1, H2, H3, H4, Hsum.
  unfold b64_group. fold v. set (d1 := v / 262144) in *. set (d2 := v / 4096 mod 64) in *. set (d3 := v / 64 mod 64) in *.
  set (d4 := v mod 64) in *.
  pose proof (align 0 d1 18 ltac:(lia) eq_refl) as A1. pose proof (align _ d2 12 ltac:(lia) A1) as A2.
  pose proof (align _ d3 6 ltac:(lia) A2) as A3.
  assert (Hz : (k = 3%nat -> d4 = 0) /\ (k = 2%nat -> d3 = 0 /\ d4 = 0)).
  { split; intros E; (destruct Hk as [?|[(? & -> & _)|(? & -> & -> & _)]]; [lia|..]); try lia; by apply zero_digits. }
  assert (Hhead : forall n i shift x, head rest = Some 61 -> quad_loop (S n) rest i shift x = Some (Some (i, x, rest)))
    by (intros; destruct rest as [|ch rest]; [done|]; cbn in *; by simplify_eq).
  assert (Hv : 0 + d1 * 2 ^ 18 + d2 * 2 ^ 12 + d3 * 2 ^ 6 + d4 * 2 ^ 0 = v) by (cbn; lia).
  destruct Hk as [->|[(-> & _ & Hr)|(-> & _ & _ & Hr)]]; cbn [map take app];
    rewrite quad_char by done; change (18 - 6) with 12; rewrite quad_char by done; change (12 - 6) with 6.
  - rewrite quad_char by done. change (6 - 6) with 0. rewrite quad_char; [|done|done|by apply align].
    cbn [quad_loop]. by rewrite Hv.
  - rewrite quad_char by done. rewrite Hhead by done. destruct Hz as [Hz _]. rewrite (Hz eq_refl), Z.mul_0_l, Z.add_0_r in Hv.
    by rewrite Hv.
  - rewrite Hhead by done. destruct Hz as [_ Hz]. destruct (Hz eq_refl) as [E3 E4].
    rewrite E3, E4, !Z.mul_0_l, !Z.add_0_r in Hv. by rewrite Hv.
Qed.

(** One round of the decoder: [n] bytes are stored, with a zero byte behind them. *)
Lemma decode64_round fuel pre t s ch s' rest i sb outlen n : s = ch :: s' -> (ch =? 0) || (ch =? 61) = false ->
  quad_loop 4 s 0 18 0 = Some (Some (i, sb, rest)) -> i = Z.of_nat n + 1 ->
  zlen pre + Z.of_nat n < outlen -> outlen <= zlen (pre ++ 0 :: t) ->
  decode64_loop (S fuel) (pre ++ 0 :: t) s (zlen pre) outlen =
  decode64_loop fuel ((pre ++ map (fun k => byte_at sb (Z.of_nat k)) (seq 0 n)) ++ 0 :: drop n t) rest (zlen pre + Z.of_nat n) outlen.
Proof.
  intros -> Hch Hq -> Hn Hout. rewrite length_app in Hout. cbn [decode64_loop length] in *. rewrite Hch, Hq. cbn [mbind option_bind].
  replace (Z.of_nat n + 1 - 1) with (Z.of_nat n) by lia. replace (outlen <=? _) with false by zb.
  rewrite Nat2Z.id, put_loop_bytes by (cbn; lia). cbn [mbind option_bind].
  set (bs := map _ _). assert (Hbs : length bs = n) by (unfold bs; by rewrite length_map, length_seq).
  destruct (drop n (0 :: t)) as [|x t'] eqn:Ed;
    [apply (f_equal length) in Ed; rewrite length_drop in Ed; cbn [length] in *; lia|].
  assert (t' = drop n t) as -> by (change (t' = drop (S n) (0 :: t)); rewrite <- Nat.add_1_r, <- drop_drop, Ed; done).
  rewrite (app_assoc pre), (store_at (pre ++ bs)) by (rewrite length_app; lia).
  done.
Qed.

Lemma group_head a b c rest k : 0 <= a < 256 -> 0 <= b < 256 -> 0 <= c < 256 -> (1 <= k)%nat ->
  exists ch s', take k (b64_group a b c) ++ rest = ch :: s' /\ (ch =? 0) || (ch =? 61) = false.
Proof.
  intros Ha Hb Hc Hk. destruct (digits_group a b c Ha Hb Hc) as (H1 & _). destruct k as [|k]; [lia|].
  unfold b64_group. cbn [map take app]. eexists _, _. split; [done|]. by apply b64_char_ok.
Qed.

(** The round on a group of [n] bytes. *)
Lemma decode64_group fuel pre t a b c rest n outlen : 0 <= a < 256 -> 0 <= b < 256 -> 0 <= c < 256 ->
  (n = 3%nat \/ n = 2%nat /\ c = 0 /\ head rest = Some 61 \/ n = 1%nat /\ b = 0 /\ c = 0 /\ head rest = Some 61) ->
  zlen pre + Z.of_nat n < outlen -> outlen <= zlen (pre ++ 0 :: t) ->
  decode64_loop (S fuel) (pre ++ 0 :: t) (take (S n) (b64_group a b c) ++ rest) (zlen pre) outlen =
  decode64_loop fuel ((pre ++ take n [a; b; c]) ++ 0 :: drop n t) rest (zlen (pre ++ take n [a; b; c])) outlen.
Proof.
  intros Ha Hb Hc Hn Hfit Hout. destruct (group_head a b c rest (S n) Ha Hb Hc) as (ch & s' & Es & Hch); [lia|].
  assert (n <= 3)%nat by lia.
  rewrite (decode64_round fuel pre t _ ch s' rest (Z.of_nat (S n)) (a * 65536 + b * 256 + c) outlen n Es Hch);
    [|apply quad_group; [done..|]; destruct Hn as [->|[(-> & ? & ?)|(-> & ? & ? & ?)]]; auto 8|lia|done|done].
  rewrite group_bytes, length_app, length_take by done. do 2 f_equal. cbn [length]. lia.
Qed.

(** The decoder on the rest [s] of the encoded bytes, with [pre] decoded. *)
Lemma decode64_encode fuel : forall s pre t outlen post, bytes s -> (length s < fuel)%nat ->
  zlen pre + zlen s < outlen -> outlen <= zlen (pre ++ 0 :: t) ->
  exists t', decode64_loop fuel (pre ++ 0 :: t) (b64_encode s ++ 0 :: post) (zlen pre) outlen = Some (0, pre ++ s ++ 0 :: t').
Proof.
  induction fuel as [|fuel IH]; intros s pre t outlen post Hs Hf Hn Hout; [lia|].
  destruct s as [|a [|b [|c s]]]; cbn [b64_encode length] in *; repeat (apply Forall_cons_1 in Hs as [? Hs]).
  - by exists t.
  - rewrite <- app_assoc, (decode64_group fuel pre t a 0 0 _ 1) by (done || lia || auto 6).
    destruct fuel; [lia|]. exists (drop 1 t). cbn. by rewrite <- app_assoc.
  - rewrite <- app_assoc, (decode64_group fuel pre t a b 0 _ 2) by (done || lia || auto 6).
    destruct fuel; [lia|]. exists (drop 2 t). cbn. by rewrite <- app_assoc.
  - change (b64_group a b c) with (take 4 (b64_group a b c)).
    rewrite <- app_assoc, (decode64_group fuel pre t a b c _ 3) by (done || lia || auto). cbn [take].
    destruct (IH s (pre ++ [a; b; c]) (drop 3 t) outlen post Hs) as (t2 & ->);
      [lia|rewrite length_app; cbn; lia|rewrite !length_app in *; cbn [length] in *; rewrite length_drop; lia|].
    exists t2. by rewrite <- app_assoc.
Qed.

(** C27. Bytes that are encoded as RFC 4648 says come back from [websDecode64] when the
    buffer has room for them and their zero byte. *)
Theorem websDecode64_roundtrip s outbuf outlen : bytes s -> zlen s < outlen -> outlen <= zlen outbuf ->
  exists rest, websDecode64 outbuf (b64_encode s ++ [0]) outlen = Some (0, s ++ 0 :: rest).
Proof.
  intros Hs Hn Hout. unfold websDecode64. destruct outbuf as [|x t]; [cbn in *; lia|].
  change (store (x :: t) 0 0) with (Some (0 :: t)). cbn [mbind option_bind].
  assert (Hlen : (length s <= length (b64_encode s))%nat).
  { clear. induction s as [s IH] using (induction_ltof1 _ (@length Z)). unfold ltof in IH.
    destruct s as [|a [|b [|c s]]]; cbn; try lia. specialize (IH s ltac:(cbn; lia)). lia. }
  destruct (decode64_encode (S (length (b64_encode s ++ [0]))) s [] t outlen [] Hs) as (t' & E);
    [rewrite length_app; lia|done|done|]. by exists t'.
Qed.

Lemma websDecode64_roundtrip_witness : exists rest,
  websDecode64 (repeat 7 40) (b64_encode (str "admin:secret") ++ [0]) 40 = Some (0, str "admin:secret" ++ 0 :: rest).
Proof.
  apply websDecode64_roundtrip; [|reflexivity|by vm_compute]. apply (bool_decide_unpack _). by vm_compute.
Defined.

(** ** What is written *)

Lemma quad_total n : forall s i shift x, no_nul s -> quad_loop n (s ++ [0]) i shift x = Some None \/
  exists k (sb : Z) s1 s2, s = s1 ++ s2 /\ length s1 = k /\ (k <= n)%nat /\ (n <> 0%nat -> s <> [] -> head s <> Some 61 -> k <> 0%nat) /\
    quad_loop n (s ++ [0]) i shift x = Some (Some (i + Z.of_nat k, sb, s2 ++ [0])).
Proof.
  assert (Hstop : forall n (s : list Z) (i x : Z), (n <> 0%nat -> s <> [] -> head s <> Some 61 -> 0%nat <> 0%nat) ->
    exists k (sb : Z) s1 s2, s = s1 ++ s2 /\ length s1 = k /\ (k <= n)%nat /\ (n <> 0%nat -> s <> [] -> head s <> Some 61 -> k <> 0%nat) /\
    Some (Some (i, x, s ++ [0])) = Some (Some (i + Z.of_nat k, sb, s2 ++ [0]))).
  { intros n0 s i x H. exists 0%nat, x, [], s. rewrite Z.add_0_r. repeat split; [lia|done]. }
  induction n as [|n IH]; intros s i shift x Hs; cbn [quad_loop]; [right; by apply Hstop|].
  destruct s as [|ch s]; cbn [app]; [right; by apply (Hstop _ [])|]. apply Forall_cons_1 in Hs as [Hch Hs].
  rewrite (proj2 (Z.eqb_neq ch 0)) by done. destruct (Z.eqb_spec ch 61) as [->|]; cbn [orb];
    [right; apply (Hstop _ (61 :: s)); cbn; by intros _ _ []|].
  destruct (_ =? -1); [by left|]. destruct (IH s (i + 1) (shift - 6) (Z.lor x (Z.shiftl (zget map64 (Z.land ch 255)) shift)) Hs)
    as [->|(k & sb & s1 & s2 & -> & <- & Hk & _ & ->)]; [by left|]. right.
  exists (S (length s1)), sb, (ch :: s1), s2. repeat split; [cbn; lia|lia|]. do 4 f_equal. lia.
Qed.

(** The decoder keeps a string in the block and the bytes from [m] on. *)
Definition kept (m : Z) (out out' : list Z) : Prop :=
  zlen out' = zlen out /\ drop (Z.to_nat m) out' = drop (Z.to_nat m) out /\ exists d rest, out' = d ++ 0 :: rest.

Lemma drop_same (a b t : list Z) m : length a = length b -> zlen a <= m -> drop (Z.to_nat m) (a ++ t) = drop (Z.to_nat m) (b ++ t).
Proof. intros E Hm. rewrite !drop_app_ge by lia. by rewrite E. Qed.

Lemma put_message m out : zlen (str "String too big") < zlen out -> 15 <= m ->
  exists out', strcpy out (str "String too big") = Some out' /\ kept m out out'.
Proof.
  intros Hl Hm. unfold strcpy. rewrite (proj2 (Z.ltb_lt _ _)) by done. eexists. split; [done|].
  destruct out as [|x t]; [done|]. set (msg := str "String too big") in *.
  pose proof (bput_string [] msg x t) as E. change (zlen []) with 0 in E. cbn [app] in E. rewrite E.
  assert (Hlm : length msg = 14%nat) by done. cbn [length] in Hl.
  assert (Et : x :: t = (x :: take 14 t) ++ drop 14 t) by (cbn; by rewrite take_drop).
  split; [rewrite length_app; cbn [length]; rewrite length_drop; lia|]. split; [|by eauto].
  rewrite Hlm, Et, (cons_middle 0), app_assoc. apply drop_same; [rewrite length_app; cbn [length]; rewrite length_take; lia|].
  rewrite length_app. cbn [length]. lia.
Qed.

Lemma decode64_kept fuel : forall s pre t outlen m, no_nul s -> (length s < fuel)%nat -> zlen pre < outlen ->
  outlen <= zlen (pre ++ 0 :: t) -> outlen <= m -> 15 <= m -> 15 <= zlen (pre ++ 0 :: t) ->
  exists rc out', decode64_loop fuel (pre ++ 0 :: t) (s ++ [0]) (zlen pre) outlen = Some (rc, out') /\ (rc = 0 \/ rc = -1) /\
    kept m (pre ++ 0 :: t) out'.
Proof.
  induction fuel as [|fuel IH]; intros s pre t outlen m Hs Hf Hop Hout Hm H15 Hsz; [lia|].
  assert (Hsame : kept m (pre ++ 0 :: t) (pre ++ 0 :: t)) by (split; [done|split; [done|by exists pre, t]]).
  destruct s as [|ch s]; [by exists 0, (pre ++ 0 :: t); auto|].
  destruct ((ch =? 0) || (ch =? 61)) eqn:Hch; [exists 0, (pre ++ 0 :: t); cbn [decode64_loop app]; rewrite Hch; auto|].
  destruct (quad_total 4 (ch :: s) 0 18 0 Hs) as [Eq|(k & sb & s1 & s2 & Es & Hk & Hk4 & Hk0 & Eq)].
  { exists (-1), (pre ++ 0 :: t). cbn [decode64_loop app] in *. rewrite Hch, Eq. auto. }
  assert (k <> 0%nat) by (apply Hk0; [done|done|]; cbn; intros [= ->]; by rewrite Z.eqb_refl, orb_true_r in Hch).
  destruct (Z.leb_spec outlen (zlen pre + Z.of_nat (k - 1))) as [Hbig|Hfit].
  { destruct (put_message m (pre ++ 0 :: t)) as (out' & E & Hkept); [cbn in *; lia|done|]. exists (-1), out'.
    cbn [decode64_loop app] in *. rewrite Hch, Eq. cbn [mbind option_bind].
    replace (0 + Z.of_nat k - 1) with (Z.of_nat (k - 1)) by lia. rewrite (proj2 (Z.leb_le _ _)) by done. rewrite E. auto. }
  rewrite (decode64_round fuel pre t ((ch :: s) ++ [0]) ch (s ++ [0]) (s2 ++ [0]) (0 + Z.of_nat k) sb outlen (k - 1))
    by (done || lia). set (bs := map _ _).
  assert (Hbs : length bs = (k - 1)%nat) by (unfold bs; by rewrite length_map, length_seq).
  rewrite Es in Hs. apply Forall_app in Hs as [_ Hs2]. apply (f_equal length) in Es. rewrite length_app in Es. cbn [length] in *.
  replace (zlen pre + Z.of_nat (k - 1)) with (zlen (pre ++ bs)) in * by (rewrite length_app; lia).
  rewrite !length_app in *. cbn [length] in *.
  assert (Hlt : (k - 1 <= length t)%nat) by lia.
  destruct (IH s2 (pre ++ bs) (drop (k - 1) t) outlen m Hs2) as (rc & out' & E & Hrc & Hl & Hd & Hz);
    [rewrite ?length_app; cbn [length]; rewrite ?length_drop; lia..|].
  rewrite length_app in E. exists rc, out'. split; [done|]. split; [done|].
  split; [rewrite Hl, !length_app; cbn [length]; rewrite length_drop; lia|]. split; [|done]. rewrite Hd.
  rewrite <- (take_drop (k - 1) t) at 2. rewrite !(cons_middle 0), !app_assoc, <- app_assoc.
  change (0 :: take (k - 1) t) with ([0] ++ take (k - 1) t). rewrite ?app_assoc.
  apply drop_same; rewrite !length_app; cbn [length]; rewrite ?length_take; lia.
Qed.

(** C40. Whatever the string, [websDecode64] returns 0 or -1, leaves a string in the buffer,
    and writes to no byte behind the first [outlen] of it, or fifteen for the message of a
    string that is too long. *)
Theorem websDecode64_bounded s outbuf outlen : no_nul s -> 0 < outlen -> outlen <= zlen outbuf -> 15 <= zlen outbuf ->
  exists rc out', websDecode64 outbuf (s ++ [0]) outlen = Some (rc, out') /\ (rc = 0 \/ rc = -1) /\
    zlen out' = zlen outbuf /\ drop (Z.to_nat (Z.max outlen 15)) out' = drop (Z.to_nat (Z.max outlen 15)) outbuf /\
    exists d rest, out' = d ++ 0 :: rest.
Proof.
  intros Hs H0 Hout H15. unfold websDecode64. destruct outbuf as [|x t]; [cbn in *; lia|].
  change (store (x :: t) 0 0) with (Some (0 :: t)). cbn [mbind option_bind].
  destruct (decode64_kept (S (length (s ++ [0]))) s [] t outlen (Z.max outlen 15) Hs) as (rc & out' & E & Hrc & Hl & Hd & Hz);
    [rewrite length_app; lia|done|done|lia..|done|].
  exists rc, out'. split; [exact E|]. split; [done|]. split; [done|]. split; [|done]. rewrite Hd.
  apply (drop_same [0] [x]); cbn; lia.
Qed.

Lemma websDecode64_bounded_witness : exists rc out',
  websDecode64 (repeat 7 20) (str "TWFu!" ++ [0]) 16 = Some (rc, out') /\ (rc = 0 \/ rc = -1) /\
  zlen out' = 20 /\ drop 16 out' = repeat 7 4 /\ exists d rest, out' = d ++ 0 :: rest.
Proof.
  apply (websDecode64_bounded (str "TWFu!") (repeat 7 20) 16); [|done..]. apply (bool_decide_unpack _). by vm_compute.
Defined.
