(* ===== verification/Session.v ===== *)
(** * Login sessions (webs/src/src/security.c, the EGOSM functions)

    A client is known by its address and the kind of its browser.  The sessions are symbols
    of one table: the low byte of the value is what became of the last login, the byte above
    it counts the ticks of the timer since the last heartbeat, and the argument counts
    failed logins.  Each tick advances the counts and deletes the sessions that reached
    [SESSION_TIMEOUT_COUNT].

    A result [None] is a crash, as elsewhere; the symbol tables are those of [SymTab]. *)

From stdpp Require Import gmap.
From S2P Require Import Prelude CString Handles SymTab Url.
#[local] Open Scope Z_scope.
#[local] Open Scope cint_scope.

Definition MAX_COUNT_FOR_DELETE_ITEM : Z := 32.
Definition MAX_LENGTH_OF_ITEMNAME : Z := 24.
Definition MAX_COUNT_OF_SESSION : Z := 256.
Definition INVALID_SYM_FD : Z := -1.
Definition SESSIONID_FOR_LOGOUT : Z := 0.
Definition SESSIONID_FOR_LOGIN_FAILED : Z := 1.
Definition SESSIONID_FOR_HAS_LOGIN : Z := 2.
Definition SESSIONID_FOR_LOGIN_SUCCESS : Z := 5.
Definition SESSION_TIMEOUT_COUNT : Z := 6.

Inductive exploreTypeE : Type :=
| eTYPE_UNKNOWN | eTYPE_IE | eTYPE_CHROME | eTYPE_FIREFOX | eTYPE_SAFARI | eTYPE_OPERA | eTYPE_EDGE.
Definition explore_int (t : exploreTypeE) : Z :=
  match t with
  | eTYPE_UNKNOWN => 0 | eTYPE_IE => 1 | eTYPE_CHROME => 2 | eTYPE_FIREFOX => 3
  | eTYPE_SAFARI => 4 | eTYPE_OPERA => 5 | eTYPE_EDGE => 6
  end.

Inductive e_login_status_type : Type :=
| E_LOGIN_SUCCESS | E_LOGIN_FAIL | E_LOGIN_OTHER_HAS_LOGIN | E_LOGIN_FORCE_LOGIN_SUCCESS.

(** [login_timer]: the timer that calls [EGOSM_processSessionTimeOut] runs. *)
Record sessions : Type := mkSessions {
  tables : sym_sys;
  g_sessionsTable : Z;
  g_delsessionids : list (list Z);
  g_delcounts : Z;
  login_timer : bool
}.

Definition set_timer_clean (s : sessions) : sessions := s <| login_timer := false |>.

Definition getBrowserType (wp : websRec) : exploreTypeE :=
  match userAgent wp with
  | None => eTYPE_UNKNOWN
  | Some ua =>
      if strstr ua (str "MSIE") then eTYPE_IE
      else if strstr ua (str "Edge") then eTYPE_CHROME
      else if strstr ua (str "Firefox") then eTYPE_FIREFOX
      else if strstr ua (str "Opera") || strstr ua (str "OPR") then eTYPE_OPERA
      else if strstr ua (str "Chrome") then eTYPE_CHROME
      else if strstr ua (str "Safari") then eTYPE_SAFARI
      else eTYPE_UNKNOWN
  end.

(** [sprintf] into the 35 bytes of [strSessionKey]. *)
Definition getSessionKey (wp : websRec) : option (list Z) :=
  let key := ipaddr wp ++ str "_" ++ [48 + explore_int (getBrowserType wp)] in
  if zlen key <? 35 then Some key else None.

(** [sp->content.value.integer], read and written. *)
Definition sym_integer (st : sym_sys) (sp : Z) : option Z :=
  n ← cells st !! sp;
  match v_value (content n) with VInteger z => Some z | VString _ => None end.
Definition set_integer (st : sym_sys) (sp z : Z) : option sym_sys :=
  n ← cells st !! sp;
  Some (st <| cells := <[sp := n <| content := (content n) <| v_value := VInteger z |> |>]> (cells st) |>).

(** [sp->name.value.string] *)
Definition sp_name (st : sym_sys) (sp : Z) : option (list Z) := n ← cells st !! sp; sym_name n.

(** [strncpy(b, s, n)]: at most [n] bytes, filled up with zero bytes. *)
Definition strncpy (b s : list Z) (n : Z) : list Z :=
  bput b 0 (take (Z.to_nat n) (s ++ repeat 0 (Z.to_nat n))).

Section Sessions.
Context (balloc_words : Z -> option (list Z)) (brealloc_words : list Z -> Z -> option (list Z)).
Context (strdup : cstring -> option cstring).
Context (new_cell : gmap Z sym_t -> Z) (new_tabent : gmap Z sym_tabent_t -> Z).
Context (beyond : Z).

Definition EGOSM_Init (s : sessions) : option sessions :=
  '(sd, t) ← symOpen balloc_words brealloc_words new_tabent (tables s) MAX_COUNT_OF_SESSION;
  Some (s <| tables := t |> <| g_sessionsTable := sd |>).

Definition EGOSM_End (s : sessions) : option sessions :=
  if g_sessionsTable s =? INVALID_SYM_FD then Some s
  else
    t ← symClose (tables s) (g_sessionsTable s);
    Some (s <| tables := t |> <| g_sessionsTable := INVALID_SYM_FD |>).

Definition no_table (s : sessions) : bool := g_sessionsTable s =? INVALID_SYM_FD.

Definition EGOSM_getLoginFailCnt (s : sessions) (wp : websRec) : option Z :=
  key ← getSessionKey wp;
  if no_table s then Some 0
  else
    sp ← symLookup (tables s) (g_sessionsTable s) key;
    if sp =? 0 then Some 0 else n ← cells (tables s) !! sp; Some (arg n).

(** [symEnter(g_sessionsTable, key, valueInteger(v), cnt)] *)
Definition enter_session (s : sessions) (key : list Z) (v cnt : Z) : option sessions :=
  '(_, t) ← symEnter strdup new_cell (tables s) (g_sessionsTable s) key (valueInteger v) cnt;
  Some (s <| tables := t |>).

Definition delete_session (s : sessions) (key : list Z) : option (Z * sessions) :=
  '(r, t) ← symDelete (tables s) (g_sessionsTable s) key;
  Some (r, s <| tables := t |>).

(** The name of the session [sp] is noted for deletion. *)
Definition note_session (s : sessions) (sp : Z) : option sessions :=
  nm ← sp_name (tables s) sp;
  b ← g_delsessionids s !! Z.to_nat (g_delcounts s);
  Some (s <| g_delsessionids := <[Z.to_nat (g_delcounts s) := strncpy b nm (MAX_LENGTH_OF_ITEMNAME - 1)]> (g_delsessionids s) |>
          <| g_delcounts := u8 (g_delcounts s + 1) |>).

(** [for (i = 0; i < g_delcounts; i++) symDelete(.., g_delsessionids[i])]; [timer] says
    whether the timer is stopped each time. *)
Fixpoint delete_loop (ids : list (list Z)) (timer : bool) (s : sessions) : option sessions :=
  match ids with
  | [] => Some s
  | b :: ids =>
      key ← cstr b;
      '(_, s) ← delete_session s key;
      delete_loop ids timer (if timer then set_timer_clean s else s)
  end.
Definition delete_noted (timer : bool) (s : sessions) : option sessions :=
  delete_loop (take (Z.to_nat (g_delcounts s)) (g_delsessionids s)) timer s.

Definition walk_next (s : sessions) : option (Z * sessions) :=
  '(sp, t) ← symNext beyond (tables s) (g_sessionsTable s); Some (sp, s <| tables := t |>).
Definition walk_first (s : sessions) : option (Z * sessions) :=
  '(sp, t) ← symFirst beyond (tables s) (g_sessionsTable s); Some (sp, s <| tables := t |>).

(** The walk of a forced login: the sessions that are logged in are noted. *)
Fixpoint force_loop (fuel : nat) (s : sessions) (sp : Z) : option sessions :=
  match fuel with
  | O => None
  | S fuel =>
      if negb (sp =? 0) && (g_delcounts s <? MAX_COUNT_FOR_DELETE_ITEM) then
        z ← sym_integer (tables s) sp;
        s ← (if Z.land z 255 =? SESSIONID_FOR_LOGIN_SUCCESS then note_session s sp else Some s);
        '(sp, s) ← walk_next s;
        force_loop fuel s sp
      else Some s
  end.

Definition walk_fuel (s : sessions) : nat := S (S (size (cells (tables s)))).

Definition EGOSM_setSessionInfo (s : sessions) (wp : websRec) (bloginFailed : e_login_status_type) : option sessions :=
  key ← getSessionKey wp;
  cnt ← EGOSM_getLoginFailCnt s wp;
  if no_table s then Some s
  else
    match bloginFailed with
    | E_LOGIN_FAIL => enter_session s key SESSIONID_FOR_LOGIN_FAILED cnt
    | E_LOGIN_OTHER_HAS_LOGIN => enter_session s key SESSIONID_FOR_HAS_LOGIN cnt
    | E_LOGIN_SUCCESS => enter_session s key SESSIONID_FOR_LOGIN_SUCCESS cnt
    | E_LOGIN_FORCE_LOGIN_SUCCESS =>
        '(sp, s) ← walk_first (s <| g_delcounts := 0 |>);
        s ← force_loop (walk_fuel s) s sp;
        s ← delete_noted false s;
        enter_session s key SESSIONID_FOR_LOGIN_SUCCESS cnt
    end.

Definition EGOSM_clearSessionInfo (s : sessions) (wp : websRec) : option (Z * sessions) :=
  key ← getSessionKey wp;
  if no_table s then Some (-1, s) else delete_session s key.

Definition EGOSM_getSessionID (s : sessions) (wp : websRec) : option Z :=
  key ← getSessionKey wp;
  if no_table s then Some SESSIONID_FOR_LOGIN_SUCCESS
  else
    sp ← symLookup (tables s) (g_sessionsTable s) key;
    if negb (sp =? 0) then
      z ← sym_integer (tables s) sp;
      if SESSIONID_FOR_LOGIN_FAILED =? Z.land z 255 then Some SESSIONID_FOR_LOGIN_FAILED
      else if SESSIONID_FOR_HAS_LOGIN =? Z.land z 255 then Some SESSIONID_FOR_HAS_LOGIN
      else Some SESSIONID_FOR_LOGIN_SUCCESS
    else Some SESSIONID_FOR_LOGOUT.

Definition EGOSM_isUserLogined (s : sessions) (wp : websRec) : option (Z * sessions) :=
  key ← getSessionKey wp;
  if no_table s then Some (1, s)
  else
    sp ← symLookup (tables s) (g_sessionsTable s) key;
    if negb (sp =? 0) then
      z ← sym_integer (tables s) sp;
      if (SESSIONID_FOR_LOGIN_FAILED =? Z.land z 255) || (SESSIONID_FOR_HAS_LOGIN =? Z.land z 255) then
        '(_, s) ← delete_session s key; Some (0, s)
      else Some (1, s)
    else Some (0, s).

Definition EGOSM_setLoginFailCnt (s : sessions) (wp : websRec) (cnt : Z) : option (Z * sessions) :=
  key ← getSessionKey wp;
  if no_table s then Some (-1, s)
  else
    id ← EGOSM_getSessionID s wp;
    s ← enter_session s key id cnt;
    Some (0, s).

Definition EGOSM_resetSessionHeartbeat (s : sessions) (wp : websRec) : option (Z * sessions) :=
  key ← getSessionKey wp;
  if no_table s then Some (-1, s)
  else
    sp ← symLookup (tables s) (g_sessionsTable s) key;
    if negb (sp =? 0) then
      t ← set_integer (tables s) sp SESSIONID_FOR_LOGIN_SUCCESS;
      Some (1, s <| tables := t |>)
    else Some (0, s).

(** The address of the client and the kind of its browser; the pointers are not null. *)
Definition EGOSM_getPeerInfo (wp : websRec) : Z * list Z * exploreTypeE := (0, ipaddr wp, getBrowserType wp).

(** [gstrncpy(pstrIp, name, gstrlen(name))]: the bytes of the name without a zero byte, in
    the block [pstrIp]. *)
Definition copy_name (pstrIp nm : list Z) : option (list Z) :=
  if zlen nm <=? zlen pstrIp then Some (bput pstrIp 0 nm) else None.

Definition session_info (r : option (Z * sessions)) (pstrIp : list Z) : option (Z * list Z * Z * sessions) :=
  '(sp, s) ← r;
  if sp =? 0 then Some (0, pstrIp, 0, s)
  else
    z ← sym_integer (tables s) sp;
    nm ← sp_name (tables s) sp;
    ip ← copy_name pstrIp nm;
    Some (1, ip, Z.land z 255, s).
Definition EGOSM_getFirstSessionInfo (s : sessions) (pstrIp : list Z) : option (Z * list Z * Z * sessions) :=
  if no_table s then Some (0, pstrIp, 0, s) else session_info (walk_first s) pstrIp.
Definition EGOSM_getNextSessionInfo (s : sessions) (pstrIp : list Z) : option (Z * list Z * Z * sessions) :=
  if no_table s then Some (0, pstrIp, 0, s) else session_info (walk_next s) pstrIp.

(** The walk of a tick: each session is a tick older, and noted when it is too old. *)
Fixpoint timeout_loop (fuel : nat) (s : sessions) (sp : Z) : option sessions :=
  match fuel with
  | O => None
  | S fuel =>
      if negb (sp =? 0) && (g_delcounts s <? MAX_COUNT_FOR_DELETE_ITEM) then
        z ← sym_integer (tables s) sp;
        let nTimeout := Z.land (Z.shiftr z 8) 255 in
        let sessid := Z.land z 255 in
        let nTimeout := nTimeout + 1 in
        t ← set_integer (tables s) sp (Z.land (Z.shiftl nTimeout 8) 65280 + sessid);
        let s := s <| tables := t |> in
        s ← (if SESSION_TIMEOUT_COUNT <=? nTimeout then note_session s sp else Some s);
        '(sp, s) ← walk_next s;
        timeout_loop fuel s sp
      else Some s
  end.

Definition EGOSM_processSessionTimeOut (s : sessions) : option (Z * sessions) :=
  let s := s <| g_delcounts := 0 |> in
  if no_table s then Some (0, set_timer_clean s)
  else
    '(sp, s) ← walk_first s;
    s ← timeout_loop (walk_fuel s) s sp;
    s ← delete_noted true s;
    Some (0, s).
End Sessions.
