(* ===== verification/SessionSpec.v ===== *)
(** * What the session functions do

    A table of sessions stands for a finite map from the keys of the clients to the pair of
    the session value and the count of failed logins.  Each function of [Session] is shown
    to act on that map. *)

From stdpp Require Import gmap.
From S2P Require Import Prelude CString Heap Handles SymTab Url UrlSpec Session.
#[local] Open Scope Z_scope.
#[local] Open Scope cint_scope.

(** ** Storing into the nodes of a table *)

(** The binding that node [x] holds. *)
Definition entry_of (cs : gmap Z sym_t) (x : Z) : binding :=
  match cs !! x with
  | Some n => (default [] (sym_name n), (content n, arg n))
  | None => ([], (valueInteger 0, 0))
  end.

Lemma node_entry_of cs x e : node_entry cs x e -> e = entry_of cs x.
Proof. intros (n & Hx & Hn & He). unfold entry_of. rewrite Hx, Hn, He. by destruct e. Qed.

Lemma node_entries_of cs l es : Forall2 (node_entry cs) l es -> es = map (entry_of cs) l.
Proof. induction 1 as [|x e l es Hx%node_entry_of _ IH]; [done|]. cbn. by rewrite Hx, IH. Qed.

(** [cs'] has the links and the names of [cs], and nodes where [cs] has them. *)
Definition same_shape (cs cs' : gmap Z sym_t) : Prop :=
  forall x n, cs !! x = Some n -> exists n', cs' !! x = Some n' /\ forw n' = forw n /\ name n' = name n.

Lemma same_nodes_refl cs : same_shape cs cs.
Proof. intros x n. eauto. Qed.

Lemma same_nodes_trans cs1 cs2 cs3 : same_shape cs1 cs2 -> same_shape cs2 cs3 -> same_shape cs1 cs3.
Proof.
  intros H1 H2 x n Hx. destruct (H1 x n Hx) as (n2 & Hx2 & Ef & En).
  destruct (H2 x n2 Hx2) as (n3 & ? & ? & ?). exists n3. split; [done|]. split; congruence.
Qed.

Lemma shape_seg cs cs' p l q : same_shape cs cs' -> seg forw cs p l q -> seg forw cs' p l q.
Proof.
  intros Hs. revert p. induction l as [|x l IH]; intros p; cbn [seg]; [done|].
  intros (-> & Hx & n & Hn & Hl). do 2 (split; [done|]).
  destruct (Hs x n Hn) as (n' & Hn' & Ef & _). exists n'. split; [done|]. rewrite Ef. by apply IH.
Qed.

Lemma shape_iter cs cs' tp bs j nx rest :
  same_shape cs cs' -> iter_at cs tp bs j nx rest -> iter_at cs' tp bs j nx rest.
Proof.
  intros Hs [?|(? & l & Hc & ?)]; [by left|right]. split; [done|]. exists l. split; [|done].
  by apply (shape_seg cs).
Qed.

Lemma shape_nodes cs cs' l es :
  same_shape cs cs' -> Forall2 (node_entry cs) l es -> Forall2 (node_entry cs') l (map (entry_of cs') l).
Proof.
  intros Hs. induction 1 as [|x e l es (n & Hx & Hn & _) _ IH]; constructor; [|done].
  destruct (Hs x n Hx) as (n' & Hx' & _ & En). exists n'. unfold entry_of, sym_name in *.
  rewrite Hx', En, Hn. done.
Qed.

Lemma shape_names cs cs' l es :
  same_shape cs cs' -> Forall2 (node_entry cs) l es -> fst <$> map (entry_of cs') l = fst <$> es.
Proof.
  intros Hs. induction 1 as [|x e l es (n & Hx & Hn & _) _ IH]; [done|]. cbn. f_equal; [|done].
  destruct (Hs x n Hx) as (n' & Hx' & _ & En). unfold entry_of, sym_name in *. by rewrite Hx', En, Hn.
Qed.

Lemma shape_bucket cs cs' tp i p l es : same_shape cs cs' ->
  bucket_ok cs tp i p l es -> bucket_ok cs' tp i p l (map (entry_of cs') l).
Proof.
  intros Hs [Hc Hn Hnd Hh]. pose proof (shape_names _ _ _ _ Hs Hn) as Hnm. constructor.
  - by apply (shape_seg cs).
  - by apply (shape_nodes cs cs' l es).
  - by rewrite Hnm.
  - intros nm r Hin. assert (Hf : nm ∈ (fst <$> es)) by (rewrite <- Hnm; apply list_elem_of_fmap; by exists (nm, r)).
    apply list_elem_of_fmap in Hf as ([nm' r'] & -> & Hf). by apply (Hh _ r').
Qed.

Lemma shape_table cs cs' tp bs ess : same_shape cs cs' ->
  table_ok cs tp bs ess -> table_ok cs' tp bs (map (map (entry_of cs')) bs).
Proof.
  intros Hs Hok. constructor; [apply Hok..|by rewrite length_map; apply Hok|].
  intros i l es Hl. rewrite list_lookup_fmap, Hl. intros [= <-].
  destruct (table_bucket _ _ _ _ Hok _ _ Hl) as (es & _ & Hb). by apply (shape_bucket cs cs' _ _ _ _ es).
Qed.

Lemma table_ess cs tp bs ess : table_ok cs tp bs ess -> ess = map (map (entry_of cs)) bs.
Proof.
  intros Hok. apply list_eq. intros i. rewrite list_lookup_fmap.
  destruct (bs !! i) as [l|] eqn:El; cbn.
  - destruct (table_bucket _ _ _ _ Hok _ _ El) as (es & -> & [_ Hn _ _]). f_equal. by apply node_entries_of.
  - apply lookup_ge_None. apply lookup_ge_None in El.
    pose proof (to_bs _ _ _ _ Hok). pose proof (to_ess _ _ _ _ Hok). lia.
Qed.

Lemma assoc_map (g : value_t * Z -> value_t * Z) nm es :
  assoc nm (map (fun e => (fst e, g (snd e))) es) = g <$> assoc nm es.
Proof. induction es as [|[k r] es IH]; [done|]. cbn. by destruct (decide (k = nm)). Qed.

(** When the contents of all nodes of the table are changed by [g], so is the map. *)
Lemma table_get_map cs cs' tp bs (g : value_t * Z -> value_t * Z) nm :
  (forall x, x ∈ concat bs -> entry_of cs' x = (fst (entry_of cs x), g (snd (entry_of cs x)))) ->
  table_get tp (map (map (entry_of cs')) bs) nm = g <$> table_get tp (map (map (entry_of cs)) bs) nm.
Proof.
  intros H. unfold table_get. rewrite !list_lookup_fmap.
  destruct (bs !! Z.to_nat (hashIndex tp nm)) as [l|] eqn:El; [|done].
  cbn [fmap option_fmap option_map default from_option id]. rewrite <- assoc_map, map_map. f_equal. apply map_ext_in.
  intros x Hx%list_elem_of_In. apply H, elem_of_concat. eauto.
Qed.

(** ** The walks over the sessions *)

Definition key_ok (k : list Z) : Prop := no_nul k /\ zlen k <= MAX_LENGTH_OF_ITEMNAME - 1.

(** The blocks for the names: each ends in a zero byte that is never overwritten. *)
Definition ids_ok (ids : list (list Z)) : Prop :=
  zlen ids = MAX_COUNT_FOR_DELETE_ITEM /\ Forall (fun b => exists b', b = b' ++ [0] /\ zlen b' = 23) ids.

Lemma strncpy_key b' k : zlen b' = 23 -> key_ok k ->
  exists b2, strncpy (b' ++ [0]) k (MAX_LENGTH_OF_ITEMNAME - 1) = b2 ++ [0] /\ zlen b2 = 23 /\
    cstr (b2 ++ [0]) = Some k.
Proof.
  intros Hb [Hk Hl]. change (MAX_LENGTH_OF_ITEMNAME - 1) with 23 in *. unfold strncpy, bput.
  change (Z.to_nat 23) with 23%nat. set (t := take 23 (k ++ repeat 0 23)).
  assert (Ht : t = k ++ repeat 0 (23 - length k)).
  { subst t. rewrite take_app. rewrite (take_ge k) by lia. f_equal.
    rewrite !repeat_replicate, take_replicate. f_equal. lia. }
  assert (Hlen : length t = 23%nat) by (rewrite Ht, length_app, repeat_length; lia).
  clearbody t. exists t. rewrite drop_app_length' by (cbn; lia). split; [done|]. split; [lia|].
  rewrite Ht. destruct (23 - length k)%nat eqn:En; cbn [repeat].
  - rewrite app_nil_r. by apply cstr_app.
  - rewrite <- (assoc_L (++)). by apply cstr_app.
Qed.

Definition noted (s : sessions) : list (list Z) := take (Z.to_nat (g_delcounts s)) (g_delsessionids s).

(** [g_delcounts] counts blocks that are there. *)
Definition notes_ok (s : sessions) : Prop :=
  ids_ok (g_delsessionids s) /\ 0 <= g_delcounts s <= MAX_COUNT_FOR_DELETE_ITEM.

Lemma note_session_spec s sp n nm :
  notes_ok s -> g_delcounts s < MAX_COUNT_FOR_DELETE_ITEM ->
  cells (tables s) !! sp = Some n -> sym_name n = Some nm -> key_ok nm ->
  exists ids b, note_session s sp = Some (s <| g_delsessionids := ids |> <| g_delcounts := g_delcounts s + 1 |>) /\
    ids_ok ids /\ cstr b = Some nm /\ take (Z.to_nat (g_delcounts s + 1)) ids = noted s ++ [b].
Proof.
  intros [[Hlen Hids] Hc] Hlt Hn Hnm Hk. unfold note_session, sp_name. rewrite Hn. cbn [mbind option_bind].
  rewrite Hnm. cbn [mbind option_bind]. unfold MAX_COUNT_FOR_DELETE_ITEM in *.
  destruct (lookup_lt_is_Some_2 (g_delsessionids s) (Z.to_nat (g_delcounts s))) as [b Hb]; [lia|].
  rewrite Hb. cbn [mbind option_bind].
  destruct (proj1 (Forall_lookup _ _) Hids _ _ Hb) as (b' & -> & Hb').
  destruct (strncpy_key b' nm Hb' Hk) as (b2 & E & Hb2 & Hcs).
  set (ids := <[Z.to_nat (g_delcounts s) := _]> (g_delsessionids s)). exists ids, (b2 ++ [0]).
  assert (Eu : u8 (g_delcounts s + 1) = g_delcounts s + 1) by (apply uwrap_small; lia).
  split; [by rewrite Eu|]. split; [|split; [done|]].
  - split; [unfold ids; by rewrite length_insert|]. subst ids. apply Forall_insert; [done|]. rewrite E. eauto.
  - replace (Z.to_nat (g_delcounts s + 1)) with (S (Z.to_nat (g_delcounts s))) by lia.
    rewrite (take_S_r _ _ (b2 ++ [0])).
    + subst ids. rewrite take_insert_ge by lia. done.
    + subst ids. rewrite E. apply list_lookup_insert_eq. by apply lookup_lt_Some in Hb.
Qed.

(** [z] after [f], in a node and in a value. *)
Definition map_value (f : Z -> Z) (v : value_t) : value_t :=
  v <| v_value := match v_value v with VInteger z => VInteger (f z) | VString s => VString s end |>.
Definition map_node (f : Z -> Z) (n : sym_t) : sym_t := n <| content := map_value f (content n) |>.

Lemma map_node_id n : map_node id n = n.
Proof. by destruct n as [? ? [[] ? ? ?] ?]. Qed.

(** The node is a session: an integer with a name that fits. *)
Definition session_node (cs : gmap Z sym_t) (x : Z) : Prop :=
  exists n z nm, cs !! x = Some n /\ v_value (content n) = VInteger z /\ sym_name n = Some nm /\ key_ok nm.

(** The names of the nodes whose value satisfies [p]. *)
Definition doomed (p : Z -> bool) (cs : gmap Z sym_t) (l : list Z) : list (list Z) :=
  omap (fun x => n ← cs !! x;
    match v_value (content n) with VInteger z => if p z then sym_name n else None | VString _ => None end) l.

Lemma doomed_cons p cs x l n z nm :
  cs !! x = Some n -> v_value (content n) = VInteger z -> sym_name n = Some nm ->
  doomed p cs (x :: l) = (if p z then [nm] else []) ++ doomed p cs l.
Proof.
  intros Hx Hz Hn. unfold doomed. cbn [omap list_omap]. rewrite Hx. cbn [mbind option_bind].
  rewrite Hz, Hn. by destruct (p z).
Qed.

Lemma doomed_frame p cs cs' l : (forall x, x ∈ l -> cs' !! x = cs !! x) -> doomed p cs' l = doomed p cs l.
Proof.
  induction l as [|x l IH]; intros H; [done|]. unfold doomed in *. cbn [omap list_omap].
  rewrite H by left. rewrite IH; [done|]. intros y Hy. apply H. by right.
Qed.

(** Both walks: each session gets a new value, and is noted when its old value says so. *)
Section NoteLoop.
Context (beyond : Z) (f : Z -> Z) (p : Z -> bool).

Definition note_one (s : sessions) (sp : Z) : option sessions :=
  z ← sym_integer (tables s) sp;
  t ← set_integer (tables s) sp (f z);
  if p z then note_session (s <| tables := t |>) sp else Some (s <| tables := t |>).

Fixpoint note_loop (fuel : nat) (s : sessions) (sp : Z) : option sessions :=
  match fuel with
  | O => None
  | S fuel =>
      if negb (sp =? 0) && (g_delcounts s <? MAX_COUNT_FOR_DELETE_ITEM) then
        s ← note_one s sp;
        '(sp, s) ← walk_next beyond s;
        note_loop fuel s sp
      else Some s
  end.

(** The sessions differ in the tables and the notes only. *)
Definition same_rest (s s' : sessions) : Prop :=
  g_sessionsTable s' = g_sessionsTable s /\ login_timer s' = login_timer s.

(** The symbol tables differ in the nodes and the iteration only. *)
Definition same_tables (t t' : sym_sys) : Prop := sym t' = sym t /\ tabents t' = tabents t.

Lemma same_tables_table t t' sd : same_tables t t' -> sym_table t' sd = sym_table t sd.
Proof. intros [Hs Ht]. unfold sym_table, sym_get. by rewrite Hs, Ht. Qed.

(** The nodes [l] have been visited. *)
Definition visited (cs cs' : gmap Z sym_t) (l : list Z) : Prop :=
  forall x, cs' !! x = if decide (x ∈ l) then map_node f <$> cs !! x else cs !! x.

Lemma visited_shape cs cs' l : visited cs cs' l -> same_shape cs cs'.
Proof.
  intros H x n Hx. rewrite H, Hx. destruct (decide (x ∈ l)); cbn; eexists; (split; [done|]); [|done].
  by destruct n.
Qed.

Lemma visited_nil cs : visited cs cs [].
Proof. intros x. rewrite decide_False; [done|]. apply not_elem_of_nil. Qed.

Lemma visited_cons cs cs1 cs2 x l n : cs !! x = Some n -> cs1 = <[x := map_node f n]> cs -> x ∉ l ->
  visited cs1 cs2 l -> visited cs cs2 (x :: l).
Proof.
  intros Hx -> Hnx H y. rewrite H. destruct (decide (y = x)) as [->|Hne].
  - rewrite decide_False by done. rewrite decide_True by left. rewrite lookup_insert_eq, Hx. done.
  - rewrite lookup_insert_ne by done. destruct (decide (y ∈ l)).
    + by rewrite decide_True by by right.
    + rewrite decide_False; [done|]. by intros [|]%elem_of_cons.
Qed.

Lemma set_integer_spec t x n z : cells t !! x = Some n -> v_value (content n) = VInteger z ->
  sym_integer t x = Some z /\ set_integer t x (f z) = Some (t <| cells := <[x := map_node f n]> (cells t) |>).
Proof.
  intros Hx Hz. unfold sym_integer, set_integer. rewrite Hx. cbn [mbind option_bind]. rewrite Hz.
  split; [done|]. unfold map_node, map_value. by rewrite Hz.
Qed.

Lemma walk_next_spec s p0 tp bs ess rest :
  table_ok (cells (tables s)) tp bs ess -> sym_table (tables s) (g_sessionsTable s) = Some (p0, tp) ->
  iter_at (cells (tables s)) tp bs (htIndex (tables s)) (next (tables s)) rest ->
  exists t', same_but_iter (tables s) t' /\
    match rest with
    | [] => walk_next beyond s = Some (0, s <| tables := t' |>)
    | x :: rest' => walk_next beyond s = Some (x, s <| tables := t' |>) /\ x <> 0 /\
        iter_at (cells (tables s)) tp bs (htIndex t') (next t') rest'
    end.
Proof using beyond.
  intros Hok Ht Hit. unfold walk_next, symNext. rewrite Ht. cbn [mbind option_bind].
  destruct (symNext_loop_spec beyond (Z.to_nat (hash_size tp - htIndex (tables s))) (tables s) tp bs ess
    (htIndex (tables s)) rest Hok) as (t' & Hs & Hr); [|done|].
  { destruct Hit as [[-> _]|[? _]]; pose proof (to_size _ _ _ _ Hok); lia. }
  exists t'. split; [done|]. destruct rest as [|x rest]; [by rewrite Hr|]. destruct Hr as (-> & ? & ?). done.
Qed.

(** What a walk over the nodes [l] does. *)
Record walked (s s' : sessions) (l : list Z) : Prop := {
  wk_rest : same_rest s s';
  wk_tables : same_tables (tables s) (tables s');
  wk_cells : visited (cells (tables s)) (cells (tables s')) l;
  wk_ok : notes_ok s';
  wk_noted : map cstr (noted s') = map cstr (noted s) ++ map Some (doomed p (cells (tables s)) l)
}.

Lemma note_one_spec s x n z nm :
  notes_ok s -> g_delcounts s < MAX_COUNT_FOR_DELETE_ITEM ->
  cells (tables s) !! x = Some n -> v_value (content n) = VInteger z -> sym_name n = Some nm -> key_ok nm ->
  exists s1, note_one s x = Some s1 /\
    same_rest s s1 /\ notes_ok s1 /\ g_delcounts s1 <= g_delcounts s + 1 /\
    tables s1 = (tables s) <| cells := <[x := map_node f n]> (cells (tables s)) |> /\
    map cstr (noted s1) = map cstr (noted s) ++ map Some (if p z then [nm] else []).
Proof.
  intros Hok Hlt Hx Hz Hnm Hk. unfold note_one. destruct (set_integer_spec (tables s) x n z Hx Hz) as [-> E2].
  set (t := (tables s) <| cells := <[x := map_node f n]> (cells (tables s)) |>) in *.
  cbn [mbind option_bind]. rewrite E2. cbn [mbind option_bind].
  assert (Ht : cells t !! x = Some (map_node f n)) by (subst t; destruct (tables s); apply lookup_insert_eq).
  destruct (p z).
  - match goal with |- context [note_session ?q x] => set (q0 := q) end.
    destruct (note_session_spec q0 x (map_node f n) nm) as (ids & b & -> & Hids & Hb & Hno);
      [by destruct s|by destruct s|by destruct s|by destruct n|done|].
    eexists. split; [done|]. destruct Hok as [Hids0 Hc], s. cbn in *. repeat split; cbn; try done; try lia; try apply Hids.
    transitivity (map cstr (noted q0 ++ [b])); [f_equal; exact Hno|]. rewrite map_app. cbn. by rewrite Hb.
  - eexists. split; [done|]. destruct s. cbn in *. rewrite app_nil_r. repeat split; try done; try lia; apply Hok.
Qed.

Lemma walked_cons s s1 s2 x n z nm l t' :
  cells (tables s) !! x = Some n -> v_value (content n) = VInteger z -> sym_name n = Some nm ->
  x ∉ l -> same_rest s s1 ->
  tables s1 = (tables s) <| cells := <[x := map_node f n]> (cells (tables s)) |> ->
  map cstr (noted s1) = map cstr (noted s) ++ map Some (if p z then [nm] else []) ->
  same_but_iter (tables s1) t' -> walked (s1 <| tables := t' |>) s2 l -> walked s s2 (x :: l).
Proof.
  intros Hx Hz Hnm Hnx [Hg Hl] Ht Hno Hs [[Hg2 Hl2] [Hs2 Ht2] Hc2 Hok2 Hno2].
  assert (Hcs : cells t' = <[x := map_node f n]> (cells (tables s))) by (rewrite Hs, Ht; by destruct (tables s)).
  destruct s1 as [t1 g1 d1 c1 b1]. cbn in *. constructor.
  - split; congruence.
  - split; [rewrite Hs2, Hs, Ht|rewrite Ht2, Hs, Ht]; by destruct (tables s).
  - by apply (visited_cons _ (cells t') _ _ _ n).
  - done.
  - rewrite (doomed_cons p _ x l n z nm Hx Hz Hnm), Hno2. unfold noted in Hno |- *. cbn in *. rewrite Hno.
    rewrite <- (assoc_L (++)), <- map_app. do 3 f_equal. apply doomed_frame. intros y Hy.
    rewrite Hcs, lookup_insert_ne; [done|]. by intros ->.
Qed.

Lemma walked_last s s1 x n z nm t' :
  cells (tables s) !! x = Some n -> v_value (content n) = VInteger z -> sym_name n = Some nm ->
  same_rest s s1 -> notes_ok s1 ->
  tables s1 = (tables s) <| cells := <[x := map_node f n]> (cells (tables s)) |> ->
  map cstr (noted s1) = map cstr (noted s) ++ map Some (if p z then [nm] else []) ->
  same_but_iter (tables s1) t' -> walked s (s1 <| tables := t' |>) [x].
Proof.
  intros Hx Hz Hnm Hr Hok Ht Hno Hs. apply (walked_cons s s1 _ x n z nm [] t'); try done; [by intros ?%elem_of_nil|].
  destruct s1. cbn in *. constructor; cbn; try done. by rewrite app_nil_r.
Qed.

Lemma shape_insert cs x n : cs !! x = Some n -> same_shape cs (<[x := map_node f n]> cs).
Proof.
  intros Hx y m Hy. destruct (decide (y = x)) as [->|].
  - rewrite lookup_insert_eq. simplify_eq. eexists. split; [done|]. by destruct n.
  - rewrite lookup_insert_ne by done. eauto.
Qed.

Lemma note_loop_end fuel s : note_loop (S fuel) s 0 = Some s.
Proof. done. Qed.

Lemma note_loop_spec rest : forall s fuel x p0 tp bs ess,
  table_ok (cells (tables s)) tp bs ess -> sym_table (tables s) (g_sessionsTable s) = Some (p0, tp) ->
  iter_at (cells (tables s)) tp bs (htIndex (tables s)) (next (tables s)) rest ->
  x <> 0 -> NoDup (x :: rest) -> Forall (session_node (cells (tables s))) (x :: rest) ->
  notes_ok s -> g_delcounts s + zlen (x :: rest) <= MAX_COUNT_FOR_DELETE_ITEM -> (S (length rest) < fuel)%nat ->
  exists s', note_loop fuel s x = Some s' /\ walked s s' (x :: rest).
Proof using All.
  induction rest as [|y rest IH]; intros s [|fuel] x p0 tp bs ess Hok Ht Hit Hx Hnd Hses Hnotes Hcnt Hf;
    try (cbn in Hf; lia); cbn [note_loop];
    (replace (negb (x =? 0) && (g_delcounts s <? MAX_COUNT_FOR_DELETE_ITEM)) with true by (cbn [length] in Hcnt; zb));
    apply NoDup_cons in Hnd as [Hnx Hnd];
    apply Forall_cons in Hses as [(n & z & nm & Hn & Hz & Hnm & Hk) Hses];
    (destruct (note_one_spec s x n z nm Hnotes ltac:(cbn [length] in Hcnt; lia) Hn Hz Hnm Hk)
      as (s1 & -> & Hrest & Hok1 & Hc1 & Ht1 & Hno1)); cbn [mbind option_bind];
    pose proof (shape_insert _ _ _ Hn) as Hsh;
    (assert (Hcs : cells (tables s1) = <[x := map_node f n]> (cells (tables s))) by (rewrite Ht1; by destruct (tables s)));
    (destruct (walk_next_spec s1 p0 tp bs (map (map (entry_of (cells (tables s1)))) bs) _
      ltac:(rewrite Hcs; by apply (shape_table (cells (tables s)) _ _ _ ess))
      ltac:(rewrite (proj1 Hrest), <- Ht; apply same_tables_table; rewrite Ht1; by destruct (tables s))
      ltac:(rewrite Hcs, Ht1; apply (shape_iter (cells (tables s))); [done|]; destruct (tables s); exact Hit))
      as (t' & Hs & Hw)).
  - rewrite Hw. cbn [mbind option_bind]. destruct fuel as [|fuel]; [lia|]. rewrite note_loop_end.
    eexists. split; [done|]. by apply (walked_last s s1 x n z nm).
  - destruct Hw as (-> & Hy & Hit'). cbn [mbind option_bind].
    assert (Hc' : cells t' = <[x := map_node f n]> (cells (tables s))) by (rewrite Hs, <- Hcs; by destruct (tables s1)).
    assert (E2 : tables (s1 <| tables := t' |>) = t' /\ g_sessionsTable (s1 <| tables := t' |>) = g_sessionsTable s1 /\
      g_delcounts (s1 <| tables := t' |>) = g_delcounts s1 /\ notes_ok (s1 <| tables := t' |>)) by by destruct s1.
    destruct E2 as (Et & Eg & Ec & En).
    destruct (IH (s1 <| tables := t' |>) fuel y p0 tp bs (map (map (entry_of (cells (tables s1)))) bs)) as (s' & E & Hwk);
      rewrite ?Et, ?Eg, ?Ec, ?Hc'; try done.
    + rewrite Hcs. by apply (shape_table (cells (tables s)) _ _ _ ess).
    + rewrite (proj1 Hrest), <- Ht. apply same_tables_table. rewrite Hs, Ht1. by destruct (tables s).
    + by rewrite <- Hcs.
    + eapply Forall_impl; [exact Hses|]. intros v (m & zm & k & Hv & Hzm & ? & ?).
      destruct (decide (v = x)) as [->|Hne].
      * simplify_eq. exists (map_node f n), (f zm), nm. rewrite lookup_insert_eq. split; [done|].
        unfold map_node, map_value. destruct n as [? ? [] ?]. cbn in *. simplify_eq. done.
      * exists m, zm, k. by rewrite lookup_insert_ne.
    + cbn [length] in *. lia.
    + cbn [length] in *. lia.
    + exists s'. split; [done|]. by apply (walked_cons s s1 s' x n z nm (y :: rest) t').
Qed.
End NoteLoop.

(** ** The map of sessions *)

Abbreviation smap := (gmap (list Z) (Z * Z)) (only parsing).

Definition stored (r : Z * Z) : value_t * Z := (valueInteger (fst r), snd r).

(** The table of sessions is open and stands for [m]. *)
Record srep (s : sessions) (m : smap) : Prop := {
  sr_table : sym_rep (tables s) (g_sessionsTable s) (stored <$> m);
  sr_keys : map_Forall (fun k _ => key_ok k) m;
  sr_ids : ids_ok (g_delsessionids s)
}.

Lemma rep_handle st sd m : sym_rep st sd m -> 0 <= sd.
Proof.
  intros (p & tp & bs & ess & Hg & _). unfold sym_get in Hg. destruct (sym st); [|done].
  destruct (Z.leb_spec 0 sd); done.
Qed.

Lemma srep_open s m : srep s m -> no_table s = false.
Proof. intros [Ht _ _]. apply rep_handle in Ht. unfold no_table, INVALID_SYM_FD. zb. Qed.

Lemma nodes_size cs tp bs ess : table_ok cs tp bs ess -> (length (concat bs) <= size cs)%nat.
Proof.
  intros Hok. rewrite <- size_dom, <- (size_list_to_set (C := gset Z) (concat bs)) by (by eapply table_NoDup).
  apply subseteq_size. intros x Hx%elem_of_list_to_set.
  apply list_elem_of_lookup in Hx as [i Hi].
  destruct (Forall2_lookup_l _ _ _ _ _ (table_entries _ _ _ _ Hok) Hi) as (e & _ & n & Hn & _).
  by apply elem_of_dom_2 in Hn.
Qed.

(** The nodes of a table of sessions. *)
Lemma session_nodes (cs : gmap Z sym_t) (tp : sym_tabent_t) (bs : list (list Z)) (ess : list (list binding)) (m : smap) :
  table_ok cs tp bs ess -> (forall k, (stored <$> m) !! k = table_get tp ess k) ->
  map_Forall (fun k _ => key_ok k) m ->
  Forall (session_node cs) (concat bs) /\ length (concat bs) = size m /\
  forall p k, k ∈ doomed p cs (concat bs) <-> exists z a, m !! k = Some (z, a) /\ p z = true.
Proof.
  intros Hok Hm Hk. pose proof (table_entries _ _ _ _ Hok) as Hes. pose proof (table_bindings _ _ _ _ Hok _ Hm) as Hp.
  assert (Hin : forall k r, (k, r) ∈ concat ess <-> exists z a, m !! k = Some (z, a) /\ r = (valueInteger z, a)).
  { intros k r. rewrite Hp, elem_of_map_to_list, lookup_fmap.
    destruct (m !! k) as [[z a]|] eqn:E; cbn; split;
      [intros [= <-]; eauto|by intros (z' & a' & [= -> ->] & ->)|done|by intros (? & ? & ? & _)]. }
  assert (Hnode : forall x e, node_entry cs x e -> e ∈ concat ess ->
    exists n z, cs !! x = Some n /\ content n = valueInteger z /\ sym_name n = Some (fst e) /\ m !! fst e = Some (z, arg n)).
  { intros x [k r] (n & Hx & Hn & Hr) (z & a & Hz & ->)%Hin. cbn in *. exists n, z. by simplify_eq. }
  split; [|split].
  - apply Forall_lookup. intros i x Hi. destruct (Forall2_lookup_l _ _ _ _ _ Hes Hi) as (e & He & Hxe).
    destruct (Hnode x e Hxe) as (n & z & Hx & Hc & Hn & Hmk); [by eapply list_elem_of_lookup_2|].
    exists n, z, (fst e). rewrite Hc. repeat split; try done; by apply (Hk _ _ Hmk).
  - rewrite (Forall2_length _ _ _ Hes), (Permutation_length Hp). rewrite length_map_to_list. by apply map_size_fmap.
  - intros p k. unfold doomed. rewrite list_elem_of_omap. split.
    + intros (x & Hx & E). apply list_elem_of_lookup in Hx as [i Hi].
      destruct (Forall2_lookup_l _ _ _ _ _ Hes Hi) as (e & He & Hxe).
      destruct (Hnode x e Hxe) as (n & z & Hx & Hc & Hn & Hmk); [by eapply list_elem_of_lookup_2|].
      rewrite Hx in E. cbn in E. rewrite Hc in E. cbn in E. destruct (p z) eqn:Ep; [|done]. simplify_eq. eauto.
    + intros (z & a & Hz & Ep). assert (He : (k, (valueInteger z, a)) ∈ concat ess) by (apply Hin; eauto).
      apply list_elem_of_lookup in He as [i Hi].
      destruct (Forall2_lookup_r _ _ _ _ _ Hes Hi) as (x & Hx & n & Hxn & Hn & Hr).
      exists x. split; [by eapply list_elem_of_lookup_2|]. rewrite Hxn. cbn in *.
      injection Hr as Hc _. rewrite Hc. cbn. by rewrite Ep, Hn.
Qed.

Lemma entry_of_visited f cs cs' l x : visited f cs cs' l -> x ∈ l -> is_Some (cs !! x) ->
  entry_of cs' x = (fst (entry_of cs x), (map_value f (fst (snd (entry_of cs x))), snd (snd (entry_of cs x)))).
Proof.
  intros Hv Hx [n Hn]. unfold entry_of. rewrite Hv, Hn, decide_True by done. cbn. by destruct n.
Qed.

Definition map_session (f : Z -> Z) (r : Z * Z) : Z * Z := (f (fst r), snd r).

Section WholeWalk.
Context (beyond : Z) (f : Z -> Z) (p : Z -> bool).

Lemma visited_srep s s' m p0 tp bs ess :
  table_ok (cells (tables s)) tp bs ess -> (forall k, (stored <$> m) !! k = table_get tp ess k) ->
  sym_get (tables s) (g_sessionsTable s) = Some p0 -> p0 <> 0 -> tabents (tables s) !! p0 = Some tp ->
  map_Forall (fun k _ => key_ok k) m -> walked f p s s' (concat bs) -> srep s' (map_session f <$> m).
Proof.
  intros Hok Hm Hg Hp Ht Hkeys [[Hg' _] [Hs' Ht'] Hv [Hids _] _]. constructor; [|by apply map_Forall_fmap|done].
  exists p0, tp, bs, (map (map (entry_of (cells (tables s')))) bs).
  split; [unfold sym_get in *; by rewrite Hs', Hg'|]. split; [done|]. split; [by rewrite Ht'|]. split.
  - apply (shape_table (cells (tables s)) _ _ _ ess); [|done]. by eapply visited_shape.
  - intros k. rewrite (table_get_map (cells (tables s)) _ tp bs (fun r => (map_value f (fst r), snd r))).
    + rewrite <- (table_ess _ _ _ _ Hok), <- Hm, !lookup_fmap. by destruct (m !! k) as [[z a]|].
    + intros x Hx. apply (entry_of_visited f _ _ (concat bs)); [done..|].
      apply list_elem_of_lookup in Hx as [i Hi].
      destruct (Forall2_lookup_l _ _ _ _ _ (table_entries _ _ _ _ Hok) Hi) as (e & _ & n & Hn & _). by exists n.
Qed.

(** A whole walk over at most 32 sessions: each value is changed by [f], and exactly the
    names of the sessions with [p] are noted. *)
Lemma note_walk s m :
  srep s m -> (size m <= 32)%nat -> g_delcounts s = 0 ->
  exists s', ('(sp, s) ← walk_first beyond s; note_loop beyond f p (walk_fuel s) s sp) = Some s' /\
    same_rest s s' /\ srep s' (map_session f <$> m) /\
    exists ks, map cstr (noted s') = map Some ks /\
      forall k, k ∈ ks <-> exists z a, m !! k = Some (z, a) /\ p z = true.
Proof using All.
  intros [(p0 & tp & bs & ess & Hg & Hp & Ht & Hok & Hm) Hkeys Hids] Hsize Hc.
  destruct (session_nodes _ _ _ _ _ Hok Hm Hkeys) as (Hnodes & Hlen & Hdoom).
  pose proof (table_NoDup _ _ _ _ Hok) as Hnd. pose proof (nodes_size _ _ _ _ Hok) as Hns.
  pose proof (sym_table_rep _ _ _ _ Hg Ht) as Htab.
  unfold walk_first, symFirst. rewrite Htab. cbn [mbind option_bind].
  destruct (symFirst_loop_spec beyond (Z.to_nat (hash_size tp)) (tables s) tp bs ess 0 Hok) as (t' & Hs & Hr);
    [pose proof (to_size _ _ _ _ Hok); lia|lia|].
  change (drop (Z.to_nat 0) bs) with (drop 0 bs) in Hr. rewrite drop_0 in Hr.
  set (s1 := s <| tables := t' |>).
  assert (Et : tables s1 = t' /\ g_sessionsTable s1 = g_sessionsTable s /\ login_timer s1 = login_timer s /\
    g_delcounts s1 = 0 /\ notes_ok s1 /\ noted s1 = [] /\ cells (tables s1) = cells (tables s)).
  { subst s1. assert (cells t' = cells (tables s)) by (rewrite Hs; by destruct (tables s)).
    destruct s. cbn in *. subst. done. }
  destruct Et as (Et & Eg & El & Ec & En & Eno & Ecs).
  assert (Hst : sym t' = sym (tables s)) by (rewrite Hs; by destruct (tables s)).
  assert (Htt : tabents t' = tabents (tables s)) by (rewrite Hs; by destruct (tables s)).
  assert (W : exists s', ('(sp, s) ← Some (match concat bs with [] => 0 | x :: _ => x end, s1);
      note_loop beyond f p (walk_fuel s) s sp) = Some s' /\ walked f p s1 s' (concat bs)).
  { cbn [mbind option_bind]. unfold walk_fuel. rewrite Ecs. destruct (concat bs) as [|x rest] eqn:Ebs.
    - rewrite note_loop_end. exists s1. split; [done|]. constructor; try done. by rewrite app_nil_r.
    - destruct Hr as (_ & Hx & Hit). apply (note_loop_spec beyond f p rest s1 _ x p0 tp bs ess); rewrite ?Ecs, ?Eg, ?Ec; try done.
      + rewrite Et, <- Htab. apply same_tables_table. rewrite Hs. by destruct (tables s).
      + by rewrite Et.
      + unfold MAX_COUNT_FOR_DELETE_ITEM. lia.
      + cbn [length] in Hns. lia. }
  destruct W as (s' & E & [[Hg' Hl'] [Hs' Ht'] Hv Hok' Hno]).
  exists s'. split; [|split; [|split]].
  - rewrite <- E. by destruct (concat bs) as [|x rest]; [|destruct Hr as [Hr _]]; rewrite Hr.
  - split; congruence.
  - apply (visited_srep s1 s' m p0 tp bs ess); try done; [by rewrite Ecs|..|by rewrite Et, Htt].
    unfold sym_get in *. by rewrite Et, Eg, Hst.
  - exists (doomed p (cells (tables s)) (concat bs)). split; [|done]. by rewrite Hno, Eno, Ecs.
Qed.
End WholeWalk.

(** ** Deleting, entering, looking up *)

Lemma delete_session_spec s m k : srep s m ->
  exists s', delete_session s k = Some (match m !! k with None => -1 | Some _ => 0 end, s') /\
    srep s' (delete k m) /\ g_delcounts s' = g_delcounts s /\ g_delsessionids s' = g_delsessionids s /\
    login_timer s' = login_timer s.
Proof.
  intros [(p & ns & Ht)%rep_table_at Hk Hids]. unfold delete_session.
  destruct (symDelete_moves _ _ _ k _ _ Ht) as (r & t' & -> & Hmv & Hr). cbn [mbind option_bind].
  exists (s <| tables := t' |>). split.
  { rewrite lookup_fmap in Hr. destruct (m !! k); cbn in Hr; [by subst|]. by destruct Hr as [-> _]. }
  apply moves_rep in Hmv. rewrite <- fmap_delete in Hmv. destruct s. cbn in *. split; [|done].
  constructor; [done| |done]. by apply map_Forall_delete.
Qed.

Lemma delete_loop_spec ids timer ks : forall s m, srep s m -> map cstr ids = map Some ks ->
  exists s', delete_loop ids timer s = Some s' /\ srep s' (filter (fun '(k, _) => k ∉ ks) m) /\
    login_timer s' = if timer && negb (bool_decide (ks = [])) then false else login_timer s.
Proof.
  revert ks. induction ids as [|b ids IH]; intros [|k ks] s m Hs Hks; cbn in Hks; try done; cbn [delete_loop].
  - exists s. rewrite bool_decide_eq_true_2, andb_false_r by done. split; [done|]. split; [|done].
    rewrite map_filter_id; [done|]. intros ? ? _ ?%elem_of_nil. done.
  - injection Hks as Hb Hks. rewrite Hb. cbn [mbind option_bind].
    destruct (delete_session_spec s m k Hs) as (s1 & -> & Hs1 & _ & _ & Hl). cbn [mbind option_bind].
    set (s2 := if timer then set_timer_clean s1 else s1).
    assert (Hs2 : srep s2 (delete k m) /\ login_timer s2 = if timer then false else login_timer s).
    { subst s2. destruct timer; [|done]. destruct Hs1, s1. done. }
    destruct Hs2 as [Hs2 Hl2]. destruct (IH ks s2 _ Hs2 Hks) as (s' & -> & Hs' & Hl').
    exists s'. split; [done|]. split.
    + replace (filter (fun '(k0, _) => k0 ∉ k :: ks) m) with (filter (fun '(k0, _) => k0 ∉ ks) (delete k m)); [done|].
      apply map_eq. intros i. apply option_eq. intros v. rewrite !map_lookup_filter_Some, not_elem_of_cons, lookup_delete_Some. naive_solver.
    + rewrite Hl', Hl2. rewrite (bool_decide_eq_false_2 (k :: ks = [])) by done. cbn [negb].
      destruct timer; cbn; [by destruct (bool_decide _)|done].
Qed.

Lemma lookup_session_spec s m k : srep s m -> k <> [] ->
  exists sp, symLookup (tables s) (g_sessionsTable s) k = Some sp /\
    match m !! k with
    | None => sp = 0
    | Some (z, a) => sp <> 0 /\ exists n, cells (tables s) !! sp = Some n /\ content n = valueInteger z /\ arg n = a
    end.
Proof.
  intros [Ht _ _] Hk. destruct (symLookup_finds _ _ _ k Ht Hk) as (sp & E & H). exists sp. split; [done|].
  rewrite lookup_fmap in H. by destruct (m !! k) as [[z a]|].
Qed.

Section Enter.
Context (strdup : cstring -> option cstring) (new_cell : gmap Z sym_t -> Z) (beyond : Z).
(** Memory does not run out. *)
Hypothesis strdup_some : forall k, strdup k = Some k.
Hypothesis new_cell_fresh : forall cs, new_cell cs <> 0 /\ cs !! new_cell cs = None.

Lemma new_cell_or cs : new_cell cs = 0 \/ cs !! new_cell cs = None.
Proof using new_cell_fresh. right. apply new_cell_fresh. Qed.

Lemma enter_session_spec s m k v a : srep s m -> key_ok k ->
  exists s', enter_session strdup new_cell s k v a = Some s' /\ srep s' (<[k := (v, a)]> m) /\
    login_timer s' = login_timer s.
Proof using All.
  intros [(p & ns & Ht)%rep_table_at Hk Hids] Hkk. unfold enter_session.
  destruct (symEnter_moves strdup new_cell new_cell_or _ _ _ k (valueInteger v) a _ _ Ht (strdup_some k))
    as (sp & t' & -> & [(_ & _ & _ & H0)|(_ & Hmv & _)]); [by destruct (new_cell_fresh (cells (tables s)))|].
  cbn [mbind option_bind]. eexists. split; [done|]. apply moves_rep in Hmv.
  change (valueInteger v, a) with (stored (v, a)) in Hmv. rewrite <- fmap_insert in Hmv.
  destruct s. cbn in *. split; [|done]. constructor; [done| |done]. by apply map_Forall_insert_2.
Qed.

(** Storing into the symbol that [symLookup] finds is entering the name again. *)
Lemma set_integer_enter st sd k sp n z z' a :
  k <> [] -> symLookup st sd k = Some sp -> sp <> 0 -> cells st !! sp = Some n ->
  content n = valueInteger z -> arg n = a ->
  exists t, set_integer st sp z' = Some t /\
    (forall s, symEnter strdup new_cell st sd k (valueInteger z') a = Some s -> s = (sp, t)).
Proof.
  intros Hk Hl Hsp Hn Hc Ha. unfold set_integer. rewrite Hn. cbn [mbind option_bind]. eexists. split; [done|].
  intros s. unfold symLookup, symEnter, sym_table in *. destruct (sym_get st sd) as [p|]; [|done]. cbn [mbind option_bind] in *.
  destruct (p =? 0); [congruence|]. rewrite bool_decide_eq_false_2 in Hl by done.
  destruct (tabents st !! p) as [tp|]; [|done]. cbn [mbind option_bind] in *. fold (hash tp k).
  destruct (chain_find _ _ k 0 (hash tp k)) as [[last sp']|] eqn:E; [|done]. cbn [mbind option_bind] in *. injection Hl as ->.
  destruct (Z.eqb_spec (hash tp k) 0) as [E0|E0].
  { rewrite E0 in E. cbn in E. congruence. }
  cbn [negb mbind option_bind]. destruct (Z.eqb_spec sp 0); [done|]. cbn [negb]. rewrite Hn, Hc. cbn [mbind option_bind].
  intros [= <-]. unfold bfree. f_equal. destruct st, n as [? ? [] ?]. cbn in *. unfold valueInteger in Hc. simplify_eq. cbn. by rewrite app_nil_r.
Qed.

Lemma heartbeat_spec s m k z a sp n : srep s m -> key_ok k -> k <> [] -> m !! k = Some (z, a) ->
  symLookup (tables s) (g_sessionsTable s) k = Some sp -> sp <> 0 -> cells (tables s) !! sp = Some n ->
  content n = valueInteger z -> arg n = a ->
  exists t, set_integer (tables s) sp SESSIONID_FOR_LOGIN_SUCCESS = Some t /\
    srep (s <| tables := t |>) (<[k := (SESSIONID_FOR_LOGIN_SUCCESS, a)]> m).
Proof using All.
  intros Hs Hk Hk0 Hm Hl Hsp Hn Hc Ha.
  destruct (set_integer_enter _ _ k sp n z SESSIONID_FOR_LOGIN_SUCCESS a Hk0 Hl Hsp Hn Hc Ha) as (t & E & Ht).
  exists t. split; [done|]. destruct (enter_session_spec s m k SESSIONID_FOR_LOGIN_SUCCESS a Hs Hk) as (s' & Es & Hs' & _).
  unfold enter_session in Es. destruct (symEnter _ _ _ _ _ _ _) as [[sp' t']|] eqn:Ee; [|done].
  specialize (Ht _ eq_refl). simplify_eq. by injection Es as <-.
Qed.

(** ** The abstract sessions *)

Definition code (z : Z) : Z := Z.land z 255.
Definition logged_in (z : Z) : bool := code z =? SESSIONID_FOR_LOGIN_SUCCESS.
Definition refused (z : Z) : bool :=
  (SESSIONID_FOR_LOGIN_FAILED =? code z) || (SESSIONID_FOR_HAS_LOGIN =? code z).

(** The ticks since the last heartbeat, the next value, and whether it is the last one. *)
Definition ticks (z : Z) : Z := Z.land (Z.shiftr z 8) 255.
Definition age (z : Z) : Z := Z.land (Z.shiftl (ticks z + 1) 8) 65280 + code z.
Definition expired (z : Z) : bool := SESSION_TIMEOUT_COUNT <=? ticks z + 1.

Definition fails (m : smap) (k : list Z) : Z := match m !! k with Some (_, a) => a | None => 0 end.

Definition abs_id (m : smap) (k : list Z) : Z :=
  match m !! k with
  | None => SESSIONID_FOR_LOGOUT
  | Some (z, _) =>
      if SESSIONID_FOR_LOGIN_FAILED =? code z then SESSIONID_FOR_LOGIN_FAILED
      else if SESSIONID_FOR_HAS_LOGIN =? code z then SESSIONID_FOR_HAS_LOGIN
      else SESSIONID_FOR_LOGIN_SUCCESS
  end.

Definition abs_login (m : smap) (k : list Z) (how : e_login_status_type) : smap :=
  match how with
  | E_LOGIN_FAIL => <[k := (SESSIONID_FOR_LOGIN_FAILED, fails m k)]> m
  | E_LOGIN_OTHER_HAS_LOGIN => <[k := (SESSIONID_FOR_HAS_LOGIN, fails m k)]> m
  | E_LOGIN_SUCCESS => <[k := (SESSIONID_FOR_LOGIN_SUCCESS, fails m k)]> m
  | E_LOGIN_FORCE_LOGIN_SUCCESS =>
      <[k := (SESSIONID_FOR_LOGIN_SUCCESS, fails m k)]> (filter (fun '(_, (z, _)) => logged_in z = false) m)
  end.

Definition abs_ask (m : smap) (k : list Z) : Z * smap :=
  match m !! k with
  | None => (0, m)
  | Some (z, _) => if refused z then (0, delete k m) else (1, m)
  end.

Definition abs_heartbeat (m : smap) (k : list Z) : Z * smap :=
  match m !! k with
  | None => (0, m)
  | Some (_, a) => (1, <[k := (SESSIONID_FOR_LOGIN_SUCCESS, a)]> m)
  end.

Definition abs_tick (m : smap) : smap := omap (fun '(z, a) => if expired z then None else Some (age z, a)) m.

(** What clients and the timer do. *)
Inductive event : Type :=
  | ELogin (wp : websRec) (how : e_login_status_type)
  | ELogout (wp : websRec)
  | EAsk (wp : websRec)
  | EId (wp : websRec)
  | EHeartbeat (wp : websRec)
  | EGetFails (wp : websRec)
  | ESetFails (wp : websRec) (cnt : Z)
  | ETick.

Definition key_of (wp : websRec) : list Z := default [] (getSessionKey wp).

Definition abs_exec (e : event) (m : smap) : Z * smap :=
  match e with
  | ELogin wp how => (0, abs_login m (key_of wp) how)
  | ELogout wp => (match m !! key_of wp with None => -1 | Some _ => 0 end, delete (key_of wp) m)
  | EAsk wp => abs_ask m (key_of wp)
  | EId wp => (abs_id m (key_of wp), m)
  | EHeartbeat wp => abs_heartbeat m (key_of wp)
  | EGetFails wp => (fails m (key_of wp), m)
  | ESetFails wp cnt => (0, <[key_of wp := (abs_id m (key_of wp), cnt)]> m)
  | ETick => (0, abs_tick m)
  end.

(** The same on the tables. *)
Definition exec (e : event) (s : sessions) : option (Z * sessions) :=
  match e with
  | ELogin wp how => s ← EGOSM_setSessionInfo strdup new_cell beyond s wp how; Some (0, s)
  | ELogout wp => EGOSM_clearSessionInfo s wp
  | EAsk wp => EGOSM_isUserLogined s wp
  | EId wp => r ← EGOSM_getSessionID s wp; Some (r, s)
  | EHeartbeat wp => EGOSM_resetSessionHeartbeat s wp
  | EGetFails wp => r ← EGOSM_getLoginFailCnt s wp; Some (r, s)
  | ESetFails wp cnt => EGOSM_setLoginFailCnt strdup new_cell s wp cnt
  | ETick => EGOSM_processSessionTimeOut beyond s
  end.

Fixpoint run (es : list event) (s : sessions) : option (list Z * sessions) :=
  match es with
  | [] => Some ([], s)
  | e :: es => '(r, s) ← exec e s; '(rs, s) ← run es s; Some (r :: rs, s)
  end.

Fixpoint abs_run (es : list event) (m : smap) : list Z * smap :=
  match es with
  | [] => ([], m)
  | e :: es => let '(r, m) := abs_exec e m in let '(rs, m) := abs_run es m in (r :: rs, m)
  end.

(** The address of the client is a string of at most 21 bytes. *)
Definition client_ok (wp : websRec) : Prop := no_nul (ipaddr wp) /\ zlen (ipaddr wp) <= 21.
Definition event_ok (e : event) : Prop :=
  match e with
  | ELogin wp _ | ELogout wp | EAsk wp | EId wp | EHeartbeat wp | EGetFails wp | ESetFails wp _ => client_ok wp
  | ETick => True
  end.

(** A walk notes at most 32 names. *)
Definition walks (e : event) : bool :=
  match e with ETick | ELogin _ E_LOGIN_FORCE_LOGIN_SUCCESS => true | _ => false end.
Definition room (e : event) (m : smap) : Prop := walks e = true -> (size m <= 32)%nat.
Fixpoint rooms (es : list event) (m : smap) : Prop :=
  match es with
  | [] => True
  | e :: es => event_ok e /\ room e m /\ rooms es (snd (abs_exec e m))
  end.

(** ** The functions act on the map *)

Lemma client_key wp : client_ok wp ->
  getSessionKey wp = Some (key_of wp) /\ key_ok (key_of wp) /\ key_of wp <> [].
Proof.
  intros [Hn Hl]. unfold key_of, getSessionKey. set (t := explore_int _).
  assert (Ht : 0 <= t <= 6) by (subst t; destruct (getBrowserType wp); cbn; lia).
  assert (Hlen : zlen (ipaddr wp ++ str "_" ++ [48 + t]) = zlen (ipaddr wp) + 2) by (rewrite !length_app; change (length (str "_")) with 1%nat; cbn [length]; lia).
  rewrite Hlen. replace (zlen (ipaddr wp) + 2 <? 35) with true by zb. cbn [default from_option id].
  split; [done|]. split; [split|].
  - apply Forall_app. split; [done|]. apply Forall_app. split; [apply (bool_decide_unpack _); by vm_compute|].
    apply Forall_singleton. lia.
  - rewrite Hlen. unfold MAX_LENGTH_OF_ITEMNAME. lia.
  - intros E. rewrite E in Hlen. cbn in Hlen. lia.
Qed.

Lemma timeout_loop_note fuel : forall s sp, timeout_loop beyond fuel s sp = note_loop beyond age expired fuel s sp.
Proof.
  induction fuel as [|fuel IH]; intros s sp; [done|]. cbn [timeout_loop note_loop]. destruct (_ && _); [|done].
  unfold note_one. destruct (sym_integer (tables s) sp) as [z|]; [|done]. cbn [mbind option_bind].
  unfold age, expired, ticks, code. destruct (set_integer _ _ _) as [t|]; [|done]. cbn [mbind option_bind].
  destruct (SESSION_TIMEOUT_COUNT <=? _).
  - destruct (note_session _ _) as [s1|]; [|done]. cbn [mbind option_bind]. destruct (walk_next _ _) as [[sp' s2]|]; [|done]. apply IH.
  - cbn [mbind option_bind]. destruct (walk_next _ _) as [[sp' s2]|]; [|done]. apply IH.
Qed.

Lemma set_integer_same st sp z : sym_integer st sp = Some z -> set_integer st sp z = Some st.
Proof.
  unfold sym_integer, set_integer. destruct (cells st !! sp) as [[fw nm [[z'|] ? ? ?] a]|] eqn:E; cbn; [|done..].
  intros [= ->]. do 2 f_equal. destruct st. cbn in *. by rewrite insert_id.
Qed.

Lemma force_loop_note fuel : forall s sp, force_loop beyond fuel s sp = note_loop beyond id logged_in fuel s sp.
Proof.
  induction fuel as [|fuel IH]; intros s sp; [done|]. cbn [force_loop note_loop]. destruct (_ && _); [|done].
  unfold note_one. destruct (sym_integer (tables s) sp) as [z|] eqn:Ez; [|done]. cbn [mbind option_bind].
  change (id z) with z. rewrite (set_integer_same _ _ _ Ez). cbn [mbind option_bind].
  replace (s <| tables := tables s |>) with s by by destruct s. unfold logged_in, code.
  destruct (_ =? SESSIONID_FOR_LOGIN_SUCCESS).
  - destruct (note_session _ _) as [s1|]; [|done]. cbn [mbind option_bind]. destruct (walk_next _ _) as [[sp' s2]|]; [|done]. apply IH.
  - cbn [mbind option_bind]. destruct (walk_next _ _) as [[sp' s2]|]; [|done]. apply IH.
Qed.

Lemma srep_counts s m c : srep s m -> srep (s <| g_delcounts := c |>) m.
Proof. intros [? ? ?]. by destruct s. Qed.

(** A walk that notes, and the deletions after it. *)
Lemma walk_delete f p timer s m : srep s m -> (size m <= 32)%nat ->
  exists s1 s', ('(sp, s) ← walk_first beyond (s <| g_delcounts := 0 |>); note_loop beyond f p (walk_fuel s) s sp) = Some s1 /\
    delete_noted timer s1 = Some s' /\
    srep s' (omap (fun '(z, a) => if p z then None else Some (f z, a)) m) /\
    login_timer s' = if timer && negb (bool_decide (map_Forall (fun _ r => p (fst r) = false) m)) then false
                     else login_timer s.
Proof.
  intros Hs Hsize. pose proof (srep_counts _ _ 0 Hs) as Hs0.
  destruct (note_walk beyond f p (s <| g_delcounts := 0 |>) m Hs0 Hsize ltac:(by destruct s))
    as (s1 & E & [_ Hl] & Hs1 & ks & Hno & Hks).
  destruct (delete_loop_spec (noted s1) timer ks s1 _ Hs1 Hno) as (s' & E' & Hs' & Hl').
  exists s1, s'. split; [done|]. split; [done|]. split.
  - replace (omap _ m) with (filter (fun '(k, _) => k ∉ ks) (map_session f <$> m)); [done|].
    apply map_eq. intros k. apply option_eq. intros [z' a'].
    rewrite map_lookup_filter_Some, lookup_omap, lookup_fmap.
    destruct (m !! k) as [[z a]|] eqn:Em; cbn; [|naive_solver].
    destruct (p z) eqn:Ep; cbn.
    + split; [|done]. intros [_ H]. exfalso. apply H, Hks. eauto.
    + unfold map_session. cbn. split; [by intros [[= <- <-] _]|]. intros [= <- <-]. split; [done|].
      intros (z2 & a2 & ? & ?)%Hks. congruence.
  - rewrite Hl', Hl. replace (login_timer (s <| g_delcounts := 0 |>)) with (login_timer s) by by destruct s.
    enough (Hb : bool_decide (ks = []) = bool_decide (map_Forall (fun _ r => p (fst r) = false) m)) by by rewrite Hb.
    apply bool_decide_ext. split.
    + intros -> k [z a] Hk. destruct (p z) eqn:Ep; [|done]. exfalso. eapply not_elem_of_nil, Hks. eauto.
    + intros H. destruct ks as [|k ks]; [done|]. destruct (proj1 (Hks k)) as (z & a & Hk & Hp); [by left|].
      apply H in Hk. cbn in Hk. congruence.
Qed.

Lemma fails_spec s m wp : srep s m -> client_ok wp ->
  EGOSM_getLoginFailCnt s wp = Some (fails m (key_of wp)).
Proof.
  intros Hs (Hk & _ & Hk0)%client_key. unfold EGOSM_getLoginFailCnt, fails. rewrite Hk, (srep_open _ _ Hs). cbn [mbind option_bind].
  destruct (lookup_session_spec s m (key_of wp) Hs Hk0) as (sp & -> & H). cbn [mbind option_bind].
  destruct (m !! key_of wp) as [[z a]|]; [|by subst].
  destruct H as (Hsp & n & Hn & _ & Ha). destruct (Z.eqb_spec sp 0); [done|]. rewrite Hn. cbn. by rewrite Ha.
Qed.

Lemma session_value s sp n z : cells (tables s) !! sp = Some n -> content n = valueInteger z ->
  sym_integer (tables s) sp = Some z.
Proof. intros Hn Hc. unfold sym_integer. rewrite Hn. cbn. by rewrite Hc. Qed.

Lemma id_spec s m wp : srep s m -> client_ok wp -> EGOSM_getSessionID s wp = Some (abs_id m (key_of wp)).
Proof.
  intros Hs (Hk & _ & Hk0)%client_key. unfold EGOSM_getSessionID, abs_id. rewrite Hk, (srep_open _ _ Hs). cbn [mbind option_bind].
  destruct (lookup_session_spec s m (key_of wp) Hs Hk0) as (sp & -> & H). cbn [mbind option_bind].
  destruct (m !! key_of wp) as [[z a]|]; [|by subst].
  destruct H as (Hsp & n & Hn & Hc & _). destruct (Z.eqb_spec sp 0); [done|]. cbn [negb].
  rewrite (session_value s sp n z Hn Hc). cbn [mbind option_bind]. unfold code. by repeat destruct (_ =? Z.land z 255).
Qed.

(** The result of an event: the answer, the map, and the timer. *)
Definition does (r : option (Z * sessions)) (x : Z * smap) (timer : bool) : Prop :=
  exists s', r = Some (fst x, s') /\ srep s' (snd x) /\ login_timer s' = timer.

Lemma ask_does s m wp : srep s m -> client_ok wp ->
  does (EGOSM_isUserLogined s wp) (abs_ask m (key_of wp)) (login_timer s).
Proof.
  intros Hs (Hk & _ & Hk0)%client_key. unfold EGOSM_isUserLogined, abs_ask, refused, code. rewrite Hk, (srep_open _ _ Hs). cbn [mbind option_bind].
  destruct (lookup_session_spec s m (key_of wp) Hs Hk0) as (sp & -> & H). cbn [mbind option_bind].
  destruct (m !! key_of wp) as [[z a]|] eqn:Em; [|subst; by exists s].
  destruct H as (Hsp & n & Hn & Hc & _). destruct (Z.eqb_spec sp 0); [done|]. cbn [negb].
  rewrite (session_value s sp n z Hn Hc). cbn [mbind option_bind].
  destruct (_ || _); [|by exists s].
  destruct (delete_session_spec s m (key_of wp) Hs) as (s' & -> & Hs' & _ & _ & Hl). by exists s'.
Qed.

Lemma heartbeat_does s m wp : srep s m -> client_ok wp ->
  does (EGOSM_resetSessionHeartbeat s wp) (abs_heartbeat m (key_of wp)) (login_timer s).
Proof using All.
  intros Hs (Hk & Hok & Hk0)%client_key. unfold EGOSM_resetSessionHeartbeat, abs_heartbeat. rewrite Hk, (srep_open _ _ Hs). cbn [mbind option_bind].
  destruct (lookup_session_spec s m (key_of wp) Hs Hk0) as (sp & E & H). rewrite E. cbn [mbind option_bind].
  destruct (m !! key_of wp) as [[z a]|] eqn:Em; [|subst; by exists s].
  destruct H as (Hsp & n & Hn & Hc & Ha). destruct (Z.eqb_spec sp 0); [done|]. cbn [negb].
  destruct (heartbeat_spec s m _ z a sp n Hs Hok Hk0 Em E Hsp Hn Hc Ha) as (t & -> & Hs').
  cbn [mbind option_bind]. eexists. split; [done|]. split; [done|]. by destruct s.
Qed.

Lemma logout_does s m wp : srep s m -> client_ok wp ->
  does (EGOSM_clearSessionInfo s wp) (match m !! key_of wp with None => -1 | Some _ => 0 end, delete (key_of wp) m) (login_timer s).
Proof.
  intros Hs (Hk & _)%client_key. unfold EGOSM_clearSessionInfo. rewrite Hk, (srep_open _ _ Hs). cbn [mbind option_bind].
  destruct (delete_session_spec s m (key_of wp) Hs) as (s' & -> & Hs' & _ & _ & Hl). by exists s'.
Qed.

Lemma set_fails_does s m wp cnt : srep s m -> client_ok wp ->
  does (EGOSM_setLoginFailCnt strdup new_cell s wp cnt) (0, <[key_of wp := (abs_id m (key_of wp), cnt)]> m) (login_timer s).
Proof using All.
  intros Hs Hw. pose proof (client_key wp Hw) as (Hk & Hok & _). unfold EGOSM_setLoginFailCnt.
  rewrite Hk, (srep_open _ _ Hs). cbn [mbind option_bind]. rewrite (id_spec s m wp Hs Hw). cbn [mbind option_bind].
  destruct (enter_session_spec s m (key_of wp) (abs_id m (key_of wp)) cnt Hs Hok) as (s' & -> & Hs' & Hl). by exists s'.
Qed.

Lemma login_does s m wp how : srep s m -> client_ok wp -> room (ELogin wp how) m ->
  does (s ← EGOSM_setSessionInfo strdup new_cell beyond s wp how; Some (0, s)) (0, abs_login m (key_of wp) how) (login_timer s).
Proof using All.
  intros Hs Hw Hroom. pose proof (client_key wp Hw) as (Hk & Hok & _). unfold EGOSM_setSessionInfo.
  rewrite Hk, (fails_spec s m wp Hs Hw), (srep_open _ _ Hs). cbn [mbind option_bind].
  assert (Hent : forall v s1 m1, srep s1 m1 -> login_timer s1 = login_timer s ->
    does (s ← enter_session strdup new_cell s1 (key_of wp) v (fails m (key_of wp)); Some (0, s))
      (0, <[key_of wp := (v, fails m (key_of wp))]> m1) (login_timer s)).
  { intros v s1 m1 Hs1 Hl1. destruct (enter_session_spec s1 m1 (key_of wp) v (fails m (key_of wp)) Hs1 Hok) as (s' & -> & Hs' & Hl).
    exists s'. split; [done|]. split; [done|]. congruence. }
  destruct how; cbn [abs_login]; [by apply Hent..|].
  destruct (walk_delete id logged_in false s m Hs (Hroom eq_refl)) as (s1 & s' & E & E' & Hs' & Hl).
  destruct (walk_first _ _) as [[sp s0]|]; [|done]. cbn [mbind option_bind] in *.
  rewrite force_loop_note, E. cbn [mbind option_bind]. rewrite E'. cbn [mbind option_bind].
  replace (filter _ m) with (omap (fun '(z, a) => if logged_in z then None else Some (id z, a)) m); [by apply Hent|].
  apply map_eq. intros k. apply option_eq. intros [z a]. rewrite lookup_omap, map_lookup_filter_Some.
  destruct (m !! k) as [[z' a']|]; cbn; [|split; [done|by intros [? _]]]. destruct (logged_in z') eqn:El; cbn.
  - split; [done|]. intros [[= -> ->] ?]. congruence.
  - split; [by intros [= -> ->]|by intros [[= -> ->] _]].
Qed.

Lemma tick_does s m : srep s m -> (size m <= 32)%nat ->
  does (EGOSM_processSessionTimeOut beyond s) (0, abs_tick m)
    (login_timer s && bool_decide (map_Forall (fun _ r => expired (fst r) = false) m)).
Proof using All.
  intros Hs Hsize. unfold EGOSM_processSessionTimeOut. cbv zeta.
  replace (no_table _) with false by (symmetry; exact (srep_open _ _ (srep_counts _ _ 0 Hs))).
  destruct (walk_delete age expired true s m Hs Hsize) as (s1 & s' & E & E' & Hs' & Hl).
  destruct (walk_first _ _) as [[sp s0]|]; [|done]. cbn [mbind option_bind] in *.
  rewrite timeout_loop_note, E. cbn [mbind option_bind]. rewrite E'. cbn [mbind option_bind].
  exists s'. split; [done|]. split; [done|]. rewrite Hl. destruct (bool_decide _); by destruct (login_timer s).
Qed.

(** The timer after an event. *)
Definition abs_timer (e : event) (m : smap) (timer : bool) : bool :=
  match e with
  | ETick => timer && bool_decide (map_Forall (fun _ r => expired (fst r) = false) m)
  | _ => timer
  end.

Lemma exec_does e s m : srep s m -> event_ok e -> room e m ->
  does (exec e s) (abs_exec e m) (abs_timer e m (login_timer s)).
Proof using All.
  intros Hs He Hroom. destruct e as [wp how|wp|wp|wp|wp|wp|wp cnt|]; cbn [exec abs_exec abs_timer event_ok] in *.
  - by apply login_does.
  - by apply logout_does.
  - by apply ask_does.
  - rewrite (id_spec s m wp Hs He). by exists s.
  - by apply heartbeat_does.
  - rewrite (fails_spec s m wp Hs He). by exists s.
  - by apply set_fails_does.
  - by apply tick_does; [|apply Hroom].
Qed.

Lemma run_does es : forall s m, srep s m -> rooms es m ->
  exists s', run es s = Some (fst (abs_run es m), s') /\ srep s' (snd (abs_run es m)).
Proof using All.
  induction es as [|e es IH]; intros s m Hs Hr; cbn [run abs_run]; [by exists s|].
  destruct Hr as (He & Hroom & Hr). destruct (exec_does e s m Hs He Hroom) as (s1 & -> & Hs1 & _).
  destruct (abs_exec e m) as [r m1]. cbn [mbind option_bind fst snd] in *.
  destruct (IH s1 m1 Hs1 Hr) as (s' & -> & Hs'). destruct (abs_run es m1) as [rs m2]. cbn. by exists s'.
Qed.

(** ** The life of a session *)

Lemma tick_lookup m k : abs_tick m !! k =
  '(z, a) ← m !! k; if expired z then None else Some (age z, a).
Proof. unfold abs_tick. rewrite lookup_omap. by destruct (m !! k). Qed.

(** The value of a session [n] ticks after a login. *)
Definition aged (n : Z) : Z := n * 256 + SESSIONID_FOR_LOGIN_SUCCESS.

Lemma aged_tick n : 0 <= n < 6 -> age (aged n) = aged (n + 1) /\ expired (aged n) = (n =? 5) /\
  refused (aged n) = false.
Proof.
  intros Hn. assert (n = 0 \/ n = 1 \/ n = 2 \/ n = 3 \/ n = 4 \/ n = 5) as Hc by lia.
  by repeat destruct Hc as [->|Hc]; [..|rewrite Hc].
Qed.

(** The session of client [k] after [n] ticks without a heartbeat. *)
Definition session_after (m : smap) (k : list Z) (n : Z) : Prop :=
  if n <? 6 then exists a, m !! k = Some (aged n, a) else m !! k = None.

(** What the event does not do: act for the client, or log all others out. *)
Definition leaves (wp : websRec) (e : event) : Prop :=
  match e with
  | ELogin wp' how => key_of wp' <> key_of wp /\ how <> E_LOGIN_FORCE_LOGIN_SUCCESS
  | ELogout wp' | EAsk wp' | EId wp' | EHeartbeat wp' | EGetFails wp' | ESetFails wp' _ => key_of wp' <> key_of wp
  | ETick => True
  end.

Definition is_tick (e : event) : bool := match e with ETick => true | _ => false end.
Fixpoint tick_count (es : list event) : Z :=
  match es with [] => 0 | e :: es => (if is_tick e then 1 else 0) + tick_count es end.

Lemma tick_count_nonneg es : 0 <= tick_count es.
Proof. induction es as [|e es IH]; cbn; [lia|]. destruct (is_tick e); lia. Qed.

Lemma exec_leaves wp e m : leaves wp e -> is_tick e = false ->
  snd (abs_exec e m) !! key_of wp = m !! key_of wp.
Proof.
  intros Hl Ht. destruct e as [wp' how|wp'|wp'|wp'|wp'|wp'|wp' cnt|]; cbn in *; try done.
  - destruct Hl as [Hk Hh]. destruct how; cbn; by rewrite lookup_insert_ne.
  - by rewrite lookup_delete_ne.
  - unfold abs_ask. destruct (m !! key_of wp') as [[z a]|]; [|done]. destruct (refused z); cbn; [by rewrite lookup_delete_ne|done].
  - unfold abs_heartbeat. destruct (m !! key_of wp') as [[z a]|]; cbn; [by rewrite lookup_insert_ne|done].
  - by rewrite lookup_insert_ne.
Qed.

Lemma tick_after m k n : 0 <= n -> session_after m k n -> session_after (abs_tick m) k (n + 1).
Proof.
  unfold session_after. intros Hn. rewrite tick_lookup. destruct (Z.ltb_spec n 6).
  - intros [a ->]. destruct (aged_tick n ltac:(lia)) as (Ha & He & _). cbn. rewrite He, Ha.
    destruct (Z.eqb_spec n 5) as [->|]; [done|]. replace (n + 1 <? 6) with true by zb. eauto.
  - intros ->. by replace (n + 1 <? 6) with false by zb.
Qed.

Lemma run_after wp es : forall m n, 0 <= n -> session_after m (key_of wp) n -> Forall (leaves wp) es ->
  session_after (snd (abs_run es m)) (key_of wp) (n + tick_count es).
Proof.
  induction es as [|e es IH]; intros m n Hn Hs Hl; cbn [abs_run tick_count]; [by rewrite Z.add_0_r|].
  apply Forall_cons in Hl as [He Hl]. pose proof (exec_leaves wp e m He) as Hex.
  assert (Hs1 : session_after (snd (abs_exec e m)) (key_of wp) (n + if is_tick e then 1 else 0)).
  { destruct (is_tick e) eqn:Et; [destruct e; try done; by apply tick_after|].
    rewrite Z.add_0_r. unfold session_after in *. by rewrite Hex. }
  destruct (abs_exec e m) as [r m1]. cbn [snd] in Hs1.
  specialize (IH m1 (n + if is_tick e then 1 else 0) ltac:(destruct (is_tick e); lia) Hs1 Hl). rewrite <- Z.add_assoc in IH.
  by destruct (abs_run es m1).
Qed.

Lemma abs_run_snoc es e m :
  abs_run (es ++ [e]) m =
  (fst (abs_run es m) ++ [fst (abs_exec e (snd (abs_run es m)))], snd (abs_exec e (snd (abs_run es m)))).
Proof.
  revert m. induction es as [|e' es IH]; intros m; cbn [app abs_run].
  - cbn. by destruct (abs_exec e m) as [r m1].
  - destruct (abs_exec e' m) as [r m1]. rewrite IH. destruct (abs_run es m1) as [rs m2]. done.
Qed.

Lemma ask_after m wp n : 0 <= n -> session_after m (key_of wp) n ->
  fst (abs_exec (EAsk wp) m) = if n <? 6 then 1 else 0.
Proof.
  unfold session_after. intros Hn. cbn. unfold abs_ask. destruct (Z.ltb_spec n 6).
  - intros [a ->]. by destruct (aged_tick n ltac:(lia)) as (_ & _ & ->).
  - by intros ->.
Qed.

(** C4. The session functions implement the map of sessions: whatever clients and the timer
    do, every call returns, each answer is that of the abstract sessions, and the table
    stands for the abstract map afterwards.  A tick or a forced login needs at most 32
    sessions (the names noted for deletion have no more room). *)
Theorem sessions_refine es s m : srep s m -> rooms es m ->
  exists s', run es s = Some (fst (abs_run es m), s') /\ srep s' (snd (abs_run es m)).
Proof using All. apply run_does. Qed.

(** C24. A login lasts six ticks: after a successful login, whatever the other clients do
    short of a forced login, the client counts as logged in until the sixth tick without a
    heartbeat, and not from then on. *)
Theorem session_lifetime wp es s m :
  srep s m -> Forall (leaves wp) es ->
  rooms (ELogin wp E_LOGIN_SUCCESS :: es ++ [EAsk wp]) m ->
  exists rs s', run (ELogin wp E_LOGIN_SUCCESS :: es ++ [EAsk wp]) s =
    Some (rs ++ [if tick_count es <? 6 then 1 else 0], s').
Proof using All.
  intros Hs Hl Hr. destruct (run_does _ s m Hs Hr) as (s' & -> & _).
  change (ELogin wp E_LOGIN_SUCCESS :: es ++ [EAsk wp]) with ((ELogin wp E_LOGIN_SUCCESS :: es) ++ [EAsk wp]).
  rewrite abs_run_snoc. cbn [fst]. do 2 eexists. do 4 f_equal. apply ask_after; [apply tick_count_nonneg|].
  cbn [abs_run abs_exec]. pose proof (run_after wp es (abs_login m (key_of wp) E_LOGIN_SUCCESS) 0) as Ha.
  destruct (abs_run es _) as [rs m2]. apply Ha; [lia| |done].
  cbn. exists (fails m (key_of wp)). by rewrite lookup_insert_eq.
Qed.

(** A tick of the timer, with at most 32 sessions: every session is a tick older, exactly
    those whose sixth tick it is are gone, and the timer is stopped as soon as one of them
    goes, whether or not sessions are left that it would have to age. *)
Theorem processSessionTimeOut_correct s m : srep s m -> (size m <= 32)%nat ->
  exists s', EGOSM_processSessionTimeOut beyond s = Some (0, s') /\
    srep s' (omap (fun '(z, a) => if expired z then None else Some (age z, a)) m) /\
    login_timer s' = login_timer s && bool_decide (map_Forall (fun _ r => expired (fst r) = false) m).
Proof using All. apply tick_does. Qed.
End Enter.

(** ** A concrete table of sessions *)

Definition demo_client (ip : list Z) : websRec :=
  mkWebs ip None None None None (Some (str "Mozilla/5.0 (X11; Linux) Firefox/115.0")) None 0 0 0 0 ∅ [] None None None 0 None 0 None [].
Definition alice : websRec := demo_client (str "10.0.0.2").
Definition bob : websRec := demo_client (str "10.0.0.3").

Definition demo_sessions : sessions :=
  mkSessions (mkSys demo_map 3 1 0 0 {[4096 := mkTabent 0 7 (repeat 0 7)]} ∅ []) 0
    (repeat (repeat 0 24) 32) 0 true.

Lemma demo_sessions_ok : srep demo_sessions ∅.
Proof.
  constructor; [|apply map_Forall_empty|].
  - exists 4096, (mkTabent 0 7 (repeat 0 7)), (replicate 7 []), (replicate 7 []).
    split; [done|]. split; [done|]. split; [done|]. split; [by apply (empty_table_ok ∅ 7)|].
    intros k. rewrite fmap_empty, lookup_empty. unfold table_get. symmetry.
    destruct (replicate 7 [] !! _) eqn:El; [|done]. by apply lookup_replicate in El as [-> _].
  - split; [done|]. apply Forall_forall. intros b Hb%list_elem_of_In%repeat_spec. subst.
    by exists (repeat 0 23).
Qed.

(** A new address, above all that are in use. *)
Definition above (cs : gmap Z sym_t) : Z := map_fold (fun x _ a => Z.max a (x + 1)) 1 cs.
Lemma above_fresh cs : above cs <> 0 /\ cs !! above cs = None.
Proof.
  assert (H : 1 <= above cs /\ forall x, is_Some (cs !! x) -> x < above cs).
  { unfold above. apply (map_fold_weak_ind (fun a cs => 1 <= a /\ forall x, is_Some (cs !! x) -> x < a)).
    - split; [lia|]. intros x [n Hn]. by rewrite lookup_empty in Hn.
    - intros x n cs' a Hx [H1 H2]. split; [lia|]. intros y Hy. destruct (decide (x = y)) as [->|]; [lia|].
      rewrite lookup_insert_ne in Hy by done. specialize (H2 y Hy). lia. }
  destruct H as [H1 H2]. split; [lia|]. destruct (cs !! above cs) eqn:E; [|done].
  specialize (H2 (above cs) ltac:(by rewrite E)). lia.
Qed.

Lemma alice_ok : client_ok alice.
Proof. split; [apply (bool_decide_unpack _); by vm_compute|done]. Qed.
Lemma bob_ok : client_ok bob.
Proof. split; [apply (bool_decide_unpack _); by vm_compute|done]. Qed.

Lemma sessions_refine_witness :
  exists s', run Some above 12345 [ELogin alice E_LOGIN_SUCCESS; EAsk alice; ELogin bob E_LOGIN_FORCE_LOGIN_SUCCESS; EAsk alice; ETick; EHeartbeat bob] demo_sessions =
    Some ([0; 1; 0; 0; 0; 1], s').
Proof.
  destruct (sessions_refine Some above 12345 (fun _ => eq_refl) above_fresh
    [ELogin alice E_LOGIN_SUCCESS; EAsk alice; ELogin bob E_LOGIN_FORCE_LOGIN_SUCCESS; EAsk alice; ETick; EHeartbeat bob]
    demo_sessions ∅ demo_sessions_ok) as (s' & E & _).
  - repeat (split; [first [exact I|exact alice_ok|exact bob_ok]|split; [intros H; vm_compute; lia|]]). exact I.
  - exists s'. rewrite E. vm_compute. reflexivity.
Defined.

Lemma session_lifetime_witness :
  exists rs s', run Some above 12345 (ELogin alice E_LOGIN_SUCCESS ::
    [ETick; ETick; ETick; ELogin bob E_LOGIN_SUCCESS; ETick; ETick] ++ [EAsk alice]) demo_sessions = Some (rs ++ [1], s').
Proof.
  apply (session_lifetime Some above 12345 (fun _ => eq_refl) above_fresh alice
    [ETick; ETick; ETick; ELogin bob E_LOGIN_SUCCESS; ETick; ETick] demo_sessions ∅ demo_sessions_ok).
  - repeat constructor; by vm_compute.
  - repeat (split; [first [exact I|exact alice_ok|exact bob_ok]|split; [intros H; vm_compute; lia|]]). exact I.
Defined.

(** With a session on its last tick and a new one, the timer stops with the new one left. *)
Lemma processSessionTimeOut_correct_witness :
  exists s1 s', run Some above 12345 (ELogin alice E_LOGIN_SUCCESS :: repeat ETick 5 ++ [ELogin bob E_LOGIN_SUCCESS]) demo_sessions =
      Some ([0; 0; 0; 0; 0; 0; 0], s1) /\
    EGOSM_processSessionTimeOut 12345 s1 = Some (0, s') /\ login_timer s1 = true /\ login_timer s' = false /\
    srep s' {[key_of bob := (261, 0)]}.
Proof.
  destruct (run_does Some above 12345 (fun _ => eq_refl) above_fresh
    (ELogin alice E_LOGIN_SUCCESS :: repeat ETick 5 ++ [ELogin bob E_LOGIN_SUCCESS]) demo_sessions ∅ demo_sessions_ok) as (s1 & E & Hs1).
  - repeat (split; [first [exact I|exact alice_ok|exact bob_ok]|split; [intros H; vm_compute; lia|]]). exact I.
  - destruct (processSessionTimeOut_correct Some above 12345 (fun _ => eq_refl) above_fresh s1 _ Hs1) as (s' & E' & Hs' & Hl).
    + vm_compute. lia.
    + exists s1, s'. split; [rewrite E; vm_compute; reflexivity|]. split; [exact E'|].
      assert (El : login_timer s1 = true).
      { clear - E. vm_compute in E. injection E as <-. reflexivity. }
      split; [exact El|]. rewrite Hl, El. split; [vm_compute; reflexivity|].
      replace {[key_of bob := (261, 0)]} with (abs_tick (snd (abs_run (ELogin alice E_LOGIN_SUCCESS :: repeat ETick 5 ++ [ELogin bob E_LOGIN_SUCCESS]) ∅))); [exact Hs'|].
      vm_compute. reflexivity.
Defined.

(** A client without a session that is given a count of failed logins gets a session that
    counts as a login. *)
Example fails_log_in :
  fst <$> run Some above 12345 [EAsk alice; ESetFails alice 3; EAsk alice] demo_sessions = Some [0; 0; 1].
Proof. vm_compute. reflexivity. Qed.
