(* ===== verification/Security.v ===== *)
(** * Who may have which page (webs/src/src/security.c)

    [websSecurityHandler] is asked first about every request.  It answers 0 to let the
    request pass to the next handler, or 1 when it has answered the client itself.  Behind
    the check of the session the function returns, so the user management is never asked.

    A request that is built without JRD_DEBUG_CATCH_LOG and JRD_CUSTOM_APPS_API, as the
    Makefile has it.  The JSON library is a parameter: [json_method] is the method that the
    text of a request names.  [None] is a crash. *)

From stdpp Require Import gmap.
From S2P Require Import Prelude CString Handles SymTab Url Session.
#[local] Open Scope Z_scope.
#[local] Open Scope cint_scope.

Record accessLimitedItemT : Type := mkLimited { accesslimitedname : list Z; nlen : Z }.

Definition g_freeAccessDirs : list accessLimitedItemT :=
  [mkLimited (str "/images/") 0; mkLimited (str "/js/") 0; mkLimited (str "/css/") 0;
   mkLimited (str "/resource") 0; mkLimited (str "/help/") 0; mkLimited (str "/comm_help/") 0;
   mkLimited (str "/mobile/css/") 0; mkLimited (str "/mobile/js/") 0; mkLimited (str "/mobile/images/") 0;
   mkLimited (str "/files/") 0; mkLimited (str "/app/") 0; mkLimited (str "/lib/") 0;
   mkLimited (str "/html/") 0; mkLimited (str "/usermanual/") 0; mkLimited (str "/res/") 0;
   mkLimited (str "/language/") 0; mkLimited (str "/usermanual/") 0; mkLimited (str "/dist/") 0].

Definition g_freeAccessPages : list accessLimitedItemT :=
  [mkLimited (str "/index.asp") 0; mkLimited (str "/login.asp") 0; mkLimited (str "/comm_help.html") 0;
   mkLimited (str "/default.asp") 0; mkLimited (str "/gettestdata.asp") 0; mkLimited (str "/index.html") 0;
   mkLimited (str "/login.html") 0; mkLimited (str "/default.html") 0; mkLimited (str "/mobile/index.html") 0;
   mkLimited (str "/faq.html") 0; mkLimited (str "/favicon.ico") 0; mkLimited (str "/connection/homePinManage.html") 0;
   mkLimited (str "/home.html") 0; mkLimited (str "/Legal_Mentions.html") 0].

Definition g_freeAccessMethods : list (list Z) :=
  [str "GetCurrentLanguage"; str "SetLanguage"; str "Login"; str "Logout"; str "GetLoginState"; str "GetSimStatus";
   str "GetSystemStatus"; str "GetDeviceNewVersion"; str "GetUsageRecord"; str "GetSystemInfo"; str "GetNetworkInfo"].

Definition MAX_SESSION_COUNT : Z := 256.
Definition WEBS_COOKIE : Z := 8.
Definition WEBS_TOKEN_ERROR : Z := -32699.
Definition WEBS_NEED_LOGIN : Z := -32698.
Definition WEBS_REFERER_ERROR : Z := -32697.

Definition STR_BACLUP_CONFIGURE_FOLDER : list Z := str "/cfgbak".
Definition STR_HELP_DOWNLOADDIR_NAME : list Z := str "/help".
Definition STR_SDSHARE_DOWNLOADDIR_NAME : list Z := str "/sdcardDownload".
Definition STR_URL_HEARTBEAT_ASP : list Z := str "/heartBeat.asp".
Definition LENGTH_OF_URL_HEARTBEAT_ASP : Z := 14.

(** The state of security.c: the tables with their lengths, the session identifiers of the
    cookies, and the sessions. *)
Record security : Type := mkSecurity {
  freeDirs : list accessLimitedItemT;
  freePages : list accessLimitedItemT;
  g_sessionids : list Z;
  g_cSessionPC : Z;
  sec_sessions : sessions
}.

(** What the security depends on outside. *)
Record web_config : Type := mkWebConfig {
  websHost : list Z;
  websIpaddr : list Z;
  jrd_webs_token_str_extern : list Z;
  json_method_login_check : Z;
  json_method_token_check : Z;
  pw_not_needed : bool
}.

Definition jrd_certification_key : list Z := str "KSDHSDFOGQ5WERYTUIQWERTYUISDFG1HJZXCVCXBN2GDSMNDHKVKFsVBNf".

Inductive json_result : Type := JError | JNoMethod | JMethod (m : list Z).

(** The answer of the handler itself, when it gives one. *)
Inductive response : Type := NoResponse | ErrorResponse (code : Z) | RedirectResponse.

(** ** The tables *)

Definition set_nlen (it : accessLimitedItemT) : accessLimitedItemT := it <| nlen := zlen (accesslimitedname it) |>.

Definition websInitSessionInfo (st : security) : security :=
  st <| g_sessionids := repeat 0 (length (g_sessionids st)) |>
     <| freeDirs := map set_nlen (freeDirs st) |> <| freePages := map set_nlen (freePages st) |>.

(** [0 == memcmp(s, name, n)] for strings; the comparison ends at the first difference. *)
Definition memcmp0 (s name : list Z) (n : Z) : bool :=
  bool_decide (take (Z.to_nat n) (s ++ [0]) = take (Z.to_nat n) (name ++ [0])).

(** The loops over the tables. *)
Fixpoint is_free (items : list accessLimitedItemT) (url : list Z) : bool :=
  match items with
  | [] => false
  | it :: items => if memcmp0 url (accesslimitedname it) (nlen it) then true else is_free items url
  end.

(** [0 == gstrncmp(prefix, s, gstrlen(prefix))] *)
Definition starts_with (prefix s : list Z) : bool := bool_decide (take (length prefix) s = prefix).

(** ** Cookies *)

Definition websSetRequestFlags (wp : websRec) (flags : Z) : websRec := wp <| w_flags := flags |>.

(** [g_sessionids\[i\] = v] for an identifier below the limit. *)
Definition set_sessionid (st : security) (i v : Z) : option security :=
  ids ← store (g_sessionids st) i v; Some (st <| g_sessionids := ids |>).

(** %d, below a thousand. *)
Definition print_id (id : Z) : list Z :=
  (if 100 <=? id then [48 + id / 100] else []) ++ (if 10 <=? id then [48 + id / 10 mod 10] else []) ++ [48 + id mod 10].

Definition cookie_text (id : Z) : list Z := str "egoid" ++ str "=" ++ print_id id ++ str "; Path=/; ego".

Definition websSetCookie (st : security) (wp : websRec) (bloginFailed : Z) : option (security * websRec) :=
  '(st, wp) ← (if 1 =? bloginFailed then Some (st, wp <| cookiebuf := cookie_text 1 |>)
    else
      st ← (if nSessionid wp <? MAX_SESSION_COUNT + 2 then set_sessionid st (nSessionid wp) 0 else Some st);
      let st := st <| g_cSessionPC := u8 (g_cSessionPC st mod MAX_SESSION_COUNT + 1) |> in
      let st := if 1 =? g_cSessionPC st then st <| g_cSessionPC := u8 (g_cSessionPC st + 1) |> else st in
      st ← set_sessionid st (g_cSessionPC st) 1;
      Some (st, wp <| cookiebuf := cookie_text (g_cSessionPC st) |>));
  Some (st, websSetRequestFlags wp (Z.lor (w_flags wp) WEBS_COOKIE)).

Definition websClearCookie (st : security) (wp : websRec) : option (security * websRec) :=
  st ← (if nSessionid wp <? MAX_SESSION_COUNT + 2 then set_sessionid st (nSessionid wp) 0 else Some st);
  let wp := wp <| cookiebuf := cookie_text 0 |> in
  Some (st, websSetRequestFlags wp (Z.lor (w_flags wp) WEBS_COOKIE)).

Definition websGetSessionid (wp : websRec) : Z := nSessionid wp.

(** The text from the character [c] on. *)
Fixpoint strchr (s : list Z) (c : Z) : cptr :=
  match s with [] => None | d :: s' => if d =? c then Some s else strchr s' c end.

(** The value of a cookie: 0 with the text behind the equals sign, or 1. *)
Definition websGetcookie (wp : websRec) (name : list Z) : option (Z * cptr) :=
  if Z.land (w_flags wp) WEBS_COOKIE =? 0 then Some (1, None)
  else
    pcStr ← (match strchr (cookiebuf wp) 59 with
             | Some t => if 2 <=? zlen t then Some (drop 2 t) else None
             | None => Some (cookiebuf wp)
             end);
    match strchr pcStr 61 with
    | None => Some (1, None)
    | Some t2 =>
        let tmpLen1 := zlen pcStr - zlen t2 in
        if negb (bool_decide (take (Z.to_nat tmpLen1) (name ++ [0]) = take (Z.to_nat tmpLen1) pcStr)) then Some (1, None)
        else
          let value := drop 1 t2 in
          if zlen value =? 0 then Some (1, None) else Some (0, Some value)
    end.

(** ** The handler *)

Section Handler.
Context (json_method : cptr -> json_result).
Context (cfg : web_config).

(** [gstrncmp(referer + 7, host, gstrlen(host)) || *(referer + 7 + gstrlen(host)) != '/'],
    where 7 is the length of http:// *)
Definition other_host (r host : list Z) : option bool :=
  if zlen r <? 7 then None
  else
    let rest := drop 7 r in
    Some (negb (starts_with host rest) || negb (zget (rest ++ [0]) (zlen host) =? 47)).

Definition referer_error (wp : websRec) : option bool :=
  match referer wp with
  | None => Some true
  | Some r =>
      b1 ← other_host r (websIpaddr cfg);
      if b1 : bool then other_host r (websHost cfg) else Some false
  end.

Definition clear_cookie_flag (wp : websRec) : websRec := wp <| w_flags := Z.land (w_flags wp) (Z.lnot WEBS_COOKIE) |>.

Definition handler_result : Type := Z * response * websRec * security.
Definition pass (wp : websRec) (st : security) : option handler_result := Some (0, NoResponse, wp, st).
Definition refuse (code : Z) (wp : websRec) (st : security) : option handler_result := Some (1, ErrorResponse code, wp, st).

(** The branch for /jrd/webapi. *)
Definition webapi_check (st : security) (wp : websRec) : option handler_result :=
  bad ← referer_error wp;
  if bad : bool then refuse WEBS_REFERER_ERROR wp st
  else if (json_method_login_check cfg =? 0) && (json_method_token_check cfg =? 0) then pass wp st
  else
    match json_method (w_postData wp) with
    | JError | JNoMethod => pass wp st
    | JMethod method =>
        if bool_decide (method = str "ActiveSimlock") || bool_decide (method = str "SetTelnetSwitch") then pass wp st
        else if negb (json_method_token_check cfg =? 0) &&
                match cer_key wp with None => true | Some k => negb (bool_decide (k = jrd_certification_key)) end
        then refuse WEBS_TOKEN_ERROR wp st
        else if bool_decide (method ∈ g_freeAccessMethods) then pass (clear_cookie_flag wp) st
        else if negb (json_method_login_check cfg =? 0) then
          '(logged, st) ← (if pw_not_needed cfg then Some (true, st)
                           else '(r, s) ← EGOSM_isUserLogined (sec_sessions st) wp;
                                Some (r =? 1, st <| sec_sessions := s |>));
          if logged : bool then
            let wp := clear_cookie_flag wp in
            if negb (json_method_token_check cfg =? 0) &&
               match w_token wp with None => true | Some t => negb (bool_decide (t = jrd_webs_token_str_extern cfg)) end
            then refuse WEBS_TOKEN_ERROR wp st
            else pass wp st
          else refuse WEBS_NEED_LOGIN wp st
        else pass wp st
    end.

(** The rest of the handler, for pages. *)
Definition page_check (st : security) (wp : websRec) (url : list Z) : option handler_result :=
  if is_free (freeDirs st) url then pass (clear_cookie_flag wp) st
  else if is_free (freePages st) url then pass (clear_cookie_flag wp) st
  else
    '(r, s) ← EGOSM_isUserLogined (sec_sessions st) wp;
    let st := st <| sec_sessions := s |> in
    if 1 =? r then
      let wp := clear_cookie_flag wp in
      if memcmp0 url STR_URL_HEARTBEAT_ASP LENGTH_OF_URL_HEARTBEAT_ASP then
        '(_, s) ← EGOSM_resetSessionHeartbeat (sec_sessions st) wp;
        pass wp (st <| sec_sessions := s |>)
      else pass wp st
    else
      let wp := (clear_cookie_flag wp) <| nSessionid := 0 |> in
      '(st, wp) ← websClearCookie st wp;
      Some (1, if b_default_unredirect wp =? 0 then RedirectResponse else NoResponse, wp, st).

Definition websSecurityHandler (st : security) (wp : websRec) (url path : list Z) : option handler_result :=
  let wp :=
    if strstr url STR_BACLUP_CONFIGURE_FOLDER || strstr url STR_HELP_DOWNLOADDIR_NAME || strstr url STR_SDSHARE_DOWNLOADDIR_NAME
    then wp <| isDownloadfile := 1 |> else wp in
  if starts_with (str "/jrd/webapi") path then webapi_check st wp
  else if starts_with (str "/goform") path || starts_with (str "/cfgbak") path then
    bad ← referer_error wp;
    if bad : bool then refuse WEBS_REFERER_ERROR wp st else page_check st wp url
  else page_check st wp url.
End Handler.
