(* ===== verification/SecuritySpec.v ===== *)
(** * What the security handler lets through

    The tables of free directories and pages are prefixes of the text of the request; a
    request for anything else needs a session.  But the text is not the path that is opened
    in the end: composed with the functions of [Url], every page can be had without one. *)

From stdpp Require Import gmap.
From S2P Require Import Prelude CString Handles SymTab Url UrlSpec Session SessionSpec Security.
#[local] Open Scope Z_scope.
#[local] Open Scope cint_scope.

(** ** Prefixes *)

Lemma starts_with_spec prefix s : starts_with prefix s = true <-> exists t, s = prefix ++ t.
Proof.
  unfold starts_with. rewrite bool_decide_eq_true. split.
  - intros E. exists (drop (length prefix) s). rewrite <- (take_drop (length prefix) s) at 1. by rewrite E.
  - intros [t ->]. by rewrite take_app_length.
Qed.

Lemma memcmp0_prefix s name : no_nul name -> memcmp0 s name (zlen name) = starts_with name s.
Proof.
  intros Hn. unfold memcmp0. rewrite Nat2Z.id, take_app_length. apply eq_true_iff_eq.
  rewrite bool_decide_eq_true, starts_with_spec. split.
  - intros E. destruct (Nat.le_gt_cases (length name) (length s)) as [Hl|Hl].
    + rewrite take_app_le in E by done. exists (drop (length name) s). rewrite <- (take_drop (length name) s) at 1. by rewrite E.
    + exfalso. rewrite take_app_ge in E by lia. rewrite (take_ge [0]) in E by (cbn; lia).
      rewrite <- E in Hn. apply Forall_app in Hn as [_ Hn]. by inversion Hn.
  - intros [t ->]. rewrite <- (assoc_L (++)). by rewrite take_app_length.
Qed.

(** The names of a table, and the texts that start with one of them. *)
Definition names (items : list accessLimitedItemT) : list (list Z) := map accesslimitedname items.
Definition free_text (ns : list (list Z)) (url : list Z) : bool := existsb (fun n => starts_with n url) ns.

Lemma is_free_init items url : Forall no_nul (names items) ->
  is_free (map set_nlen items) url = free_text (names items) url.
Proof.
  induction items as [|it items IH]; intros H; [done|]. cbn in *. apply Forall_cons_iff in H as [H1 H2].
  replace (accesslimitedname (set_nlen it)) with (accesslimitedname it) by by destruct it.
  replace (nlen (set_nlen it)) with (zlen (accesslimitedname it)) by by destruct it.
  rewrite memcmp0_prefix by done. destruct (starts_with _ _); [done|]. by apply IH.
Qed.

Lemma tables_no_nul : Forall no_nul (names g_freeAccessDirs) /\ Forall no_nul (names g_freeAccessPages).
Proof. split; apply (bool_decide_unpack _); by vm_compute. Qed.

(** Free without a login. *)
Definition free_url (url : list Z) : bool :=
  free_text (names g_freeAccessDirs) url || free_text (names g_freeAccessPages) url.

(** ** The origin of a request *)

(** The referer names the host, behind the seven bytes of http:// *)
Definition from_host (r host : list Z) : Prop := exists p t, r = p ++ host ++ 47 :: t /\ zlen p = 7.

Lemma other_host_spec r host : 7 <= zlen r ->
  exists b, other_host r host = Some b /\ (b = false <-> from_host r host).
Proof.
  intros Hr. unfold other_host. replace (zlen r <? 7) with false by zb. eexists. split; [done|].
  rewrite orb_false_iff, !negb_false_iff, starts_with_spec, Z.eqb_eq. split.
  - intros [[t Ht] Hc]. exists (take 7 r), (drop 1 t).
    rewrite Ht in Hc. unfold zget in Hc. rewrite Nat2Z.id, <- (assoc_L (++)), app_nth2, Nat.sub_diag in Hc by lia.
    split; [|rewrite length_take; lia].
    destruct t as [|c t]; cbn in Hc; [done|]. subst c. cbn. rewrite drop_0, <- Ht. by rewrite take_drop.
  - intros (p & t & -> & Hp). rewrite drop_app_length' by lia. split; [by exists (47 :: t)|].
    unfold zget. rewrite Nat2Z.id, <- (assoc_L (++)), app_nth2, Nat.sub_diag by lia. done.
Qed.

(** A referer, when there is one, has at least seven bytes. *)
Definition referer_long (wp : websRec) : Prop := match referer wp with Some r => 7 <= zlen r | None => True end.

Lemma referer_error_spec cfg wp : referer_long wp ->
  exists b, referer_error cfg wp = Some b /\
    (b = false <-> exists r, referer wp = Some r /\ (from_host r (websIpaddr cfg) \/ from_host r (websHost cfg))).
Proof.
  intros H. unfold referer_error, referer_long in *. destruct (referer wp) as [r|].
  - destruct (other_host_spec r (websIpaddr cfg) H) as (b1 & -> & H1). cbn [mbind option_bind].
    destruct (other_host_spec r (websHost cfg) H) as (b2 & E2 & H2). destruct b1.
    + exists b2. split; [done|]. rewrite H2. split; [eauto|]. intros (r' & [= <-] & [Hf|Hf]); [|done].
      by apply H1 in Hf.
    + exists false. split; [done|]. split; [|done]. intros _. exists r. split; [done|]. left. by apply H1.
  - exists true. split; [done|]. split; [done|]. by intros (r & ? & _).
Qed.

(** ** The handler *)

(** The tables have their lengths, and the sessions stand for [m]. *)
Record sec_ok (st : security) (m : smap) : Prop := {
  so_dirs : freeDirs st = map set_nlen g_freeAccessDirs;
  so_pages : freePages st = map set_nlen g_freeAccessPages;
  so_ids : zlen (g_sessionids st) = MAX_SESSION_COUNT + 4;
  so_sessions : srep (sec_sessions st) m
}.

Lemma sec_ok_sessions st m s m' : sec_ok st m -> srep s m' -> sec_ok (st <| sec_sessions := s |>) m'.
Proof. intros [H1 H2 H3 _] Hs. by destruct st. Qed.

(** What the handlers behind this one are called with. *)
Definition same_target (wp wp' : websRec) : Prop := w_path wp' = w_path wp /\ w_url wp' = w_url wp.

Lemma clear_cookie_spec st wp m : sec_ok st m -> nSessionid wp = 0 ->
  exists st' wp', websClearCookie st wp = Some (st', wp') /\ sec_ok st' m /\
    b_default_unredirect wp' = b_default_unredirect wp /\ same_target wp wp'.
Proof.
  intros [H1 H2 H3 H4] Hn. unfold websClearCookie, set_sessionid, store. rewrite Hn.
  change (0 <? MAX_SESSION_COUNT + 2) with true. cbn iota. rewrite H3.
  change ((0 <=? 0) && (0 <? MAX_SESSION_COUNT + 4)) with true. cbn [mbind option_bind].
  do 2 eexists. split; [done|]. split; [|by destruct wp]. destruct st. cbn in *. constructor; cbn; try done. by rewrite length_insert.
Qed.

Lemma client_flag wp : client_ok wp -> client_ok (clear_cookie_flag wp) /\ key_of (clear_cookie_flag wp) = key_of wp.
Proof. by destruct wp. Qed.

(** Is the client logged in? *)
Definition logged (m : smap) (wp : websRec) : bool := fst (abs_ask m (key_of wp)) =? 1.
Definition heartbeat_url (url : list Z) : bool := memcmp0 url STR_URL_HEARTBEAT_ASP LENGTH_OF_URL_HEARTBEAT_ASP.

(** The sessions after a request for a page. *)
Definition page_sessions (m : smap) (wp : websRec) (url : list Z) : smap :=
  if free_url url then m
  else if logged m wp && heartbeat_url url then snd (abs_heartbeat m (key_of wp))
  else snd (abs_ask m (key_of wp)).

Lemma logged_same m wp : logged m wp = true -> snd (abs_ask m (key_of wp)) = m.
Proof. unfold logged, abs_ask. destruct (m !! key_of wp) as [[z a]|]; [|done]. by destruct (refused z). Qed.

(** The answer to a request for a page that needs a login. *)
Definition turned_away (wp : websRec) : response := if b_default_unredirect wp =? 0 then RedirectResponse else NoResponse.

Lemma page_check_spec st wp url m : sec_ok st m -> client_ok wp ->
  exists wp' st', page_check st wp url =
      Some (if free_url url || logged m wp then 0 else 1, if free_url url || logged m wp then NoResponse else turned_away wp, wp', st') /\
    sec_ok st' (page_sessions m wp url) /\ same_target wp wp'.
Proof.
  intros Hst Hcl. unfold page_check, page_sessions, free_url.
  rewrite (so_dirs _ _ Hst), (so_pages _ _ Hst), !is_free_init by apply tables_no_nul.
  assert (Hc : same_target wp (clear_cookie_flag wp)) by by destruct wp.
  destruct (free_text (names g_freeAccessDirs) url); [by do 2 eexists|].
  destruct (free_text (names g_freeAccessPages) url); [by do 2 eexists|]. cbn [orb].
  destruct (ask_does (sec_sessions st) m wp (so_sessions _ _ Hst) Hcl) as (s & -> & Hs & _). cbn [mbind option_bind].
  pose proof (logged_same m wp) as Hsame. fold (logged m wp). rewrite Z.eqb_sym. fold (logged m wp).
  destruct (logged m wp) eqn:El; cbn [andb].
  - unfold heartbeat_url. rewrite (Hsame eq_refl) in *. destruct (client_flag wp Hcl) as [Hcl' Hkey].
    pose proof (sec_ok_sessions st m s m Hst Hs) as Hst1.
    destruct (memcmp0 _ _ _); [|by do 2 eexists].
    match goal with |- context [EGOSM_resetSessionHeartbeat (sec_sessions ?q) _] => replace (sec_sessions q) with s by by destruct st end.
    destruct (heartbeat_does Some above 0 (fun _ => eq_refl) above_fresh s m (clear_cookie_flag wp) Hs Hcl') as (s2 & -> & Hs2 & _).
    cbn [mbind option_bind]. rewrite Hkey in Hs2. do 2 eexists. split; [done|]. split; [by eapply sec_ok_sessions|done].
  - pose proof (sec_ok_sessions st m s _ Hst Hs) as Hst1.
    match goal with |- context [websClearCookie ?q ?w] =>
      destruct (clear_cookie_spec q w _ Hst1) as (st2 & wp2 & -> & Hst2 & Hu & Ht); [by destruct wp|] end.
    cbn [mbind option_bind]. exists wp2, st2. unfold turned_away. rewrite Hu. split; [by destruct wp|].
    split; [done|]. by destruct wp.
Qed.

(** A download leaves the fields that count. *)
Lemma download_same wp b : let wp' := (if b : bool then wp <| isDownloadfile := 1 |> else wp) in
  (client_ok wp -> client_ok wp') /\ key_of wp' = key_of wp /\ referer wp' = referer wp /\
  w_postData wp' = w_postData wp /\ (referer_long wp -> referer_long wp') /\
  cer_key wp' = cer_key wp /\ w_token wp' = w_token wp /\ turned_away wp' = turned_away wp /\ same_target wp wp'.
Proof. destruct b, wp; cbn; repeat split; intros; try done; by destruct H. Qed.

Definition api_path (path : list Z) : bool := starts_with (str "/jrd/webapi") path.
Definition form_path (path : list Z) : bool := starts_with (str "/goform") path || starts_with (str "/cfgbak") path.

(** The page comes from one of the names of this server. *)
Definition own_page (cfg : web_config) (wp : websRec) : Prop :=
  exists r, referer wp = Some r /\ (from_host r (websIpaddr cfg) \/ from_host r (websHost cfg)).

(** What the handler says to a request for a page: 0 without an answer, or 1 with one. *)
Definition page_passes (cfg : web_config) (m : smap) (wp : websRec) (url path : list Z) : Prop :=
  (form_path path = true -> own_page cfg wp) /\ (free_url url = true \/ logged m wp = true).

Definition page_verdict (cfg : web_config) (m : smap) (wp : websRec) (url path : list Z) (r : Z) (resp : response) : Prop :=
  (r = 0 /\ resp = NoResponse /\ page_passes cfg m wp url path) \/
  (r = 1 /\ resp = ErrorResponse WEBS_REFERER_ERROR /\ form_path path = true /\ ~ own_page cfg wp) \/
  (r = 1 /\ resp = turned_away wp /\ (form_path path = true -> own_page cfg wp) /\ free_url url = false /\ logged m wp = false).

(** The handler on a request for a page. *)
Lemma page_guard json cfg st wp url path m :
  sec_ok st m -> client_ok wp -> referer_long wp -> api_path path = false ->
  exists r resp wp' st' m', websSecurityHandler json cfg st wp url path = Some (r, resp, wp', st') /\ sec_ok st' m' /\
    page_verdict cfg m wp url path r resp /\ same_target wp wp' /\ (m' = m \/ m' = page_sessions m wp url).
Proof.
  intros Hst Hcl Href Hapi. unfold websSecurityHandler. set (b := _ || _ || _).
  destruct (download_same wp b) as (H1 & Hk & Hr & _ & H2 & _ & _ & Ha & Ht). set (wp1 := if b then _ else _) in *.
  fold (api_path path). rewrite Hapi. fold (form_path path).
  destruct (page_check_spec st wp1 url m Hst (H1 Hcl)) as (wp' & st' & E & Hst' & Ht').
  assert (El : logged m wp1 = logged m wp) by (unfold logged; by rewrite Hk).
  assert (Ep : page_sessions m wp1 url = page_sessions m wp url) by (unfold page_sessions; by rewrite El, Hk).
  assert (Ht1 : same_target wp wp') by (unfold same_target in *; destruct Ht, Ht'; split; congruence).
  rewrite El, Ha in E. rewrite Ep in Hst'.
  assert (Hv : (form_path path = true -> own_page cfg wp) -> page_verdict cfg m wp url path
    (if free_url url || logged m wp then 0 else 1) (if free_url url || logged m wp then NoResponse else turned_away wp)).
  { intros Ho. unfold page_verdict, page_passes. destruct (free_url url), (logged m wp); cbn [orb]; tauto. }
  destruct (form_path path) eqn:Ef; [|].
  - destruct (referer_error_spec cfg wp1 (H2 Href)) as (bad & -> & Hbad). rewrite Hr in Hbad. cbn [mbind option_bind]. destruct bad.
    + do 5 eexists. split; [done|]. split; [done|]. split; [|split; [done|by left]]. right. left. do 3 (split; [done|]). intros Ho.
      assert (true = false) by by apply Hbad. done.
    + rewrite E. do 5 eexists. split; [done|]. split; [done|]. split; [|split; [done|by right]]. apply Hv. intros _. by apply Hbad.
  - rewrite E. do 5 eexists. split; [done|]. split; [done|]. split; [|split; [done|by right]]. by apply Hv.
Qed.

Lemma page_verdict_zero cfg m wp url path r resp : page_verdict cfg m wp url path r resp -> r = 0 <-> page_passes cfg m wp url path.
Proof.
  unfold page_verdict, page_passes. intros [(-> & _ & H)|[(-> & _ & Hf & Ho)|(-> & _ & _ & Hf & Hl)]]; (split; [done|]); [done|tauto|].
  rewrite Hf, Hl. by intros [_ [?|?]].
Qed.

(** ** The API *)

(** Requests that are checked for their origin only: without checks in the configuration,
    without a method, or for one of two methods. *)
Definition unchecked (json : cptr -> json_result) (cfg : web_config) (wp : websRec) : Prop :=
  (json_method_login_check cfg = 0 /\ json_method_token_check cfg = 0) \/
  match json (w_postData wp) with
  | JMethod method => method = str "ActiveSimlock" \/ method = str "SetTelnetSwitch"
  | _ => True
  end.

(** With the check of tokens a request has the fixed key of the program. *)
Definition certified (cfg : web_config) (wp : websRec) : Prop :=
  json_method_token_check cfg = 0 \/ cer_key wp = Some jrd_certification_key.

(** Nobody needs to be logged in: the method is free, or logins are not checked. *)
Definition open_method (json : cptr -> json_result) (cfg : web_config) (wp : websRec) : Prop :=
  json_method_login_check cfg = 0 \/ match json (w_postData wp) with JMethod method => method ∈ g_freeAccessMethods | _ => False end.

(** The client is logged in, or no password is needed. *)
Definition known (cfg : web_config) (m : smap) (wp : websRec) : Prop := pw_not_needed cfg = true \/ logged m wp = true.

(** With the check of tokens a client that is logged in has the token of the login. *)
Definition token_right (cfg : web_config) (wp : websRec) : Prop :=
  json_method_token_check cfg = 0 \/ w_token wp = Some (jrd_webs_token_str_extern cfg).

Definition api_passes (json : cptr -> json_result) (cfg : web_config) (m : smap) (wp : websRec) : Prop :=
  own_page cfg wp /\
  (unchecked json cfg wp \/ (certified cfg wp /\ (open_method json cfg wp \/ (known cfg m wp /\ token_right cfg wp)))).

Definition api_verdict (json : cptr -> json_result) (cfg : web_config) (m : smap) (wp : websRec) (r : Z) (resp : response) : Prop :=
  (r = 0 /\ resp = NoResponse /\ api_passes json cfg m wp) \/
  (r = 1 /\ resp = ErrorResponse WEBS_REFERER_ERROR /\ ~ own_page cfg wp) \/
  (r = 1 /\ own_page cfg wp /\ ~ unchecked json cfg wp /\
    ((resp = ErrorResponse WEBS_NEED_LOGIN /\ certified cfg wp /\ ~ open_method json cfg wp /\ ~ known cfg m wp) \/
     (resp = ErrorResponse WEBS_TOKEN_ERROR /\
       (~ certified cfg wp \/ (~ open_method json cfg wp /\ known cfg m wp /\ ~ token_right cfg wp))))).

(** C12. Pages: the handler lets a request pass exactly if its text starts with a free directory
    or page, or the client is logged in; a form or a saved configuration must come from a
    page of this server besides.  The sessions change as the question and the heartbeat
    have it. *)
Theorem security_page_guard json cfg st wp url path m :
  sec_ok st m -> client_ok wp -> referer_long wp -> api_path path = false ->
  exists r resp wp' st' m', websSecurityHandler json cfg st wp url path = Some (r, resp, wp', st') /\ sec_ok st' m' /\
    (r = 0 <-> (form_path path = true -> own_page cfg wp) /\ (free_url url = true \/ logged m wp = true)) /\
    (m' = m \/ m' = page_sessions m wp url).
Proof.
  intros Hst Hcl Href Hapi. destruct (page_guard json cfg st wp url path m Hst Hcl Href Hapi) as (r & resp & wp' & st' & m' & E & Hst' & Hv & _ & Hm).
  exists r, resp, wp', st', m'. do 2 (split; [done|]). split; [|done]. by apply (page_verdict_zero cfg m wp url path r resp).
Qed.

Lemma mismatch_spec (k : cptr) (t : list Z) :
  match k with None => true | Some x => negb (bool_decide (x = t)) end = false <-> k = Some t.
Proof.
  destruct k as [x|]; [|done]. rewrite negb_false_iff, bool_decide_eq_true. split; [by intros ->|by intros [= ->]].
Qed.

Lemma token_test (c : Z) (k : cptr) (t : list Z) :
  negb (c =? 0) && match k with None => true | Some x => negb (bool_decide (x = t)) end = false <-> c = 0 \/ k = Some t.
Proof. rewrite andb_false_iff, negb_false_iff, Z.eqb_eq, mismatch_spec. done. Qed.

Section ApiGuard.
Context (json : cptr -> json_result) (cfg : web_config) (m : smap) (wp : websRec).

(** What the branch does, on a request [wp'] with the same fields as [wp]. *)
Definition api_does (res : option handler_result) : Prop :=
  exists r resp wp' st' m', res = Some (r, resp, wp', st') /\ sec_ok st' m' /\
    api_verdict json cfg m wp r resp /\ same_target wp wp' /\ (m' = m \/ m' = snd (abs_ask m (key_of wp))).

Lemma api_pass wp' st' m' : api_passes json cfg m wp -> same_target wp wp' -> sec_ok st' m' ->
  m' = m \/ m' = snd (abs_ask m (key_of wp)) -> api_does (pass wp' st').
Proof. intros Hp Ht Hs Hm. exists 0, NoResponse, wp', st', m'. split; [done|]. split; [done|]. split; [by left|done]. Qed.

Lemma api_refuse code wp' st' m' : api_verdict json cfg m wp 1 (ErrorResponse code) -> same_target wp wp' -> sec_ok st' m' ->
  m' = m \/ m' = snd (abs_ask m (key_of wp)) -> api_does (refuse code wp' st').
Proof. intros Hp Ht Hs Hm. by exists 1, (ErrorResponse code), wp', st', m'. Qed.

(** The question whether the client is logged in. *)
Lemma known_spec st : sec_ok st m -> client_ok wp ->
  exists b st' m', (if pw_not_needed cfg then Some (true, st)
      else '(r, s) ← EGOSM_isUserLogined (sec_sessions st) wp; Some (r =? 1, st <| sec_sessions := s |>)) = Some (b, st') /\
    (b = true <-> known cfg m wp) /\ sec_ok st' m' /\ (m' = m \/ m' = snd (abs_ask m (key_of wp))).
Proof.
  intros Hst Hcl. unfold known. destruct (pw_not_needed cfg); [exists true, st, m; split; [done|]; split; [tauto|]; split; [done|by left]|].
  destruct (ask_does (sec_sessions st) m wp (so_sessions _ _ Hst) Hcl) as (s & -> & Hs & _). cbn [mbind option_bind].
  do 3 eexists. split; [done|]. split; [unfold logged; by split; [right|intros [|]]|]. split; [exact (sec_ok_sessions st m s _ Hst Hs)|by right].
Qed.

Lemma webapi_check_spec st : sec_ok st m -> client_ok wp -> referer_long wp -> api_does (webapi_check json cfg st wp).
Proof.
  intros Hst Hcl Href. assert (Hself : same_target wp wp) by done. assert (Hclear : same_target wp (clear_cookie_flag wp)) by by destruct wp.
  assert (Hm : m = m \/ m = snd (abs_ask m (key_of wp))) by by left. unfold webapi_check.
  destruct (referer_error_spec cfg wp Href) as (bad & -> & Ho). cbn [mbind option_bind]. fold (own_page cfg wp) in Ho. destruct bad.
  { apply (api_refuse _ _ _ m); try done. right. left. split; [done|]. split; [done|]. intros H. by apply Ho in H. }
  pose proof (proj1 Ho eq_refl) as Hown. clear Ho.
  destruct ((_ =? 0) && (_ =? 0)) eqn:E0.
  { apply andb_true_iff in E0 as [?%Z.eqb_eq ?%Z.eqb_eq]. apply (api_pass _ _ m); try done. split; [done|]. left. by left. }
  destruct (json (w_postData wp)) as [| |method] eqn:Ej;
    [apply (api_pass _ _ m); try done; split; [done|]; left; right; by rewrite Ej..|].
  destruct (bool_decide (method = _) || _) eqn:E1.
  { apply (api_pass _ _ m); try done. split; [done|]. left. right. rewrite Ej. by rewrite orb_true_iff, !bool_decide_eq_true in E1. }
  assert (Hu : ~ unchecked json cfg wp).
  { unfold unchecked. rewrite Ej. rewrite orb_false_iff, !bool_decide_eq_false in E1. intros [[H1 H2]|?]; [by rewrite H1, H2 in E0|tauto]. }
  destruct (negb _ && match cer_key wp with _ => _ end) eqn:Ec.
  { apply (api_refuse _ _ _ m); try done. right. right. do 3 (split; [done|]). right. split; [done|]. left.
    unfold certified. rewrite <- token_test, Ec. done. }
  apply token_test in Ec. fold (certified cfg wp) in Ec.
  destruct (bool_decide (method ∈ _)) eqn:Em.
  { apply (api_pass _ _ m); try done. split; [done|]. right. split; [done|]. left. right. rewrite Ej. by apply bool_decide_eq_true in Em. }
  destruct (json_method_login_check cfg =? 0) eqn:El; cbn [negb].
  { apply (api_pass _ _ m); try done. split; [done|]. right. split; [done|]. left. left. by apply Z.eqb_eq. }
  assert (Hn : ~ open_method json cfg wp).
  { unfold open_method. rewrite Ej. apply Z.eqb_neq in El. apply bool_decide_eq_false in Em. tauto. }
  destruct (known_spec st Hst Hcl) as (b & st' & m' & E & Hb & Hst' & Hm').
  match goal with |- api_does (mbind _ ?x) => replace x with (Some (b, st')) by (symmetry; exact E) end. clear E.
  cbn [mbind option_bind]. destruct b.
  - replace (w_token (clear_cookie_flag wp)) with (w_token wp) by by destruct wp. pose proof (proj1 Hb eq_refl) as Hk.
    destruct (negb _ && match w_token wp with _ => _ end) eqn:Et.
    + apply (api_refuse _ _ _ m'); try done. right. right. do 3 (split; [done|]). right. split; [done|]. right. do 2 (split; [done|]).
      unfold token_right. rewrite <- token_test, Et. done.
    + apply token_test in Et. apply (api_pass _ _ m'); try done. split; [done|]. right. split; [done|]. by right.
  - apply (api_refuse _ _ _ m'); try done. right. right. do 3 (split; [done|]). left. do 3 (split; [done|]). intros Hk. by apply Hb in Hk.
Qed.
End ApiGuard.

(** A download does not change what is said of a request to the API. *)
Lemma api_guard json cfg st wp url path m :
  sec_ok st m -> client_ok wp -> referer_long wp -> api_path path = true ->
  api_does json cfg m wp (websSecurityHandler json cfg st wp url path).
Proof.
  intros Hst Hcl Href Hapi. unfold websSecurityHandler. fold (api_path path). rewrite Hapi. set (b := _ || _ || _).
  destruct b; [|by apply webapi_check_spec].
  assert (E : api_does json cfg m (wp <| isDownloadfile := 1 |>) (webapi_check json cfg st (wp <| isDownloadfile := 1 |>))).
  { destruct (download_same wp true) as (H1 & _ & _ & _ & H2 & _). apply webapi_check_spec; [done|by apply H1|by apply H2]. }
  by destruct wp.
Qed.


(** What the handler says to any request. *)
Definition verdict (json : cptr -> json_result) (cfg : web_config) (m : smap) (wp : websRec) (url path : list Z) (r : Z) (resp : response) : Prop :=
  if api_path path then api_verdict json cfg m wp r resp else page_verdict cfg m wp url path r resp.

Definition guard_passes (json : cptr -> json_result) (cfg : web_config) (m : smap) (wp : websRec) (url path : list Z) : Prop :=
  if api_path path then api_passes json cfg m wp else page_passes cfg m wp url path.

Lemma guard_decides json cfg st wp url path m : sec_ok st m -> client_ok wp -> referer_long wp ->
  exists r resp wp' st' m', websSecurityHandler json cfg st wp url path = Some (r, resp, wp', st') /\ sec_ok st' m' /\
    verdict json cfg m wp url path r resp /\ same_target wp wp'.
Proof.
  intros Hst Hcl Href. unfold verdict. destruct (api_path path) eqn:Ea.
  - destruct (api_guard json cfg st wp url path m Hst Hcl Href Ea) as (r & resp & wp' & st' & m' & H). exists r, resp, wp', st', m'. tauto.
  - destruct (page_guard json cfg st wp url path m Hst Hcl Href Ea) as (r & resp & wp' & st' & m' & H). exists r, resp, wp', st', m'. tauto.
Qed.

Lemma verdict_zero json cfg m wp url path r resp : verdict json cfg m wp url path r resp ->
  (r = 0 <-> guard_passes json cfg m wp url path) /\ (r = 0 \/ r = 1).
Proof.
  unfold verdict, guard_passes. destruct (api_path path).
  - unfold api_verdict, api_passes. intros H. split; [|tauto]. split; [|].
    + intros ->. by destruct H as [(_ & _ & H)|[(H & _)|(H & _)]].
    + intros Hp. destruct H as [(-> & _)|[(_ & _ & H)|(_ & _ & H)]]; [done|tauto|tauto].
  - intros H. split; [by eapply page_verdict_zero|]. unfold page_verdict in H. tauto.
Qed.

(** ** What the guard does not see *)

Lemma decode_plain c s : c <> 37 -> c <> 43 -> decode_url (c :: s) = c :: decode_url s.
Proof.
  intros H1 H2. rewrite decode_url_cons, (proj2 (Z.eqb_neq c 37)), (proj2 (Z.eqb_neq c 43)) by done. done.
Qed.

(** A free directory, and back. *)
Definition detour : list Z := str "/js/..".

Lemma clean_detour page : clean (detour ++ page) = detour ++ clean page.
Proof.
  unfold clean. change (detour ++ page) with (47 :: 106 :: 115 :: 47 :: 46 :: 46 :: page).
  rewrite !decode_plain by done. reflexivity.
Qed.

Lemma detour_tokens : token_ok (str "js") /\ token_ok (str "..").
Proof. by repeat split; vm_compute. Qed.

Lemma segments_detour s : segments (detour ++ 47 :: s) = str "js" :: str ".." :: segments s.
Proof.
  change (detour ++ 47 :: s) with ([47] ++ str "js" ++ 47 :: str ".." ++ 47 :: s).
  rewrite segments_slashes, segments_token, segments_token by (done || apply detour_tokens). done.
Qed.

Lemma clean_slash q : clean (47 :: q) = 47 :: clean q.
Proof. unfold clean. by rewrite decode_plain by done. Qed.

Lemma segments_slash s : segments (47 :: s) = segments s.
Proof. by apply (segments_slashes [47]). Qed.

Section Bypass.
Context (balloc : Z -> option (list Z)) (bstrdup : list Z -> cptr).
Hypothesis balloc_ok : forall n, 0 < n -> exists b, balloc n = Some b /\ zlen b = n.
Hypothesis bstrdup_ok : forall s, bstrdup s = Some s.

Lemma resolve_detour dir q ps : walk [] (segments (clean (47 :: q))) = Some ps -> ps <> [] ->
  resolve dir (detour ++ 47 :: q) = Some (dir ++ join ps).
Proof.
  intros Hw Hne. unfold resolve. rewrite clean_detour, clean_slash in *. rewrite segments_detour, segments_slash in *.
  cbn [walk]. change (MAX_URL_DEPTH <=? zlen []) with false. cbn iota.
  rewrite (decide_False (P := str "js" = str "..")), (decide_False (P := str "js" = str ".")) by done.
  change (MAX_URL_DEPTH <=? zlen ([] ++ [str "js"])) with false. cbn iota. rewrite decide_True by done.
  cbn [app removelast]. rewrite Hw. cbn [mbind option_bind]. rewrite (bool_decide_eq_false_2 (ps = [])) by done. cbn [andb].
  replace (strstr (head_path (detour ++ 47 :: clean q)) JRD_CFGBAK) with false; [done|].
  change (detour ++ 47 :: clean q) with ([47] ++ str "js" ++ 47 :: str ".." ++ 47 :: clean q).
  rewrite head_path_token; [by vm_compute|done|apply detour_tokens|right; eauto].
Qed.

(** C5. A page needs no login at all: put behind /js/.. it passes the handler for any client,
    whatever the sessions are, and the path that [websValidateUrl] opens is that of the
    page itself. *)
Theorem login_bypass json cfg st wp m dir q ps :
  sec_ok st m -> w_dir wp = Some dir -> dir <> [] -> no_nul dir -> no_nul q -> zlen JRD_WEBRC_CFGBAK <= zlen dir + 1 ->
  walk [] (segments (clean (47 :: q))) = Some ps -> ps <> [] ->
  (exists wp', websSecurityHandler json cfg st wp (detour ++ 47 :: q) (detour ++ 47 :: q) = Some (0, NoResponse, wp', st)) /\
  websValidateUrl balloc bstrdup wp (detour ++ 47 :: q) =
    Some (0, websSetRequestLpath bstrdup wp (Some (dir ++ join ps))).
Proof using All.
  intros Hst Hd Hd0 Hdn Hq Hfit Hw Hps. split.
  - unfold websSecurityHandler. set (b := _ || _ || _).
    change (starts_with (str "/jrd/webapi") (detour ++ 47 :: q)) with false.
    change (starts_with (str "/goform") (detour ++ 47 :: q) || starts_with (str "/cfgbak") (detour ++ 47 :: q)) with false.
    cbn iota. unfold page_check. rewrite (so_dirs _ _ Hst), is_free_init by apply tables_no_nul.
    replace (free_text (names g_freeAccessDirs) (detour ++ 47 :: q)) with true; [by eexists|].
    symmetry. apply existsb_exists. exists (str "/js/"). split; [right; by left|]. apply starts_with_spec. by exists (str ".." ++ 47 :: q).
  - rewrite (validate_resolve balloc bstrdup balloc_ok bstrdup_ok wp dir) by (try done; repeat (constructor; [done|]); done).
    by rewrite (resolve_detour dir q ps Hw Hps).
Qed.
End Bypass.

(** ** Examples *)

Definition demo_config : web_config := mkWebConfig (str "router.home") (str "192.168.1.1") (str "12345678") 1 0 false.
Definition demo_security : security :=
  websInitSessionInfo (mkSecurity g_freeAccessDirs g_freeAccessPages (repeat 0 260) 0 demo_sessions).

(** The method of a request, for the examples: its whole text. *)
Definition demo_json (d : cptr) : json_result := match d with Some t => JMethod t | None => JError end.

Definition visitor (ref : cptr) (method : cptr) : websRec :=
  mkWebs (str "10.0.0.2") (Some web_root) None None None None ref 0 0 0 0 ∅ [] method None None 0 None 0 None [].

Lemma demo_security_ok : sec_ok demo_security ∅.
Proof. constructor; [done|done|done|exact demo_sessions_ok]. Qed.

Lemma visitor_ok ref method : client_ok (visitor ref method).
Proof. split; [apply (bool_decide_unpack _); by vm_compute|done]. Qed.

(** Without a login: not the settings, but the pictures. *)
Lemma security_page_guard_witness :
  (exists r resp wp' st', websSecurityHandler demo_json demo_config demo_security (visitor None None) (str "/settings.html") (str "/settings.html") =
     Some (r, resp, wp', st') /\ r <> 0) /\
  exists r resp wp' st', websSecurityHandler demo_json demo_config demo_security (visitor None None) (str "/images/a.png") (str "/images/a.png") =
     Some (r, resp, wp', st') /\ r = 0.
Proof.
  split.
  - destruct (security_page_guard demo_json demo_config demo_security (visitor None None) (str "/settings.html") (str "/settings.html") ∅
      demo_security_ok (visitor_ok _ _) I eq_refl) as (r & resp & wp' & st' & m' & E & _ & H & _).
    exists r, resp, wp', st'. split; [exact E|]. intros Hr. apply H in Hr as [_ [Hr|Hr]]; vm_compute in Hr; discriminate Hr.
  - destruct (security_page_guard demo_json demo_config demo_security (visitor None None) (str "/images/a.png") (str "/images/a.png") ∅
      demo_security_ok (visitor_ok _ _) I eq_refl) as (r & resp & wp' & st' & m' & E & _ & H & _).
    exists r, resp, wp', st'. split; [exact E|]. apply H. split; [intros Hf; vm_compute in Hf; discriminate Hf|left; reflexivity].
Defined.




Lemma login_bypass_witness :
  (exists wp', websSecurityHandler demo_json demo_config demo_security (visitor None None)
     (str "/js/../settings.html") (str "/js/../settings.html") = Some (0, NoResponse, wp', demo_security)) /\
  (fun r => w_lpath (snd r)) <$> websValidateUrl demo_balloc Some (visitor None None) (str "/js/../settings.html") =
    Some (Some (web_root ++ str "/settings.html")).
Proof.
  destruct (login_bypass demo_balloc Some url_balloc_ok (fun _ => eq_refl) demo_json demo_config demo_security (visitor None None) ∅
    web_root (str "settings.html") [str "settings.html"] demo_security_ok) as [H1 H2].
  - reflexivity.
  - discriminate.
  - apply (bool_decide_unpack _). vm_compute. reflexivity.
  - apply (bool_decide_unpack _). vm_compute. reflexivity.
  - vm_compute. discriminate.
  - vm_compute. reflexivity.
  - discriminate.
  - split; [exact H1|].
    change (str "/js/../settings.html") with (detour ++ 47 :: str "settings.html"). rewrite H2. reflexivity.
Defined.

(** After the identifier 255 comes 0, which stands for no session. *)
Example cookie_wraps :
  (fun r => (g_cSessionPC (fst r), cookiebuf (snd r))) <$>
    websSetCookie (demo_security <| g_cSessionPC := 255 |>) (visitor None None) 0 = Some (0, str "egoid=0; Path=/; ego").
Proof. vm_compute. reflexivity. Qed.

(** A text that is not JSON passes. *)
Example no_json_passes :
  (fun r => fst (fst (fst r))) <$> websSecurityHandler demo_json demo_config demo_security
    (visitor (Some (str "http://192.168.1.1/home.html")) None) (str "/jrd/webapi") (str "/jrd/webapi") = Some 0.
Proof. vm_compute. reflexivity. Qed.
