(* ===== verification/Crypt.v ===== *)
(** * The passwords in transit (webs/src/src/webs_define.c, [jrd_encrypt], [jrd_decrypt])

    The pages send the user name and the password with the halves of each byte mixed with
    a fixed key.  A string is a block of bytes that holds a NUL; [char] is signed or not,
    as the machine has it.  [malloc] gives a block of the size asked for, or [None]. *)

From S2P Require Import Prelude CString Url UrlSpec.
#[local] Open Scope Z_scope.
#[local] Open Scope cint_scope.

Definition jrd_key : list Z := str "e5dl12XYVggihggafXWf0f2YSf2Xngd1".

(** [s\[i\]] as an [int]; [char_signed] tells the kind of [char]. *)
Definition char_int (char_signed : bool) (c : Z) : Z := if char_signed then swrap 8 c else c.

Section Crypt.
Context (malloc : Z -> option (list Z)) (char_signed : bool).

Definition char_at (s : list Z) (i : Z) : option Z := c ← load s i; Some (char_int char_signed c).

(** The key byte for the index [i]. *)
Definition key_at (i : Z) : Z := zget jrd_key (i mod zlen jrd_key).

Fixpoint encrypt_loop (k : nat) (source tmp_str : list Z) (i : Z) : option (list Z) :=
  match k with
  | O => Some tmp_str
  | S k =>
      c ← char_at source i;
      let key := key_at i in
      tmp_str ← store tmp_str (2 * i) (u8 (Z.lor (Z.land key 240) (Z.lxor (Z.land c 15) (Z.land key 15))));
      tmp_str ← store tmp_str (2 * i + 1) (u8 (Z.lor (Z.land key 240) (Z.lxor (Z.shiftr c 4) (Z.land key 15))));
      encrypt_loop k source tmp_str (i + 1)
  end.

(** [pass] is read for its length only. *)
Definition jrd_encrypt (source pass : list Z) : option (list Z) :=
  source_length ← strlen source;
  _ ← strlen pass;
  tmp_str ← malloc (2 * (source_length + 1));
  let tmp_str := bput tmp_str 0 (repeat 0 (Z.to_nat (2 * (source_length + 1)))) in
  encrypt_loop (Z.to_nat source_length) source tmp_str 0.

(** The loop takes two bytes in each round: [i] is stepped in its body as well. *)
Fixpoint decrypt_loop (fuel : nat) (source tmp_str : list Z) (i source_length : Z) : option (list Z) :=
  match fuel with
  | O => None
  | S fuel =>
      if i <? source_length then
        let new_i := if i =? 0 then 0 else Z.quot i 2 in
        c1 ← char_at source (i + 1);
        c0 ← char_at source i;
        let key := key_at new_i in
        tmp_str ← store tmp_str new_i (u8 (Z.lor (Z.shiftl (Z.lxor c1 key) 4) (Z.land (Z.lxor c0 key) 15)));
        decrypt_loop fuel source tmp_str (i + 1 + 1) source_length
      else Some tmp_str
  end.

Definition jrd_decrypt (source : option (list Z)) : option (option (list Z)) :=
  match source with
  | None => Some None
  | Some source =>
      source_length ← strlen source;
      tmp_str ← malloc (source_length + 1);
      let tmp_str := bput tmp_str 0 (repeat 0 (Z.to_nat (source_length + 1))) in
      tmp_str ← decrypt_loop (S (Z.to_nat source_length)) source tmp_str 0 source_length;
      Some (Some tmp_str)
  end.

End Crypt.

(** ** The two bytes of a character *)

Definition lo_byte (key c : Z) : Z := u8 (Z.lor (Z.land key 240) (Z.lxor (Z.land c 15) (Z.land key 15))).
Definition hi_byte (key c : Z) : Z := u8 (Z.lor (Z.land key 240) (Z.lxor (Z.shiftr c 4) (Z.land key 15))).
Definition joined (key c0 c1 : Z) : Z := u8 (Z.lor (Z.shiftl (Z.lxor c1 key) 4) (Z.land (Z.lxor c0 key) 15)).

Definition pair_ok (char_signed : bool) (key c : Z) : bool :=
  let lo := lo_byte key (char_int char_signed c) in
  let hi := hi_byte key (char_int char_signed c) in
  (joined key (char_int char_signed lo) (char_int char_signed hi) =? c) && negb (lo =? 0) && negb (hi =? 0).

Lemma pairs_ok char_signed : forallb (fun key => forallb (pair_ok char_signed key) (seqZ 0 256)) jrd_key = true.
Proof. destruct char_signed; vm_compute; reflexivity. Qed.

Lemma key_at_in i : In (key_at i) jrd_key.
Proof.
  unfold key_at, zget. apply nth_In. pose proof (Z.mod_pos_bound i (zlen jrd_key) eq_refl). lia.
Qed.

Section CryptSpec.
Context (malloc : Z -> option (list Z)) (char_signed : bool).
Hypothesis malloc_ok : forall n, 0 < n -> exists b, malloc n = Some b /\ zlen b = n.

Lemma pair_ok_at i c : 0 <= c < 256 -> pair_ok char_signed (key_at i) c = true.
Proof.
  intros Hc. pose proof (pairs_ok char_signed) as H. rewrite forallb_forall in H.
  specialize (H _ (key_at_in i)). rewrite forallb_forall in H. apply H, list_elem_of_In, elem_of_seqZ. lia.
Qed.

(** The text of an encrypted string, from the index [i] on. *)
Fixpoint cipher (i : Z) (s : list Z) : list Z :=
  match s with
  | [] => []
  | c :: s => lo_byte (key_at i) (char_int char_signed c) :: hi_byte (key_at i) (char_int char_signed c) :: cipher (i + 1) s
  end.

Lemma length_cipher i s : zlen (cipher i s) = 2 * zlen s.
Proof. revert i. induction s as [|c s IH]; intros i; cbn [cipher length]; [lia|]. specialize (IH (i + 1)). lia. Qed.

Lemma cipher_no_nul i s : Forall (fun c => 0 <= c < 256) s -> no_nul (cipher i s).
Proof.
  intros Hs. revert i. induction Hs as [|c s Hc _ IH]; intros i; cbn [cipher]; [constructor|].
  pose proof (pair_ok_at i c Hc) as Hp. unfold pair_ok in Hp. apply andb_true_iff in Hp as [[_ H0]%andb_true_iff H1].
  constructor; [intros E; by rewrite E in H0|]. constructor; [intros E; by rewrite E in H1|]. apply IH.
Qed.

(** The byte behind the next one. *)
Lemma load_next b x c l i : i = zlen b + 1 -> load (b ++ x :: c :: l) i = Some c.
Proof.
  intros ->. change (x :: c :: l) with ([x] ++ c :: l). rewrite (assoc_L (++)). apply load_at. rewrite length_app. cbn [length]. lia.
Qed.
Lemma store_next b x c l v i : i = zlen b + 1 -> store (b ++ x :: c :: l) i v = Some (b ++ x :: v :: l).
Proof.
  intros ->. change (x :: c :: l) with ([x] ++ c :: l). rewrite (assoc_L (++)).
  rewrite (store_at (b ++ [x])) by (rewrite length_app; cbn [length]; lia). by rewrite <- (assoc_L (++)).
Qed.

Lemma encrypt_loop_spec s : forall pre post d z t k,
  zlen d = 2 * zlen pre -> k = length s ->
  zlen z = 2 * zlen s ->
  encrypt_loop char_signed k (pre ++ s ++ post) (d ++ z ++ t) (zlen pre) = Some (d ++ cipher (zlen pre) s ++ t).
Proof.
  induction s as [|c s IH]; intros pre post d z t k Hd -> Hz; cbn [length encrypt_loop cipher].
  - by destruct z.
  - destruct z as [|z0 [|z1 z]]; cbn [length] in Hz; [lia..|]. unfold char_at.
    cbn [app]. rewrite load_app. cbn [mbind option_bind].
    rewrite (store_at d z0 _ _ (2 * zlen pre)) by lia. cbn [mbind option_bind].
    rewrite (store_next d _ z1) by lia. cbn [mbind option_bind].
    pose proof (IH (pre ++ [c]) post (d ++ [lo_byte (key_at (zlen pre)) (char_int char_signed c); hi_byte (key_at (zlen pre)) (char_int char_signed c)]) z t (length s)) as IH'.
    rewrite !length_app, !Nat2Z.inj_add in IH'. cbn [length] in IH'. rewrite <- !(assoc_L (++)) in IH'. cbn [app] in IH'.
    apply IH'; [lia|done|lia].
Qed.

Lemma malloc_zero n : 0 < n -> exists b, malloc n = Some b /\ bput b 0 (repeat 0 (Z.to_nat n)) = repeat 0 (Z.to_nat n).
Proof using All.
  intros Hn. destruct (malloc_ok n Hn) as (b & -> & Hb). exists b. split; [done|].
  unfold bput. rewrite drop_ge; [by rewrite app_nil_r|]. rewrite repeat_length. lia.
Qed.

Lemma jrd_encrypt_cipher s rest pass : no_nul s -> no_nul pass ->
  jrd_encrypt malloc char_signed (s ++ 0 :: rest) (pass ++ [0]) = Some (cipher 0 s ++ [0; 0]).
Proof using All.
  intros Hs Hp. unfold jrd_encrypt, strlen. rewrite !cstr_app by done. cbn [mbind option_bind].
  destruct (malloc_zero (2 * (zlen s + 1))) as (b & -> & Hb); [lia|]. cbn [mbind option_bind]. rewrite Hb.
  replace (repeat 0 (Z.to_nat (2 * (zlen s + 1)))) with (repeat 0 (2 * length s) ++ [0; 0]).
  - apply (encrypt_loop_spec s [] (0 :: rest) [] (repeat 0 (2 * length s)) [0; 0]); [done|lia|]. rewrite repeat_length. lia.
  - change [0; 0] with (repeat 0 2). rewrite <- repeat_app. f_equal. lia.
Qed.

Lemma decrypt_loop_spec s : forall pre post d t fuel src, src = pre ++ cipher (zlen d) s ++ 0 :: post ->
  Forall (fun c => 0 <= c < 256) s -> zlen pre = 2 * zlen d -> (length s < fuel)%nat ->
  decrypt_loop char_signed fuel src (d ++ repeat 0 (length s) ++ t) (zlen pre) (zlen pre + 2 * zlen s) =
    Some (d ++ s ++ t).
Proof.
  induction s as [|c s IH]; intros pre post d t fuel src Hsrc Hs Hd Hf; (destruct fuel as [|fuel]; [lia|]); cbn [decrypt_loop length].
  - by rewrite Z.add_0_r, Z.ltb_irrefl.
  - replace (zlen pre <? _) with true by zb. cbn [cipher app repeat length] in *. apply Forall_cons_iff in Hs as [Hc Hs].
    set (lo := lo_byte _ _) in *. set (hi := hi_byte _ _) in *.
    assert (E1 : load src (zlen pre + 1) = Some hi).
    { rewrite Hsrc. by apply load_next. }
    assert (E0 : load src (zlen pre) = Some lo) by (rewrite Hsrc; apply load_app).
    replace (if zlen pre =? 0 then 0 else Z.quot (zlen pre) 2) with (zlen d).
    2: { destruct (Z.eqb_spec (zlen pre) 0); [lia|]. rewrite Hd, Z.mul_comm, Z.quot_mul; lia. }
    unfold char_at. rewrite E1. cbn [mbind option_bind]. rewrite E0. cbn [mbind option_bind].
    pose proof (pair_ok_at (zlen d) c Hc) as Hp. unfold pair_ok in Hp. fold lo hi in Hp.
    apply andb_true_iff in Hp as [[Hp _]%andb_true_iff _]. apply Z.eqb_eq in Hp. unfold joined in Hp. rewrite Hp.
    rewrite store_app. cbn [mbind option_bind].
    pose proof (IH (pre ++ [lo; hi]) post (d ++ [c]) t fuel src) as IH'.
    rewrite !length_app, !Nat2Z.inj_add in IH'. cbn [length] in IH'. rewrite <- !(assoc_L (++)) in IH'. cbn [app] in IH'.
    rewrite <- IH'; [|by rewrite Hsrc|done|lia|lia]. f_equal; lia.
Qed.

(** C26. What [jrd_decrypt] makes of the text of [jrd_encrypt] is the original string: for
    any bytes without a NUL, whether [char] is signed or not, and whatever the string
    [pass] is, which the cipher does not use. *)
Theorem jrd_decrypt_encrypt s rest pass : no_nul s -> Forall (fun c => 0 <= c < 256) s -> no_nul pass ->
  exists e t, jrd_encrypt malloc char_signed (s ++ 0 :: rest) (pass ++ [0]) = Some e /\
    jrd_decrypt malloc char_signed (Some e) = Some (Some (s ++ 0 :: t)).
Proof using All.
  intros Hn Hs Hp. rewrite jrd_encrypt_cipher by done. exists (cipher 0 s ++ [0; 0]), (repeat 0 (length s)). split; [done|].
  unfold jrd_decrypt, strlen. rewrite cstr_app by by apply cipher_no_nul. cbn [mbind option_bind].
  destruct (malloc_zero (zlen (cipher 0 s) + 1)) as (b & -> & Hb); [lia|]. cbn [mbind option_bind]. rewrite Hb.
  rewrite length_cipher. replace (repeat 0 (Z.to_nat (2 * zlen s + 1))) with (repeat 0 (length s) ++ 0 :: repeat 0 (length s)).
  - pose proof (decrypt_loop_spec s [] [0] [] (0 :: repeat 0 (length s)) (S (Z.to_nat (2 * zlen s))) (cipher 0 s ++ [0; 0])) as H.
    cbn [length app] in H. change (Z.of_nat 0) with 0 in H. rewrite Z.add_0_l in H. rewrite H; [done..|lia].
  - change (0 :: repeat 0 (length s)) with (repeat 0 (S (length s))). rewrite <- repeat_app. f_equal. lia.
Qed.

(** ** Any string can be decrypted *)

Lemma char_at_some src i : 0 <= i < zlen src -> exists c, char_at char_signed src i = Some c.
Proof.
  intros Hi. unfold char_at, load. replace (0 <=? i) with true by zb.
  destruct (lookup_lt_is_Some_2 src (Z.to_nat i)) as [c ->]; [lia|]. by eexists.
Qed.

(** The NUL at the end of the new block stays. *)
Lemma decrypt_loop_total fuel : forall src b n i, n + 1 <= zlen src -> zlen b = n + 1 -> b !! Z.to_nat n = Some 0 ->
  0 <= i -> (Z.to_nat (n - i) < fuel)%nat ->
  exists b', decrypt_loop char_signed fuel src b i n = Some b' /\ b' !! Z.to_nat n = Some 0.
Proof.
  induction fuel as [|fuel IH]; intros src b n i Hsrc Hb H0 Hi Hf; [lia|]. cbn [decrypt_loop].
  destruct (Z.ltb_spec i n); [|by exists b].
  destruct (char_at_some src (i + 1)) as [c1 ->]; [lia|]. destruct (char_at_some src i) as [c0 ->]; [lia|]. cbn [mbind option_bind].
  assert (Hq : 0 <= (if i =? 0 then 0 else Z.quot i 2) < n).
  { destruct (Z.eqb_spec i 0); [lia|]. rewrite Z.quot_div_nonneg by lia. split; [apply Z.div_pos|apply Z.div_lt_upper_bound]; lia. }
  set (q := if i =? 0 then 0 else Z.quot i 2) in *. unfold store.
  replace ((0 <=? q) && (q <? zlen b)) with true by (symmetry; apply andb_true_intro; split; zb). cbn [mbind option_bind].
  apply IH; [done|by rewrite length_insert|rewrite list_lookup_insert_ne; [done|lia]|lia|lia].
Qed.

Lemma cstr_total b k : b !! k = Some 0 -> exists s, cstr b = Some s.
Proof.
  revert k. induction b as [|c b IH]; intros k Hk; [done|]. cbn. destruct (Z.eqb_spec c 0); [by eexists|].
  destruct k as [|k]; cbn in Hk; [congruence|]. destruct (IH k Hk) as [s ->]. by eexists.
Qed.

Lemma jrd_decrypt_total s rest : no_nul s ->
  exists b t, jrd_decrypt malloc char_signed (Some (s ++ 0 :: rest)) = Some (Some b) /\ cstr b = Some t.
Proof using All.
  intros Hs. unfold jrd_decrypt, strlen. rewrite cstr_app by done. cbn [mbind option_bind].
  destruct (malloc_zero (zlen s + 1)) as (b & -> & Hb); [lia|]. cbn [mbind option_bind]. rewrite Hb.
  destruct (decrypt_loop_total (S (Z.to_nat (zlen s))) (s ++ 0 :: rest) (repeat 0 (Z.to_nat (zlen s + 1))) (zlen s) 0) as (b' & -> & H0);
    rewrite ?length_app, ?repeat_length; cbn [length]; try lia.
  - rewrite repeat_replicate. apply lookup_replicate_2. lia.
  - cbn [mbind option_bind]. destruct (cstr_total _ _ H0) as [t Ht]. by exists b', t.
Qed.
End CryptSpec.

Lemma jrd_decrypt_encrypt_witness :
  exists e, jrd_encrypt demo_balloc true (str "admin" ++ [0]) (str "key" ++ [0]) = Some (e ++ [0; 0]) /\
    exists t, jrd_decrypt demo_balloc true (Some (e ++ [0; 0])) = Some (Some (str "admin" ++ 0 :: t)).
Proof.
  destruct (jrd_decrypt_encrypt demo_balloc true url_balloc_ok (str "admin") [] (str "key")) as (e & t & E & D).
  - apply (bool_decide_unpack _). by vm_compute.
  - apply (bool_decide_unpack _). by vm_compute.
  - apply (bool_decide_unpack _). by vm_compute.
  - exists (str "dc13ibej?7"). assert (e = str "dc13ibej?7" ++ [0; 0]) as ->.
    { vm_compute in E. injection E as <-. vm_compute. reflexivity. }
    split; [exact E|]. exists t. exact D.
Defined.
