(* ===== verification/Login.v ===== *)
(** * Logging in and out (webs/src/src/webs_define.c, win_web_api_pro.c)

    The handlers of the login requests: the check of the password, the count of failures
    with its lock, the one session that is logged in, and the timers.  The sessions are
    those of [Session].  The parameters of a request are what its parser found, or [None];
    [malloc] gives the blocks of [jrd_decrypt]; [rand] is what [rand()] gave; [timer_ok] tells whether [jrd_timer_start] can start a
    timer.  Writing the address of the client to a file and the answer to the socket are
    left out.  [None] is a crash. *)

From stdpp Require Import gmap.
From S2P Require Import Prelude CString Handles SymTab Url Session Crypt.
#[local] Open Scope Z_scope.
#[local] Open Scope cint_scope.

Inductive webs_login_state : Type :=
  | WEBS_LOGOUT | WEBS_LOGIN_FAILED | WEBS_LOGIN_OTHER | WEBS_LOGIN_MORE
  | WEBS_LOGIN_GUEST | WEBS_LOGIN_SUCESS | WEBS_LOGIN_LIMIT | WEBS_LOGIN_ALREADY_LOGIN.

Inductive e_jrd_webs_password_state : Type :=
  | E_WEBS_UI_PW_DEFAULT | E_WEBS_UI_PW_NOT_NEEDED | E_WEBS_UI_PW_NEEDED.

Inductive e_jrd_webs_login_state : Type :=
  | E_WEBS_LOGIN_STATE_LOGOUT | E_WEBS_LOGIN_STATE_LOGIN | E_WEBS_LOGIN_STATE_USED_OUT.

(** The settings of [g_webs_data] that the login reads. *)
Record webs_data : Type := mkWebsData {
  username : list Z;
  password : list Z;
  lock_web_ui : Z;
  max_retry_times : Z;
  unlock_time : Z;
  webs_recover_time : Z;
  webs_security : Z;
  webs_pw_username_encrypt : Z;
  webs_uipwstate : e_jrd_webs_password_state
}.

(** A thread that runs [Login_fail_time_count]: not started, or with its [i]. *)
Inductive count_thread : Type := TNew | TAt (i : Z).

(** [locked_time] is [json_get_login_state_params\[2\].u.val], [check_timer] says whether
    [timer_check_login_time] runs. *)
Record login_sys : Type := mkLogin {
  lg : sessions;
  g_login_fail_count : Z;
  g_login_fail_time_count : Z;
  count_threads : list count_thread;
  login_timer_start : Z;
  check_timer : bool;
  locked_time : Z;
  jrd_webs_token : Z
}.

Section Login.
Context (strdup : cstring -> option cstring) (new_cell : gmap Z sym_t -> Z) (beyond : Z).
Context (malloc : Z -> option (list Z)) (char_signed : bool).
Context (timer_ok : bool).
Context (g_webs_data : webs_data).

(** ** The API of win_web_api_pro.c *)

Definition ASPE_userLogin (s : sessions) (wp : websRec) (bloginFailed : e_login_status_type) : option sessions :=
  EGOSM_setSessionInfo strdup new_cell beyond s wp bloginFailed.
Definition ASPE_userLogout (s : sessions) (wp : websRec) : option (Z * sessions) := EGOSM_clearSessionInfo s wp.
Definition ASPE_getSessionID (s : sessions) (wp : websRec) : option Z := EGOSM_getSessionID s wp.
Definition ASPE_getPeerInfo (wp : websRec) : Z * list Z * exploreTypeE := EGOSM_getPeerInfo wp.
Definition ASPE_getFirstSessionInfo (s : sessions) (pstrIp : list Z) : option (Z * list Z * Z * sessions) :=
  EGOSM_getFirstSessionInfo beyond s pstrIp.
Definition ASPE_getNextSessionInfo (s : sessions) (pstrIp : list Z) : option (Z * list Z * Z * sessions) :=
  EGOSM_getNextSessionInfo beyond s pstrIp.
Definition ASPE_getLoginFailCnt (s : sessions) (wp : websRec) : option Z := EGOSM_getLoginFailCnt s wp.
Definition ASPE_setLoginFailCnt (s : sessions) (wp : websRec) (cnt : Z) : option (Z * sessions) :=
  EGOSM_setLoginFailCnt strdup new_cell s wp cnt.

(** ** Who is logged in *)

Fixpoint hasUserLogined_loop (fuel : nat) (s : sessions) (pstrIp : list Z) : option (bool * list Z * sessions) :=
  match fuel with
  | O => None
  | S fuel =>
      '(r, pstrIp, id, s) ← ASPE_getNextSessionInfo s pstrIp;
      if r =? 1 then
        if id =? 5 then Some (true, pstrIp, s) else hasUserLogined_loop fuel s pstrIp
      else Some (false, pstrIp, s)
  end.

Definition hasUserLogined (s : sessions) (pstrIp : list Z) : option (bool * list Z * sessions) :=
  '(r, pstrIp, id, s) ← ASPE_getFirstSessionInfo s pstrIp;
  if r =? 1 then
    if id =? 5 then Some (true, pstrIp, s) else hasUserLogined_loop (walk_fuel s) s pstrIp
  else Some (false, pstrIp, s).

(** The address of the client in its 20 bytes, and the name made of it. *)
Definition peer_name (wp : websRec) : option (list Z) :=
  let '(_, ip_str2, browser_type2) := ASPE_getPeerInfo wp in
  if zlen ip_str2 <? 20 then
    let name := ip_str2 ++ str "_" ++ [48 + explore_int browser_type2] in
    if zlen name <? 20 then Some name else None
  else None.

(** ** Logging in *)

Definition start_login_timer (s : sessions) : sessions := if timer_ok then s <| login_timer := true |> else s.

Definition webs_set_login (st : login_sys) (wp : websRec) (user pass : list Z) (blForce : bool)
  : option (webs_login_state * login_sys) :=
  if negb (lock_web_ui g_webs_data =? 0) && (max_retry_times g_webs_data <=? g_login_fail_count st) then
    Some (WEBS_LOGIN_LIMIT, st)
  else if negb (bool_decide (user = username g_webs_data) && bool_decide (pass = password g_webs_data)) then
    let st := st <| g_login_fail_count := s32 (g_login_fail_count st + 1) |> in
    if negb (lock_web_ui g_webs_data =? 0) && (max_retry_times g_webs_data =? g_login_fail_count st) then
      if unlock_time g_webs_data =? -1 then Some (WEBS_LOGIN_FAILED, st)
      else Some (WEBS_LOGIN_FAILED, st <| count_threads := count_threads st ++ [TNew] |>)
    else Some (WEBS_LOGIN_FAILED, st)
  else
    '(logged, ip_browser_str, s) ← hasUserLogined (lg st) (repeat 0 20);
    let st := st <| lg := s |> in
    refuse ← (if logged : bool then
                ip_browser_str2 ← peer_name wp;
                ip_browser_str ← cstr ip_browser_str;
                if bool_decide (ip_browser_str = ip_browser_str2) then
                  Some (Some (WEBS_LOGIN_ALREADY_LOGIN, st))
                else if negb blForce then
                  s ← ASPE_userLogin (lg st) wp E_LOGIN_OTHER_HAS_LOGIN;
                  Some (Some (WEBS_LOGIN_OTHER, st <| lg := s |>))
                else Some None
              else Some None);
    match refuse with
    | Some r => Some r
    | None =>
        s ← (if blForce then ASPE_userLogin (set_timer_clean (lg st)) wp E_LOGIN_FORCE_LOGIN_SUCCESS
             else ASPE_userLogin (lg st) wp E_LOGIN_SUCCESS);
        let '(_, ip_str, _) := ASPE_getPeerInfo wp in
        if zlen ip_str <? 20 then
          '(_, s) ← ASPE_setLoginFailCnt s wp 0;
          let s := start_login_timer s in
          Some (WEBS_LOGIN_SUCESS, st <| lg := s |> <| g_login_fail_count := 0 |>)
        else None
    end.

(** ** The requests *)

(** [rand() % (100000000-10000000) + 10000000] *)
Definition new_token (rand : Z) : Z := rand mod (100000000 - 10000000) + 10000000.

(** A parameter after [jrd_decrypt], copied back into its place: it is not longer than it was. *)
Definition decrypted (s : list Z) : option (list Z) :=
  t ← jrd_decrypt malloc char_signed (Some (s ++ [0]));
  match t with Some b => cstr b | None => None end.

Definition json_webs_set_login_security (st : login_sys) (wp : websRec) (params : option (list Z * list Z)) (rand : Z)
  : option (Z * login_sys) :=
  match params with
  | None => Some (-32700, st)
  | Some (user, pass) =>
      '(user, pass) ← (if negb (webs_pw_username_encrypt g_webs_data =? 0) then
                         usr_name ← decrypted user; password ← decrypted pass; Some (usr_name, password)
                       else Some (user, pass));
      '(login_ret, st) ← webs_set_login st wp user pass true;
      match login_ret with
      | WEBS_LOGIN_SUCESS => Some (0, st <| jrd_webs_token := new_token rand |>)
      | WEBS_LOGIN_ALREADY_LOGIN => Some (0, st)
      | WEBS_LOGIN_LIMIT => Some (10103, st)
      | WEBS_LOGIN_OTHER => Some (10102, st)
      | _ => Some (10101, st)
      end
  end.

Definition json_webs_force_login (st : login_sys) (wp : websRec) (params : option (list Z * list Z))
  : option (Z * login_sys) :=
  match params with
  | None => Some (-32700, st)
  | Some (user, pass) =>
      '(login_ret, st) ← webs_set_login st wp user pass true;
      match login_ret with
      | WEBS_LOGIN_SUCESS => Some (0, st)
      | WEBS_LOGIN_LIMIT => Some (10602, st)
      | _ => Some (10601, st)
      end
  end.

Definition json_webs_set_logout (st : login_sys) (wp : websRec) (rand : Z) : option login_sys :=
  '(r, s) ← ASPE_userLogout (lg st) wp;
  let st := st <| lg := s |> in
  if negb (r =? 0) then Some st
  else Some (st <| lg := set_timer_clean (lg st) |> <| jrd_webs_token := new_token rand |>).

(** A request of the older pages that lacks its token, where one is asked for. *)
Definition tn_refused (wp : websRec) : bool := (webs_security g_webs_data =? 1) && (token_flag wp =? 0).

Definition WEBS_GET_UIPARA_WRONG : Z := 3.
Definition WEBS_SET_SUCCESS : Z := 0.

(** The result of the login, and whether the request was well formed. *)
Definition tn_webs_set_login (st : login_sys) (wp : websRec) (params : option (list Z * list Z))
  : option (webs_login_state * Z * login_sys) :=
  if tn_refused wp then Some (WEBS_LOGOUT, 255, st)
  else
    match params with
    | None => Some (WEBS_LOGOUT, WEBS_GET_UIPARA_WRONG, st)
    | Some (user, pass) =>
        '(login_status, st) ← webs_set_login st wp user pass true; Some (login_status, WEBS_SET_SUCCESS, st)
    end.

Definition tn_webs_set_logout (st : login_sys) (wp : websRec) : option (Z * login_sys) :=
  if tn_refused wp then Some (255, st)
  else
    '(_, s) ← ASPE_userLogout (lg st) wp;
    Some (WEBS_SET_SUCCESS, st <| lg := set_timer_clean s |>).

Definition tn_webs_get_login_state (st : login_sys) (wp : websRec) : option Z := ASPE_getSessionID (lg st) wp.

Definition json_webs_heart_beat (st : login_sys) (wp : websRec) : option login_sys :=
  '(r, s) ← EGOSM_isUserLogined (lg st) wp;
  if 1 =? r then
    '(_, s) ← EGOSM_resetSessionHeartbeat s wp;
    Some (st <| lg := s |>)
  else Some (st <| lg := s |>).

(** The state of the login, and the number of tries left. *)
Definition json_webs_get_login_state (st : login_sys) (wp : websRec)
  : option (e_jrd_webs_login_state * Z * login_sys) :=
  let left st := s32 (max_retry_times g_webs_data - g_login_fail_count st) in
  match webs_uipwstate g_webs_data with
  | E_WEBS_UI_PW_NOT_NEEDED => Some (E_WEBS_LOGIN_STATE_LOGIN, left st, st)
  | _ =>
      id ← ASPE_getSessionID (lg st) wp;
      let login_status :=
        if id =? SESSIONID_FOR_LOGIN_SUCCESS then E_WEBS_LOGIN_STATE_LOGIN
        else if max_retry_times g_webs_data <=? g_login_fail_count st then E_WEBS_LOGIN_STATE_USED_OUT
        else E_WEBS_LOGIN_STATE_LOGOUT in
      let st :=
        if (max_retry_times g_webs_data <=? g_login_fail_count st) && negb (webs_recover_time g_webs_data =? 0)
           && (login_timer_start st =? 0)
        then (st <| login_timer_start := 1 |>) <| check_timer := check_timer st || timer_ok |>
        else st in
      Some (login_status, left st, st)
  end.

(** The token that [json_webs_get_Token] answers. *)
Definition json_webs_get_Token (st : login_sys) (wp : websRec) : option (Z * login_sys) :=
  match webs_uipwstate g_webs_data with
  | E_WEBS_UI_PW_NOT_NEEDED => Some (jrd_webs_token st, st)
  | _ =>
      '(logged, ip_str, s) ← hasUserLogined (lg st) (repeat 0 20);
      let st := st <| lg := s |> in
      if logged : bool then
        let '(_, ip_str2, _) := ASPE_getPeerInfo wp in
        if zlen ip_str2 <? 20 then
          ip_str ← cstr ip_str;
          Some (if bool_decide (ip_str = ip_str2) then jrd_webs_token st else 0, st)
        else None
      else Some (0, st)
  end.

(** ** The timers *)

(** A second of [timer_check_login_time]. *)
Definition jrd_oem_webui_check_time (st : login_sys) : login_sys :=
  let st := st <| locked_time := s32 (locked_time st + 1) |> in
  if webs_recover_time g_webs_data <? locked_time st then
    ((st <| check_timer := false |> <| g_login_fail_count := 0 |>) <| login_timer_start := 0 |>) <| locked_time := 0 |>
  else st.

(** A thread goes on: to its first [sleep], over a second, or to its end. *)
Definition Login_fail_time_count (st : login_sys) (j : nat) : option login_sys :=
  t ← count_threads st !! j;
  let st := match t with TNew => st <| g_login_fail_time_count := 0 |> | TAt _ => st end in
  let i := match t with TNew => 0 | TAt i => i end in
  let st := match t with TNew => st | TAt _ => st <| g_login_fail_time_count := s32 (g_login_fail_time_count st + 1) |> end in
  let i := match t with TNew => i | TAt _ => i + 1 end in
  if i <? unlock_time g_webs_data then Some (st <| count_threads := <[j := TAt i]> (count_threads st) |>)
  else Some ((st <| g_login_fail_count := 0 |>) <| count_threads := delete j (count_threads st) |>).

Definition webs_get_login_remain_info (st : login_sys) : Z * Z :=
  let login_count_remain := max_retry_times g_webs_data in
  let login_count_remain :=
    if 0 <? g_login_fail_count st then s32 (login_count_remain - g_login_fail_count st) else login_count_remain in
  let login_time_remain :=
    if login_count_remain =? 0 then s32 (unlock_time g_webs_data - g_login_fail_time_count st) else 0 in
  (login_count_remain, login_time_remain).
End Login.
