(* ===== verification/LoginSpec.v ===== *)
(** * What the login does

    The program keeps at most one session, that of the client who logged in last.  The
    abstract state names this client and the ticks of its session; the requests and the
    timers are shown to act on it, and what an attacker can and cannot do follows from it. *)

From stdpp Require Import gmap.
From S2P Require Import Prelude CString Heap Handles SymTab Url UrlSpec Session SessionSpec Crypt Login.
#[local] Open Scope Z_scope.
#[local] Open Scope cint_scope.

(** ** The session that a table with at most one holds *)

(** The client who is logged in, and the ticks since its last heartbeat. *)
Abbreviation client := (option (list Z * Z)) (only parsing).

Definition smap_of (w : client) : smap :=
  match w with None => ∅ | Some (k, n) => {[k := (aged n, 0)]} end.

Definition who_ok (w : client) : Prop :=
  match w with None => True | Some (k, n) => zlen k <= 19 /\ 95 ∈ k /\ 0 <= n < 6 end.

Lemma smap_of_size w : (size (smap_of w) <= 32)%nat.
Proof. destruct w as [[k n]|]; cbn; [rewrite map_size_singleton|rewrite map_size_empty]; lia. Qed.

Lemma walk_first_spec beyond s m : srep s m ->
  exists sp t', walk_first beyond s = Some (sp, s <| tables := t' |>) /\ srep (s <| tables := t' |>) m /\
    cells t' = cells (tables s) /\
    ((sp = 0 /\ m = ∅) \/
     (sp <> 0 /\ exists n k z a, cells t' !! sp = Some n /\ sym_name n = Some k /\ content n = valueInteger z /\ m !! k = Some (z, a))).
Proof.
  intros [(p & tp & bs & ess & Hg & Hp & Ht & Hok & Hm) Hkeys Hids].
  unfold walk_first, symFirst. rewrite (sym_table_rep _ _ _ _ Hg Ht). cbn [mbind option_bind].
  destruct (symFirst_loop_spec beyond (Z.to_nat (hash_size tp)) (tables s) tp bs ess 0 Hok) as (t' & Hs & Hr);
    [pose proof (to_size _ _ _ _ Hok); lia|lia|].
  change (drop (Z.to_nat 0) bs) with (drop 0 bs) in Hr. rewrite drop_0 in Hr.
  assert (Hc : cells t' = cells (tables s)) by (rewrite Hs; by destruct (tables s)).
  assert (Hst : sym t' = sym (tables s)) by (rewrite Hs; by destruct (tables s)).
  assert (Htt : tabents t' = tabents (tables s)) by (rewrite Hs; by destruct (tables s)).
  assert (Hrep : srep (s <| tables := t' |>) m).
  { destruct s. cbn in *. constructor; [|done|done]. cbn. exists p, tp, bs, ess.
    split; [unfold sym_get in *; by rewrite Hst|]. split; [done|]. split; [by rewrite Htt|]. split; [by rewrite Hc|done]. }
  pose proof (table_entries _ _ _ _ Hok) as Hes. pose proof (table_bindings _ _ _ _ Hok _ Hm) as Hperm.
  destruct (concat bs) as [|x rest] eqn:Eb.
  - exists 0, t'. rewrite Hr. split; [done|]. split; [done|]. split; [done|]. left. split; [done|].
    inversion Hes as [E|]. replace (concat ess) with ([] : list binding) in Hperm.
    apply Permutation_nil_l in Hperm. symmetry in Hperm. apply map_to_list_empty_iff in Hperm. by apply fmap_empty_iff in Hperm.
  - destruct Hr as (-> & Hx & _). exists x, t'. split; [done|]. split; [done|]. split; [done|]. right. split; [done|].
    inversion Hes as [|? [k r] ? es (n & Hn & Hnm & Hr) _ E1 E2]; subst.
    assert (Hk : (k, r) ∈ map_to_list (stored <$> m)) by (rewrite <- Hperm, <- E2; by left).
    apply elem_of_map_to_list in Hk. rewrite lookup_fmap in Hk. destruct (m !! k) as [[z a]|] eqn:Em; [|done].
    cbn in Hk. injection Hk as <-. cbn in Hr. injection Hr as Hcn _.
    exists n, k, z, a. by rewrite Hc.
Qed.

Lemma copy_name_zero k : no_nul k -> zlen k <= 19 ->
  exists b, copy_name (repeat 0 20) k = Some b /\ cstr b = Some k.
Proof.
  intros Hn Hl. unfold copy_name. rewrite repeat_length. replace (zlen k <=? _) with true by zb.
  eexists. split; [done|]. unfold bput. change (Z.to_nat 0) with 0%nat. cbn [take app Nat.add].
  rewrite repeat_replicate, drop_replicate. destruct (20 - length k)%nat eqn:E; [lia|]. cbn [replicate].
  by apply cstr_app.
Qed.

(** [hasUserLogined] finds the client, and the table stays as it is. *)
Lemma hasUserLogined_spec beyond s w : srep s (smap_of w) -> who_ok w ->
  exists b s', hasUserLogined beyond s (repeat 0 20) = Some (match w with Some _ => true | None => false end, b, s') /\
    srep s' (smap_of w) /\ login_timer s' = login_timer s /\
    match w with Some (k, _) => cstr b = Some k | None => True end.
Proof.
  intros Hs Hw. unfold hasUserLogined, ASPE_getFirstSessionInfo, EGOSM_getFirstSessionInfo, session_info. rewrite (srep_open _ _ Hs).
  destruct (walk_first_spec beyond s _ Hs) as (sp & t' & -> & Hs' & Hc & H). cbn [mbind option_bind].
  assert (Hl : login_timer (s <| tables := t' |>) = login_timer s) by by destruct s.
  assert (Ht : tables (s <| tables := t' |>) = t') by by destruct s.
  destruct w as [[k n]|]; cbn [smap_of] in *.
  - destruct H as [[_ H]|(Hsp & nd & k' & z & a & Hn & Hnm & Hcn & Hk)].
    { exfalso. apply (map_non_empty_singleton k (aged n, 0)). exact H. }
    apply lookup_singleton_Some in Hk as [<- [= <- <-]]. destruct (Z.eqb_spec sp 0); [done|].
    unfold sym_integer, sp_name. rewrite Ht, Hn. cbn [mbind option_bind]. rewrite Hcn. cbn [v_value valueInteger mbind option_bind].
    rewrite Hnm. cbn [mbind option_bind]. destruct Hw as (Hk & _ & Hn6).
    destruct (copy_name_zero k) as (b & -> & Hb); [|done|].
    { apply (sr_keys _ _ Hs k (aged n, 0)). apply lookup_singleton_eq. }
    cbn [mbind option_bind Z.eqb Pos.eqb]. replace (Z.land (aged n) 255 =? 5) with true.
    + by eexists _, _.
    + assert (n = 0 \/ n = 1 \/ n = 2 \/ n = 3 \/ n = 4 \/ n = 5) as Hc6 by lia.
      by repeat destruct Hc6 as [->|Hc6]; [..|rewrite Hc6].
  - destruct H as [[-> _]|(_ & nd & k' & z & a & _ & _ & _ & Hk)]; [|by rewrite lookup_empty in Hk].
    cbn [Z.eqb mbind option_bind]. by eexists _, _.
Qed.

(** ** The abstract login *)

Record auth : Type := mkAuth {
  who : client;
  session_timer : bool;
  fail_count : Z;
  time_count : Z;
  threads : list count_thread;
  recovering : Z;
  check_runs : bool;
  lock_secs : Z;
  token : Z
}.

(** Requests of clients, and the timers and threads. *)
Inductive action : Type :=
  | RLogin (wp : websRec) (params : option (list Z * list Z)) (rand : Z)
  | RForceLogin (wp : websRec) (params : option (list Z * list Z))
  | RLogout (wp : websRec) (rand : Z)
  | RTnLogin (wp : websRec) (params : option (list Z * list Z))
  | RTnLogout (wp : websRec)
  | RTnState (wp : websRec)
  | RHeartBeat (wp : websRec)
  | RLoginState (wp : websRec)
  | RToken (wp : websRec)
  | TSession
  | TCheck
  | TThread (j : nat).

(** What a request is answered. *)
Inductive answer : Type :=
  | ADone | ACode (z : Z) | AResult (r : webs_login_state) (z : Z) | AState (s : e_jrd_webs_login_state) (left : Z) | AToken (z : Z).

(** An IPv4 address has at most 15 characters, and no underscore. *)
Definition addr_ok (wp : websRec) : Prop := no_nul (ipaddr wp) /\ zlen (ipaddr wp) <= 17 /\ 95 ∉ ipaddr wp.
Definition action_ok (x : action) : Prop :=
  match x with
  | RLogin wp params _ => addr_ok wp /\ match params with Some (user, pass) => no_nul user /\ no_nul pass | None => True end
  | RForceLogin wp _ | RLogout wp _ | RTnLogin wp _ | RTnLogout wp | RTnState wp | RHeartBeat wp
  | RLoginState wp | RToken wp => addr_ok wp
  | TSession | TCheck | TThread _ => True
  end.

Section Auth.
Context (malloc : Z -> option (list Z)) (char_signed : bool).
Context (timer_ok : bool) (cfg : webs_data).

(** The text that a parameter of a login stands for. *)
Definition sent (s : list Z) : list Z :=
  if webs_pw_username_encrypt cfg =? 0 then s else default [] (decrypted malloc char_signed s).

Definition locks : bool := negb (lock_web_ui cfg =? 0).
Definition locked (a : auth) : bool := locks && (max_retry_times cfg <=? fail_count a).
Definition credentials (user pass : list Z) : bool :=
  bool_decide (user = username cfg) && bool_decide (pass = password cfg).
Definition is_who (w : client) (k : list Z) : bool :=
  match w with Some (k', _) => bool_decide (k' = k) | None => false end.

Definition a_fail (a : auth) : auth :=
  let a := a <| fail_count := s32 (fail_count a + 1) |> in
  if locks && (max_retry_times cfg =? fail_count a) && negb (unlock_time cfg =? -1)
  then a <| threads := threads a ++ [TNew] |> else a.

Definition a_login (a : auth) (k user pass : list Z) : webs_login_state * auth :=
  if locked a then (WEBS_LOGIN_LIMIT, a)
  else if negb (credentials user pass) then (WEBS_LOGIN_FAILED, a_fail a)
  else if is_who (who a) k then (WEBS_LOGIN_ALREADY_LOGIN, a)
  else (WEBS_LOGIN_SUCESS, ((a <| who := Some (k, 0) |>) <| session_timer := timer_ok |>) <| fail_count := 0 |>).

Definition login_code (r : webs_login_state) : Z :=
  match r with WEBS_LOGIN_SUCESS | WEBS_LOGIN_ALREADY_LOGIN => 0 | WEBS_LOGIN_LIMIT => 10103 | WEBS_LOGIN_OTHER => 10102 | _ => 10101 end.
Definition force_code (r : webs_login_state) : Z :=
  match r with WEBS_LOGIN_SUCESS => 0 | WEBS_LOGIN_LIMIT => 10602 | _ => 10601 end.

Definition a_logout (a : auth) (k : list Z) : auth := if is_who (who a) k then a <| who := None |> else a.

Definition a_tick (a : auth) : auth :=
  match who a with
  | None => a
  | Some (k, n) => if n =? 5 then (a <| who := None |>) <| session_timer := false |> else a <| who := Some (k, n + 1) |>
  end.

Definition a_left (a : auth) : Z := s32 (max_retry_times cfg - fail_count a).

Definition a_state (a : auth) (k : list Z) : answer * auth :=
  match webs_uipwstate cfg with
  | E_WEBS_UI_PW_NOT_NEEDED => (AState E_WEBS_LOGIN_STATE_LOGIN (a_left a), a)
  | _ =>
      let s := if is_who (who a) k then E_WEBS_LOGIN_STATE_LOGIN
               else if max_retry_times cfg <=? fail_count a then E_WEBS_LOGIN_STATE_USED_OUT
               else E_WEBS_LOGIN_STATE_LOGOUT in
      let a := if (max_retry_times cfg <=? fail_count a) && negb (webs_recover_time cfg =? 0) && (recovering a =? 0)
               then (a <| recovering := 1 |>) <| check_runs := check_runs a || timer_ok |> else a in
      (AState s (a_left a), a)
  end.

Definition a_check (a : auth) : auth :=
  let a := a <| lock_secs := s32 (lock_secs a + 1) |> in
  if webs_recover_time cfg <? lock_secs a then
    ((a <| check_runs := false |> <| fail_count := 0 |>) <| recovering := 0 |>) <| lock_secs := 0 |>
  else a.

Definition a_thread (a : auth) (j : nat) : auth :=
  match threads a !! j with
  | None => a
  | Some t =>
      let '(n, i) := match t with TNew => (0, 0) | TAt i => (s32 (time_count a + 1), i + 1) end in
      let a := a <| time_count := n |> in
      if i <? unlock_time cfg then a <| threads := <[j := TAt i]> (threads a) |>
      else (a <| fail_count := 0 |>) <| threads := delete j (threads a) |>
  end.

(** A timer that does not run, and a thread that is not there, do nothing.  The token is
    given to no client when a password is needed: the name of a session, which has the kind
    of the browser, is compared with an address. *)
Definition a_step (x : action) (a : auth) : answer * auth :=
  match x with
  | RLogin wp None _ => (ACode (-32700), a)
  | RLogin wp (Some (user, pass)) rand =>
      let '(r, a) := a_login a (key_of wp) (sent user) (sent pass) in
      (ACode (login_code r), match r with WEBS_LOGIN_SUCESS => a <| token := new_token rand |> | _ => a end)
  | RForceLogin wp None => (ACode (-32700), a)
  | RForceLogin wp (Some (user, pass)) => let '(r, a) := a_login a (key_of wp) user pass in (ACode (force_code r), a)
  | RLogout wp rand =>
      (ADone, if is_who (who a) (key_of wp)
              then ((a <| who := None |>) <| session_timer := false |>) <| token := new_token rand |> else a)
  | RTnLogin wp params =>
      if tn_refused cfg wp then (AResult WEBS_LOGOUT 255, a)
      else match params with
           | None => (AResult WEBS_LOGOUT WEBS_GET_UIPARA_WRONG, a)
           | Some (user, pass) => let '(r, a) := a_login a (key_of wp) user pass in (AResult r WEBS_SET_SUCCESS, a)
           end
  | RTnLogout wp =>
      if tn_refused cfg wp then (ACode 255, a)
      else (ACode WEBS_SET_SUCCESS, (a_logout a (key_of wp)) <| session_timer := false |>)
  | RTnState wp => (ACode (if is_who (who a) (key_of wp) then SESSIONID_FOR_LOGIN_SUCCESS else SESSIONID_FOR_LOGOUT), a)
  | RHeartBeat wp => (ADone, if is_who (who a) (key_of wp) then a <| who := Some (key_of wp, 0) |> else a)
  | RLoginState wp => a_state a (key_of wp)
  | RToken wp =>
      (AToken (match webs_uipwstate cfg with E_WEBS_UI_PW_NOT_NEEDED => token a | _ => 0 end), a)
  | TSession => (ADone, if session_timer a then a_tick a else a)
  | TCheck => (ADone, if check_runs a then a_check a else a)
  | TThread j => (ADone, a_thread a j)
  end.

(** The program. *)
Context (strdup : cstring -> option cstring) (new_cell : gmap Z sym_t -> Z) (beyond : Z).

Definition step (x : action) (st : login_sys) : option (answer * login_sys) :=
  match x with
  | RLogin wp params rand =>
      '(z, st) ← json_webs_set_login_security strdup new_cell beyond malloc char_signed timer_ok cfg st wp params rand; Some (ACode z, st)
  | RForceLogin wp params =>
      '(z, st) ← json_webs_force_login strdup new_cell beyond timer_ok cfg st wp params; Some (ACode z, st)
  | RLogout wp rand => st ← json_webs_set_logout st wp rand; Some (ADone, st)
  | RTnLogin wp params => '(r, z, st) ← tn_webs_set_login strdup new_cell beyond timer_ok cfg st wp params; Some (AResult r z, st)
  | RTnLogout wp => '(z, st) ← tn_webs_set_logout cfg st wp; Some (ACode z, st)
  | RTnState wp => z ← tn_webs_get_login_state st wp; Some (ACode z, st)
  | RHeartBeat wp => st ← json_webs_heart_beat st wp; Some (ADone, st)
  | RLoginState wp => '(s, n, st) ← json_webs_get_login_state timer_ok cfg st wp; Some (AState s n, st)
  | RToken wp => '(z, st) ← json_webs_get_Token beyond cfg st wp; Some (AToken z, st)
  | TSession =>
      if login_timer (lg st) then '(_, s) ← EGOSM_processSessionTimeOut beyond (lg st); Some (ADone, st <| lg := s |>)
      else Some (ADone, st)
  | TCheck => Some (ADone, if check_timer st then jrd_oem_webui_check_time cfg st else st)
  | TThread j =>
      if bool_decide (j < length (count_threads st))%nat then st ← Login_fail_time_count cfg st j; Some (ADone, st)
      else Some (ADone, st)
  end.

Fixpoint steps (xs : list action) (st : login_sys) : option (list answer * login_sys) :=
  match xs with
  | [] => Some ([], st)
  | x :: xs => '(r, st) ← step x st; '(rs, st) ← steps xs st; Some (r :: rs, st)
  end.

Fixpoint a_steps (xs : list action) (a : auth) : list answer * auth :=
  match xs with
  | [] => ([], a)
  | x :: xs => let '(r, a) := a_step x a in let '(rs, a) := a_steps xs a in (r :: rs, a)
  end.

(** The state of the program stands for [a]. *)
Definition auth_of (st : login_sys) (w : client) : auth :=
  mkAuth w (login_timer (lg st)) (g_login_fail_count st) (g_login_fail_time_count st) (count_threads st)
    (login_timer_start st) (check_timer st) (locked_time st) (jrd_webs_token st).

Record lrep (st : login_sys) (a : auth) : Prop := {
  lr_auth : a = auth_of st (who a);
  lr_table : srep (lg st) (smap_of (who a));
  lr_who : who_ok (who a)
}.

Hypothesis malloc_ok : forall n, 0 < n -> exists b, malloc n = Some b /\ zlen b = n.
Hypothesis strdup_some : forall k, strdup k = Some k.
Hypothesis new_cell_fresh : forall cs, new_cell cs <> 0 /\ cs !! new_cell cs = None.

Lemma addr_client wp : addr_ok wp -> client_ok wp.
Proof. intros (H1 & H2 & _). split; [done|]. lia. Qed.

Lemma addr_key wp : addr_ok wp -> peer_name wp = Some (key_of wp) /\ zlen (key_of wp) <= 19 /\
  95 ∈ key_of wp /\ key_ok (key_of wp) /\ (zlen (ipaddr wp) <? 20) = true.
Proof.
  intros Ha. destruct (client_key wp (addr_client wp Ha)) as (E & Hk & _). destruct Ha as (_ & Hl & _).
  unfold getSessionKey in E. destruct (_ <? 35); [|done]. apply (inj Some) in E.
  assert (Hlen : zlen (key_of wp) = zlen (ipaddr wp) + 2) by (rewrite <- E, !length_app; change (length (str "_")) with 1%nat; cbn [length]; lia).
  unfold peer_name, ASPE_getPeerInfo, EGOSM_getPeerInfo. replace (zlen (ipaddr wp) <? 20) with true by zb.
  rewrite E, Hlen. replace (zlen (ipaddr wp) + 2 <? 20) with true by zb. split; [done|]. split; [lia|].
  split; [|done]. rewrite <- E. apply elem_of_app. right. apply elem_of_app. left. by left.
Qed.

Lemma name_not_addr wp k n : addr_ok wp -> who_ok (Some (k, n)) -> k <> ipaddr wp.
Proof. intros (_ & _ & H) (_ & H2 & _) ->. done. Qed.

(** ** The program keeps to it *)

Lemma auth_lg st s w : login_timer s = login_timer (lg st) -> auth_of (st <| lg := s |>) w = auth_of st w.
Proof. intros E. unfold auth_of. destruct st. cbn in *. by rewrite E. Qed.

Lemma lrep_lg st s a : lrep st a -> srep s (smap_of (who a)) -> login_timer s = login_timer (lg st) ->
  lrep (st <| lg := s |>) a.
Proof.
  intros [Ha _ Hw] Hs E. constructor; [by rewrite auth_lg|by destruct st|done].
Qed.

(** A session table that stands for another client. *)
Lemma lrep_who st s a w t : lrep st a -> srep s (smap_of w) -> login_timer s = t -> who_ok w ->
  lrep (st <| lg := s |>) ((a <| who := w |>) <| session_timer := t |>).
Proof.
  intros [Ha _ _] Hs Ht Hw. rewrite Ha. subst t. constructor; [by destruct st|by destruct st|done].
Qed.

Lemma lrep_fail st a : lrep st a -> lrep
  (let st := st <| g_login_fail_count := s32 (g_login_fail_count st + 1) |> in
   if locks && (max_retry_times cfg =? g_login_fail_count st) && negb (unlock_time cfg =? -1)
   then st <| count_threads := count_threads st ++ [TNew] |> else st) (a_fail a).
Proof.
  intros [Ha Hs Hw]. unfold a_fail. rewrite Ha. destruct st. cbn in *.
  destruct (locks && _ && _); (constructor; [done..|]); done.
Qed.

Lemma is_who_lookup w k z a : who_ok w -> smap_of w !! k = Some (z, a) ->
  exists n, w = Some (k, n) /\ z = aged n /\ a = 0 /\ 0 <= n < 6.
Proof.
  destruct w as [[k' n]|]; cbn; intros Hw H; [|by rewrite lookup_empty in H].
  apply lookup_singleton_Some in H as [<- [= <- <-]]. exists n. by destruct Hw as (_ & _ & ?).
Qed.

Lemma is_who_None w k : smap_of w !! k = None <-> is_who w k = false.
Proof.
  destruct w as [[k' n]|]; cbn; [|by rewrite lookup_empty].
  rewrite lookup_singleton_None. by rewrite bool_decide_eq_false.
Qed.

Lemma aged_code n : 0 <= n < 6 -> logged_in (aged n) = true /\ refused (aged n) = false.
Proof.
  intros Hn. assert (n = 0 \/ n = 1 \/ n = 2 \/ n = 3 \/ n = 4 \/ n = 5) as Hc by lia.
  by repeat destruct Hc as [->|Hc]; [..|rewrite Hc].
Qed.

(** The only session is that of the client who logs in last. *)
Lemma force_smap w k : who_ok w -> is_who w k = false ->
  abs_login (smap_of w) k E_LOGIN_FORCE_LOGIN_SUCCESS = smap_of (Some (k, 0)).
Proof.
  intros Hw Hk. cbn. unfold fails. rewrite (proj2 (is_who_None w k) Hk).
  replace (filter _ (smap_of w)) with (∅ : smap); [done|].
  symmetry. apply map_empty_filter. intros k' [z a] Hin. apply is_who_lookup in Hin as (n & -> & -> & _ & Hn); [|done].
  destruct (aged_code n Hn) as [-> _]. done.
Qed.

Lemma reset_smap k : <[k := (abs_id (smap_of (Some (k, 0))) k, 0)]> (smap_of (Some (k, 0))) = smap_of (Some (k, 0)).
Proof. unfold abs_id, smap_of. rewrite lookup_singleton_eq. by rewrite insert_singleton_eq. Qed.

(** The steps of a login that is granted. *)
Lemma grant_spec s w wp : srep s (smap_of w) -> who_ok w -> addr_ok wp -> is_who w (key_of wp) = false ->
  exists s2 s3, ASPE_userLogin strdup new_cell beyond (set_timer_clean s) wp E_LOGIN_FORCE_LOGIN_SUCCESS = Some s2 /\
    ASPE_setLoginFailCnt strdup new_cell s2 wp 0 = Some (0, s3) /\
    srep (start_login_timer timer_ok s3) (smap_of (Some (key_of wp, 0))) /\
    login_timer (start_login_timer timer_ok s3) = timer_ok.
Proof using strdup_some new_cell_fresh.
  intros Hs Hw Ha Ew. pose proof (addr_client wp Ha) as Hcl.
  assert (Hs1 : srep (set_timer_clean s) (smap_of w)) by (destruct Hs, s; done).
  destruct (login_does strdup new_cell beyond strdup_some new_cell_fresh (set_timer_clean s) _ wp E_LOGIN_FORCE_LOGIN_SUCCESS Hs1 Hcl) as (s2 & E & Hs2 & Ht2).
  { intros _. apply smap_of_size. }
  unfold ASPE_userLogin. destruct (EGOSM_setSessionInfo _ _ _ _ _ _) as [s2'|]; [|done]. cbn [mbind option_bind fst snd] in *.
  injection E as ->. rewrite force_smap in Hs2 by done. unfold ASPE_setLoginFailCnt.
  destruct (set_fails_does strdup new_cell beyond strdup_some new_cell_fresh s2 _ wp 0 Hs2 Hcl) as (s3 & E3 & Hs3 & Ht3).
  cbn [fst snd] in *. rewrite reset_smap in Hs3. exists s2, s3. split; [done|]. split; [done|].
  unfold start_login_timer. destruct timer_ok; [by destruct Hs3, s3|]. split; [done|]. rewrite Ht3, Ht2. by destruct s.
Qed.

Lemma lrep_grant st a wp s s' : lrep st a -> addr_ok wp ->
  srep s' (smap_of (Some (key_of wp, 0))) -> login_timer s' = timer_ok ->
  lrep (((st <| lg := s |>) <| lg := s' |>) <| g_login_fail_count := 0 |>)
    (((a <| who := Some (key_of wp, 0) |>) <| session_timer := timer_ok |>) <| fail_count := 0 |>).
Proof.
  intros [Ha _ _] Hw Hs Ht. destruct (addr_key wp Hw) as (_ & Hlen & Hu & _ & _). rewrite Ha. rewrite <- Ht.
  constructor; [by destruct st|by destruct st|]. cbn. repeat split; done || lia.
Qed.

Lemma set_login_does st a wp user pass : lrep st a -> addr_ok wp ->
  exists st', webs_set_login strdup new_cell beyond timer_ok cfg st wp user pass true =
      Some (fst (a_login a (key_of wp) user pass), st') /\
    lrep st' (snd (a_login a (key_of wp) user pass)).
Proof using strdup_some new_cell_fresh.
  intros Hl Hw. destruct (addr_key wp Hw) as (Hpn & Hlen & Hu & Hkok & Hip). pose proof (addr_client wp Hw) as Hcl.
  unfold webs_set_login, a_login, locked, credentials. fold locks.
  replace (g_login_fail_count st) with (fail_count a) by (rewrite (lr_auth _ _ Hl); by destruct st).
  destruct (locks && (max_retry_times cfg <=? fail_count a)); [by exists st|].
  destruct (bool_decide (user = username cfg) && bool_decide (pass = password cfg)); cbn [negb].
  2: { pose proof (lrep_fail st a Hl) as H. eexists. split; [|exact H].
       replace (fail_count a) with (g_login_fail_count st) by (rewrite (lr_auth _ _ Hl); by destruct st).
       cbv zeta. destruct (locks && _); [|done]. by destruct (unlock_time cfg =? -1). }
  destruct (hasUserLogined_spec beyond (lg st) (who a) (lr_table _ _ Hl) (lr_who _ _ Hl)) as (b & s & -> & Hs & Ht & Hb).
  cbn [mbind option_bind].
  assert (Hl1 : lrep (st <| lg := s |>) a) by by apply lrep_lg.
  assert (Elg : lg (st <| lg := s |>) = s) by by destruct st.
  assert (Hcase : is_who (who a) (key_of wp) = true \/ is_who (who a) (key_of wp) = false) by by destruct (is_who _ _); auto.
  destruct Hcase as [Ew|Ew]; rewrite Ew.
  - unfold is_who in Ew. destruct (who a) as [[k n]|] eqn:Ea; [|done]. apply bool_decide_eq_true in Ew as ->.
    rewrite Hpn. cbn [mbind option_bind]. rewrite Hb. cbn [mbind option_bind]. rewrite bool_decide_eq_true_2 by done. by eexists.
  - match goal with |- exists st', (refuse ← ?r; _) = _ /\ _ => assert (Er : r = Some None) end.
    { destruct (who a) as [[k n]|] eqn:Ea; [|done]. rewrite Hpn. cbn [mbind option_bind]. rewrite Hb. cbn [mbind option_bind].
      unfold is_who in Ew. by rewrite Ew. }
    rewrite Er. cbn [mbind option_bind]. match goal with |- context [set_timer_clean (lg ?q)] => replace (lg q) with s by by destruct st end.
    destruct (grant_spec s (who a) wp Hs (lr_who _ _ Hl) Hw Ew) as (s2 & s3 & -> & E & Hs3 & Ht3).
    unfold ASPE_getPeerInfo, EGOSM_getPeerInfo. cbn [mbind option_bind]. rewrite Hip, E. cbn [mbind option_bind fst snd].
    eexists. split; [done|]. by apply lrep_grant.
Qed.

(** What an action has to do to refine [a_step]. *)
Definition refines (r : option (answer * login_sys)) (x : answer * auth) : Prop :=
  exists st', r = Some (fst x, st') /\ lrep st' (snd x).

Lemma lrep_token st a t : lrep st a -> lrep (st <| jrd_webs_token := t |>) (a <| token := t |>).
Proof. intros [Ha Hs Hw]. rewrite Ha. constructor; by destruct st. Qed.

Lemma sent_spec s : no_nul s ->
  (if negb (webs_pw_username_encrypt cfg =? 0) then decrypted malloc char_signed s else Some s) = Some (sent s).
Proof using malloc_ok.
  intros Hs. unfold sent. destruct (webs_pw_username_encrypt cfg =? 0); [done|]. cbn [negb].
  unfold decrypted. destruct (jrd_decrypt_total malloc char_signed malloc_ok s [] Hs) as (b & t & -> & Ht).
  cbn [mbind option_bind]. by rewrite Ht.
Qed.

Lemma decoded_spec user pass : no_nul user -> no_nul pass ->
  (if negb (webs_pw_username_encrypt cfg =? 0)
   then usr_name ← decrypted malloc char_signed user; password ← decrypted malloc char_signed pass; Some (usr_name, password)
   else Some (user, pass)) = Some (sent user, sent pass).
Proof using malloc_ok.
  intros Hu Hp. pose proof (sent_spec user Hu) as Eu. pose proof (sent_spec pass Hp) as Ep.
  destruct (negb _); [by rewrite Eu; cbn [mbind option_bind]; rewrite Ep|congruence].
Qed.

Lemma login_refines st a wp params rand : lrep st a -> action_ok (RLogin wp params rand) ->
  refines (step (RLogin wp params rand) st) (a_step (RLogin wp params rand) a).
Proof using strdup_some new_cell_fresh malloc_ok.
  intros Hl [Hw Hp]. destruct params as [[user pass]|]; cbn [step json_webs_set_login_security a_step mbind option_bind]; [|by exists st].
  destruct Hp as [Hu Hp]. rewrite (decoded_spec user pass Hu Hp). cbn [mbind option_bind].
  destruct (set_login_does st a wp (sent user) (sent pass) Hl Hw) as (st' & -> & Hl').
  destruct (a_login a (key_of wp) (sent user) (sent pass)) as [r a']. cbn [mbind option_bind fst snd] in *.
  destruct r; cbn [mbind option_bind login_code fst snd]; eexists; (split; [done|]); try done. by apply lrep_token.
Qed.

Lemma force_refines st a wp params : lrep st a -> addr_ok wp ->
  refines (step (RForceLogin wp params) st) (a_step (RForceLogin wp params) a).
Proof using strdup_some new_cell_fresh.
  intros Hl Hw. destruct params as [[user pass]|]; cbn [step json_webs_force_login a_step mbind option_bind]; [|by exists st].
  destruct (set_login_does st a wp user pass Hl Hw) as (st' & -> & Hl'). destruct (a_login a (key_of wp) user pass) as [r a'].
  cbn [mbind option_bind fst snd] in *. destruct r; cbn [mbind option_bind force_code fst snd]; eexists; by (split; [done|]).
Qed.

Lemma delete_smap w k : delete k (smap_of w) = smap_of (if is_who w k then None else w).
Proof.
  destruct w as [[k' n]|]; cbn; [|apply delete_empty]. case_bool_decide as E; cbn.
  - subst. apply delete_singleton_eq.
  - by apply delete_singleton_ne.
Qed.

Lemma is_who_lookup_None w k : match smap_of w !! k with None => -1 | Some _ => 0 end = (if is_who w k then 0 else -1).
Proof.
  destruct (smap_of w !! k) eqn:E.
  - destruct (is_who w k) eqn:E2; [done|]. apply is_who_None in E2. congruence.
  - apply is_who_None in E. by rewrite E.
Qed.

Lemma logout_spec st a wp : lrep st a -> addr_ok wp ->
  exists s, ASPE_userLogout (lg st) wp = Some (if is_who (who a) (key_of wp) then 0 else -1, s) /\
    srep s (smap_of (if is_who (who a) (key_of wp) then None else who a)) /\ login_timer s = login_timer (lg st).
Proof.
  intros [_ Hs _] Hw. destruct (logout_does (lg st) _ wp Hs (addr_client wp Hw)) as (s & E & Hs' & Ht).
  cbn [fst snd] in *. rewrite is_who_lookup_None in E. rewrite delete_smap in Hs'. by exists s.
Qed.

Lemma logout_refines st a wp rand : lrep st a -> addr_ok wp ->
  refines (step (RLogout wp rand) st) (a_step (RLogout wp rand) a).
Proof.
  intros Hl Hw. cbn [step a_step]. unfold json_webs_set_logout. destruct (logout_spec st a wp Hl Hw) as (s & -> & Hs & Ht).
  cbn [mbind option_bind]. destruct (is_who (who a) (key_of wp)); cbn [Z.eqb negb mbind option_bind].
  - eexists. split; [done|]. apply lrep_token. destruct Hl as [Ha _ _]. rewrite Ha.
    constructor; [by destruct st, s| |done]. destruct st. cbn. by destruct Hs, s.
  - eexists. split; [done|]. by apply lrep_lg.
Qed.

Lemma tn_login_refines st a wp params : lrep st a -> addr_ok wp ->
  refines (step (RTnLogin wp params) st) (a_step (RTnLogin wp params) a).
Proof using strdup_some new_cell_fresh.
  intros Hl Hw. cbn [step a_step]. unfold tn_webs_set_login. destruct (tn_refused cfg wp); [by exists st|].
  destruct params as [[user pass]|]; [|by exists st].
  destruct (set_login_does st a wp user pass Hl Hw) as (st' & -> & Hl'). destruct (a_login a (key_of wp) user pass) as [r a'].
  cbn [mbind option_bind fst snd] in *. eexists. by split.
Qed.

Lemma tn_logout_refines st a wp : lrep st a -> addr_ok wp ->
  refines (step (RTnLogout wp) st) (a_step (RTnLogout wp) a).
Proof.
  intros Hl Hw. cbn [step a_step]. unfold tn_webs_set_logout, a_logout. destruct (tn_refused cfg wp); [by exists st|].
  destruct (logout_spec st a wp Hl Hw) as (s & -> & Hs & Ht).
  cbn [mbind option_bind]. eexists. split; [done|]. destruct Hl as [Ha _ Hwho]. cbn [snd]. rewrite Ha.
  replace (who (auth_of st (who a))) with (who a) by done.
  destruct (is_who (who a) (key_of wp)); (constructor; [by destruct st, s| |done]); destruct st; cbn; by destruct Hs, s.
Qed.

Lemma beat_smap w k : who_ok w ->
  snd (abs_heartbeat (smap_of w) k) = smap_of (if is_who w k then Some (k, 0) else w) /\
  abs_ask (smap_of w) k = (if is_who w k then 1 else 0, smap_of w).
Proof.
  intros Hw. unfold abs_heartbeat, abs_ask. destruct (smap_of w !! k) as [[z b]|] eqn:E.
  - destruct (is_who_lookup _ _ _ _ Hw E) as (n & -> & -> & -> & Hn). cbn [is_who]. rewrite bool_decide_eq_true_2 by done.
    destruct (aged_code n Hn) as [_ ->]. split; [|done]. cbn. by rewrite insert_singleton_eq.
  - apply is_who_None in E. by rewrite E.
Qed.

Lemma beat_refines st a wp : lrep st a -> addr_ok wp ->
  refines (step (RHeartBeat wp) st) (a_step (RHeartBeat wp) a).
Proof using strdup_some new_cell_fresh.
  intros Hl Hw. cbn [step a_step]. unfold json_webs_heart_beat. pose proof (addr_client wp Hw) as Hcl.
  pose proof Hl as [Ha Hs Hwho]. destruct (beat_smap (who a) (key_of wp) Hwho) as [Hb Hq].
  destruct (ask_does (lg st) _ wp Hs Hcl) as (s & E & Hs1 & Ht1). rewrite Hq in E, Hs1. rewrite E. cbn [mbind option_bind fst snd].
  destruct (addr_key wp Hw) as (_ & Hlen & Hu & _ & _).
  destruct (is_who (who a) (key_of wp)); cbn [Z.eqb Pos.eqb mbind option_bind fst snd] in *.
  - destruct (heartbeat_does strdup new_cell beyond strdup_some new_cell_fresh s _ wp Hs1 Hcl) as (s2 & -> & Hs2 & Ht2).
    cbn [mbind option_bind]. eexists. split; [done|]. cbn [snd]. rewrite Hb in Hs2. rewrite Ha.
    constructor; [unfold auth_of; destruct st; cbn in *; by rewrite Ht2, Ht1|by destruct st|]. cbn. repeat split; done || lia.
  - eexists. split; [done|]. cbn [snd]. by apply lrep_lg.
Qed.

Lemma id_smap w k : who_ok w ->
  (abs_id (smap_of w) k =? SESSIONID_FOR_LOGIN_SUCCESS) = is_who w k.
Proof.
  intros Hw. unfold abs_id. destruct (smap_of w !! k) as [[z b]|] eqn:E.
  - destruct (is_who_lookup _ _ _ _ Hw E) as (n & -> & -> & -> & Hn). cbn [is_who]. rewrite bool_decide_eq_true_2 by done.
    assert (n = 0 \/ n = 1 \/ n = 2 \/ n = 3 \/ n = 4 \/ n = 5) as Hc by lia.
    by repeat destruct Hc as [->|Hc]; [..|rewrite Hc].
  - apply is_who_None in E. by rewrite E.
Qed.

Lemma abs_id_who w k : who_ok w ->
  abs_id (smap_of w) k = if is_who w k then SESSIONID_FOR_LOGIN_SUCCESS else SESSIONID_FOR_LOGOUT.
Proof.
  intros Hw. pose proof (id_smap w k Hw) as H. destruct (is_who w k) eqn:E; [by apply Z.eqb_eq|].
  apply is_who_None in E. unfold abs_id. by rewrite E.
Qed.

Lemma tn_state_refines st a wp : lrep st a -> addr_ok wp ->
  refines (step (RTnState wp) st) (a_step (RTnState wp) a).
Proof.
  intros Hl Hw. cbn [step a_step]. unfold tn_webs_get_login_state, ASPE_getSessionID.
  rewrite (id_spec (lg st) _ wp (lr_table _ _ Hl) (addr_client wp Hw)). cbn [mbind option_bind].
  rewrite abs_id_who by apply Hl. by exists st.
Qed.

Lemma state_refines st a wp : lrep st a -> addr_ok wp ->
  refines (step (RLoginState wp) st) (a_step (RLoginState wp) a).
Proof.
  intros Hl Hw. pose proof Hl as [Ha Hs Hwho]. cbn [step a_step]. unfold json_webs_get_login_state, a_state, a_left.
  assert (Hid : ASPE_getSessionID (lg st) wp = Some (abs_id (smap_of (who a)) (key_of wp))) by by apply (id_spec (lg st)), addr_client.
  rewrite Hid. pose proof (id_smap (who a) (key_of wp) Hwho) as Hi.
  replace (g_login_fail_count st) with (fail_count a) by (rewrite Ha; by destruct st).
  replace (login_timer_start st) with (recovering a) by (rewrite Ha; by destruct st).
  destruct (webs_uipwstate cfg); cbn [mbind option_bind]; rewrite ?Hi; try (by exists st);
    (destruct (_ && _ && _); cbn [mbind option_bind]; (eexists; split; [|try exact Hl]; cbn [fst snd]));
    try (rewrite Ha; by destruct st);
    (constructor; [rewrite Ha; by destruct st| |]; destruct st; done).
Qed.

Lemma token_refines st a wp : lrep st a -> addr_ok wp ->
  refines (step (RToken wp) st) (a_step (RToken wp) a).
Proof.
  intros Hl Hw. pose proof Hl as [Ha Hs Hwho]. cbn [step a_step]. unfold json_webs_get_Token.
  destruct (hasUserLogined_spec beyond (lg st) (who a) Hs Hwho) as (b & s & E & Hs1 & Ht & Hb).
  destruct (addr_key wp Hw) as (_ & _ & _ & _ & Hip).
  destruct (webs_uipwstate cfg); cbn [mbind option_bind].
  1, 3: rewrite E; cbn [mbind option_bind]; unfold ASPE_getPeerInfo, EGOSM_getPeerInfo; rewrite Hip;
    (destruct (who a) as [[k n]|] eqn:Ew; [rewrite Hb; cbn [mbind option_bind]; rewrite bool_decide_eq_false_2 by by apply (name_not_addr wp k n)|]);
    (eexists; split; [done|]; cbn [snd]; apply lrep_lg; [done|by rewrite Ew|done]).
  exists st. split; [|done]. cbn [fst]. rewrite Ha. by destruct st.
Qed.

Lemma aged_step n : 0 <= n < 6 -> expired (aged n) = (n =? 5) /\ (n <> 5 -> age (aged n) = aged (n + 1)).
Proof. intros Hn. destruct (aged_tick n Hn) as (H1 & H2 & _). auto. Qed.

Lemma tick_smap w : who_ok w ->
  abs_tick (smap_of w) = smap_of (match w with Some (k, n) => if n =? 5 then None else Some (k, n + 1) | None => None end) /\
  bool_decide (map_Forall (fun _ r => expired (fst r) = false) (smap_of w)) =
    match w with Some (_, n) => negb (n =? 5) | None => true end.
Proof.
  intros Hw. destruct w as [[k n]|]; cbn; [|done]. destruct Hw as (_ & _ & Hn). destruct (aged_step n Hn) as [He Ha].
  unfold abs_tick. rewrite omap_singleton. cbn. rewrite He. split.
  - destruct (Z.eqb_spec n 5); cbn; [done|]. by rewrite Ha.
  - destruct (Z.eqb_spec n 5); cbn [negb].
    + apply bool_decide_eq_false. intros H%map_Forall_singleton. cbn in H. subst. done.
    + apply bool_decide_eq_true, map_Forall_singleton. done.
Qed.

Lemma session_refines st a : lrep st a -> refines (step TSession st) (a_step TSession a).
Proof using strdup_some new_cell_fresh.
  intros Hl. pose proof Hl as [Ha Hs Hwho]. cbn [step a_step].
  replace (session_timer a) with (login_timer (lg st)) by (rewrite Ha; by destruct st).
  destruct (login_timer (lg st)) eqn:Et; [|by exists st].
  destruct (tick_does strdup new_cell beyond strdup_some new_cell_fresh (lg st) _ Hs (smap_of_size _)) as (s & -> & Hs1 & Ht).
  cbn [mbind option_bind fst snd] in *. eexists. split; [done|]. cbn [snd]. unfold a_tick.
  destruct (tick_smap (who a) Hwho) as [E1 E2]. rewrite E1 in Hs1. rewrite E2, Et in Ht.
  destruct (who a) as [[k n]|] eqn:Ew; [|apply lrep_lg; [done|by rewrite Ew|by rewrite Ht, Et]].
  destruct Hwho as (Hk & Hu & Hn). rewrite Ha. destruct (Z.eqb_spec n 5) as [->|Hne]; cbn [negb andb] in Ht;
    (constructor; [unfold auth_of; destruct st; cbn in *; congruence|destruct st; cbn; done|]); cbn; [done|].
  repeat split; done || lia.
Qed.

Lemma check_refines st a : lrep st a -> refines (step TCheck st) (a_step TCheck a).
Proof.
  intros Hl. pose proof Hl as [Ha Hs Hwho]. cbn [step a_step].
  replace (check_runs a) with (check_timer st) by (rewrite Ha; by destruct st).
  destruct (check_timer st) eqn:Et; [|by exists st]. eexists. split; [done|]. cbn [snd].
  unfold jrd_oem_webui_check_time, a_check. rewrite Ha. destruct st. cbn in *.
  destruct (_ <? _); by constructor.
Qed.

Lemma thread_refines st a j : lrep st a -> refines (step (TThread j) st) (a_step (TThread j) a).
Proof.
  intros Hl. pose proof Hl as [Ha Hs Hwho]. cbn [step a_step]. unfold Login_fail_time_count, a_thread.
  replace (threads a) with (count_threads st) by (rewrite Ha; by destruct st).
  destruct (count_threads st !! j) as [t|] eqn:Ej.
  - rewrite bool_decide_eq_true_2 by by eapply lookup_lt_Some. cbn [mbind option_bind].
    destruct t as [|i]; (destruct (_ <? _); cbn [mbind option_bind]; (eexists; split; [done|]); cbn [snd];
      rewrite Ha; destruct st; by constructor).
  - rewrite bool_decide_eq_false_2 by (apply lookup_ge_None in Ej; lia). by exists st.
Qed.

Lemma step_refines x st a : lrep st a -> action_ok x -> refines (step x st) (a_step x a).
Proof using strdup_some new_cell_fresh malloc_ok.
  intros Hl Hx. destruct x; cbn [action_ok] in Hx.
  - by apply login_refines.
  - by apply force_refines.
  - by apply logout_refines.
  - by apply tn_login_refines.
  - by apply tn_logout_refines.
  - by apply tn_state_refines.
  - by apply beat_refines.
  - by apply state_refines.
  - by apply token_refines.
  - by apply session_refines.
  - by apply check_refines.
  - by apply thread_refines.
Qed.

Lemma steps_refine xs : forall st a, lrep st a -> Forall action_ok xs ->
  exists st', steps xs st = Some (fst (a_steps xs a), st') /\ lrep st' (snd (a_steps xs a)).
Proof using strdup_some new_cell_fresh malloc_ok.
  induction xs as [|x xs IH]; intros st a Hl Hx; cbn [steps a_steps]; [by exists st|].
  apply Forall_cons_iff in Hx as [Hx Hxs]. destruct (step_refines x st a Hl Hx) as (st1 & -> & Hl1).
  destruct (a_step x a) as [r a1]. cbn [mbind option_bind fst snd] in *.
  destruct (IH st1 a1 Hl1 Hxs) as (st' & -> & Hl'). destruct (a_steps xs a1). by exists st'.
Qed.

(** ** What follows *)

(** The request sends the user name and the password, in the way its kind of page does. *)
Definition gave_password (x : action) (k : list Z) : Prop :=
  match x with
  | RLogin wp (Some (user, pass)) _ => k = key_of wp /\ sent user = username cfg /\ sent pass = password cfg
  | RForceLogin wp (Some (user, pass)) | RTnLogin wp (Some (user, pass)) =>
      k = key_of wp /\ user = username cfg /\ pass = password cfg
  | _ => False
  end.

Lemma a_login_who a wp user pass k : is_who (who (snd (a_login a (key_of wp) user pass))) k = true ->
  is_who (who a) k = true \/
  (locked a = false /\ k = key_of wp /\ user = username cfg /\ pass = password cfg).
Proof.
  unfold a_login. destruct (locked a); [by left|]. unfold credentials.
  destruct (bool_decide (user = username cfg)) eqn:E1, (bool_decide (pass = password cfg)) eqn:E2; cbn [andb negb].
  2-4: intros H; left; unfold a_fail in H; destruct a; cbn in *; by destruct (_ && _).
  apply bool_decide_eq_true in E1, E2. destruct (is_who (who a) (key_of wp)); [by left|].
  destruct a. cbn. rewrite bool_decide_eq_true. intros <-. by right.
Qed.

(** A login step that answers with [r] and then changes nothing of who is logged in. *)
Lemma a_login_gave a wp user pass k a' r : a_login a (key_of wp) user pass = (r, a') ->
  is_who (who a') k = true ->
  is_who (who a) k = true \/ (locked a = false /\ k = key_of wp /\ user = username cfg /\ pass = password cfg).
Proof. intros E H. apply a_login_who. by rewrite E. Qed.

Lemma a_step_who x a k : is_who (who (snd (a_step x a))) k = true ->
  is_who (who a) k = true \/ (locked a = false /\ gave_password x k).
Proof.
  intros H. destruct x as [wp [[user pass]|] rand|wp [[user pass]|]|wp rand|wp params|wp|wp|wp|wp|wp| | |j];
    cbn [a_step gave_password] in *; try by left.
  - destruct (a_login _ _ _ _) as [r a'] eqn:E. apply (a_login_gave _ _ _ _ _ _ _ E). by destruct r, a'.
  - destruct (a_login _ _ _ _) as [r a'] eqn:E. by apply (a_login_gave _ _ _ _ _ _ _ E).
  - left. destruct (is_who (who a) (key_of wp)); [by destruct a|done].
  - destruct (tn_refused cfg wp); [by left|]. destruct params as [[user pass]|]; [|by left]. destruct (a_login _ _ _ _) as [r a'] eqn:E. by apply (a_login_gave _ _ _ _ _ _ _ E).
  - left. destruct (tn_refused cfg wp); [done|]. unfold a_logout in H. destruct (is_who (who a) (key_of wp)); by destruct a.
  - left. destruct (is_who (who a) (key_of wp)) eqn:E; [|done]. destruct a. cbn in *. rewrite bool_decide_eq_true in H. by subst.
  - left. unfold a_state in H. destruct (webs_uipwstate cfg); try done; destruct (_ && _ && _), a; done.
  - left. destruct (session_timer a); [|done]. unfold a_tick in H. destruct (who a) as [[k' n]|] eqn:E; cbn [snd] in H; [|by rewrite E in H].
    by destruct (n =? 5), a.
  - left. destruct (check_runs a); [|done]. unfold a_check in H. destruct a. cbn in *. by destruct (_ <? _).
  - left. unfold a_thread in H. destruct (threads a !! j) as [[|i]|]; [..|done]; destruct a; cbn in *; by destruct (_ <? _).
Qed.

(** Login attempts with wrong passwords. *)
Definition wrong_login (x : action) : Prop :=
  action_ok x /\ match x with RLogin _ (Some (user, pass)) _ => credentials (sent user) (sent pass) = false | _ => False end.

Lemma wrong_ok x : wrong_login x -> action_ok x.
Proof. by intros [? _]. Qed.

Lemma wrong_step x a : wrong_login x -> locks = true -> 0 <= fail_count a <= max_retry_times cfg ->
  max_retry_times cfg < 2 ^ 31 ->
  fst (a_step x a) = ACode (if fail_count a <? max_retry_times cfg then 10101 else 10103) /\
  fail_count (snd (a_step x a)) = Z.min (fail_count a + 1) (max_retry_times cfg).
Proof.
  intros [_ Hc] Hl Hf Hm. destruct x as [wp [[user pass]|] rand| | | | | | | | | | |]; try done.
  cbn [a_step]. unfold a_login, locked. rewrite Hl, Hc. cbn [andb negb].
  destruct (Z.leb_spec (max_retry_times cfg) (fail_count a)); cbn [login_code fst snd].
  - replace (fail_count a <? max_retry_times cfg) with false by zb. split; [done|]. lia.
  - replace (fail_count a <? max_retry_times cfg) with true by zb. split; [done|].
    assert (E : s32 (fail_count a + 1) = fail_count a + 1) by (apply swrap_small; lia).
    unfold a_fail. destruct a. cbn in *. rewrite E. destruct (_ && _); cbn; lia.
Qed.

Lemma wrong_steps xs : forall a, Forall wrong_login xs -> locks = true -> 0 <= fail_count a <= max_retry_times cfg ->
  max_retry_times cfg < 2 ^ 31 ->
  let left := Z.to_nat (max_retry_times cfg - fail_count a) in
  fst (a_steps xs a) = repeat (ACode 10101) (min (length xs) left) ++ repeat (ACode 10103) (length xs - left).
Proof.
  induction xs as [|x xs IH]; intros a Hx Hl Hf Hm; cbn [a_steps length]; [done|].
  apply Forall_cons_iff in Hx as [Hx Hxs]. destruct (wrong_step x a Hx Hl Hf Hm) as [Hr Hc].
  destruct (a_step x a) as [r a1]. cbn [fst snd] in *. subst r.
  specialize (IH a1 Hxs Hl ltac:(lia) Hm). cbn zeta in IH. destruct (a_steps xs a1) as [rs a2]. cbn [fst] in *. rewrite IH, Hc.
  destruct (Z.ltb_spec (fail_count a) (max_retry_times cfg)).
  - rewrite Z.min_l by lia.
    replace (Z.to_nat (max_retry_times cfg - fail_count a)) with (S (Z.to_nat (max_retry_times cfg - (fail_count a + 1)))) by lia.
    done.
  - rewrite Z.min_r by lia. replace (Z.to_nat (max_retry_times cfg - fail_count a)) with 0%nat by lia.
    replace (Z.to_nat (max_retry_times cfg - max_retry_times cfg)) with 0%nat by lia.
    rewrite !Nat.min_0_r, !Nat.sub_0_r. done.
Qed.

(** C2. The login requests, the timers and the threads implement the abstract login: in any
    order, every one returns, each answer is the abstract one, and the table of sessions
    never holds more than the session of the client who logged in last.  In particular a
    token is given to no client while a password is needed. *)
Theorem login_system_refines xs st a : lrep st a -> Forall action_ok xs ->
  exists st', steps xs st = Some (fst (a_steps xs a), st') /\ lrep st' (snd (a_steps xs a)).
Proof using strdup_some new_cell_fresh malloc_ok. apply steps_refine. Qed.

(** C15. Nobody gets in without the password: whatever request, timer or thread comes next, a
    client who is logged in afterwards was so before, or has just sent the right user name
    and password, at a time when the login was not locked. *)
Theorem login_needs_password x st a : lrep st a -> action_ok x ->
  exists r st' a', step x st = Some (r, st') /\ lrep st' a' /\
    forall k, is_who (who a') k = true ->
      is_who (who a) k = true \/ (locked a = false /\ gave_password x k).
Proof using strdup_some new_cell_fresh malloc_ok.
  intros Hl Hx. destruct (step_refines x st a Hl Hx) as (st' & -> & Hl').
  exists (fst (a_step x a)), st', (snd (a_step x a)). split; [done|]. split; [done|]. intros k. apply a_step_who.
Qed.

(** C25. Guessing is bounded: of any number of logins with wrong passwords, by any clients,
    only as many are checked as the count of failures leaves up to the limit; all later ones
    are refused without a look at the password, until a timer or a thread resets the count. *)
Theorem guesses_bounded xs st a : lrep st a -> Forall wrong_login xs -> locks = true ->
  0 <= fail_count a <= max_retry_times cfg -> max_retry_times cfg < 2 ^ 31 ->
  let left := Z.to_nat (max_retry_times cfg - fail_count a) in
  exists st', steps xs st =
    Some (repeat (ACode 10101) (min (length xs) left) ++ repeat (ACode 10103) (length xs - left), st').
Proof using strdup_some new_cell_fresh malloc_ok.
  intros Hl Hx Hlk Hf Hm left. destruct (steps_refine xs st a Hl) as (st' & -> & _).
  - eapply List.Forall_impl; [|exact Hx]. apply wrong_ok.
  - exists st'. by rewrite (wrong_steps xs a Hx Hlk Hf Hm).
Qed.
End Auth.

(** ** Examples *)

(** Three tries, then a lock of three seconds. *)
Definition demo_cfg : webs_data := mkWebsData (str "admin") (str "secret") 1 3 3 0 0 0 E_WEBS_UI_PW_NEEDED.
Definition demo_login : login_sys := mkLogin demo_sessions 0 0 [] 0 false 0 7.
Definition demo_auth : auth := auth_of demo_login None.

Lemma demo_login_ok : lrep demo_login demo_auth.
Proof. constructor; [done|exact demo_sessions_ok|done]. Qed.

Lemma demo_addr_ok ip : bool_decide (Forall (fun c => c <> 0) ip /\ zlen ip <= 17 /\ 95 ∉ ip) -> addr_ok (demo_client ip).
Proof. intros H%bool_decide_unpack. exact H. Qed.

Definition guess (wp : websRec) : action := RLogin wp (Some (str "admin", str "guess")) 5.
Definition enter (wp : websRec) : action := RLogin wp (Some (str "admin", str "secret")) 5.

Lemma alice_addr : addr_ok alice.
Proof. apply demo_addr_ok. by vm_compute. Qed.
Lemma bob_addr : addr_ok bob.
Proof. apply demo_addr_ok. by vm_compute. Qed.

Lemma enter_ok wp : addr_ok wp -> action_ok (enter wp).
Proof. split; [done|]. split; apply (bool_decide_unpack _); by vm_compute. Qed.
Lemma guess_wrong wp : addr_ok wp -> wrong_login demo_balloc true demo_cfg (guess wp).
Proof. split; [|done]. split; [done|]. split; apply (bool_decide_unpack _); by vm_compute. Qed.

(** Alice logs in and tries again, Bob takes the session over and keeps it up; the token
    stays with the server. *)
Lemma login_system_refines_witness :
  exists st', steps demo_balloc true true demo_cfg Some above 12345
      [enter alice; enter alice; enter bob; TSession; RHeartBeat bob; RToken bob; RLoginState alice; RLogout bob 1; RLoginState bob] demo_login =
    Some ([ACode 0; ACode 0; ACode 0; ADone; ADone; AToken 0; AState E_WEBS_LOGIN_STATE_LOGOUT 3; ADone; AState E_WEBS_LOGIN_STATE_LOGOUT 3], st').
Proof.
  destruct (login_system_refines demo_balloc true true demo_cfg Some above 12345 url_balloc_ok (fun _ => eq_refl) above_fresh
    [enter alice; enter alice; enter bob; TSession; RHeartBeat bob; RToken bob; RLoginState alice; RLogout bob 1; RLoginState bob]
    demo_login demo_auth demo_login_ok) as (st' & E & _).
  - repeat (apply List.Forall_cons; [first [exact I|exact (enter_ok alice alice_addr)|exact (enter_ok bob bob_addr)|exact alice_addr|exact bob_addr]|]). apply List.Forall_nil.
  - exists st'. rewrite E. vm_compute. reflexivity.
Defined.

Lemma login_needs_password_witness :
  exists r st' a', step demo_balloc true true demo_cfg Some above 12345 (enter alice) demo_login = Some (r, st') /\ lrep st' a' /\
    forall k, is_who (who a') k = true -> gave_password demo_balloc true demo_cfg (enter alice) k.
Proof.
  destruct (login_needs_password demo_balloc true true demo_cfg Some above 12345 url_balloc_ok (fun _ => eq_refl) above_fresh (enter alice)
    demo_login demo_auth demo_login_ok (enter_ok alice alice_addr)) as (r & st' & a' & E & Hl & H).
  exists r, st', a'. split; [exact E|]. split; [exact Hl|]. intros k Hk.
  destruct (H k Hk) as [H1|[_ H1]]; [discriminate H1|exact H1].
Defined.

Lemma guesses_bounded_witness :
  exists st', steps demo_balloc true true demo_cfg Some above 12345 [guess alice; guess bob; guess alice; guess alice; guess bob] demo_login =
    Some ([ACode 10101; ACode 10101; ACode 10101; ACode 10103; ACode 10103], st').
Proof.
  destruct (guesses_bounded demo_balloc true true demo_cfg Some above 12345 url_balloc_ok (fun _ => eq_refl) above_fresh
    [guess alice; guess bob; guess alice; guess alice; guess bob] demo_login demo_auth demo_login_ok) as (st' & E).
  - repeat (apply List.Forall_cons; [first [exact (guess_wrong alice alice_addr)|exact (guess_wrong bob bob_addr)]|]). apply List.Forall_nil.
  - reflexivity.
  - vm_compute. split; discriminate.
  - reflexivity.
  - exists st'. exact E.
Defined.

(** The lock holds for all clients, and opens when its thread has slept three seconds. *)
Example lock_and_unlock :
  fst <$> steps demo_balloc true true demo_cfg Some above 12345
    [guess alice; guess alice; guess alice; enter bob; TThread 0; TThread 0; TThread 0; enter bob; TThread 0; enter bob] demo_login =
  Some [ACode 10101; ACode 10101; ACode 10101; ACode 10103; ADone; ADone; ADone; ACode 10103; ADone; ACode 0].
Proof. vm_compute. reflexivity. Qed.

(** A client who is not logged in stops the timer: the session of another never ends. *)
Example logout_of_another :
  (fun r => session_timer (auth_of (snd r) None)) <$>
    steps demo_balloc true true demo_cfg Some above 12345 ([enter alice; RTnLogout bob] ++ repeat TSession 10) demo_login = Some false /\
  fst <$> steps demo_balloc true true demo_cfg Some above 12345 ([enter alice; RTnLogout bob] ++ repeat TSession 10 ++ [RLoginState alice]) demo_login =
    Some ([ACode 0; ACode 0] ++ repeat ADone 10 ++ [AState E_WEBS_LOGIN_STATE_LOGIN 3]).
Proof. split; vm_compute; reflexivity. Qed.
