(* ===== verification/HttpDate.v ===== *)
(** * The dates of HTTP (webs/src/src/webs.c, from [parseNDIGIT] on)

    The date of an If-Modified-Since header is read by functions that follow the syntax of
    RFC 2616, with the calendar of Dershowitz and Reingold; [websParseRequest] keeps the
    result and [websDefaultHandler] compares it with the time of the page.  A buffer is its
    block of bytes; reading past its end is [None].  [long] and [time_t] have [lw] bits.
    The quotients that the code computes as [double] are of numbers far below [2^53], and
    [floor] of them is the quotient rounded down, which is [Z.div]. *)

From Stdlib Require Import Ascii.
From S2P Require Import Prelude CString Url Fmt Security.
#[local] Open Scope Z_scope.
#[local] Open Scope cint_scope.

(** A character literal. *)
Definition chr (a : ascii) : Z := Z.of_nat (nat_of_ascii a).
Arguments chr a%_char.

(** [MonthEnumeration] and [WeekdayEnumeration]; both count from 0. *)
Definition JAN : Z := 0.
Definition FEB : Z := 1.
Definition MAR : Z := 2.
Definition APR : Z := 3.
Definition MAY : Z := 4.
Definition JUN : Z := 5.
Definition JUL : Z := 6.
Definition AUG : Z := 7.
Definition SEP : Z := 8.
Definition OCT : Z := 9.
Definition NOV : Z := 10.
Definition DEC : Z := 11.
Definition SUN : Z := 0.
Definition MON : Z := 1.
Definition TUE : Z := 2.
Definition WED : Z := 3.
Definition THU : Z := 4.
Definition FRI : Z := 5.
Definition SAT : Z := 6.

(** ** Fields

    Each function takes the index and gives its value with the index it leaves off at. *)

Fixpoint ndigit_loop (digits : nat) (buf : list Z) (tmpIndex returnValue : Z) : option (Z * Z) :=
  match digits with
  | O => Some (returnValue, tmpIndex)
  | S digits =>
      c ← load buf tmpIndex;
      ndigit_loop digits buf (tmpIndex + 1) (if isdigit c then returnValue * 10 + (c - chr "0") else returnValue)
  end.

Definition parseNDIGIT (buf : list Z) (digits : nat) (index : Z) : option (Z * Z) := ndigit_loop digits buf index 0.

Definition parseMonth (buf : list Z) (index : Z) : option (Z * Z) :=
  c ← load buf index;
  returnValue ←
    (if c =? chr "A" then
       c1 ← load buf (index + 1);
       Some (if c1 =? chr "p" then APR else if c1 =? chr "u" then AUG else -1)
     else if c =? chr "D" then Some DEC
     else if c =? chr "F" then Some FEB
     else if c =? chr "J" then
       c1 ← load buf (index + 1);
       if c1 =? chr "a" then Some JAN
       else if c1 =? chr "u" then
         c2 ← load buf (index + 2);
         Some (if c2 =? chr "l" then JUL else if c2 =? chr "n" then JUN else -1)
       else Some (-1)
     else if c =? chr "M" then
       c1 ← load buf (index + 1);
       if c1 =? chr "a" then
         c2 ← load buf (index + 2);
         Some (if c2 =? chr "r" then MAR else if c2 =? chr "y" then MAY else -1)
       else Some (-1)
     else if c =? chr "N" then Some NOV
     else if c =? chr "O" then Some OCT
     else if c =? chr "S" then Some SEP
     else Some (-1));
  Some (returnValue, if 0 <=? returnValue then index + 3 else index).

Definition parseYear (buf : list Z) (index : Z) : option (Z * Z) :=
  '(returnValue, tmpIndex) ← parseNDIGIT buf 4 index;
  if 0 <=? returnValue then Some (returnValue, tmpIndex)
  else
    '(returnValue, tmpIndex) ← parseNDIGIT buf 2 tmpIndex;
    if 0 <=? returnValue then
      Some (if returnValue <? 70 then returnValue + 2000 else returnValue + 1900, tmpIndex)
    else Some (returnValue, index).

Definition parseTime (buf : list Z) (index : Z) : option (Z * Z) :=
  '(hourValue, tmpIndex) ← parseNDIGIT buf 2 index;
  '(minuteValue, secondValue, tmpIndex) ←
    (if 0 <=? hourValue then
       '(minuteValue, tmpIndex) ← parseNDIGIT buf 2 (tmpIndex + 1);
       if 0 <=? minuteValue then
         '(secondValue, tmpIndex) ← parseNDIGIT buf 2 (tmpIndex + 1); Some (minuteValue, secondValue, tmpIndex)
       else Some (minuteValue, -1, tmpIndex)
     else Some (-1, -1, tmpIndex));
  if (0 <=? hourValue) && (0 <=? minuteValue) && (0 <=? secondValue) then
    Some ((hourValue * 60 + minuteValue) * 60 + secondValue, tmpIndex)
  else Some (-1, index).

(** ** The calendar *)

Definition GregorianEpoch : Z := 1.

Definition GregorianLeapYearP (year : Z) : bool :=
  let tmp := Z.rem year 400 in
  (Z.rem year 4 =? 0) && negb (tmp =? 100) && negb (tmp =? 200) && negb (tmp =? 300).

Definition FixedFromGregorian (month day year : Z) : Z :=
  let fixedDate :=
    GregorianEpoch - 1 + 365 * (year - 1) + (year - 1) / 4 - (year - 1) / 100 + (year - 1) / 400
    + (367 * month - 362) / 12 in
  let fixedDate :=
    if month <=? 2 then fixedDate + 0
    else if GregorianLeapYearP year then fixedDate + -1
    else fixedDate + -2 in
  fixedDate + day.

Definition GregorianYearFromFixed (fixedDate : Z) : Z :=
  let d0 := fixedDate - GregorianEpoch in
  let n400 := d0 / 146097 in
  let d1 := Z.rem d0 146097 in
  let n100 := d1 / 36524 in
  let d2 := Z.rem d1 36524 in
  let n4 := d2 / 1461 in
  let d3 := Z.rem d2 1461 in
  let n1 := d3 / 365 in
  let year := 400 * n400 + 100 * n100 + 4 * n4 + n1 in
  if (n100 =? 4) || (n1 =? 4) then year else year + 1.

Definition GregorianDateDifference (month1 day1 year1 month2 day2 year2 : Z) : Z :=
  FixedFromGregorian month2 day2 year2 - FixedFromGregorian month1 day1 year1.

(** ** The three formats *)

Section Dates.
Context (lw : Z).

(** The macro is not in parentheses, but it is the last factor of its product. *)
Definition dateToTimet (year month day : Z) : Z :=
  let dayDifference := FixedFromGregorian (month + 1) day year - FixedFromGregorian 1 1 1970 in
  swrap lw (dayDifference * 24 * 60 * 60).

Definition parseDate1or2 (buf : list Z) (index : Z) : option (Z * Z) :=
  c ← load buf index;
  if c =? chr "," then
    '(dayValue, tmpIndex) ← parseNDIGIT buf 2 (index + 2);
    '(monthValue, yearValue, tmpIndex) ←
      (if 0 <=? dayValue then
         '(monthValue, tmpIndex) ← parseMonth buf (tmpIndex + 1);
         if 0 <=? monthValue then
           '(yearValue, tmpIndex) ← parseYear buf (tmpIndex + 1); Some (monthValue, yearValue, tmpIndex)
         else Some (monthValue, -1, tmpIndex)
       else Some (-1, -1, tmpIndex));
    if (0 <=? dayValue) && (0 <=? monthValue) && (0 <=? yearValue) then
      Some (if yearValue <? 1970 then 0 else dateToTimet yearValue monthValue dayValue, tmpIndex)
    else Some (-1, index)
  else Some (-1, index).

Definition parseDate3Time (buf : list Z) (index : Z) : option (Z * Z) :=
  '(monthValue, tmpIndex) ← parseMonth buf index;
  '(dayValue, timeValue, yearValue, tmpIndex) ←
    (if 0 <=? monthValue then
       let tmpIndex := tmpIndex + 1 in
       c ← load buf tmpIndex;
       '(dayValue, tmpIndex) ← (if c =? chr " " then parseNDIGIT buf 1 (tmpIndex + 1) else parseNDIGIT buf 2 tmpIndex);
       '(timeValue, tmpIndex) ← parseTime buf tmpIndex;
       if 0 <=? timeValue then
         '(yearValue, tmpIndex) ← parseYear buf tmpIndex; Some (dayValue, timeValue, yearValue, tmpIndex)
       else Some (dayValue, timeValue, -1, tmpIndex)
     else Some (-1, -1, -1, tmpIndex));
  if (0 <=? dayValue) && (0 <=? monthValue) && (0 <=? yearValue) then
    Some (swrap lw (dateToTimet yearValue monthValue dayValue + timeValue), tmpIndex)
  else Some (-1, index).

Definition bufferIndexIncrementGivenNTest (buf : list Z) (testIndex testChar foundIncrement notfoundIncrement : Z) : option Z :=
  c ← load buf testIndex; Some (if c =? testChar then foundIncrement else notfoundIncrement).

(** [sizeof(name)]: the NUL is counted. *)
Definition sizeof (name : list Z) : Z := zlen name + 1.

Definition parseWeekday (buf : list Z) (index : Z) : option (Z * Z) :=
  let found (day testChar : Z) (name : list Z) :=
    n ← bufferIndexIncrementGivenNTest buf (index + 3) testChar (sizeof name) 3; Some (day, index + n) in
  c ← load buf index;
  if c =? chr "F" then found FRI (chr "d") (str "Friday")
  else if c =? chr "M" then found MON (chr "d") (str "Monday")
  else if c =? chr "S" then
    c1 ← load buf (index + 1);
    if c1 =? chr "a" then found SAT (chr "u") (str "Saturday")
    else if c1 =? chr "u" then found SUN (chr "d") (str "Sunday")
    else Some (-1, index)
  else if c =? chr "T" then
    c1 ← load buf (index + 1);
    if c1 =? chr "h" then found THU (chr "r") (str "Thursday")
    else if c1 =? chr "u" then found TUE (chr "s") (str "Tuesday")
    else Some (-1, index)
  else if c =? chr "W" then found WED (chr "n") (str "Wednesday")
  else Some (-1, index).

Definition dateParse (cmd : list Z) : option Z :=
  '(weekday, index) ← parseWeekday cmd 0;
  if 0 <=? weekday then
    '(dateValue, tmpIndex) ← parseDate1or2 cmd index;
    if 0 <=? dateValue then
      '(timeValue, _) ← parseTime cmd (tmpIndex + 1);
      Some (if 0 <=? timeValue then swrap lw (dateValue + timeValue) else 0)
    else '(parsedValue, _) ← parseDate3Time cmd index; Some parsedValue
  else Some 0.

(** ** The header and the answer *)

Definition WEBS_ASP : Z := 256.
Definition WEBS_IF_MODIFIED : Z := 16.

(** [if ((cp = gstrchr(value, ';')) != NULL) *cp = 0] *)
Fixpoint cut_at (s : list Z) (c : Z) : list Z :=
  match s with [] => [] | d :: s => if d =? c then [] else d :: cut_at s c end.

(** What the header sets: [wp->since] and [wp->flags]. *)
Definition if_modified_since (balloc : Z -> option (list Z)) (brealloc : list Z -> Z -> option (list Z))
  (value : list Z) (flags : Z) : option (Z * Z) :=
  let value := cut_at value (chr ";") in
  '(_, cmd) ← fmtAlloc balloc brealloc lw 64 (str "%s") [AStr (Some (value ++ [0]))];
  cmd ← cmd;
  since ← dateParse cmd;
  Some (since, if negb (since =? 0) then Z.lor flags WEBS_IF_MODIFIED else flags).

(** Whether a page last changed at [mtime] is answered 304, "use local copy". *)
Definition use_local_copy (flags mtime since : Z) : bool :=
  negb (Z.land flags WEBS_IF_MODIFIED =? 0) && (Z.land flags WEBS_ASP =? 0) && (mtime <=? since).
End Dates.
