(* ===== verification/HttpDateSpec.v ===== *)
(** * What the dates of HTTP mean

    The calendar is counted day by day: [FixedFromGregorian] numbers the days, and the
    seconds that [dateParse] gives are those since the first of January 1970.  Of the three
    formats of RFC 2616 only the first is understood. *)

From Stdlib Require Import Ascii.
From S2P Require Import Prelude CString Url UrlSpec Fmt Security HttpDate.
#[local] Open Scope Z_scope.
#[local] Open Scope cint_scope.

(** ** Days *)

(** A day of the calendar: year, month from 1, day from 1. *)
Definition date : Type := Z * Z * Z.

Definition leap (y : Z) : bool := (y mod 4 =? 0) && (negb (y mod 100 =? 0) || (y mod 400 =? 0)).
Definition month_days (y m : Z) : Z :=
  if m =? 2 then if leap y then 29 else 28
  else if (m =? 4) || (m =? 6) || (m =? 9) || (m =? 11) then 30 else 31.

Definition next_day (d : date) : date :=
  let '(y, m, d) := d in
  if d <? month_days y m then (y, m, d + 1) else if m <? 12 then (y, m + 1, 1) else (y + 1, 1, 1).

Definition valid (d : date) : Prop := let '(y, m, d) := d in 1 <= y /\ 1 <= m <= 12 /\ 1 <= d <= month_days y m.

Lemma leap_spec y : 1 <= y -> GregorianLeapYearP y = leap y.
Proof.
  intros Hy. unfold GregorianLeapYearP, leap. rewrite !Z.rem_mod_nonneg by lia.
  assert (E4 : y mod 4 = y mod 400 mod 4) by (rewrite <- Znumtheory.Zmod_div_mod; [done|lia|lia|by exists 100]).
  assert (E100 : y mod 100 = y mod 400 mod 100) by (rewrite <- Znumtheory.Zmod_div_mod; [done|lia|lia|by exists 4]).
  rewrite E4, E100. pose proof (Z.mod_pos_bound y 400 eq_refl) as Hb. set (r := y mod 400) in *. clearbody r. clear E4 E100 Hy.
  apply eq_true_iff_eq. rewrite !andb_true_iff, orb_true_iff, !negb_true_iff, !Z.eqb_eq, !Z.eqb_neq.
  assert (Hr : r mod 100 = 0 <-> r = 0 \/ r = 100 \/ r = 200 \/ r = 300).
  { pose proof (Z.div_mod r 100 ltac:(lia)). pose proof (Z.mod_pos_bound r 100 eq_refl). lia. }
  rewrite Hr. lia.
Qed.

(** The twelve months, one by one. *)
Ltac each_month m :=
  let H := fresh in
  assert (H : m = 1 \/ m = 2 \/ m = 3 \/ m = 4 \/ m = 5 \/ m = 6 \/ m = 7 \/ m = 8 \/ m = 9 \/ m = 10 \/ m = 11 \/ m = 12) by lia;
  repeat destruct H as [->|H]; [..|subst m].

(** Evaluate what depends on the month only. *)
Ltac month_values :=
  repeat match goal with
         | |- context [(367 * ?a - 362) / 12] =>
             let v := eval vm_compute in ((367 * a - 362) / 12) in change ((367 * a - 362) / 12) with v
         | |- context [nth (Z.to_nat ?a) ?l 0] =>
             let v := eval vm_compute in (nth (Z.to_nat a) l 0) in change (nth (Z.to_nat a) l 0) with v
         | |- context [?a =? ?b] => let v := eval vm_compute in (a =? b) in lazymatch v with true => idtac | false => idtac end; change (a =? b) with v
         | |- context [?a <=? ?b] => let v := eval vm_compute in (a <=? b) in lazymatch v with true => idtac | false => idtac end; change (a <=? b) with v
         | |- context [?a <? ?b] => let v := eval vm_compute in (a <? b) in lazymatch v with true => idtac | false => idtac end; change (a <? b) with v
         end; cbn [andb orb]; cbn iota.

(** The days before the month [m], without those of the leap year. *)
Lemma fixed_month y m d : 1 <= m <= 12 -> 1 <= y -> FixedFromGregorian m d y =
  365 * (y - 1) + (y - 1) / 4 - (y - 1) / 100 + (y - 1) / 400
  + nth (Z.to_nat (m - 1)) [0; 31; 59; 90; 120; 151; 181; 212; 243; 273; 304; 334] 0
  + (if (2 <? m) && leap y then 1 else 0) + d.
Proof.
  intros Hm Hy. unfold FixedFromGregorian, GregorianEpoch. rewrite leap_spec by done.
  each_month m; month_values; destruct (leap y); lia.
Qed.

Lemma year_step y : 1 <= y ->
  365 * (y + 1 - 1) + (y + 1 - 1) / 4 - (y + 1 - 1) / 100 + (y + 1 - 1) / 400 =
  365 * (y - 1) + (y - 1) / 4 - (y - 1) / 100 + (y - 1) / 400 + (if leap y then 366 else 365).
Proof.
  intros Hy. replace (y + 1 - 1) with y by lia. unfold leap.
  destruct (Z.eqb_spec (y mod 4) 0), (Z.eqb_spec (y mod 100) 0), (Z.eqb_spec (y mod 400) 0); cbn [andb orb negb];
    Z.div_mod_to_equations; lia.
Qed.

(** The next day has the next number. *)
Lemma next_day_fixed y m d y' m' d' : valid (y, m, d) -> next_day (y, m, d) = (y', m', d') ->
  valid (y', m', d') /\ FixedFromGregorian m' d' y' = FixedFromGregorian m d y + 1.
Proof.
  intros (Hy & Hm & Hd). unfold next_day.
  destruct (Z.ltb_spec d (month_days y m)); [intros [= <- <- <-]|destruct (Z.ltb_spec m 12); intros [= <- <- <-]].
  - split; [split; [done|]; split; lia|]. rewrite !fixed_month by lia. lia.
  - assert (d = month_days y m) as -> by lia. split.
    + split; [done|]. split; [lia|]. unfold month_days. destruct (leap y), (_ || _), (_ =? _); lia.
    + rewrite !fixed_month by lia. unfold month_days. assert (Hm' : 1 <= m <= 11) by lia. clear Hm. each_month m; [..|lia];
        month_values; destruct (leap y); lia.
  - assert (m = 12) as -> by lia. assert (d = month_days y 12) as -> by lia. cbn in Hd. split.
    + split; [lia|]. split; [lia|]. cbn. lia.
    + rewrite !fixed_month, year_step by lia. month_values. change (month_days y 12) with 31. destruct (leap y); lia.
Qed.

Lemma days_fixed n : forall y m d y' m' d', valid (y, m, d) -> Nat.iter n next_day (y, m, d) = (y', m', d') ->
  valid (y', m', d') /\ FixedFromGregorian m' d' y' = FixedFromGregorian m d y + Z.of_nat n.
Proof.
  induction n as [|n IH]; intros y m d y' m' d' Hv; [cbn|change (Nat.iter (S n) next_day (y, m, d)) with (next_day (Nat.iter n next_day (y, m, d)))].
  - intros [= -> -> ->]. split; [done|]. lia.
  - destruct (Nat.iter n next_day (y, m, d)) as [[y1 m1] d1] eqn:E1. intros E.
    destruct (IH _ _ _ _ _ _ Hv E1) as [Hv1 E2]. destruct (next_day_fixed _ _ _ _ _ _ Hv1 E) as [Hv' ->].
    split; [done|]. lia.
Qed.

(** The year of a day is found again. *)
Definition day_of_year (y m d : Z) : Z :=
  nth (Z.to_nat (m - 1)) [0; 31; 59; 90; 120; 151; 181; 212; 243; 273; 304; 334] 0 + (if (2 <? m) && leap y then 1 else 0) + d - 1.

Lemma day_of_year_range y m d : valid (y, m, d) ->
  0 <= day_of_year y m d <= 365 /\ (day_of_year y m d = 365 -> leap y = true).
Proof.
  intros (Hy & Hm & Hd). unfold day_of_year, month_days in *.
  each_month m; revert Hd; month_values; intros Hd; destruct (leap y); lia.
Qed.

Lemma quotient n q r : 0 <= r < n -> 0 <= q -> (n * q + r) / n = q /\ Z.rem (n * q + r) n = r.
Proof.
  intros Hr Hq. rewrite Z.rem_mod_nonneg by nia. rewrite (Z.mul_comm n q), Z.div_add_l, Z.div_small by lia.
  rewrite (Z.add_comm (q * n) r), Z.mod_add, Z.mod_small by lia. split; lia.
Qed.

Lemma year_of_fixed y m d : valid (y, m, d) -> GregorianYearFromFixed (FixedFromGregorian m d y) = y.
Proof.
  intros Hv. destruct (day_of_year_range y m d Hv) as [Ht Hl]. destruct Hv as (Hy & Hm & _).
  assert (E : FixedFromGregorian m d y - GregorianEpoch =
    365 * (y - 1) + (y - 1) / 4 - (y - 1) / 100 + (y - 1) / 400 + day_of_year y m d).
  { rewrite fixed_month by done. unfold day_of_year, GregorianEpoch. lia. }
  unfold GregorianYearFromFixed. rewrite E. set (t := day_of_year y m d) in *. clearbody t. clear E Hm.
  assert (Hl' : t = 365 -> y mod 4 = 0 /\ (y mod 100 <> 0 \/ y mod 400 = 0)).
  { intros Ht'. specialize (Hl Ht'). unfold leap in Hl. apply andb_true_iff in Hl as [H1 H2]. apply orb_true_iff in H2.
    rewrite negb_true_iff, Z.eqb_neq, Z.eqb_eq in H2. by apply Z.eqb_eq in H1. }
  clear Hl.
  set (a := (y - 1) / 400). set (b := ((y - 1) mod 400) / 100). set (c := ((y - 1) mod 100) / 4). set (e := (y - 1) mod 4).
  assert (Hx : y - 1 = 400 * a + 100 * b + 4 * c + e /\ 0 <= b <= 3 /\ 0 <= c <= 24 /\ 0 <= e <= 3 /\ 0 <= a).
  { unfold a, b, c, e. Z.div_mod_to_equations. lia. }
  assert (E4 : (y - 1) / 4 = 100 * a + 25 * b + c) by (Z.div_mod_to_equations; lia).
  assert (E100 : (y - 1) / 100 = 4 * a + b) by (Z.div_mod_to_equations; lia).
  rewrite E4, E100. fold a. clearbody a b c e. clear E4 E100. destruct Hx as (Ey & Hb & Hc & He & Ha). rewrite Ey.
  assert (Hl : t = 365 -> e = 3 /\ (c <= 23 \/ b = 3)).
  { intros H. destruct (Hl' H) as [H1 H2]. clear Hl'. Z.div_mod_to_equations. lia. }
  clear Hl'. replace (365 * _ + _ - _ + _ + _) with (146097 * a + (36524 * b + (1461 * c + (365 * e + t)))) by lia.
  assert (Hr1 : 0 <= 36524 * b + (1461 * c + (365 * e + t)) < 146097) by lia.
  destruct (quotient 146097 a _ Hr1) as [-> ->]; [lia|].
  assert (Hlast : (b = 3 /\ c = 24 /\ e = 3 /\ t = 365) \/ 0 <= 1461 * c + (365 * e + t) < 36524) by lia.
  destruct Hlast as [(-> & -> & -> & ->)|Hr2].
  - replace (36524 * 3 + _) with (36524 * 4 + 0) by lia. destruct (quotient 36524 4 0) as [-> ->]; [lia..|].
    change (Z.rem 0 1461) with 0. change (0 / 1461) with 0. change (0 / 365) with 0. cbn [Z.eqb Pos.eqb orb]. lia.
  - destruct (quotient 36524 b _ Hr2) as [-> ->]; [lia|].
    assert (Hr3 : 0 <= 365 * e + t < 1461) by lia. destruct (quotient 1461 c _ Hr3) as [-> ->]; [lia|].
    assert (He4 : (t = 365 /\ e = 3) \/ 0 <= t < 365) by lia. destruct He4 as [[-> ->]|Ht'].
    + change ((365 * 3 + 365) / 365) with 4. rewrite orb_true_r. lia.
    + destruct (quotient 365 e t Ht') as [-> _]; [lia|]. replace (b =? 4) with false by zb. replace (e =? 4) with false by zb.
      cbn [orb]. lia.
Qed.

(** ** Reading a text

    [reads buf i rest]: the bytes of [buf] from the index [i] on are [rest]. *)
Definition reads (buf : list Z) (i : Z) (rest : list Z) : Prop := exists pre, buf = pre ++ rest /\ i = zlen pre.

Lemma reads_start buf : reads buf 0 buf.
Proof. by exists []. Qed.
Lemma reads_load buf i c rest : reads buf i (c :: rest) -> load buf i = Some c.
Proof. intros (pre & -> & ->). apply load_app. Qed.
Lemma reads_next buf i c rest : reads buf i (c :: rest) -> reads buf (i + 1) rest.
Proof. intros (pre & -> & ->). exists (pre ++ [c]). rewrite <- app_assoc, length_app. cbn [length]. split; [done|lia]. Qed.
Lemma reads_skip l : forall buf i rest, reads buf i (l ++ rest) -> reads buf (i + zlen l) rest.
Proof.
  intros buf i rest (pre & -> & ->). exists (pre ++ l). rewrite <- app_assoc, length_app. split; [done|lia].
Qed.

(** The texts of the parts of a date. *)
Definition two (n : Z) : list Z := [48 + n / 10; 48 + n mod 10].
Definition four (n : Z) : list Z := two (n / 100) ++ two (n mod 100).
Definition month_name (m : Z) : list Z :=
  nth (Z.to_nat m) [str "Jan"; str "Feb"; str "Mar"; str "Apr"; str "May"; str "Jun";
                    str "Jul"; str "Aug"; str "Sep"; str "Oct"; str "Nov"; str "Dec"] [].
Definition day_name (w : Z) : list Z :=
  nth (Z.to_nat w) [str "Sun"; str "Mon"; str "Tue"; str "Wed"; str "Thu"; str "Fri"; str "Sat"] [].
Definition long_day_name (w : Z) : list Z :=
  nth (Z.to_nat w) [str "Sunday"; str "Monday"; str "Tuesday"; str "Wednesday"; str "Thursday"; str "Friday"; str "Saturday"] [].
Definition clock (h mi s : Z) : list Z := two h ++ [chr ":"] ++ two mi ++ [chr ":"] ++ two s.

Lemma digit_char d : 0 <= d < 10 -> isdigit (48 + d) = true.
Proof. intros Hd. unfold isdigit. apply andb_true_intro. split; zb. Qed.

Lemma reads_digit k buf i d v rest : 0 <= d < 10 -> reads buf i (48 + d :: rest) ->
  ndigit_loop (S k) buf i v = ndigit_loop k buf (i + 1) (v * 10 + d).
Proof.
  intros Hd H. cbn [ndigit_loop]. rewrite (reads_load _ _ _ _ H). cbn [mbind option_bind]. rewrite digit_char by done.
  f_equal. change (chr "0") with 48. lia.
Qed.

Lemma reads_two buf i n rest : 0 <= n < 100 -> reads buf i (two n ++ rest) ->
  parseNDIGIT buf 2 i = Some (n, i + 2) /\ reads buf (i + 2) rest.
Proof.
  intros Hn H. split; [|by apply (reads_skip (two n))]. unfold parseNDIGIT.
  rewrite (reads_digit 1 buf i (n / 10) 0 (48 + n mod 10 :: rest)); [|Z.div_mod_to_equations; lia|done].
  rewrite (reads_digit 0 buf (i + 1) (n mod 10) _ rest); [|Z.div_mod_to_equations; lia|by apply reads_next in H].
  cbn [ndigit_loop]. f_equal. f_equal; [|lia]. pose proof (Z.div_mod n 10). lia.
Qed.

Lemma reads_four buf i n rest : 0 <= n < 10000 -> reads buf i (four n ++ rest) ->
  parseNDIGIT buf 4 i = Some (n, i + 4) /\ reads buf (i + 4) rest.
Proof.
  intros Hn H. split; [|by apply (reads_skip (four n))]. unfold four in H. rewrite <- app_assoc in H. unfold parseNDIGIT.
  assert (H100 : 0 <= n / 100 < 100 /\ 0 <= n mod 100 < 100) by (Z.div_mod_to_equations; lia).
  destruct (reads_two buf i (n / 100) _ ltac:(lia) H) as [_ H2].
  rewrite (reads_digit 3 buf i (n / 100 / 10) 0 (48 + n / 100 mod 10 :: two (n mod 100) ++ rest)); [|Z.div_mod_to_equations; lia|done].
  rewrite (reads_digit 2 buf (i + 1) (n / 100 mod 10) _ (two (n mod 100) ++ rest)); [|Z.div_mod_to_equations; lia|by apply reads_next in H].
  replace (i + 1 + 1) with (i + 2) by lia.
  rewrite (reads_digit 1 buf (i + 2) (n mod 100 / 10) _ (48 + n mod 100 mod 10 :: rest)); [|Z.div_mod_to_equations; lia|done].
  rewrite (reads_digit 0 buf (i + 2 + 1) (n mod 100 mod 10) _ rest); [|Z.div_mod_to_equations; lia|by apply reads_next in H2].
  cbn [ndigit_loop]. f_equal. f_equal; [|lia]. Z.div_mod_to_equations. lia.
Qed.

(** Seven weekdays and twelve months, one by one. *)
Ltac each_weekday w :=
  let H := fresh in
  assert (H : w = 0 \/ w = 1 \/ w = 2 \/ w = 3 \/ w = 4 \/ w = 5 \/ w = 6) by lia;
  repeat destruct H as [->|H]; [..|subst w].

(** A month that is the one at the index is read. *)
Ltac read_month H :=
  unfold parseMonth; rewrite (reads_load _ _ _ _ H); cbn [mbind option_bind];
  let H1 := fresh in pose proof (reads_next _ _ _ _ H) as H1; rewrite ?(reads_load _ _ _ _ H1); cbn [mbind option_bind];
  let H2 := fresh in pose proof (reads_next _ _ _ _ H1) as H2; match type of H2 with reads ?b (?i + 1 + 1) ?r => change (reads b (i + 1 + 1) r) in H2; replace (i + 1 + 1) with (i + 2) in H2 by lia end;
  rewrite ?(reads_load _ _ _ _ H2); reflexivity.

Lemma reads_month buf i m rest : 0 <= m < 12 -> reads buf i (month_name m ++ rest) ->
  parseMonth buf i = Some (m, i + 3) /\ reads buf (i + 3) rest.
Proof.
  intros Hm. assert (H : m = 0 \/ m = 1 \/ m = 2 \/ m = 3 \/ m = 4 \/ m = 5 \/ m = 6 \/ m = 7 \/ m = 8 \/ m = 9 \/ m = 10 \/ m = 11) by lia.
  repeat destruct H as [->|H]; [..|subst m];
    (intros H1; split; [|match type of H1 with reads _ _ (?l ++ _) => exact (reads_skip l _ _ _ H1) end]; read_month H1).
Qed.


(** ** The three formats *)

Lemma reads_clock buf i h mi s rest : 0 <= h < 100 -> 0 <= mi < 100 -> 0 <= s < 100 ->
  reads buf i (clock h mi s ++ rest) ->
  parseTime buf i = Some ((h * 60 + mi) * 60 + s, i + 8).
Proof.
  intros Hh Hmi Hs H. unfold clock in H. rewrite <- !app_assoc in H. unfold parseTime.
  destruct (reads_two _ _ _ _ Hh H) as [-> H1]. cbn [mbind option_bind].
  replace (0 <=? h) with true by zb. apply reads_next in H1.
  destruct (reads_two _ _ _ _ Hmi H1) as [-> H2]. cbn [mbind option_bind].
  replace (0 <=? mi) with true by zb. apply reads_next in H2.
  destruct (reads_two _ _ _ _ Hs H2) as [-> _]. cbn [mbind option_bind].
  replace (0 <=? s) with true by zb. cbn [mbind option_bind andb].
  replace (0 <=? h) with true by zb. replace (0 <=? mi) with true by zb. replace (0 <=? s) with true by zb.
  by replace (i + 2 + 1 + 2 + 1 + 2) with (i + 8) by lia.
Qed.

(** Behind the short name of a weekday comes a comma or a blank. *)
Lemma weekday_short w c rest : 0 <= w < 7 -> c = 44 \/ c = 32 ->
  parseWeekday (day_name w ++ c :: rest) 0 = Some (w, 3) /\ reads (day_name w ++ c :: rest) 3 (c :: rest).
Proof.
  intros Hw Hc. each_weekday w; (split; [by destruct Hc as [->| ->]|]);
    match goal with |- reads (?l ++ _) _ _ => exact (reads_skip l _ _ _ (reads_start _)) end.
Qed.

(** The NUL that [sizeof] counts makes the index one too high behind a long name. *)
Lemma weekday_long w c rest : 0 <= w < 7 ->
  exists i, parseWeekday (long_day_name w ++ c :: rest) 0 = Some (w, i) /\ reads (long_day_name w ++ c :: rest) i rest.
Proof.
  intros Hw. each_weekday w; (eexists; split; [reflexivity|]);
    match goal with |- reads (?l ++ ?c :: ?r) _ _ => exact (reads_next _ _ _ _ (reads_skip l _ _ _ (reads_start _))) end.
Qed.

Section Dates.
Context (lw : Z).

(** The date of RFC 1123, behind the weekday. *)
Lemma reads_date1 buf i y m d rest : 0 <= y < 10000 -> 0 <= m < 12 -> 0 <= d < 100 ->
  reads buf i (str ", " ++ two d ++ str " " ++ month_name m ++ str " " ++ four y ++ rest) ->
  parseDate1or2 lw buf i = Some (if y <? 1970 then 0 else dateToTimet lw y m d, i + 13) /\ reads buf (i + 13) rest.
Proof.
  intros Hy Hm Hd H. unfold parseDate1or2. rewrite (reads_load _ _ _ _ H). cbn [mbind option_bind].
  change (44 =? chr ",") with true. cbn iota.
  pose proof (reads_skip (str ", ") _ _ _ H) as H1. change (zlen (str ", ")) with 2 in H1.
  destruct (reads_two _ _ _ _ Hd H1) as [-> H2]. cbn [mbind option_bind]. replace (0 <=? d) with true by zb.
  apply (reads_skip (str " ")) in H2. change (zlen (str " ")) with 1 in H2.
  destruct (reads_month _ _ _ _ Hm H2) as [-> H3]. cbn [mbind option_bind]. replace (0 <=? m) with true by zb.
  apply (reads_skip (str " ")) in H3. change (zlen (str " ")) with 1 in H3. unfold parseYear.
  destruct (reads_four _ _ _ _ Hy H3) as [-> H4]. cbn [mbind option_bind]. replace (0 <=? y) with true by zb.
  cbn [mbind option_bind andb]. replace (0 <=? d) with true by zb. replace (0 <=? m) with true by zb. replace (0 <=? y) with true by zb.
  replace (i + 2 + 2 + 1 + 3 + 1 + 4) with (i + 13) in * by lia. done.
Qed.

(** Neither of the other two formats is read. *)
Lemma dateParse_blank w rest : 0 <= w < 7 -> dateParse lw (day_name w ++ 32 :: rest) = Some (-1).
Proof.
  intros Hw. destruct (weekday_short w 32 rest Hw) as [E H]; [by right|]. unfold dateParse. rewrite E. cbn [mbind option_bind].
  replace (0 <=? w) with true by zb. unfold parseDate1or2, parseDate3Time, parseMonth.
  rewrite (reads_load _ _ _ _ H). reflexivity.
Qed.

Lemma dateParse_long w c rest : 0 <= w < 7 -> dateParse lw (long_day_name w ++ c :: 32 :: rest) = Some (-1).
Proof.
  intros Hw. destruct (weekday_long w c (32 :: rest) Hw) as (i & E & H). unfold dateParse. rewrite E. cbn [mbind option_bind].
  replace (0 <=? w) with true by zb. unfold parseDate1or2, parseDate3Time, parseMonth.
  rewrite (reads_load _ _ _ _ H). reflexivity.
Qed.

(** Reads within the block. *)
Lemma load_some (buf : list Z) i : 0 <= i < zlen buf -> exists c, load buf i = Some c.
Proof.
  intros Hi. unfold load. replace (0 <=? i) with true by zb. apply lookup_lt_is_Some. lia.
Qed.

Lemma ndigit_total k : forall (buf : list Z) i v, 0 <= i -> i + Z.of_nat k <= zlen buf -> 0 <= v ->
  exists v', ndigit_loop k buf i v = Some (v', i + Z.of_nat k) /\ 0 <= v' < (v + 1) * 10 ^ Z.of_nat k.
Proof.
  induction k as [|k IH]; intros buf i v Hi Hk Hv; cbn [ndigit_loop].
  - exists v. rewrite Z.add_0_r. change (10 ^ Z.of_nat 0) with 1. split; [done|]. lia.
  - destruct (load_some buf i) as [c ->]; [lia|]. cbn [mbind option_bind]. rewrite Nat2Z.inj_succ, Z.pow_succ_r by lia.
    assert (Hc : 0 <= (if isdigit c then v * 10 + (c - chr "0") else v) < 10 * (v + 1)).
    { unfold isdigit. change (chr "0") with 48. destruct (Z.leb_spec 48 c), (Z.leb_spec c 57); cbn [andb]; lia. }
    destruct (IH buf (i + 1) (if isdigit c then v * 10 + (c - chr "0") else v)) as (v' & -> & Hv'); [lia..|].
    exists v'. split; [do 2 f_equal; lia|]. pose proof (Z.pow_pos_nonneg 10 (Z.of_nat k)). nia.
Qed.

Lemma month_total (buf : list Z) i : 0 <= i -> i + 3 <= zlen buf ->
  exists m j, parseMonth buf i = Some (m, j) /\ (m = -1 \/ (0 <= m < 12 /\ j = i + 3)).
Proof.
  intros Hi Hl. unfold parseMonth. destruct (load_some buf i) as [c ->]; [lia|]. destruct (load_some buf (i + 1)) as [c1 ->]; [lia|].
  destruct (load_some buf (i + 2)) as [c2 ->]; [lia|]. cbn [mbind option_bind].
  assert (Hr : exists m, (if c =? chr "A" then Some (if c1 =? chr "p" then APR else if c1 =? chr "u" then AUG else -1)
    else if c =? chr "D" then Some DEC else if c =? chr "F" then Some FEB
    else if c =? chr "J" then (if c1 =? chr "a" then Some JAN
      else if c1 =? chr "u" then Some (if c2 =? chr "l" then JUL else if c2 =? chr "n" then JUN else -1) else Some (-1))
    else if c =? chr "M" then (if c1 =? chr "a" then Some (if c2 =? chr "r" then MAR else if c2 =? chr "y" then MAY else -1) else Some (-1))
    else if c =? chr "N" then Some NOV else if c =? chr "O" then Some OCT else if c =? chr "S" then Some SEP else Some (-1)) = Some m
    /\ -1 <= m < 12).
  { repeat match goal with |- context [if ?b then _ else _] => destruct b end; (eexists; split; [reflexivity|]); vm_compute; split; congruence. }
  destruct Hr as (m & -> & Hm). cbn [mbind option_bind]. eexists _, _. split; [done|].
  destruct (Z.leb_spec 0 m); [right; lia|left; lia].
Qed.

Lemma time_total (buf : list Z) i : 0 <= i -> i + 8 <= zlen buf ->
  exists t, parseTime buf i = Some (t, i + 8) /\ 0 <= t.
Proof.
  intros Hi Hl. unfold parseTime, parseNDIGIT.
  destruct (ndigit_total 2 buf i 0) as (h & -> & Hh); [lia..|]. cbn [mbind option_bind]. replace (0 <=? h) with true by zb.
  destruct (ndigit_total 2 buf (i + Z.of_nat 2 + 1) 0) as (mi & -> & Hmi); [lia..|]. cbn [mbind option_bind].
  replace (0 <=? mi) with true by zb.
  destruct (ndigit_total 2 buf (i + Z.of_nat 2 + 1 + Z.of_nat 2 + 1) 0) as (s & -> & Hs); [lia..|]. cbn [mbind option_bind].
  replace (0 <=? h) with true by zb. replace (0 <=? mi) with true by zb. replace (0 <=? s) with true by zb. cbn [andb].
  replace (i + Z.of_nat 2 + 1 + Z.of_nat 2 + 1 + Z.of_nat 2) with (i + 8) by lia. eexists. split; [done|]. lia.
Qed.

Lemma year_total (buf : list Z) i : 0 <= i -> i + 4 <= zlen buf -> exists y, parseYear buf i = Some (y, i + 4) /\ 0 <= y.
Proof.
  intros Hi Hl. unfold parseYear, parseNDIGIT. destruct (ndigit_total 4 buf i 0) as (y & -> & Hy); [lia..|].
  cbn [mbind option_bind]. replace (0 <=? y) with true by zb. exists y. split; [done|lia].
Qed.

Lemma date1_total (buf : list Z) i : 0 <= i -> i + 13 <= zlen buf ->
  exists v j, parseDate1or2 lw buf i = Some (v, j) /\ 0 <= j <= i + 13.
Proof.
  intros Hi Hl. unfold parseDate1or2. destruct (load_some buf i) as [c ->]; [lia|]. cbn [mbind option_bind].
  destruct (c =? _); [|eexists _, _; split; [done|lia]]. unfold parseNDIGIT.
  destruct (ndigit_total 2 buf (i + 2) 0) as (d & -> & Hd); [lia..|]. cbn [mbind option_bind].
  replace (0 <=? d) with true by zb. destruct (month_total buf (i + 2 + Z.of_nat 2 + 1)) as (m & j & -> & Hm); [lia..|].
  cbn [mbind option_bind]. destruct Hm as [->|[Hm ->]]; [cbn; rewrite ?andb_false_r; eexists _, _; split; [done|lia]|].
  replace (0 <=? m) with true by zb.
  destruct (year_total buf (i + 2 + Z.of_nat 2 + 1 + 3 + 1)) as (y & -> & Hy); [lia..|]. cbn [mbind option_bind].
  destruct (_ && _); eexists _, _; (split; [done|lia]).
Qed.

Lemma date3_total (buf : list Z) i : 0 <= i -> i + 19 <= zlen buf -> exists v j, parseDate3Time lw buf i = Some (v, j).
Proof.
  intros Hi Hl. unfold parseDate3Time. destruct (month_total buf i) as (m & j & -> & Hm); [lia..|]. cbn [mbind option_bind].
  destruct Hm as [->|[Hm ->]]; [cbn; by eexists _, _|]. replace (0 <=? m) with true by zb.
  destruct (load_some buf (i + 3 + 1)) as [c ->]; [lia|]. cbn [mbind option_bind]. unfold parseNDIGIT.
  assert (Hd : exists d, (if c =? chr " " then ndigit_loop 1 buf (i + 3 + 1 + 1) 0 else ndigit_loop 2 buf (i + 3 + 1) 0) = Some (d, i + 6)).
  { destruct (c =? chr " ").
    - destruct (ndigit_total 1 buf (i + 3 + 1 + 1) 0) as (d & -> & _); [lia..|]. exists d. by replace (i + 6) with (i + 3 + 1 + 1 + Z.of_nat 1) by lia.
    - destruct (ndigit_total 2 buf (i + 3 + 1) 0) as (d & -> & _); [lia..|]. exists d. by replace (i + 6) with (i + 3 + 1 + Z.of_nat 2) by lia. }
  destruct Hd as (d & ->). cbn [mbind option_bind]. destruct (time_total buf (i + 6)) as (t & -> & Ht); [lia..|].
  cbn [mbind option_bind]. replace (0 <=? t) with true by zb. destruct (year_total buf (i + 6 + 8)) as (y & -> & Hy); [lia..|].
  cbn [mbind option_bind]. destruct (_ && _); by eexists _, _.
Qed.

Lemma weekday_total (buf : list Z) : 4 <= zlen buf -> exists w j, parseWeekday buf 0 = Some (w, j) /\ 0 <= j <= 10.
Proof.
  intros Hl. unfold parseWeekday, bufferIndexIncrementGivenNTest. destruct (load_some buf 0) as [c ->]; [lia|].
  destruct (load_some buf (0 + 1)) as [c1 ->]; [lia|]. destruct (load_some buf (0 + 3)) as [c3 ->]; [lia|]. cbn [mbind option_bind].
  repeat match goal with |- context [if ?b then _ else _] => destruct b end;
    (eexists _, _; split; [reflexivity|]; vm_compute; split; congruence).
Qed.

(** No date reads past the 33rd byte. *)
Lemma dateParse_total (buf : list Z) : 33 <= zlen buf -> exists v, dateParse lw buf = Some v.
Proof.
  intros Hl. unfold dateParse. destruct (weekday_total buf) as (w & i & -> & Hi); [lia|]. cbn [mbind option_bind].
  destruct (0 <=? w); [|by eexists].
  destruct (date1_total buf i) as (v & j & -> & Hj); [lia..|]. cbn [mbind option_bind]. destruct (0 <=? v).
  - destruct (time_total buf (j + 1)) as (t & -> & Ht); [lia..|]. cbn [mbind option_bind]. by eexists.
  - destruct (date3_total buf i) as (t & k & ->); [lia..|]. cbn [mbind option_bind]. by eexists.
Qed.

(** The result fits [time_t]. *)
Lemma date1_range buf i v j : 1 < lw -> parseDate1or2 lw buf i = Some (v, j) -> - 2 ^ (lw - 1) <= v < 2 ^ (lw - 1).
Proof.
  intros Hlw. pose proof (Z.pow_gt_1 2 (lw - 1)) as Hp. unfold parseDate1or2.
  destruct (load _ _) as [c|]; cbn [mbind option_bind]; [|done]. destruct (c =? _); [|intros [= <- <-]; lia].
  destruct (parseNDIGIT _ _ _) as [[d k]|]; cbn [mbind option_bind]; [|done].
  destruct (if 0 <=? d then _ else _) as [[[m y] k']|]; cbn [mbind option_bind]; [|done].
  destruct (_ && _); intros [= <- <-]; [|lia]. destruct (_ <? _); [lia|]. apply swrap_range. lia.
Qed.

Lemma date3_range buf i v j : 1 < lw -> parseDate3Time lw buf i = Some (v, j) -> - 2 ^ (lw - 1) <= v < 2 ^ (lw - 1).
Proof.
  intros Hlw. pose proof (Z.pow_gt_1 2 (lw - 1)) as Hp. unfold parseDate3Time.
  destruct (parseMonth _ _) as [[m k]|]; cbn [mbind option_bind]; [|done].
  destruct (if 0 <=? m then _ else _) as [[[[d t] y] k']|]; cbn [mbind option_bind]; [|done].
  destruct (_ && _); intros [= <- <-]; [|lia]. apply swrap_range. lia.
Qed.

Lemma dateParse_range buf v : 1 < lw -> dateParse lw buf = Some v -> - 2 ^ (lw - 1) <= v < 2 ^ (lw - 1).
Proof.
  intros Hlw. pose proof (Z.pow_gt_1 2 (lw - 1)) as Hp. unfold dateParse.
  destruct (parseWeekday _ _) as [[w i]|]; cbn [mbind option_bind]; [|done]. destruct (0 <=? w); [|intros [= <-]; lia].
  destruct (parseDate1or2 lw buf i) as [[d k]|] eqn:E; cbn [mbind option_bind]; [|done]. destruct (0 <=? d).
  - destruct (parseTime _ _) as [[t k']|]; cbn [mbind option_bind]; [|done]. intros [= <-].
    destruct (0 <=? t); [|lia]. apply swrap_range. lia.
  - destruct (parseDate3Time lw buf i) as [[t k']|] eqn:E3; cbn [mbind option_bind]; [|done]. intros [= <-]. by eapply date3_range.
Qed.

(** The formats of RFC 2616. *)
Definition rfc1123 (w : Z) (dt : date) (h mi s : Z) : list Z :=
  let '(y, m, d) := dt in
  day_name w ++ str ", " ++ two d ++ str " " ++ month_name (m - 1) ++ str " " ++ four y ++ str " " ++ clock h mi s ++ str " GMT".
Definition rfc850 (w : Z) (dt : date) (h mi s : Z) : list Z :=
  let '(y, m, d) := dt in
  long_day_name w ++ str ", " ++ two d ++ str "-" ++ month_name (m - 1) ++ str "-" ++ two (y mod 100) ++ str " " ++ clock h mi s ++ str " GMT".
Definition asctime (w : Z) (dt : date) (h mi s : Z) : list Z :=
  let '(y, m, d) := dt in
  day_name w ++ str " " ++ month_name (m - 1) ++ str " " ++ (if d <? 10 then [32; 48 + d] else two d) ++ str " " ++
  clock h mi s ++ str " " ++ four y.

Definition epoch : date := (1970, 1, 1).

(** The seconds of a time of day, [n] days after the epoch. *)
Definition seconds (n : nat) (h mi s : Z) : Z := Z.of_nat n * 86400 + (h * 60 + mi) * 60 + s.

Lemma timet_days n y m d : 32 <= lw -> Nat.iter n next_day epoch = (y, m, d) -> Z.of_nat n * 86400 < 2 ^ (lw - 1) ->
  dateToTimet lw y (m - 1) d = Z.of_nat n * 86400 /\ valid (y, m, d) /\ 1970 <= y.
Proof.
  intros Hlw Hn Hr. destruct (days_fixed n 1970 1 1 y m d) as [Hv E]; [vm_compute; intuition discriminate|exact Hn|].
  unfold dateToTimet. replace (m - 1 + 1) with m by lia. rewrite E. change (FixedFromGregorian 1 1 1970) with 719163 in *. split; [|split; [done|]].
  - rewrite swrap_small; [lia|lia|]. pose proof (Z.pow_pos_nonneg 2 (lw - 1)). lia.
  - pose proof (year_of_fixed y m d Hv) as Hy. destruct (Z.leb_spec 1970 y) as [?|Hlt]; [done|exfalso].
    assert (H1 : FixedFromGregorian m d y < 719163); [|lia].
    destruct (day_of_year_range y m d Hv) as [Ht Hlp]. destruct Hv as (Hy1 & Hm & _). rewrite fixed_month by done.
    assert (Hc : y <= 1968 \/ y = 1969 /\ day_of_year y m d <= 364).
    { assert (Hy' : y <= 1968 \/ y = 1969) by lia. destruct Hy' as [?|Hy']; [by left|right]. subst y. split; [done|].
      destruct (Z.eq_dec (day_of_year 1969 m d) 365) as [E'|]; [|lia]. by specialize (Hlp E'). }
    clear Hlp. unfold day_of_year in Ht, Hc.
    set (x := nth _ _ _ + _) in *. replace (_ + nth _ _ _ + _ + d) with
      (365 * (y - 1) + (y - 1) / 4 - (y - 1) / 100 + (y - 1) / 400 + x + d) by (unfold x; lia).
    clearbody x. clear Hy Hm. Z.div_mod_to_equations. lia.
Qed.

Lemma dateParse_rfc1123 n w y m d h mi s rest : 32 <= lw -> 0 <= w < 7 -> Nat.iter n next_day epoch = (y, m, d) ->
  y < 10000 -> 0 <= h < 24 -> 0 <= mi < 60 -> 0 <= s <= 60 -> seconds n h mi s < 2 ^ (lw - 1) ->
  dateParse lw (rfc1123 w (y, m, d) h mi s ++ rest) = Some (seconds n h mi s).
Proof.
  intros Hlw Hw Hn Hy Hh Hmi Hs Hr. unfold seconds in *. destruct (timet_days n y m d Hlw Hn) as (Et & Hv & Hy70); [lia|].
  destruct Hv as (Hy1 & Hm & Hd). assert (Hd31 : d <= 31) by (unfold month_days in Hd; destruct (leap y), (_ || _), (_ =? _); lia).
  unfold rfc1123. rewrite <- !app_assoc. destruct (weekday_short w 44 (32 :: two d ++ str " " ++ month_name (m - 1) ++ str " " ++
    four y ++ str " " ++ clock h mi s ++ str " GMT" ++ rest) Hw) as [Ew Hb]; [by left|].
  change (str ", " ++ ?l) with (44 :: 32 :: l). unfold dateParse. rewrite Ew. cbn [mbind option_bind]. replace (0 <=? w) with true by zb.
  destruct (reads_date1 _ 3 y (m - 1) d (str " " ++ clock h mi s ++ str " GMT" ++ rest) ltac:(lia) ltac:(lia) ltac:(lia) Hb) as [-> Hc].
  cbn [mbind option_bind]. replace (y <? 1970) with false by zb. rewrite Et. replace (0 <=? Z.of_nat n * 86400) with true by zb.
  apply (reads_skip (str " ")) in Hc. change (zlen (str " ")) with 1 in Hc.
  rewrite (reads_clock _ _ h mi s _ ltac:(lia) ltac:(lia) ltac:(lia) Hc). cbn [mbind option_bind].
  replace (0 <=? (h * 60 + mi) * 60 + s) with true by zb. f_equal.
  rewrite swrap_small; [lia|lia|]. pose proof (Z.pow_pos_nonneg 2 (lw - 1)). lia.
Qed.
End Dates.

(** ** The header *)

Section Header.
Context (lw : Z) (balloc : Z -> option (list Z)) (brealloc : list Z -> Z -> option (list Z)).
Hypothesis lw_ok : lw = 32 \/ lw = 64.
Hypothesis balloc_ok : forall n, 0 < n <= 2 ^ 30 -> exists b, balloc n = Some b /\ zlen b = n.
Hypothesis brealloc_ok : forall b n, zlen b <= n <= 2 ^ 30 ->
  exists b', brealloc b n = Some b' /\ zlen b' = n /\ take (length b) b' = b.

Lemma cut_at_none v c : c ∉ v -> cut_at v c = v.
Proof.
  induction v as [|d v IH]; cbn; [done|]. rewrite not_elem_of_cons. intros [Hd Hv].
  destruct (Z.eqb_spec d c); [congruence|]. by rewrite IH.
Qed.

Lemma cut_at_prefix v c : exists t, v = cut_at v c ++ t.
Proof.
  induction v as [|d v [t IH]]; cbn; [by exists []|]. destruct (d =? c); [by exists (d :: v)|]. exists t. cbn. by f_equal.
Qed.

(** The copy of the value is cut to 63 bytes; its block has 64. *)
Lemma header_copy v : no_nul v -> zlen v < 2 ^ 32 ->
  exists b, fmtAlloc balloc brealloc lw 64 (str "%s") [AStr (Some (v ++ [0]))] = Some (Z.min (zlen v) 63, Some b) /\
    cstr b = Some (take 63 v) /\ 64 <= zlen b.
Proof using All.
  intros Hv Hl. assert (Ht : text lw (capacity 64) (str "%s") [AStr (Some (v ++ [0]))] = Some (v, [])).
  { unfold text, text_after, format. change (S (S (length (str "%s")))) with 4%nat. change (str "%s") with [37; 115].
    rewrite (format_s lw _ lw_ok 1 [] (v ++ [0]) v) by (done || by apply cstr_app). apply (format_end lw _ 2). }
  destruct (fmtAlloc_block balloc brealloc balloc_ok brealloc_ok lw 64 _ _ _ _ ltac:(lia) Ht) as (b & E & Hb & Hlen);
    [left; done|]. by exists b.
Qed.

Lemma header_dates v flags : no_nul v -> zlen v < 2 ^ 32 ->
  exists b, 64 <= zlen b /\ cstr b = Some (take 63 (cut_at v 59)) /\
    if_modified_since lw balloc brealloc v flags =
      (since ← dateParse lw b; Some (since, if negb (since =? 0) then Z.lor flags WEBS_IF_MODIFIED else flags)).
Proof using All.
  intros Hv Hl. destruct (cut_at_prefix v 59) as [t Et]. assert (Hv' : no_nul (cut_at v 59)).
  { unfold no_nul in *. rewrite Et in Hv. by apply Forall_app in Hv as [? _]. }
  destruct (header_copy (cut_at v 59) Hv') as (b & E & Hb & Hlen); [rewrite Et, length_app in Hl; lia|].
  exists b. split; [done|]. split; [done|]. unfold if_modified_since. change (chr ";") with 59. by rewrite E.
Qed.

(** A short value without a semicolon is copied as it is. *)
Lemma header_plain v flags since : no_nul v -> 59 ∉ v -> zlen v <= 63 -> (forall rest, dateParse lw (v ++ rest) = Some since) ->
  if_modified_since lw balloc brealloc v flags =
    Some (since, if negb (since =? 0) then Z.lor flags WEBS_IF_MODIFIED else flags).
Proof using All.
  intros Hv Hs Hl Hd. destruct (header_dates v flags Hv ltac:(lia)) as (b & _ & Hb & ->). rewrite cut_at_none in Hb by done.
  rewrite take_ge in Hb by lia. apply cstr_sound in Hb as [_ (b' & ->)]. by rewrite Hd.
Qed.

(** Whatever the header holds, reading its date stays within the copy of the header and
    gives a time that fits [time_t]. *)
Theorem if_modified_since_bounded v flags : no_nul v -> zlen v < 2 ^ 32 ->
  exists since flags', if_modified_since lw balloc brealloc v flags = Some (since, flags') /\
    - 2 ^ (lw - 1) <= since < 2 ^ (lw - 1).
Proof using All.
  intros Hv Hl. destruct (header_dates v flags Hv Hl) as (b & Hlen & _ & ->).
  destruct (dateParse_total lw b) as [t Et]; [lia|]. rewrite Et. cbn [mbind option_bind]. eexists _, _. split; [done|].
  eapply dateParse_range; [lia|done].
Qed.

Lemma flag_set flags : Z.land (Z.lor flags WEBS_IF_MODIFIED) WEBS_IF_MODIFIED <> 0.
Proof.
  intros H. assert (Hb : Z.testbit (Z.land (Z.lor flags WEBS_IF_MODIFIED) WEBS_IF_MODIFIED) 4 = false) by (rewrite H; apply Z.bits_0).
  rewrite Z.land_spec, Z.lor_spec in Hb. change (Z.testbit WEBS_IF_MODIFIED 4) with true in Hb. by rewrite orb_true_r in Hb.
Qed.

Lemma flag_asp flags : Z.land (Z.lor flags WEBS_IF_MODIFIED) WEBS_ASP = Z.land flags WEBS_ASP.
Proof. rewrite Z.land_lor_distr_l. change (Z.land WEBS_IF_MODIFIED WEBS_ASP) with 0. apply Z.lor_0_r. Qed.

(** The characters of the texts. *)
Definition date_char (c : Z) : Prop := c <> 0 /\ c <> 59.

Lemma two_chars n : 0 <= n < 100 -> Forall date_char (two n).
Proof. intros Hn. unfold date_char, two. repeat constructor; Z.div_mod_to_equations; lia. Qed.

Lemma rfc1123_chars w y m d h mi s : 0 <= w < 7 -> 0 <= y < 10000 -> 1 <= m <= 12 -> 0 <= d < 100 ->
  0 <= h < 100 -> 0 <= mi < 100 -> 0 <= s < 100 ->
  Forall date_char (rfc1123 w (y, m, d) h mi s) /\ zlen (rfc1123 w (y, m, d) h mi s) = 29.
Proof.
  intros Hw Hy Hm Hd Hh Hmi Hs. unfold rfc1123, clock, four.
  assert (Hdn : Forall date_char (day_name w) /\ zlen (day_name w) = 3) by (each_weekday w; (split; [repeat constructor; vm_compute; congruence|done])).
  assert (Hmn : Forall date_char (month_name (m - 1)) /\ zlen (month_name (m - 1)) = 3)
    by (each_month m; (split; [repeat constructor; vm_compute; congruence|done])).
  assert (H100 : 0 <= y / 100 < 100 /\ 0 <= y mod 100 < 100) by (Z.div_mod_to_equations; lia).
  destruct Hdn as [Hdn Ldn], Hmn as [Hmn Lmn]. split.
  - repeat (apply Forall_app; split); try (by apply two_chars; lia); try done; (repeat constructor; vm_compute; congruence).
  - rewrite !length_app. change (length (str ", ")) with 2%nat. change (length (str " ")) with 1%nat. change (length (str " GMT")) with 4%nat.
    cbn [length two]. lia.
Qed.

(** C29. The conditional request works for the preferred format: for the date that is [n]
    days after the first of January 1970, counted day by day in the calendar, the page is
    answered "use local copy" exactly if it is not generated and has not changed since. *)
Theorem conditional_get n w y m d h mi s flags mtime :
  0 <= w < 7 -> Nat.iter n next_day epoch = (y, m, d) -> y < 10000 -> 0 <= h < 24 -> 0 <= mi < 60 -> 0 <= s <= 60 ->
  0 < seconds n h mi s < 2 ^ (lw - 1) ->
  exists flags', if_modified_since lw balloc brealloc (rfc1123 w (y, m, d) h mi s) flags = Some (seconds n h mi s, flags') /\
    use_local_copy flags' mtime (seconds n h mi s) = (Z.land flags WEBS_ASP =? 0) && (mtime <=? seconds n h mi s).
Proof using All.
  intros Hw Hn Hy Hh Hmi Hs [Ht0 Ht]. assert (Hlw : 32 <= lw) by lia.
  destruct (timet_days lw n y m d Hlw Hn) as (_ & (Hy1 & Hm & Hd) & _); [unfold seconds in Ht; lia|].
  assert (Hd31 : d <= 31) by (unfold month_days in Hd; destruct (leap y), (_ || _), (_ =? _); lia).
  destruct (rfc1123_chars w y m d h mi s) as [Hc Hl]; [lia..|].
  rewrite (header_plain _ _ (seconds n h mi s)).
  - replace (seconds n h mi s =? 0) with false by zb. cbn [negb]. eexists. split; [done|]. unfold use_local_copy. rewrite flag_asp.
    by rewrite (proj2 (Z.eqb_neq _ _) (flag_set flags)).
  - eapply List.Forall_impl; [|exact Hc]. by intros c [? _].
  - intros H. rewrite Forall_forall in Hc. apply list_elem_of_In in H. by destruct (Hc _ H).
  - lia.
  - intros rest. apply dateParse_rfc1123; done || lia.
Qed.

(** C35. The other two formats are not understood: the dates that the server itself sends in
    Last-modified, which are those of [ctime], never lead to "use local copy", nor do those
    of RFC 850. *)
Theorem old_dates_ignored w dt h mi s flags mtime v : 0 <= w < 7 ->
  v = asctime w dt h mi s \/ v = rfc850 w dt h mi s -> no_nul v -> 59 ∉ v -> zlen v <= 63 -> 0 <= mtime ->
  exists flags', if_modified_since lw balloc brealloc v flags = Some (-1, flags') /\ use_local_copy flags' mtime (-1) = false.
Proof using All.
  intros Hw Hv Hn Hs Hl Hm. rewrite (header_plain v flags (-1)); try done.
  - eexists. split; [done|]. unfold use_local_copy. replace (mtime <=? -1) with false by zb. apply andb_false_r.
  - intros rest. destruct dt as [[y m] d]. destruct Hv as [-> | ->]; cbn [asctime rfc850]; rewrite <- app_assoc.
    + apply dateParse_blank. done.
    + apply (dateParse_long lw w 44). done.
Qed.
End Header.

(** The day numbers count the days of the calendar: the first of January of the year 1
    is day 1, the day [n] days later has the number [n + 1], and its year is found again
    from the number. *)
Theorem calendar_counts_days n y m d : Nat.iter n next_day (1, 1, 1) = (y, m, d) ->
  FixedFromGregorian m d y = Z.of_nat n + 1 /\ GregorianYearFromFixed (Z.of_nat n + 1) = y.
Proof.
  intros Hn. destruct (days_fixed n 1 1 1 y m d) as [Hv E]; [vm_compute; intuition discriminate|done|].
  change (FixedFromGregorian 1 1 1) with 1 in E. rewrite <- (year_of_fixed y m d Hv) at 2. rewrite E. split; [lia|f_equal; lia].
Qed.

(** ** Examples *)

(** The date of RFC 2616: 9075 days and a bit after the epoch. *)
Lemma conditional_get_witness :
  rfc1123 0 (1994, 11, 6) 8 49 37 = str "Sun, 06 Nov 1994 08:49:37 GMT" /\
  exists flags', if_modified_since 32 demo_balloc demo_brealloc (rfc1123 0 (1994, 11, 6) 8 49 37) 0 = Some (784111777, flags') /\
    use_local_copy flags' 784111777 784111777 = true.
Proof.
  split; [reflexivity|].
  destruct (conditional_get 32 demo_balloc demo_brealloc (or_introl eq_refl) demo_balloc_ok demo_brealloc_ok
    9075 0 1994 11 6 8 49 37 0 784111777) as (flags' & E & H).
  - lia.
  - vm_compute. reflexivity.
  - lia.
  - lia.
  - lia.
  - lia.
  - vm_compute. split; reflexivity.
  - exists flags'. split; [exact E|exact H].
Defined.

Lemma old_dates_ignored_witness :
  asctime 0 (1994, 11, 6) 8 49 37 = str "Sun Nov  6 08:49:37 1994" /\
  exists flags', if_modified_since 32 demo_balloc demo_brealloc (asctime 0 (1994, 11, 6) 8 49 37) 0 = Some (-1, flags') /\
    use_local_copy flags' 784111777 (-1) = false.
Proof.
  split; [reflexivity|].
  apply (old_dates_ignored 32 demo_balloc demo_brealloc (or_introl eq_refl) demo_balloc_ok demo_brealloc_ok 0 (1994, 11, 6) 8 49 37 0 784111777).
  - lia.
  - left. reflexivity.
  - apply (bool_decide_unpack _). vm_compute. reflexivity.
  - apply (bool_decide_unpack _). vm_compute. reflexivity.
  - vm_compute. discriminate.
  - lia.
Defined.

Lemma if_modified_since_bounded_witness :
  exists since flags', if_modified_since 32 demo_balloc demo_brealloc (str "F") 0 = Some (since, flags') /\ - 2 ^ 31 <= since < 2 ^ 31.
Proof.
  apply (if_modified_since_bounded 32 demo_balloc demo_brealloc (or_introl eq_refl) demo_balloc_ok demo_brealloc_ok (str "F") 0).
  - apply (bool_decide_unpack _). vm_compute. reflexivity.
  - reflexivity.
Defined.

Lemma calendar_counts_days_witness : FixedFromGregorian 3 1 4 = 1156 /\ GregorianYearFromFixed 1156 = 4.
Proof. apply (calendar_counts_days 1155 4 3 1). vm_compute. reflexivity. Defined.
