(* ===== verification/SafeUrl.v ===== *)
(** * URLs in error pages (webs/src/src/webs.c, [charCount], [websSafeUrl])

    A URL that is shown in a page has its angle brackets replaced, so that it holds no
    tags.  The block that is allocated counts four bytes for each bracket. *)

From Stdlib Require Import Ascii.
From S2P Require Import Prelude CString Url UrlSpec Security HttpDate.
#[local] Open Scope Z_scope.
#[local] Open Scope cint_scope.

Definition kLt : Z := chr "<".
Definition kLessThan : list Z := str "&lt;".
Definition kGt : Z := chr ">".
Definition kGreaterThan : list Z := str "&gt;".

(** [while (1) { p = gstrchr(p, ch); if (NULL == p) break; ++count; ++p; }] *)
Fixpoint charCount_loop (fuel : nat) (p : list Z) (ch count : Z) : option Z :=
  match fuel with
  | O => None
  | S fuel =>
      match strchr p ch with
      | None => Some count
      | Some p => charCount_loop fuel (drop 1 p) ch (s32 (count + 1))
      end
  end.

Definition charCount (s : cptr) (ch : Z) : option Z :=
  match s with None => Some 0 | Some p => charCount_loop (S (length p)) p ch 0 end.

(** [gstrcpy(dest, s)], where [dest] is the index [d] of a block. *)
Definition strcpy_at (b : list Z) (d : Z) (s : list Z) : option (list Z) :=
  if (0 <=? d) && (d + zlen s <? zlen b) then Some (bput b d (s ++ [0])) else None.

(** The loop over the characters of [src], with the NUL behind them. *)
Fixpoint safe_loop (src b : list Z) (dest : Z) : option (list Z) :=
  match src with
  | [] => store b dest 0
  | c :: src =>
      if c =? kLt then b ← strcpy_at b dest kLessThan; safe_loop src b (dest + zlen kLessThan)
      else if c =? kGt then b ← strcpy_at b dest kGreaterThan; safe_loop src b (dest + zlen kGreaterThan)
      else b ← store b dest c; safe_loop src b (dest + 1)
  end.

(** The string that is returned; [None] inside is a null pointer. *)
Definition websSafeUrl (balloc : Z -> option (list Z)) (bstrdup : list Z -> cptr) (url : cptr) : option cptr :=
  ltCount ← charCount url kLt;
  gtCount ← charCount url kGt;
  match url with
  | None => Some None
  | Some url =>
      let safeLen := zlen url in
      if (ltCount =? 0) && (gtCount =? 0) then Some (bstrdup url)
      else
        let safeLen := s32 (s32 (safeLen + ltCount * 4) + gtCount * 4) in
        match balloc safeLen with
        | None => Some None
        | Some safeUrl => b ← safe_loop url safeUrl 0; s ← cstr b; Some (Some s)
        end
  end.

(** ** What it promises *)

Definition escape_char (c : Z) : list Z := if c =? kLt then kLessThan else if c =? kGt then kGreaterThan else [c].
Definition escape (s : list Z) : list Z := concat (map escape_char s).

Definition count (ch : Z) (s : list Z) : Z := zlen (filter (fun c => c = ch) s).

Lemma strchr_count s ch : match strchr s ch with
  | None => count ch s = 0
  | Some p => exists r, p = ch :: r /\ count ch s = count ch r + 1 /\ (length r < length s)%nat
  end.
Proof.
  induction s as [|d s IH]; [done|]. cbn [strchr]. destruct (Z.eqb_spec d ch) as [->|Hd].
  - exists s. split; [done|]. split; [|cbn; lia]. unfold count. rewrite filter_cons_True by done. cbn [length]. lia.
  - assert (E : count ch (d :: s) = count ch s) by (unfold count; by rewrite filter_cons_False).
    rewrite E. destruct (strchr s ch) as [p|]; [|done]. destruct IH as (r & -> & -> & Hr). exists r. cbn. split; [done|]. split; [done|lia].
Qed.

Lemma count_bound ch s : 0 <= count ch s <= zlen s.
Proof. unfold count. pose proof (length_filter (fun c => c = ch) s). lia. Qed.

Lemma charCount_loop_spec fuel : forall p ch n, (length p < fuel)%nat -> 0 <= n -> n + zlen p < 2 ^ 31 ->
  charCount_loop fuel p ch n = Some (n + count ch p).
Proof.
  induction fuel as [|fuel IH]; intros p ch n Hf Hn Hp; [lia|]. cbn [charCount_loop].
  pose proof (strchr_count p ch) as H. destruct (strchr p ch) as [q|].
  - destruct H as (r & -> & -> & Hr). change (drop 1 (ch :: r)) with r. rewrite s32_small by lia. rewrite IH by lia. f_equal. lia.
  - rewrite H. f_equal. lia.
Qed.

Lemma charCount_spec s ch : zlen s < 2 ^ 31 -> charCount (Some s) ch = Some (count ch s).
Proof. intros Hs. unfold charCount. rewrite charCount_loop_spec by lia. done. Qed.

Lemma length_escape s : zlen (escape s) = zlen s + 3 * (count kLt s + count kGt s).
Proof.
  unfold escape, count. induction s as [|c s IH]; [done|]. cbn [map concat]. rewrite length_app, Nat2Z.inj_add, IH. unfold escape_char.
  destruct (Z.eqb_spec c kLt) as [->|H1]; [|destruct (Z.eqb_spec c kGt) as [->|H2]].
  - rewrite filter_cons_True, filter_cons_False by done. change (zlen kLessThan) with 4. cbn [length]. lia.
  - rewrite filter_cons_False, filter_cons_True by done. change (zlen kGreaterThan) with 4. cbn [length]. lia.
  - rewrite !filter_cons_False by done. cbn [length]. lia.
Qed.

Lemma escape_plain s : count kLt s = 0 -> count kGt s = 0 -> escape s = s.
Proof.
  unfold count, escape. induction s as [|c s IH]; intros H1 H2; [done|]. cbn [map concat]. unfold escape_char.
  destruct (Z.eqb_spec c kLt) as [->|Hc1]; [rewrite filter_cons_True in H1 by done; cbn in H1; lia|].
  destruct (Z.eqb_spec c kGt) as [->|Hc2]; [rewrite filter_cons_True in H2 by done; cbn in H2; lia|].
  rewrite filter_cons_False in H1, H2 by done. cbn [app]. f_equal. by apply IH.
Qed.

Lemma escape_no_tags s : kLt ∉ escape s /\ kGt ∉ escape s.
Proof.
  unfold escape. induction s as [|c s [IH1 IH2]]; [split; apply not_elem_of_nil|]. cbn [map concat]. rewrite !not_elem_of_app.
  unfold escape_char. destruct (Z.eqb_spec c kLt) as [->|H1]; [|destruct (Z.eqb_spec c kGt) as [->|H2]].
  1, 2: repeat split; try done; apply (bool_decide_unpack _); by vm_compute.
  split; (split; [|done]); rewrite list_elem_of_singleton; congruence.
Qed.

Lemma strcpy_at_app e t s : zlen s + 1 <= zlen t ->
  strcpy_at (e ++ t) (zlen e) s = Some ((e ++ s) ++ 0 :: drop (length s + 1) t).
Proof.
  intros Ht. unfold strcpy_at. rewrite length_app. replace (_ && _) with true by (symmetry; apply andb_true_intro; split; zb).
  unfold bput. rewrite Nat2Z.id, take_app_length. rewrite drop_app_ge by lia. rewrite length_app. cbn [length].
  rewrite <- !app_assoc. cbn [app]. do 5 f_equal. lia.
Qed.

Lemma safe_loop_spec src : forall e t, zlen (escape src) + 1 <= zlen t ->
  exists t', safe_loop src (e ++ t) (zlen e) = Some (e ++ escape src ++ 0 :: t').
Proof.
  induction src as [|c src IH]; intros e t Ht; cbn [safe_loop].
  - destruct t as [|x t]; [cbn in Ht; lia|]. rewrite store_app. by eexists.
  - change (escape (c :: src)) with (escape_char c ++ escape src) in *. rewrite length_app in Ht. unfold escape_char in *.
    assert (Hstep : forall w x, (length w <= length t)%nat -> zlen (escape src) + 1 <= zlen (x :: drop (length w + 1) t) ->
      exists t', safe_loop src ((e ++ w) ++ x :: drop (length w + 1) t) (zlen e + zlen w) = Some (e ++ (w ++ escape src) ++ 0 :: t')).
    { intros w x Hw Hl. destruct (IH (e ++ w) (x :: drop (length w + 1) t) Hl) as (t' & E). rewrite length_app, Nat2Z.inj_add in E.
      exists t'. rewrite E. by rewrite <- !app_assoc. }
    destruct (c =? kLt); [|destruct (c =? kGt)].
    + rewrite strcpy_at_app by lia. cbn [mbind option_bind]. apply Hstep; [lia|]. cbn [length]. rewrite length_drop. lia.
    + rewrite strcpy_at_app by lia. cbn [mbind option_bind]. apply Hstep; [lia|]. cbn [length]. rewrite length_drop. lia.
    + destruct t as [|x t]; [cbn in Ht; lia|]. rewrite store_app. cbn [mbind option_bind].
      destruct (IH (e ++ [c]) t) as (t' & E); [cbn in Ht; lia|]. rewrite length_app, Nat2Z.inj_add, <- app_assoc in E. cbn [length app] in E.
      exists t'. change (zlen e + 1) with (zlen e + Z.of_nat 1). rewrite E. by rewrite <- !app_assoc.
Qed.

Lemma escape_no_nul s : no_nul s -> no_nul (escape s).
Proof.
  unfold no_nul, escape. induction 1 as [|c s Hc _ IH]; [constructor|]. cbn [map concat]. apply Forall_app. split; [|done].
  unfold escape_char. destruct (c =? kLt); [|destruct (c =? kGt)]; [..|by constructor]; apply (bool_decide_unpack _); by vm_compute.
Qed.

Section Safe.
Context (balloc : Z -> option (list Z)) (bstrdup : list Z -> cptr).
Hypothesis balloc_ok : forall n, 0 < n <= 2 ^ 30 -> exists b, balloc n = Some b /\ zlen b = n.
Hypothesis bstrdup_ok : forall s, bstrdup s = Some s.

(** C36. The text for a page is the URL with its angle brackets escaped: it holds no bracket,
    and the block that is allocated for it, whose size counts the brackets, is large
    enough for every URL. *)
Theorem websSafeUrl_escapes url : no_nul url -> zlen url < 2 ^ 26 ->
  websSafeUrl balloc bstrdup (Some url) = Some (Some (escape url)) /\ kLt ∉ escape url /\ kGt ∉ escape url.
Proof using All.
  intros Hn Hl. split; [|apply escape_no_tags]. unfold websSafeUrl. rewrite !charCount_spec by lia. cbn [mbind option_bind].
  pose proof (count_bound kLt url). pose proof (count_bound kGt url).
  destruct (Z.eqb_spec (count kLt url) 0), (Z.eqb_spec (count kGt url) 0); cbn [andb]; [by rewrite bstrdup_ok, escape_plain|..].
  all: rewrite (s32_small (zlen url + _)), s32_small by lia.
  all: destruct (balloc_ok (zlen url + count kLt url * 4 + count kGt url * 4)) as (b & -> & Hb); [lia|].
  all: destruct (safe_loop_spec url [] b) as (t & E); [rewrite length_escape; lia|].
  all: cbn [app length] in E; change (Z.of_nat 0) with 0 in E; rewrite E; cbn [mbind option_bind].
  all: rewrite cstr_app by (by apply escape_no_nul).
  all: done.
Qed.
End Safe.

Lemma websSafeUrl_escapes_witness :
  websSafeUrl demo_balloc Some (Some (str "/<script>x</script>")) = Some (Some (str "/&lt;script&gt;x&lt;/script&gt;")).
Proof.
  destruct (websSafeUrl_escapes demo_balloc Some (fun n H => url_balloc_ok n (proj1 H)) (fun _ => eq_refl) (str "/<script>x</script>")) as [E _].
  - apply (bool_decide_unpack _). vm_compute. reflexivity.
  - reflexivity.
  - rewrite E. vm_compute. reflexivity.
Defined.
