(* ===== verification/UrlParse.v ===== *)
(** * The parts of a URL (webs/src/src/url.c)

    [websUrlParse] decodes the URL into a block of its own and cuts it there into host,
    port, path, query and extension; behind the text the block has room for the host and
    the port.  The results are pointers: into the block, or to constant strings.  An
    access outside of the block is [None].  Both callers ask for the extension. *)

From Stdlib Require Import Ascii.
From S2P Require Import Prelude CString Fmt Url UrlSpec Security HttpDate SafeUrl ByteQueue EjLex EjParse.
#[local] Open Scope Z_scope.
#[local] Open Scope cint_scope.

Definition MAX_PORT_LEN : Z := 10.
Definition htmExt : list Z := str ".htm".

Inductive uptr : Type := PConst (s : list Z) | PBuf (i : Z).

Definition deref (b : list Z) (p : uptr) : option (list Z) :=
  match p with PConst s => Some s | PBuf i => if 0 <=? i then cstr (drop (Z.to_nat i) b) else None end.

(** The first character of a string. *)
Definition first_char (b : list Z) (p : uptr) : option Z :=
  match p with PConst s => Some (zget (s ++ [0]) 0) | PBuf i => load b i end.

(** [websDecodeUrl] as in [Url], from one block into another. *)
Fixpoint decode_into (fuel : nat) (src b : list Z) (ip op len : Z) : option (list Z) :=
  match fuel with
  | O => None
  | S fuel =>
      c ← load src ip;
      if (c =? 0) || negb (0 <? len) then store b op 0
      else if c =? 43 then b ← store b op 32; decode_into fuel src b (ip + 1) (op + 1) (len - 1)
      else
        esc ← (if c =? 37 then
                 h ← load src (ip + 1);
                 if isxdigit h then l ← load src (ip + 2); Some (if isxdigit l then Some (h, l) else None)
                 else Some None
               else Some None);
        match esc with
        | Some (h, l) =>
            b ← store b op (hex_step (hex_step 0 h) l);
            decode_into fuel src b (ip + 3) (op + 1) (len - 1)
        | None => b ← store b op c; decode_into fuel src b (ip + 1) (op + 1) (len - 1)
        end
  end.

(** [gstrchr], as an index into the block. *)
Fixpoint find_chr (l : list Z) (i c : Z) : option (option Z) :=
  match l with
  | [] => None
  | x :: l => if x =? c then Some (Some i) else if x =? 0 then Some None else find_chr l (i + 1) c
  end.
Definition chr_index (b : list Z) (i c : Z) : option (option Z) :=
  if 0 <=? i then find_chr (drop (Z.to_nat i) b) i c else None.

(** [gstrncpy(&b[d], s, n)] *)
Definition strncpy_at (b : list Z) (d : Z) (s : list Z) (n : Z) : option (list Z) :=
  if (0 <=? d) && (d + n <=? zlen b) then Some (bput b d (take (Z.to_nat n) (s ++ repeat 0 (Z.to_nat n)))) else None.

(** The loop over the host: a colon ends it, and the port is what follows. *)
Fixpoint host_loop (fuel : nat) (b : list Z) (cp tok : Z) (port : uptr) : option (list Z * Z * uptr) :=
  match fuel with
  | O => None
  | S fuel =>
      c ← load b cp;
      if c =? 0 then Some (b, tok, port)
      else if c =? chr "/" then Some (b, tok, port)
      else if c =? chr ":" then
        b ← store b cp 0;
        let cp := cp + 1 in
        host_loop fuel b (cp + 1) cp (PBuf cp)
      else host_loop fuel b (cp + 1) tok port
  end.

Record url_parts : Type := mkParts {
  u_buf : list Z;
  u_host : uptr;
  u_path : uptr;
  u_port : uptr;
  u_query : uptr;
  u_proto : uptr;
  u_ext : uptr;
  u_tok : Z
}.

Definition parse_host (u : url_parts) (ulen portbuf hostbuf : Z) : option url_parts :=
  let tok := 7 in
  b ← store (u_buf u) (tok - 3) 0;
  let u := u <| u_buf := b |> <| u_proto := PBuf 0 |> <| u_host := PBuf tok |> in
  '(b, tok, port) ← host_loop (S (length b)) b tok tok (u_port u);
  let u := ((u <| u_buf := b |>) <| u_port := port |>) <| u_tok := tok |> in
  cp ← chr_index b tok (chr "/");
  match cp with
  | Some cp =>
      c ← load b cp;
      b ← store b cp 0;
      host ← deref b (u_host u);
      b ← strncpy_at b hostbuf host ulen;
      port ← deref b (u_port u);
      b ← strncpy_at b portbuf port MAX_PORT_LEN;
      b ← store b cp c;
      Some (((((u <| u_buf := b |>) <| u_host := PBuf hostbuf |>) <| u_port := PBuf portbuf |>) <| u_path := PBuf cp |>) <| u_tok := cp |>)
  | None => Some u
  end.

Definition parse_query (u : url_parts) : option url_parts :=
  cp ← chr_index (u_buf u) (u_tok u) (chr "?");
  match cp with
  | Some cp =>
      b ← store (u_buf u) cp 0;
      Some ((((u <| u_buf := b |>) <| u_query := PBuf (cp + 1) |>) <| u_path := PBuf (u_tok u) |>) <| u_tok := cp + 1 |>)
  | None => Some u
  end.

Definition parse_fragment (u : url_parts) : option url_parts :=
  cp ← chr_index (u_buf u) (u_tok u) (chr "#");
  match cp with
  | Some cp =>
      b ← store (u_buf u) cp 0;
      q ← first_char b (u_query u);
      let u := u <| u_buf := b |> in
      Some (if q =? 0 then u <| u_path := PBuf (u_tok u) |> else u)
  | None => Some u
  end.

Definition is_garbage (c : Z) : bool := (c =? 47) || (c =? 92).

Definition parse_ext (u : url_parts) : option url_parts :=
  path ← deref (u_buf u) (u_path u);
  match u_path u, Fmt.strrchr path (chr ".") with
  | PBuf i, Some k =>
      let cp := drop (Z.to_nat k) path in
      let length := zlen (fst (span (fun c => negb (is_garbage c)) cp)) in
      let garbageLength := zlen (fst (span is_garbage (drop (Z.to_nat length) cp))) in
      if length + garbageLength =? zlen cp then
        b ← store (u_buf u) (i + k + length) 0;
        Some ((u <| u_buf := b |>) <| u_ext := PBuf (i + k) |>)
      else Some u
  | _, _ => Some u
  end.

(** [Some None]: no memory. *)
Definition websUrlParse (balloc : Z -> option (list Z)) (websPort : Z) (url : list Z) : option (option url_parts) :=
  ulen ← strlen url;
  let len := ulen * 2 + MAX_PORT_LEN + 3 in
  match balloc len with
  | None => Some None
  | Some buf =>
      let portbuf := len - MAX_PORT_LEN - 1 in
      let hostbuf := ulen + 1 in
      buf ← decode_into (S (Z.to_nat ulen)) url buf 0 0 ulen;
      port ← stritoa websPort MAX_PORT_LEN;
      buf ← strcpy_at buf portbuf port;
      let u := mkParts buf (PConst (str "localhost")) (PConst (str "/")) (PBuf portbuf) (PConst []) (PConst (str "http")) (PConst htmExt) 0 in
      s ← deref buf (PBuf 0);
      u ← (if starts_with (str "http://") s then parse_host u ulen portbuf hostbuf else Some (u <| u_path := PBuf 0 |>));
      u ← parse_query u;
      u ← parse_fragment u;
      u ← parse_ext u;
      Some (Some u)
  end.

(** ** What the parts are

    For a URL that is not absolute.  The text before the first question mark is the path,
    what follows it up to the next number sign the query; without a question mark the path
    ends at the number sign.  An empty query that is ended by a number sign takes the path
    with it. *)
Definition not_char (c : Z) : Z -> bool := fun x => negb (x =? c).

Definition split_url (d : list Z) : list Z * list Z :=
  let '(p, q) := span (not_char 63) d in
  match q with
  | [] => (fst (span (not_char 35) p), [])
  | _ :: q =>
      let '(q1, f) := span (not_char 35) q in
      (match f, q1 with _ :: _, [] => [] | _, _ => p end, q1)
  end.

(** The extension, and the path without the slashes behind it. *)
Definition split_ext (path : list Z) : list Z * list Z :=
  match Fmt.strrchr path 46 with
  | Some k =>
      let '(n, g) := span (fun c => negb (is_garbage c)) (drop (Z.to_nat k) path) in
      if forallb is_garbage g then (take (Z.to_nat k) path ++ n, n) else (path, htmExt)
  | None => (path, htmExt)
  end.

(** The text of a URL, decoded. *)
Definition url_text (url : list Z) : list Z := cut0 (decode_url url).

Lemma decode_into_spec : forall fuel spre s post done t len, no_nul s -> zlen s <= len -> (length s < fuel)%nat ->
  zlen s < zlen t ->
  exists t', decode_into fuel (spre ++ s ++ 0 :: post) (done ++ t) (zlen spre) (zlen done) len = Some (done ++ decode_url s ++ 0 :: t').
Proof.
  induction fuel as [|fuel IH]; intros spre s post d t len Hs Hlen Hf Ht; [lia|]. cbn [decode_into].
  destruct t as [|x t]; [cbn in Ht; lia|]. destruct s as [|c s].
  { cbn [app]. rewrite load_app. cbn [mbind option_bind Z.eqb orb decode_url app]. rewrite store_app. by eexists. }
  inversion Hs as [|? ? Hc Hs']; subst. cbn [length] in *. cbn [app]. rewrite load_app. cbn [mbind option_bind].
  rewrite (proj2 (Z.eqb_neq c 0) Hc). replace (0 <? len) with true by zb. cbn [orb negb].
  assert (Hstep : forall v e s1, c :: s = e ++ s1 -> e <> [] ->
    exists t', (b ← store (d ++ x :: t) (zlen d) v; decode_into fuel (spre ++ c :: s ++ 0 :: post) b (zlen spre + zlen e) (zlen d + 1) (len - 1)) =
      Some (d ++ (v :: decode_url s1) ++ 0 :: t')).
  { intros v e s1 E He. rewrite store_app. cbn [mbind option_bind].
    assert (Hl : zlen s1 + zlen e = zlen s + 1) by (apply (f_equal (fun l => zlen l)) in E; rewrite length_app in E; cbn [length] in E; lia).
    assert (He' : 1 <= zlen e) by (destruct e; [done|cbn [length]; lia]).
    destruct (IH (spre ++ e) s1 post (d ++ [v]) t (len - 1)) as (t' & E'); [|lia..|].
    { unfold no_nul in *. rewrite E in Hs. by apply Forall_app in Hs as [_ ?]. }
    rewrite !length_app, !Nat2Z.inj_add, <- !(assoc_L (++)) in E'. cbn [length app] in E'.
    exists t'. cbn [app]. rewrite <- E'. change (c :: s ++ 0 :: post) with ((c :: s) ++ 0 :: post). rewrite E, <- !(assoc_L (++)). done. }
  rewrite decode_url_cons. destruct (Z.eqb_spec c 43) as [->|Hp]; [apply (Hstep 32 [43] s); done|].
  destruct (Z.eqb_spec c 37) as [->|H37]; [|apply (Hstep c [c] s); done].
  pose proof (escape_read (spre ++ [37]) s post (zlen spre + 1)) as E. rewrite <- !(assoc_L (++)), <- Z.add_assoc in E.
  change (1 + 1) with 2 in E. cbn [app] in E. rewrite E by (rewrite length_app; cbn [length]; lia). cbn [mbind option_bind].
  destruct s as [|h [|l s]]; cbn [escape_at]; [apply (Hstep 37 [37]); done..|].
  destruct (isxdigit h && isxdigit l); [|apply (Hstep 37 [37]); done]. cbn [drop]. apply (Hstep (esc_val h l) [37; h; l] s); done.
Qed.

(** ** Pieces of the block *)

Lemma span_split (p : Z -> bool) l : l = fst (span p l) ++ snd (span p l) /\ forallb p (fst (span p l)) = true /\
  match snd (span p l) with [] => True | c :: _ => p c = false end.
Proof.
  induction l as [|c l (E & H1 & H2)]; [done|]. cbn [span]. destruct (p c) eqn:Ec; [|done].
  destruct (span p l) as [a r]. cbn [fst snd forallb app] in *. rewrite Ec, <- E. done.
Qed.

(** A character is found, or not, in front of the zero byte. *)
Lemma find_chr_here c a : forall l i, c <> 0 -> forallb (not_char c) a = true -> no_nul a ->
  find_chr (a ++ c :: l) i c = Some (Some (i + zlen a)).
Proof.
  induction a as [|x a IH]; intros l i Hc Ha Hn; cbn [app find_chr].
  - rewrite Z.eqb_refl. cbn [length]. do 2 f_equal. lia.
  - cbn [forallb] in Ha. apply andb_true_iff in Ha as [Hx Ha]. unfold not_char in Hx. apply negb_true_iff in Hx. rewrite Hx.
    inversion Hn as [|? ? H0 Hn']; subst. rewrite (proj2 (Z.eqb_neq x 0) H0), IH by done. cbn [length]. do 2 f_equal. lia.
Qed.

Lemma find_chr_none c a : forall l i, c <> 0 -> forallb (not_char c) a = true -> no_nul a -> find_chr (a ++ 0 :: l) i c = Some None.
Proof.
  induction a as [|x a IH]; intros l i Hc Ha Hn; cbn [app find_chr].
  - rewrite (proj2 (Z.eqb_neq 0 c)) by done. done.
  - cbn [forallb] in Ha. apply andb_true_iff in Ha as [Hx Ha]. unfold not_char in Hx. apply negb_true_iff in Hx. rewrite Hx.
    inversion Hn as [|? ? H0 Hn']; subst. by rewrite (proj2 (Z.eqb_neq x 0) H0), IH.
Qed.

Lemma chr_index_at b e i c : i = zlen b -> chr_index (b ++ e) i c = find_chr e i c.
Proof. intros ->. unfold chr_index. replace (0 <=? zlen b) with true by zb. by rewrite Nat2Z.id, drop_app_length. Qed.

(** The string at an index. *)
Lemma deref_at b s t i : i = zlen b -> no_nul s -> deref (b ++ s ++ 0 :: t) (PBuf i) = Some s.
Proof.
  intros -> Hs. unfold deref. replace (0 <=? zlen b) with true by zb. rewrite Nat2Z.id, drop_app_length. by apply cstr_app.
Qed.

Lemma span_all (p : Z -> bool) l : (zlen (fst (span p l)) =? zlen l) = forallb p l.
Proof.
  destruct (span_split p l) as (E & H1 & H2). destruct (snd (span p l)) as [|c r] eqn:Er.
  - rewrite app_nil_r in E. rewrite <- E in H1 at 1. rewrite H1. apply Z.eqb_eq. by rewrite <- E.
  - replace (forallb p l) with false.
    + apply Z.eqb_neq. rewrite E at 2. rewrite length_app. cbn [length]. lia.
    + rewrite E, forallb_app. cbn [forallb]. by rewrite H2, andb_false_r.
Qed.

Lemma strrchr_split c s k : Fmt.strrchr s c = Some k ->
  0 <= k /\ exists r, s = take (Z.to_nat k) s ++ c :: r /\ drop (Z.to_nat k) s = c :: r /\ zlen (take (Z.to_nat k) s) = k.
Proof.
  revert k. induction s as [|x s IH]; intros k; cbn [Fmt.strrchr]; [done|].
  destruct (Fmt.strrchr s c) as [j|] eqn:E.
  - intros [= <-]. destruct (IH j eq_refl) as (Hj & r & E1 & E2 & E3). split; [lia|]. exists r.
    replace (Z.to_nat (j + 1)) with (S (Z.to_nat j)) by lia. cbn [take drop app length]. split; [by f_equal|]. split; [done|lia].
  - destruct (Z.eqb_spec x c) as [->|]; [|done]. intros [= <-]. split; [lia|]. by exists s.
Qed.

(** Where the query lies. *)
Definition query_at (u : url_parts) (pre p q X : list Z) : Prop :=
  (u_query u = PConst [] /\ q = []) \/
  (exists Y, u_query u = PBuf (zlen pre + zlen p + 1) /\ X = q ++ 0 :: Y) \/
  (p = [] /\ u_query u = u_path u /\ q = []).

Definition parts_at (u : url_parts) (pre p q X : list Z) : Prop :=
  u_buf u = pre ++ p ++ 0 :: X /\ u_path u = PBuf (zlen pre) /\ query_at u pre p q X.

Lemma no_nul_split a b : no_nul (a ++ b) -> no_nul a /\ no_nul b.
Proof. apply Forall_app. Qed.

Lemma query_fragment b0 d t h po pr ex : no_nul d -> b0 = d ++ 0 :: t ->
  let '(p, q) := split_url d in
  exists u pre X, (u ← parse_query (mkParts b0 h (PBuf 0) po (PConst []) pr ex 0); parse_fragment u) = Some u /\
    parts_at u pre p q X /\ no_nul p /\ no_nul q /\ u_host u = h /\ u_port u = po /\ u_proto u = pr /\ u_ext u = ex.
Proof.
  intros Hd ->. unfold split_url. destruct (span_split (not_char 63) d) as (E & Hp & Hq).
  destruct (span (not_char 63) d) as [p q]. cbn [fst snd] in *. unfold parse_query. cbn [u_buf u_tok].
  rewrite (chr_index_at [] (d ++ 0 :: t)) by done. change (chr "?") with 63. destruct q as [|c q].
  - rewrite app_nil_r in E. subst d. rewrite find_chr_none by done. cbn [mbind option_bind].
    unfold parse_fragment. cbn [u_buf u_tok u_query]. rewrite (chr_index_at [] (p ++ 0 :: t)) by done. change (chr "#") with 35.
    destruct (span_split (not_char 35) p) as (E & Hp1 & Hf). destruct (span (not_char 35) p) as [p1 f]. cbn [fst snd] in *.
    destruct f as [|c f].
    + rewrite app_nil_r in E. subst p. rewrite find_chr_none by done. cbn [mbind option_bind].
      eexists _, [], t. split; [done|]. split; [split; [done|]; split; [done|by left]|]. split; [done|]. split; [constructor|done].
    + unfold not_char in Hf. apply negb_false_iff, Z.eqb_eq in Hf as ->. subst p. apply no_nul_split in Hd as [Hd1 Hd2].
      rewrite <- (assoc_L (++)). cbn [app]. rewrite find_chr_here by done. cbn [mbind option_bind]. rewrite Z.add_0_l, store_app. cbn [mbind option_bind].
      change (first_char _ (PConst [])) with (Some 0). cbn [mbind option_bind Z.eqb].
      eexists _, [], (f ++ 0 :: t). split; [done|]. split; [split; [done|]; split; [done|by left]|]. split; [done|]. split; [constructor|done].
  - unfold not_char in Hq. apply negb_false_iff, Z.eqb_eq in Hq as ->. subst d. apply no_nul_split in Hd as [Hd1 Hd2].
    inversion Hd2 as [|? ? _ Hd3]; subst.
    rewrite <- (assoc_L (++)). cbn [app]. rewrite find_chr_here by done. cbn [mbind option_bind]. rewrite Z.add_0_l, store_app. cbn [mbind option_bind].
    destruct (span_split (not_char 35) q) as (E & Hq1 & Hf). destruct (span (not_char 35) q) as [q1 f]. cbn [fst snd] in *.
    unfold parse_fragment. cbn -[chr chr_index load store first_char Z.add].
    assert (Hb : forall l, p ++ 0 :: l = (p ++ [0]) ++ l) by (intros l; by rewrite <- (assoc_L (++))).
    assert (Hl : zlen p + 1 = zlen (p ++ [0])) by (rewrite length_app; cbn [length]; lia).
    rewrite Hb, (chr_index_at (p ++ [0])) by done. change (chr "#") with 35. destruct f as [|c f].
    + rewrite app_nil_r in E. subst q1. rewrite find_chr_none by done. cbn [mbind option_bind].
      replace (match q with [] => p | _ => p end) with p by by destruct q.
      eexists _, [], (q ++ 0 :: t). split; [done|]. split; [split; [cbn [u_buf app]; by rewrite <- Hb|]; split; [done|right; left; by exists t]|]. done.
    + unfold not_char in Hf. apply negb_false_iff, Z.eqb_eq in Hf as ->. subst q. apply no_nul_split in Hd3 as [Hq1n Hq2n].
      rewrite <- (assoc_L (++) q1). cbn [app]. rewrite find_chr_here by done. cbn [mbind option_bind]. rewrite (assoc_L (++) (p ++ [0])).
      rewrite (store_at ((p ++ [0]) ++ q1)) by (rewrite length_app; lia). cbn [mbind option_bind]. unfold first_char.
      rewrite <- (assoc_L (++) (p ++ [0])). destruct q1 as [|x q1].
      * cbn [app]. rewrite (load_at (p ++ [0])) by done. cbn [mbind option_bind Z.eqb].
        eexists _, (p ++ [0]), (f ++ 0 :: t). split; [done|].
        split; [split; [done|]; split; [cbn; by rewrite <- Hl|right; right; done]|]. split; [constructor|]. split; [constructor|done].
      * cbn [app]. rewrite (load_at (p ++ [0])) by done. cbn [mbind option_bind].
        inversion Hq1n as [|? ? Hx _]; subst. rewrite (proj2 (Z.eqb_neq x 0) Hx).
        eexists _, [], ((x :: q1) ++ 0 :: f ++ 0 :: t). split; [done|].
        split; [split; [cbn [u_buf app]; by rewrite <- Hb|]; split; [done|right; left; by eexists]|]. done.
Qed.

Lemma split_ext_no_nul p : no_nul p -> no_nul (fst (split_ext p)) /\ no_nul (snd (split_ext p)).
Proof.
  intros Hp. assert (Hh : no_nul htmExt) by (apply (bool_decide_unpack _); by vm_compute).
  unfold split_ext. destruct (Fmt.strrchr p 46) as [k|] eqn:E; [|done].
  destruct (strrchr_split _ _ _ E) as (_ & r & E1 & E2 & _). destruct (span_split (fun c => negb (is_garbage c)) (drop (Z.to_nat k) p)) as (E3 & _ & _).
  destruct (span _ (drop (Z.to_nat k) p)) as [n g]. cbn [fst snd] in *. destruct (forallb is_garbage g); [|done]. cbn [fst snd].
  rewrite <- (take_drop (Z.to_nat k) p), E3 in Hp. apply no_nul_split in Hp as [H1 H2]. apply no_nul_split in H2 as [H2 _].
  split; [by apply Forall_app|done].
Qed.

Lemma ext_spec u pre p q X : parts_at u pre p q X -> no_nul p -> no_nul q -> u_ext u = PConst htmExt ->
  exists u', parse_ext u = Some u' /\ deref (u_buf u') (u_path u') = Some (fst (split_ext p)) /\
    deref (u_buf u') (u_ext u') = Some (snd (split_ext p)) /\ deref (u_buf u') (u_query u') = Some q /\
    u_host u' = u_host u /\ u_proto u' = u_proto u.
Proof.
  intros (Hb & Hpath & Hq) Hp Hqn He. destruct (split_ext_no_nul p Hp) as [Hs1 Hs2].
  assert (Hsame : fst (split_ext p) = p -> snd (split_ext p) = htmExt -> parse_ext u = Some u ->
    exists u', parse_ext u = Some u' /\ deref (u_buf u') (u_path u') = Some (fst (split_ext p)) /\
    deref (u_buf u') (u_ext u') = Some (snd (split_ext p)) /\ deref (u_buf u') (u_query u') = Some q /\
    u_host u' = u_host u /\ u_proto u' = u_proto u).
  { intros -> -> Hx. exists u. split; [done|]. rewrite Hpath, Hb, He. split; [by apply deref_at|]. split; [done|]. split; [|done].
    destruct Hq as [(-> & ->)|[(Y & -> & ->)|(-> & -> & ->)]]; [done| |].
    - replace (pre ++ p ++ 0 :: q ++ 0 :: Y) with ((pre ++ p ++ [0]) ++ q ++ 0 :: Y) by (by rewrite <- !(assoc_L (++))).
      apply deref_at; [rewrite !length_app; cbn [length]; lia|done].
    - rewrite Hpath. by apply (deref_at pre []). }
  unfold split_ext in *. unfold parse_ext in *. rewrite Hpath in *. rewrite Hb, (deref_at pre p X) in * by done. cbn [mbind option_bind] in *.
  change (chr ".") with 46 in *. destruct (Fmt.strrchr p 46) as [k|] eqn:E; [|by apply Hsame].
  destruct (strrchr_split _ _ _ E) as (Hk & r & E1 & E2 & E3).
  destruct (span_split (fun c => negb (is_garbage c)) (drop (Z.to_nat k) p)) as (E4 & _ & _).
  destruct (span _ (drop (Z.to_nat k) p)) as [n g] eqn:En. cbn [fst snd] in *.
  assert (Eg : drop (Z.to_nat (zlen n)) (drop (Z.to_nat k) p) = g) by (rewrite E4, Nat2Z.id; apply drop_app_length).
  rewrite Eg in *.
  replace (zlen n + zlen (fst (span is_garbage g)) =? zlen (drop (Z.to_nat k) p)) with (forallb is_garbage g) in *.
  2: { rewrite E4, length_app, <- span_all. apply eq_true_iff_eq. rewrite !Z.eqb_eq. lia. }
  destruct (forallb is_garbage g); [clear Hsame|by apply Hsame]. cbn [fst snd] in *.
  assert (Ep : p = (take (Z.to_nat k) p ++ n) ++ g) by (rewrite <- (assoc_L (++)), <- E4; symmetry; apply take_drop).
  set (a := take (Z.to_nat k) p) in *. assert (Hstore : exists Z0, store (pre ++ p ++ 0 :: X) (zlen pre + k + zlen n) 0 =
      Some (pre ++ (a ++ n) ++ 0 :: Z0) /\ (forall q' Y, X = q' ++ 0 :: Y -> exists w, pre ++ (a ++ n) ++ 0 :: Z0 = w ++ q' ++ 0 :: Y /\
        zlen w = zlen pre + zlen p + 1)).
  { rewrite Ep. destruct g as [|x g].
    - rewrite app_nil_r. exists X. rewrite (assoc_L (++)), (store_at (pre ++ a ++ n)) by (rewrite !length_app; lia).
      rewrite <- (assoc_L (++) pre). split; [done|]. intros q' Y ->. exists (pre ++ (a ++ n) ++ [0]). split; [by rewrite <- !(assoc_L (++))|].
      rewrite !length_app. cbn [length]. lia.
    - exists (g ++ 0 :: X). rewrite <- (assoc_L (++) (a ++ n)). cbn [app]. rewrite (assoc_L (++) pre), (store_at (pre ++ a ++ n)) by (rewrite !length_app; lia).
      rewrite <- (assoc_L (++) pre). split; [done|]. intros q' Y ->. exists (pre ++ (a ++ n) ++ 0 :: g ++ [0]). split.
      + rewrite <- !(assoc_L (++)). cbn [app]. by rewrite <- !(assoc_L (++)).
      + rewrite !length_app. cbn [length]. rewrite length_app. cbn [length]. lia. }
  destruct Hstore as (Z0 & -> & HY). cbn [mbind option_bind]. eexists. split; [done|].
  assert (Hne : p <> []) by (rewrite E1; destruct a; done).
  unfold query_at in Hq. destruct u as [ub uh up uo uq ur ue ut]. cbn in *. split; [rewrite Hpath; by apply deref_at|]. split.
  { replace (pre ++ (a ++ n) ++ 0 :: Z0) with ((pre ++ a) ++ n ++ 0 :: Z0) by (by rewrite <- !(assoc_L (++))).
    apply deref_at; [rewrite length_app; lia|done]. }
  split; [|done]. destruct Hq as [(-> & ->)|[(Y & -> & ->)|(-> & _)]]; [done| |done].
  destruct (HY q Y eq_refl) as (w & -> & Hw). by apply deref_at.
Qed.

Lemma decode_into_length fuel : forall src b ip op len b', decode_into fuel src b ip op len = Some b' -> length b' = length b.
Proof.
  induction fuel as [|fuel IH]; intros src b ip op len b'; [done|]. cbn [decode_into].
  destruct (load src ip) as [c|]; cbn [mbind option_bind]; [|done]. destruct (_ || _); [apply store_length|].
  assert (Hs : forall v ip', (b ← store b op v; decode_into fuel src b ip' (op + 1) (len - 1)) = Some b' -> length b' = length b).
  { intros v ip'. destruct (store b op v) as [b1|] eqn:E; cbn [mbind option_bind]; [|done]. intros H. rewrite (IH _ _ _ _ _ _ H).
    by apply store_length in E. }
  destruct (c =? 43); [apply Hs|]. destruct (if c =? 37 then _ else _) as [[[h l]|]|]; cbn [mbind option_bind]; [apply Hs|apply Hs|done].
Qed.

Lemma decoded_block s post b : no_nul s -> zlen s < zlen b ->
  exists t, decode_into (S (Z.to_nat (zlen s))) (s ++ 0 :: post) b 0 0 (zlen s) = Some (url_text s ++ 0 :: t) /\
    length (url_text s ++ 0 :: t) = length b.
Proof.
  intros Hs Hb. destruct (decode_into_spec (S (Z.to_nat (zlen s))) [] s post [] b (zlen s) Hs) as (t & E); [lia..|].
  cbn [app length] in E. change (Z.of_nat 0) with 0 in E. pose proof (decode_into_length _ _ _ _ _ _ _ E) as Hl.
  unfold url_text. destruct (cut0_split (decode_url s) t) as (tail & Et). rewrite Et in E, Hl. by exists tail.
Qed.

Lemma stritoa_short port : 0 <= port -> exists s, stritoa port MAX_PORT_LEN = Some s /\ zlen s <= 10.
Proof.
  intros Hp. unfold stritoa. replace (port =? - 2 ^ 31) with false by zb. cbv zeta. replace (port <? 0) with false by zb.
  eexists. split; [reflexivity|]. cbn [app].
  assert (H : forall fuel n lim out, zlen out <= 9 -> lim <= 9 -> zlen (stritoa_loop fuel n lim out) <= 9).
  { induction fuel as [|fuel IH]; intros n lim out Ho Hl; cbn [stritoa_loop]; [done|].
    destruct (Z.ltb_spec 9 n), (Z.ltb_spec (zlen out) lim); cbn [andb]; repeat (apply IH || (cbn [length]; lia) || destruct (_ <? _)). }
  specialize (H (S (Z.to_nat (MAX_PORT_LEN - 1))) port (MAX_PORT_LEN - 1) []). unfold MAX_PORT_LEN in *. cbn [length] in H. lia.
Qed.

Lemma url_text_length url : no_nul url -> zlen (url_text url) <= zlen url.
Proof.
  intros Hn. destruct (decoded_block url [] (repeat 0 (S (length url))) Hn) as (t & _ & H); [rewrite repeat_length; lia|].
  rewrite length_app, repeat_length in H. cbn [length] in H. lia.
Qed.

(** Writing behind the text leaves it. *)
Lemma strcpy_behind p t i s : zlen p + 1 <= i -> i + zlen s < zlen (p ++ 0 :: t) ->
  exists t', strcpy_at (p ++ 0 :: t) i s = Some (p ++ 0 :: t').
Proof.
  intros Hi Hl. unfold strcpy_at. replace (_ && _) with true by (symmetry; apply andb_true_intro; split; zb). unfold bput.
  rewrite take_app_ge by lia. destruct (Z.to_nat i - length p)%nat as [|m] eqn:E; [lia|]. cbn [take].
  rewrite <- (assoc_L (++)). cbn [app]. by eexists.
Qed.

Section Parse.
Context (balloc : Z -> option (list Z)).
Hypothesis balloc_ok : forall n, 0 < n <= 2 ^ 30 -> exists b, balloc n = Some b /\ zlen b = n.

(** C34. A URL that is not absolute is cut, after one decoding, into path, query and
    extension as [split_url] and [split_ext] say, within its block; host and protocol are
    the defaults. *)
Theorem websUrlParse_splits port url post : no_nul url -> zlen url < 2 ^ 28 -> 0 <= port ->
  starts_with (str "http://") (url_text url) = false ->
  exists u, websUrlParse balloc port (url ++ 0 :: post) = Some (Some u) /\
    deref (u_buf u) (u_path u) = Some (fst (split_ext (fst (split_url (url_text url))))) /\
    deref (u_buf u) (u_ext u) = Some (snd (split_ext (fst (split_url (url_text url))))) /\
    deref (u_buf u) (u_query u) = Some (snd (split_url (url_text url))) /\
    u_host u = PConst (str "localhost") /\ u_proto u = PConst (str "http").
Proof using All.
  intros Hn Hl Hp Hns. assert (Hd : no_nul (url_text url)) by apply cut0_no_nul.
  unfold websUrlParse, strlen. rewrite cstr_app by done. cbn [mbind option_bind].
  destruct (balloc_ok (zlen url * 2 + MAX_PORT_LEN + 3)) as (b & -> & Hb); [unfold MAX_PORT_LEN; lia|].
  destruct (decoded_block url post b Hn) as (t & -> & Hlt); [unfold MAX_PORT_LEN in Hb; lia|]. cbn [mbind option_bind].
  destruct (stritoa_short port Hp) as (ps & -> & Hps). cbn [mbind option_bind].
  pose proof (url_text_length url Hn) as Htl. unfold MAX_PORT_LEN in *.
  destruct (strcpy_behind (url_text url) t (zlen url * 2 + 10 + 3 - 10 - 1) ps) as (t' & ->); [lia|rewrite Hlt, Hb; lia|].
  cbn [mbind option_bind]. cbv zeta.
  assert (Hde : deref (url_text url ++ 0 :: t') (PBuf 0) = Some (url_text url)) by exact (deref_at [] (url_text url) t' 0 eq_refl Hd).
  rewrite Hde. cbn [mbind option_bind]. rewrite Hns. cbn [mbind option_bind].
  pose proof (query_fragment _ (url_text url) t' (PConst (str "localhost")) (PBuf (zlen url * 2 + 10 + 3 - 10 - 1)) (PConst (str "http"))
    (PConst htmExt) Hd eq_refl) as H. destruct (split_url (url_text url)) as [p q]. cbn [fst snd].
  destruct H as (u & pre & X & E & Hat & Hpn & Hqn & Hh & _ & Hpr & He).
  destruct (ext_spec u pre p q X Hat Hpn Hqn He) as (u' & E' & H1 & H2 & H3 & H4 & H5).
  exists u'. match goal with |- context [parse_query ?x] => replace (parse_query x) with
    (parse_query (mkParts (url_text url ++ 0 :: t') (PConst (str "localhost")) (PBuf 0) (PBuf (zlen url * 2 + 10 + 3 - 10 - 1))
      (PConst []) (PConst (str "http")) (PConst htmExt) 0)) by done end.
  destruct (parse_query _) as [u1|]; cbn [mbind option_bind] in *; [|done]. rewrite E. cbn [mbind option_bind]. rewrite E'.
  cbn [mbind option_bind]. rewrite H4, H5, Hh, Hpr. done.
Qed.
End Parse.

(** The query ends at the question mark that is there after the decoding, an empty one
    takes the path with it, and slashes behind the extension are cut away. *)
Definition parsed (url : list Z) : option (option (list Z) * option (list Z) * option (list Z)) :=
  u ← websUrlParse demo_balloc 80 (url ++ [0]); u ← u;
  Some (deref (u_buf u) (u_path u), deref (u_buf u) (u_query u), deref (u_buf u) (u_ext u)).

Example parse_examples :
  parsed (str "/a%3Fb.html") = Some (Some (str "/a"), Some (str "b.html"), Some (str ".htm")) /\
  parsed (str "/index.asp?#top") = Some (Some [], Some [], Some (str ".htm")) /\
  parsed (str "/x/page.asp//?n=1#top") = Some (Some (str "/x/page.asp"), Some (str "n=1"), Some (str ".asp")) /\
  parsed (str "http://host:8080/a.html") = Some (Some (str "/a.html"), Some [], Some (str ".html")).
Proof. repeat split; vm_compute; reflexivity. Qed.

Lemma websUrlParse_splits_witness :
  exists u, websUrlParse demo_balloc 80 (str "/x/page%2easp//?n=1#top" ++ [0]) = Some (Some u) /\
    deref (u_buf u) (u_path u) = Some (str "/x/page.asp") /\ deref (u_buf u) (u_query u) = Some (str "n=1").
Proof.
  destruct (websUrlParse_splits demo_balloc (fun n H => url_balloc_ok n (proj1 H)) 80 (str "/x/page%2easp//?n=1#top") [])
    as (u & E & H1 & _ & H2 & _).
  - apply (bool_decide_unpack _). vm_compute. reflexivity.
  - reflexivity.
  - lia.
  - vm_compute. reflexivity.
  - exists u. split; [exact E|]. split; [exact H1|exact H2].
Defined.
