(* ===== verification/QueryEnv.v ===== *)
(** * The variables of a request (webs/src/src/webs.c: [websSetEnv])

    Before the first handler is called the query of a request, with the data of a POST
    behind it, becomes variables, beside those that the server sets itself.  Scripts and CGI
    programs read them.  A block is a list of bytes, an access outside of it [None].

    [extractUploadedFileContent], which takes apart a multipart form, is a parameter; the
    theorems are about the other requests. *)

From stdpp Require Import gmap.
From S2P Require Import Prelude CString Fmt Url EjParse.
#[local] Open Scope Z_scope.
#[local] Open Scope cint_scope.

Definition FNAMESIZE : Z := 254.
Definition WEBS_NAME : list Z := str "GoAhead-Webs".
Definition WEBS_VERSION : list Z := str "2.5.0".
Definition WEBS_MULTIPART_FORM : Z := 524288.

Definition websGetVar (wp : websRec) (var : list Z) (defaultGetValue : cptr) : cptr :=
  match cgiVars wp !! var with Some v => Some v | None => defaultGetValue end.

(** [memcpy(&b\[d\], s, n)], where [s] has [n] bytes *)
Definition memcpy_at (b : list Z) (d : Z) (s : list Z) : option (list Z) :=
  if (0 <=? d) && (d + zlen s <=? zlen b) then Some (bput b d s) else None.

(** An argument of %s *)
Definition string_arg (s : list Z) : farg := AStr (Some (s ++ [0])).

Section Env.
Context (lw : Z).
Context (balloc : Z -> option (list Z)) (brealloc : list Z -> Z -> option (list Z)) (bstrdup : list Z -> cptr).
Context (websHost : list Z) (websHostUrl : cptr) (websPort : Z).
Context (extractUploadedFileContent : websRec -> option (websRec * option (list Z * Z))).

(** The string that [fmtAlloc] leaves in its first argument. *)
Definition fmt_string (n : Z) (fmt : list Z) (args : list farg) : option cptr :=
  '(_, ps) ← fmtAlloc balloc brealloc lw n fmt args;
  match ps with Some b => s ← cstr b; Some (Some s) | None => Some None end.

(** The first part: what the server itself says of the request. *)
Definition set_server_vars (wp : websRec) : option websRec :=
  let wp := websSetVar wp (str "QUERY_STRING") (w_query wp) in
  let wp := websSetVar wp (str "GATEWAY_INTERFACE") (Some (str "CGI/1.1")) in
  let wp := websSetVar wp (str "SERVER_HOST") (Some websHost) in
  let wp := websSetVar wp (str "SERVER_NAME") (Some websHost) in
  let wp := websSetVar wp (str "SERVER_URL") websHostUrl in
  let wp := websSetVar wp (str "REMOTE_HOST") (Some (ipaddr wp)) in
  let wp := websSetVar wp (str "REMOTE_ADDR") (Some (ipaddr wp)) in
  let wp := websSetVar wp (str "PATH_INFO") (w_path wp) in
  portBuf ← stritoa websPort 8;
  let wp := websSetVar wp (str "SERVER_PORT") (Some portBuf) in
  let wp := websSetVar wp (str "SERVER_ADDR") (Some (ifaddr wp)) in
  value ← fmt_string FNAMESIZE (str "%s/%s") [string_arg WEBS_NAME; string_arg WEBS_VERSION];
  let wp := websSetVar wp (str "SERVER_SOFTWARE") value in
  Some (websSetVar wp (str "SERVER_PROTOCOL") (protoVersion wp)).

(** The data behind a query [q] that is there; without memory the query is lost. *)
Definition append_query (q data : list Z) : option cptr :=
  let len := zlen q in
  let special := negb (bool_decide (q = [])) in
  match brealloc (q ++ [0]) (len + zlen data + (if special then 2 else 1)) with
  | None => Some None
  | Some b =>
      '(b, len) ← (if special : bool then b ← store b len 38; Some (b, len + 1) else Some (b, len));
      b ← memcpy_at b len data;
      b ← store b (len + zlen data) 0;
      q ← cstr b; Some (Some q)
  end.

Definition new_query (data : list Z) : option cptr :=
  match balloc (zlen data + 1) with
  | None => Some None
  | Some b => b ← memcpy_at b 0 data; b ← store b (zlen data) 0; q ← cstr b; Some (Some q)
  end.

Definition merge_post (wp : websRec) : option websRec :=
  match w_postData wp with
  | None => Some wp
  | Some postData =>
      if zlen postData <? lenPostData wp then None
      else
        let data := take (Z.to_nat (lenPostData wp)) postData in
        q ← match w_query wp with Some q => append_query q data | None => new_query data end;
        Some (wp <| w_query := q |>)
  end.

(** The keyword and its value; [token] is in its place in the block of the query. *)
Definition split_pair (token : list Z) : option (list Z * list Z) :=
  let b := token ++ [0] in
  let '(k, v) := span (fun c => negb (c =? 61)) token in
  match v with
  | [] => Some (token, [])
  | _ :: v =>
      let i := zlen k in
      b ← store b i 0;
      b ← websDecodeUrl b 0 0 (zlen k);
      b ← websDecodeUrl b (i + 1) (i + 1) (zlen v);
      keyword ← cstr b; value ← cstr (drop (Z.to_nat (i + 1)) b); Some (keyword, value)
  end.

Definition set_pair (wp : websRec) (token : list Z) : option websRec :=
  '(keyword, value) ← split_pair token;
  if bool_decide (keyword = []) then Some wp
  else
    match websGetVar wp keyword None with
    | Some valCheck =>
        valNew ← fmt_string 256 (str "%s %s") [string_arg valCheck; string_arg value];
        Some (websSetVar wp keyword valNew)
    | None => Some (websSetVar wp keyword (Some value))
    end.

(** The loop over the keywords. *)
Fixpoint query_loop (fuel : nat) (wp : websRec) (before rest : list Z) : option websRec :=
  match fuel with
  | O => None
  | S fuel =>
      '(keyword, before, rest) ← strtok_at 38 before rest;
      match keyword with
      | None => Some wp
      | Some keyword => wp ← set_pair wp keyword; query_loop fuel wp before rest
      end
  end.

Definition websSetEnv (wp : websRec) : option websRec :=
  wp ← set_server_vars wp;
  wp ← (if negb (Z.land (w_flags wp) WEBS_MULTIPART_FORM =? 0) then
          '(wp, uploaded) ← extractUploadedFileContent wp;
          Some match uploaded with
               | Some (content, len) => wp <| w_postData := Some content |> <| lenPostData := len |>
               | None => wp
               end
        else merge_post wp);
  decodedQuery ← bstrdup_ptr bstrdup (w_query wp);
  query_loop (S (length decodedQuery)) wp [] (decodedQuery ++ [0]).
End Env.
