(* ===== verification/QueryEnvSpec.v ===== *)
(** * What the variables of a request are

    The query is a list of keywords with values; the variables are a finite map.  A value
    of a keyword that is there already goes behind it, so that a client may add to what the
    server says of the request, but not replace it. *)

From stdpp Require Import gmap.
From S2P Require Import Prelude CString Fmt Url UrlSpec EjParse QueryEnv.
#[local] Open Scope Z_scope.
#[local] Open Scope cint_scope.

(** ** The meaning of a query *)

(** The keyword and the value of an item; without an equals sign the keyword is not decoded. *)
Definition pair_of (t : list Z) : list Z * list Z :=
  match span (fun c => negb (c =? 61)) t with
  | (_, []) => (t, [])
  | (k, _ :: v) => (cut0 (decode_url k), cut0 (decode_url v))
  end.

Definition add_var (vars : gmap (list Z) (list Z)) (p : list Z * list Z) : gmap (list Z) (list Z) :=
  let '(k, v) := p in
  if bool_decide (k = []) then vars
  else <[k := match vars !! k with Some old => take 255 (old ++ 32 :: v) | None => v end]> vars.

Definition query_vars (vars : gmap (list Z) (list Z)) (query : list Z) : gmap (list Z) (list Z) :=
  fold_left add_var (map pair_of (segments_at 38 query)) vars.

(** The query with the data of a POST. *)
Definition full_query (query : cptr) (data : cptr) : list Z :=
  match data with
  | None => default [] query
  | Some data =>
      cut0 (match query with Some q => if bool_decide (q = []) then data else q ++ 38 :: data | None => data end)
  end.

Lemma segments_chars d (P : Z -> Prop) s : Forall P s -> Forall (Forall P) (segments_at d s).
Proof.
  intros Hs. assert (Hp : Forall (Forall P) (pieces_at d s)).
  { induction Hs as [|c s Hc Hs IH]; cbn; [by repeat constructor|]. destruct (c =? d); [by constructor|].
    destruct (pieces_at d s) as [|w ws]; [by repeat constructor|]. apply Forall_cons_iff in IH as [? ?]. by repeat constructor. }
  unfold segments_at. apply List.Forall_forall. intros x Hx.
  apply list_elem_of_In, list_elem_of_filter in Hx as [_ Hx]. apply list_elem_of_In in Hx.
  by eapply List.Forall_forall in Hp.
Qed.

Lemma pieces_length d s : Forall (fun t => zlen t <= zlen s) (pieces_at d s).
Proof.
  induction s as [|c s IH]; cbn [pieces_at length]; [by repeat constructor|]. destruct (c =? d).
  - constructor; [cbn; lia|]. eapply List.Forall_impl; [|exact IH]. cbn. lia.
  - destruct (pieces_at d s) as [|w ws]; [repeat constructor; cbn; lia|]. apply Forall_cons_iff in IH as [H1 H2].
    constructor; [cbn; lia|]. eapply List.Forall_impl; [|exact H2]. cbn. lia.
Qed.

Lemma segments_length d s : Forall (fun t => zlen t <= zlen s) (segments_at d s).
Proof.
  apply List.Forall_forall. intros x Hx. apply list_elem_of_In, list_elem_of_filter in Hx as [_ Hx]. apply list_elem_of_In in Hx.
  pose proof (pieces_length d s) as Hp. by eapply List.Forall_forall in Hp.
Qed.

(** ** The items *)

Section EnvSpec.
Context (lw : Z) (lw_ok : lw = 32 \/ lw = 64).
Context (balloc : Z -> option (list Z)) (brealloc : list Z -> Z -> option (list Z)) (bstrdup : list Z -> cptr).
Context (balloc_ok : forall n, 0 < n <= 2 ^ 30 -> exists b, balloc n = Some b /\ zlen b = n).
Context (brealloc_ok : forall b n, zlen b <= n <= 2 ^ 30 ->
  exists b', brealloc b n = Some b' /\ zlen b' = n /\ take (length b) b' = b).
Context (bstrdup_ok : forall s, bstrdup s = Some s).

(** Two strings with a byte between them, cut to the capacity of the buffer. *)
Lemma fmt_two n a c b : 64 <= n <= 2 ^ 26 -> c <> 0 -> c <> 37 ->
  no_nul a -> no_nul b -> zlen a < 2 ^ 32 -> zlen b < 2 ^ 32 ->
  fmt_string lw balloc brealloc n (37 :: 115 :: c :: 37 :: 115 :: []) [string_arg a; string_arg b] = Some (Some (take (Z.to_nat (capacity n)) (a ++ c :: b))).
Proof using All.
  intros Hn Hc0 Hc37 Ha Hb Hla Hlb. unfold fmt_string, string_arg.
  assert (Ht : text lw (capacity n) (37 :: 115 :: c :: 37 :: 115 :: []) [AStr (Some (a ++ [0])); AStr (Some (b ++ [0]))] = Some (a ++ c :: b, [])).
  { unfold text, text_after, format. cbn [length].
    rewrite (format_s lw _ lw_ok _ [] (a ++ [0]) a) by (done || by apply cstr_app).
    change (S (S 4)) with (length [c] + 5)%nat. change (Some (c :: 37 :: 115 :: [])) with (Some ([c] ++ [37; 115])).
    rewrite (format_plain lw _ [c]) by by repeat constructor.
    rewrite (format_s lw _ lw_ok _ _ (b ++ [0]) b) by (done || by apply cstr_app). rewrite (format_end lw _ 3).
    cbn [app]. by rewrite <- app_assoc. }
  destruct (fmtAlloc_spec balloc brealloc balloc_ok brealloc_ok lw n _ _ _ _ ltac:(lia) Ht ltac:(left; unfold STR_INC; lia)) as (blk & -> & E).
  cbn [mbind option_bind]. by rewrite E.
Qed.

(** The sizes of what is stored. *)
Definition fits (s : list Z) : Prop := no_nul s /\ zlen s < 2 ^ 31.
Definition vars_ok (vars : gmap (list Z) (list Z)) : Prop := map_Forall (fun _ => fits) vars.

Lemma decode_shorter s : no_nul s -> zlen (decode_url s) <= zlen s.
Proof. intros Hs. destruct (websDecodeUrl_at [] s [] 0 Hs eq_refl) as (gap & _ & E). lia. Qed.

Lemma cut0_shorter s : zlen (cut0 s) <= zlen s.
Proof. induction s as [|c s IH]; cbn [cut0]; [done|]. destruct (c =? 0); cbn [length]; lia. Qed.

Lemma decoded_fits s : fits s -> fits (cut0 (decode_url s)).
Proof.
  intros [Hs Hl]. split; [apply cut0_no_nul|]. pose proof (decode_shorter s Hs). pose proof (cut0_shorter (decode_url s)). lia.
Qed.

Lemma fits_parts a c b : fits (a ++ c :: b) -> fits a /\ fits b.
Proof.
  intros [Hn Hl]. apply Forall_app in Hn as [Ha Hb]. apply Forall_cons_iff in Hb as [_ Hb]. rewrite length_app in Hl. cbn [length] in Hl.
  split; (split; [done|lia]).
Qed.

Lemma pair_of_fits t : fits t -> fits (fst (pair_of t)) /\ fits (snd (pair_of t)).
Proof.
  intros Ht. unfold pair_of. destruct (span _ t) as [k v] eqn:E. destruct (span_spec _ _ _ _ E) as (-> & _ & _).
  destruct v as [|c v]; [by split; [|split; [constructor|]]|]. apply fits_parts in Ht as [Hk Hv]. split; by apply decoded_fits.
Qed.

Lemma split_pair_spec t : fits t -> split_pair t = Some (pair_of t).
Proof.
  intros Ht. unfold split_pair, pair_of. destruct (span _ t) as [k v] eqn:E. destruct (span_spec _ _ _ _ E) as (-> & _ & _).
  destruct v as [|c v]; [done|]. apply fits_parts in Ht as [[Hk _] [Hv _]]. rewrite <- app_assoc. cbn [app].
  rewrite store_app. cbn [mbind option_bind].
  destruct (websDecodeUrl_at [] k (v ++ [0]) 0 Hk eq_refl) as (gap & E1 & El). cbn [app] in E1. rewrite E1. cbn [mbind option_bind].
  replace (decode_url k ++ 0 :: gap ++ v ++ [0]) with ((decode_url k ++ 0 :: gap) ++ v ++ [0]) by (by rewrite <- app_assoc).
  destruct (websDecodeUrl_at (decode_url k ++ 0 :: gap) v [] (zlen k + 1) Hv) as (gap2 & E2 & _).
  { rewrite length_app. cbn [length]. lia. }
  cbn [app] in E2. rewrite E2. cbn [mbind option_bind]. rewrite <- app_assoc. cbn [app]. rewrite cstr_cut0. cbn [mbind option_bind].
  change (0 :: gap ++ ?x) with ((0 :: gap) ++ x). rewrite app_assoc.
  rewrite drop_app_length' by (rewrite length_app; cbn [length]; lia). by rewrite cstr_cut0.
Qed.

Lemma add_var_ok vars p : vars_ok vars -> fits (fst p) -> fits (snd p) -> vars_ok (add_var vars p).
Proof.
  destruct p as [k v]. cbn [fst snd add_var]. intros Hv Hk Hp. destruct (bool_decide _); [done|]. apply map_Forall_insert_2; [|done].
  destruct (vars !! k) as [old|] eqn:E; [|done]. pose proof (Hv k old E) as [Ho _]. destruct Hp as [Hp _]. split.
  - apply Forall_take. apply Forall_app. split; [done|]. by constructor.
  - rewrite length_take. lia.
Qed.

Lemma set_pair_spec wp t : vars_ok (cgiVars wp) -> fits t ->
  set_pair lw balloc brealloc wp t = Some (wp <| cgiVars := add_var (cgiVars wp) (pair_of t) |>).
Proof using All.
  intros Hv Ht. unfold set_pair. rewrite split_pair_spec by done. cbn [mbind option_bind].
  destruct (pair_of_fits t Ht) as [Hk Hp]. destruct (pair_of t) as [k v]. cbn [fst snd add_var] in *.
  destruct (bool_decide (k = [])); [by destruct wp|]. unfold websGetVar, websSetVar.
  destruct (cgiVars wp !! k) as [old|] eqn:E; [|done].
  change (str "%s %s") with [37; 115; 32; 37; 115]. destruct (Hv k old E) as [Ho Hol]. destruct Hp as [Hp Hpl].
  rewrite fmt_two; try done; lia.
Qed.

Lemma query_loop_spec fuel : forall s wp before post, fits s -> (length s < fuel)%nat -> vars_ok (cgiVars wp) ->
  query_loop lw balloc brealloc fuel wp before (s ++ 0 :: post) = Some (wp <| cgiVars := query_vars (cgiVars wp) s |>).
Proof using All.
  induction fuel as [|fuel IH]; intros s wp before post Hs Hf Hv; [lia|]. cbn [query_loop].
  destruct (path_cases (d := 38) s (proj1 Hs)) as [Hsl|(sl & t & Hsl & Ht & [->|(r & -> & Hr)])].
  - rewrite strtok_none by done. cbn [mbind option_bind]. unfold query_vars.
    rewrite <- (app_nil_r s), segments_slashes by done. by destruct wp.
  - rewrite <- app_assoc. rewrite strtok_token by (done || by left). cbn [mbind option_bind]. rewrite Z.eqb_refl, app_nil_r.
    assert (Hft : fits t).
    { destruct Hs as [Hn Hl]. apply Forall_app in Hn as [_ Hn]. rewrite length_app in Hl. split; [done|lia]. }
    rewrite set_pair_spec by done. cbn [mbind option_bind].
    assert (Hlt : (0 < length t)%nat) by (destruct Ht as [Ht _]; destruct t; [done|cbn; lia]).
    rewrite length_app in Hf. rewrite (IH [] _ _ post); [|by split; [constructor|]|cbn; lia|].
    2: { destruct (pair_of_fits t Hft). destruct wp. by apply add_var_ok. }
    unfold query_vars. rewrite (segments_slashes sl), (segments_last t) by done. by destruct wp.
  - rewrite <- !app_assoc. cbn [app]. rewrite strtok_token by (done || by right). cbn [mbind option_bind].
    change (38 =? 0) with false. cbn iota. rewrite app_assoc in Hs. apply fits_parts in Hs as [Hs1 Hs2].
    assert (Hft : fits t).
    { destruct Hs1 as [Hn Hl]. apply Forall_app in Hn as [_ Hn]. rewrite length_app in Hl. split; [done|lia]. }
    rewrite set_pair_spec by done. cbn [mbind option_bind]. rewrite !length_app in Hf. cbn [length] in Hf.
    rewrite (IH r _ _ post); [|done|lia|].
    2: { destruct (pair_of_fits t Hft). destruct wp. by apply add_var_ok. }
    unfold query_vars. rewrite segments_slashes, segments_token by done. by destruct wp.
Qed.
(** ** The data of a POST *)

Lemma memcpy_spec a t s i : i = zlen a -> zlen s <= zlen t -> memcpy_at (a ++ t) i s = Some (a ++ s ++ drop (length s) t).
Proof.
  intros -> Hl. unfold memcpy_at. rewrite length_app. replace (_ && _) with true by (symmetry; apply andb_true_intro; split; zb). f_equal. unfold bput. rewrite Nat2Z.id.
  by rewrite take_app_length, <- drop_drop, drop_app_length.
Qed.

(** A text is copied behind [a], with its zero byte. *)
Lemma copy_end a s t i : i = zlen a -> zlen t = zlen s + 1 ->
  (b ← memcpy_at (a ++ t) i s; b ← store b (i + zlen s) 0; q ← cstr b; Some (Some q)) = Some (Some (cut0 (a ++ s))).
Proof.
  intros -> Hl. rewrite memcpy_spec by (done || lia). cbn [mbind option_bind].
  destruct (drop (length s) t) as [|x [|y r]] eqn:E; apply (f_equal length) in E; rewrite length_drop in E; cbn [length] in E; try lia.
  rewrite app_assoc, store_at by (rewrite length_app; lia). cbn [mbind option_bind]. by rewrite cstr_cut0.
Qed.

Lemma append_query_spec q data : no_nul q -> zlen q + zlen data <= 2 ^ 29 ->
  append_query brealloc q data = Some (Some (cut0 (if bool_decide (q = []) then data else q ++ 38 :: data))).
Proof using All.
  intros Hq Hl. unfold append_query. case_bool_decide as He; cbn [negb].
  - subst q. cbn [length app]. destruct (brealloc_ok [0] (Z.of_nat 0 + zlen data + 1)) as (b & -> & Hb & Ht); [cbn [length]; lia|].
    cbn [mbind option_bind]. apply (copy_end [] data b 0); [done|lia].
  - destruct (brealloc_ok (q ++ [0]) (zlen q + zlen data + 2)) as (b & -> & Hb & Ht); [rewrite length_app; cbn [length]; lia|].
    rewrite <- (take_drop (length (q ++ [0])) b), Ht, <- app_assoc. cbn [app]. rewrite store_app. cbn [mbind option_bind].
    set (t := drop _ b). change (q ++ 38 :: t) with (q ++ [38] ++ t). rewrite app_assoc.
    rewrite (copy_end (q ++ [38]) data t); [by rewrite <- app_assoc|rewrite length_app; cbn [length]; lia|].
    unfold t. rewrite length_drop, length_app. cbn [length]. lia.
Qed.

Lemma new_query_spec data : zlen data <= 2 ^ 29 -> new_query balloc data = Some (Some (cut0 data)).
Proof using All.
  intros Hl. unfold new_query. destruct (balloc_ok (zlen data + 1)) as (b & -> & Hb); [lia|]. apply (copy_end [] data b 0); [done|lia].
Qed.

(** The data of a POST, of which [lenPostData] bytes are there. *)
Definition post_data (wp : websRec) : cptr := d ← w_postData wp; Some (take (Z.to_nat (lenPostData wp)) d).
Definition post_ok (wp : websRec) : Prop :=
  match w_postData wp with Some d => 0 <= lenPostData wp <= zlen d /\ zlen d <= 2 ^ 28 | None => True end.

Lemma merge_post_spec wp : post_ok wp -> no_nul (default [] (w_query wp)) -> zlen (default [] (w_query wp)) <= 2 ^ 28 ->
  exists q, merge_post balloc brealloc wp = Some (wp <| w_query := q |>) /\ default [] q = full_query (w_query wp) (post_data wp).
Proof using All.
  unfold post_ok, merge_post, post_data, full_query. intros Hp Hq Hl. destruct (w_postData wp) as [d|]; cbn [mbind option_bind].
  2: { exists (w_query wp). by destruct wp. }
  replace (zlen d <? lenPostData wp) with false by zb.
  assert (Ht : zlen (take (Z.to_nat (lenPostData wp)) d) <= 2 ^ 28) by (rewrite length_take; lia).
  destruct (w_query wp) as [q|]; cbn in Hq, Hl.
  - rewrite append_query_spec by (done || lia). cbn [mbind option_bind]. by eexists.
  - rewrite new_query_spec by lia. cbn [mbind option_bind]. by eexists.
Qed.

Lemma full_query_fits wp : post_ok wp -> no_nul (default [] (w_query wp)) -> zlen (default [] (w_query wp)) <= 2 ^ 28 ->
  fits (full_query (w_query wp) (post_data wp)).
Proof.
  unfold post_ok, post_data, full_query, fits. intros Hp Hq Hl. destruct (w_postData wp) as [d|]; cbn [mbind option_bind]; [|split; [done|lia]].
  split; [apply cut0_no_nul|]. set (dt := take _ d). assert (Ht : zlen dt <= 2 ^ 28) by (unfold dt; rewrite length_take; lia).
  destruct (w_query wp) as [q|]; cbn in Hq, Hl; [destruct (bool_decide _)|];
    match goal with |- zlen (cut0 ?x) < _ => pose proof (cut0_shorter x) as Hc end; [lia| |lia].
  rewrite length_app in Hc. cbn [length] in Hc. lia.
Qed.
(** ** All together *)

Context (websHost : list Z) (websHostUrl : cptr) (websPort : Z).
Context (extract : websRec -> option (websRec * option (list Z * Z))).

(** What the server says of the request. *)
Definition server_list (portBuf : list Z) (wp : websRec) : list (list Z * list Z) :=
  [(str "QUERY_STRING", default [] (w_query wp)); (str "GATEWAY_INTERFACE", str "CGI/1.1");
   (str "SERVER_HOST", websHost); (str "SERVER_NAME", websHost); (str "SERVER_URL", default [] websHostUrl);
   (str "REMOTE_HOST", ipaddr wp); (str "REMOTE_ADDR", ipaddr wp); (str "PATH_INFO", default [] (w_path wp));
   (str "SERVER_PORT", portBuf); (str "SERVER_ADDR", ifaddr wp); (str "SERVER_SOFTWARE", str "GoAhead-Webs/2.5.0");
   (str "SERVER_PROTOCOL", default [] (protoVersion wp))].

Definition server_vars (portBuf : list Z) (wp : websRec) : gmap (list Z) (list Z) :=
  fold_left (fun m p => <[fst p := snd p]> m) (server_list portBuf wp) (cgiVars wp).

Lemma set_server_vars_spec portBuf wp : stritoa websPort 8 = Some portBuf ->
  set_server_vars lw balloc brealloc websHost websHostUrl websPort wp = Some (wp <| cgiVars := server_vars portBuf wp |>).
Proof using All.
  intros Hport. unfold set_server_vars. rewrite Hport. cbn [mbind option_bind].
  change (str "%s/%s") with [37; 115; 47; 37; 115].
  rewrite fmt_two by first [done | unfold FNAMESIZE; lia | apply (bool_decide_unpack _); by vm_compute].
  cbn [mbind option_bind]. by destruct wp.
Qed.

Lemma server_vars_ok portBuf wp : vars_ok (cgiVars wp) -> Forall (fun p => fits (snd p)) (server_list portBuf wp) ->
  vars_ok (server_vars portBuf wp).
Proof.
  unfold server_vars. generalize (cgiVars wp). induction (server_list portBuf wp) as [|p l IH]; intros m Hm Hl; [done|].
  apply Forall_cons_iff in Hl as [Hp Hl]. cbn [fold_left]. apply IH; [|done]. by apply map_Forall_insert_2.
Qed.

(** A variable that is there is only added to. *)
Lemma query_vars_keep query vars k v : vars !! k = Some v ->
  exists v', query_vars vars query !! k = Some v' /\ take 255 v `prefix_of` v'.
Proof.
  intros Hv. assert (H0 : exists v', vars !! k = Some v' /\ take 255 v `prefix_of` v').
  { exists v. split; [done|]. exists (drop 255 v). by rewrite take_drop. }
  clear Hv. unfold query_vars. revert vars H0. induction (map pair_of _) as [|[k' x] l IH]; intros vars (cur & E & Hp); [by exists cur|].
  cbn [fold_left]. apply IH. unfold add_var. case_bool_decide; [by exists cur|]. destruct (decide (k' = k)) as [->|Hk].
  - rewrite E, lookup_insert_eq. eexists. split; [done|]. destruct Hp as [r ->]. exists (take (255 - length (take 255 v)) (r ++ 32 :: x)).
    rewrite <- app_assoc, take_app. f_equal. rewrite take_take. f_equal; lia.
  - exists cur. split; [|done]. by rewrite lookup_insert_ne.
Qed.

(** The conditions under which the variables of a request are known: it is no multipart
    form, the port has a text, and what is copied fits. *)
Record env_fits (portBuf : list Z) (wp : websRec) : Prop := {
  ef_plain : Z.land (w_flags wp) WEBS_MULTIPART_FORM = 0;
  ef_port : stritoa websPort 8 = Some portBuf;
  ef_vars : vars_ok (cgiVars wp);
  ef_server : Forall (fun p => fits (snd p)) (server_list portBuf wp);
  ef_post : post_ok wp;
  ef_query : zlen (default [] (w_query wp)) <= 2 ^ 28
}.

Lemma websSetEnv_spec wp portBuf : env_fits portBuf wp ->
  let query := full_query (w_query wp) (post_data wp) in
  exists q, default [] q = query /\
    websSetEnv lw balloc brealloc bstrdup websHost websHostUrl websPort extract wp =
      Some (wp <| w_query := q |> <| cgiVars := query_vars (server_vars portBuf wp) query |>).
Proof using All.
  intros [Hm Hport Hv Hs Hp Hl] query.
  unfold websSetEnv. rewrite set_server_vars_spec with (portBuf := portBuf) by done. cbn [mbind option_bind].
  pose proof (server_vars_ok portBuf wp Hv Hs) as Hok. apply Forall_cons_iff in Hs as [[Hq _] _]. cbn [snd] in Hq.
  pose proof (full_query_fits wp Hp Hq Hl) as Hfit.
  set (wp1 := wp <| cgiVars := server_vars portBuf wp |>).
  replace (Z.land (w_flags wp1) WEBS_MULTIPART_FORM) with 0 by by destruct wp. cbn [Z.eqb negb].
  destruct (merge_post_spec wp1) as (q & -> & Eq); [by destruct wp..|]. cbn [mbind option_bind].
  exists q. replace (full_query (w_query wp1) (post_data wp1)) with query in Eq by by destruct wp. split; [done|].
  replace (w_query (wp1 <| w_query := q |>)) with q by by destruct wp. unfold bstrdup_ptr. rewrite bstrdup_ok, Eq. cbn [mbind option_bind].
  rewrite query_loop_spec; [|done|lia|by destruct wp]. by destruct wp.
Qed.

(** C17. For a request that is not a multipart form the variables are those of the server,
    and behind them, item by item, those of the query with the data of the POST, decoded; a
    variable that is there already is never replaced: up to 255 characters it stays in
    front of what the client sends.  Nothing else of the request changes but the query. *)
Theorem websSetEnv_variables wp portBuf :
  Z.land (w_flags wp) WEBS_MULTIPART_FORM = 0 -> stritoa websPort 8 = Some portBuf ->
  vars_ok (cgiVars wp) -> Forall (fun p => fits (snd p)) (server_list portBuf wp) ->
  post_ok wp -> zlen (default [] (w_query wp)) <= 2 ^ 28 ->
  let query := full_query (w_query wp) (post_data wp) in
  let vars := query_vars (server_vars portBuf wp) query in
  (exists q, default [] q = query /\
    websSetEnv lw balloc brealloc bstrdup websHost websHostUrl websPort extract wp = Some (wp <| w_query := q |> <| cgiVars := vars |>)) /\
  forall k v, server_vars portBuf wp !! k = Some v -> exists v', vars !! k = Some v' /\ take 255 v `prefix_of` v'.
Proof using All.
  intros Hm Hport Hv Hs Hp Hl query vars. split; [|intros k v; apply query_vars_keep].
  by apply websSetEnv_spec.
Qed.
End EnvSpec.

(** ** Example *)

(** A client adds to what the server says of it. *)
Definition query_request : websRec :=
  (demo_request (str "/cgi-bin/status")) <| w_query := Some (str "a=1&b=x%3Dy+z&&REMOTE_ADDR=127.0.0.1&flag") |>
    <| w_postData := Some (str "a=2") |> <| lenPostData := 3 |>.

Definition query_result : list cptr :=
  map (fun k => query_vars (server_vars (str "192.168.1.1") (Some (str "192.168.1.1")) (str "80") query_request)
         (full_query (w_query query_request) (post_data query_request)) !! k)
    [str "a"; str "b"; str "flag"; str "REMOTE_ADDR"; str "SERVER_PORT"].

Lemma query_result_eq : query_result =
  [Some (str "1 2"); Some (str "x=y z"); Some []; Some (str "10.0.0.2 127.0.0.1"); Some (str "80")].
Proof. vm_compute. reflexivity. Qed.

Lemma websSetEnv_variables_witness :
  exists wp', websSetEnv 32 Fmt.demo_balloc demo_brealloc Some (str "192.168.1.1") (Some (str "192.168.1.1")) 80 (fun _ => None) query_request = Some wp' /\
    cgiVars wp' !! str "REMOTE_ADDR" = Some (str "10.0.0.2 127.0.0.1").
Proof.
  destruct (websSetEnv_variables 32 (or_introl eq_refl) Fmt.demo_balloc demo_brealloc Some demo_balloc_ok demo_brealloc_ok (fun _ => eq_refl)
    (str "192.168.1.1") (Some (str "192.168.1.1")) 80 (fun _ => None) query_request (str "80")) as [(q & _ & E) _].
  - reflexivity.
  - reflexivity.
  - intros k v H. vm_compute in H. discriminate H.
  - repeat (constructor; [split; [apply (bool_decide_unpack _)|]; vm_compute; reflexivity|]). constructor.
  - vm_compute. intuition discriminate.
  - vm_compute. discriminate.
  - eexists. split; [exact E|]. pose proof (f_equal (fun l => nth 3 l None) query_result_eq) as H. exact H.
Defined.
