(* ===== verification/Handler.v ===== *)
(** * Who answers a request (webs/src/src/handler.c)

    The handlers are kept in an array with the prefixes of the paths they answer; a request
    goes to those whose prefix fits, one by one, until one takes it.  A handler is a function
    pointer, an element of the type [F]; what it does is the parameter [call], on the request
    and on [W], everything else there is: sessions, sockets, files.  What of webs.c deals
    with sockets is a parameter as well: [begin_request] (the socket handler is deleted, the
    state set and the request counted), [websValid] and [websError].

    [qsort] and [brealloc] are those of the library; [None] is a crash.  The table does not
    change while a request is answered. *)

From stdpp Require Import gmap.
From S2P Require Import Prelude CString Url Security.
#[local] Open Scope Z_scope.
#[local] Open Scope cint_scope.

Definition WEBS_HANDLER_FIRST : Z := 1.
Definition WEBS_HANDLER_LAST : Z := 2.

Section Handlers.
Context {F : Type} {F_eq : EqDecision F}.

Record websUrlHandlerType : Type := mkHandler {
  handler : option F;
  webDir : cptr;
  urlPrefix : list Z;
  len : Z;
  arg : Z;
  flags : Z
}.

(** The pointer to the array: null, to a released block, or to the entries. *)
Inductive table_ptr : Type := TNull | TFreed | TBlock (entries : list websUrlHandlerType).

Record url_handlers : Type := mkUrlHandlers {
  websUrlHandler : table_ptr;
  websUrlHandlerMax : Z;
  urlHandlerOpenCount : Z
}.

(** The entries below [websUrlHandlerMax], which the loops read. *)
Definition entries (st : url_handlers) : option (list websUrlHandlerType) :=
  if websUrlHandlerMax st <=? 0 then Some []
  else match websUrlHandler st with
       | TBlock l => if zlen l =? websUrlHandlerMax st then Some l else None
       | _ => None
       end.

(** ** The table *)

Definition has_flag (sp : websUrlHandlerType) (f : Z) : bool := negb (Z.land (flags sp) f =? 0).

Definition websUrlHandlerSort (s1 s2 : websUrlHandlerType) : Z :=
  if has_flag s1 WEBS_HANDLER_FIRST || has_flag s2 WEBS_HANDLER_LAST then -1
  else if has_flag s2 WEBS_HANDLER_FIRST || has_flag s1 WEBS_HANDLER_LAST then 1
  else
    let rc := strcmp (urlPrefix s1) (urlPrefix s2) in
    if (rc =? 0) && (len s1 <? len s2) then 1
    else if (rc =? 0) && (len s2 <? len s1) then -1
    else - rc.

Section Define.
Context (brealloc_entries : Z -> bool).
Context (bstrdup : list Z -> cptr).
Context (qsort : (websUrlHandlerType -> websUrlHandlerType -> Z) -> list websUrlHandlerType -> list websUrlHandlerType).

(** Without [websAspOpen]. *)
Definition websUrlHandlerOpen (st : url_handlers) : url_handlers :=
  let st := st <| urlHandlerOpenCount := urlHandlerOpenCount st + 1 |> in
  if urlHandlerOpenCount st =? 1 then st <| websUrlHandler := TNull |> <| websUrlHandlerMax := 0 |> else st.

(** Without [websAspClose]; the pointer stays as it is. *)
Definition websUrlHandlerClose (st : url_handlers) : option url_handlers :=
  let st := st <| urlHandlerOpenCount := urlHandlerOpenCount st - 1 |> in
  if urlHandlerOpenCount st <=? 0 then
    _ ← entries st;
    match websUrlHandler st with
    | TFreed => None
    | TNull => Some (st <| websUrlHandlerMax := 0 |>)
    | TBlock _ => Some (st <| websUrlHandler := TFreed |> <| websUrlHandlerMax := 0 |>)
    end
  else Some st.

Definition websUrlHandlerDefine (st : url_handlers) (prefix : list Z) (dir : cptr) (a : Z) (h : F) (fl : Z)
  : option (Z * url_handlers) :=
  l ← match websUrlHandler st with TNull => Some [] | TFreed => None | TBlock l => Some l end;
  if brealloc_entries (websUrlHandlerMax st + 1) then
    p ← bstrdup prefix;
    let d := bstrdup_ptr bstrdup dir in
    if zlen l =? websUrlHandlerMax st then
      let sp := mkHandler (Some h) d p (zlen p) a fl in
      Some (0, st <| websUrlHandler := TBlock (qsort websUrlHandlerSort (l ++ [sp])) |>
                  <| websUrlHandlerMax := websUrlHandlerMax st + 1 |>)
    else None
  else Some (-1, st <| websUrlHandler := TNull |>).

(** The first entry with the handler becomes unused. *)
Fixpoint delete_entry (l : list websUrlHandlerType) (h : F) : option (list websUrlHandlerType) :=
  match l with
  | [] => None
  | sp :: l =>
      if decide (handler sp = Some h) then Some ((sp <| handler := None |>) :: l)
      else l ← delete_entry l h; Some (sp :: l)
  end.

Definition websUrlHandlerDelete (st : url_handlers) (h : F) : option (Z * url_handlers) :=
  l ← entries st;
  match delete_entry l h with
  | Some l => Some (0, st <| websUrlHandler := TBlock l |>)
  | None => Some (-1, st)
  end.

(** ** Directories of prefixes *)

Definition websPublish (websPublishHandler : F) (st : url_handlers) (prefix path : list Z) : option (Z * url_handlers) :=
  websUrlHandlerDefine st prefix (Some path) 0 websPublishHandler 0.

(** Does the entry answer this path? *)
Definition matches (sp : websUrlHandlerType) (path : list Z) : bool :=
  match handler sp with Some _ => memcmp0 path (urlPrefix sp) (len sp) | None => false end.

Fixpoint publish_dir (l : list websUrlHandlerType) (path : list Z) : option (list Z * cptr) :=
  match l with
  | [] => None
  | sp :: l =>
      if bool_decide (urlPrefix sp = []) then publish_dir l path
      else if matches sp path then Some (urlPrefix sp, webDir sp) else publish_dir l path
  end.

(** The prefix and the directory, or nothing. *)
Definition websGetPublishDir (st : url_handlers) (path : list Z) : option (option (list Z * cptr)) :=
  l ← entries st; Some (publish_dir l path).

(** [&path\[n\]], which may not be behind the NUL. *)
Definition path_from (path : list Z) (n : Z) : option (list Z) :=
  if n <=? zlen path then Some (drop (Z.to_nat n) path) else None.

Definition websPublishHandler (wp : websRec) (prefix : list Z) (dir : cptr) (path : list Z) : option (Z * websRec) :=
  let len := zlen prefix + 1 in
  rest ← path_from path len;
  Some (0, websSetRequestPath bstrdup wp dir (Some rest)).
End Define.

(** ** A request *)

Section Request.
Context {W : Type}.
Context (bstrdup : list Z -> cptr).
Context (call : F -> websRec -> list Z -> cptr -> Z -> cptr -> list Z -> cptr -> W -> option (Z * websRec * W)).
Context (begin_request : W -> W) (websValid : W -> bool) (websError : Z -> list Z -> websRec -> W -> option (websRec * W)).
Context (websSetEnv : websRec -> option websRec).
Context (websGetDefaultDir : cptr).

(** The loop over the handlers; [first] until one was called. *)
Fixpoint handlers_loop (l : list websUrlHandlerType) (wp : websRec) (w : W) (first : bool) : option (Z * websRec * W) :=
  match l with
  | [] => '(wp, w) ← websError 200 (str "No handler for this URL") wp w; Some (0, wp, w)
  | sp :: l =>
      match handler sp with
      | None => handlers_loop l wp w first
      | Some h =>
          path ← w_path wp;
          if memcmp0 path (urlPrefix sp) (len sp) then
            wp ← (if first then websSetEnv wp else Some wp);
            path ← w_path wp;
            '(r, wp, w) ← call h wp (urlPrefix sp) (webDir sp) (arg sp) (w_url wp) path (w_query wp) w;
            if negb (r =? 0) then Some (1, wp, w)
            else if negb (websValid w) then Some (1, wp, w)
            else handlers_loop l wp w false
          else handlers_loop l wp w first
      end
  end.

(** [websCondenseMultipleChars] of a string in place. *)
Definition condense_string (s : list Z) : option (list Z) := b ← websCondenseMultipleChars (s ++ [0]) 47; cstr b.

Definition websUrlHandlerRequest (st : url_handlers) (wp : websRec) (w : W) : option (Z * websRec * W) :=
  let w := begin_request w in
  let wp := websSetRequestPath bstrdup wp websGetDefaultDir None in
  path ← w_path wp;
  path ← condense_string path;
  let wp := wp <| w_path := Some path |> in
  url ← (match w_url wp with Some u => u ← condense_string u; Some (Some u) | None => Some None end);
  let wp := wp <| w_url := url |> in
  if negb (match path with c :: _ => c =? 47 | [] => false end) || bool_decide (92 ∈ path) then
    '(wp, w) ← websError 400 (str "Bad request") wp w; Some (0, wp, w)
  else l ← entries st; handlers_loop l wp w true.
End Request.
End Handlers.
Arguments websUrlHandlerType : clear implicits.
Arguments url_handlers : clear implicits.
