(* ===== verification/HandlerSpec.v ===== *)
(** * Which handler answers, and behind which check

    The array is kept in an order in which, of the handlers whose prefixes fit a path, the
    one with the longest is asked first; and a security handler at its head decides about
    all that are behind it. *)

From Stdlib Require Import Sorted.
From stdpp Require Import gmap.
From S2P Require Import Prelude CString Handles SymTab Fmt Url UrlSpec EjParse Session SessionSpec Security SecuritySpec QueryEnv QueryEnvSpec Handler.
#[local] Open Scope Z_scope.
#[local] Open Scope cint_scope.

(** ** The comparison of strings *)

Lemma strcmp_values a b : strcmp a b = -1 \/ strcmp a b = 0 \/ strcmp a b = 1.
Proof.
  revert b. induction a as [|x a IH]; intros [|y b]; cbn; try tauto. destruct (x =? y); [apply IH|]. destruct (x <? y); tauto.
Qed.

Lemma strcmp_sym a b : strcmp b a = - strcmp a b.
Proof.
  revert b. induction a as [|x a IH]; intros [|y b]; cbn; try done.
  destruct (Z.eqb_spec x y) as [->|]; [rewrite Z.eqb_refl; apply IH|].
  rewrite (proj2 (Z.eqb_neq y x)) by lia. destruct (Z.ltb_spec x y), (Z.ltb_spec y x); lia.
Qed.

Lemma strcmp_trans a b c : 0 < strcmp a b -> 0 < strcmp b c -> 0 < strcmp a c.
Proof.
  revert b c. induction a as [|x a IH]; intros [|y b] [|z c]; cbn; try lia.
  destruct (Z.eqb_spec x y), (Z.eqb_spec y z), (Z.eqb_spec x z); subst; try lia; try done; try apply IH;
    repeat match goal with |- context [?p <? ?q] => destruct (Z.ltb_spec p q) end; lia.
Qed.

(** A proper prefix is smaller. *)
Lemma strcmp_prefix p r : r <> [] -> 0 < strcmp (p ++ r) p.
Proof. intros Hr. induction p as [|x p IH]; cbn; [by destruct r|]. by rewrite Z.eqb_refl. Qed.

(** ** The order of the array *)

Section Order.
Context {F : Type} `{EqDecision F}.
Abbreviation entry := (websUrlHandlerType F).

(** First, in between, last. *)
Definition rank (sp : entry) : Z :=
  if flags sp =? WEBS_HANDLER_FIRST then 0 else if flags sp =? WEBS_HANDLER_LAST then 2 else 1.

(** An entry as [websUrlHandlerDefine] makes it, with one flag at most. *)
Definition well_formed (sp : entry) : Prop :=
  len sp = zlen (urlPrefix sp) /\ (flags sp = 0 \/ flags sp = WEBS_HANDLER_FIRST \/ flags sp = WEBS_HANDLER_LAST).

(** The comparison puts [a] before [b], in both directions. *)
Definition agreed {A} (cmp : A -> A -> Z) (a b : A) : Prop := cmp a b < 0 /\ 0 < cmp b a.
Abbreviation before := (agreed websUrlHandlerSort).

(** Entries that the comparison can tell apart. *)
Definition distinct (a b : entry) : Prop := rank a <> rank b \/ rank a = 1 /\ urlPrefix a <> urlPrefix b.

(** Evaluate the tests of known flags. *)
Ltac flag_values :=
  repeat match goal with |- context [Z.land ?x ?y] => let v := eval vm_compute in (Z.land x y) in change (Z.land x y) with v end; cbn.

Lemma sort_rank a b : well_formed a -> well_formed b -> rank a < rank b -> before a b.
Proof.
  intros [_ Ha] [_ Hb]. unfold rank, agreed, websUrlHandlerSort, has_flag, WEBS_HANDLER_FIRST, WEBS_HANDLER_LAST in *.
  destruct Ha as [-> |[-> | ->]], Hb as [-> |[-> | ->]]; flag_values; lia.
Qed.

Lemma sort_prefix a b : well_formed a -> well_formed b -> rank a = 1 -> rank b = 1 -> 0 < strcmp (urlPrefix a) (urlPrefix b) -> before a b.
Proof.
  intros [_ Ha] [_ Hb]. unfold rank, agreed, websUrlHandlerSort, has_flag, WEBS_HANDLER_FIRST, WEBS_HANDLER_LAST in *.
  destruct Ha as [-> |[-> | ->]], Hb as [-> |[-> | ->]]; flag_values; try lia. intros _ _ Hs.
  rewrite (strcmp_sym (urlPrefix a)). replace (strcmp (urlPrefix a) (urlPrefix b) =? 0) with false by zb.
  replace (- strcmp (urlPrefix a) (urlPrefix b) =? 0) with false by zb. cbn. lia.
Qed.

Lemma before_cases a b : well_formed a -> well_formed b -> before a b ->
  rank a < rank b \/ rank a = 1 /\ rank b = 1 /\ 0 < strcmp (urlPrefix a) (urlPrefix b).
Proof.
  intros [La Ha] [Lb Hb]. unfold rank, agreed, websUrlHandlerSort, has_flag, WEBS_HANDLER_FIRST, WEBS_HANDLER_LAST in *.
  destruct Ha as [-> |[-> | ->]], Hb as [-> |[-> | ->]]; flag_values; try lia. intros [H1 _]. right. split; [done|]. split; [done|].
  destruct (Z.eqb_spec (strcmp (urlPrefix a) (urlPrefix b)) 0) as [E|]; cbn in H1; [|lia]. apply strcmp_eq in E.
  rewrite La, Lb, E, Z.ltb_irrefl in H1. rewrite (proj2 (strcmp_eq _ _) eq_refl) in H1. lia.
Qed.

Lemma distinct_order a b : well_formed a -> well_formed b -> distinct a b -> before a b \/ before b a.
Proof.
  intros Ha Hb [Hr|[H1 Hp]].
  - destruct (Z.lt_trichotomy (rank a) (rank b)) as [?|[?|?]]; [left|done|right]; by apply sort_rank.
  - destruct (Z.eq_dec (rank b) 1) as [H2|Hr].
    + destruct (strcmp_values (urlPrefix a) (urlPrefix b)) as [E|[E|E]].
      * right. apply sort_prefix; try done. rewrite strcmp_sym. lia.
      * by apply strcmp_eq in E.
      * left. apply sort_prefix; try done. lia.
    + destruct (Z.lt_trichotomy (rank a) (rank b)) as [?|[?|?]]; [left|lia|right]; by apply sort_rank.
Qed.

Lemma before_trans a b c : well_formed a -> well_formed b -> well_formed c -> before a b -> before b c -> before a c.
Proof.
  intros Ha Hb Hc H1 H2. apply before_cases in H1, H2; try done.
  destruct H1 as [?|(? & ? & S1)], H2 as [?|(? & ? & S2)]; try (apply sort_rank; [done|done|lia]).
  apply sort_prefix; try done. by apply (strcmp_trans _ (urlPrefix b)).
Qed.

Lemma insert_ordered l sp : Forall well_formed l -> well_formed sp -> StronglySorted before l -> Forall (distinct sp) l ->
  exists l', Permutation (l ++ [sp]) l' /\ StronglySorted before l'.
Proof.
  intros Hl Hsp. induction Hl as [|a l Ha Hl IH]; intros Hs Hd.
  - exists [sp]. split; [done|]. by repeat constructor.
  - apply StronglySorted_inv in Hs as [Hs Hal]. apply Forall_cons_iff in Hd as [Hda Hd].
    destruct (distinct_order sp a Hsp Ha Hda) as [Hb|Hb].
    + exists (sp :: a :: l). split; [symmetry; apply Permutation_cons_append|]. constructor; [by constructor|]. constructor; [done|].
      apply List.Forall_forall. intros x Hx. eapply List.Forall_forall in Hal; [|done]. eapply List.Forall_forall in Hl; [|done].
      by apply (before_trans sp a x).
    + destruct (IH Hs Hd) as (l' & Hp & Hs'). exists (a :: l'). split; [by constructor|]. constructor; [done|].
      apply List.Forall_forall. intros x Hx. apply (Permutation_in _ (symmetry Hp)) in Hx. apply in_app_or in Hx as [Hx|[<-|[]]]; [|done].
      by eapply List.Forall_forall in Hal.
Qed.

(** Of two entries that fit a path, the one that comes first has the longer prefix. *)
Lemma longer_first a b path : well_formed a -> well_formed b -> rank a = 1 -> rank b = 1 -> before a b ->
  starts_with (urlPrefix a) path = true -> starts_with (urlPrefix b) path = true -> zlen (urlPrefix b) < zlen (urlPrefix a).
Proof.
  intros Ha Hb Ra Rb Hab Pa Pb. apply before_cases in Hab as [?|(_ & _ & Hs)]; [lia| |done|done].
  apply starts_with_spec in Pa as [x ->], Pb as [y E]. destruct (Z.lt_ge_cases (zlen (urlPrefix b)) (zlen (urlPrefix a))) as [?|Hl]; [done|].
  assert (Hp : exists r, urlPrefix b = urlPrefix a ++ r).
  { exists (drop (length (urlPrefix a)) (urlPrefix b)). apply (f_equal (take (length (urlPrefix a)))) in E.
    rewrite take_app_length, take_app_le in E by lia. rewrite E at 1. by rewrite take_drop. }
  destruct Hp as [r Er]. rewrite Er, (strcmp_sym (urlPrefix a ++ r)) in Hs. destruct r as [|c r].
  - rewrite app_nil_r in Hs. by rewrite (proj2 (strcmp_eq _ _) eq_refl) in Hs.
  - assert (0 < strcmp (urlPrefix a ++ c :: r) (urlPrefix a)) by by apply strcmp_prefix. lia.
Qed.

(** What is relied on of [qsort]: elements that the comparison puts in one order, and the
    opposite way round in the other direction, come in that order. *)
Definition qsort_sorts (qsort : (entry -> entry -> Z) -> list entry -> list entry) : Prop :=
  forall cmp l l', Permutation l l' -> StronglySorted (agreed cmp) l' -> qsort cmp l = l'.

(** An array that is in order. *)
Record table_ok (st : url_handlers F) (l : list entry) : Prop := {
  to_block : websUrlHandler st = TBlock l;
  to_max : websUrlHandlerMax st = zlen l;
  to_formed : Forall well_formed l;
  to_order : StronglySorted before l
}.

(** C8. Defining a handler keeps the array in its order: with at most one handler marked
    first and one marked last, and no prefix twice among the others, these two are at its
    ends, and of the others whose prefixes fit a path the one with the longest prefix comes
    first, though the comparison is alphabetical.  No entry is lost. *)
Theorem handlers_longest_first brealloc_entries bstrdup qsort st l prefix dir a h fl :
  qsort_sorts qsort -> (forall s, bstrdup s = Some s) -> brealloc_entries (zlen l + 1) = true -> table_ok st l ->
  let sp := mkHandler (Some h) (Some (default [] dir)) prefix (zlen prefix) a fl in
  well_formed sp -> Forall (distinct sp) l ->
  exists st' l', websUrlHandlerDefine brealloc_entries bstrdup qsort st prefix dir a h fl = Some (0, st') /\
    table_ok st' l' /\ Permutation (l ++ [sp]) l' /\
    forall l1 x l2 y l3 path, l' = l1 ++ x :: l2 ++ y :: l3 ->
      rank x <= rank y /\
      (rank x = rank y -> starts_with (urlPrefix x) path = true -> starts_with (urlPrefix y) path = true ->
       zlen (urlPrefix y) < zlen (urlPrefix x)).
Proof.
  intros Hq Hb Hr [Hblk Hmax Hf Ho] sp Hsp Hd. destruct (insert_ordered l sp Hf Hsp Ho Hd) as (l' & Hp & Hs).
  eexists _, l'. unfold websUrlHandlerDefine, bstrdup_ptr. rewrite Hblk. cbn [mbind option_bind]. rewrite Hmax, Hr, !Hb. cbn [mbind option_bind].
  rewrite Z.eqb_refl. fold sp. rewrite (Hq _ _ l' Hp Hs). split; [done|].
  assert (Hf' : Forall well_formed l').
  { rewrite <- Hp. apply Forall_app. split; [done|]. by constructor. }
  split; [|split; [done|]].
  - destruct st. constructor; try done. cbn. apply Permutation_length in Hp. rewrite length_app in Hp. cbn in Hp, Hmax. lia.
  - intros l1 x l2 y l3 path ->. apply Forall_app in Hf' as [_ Hf']. apply Forall_cons_iff in Hf' as [Hx Hf'].
    apply Forall_app in Hf' as [_ Hf']. apply Forall_cons_iff in Hf' as [Hy _].
    assert (Hxy : before x y).
    { clear - Hs. induction l1 as [|z l1 IH]; cbn [app] in Hs; apply StronglySorted_inv in Hs as [Hs Hz]; [|by apply IH].
      eapply List.Forall_forall in Hz; [exact Hz|]. apply in_app_iff. right. by left. }
    destruct (before_cases x y Hx Hy Hxy) as [?|(Rx & Ry & _)]; split; try lia. intros _. by apply longer_first.
Qed.
End Order.

(** ** The security handler at the head *)

Lemma condense_no_nul c s : no_nul s -> no_nul (condense c s).
Proof.
  induction 1 as [|x s Hx Hs IH]; [constructor|]. cbn [condense]. destruct (_ && _); [done|by constructor].
Qed.

(** No character is new, and the first one stays. *)
Lemma condense_elem c x s : x ∉ s -> x ∉ condense c s.
Proof.
  induction s as [|y s IH]; [done|]. intros Hx. apply not_elem_of_cons in Hx as [H1 H2]. cbn [condense].
  destruct (_ && _); [by apply IH|]. apply not_elem_of_cons. split; [done|by apply IH].
Qed.

Lemma condense_head c s : match condense c (c :: s) with d :: _ => d =? c | [] => false end = true.
Proof.
  induction s as [|x s IH]; cbn [condense] in *; rewrite Z.eqb_refl in *; cbn [andb] in *; [apply Z.eqb_refl|].
  destruct (Z.eqb_spec x c) as [->|]; [exact IH|apply Z.eqb_refl].
Qed.

Lemma condense_string_spec s : no_nul s -> condense_string s = Some (condense 47 s).
Proof.
  intros Hs. unfold condense_string. destruct (websCondenseMultipleChars_correct s [] 47) as (rest & ->); [done|done|].
  cbn [mbind option_bind]. apply cstr_app. by apply condense_no_nul.
Qed.

Section Gate.
Context {F O : Type} `{EqDecision F}.
Context (json : cptr -> json_result) (cfg : web_config) (answer : response -> websRec -> O -> O).

(** [websSecurityHandler] as a handler, on its state and everything else. *)
Definition security_call (wp : websRec) (prefix : list Z) (dir : cptr) (a : Z) (url : cptr) (path : list Z) (query : cptr)
  (w : security * O) : option (Z * websRec * (security * O)) :=
  u ← url;
  '(r, resp, wp, st) ← websSecurityHandler json cfg (fst w) wp u path;
  Some (r, wp, (st, answer resp wp (snd w))).

(** The variables of the request are those of [QueryEnv], with any memory that keeps its
    promises. *)
Context (lw : Z) (lw_ok : lw = 32 \/ lw = 64).
Context (balloc : Z -> option (list Z)) (brealloc : list Z -> Z -> option (list Z)) (bstrdup : list Z -> cptr).
Context (balloc_ok : forall n, 0 < n <= 2 ^ 30 -> exists b, balloc n = Some b /\ zlen b = n).
Context (brealloc_ok : forall b n, zlen b <= n <= 2 ^ 30 ->
  exists b', brealloc b n = Some b' /\ zlen b' = n /\ take (length b) b' = b).
Context (bstrdup_ok : forall s, bstrdup s = Some s).
Context (websHost : list Z) (websHostUrl : cptr) (websPort : Z).
Context (extract : websRec -> option (websRec * option (list Z * Z))).

Context (call : F -> websRec -> list Z -> cptr -> Z -> cptr -> list Z -> cptr -> security * O -> option (Z * websRec * (security * O))).
Context (begin_request : security * O -> security * O) (websValid : security * O -> bool).
Context (websError : Z -> list Z -> websRec -> security * O -> option (websRec * (security * O))).
Context (websGetDefaultDir : cptr) (sec : F) (call_sec : call sec = security_call).

Abbreviation set_env := (websSetEnv lw balloc brealloc bstrdup websHost websHostUrl websPort extract).
Abbreviation request := (websUrlHandlerRequest bstrdup call begin_request websValid websError set_env websGetDefaultDir).
Abbreviation loop := (handlers_loop call websValid websError set_env).
Abbreviation env_ok := (env_fits websHost websHostUrl websPort).

(** The request with its path and text reduced, and the directory of the pages. *)
Definition prepared (wp : websRec) (path url : list Z) : websRec :=
  (websSetRequestPath bstrdup wp websGetDefaultDir None) <| w_path := Some path |> <| w_url := Some url |>.

(** A path that is looked at further. *)
Definition good_path (path : list Z) : Prop := (exists r, path = 47 :: r) /\ 92 ∉ path.

Lemma good_path_spec path : negb (match path with c :: _ => c =? 47 | [] => false end) || bool_decide (92 ∈ path) = false <-> good_path path.
Proof.
  rewrite orb_false_iff, negb_false_iff, bool_decide_eq_false. unfold good_path. apply and_iff_compat_r. destruct path as [|c path].
  - by split; [|intros [r ?]].
  - rewrite Z.eqb_eq. split; [intros ->; by exists path|by intros [r [= -> _]]].
Qed.

Lemma prepared_same wp path url : exists d, prepared wp path url = wp <| w_dir := d |> <| w_path := Some path |> <| w_url := Some url |>.
Proof. unfold prepared, websSetRequestPath. destruct wp, websGetDefaultDir; eexists; reflexivity. Qed.

(** The request up to the loop over the handlers. *)
Lemma request_start st wp w p u : w_path wp = Some p -> w_url wp = Some u -> no_nul p -> no_nul u ->
  let wp1 := prepared wp (condense 47 p) (condense 47 u) in
  (~ good_path (condense 47 p) ->
    request st wp w = ('(wp, w) ← websError 400 (str "Bad request") wp1 (begin_request w); Some (0, wp, w))) /\
  (good_path (condense 47 p) -> request st wp w = (l ← entries st; loop l wp1 (begin_request w) true)).
Proof.
  intros Hp Hu Hnp Hnu wp1. unfold websUrlHandlerRequest. unfold prepared in wp1. set (wp0 := websSetRequestPath _ _ _ _) in *.
  assert (H0 : w_path wp0 = Some p /\ w_url wp0 = Some u) by (unfold wp0, websSetRequestPath; destruct wp; by destruct websGetDefaultDir).
  destruct H0 as [-> H0]. cbn [mbind option_bind]. rewrite condense_string_spec by done. cbn [mbind option_bind].
  replace (w_url (wp0 <| w_path := _ |>)) with (Some u) by by destruct wp0.
  rewrite condense_string_spec by done. cbn [mbind option_bind]. fold wp1. rewrite <- good_path_spec.
  destruct (negb _ || _); split; done.
Qed.

(** The first handler is called, with the variables set. *)
Lemma loop_first sp rest h wp w path portBuf : handler sp = Some h -> urlPrefix sp = [] -> len sp = 0 -> w_path wp = Some path -> env_ok portBuf wp ->
  exists q vars, let wp1 := wp <| w_query := q |> <| cgiVars := vars |> in
    loop (sp :: rest) wp w true =
      ('(r, wp, w) ← call h wp1 [] (webDir sp) (arg sp) (w_url wp) path q w;
       if negb (r =? 0) then Some (1, wp, w) else if negb (websValid w) then Some (1, wp, w) else loop rest wp w false).
Proof using lw_ok balloc_ok brealloc_ok bstrdup_ok.
  intros Hh Hp0 Hl0 Hp Henv. cbn [handlers_loop]. rewrite Hh, Hp0, Hl0, Hp. cbn [mbind option_bind].
  change (memcmp0 path [] 0) with true. cbn iota.
  destruct (websSetEnv_spec lw lw_ok balloc brealloc bstrdup balloc_ok brealloc_ok bstrdup_ok websHost websHostUrl websPort extract wp portBuf Henv) as (q & _ & ->).
  cbn [mbind option_bind]. do 2 eexists. set (wp1 := wp <| w_query := q |> <| cgiVars := _ |>).
  replace (w_path wp1) with (Some path) by by destruct wp. cbn [mbind option_bind].
  replace (w_url wp1) with (w_url wp) by by destruct wp. replace (w_query wp1) with q by by destruct wp. reflexivity.
Qed.

(** The verdict is about fields that the variables do not touch. *)
Lemma verdict_same m wp d path url q vars :
  let wp1 := wp <| w_dir := d |> <| w_path := Some path |> <| w_url := Some url |> <| w_query := q |> <| cgiVars := vars |> in
  (client_ok wp -> client_ok wp1) /\ (referer_long wp -> referer_long wp1) /\
  (forall r resp, verdict json cfg m wp1 url path r resp <-> verdict json cfg m wp url path r resp) /\
  w_path wp1 = Some path /\ w_url wp1 = Some url.
Proof. by destruct wp. Qed.

(** C7. With the security handler at the head of the array, and whatever the other handlers are,
    a request that is no multipart form, and whose variables fit ([env_fits]), has one of
    three ends.  If its path, with repeated slashes reduced to one, does not start with a
    slash or has a backslash, it is answered with the error 400 and no handler is called.
    Otherwise the security handler is called, on that path and the text reduced alike: if its
    conditions hold ([guard_passes]: for a page, that a form comes from this server, and that
    the text is free or the client logged in; for the API, those of [api_passes]), the rest of
    the array gets the request with this path and text, as long as it is still valid; if they
    do not, the request ends with the answer of the security handler and no other handler is
    called. *)
Theorem login_gate st sp rest wp w m portBuf p u :
  entries st = Some (sp :: rest) -> handler sp = Some sec -> urlPrefix sp = [] -> len sp = 0 ->
  w_path wp = Some p -> w_url wp = Some u -> no_nul p -> no_nul u ->
  sec_ok (fst (begin_request w)) m -> client_ok wp -> referer_long wp ->
  let path := condense 47 p in
  let url := condense 47 u in
  env_ok portBuf (wp <| w_path := Some path |>) ->
  (~ good_path path ->
    request st wp w = ('(wp', w') ← websError 400 (str "Bad request") (prepared wp path url) (begin_request w); Some (0, wp', w'))) /\
  (good_path path -> exists r resp wp' st' m', sec_ok st' m' /\ verdict json cfg m wp url path r resp /\
    w_path wp' = Some path /\ w_url wp' = Some url /\
    let w' := (st', answer resp wp' (snd (begin_request w))) in
    (guard_passes json cfg m wp url path -> request st wp w = if websValid w' then loop rest wp' w' false else Some (1, wp', w')) /\
    (~ guard_passes json cfg m wp url path -> request st wp w = Some (1, wp', w'))).
Proof using All.
  intros He Hh Hp0 Hl0 Hp Hu Hnp Hnu Hst Hcl Href path url Henv.
  destruct (request_start st wp w p u Hp Hu Hnp Hnu) as [Hbad Hgood]. fold path url in Hbad, Hgood. split; [done|]. intros Hg.
  rewrite (Hgood Hg), He. cbn [mbind option_bind]. clear Hbad Hgood. destruct (prepared_same wp path url) as [d ->]. set (wp1 := wp <| w_dir := d |> <| w_path := _ |> <| w_url := _ |>).
  assert (Henv1 : env_ok portBuf wp1) by (destruct Henv; destruct wp; by constructor).
  destruct (loop_first sp rest sec wp1 (begin_request w) path portBuf Hh Hp0 Hl0 ltac:(by destruct wp) Henv1) as (q & vars & ->).
  replace (w_url wp1) with (Some url) by by destruct wp. rewrite call_sec. unfold security_call. cbn [mbind option_bind].
  destruct (verdict_same m wp d path url q vars) as (Hcl1 & Href1 & Hv1 & Hp1 & Hu1). fold wp1 in Hcl1, Href1, Hv1, Hp1, Hu1.
  destruct (guard_decides json cfg (fst (begin_request w)) (wp1 <| w_query := q |> <| cgiVars := vars |>) url path m Hst (Hcl1 Hcl) (Href1 Href))
    as (r & resp & wp' & st' & m' & E & Hst' & Hv & [Ht1 Ht2]).
  match goal with |- context [websSecurityHandler ?a ?b ?c ?d ?e ?f] =>
    replace (websSecurityHandler a b c d e f) with (Some (r, resp, wp', st')) by (symmetry; exact E) end.
  cbn [mbind option_bind]. rewrite Hp1 in Ht1. rewrite Hu1 in Ht2. apply Hv1 in Hv.
  exists r, resp, wp', st', m'. do 4 (split; [done|]). destruct (verdict_zero json cfg m wp url path r resp Hv) as [Hz Hr]. split; intros Hpass.
  - rewrite (proj2 Hz Hpass). by destruct (websValid _).
  - destruct Hr as [->| ->]; [by exfalso; apply Hpass, Hz|done].
Qed.
End Gate.

(** ** Examples *)

(** A sort that keeps to the contract of [qsort]. *)
Fixpoint insert_by {A} (cmp : A -> A -> Z) (x : A) (l : list A) : list A :=
  match l with [] => [x] | y :: l' => if cmp x y <? 0 then x :: l else y :: insert_by cmp x l' end.
Fixpoint sort_by {A} (cmp : A -> A -> Z) (l : list A) : list A :=
  match l with [] => [] | x :: l => insert_by cmp x (sort_by cmp l) end.

Lemma insert_by_place {A} (cmp : A -> A -> Z) x l2 l1 : StronglySorted (agreed cmp) (l1 ++ x :: l2) ->
  insert_by cmp x (l1 ++ l2) = l1 ++ x :: l2.
Proof.
  induction l1 as [|y l1 IH]; cbn [app]; intros [Hs Hy]%StronglySorted_inv.
  - destruct l2 as [|z l2]; [done|]. apply Forall_cons_iff in Hy as [[Hz _] _]. cbn. by replace (cmp x z <? 0) with true by zb.
  - cbn [insert_by]. apply Forall_app in Hy as [_ [[_ Hx] _]%Forall_cons_iff]. replace (cmp x y <? 0) with false by zb. f_equal. by apply IH.
Qed.

Lemma sorted_remove {A} (R : A -> A -> Prop) x l2 l1 : StronglySorted R (l1 ++ x :: l2) -> StronglySorted R (l1 ++ l2).
Proof.
  induction l1 as [|y l1 IH]; cbn [app]; intros [Hs Hy]%StronglySorted_inv; [done|]. constructor; [by apply IH|].
  apply Forall_app in Hy as [H1 [_ H2]%Forall_cons_iff]. by apply Forall_app.
Qed.

Lemma sort_by_sorts {A} (cmp : A -> A -> Z) l l' : Permutation l l' -> StronglySorted (agreed cmp) l' -> sort_by cmp l = l'.
Proof.
  revert l'. induction l as [|x l IH]; intros l' Hp Hs; [by apply Permutation_nil in Hp as ->|].
  destruct (in_split x l' (Permutation_in _ Hp (or_introl eq_refl))) as (l1 & l2 & ->). cbn [sort_by].
  rewrite (IH (l1 ++ l2)); [by apply insert_by_place|by apply Permutation_cons_app_inv in Hp|by eapply sorted_remove].
Qed.

Definition demo_table : url_handlers nat :=
  mkUrlHandlers (TBlock [mkHandler (Some 1%nat) (Some []) [] 0 0 WEBS_HANDLER_FIRST; mkHandler (Some 2%nat) (Some []) (str "/") 1 0 0;
                         mkHandler (Some 3%nat) (Some []) [] 0 0 WEBS_HANDLER_LAST]) 3 1.

(** The new handler comes before that of the root, which is shorter. *)
Lemma handlers_longest_first_witness : exists st' l', websUrlHandlerDefine (fun _ => true) Some sort_by demo_table (str "/cgi-bin") None 0 4%nat 0 = Some (0, st') /\
  table_ok st' l' /\ map handler l' = [Some 1; Some 4; Some 2; Some 3]%nat.
Proof.
  destruct (handlers_longest_first (fun _ => true) Some sort_by demo_table
    [mkHandler (Some 1%nat) (Some []) [] 0 0 WEBS_HANDLER_FIRST; mkHandler (Some 2%nat) (Some []) (str "/") 1 0 0;
     mkHandler (Some 3%nat) (Some []) [] 0 0 WEBS_HANDLER_LAST] (str "/cgi-bin") None 0 4%nat 0 (@sort_by_sorts _) (fun _ => eq_refl) eq_refl)
    as (st' & l' & E & Hok & _ & _).
  - constructor; [reflexivity|reflexivity| |].
    + repeat (constructor; [split; [reflexivity|unfold WEBS_HANDLER_FIRST, WEBS_HANDLER_LAST; cbn; tauto]|]). constructor.
    + repeat (constructor; [|repeat (constructor; [vm_compute; split; reflexivity|]); constructor]). constructor.
  - split; [reflexivity|by left].
  - constructor; [left; discriminate|]. constructor; [right; split; [reflexivity|discriminate]|]. constructor; [left; discriminate|]. constructor.
  - exists st', l'. split; [exact E|]. split; [exact Hok|]. vm_compute in E. injection E as E. rewrite <- E in Hok.
    destruct Hok as [Hblk _ _ _]. cbn in Hblk. injection Hblk as <-. reflexivity.
Defined.

(** Of two handlers marked first each is put before the other, so their order is that of the
    library: the server defines its security handler and its forms handler so. *)
Example two_first :
  let sp f := mkHandler (Some f) (Some []) [] 0 0 WEBS_HANDLER_FIRST in
  websUrlHandlerSort (sp 1%nat) (sp 2%nat) = -1 /\ websUrlHandlerSort (sp 2%nat) (sp 1%nat) = -1.
Proof. by split. Qed.

(** A server with the security handler, [true], before all others, which count their calls. *)
Definition demo_call (f : bool) : websRec -> list Z -> cptr -> Z -> cptr -> list Z -> cptr -> security * nat -> option (Z * websRec * (security * nat)) :=
  if f then security_call demo_json demo_config (fun _ _ n => n) else fun wp _ _ _ _ _ _ w => Some (1, wp, (fst w, S (snd w))).
Definition demo_handlers : url_handlers bool :=
  mkUrlHandlers (TBlock [mkHandler (Some true) (Some []) [] 0 0 WEBS_HANDLER_FIRST; mkHandler (Some false) (Some []) [] 0 0 WEBS_HANDLER_LAST]) 2 1.
Definition asks (path : list Z) : websRec := (visitor None None) <| w_path := Some path |> <| w_url := Some path |>.
Abbreviation demo_env := (websSetEnv 32 Fmt.demo_balloc demo_brealloc Some (str "192.168.1.1") (Some (str "192.168.1.1")) 80 (fun _ => None)).
Abbreviation demo_answer := (websUrlHandlerRequest Some demo_call (fun w => w) (fun _ => true) (fun _ _ wp w => Some (wp, w)) demo_env (Some web_root)).

Lemma asks_fits raw path : zlen path < 2 ^ 31 -> no_nul path ->
  env_fits (str "192.168.1.1") (Some (str "192.168.1.1")) 80 (str "80") ((asks raw) <| w_path := Some path |>).
Proof.
  intros Hl Hn. constructor; [reflexivity|reflexivity|by apply map_Forall_empty| |exact I|discriminate].
  assert (Hf : fits path) by done. clear Hl Hn.
  repeat (constructor; [first [exact Hf|split; [apply (bool_decide_unpack _)|]; vm_compute; reflexivity]|]). constructor.
Qed.

(** A client who is not logged in asks for the settings: it is sent to the login page. *)
Lemma login_gate_witness :
  exists wp' st', demo_answer demo_handlers (asks (str "//settings.html")) (demo_security, 0%nat) = Some (1, wp', (st', 0%nat)).
Proof.
  destruct (login_gate demo_json demo_config (fun _ _ n => n) 32 (or_introl eq_refl) Fmt.demo_balloc demo_brealloc Some
    demo_balloc_ok demo_brealloc_ok (fun _ => eq_refl) (str "192.168.1.1") (Some (str "192.168.1.1")) 80 (fun _ => None)
    demo_call (fun w => w) (fun _ => true) (fun _ _ wp w => Some (wp, w)) (Some web_root) true eq_refl
    demo_handlers
    (mkHandler (Some true) (Some []) [] 0 0 WEBS_HANDLER_FIRST) [mkHandler (Some false) (Some []) [] 0 0 WEBS_HANDLER_LAST]
    (asks (str "//settings.html")) (demo_security, 0%nat) ∅ (str "80") (str "//settings.html") (str "//settings.html"))
    as [_ H].
  1-6: reflexivity.
  - apply (bool_decide_unpack _). vm_compute. reflexivity.
  - apply (bool_decide_unpack _). vm_compute. reflexivity.
  - exact demo_security_ok.
  - exact (visitor_ok None None).
  - exact I.
  - apply (asks_fits (str "//settings.html") (str "/settings.html")); [reflexivity|]. apply (bool_decide_unpack _). vm_compute. reflexivity.
  - destruct H as (r & resp & wp' & st' & m' & _ & _ & _ & _ & _ & H).
    + split; [exists (str "settings.html"); reflexivity|]. apply (bool_decide_unpack _). vm_compute. reflexivity.
    + exists wp', st'. apply H. intros [_ [Hf|Hf]]; vm_compute in Hf; discriminate Hf.
Defined.

(** The detour of [login_bypass] gets through to the other handler. *)
Example detour_answered :
  (fun r => (fst (fst r), snd (snd r))) <$> demo_answer demo_handlers (asks (str "/js/../settings.html")) (demo_security, 0%nat) = Some (1, 1%nat).
Proof. vm_compute. reflexivity. Qed.
