(* ===== verification/QueueSvc.v ===== *)
(** * The queue services (webs/src/src/queue.c, queue.h)

    Queues of links in circular doubly linked lists, as built: items carry no
    pointer to themselves or to their queue (FEATURE_Q_NO_SELF_QPTR), links are
    double, and every queue has a pthread mutex (FEATURE_DATA_LINUX).  The link of
    a queue is its first member, so a queue and its link have the same address.

    A call runs in one thread and gives [Done] with its result, [Blocked] when the
    thread waits for ever for a mutex that it holds itself, [Fault] when it
    dereferences an address that is no link or no queue, and [NoFuel] when the
    bound given to a traversal is too small. *)

From S2P Require Import Prelude Heap.
#[local] Open Scope Z_scope.
#[local] Open Scope cint_scope.

(** ** The store *)

Record q_link_type : Type := mkLink { next_ptr : Z; prev_ptr : Z }.

(** A pthread mutex of the default kind. *)
Inductive mutex_t : Type := Unlocked | Locked | Destroyed.

(** The members of [q_type] after its link. *)
Record q_type : Type := mkQ { cnt : Z; mutex : mutex_t }.

Record qmem : Type := mkMem {
  links : gmap Z q_link_type;
  queues : gmap Z q_type
}.

Inductive outcome (A : Type) : Type :=
  | Done (a : A) (st : qmem)
  | Blocked
  | Fault
  | NoFuel.
Arguments Done {A} a st.
Arguments Blocked {A}.
Arguments Fault {A}.
Arguments NoFuel {A}.

Definition QM (A : Type) : Type := qmem -> outcome A.

#[export] Instance QM_ret : MRet QM := fun A a st => Done a st.
#[export] Instance QM_bind : MBind QM := fun A B k m st =>
  match m st with
  | Done a st => k a st
  | Blocked => Blocked
  | Fault => Fault
  | NoFuel => NoFuel
  end.

Definition load (p : Z) : QM q_link_type := fun st =>
  match links st !! p with Some l => Done l st | None => Fault end.
Definition store (p : Z) (l : q_link_type) : QM unit := fun st =>
  Done tt (st <| links := <[p:=l]> (links st) |>).
Definition load_q (q : Z) : QM q_type := fun st =>
  match queues st !! q with Some x => Done x st | None => Fault end.
Definition store_q (q : Z) (x : q_type) : QM unit := fun st =>
  Done tt (st <| queues := <[q:=x]> (queues st) |>).

(** [p->next_ptr = v], [p->prev_ptr = v], [q->cnt = v] *)
Definition set_next (p v : Z) : QM unit := l ← load p; store p (l <| next_ptr := v |>).
Definition set_prev (p v : Z) : QM unit := l ← load p; store p (l <| prev_ptr := v |>).
Definition set_cnt (q v : Z) : QM unit := x ← load_q q; store_q q (x <| cnt := v |>).
Definition get_next (p : Z) : QM Z := l ← load p; mret (next_ptr l).
Definition get_prev (p : Z) : QM Z := l ← load p; mret (prev_ptr l).
Definition get_cnt (q : Z) : QM Z := x ← load_q q; mret (cnt x).

Definition q_pthread_lock_init (q : Z) : QM unit :=
  x ← load_q q; store_q q (x <| mutex := Unlocked |>).
Definition q_pthread_lock_delete (q : Z) : QM unit :=
  x ← load_q q; store_q q (x <| mutex := Destroyed |>).
Definition q_pthread_lock (q : Z) : QM unit :=
  x ← load_q q;
  match mutex x with
  | Unlocked => store_q q (x <| mutex := Locked |>)
  | Locked | Destroyed => fun _ => Blocked
  end.
Definition q_pthread_unlock (q : Z) : QM unit :=
  x ← load_q q;
  match mutex x with
  | Locked => store_q q (x <| mutex := Unlocked |>)
  | Unlocked | Destroyed => mret tt
  end.

(** ** The operations *)

Definition q_init (q : Z) : QM Z :=
  set_next q q;; set_prev q q;; set_cnt q 0;;
  q_pthread_lock_init q;;
  mret q.

Definition q_destroy (q : Z) : QM unit :=
  q_pthread_lock q;;
  set_next q 0;; set_prev q 0;; set_cnt q 0;;
  q_pthread_unlock q;;
  q_pthread_lock_delete q.

Definition q_link (link : Z) : QM Z :=
  set_next link 0;; set_prev link 0;;
  mret link.

Definition q_put (q link : Z) : QM unit :=
  q_pthread_lock q;;
  set_next link q;;
  t ← get_prev q; set_prev link t;;
  t ← get_prev q; set_next t link;;
  set_prev q link;;
  c ← get_cnt q; set_cnt q (s32 (c + 1));;
  q_pthread_unlock q.

Definition q_cnt (q : Z) : QM Z := get_cnt q.

Definition q_m_put (target source : Z) : QM unit :=
  q_pthread_lock source;;
  n ← q_cnt source;
  (if negb (n =? 0) then
     q_pthread_lock target;;
     last_link ← get_prev source;
     c ← get_cnt source;
     let source_tail_item := if 0 <? c then last_link else 0 in
     (if negb (source_tail_item =? 0) then set_next source_tail_item target else mret tt);;
     link ← get_next source;
     c ← get_cnt source;
     let source_head_item := if 0 <? c then link else 0 in
     t ← get_prev target; set_next t source_head_item;;
     set_prev target source_tail_item;;
     ct ← get_cnt target; cs ← get_cnt source; set_cnt target (s32 (ct + cs));;
     q_init source;;
     q_pthread_unlock target
   else mret tt);;
  q_pthread_unlock source.

Definition q_get (q : Z) : QM Z :=
  q_pthread_lock q;;
  link ← get_next q;
  c ← get_cnt q;
  ret ← (if 0 <? c then
           n ← get_next link; set_next q n;;
           n ← get_next link; set_prev n q;;
           set_cnt q (s32 (c - 1));;
           set_next link 0;;
           mret link
         else mret 0 : QM Z);
  q_pthread_unlock q;;
  mret ret.

Definition q_last_get (q : Z) : QM Z :=
  q_pthread_lock q;;
  link ← get_prev q;
  c ← get_cnt q;
  ret ← (if 0 <? c then
           p ← get_prev link; set_prev q p;;
           p ← get_prev link; set_next p q;;
           set_cnt q (s32 (c - 1));;
           set_next link 0;;
           mret link
         else mret 0 : QM Z);
  q_pthread_unlock q;;
  mret ret.

Definition q_next (q link : Z) : QM Z :=
  q_pthread_lock q;;
  n ← get_next link;
  let q_temp := if negb (n =? q) then n else 0 in
  q_pthread_unlock q;;
  mret q_temp.

Definition q_insert (q insert item : Z) : QM unit :=
  q_pthread_lock q;;
  set_next insert item;;
  p ← get_prev item; set_prev insert p;;
  p ← get_prev item; set_next p insert;;
  set_prev item insert;;
  c ← get_cnt q; set_cnt q (s32 (c + 1));;
  q_pthread_unlock q.

Definition q_delete (q del : Z) : QM unit :=
  q_pthread_lock q;;
  p ← get_prev del; n ← get_next del; set_next p n;;
  n ← get_next del; p ← get_prev del; set_prev n p;;
  c ← get_cnt q; set_cnt q (s32 (c - 1));;
  set_next del 0;;
  q_pthread_unlock q.

Definition q_delete_ext (q del : Z) : QM bool :=
  q_pthread_lock q;;
  p ← get_prev del; n ← get_next del; set_next p n;;
  n ← get_next del; p ← get_prev del; set_prev n p;;
  c ← get_cnt q; set_cnt q (s32 (c - 1));;
  set_next del 0;;
  q_pthread_unlock q;;
  mret true.

Definition q_check (q : Z) : QM Z :=
  q_pthread_lock q;;
  link ← get_next q;
  c ← get_cnt q;
  let ret := if 0 <? c then link else 0 in
  q_pthread_unlock q;;
  mret ret.

Definition q_last_check (q : Z) : QM Z :=
  q_pthread_lock q;;
  link ← get_prev q;
  c ← get_cnt q;
  let ret := if 0 <? c then link else 0 in
  q_pthread_unlock q;;
  mret ret.

(** ** Searching with callbacks

    A compare function looks at an item only, an action function may change the
    store; [None] is the null function pointer. *)
Definition q_compare_func_type : Type := Z -> Z -> Z.
Definition q_action_func_type : Type := Z -> Z -> QM unit.

Fixpoint q_search_loop (fuel : nat) (q : Z) (compare : q_compare_func_type)
    (compare_val item : Z) : QM Z :=
  match fuel with
  | O => fun _ => NoFuel
  | S fuel =>
      if item =? 0 then mret 0
      else if negb (compare item compare_val =? 0) then mret item
      else
        item ← q_next q item;
        q_search_loop fuel q compare compare_val item
  end.

Definition q_linear_search (fuel : nat) (q : Z) (compare : q_compare_func_type)
    (compare_val : Z) : QM Z :=
  item ← q_check q;
  q_search_loop fuel q compare compare_val item.

Definition q_act (action : option q_action_func_type) (item param : Z) : QM unit :=
  match action with Some f => f item param | None => mret tt end.

Fixpoint q_delete_new_loop (fuel : nat) (q : Z) (compare : q_compare_func_type)
    (compare_val : Z) (action : option q_action_func_type) (param prev item : Z) : QM Z :=
  match fuel with
  | O => fun _ => NoFuel
  | S fuel =>
      if item =? 0 then mret 0
      else if negb (compare item compare_val =? 0) then
        item ← (if negb (prev =? 0) then
                  n ← get_next item; set_next prev n;;
                  set_next item 0;;
                  c ← get_cnt q; set_cnt q (s32 (c - 1));;
                  mret item
                else q_get q);
        q_act action item param;;
        mret item
      else
        next ← q_next q item;
        q_delete_new_loop fuel q compare compare_val action param item next
  end.

Definition q_linear_delete_new (fuel : nat) (q : Z) (compare : option q_compare_func_type)
    (compare_val : Z) (action : option q_action_func_type) (param : Z) : QM Z :=
  match compare with
  | None => mret 0
  | Some compare =>
      if q =? 0 then mret 0
      else
        q_pthread_lock q;;
        item ← q_check q;
        item ← q_delete_new_loop fuel q compare compare_val action param 0 item;
        q_pthread_unlock q;;
        mret item
  end.

Fixpoint q_delete_loop (fuel : nat) (q : Z) (compare : q_compare_func_type)
    (param : Z) (action : option q_action_func_type) (prev item : Z) : QM unit :=
  match fuel with
  | O => fun _ => NoFuel
  | S fuel =>
      if item =? 0 then mret tt
      else if negb (compare item 0 =? 0) then
        (if negb (prev =? 0) then
           n ← get_next item; set_next prev n;;
           set_next item 0;;
           c ← get_cnt q; set_cnt q (s32 (c - 1));;
           c ← get_cnt q;
           if c =? 1 then n ← get_next q; set_prev q n else mret tt
         else q_get q;; mret tt);;
        q_act action item param
      else
        next ← q_next q item;
        q_delete_loop fuel q compare param action item next
  end.

Definition q_linear_delete (fuel : nat) (q : Z) (compare : option q_compare_func_type)
    (param : Z) (action : option q_action_func_type) : QM unit :=
  match compare with
  | None => mret tt
  | Some compare =>
      q_pthread_lock q;;
      item ← q_check q;
      q_delete_loop fuel q compare param action 0 item;;
      q_pthread_unlock q
  end.

(** ** Pointers as functions of the state *)

Definition nextp (st : qmem) (p : Z) : option Z := next_ptr <$> links st !! p.
Definition prevp (st : qmem) (p : Z) : option Z := prev_ptr <$> links st !! p.

Definition wr_next (p v : Z) (st : qmem) : qmem :=
  st <| links := alter (fun l => l <| next_ptr := v |>) p (links st) |>.
Definition wr_prev (p v : Z) (st : qmem) : qmem :=
  st <| links := alter (fun l => l <| prev_ptr := v |>) p (links st) |>.
Definition wr_q (q : Z) (x : q_type) (st : qmem) : qmem :=
  st <| queues := <[q:=x]> (queues st) |>.

(** A computation returns, with a result and a state that satisfy [P]. *)
Definition runs {A} (m : QM A) (st : qmem) (P : A -> qmem -> Prop) : Prop :=
  exists a st', m st = Done a st' /\ P a st'.

Lemma nextp_wr_next p v st y :
  nextp (wr_next p v st) y = if decide (y = p) then (fun _ => v) <$> nextp st p else nextp st y.
Proof.
  destruct st as [ls qs]. unfold nextp, wr_next. cbn. destruct (decide (y = p)) as [->|].
  - rewrite lookup_alter_eq, <- !option_fmap_compose. by destruct (ls !! p) as [[??]|].
  - by rewrite lookup_alter_ne.
Qed.

Lemma nextp_wr_prev p v st y : nextp (wr_prev p v st) y = nextp st y.
Proof.
  destruct st as [ls qs]. unfold nextp, wr_prev. cbn. destruct (decide (y = p)) as [->|].
  - rewrite lookup_alter_eq. by destruct (ls !! p) as [[??]|].
  - by rewrite lookup_alter_ne.
Qed.

Lemma prevp_wr_prev p v st y :
  prevp (wr_prev p v st) y = if decide (y = p) then (fun _ => v) <$> prevp st p else prevp st y.
Proof.
  destruct st as [ls qs]. unfold prevp, wr_prev. cbn. destruct (decide (y = p)) as [->|].
  - rewrite lookup_alter_eq, <- !option_fmap_compose. by destruct (ls !! p) as [[??]|].
  - by rewrite lookup_alter_ne.
Qed.

Lemma prevp_wr_next p v st y : prevp (wr_next p v st) y = prevp st y.
Proof.
  destruct st as [ls qs]. unfold prevp, wr_next. cbn. destruct (decide (y = p)) as [->|].
  - rewrite lookup_alter_eq. by destruct (ls !! p) as [[??]|].
  - by rewrite lookup_alter_ne.
Qed.

Lemma nextp_wr_q q x st y : nextp (wr_q q x st) y = nextp st y.
Proof. by destruct st. Qed.
Lemma prevp_wr_q q x st y : prevp (wr_q q x st) y = prevp st y.
Proof. by destruct st. Qed.
Lemma queues_wr_next p v st : queues (wr_next p v st) = queues st.
Proof. by destruct st. Qed.
Lemma queues_wr_prev p v st : queues (wr_prev p v st) = queues st.
Proof. by destruct st. Qed.
Lemma queues_wr_q q x st : queues (wr_q q x st) = <[q:=x]> (queues st).
Proof. by destruct st. Qed.

#[export] Hint Rewrite nextp_wr_next nextp_wr_prev prevp_wr_prev prevp_wr_next nextp_wr_q
  prevp_wr_q queues_wr_next queues_wr_prev queues_wr_q : qmem.

Lemma nextp_prevp st p : is_Some (nextp st p) <-> is_Some (prevp st p).
Proof. unfold nextp, prevp. by rewrite !fmap_is_Some. Qed.

(** ** Running the primitives *)

Lemma runs_bind {A B} (m : QM A) (k : A -> QM B) st P :
  runs m st (fun a st' => runs (k a) st' P) -> runs (m ≫= k) st P.
Proof.
  intros (a & st' & E & b & st'' & E' & HP). exists b, st''. split; [|done].
  unfold mbind, QM_bind. by rewrite E.
Qed.

Lemma runs_ret {A} (a : A) st (P : A -> qmem -> Prop) : P a st -> runs (mret a) st P.
Proof. intros. by exists a, st. Qed.

Lemma runs_get_next p v st (P : Z -> qmem -> Prop) :
  nextp st p = Some v -> P v st -> runs (get_next p) st P.
Proof.
  unfold nextp. intros ([n pv] & E & ->)%fmap_Some ?. exists n, st. split; [|done].
  unfold get_next, load, mbind, QM_bind. by rewrite E.
Qed.

Lemma runs_get_prev p v st (P : Z -> qmem -> Prop) :
  prevp st p = Some v -> P v st -> runs (get_prev p) st P.
Proof.
  unfold prevp. intros ([n pv] & E & ->)%fmap_Some ?. exists pv, st. split; [|done].
  unfold get_prev, load, mbind, QM_bind. by rewrite E.
Qed.

Lemma runs_set_next p v st (P : unit -> qmem -> Prop) :
  is_Some (nextp st p) -> P tt (wr_next p v st) -> runs (set_next p v) st P.
Proof.
  unfold nextp. intros [? ([n pv] & E & _)%fmap_Some] ?.
  exists tt, (wr_next p v st). split; [|done].
  unfold set_next, load, store, mbind, QM_bind. rewrite E. unfold wr_next. do 2 f_equal.
  destruct st as [ls qs]. cbn in *. f_equal. apply map_eq. intros y.
  destruct (decide (y = p)) as [->|].
  - by rewrite lookup_alter_eq, lookup_insert_eq, E.
  - by rewrite lookup_alter_ne, lookup_insert_ne.
Qed.

Lemma runs_set_prev p v st (P : unit -> qmem -> Prop) :
  is_Some (prevp st p) -> P tt (wr_prev p v st) -> runs (set_prev p v) st P.
Proof.
  unfold prevp. intros [? ([n pv] & E & _)%fmap_Some] ?.
  exists tt, (wr_prev p v st). split; [|done].
  unfold set_prev, load, store, mbind, QM_bind. rewrite E. unfold wr_prev. do 2 f_equal.
  destruct st as [ls qs]. cbn in *. f_equal. apply map_eq. intros y.
  destruct (decide (y = p)) as [->|].
  - by rewrite lookup_alter_eq, lookup_insert_eq, E.
  - by rewrite lookup_alter_ne, lookup_insert_ne.
Qed.

Lemma runs_get_cnt q x st (P : Z -> qmem -> Prop) :
  queues st !! q = Some x -> P (cnt x) st -> runs (get_cnt q) st P.
Proof.
  intros E ?. exists (cnt x), st. split; [|done].
  unfold get_cnt, load_q, mbind, QM_bind. by rewrite E.
Qed.

Lemma runs_set_cnt q v x st (P : unit -> qmem -> Prop) :
  queues st !! q = Some x -> P tt (wr_q q (x <| cnt := v |>) st) -> runs (set_cnt q v) st P.
Proof.
  intros E ?. eexists tt, _. split; [|done].
  unfold set_cnt, load_q, mbind, QM_bind. by rewrite E.
Qed.

Lemma runs_lock q c st (P : unit -> qmem -> Prop) :
  queues st !! q = Some (mkQ c Unlocked) -> P tt (wr_q q (mkQ c Locked) st) ->
  runs (q_pthread_lock q) st P.
Proof.
  intros E ?. eexists tt, _. split; [|done].
  unfold q_pthread_lock, load_q, mbind, QM_bind. by rewrite E.
Qed.

Lemma runs_unlock q c st (P : unit -> qmem -> Prop) :
  queues st !! q = Some (mkQ c Locked) -> P tt (wr_q q (mkQ c Unlocked) st) ->
  runs (q_pthread_unlock q) st P.
Proof.
  intros E ?. eexists tt, _. split; [|done].
  unfold q_pthread_unlock, load_q, mbind, QM_bind. by rewrite E.
Qed.

(** ** Rings *)

(** From [x] on, the nodes [p] follow each other in both directions. *)
Fixpoint linked (nx pv : Z -> option Z) (x : Z) (p : list Z) : Prop :=
  match p with
  | [] => True
  | y :: p => nx x = Some y /\ pv y = Some x /\ linked nx pv y p
  end.

(** The circular list of a queue [q] with the items [l]. *)
Definition ring (nx pv : Z -> option Z) (q : Z) (l : list Z) : Prop :=
  linked nx pv q (l ++ [q]).

Lemma linked_app nx pv x p1 y p2 :
  linked nx pv x (p1 ++ y :: p2) <-> linked nx pv x (p1 ++ [y]) /\ linked nx pv y p2.
Proof. revert x. induction p1 as [|z p1 IH]; intros x; simpl; [tauto|]. rewrite IH. tauto. Qed.

Lemma linked_frame nx pv nx' pv' x p y :
  (forall z, z ∈ x :: p -> nx' z = nx z) -> (forall z, z ∈ p ++ [y] -> pv' z = pv z) ->
  linked nx pv x (p ++ [y]) -> linked nx' pv' x (p ++ [y]).
Proof.
  revert x. induction p as [|z p IH]; intros x Hn Hp; simpl.
  - intros (? & ? & _). rewrite Hn, Hp by set_solver. done.
  - intros (? & ? & ?). rewrite Hn, Hp by set_solver. do 2 (split; [done|]).
    apply IH; [set_solver..|done].
Qed.

(** The neighbours of a position of a queue. *)
Definition before (q : Z) (l1 : list Z) : Z := List.last l1 q.
Definition after (q : Z) (l2 : list Z) : Z := List.hd q l2.

Lemma last_cases (q : Z) l1 :
  (l1 = [] /\ before q l1 = q) \/ exists l0 a, l1 = l0 ++ [a] /\ before q l1 = a.
Proof.
  destruct l1 as [|z l1]; [by left|right]. exists (removelast (z :: l1)), (before q (z :: l1)).
  split; [by apply app_removelast_last|done].
Qed.

Lemma before_in q l1 : before q l1 ∈ q :: l1.
Proof. destruct (last_cases q l1) as [[-> ->]|(l0 & a & -> & ->)]; set_solver. Qed.

Lemma after_in q l2 : after q l2 ∈ q :: l2.
Proof. destruct l2; simpl; set_solver. Qed.

Lemma ring_split nx pv q l1 l2 :
  ring nx pv q (l1 ++ l2) ->
  nx (before q l1) = Some (after q l2) /\ pv (after q l2) = Some (before q l1).
Proof.
  unfold ring. rewrite <- (assoc_L (++)). intros H.
  assert (E : exists t, l2 ++ [q] = after q l2 :: t) by (destruct l2; simpl; eauto).
  destruct E as [t E]. rewrite E in H. apply linked_app in H as [H _].
  destruct (last_cases q l1) as [[-> ->]|(l0 & a & -> & ->)].
  - by destruct H as (? & ? & _).
  - rewrite <- (assoc_L (++)) in H. apply linked_app in H as [_ H]. by destruct H as (? & ? & _).
Qed.

Section RingChange.
Context (nx pv nx' pv' : Z -> option Z) (q x : Z) (l1 l2 : list Z).
Let a := before q l1.
Let b := after q l2.

(** Items after a position, cut at their first. *)
Lemma tail_after : exists t, l2 ++ [q] = b :: t /\
  ((l2 = [] /\ t = []) \/ exists l3, l2 = b :: l3 /\ t = l3 ++ [q]).
Proof. subst b. destruct l2 as [|y l3]; simpl; eauto 10. Qed.

Lemma ring_insert :
  ring nx pv q (l1 ++ l2) -> NoDup (q :: l1 ++ l2) -> x ∉ q :: l1 ++ l2 ->
  nx' a = Some x -> nx' x = Some b -> pv' b = Some x -> pv' x = Some a ->
  (forall z, z <> a -> z <> x -> nx' z = nx z) ->
  (forall z, z <> b -> z <> x -> pv' z = pv z) ->
  ring nx' pv' q (l1 ++ x :: l2).
Proof.
  unfold ring. intros H Hnd Hx Ha Hxb Hb Hxa Hn Hp.
  rewrite <- (assoc_L (++)) in H |- *. cbn [app].
  destruct tail_after as (t & E & Ht). rewrite E in H |- *.
  apply linked_app in H as [H1 H2]. apply linked_app.
  apply NoDup_cons in Hnd as [Hq Hnd]. apply NoDup_app in Hnd as (Hnd1 & Hd & Hnd2).
  split; [|split; [done|split; [done|]]].
  - destruct (last_cases q l1) as [[El Ea]|(l0 & a' & El & Ea)]; fold a in Ea.
    + rewrite El. rewrite Ea in *. by repeat split.
    + rewrite El in *. rewrite <- Ea in *. clearbody a.
      rewrite <- (assoc_L (++)) in H1 |- *. cbn [app] in H1 |- *.
      apply linked_app in H1 as [H1 _]. apply linked_app. split; [|by repeat split].
      assert (Hbl : b ∈ q :: l2) by apply after_in. clearbody b.
      apply NoDup_app in Hnd1 as (_ & Hda & _).
      eapply linked_frame; [| |exact H1].
      * intros z Hz. apply Hn; [|set_solver]. intros ->. set_solver.
      * intros z Hz. apply Hp; [|set_solver]. intros ->. set_solver.
  - destruct Ht as [[_ ->]|(l3 & El & ->)]; [done|]. cbn [app] in H2.
    assert (Hal : a ∈ q :: l1) by apply before_in. clearbody a.
    rewrite El in *. clearbody b. apply NoDup_cons in Hnd2 as [Hb3 _].
    eapply linked_frame; [| |exact H2].
    + intros z Hz. apply Hn; [|set_solver]. intros ->. set_solver.
    + intros z Hz. apply Hp; [|set_solver]. intros ->. set_solver.
Qed.

Lemma ring_remove :
  ring nx pv q (l1 ++ x :: l2) -> NoDup (q :: l1 ++ x :: l2) ->
  nx' a = Some b -> pv' b = Some a ->
  (forall z, z <> a -> z <> x -> nx' z = nx z) ->
  (forall z, z <> b -> z <> x -> pv' z = pv z) ->
  ring nx' pv' q (l1 ++ l2).
Proof.
  unfold ring. intros H Hnd Hab Hba Hn Hp.
  rewrite <- (assoc_L (++)) in H |- *. cbn [app] in H.
  destruct tail_after as (t & E & Ht). rewrite E in H |- *.
  apply linked_app in H as [H1 (_ & _ & H2)]. apply linked_app.
  apply NoDup_cons in Hnd as [Hq Hnd].
  apply NoDup_app in Hnd as (Hnd1 & Hd & [Hx2 Hnd2]%NoDup_cons). split.
  - destruct (last_cases q l1) as [[El Ea]|(l0 & a' & El & Ea)]; fold a in Ea.
    + rewrite El. rewrite Ea in *. by repeat split.
    + rewrite El in *. rewrite <- Ea in *. clearbody a.
      rewrite <- (assoc_L (++)) in H1 |- *. cbn [app] in H1 |- *.
      apply linked_app in H1 as [H1 _]. apply linked_app. split; [|by repeat split].
      assert (Hbl : b ∈ q :: l2) by apply after_in. clearbody b.
      apply NoDup_app in Hnd1 as (_ & Hda & _).
      eapply linked_frame; [| |exact H1].
      * intros z Hz. apply Hn; intros ->; set_solver.
      * intros z Hz. apply Hp; intros ->; set_solver.
  - destruct Ht as [[_ ->]|(l3 & El & ->)]; [done|]. cbn [app] in H2.
    assert (Hal : a ∈ q :: l1) by apply before_in. clearbody a.
    rewrite El in *. clearbody b. apply NoDup_cons in Hnd2 as [Hb3 _].
    eapply linked_frame; [| |exact H2].
    + intros z Hz. apply Hn; intros ->; set_solver.
    + intros z Hz. apply Hp; intros ->; set_solver.
Qed.
End RingChange.

Lemma ring_frame nx pv nx' pv' q l :
  (forall z, z ∈ q :: l -> nx' z = nx z /\ pv' z = pv z) -> ring nx pv q l -> ring nx' pv' q l.
Proof.
  intros H. apply linked_frame; intros z Hz; apply H; [done|]. set_solver.
Qed.

(** ** What a queue contains *)

Definition MAX_CNT : Z := 2 ^ 31 - 1.

(** Queue [q], not locked, holds the items [l], oldest first. *)
Record queue_rep (st : qmem) (q : Z) (l : list Z) : Prop := {
  qr_q : queues st !! q = Some (mkQ (zlen l) Unlocked);
  qr_ring : ring (nextp st) (prevp st) q l;
  qr_nodup : NoDup (q :: l);
  qr_null : 0 ∉ q :: l;
  qr_max : zlen l <= MAX_CNT
}.

(** The items that may be queued are links of the store, none at the null
    address; the queues of [M] hold disjoint sets of items. *)
Record sys_rep (items : gset Z) (st : qmem) (M : gmap Z (list Z)) : Prop := {
  sr_queues : forall q l, M !! q = Some l -> queue_rep st q l;
  sr_disjoint : forall q1 q2 l1 l2 x, M !! q1 = Some l1 -> M !! q2 = Some l2 ->
    x ∈ q1 :: l1 -> x ∈ q2 :: l2 -> q1 = q2;
  sr_items : forall x, x ∈ items -> x <> 0 /\ is_Some (nextp st x)
}.

(** Item [x] is on no queue (and is no queue). *)
Definition unqueued (M : gmap Z (list Z)) (x : Z) : bool :=
  bool_decide (map_Forall (fun q l => x ∉ q :: l) M).

(** An operation on queue [q] that changes its items to [l']. *)
Lemma sys_update items st st' M q l l' :
  sys_rep items st M -> M !! q = Some l -> queue_rep st' q l' ->
  (forall x, x ∈ l' -> x ∈ l \/ unqueued M x = true) ->
  (forall z, z ∉ q :: l -> z ∉ l' -> nextp st' z = nextp st z /\ prevp st' z = prevp st z) ->
  (forall q', q' <> q -> queues st' !! q' = queues st !! q') ->
  (forall z, is_Some (nextp st z) -> is_Some (nextp st' z)) ->
  sys_rep items st' (<[q:=l']> M).
Proof.
  intros [Hq Hd Hi] HM Hr Hin Hf Hqs Hdom.
  assert (Hout : forall q2 l2 x, q2 <> q -> M !! q2 = Some l2 -> x ∈ q2 :: l2 -> x ∉ q :: l /\ x ∉ l').
  { intros q2 l2 x Hne HM2 Hx. split.
    - intros Hx'. by destruct Hne; eapply Hd.
    - intros [Hx'|Hu]%Hin.
      + destruct Hne. eapply Hd; [exact HM2|exact HM|exact Hx|by right].
      + apply bool_decide_eq_true_1 in Hu. exact (Hu _ _ HM2 Hx). }
  constructor.
  - intros q2 l2. destruct (decide (q2 = q)) as [->|Hne].
    + rewrite lookup_insert_eq. by intros [= <-].
    + rewrite lookup_insert_ne by done. intros HM2. destruct (Hq _ _ HM2) as [H1 H2 H3 H4 H5].
      constructor; try done; [by rewrite Hqs|].
      eapply ring_frame; [|exact H2]. intros z Hz.
      destruct (Hout _ _ _ Hne HM2 Hz). by apply Hf.
  - intros q1 q2 l1 l2 x H1 H2 Hx1 Hx2.
    destruct (decide (q1 = q)) as [->|Hne1], (decide (q2 = q)) as [->|Hne2]; [done|..].
    + rewrite lookup_insert_eq in H1. rewrite lookup_insert_ne in H2 by done.
      injection H1 as <-. destruct (Hout _ _ _ Hne2 H2 Hx2). set_solver.
    + rewrite lookup_insert_eq in H2. rewrite lookup_insert_ne in H1 by done.
      injection H2 as <-. destruct (Hout _ _ _ Hne1 H1 Hx1). set_solver.
    + rewrite lookup_insert_ne in H1 by done. rewrite lookup_insert_ne in H2 by done. eauto.
  - intros x Hx. destruct (Hi x Hx). auto.
Qed.

(** Reading does not change the store. *)
Lemma sys_same items st st' M :
  sys_rep items st M -> (forall z, nextp st' z = nextp st z) -> (forall z, prevp st' z = prevp st z) ->
  (forall q, queues st' !! q = queues st !! q) -> sys_rep items st' M.
Proof.
  intros [Hq Hd Hi] Hn Hp Hqs. constructor; [|done|].
  - intros q l HM. destruct (Hq _ _ HM). constructor; try done; [by rewrite Hqs|].
    eapply ring_frame; [|done]. auto.
  - intros x Hx. rewrite Hn. auto.
Qed.

(** ** The effect of the operations on the pointers *)

(** [x] was put between the neighbours [a] and [b] of queue [q], whose count is
    now [c]. *)
Record spliced (st st' : qmem) (q a x b c : Z) : Prop := {
  sp_na : nextp st' a = Some x;
  sp_nx : nextp st' x = Some b;
  sp_pb : prevp st' b = Some x;
  sp_px : prevp st' x = Some a;
  sp_next : forall z, z <> a -> z <> x -> nextp st' z = nextp st z;
  sp_prev : forall z, z <> b -> z <> x -> prevp st' z = prevp st z;
  sp_q : queues st' = <[q:=mkQ c Unlocked]> (queues st)
}.

(** [x] was taken from between [a] and [b]. *)
Record cut (st st' : qmem) (q a x b c : Z) : Prop := {
  cut_na : nextp st' a = Some b;
  cut_pb : prevp st' b = Some a;
  cut_nx : is_Some (nextp st' x);
  cut_next : forall z, z <> a -> z <> x -> nextp st' z = nextp st z;
  cut_prev : forall z, z <> b -> z <> x -> prevp st' z = prevp st z;
  cut_q : queues st' = <[q:=mkQ c Unlocked]> (queues st)
}.

Definition unchanged (st st' : qmem) : Prop :=
  (forall z, nextp st' z = nextp st z) /\ (forall z, prevp st' z = prevp st z) /\
  (forall q, queues st' !! q = queues st !! q).

(** Decide the pointer comparisons of a symbolic state and use what is known of
    the initial one. *)
Ltac known_ptrs :=
  repeat match goal with
         | H : nextp ?s ?p = Some _ |- context [nextp ?s ?p] => rewrite H
         | H : prevp ?s ?p = Some _ |- context [prevp ?s ?p] => rewrite H
         end.
Ltac qsolve :=
  autorewrite with qmem; repeat case_decide; simplify_eq; known_ptrs; cbn;
  rewrite ?lookup_insert_eq; try done; try congruence; eauto.
Ltac qrun1 :=
  lazymatch goal with
  | |- runs (_ ≫= _) _ _ => apply runs_bind
  | |- runs (mret _) _ _ => apply runs_ret
  | |- runs (get_next _) _ _ => eapply runs_get_next; [solve [qsolve]|cbn beta]
  | |- runs (get_prev _) _ _ => eapply runs_get_prev; [solve [qsolve]|cbn beta]
  | |- runs (set_next _ _) _ _ => eapply runs_set_next; [solve [qsolve]|cbn beta]
  | |- runs (set_prev _ _) _ _ => eapply runs_set_prev; [solve [qsolve]|cbn beta]
  | |- runs (get_cnt _) _ _ => eapply runs_get_cnt; [solve [qsolve]|cbn beta]
  | |- runs (set_cnt _ _) _ _ => eapply runs_set_cnt; [solve [qsolve]|cbn beta]
  | |- runs (q_pthread_lock _) _ _ => eapply runs_lock; [solve [qsolve]|cbn beta]
  | |- runs (q_pthread_unlock _) _ _ => eapply runs_unlock; [solve [qsolve]|cbn beta]
  end.
Ltac qrun := repeat qrun1.

Section Effects.
Context (st : qmem) (q a x b c : Z).
Hypothesis Hq : queues st !! q = Some (mkQ c Unlocked).

Lemma q_insert_effect :
  nextp st a = Some b -> prevp st b = Some a -> x <> a -> x <> b -> is_Some (nextp st x) ->
  runs (q_insert q x b) st (fun _ st' => spliced st st' q a x b (s32 (c + 1))).
Proof using Hq.
  intros Hab Hba Hxa Hxb [n Hn].
  destruct (proj1 (nextp_prevp st x) (ex_intro _ n Hn)) as [p Hp].
  assert (Hpa : is_Some (prevp st a)) by (apply nextp_prevp; eauto).
  assert (Hnb : is_Some (nextp st b)) by (apply nextp_prevp; eauto).
  destruct Hpa as [pa Hpa], Hnb as [nb Hnb].
  unfold q_insert. qrun. constructor; intros; qsolve.
  by rewrite !insert_insert_eq.
Qed.

Lemma q_put_effect :
  b = q -> nextp st a = Some q -> prevp st q = Some a -> x <> a -> x <> q ->
  is_Some (nextp st x) ->
  runs (q_put q x) st (fun _ st' => spliced st st' q a x q (s32 (c + 1))).
Proof using Hq.
  intros _ Hab Hba Hxa Hxb [n Hn].
  destruct (proj1 (nextp_prevp st x) (ex_intro _ n Hn)) as [p Hp].
  assert (Hpa : is_Some (prevp st a)) by (apply nextp_prevp; eauto).
  assert (Hnb : is_Some (nextp st q)) by (apply nextp_prevp; eauto).
  destruct Hpa as [pa Hpa], Hnb as [nb Hnb].
  unfold q_put. qrun. constructor; intros; qsolve.
  by rewrite !insert_insert_eq.
Qed.

Lemma q_get_empty :
  c = 0 -> nextp st q = Some q -> runs (q_get q) st (fun r st' => r = 0 /\ unchanged st st').
Proof using Hq.
  intros -> Hn. unfold q_get. qrun. cbn [cnt Z.ltb Z.compare]. qrun. split; [done|].
  split; [|split]; intros; qsolve.
  rewrite insert_insert_eq. destruct (decide (q = q0)) as [->|];
    [by rewrite lookup_insert_eq|by rewrite lookup_insert_ne].
Qed.

Lemma q_last_get_empty :
  c = 0 -> prevp st q = Some q ->
  runs (q_last_get q) st (fun r st' => r = 0 /\ unchanged st st').
Proof using Hq.
  intros -> Hn. unfold q_last_get. qrun. cbn [cnt Z.ltb Z.compare]. qrun. split; [done|].
  split; [|split]; intros; qsolve.
  rewrite insert_insert_eq. destruct (decide (q = q0)) as [->|];
    [by rewrite lookup_insert_eq|by rewrite lookup_insert_ne].
Qed.

Lemma q_get_effect :
  0 < c -> nextp st q = Some x -> nextp st x = Some b -> is_Some (prevp st b) ->
  x <> q -> x <> b ->
  runs (q_get q) st (fun r st' => r = x /\ cut st st' q q x b (s32 (c - 1))).
Proof using Hq.
  intros Hc Hqx Hxb Hb ??. pose proof (proj2 (nextp_prevp st b) Hb) as [nb Hnb].
  destruct Hb as [pb Hpb].
  destruct (proj1 (nextp_prevp st q) (ex_intro _ _ Hqx)) as [pq Hpq].
  unfold q_get. qrun. cbn [cnt]. replace (0 <? c) with true by lia. qrun.
  split; [done|]. constructor; intros; qsolve.
  by rewrite !insert_insert_eq.
Qed.

Lemma q_last_get_effect :
  0 < c -> nextp st a = Some x -> prevp st x = Some a -> nextp st x = Some q ->
  prevp st q = Some x -> x <> a -> x <> q ->
  runs (q_last_get q) st (fun r st' => r = x /\ cut st st' q a x q (s32 (c - 1))).
Proof using Hq.
  intros Hc Hax Hxa Hxq Hqx ??.
  destruct (proj2 (nextp_prevp st q) (ex_intro _ _ Hqx)) as [nq Hnq].
  destruct (proj1 (nextp_prevp st a) (ex_intro _ _ Hax)) as [pa Hpa].
  unfold q_last_get. qrun. cbn [cnt]. replace (0 <? c) with true by lia. qrun.
  split; [done|]. constructor; intros; qsolve.
  by rewrite !insert_insert_eq.
Qed.

Lemma q_delete_effect :
  nextp st a = Some x -> prevp st x = Some a -> nextp st x = Some b -> prevp st b = Some x ->
  x <> a -> x <> b ->
  runs (q_delete q x) st (fun _ st' => cut st st' q a x b (s32 (c - 1))).
Proof using Hq.
  intros Hax Hxa Hxb Hbx ??.
  destruct (proj2 (nextp_prevp st b) (ex_intro _ _ Hbx)) as [nb Hnb].
  destruct (proj1 (nextp_prevp st a) (ex_intro _ _ Hax)) as [pa Hpa].
  unfold q_delete. qrun. constructor; intros; qsolve.
  by rewrite !insert_insert_eq.
Qed.

Lemma q_delete_ext_effect :
  nextp st a = Some x -> prevp st x = Some a -> nextp st x = Some b -> prevp st b = Some x ->
  x <> a -> x <> b ->
  runs (q_delete_ext q x) st (fun r st' => r = true /\ cut st st' q a x b (s32 (c - 1))).
Proof using Hq.
  intros Hax Hxa Hxb Hbx ??.
  destruct (proj2 (nextp_prevp st b) (ex_intro _ _ Hbx)) as [nb Hnb].
  destruct (proj1 (nextp_prevp st a) (ex_intro _ _ Hax)) as [pa Hpa].
  unfold q_delete_ext. qrun. split; [done|]. constructor; intros; qsolve.
  by rewrite !insert_insert_eq.
Qed.

(** Locking and unlocking alone. *)
Lemma unchanged_lock : unchanged st (wr_q q (mkQ c Unlocked) (wr_q q (mkQ c Locked) st)).
Proof using Hq.
  split; [|split]; intros; qsolve.
  rewrite insert_insert_eq. destruct (decide (q = q0)) as [->|];
    [by rewrite lookup_insert_eq|by rewrite lookup_insert_ne].
Qed.

Lemma q_check_effect :
  nextp st q = Some a ->
  runs (q_check q) st (fun r st' => r = (if 0 <? c then a else 0) /\ unchanged st st').
Proof using Hq. intros Hn. unfold q_check. qrun. split; [done|apply unchanged_lock]. Qed.

Lemma q_last_check_effect :
  prevp st q = Some a ->
  runs (q_last_check q) st (fun r st' => r = (if 0 <? c then a else 0) /\ unchanged st st').
Proof using Hq. intros Hn. unfold q_last_check. qrun. split; [done|apply unchanged_lock]. Qed.

Lemma q_next_effect :
  nextp st x = Some b ->
  runs (q_next q x) st (fun r st' => r = (if b =? q then 0 else b) /\ unchanged st st').
Proof using Hq.
  intros Hn. unfold q_next. qrun. split; [by destruct (b =? q)|apply unchanged_lock].
Qed.

Lemma q_cnt_effect : runs (q_cnt q) st (fun r st' => r = c /\ unchanged st st').
Proof using Hq. unfold q_cnt. qrun. by split; [|split]. Qed.
End Effects.

(** ** From pointers to items *)

Lemma wrap_cnt z : -1 <= z <= MAX_CNT -> s32 z = z.
Proof. intros. apply s32_small. unfold MAX_CNT in *. lia. Qed.

Lemma NoDup_insert (l1 : list Z) x l2 : NoDup (l1 ++ l2) -> x ∉ l1 ++ l2 -> NoDup (l1 ++ x :: l2).
Proof.
  intros Hnd Hx. rewrite <- Permutation_middle. by apply NoDup_cons.
Qed.

Lemma NoDup_remove_mid (l1 : list Z) x l2 : NoDup (l1 ++ x :: l2) -> NoDup (l1 ++ l2).
Proof. rewrite <- Permutation_middle. by intros [_ ?]%NoDup_cons. Qed.

Lemma spliced_rep st st' q l1 l2 x :
  queue_rep st q (l1 ++ l2) -> zlen (l1 ++ l2) < MAX_CNT -> x ∉ q :: l1 ++ l2 -> x <> 0 ->
  spliced st st' q (before q l1) x (after q l2) (s32 (zlen (l1 ++ l2) + 1)) ->
  queue_rep st' q (l1 ++ x :: l2).
Proof.
  intros [Hq Hr Hnd H0 Hm] Hlt Hx Hx0 [Ha Hxn Hb Hxp Hn Hp Hqs].
  assert (El : zlen (l1 ++ x :: l2) = zlen (l1 ++ l2) + 1).
  { rewrite !length_app. simpl. lia. }
  constructor.
  - rewrite Hqs, lookup_insert_eq, El, wrap_cnt by lia. done.
  - eapply ring_insert; eauto.
  - apply (NoDup_insert (q :: l1) x l2); done.
  - set_solver.
  - lia.
Qed.

Lemma cut_rep st st' q l1 l2 x :
  queue_rep st q (l1 ++ x :: l2) ->
  cut st st' q (before q l1) x (after q l2) (s32 (zlen (l1 ++ x :: l2) - 1)) ->
  queue_rep st' q (l1 ++ l2).
Proof.
  intros [Hq Hr Hnd H0 Hm] [Ha Hb _ Hn Hp Hqs].
  assert (El : zlen (l1 ++ x :: l2) = zlen (l1 ++ l2) + 1).
  { rewrite !length_app. simpl. lia. }
  constructor.
  - rewrite Hqs, lookup_insert_eq, El. do 2 f_equal. rewrite wrap_cnt; lia.
  - eapply ring_remove; eauto.
  - apply (NoDup_remove_mid (q :: l1) x l2). done.
  - set_solver.
  - lia.
Qed.

(** The neighbours of an item. *)
Lemma ring_item st q l1 x l2 :
  queue_rep st q (l1 ++ x :: l2) ->
  nextp st (before q l1) = Some x /\ prevp st x = Some (before q l1) /\
  nextp st x = Some (after q l2) /\ prevp st (after q l2) = Some x /\
  x <> before q l1 /\ x <> after q l2 /\ x <> q.
Proof.
  intros [_ Hr Hnd _ _]. pose proof (ring_split _ _ _ l1 (x :: l2) Hr) as [? ?].
  rewrite cons_middle, (assoc_L (++)) in Hr. apply ring_split in Hr as [? ?].
  replace (before q (l1 ++ [x])) with x in * by (unfold before; by rewrite last_last).
  rewrite app_comm_cons in Hnd. apply NoDup_app in Hnd as (_ & Hd & [Hx2 _]%NoDup_cons).
  pose proof (before_in q l1). pose proof (after_in q l2).
  repeat split; try done.
  - intros E. apply (Hd (before q l1)); [done|]. rewrite E. set_solver.
  - intros E. rewrite <- E in *. set_solver.
  - intros ->. apply (Hd q); set_solver.
Qed.

(** ** The abstract queues

    A specification of the service: a finite map from queues to lists of items.
    [None] means that the caller broke the contract of an operation. *)

Inductive q_op : Type :=
  | Put (q x : Z) | Get (q : Z) | LastGet (q : Z) | Insert (q x y : Z)
  | Delete (q x : Z) | DeleteExt (q x : Z)
  | Check_ (q : Z) | LastCheck (q : Z) | Next (q x : Z) | Cnt (q : Z).

(** The operation, with its result as a number. *)
Definition run_op (o : q_op) : QM Z :=
  match o with
  | Put q x => q_put q x;; mret 0
  | Get q => q_get q
  | LastGet q => q_last_get q
  | Insert q x y => q_insert q x y;; mret 0
  | Delete q x => q_delete q x;; mret 0
  | DeleteExt q x => b ← q_delete_ext q x; mret (if b : bool then 1 else 0)
  | Check_ q => q_check q
  | LastCheck q => q_last_check q
  | Next q x => q_next q x
  | Cnt q => q_cnt q
  end.

Fixpoint run_ops (os : list q_op) : QM (list Z) :=
  match os with
  | [] => mret []
  | o :: os => r ← run_op o; rs ← run_ops os; mret (r :: rs)
  end.

(** The items before and after the first [y]. *)
Fixpoint split_at (y : Z) (l : list Z) : option (list Z * list Z) :=
  match l with
  | [] => None
  | z :: l => if z =? y then Some ([], l)
              else '(l1, l2) ← split_at y l; Some (z :: l1, l2)
  end.

Definition may_enter (items : gset Z) (M : gmap Z (list Z)) (l : list Z) (x : Z) : bool :=
  bool_decide (x ∈ items) && unqueued M x && (zlen l <? MAX_CNT).

Definition spec_op (items : gset Z) (M : gmap Z (list Z)) (o : q_op)
  : option (Z * gmap Z (list Z)) :=
  match o with
  | Put q x =>
      l ← M !! q;
      if may_enter items M l x then Some (0, <[q:=l ++ [x]]> M) else None
  | Insert q x y =>
      l ← M !! q; '(l1, l2) ← split_at y l;
      if may_enter items M l x then Some (0, <[q:=l1 ++ x :: y :: l2]> M) else None
  | Get q =>
      l ← M !! q;
      Some (match l with [] => (0, M) | x :: l => (x, <[q:=l]> M) end)
  | LastGet q =>
      l ← M !! q;
      Some (match rev l with [] => (0, M) | x :: l => (x, <[q:=rev l]> M) end)
  | Delete q x => l ← M !! q; '(l1, l2) ← split_at x l; Some (0, <[q:=l1 ++ l2]> M)
  | DeleteExt q x => l ← M !! q; '(l1, l2) ← split_at x l; Some (1, <[q:=l1 ++ l2]> M)
  | Check_ q => l ← M !! q; Some (List.hd 0 l, M)
  | LastCheck q => l ← M !! q; Some (List.last l 0, M)
  | Next q x => l ← M !! q; '(_, l2) ← split_at x l; Some (List.hd 0 l2, M)
  | Cnt q => l ← M !! q; Some (zlen l, M)
  end.

Fixpoint spec_ops (items : gset Z) (M : gmap Z (list Z)) (os : list q_op)
  : option (list Z * gmap Z (list Z)) :=
  match os with
  | [] => Some ([], M)
  | o :: os =>
      '(r, M) ← spec_op items M o;
      '(rs, M) ← spec_ops items M os;
      Some (r :: rs, M)
  end.

(** ** The refinement *)

Lemma split_at_Some y l l1 l2 : split_at y l = Some (l1, l2) -> l = l1 ++ y :: l2.
Proof.
  revert l1. induction l as [|z l IH]; intros l1; simpl; [done|].
  destruct (Z.eqb_spec z y) as [->|]; [by intros [= <- <-]|].
  destruct (split_at y l) as [[l1' l2']|]; [|done]. cbn. intros [= <- <-]. simpl. f_equal. auto.
Qed.

Lemma runs_mono {A} (m : QM A) st (P P' : A -> qmem -> Prop) :
  runs m st P -> (forall a st', P a st' -> P' a st') -> runs m st P'.
Proof. intros (a & st' & E & HP) HPP. exists a, st'. auto. Qed.

Section Refine.
Context (items : gset Z) (st : qmem) (M : gmap Z (list Z)).
Hypothesis HS : sys_rep items st M.

Lemma enter_facts q l x :
  M !! q = Some l -> may_enter items M l x = true ->
  x ∉ q :: l /\ x <> 0 /\ is_Some (nextp st x) /\ zlen l < MAX_CNT.
Proof using HS.
  unfold may_enter. intros HM [[Hi Hu]%andb_true_iff Hlt]%andb_true_iff.
  apply bool_decide_eq_true_1 in Hi, Hu. apply Z.ltb_lt in Hlt.
  destruct (sr_items _ _ _ HS x Hi). split; [exact (Hu _ _ HM)|]. auto.
Qed.

Lemma enter_sys st' q l1 l2 x :
  M !! q = Some (l1 ++ l2) -> may_enter items M (l1 ++ l2) x = true ->
  spliced st st' q (before q l1) x (after q l2) (s32 (zlen (l1 ++ l2) + 1)) ->
  sys_rep items st' (<[q:=l1 ++ x :: l2]> M).
Proof using HS.
  intros HM Hm Hs. destruct (enter_facts _ _ _ HM Hm) as (Hx & Hx0 & Hnx & Hlt).
  pose proof (sr_queues _ _ _ HS _ _ HM) as Hq.
  pose proof (before_in q l1) as Ha. pose proof (after_in q l2) as Hb.
  eapply (sys_update items st st' M q _ (l1 ++ x :: l2)); try done.
  - by eapply spliced_rep.
  - intros y Hy. destruct (decide (y = x)) as [->|]; [right|left; set_solver].
    unfold may_enter in Hm. by apply andb_true_iff in Hm as [[_ ?]%andb_true_iff _].
  - intros z Hz Hz'. split; [apply (sp_next _ _ _ _ _ _ _ Hs)|apply (sp_prev _ _ _ _ _ _ _ Hs)];
      intros ->; set_solver.
  - intros q' ?. rewrite (sp_q _ _ _ _ _ _ _ Hs). by apply lookup_insert_ne.
  - intros z Hz. destruct (decide (z = before q l1)) as [->|].
    { rewrite (sp_na _ _ _ _ _ _ _ Hs). eauto. }
    destruct (decide (z = x)) as [->|]; [rewrite (sp_nx _ _ _ _ _ _ _ Hs); eauto|].
    by rewrite (sp_next _ _ _ _ _ _ _ Hs).
Qed.

Lemma leave_sys st' q l1 l2 x :
  M !! q = Some (l1 ++ x :: l2) ->
  cut st st' q (before q l1) x (after q l2) (s32 (zlen (l1 ++ x :: l2) - 1)) ->
  sys_rep items st' (<[q:=l1 ++ l2]> M).
Proof using HS.
  intros HM Hs. pose proof (sr_queues _ _ _ HS _ _ HM) as Hq.
  pose proof (before_in q l1) as Ha. pose proof (after_in q l2) as Hb.
  eapply (sys_update items st st' M q _ (l1 ++ l2)); try done.
  - by eapply cut_rep.
  - intros y Hy. left. set_solver.
  - intros z Hz Hz'. split; [apply (cut_next _ _ _ _ _ _ _ Hs)|apply (cut_prev _ _ _ _ _ _ _ Hs)];
      intros ->; set_solver.
  - intros q' ?. rewrite (cut_q _ _ _ _ _ _ _ Hs). by apply lookup_insert_ne.
  - intros z Hz. destruct (decide (z = before q l1)) as [->|].
    { rewrite (cut_na _ _ _ _ _ _ _ Hs). eauto. }
    destruct (decide (z = x)) as [->|]; [exact (cut_nx _ _ _ _ _ _ _ Hs)|].
    by rewrite (cut_next _ _ _ _ _ _ _ Hs).
Qed.

Lemma unchanged_sys st' : unchanged st st' -> sys_rep items st' M.
Proof using HS. intros (? & ? & ?). by eapply sys_same. Qed.
End Refine.

(** The ends of a queue. *)
Lemma ring_ends st q l :
  queue_rep st q l ->
  nextp st q = Some (after q l) /\ prevp st (after q l) = Some q /\
  nextp st (before q l) = Some q /\ prevp st q = Some (before q l).
Proof.
  intros [_ Hr _ _ _]. pose proof (ring_split _ _ _ [] l Hr) as [? ?].
  rewrite <- (app_nil_r l) in Hr. by apply ring_split in Hr as [? ?].
Qed.

Section Step.
Context (items : gset Z) (st : qmem) (M : gmap Z (list Z)).
Hypothesis HS : sys_rep items st M.

Lemma put_refined q l x :
  M !! q = Some l ->
  may_enter items M l x = true ->
  runs (q_put q x) st (fun _ st' => sys_rep items st' (<[q:=l ++ [x]]> M)).
Proof using HS.
  intros HM; pose proof (sr_queues _ _ _ HS _ _ HM) as Hrep; intros Hm. destruct (enter_facts _ _ _ HS _ _ _ HM Hm) as (Hx & Hx0 & Hnx & Hlt).
  destruct (ring_ends _ _ _ Hrep) as (_ & _ & Hna & Hpb). pose proof (before_in q l).
  eapply runs_mono; [eapply q_put_effect with (b := q); try done; [apply Hrep|set_solver..]|].
  intros ? st' Hs. eapply (enter_sys _ st _ HS st' q l []); rewrite ?app_nil_r; done.
Qed.

Lemma insert_refined q l x y l1 l2 :
  M !! q = Some l ->
  l = l1 ++ y :: l2 -> may_enter items M l x = true ->
  runs (q_insert q x y) st (fun _ st' => sys_rep items st' (<[q:=l1 ++ x :: y :: l2]> M)).
Proof using HS.
  intros HM; pose proof (sr_queues _ _ _ HS _ _ HM) as Hrep; intros El Hm. destruct (enter_facts _ _ _ HS _ _ _ HM Hm) as (Hx & Hx0 & Hnx & Hlt).
  pose proof Hrep as Hr. rewrite El in Hr.
  destruct (ring_item _ _ _ _ _ Hr) as (Hna & Hpy & _).
  pose proof (before_in q l1). rewrite El in Hx.
  eapply runs_mono; [eapply q_insert_effect; try done; [apply Hrep|set_solver..]|].
  intros ? st' Hs. eapply (enter_sys _ st _ HS st' q l1 (y :: l2)); by rewrite <- ?El.
Qed.

Lemma get_refined q l :
  M !! q = Some l ->
  runs (q_get q) st (fun r st' =>
    match l with
    | [] => r = 0 /\ sys_rep items st' M
    | x :: l' => r = x /\ sys_rep items st' (<[q:=l']> M)
    end).
Proof using HS.
  intros HM; pose proof (sr_queues _ _ _ HS _ _ HM) as Hrep.
  pose proof Hrep as Hr. destruct l as [|x l'].
  - destruct (ring_ends _ _ _ Hr) as (Hn & _).
    eapply runs_mono; [eapply q_get_empty; [apply Hr|done|done]|].
    intros r st' [-> Hu]. split; [done|]. by eapply unchanged_sys.
  - destruct (ring_item _ _ [] _ _ Hr) as (? & ? & ? & ? & ? & ? & ?).
    eapply runs_mono; [eapply q_get_effect; [apply Hr|simpl; lia|try done; eauto..]|].
    intros r st' [-> Hs]. split; [done|]. by eapply (leave_sys _ st _ HS st' q [] l').
Qed.

Lemma last_get_refined q l :
  M !! q = Some l ->
  runs (q_last_get q) st (fun r st' =>
    match rev l with
    | [] => r = 0 /\ sys_rep items st' M
    | x :: l' => r = x /\ sys_rep items st' (<[q:=rev l']> M)
    end).
Proof using HS.
  intros HM; pose proof (sr_queues _ _ _ HS _ _ HM) as Hrep.
  pose proof Hrep as Hr. destruct (last_cases q l) as [[El _]|(l0 & x & El & _)].
  - rewrite El in *. destruct (ring_ends _ _ _ Hr) as (_ & _ & _ & Hp).
    eapply runs_mono; [eapply q_last_get_empty; [apply Hr|done|done]|].
    intros r st' [-> Hu]. split; [done|]. by eapply unchanged_sys.
  - rewrite El in *. rewrite rev_app_distr. cbn [rev app]. rewrite rev_involutive.
    destruct (ring_item _ _ l0 _ [] Hr) as (? & ? & ? & ? & ? & ? & ?).
    eapply runs_mono; [eapply (q_last_get_effect _ _ (before q l0) x); [apply Hr|rewrite length_app; simpl; lia|done..]|].
    intros r st' [-> Hs]. split; [done|]. rewrite <- (app_nil_r l0).
    by eapply (leave_sys _ st _ HS st' q l0 []).
Qed.

Lemma delete_refined q l x l1 l2 :
  M !! q = Some l ->
  l = l1 ++ x :: l2 ->
  runs (q_delete q x) st (fun _ st' => sys_rep items st' (<[q:=l1 ++ l2]> M)) /\
  runs (q_delete_ext q x) st (fun r st' => r = true /\ sys_rep items st' (<[q:=l1 ++ l2]> M)).
Proof using HS.
  intros HM; pose proof (sr_queues _ _ _ HS _ _ HM) as Hrep; intros El. pose proof Hrep as Hr. rewrite El in *.
  destruct (ring_item _ _ _ _ _ Hr) as (? & ? & ? & ? & ? & ? & ?). split.
  - eapply runs_mono; [eapply q_delete_effect; [apply Hr|done..]|].
    intros ? st' Hs. by eapply leave_sys.
  - eapply runs_mono; [eapply q_delete_ext_effect; [apply Hr|done..]|].
    intros r st' [-> Hs]. split; [done|]. by eapply leave_sys.
Qed.

Lemma check_refined q l :
  M !! q = Some l ->
  runs (q_check q) st (fun r st' => r = List.hd 0 l /\ sys_rep items st' M).
Proof using HS.
  intros HM; pose proof (sr_queues _ _ _ HS _ _ HM) as Hrep.
  pose proof Hrep as Hr. destruct (ring_ends _ _ _ Hr) as (Hn & _).
  eapply runs_mono; [eapply q_check_effect; [apply Hr|done]|].
  intros r st' [-> Hu]. split; [|by eapply unchanged_sys].
  by destruct l.
Qed.

Lemma last_check_refined q l :
  M !! q = Some l ->
  runs (q_last_check q) st (fun r st' => r = List.last l 0 /\ sys_rep items st' M).
Proof using HS.
  intros HM; pose proof (sr_queues _ _ _ HS _ _ HM) as Hrep.
  pose proof Hrep as Hr. destruct (ring_ends _ _ _ Hr) as (_ & _ & _ & Hp).
  eapply runs_mono; [eapply q_last_check_effect; [apply Hr|done]|].
  intros r st' [-> Hu]. split; [|by eapply unchanged_sys].
  destruct (last_cases q l) as [[-> _]|(l0 & a & -> & ->)]; [done|].
  rewrite last_last, length_app. simpl. by destruct (Z.ltb_spec 0 (Z.of_nat (length l0 + 1))); [|lia].
Qed.

Lemma next_refined q l x l1 l2 :
  M !! q = Some l ->
  l = l1 ++ x :: l2 ->
  runs (q_next q x) st (fun r st' => r = List.hd 0 l2 /\ sys_rep items st' M).
Proof using HS.
  intros HM; pose proof (sr_queues _ _ _ HS _ _ HM) as Hrep; intros El. pose proof Hrep as Hr. rewrite El in Hr.
  destruct (ring_item _ _ _ _ _ Hr) as (_ & _ & Hn & _).
  eapply runs_mono; [eapply q_next_effect; [apply Hr|done]|].
  intros r st' [-> Hu]. split; [|by eapply unchanged_sys].
  destruct l2 as [|y l2]; simpl; [by rewrite Z.eqb_refl|].
  destruct (Z.eqb_spec y q) as [->|]; [|done].
  destruct Hr as [_ _ Hnd _ _]. apply NoDup_cons in Hnd as [Hnd _]. set_solver.
Qed.

Lemma cnt_refined q l :
  M !! q = Some l -> runs (q_cnt q) st (fun r st' => r = zlen l /\ sys_rep items st' M).
Proof using HS.
  intros HM; pose proof (sr_queues _ _ _ HS _ _ HM) as Hrep.
  eapply runs_mono; [eapply q_cnt_effect, Hrep|].
  intros r st' [-> Hu]. split; [done|]. by eapply unchanged_sys.
Qed.
End Step.

Lemma runs_then {A B} (m : QM A) (f : A -> B) st (P : A -> qmem -> Prop) (P' : B -> qmem -> Prop) :
  runs m st P -> (forall a st', P a st' -> P' (f a) st') ->
  runs (a ← m; mret (f a)) st P'.
Proof. intros H HP. apply runs_bind. eapply runs_mono; [exact H|]. intros. apply runs_ret. auto. Qed.

Lemma spec_op_refined items st M o r M' :
  sys_rep items st M -> spec_op items M o = Some (r, M') ->
  runs (run_op o) st (fun r' st' => r' = r /\ sys_rep items st' M').
Proof.
  intros HS H. destruct o as [q x|q|q|q x y|q x|q x|q|q|q x|q]; cbn [spec_op] in H;
    destruct (M !! q) as [l|] eqn:HM; try done; cbn [mbind option_bind] in H; cbn [run_op];
    try (destruct (split_at _ l) as [[l1 l2]|] eqn:Es; [apply split_at_Some in Es|done];
         cbn [mbind option_bind] in H).
  - destruct (may_enter items M l x) eqn:Hm; simplify_eq.
    eapply runs_then; [by eapply put_refined|auto].
  - eapply runs_mono; [by eapply get_refined|]. intros r' st' Hp.
    destruct l; simplify_eq; done.
  - eapply runs_mono; [by eapply last_get_refined|]. intros r' st' Hp.
    destruct (rev l); simplify_eq; done.
  - destruct (may_enter items M l x) eqn:Hm; simplify_eq.
    eapply runs_then; [by eapply insert_refined|auto].
  - simplify_eq. eapply runs_then; [by eapply delete_refined|auto].
  - simplify_eq. eapply runs_then; [by eapply delete_refined|]. by intros b st' [-> ?].
  - simplify_eq. by eapply check_refined.
  - simplify_eq. by eapply last_check_refined.
  - simplify_eq. by eapply next_refined.
  - simplify_eq. by eapply cnt_refined.
Qed.

(** C18. The queue service refines its specification: from a store that represents
    the abstract queues [M], any sequence of operations (put, get, get from the
    tail, insert, delete, peek at both ends, next, count) on any of the queues that
    respects the contract returns, without blocking or faulting, the results of the
    specification, and leaves a store that represents the specification's queues:
    the doubly linked rings are well-formed, the counts are exact and every mutex
    is released. *)
Theorem queue_service_refines items os st M rs M' :
  sys_rep items st M -> spec_ops items M os = Some (rs, M') ->
  exists st', run_ops os st = Done rs st' /\ sys_rep items st' M'.
Proof.
  revert st M rs. induction os as [|o os IH]; intros st M rs HS H; cbn [spec_ops] in H.
  - simplify_eq. by exists st.
  - destruct (spec_op items M o) as [[r M1]|] eqn:Eo; [|done]. cbn [mbind option_bind] in H.
    destruct (spec_ops items M1 os) as [[rs' M2]|] eqn:Eos; [|done]. cbn in H. simplify_eq.
    destruct (spec_op_refined _ _ _ _ _ _ HS Eo) as (r' & st1 & E1 & -> & HS1).
    destruct (IH _ _ _ HS1 Eos) as (st' & E & HS'). exists st'. split; [|done].
    cbn [run_ops]. unfold mbind, QM_bind. by rewrite E1, E.
Qed.

(** ** Moving a whole queue

    [q_m_put] appends a queue to another one but leaves the [prev_ptr] of the
    first moved item alone.  What holds afterwards is the weaker [fifo_rep]: the
    [next_ptr]s form the circular list and the queue knows its last item. *)

Fixpoint fwd (nx : Z -> option Z) (x : Z) (p : list Z) : Prop :=
  match p with
  | [] => True
  | y :: p => nx x = Some y /\ fwd nx y p
  end.

Record fifo_rep (st : qmem) (q : Z) (l : list Z) : Prop := {
  ff_q : queues st !! q = Some (mkQ (zlen l) Unlocked);
  ff_fwd : fwd (nextp st) q (l ++ [q]);
  ff_last : prevp st q = Some (before q l);
  ff_nodup : NoDup (q :: l);
  ff_null : 0 ∉ q :: l;
  ff_max : zlen l <= MAX_CNT
}.

Lemma linked_fwd nx pv x p : linked nx pv x p -> fwd nx x p.
Proof. revert x. induction p as [|y p IH]; intros x; simpl; naive_solver. Qed.

Lemma queue_fifo st q l : queue_rep st q l -> fifo_rep st q l.
Proof.
  intros Hr. pose proof (ring_ends _ _ _ Hr) as (_ & _ & _ & Hp). destruct Hr as [H1 H2 H3 H4 H5].
  constructor; try done. by eapply linked_fwd.
Qed.

Lemma before_cons x z p : before x (z :: p) = before z p.
Proof.
  unfold before. revert x z. induction p as [|y p IH]; intros x z; [done|].
  change (List.last (z :: y :: p) x) with (List.last (y :: p) x). by rewrite !IH.
Qed.

Lemma fwd_retarget nx nx' x p y y' :
  NoDup (x :: p) -> fwd nx x (p ++ [y]) -> nx' (before x p) = Some y' ->
  (forall z, z ∈ x :: p -> z <> before x p -> nx' z = nx z) -> fwd nx' x (p ++ [y']).
Proof.
  revert x. induction p as [|z p IH]; intros x Hnd H Hy Hz.
  - by split.
  - rewrite before_cons in Hy, Hz. destruct H as [Hx H]. apply NoDup_cons in Hnd as [Hxp Hnd].
    pose proof (before_in z p) as Hb. split.
    + rewrite Hz; [done|set_solver|]. intros E. rewrite <- E in Hb. done.
    + apply IH; [done..|]. intros w Hw. apply Hz. set_solver.
Qed.

Lemma fwd_ext nx nx' x p : (forall z, nx' z = nx z) -> fwd nx x p -> fwd nx' x p.
Proof. intros H. revert x. induction p as [|y p IH]; intros x; simpl; [done|]. rewrite H. naive_solver. Qed.

Lemma fwd_app nx x p1 y p2 :
  fwd nx x (p1 ++ y :: p2) <-> fwd nx x (p1 ++ [y]) /\ fwd nx y p2.
Proof. revert x. induction p1 as [|z p1 IH]; intros x; simpl; [tauto|]. rewrite IH. tauto. Qed.

Lemma fwd_some nx x p y z : fwd nx x (p ++ [y]) -> z ∈ x :: p -> is_Some (nx z).
Proof.
  revert x. induction p as [|w p IH]; intros x [Hx H] Hz.
  - apply list_elem_of_singleton in Hz as ->. eauto.
  - apply elem_of_cons in Hz as [->|Hz]; [eauto|]. by eapply IH.
Qed.

(** What [q_m_put] does to the pointers: [a] is the last node of the target, [h]
    and [e] are the first and the last item of the source. *)
Record moved (st st' : qmem) (t s a h e n : Z) : Prop := {
  mv_a : nextp st' a = Some h;
  mv_e : nextp st' e = Some t;
  mv_s : nextp st' s = Some s;
  mv_next : forall z, z <> a -> z <> e -> z <> s -> nextp st' z = nextp st z;
  mv_t : prevp st' t = Some e;
  mv_ps : prevp st' s = Some s;
  mv_prev : forall z, z <> t -> z <> s -> prevp st' z = prevp st z;
  mv_qt : queues st' !! t = Some (mkQ n Unlocked);
  mv_qs : queues st' !! s = Some (mkQ 0 Unlocked);
  mv_q : forall q, q <> t -> q <> s -> queues st' !! q = queues st !! q
}.

Lemma runs_lock_init q x st (P : unit -> qmem -> Prop) :
  queues st !! q = Some x -> P tt (wr_q q (x <| mutex := Unlocked |>) st) ->
  runs (q_pthread_lock_init q) st P.
Proof.
  intros E ?. eexists tt, _. split; [|done].
  unfold q_pthread_lock_init, load_q, mbind, QM_bind. by rewrite E.
Qed.

Lemma runs_unlocked q c st (P : unit -> qmem -> Prop) :
  queues st !! q = Some (mkQ c Unlocked) -> P tt st ->
  runs (q_pthread_unlock q) st P.
Proof.
  intros E ?. eexists tt, _. split; [|done].
  unfold q_pthread_unlock, load_q, mbind, QM_bind. by rewrite E.
Qed.

Lemma lookup_insert_dec {A} (m : gmap Z A) i j x :
  <[i:=x]> m !! j = if decide (i = j) then Some x else m !! j.
Proof. apply lookup_insert. Qed.

Ltac qmap := autorewrite with qmem; rewrite ?lookup_insert_dec; repeat case_decide; simplify_eq; cbn; try done; try congruence; eauto.

Lemma q_m_put_effect st t s a h e ct cs :
  t <> s -> a <> s -> e <> s -> e <> t -> e <> a -> e <> 0 -> 0 < cs ->
  queues st !! t = Some (mkQ ct Unlocked) -> queues st !! s = Some (mkQ cs Unlocked) ->
  prevp st t = Some a -> prevp st s = Some e -> nextp st s = Some h ->
  is_Some (nextp st a) -> is_Some (nextp st e) ->
  runs (q_m_put t s) st (fun _ st' => moved st st' t s a h e (s32 (ct + cs))).
Proof.
  intros Hts Has Hes Het Hea He0 Hcs Hqt Hqs Ht Hs Hh [na Hna] [ne Hne].
  unfold q_m_put, q_cnt, q_init. apply runs_bind.
  eapply runs_lock; [exact Hqs|].
  apply runs_bind. eapply runs_get_cnt; [qmap|]. cbn [cnt].
  destruct (Z.eqb_spec cs 0) as [|_]; [lia|]. cbn [negb].
  apply runs_bind. apply runs_bind. eapply runs_lock; [qmap|].
  apply runs_bind. eapply runs_get_prev; [qsolve|].
  apply runs_bind. eapply runs_get_cnt; [qmap|]. cbn [cnt].
  replace (0 <? cs) with true by lia. destruct (Z.eqb_spec e 0) as [|_]; [done|]. cbn [negb].
  apply runs_bind. eapply runs_set_next; [qsolve|].
  apply runs_bind. eapply runs_get_next; [qsolve|].
  apply runs_bind. eapply runs_get_cnt; [qmap|]. cbn [cnt].
  replace (0 <? cs) with true by lia.
  apply runs_bind. eapply runs_get_prev; [qsolve|].
  apply runs_bind. eapply runs_set_next; [qsolve|].
  apply runs_bind. eapply runs_set_prev; [qsolve|].
  apply runs_bind. eapply runs_get_cnt; [qmap|]. cbn [cnt].
  apply runs_bind. eapply runs_get_cnt; [qmap|]. cbn [cnt].
  apply runs_bind. eapply runs_set_cnt; [qmap|].
  apply runs_bind. apply runs_bind. eapply runs_set_next; [qsolve|].
  apply runs_bind. eapply runs_set_prev; [qsolve|].
  apply runs_bind. eapply runs_set_cnt; [qmap|].
  apply runs_bind. eapply runs_lock_init; [qmap|].
  apply runs_ret. eapply runs_unlock; [qmap|].
  eapply runs_unlocked; [qmap|].
  constructor; intros; first [solve [qsolve]|solve [qmap]].
Qed.

Lemma fifo_moved st t s lt ls :
  fifo_rep st t lt -> fifo_rep st s ls -> (forall z, z ∈ t :: lt -> z ∈ s :: ls -> False) ->
  zlen lt + zlen ls <= MAX_CNT -> ls <> [] ->
  runs (q_m_put t s) st (fun _ st' =>
    moved st st' t s (before t lt) (after s ls) (before s ls) (zlen (lt ++ ls)) /\
    fifo_rep st' t (lt ++ ls) /\ fifo_rep st' s []).
Proof.
  intros [Qt Ft Lt Nt Zt Mt] [Qs Fs Ls Ns Zs Ms] Hd Hmax Hne.
  pose proof (before_in t lt) as Hb.
  assert (Hel : before s ls ∈ ls).
  { destruct (last_cases s ls) as [[? _]|(l0 & e & -> & ->)]; [by destruct Hne|].
    apply elem_of_app. right. by left. }
  assert (Hh : exists ls', ls = after s ls :: ls') by (destruct ls; [by destruct Hne|simpl; eauto]).
  destruct Hh as [ls' Els]. set (h := after s ls) in *. set (e := before s ls) in *.
  assert (Hnsh : nextp st s = Some h) by (rewrite Els in Fs; by destruct Fs).
  assert (Hsl : s ∉ ls) by (apply NoDup_cons in Ns as [? _]; done).
  eapply runs_mono; [eapply (q_m_put_effect st t s (before t lt) h e); try eassumption|].
  - intros ->. apply (Hd s); by left.
  - intros E. apply (Hd s); [rewrite <- E; done|by left].
  - intros E. by rewrite E in Hel.
  - intros E. apply (Hd t); [by left|]. right. by rewrite <- E.
  - intros E. apply (Hd (before t lt)); [done|]. right. by rewrite <- E.
  - intros E. apply Zs. right. by rewrite <- E.
  - destruct ls; [by destruct Hne|]. simpl. lia.
  - eapply fwd_some; [exact Ft|exact Hb].
  - eapply fwd_some; [exact Fs|]. by right.
  - intros ? st' Hmv. cbn beta in Hmv.
    rewrite wrap_cnt in Hmv by lia. rewrite <- Nat2Z.inj_add, <- length_app in Hmv.
    split; [done|]. destruct Hmv as [Ha He Hsn Hn Htp Hps Hp Hqt Hqs Hq]. split.
    + constructor; [done| | | | |].
      * rewrite Els, <- (assoc_L (++)). cbn [app]. apply fwd_app.
        assert (Ee : e = before h ls') by (subst e; rewrite Els at 1; by rewrite before_cons).
        split.
        -- eapply fwd_retarget; [exact Nt|exact Ft|exact Ha|].
           intros z Hz Hza. apply Hn; [done|..]; intros ->; apply (Hd _ Hz); [by right|by left].
        -- rewrite Els in Fs. destruct Fs as [_ Fs].
           eapply (fwd_retarget (nextp st) _ h ls' s t); [|exact Fs|by rewrite <- Ee|].
           ++ rewrite Els in Ns. by apply NoDup_cons in Ns as [_ ?].
           ++ intros z Hz Hza. rewrite <- Ee in Hza. rewrite <- Els in Hz.
              apply Hn; [|done|]; intros ->; [by apply (Hd (before t lt)); [|right]|done].
      * rewrite Htp. f_equal. destruct (last_cases s ls) as [[? _]|(l0 & e' & E & E')]; [by destruct Hne|].
        fold e in E'. subst e'. rewrite E. rewrite (assoc_L (++)). unfold before.
        by rewrite last_last.
      * rewrite app_comm_cons. apply NoDup_app. apply NoDup_cons in Ns as [_ Ns].
        split; [done|split; [|done]]. intros z Hz Hz'. apply (Hd z); [done|by right].
      * rewrite app_comm_cons. intros [?|?]%elem_of_app; [done|]. apply Zs. by right.
      * rewrite length_app. lia.
    + constructor; try done.
      * apply NoDup_singleton.
      * intros E%list_elem_of_singleton. apply Zs. rewrite E. by left.
Qed.

Lemma fifo_get st q x l :
  fifo_rep st q (x :: l) -> runs (q_get q) st (fun r st' => r = x /\ fifo_rep st' q l).
Proof.
  intros [Q [Hqx F] L N Z Mx]. pose proof N as [N1 [N2 N3]%NoDup_cons]%NoDup_cons.
  rewrite before_cons in L.
  assert (Hxb : nextp st x = Some (after q l) /\ is_Some (nextp st (after q l)) /\
                after q l <> x /\ x <> q).
  { destruct l as [|y l]; destruct F as [? F]; cbn [after List.hd].
    - set_solver.
    - split; [done|]. split; [by eapply fwd_some; [exact F|left]|]. set_solver. }
  destruct Hxb as (Hxb & Hbs & Hbx & Hxq).
  eapply runs_mono; [eapply (q_get_effect _ q x (after q l)); [exact Q|simpl; lia|done..| |done|done]|].
  { by apply nextp_prevp. }
  intros r st' [-> [Hna Hpb _ Hn Hp Hqs]]. split; [done|]. simpl length in *. constructor.
  - rewrite Hqs, lookup_insert_eq. do 2 f_equal. rewrite wrap_cnt; lia.
  - destruct l as [|y l]; [by split|]. split; [done|]. destruct F as [_ F].
    apply NoDup_cons in N3 as [Hyl N3].
    eapply (fwd_retarget (nextp st) _ y l q q); [by apply NoDup_cons|done| |].
    + assert (Hl : nextp st (before y l) = Some q).
      { clear -F. revert y F. induction l as [|z l IH]; intros y [Hy F]; [done|].
        rewrite before_cons. by apply IH. }
      rewrite Hn; [done|..]; pose proof (before_in y l); intros E; rewrite E in *; set_solver.
    + intros z Hz _. apply Hn; intros ->; set_solver.
  - destruct l as [|y l]; [done|]. rewrite Hp; [by rewrite L, !before_cons|set_solver..].
  - apply NoDup_cons. split; [set_solver|done].
  - set_solver.
  - lia.
Qed.

Lemma fifo_drain st q l :
  fifo_rep st q l -> runs (run_ops (repeat (Get q) (length l))) st (fun rs _ => rs = l).
Proof.
  revert st. induction l as [|x l IH]; intros st Hr; cbn [length repeat run_ops].
  - by apply runs_ret.
  - apply runs_bind. eapply runs_mono; [by apply fifo_get|]. intros r st' [-> Hr']. cbn beta.
    apply runs_bind. eapply runs_mono; [by apply IH|]. intros rs st'' ->. by apply runs_ret.
Qed.

(** [q_m_put] appends the items of the source queue to the target queue and
    leaves the source empty, both counts exact and both mutexes released: getting
    items from the target then gives the old items of the target followed by those
    of the source, in order.  Queues that are not involved are unchanged. *)
Theorem q_m_put_appends st t s lt ls :
  fifo_rep st t lt -> fifo_rep st s ls -> (forall z, z ∈ t :: lt -> z ∈ s :: ls -> False) ->
  zlen lt + zlen ls <= MAX_CNT ->
  exists st', q_m_put t s st = Done tt st' /\
    fifo_rep st' t (lt ++ ls) /\ fifo_rep st' s [] /\
    (exists st'', run_ops (repeat (Get t) (length (lt ++ ls))) st' = Done (lt ++ ls) st'') /\
    forall z, z ∉ t :: lt -> z ∉ s :: ls ->
      nextp st' z = nextp st z /\ prevp st' z = prevp st z /\ queues st' !! z = queues st !! z.
Proof.
  intros Ht Hs Hd Hmax.
  assert (H : runs (q_m_put t s) st (fun _ st' => fifo_rep st' t (lt ++ ls) /\ fifo_rep st' s [] /\
    forall z, z ∉ t :: lt -> z ∉ s :: ls ->
      nextp st' z = nextp st z /\ prevp st' z = prevp st z /\ queues st' !! z = queues st !! z)).
  { destruct ls as [|h ls].
    - unfold q_m_put, q_cnt. rewrite app_nil_r. pose proof (ff_q _ _ _ Hs) as Qs.
      apply runs_bind. eapply runs_lock; [exact Qs|]. apply runs_bind.
      eapply runs_get_cnt; [qmap|]. cbn [cnt length Z.of_nat Z.eqb negb].
      apply runs_bind, runs_ret. eapply runs_unlock; [qmap|].
      pose proof (unchanged_lock st s 0 Qs) as (Un & Up & Uq).
      assert (Hsame : forall q l, fifo_rep st q l ->
        fifo_rep (wr_q s (mkQ 0 Unlocked) (wr_q s (mkQ 0 Locked) st)) q l).
      { intros q l []. constructor; try done; [by rewrite Uq|by eapply fwd_ext|].
        etransitivity; [apply Up|done]. }
      split; [by apply Hsame|]. split; [by apply Hsame|]. auto.
    - eapply runs_mono; [by apply fifo_moved|].
      intros ? st' (Hmv & ? & ?). do 2 (split; [done|]). intros z Hzt Hzs.
      pose proof (before_in t lt) as Hb. pose proof (before_in s (h :: ls)) as He.
      destruct Hmv. repeat split.
      + apply mv_next0; intros ->; [done..|]. by apply Hzs; left.
      + apply mv_prev0; intros ->; [by apply Hzt; left|by apply Hzs; left].
      + apply mv_q0; intros ->; [by apply Hzt; left|by apply Hzs; left]. }
  destruct H as ([] & st' & E & H1 & H2 & H3). exists st'. do 3 (split; [done|]). split; [|done].
  destruct (fifo_drain _ _ _ H1) as (rs & st'' & Er & ->). eauto.
Qed.

(** After [q_m_put] the [prev_ptr] of the first moved item still points to the
    source queue, so deleting that item from its new queue does not unlink it: the
    count of the target goes down, but its last old node still leads to the item,
    whose [next_ptr] is now null, and the items after it are lost. *)
Theorem q_m_put_delete_breaks st t s lt x y ls :
  queue_rep st t lt -> queue_rep st s (x :: y :: ls) ->
  (forall z, z ∈ t :: lt -> z ∈ s :: x :: y :: ls -> False) ->
  zlen lt + zlen (x :: y :: ls) <= MAX_CNT ->
  runs (q_m_put t s;; q_delete t x) st (fun _ st' =>
    nextp st' (before t lt) = Some x /\ nextp st' x = Some 0 /\
    queues st' !! t = Some (mkQ (zlen lt + zlen (x :: y :: ls) - 1) Unlocked)).
Proof.
  intros Ht Hs Hd Hmax. apply runs_bind.
  eapply runs_mono; [eapply fifo_moved; try eassumption; [by apply queue_fifo..|done]|].
  intros ? st1 (Hmv & _). cbn beta.
  destruct (ring_item _ _ [] _ _ Hs) as (_ & Hxs & Hxy & Hyx & _ & Hne & Hxq).
  change (before s []) with s in *. change (after s (y :: ls)) with y in *.
  change (after s (x :: y :: ls)) with x in *.
  pose proof (qr_nodup _ _ _ Hs) as (Hs1 & [Hx1 [Hy1 _]%NoDup_cons]%NoDup_cons)%NoDup_cons.
  pose proof (before_in t lt) as Hb.
  assert (Hlast : before s (x :: y :: ls) ∈ y :: ls).
  { rewrite !before_cons. apply before_in. }
  destruct Hmv as [Ha He Hsn Hn Htp Hps Hp Hqt Hqs Hq].
  assert (Hxb : x <> before t lt).
  { intros E. apply (Hd (before t lt)); [done|]. rewrite <- E. set_solver. }
  assert (Hxt : x <> t) by (intros ->; apply (Hd t); set_solver).
  assert (Hyt : y <> t) by (intros ->; apply (Hd t); set_solver).
  assert (Hys : y <> s) by set_solver.
  assert (Hbs : before t lt <> s) by (intros E; rewrite E in Hb; apply (Hd s); set_solver).
  assert (Hxn : nextp st1 x = Some y).
  { rewrite Hn; [done|done| |done]. intros E. rewrite <- E in Hlast. set_solver. }
  assert (Hxp : prevp st1 x = Some s) by (by rewrite Hp).
  assert (Hyp : prevp st1 y = Some x) by (by rewrite Hp).
  assert (Hbn : nextp st1 (before t lt) = Some x) by (by rewrite Ha).
  destruct (proj2 (nextp_prevp st1 y) (ex_intro _ _ Hyp)) as [ny Hny].
  unfold q_delete. set (b := before t lt) in *. clearbody b. qrun.
  split; [|split]; [by qsolve|by qsolve|].
  autorewrite with qmem. rewrite lookup_insert_eq. do 2 f_equal.
  rewrite length_app, wrap_cnt; lia.
Qed.

(** ** Searching *)

Fixpoint find_first (f : Z -> bool) (l : list Z) : Z :=
  match l with
  | [] => 0
  | x :: l => if f x then x else find_first f l
  end.

Lemma q_search_refined items M q compare compare_val l2 : forall l1 fuel st,
  sys_rep items st M -> M !! q = Some (l1 ++ l2) -> (length l2 < fuel)%nat ->
  runs (q_search_loop fuel q compare compare_val (List.hd 0 l2)) st (fun r st' =>
    r = find_first (fun x => negb (compare x compare_val =? 0)) l2 /\ sys_rep items st' M).
Proof.
  induction l2 as [|x l2 IH]; intros l1 fuel st HS HM Hf;
    (destruct fuel as [|fuel]; [simpl in Hf; lia|]); cbn [q_search_loop List.hd find_first].
  - by apply runs_ret.
  - assert (Hx : x <> 0).
    { intros ->. apply (qr_null _ _ _ (sr_queues _ _ _ HS _ _ HM)). set_solver. }
    destruct (Z.eqb_spec x 0) as [|_]; [done|].
    destruct (negb (compare x compare_val =? 0)); [by apply runs_ret|].
    apply runs_bind. eapply runs_mono; [by eapply next_refined|].
    intros r st' [-> HS']. cbn beta.
    apply (IH (l1 ++ [x])); [done| |simpl in Hf; lia].
    by rewrite <- (assoc_L (++)).
Qed.

(** [q_linear_search] terminates and returns the oldest item for which the
    compare function gives a non-zero value, the null pointer if there is none; the
    queues are unchanged. *)
Theorem q_linear_search_correct items st M q l compare compare_val fuel :
  sys_rep items st M -> M !! q = Some l -> (length l < fuel)%nat ->
  exists st', q_linear_search fuel q compare compare_val st =
      Done (find_first (fun x => negb (compare x compare_val =? 0)) l) st' /\
    sys_rep items st' M.
Proof.
  intros HS HM Hf.
  assert (H : runs (q_linear_search fuel q compare compare_val) st (fun r st' =>
    r = find_first (fun x => negb (compare x compare_val =? 0)) l /\ sys_rep items st' M)).
  { unfold q_linear_search. apply runs_bind. eapply runs_mono; [by eapply check_refined|].
    intros r st' [-> HS']. by apply (q_search_refined items M q compare compare_val l []). }
  destruct H as (r & st' & E & -> & ?). eauto.
Qed.

(** [q_linear_delete] and [q_linear_delete_new] lock the queue and then call
    [q_check], which locks it again: on every queue that is free the thread waits
    for its own mutex for ever, whatever the compare and the action functions do. *)
Theorem q_linear_delete_deadlocks st q c fuel compare compare_val action param :
  queues st !! q = Some (mkQ c Unlocked) -> q <> 0 ->
  q_linear_delete fuel q (Some compare) param action st = Blocked /\
  q_linear_delete_new fuel q (Some compare) compare_val action param st = Blocked.
Proof.
  intros Hq Hq0.
  assert (H : forall (k : Z -> QM Z) (k' : Z -> QM unit),
    (q_pthread_lock q;; item ← q_check q; k item) st = Blocked /\
    (q_pthread_lock q;; item ← q_check q; k' item) st = Blocked).
  { intros k k'.
    assert (E : queues (wr_q q (mkQ c Locked) st) !! q = Some (mkQ c Locked)).
    { rewrite queues_wr_q. apply lookup_insert_eq. }
    unfold q_check, q_pthread_lock, load_q, store_q, mbind, QM_bind. rewrite Hq. cbn [mutex].
    unfold wr_q in E. change ((mkQ c Unlocked) <| mutex := Locked |>) with (mkQ c Locked).
    rewrite E. done. }
  unfold q_linear_delete, q_linear_delete_new.
  destruct (Z.eqb_spec q 0); [done|]. split.
  - exact (proj2 (H (fun _ => (mret 0 : QM Z)) _)).
  - exact (proj1 (H _ (fun _ => (mret tt : QM unit)))).
Qed.

(** ** Concrete queues

    Queue 100 holds the items 1 and 2, queue 200 the items 3 and 4; item 5 is
    free. *)

Definition demo_links : gmap Z q_link_type :=
  {[100 := mkLink 1 2; 1 := mkLink 2 100; 2 := mkLink 100 1;
    200 := mkLink 3 4; 3 := mkLink 4 200; 4 := mkLink 200 3; 5 := mkLink 0 0]}.
Definition demo_mem : qmem :=
  mkMem demo_links {[100 := mkQ 2 Unlocked; 200 := mkQ 2 Unlocked]}.
Definition demo_items : gset Z := {[1; 2; 3; 4; 5]}.
Definition demo_queues : gmap Z (list Z) := {[100 := [1; 2]; 200 := [3; 4]]}.

Lemma demo_queue_rep q l : demo_queues !! q = Some l -> queue_rep demo_mem q l.
Proof.
  unfold demo_queues. rewrite lookup_insert, lookup_singleton.
  repeat destruct (decide _) as [<-|]; intros E; simplify_eq; constructor;
    try (vm_compute; done); try (repeat split; vm_compute; reflexivity).
  - apply (bool_decide_unpack _). vm_compute. exact I.
  - apply (bool_decide_unpack _). vm_compute. exact I.
  - apply (bool_decide_unpack _). vm_compute. exact I.
  - apply (bool_decide_unpack _). vm_compute. exact I.
Qed.

Lemma demo_sys_rep : sys_rep demo_items demo_mem demo_queues.
Proof.
  constructor; [exact demo_queue_rep| |].
  - intros q1 q2 l1 l2 x. unfold demo_queues. rewrite !lookup_insert, !lookup_singleton.
    repeat destruct (decide _) as [<-|]; intros E1 E2; simplify_eq; [done|..|done];
      intros Hx Hy; exfalso; revert Hx Hy; set_unfold; lia.
  - intros x Hx. unfold demo_items in Hx. rewrite !elem_of_union, !elem_of_singleton in Hx.
    destruct Hx as [[[[->| ->]| ->]| ->]| ->]; (split; [done|]); eexists; vm_compute; reflexivity.
Qed.

Lemma queue_service_refines_witness :
  exists st',
    run_ops [Put 100 5; Get 100; LastGet 200; Insert 200 1 3; Delete 100 2; Next 200 1; Cnt 100]
      demo_mem = Done [0; 1; 4; 0; 0; 3; 1] st' /\
    sys_rep demo_items st' (<[100:=[5]]> (<[200:=[1; 3]]> demo_queues)).
Proof.
  destruct (queue_service_refines demo_items
    [Put 100 5; Get 100; LastGet 200; Insert 200 1 3; Delete 100 2; Next 200 1; Cnt 100]
    demo_mem demo_queues [0; 1; 4; 0; 0; 3; 1] (<[100:=[5]]> (<[200:=[1; 3]]> demo_queues))
    demo_sys_rep) as (st' & E & H).
  - vm_compute. reflexivity.
  - exists st'. split; [exact E|exact H].
Defined.

Lemma demo_fifo_100 : fifo_rep demo_mem 100 [1; 2].
Proof. apply queue_fifo, demo_queue_rep. reflexivity. Qed.

Lemma demo_fifo_200 : fifo_rep demo_mem 200 [3; 4].
Proof. apply queue_fifo, demo_queue_rep. reflexivity. Qed.

Lemma demo_disjoint z : z ∈ [100; 1; 2] -> z ∈ [200; 3; 4] -> False.
Proof.
  set_unfold. lia.
Qed.

Lemma q_m_put_appends_witness :
  exists st', q_m_put 100 200 demo_mem = Done tt st' /\ fifo_rep st' 100 [1; 2; 3; 4].
Proof.
  destruct (q_m_put_appends demo_mem 100 200 [1; 2] [3; 4] demo_fifo_100 demo_fifo_200
              demo_disjoint) as (st' & E & H & _).
  - vm_compute. discriminate.
  - exists st'. split; [exact E|exact H].
Defined.

Lemma q_m_put_delete_breaks_witness :
  exists st', (q_m_put 100 200;; q_delete 100 3) demo_mem = Done tt st' /\
    nextp st' 2 = Some 3 /\ nextp st' 3 = Some 0.
Proof.
  destruct (q_m_put_delete_breaks demo_mem 100 200 [1; 2] 3 4 []
              (demo_queue_rep 100 _ eq_refl) (demo_queue_rep 200 _ eq_refl) demo_disjoint)
    as ([] & st' & E & H1 & H2 & _).
  - vm_compute. discriminate.
  - exists st'. split; [exact E|]. split; [exact H1|exact H2].
Defined.

Lemma q_linear_search_correct_witness :
  exists st', q_linear_search 3 200 (fun x v => if x =? v then 1 else 0) 4 demo_mem = Done 4 st'.
Proof.
  destruct (q_linear_search_correct demo_items demo_mem demo_queues 200 [3; 4]
              (fun x v => if x =? v then 1 else 0) 4 3 demo_sys_rep eq_refl) as (st' & E & _).
  - simpl. lia.
  - exists st'. exact E.
Defined.

Lemma q_linear_delete_deadlocks_witness :
  q_linear_delete 3 100 (Some (fun _ _ => 0)) 0 None demo_mem = Blocked.
Proof.
  refine (proj1 (q_linear_delete_deadlocks demo_mem 100 2 3 (fun _ _ => 0) 0 None 0 _ _)).
  - reflexivity.
  - discriminate.
Defined.
