(* ===== verification/MsgQueue.v ===== *)
(** * The message queue (msg_queue/msg_process.c, msg_process.h)

    A bounded-size message buffer shared between threads: a linked list of
    messages, a mutex and a condition variable.  A buffer is [None] for the null
    pointer; messages and their data blocks are in two stores, and [free] of a
    block that is not allocated gives [None] (undefined behaviour), like any other
    use of a dangling pointer.  [malloc_elm] and [malloc_dt] are [malloc] for a
    message and for [n] bytes; they see the blocks in use. *)

From S2P Require Import Prelude Heap.
#[local] Open Scope Z_scope.
#[local] Open Scope cint_scope.

Definition TMSG_MAX_LEN : Z := 4096.

Record tmsg_element : Type := mkElm {
  next : Z;
  msg : Z;
  ext : Z;
  sub0 : Z;
  sub1 : Z;
  dt_len : Z;
  dt : Z
}.

Record tmsg_buffer : Type := mkBuf { first : Z; last : Z; num : Z }.

Record world : Type := mkWorld {
  buf : option tmsg_buffer;
  elms : gmap Z tmsg_element;
  blocks : gmap Z (list Z)
}.

(** ** The operations under the mutex *)

(** [put_msg_to_buffer]: the state, and whether [not_empty] was signalled. *)
Definition put_msg_to_buffer (elm : Z) (w : world) : option (bool * world) :=
  match buf w with
  | None => Some (false, w)
  | Some b =>
      if elm =? 0 then Some (false, w)
      else
        e ← elms w !! elm;
        let w := if negb (next e =? 0)
                 then w <| elms := <[elm := e <| next := 0 |>]> (elms w) |> else w in
        if (first b =? last b) && (0 =? num b) then
          let b := b <| first := elm |> <| last := elm |> <| num := s32 (num b + 1) |> in
          Some (true, w <| buf := Some b |>)
        else
          l ← elms w !! last b;
          let w := w <| elms := <[last b := l <| next := elm |>]> (elms w) |> in
          let b := b <| last := elm |> <| num := s32 (num b + 1) |> in
          Some (false, w <| buf := Some b |>)
  end.

(** Take the first message of a buffer that is not empty. *)
Definition take_first (b : tmsg_buffer) (w : world) : option (Z * world) :=
  let elm := first b in
  if 1 =? num b then Some (elm, w <| buf := Some (mkBuf 0 0 0) |>)
  else
    e ← elms w !! first b;
    let b := b <| first := next e |> <| num := s32 (num b - 1) |> in
    Some (elm, w <| buf := Some b |>).

(** What a call does that holds the mutex: it has to wait, or it returns. *)
Inductive progress : Type :=
  | Waits
  | Returns (elm : Z) (w : world).

(** [get_msg_from_buffer], from the test of [while (0 == buf->num)] on: the call
    comes back here whenever it has been woken. *)
Definition get_msg_from_buffer (w : world) : option progress :=
  match buf w with
  | None => Some (Returns 0 w)
  | Some b =>
      if 0 =? num b then Some Waits
      else '(elm, w) ← take_first b w; Some (Returns elm w)
  end.

(** The end of [get_msg_from_buffer_timeout], after the wait if there was one. *)
Definition get_timeout_end (w : world) : option (Z * world) :=
  match buf w with
  | None => Some (0, w)
  | Some b => if 0 <? num b then take_first b w else Some (0, w)
  end.

(** The deadline of [get_msg_from_buffer_timeout]: seconds and nanoseconds.  [now]
    is the monotonic clock; the sum of nanoseconds is an [unsigned long long]. *)
Definition timeout_deadline (now_sec now_nsec block : Z) : Z * Z :=
  let tv_sec := now_sec + Z.quot block 1000 in
  let block := Z.rem block 1000 in
  let timeout_ns := uwrap 64 (now_nsec + s32 (s32 (block * 1000) * 1000)) in
  if 1000 * 1000 * 1000 <=? timeout_ns
  then (tv_sec + 1, timeout_ns - 1000 * 1000 * 1000)
  else (tv_sec, timeout_ns).

(** [get_msg_from_buffer_timeout]: it waits until a deadline (and goes on with
    [get_timeout_end] when it is woken or the time is over), or it returns. *)
Inductive timed_progress : Type :=
  | WaitsUntil (sec nsec : Z)
  | ReturnsNow (elm : Z) (w : world).

Definition get_msg_from_buffer_timeout (now_sec now_nsec block : Z) (w : world)
  : option timed_progress :=
  match buf w with
  | None => Some (ReturnsNow 0 w)
  | Some b =>
      if 0 =? num b then
        let '(sec, nsec) := timeout_deadline now_sec now_nsec block in
        Some (WaitsUntil sec nsec)
      else '(elm, w) ← get_timeout_end w; Some (ReturnsNow elm w)
  end.

(** ** Freeing *)

Definition free_block (p : Z) (w : world) : option world :=
  _ ← blocks w !! p; Some (w <| blocks := delete p (blocks w) |>).

Definition free_tmsg_element (p : Z) (w : world) : option world :=
  if p =? 0 then Some w
  else
    e ← elms w !! p;
    w ← (if negb (dt e =? 0) then free_block (dt e) w else Some w);
    Some (w <| elms := delete p (elms w) |>).

(** The loop of [clear_msg_buffer]: the message left, and the state. *)
Fixpoint clear_loop (fuel : nat) (b : tmsg_buffer) (elm : Z) (w : world)
  : option (Z * world) :=
  match fuel with
  | O => None
  | S fuel =>
      if elm =? 0 then Some (elm, w <| buf := Some b |>)
      else if elm =? last b then
        let b := b <| first := last b |> in
        let b := if negb (num b =? 1) then b <| num := 1 |> else b in
        Some (elm, w <| buf := Some b |>)
      else
        e ← elms w !! elm;
        let elm_tmp := next e in
        w ← free_tmsg_element elm w;
        clear_loop fuel (b <| num := s32 (num b - 1) |> <| first := elm_tmp |>) elm_tmp w
  end.

Definition clear_msg_buffer (w : world) : option (Z * world) :=
  match buf w with
  | None => Some (0, w)
  | Some b => if 0 <? num b then clear_loop (S (size (elms w))) b (first b) w else Some (0, w)
  end.

Definition dispose_msg_buffer (w : world) : option world :=
  match buf w with
  | None => Some w
  | Some b =>
      '(elm, w) ← (if negb (first b =? last b) && (0 <? num b) then clear_msg_buffer w
                   else Some (last b, w));
      w ← (if negb (elm =? 0) then
             w ← free_tmsg_element elm w;
             Some (w <| buf := Some (mkBuf 0 0 0) |>)
           else Some w);
      Some (w <| buf := None |>)
  end.

Definition get_msg_num (w : world) : Z :=
  match buf w with None => 0 | Some b => num b end.

(** [msg_buffer_init], when [malloc] gives a block. *)
Definition msg_buffer_init (w : world) : world := w <| buf := Some (mkBuf 0 0 0) |>.

Section Malloc.
Context (malloc_elm : gmap Z tmsg_element -> Z).
Context (malloc_dt : gmap Z (list Z) -> Z -> Z).

(** [send_msg_to_buffer_ex].  [str] holds the bytes at the pointer, [None] for the
    null pointer; reading past them gives [None].  [malloc] takes a [size_t]. *)
Definition send_msg_to_buffer_ex (m e s0 s1 : Z) (str : option (list Z)) (len : Z)
    (w : world) : option (bool * world) :=
  let elm := malloc_elm (elms w) in
  if elm =? 0 then Some (false, w)
  else
    let len := if TMSG_MAX_LEN <? len then TMSG_MAX_LEN else len in
    let el := mkElm 0 m e s0 s1 len 0 in
    let w := w <| elms := <[elm := el]> (elms w) |> in
    match str with
    | None => put_msg_to_buffer elm w
    | Some bytes =>
        let d := malloc_dt (blocks w) (u32 len) in
        if d =? 0 then
          w ← free_tmsg_element elm w;
          Some (false, w)
        else if u32 len <=? zlen bytes then
          let w := w <| blocks := <[d := bsub bytes 0 (u32 len)]> (blocks w) |> in
          let w := w <| elms := <[elm := el <| dt := d |>]> (elms w) |> in
          put_msg_to_buffer elm w
        else None
    end.

(** [send_msg_to_buffer] is the same code with both sub-codes 0. *)
Definition send_msg_to_buffer (m e : Z) (str : option (list Z)) (len : Z) (w : world)
  : option (bool * world) :=
  let elm := malloc_elm (elms w) in
  if elm =? 0 then Some (false, w)
  else
    let len := if TMSG_MAX_LEN <? len then TMSG_MAX_LEN else len in
    let el := mkElm 0 m e 0 0 len 0 in
    let w := w <| elms := <[elm := el]> (elms w) |> in
    match str with
    | None => put_msg_to_buffer elm w
    | Some bytes =>
        let d := malloc_dt (blocks w) (u32 len) in
        if d =? 0 then
          w ← free_tmsg_element elm w;
          Some (false, w)
        else if u32 len <=? zlen bytes then
          let w := w <| blocks := <[d := bsub bytes 0 (u32 len)]> (blocks w) |> in
          let w := w <| elms := <[elm := el <| dt := d |>]> (elms w) |> in
          put_msg_to_buffer elm w
        else None
    end.

(** [dup_msg_element]: a shallow copy; the data block is shared. *)
Definition dup_msg_element (p : Z) (w : world) : option (Z * world) :=
  if p =? 0 then Some (0, w)
  else
    let q := malloc_elm (elms w) in
    if q =? 0 then Some (0, w)
    else
      e ← elms w !! p;
      Some (q, w <| elms := <[q := e]> (elms w) |>).
End Malloc.

(** ** Threads

    Every operation runs under the mutex of the buffer, so threads interleave at
    whole operations.  A consumer in [get_msg_from_buffer] is outside, waits for
    the condition ([waiting]), or has been woken and is to test again ([woken]).  A
    signal wakes one waiting thread, which one is not specified; a waiting thread
    may also wake up spuriously. *)

Record conc : Type := mkConc {
  mem : world;
  waiting : list nat;
  woken : list nat;
  received : list (nat * Z)
}.

(** A thread runs [get_msg_from_buffer] up to its return or its next wait. *)
Definition consumer_run (t : nat) (c : conc) : option conc :=
  r ← get_msg_from_buffer (mem c);
  Some (match r with
        | Waits => c <| waiting := t :: waiting c |>
        | Returns elm w => c <| mem := w |> <| received := received c ++ [(t, elm)] |>
        end).

Definition wake (t : nat) (c : conc) : conc :=
  c <| waiting := filter (fun x => x <> t) (waiting c) |> <| woken := t :: woken c |>.

(** ** What a buffer contains *)

(** An element without its link. *)
Definition strip (e : tmsg_element) : tmsg_element := e <| next := 0 |>.

(** The messages at [ps], oldest first, are in the buffer. *)
Record mq_rep (w : world) (ps : list Z) : Prop := {
  mr_buf : buf w = Some (mkBuf (List.hd 0 ps) (List.last ps 0) (zlen ps));
  mr_chain : chain next (elms w) (List.hd 0 ps) ps;
  mr_max : zlen ps <= INT_MAX
}.

(** A message in memory: its address, its fields and its data. *)
Record item : Type := mkItem { i_p : Z; i_e : tmsg_element; i_data : option (list Z) }.

Definition item_ok (w : world) (i : item) : Prop :=
  strip <$> elms w !! i_p i = Some (i_e i) /\
  match i_data i with
  | None => dt (i_e i) = 0
  | Some d => dt (i_e i) <> 0 /\ blocks w !! dt (i_e i) = Some d
  end.

Definition dts (l : list item) : list Z :=
  omap (fun i => match i_data i with Some _ => Some (dt (i_e i)) | None => None end) l.

(** The buffer of [w] holds the items [l], and owns them: apart from them [w] has
    the blocks of [base]. *)
Record inv (base w : world) (l : list item) : Prop := {
  iv_rep : mq_rep w (i_p <$> l);
  iv_items : Forall (item_ok w) l;
  iv_dts : NoDup (dts l);
  iv_elms : forall p, p ∉ i_p <$> l -> elms w !! p = elms base !! p;
  iv_elms_new : forall p, p ∈ i_p <$> l -> elms base !! p = None;
  iv_blocks : forall d, d ∉ dts l -> blocks w !! d = blocks base !! d;
  iv_blocks_new : forall d, d ∈ dts l -> blocks base !! d = None
}.

Lemma INT_MAX_eq : INT_MAX = 2147483647.
Proof. reflexivity. Qed.

Lemma s32_count z : -1 <= z <= INT_MAX -> s32 z = z.
Proof. intros. apply s32_small. rewrite INT_MAX_eq in *. lia. Qed.

Lemma put_rep w ps p e :
  mq_rep w ps -> elms w !! p = Some e -> p <> 0 -> p ∉ ps -> zlen ps < INT_MAX ->
  exists w', put_msg_to_buffer p w = Some (bool_decide (ps = []), w') /\
    mq_rep w' (ps ++ [p]) /\ blocks w' = blocks w /\
    (forall q, strip <$> elms w' !! q = strip <$> elms w !! q) /\
    (forall q, q ∉ ps -> q <> p -> elms w' !! q = elms w !! q).
Proof.
  intros [Hb Hc Hm] He Hp Hps Hlt. unfold put_msg_to_buffer. rewrite Hb.
  destruct (Z.eqb_spec p 0) as [|_]; [done|]. rewrite He. cbn [mbind option_bind].
  set (w1 := if negb (next e =? 0) then _ else w).
  assert (H1 : elms w1 = <[p := strip e]> (elms w) /\ blocks w1 = blocks w).
  { subst w1. destruct (Z.eqb_spec (next e) 0) as [E|]; cbn [negb]; [|by destruct w].
    split; [|done]. symmetry. apply insert_id. rewrite He. f_equal. destruct e. cbn in *. by subst. }
  destruct H1 as [H1 H1b]. clearbody w1.
  assert (Hs1 : forall q, strip <$> elms w1 !! q = strip <$> elms w !! q).
  { intros q. rewrite H1. destruct (decide (q = p)) as [->|].
    - rewrite lookup_insert_eq, He. by destruct e.
    - by rewrite lookup_insert_ne. }
  assert (Hs2 : forall q, q <> p -> elms w1 !! q = elms w !! q).
  { intros q ?. rewrite H1. by rewrite lookup_insert_ne. }
  destruct (last_snoc_cases ps 0) as [[-> _]|(ps0 & y & -> & _)].
  - cbn. eexists. split; [done|]. destruct w1; cbn in *; subst. split; [|split; [done|split; [done|intros; by apply Hs2]]].
    constructor; cbn; [done| |lia].
    split; [done|]. split; [done|]. exists (strip e). split; [apply lookup_insert_eq|by destruct e].
  - assert (Hnum : 0 < zlen (ps0 ++ [y])) by (rewrite length_app; simpl; lia).
    cbn [first last num]. replace (0 =? zlen (ps0 ++ [y])) with false by lia.
    rewrite andb_false_r, last_last, bool_decide_eq_false_2 by (by destruct ps0).
    destruct (seg_lookup _ _ _ _ _ y Hc) as [ly Hy]; [set_solver|].
    assert (Hyp : y <> p) by set_solver.
    rewrite H1, lookup_insert_ne, Hy by done. cbn [mbind option_bind].
    eexists. split; [done|]. destruct w1 as [b1 els1 bl1]. cbn in *. subst els1 bl1.
    pose proof (chain_NoDup _ _ _ _ Hc) as (_ & Hd & _)%NoDup_app.
    split; [|split; [done|]].
    + rewrite <- (assoc_L (++)). constructor; cbn.
      * change [y; p] with ([y] ++ [p]).
        rewrite (assoc_L (++)), last_last, (length_app _ [p]), s32_count by lia. cbn [length].
        f_equal. f_equal; [by destruct ps0|lia].
      * replace (List.hd 0 (ps0 ++ [y; p])) with (List.hd 0 (ps0 ++ [y])) by (by destruct ps0).
        apply (chain_relink next (elms w) _ _ _ _ [] (ly <| next := p |>)); [done|..].
        -- intros z Hz. rewrite !lookup_insert_ne; [done|set_solver..].
        -- apply lookup_insert_eq.
        -- destruct ly. cbn. split; [done|]. split; [done|]. exists (strip e).
           rewrite lookup_insert_ne, lookup_insert_eq by done. split; [done|]. by destruct e.
      * change [y; p] with ([y] ++ [p]). rewrite (assoc_L (++)), (length_app _ [p]).
        simpl length at 2. lia.
    + split.
      * intros q. rewrite <- Hs1. destruct (decide (q = y)) as [->|].
        -- rewrite lookup_insert_eq, lookup_insert_ne, Hy by done. by destruct ly.
        -- by rewrite lookup_insert_ne.
      * intros q Hq ?. rewrite <- Hs2, lookup_insert_ne by set_solver. done.
Qed.

(** Taking the first message. *)
Lemma take_rep w p ps :
  mq_rep w (p :: ps) ->
  exists b w', buf w = Some b /\ 0 < num b /\ take_first b w = Some (p, w') /\ mq_rep w' ps /\
    elms w' = elms w /\ blocks w' = blocks w.
Proof.
  intros [Hb Hc Hm]. rewrite Hb. unfold take_first.
  destruct ps as [|q ps].
  - eexists _, _. split; [done|]. cbn. split; [lia|]. split; [done|]. destruct w; cbn in *. split; [|done]. constructor; cbn; [done..|].
    rewrite INT_MAX_eq. lia.
  - destruct Hc as (_ & ? & e & He & Hc). eexists _, _. split; [done|].
    cbn [first num List.hd]. split; [cbn [length]; lia|].
    replace (1 =? zlen (p :: q :: ps)) with false by (symmetry; apply Z.eqb_neq; cbn [length]; lia).
    rewrite He. cbn [mbind option_bind]. split; [done|]. destruct w; cbn in *. split; [|done]. pose proof Hc as (E & _). rewrite E in Hc |- *.
    constructor; cbn; [|done|lia]. rewrite s32_count by lia. do 2 f_equal. lia.
Qed.

Lemma free_elm_spec w p e :
  p <> 0 -> elms w !! p = Some e -> (dt e <> 0 -> is_Some (blocks w !! dt e)) ->
  exists w', free_tmsg_element p w = Some w' /\ buf w' = buf w /\
    elms w' = delete p (elms w) /\
    blocks w' = if dt e =? 0 then blocks w else delete (dt e) (blocks w).
Proof.
  intros Hp He Hd. unfold free_tmsg_element. destruct (Z.eqb_spec p 0); [done|].
  rewrite He. cbn [mbind option_bind]. destruct (Z.eqb_spec (dt e) 0) as [E|E]; cbn [negb].
  - eexists. split; [done|]. by destruct w.
  - unfold free_block. destruct (Hd E) as [d ->]. cbn [mbind option_bind].
    eexists. split; [done|]. by destruct w.
Qed.

(** ** Messages *)

Record message : Type := mkMsg {
  m_msg : Z; m_ext : Z; m_sub0 : Z; m_sub1 : Z; m_len : Z; m_data : option (list Z)
}.

Definition element_message (e : tmsg_element) (data : option (list Z)) : message :=
  mkMsg (msg e) (ext e) (sub0 e) (sub1 e) (dt_len e) data.

Definition item_message (i : item) : message := element_message (i_e i) (i_data i).

(** A consumer that takes a message, reads it and frees it. *)
Definition receive (w : world) : option (message * world) :=
  r ← get_msg_from_buffer w;
  match r with
  | Waits => None
  | Returns p w =>
      e ← elms w !! p;
      data ← (if dt e =? 0 then Some None else d ← blocks w !! dt e; Some (Some d));
      w ← free_tmsg_element p w;
      Some (element_message e data, w)
  end.

Lemma item_elm w i : item_ok w i ->
  exists e, elms w !! i_p i = Some e /\ strip e = i_e i /\ dt e = dt (i_e i) /\
    forall d, element_message e d = element_message (i_e i) d.
Proof.
  intros [H _]. destruct (elms w !! i_p i) as [e|]; [|done]. cbn in H. injection H as <-.
  exists e. by destruct e.
Qed.

(** What an item needs is its own element and its own data block. *)
Lemma item_frame w w' i :
  item_ok w i -> strip <$> elms w' !! i_p i = strip <$> elms w !! i_p i ->
  (forall d, i_data i = Some d -> blocks w' !! dt (i_e i) = blocks w !! dt (i_e i)) ->
  item_ok w' i.
Proof.
  intros [H1 H2] He Hb. split; [by rewrite He|].
  destruct (i_data i) as [d|]; [|done]. rewrite (Hb d); done.
Qed.

Lemma dts_app l1 l2 : dts (l1 ++ l2) = dts l1 ++ dts l2.
Proof. apply omap_app. Qed.

Lemma elem_dts i d l : i ∈ l -> i_data i = Some d -> dt (i_e i) ∈ dts l.
Proof. intros Hi Hd. apply list_elem_of_omap. exists i. by rewrite Hd. Qed.

Lemma dts_alloc w l d : Forall (item_ok w) l -> d ∈ dts l -> is_Some (blocks w !! d).
Proof.
  intros Hl (j & Hj & Hjd)%list_elem_of_omap. rewrite Forall_forall in Hl.
  destruct (Hl j Hj) as [_ Hjo]. destruct (i_data j); [|done]. injection Hjd as <-.
  destruct Hjo as [_ ->]. eauto.
Qed.

(** Releasing the first of the items [i :: l], which is no longer in the buffer. *)
Lemma free_item base w w1 i l :
  inv base w (i :: l) -> elms w1 = elms w -> blocks w1 = blocks w -> mq_rep w1 (i_p <$> l) ->
  exists w', free_tmsg_element (i_p i) w1 = Some w' /\ inv base w' l.
Proof.
  intros [Hr Hi Hd He Hen Hb Hbn] E1 E2 Hr1. rewrite fmap_cons in *.
  pose proof (chain_NoDup _ _ _ _ (mr_chain _ _ Hr)) as [Hp Hnd]%NoDup_cons.
  apply Forall_cons in Hi as [Hi Hl].
  destruct (item_elm _ _ Hi) as (e & Hel & Hse & Hdt & _).
  assert (Hp0 : i_p i <> 0) by (eapply seg_nonzero; [apply (mr_chain _ _ Hr)|by left]).
  destruct (free_elm_spec w1 (i_p i) e Hp0) as (w' & E & Hbuf & Hels & Hbl); [by rewrite E1|..].
  { rewrite E2, Hdt. destruct Hi as [_ Hi]. destruct (i_data i) as [d|]; [|done].
    destruct Hi as [_ ->]. eauto. }
  exists w'. split; [done|]. rewrite E1 in Hels. rewrite E2, Hdt in Hbl.
  assert (Hown : forall j d, j ∈ l -> i_data j = Some d ->
            blocks w' !! dt (i_e j) = blocks w !! dt (i_e j)).
  { intros j d Hj Hjd. rewrite Hbl. destruct (Z.eqb_spec (dt (i_e i)) 0); [done|].
    rewrite lookup_delete_ne; [done|]. intros Eq. destruct Hi as [_ Hi].
    unfold dts in Hd. cbn in Hd. destruct (i_data i); [|done]. apply NoDup_cons in Hd as [Hd _].
    apply Hd. rewrite Eq. by eapply elem_dts. }
  constructor.
  - destruct Hr1 as [B C M]. constructor; [congruence| |done].
    rewrite Hels. apply seg_delete_other; [done|]. by rewrite <- E1.
  - rewrite Forall_forall in Hl |- *. intros j Hj. eapply item_frame; [by apply Hl| |].
    + rewrite Hels, lookup_delete_ne; [done|]. intros Eq. apply Hp. rewrite Eq.
      apply list_elem_of_fmap. eauto.
    + intros d Hjd. by eapply Hown.
  - unfold dts in *. cbn in Hd. destruct (i_data i); [by apply NoDup_cons in Hd as [_ ?]|done].
  - intros p Hpl. rewrite Hels. destruct (decide (p = i_p i)) as [->|].
    + rewrite lookup_delete_eq, Hen; [done|by left].
    + rewrite lookup_delete_ne by done. apply He. set_solver.
  - intros p Hpl. apply Hen. by right.
  - intros d Hdl. rewrite Hbl. destruct Hi as [_ Hi]. unfold dts in *. cbn in *.
    destruct (i_data i) as [di|].
    + destruct Hi as [Hnz _]. destruct (Z.eqb_spec (dt (i_e i)) 0); [done|].
      destruct (decide (d = dt (i_e i))) as [->|].
      * rewrite lookup_delete_eq, Hbn; [done|by left].
      * rewrite lookup_delete_ne by done. apply Hb. set_solver.
    + rewrite Hi. cbn. by apply Hb.
  - intros d Hdl. apply Hbn. unfold dts in *. cbn. destruct (i_data i); [by right|done].
Qed.

Lemma receive_inv base w i l :
  inv base w (i :: l) ->
  exists w', receive w = Some (item_message i, w') /\ inv base w' l.
Proof.
  intros Hinv. pose proof (iv_rep _ _ _ Hinv) as Hr. rewrite fmap_cons in Hr.
  destruct (take_rep _ _ _ Hr) as (b & w1 & Hb & Hn & Ht & Hr1 & E1 & E2).
  destruct (free_item base w w1 i l Hinv E1 E2 Hr1) as (w' & Hf & Hinv').
  exists w'. split; [|done]. unfold receive, get_msg_from_buffer. rewrite Hb.
  destruct (Z.eqb_spec 0 (num b)); [lia|]. rewrite Ht. cbn [mbind option_bind].
  pose proof (iv_items _ _ _ Hinv) as [Hi _]%Forall_cons.
  destruct (item_elm _ _ Hi) as (e & He & _ & Hdt & Hmsg). rewrite E1, He. cbn [mbind option_bind].
  rewrite E2, Hdt. destruct Hi as [_ Hi]. unfold item_message.
  destruct (i_data i) as [d|].
  - destruct Hi as [Hnz ->]. destruct (Z.eqb_spec (dt (i_e i)) 0); [done|].
    cbn [mbind option_bind]. rewrite Hf. cbn. by rewrite Hmsg.
  - rewrite Hi. cbn. rewrite Hf. cbn. by rewrite Hmsg.
Qed.

(** Appending a new element, with its data block if it has one, to the buffer. *)
Lemma put_item base w w1 l i e :
  inv base w l -> i_p i <> 0 -> elms w !! i_p i = None -> zlen l < INT_MAX ->
  strip e = i_e i ->
  buf w1 = buf w -> elms w1 = <[i_p i := e]> (elms w) ->
  match i_data i with
  | None => dt (i_e i) = 0 /\ blocks w1 = blocks w
  | Some d => dt (i_e i) <> 0 /\ blocks w !! dt (i_e i) = None /\
              blocks w1 = <[dt (i_e i) := d]> (blocks w)
  end ->
  exists w', put_msg_to_buffer (i_p i) w1 = Some (bool_decide (l = []), w') /\
    inv base w' (l ++ [i]).
Proof.
  intros [Hr Hi Hd He Hen Hb Hbn] Hp Hnew Hlen Hse Hbuf Hels Hdata.
  assert (Hpl : i_p i ∉ i_p <$> l).
  { intros Hin. destruct (seg_lookup _ _ _ _ _ _ (mr_chain _ _ Hr) Hin). by simplify_eq. }
  assert (Hr1 : mq_rep w1 (i_p <$> l)).
  { destruct Hr as [B C M]. constructor; [congruence| |done]. rewrite Hels.
    by apply seg_insert_other. }
  destruct (put_rep w1 (i_p <$> l) (i_p i) e Hr1) as (w' & E & Hr' & Hb' & Hs' & Hf'); try done.
  { rewrite Hels. apply lookup_insert_eq. } { by rewrite length_fmap. }
  assert (Hold : forall d, d ∈ dts l -> blocks w1 !! d = blocks w !! d).
  { intros d Hdl. destruct (i_data i); [|by destruct Hdata as [_ ->]].
    destruct Hdata as (_ & Hn & ->). rewrite lookup_insert_ne; [done|]. intros <-.
    destruct (dts_alloc _ _ _ Hi Hdl). congruence. }
  exists w'. split.
  { rewrite E. do 2 f_equal. apply bool_decide_ext. by destruct l. }
  assert (Ed : dts (l ++ [i]) = dts l ++ match i_data i with Some _ => [dt (i_e i)] | None => [] end).
  { rewrite dts_app. f_equal. unfold dts. cbn. by destruct (i_data i). }
  constructor.
  - by rewrite fmap_app.
  - apply Forall_app. split.
    + rewrite Forall_forall in Hi |- *. intros j Hj. eapply item_frame; [by apply Hi| |].
      * rewrite Hs', Hels, lookup_insert_ne; [done|]. intros Eq. apply Hpl. rewrite Eq.
        apply list_elem_of_fmap. eauto.
      * intros d Hjd. rewrite Hb'. apply Hold. by eapply elem_dts.
    + constructor; [|constructor]. split.
      * rewrite Hs', Hels, lookup_insert_eq. cbn. by rewrite Hse.
      * rewrite Hb'. destruct (i_data i) as [d|]; [|tauto].
        destruct Hdata as (? & _ & ->). split; [done|]. apply lookup_insert_eq.
  - rewrite Ed. apply NoDup_app. split; [done|]. destruct (i_data i) as [d|].
    + split; [|apply NoDup_singleton]. intros d' Hd' ->%list_elem_of_singleton.
      destruct Hdata as (_ & Hn & _).
      destruct (dts_alloc _ _ _ Hi Hd'). congruence.
    + split; [by intros ? ? ?%elem_of_nil|constructor].
  - intros p Hpn. rewrite fmap_app in Hpn. assert (p <> i_p i) by set_solver.
    rewrite Hf', Hels, lookup_insert_ne by set_solver. apply He. set_solver.
  - intros p Hpin. rewrite fmap_app in Hpin. apply elem_of_app in Hpin as [?|?]; [by apply Hen|].
    assert (p = i_p i) as -> by set_solver. rewrite <- He; done.
  - intros d Hdn. rewrite Ed in Hdn. rewrite Hb'. destruct (i_data i) as [di|].
    + destruct Hdata as (_ & _ & ->). rewrite lookup_insert_ne by set_solver. apply Hb. set_solver.
    + destruct Hdata as [_ ->]. apply Hb. set_solver.
  - intros d Hdn. rewrite Ed in Hdn. apply elem_of_app in Hdn as [?|Hdn]; [by apply Hbn|].
    destruct (i_data i) as [di|]; [|by apply elem_of_nil in Hdn].
    apply list_elem_of_singleton in Hdn as ->. destruct Hdata as (_ & Hn & _).
    rewrite <- Hb; [done|]. intros Hd'.
    destruct (dts_alloc _ _ _ Hi Hd'). congruence.
Qed.

(** The arguments of a send: the codes, the bytes at [str], the length. *)
Record send_args : Type := mkSend {
  s_msg : Z; s_ext : Z; s_sub0 : Z; s_sub1 : Z; s_str : option (list Z); s_len : Z
}.

(** What is delivered: lengths above the limit are cut to it. *)
Definition sent_message (a : send_args) : message :=
  let len := Z.min (s_len a) TMSG_MAX_LEN in
  mkMsg (s_msg a) (s_ext a) (s_sub0 a) (s_sub1 a) len ((fun b => bsub b 0 len) <$> s_str a).

(** The caller's contract: a length that is not negative and as many bytes at
    [str], up to the limit. *)
Definition send_ok (a : send_args) : Prop :=
  0 <= s_len a /\
  match s_str a with Some b => Z.min (s_len a) TMSG_MAX_LEN <= zlen b | None => True end.

Section SendSpec.
Context (malloc_elm : gmap Z tmsg_element -> Z).
Context (malloc_dt : gmap Z (list Z) -> Z -> Z).
(** [malloc] gives the null pointer or a block that is not in use. *)
Hypothesis malloc_elm_spec : forall h, malloc_elm h = 0 \/ h !! malloc_elm h = None.
Hypothesis malloc_dt_spec : forall h n, malloc_dt h n = 0 \/ h !! malloc_dt h n = None.

Definition send_one (a : send_args) : world -> option (bool * world) :=
  send_msg_to_buffer_ex malloc_elm malloc_dt (s_msg a) (s_ext a) (s_sub0 a) (s_sub1 a)
    (s_str a) (s_len a).

(** Memory is available for this send. *)
Definition has_memory (w : world) (a : send_args) : Prop :=
  malloc_elm (elms w) <> 0 /\
  forall n, s_str a <> None -> malloc_dt (blocks w) n <> 0.

Lemma send_inv base w l a :
  inv base w l -> send_ok a -> zlen l < INT_MAX ->
  exists sig w' , send_one a w = Some (sig, w') /\
    ((sig = false /\ inv base w' l /\ ~ has_memory w a) \/
     exists i, inv base w' (l ++ [i]) /\ item_message i = sent_message a).
Proof using malloc_elm_spec malloc_dt_spec.
  intros Hinv [Hlen0 Hstr] Hmax. unfold send_one, send_msg_to_buffer_ex.
  destruct a as [ms ex s0 s1 str len]. cbn [s_msg s_ext s_sub0 s_sub1 s_str s_len] in *.
  set (p := malloc_elm (elms w)). destruct (Z.eqb_spec p 0) as [E|Hp].
  { exists false, w. split; [done|]. left. split; [done|]. split; [done|]. by intros [? _]. }
  destruct (malloc_elm_spec (elms w)) as [?|Hnew]; [done|]. fold p in Hnew.
  assert (Elen : (if TMSG_MAX_LEN <? len then TMSG_MAX_LEN else len) = Z.min len TMSG_MAX_LEN)
    by (destruct (Z.ltb_spec TMSG_MAX_LEN len); lia).
  rewrite Elen. set (len' := Z.min len TMSG_MAX_LEN) in *.
  assert (Hl' : 0 <= len' <= TMSG_MAX_LEN) by (subst len'; unfold TMSG_MAX_LEN; lia).
  set (el := mkElm 0 ms ex s0 s1 len' 0).
  set (w1 := w <| elms := <[p := el]> (elms w) |>).
  assert (E1 : buf w1 = buf w /\ elms w1 = <[p:=el]> (elms w) /\ blocks w1 = blocks w)
    by (by destruct w).
  destruct E1 as (B1 & L1 & D1). destruct str as [b|].
  - set (d := malloc_dt (blocks w1) (u32 len')).
    assert (El' : u32 len' = len') by (apply uwrap_small; unfold TMSG_MAX_LEN in *; lia).
    destruct (Z.eqb_spec d 0) as [Ed|Hd].
    + (* no memory for the data: the element is freed again *)
      destruct (free_elm_spec w1 p el Hp) as (w' & -> & Hb & Hels & Hbl);
        [rewrite L1; apply lookup_insert_eq|done|].
      cbn [mbind option_bind]. exists false, w'. split; [done|]. left. split; [done|]. split.
      * destruct Hinv as [[B C M] H2 H3 H4 H5 H6 H7].
        assert (Hels' : elms w' = elms w).
        { rewrite Hels, L1. by apply delete_insert_id. }
        cbn in Hbl. rewrite D1 in Hbl. constructor; try done.
        -- constructor; [congruence|by rewrite Hels'|done].
        -- rewrite Forall_forall in H2 |- *. intros i Hi.
           eapply item_frame; [by apply H2|by rewrite Hels'|intros; by rewrite Hbl].
        -- intros q Hq. rewrite Hels'. auto.
        -- intros q Hq. rewrite Hbl. auto.
      * intros [_ Hm]. eapply (Hm (u32 len')); [done|]. by rewrite <- D1.
    + rewrite El'. destruct (Z.leb_spec len' (zlen b)); [|lia].
      match goal with |- context [put_msg_to_buffer p ?x] => set (w2 := x) end.
      destruct (malloc_dt_spec (blocks w1) (u32 len')) as [?|Hdn]; [done|]. fold d in Hdn.
      set (i := mkItem p (el <| dt := d |>) (Some (bsub b 0 len'))).
      destruct (put_item base w w2 l i (el <| dt := d |>)) as (w' & Ew & Hinv'); try done.
      * by destruct w.
      * destruct w. cbn. by rewrite insert_insert_eq.
      * cbn. split; [done|]. split; [by rewrite D1 in Hdn|]. by destruct w.
      * eexists _, w'. split; [exact Ew|]. right. exists i. split; [done|]. done.
  - set (i := mkItem p el None).
    destruct (put_item base w w1 l i el) as (w' & Ew & Hinv'); try done.
    eexists _, w'. split; [exact Ew|]. right. exists i. split; [done|]. done.
Qed.

Fixpoint send_all (l : list send_args) (w : world) : option world :=
  match l with
  | [] => Some w
  | a :: l => '(_, w) ← send_one a w; send_all l w
  end.

Fixpoint receive_all (n : nat) (w : world) : option (list message * world) :=
  match n with
  | O => Some ([], w)
  | S n => '(x, w) ← receive w; '(xs, w) ← receive_all n w; Some (x :: xs, w)
  end.

Hypothesis memory : forall h, malloc_elm h <> 0.
Hypothesis memory_dt : forall h n, malloc_dt h n <> 0.

Lemma send_all_inv base args : forall w l,
  inv base w l -> Forall send_ok args -> zlen l + zlen args <= INT_MAX ->
  exists w' l', send_all args w = Some w' /\ inv base w' (l ++ l') /\
    item_message <$> l' = sent_message <$> args.
Proof using All.
  induction args as [|a args IH]; intros w l Hinv Hok Hm; cbn [send_all].
  - exists w, []. rewrite app_nil_r. done.
  - apply Forall_cons in Hok as [Ha Hok]. cbn [length] in Hm.
    destruct (send_inv base w l a Hinv Ha) as (sig & w1 & -> & [(_ & _ & Hno)|(i & Hi & Em)]);
      [lia| |].
    + destruct Hno. split; auto.
    + cbn [mbind option_bind]. destruct (IH w1 (l ++ [i]) Hi Hok) as (w' & l' & -> & Hinv' & Em').
      { rewrite length_app. cbn [length]. lia. }
      exists w', (i :: l'). split; [done|]. rewrite <- (assoc_L (++)) in Hinv'.
      split; [done|]. rewrite !fmap_cons. by rewrite Em, Em'.
Qed.

Lemma receive_all_inv base l : forall w,
  inv base w l ->
  exists w', receive_all (length l) w = Some (item_message <$> l, w') /\ inv base w' [].
Proof.
  induction l as [|i l IH]; intros w Hinv; cbn [length receive_all].
  - by exists w.
  - destruct (receive_inv _ _ _ _ Hinv) as (w1 & -> & Hinv1). cbn [mbind option_bind].
    destruct (IH w1 Hinv1) as (w' & -> & Hinv'). exists w'. done.
Qed.

Lemma init_inv w : inv w (msg_buffer_init w) [].
Proof.
  destruct w as [b e bl]. constructor; try done.
  - change (dts []) with (@nil Z). constructor.
  - by intros p ?%elem_of_nil.
  - by intros d ?%elem_of_nil.
Qed.

(** Round trip: any list of messages sent into a fresh buffer
    ([send_msg_to_buffer_ex]) while memory lasts is received in the same order,
    each message with its codes and its bytes, cut to 4096 bytes when it is longer;
    when all are received and freed the stores are exactly what they were before,
    so nothing leaks and nothing is freed twice. *)
Theorem send_receive_roundtrip args w :
  Forall send_ok args -> zlen args <= INT_MAX ->
  exists w1 w2, send_all args (msg_buffer_init w) = Some w1 /\
    get_msg_num w1 = zlen args /\
    receive_all (length args) w1 = Some (sent_message <$> args, w2) /\
    get_msg_num w2 = 0 /\ elms w2 = elms w /\ blocks w2 = blocks w.
Proof using All.
  intros Hok Hm.
  destruct (send_all_inv w args _ [] (init_inv w) Hok) as (w1 & l & E1 & Hinv & Em); [done|].
  cbn [app] in Hinv. destruct (receive_all_inv _ _ _ Hinv) as (w2 & E2 & Hinv2).
  assert (Hl : length l = length args).
  { apply (f_equal length) in Em. by rewrite !length_fmap in Em. }
  exists w1, w2. split; [done|]. split; [|split; [by rewrite <- Hl, <- Em|]].
  - unfold get_msg_num. rewrite (mr_buf _ _ (iv_rep _ _ _ Hinv)). cbn [num].
    by rewrite length_fmap, Hl.
  - unfold get_msg_num. rewrite (mr_buf _ _ (iv_rep _ _ _ Hinv2)). split; [done|].
    split; apply map_eq; intros p.
    + apply (iv_elms _ _ _ Hinv2). by apply not_elem_of_nil.
    + apply (iv_blocks _ _ _ Hinv2). by apply not_elem_of_nil.
Qed.
End SendSpec.

(** ** Clearing and disposing *)

Lemma free_set_buf p b w :
  free_tmsg_element p (w <| buf := b |>) = (fun w' => w' <| buf := b |>) <$> free_tmsg_element p w.
Proof.
  unfold free_tmsg_element. destruct (p =? 0); [done|]. destruct w as [b0 es bl]. cbn.
  destruct (es !! p) as [e|]; [|done]. cbn. destruct (negb (dt e =? 0)); [|done].
  unfold free_block. cbn. by destruct (bl !! dt e).
Qed.

Lemma clear_loop_inv base l : forall i fuel w b,
  inv base (w <| buf := Some b |>) (l ++ [i]) -> (length l < fuel)%nat ->
  exists w', clear_loop fuel b (List.hd 0 (i_p <$> (l ++ [i]))) w = Some (i_p i, w') /\
    inv base w' [i].
Proof.
  induction l as [|j l IH]; intros i fuel w b Hinv Hf; (destruct fuel as [|fuel]; [lia|]);
    pose proof (iv_rep _ _ _ Hinv) as [Hb Hc Hm]; cbn [clear_loop];
    pose proof (chain_NoDup _ _ _ _ Hc) as Hnd;
    (assert (Eb : buf (w <| buf := Some b |>) = Some b) by (by destruct w)); rewrite Eb in Hb;
    apply (inj Some) in Hb.
  - cbn in Hb. subst b. cbn [app fmap list_fmap List.hd last first num] in *.
    assert (i_p i <> 0) by (by destruct Hc as (_ & ? & _)).
    destruct (Z.eqb_spec (i_p i) 0); [done|]. rewrite Z.eqb_refl. cbn.
    eexists. split; [done|]. done.
  - cbn [app] in *. rewrite fmap_cons in *. cbn [List.hd] in *.
    destruct Hc as (_ & Hj0 & e & He & Hc).
    destruct (Z.eqb_spec (i_p j) 0); [done|].
    assert (Hlast : last b = i_p i).
    { rewrite Hb. unfold last. change (i_p j :: (i_p <$> l ++ [i])) with (i_p <$> ((j :: l) ++ [i])).
      rewrite fmap_app. apply last_last. }
    apply NoDup_cons in Hnd as [Hjn _].
    destruct (Z.eqb_spec (i_p j) (last b)) as [E|E].
    { destruct Hjn. rewrite E, Hlast, fmap_app. set_solver. }
    assert (He' : elms w !! i_p j = Some e) by (by destruct w).
    rewrite He'. cbn [mbind option_bind].
    assert (Hn : next e = List.hd 0 (i_p <$> l ++ [i])).
    { destruct l; cbn in Hc; by destruct Hc as (-> & _). }
    set (b' := (b <| num := s32 (num b - 1) |>) <| first := next e |>).
    assert (Eb' : b' = mkBuf (List.hd 0 (i_p <$> l ++ [i])) (List.last (i_p <$> l ++ [i]) 0)
                             (zlen (i_p <$> l ++ [i]))).
    { subst b'. transitivity (mkBuf (next e) (last b) (s32 (num b - 1))); [by destruct b|].
      f_equal; [done| |].
      - rewrite Hlast, fmap_app. symmetry. apply last_last.
      - rewrite Hb. cbn [num length]. cbn [length] in Hm. rewrite s32_count by lia. lia. }
    destruct (free_item base (w <| buf := Some b |>) (w <| buf := Some b' |>) j (l ++ [i]))
      as (w2 & E2 & Hinv2); [done|by destruct w|by destruct w| |].
    { constructor; [rewrite <- Eb'; by destruct w| |cbn [length] in Hm; lia].
      rewrite <- Hn. by destruct w. }
    rewrite free_set_buf in E2. apply fmap_Some in E2 as (w3 & -> & ->). cbn [mbind option_bind].
    cbn [length] in Hf. rewrite Hn. apply IH; [exact Hinv2|lia].
Qed.

Lemma clear_inv base w l i :
  inv base w (l ++ [i]) -> exists w', clear_msg_buffer w = Some (i_p i, w') /\ inv base w' [i].
Proof.
  intros Hinv. pose proof (iv_rep _ _ _ Hinv) as [Hb Hc _]. unfold clear_msg_buffer. rewrite Hb.
  cbn [num first]. destruct (Z.ltb_spec 0 (zlen (i_p <$> l ++ [i]))) as [_|Hl].
  - apply clear_loop_inv; [by rewrite <- Hb; destruct w|].
    apply chain_size in Hc. rewrite length_fmap, length_app in Hc. simpl in Hc. lia.
  - rewrite length_fmap, length_app in Hl. simpl in Hl. lia.
Qed.

(** [clear_msg_buffer] terminates; it frees every message but the newest, with
    its data, and leaves that one as the only message of the buffer; an empty buffer
    is left alone. *)
Theorem clear_msg_buffer_keeps_newest base w l :
  inv base w l ->
  match rev l with
  | [] => clear_msg_buffer w = Some (0, w)
  | i :: _ => exists w', clear_msg_buffer w = Some (i_p i, w') /\ inv base w' [i]
  end.
Proof.
  intros Hinv. destruct (rev l) as [|i r] eqn:E.
  - apply (f_equal (@rev item)) in E. rewrite rev_involutive in E. cbn in E. subst l.
    pose proof (iv_rep _ _ _ Hinv) as [Hb _ _]. unfold clear_msg_buffer. by rewrite Hb.
  - apply (f_equal (@rev item)) in E. rewrite rev_involutive in E. cbn in E. subst l.
    by eapply clear_inv.
Qed.

(** [dispose_msg_buffer] terminates and frees every message and every data
    block of the buffer exactly once, and the buffer: the stores are those of
    [base], without the messages. *)
Theorem dispose_msg_buffer_frees_all base w l :
  inv base w l ->
  exists w', dispose_msg_buffer w = Some w' /\ buf w' = None /\
    elms w' = elms base /\ blocks w' = blocks base.
Proof.
  intros Hinv. pose proof (iv_rep _ _ _ Hinv) as [Hb Hc Hm].
  assert (Hend : forall w1, inv base w1 [] ->
    elms (w1 <| buf := None |>) = elms base /\ blocks (w1 <| buf := None |>) = blocks base).
  { intros w1 H1. split; apply map_eq; intros p.
    - rewrite <- (iv_elms _ _ _ H1) by apply not_elem_of_nil. by destruct w1.
    - rewrite <- (iv_blocks _ _ _ H1) by apply not_elem_of_nil. by destruct w1. }
  unfold dispose_msg_buffer. rewrite Hb. cbn [first last num].
  assert (Hcase : l = [] \/ exists l0 i, l = l0 ++ [i]).
  { destruct (rev l) as [|i r] eqn:E; apply (f_equal (@rev item)) in E;
      rewrite rev_involutive in E; cbn in E; eauto. }
  destruct Hcase as [->|(l0 & i & ->)].
  - cbn. eexists. split; [done|]. split; [by destruct w|]. by apply Hend.
  - assert (Hlast : List.last (i_p <$> l0 ++ [i]) 0 = i_p i) by (rewrite fmap_app; apply last_last).
    assert (Hfirst : exists w1, (if negb (List.hd 0 (i_p <$> l0 ++ [i]) =? List.last (i_p <$> l0 ++ [i]) 0)
          && (0 <? zlen (i_p <$> l0 ++ [i])) then clear_msg_buffer w
        else Some (List.last (i_p <$> l0 ++ [i]) 0, w)) = Some (i_p i, w1) /\ inv base w1 [i]).
    { rewrite Hlast. destruct (negb _ && _) eqn:E; [by eapply clear_inv|].
      exists w. split; [done|]. destruct l0 as [|j l0]; [done|]. exfalso.
      assert (Hz : (0 <? zlen (i_p <$> (j :: l0) ++ [i])) = true).
      { apply Z.ltb_lt. rewrite length_fmap. cbn [app length]. lia. }
      rewrite Hz, andb_true_r in E. apply negb_false_iff, Z.eqb_eq in E. cbn in E.
      apply chain_NoDup in Hc. cbn in Hc. apply NoDup_cons in Hc as [Hj _]. apply Hj.
      rewrite E. apply list_elem_of_fmap. exists i. split; [done|]. set_solver. }
    destruct Hfirst as (w1 & -> & Hinv1). cbn [mbind option_bind].
    pose proof (iv_rep _ _ _ Hinv1) as Hr1. destruct (mr_chain _ _ Hr1) as (_ & Hi0 & _).
    destruct (Z.eqb_spec (i_p i) 0); [done|]. cbn [negb].
    destruct (free_item base w1 (w1 <| buf := Some (mkBuf 0 0 0) |>) i [])
      as (w2 & E2 & Hinv2); [done|by destruct w1|by destruct w1| |].
    { destruct w1. constructor; cbn; [done..|]. rewrite INT_MAX_eq. lia. }
    rewrite free_set_buf in E2. apply fmap_Some in E2 as (w3 & -> & ->). cbn [mbind option_bind].
    eexists. split; [done|]. split; [by destruct w3|]. by apply Hend.
Qed.

(** ** The deadline *)

Lemma timeout_deadline_spec sec nsec block :
  0 <= nsec < 10 ^ 9 -> 0 <= block <= INT_MAX ->
  let '(s, n) := timeout_deadline sec nsec block in
  0 <= n < 10 ^ 9 /\ s * 10 ^ 9 + n = sec * 10 ^ 9 + nsec + block * 10 ^ 6.
Proof.
  intros Hn Hb. unfold timeout_deadline.
  rewrite Z.quot_div_nonneg, Z.rem_mod_nonneg by lia.
  pose proof (Z.mod_pos_bound block 1000 eq_refl) as Hm.
  pose proof (Z.div_mod block 1000 ltac:(done)) as Hd.
  rewrite (s32_small (block mod 1000 * 1000)) by lia.
  rewrite s32_small by lia. rewrite uwrap_small by (change (2 ^ 64) with 18446744073709551616; lia).
  destruct (Z.leb_spec (1000 * 1000 * 1000) (nsec + block mod 1000 * 1000 * 1000)); lia.
Qed.

(** [get_msg_from_buffer_timeout]: on a buffer that holds messages it returns
    the oldest one at once; on an empty one it waits until a normalised time exactly
    [block] milliseconds after the present (for every timeout that is not negative:
    the [int] products do not overflow), and if the buffer is still empty then it
    returns the null pointer. *)
Theorem get_timeout_correct w ps sec nsec block :
  mq_rep w ps -> 0 <= nsec < 10 ^ 9 -> 0 <= block <= INT_MAX ->
  match ps with
  | [] => get_timeout_end w = Some (0, w) /\
      exists s n, get_msg_from_buffer_timeout sec nsec block w = Some (WaitsUntil s n) /\
        0 <= n < 10 ^ 9 /\ s * 10 ^ 9 + n = sec * 10 ^ 9 + nsec + block * 10 ^ 6
  | p :: ps' => exists w', get_timeout_end w = Some (p, w') /\ mq_rep w' ps' /\
      get_msg_from_buffer_timeout sec nsec block w = Some (ReturnsNow p w')
  end.
Proof.
  intros Hr Hn Hb. unfold get_msg_from_buffer_timeout, get_timeout_end. destruct ps as [|p ps].
  - rewrite (mr_buf _ _ Hr). split; [done|]. cbn [num length Z.of_nat Z.eqb].
    pose proof (timeout_deadline_spec sec nsec block Hn Hb) as Hd.
    destruct (timeout_deadline sec nsec block) as [s n]. eauto.
  - destruct (take_rep _ _ _ Hr) as (b & w' & -> & Hnum & Ht & Hr' & _). exists w'.
    destruct (Z.ltb_spec 0 (num b)); [|lia]. destruct (Z.eqb_spec 0 (num b)); [lia|].
    rewrite Ht. done.
Qed.

(** ** Producers and consumers *)

(** What a producer may put: an allocated element that is not in the buffer. *)
Definition puttable (w : world) (elm : Z) : Prop :=
  exists ps, mq_rep w ps /\ elm <> 0 /\ elm ∉ ps /\ is_Some (elms w !! elm) /\ zlen ps < INT_MAX.

Inductive producer_step : conc -> conc -> Prop :=
  | step_put elm c w :
      puttable (mem c) elm -> put_msg_to_buffer elm (mem c) = Some (false, w) ->
      producer_step c (c <| mem := w |>)
  | step_put_signal elm c w t :
      puttable (mem c) elm -> put_msg_to_buffer elm (mem c) = Some (true, w) ->
      t ∈ waiting c -> producer_step c (wake t (c <| mem := w |>))
  | step_put_nobody elm c w :
      puttable (mem c) elm -> put_msg_to_buffer elm (mem c) = Some (true, w) ->
      waiting c = [] -> producer_step c (c <| mem := w |>).

Inductive mstep (consumers : list nat) : conc -> conc -> Prop :=
  | step_call t c c' :
      t ∈ consumers -> t ∉ waiting c -> t ∉ woken c ->
      consumer_run t c = Some c' -> mstep consumers c c'
  | step_resume t c c' :
      t ∈ woken c -> consumer_run t (c <| woken := filter (fun x => x <> t) (woken c) |>) = Some c' ->
      mstep consumers c c'
  | step_spurious t c :
      t ∈ waiting c -> mstep consumers c (wake t c)
  | step_producer c c' :
      producer_step c c' -> mstep consumers c c'.

Lemma mq_rep_unique w ps ps' : mq_rep w ps -> mq_rep w ps' -> ps = ps'.
Proof.
  intros [B C _] [B' C' _]. rewrite B in B'. injection B' as Eh _ _.
  rewrite <- Eh in C'. by eapply chain_inj.
Qed.

Lemma puttable_put w ps elm :
  mq_rep w ps -> puttable w elm ->
  exists w', put_msg_to_buffer elm w = Some (bool_decide (ps = []), w') /\ mq_rep w' (ps ++ [elm]) /\
    forall q, strip <$> elms w' !! q = strip <$> elms w !! q.
Proof.
  intros Hr (ps' & Hr' & H0 & Hin & [e He] & Hm).
  rewrite <- (mq_rep_unique _ _ _ Hr Hr') in *.
  destruct (put_rep w ps elm e Hr He H0 Hin Hm) as (w' & E & R & _ & S & _). eauto.
Qed.

(** What [get_msg_from_buffer] does on a well-formed buffer. *)
Lemma get_rep w ps :
  mq_rep w ps ->
  match ps with
  | [] => get_msg_from_buffer w = Some Waits
  | p :: ps' => exists w', get_msg_from_buffer w = Some (Returns p w') /\ mq_rep w' ps' /\
      elms w' = elms w
  end.
Proof.
  intros Hr. unfold get_msg_from_buffer. destruct ps as [|p ps].
  - by rewrite (mr_buf _ _ Hr).
  - destruct (take_rep _ _ _ Hr) as (b & w' & Hb & Hn & Ht & Hr' & He & _). rewrite Hb.
    destruct (Z.eqb_spec 0 (num b)); [lia|]. rewrite Ht. cbn. eauto.
Qed.

(** The only consumer [t] waits at most when the buffer is empty. *)
Record one_consumer (t : nat) (c : conc) : Prop := {
  oc_buffer : exists ps, mq_rep (mem c) ps /\ (ps <> [] -> waiting c = []);
  oc_only : forall x, x ∈ waiting c \/ x ∈ woken c -> x = t;
  oc_place : waiting c = [] \/ woken c = []
}.

Lemma filter_only t (l : list nat) : (forall x, x ∈ l -> x = t) -> filter (fun x => x <> t) l = [].
Proof.
  intros H. induction l as [|x l IH]; [done|].
  rewrite filter_cons_False by (intros Hx; apply Hx, H; by left). apply IH.
  intros y Hy. apply H. by right.
Qed.

Lemma run_one t c c' :
  waiting c = [] -> woken c = [] -> (exists ps, mq_rep (mem c) ps) ->
  consumer_run t c = Some c' -> one_consumer t c'.
Proof.
  intros Hw Hk [ps Hr] E. unfold consumer_run in E. pose proof (get_rep _ _ Hr) as Hg.
  destruct ps as [|p ps].
  - rewrite Hg in E. cbn in E. injection E as <-. destruct c as [m wt wk rc]. cbn in *. subst.
    constructor; cbn; [by exists []|set_solver|by right].
  - destruct Hg as (w' & Hg & Hr' & _). rewrite Hg in E. cbn in E. injection E as <-.
    destruct c as [m wt wk rc]. cbn in *. subst.
    constructor; cbn; [by exists ps|set_solver|by left].
Qed.

Lemma one_consumer_step t c c' : one_consumer t c -> mstep [t] c c' -> one_consumer t c'.
Proof.
  intros [(ps & Hr & Hps) Honly Hplace] Hs.
  destruct Hs as [x c c' Hx Hw Hk E|x c c' Hx E|x c Hx|c c' Hp].
  - apply list_elem_of_singleton in Hx as ->. eapply run_one; [..|exact E]; [| |eauto].
    + destruct (waiting c) as [|y l] eqn:Ew; [done|]. destruct Hw.
      rewrite <- (Honly y) by (left; by left). by left.
    + destruct (woken c) as [|y l] eqn:Ew; [done|]. destruct Hk.
      rewrite <- (Honly y) by (right; by left). by left.
  - assert (x = t) as -> by auto.
    assert (Hwait : waiting c = []).
    { destruct Hplace as [|Hk]; [done|]. rewrite Hk in Hx. by apply elem_of_nil in Hx. }
    eapply run_one; [..|exact E]; destruct c as [m wt wk rc]; cbn in *; [done| |eauto].
    apply filter_only. auto.
  - assert (x = t) as -> by auto. destruct Hplace as [Hw|Hk]; [rewrite Hw in Hx; by apply elem_of_nil in Hx|].
    destruct c as [m wt wk rc]. cbn in *. subst wk.
    assert (filter (fun x => x <> t) wt = []) as Ef by (apply filter_only; auto).
    constructor; cbn; rewrite Ef; [eauto|set_solver|by left].
  - destruct Hp as [elm c w Hp E|elm c w x Hp E Hx|elm c w Hp E Hw];
      destruct (puttable_put _ _ _ Hr Hp) as (w' & E' & Hr' & _); rewrite E' in E;
      injection E as Eb ->; destruct c as [m wt wk rc]; cbn in *.
    + apply bool_decide_eq_false_1 in Eb. rewrite (Hps Eb) in *.
      constructor; cbn; [eauto|done|by left].
    + assert (x = t) as -> by auto.
      assert (filter (fun x => x <> t) wt = []) as Ef by (apply filter_only; auto).
      destruct Hplace as [E1| ->]; [rewrite E1 in Hx; by apply elem_of_nil in Hx|].
      constructor; cbn; rewrite Ef; [eauto|set_solver|by left].
    + constructor; cbn; [eauto|done|by left].
Qed.

(** A buffer with the messages [ps] and no thread inside. *)
Definition started (w : world) : conc := mkConc w [] [] [].

(** C39. With a single consumer no wake-up is lost: in every interleaving of its
    calls, of spurious wake-ups and of any number of producers, whenever the buffer
    holds a message the consumer is not waiting (it has been signalled, or it is
    not in the call). *)
Theorem one_consumer_no_lost_wakeup w ps t c :
  mq_rep w ps -> rtc (mstep [t]) (started w) c ->
  0 < get_msg_num (mem c) -> waiting c = [].
Proof.
  intros Hr Hs Hn.
  assert (H : one_consumer t c).
  { assert (H0 : one_consumer t (started w)).
    { constructor; cbn; [by exists ps|set_solver|by left]. }
    clear Hr Hn. induction Hs as [|c1 c2 c3 H12 _ IH]; [done|].
    apply IH. by eapply one_consumer_step. }
  destruct H as [(ps' & Hr' & Hw) _ _]. apply Hw. intros ->.
  unfold get_msg_num in Hn. rewrite (mr_buf _ _ Hr') in Hn. cbn in Hn. lia.
Qed.

(** A consumer that waits while the buffer is not empty and nobody has been woken. *)
Definition stuck (t : nat) (c : conc) : Prop :=
  waiting c = [t] /\ woken c = [] /\ exists ps, mq_rep (mem c) ps /\ ps <> [].

Lemma stuck_producer t c c' : stuck t c -> producer_step c c' -> stuck t c'.
Proof.
  intros (Hw & Hk & ps & Hr & Hps) Hp.
  destruct Hp as [elm c w Hp E|elm c w x Hp E Hx|elm c w Hp E Hw'];
    destruct (puttable_put _ _ _ Hr Hp) as (w' & E' & Hr' & _); rewrite E' in E;
    injection E as Eb ->; [|by apply bool_decide_eq_true_1 in Eb..].
  destruct c as [m wt wk rc]. cbn in *. split; [done|]. split; [done|].
  exists (ps ++ [elm]). split; [done|]. by destruct ps.
Qed.

Lemma run_waits t c : mq_rep (mem c) [] ->
  consumer_run t c = Some (c <| waiting := t :: waiting c |>).
Proof. intros Hr. unfold consumer_run. by rewrite (get_rep _ _ Hr). Qed.

(** With two consumers a wake-up can be lost: [put_msg_to_buffer] signals only
    when the buffer was empty.  Both consumers wait, two messages are put, the
    first consumer is woken and takes the first message: the second one still waits
    although a message is there, nobody has been woken, and no further puts, however
    many, wake anybody. *)
Theorem two_consumers_lost_wakeup w p1 p2 :
  mq_rep w [] -> p1 <> 0 -> p2 <> 0 -> p1 <> p2 ->
  is_Some (elms w !! p1) -> is_Some (elms w !! p2) ->
  exists c, rtc (mstep [1%nat; 2%nat]) (started w) c /\
    received c = [(1%nat, p1)] /\ get_msg_num (mem c) = 1 /\
    waiting c = [2%nat] /\ woken c = [] /\
    forall c', rtc producer_step c c' -> waiting c' = [2%nat] /\ woken c' = [] /\
      0 < get_msg_num (mem c').
Proof.
  intros Hr H1 H2 H12 He1 He2.
  assert (Hput1 : puttable w p1).
  { exists []. split; [done|]. rewrite INT_MAX_eq. repeat split; try done. set_solver. }
  destruct (puttable_put _ _ _ Hr Hput1) as (w1 & E1 & Hr1 & Hs1). cbn [app] in Hr1.
  assert (Hput2 : puttable w1 p2).
  { exists [p1]. split; [done|]. rewrite INT_MAX_eq. split; [done|]. split; [set_solver|].
    split; [|done]. apply fmap_is_Some with (f := strip). rewrite Hs1. by apply fmap_is_Some. }
  destruct (puttable_put _ _ _ Hr1 Hput2) as (w2 & E2 & Hr2 & _). cbn [app] in Hr2.
  destruct (get_rep _ _ Hr2) as (w3 & Hg & Hr3 & _).
  set (c := mkConc w3 [2%nat] [] [(1%nat, p1)]).
  assert (Hstuck : stuck 2 c) by (split; [done|split; [done|by exists [p2]]]).
  exists c. split.
  - apply rtc_l with (mkConc w [1%nat] [] []).
    { apply (step_call _ 1); [set_solver..|]. by apply run_waits. }
    apply rtc_l with (mkConc w [2%nat; 1%nat] [] []).
    { apply (step_call _ 2); [set_solver..|]. by apply (run_waits 2 (mkConc w [1%nat] [] [])). }
    apply rtc_l with (mkConc w1 [2%nat] [1%nat] []).
    { apply step_producer.
      apply (step_put_signal p1 (mkConc w [2%nat; 1%nat] [] []) w1 1); [done|done|set_solver]. }
    apply rtc_l with (mkConc w2 [2%nat] [1%nat] []).
    { apply step_producer. by apply (step_put p2 (mkConc w1 [2%nat] [1%nat] []) w2). }
    apply rtc_once. apply (step_resume _ 1); [set_solver|].
    unfold consumer_run. cbn. by rewrite Hg.
  - split; [done|]. split; [change (get_msg_num w3 = 1); unfold get_msg_num; by rewrite (mr_buf _ _ Hr3)|].
    split; [done|]. split; [done|]. intros c' Hc'.
    assert (Hst : stuck 2 c').
    { clear -Hstuck Hc'. induction Hc' as [|c1 c2 c3 Hs _ IH]; [done|].
      apply IH. by eapply stuck_producer. }
    destruct Hst as (? & ? & ps & Hrp & Hps). do 2 (split; [done|]).
    unfold get_msg_num. rewrite (mr_buf _ _ Hrp). cbn [num]. destruct ps; [done|]. simpl. lia.
Qed.

(** A message and its copy made by [dup_msg_element] share their data block:
    once the copy is freed, freeing the message frees the block a second time. *)
Theorem dup_msg_element_double_free malloc_elm w p e :
  p <> 0 -> elms w !! p = Some e -> dt e <> 0 ->
  malloc_elm (elms w) <> 0 -> elms w !! malloc_elm (elms w) = None ->
  exists q w1, dup_msg_element malloc_elm p w = Some (q, w1) /\ q <> p /\ elms w1 !! q = Some e /\
    (free_tmsg_element q w1 ≫= free_tmsg_element p) = None.
Proof.
  intros Hp He Hd Hq0 Hq. set (q := malloc_elm (elms w)) in *. assert (p <> q) by congruence.
  unfold dup_msg_element. destruct (Z.eqb_spec p 0); [done|]. fold q.
  destruct (Z.eqb_spec q 0); [done|]. rewrite He. cbn [mbind option_bind].
  eexists q, _. split; [done|]. split; [done|]. destruct w as [b es bl]. cbn in *.
  split; [apply lookup_insert_eq|]. unfold free_tmsg_element, free_block. cbn.
  destruct (Z.eqb_spec q 0); [done|]. rewrite lookup_insert_eq. cbn.
  destruct (Z.eqb_spec (dt e) 0); [done|]. cbn.
  destruct (bl !! dt e) eqn:Ed; [|done]. cbn. destruct (Z.eqb_spec p 0); [done|].
  rewrite lookup_delete_ne, lookup_insert_ne, He by done. cbn.
  destruct (Z.eqb_spec (dt e) 0); [done|]. cbn. by rewrite lookup_delete_eq.
Qed.

(** ** Concrete buffers *)

Definition demo_fresh {A} (h : gmap Z A) : Z := fresh (dom h ∪ {[0]}).

Lemma demo_fresh_spec {A} (h : gmap Z A) : demo_fresh h <> 0 /\ h !! demo_fresh h = None.
Proof.
  pose proof (is_fresh (dom h ∪ {[0]})) as Hf. fold (demo_fresh h) in Hf.
  split; [set_solver|]. apply not_elem_of_dom. set_solver.
Qed.

Definition demo_args : list send_args :=
  [mkSend 1 2 3 4 (Some [104; 105]) 2; mkSend 5 6 7 8 None 0].

Lemma send_receive_roundtrip_witness :
  exists w1 w2,
    send_all demo_fresh (fun h _ => demo_fresh h) demo_args (msg_buffer_init (mkWorld None ∅ ∅))
      = Some w1 /\
    receive_all 2 w1 = Some ([mkMsg 1 2 3 4 2 (Some [104; 105]); mkMsg 5 6 7 8 0 None], w2).
Proof.
  destruct (send_receive_roundtrip demo_fresh (fun h _ => demo_fresh h)
              (fun h => or_intror (proj2 (demo_fresh_spec h)))
              (fun h _ => or_intror (proj2 (demo_fresh_spec h)))
              (fun h => proj1 (demo_fresh_spec h)) (fun h _ => proj1 (demo_fresh_spec h))
              demo_args (mkWorld None ∅ ∅)) as (w1 & w2 & E1 & _ & E2 & _).
  - constructor; [|constructor; [|constructor]]; (split; [done|]); [|exact I].
    vm_compute. discriminate.
  - vm_compute. discriminate.
  - exists w1, w2. split; [exact E1|exact E2].
Defined.

(** Two messages; the first one has data. *)
Definition demo_world : world :=
  mkWorld (Some (mkBuf 16 32 2))
    {[16 := mkElm 32 1 2 3 4 2 64; 32 := mkElm 0 5 6 7 8 0 0; 48 := mkElm 0 9 9 9 9 0 0]}
    {[64 := [104; 105]; 80 := [1]]}.
Definition demo_base : world :=
  mkWorld None {[48 := mkElm 0 9 9 9 9 0 0]} {[80 := [1]]}.
Definition demo_list : list item :=
  [mkItem 16 (mkElm 0 1 2 3 4 2 64) (Some [104; 105]); mkItem 32 (mkElm 0 5 6 7 8 0 0) None].

Lemma demo_inv : inv demo_base demo_world demo_list.
Proof.
  constructor.
  - constructor; [reflexivity| |by vm_compute].
    split; [done|]. split; [done|]. eexists. split; [vm_compute; reflexivity|].
    split; [done|]. split; [done|]. eexists. split; [vm_compute; reflexivity|done].
  - constructor; [|constructor; [|constructor]]; (split; [vm_compute; reflexivity|]);
      vm_compute; [split; [done|reflexivity]|reflexivity].
  - apply NoDup_singleton.
  - intros p Hp. cbn in Hp. unfold demo_world, demo_base. cbn.
    rewrite !lookup_insert_ne by set_solver. done.
  - intros p Hp. cbn in Hp. unfold demo_base. cbn. apply lookup_singleton_ne. set_unfold. lia.
  - intros d Hd. unfold dts in Hd. cbn in Hd. unfold demo_world, demo_base. cbn.
    rewrite lookup_insert_ne by set_solver. done.
  - intros d Hd. unfold dts in Hd. cbn in Hd. unfold demo_base. cbn.
    apply lookup_singleton_ne. set_unfold. lia.
Qed.

Lemma clear_msg_buffer_keeps_newest_witness :
  exists w', clear_msg_buffer demo_world = Some (32, w') /\ get_msg_num w' = 1.
Proof.
  destruct (clear_msg_buffer_keeps_newest demo_base demo_world demo_list demo_inv) as (w' & E & _).
  exists w'. split; [exact E|]. vm_compute in E. injection E as <-. reflexivity.
Defined.

Lemma dispose_msg_buffer_frees_all_witness :
  exists w', dispose_msg_buffer demo_world = Some w' /\ elms w' = elms demo_base.
Proof.
  destruct (dispose_msg_buffer_frees_all demo_base demo_world demo_list demo_inv)
    as (w' & E & _ & H & _).
  exists w'. split; [exact E|exact H].
Defined.

(** A consumer waits on an empty buffer, and a producer puts a message: the consumer is woken. *)
Lemma consumer_woken w p : mq_rep w [] -> p <> 0 -> is_Some (elms w !! p) ->
  exists c, rtc (mstep [1%nat]) (started w) c /\ woken c = [1%nat] /\ get_msg_num (mem c) = 1.
Proof.
  intros Hr H0 He. assert (Hput : puttable w p).
  { exists []. split; [done|]. rewrite INT_MAX_eq. repeat split; try done. set_solver. }
  destruct (puttable_put _ _ _ Hr Hput) as (w1 & E1 & Hr1 & _). cbn [app] in Hr1.
  exists (mkConc w1 [] [1%nat] []). split.
  - apply rtc_l with (mkConc w [1%nat] [] []).
    { apply (step_call _ 1); [set_solver..|]. by apply run_waits. }
    apply rtc_once, step_producer. apply (step_put_signal p (mkConc w [1%nat] [] []) w1 1); [done|done|set_solver].
  - split; [done|]. cbn [mem]. unfold get_msg_num. by rewrite (mr_buf _ _ Hr1).
Qed.

Lemma one_consumer_no_lost_wakeup_witness :
  exists c, rtc (mstep [1%nat]) (started (msg_buffer_init demo_world)) c /\
    woken c = [1%nat] /\ get_msg_num (mem c) = 1 /\ waiting c = [].
Proof.
  assert (Hr : mq_rep (msg_buffer_init demo_world) []) by (constructor; [reflexivity|done|by vm_compute]).
  destruct (consumer_woken (msg_buffer_init demo_world) 48 Hr) as (c & Hc & Hw & Hn).
  - discriminate.
  - eexists. vm_compute. reflexivity.
  - exists c. split; [exact Hc|]. split; [exact Hw|]. split; [exact Hn|].
    apply (one_consumer_no_lost_wakeup (msg_buffer_init demo_world) [] 1); [exact Hr|exact Hc|]. rewrite Hn. reflexivity.
Defined.

Lemma two_consumers_lost_wakeup_witness :
  exists c, rtc (mstep [1%nat; 2%nat])
      (started (msg_buffer_init demo_world)) c /\ waiting c = [2%nat] /\ get_msg_num (mem c) = 1.
Proof.
  destruct (two_consumers_lost_wakeup (msg_buffer_init demo_world) 48 32) as
    (c & Hc & _ & Hn & Hw & _).
  - constructor; [reflexivity|done|by vm_compute].
  - discriminate.
  - discriminate.
  - discriminate.
  - eexists. vm_compute. reflexivity.
  - eexists. vm_compute. reflexivity.
  - exists c. split; [exact Hc|]. split; [exact Hw|exact Hn].
Defined.

Lemma dup_msg_element_double_free_witness :
  exists w1, dup_msg_element (fun _ => 96) 16 demo_world = Some (96, w1) /\
    (free_tmsg_element 96 w1 ≫= free_tmsg_element 16) = None.
Proof.
  destruct (dup_msg_element_double_free (fun _ => 96) demo_world 16 (mkElm 32 1 2 3 4 2 64))
    as (q & w1 & E & _ & _ & H).
  - discriminate.
  - vm_compute. reflexivity.
  - discriminate.
  - discriminate.
  - vm_compute. reflexivity.
  - assert (Eq : q = 96) by (vm_compute in E; congruence). subst q.
    exists w1. split; [exact E|exact H].
Defined.

Lemma get_timeout_correct_witness :
  get_msg_from_buffer_timeout 7 900000000 2500 (msg_buffer_init demo_world)
    = Some (WaitsUntil 10 400000000).
Proof.
  destruct (get_timeout_correct (msg_buffer_init demo_world) [] 7 900000000 2500)
    as (_ & s & n & E & H).
  - constructor; [reflexivity|done|by vm_compute].
  - split; [discriminate|reflexivity].
  - split; vm_compute; discriminate.
  - vm_compute in E |- *. congruence.
Defined.
