(* ===== verification/Md5.v ===== *)
(** * The MD5 digest of the web server (webs/src/src/md5c.c, md5.h)

    Both builds of the compression function: the unrolled one and the one with
    tables (SMALL_CODE).  [unsigned long] has [w] bits, 32 or 64; [ulong32] has 32.
    The specification follows RFC 1321.  [psBurnStack] only overwrites its own stack
    frames and is left out. *)

From Stdlib Require Import Setoid Morphisms.
From S2P Require Import Prelude.
#[local] Open Scope Z_scope.
#[local] Open Scope cint_scope.

(** ** The code *)

Inductive md5_op : Type := FF | GG | HH | II.

(** The first argument of a macro instance: [FF(a,b,c,d,..)], [FF(d,a,b,c,..)],
    [FF(c,d,a,b,..)] or [FF(b,c,d,a,..)]. *)
Inductive reg : Type := Ra | Rd | Rc | Rb.

Definition quad : Type := (Z * Z * Z * Z)%type.

Definition Worder : list Z :=
  [0; 1; 2; 3; 4; 5; 6; 7; 8; 9; 10; 11; 12; 13; 14; 15;
   1; 6; 11; 0; 5; 10; 15; 4; 9; 14; 3; 8; 13; 2; 7; 12;
   5; 8; 11; 14; 1; 4; 7; 10; 13; 0; 3; 6; 9; 12; 15; 2;
   0; 7; 14; 5; 12; 3; 10; 1; 8; 15; 6; 13; 4; 11; 2; 9].

Definition Rorder : list Z :=
  [7; 12; 17; 22; 7; 12; 17; 22; 7; 12; 17; 22; 7; 12; 17; 22;
   5; 9; 14; 20; 5; 9; 14; 20; 5; 9; 14; 20; 5; 9; 14; 20;
   4; 11; 16; 23; 4; 11; 16; 23; 4; 11; 16; 23; 4; 11; 16; 23;
   6; 10; 15; 21; 6; 10; 15; 21; 6; 10; 15; 21; 6; 10; 15; 21].

Definition Korder : list Z :=
  [0xd76aa478; 0xe8c7b756; 0x242070db; 0xc1bdceee;
   0xf57c0faf; 0x4787c62a; 0xa8304613; 0xfd469501;
   0x698098d8; 0x8b44f7af; 0xffff5bb1; 0x895cd7be;
   0x6b901122; 0xfd987193; 0xa679438e; 0x49b40821;
   0xf61e2562; 0xc040b340; 0x265e5a51; 0xe9b6c7aa;
   0xd62f105d; 0x02441453; 0xd8a1e681; 0xe7d3fbc8;
   0x21e1cde6; 0xc33707d6; 0xf4d50d87; 0x455a14ed;
   0xa9e3e905; 0xfcefa3f8; 0x676f02d9; 0x8d2a4c8a;
   0xfffa3942; 0x8771f681; 0x6d9d6122; 0xfde5380c;
   0xa4beea44; 0x4bdecfa9; 0xf6bb4b60; 0xbebfbc70;
   0x289b7ec6; 0xeaa127fa; 0xd4ef3085; 0x04881d05;
   0xd9d4d039; 0xe6db99e5; 0x1fa27cf8; 0xc4ac5665;
   0xf4292244; 0x432aff97; 0xab9423a7; 0xfc93a039;
   0x655b59c3; 0x8f0ccc92; 0xffeff47d; 0x85845dd1;
   0x6fa87e4f; 0xfe2ce6e0; 0xa3014314; 0x4e0811a1;
   0xf7537e82; 0xbd3af235; 0x2ad7d2bb; 0xeb86d391;
   0xe1f27f3a; 0xf5710fb0; 0xada0e5c4; 0x98e4c919].

(** The 64 macro instances of the unrolled build, in order: the operation, the
    first argument, the word of the block, the shift, the constant. *)
Definition unrolled : list (md5_op * reg * Z * Z * Z) := [
  (FF, Ra, 0, 7, 0xd76aa478); (FF, Rd, 1, 12, 0xe8c7b756);
  (FF, Rc, 2, 17, 0x242070db); (FF, Rb, 3, 22, 0xc1bdceee);
  (FF, Ra, 4, 7, 0xf57c0faf); (FF, Rd, 5, 12, 0x4787c62a);
  (FF, Rc, 6, 17, 0xa8304613); (FF, Rb, 7, 22, 0xfd469501);
  (FF, Ra, 8, 7, 0x698098d8); (FF, Rd, 9, 12, 0x8b44f7af);
  (FF, Rc, 10, 17, 0xffff5bb1); (FF, Rb, 11, 22, 0x895cd7be);
  (FF, Ra, 12, 7, 0x6b901122); (FF, Rd, 13, 12, 0xfd987193);
  (FF, Rc, 14, 17, 0xa679438e); (FF, Rb, 15, 22, 0x49b40821);
  (GG, Ra, 1, 5, 0xf61e2562); (GG, Rd, 6, 9, 0xc040b340);
  (GG, Rc, 11, 14, 0x265e5a51); (GG, Rb, 0, 20, 0xe9b6c7aa);
  (GG, Ra, 5, 5, 0xd62f105d); (GG, Rd, 10, 9, 0x02441453);
  (GG, Rc, 15, 14, 0xd8a1e681); (GG, Rb, 4, 20, 0xe7d3fbc8);
  (GG, Ra, 9, 5, 0x21e1cde6); (GG, Rd, 14, 9, 0xc33707d6);
  (GG, Rc, 3, 14, 0xf4d50d87); (GG, Rb, 8, 20, 0x455a14ed);
  (GG, Ra, 13, 5, 0xa9e3e905); (GG, Rd, 2, 9, 0xfcefa3f8);
  (GG, Rc, 7, 14, 0x676f02d9); (GG, Rb, 12, 20, 0x8d2a4c8a);
  (HH, Ra, 5, 4, 0xfffa3942); (HH, Rd, 8, 11, 0x8771f681);
  (HH, Rc, 11, 16, 0x6d9d6122); (HH, Rb, 14, 23, 0xfde5380c);
  (HH, Ra, 1, 4, 0xa4beea44); (HH, Rd, 4, 11, 0x4bdecfa9);
  (HH, Rc, 7, 16, 0xf6bb4b60); (HH, Rb, 10, 23, 0xbebfbc70);
  (HH, Ra, 13, 4, 0x289b7ec6); (HH, Rd, 0, 11, 0xeaa127fa);
  (HH, Rc, 3, 16, 0xd4ef3085); (HH, Rb, 6, 23, 0x04881d05);
  (HH, Ra, 9, 4, 0xd9d4d039); (HH, Rd, 12, 11, 0xe6db99e5);
  (HH, Rc, 15, 16, 0x1fa27cf8); (HH, Rb, 2, 23, 0xc4ac5665);
  (II, Ra, 0, 6, 0xf4292244); (II, Rd, 7, 10, 0x432aff97);
  (II, Rc, 14, 15, 0xab9423a7); (II, Rb, 5, 21, 0xfc93a039);
  (II, Ra, 12, 6, 0x655b59c3); (II, Rd, 3, 10, 0x8f0ccc92);
  (II, Rc, 10, 15, 0xffeff47d); (II, Rb, 1, 21, 0x85845dd1);
  (II, Ra, 8, 6, 0x6fa87e4f); (II, Rd, 15, 10, 0xfe2ce6e0);
  (II, Rc, 6, 15, 0xa3014314); (II, Rb, 13, 21, 0x4e0811a1);
  (II, Ra, 4, 6, 0xf7537e82); (II, Rd, 11, 10, 0xbd3af235);
  (II, Rc, 2, 15, 0x2ad7d2bb); (II, Rb, 9, 21, 0xeb86d391)
].

Section Width.
Context (w : Z).

Definition F (x y z : Z) : Z := Z.lxor z (Z.land x (Z.lxor y z)).
Definition G (x y z : Z) : Z := Z.lxor y (Z.land z (Z.lxor y x)).
Definition H (x y z : Z) : Z := Z.lxor (Z.lxor x y) z.
Definition I (x y z : Z) : Z := Z.lxor y (Z.lor x (uwrap w (Z.lnot z))).

Definition op_fun (o : md5_op) : Z -> Z -> Z -> Z :=
  match o with FF => F | GG => G | HH => H | II => I end.

Definition ROLc (x y : Z) : Z :=
  Z.land
    (Z.lor (uwrap w (Z.shiftl x (Z.land y 31)))
           (Z.shiftr (Z.land x 0xFFFFFFFF) (32 - Z.land y 31)))
    0xFFFFFFFF.

(** The macros [FF], [GG], [HH], [II]: the new value of their first argument. *)
Definition round_step (o : md5_op) (a b c d M s t : Z) : Z :=
  let a := uwrap w (a + op_fun o b c d + M + t) in
  uwrap w (ROLc a s + b).

(** The arguments of an instance, and the assignment to the first of them. *)
Definition view (r : reg) (q : quad) : quad :=
  let '(a, b, c, d) := q in
  match r with
  | Ra => (a, b, c, d) | Rd => (d, a, b, c) | Rc => (c, d, a, b) | Rb => (b, c, d, a)
  end.

Definition assign (r : reg) (x : Z) (q : quad) : quad :=
  let '(a, b, c, d) := q in
  match r with
  | Ra => (x, b, c, d) | Rd => (a, b, c, x) | Rc => (a, b, x, d) | Rb => (a, x, c, d)
  end.

Definition exec (W : list Z) (q : quad) (i : md5_op * reg * Z * Z * Z) : quad :=
  let '(o, r, k, s, t) := i in
  let '(x0, x1, x2, x3) := view r q in
  assign r (round_step o x0 x1 x2 x3 (zget W k) s t) q.

Definition rounds_unrolled (W : list Z) (q : quad) : quad := fold_left (exec W) unrolled q.

(** The body of a loop of the SMALL_CODE build at index [i]; [t] is a [ulong32]. *)
Definition small_body (W : list Z) (o : md5_op) (q : quad) (i : nat) : quad :=
  let '(a, b, c, d) := q in
  let a := round_step o a b c d (zget W (nth i Worder 0)) (nth i Rorder 0) (nth i Korder 0) in
  let t := u32 d in
  (t, a, b, c).

Definition rounds_small (W : list Z) (q : quad) : quad :=
  let q := fold_left (small_body W FF) (seq 0 16) q in
  let q := fold_left (small_body W GG) (seq 16 16) q in
  let q := fold_left (small_body W HH) (seq 32 16) q in
  fold_left (small_body W II) (seq 48 16) q.
End Width.

Definition LOAD32L (y : list Z) : Z :=
  Z.lor (Z.lor (Z.lor (Z.shiftl (Z.land (zget y 3) 255) 24) (Z.shiftl (Z.land (zget y 2) 255) 16))
               (Z.shiftl (Z.land (zget y 1) 255) 8))
        (Z.land (zget y 0) 255).

Definition STORE32L (x : Z) : list Z :=
  [u8 (Z.land x 255); u8 (Z.land (Z.shiftr x 8) 255); u8 (Z.land (Z.shiftr x 16) 255);
   u8 (Z.land (Z.shiftr x 24) 255)].

Record psMd5Context_t : Type := mkMd5 {
  lengthHi : Z;
  lengthLo : Z;
  state : quad;
  curlen : Z;
  mbuf : list Z
}.

(** The loop that fills [W]. *)
Definition load_block (b : list Z) : list Z :=
  map (fun i => LOAD32L (bsub b (4 * Z.of_nat i) 4)) (seq 0 16).

(** The code does the same for both builds of the rounds and both widths. *)
Section Digest.
Context (rounds : list Z -> quad -> quad).

(** The end of [_md5_compress]. *)
Definition add_state (q q' : quad) : quad :=
  let '(s0, s1, s2, s3) := q in
  let '(a, b, c, d) := q' in
  (u32 (s0 + a), u32 (s1 + b), u32 (s2 + c), u32 (s3 + d)).

Definition md5_compress (md : psMd5Context_t) : psMd5Context_t :=
  let W := load_block (mbuf md) in
  md <| state := add_state (state md) (rounds W (state md)) |>.

Definition psMd5Init (md : psMd5Context_t) : psMd5Context_t :=
  md <| state := (0x67452301, 0xefcdab89, 0x98badcfe, 0x10325476) |>
     <| curlen := 0 |> <| lengthHi := 0 |> <| lengthLo := 0 |>.

(** Count [n] more bits. *)
Definition add_length (n : Z) (md : psMd5Context_t) : psMd5Context_t :=
  let n := Z.land (lengthLo md + n) 0xFFFFFFFF in
  let md := if n <? lengthLo md then md <| lengthHi := u32 (lengthHi md + 1) |> else md in
  md <| lengthLo := n |>.

Fixpoint psMd5Update_loop (fuel : nat) (md : psMd5Context_t) (buf : list Z) (len : Z)
  : option psMd5Context_t :=
  match fuel with
  | O => None
  | S fuel =>
      if 0 <? len then
        let n := Z.min len (64 - curlen md) in
        let md := md <| mbuf := bput (mbuf md) (curlen md) (bsub buf 0 n) |>
                     <| curlen := u32 (curlen md + n) |> in
        let buf := drop (Z.to_nat n) buf in
        let len := len - n in
        let md := if curlen md =? 64 then
                    (add_length 512 (md5_compress md)) <| curlen := 0 |>
                  else md in
        psMd5Update_loop fuel md buf len
      else Some md
  end.

Definition psMd5Update (md : psMd5Context_t) (buf : list Z) (len : Z) : option psMd5Context_t :=
  psMd5Update_loop (S (Z.to_nat len)) md buf len.

(** [while (md->curlen < limit) md->buf[md->curlen++] = 0;] takes at most [k] steps. *)
Fixpoint pad_zeros (k : nat) (limit : Z) (md : psMd5Context_t) : option psMd5Context_t :=
  match k with
  | O => None
  | S k => if curlen md <? limit
           then pad_zeros k limit (md <| mbuf := bput (mbuf md) (curlen md) [0] |>
                                      <| curlen := curlen md + 1 |>)
           else Some md
  end.

(** [psMd5Final], in three parts: the bits of the last bytes are counted and the byte
    0x80 is appended; *)
Definition final_count (md : psMd5Context_t) : psMd5Context_t :=
  let md := add_length (u32 (Z.shiftl (curlen md) 3)) md in
  let md := md <| lengthHi := u32 (lengthHi md + Z.shiftr (curlen md) 29) |> in
  md <| mbuf := bput (mbuf md) (curlen md) [0x80] |> <| curlen := curlen md + 1 |>.

(** the rest is filled with zeros, after one more block if there is no room for the
    length; *)
Definition final_pad (md : psMd5Context_t) : option psMd5Context_t :=
  md ← (if 56 <? curlen md then
          md ← pad_zeros 65 64 md;
          Some ((md5_compress md) <| curlen := 0 |>)
        else Some md);
  pad_zeros 65 56 md.

(** the length is stored and the last block compressed.  The result is the hash, and
    the context as [psZeromem] leaves it. *)
Definition final_hash (md : psMd5Context_t) : list Z * psMd5Context_t :=
  let md := md <| mbuf := bput (mbuf md) 56 (STORE32L (lengthLo md)) |> in
  let md := md <| mbuf := bput (mbuf md) 60 (STORE32L (lengthHi md)) |> in
  let '(s0, s1, s2, s3) := state (md5_compress md) in
  (STORE32L s0 ++ STORE32L s1 ++ STORE32L s2 ++ STORE32L s3,
   mkMd5 0 0 (0, 0, 0, 0) 0 (repeat 0 64)).

(** [hash] is the null pointer or the buffer of the caller, which is written from its start. *)
Definition psMd5Final (md : psMd5Context_t) (hash : option (list Z)) : option (Z * option (list Z) * psMd5Context_t) :=
  match hash with
  | None => Some (-1, None, md)
  | Some hash =>
      md ← final_pad (final_count md);
      let '(digest, md) := final_hash md in
      if zlen hash <? 16 then None else Some (16, Some (bput hash 0 digest), md)
  end.
End Digest.

(** ** The digest of RFC 1321 *)

(** Section 3.4: the auxiliary functions, on 32-bit words. *)
Definition not32 (x : Z) : Z := u32 (Z.lnot x).
Definition rfc_fun (o : md5_op) (x y z : Z) : Z :=
  match o with
  | FF => Z.lor (Z.land x y) (Z.land (not32 x) z)
  | GG => Z.lor (Z.land x z) (Z.land y (not32 z))
  | HH => Z.lxor (Z.lxor x y) z
  | II => Z.lxor y (Z.lor x (not32 z))
  end.

Definition rol32 (x s : Z) : Z := Z.lor (u32 (Z.shiftl x s)) (Z.shiftr x (32 - s)).

(** The table of sines: [T[i]] is the integer part of 2^32 * abs(sin(i + 1)). *)
Definition rfc_T : list Z :=
  [0xd76aa478; 0xe8c7b756; 0x242070db; 0xc1bdceee;
   0xf57c0faf; 0x4787c62a; 0xa8304613; 0xfd469501;
   0x698098d8; 0x8b44f7af; 0xffff5bb1; 0x895cd7be;
   0x6b901122; 0xfd987193; 0xa679438e; 0x49b40821;
   0xf61e2562; 0xc040b340; 0x265e5a51; 0xe9b6c7aa;
   0xd62f105d; 0x02441453; 0xd8a1e681; 0xe7d3fbc8;
   0x21e1cde6; 0xc33707d6; 0xf4d50d87; 0x455a14ed;
   0xa9e3e905; 0xfcefa3f8; 0x676f02d9; 0x8d2a4c8a;
   0xfffa3942; 0x8771f681; 0x6d9d6122; 0xfde5380c;
   0xa4beea44; 0x4bdecfa9; 0xf6bb4b60; 0xbebfbc70;
   0x289b7ec6; 0xeaa127fa; 0xd4ef3085; 0x04881d05;
   0xd9d4d039; 0xe6db99e5; 0x1fa27cf8; 0xc4ac5665;
   0xf4292244; 0x432aff97; 0xab9423a7; 0xfc93a039;
   0x655b59c3; 0x8f0ccc92; 0xffeff47d; 0x85845dd1;
   0x6fa87e4f; 0xfe2ce6e0; 0xa3014314; 0x4e0811a1;
   0xf7537e82; 0xbd3af235; 0x2ad7d2bb; 0xeb86d391].

Definition rfc_op (i : nat) : md5_op :=
  if (i <? 16)%nat then FF else if (i <? 32)%nat then GG else if (i <? 48)%nat then HH else II.

(** The word used by step [i]: its number in the order of its round. *)
Definition rfc_word (i : nat) : Z :=
  let j := Z.of_nat i in
  match rfc_op i with
  | FF => j mod 16 | GG => (5 * j + 1) mod 16 | HH => (3 * j + 5) mod 16 | II => (7 * j) mod 16
  end.

Definition rfc_shift (i : nat) : Z :=
  nth (i mod 4) (match rfc_op i with
                 | FF => [7; 12; 17; 22] | GG => [5; 9; 14; 20]
                 | HH => [4; 11; 16; 23] | II => [6; 10; 15; 21]
                 end) 0.

(** One operation [a = b + ((a + f(b,c,d) + X[k] + T[i]) <<< s)], after which the
    four words change places. *)
Definition rfc_step (W : list Z) (q : quad) (i : nat) : quad :=
  let '(a, b, c, d) := q in
  let x := u32 (a + rfc_fun (rfc_op i) b c d + zget W (rfc_word i) + nth i rfc_T 0) in
  (d, u32 (b + rol32 x (rfc_shift i)), b, c).

Definition rfc_rounds (W : list Z) (q : quad) : quad := fold_left (rfc_step W) (seq 0 64) q.

Definition rfc_block (q : quad) (b : list Z) : quad := add_state q (rfc_rounds (load_block b) q).

Fixpoint rfc_blocks (n : nat) (q : quad) (m : list Z) : quad :=
  match n with
  | O => q
  | S n => rfc_blocks n (rfc_block q (take 64 m)) (drop 64 m)
  end.

(** The padded message: a byte 0x80, zeros up to 56 modulo 64, and the length in
    bits as 8 bytes, least significant first. *)
Definition rfc_pad (m : list Z) : list Z :=
  let n := zlen m in
  m ++ [0x80] ++ repeat 0 (Z.to_nat ((55 - n) mod 64)) ++
  STORE32L (u32 (8 * n)) ++ STORE32L (u32 (8 * n / 2 ^ 32)).

Definition rfc_init : quad := (0x67452301, 0xefcdab89, 0x98badcfe, 0x10325476).

Definition rfc_md5 (m : list Z) : list Z :=
  let p := rfc_pad m in
  let '(s0, s1, s2, s3) := rfc_blocks (length p / 64) rfc_init p in
  STORE32L s0 ++ STORE32L s1 ++ STORE32L s2 ++ STORE32L s3.

(** Test vectors of the RFC: the empty message and "abc". *)
Example rfc_md5_empty : rfc_md5 [] =
  [0xd4; 0x1d; 0x8c; 0xd9; 0x8f; 0x00; 0xb2; 0x04; 0xe9; 0x80; 0x09; 0x98; 0xec; 0xf8; 0x42; 0x7e].
Proof. vm_compute. reflexivity. Qed.

Example rfc_md5_abc : rfc_md5 [97; 98; 99] =
  [0x90; 0x01; 0x50; 0x98; 0x3c; 0xd2; 0x4f; 0xb0; 0xd6; 0x96; 0x3f; 0x7d; 0x28; 0xe1; 0x7f; 0x72].
Proof. vm_compute. reflexivity. Qed.

(** ** Arithmetic modulo 2^32 *)

(** The code computes with [unsigned long]s whose upper bits may be anything. *)
Definition eq32 (x y : Z) : Prop := u32 x = u32 y.

#[export] Instance eq32_equiv : Equivalence eq32.
Proof.
  unfold eq32. split; [intros x; done|intros x y; done|intros x y z ? ?; congruence].
Qed.

Lemma eq32_bits x y : eq32 x y <-> forall i, 0 <= i < 32 -> Z.testbit x i = Z.testbit y i.
Proof.
  unfold eq32, uwrap. split.
  - intros E i Hi. rewrite <- (Z.mod_pow2_bits_low x 32), <- (Z.mod_pow2_bits_low y 32) by lia.
    by rewrite E.
  - intros H. apply Z.bits_inj'. intros i Hi. destruct (Z.lt_ge_cases i 32).
    + rewrite !Z.mod_pow2_bits_low by lia. apply H. lia.
    + by rewrite !Z.mod_pow2_bits_high by lia.
Qed.

Lemma eq32_uwrap w x : 32 <= w -> eq32 (uwrap w x) x.
Proof.
  intros Hw. apply eq32_bits. intros i Hi. unfold uwrap. apply Z.mod_pow2_bits_low. lia.
Qed.

Lemma eq32_u32 x : eq32 (u32 x) x.
Proof. by apply eq32_uwrap. Qed.

#[export] Instance add_eq32 : Proper (eq32 ==> eq32 ==> eq32) Z.add.
Proof.
  intros x x' Hx y y' Hy. unfold eq32, uwrap in *. rewrite (Zplus_mod x y), (Zplus_mod x' y').
  by rewrite Hx, Hy.
Qed.

Ltac by_bits :=
  repeat match goal with
         | H : eq32 _ _ |- _ => rewrite eq32_bits in H
         end;
  apply eq32_bits; intros i Hi;
  repeat match goal with
         | H : forall i, 0 <= i < 32 -> _ |- _ => specialize (H i Hi)
         end;
  rewrite ?Z.land_spec, ?Z.lor_spec, ?Z.lxor_spec, ?Z.lnot_spec by lia.

#[export] Instance land_eq32 : Proper (eq32 ==> eq32 ==> eq32) Z.land.
Proof. intros x x' Hx y y' Hy. by_bits. congruence. Qed.
#[export] Instance lor_eq32 : Proper (eq32 ==> eq32 ==> eq32) Z.lor.
Proof. intros x x' Hx y y' Hy. by_bits. congruence. Qed.
#[export] Instance lxor_eq32 : Proper (eq32 ==> eq32 ==> eq32) Z.lxor.
Proof. intros x x' Hx y y' Hy. by_bits. congruence. Qed.
#[export] Instance lnot_eq32 : Proper (eq32 ==> eq32) Z.lnot.
Proof. intros x x' Hx. by_bits. congruence. Qed.

(** ** The functions of the code and of the RFC *)

Lemma not_bit w z i : 32 <= w -> 0 <= i < 32 ->
  Z.testbit (uwrap w (Z.lnot z)) i = negb (Z.testbit z i).
Proof.
  intros Hw Hi. unfold uwrap. rewrite Z.mod_pow2_bits_low, Z.lnot_spec by lia. done.
Qed.

Section Rounds.
Context (w : Z).
Hypothesis width : 32 <= w.

Lemma op_fun_rfc o x y z x' y' z' :
  eq32 x x' -> eq32 y y' -> eq32 z z' -> eq32 (op_fun w o x y z) (rfc_fun o x' y' z').
Proof using width.
  intros Hx Hy Hz. transitivity (rfc_fun o x y z).
  - apply eq32_bits. intros i Hi. unfold not32.
    destruct o; cbn [op_fun rfc_fun]; unfold F, G, H, I, not32;
      rewrite ?Z.lxor_spec, ?Z.lor_spec, ?Z.land_spec, ?Z.lxor_spec, ?Z.lor_spec, ?not_bit by lia;
      by destruct (Z.testbit x i), (Z.testbit y i), (Z.testbit z i).
  - destruct o; cbn [rfc_fun]; unfold not32; rewrite ?eq32_u32; by rewrite ?Hx, ?Hy, ?Hz.
Qed.

Lemma shift_ok s : 0 < s < 32 -> Z.land s 31 = s.
Proof.
  intros Hs. change 31 with (Z.ones 5). rewrite Z.land_ones by lia. apply Z.mod_small. simpl. lia.
Qed.

Lemma ROLc_rol32 x x' s : 0 < s < 32 -> eq32 x x' -> ROLc w x s = rol32 (u32 x') s.
Proof using width.
  intros Hs Hx. unfold ROLc, rol32. rewrite shift_ok by done.
  change 0xFFFFFFFF with (Z.ones 32). rewrite !(Z.land_ones _ 32) by lia. fold (uwrap 32 x).
  rewrite Hx. set (y := u32 x'). assert (Hy : 0 <= y < 2 ^ 32) by (apply uwrap_range; lia).
  assert (Hxy : eq32 x y) by (unfold eq32; rewrite Hx; symmetry; apply eq32_u32).
  clearbody y. clear Hx x'.
  assert (Hhi : forall i, 32 <= i -> Z.testbit y i = false).
  { intros i Hi. rewrite <- (Z.mod_small y (2 ^ 32)) by done. apply Z.mod_pow2_bits_high. lia. }
  rewrite eq32_bits in Hxy. apply Z.bits_inj'. intros i Hi. unfold uwrap.
  destruct (Z.lt_ge_cases i 32).
  - rewrite Z.mod_pow2_bits_low by lia.
    rewrite !Z.lor_spec, !Z.mod_pow2_bits_low by lia. f_equal.
    rewrite !Z.shiftl_spec by lia. destruct (Z.lt_ge_cases (i - s) 0).
    + rewrite !Z.testbit_neg_r by lia. done.
    + apply Hxy. lia.
  - rewrite Z.mod_pow2_bits_high by lia. rewrite Z.lor_spec, Z.mod_pow2_bits_high by lia.
    rewrite Z.shiftr_spec by lia. rewrite Hhi by lia. done.
Qed.

Lemma round_step_rfc o a b c d a' b' c' d' M s t :
  0 < s < 32 -> eq32 a a' -> eq32 b b' -> eq32 c c' -> eq32 d d' ->
  eq32 (round_step w o a b c d M s t)
       (u32 (b' + rol32 (u32 (a' + rfc_fun o b' c' d' + M + t)) s)).
Proof using width.
  intros Hs Ha Hb Hc Hd. unfold round_step. rewrite eq32_uwrap by done. rewrite eq32_u32.
  rewrite (ROLc_rol32 _ (a' + rfc_fun o b' c' d' + M + t)) by
    (try done; rewrite eq32_uwrap by done; by rewrite Ha, (op_fun_rfc o b c d b' c' d')).
  rewrite Hb. by rewrite Z.add_comm.
Qed.

Definition eq32q (q q' : quad) : Prop :=
  let '(a, b, c, d) := q in
  let '(a', b', c', d') := q' in
  eq32 a a' /\ eq32 b b' /\ eq32 c c' /\ eq32 d d'.

Lemma add_state_eq q q1 q2 : eq32q q1 q2 -> add_state q q1 = add_state q q2.
Proof.
  destruct q as [[[s0 s1] s2] s3], q1 as [[[a b] c] d], q2 as [[[a' b'] c'] d'].
  intros (Ha & Hb & Hc & Hd). unfold add_state.
  f_equal; [f_equal; [f_equal|]|]; apply add_eq32; done.
Qed.

(** The tables of the SMALL_CODE build. *)
Lemma small_tables i : (i < 64)%nat ->
  nth i Worder 0 = rfc_word i /\ nth i Rorder 0 = rfc_shift i /\ nth i Korder 0 = nth i rfc_T 0 /\
  0 < rfc_shift i < 32.
Proof.
  intros Hi. assert (Hall : Forall (fun i => nth i Worder 0 = rfc_word i /\ nth i Rorder 0 = rfc_shift i /\
    nth i Korder 0 = nth i rfc_T 0 /\ 0 < rfc_shift i < 32) (seq 0 64)).
  { repeat (constructor; [vm_compute; done|]). constructor. }
  rewrite List.Forall_forall in Hall. apply Hall, in_seq. lia.
Qed.

Lemma rfc_step_rfc i a b c d a' b' c' d' W :
  (i < 64)%nat -> eq32q (a, b, c, d) (a', b', c', d') ->
  eq32q (d, round_step w (rfc_op i) a b c d (zget W (rfc_word i)) (rfc_shift i) (nth i rfc_T 0), b, c)
        (rfc_step W (a', b', c', d') i).
Proof using width.
  intros Hi (Ha & Hb & Hc & Hd). destruct (small_tables i Hi) as (_ & _ & _ & Hs).
  repeat split; try done. by apply round_step_rfc.
Qed.

Lemma small_fold W o n : forall k q q',
  (forall i, (k <= i < k + n)%nat -> (i < 64)%nat /\ rfc_op i = o) -> eq32q q q' ->
  eq32q (fold_left (small_body w W o) (seq k n) q) (fold_left (rfc_step W) (seq k n) q').
Proof using width.
  induction n as [|n IH]; intros k q q' Ho Hq; cbn [seq fold_left]; [done|].
  apply IH; [intros i Hi; apply Ho; lia|].
  destruct q as [[[a b] c] d], q' as [[[a' b'] c'] d'].
  destruct (Ho k) as [Hk <-]; [lia|].
  destruct (small_tables k Hk) as (E1 & E2 & E3 & _).
  unfold small_body. rewrite E1, E2, E3.
  pose proof (rfc_step_rfc k a b c d a' b' c' d' W Hk Hq) as (H1 & H2 & H3 & H4).
  repeat split; try done. rewrite eq32_u32. done.
Qed.

Lemma rounds_small_rfc W q : eq32q (rounds_small w W q) (rfc_rounds W q).
Proof using width.
  unfold rounds_small, rfc_rounds.
  change (seq 0 64) with (seq 0 16 ++ seq 16 16 ++ seq 32 16 ++ seq 48 16).
  rewrite !fold_left_app.
  repeat (apply small_fold; [intros i Hi; split; [lia|unfold rfc_op;
    repeat match goal with |- context [(?a <? ?b)%nat] => destruct (Nat.ltb_spec a b) end;
    (done || lia)]|]).
  destruct q as [[[a b] c] d]. by repeat split.
Qed.

(** The unrolled instances follow the pattern of the RFC. *)
Definition reg_of (i : nat) : reg :=
  match (i mod 4)%nat with 0%nat => Ra | 1%nat => Rd | 2%nat => Rc | _ => Rb end.

Definition instr (i : nat) : md5_op * reg * Z * Z * Z :=
  (rfc_op i, reg_of i, rfc_word i, rfc_shift i, nth i rfc_T 0).

Lemma unrolled_pattern : unrolled = map instr (seq 0 64).
Proof. vm_compute. reflexivity. Qed.

Lemma reg_of_S i : forall q x, view (reg_of (S i)) (assign (reg_of i) x q) =
  let '(_, x1, x2, x3) := view (reg_of i) q in (x3, x, x1, x2).
Proof.
  intros [[[a b] c] d] x. unfold reg_of.
  assert (E : (i mod 4 = 0 /\ S i mod 4 = 1 \/ i mod 4 = 1 /\ S i mod 4 = 2 \/
    i mod 4 = 2 /\ S i mod 4 = 3 \/ i mod 4 = 3 /\ S i mod 4 = 0)%nat).
  { pose proof (Nat.mod_upper_bound i 4). pose proof (Nat.div_mod_eq i 4).
    pose proof (Nat.mod_upper_bound (S i) 4). pose proof (Nat.div_mod_eq (S i) 4). lia. }
  destruct E as [[-> ->]|[[-> ->]|[[-> ->]|[-> ->]]]]; reflexivity.
Qed.

Lemma unrolled_fold W n : forall k q q',
  (k + n <= 64)%nat -> eq32q (view (reg_of k) q) q' ->
  eq32q (view (reg_of (k + n)) (fold_left (exec w W) (map instr (seq k n)) q))
        (fold_left (rfc_step W) (seq k n) q').
Proof using width.
  induction n as [|n IH]; intros k q q' Hk Hq; cbn [seq map fold_left]; [by rewrite Nat.add_0_r|].
  replace (k + S n)%nat with (S k + n)%nat by lia. apply IH; [lia|].
  unfold instr at 1, exec. destruct (view (reg_of k) q) as [[[x0 x1] x2] x3] eqn:E.
  rewrite reg_of_S, E. destruct q' as [[[a' b'] c'] d']. apply rfc_step_rfc; [lia|done].
Qed.

Lemma rounds_unrolled_rfc W q : eq32q (rounds_unrolled w W q) (rfc_rounds W q).
Proof using width.
  assert (Hv : forall q, view Ra q = q) by (intros [[[? ?] ?] ?]; done).
  unfold rounds_unrolled, rfc_rounds. rewrite unrolled_pattern.
  pose proof (unrolled_fold W 64 0 q q) as H64. change (reg_of (0 + 64)) with Ra in H64.
  change (reg_of 0) with Ra in H64. rewrite !Hv in H64. apply H64; [lia|].
  destruct q as [[[a b] c] d]. by repeat split.
Qed.
End Rounds.

(** ** Blocks of a message *)

Lemma rfc_blocks_step k : forall q b blk,
  length b = (64 * k)%nat -> length blk = 64%nat ->
  rfc_blocks (S k) q (b ++ blk) = rfc_block (rfc_blocks k q b) blk.
Proof.
  induction k as [|k IH]; intros q b blk Hb Hblk.
  - destruct b; [|simpl in Hb; lia]. cbn [rfc_blocks app]. rewrite take_ge; [done|lia].
  - cbn [rfc_blocks] in IH |- *.
    rewrite take_app_le, drop_app_le by lia. rewrite <- IH; [done|rewrite length_drop; lia|done].
Qed.

Lemma bput_app p s d :
  bput (p ++ s) (zlen p) d = (p ++ d) ++ drop (length d) s.
Proof.
  unfold bput. rewrite Nat2Z.id, take_app_length, drop_app_add. by rewrite app_assoc.
Qed.

(** The message length is counted in two 32-bit words. *)
Definition bit_count (md : psMd5Context_t) (n : Z) : Prop :=
  lengthLo md = u32 n /\ lengthHi md = u32 (n / 2 ^ 32).

Lemma add_length_count md n k :
  bit_count md n -> 0 <= k < 2 ^ 32 ->
  add_length k md = md <| lengthHi := u32 ((n + k) / 2 ^ 32) |> <| lengthLo := u32 (n + k) |>.
Proof.
  intros [Hlo Hhi] Hk. unfold add_length. rewrite Hlo.
  change 0xFFFFFFFF with (Z.ones 32). rewrite Z.land_ones by lia.
  fold (uwrap 32 (u32 n + k)). rewrite uwrap_add_l.
  destruct md as [hi lo st cl mb]; cbn in Hlo, Hhi; subst hi lo.
  assert (Hd : (n + k) / 2 ^ 32 = n / 2 ^ 32 + (u32 n + k) / 2 ^ 32).
  { unfold uwrap. rewrite (Z.div_mod n (2 ^ 32)) at 1 by lia.
    replace (2 ^ 32 * (n / 2 ^ 32) + n mod 2 ^ 32 + k)
      with (n mod 2 ^ 32 + k + n / 2 ^ 32 * 2 ^ 32) by lia.
    rewrite Z.div_add by lia. lia. }
  pose proof (uwrap_range 32 n ltac:(lia)).
  assert (Hu : u32 (n + k) = u32 n + k - 2 ^ 32 * ((u32 n + k) / 2 ^ 32)).
  { rewrite <- uwrap_add_l. unfold uwrap at 1. rewrite Z.mod_eq by lia. done. }
  set (q := (u32 n + k) / 2 ^ 32) in *.
  assert (Hq : 0 <= q < 2).
  { split; [apply Z.div_pos; lia|apply Z.div_lt_upper_bound; lia]. }
  pose proof (uwrap_range 32 (n + k) ltac:(lia)). rewrite Hd. clearbody q. clear Hd.
  assert (q = 0 \/ q = 1) as [-> | ->] by lia; destruct (Z.ltb_spec (u32 (n + k)) (u32 n));
    try lia; cbn; rewrite ?uwrap_add_l, ?Z.add_0_r; done.
Qed.

Section Stream.
Context (rounds : list Z -> quad -> quad).
Hypothesis rounds_rfc : forall W q s, add_state s (rounds W q) = add_state s (rfc_rounds W q).

Lemma compress_block md :
  md5_compress rounds md = md <| state := rfc_block (state md) (mbuf md) |>.
Proof using rounds_rfc. unfold md5_compress, rfc_block. by rewrite rounds_rfc. Qed.

(** The context after the message [m]: the whole blocks are in [state], the rest is
    in the buffer. *)
Definition absorbed (m : list Z) (md : psMd5Context_t) : Prop :=
  exists k b r s, m = b ++ r /\ length b = (64 * k)%nat /\
    state md = rfc_blocks k rfc_init b /\ mbuf md = r ++ s /\
    (length r + length s = 64)%nat /\ (length r < 64)%nat /\ curlen md = zlen r /\
    bit_count md (8 * zlen b).

Lemma init_absorbed md : length (mbuf md) = 64%nat -> absorbed [] (psMd5Init md).
Proof.
  intros Hl. exists 0%nat, [], [], (mbuf md). destruct md; cbn in *.
  repeat split; auto with lia.
Qed.

(** The body of the loop of [psMd5Update] takes [n] bytes. *)
Lemma update_step m md d :
  absorbed m md -> zlen d <= 64 - curlen md ->
  let md := md <| mbuf := bput (mbuf md) (curlen md) d |>
               <| curlen := u32 (curlen md + zlen d) |> in
  absorbed (m ++ d)
    (if curlen md =? 64 then (add_length 512 (md5_compress rounds md)) <| curlen := 0 |> else md).
Proof using rounds_rfc.
  intros (k & b & r & s & -> & Hb & Hst & Hbuf & Hl & Hr & Hc & Hn) Hd.
  destruct md as [hi lo st cl mb]; cbn [state mbuf curlen] in *; subst mb cl.
  rewrite bput_app, uwrap_small by lia. cbn -[rfc_blocks md5_compress add_length].
  destruct (Z.eqb_spec (zlen r + zlen d) 64) as [E|E].
  - rewrite compress_block. cbn [mbuf state].
    assert (Hs : drop (length d) s = []) by (apply drop_ge; lia).
    rewrite (add_length_count _ (8 * zlen b)) by (exact Hn || lia).
    exists (S k), (b ++ r ++ d), [], (r ++ d). rewrite Hs, app_nil_r in *.
    rewrite rfc_blocks_step, <- Hst by (rewrite ?length_app; lia).
    cbn -[rfc_blocks rfc_block]. unfold bit_count. cbn.
    rewrite app_nil_r, !length_app, <- app_assoc.
    replace (8 * zlen b + 512) with (8 * Z.of_nat (length b + (length r + length d))) by lia.
    repeat split; lia.
  - exists k, b, (r ++ d), (drop (length d) s). cbn -[rfc_blocks].
    rewrite <- app_assoc, !length_app, length_drop. repeat split; done || lia || apply Hn.
Qed.

Lemma update_loop_absorbed fuel : forall m md buf,
  absorbed m md -> (length buf < fuel)%nat ->
  exists md', psMd5Update_loop rounds fuel md buf (zlen buf) = Some md' /\ absorbed (m ++ buf) md'.
Proof using rounds_rfc.
  induction fuel as [|fuel IH]; intros m md buf Hm Hf; [lia|]. cbn [psMd5Update_loop].
  destruct (Z.ltb_spec 0 (zlen buf)) as [Hpos|Hz].
  - assert (Hc : 0 <= curlen md < 64) by (destruct Hm as (k & b & r & s & Hm); lia).
    set (n := Z.min (zlen buf) (64 - curlen md)).
    assert (Hn : zlen (bsub buf 0 n) = n) by (apply length_bsub; lia).
    pose proof (update_step m md (bsub buf 0 n) Hm ltac:(lia)) as Hs. rewrite Hn in Hs.
    cbv zeta in Hs. replace (zlen buf - n) with (zlen (drop (Z.to_nat n) buf))
      by (rewrite length_drop; lia).
    destruct (IH _ _ (drop (Z.to_nat n) buf) Hs) as (md' & E & Hm'); [rewrite length_drop; lia|].
    exists md'. split; [exact E|]. unfold bsub in Hm'.
    by rewrite <- app_assoc, drop_0, take_drop in Hm'.
  - exists md. split; [done|]. destruct buf; [by rewrite app_nil_r|simpl in Hz; lia].
Qed.

Lemma pad_zeros_fill k : forall limit md p s,
  mbuf md = p ++ s -> curlen md = zlen p -> zlen p <= limit -> limit <= zlen (p ++ s) ->
  limit - zlen p < Z.of_nat k ->
  pad_zeros k limit md = Some (md <| mbuf := p ++ repeat 0 (Z.to_nat (limit - zlen p)) ++
                                       drop (Z.to_nat (limit - zlen p)) s |>
                                  <| curlen := limit |>).
Proof.
  induction k as [|k IH]; intros limit md p s Hb Hc Hp Hl Hk; [lia|].
  cbn [pad_zeros]. rewrite Hc. destruct (Z.ltb_spec (zlen p) limit).
  - rewrite Hb, bput_app. destruct s as [|x s]; [rewrite app_nil_r in Hl; lia|].
    rewrite length_app in Hl. simpl in Hl. cbn [length drop].
    rewrite drop_0.
    assert (Hp1 : zlen (p ++ [0]) = zlen p + 1) by (rewrite length_app; simpl; lia).
    assert (Hl1 : zlen ((p ++ [0]) ++ s) = zlen p + 1 + zlen s) by (rewrite length_app; lia).
    rewrite (IH limit _ (p ++ [0]) s) by (done || lia || (destruct md; cbn in *; done || lia)).
    rewrite Hp1.
    replace (Z.to_nat (limit - zlen p))
      with (S (Z.to_nat (limit - (zlen p + 1)))) by lia.
    destruct md; cbn. rewrite <- app_assoc. done.
  - assert (limit = zlen p) as -> by lia. rewrite Z.sub_diag. cbn.
    destruct md; cbn in *. by subst.
Qed.

(** The state of the context and its hash. *)
Definition hash_of (q : quad) : list Z :=
  let '(s0, s1, s2, s3) := q in STORE32L s0 ++ STORE32L s1 ++ STORE32L s2 ++ STORE32L s3.

(** The padding after the last whole block. *)
Lemma rfc_pad_last b r k :
  length b = (64 * k)%nat -> (length r < 64)%nat ->
  let n := zlen (b ++ r) in
  let tail := STORE32L (u32 (8 * n)) ++ STORE32L (u32 (8 * n / 2 ^ 32)) in
  rfc_md5 (b ++ r) =
    if 55 <? zlen r
    then hash_of (rfc_block (rfc_block (rfc_blocks k rfc_init b)
           (r ++ [0x80] ++ repeat 0 (Z.to_nat (63 - zlen r)))) (repeat 0 56 ++ tail))
    else hash_of (rfc_block (rfc_blocks k rfc_init b)
           (r ++ [0x80] ++ repeat 0 (Z.to_nat (55 - zlen r)) ++ tail)).
Proof.
  intros Hb Hr n tail. unfold rfc_md5, rfc_pad. fold n tail.
  assert (Ht : length tail = 8%nat) by done. clearbody tail.
  assert (Hn : (55 - n) mod 64 = if 55 <? zlen r then 119 - zlen r else 55 - zlen r).
  { unfold n. rewrite length_app, Nat2Z.inj_add, Hb. destruct (Z.ltb_spec 55 (zlen r)).
    - symmetry. apply (Z.mod_unique_pos _ _ (- Z.of_nat k - 1)); lia.
    - symmetry. apply (Z.mod_unique_pos _ _ (- Z.of_nat k)); lia. }
  rewrite Hn. clear Hn. destruct (Z.ltb_spec 55 (zlen r)).
  - replace (Z.to_nat (119 - zlen r)) with (Z.to_nat (63 - zlen r) + 56)%nat by lia.
    rewrite repeat_app.
    replace ((b ++ r) ++ [0x80] ++ (repeat 0 (Z.to_nat (63 - zlen r)) ++ repeat 0 56) ++ tail)
      with ((b ++ (r ++ [0x80] ++ repeat 0 (Z.to_nat (63 - zlen r)))) ++ (repeat 0 56 ++ tail))
      by (rewrite <- !app_assoc; done).
    set (b1 := r ++ _ ++ _). set (b2 := repeat 0 56 ++ tail).
    assert (H1 : length b1 = 64%nat)
      by (unfold b1; rewrite !length_app, repeat_length; simpl; lia).
    assert (H2 : length b2 = 64%nat) by (unfold b2; rewrite length_app, repeat_length; lia).
    rewrite !length_app, H1, H2, Hb.
    replace ((64 * k + 64 + 64) / 64)%nat with (S (S k))
      by (apply Nat.div_unique with 0%nat; lia).
    rewrite !rfc_blocks_step by (rewrite ?length_app; lia). done.
  - replace ((b ++ r) ++ [0x80] ++ repeat 0 (Z.to_nat (55 - zlen r)) ++ tail)
      with (b ++ (r ++ [0x80] ++ repeat 0 (Z.to_nat (55 - zlen r)) ++ tail))
      by (rewrite <- !app_assoc; done).
    set (b1 := r ++ _ ++ _).
    assert (H1 : length b1 = 64%nat)
      by (unfold b1; rewrite !length_app, repeat_length, Ht; simpl; lia).
    rewrite length_app, H1, Hb.
    replace ((64 * k + 64) / 64)%nat with (S k) by (apply Nat.div_unique with 0%nat; lia).
    rewrite rfc_blocks_step by lia. done.
Qed.

Lemma put_length p s x y :
  zlen p = 56 -> length s = 8%nat ->
  bput (bput (p ++ s) 56 (STORE32L x)) 60 (STORE32L y) = p ++ STORE32L x ++ STORE32L y.
Proof.
  intros Hp Hs. rewrite <- Hp at 1. rewrite bput_app.
  replace 60 with (zlen (p ++ STORE32L x)) by (rewrite length_app; cbn [STORE32L length]; lia).
  rewrite bput_app, drop_drop, (drop_ge s) by (cbn [STORE32L length]; lia).
  by rewrite app_nil_r, app_assoc.
Qed.

Definition cleared : psMd5Context_t := mkMd5 0 0 (0, 0, 0, 0) 0 (repeat 0 64).

Lemma final_hash_ok md p s n :
  mbuf md = p ++ s -> zlen p = 56 -> length s = 8%nat ->
  lengthLo md = u32 n -> lengthHi md = u32 (n / 2 ^ 32) ->
  final_hash rounds md =
    (hash_of (rfc_block (state md) (p ++ STORE32L (u32 n) ++ STORE32L (u32 (n / 2 ^ 32)))), cleared).
Proof using rounds_rfc.
  intros Hm Hp Hs Hlo Hhi. unfold final_hash. cbv zeta. rewrite compress_block.
  destruct md; cbn -[rfc_block STORE32L bput] in *.
  subst. rewrite put_length by done. unfold hash_of.
  by destruct (rfc_block _ _) as [[[s0 s1] s2] s3].
Qed.

Lemma final_count_ok hi lo st r s n :
  (length r + length s = 64)%nat -> (length r < 64)%nat ->
  bit_count (mkMd5 hi lo st (zlen r) (r ++ s)) n ->
  final_count (mkMd5 hi lo st (zlen r) (r ++ s)) =
    mkMd5 (u32 ((n + 8 * zlen r) / 2 ^ 32)) (u32 (n + 8 * zlen r)) st (zlen r + 1)
          ((r ++ [0x80]) ++ drop 1 s).
Proof.
  intros Hl Hr Hn. unfold final_count. cbn [curlen].
  rewrite Z.shiftl_mul_pow2, (uwrap_small 32 (zlen r * 2 ^ 3)) by lia.
  rewrite (add_length_count _ n) by (exact Hn || lia).
  replace (zlen r * 2 ^ 3) with (8 * zlen r) by lia.
  cbn -[bput Z.mul Z.div uwrap]. rewrite Z.shiftr_div_pow2, (Z.div_small (zlen r)) by lia.
  rewrite Z.add_0_r, uwrap_idemp, bput_app by lia. done.
Qed.

(** Both ways to pad; [limit] is the fuel left over. *)
Lemma final_pad_short hi lo st p s :
  zlen (p ++ s) = 64 -> zlen p <= 56 ->
  final_pad rounds (mkMd5 hi lo st (zlen p) (p ++ s)) =
    Some (mkMd5 hi lo st 56 (p ++ repeat 0 (Z.to_nat (56 - zlen p)) ++
                             drop (Z.to_nat (56 - zlen p)) s)).
Proof.
  intros Hl Hp. unfold final_pad. cbn [curlen].
  destruct (Z.ltb_spec 56 (zlen p)); [lia|]. cbn [mbind option_bind].
  rewrite (pad_zeros_fill 65 56 _ p s) by (done || lia). done.
Qed.

Lemma final_pad_long hi lo st p s :
  zlen (p ++ s) = 64 -> 56 < zlen p ->
  final_pad rounds (mkMd5 hi lo st (zlen p) (p ++ s)) =
    let blk := p ++ repeat 0 (Z.to_nat (64 - zlen p)) in
    Some (mkMd5 hi lo (rfc_block st blk) 56 (repeat 0 56 ++ drop 56 blk)).
Proof using rounds_rfc.
  intros Hl Hp. unfold final_pad. cbn [curlen].
  destruct (Z.ltb_spec 56 (zlen p)); [|lia].
  assert (zlen p <= 64) by (rewrite length_app in Hl; lia).
  rewrite (pad_zeros_fill 65 64 _ p s) by (done || lia).
  rewrite length_app in Hl. rewrite (drop_ge s), app_nil_r by lia. cbn [mbind option_bind].
  rewrite compress_block. set (blk := p ++ _).
  assert (Hblk : zlen blk = 64) by (unfold blk; rewrite length_app, repeat_length; lia).
  rewrite (pad_zeros_fill 65 56 _ [] blk) by (done || (cbn [app length]; lia)). done.
Qed.

Lemma padded_rfc m md : absorbed m md ->
  (md ← final_pad rounds (final_count md); Some (final_hash rounds md)) = Some (rfc_md5 m, cleared).
Proof using rounds_rfc.
  intros (k & b & r & s & -> & Hb & Hst & Hbuf & Hl & Hr & Hc & Hn).
  destruct md as [hi lo st cl mb]; cbn [state mbuf curlen] in *; subst mb cl st.
  rewrite (final_count_ok _ _ _ r s _ Hl Hr Hn).
  rewrite (rfc_pad_last b r k Hb Hr). replace (8 * zlen b + 8 * zlen r) with (8 * zlen (b ++ r))
    by (rewrite length_app; lia).
  set (n := 8 * zlen (b ++ r)). clearbody n. clear Hn.
  assert (Hr1 : zlen (r ++ [0x80]) = zlen r + 1) by (rewrite length_app; simpl; lia).
  assert (Hs1 : zlen ((r ++ [0x80]) ++ drop 1 s) = 64)
    by (rewrite length_app, length_drop; lia).
  rewrite <- Hr1. destruct (Z.ltb_spec 55 (zlen r)).
  - rewrite final_pad_long by lia. cbn [mbind option_bind]. rewrite Hr1.
    replace (64 - (zlen r + 1)) with (63 - zlen r) by lia. rewrite <- app_assoc.
    f_equal. eapply final_hash_ok; try done.
    rewrite length_drop, !length_app, repeat_length. cbn [length]. lia.
  - rewrite final_pad_short by lia. cbn [mbind option_bind]. rewrite Hr1.
    replace (56 - (zlen r + 1)) with (55 - zlen r) by lia. rewrite app_assoc.
    f_equal. erewrite final_hash_ok; [| reflexivity | | | done | done].
    + by rewrite <- !app_assoc.
    + rewrite !length_app, repeat_length. cbn [length]. lia.
    + rewrite !length_drop. lia.
Qed.

Lemma rfc_md5_length m : length (rfc_md5 m) = 16%nat.
Proof. unfold rfc_md5. destruct (rfc_blocks _ _ _) as [[[s0 s1] s2] s3]. by rewrite !length_app. Qed.

Lemma psMd5Final_rfc m md hash : absorbed m md -> 16 <= zlen hash ->
  psMd5Final rounds md (Some hash) = Some (16, Some (rfc_md5 m ++ drop 16 hash), cleared).
Proof using rounds_rfc.
  intros Hm Hl. unfold psMd5Final. pose proof (padded_rfc m md Hm) as E.
  destruct (final_pad rounds (final_count md)) as [md1|]; cbn [mbind option_bind] in *; [|done]. injection E as ->.
  replace (zlen hash <? 16) with false by zb. unfold bput. cbn [Z.to_nat take app Nat.add]. by rewrite rfc_md5_length.
Qed.
End Stream.

(** ** The builds of the code *)

(** A build: the width of [unsigned long] and the rounds it was compiled with. *)
Definition is_build (rounds : list Z -> quad -> quad) : Prop :=
  exists w, 32 <= w /\ (rounds = rounds_unrolled w \/ rounds = rounds_small w).

Lemma build_rfc rounds : is_build rounds ->
  forall W q s, add_state s (rounds W q) = add_state s (rfc_rounds W q).
Proof.
  intros (w & Hw & [-> | ->]) W q s; apply add_state_eq.
  - by apply rounds_unrolled_rfc.
  - by apply rounds_small_rfc.
Qed.

(** One call of [psMd5Update] for each chunk. *)
Definition md5_updates (rounds : list Z -> quad -> quad) (md : psMd5Context_t)
  (chunks : list (list Z)) : option psMd5Context_t :=
  foldl (fun o c => md ← o; psMd5Update rounds md c (zlen c)) (Some md) chunks.

Lemma updates_absorbed rounds chunks :
  (forall W q s, add_state s (rounds W q) = add_state s (rfc_rounds W q)) ->
  forall m md, absorbed m md ->
  exists md', md5_updates rounds md chunks = Some md' /\ absorbed (m ++ concat chunks) md'.
Proof.
  intros Hr. unfold md5_updates. induction chunks as [|c chunks IH]; intros m md Hm; cbn [foldl].
  - exists md. by rewrite app_nil_r.
  - cbn [mbind option_bind]. unfold psMd5Update. rewrite Nat2Z.id.
    destruct (update_loop_absorbed rounds Hr (S (length c)) m md c Hm) as (md1 & -> & Hm1); [lia|].
    destruct (IH _ _ Hm1) as (md' & E & Hm'). exists md'. split; [exact E|].
    by rewrite <- app_assoc in Hm'.
Qed.

(** C19. Whatever the build (unrolled rounds or tables, [unsigned long] of 32 bits or
    more), and however a message is cut into calls of [psMd5Update], [psMd5Init],
    these calls and [psMd5Final] all return, and what the buffer of the caller starts with
    is the MD5 digest that RFC 1321 defines for the whole message, its length counted
    modulo 2^64 bits; the result is 16 and the context is left cleared.  Without a buffer
    [psMd5Final] returns -1 and changes nothing. *)
Theorem md5_stream_rfc rounds md chunks :
  is_build rounds -> length (mbuf md) = 64%nat ->
  exists md', md5_updates rounds (psMd5Init md) chunks = Some md' /\
    (forall hash, 16 <= zlen hash ->
      psMd5Final rounds md' (Some hash) = Some (16, Some (rfc_md5 (concat chunks) ++ drop 16 hash), cleared)) /\
    psMd5Final rounds md' None = Some (-1, None, md').
Proof.
  intros Hb Hl. pose proof (build_rfc _ Hb) as Hr.
  destruct (updates_absorbed rounds chunks Hr _ _ (init_absorbed md Hl)) as (md' & E & Hm).
  exists md'. split; [done|]. split; [|done]. intros hash Hh. by apply (psMd5Final_rfc rounds Hr (concat chunks)).
Qed.

Lemma md5_stream_rfc_witness :
  exists md', md5_updates (rounds_unrolled 64) (psMd5Init cleared) [[97]; [98; 99]] = Some md' /\
    psMd5Final (rounds_unrolled 64) md' (Some (repeat 0 16)) = Some (16, Some (rfc_md5 [97; 98; 99]), cleared).
Proof.
  destruct (md5_stream_rfc (rounds_unrolled 64) cleared [[97]; [98; 99]]) as (md' & E & H & _).
  - exists 64. split; [lia|]. left. reflexivity.
  - reflexivity.
  - exists md'. split; [exact E|]. rewrite <- (app_nil_r (rfc_md5 [97; 98; 99])). apply (H (repeat 0 16)). discriminate.
Defined.

(** The compression function gives the same context in every build, the one that
    RFC 1321 prescribes for the block in the buffer. *)
Theorem md5_builds_agree r1 r2 md :
  is_build r1 -> is_build r2 ->
  md5_compress r1 md = md5_compress r2 md /\
  md5_compress r1 md = md <| state := rfc_block (state md) (mbuf md) |>.
Proof.
  intros H1 H2. by rewrite (compress_block r1 (build_rfc _ H1)), (compress_block r2 (build_rfc _ H2)).
Qed.

Lemma md5_builds_agree_witness :
  md5_compress (rounds_unrolled 32) cleared = md5_compress (rounds_small 64) cleared /\
  md5_compress (rounds_unrolled 32) cleared =
    cleared <| state := rfc_block (state cleared) (mbuf cleared) |>.
Proof.
  apply (md5_builds_agree (rounds_unrolled 32) (rounds_small 64) cleared).
  - exists 32. split; [lia|]. left. reflexivity.
  - exists 64. split; [lia|]. right. reflexivity.
Defined.
