(* ===== verification/Digest.v ===== *)
(** * Digest access authentication (webs/src/src/websda.c)

    The MD5 strings and the digest of RFC 2617 that the password of a request is checked
    against, over [Md5] and the formatter.  The requests of the server are records of the
    fields that are read.  A block that [balloc] does not give is a null pointer; reading it,
    or past the end of a block, is [None]. *)

From Stdlib Require Import Ascii.
From S2P Require Import Prelude CString Fmt Url UrlSpec Md5.
#[local] Open Scope Z_scope.
#[local] Open Scope cint_scope.

Definition RANDOMKEY : list Z := str "onceuponatimeinparadise".
Definition HASH_SIZE : Z := 16.

(** The fields of [websRec]; [request_method] is the variable REQUEST_METHOD. *)
Record digest_req : Type := mkDigestReq {
  userName : cptr;
  realm : cptr;
  da_password : cptr;
  uri : cptr;
  da_url : cptr;
  nonce : cptr;
  nc : cptr;
  cnonce : cptr;
  qop : cptr;
  request_method : cptr
}.

(** A string as an argument of the formatter. *)
Definition sarg (p : cptr) : farg := AStr (match p with Some s => Some (s ++ [0]) | None => None end).

Section Digest.
Context (rounds : list Z -> quad -> quad) (md0 : psMd5Context_t) (hash0 : list Z).
Context (balloc : Z -> option (list Z)) (brealloc : list Z -> Z -> option (list Z)) (lw : Z).

(** [for (i = 0, r = result; i < 16; i++)] *)
Definition hex_loop (hash : list Z) : list Z :=
  concat (map (fun h => [zget (str "0123456789abcdef") (Z.shiftr h 4); zget (str "0123456789abcdef") (Z.land h 15)])
            (take 16 hash)).

(** [md0] and [hash0] are what the stack holds where the context and the hash are put; [buf]
    are the bytes that [length] counts. *)
Definition websMD5binary (buf : list Z) (len : Z) : option (list Z) :=
  md ← psMd5Update rounds (psMd5Init md0) buf len;
  '(_, hash, _) ← psMd5Final rounds md (Some hash0);
  hash ← hash;
  let result := hex_loop hash ++ [0] in
  let i := 2 * HASH_SIZE + 1 in
  strReturn ← balloc i;
  Some (bput strReturn 0 result).

(** The conversions of misc.c copy, since characters are bytes. *)
Definition ballocUniToAsc (unip : list Z) (ulen : Z) : option (option (list Z)) :=
  match balloc (ulen + 1) with
  | None => Some None
  | Some cp =>
      if ulen <=? zlen unip then b ← store (bput cp 0 (bsub unip 0 ulen)) ulen 0; Some (Some b) else None
  end.

Definition ballocAscToUni (cp : list Z) (alen : Z) : option (option (list Z)) :=
  let ulen := alen + 1 in
  match balloc ulen with
  | None => Some None
  | Some unip =>
      if ulen <=? zlen cp then b ← store (bput unip 0 (bsub cp 0 ulen)) alen 0; Some (Some b) else None
  end.

Definition websMD5 (string : list Z) : option (option (list Z)) :=
  c ← load string 0;
  if negb (c =? 0) then
    nLen ← strlen string;
    strTemp ← ballocUniToAsc string (nLen + 1);
    strTemp ← strTemp;
    strHash ← websMD5binary (bsub strTemp 0 nLen) nLen;
    nLen ← strlen strHash;
    ballocAscToUni strHash nLen
  else Some None.

(** [asctime] is the text that [gasctime] gives for the time. *)
Definition websCalcNonce (wp : digest_req) (asctime : list Z) : option (option (list Z)) :=
  '(_, prenonce) ← fmtAlloc balloc brealloc lw 256 (str "%s:%s:%s") [sarg (Some RANDOMKEY); sarg (Some asctime); sarg (realm wp)];
  prenonce ← prenonce;
  websMD5 prenonce.

Definition websCalcOpaque (bstrdup : list Z -> cptr) : cptr := bstrdup (str "5ccc069c403ebaf9f0171e9517f40e41").

Definition calc_a1 (wp : digest_req) : option (list Z) :=
  '(_, a1) ← fmtAlloc balloc brealloc lw 255 (str "%s:%s:%s") [sarg (userName wp); sarg (realm wp); sarg (da_password wp)];
  a1 ← a1;
  a1prime ← websMD5 a1;
  a1prime ← a1prime;
  cstr a1prime.

(** KD(H(A1):nonce:H(A2)) *)
Definition calc_final (wp : digest_req) (a1prime a2prime : list Z) : option (option (list Z)) :=
  '(_, preDigest) ←
    (match qop wp with
     | None => fmtAlloc balloc brealloc lw 255 (str "%s:%s:%s") [sarg (Some a1prime); sarg (nonce wp); sarg (Some a2prime)]
     | Some _ =>
         fmtAlloc balloc brealloc lw 255 (str "%s:%s:%s:%s:%s:%s")
           [sarg (Some a1prime); sarg (nonce wp); sarg (nc wp); sarg (cnonce wp); sarg (qop wp); sarg (Some a2prime)]
     end);
  preDigest ← preDigest;
  websMD5 preDigest.

Definition websCalcDigest (wp : digest_req) : option (option (list Z)) :=
  a1prime ← calc_a1 wp;
  '(_, a2) ← fmtAlloc balloc brealloc lw 255 (str "%s:%s") [sarg (request_method wp); sarg (uri wp)];
  a2 ← a2;
  a2prime ← websMD5 a2;
  a2prime ← a2prime;
  a2prime ← cstr a2prime;
  calc_final wp a1prime a2prime.

(** [gsprintf(a2, "%s:%s", method, wp->url)] *)
Definition sprintf_pair (b method url : list Z) : option (list Z) :=
  let t := method ++ str ":" ++ url in
  if zlen t <? zlen b then Some (bput b 0 (t ++ [0])) else None.

Definition websCalcUrlDigest (wp : digest_req) : option (option (list Z)) :=
  a1prime ← calc_a1 wp;
  method ← request_method wp;
  url ← da_url wp;
  a2 ← balloc (zlen method + 2 + zlen url);
  a2 ← sprintf_pair a2 method url;
  a2prime ← websMD5 a2;
  a2prime ← a2prime;
  a2prime ← cstr a2prime;
  calc_final wp a1prime a2prime.
End Digest.

(** ** RFC 2617 *)

Definition hex_text (hash : list Z) : list Z :=
  concat (map (fun h => [zget (str "0123456789abcdef") (h / 16); zget (str "0123456789abcdef") (h mod 16)]) hash).

(** Strings with colons between. *)
Definition colons (l : list (list Z)) : list Z :=
  match l with [] => [] | s :: l => s ++ concat (map (cons 58) l) end.

(** H(data) and KD(secret, data) *)
Definition rfc_H (m : list Z) : list Z := hex_text (rfc_md5 m).
Definition rfc_A1 (user rlm pass : list Z) : list Z := colons [user; rlm; pass].
Definition plain_A2 (method digest_uri : list Z) : list Z := colons [method; digest_uri].

(** Section 3.2.2.3: the body is part of A2 for the qop auth-int. *)
Inductive protection : Type := Auth | AuthInt.
Definition rfc_A2 (p : protection) (method digest_uri body : list Z) : list Z :=
  match p with
  | Auth => plain_A2 method digest_uri
  | AuthInt => colons [method; digest_uri; rfc_H body]
  end.

(** The nonce count, the client nonce and the qop of a request that has one; the text of a
    qop. *)
Abbreviation rfc_qop := (option (list Z * list Z * protection)).
Definition quality (q : rfc_qop) : protection := match q with Some (_, _, p) => p | None => Auth end.
Definition qop_text (p : protection) : list Z := match p with Auth => str "auth" | AuthInt => str "auth-int" end.
Definition with_text (q : rfc_qop) : option (list Z * list Z * list Z) :=
  option_map (fun '(nc, cnonce, p) => (nc, cnonce, qop_text p)) q.

(** The text whose hash is the response; a request without qop is one of RFC 2069. *)
Definition rfc_data (a1 a2 n : list Z) (q : option (list Z * list Z * list Z)) : list Z :=
  match q with
  | None => colons [rfc_H a1; n; rfc_H a2]
  | Some (nc, cnonce, qop) => colons [rfc_H a1; n; nc; cnonce; qop; rfc_H a2]
  end.

Definition rfc_response (user rlm pass n : list Z) (q : rfc_qop) (meth uri body : list Z) : list Z :=
  rfc_H (rfc_data (rfc_A1 user rlm pass) (rfc_A2 (quality q) meth uri body) n (with_text q)).

Definition is_byte (c : Z) : bool := (0 <=? c) && (c <? 256).

Lemma store32_bytes x : Forall (fun c => is_byte c = true) (STORE32L x) /\ length (STORE32L x) = 4%nat.
Proof.
  unfold STORE32L. split; [|done]. repeat constructor; unfold is_byte; pose proof uwrap_range 8 as H;
    repeat match goal with |- context [u8 ?z] => pose proof (H z ltac:(lia)); generalize dependent (u8 z); intros end;
    apply andb_true_intro; split; zb.
Qed.

Lemma md5_bytes m : Forall (fun c => is_byte c = true) (rfc_md5 m) /\ length (rfc_md5 m) = 16%nat.
Proof.
  unfold rfc_md5. destruct (rfc_blocks _ _ _) as [[[s0 s1] s2] s3].
  destruct (store32_bytes s0) as [H0 L0], (store32_bytes s1) as [H1 L1], (store32_bytes s2) as [H2 L2], (store32_bytes s3) as [H3 L3].
  split; [repeat (apply Forall_app; split); done|]. rewrite !length_app. lia.
Qed.

Lemma hex_digits_ok : forallb (fun h =>
    let a := zget (str "0123456789abcdef") (h / 16) in let b := zget (str "0123456789abcdef") (h mod 16) in
    (a =? zget (str "0123456789abcdef") (Z.shiftr h 4)) && (b =? zget (str "0123456789abcdef") (Z.land h 15)) &&
    negb (a =? 0) && negb (b =? 0)) (seqZ 0 256) = true.
Proof. vm_compute. reflexivity. Qed.

Lemma hex_digits h : is_byte h = true ->
  zget (str "0123456789abcdef") (h / 16) = zget (str "0123456789abcdef") (Z.shiftr h 4) /\
  zget (str "0123456789abcdef") (h mod 16) = zget (str "0123456789abcdef") (Z.land h 15) /\
  zget (str "0123456789abcdef") (h / 16) <> 0 /\ zget (str "0123456789abcdef") (h mod 16) <> 0.
Proof.
  intros Hh. unfold is_byte in Hh. apply andb_true_iff in Hh as [Ha%Z.leb_le Hc%Z.ltb_lt].
  pose proof hex_digits_ok as Hd. rewrite forallb_forall in Hd. specialize (Hd h). rewrite <- list_elem_of_In, elem_of_seqZ in Hd.
  specialize (Hd ltac:(lia)). cbv zeta in Hd. apply andb_true_iff in Hd as [Hd N2%negb_true_iff%Z.eqb_neq].
  apply andb_true_iff in Hd as [Hd N1%negb_true_iff%Z.eqb_neq]. by apply andb_true_iff in Hd as [E1%Z.eqb_eq E2%Z.eqb_eq].
Qed.

Lemma hex_text_ok hash : Forall (fun c => is_byte c = true) hash ->
  concat (map (fun h => [zget (str "0123456789abcdef") (Z.shiftr h 4); zget (str "0123456789abcdef") (Z.land h 15)]) hash) = hex_text hash /\
  no_nul (hex_text hash) /\ length (hex_text hash) = (2 * length hash)%nat.
Proof.
  unfold hex_text. induction 1 as [|h hash Hh _ (IH1 & IH2 & IH3)]; [split; [done|]; split; [constructor|done]|].
  destruct (hex_digits h Hh) as (E1 & E2 & N1 & N2). cbn [map concat app length]. split; [by rewrite IH1, E1, E2|]. split.
  - constructor; [exact N1|]. constructor; [exact N2|exact IH2].
  - rewrite IH3. lia.
Qed.

Lemma rfc_H_ok m : hex_loop (rfc_md5 m) = rfc_H m /\ no_nul (rfc_H m) /\ zlen (rfc_H m) = 32.
Proof.
  destruct (md5_bytes m) as [Hb Hl]. unfold hex_loop, rfc_H. rewrite take_ge by lia.
  destruct (hex_text_ok _ Hb) as (-> & Hn & H). split; [done|]. split; [done|]. rewrite H, Hl. done.
Qed.

Section DigestSpec.
Context (rounds : list Z -> quad -> quad) (md0 : psMd5Context_t) (hash0 : list Z).
Context (balloc : Z -> option (list Z)) (brealloc : list Z -> Z -> option (list Z)) (lw : Z).
Hypothesis build : is_build rounds.
Hypothesis md0_ok : length (mbuf md0) = 64%nat.
Hypothesis hash0_ok : zlen hash0 = HASH_SIZE.
Hypothesis lw_ok : lw = 32 \/ lw = 64.
Hypothesis balloc_ok : forall n, 0 < n <= 2 ^ 30 -> exists b, balloc n = Some b /\ zlen b = n.
Hypothesis brealloc_ok : forall b n, zlen b <= n <= 2 ^ 30 ->
  exists b', brealloc b n = Some b' /\ zlen b' = n /\ take (length b) b' = b.

Lemma md5_whole m : exists md', psMd5Update rounds (psMd5Init md0) m (zlen m) = Some md' /\
  psMd5Final rounds md' (Some hash0) = Some (16, Some (rfc_md5 m), cleared).
Proof using All.
  pose proof (build_rfc _ build) as Hr.
  destruct (updates_absorbed rounds [m] Hr _ _ (init_absorbed md0 md0_ok)) as (md' & E & Hm).
  unfold md5_updates in E. cbn [foldl mbind option_bind] in E. exists md'. split; [exact E|].
  cbn [app concat] in Hm. rewrite app_nil_r in Hm. rewrite (psMd5Final_rfc rounds Hr m) by (done || (unfold HASH_SIZE in *; lia)).
  by rewrite drop_ge, app_nil_r by (unfold HASH_SIZE in *; lia).
Qed.

(** A block that is filled by a string of its size. *)
Lemma bput_all b d : zlen b = zlen d -> bput b 0 d = d.
Proof. intros H. unfold bput. cbn [Z.to_nat take app Nat.add]. rewrite drop_ge by lia. apply app_nil_r. Qed.

Lemma websMD5binary_rfc m : websMD5binary rounds md0 hash0 balloc m (zlen m) = Some (rfc_H m ++ [0]).
Proof using All.
  unfold websMD5binary. destruct (md5_whole m) as (md' & -> & E). cbn [mbind option_bind]. rewrite E. cbn [mbind option_bind].
  destruct (rfc_H_ok m) as (-> & _ & Hl). destruct (balloc_ok (2 * HASH_SIZE + 1)) as (b & -> & Hb); [by unfold HASH_SIZE|].
  cbn [mbind option_bind]. f_equal. apply bput_all. rewrite Hb, length_app. unfold HASH_SIZE. cbn [length]. lia.
Qed.

Lemma bput_prefix b d k : zlen b = zlen d + k -> 0 <= k -> exists t, bput b 0 d = d ++ t /\ zlen t = k.
Proof.
  intros H Hk. unfold bput. cbn [Z.to_nat take app Nat.add]. exists (drop (length d) b). split; [done|]. rewrite length_drop. lia.
Qed.

Lemma uni_to_asc s b : no_nul s -> zlen s <= 2 ^ 27 ->
  exists t, ballocUniToAsc balloc (s ++ 0 :: b) (zlen s + 1) = Some (Some (s ++ 0 :: t)).
Proof using All.
  intros Hs Hl. unfold ballocUniToAsc. destruct (balloc_ok (zlen s + 1 + 1)) as (cp & -> & Hcp); [lia|].
  rewrite length_app. cbn [length]. replace (zlen s + 1 <=? _) with true by zb.
  replace (bsub (s ++ 0 :: b) 0 (zlen s + 1)) with (s ++ [0]).
  2: { unfold bsub. change (Z.to_nat 0) with 0%nat. rewrite drop_0. change (s ++ 0 :: b) with (s ++ [0] ++ b). rewrite (assoc_L (++)).
       rewrite take_app_le by (rewrite length_app; cbn [length]; lia). rewrite take_ge; [done|]. rewrite length_app. cbn [length]. lia. }
  destruct (bput_prefix cp (s ++ [0]) 1) as (t & -> & Ht); [rewrite length_app; cbn [length]; lia|lia|].
  destruct t as [|x [|]]; cbn [length] in Ht; try lia. rewrite (store_at (s ++ [0])) by (rewrite length_app; cbn [length]; lia).
  cbn [mbind option_bind]. rewrite <- (assoc_L (++)). by exists [0].
Qed.

Lemma asc_to_uni s : no_nul s -> zlen s <= 2 ^ 27 -> ballocAscToUni balloc (s ++ [0]) (zlen s) = Some (Some (s ++ [0])).
Proof using All.
  intros Hs Hl. unfold ballocAscToUni. destruct (balloc_ok (zlen s + 1)) as (unip & -> & Hu); [lia|].
  rewrite length_app. cbn [length]. replace (zlen s + 1 <=? _) with true by zb.
  replace (bsub (s ++ [0]) 0 (zlen s + 1)) with (s ++ [0]).
  2: { unfold bsub. change (Z.to_nat 0) with 0%nat. rewrite drop_0, take_ge; [done|]. rewrite length_app. cbn [length]. lia. }
  rewrite bput_all by (rewrite length_app; cbn [length]; lia). by rewrite store_app.
Qed.

Lemma websMD5_rfc b s : cstr b = Some s -> s <> [] -> zlen s <= 2 ^ 27 ->
  websMD5 rounds md0 hash0 balloc b = Some (Some (rfc_H s ++ [0])).
Proof using All.
  intros [Hn (b' & ->)]%cstr_sound Hs Hl. unfold websMD5, strlen. rewrite cstr_app by done. cbn [mbind option_bind].
  assert (Hld : exists c, load (s ++ 0 :: b') 0 = Some c /\ c <> 0).
  { destruct s as [|c s']; [done|]. exists c. split; [done|]. by inversion Hn. }
  destruct Hld as (c & -> & Hc). cbn [mbind option_bind]. rewrite (proj2 (Z.eqb_neq c 0) Hc). cbn [negb].
  destruct (uni_to_asc s b' Hn Hl) as (t & ->). cbn [mbind option_bind].
  replace (bsub (s ++ 0 :: t) 0 (zlen s)) with s by (unfold bsub; rewrite Nat2Z.id; cbn [Z.to_nat]; by rewrite drop_0, take_app_length).
  rewrite websMD5binary_rfc. cbn [mbind option_bind]. destruct (rfc_H_ok s) as (_ & Hh & Hl'). rewrite cstr_app by done.
  cbn [mbind option_bind]. apply asc_to_uni; [done|lia].
Qed.

(** ** Strings with colons *)

Lemma colons_format cap l : Forall (fun s => no_nul s /\ zlen s < 2 ^ 32) l -> forall fuel acc, (3 * length l < fuel)%nat ->
  format_loop (H := text_sink cap) lw fuel acc (Some (concat (map (fun _ => str ":%s") l))) (map (fun s => sarg (Some s)) l) =
  Some (acc ++ concat (map (cons 58) l), []).
Proof using All.
  induction 1 as [|s l [Hs Hl] _ IH]; intros fuel acc Hf; cbn [map concat length] in *.
  - destruct fuel; [lia|]. rewrite app_nil_r. apply (format_end lw cap).
  - destruct fuel as [|[|[|[|fuel]]]]; [lia..|]. change (str ":%s" ++ ?x) with ([58] ++ 37 :: 115 :: x).
    change (S (S (S (S fuel)))) with (length [58] + S (S (S fuel)))%nat. rewrite (format_plain lw cap [58]) by by repeat constructor.
    rewrite (format_s lw cap lw_ok fuel _ (s ++ [0]) s) by (done || by apply cstr_app). rewrite IH by lia. by rewrite <- !app_assoc.
Qed.

Lemma colons_text cap s l : no_nul s -> zlen s < 2 ^ 32 -> Forall (fun s => no_nul s /\ zlen s < 2 ^ 32) l ->
  text lw cap (str "%s" ++ concat (map (fun _ => str ":%s") l)) (map (fun s => sarg (Some s)) (s :: l)) = Some (colons (s :: l), []).
Proof using All.
  intros Hs Hl Hr. unfold text, text_after, format. cbn [map].
  change (str "%s" ++ ?x) with (37 :: 115 :: x). cbn [length].
  rewrite (format_s lw cap lw_ok _ [] (s ++ [0]) s) by (done || by apply cstr_app).
  rewrite colons_format; [done|done|]. clear. induction l; cbn [map concat length]; [lia|]. rewrite length_app.
  change (length (str ":%s")) with 3%nat. lia.
Qed.

Lemma colons_no_nul l : Forall no_nul l -> no_nul (colons l).
Proof.
  destruct 1 as [|s l Hs Hl]; [constructor|]. cbn [colons]. apply Forall_app. split; [done|].
  induction Hl as [|t l Ht _ IH]; [constructor|]. cbn [map concat]. apply Forall_app. split; [by constructor|done].
Qed.

(** The texts of 191 characters at most come through the limit of 255. *)
Lemma fmt_colons n s l : n = 255 \/ n = 256 -> Forall (fun s => no_nul s) (s :: l) -> zlen (colons (s :: l)) <= 191 -> l <> [] ->
  exists b, fmtAlloc balloc brealloc lw n (str "%s" ++ concat (map (fun _ => str ":%s") l)) (map (fun s => sarg (Some s)) (s :: l)) =
      Some (zlen (colons (s :: l)), Some b) /\
    websMD5 rounds md0 hash0 balloc b = Some (Some (rfc_H (colons (s :: l)) ++ [0])).
Proof using All.
  intros Hn Hs Hl Hne. assert (Hlen : Forall (fun s => no_nul s /\ zlen s < 2 ^ 32) (s :: l)).
  { apply List.Forall_forall. intros t Ht. split; [by eapply List.Forall_forall in Hs|].
    assert (Hsum : zlen t <= zlen (colons (s :: l))); [|lia]. cbn [colons]. rewrite length_app. destruct Ht as [->|Ht]; [lia|].
    clear -Ht. induction l as [|u l IH]; [done|]. cbn [map concat]. rewrite length_app. cbn [length]. destruct Ht as [->|Ht]; [lia|].
    specialize (IH Ht). lia. }
  apply Forall_cons_iff in Hlen as [[Hs1 Hs2] Hr].
  assert (Hcap : 191 <= capacity n) by (destruct Hn as [-> | ->]; by vm_compute).
  destruct (fmtAlloc_spec balloc brealloc balloc_ok brealloc_ok lw n _ _ _ _ ltac:(lia) (colons_text (capacity n) s l Hs1 Hs2 Hr))
    as (b & E & Hb); [left; unfold STR_INC; lia|].
  rewrite Z.min_l in E by lia. rewrite take_ge in Hb by lia. exists b. split; [exact E|]. apply websMD5_rfc; [done| |lia].
  destruct s; [|done]. by destruct l.
Qed.

(** A request whose fields are all there; [q] are its nonce count, client nonce and qop. *)
Definition request (user rlm pass ur url n meth : list Z) (q : option (list Z * list Z * list Z)) : digest_req :=
  mkDigestReq (Some user) (Some rlm) (Some pass) (Some ur) (Some url) (Some n)
    (option_map (fun t => fst (fst t)) q) (option_map (fun t => snd (fst t)) q) (option_map snd q) (Some meth).

Definition q_ok (q : option (list Z * list Z * list Z)) : Prop :=
  match q with Some (nc, cnonce, qop) => no_nul nc /\ no_nul cnonce /\ no_nul qop | None => True end.

Lemma calc_a1_rfc user rlm pass ur url n meth q : no_nul user -> no_nul rlm -> no_nul pass ->
  zlen (rfc_A1 user rlm pass) <= 191 ->
  calc_a1 rounds md0 hash0 balloc brealloc lw (request user rlm pass ur url n meth q) = Some (rfc_H (rfc_A1 user rlm pass)).
Proof using All.
  intros Hu Hr Hp Hl. unfold calc_a1, request. cbn [userName realm da_password].
  destruct (fmt_colons 255 user [rlm; pass]) as (b & E & Hm); [by left|by repeat constructor|done|done|].
  change (str "%s" ++ concat (map (fun _ => str ":%s") [rlm; pass])) with (str "%s:%s:%s") in E. cbn [map] in E.
  rewrite E. cbn [mbind option_bind]. rewrite Hm. cbn [mbind option_bind]. apply cstr_app. apply rfc_H_ok.
Qed.

Lemma calc_final_rfc user rlm pass ur url n meth q a1 a2 : no_nul n -> q_ok q -> zlen (rfc_data a1 a2 n q) <= 191 ->
  calc_final rounds md0 hash0 balloc brealloc lw (request user rlm pass ur url n meth q) (rfc_H a1) (rfc_H a2) =
    Some (Some (rfc_H (rfc_data a1 a2 n q) ++ [0])).
Proof using All.
  intros Hn Hq Hl. pose proof (proj1 (proj2 (rfc_H_ok a1))) as H1. pose proof (proj1 (proj2 (rfc_H_ok a2))) as H2.
  unfold calc_final, request, rfc_data in *. cbn [userName realm da_password nonce nc cnonce qop option_map].
  destruct q as [[[cnt cn] qp]|]; cbn [option_map fst snd].
  - destruct Hq as (Hc1 & Hc2 & Hc3).
    destruct (fmt_colons 255 (rfc_H a1) [n; cnt; cn; qp; rfc_H a2]) as (b & E & Hm); [by left|by repeat constructor|done|done|].
    change (str "%s" ++ concat (map (fun _ => str ":%s") [n; cnt; cn; qp; rfc_H a2])) with (str "%s:%s:%s:%s:%s:%s") in E. cbn [map] in E.
    rewrite E. cbn [mbind option_bind]. exact Hm.
  - destruct (fmt_colons 255 (rfc_H a1) [n; rfc_H a2]) as (b & E & Hm); [by left|by repeat constructor|done|done|].
    change (str "%s" ++ concat (map (fun _ => str ":%s") [n; rfc_H a2])) with (str "%s:%s:%s") in E. cbn [map] in E.
    rewrite E. cbn [mbind option_bind]. exact Hm.
Qed.

Lemma sprintf_pair_fits b meth url : zlen b = zlen meth + 2 + zlen url ->
  sprintf_pair b meth url = Some (plain_A2 meth url ++ [0]).
Proof.
  intros Hb. unfold sprintf_pair. change (str ":") with [58].
  assert (E : meth ++ [58] ++ url = plain_A2 meth url) by (unfold plain_A2, colons; cbn [map concat]; by rewrite app_nil_r).
  rewrite E. assert (Hl : zlen (plain_A2 meth url) = zlen meth + 1 + zlen url) by (rewrite <- E, !length_app; cbn [length]; lia).
  replace (_ <? _) with true by zb. f_equal. apply bput_all. rewrite length_app. cbn [length]. lia.
Qed.

(** The code never looks at the body: whatever the request has as its qop, both functions
    hash the method and the URI only. *)
Lemma digests_plain user rlm pass ur url n meth q :
  no_nul user -> no_nul rlm -> no_nul pass -> no_nul ur -> no_nul url -> no_nul n -> no_nul meth -> q_ok q ->
  zlen (rfc_A1 user rlm pass) <= 191 -> zlen (plain_A2 meth ur) <= 191 -> zlen (plain_A2 meth url) <= 2 ^ 27 ->
  (forall a1 a2, zlen (rfc_data a1 a2 n q) <= 191) ->
  let response a2 := Some (Some (rfc_H (rfc_data (rfc_A1 user rlm pass) a2 n q) ++ [0])) in
  websCalcDigest rounds md0 hash0 balloc brealloc lw (request user rlm pass ur url n meth q) = response (plain_A2 meth ur) /\
  websCalcUrlDigest rounds md0 hash0 balloc brealloc lw (request user rlm pass ur url n meth q) = response (plain_A2 meth url).
Proof using All.
  intros Hu Hr Hp Hur Hurl Hn Hm Hq L1 L2 L3 L4 response. unfold websCalcDigest, websCalcUrlDigest.
  rewrite calc_a1_rfc by done. cbn [mbind option_bind]. cbn [request request_method uri da_url mbind option_bind]. split.
  - destruct (fmt_colons 255 meth [ur]) as (b & E & Hb); [by left|by repeat constructor|done|done|].
    change (str "%s" ++ concat (map (fun _ => str ":%s") [ur])) with (str "%s:%s") in E. cbn [map] in E.
    rewrite E. cbn [mbind option_bind]. rewrite Hb. cbn [mbind option_bind]. rewrite cstr_app by apply rfc_H_ok. cbn [mbind option_bind].
    exact (calc_final_rfc user rlm pass ur url n meth q _ _ Hn Hq (L4 _ _)).
  - assert (Hlen : zlen (plain_A2 meth url) = zlen meth + 1 + zlen url).
    { unfold plain_A2, colons. cbn [map concat]. rewrite app_nil_r, length_app. cbn [length]. lia. }
    destruct (balloc_ok (zlen meth + 2 + zlen url)) as (b & -> & Hb); [lia|]. cbn [mbind option_bind].
    rewrite sprintf_pair_fits by done. cbn [mbind option_bind].
    rewrite (websMD5_rfc _ (plain_A2 meth url)); [|apply cstr_app; apply colons_no_nul; by repeat constructor|by destruct meth|done].
    cbn [mbind option_bind]. rewrite cstr_app by apply rfc_H_ok. cbn [mbind option_bind]. exact (calc_final_rfc user rlm pass ur url n meth q _ _ Hn Hq (L4 _ _)).
Qed.

(** C33. For a request without qop (RFC 2069) or with the qop auth both functions compute the
    response of RFC 2617 for the user, the realm and the password, the method and the URI
    (or the URL), the nonce and, with a qop, its count and client nonce, whatever the body
    is: in every build of the MD5 routines, for texts that fit the 191 characters which the
    limit of 255 leaves.  The qop auth-int, for which the RFC hashes the body, is not
    implemented ([auth_int_ignored]). *)
Theorem digest_rfc2617 user rlm pass ur url n meth q body :
  no_nul user -> no_nul rlm -> no_nul pass -> no_nul ur -> no_nul url -> no_nul n -> no_nul meth -> q_ok (with_text q) ->
  zlen (rfc_A1 user rlm pass) <= 191 -> zlen (plain_A2 meth ur) <= 191 -> zlen (plain_A2 meth url) <= 2 ^ 27 ->
  (forall a1 a2, zlen (rfc_data a1 a2 n (with_text q)) <= 191) -> quality q <> AuthInt ->
  let wp := request user rlm pass ur url n meth (with_text q) in
  websCalcDigest rounds md0 hash0 balloc brealloc lw wp = Some (Some (rfc_response user rlm pass n q meth ur body ++ [0])) /\
  websCalcUrlDigest rounds md0 hash0 balloc brealloc lw wp = Some (Some (rfc_response user rlm pass n q meth url body ++ [0])).
Proof using All.
  intros Hu Hr Hp Hur Hurl Hn Hm Hq L1 L2 L3 L4 Hb wp. unfold rfc_response. replace (rfc_A2 (quality q)) with (rfc_A2 Auth).
  - by apply digests_plain.
  - by destruct (quality q).
Qed.
End DigestSpec.

(** The example of section 3.5 of the RFC. *)
Definition mufasa_qop : rfc_qop := Some (str "00000001", str "0a4f113b", Auth).
Definition mufasa : digest_req :=
  request (str "Mufasa") (str "testrealm@host.com") (str "Circle Of Life") (str "/dir/index.html") (str "/dir/index.html")
    (str "dcd98b7102dd2f0e8b11d0f600bfb0c093") (str "GET") (with_text mufasa_qop).

Lemma mufasa_response :
  rfc_response (str "Mufasa") (str "testrealm@host.com") (str "Circle Of Life") (str "dcd98b7102dd2f0e8b11d0f600bfb0c093")
    mufasa_qop (str "GET") (str "/dir/index.html") [] = str "6629fae49393a05397450978507c4ef1".
Proof. vm_compute. reflexivity. Qed.

Lemma mufasa_fits a1 a2 : zlen (rfc_data a1 a2 (str "dcd98b7102dd2f0e8b11d0f600bfb0c093") (with_text mufasa_qop)) <= 191.
Proof.
  unfold rfc_data, colons, with_text, mufasa_qop, qop_text. cbn [option_map].
  destruct (rfc_H_ok a1) as (_ & _ & H1), (rfc_H_ok a2) as (_ & _ & H2).
  rewrite length_app, Nat2Z.inj_add, H1. cbn [map concat]. rewrite !length_app. cbn [length].
  change (length (str "dcd98b7102dd2f0e8b11d0f600bfb0c093")) with 34%nat. change (length (str "00000001")) with 8%nat.
  change (length (str "0a4f113b")) with 8%nat. change (length (str "auth")) with 4%nat. lia.
Qed.

Lemma digest_rfc2617_witness :
  websCalcDigest (rounds_unrolled 32) cleared (repeat 0 16) Fmt.demo_balloc demo_brealloc 32 mufasa =
    Some (Some (str "6629fae49393a05397450978507c4ef1" ++ [0])).
Proof.
  rewrite <- mufasa_response.
  apply (digest_rfc2617 (rounds_unrolled 32) cleared (repeat 0 16) Fmt.demo_balloc demo_brealloc 32
    (ex_intro _ 32 (conj (Z.le_refl 32) (or_introl eq_refl))) eq_refl eq_refl (or_introl eq_refl) demo_balloc_ok demo_brealloc_ok
    (str "Mufasa") (str "testrealm@host.com") (str "Circle Of Life") (str "/dir/index.html") (str "/dir/index.html")
    (str "dcd98b7102dd2f0e8b11d0f600bfb0c093") (str "GET") mufasa_qop []).
  1-7: apply (bool_decide_unpack _); vm_compute; reflexivity.
  - split; [|split]; apply (bool_decide_unpack _); vm_compute; reflexivity.
  - vm_compute. discriminate.
  - vm_compute. discriminate.
  - vm_compute. discriminate.
  - apply mufasa_fits.
  - discriminate.
Defined.

(** With the qop auth-int the response of the server is not that of the RFC: a client that
    protects its body is refused. *)
Example auth_int_ignored :
  let q := Some (str "00000001", str "0a4f113b", AuthInt) in
  let digest := websCalcDigest (rounds_unrolled 32) cleared (repeat 0 16) Fmt.demo_balloc demo_brealloc 32
    (request (str "Mufasa") (str "testrealm@host.com") (str "Circle") (str "/form") (str "/form") (str "dcd98b7102") (str "POST") (with_text q)) in
  digest <> None /\
  digest <> Some (Some (rfc_response (str "Mufasa") (str "testrealm@host.com") (str "Circle") (str "dcd98b7102") q (str "POST") (str "/form") (str "a=1") ++ [0])).
Proof. vm_compute. split; discriminate. Qed.

(** Behind a user name of 186 characters the password is cut away: any one is right. *)
Example password_cut :
  let r pass := request (repeat 97 186) (str "host") pass [] [] [] [] None in
  let a1 pass := calc_a1 (rounds_unrolled 32) cleared (repeat 0 16) Fmt.demo_balloc demo_brealloc 32 (r pass) in
  a1 (str "secret") = a1 (str "other") /\ a1 (str "secret") <> None.
Proof. vm_compute. split; [reflexivity|discriminate]. Qed.
