(* ===== verification/MulTimer.v ===== *)
(** * Many timers on one signal (mul_timer/mul_timer.c, mul_timer.h)

    A table of ten timers is driven by one periodic signal of the system; [sig_func] counts
    the ticks and calls the function of a timer whenever its interval is over.  The function
    may set and delete timers itself: a [timer_proc] is a function on the table and on [W],
    the rest of the world.  [setitimer] and [signal] are the system's; what they answer is an
    argument.  [None] is an access outside of memory. *)

From S2P Require Import Prelude Url.
#[local] Open Scope Z_scope.
#[local] Open Scope cint_scope.

Definition MAX_TIMER_CNT : Z := 10.
Definition MAX_FUNC_ARG_LEN : Z := 100.

Section Timers.
Context {P W : Type}.

(** [struct _timer_info]; a [timer_proc] that is null is [None]. *)
Record timer_info : Type := mkTimer {
  state : Z;
  interval : Z;
  elapse : Z;
  timer_proc : option P;
  func_arg : list Z;
  arg_len : Z
}.

Definition no_timer : timer_info := mkTimer 0 0 0 None (repeat 0 100) 0.

(** The array of [struct _timer_manage]. *)
Abbreviation timers := (list timer_info).

Definition init_table : timers := repeat no_timer 10.

(** The results of the calls of [signal] and [setitimer]: did the first succeed, and what the
    second one gives. *)
Definition init_mul_timer (signal_ok : bool) (setitimer : Z) (tm : timers) : Z * timers :=
  if signal_ok then (setitimer, init_table) else (-1, init_table).

Definition destroy_mul_timer (signal_ok : bool) (setitimer : Z) (tm : timers) : Z * timers :=
  if negb signal_ok then (-1, tm) else if setitimer <? 0 then (-1, tm) else (0, init_table).

(** The entry that [set_a_timer] fills; [p] is the argument, null or a block. *)
Definition fill_timer (itv : Z) (proc : P) (p : option (list Z)) (n : Z) : option (option timer_info) :=
  let t := no_timer <| timer_proc := Some proc |> in
  t ← match p with
      | None => Some (Some t)
      | Some b =>
          if MAX_FUNC_ARG_LEN <? n then Some None
          else if (0 <=? n) && (n <=? zlen b) then
            Some (Some (t <| func_arg := bput (func_arg t) 0 (take (Z.to_nat n) b) |> <| arg_len := n |>))
          else None
      end;
  Some (match t with Some t => Some (t <| interval := itv |> <| elapse := 0 |> <| state := 1 |>) | None => None end).

(** The loop for a free entry, from entry [i] on. *)
Fixpoint set_loop (before rest : timers) (i : Z) (itv : Z) (proc : P) (p : option (list Z)) (n : Z) : option (Z * timers) :=
  match rest with
  | [] => Some (-1, before)
  | t :: rest' =>
      if state t =? 1 then set_loop (before ++ [t]) rest' (i + 1) itv proc p n
      else
        t' ← fill_timer itv proc p n;
        match t' with
        | Some t' => Some (i, before ++ t' :: rest')
        | None => Some (-1, before ++ no_timer <| timer_proc := Some proc |> :: rest')
        end
  end.

Definition set_a_timer (tm : timers) (itv : Z) (proc : option P) (p : option (list Z)) (n : Z) : option (Z * timers) :=
  match proc with
  | None => Some (-1, tm)
  | Some proc => if itv <=? 0 then Some (-1, tm) else set_loop [] tm 0 itv proc p n
  end.

Definition del_a_timer (tm : timers) (handle : Z) : Z * timers :=
  if (handle <? 0) || (MAX_TIMER_CNT <=? handle) then (-1, tm) else (0, <[Z.to_nat handle := no_timer]> tm).

(** ** The signal *)

(** What the function of a timer does, with its argument and the length. *)
Context (run : P -> list Z -> Z -> timers * W -> option (timers * W)).

Definition tick_slot (i : Z) (tm : timers) (w : W) : option (timers * W) :=
  t ← tm !! Z.to_nat i;
  if state t =? 0 then Some (tm, w)
  else
    let t := t <| elapse := swrap 32 (elapse t + 1) |> in
    if elapse t =? interval t then
      let t := t <| elapse := 0 |> in
      proc ← timer_proc t;
      run proc (func_arg t) (arg_len t) (<[Z.to_nat i := t]> tm, w)
    else Some (<[Z.to_nat i := t]> tm, w).

Fixpoint sig_loop (n : nat) (i : Z) (tm : timers) (w : W) : option (timers * W) :=
  match n with
  | O => Some (tm, w)
  | S n => '(tm, w) ← tick_slot i tm w; sig_loop n (i + 1) tm w
  end.

Definition sig_func (tm : timers) (w : W) : option (timers * W) := sig_loop (Z.to_nat MAX_TIMER_CNT) 0 tm w.

(** [n] ticks *)
Fixpoint ticks (n : nat) (tm : timers) (w : W) : option (timers * W) :=
  match n with
  | O => Some (tm, w)
  | S n => '(tm, w) ← sig_func tm w; ticks n tm w
  end.
End Timers.
Arguments timer_info : clear implicits.

(** ** Setting and deleting *)

Section Table.
Context {P : Type}.
Abbreviation timers := (list (timer_info P)).

Definition running (t : timer_info P) : Prop := state t <> 0.

(** A timer as [set_a_timer] starts it, with the first [n] bytes of its argument. *)
Definition started (itv : Z) (proc : P) (p : option (list Z)) (n : Z) : timer_info P :=
  match p with
  | None => mkTimer 1 itv 0 (Some proc) (repeat 0 100) 0
  | Some b => mkTimer 1 itv 0 (Some proc) (take (Z.to_nat n) b ++ repeat 0 (100 - Z.to_nat n)) n
  end.

Lemma fill_timer_spec itv proc p n : match p with Some b => 0 <= n <= MAX_FUNC_ARG_LEN /\ n <= zlen b | None => True end ->
  fill_timer itv proc p n = Some (Some (started itv proc p n)).
Proof.
  intros Hp. unfold fill_timer, started, MAX_FUNC_ARG_LEN in *. destruct p as [b|]; cbn [mbind option_bind]; [|done].
  replace (100 <? n) with false by zb. replace (0 <=? n) with true by zb. replace (n <=? zlen b) with true by zb. cbn [andb mbind option_bind].
  replace (100 - Z.to_nat n)%nat with (100 - length (take (Z.to_nat n) b))%nat by (rewrite length_take; lia).
  by rewrite <- bput_zeros.
Qed.

Lemma set_loop_spec itv proc p n rest : match p with Some b => 0 <= n <= MAX_FUNC_ARG_LEN /\ n <= zlen b | None => True end ->
  Forall (fun t => state t = 0 \/ state t = 1) rest -> forall before i,
  (Forall running rest /\ set_loop before rest i itv proc p n = Some (-1, before ++ rest)) \/
  exists l1 t l2, rest = l1 ++ t :: l2 /\ Forall running l1 /\ ~ running t /\
    set_loop before rest i itv proc p n = Some (i + zlen l1, before ++ l1 ++ started itv proc p n :: l2).
Proof.
  intros Hp. unfold running. induction 1 as [|t rest Ht Hr IH]; intros before i; cbn [set_loop].
  - left. by rewrite app_nil_r.
  - destruct (Z.eqb_spec (state t) 1) as [E|E].
    + destruct (IH (before ++ [t]) (i + 1)) as [[Hl ->]|(l1 & t' & l2 & -> & Hl & Hn & ->)].
      * left. split; [constructor; [lia|done]|]. by rewrite <- app_assoc.
      * right. exists (t :: l1), t', l2. split; [done|]. split; [constructor; [lia|done]|]. split; [done|]. rewrite <- app_assoc.
        do 2 f_equal. cbn [length]. lia.
    + right. exists [], t, rest. split; [done|]. split; [constructor|]. split; [lia|]. rewrite fill_timer_spec by done. cbn. by rewrite Z.add_0_r.
Qed.
End Table.

(** ** Ticks *)

Section Ticks.
Context {P W : Type} `{EqDecision P}.
Context (run : P -> list Z -> Z -> list (timer_info P) * W -> option (list (timer_info P) * W)).
Context (i : nat) (p : P) (calls : W -> Z).

(** A table in which the timer [i] runs with the function [p], which no other has, and
    every other running timer has a function. *)
Record good (tm : list (timer_info P)) : Prop := {
  g_length : length tm = 10%nat;
  g_states : Forall (fun t => state t = 0 \/ state t = 1) tm;
  g_self : exists t, tm !! i = Some t /\ running t /\ timer_proc t = Some p;
  g_proc : Forall (fun t => running t -> timer_proc t <> None) tm;
  g_only : forall j t, tm !! j = Some t -> j <> i -> timer_proc t <> Some p
}.

(** The functions may do what they like, also to the table, but leave the timer [i] alone;
    [calls] counts those of [p]. *)
Hypothesis run_ok : forall q a n tm w, good tm ->
  exists tm' w', run q a n (tm, w) = Some (tm', w') /\ good tm' /\ tm' !! i = tm !! i /\
    calls w' = calls w + (if decide (q = p) then 1 else 0).

Lemma good_insert tm j t t' : good tm -> tm !! j = Some t -> timer_proc t' = timer_proc t -> state t' = state t ->
  good (<[j := t']> tm).
Proof.
  intros [H1 H0 (u & Hu & Hru & Hpu) H2 H3] Hj Hp Hs. pose proof (lookup_lt_Some _ _ _ Hj) as Hlt. constructor.
  - by rewrite length_insert.
  - apply Forall_insert; [done|]. rewrite Hs. by apply (Forall_lookup_1 _ _ _ _ H0 Hj).
  - destruct (decide (i = j)) as [<-|Hij].
    + exists t'. rewrite list_lookup_insert_eq by done. unfold running in *. rewrite Hs, Hp. by simplify_eq.
    + exists u. by rewrite list_lookup_insert_ne by done.
  - apply Forall_insert; [done|]. unfold running. rewrite Hp, Hs. by apply (Forall_lookup_1 _ _ _ _ H2 Hj).
  - intros k v Hk Hne. destruct (decide (k = j)) as [->|Hkj].
    + rewrite list_lookup_insert_eq in Hk by done. injection Hk as <-. rewrite Hp. by apply (H3 j).
    + rewrite list_lookup_insert_ne in Hk by done. by apply (H3 k).
Qed.

(** What a tick does to the timer [i]. *)
Definition step (t : timer_info P) : timer_info P :=
  t <| elapse := if elapse t + 1 =? interval t then 0 else elapse t + 1 |>.
Definition fires (t : timer_info P) : Z := if elapse t + 1 =? interval t then 1 else 0.

Definition on_time (t : timer_info P) : Prop :=
  running t /\ timer_proc t = Some p /\ 0 <= elapse t < interval t /\ interval t < 2 ^ 31.

Lemma step_on_time t : on_time t -> on_time (step t).
Proof. destruct t. unfold on_time, step, running. cbn. intros (H1 & H2 & H3 & H4). destruct (Z.eqb_spec (elapse0 + 1) interval0); repeat split; try done; lia. Qed.

Lemma tick_self tm w t : good tm -> tm !! i = Some t -> on_time t ->
  exists tm' w', tick_slot run (Z.of_nat i) tm w = Some (tm', w') /\ good tm' /\ tm' !! i = Some (step t) /\ calls w' = calls w + fires t.
Proof.
  intros Hg Ht (Hr & Hp & He & Hi). unfold tick_slot. rewrite Nat2Z.id, Ht. cbn [mbind option_bind].
  rewrite (proj2 (Z.eqb_neq _ _) Hr). rewrite swrap_small by lia.
  assert (Hlt : (i < length tm)%nat) by by apply lookup_lt_Some in Ht.
  destruct t as [s k e q a n]; unfold running in Hr; cbn in *. subst q. unfold step, fires. cbn. destruct (Z.eqb_spec (e + 1) k) as [E|E].
  - cbn [mbind option_bind]. destruct (run_ok p a n (<[i := mkTimer s k 0 (Some p) a n]> tm) w) as (tm' & w' & E' & Hg' & Hi' & Hc).
    { by apply (good_insert _ _ _ _ Hg Ht). }
    exists tm', w'. split; [exact E'|]. split; [done|]. rewrite decide_True in Hc by done. split; [|done].
    by rewrite Hi', list_lookup_insert_eq by done.
  - eexists _, w. split; [done|]. split; [by apply (good_insert _ _ _ _ Hg Ht)|]. split; [by rewrite list_lookup_insert_eq by done|lia].
Qed.

Lemma tick_other tm w (j : nat) : good tm -> (j < 10)%nat -> j <> i ->
  exists tm' w', tick_slot run (Z.of_nat j) tm w = Some (tm', w') /\ good tm' /\ tm' !! i = tm !! i /\ calls w' = calls w.
Proof.
  intros Hg Hj Hne. unfold tick_slot. rewrite Nat2Z.id. destruct (lookup_lt_is_Some_2 tm j) as [t Ht]; [by rewrite (g_length _ Hg)|].
  rewrite Ht. cbn [mbind option_bind]. destruct (Z.eqb_spec (state t) 0) as [|Hr]; [by exists tm, w|].
  pose proof (Forall_lookup_1 _ _ _ _ (g_proc _ Hg) Ht Hr) as Hp. pose proof (g_only _ Hg _ _ Ht Hne) as Hq.
  destruct t as [s k e q a n]; cbn in *. destruct q as [q|]; [|done]. destruct (Z.eqb_spec (swrap 32 (e + 1)) k) as [E|E].
  - cbn [mbind option_bind]. destruct (run_ok q a n (<[j := mkTimer s k 0 (Some q) a n]> tm) w) as (tm' & w' & E' & Hg' & Hi' & Hc).
    { by apply (good_insert _ _ _ _ Hg Ht). }
    exists tm', w'. split; [exact E'|]. split; [done|]. rewrite decide_False in Hc by congruence. split; [|lia].
    by rewrite Hi', list_lookup_insert_ne by done.
  - eexists _, w. split; [done|]. split; [by apply (good_insert _ _ _ _ Hg Ht)|]. split; [by rewrite list_lookup_insert_ne by done|lia].
Qed.
Lemma sig_loop_app a : forall b j tm w,
  sig_loop run (a + b) j tm w = ('(tm, w) ← sig_loop run a j tm w; sig_loop run b (j + Z.of_nat a) tm w).
Proof.
  induction a as [|a IH]; intros b j tm w; cbn [Nat.add sig_loop]; [cbn; f_equal; lia|].
  destruct (tick_slot run j tm w) as [[tm' w']|]; cbn [mbind option_bind]; [|done]. rewrite IH. do 2 (f_equal; try done).
  replace (j + Z.of_nat (S a)) with (j + 1 + Z.of_nat a) by lia. done.
Qed.

(** The other timers. *)
Lemma sig_loop_other n : forall (j : nat) tm w, good tm -> (j + n <= 10)%nat -> (i < j \/ j + n <= i)%nat ->
  exists tm' w', sig_loop run n (Z.of_nat j) tm w = Some (tm', w') /\ good tm' /\ tm' !! i = tm !! i /\ calls w' = calls w.
Proof using All.
  induction n as [|n IH]; intros j tm w Hg Hj Hi; cbn [sig_loop]; [by exists tm, w|].
  destruct (tick_other tm w j Hg) as (tm1 & w1 & -> & Hg1 & E1 & C1); [lia..|]. cbn [mbind option_bind].
  replace (Z.of_nat j + 1) with (Z.of_nat (S j)) by lia. destruct (IH (S j) tm1 w1 Hg1) as (tm2 & w2 & -> & Hg2 & E2 & C2); [lia..|].
  exists tm2, w2. split; [done|]. split; [done|]. split; congruence.
Qed.

Lemma sig_func_spec tm w t : good tm -> tm !! i = Some t -> on_time t ->
  exists tm' w', sig_func run tm w = Some (tm', w') /\ good tm' /\ tm' !! i = Some (step t) /\ calls w' = calls w + fires t.
Proof using All.
  intros Hg Ht Ho. assert (Hi : (i < 10)%nat) by (rewrite <- (g_length _ Hg); by apply lookup_lt_Some in Ht).
  unfold sig_func. change (sig_loop run _ 0 tm w) with (sig_loop run (Z.to_nat MAX_TIMER_CNT) (Z.of_nat 0) tm w).
  replace (Z.to_nat MAX_TIMER_CNT) with (i + (1 + (9 - i)))%nat by (change (Z.to_nat MAX_TIMER_CNT) with 10%nat; lia).
  rewrite sig_loop_app. destruct (sig_loop_other i 0 tm w Hg) as (tm1 & w1 & -> & Hg1 & E1 & C1); [lia..|]. cbn [mbind option_bind].
  rewrite sig_loop_app. change (Z.of_nat 0 + Z.of_nat i) with (Z.of_nat i). cbn [sig_loop].
  destruct (tick_self tm1 w1 t Hg1) as (tm2 & w2 & -> & Hg2 & E2 & C2); [congruence|done|]. cbn [mbind option_bind].
  replace (Z.of_nat i + Z.of_nat 1) with (Z.of_nat (S i)) by lia.
  destruct (sig_loop_other (9 - i) (S i) tm2 w2 Hg2) as (tm3 & w3 & -> & Hg3 & E3 & C3); [lia..|].
  exists tm3, w3. split; [done|]. split; [done|]. split; [congruence|lia].
Qed.

Lemma fire_arith e k n : 0 <= e < k ->
  ((if e + 1 =? k then 0 else e + 1) + Z.of_nat n) mod k = (e + Z.of_nat (S n)) mod k /\
  (if e + 1 =? k then 1 else 0) + ((if e + 1 =? k then 0 else e + 1) + Z.of_nat n) / k = (e + Z.of_nat (S n)) / k.
Proof.
  intros He. destruct (Z.eqb_spec (e + 1) k) as [E|E].
  - replace (e + Z.of_nat (S n)) with (0 + Z.of_nat n + 1 * k) by lia. rewrite Z_mod_plus_full, Z_div_plus_full by lia. split; [done|lia].
  - replace (e + Z.of_nat (S n)) with (e + 1 + Z.of_nat n) by lia. done.
Qed.

(** C16. A running timer is called exactly when its interval is over, whatever the functions
    of the other timers do, as long as they leave it alone: after [n] ticks its function was
    called as many times as its interval fits into the ticks since it was started, and no
    tick fails. *)
Theorem timers_fire_on_time n : forall tm w t, good tm -> tm !! i = Some t -> on_time t ->
  exists tm' w', ticks run n tm w = Some (tm', w') /\ good tm' /\
    tm' !! i = Some (t <| elapse := (elapse t + Z.of_nat n) mod interval t |>) /\
    calls w' = calls w + (elapse t + Z.of_nat n) / interval t.
Proof using All.
  induction n as [|n IH]; intros tm w t Hg Ht Ho; pose proof Ho as (_ & _ & He & _).
  - exists tm, w. split; [done|]. split; [done|]. rewrite Z.add_0_r, Z.mod_small, Z.div_small by lia. split; [|lia]. rewrite Ht. by destruct t.
  - cbn [ticks]. destruct (sig_func_spec tm w t Hg Ht Ho) as (tm1 & w1 & -> & Hg1 & E1 & C1). cbn [mbind option_bind].
    destruct (IH tm1 w1 (step t) Hg1 E1 (step_on_time t Ho)) as (tm2 & w2 & -> & Hg2 & E2 & C2). exists tm2, w2. split; [done|]. split; [done|].
    destruct t as [s k e q a m]. destruct (fire_arith e k n He) as [Em Ed]. cbn [step elapse interval] in *. split.
    + rewrite E2. unfold step. cbn [elapse interval]. rewrite <- Em. done.
    + rewrite C2, C1, <- Ed. unfold fires. cbn [elapse interval]. change (elapse (step _)) with (if e + 1 =? k then 0 else e + 1).
      change (interval (step _)) with k. lia.
Qed.
End Ticks.

(** Setting a timer takes the first entry that is not running, starts it from zero with
    its argument, and leaves all others as they are; it fails only when all ten run. *)
Theorem set_a_timer_correct {P} (tm : list (timer_info P)) itv proc p n : 0 < itv ->
  match p with Some b => 0 <= n <= MAX_FUNC_ARG_LEN /\ n <= zlen b | None => True end ->
  Forall (fun t => state t = 0 \/ state t = 1) tm ->
  (Forall running tm /\ set_a_timer tm itv (Some proc) p n = Some (-1, tm)) \/
  exists l1 t l2, tm = l1 ++ t :: l2 /\ Forall running l1 /\ ~ running t /\
    set_a_timer tm itv (Some proc) p n = Some (zlen l1, l1 ++ started itv proc p n :: l2).
Proof.
  intros Hi Hp Hs. unfold set_a_timer. replace (itv <=? 0) with false by zb.
  destruct (set_loop_spec itv proc p n tm Hp Hs [] 0) as [[H ->]|(l1 & t & l2 & -> & H1 & H2 & ->)]; [by left|right].
  by exists l1, t, l2.
Qed.

(** ** Example *)

(** Three functions: the first is counted, the second sets a timer and the third deletes one. *)
Definition demo_run (q : Z) (a : list Z) (n : Z) (s : list (timer_info Z) * Z) : option (list (timer_info Z) * Z) :=
  let '(tm, w) := s in
  if q =? 0 then Some (tm, w + 1)
  else if q =? 1 then '(_, tm) ← set_a_timer tm 5 (Some 2) None 0; Some (tm, w)
  else let '(_, tm) := del_a_timer tm 4 in Some (tm, w).

Definition demo_timers : list (timer_info Z) := [started 3 0 None 0; started 2 1 None 0] ++ repeat no_timer 8.

Lemma demo_good : good 0%nat 0 demo_timers.
Proof.
  constructor.
  - reflexivity.
  - repeat (constructor; [cbn; tauto|]). constructor.
  - eexists. split; [reflexivity|]. by split.
  - repeat (constructor; [intros Hr; cbn in Hr |- *; done|]). constructor.
  - intros [|[|j]] t Hj Hne; [done|by injection Hj as <-|]. change (demo_timers !! S (S j)) with (repeat (@no_timer Z) 8 !! j) in Hj.
    apply list_elem_of_lookup_2, list_elem_of_In, repeat_spec in Hj as ->. done.
Qed.

Lemma demo_run_ok q a n tm w : good 0%nat 0 tm -> exists tm' w', demo_run q a n (tm, w) = Some (tm', w') /\ good 0%nat 0 tm' /\
  tm' !! 0%nat = tm !! 0%nat /\ w' = w + (if decide (q = 0) then 1 else 0).
Proof.
  intros Hg. pose proof Hg as [H1 H0 (t0 & Ht0 & Hr0 & Hp0) H2 H3]. destruct tm as [|t tm]; [done|]. injection Ht0 as ->.
  unfold demo_run. destruct (Z.eqb_spec q 0) as [->|Hq]; [by exists (t0 :: tm), (w + 1)|]. rewrite decide_False, Z.add_0_r by done.
  destruct (q =? 1).
  - unfold set_a_timer. cbn [Z.leb Z.compare].
    destruct (set_loop_spec 5 2 None 0 (t0 :: tm) I H0 [] 0) as [[_ ->]|(l1 & t & l2 & E & Hl1 & Ht & ->)]; [by exists (t0 :: tm), w|].
    cbn [mbind option_bind app]. destruct l1 as [|t1 l1]; injection E as -> ->; [done|]. eexists _, w. split; [done|]. split; [|done].
    change (t1 :: l1 ++ t :: l2) with ((t1 :: l1) ++ t :: l2) in *.
    apply Forall_app in H0 as [H01 H02], H2 as [H21 H22]. apply Forall_cons_iff in H02 as [_ H02], H22 as [_ H22]. constructor.
    + cbn in *. rewrite length_app in *. cbn in *. lia.
    + apply Forall_app. split; [done|]. constructor; [by right|done].
    + by exists t1.
    + apply Forall_app. split; [done|]. by constructor.
    + intros j u Hj Hne. apply lookup_app_Some in Hj as [Hj|[_ Hj]].
      * apply (H3 j); [|done]. by apply lookup_app_l_Some.
      * destruct (j - length (t1 :: l1))%nat as [|k] eqn:Ek; cbn in Hj; [by injection Hj as <-|]. apply (H3 j); [|done].
        apply lookup_app_Some. right. split; [lia|]. by rewrite Ek.
  - cbn [del_a_timer]. eexists _, w. split; [done|]. assert (H4 : exists t, (t0 :: tm) !! 4%nat = Some t) by (apply lookup_lt_is_Some_2; lia).
    destruct H4 as [t4 H4]. split; [|by destruct tm as [|? [|? [|? [|? ?]]]]]. constructor.
    + by rewrite length_insert.
    + apply Forall_insert; [done|]. by left.
    + by exists t0.
    + apply Forall_insert; [done|]. by intros [].
    + intros j u Hj Hne. destruct (decide (j = 4%nat)) as [->|Hj4].
      * rewrite list_lookup_insert_eq in Hj by lia. by injection Hj as <-.
      * rewrite list_lookup_insert_ne in Hj by done. by apply (H3 j).
Qed.

(** The timer of three ticks is called 33 times in 100, though the other one sets timers
    until the table is full. *)
Lemma timers_fire_on_time_witness : exists tm', ticks demo_run 100 demo_timers 0 = Some (tm', 33).
Proof.
  destruct (timers_fire_on_time demo_run 0%nat 0 (fun w => w) demo_run_ok 100 demo_timers 0 (started 3 0 None 0) demo_good eq_refl)
    as (tm' & w' & E & _ & _ & C).
  - split; [discriminate|]. split; [reflexivity|]. cbn [elapse interval started]. lia.
  - exists tm'. change (w' = 33) in C. rewrite <- C. exact E.
Defined.

Lemma set_a_timer_correct_witness : exists l, set_a_timer demo_timers 7 (Some 2) (Some [1; 2; 3]) 2 = Some (2, l).
Proof.
  destruct (set_a_timer_correct demo_timers 7 2 (Some [1; 2; 3]) 2) as [[H _]|(l1 & t & l2 & E & Hl & Ht & ->)].
  - lia.
  - unfold MAX_FUNC_ARG_LEN. cbn. lia.
  - repeat (constructor; [cbn; tauto|]). constructor.
  - exfalso. apply Forall_cons_iff in H as [_ H]. apply Forall_cons_iff in H as [_ H]. apply Forall_cons_iff in H as [H _]. by apply H.
  - destruct l1 as [|t1 [|t2 [|t3 l1]]].
    + exfalso. injection E as <- _. apply Ht. intros H. discriminate H.
    + exfalso. injection E as _ <- _. apply Ht. intros H. discriminate H.
    + eexists. reflexivity.
    + exfalso. injection E as _ _ <- _. apply Forall_cons_iff in Hl as [_ Hl]. apply Forall_cons_iff in Hl as [_ Hl].
      apply Forall_cons_iff in Hl as [Hl _]. by apply Hl.
Defined.
