(* ===== verification/Stm8.v ===== *)
(** * Frames for the microcontroller (uart1_test/stm8_upgrade.c)

    The checksums, the frame that [uart_tx] writes to the serial port, and the requests that
    are made of it.  A value of type [u8] or [u16] is a [Z] of that width; what a function
    writes to the port is its result.  [None] is a read or a write outside of a buffer.  The
    code behind the [return] of [uart_rx] and of [stm8_upgrade_rsp] is never run, and most of
    [stm8_upgrade_program] is compiled out. *)

From S2P Require Import Prelude CString Url UrlSpec.
#[local] Open Scope Z_scope.
#[local] Open Scope cint_scope.

(** ** Checksums *)

Definition Crc16CCITtable : list Z :=
  [0x0000; 0x1021; 0x2042; 0x3063; 0x4084; 0x50a5; 0x60c6; 0x70e7; 0x8108; 0x9129; 0xa14a; 0xb16b;
   0xc18c; 0xd1ad; 0xe1ce; 0xf1ef; 0x1231; 0x0210; 0x3273; 0x2252; 0x52b5; 0x4294; 0x72f7; 0x62d6;
   0x9339; 0x8318; 0xb37b; 0xa35a; 0xd3bd; 0xc39c; 0xf3ff; 0xe3de; 0x2462; 0x3443; 0x0420; 0x1401;
   0x64e6; 0x74c7; 0x44a4; 0x5485; 0xa56a; 0xb54b; 0x8528; 0x9509; 0xe5ee; 0xf5cf; 0xc5ac; 0xd58d;
   0x3653; 0x2672; 0x1611; 0x0630; 0x76d7; 0x66f6; 0x5695; 0x46b4; 0xb75b; 0xa77a; 0x9719; 0x8738;
   0xf7df; 0xe7fe; 0xd79d; 0xc7bc; 0x48c4; 0x58e5; 0x6886; 0x78a7; 0x0840; 0x1861; 0x2802; 0x3823;
   0xc9cc; 0xd9ed; 0xe98e; 0xf9af; 0x8948; 0x9969; 0xa90a; 0xb92b; 0x5af5; 0x4ad4; 0x7ab7; 0x6a96;
   0x1a71; 0x0a50; 0x3a33; 0x2a12; 0xdbfd; 0xcbdc; 0xfbbf; 0xeb9e; 0x9b79; 0x8b58; 0xbb3b; 0xab1a;
   0x6ca6; 0x7c87; 0x4ce4; 0x5cc5; 0x2c22; 0x3c03; 0x0c60; 0x1c41; 0xedae; 0xfd8f; 0xcdec; 0xddcd;
   0xad2a; 0xbd0b; 0x8d68; 0x9d49; 0x7e97; 0x6eb6; 0x5ed5; 0x4ef4; 0x3e13; 0x2e32; 0x1e51; 0x0e70;
   0xff9f; 0xefbe; 0xdfdd; 0xcffc; 0xbf1b; 0xaf3a; 0x9f59; 0x8f78; 0x9188; 0x81a9; 0xb1ca; 0xa1eb;
   0xd10c; 0xc12d; 0xf14e; 0xe16f; 0x1080; 0x00a1; 0x30c2; 0x20e3; 0x5004; 0x4025; 0x7046; 0x6067;
   0x83b9; 0x9398; 0xa3fb; 0xb3da; 0xc33d; 0xd31c; 0xe37f; 0xf35e; 0x02b1; 0x1290; 0x22f3; 0x32d2;
   0x4235; 0x5214; 0x6277; 0x7256; 0xb5ea; 0xa5cb; 0x95a8; 0x8589; 0xf56e; 0xe54f; 0xd52c; 0xc50d;
   0x34e2; 0x24c3; 0x14a0; 0x0481; 0x7466; 0x6447; 0x5424; 0x4405; 0xa7db; 0xb7fa; 0x8799; 0x97b8;
   0xe75f; 0xf77e; 0xc71d; 0xd73c; 0x26d3; 0x36f2; 0x0691; 0x16b0; 0x6657; 0x7676; 0x4615; 0x5634;
   0xd94c; 0xc96d; 0xf90e; 0xe92f; 0x99c8; 0x89e9; 0xb98a; 0xa9ab; 0x5844; 0x4865; 0x7806; 0x6827;
   0x18c0; 0x08e1; 0x3882; 0x28a3; 0xcb7d; 0xdb5c; 0xeb3f; 0xfb1e; 0x8bf9; 0x9bd8; 0xabbb; 0xbb9a;
   0x4a75; 0x5a54; 0x6a37; 0x7a16; 0x0af1; 0x1ad0; 0x2ab3; 0x3a92; 0xfd2e; 0xed0f; 0xdd6c; 0xcd4d;
   0xbdaa; 0xad8b; 0x9de8; 0x8dc9; 0x7c26; 0x6c07; 0x5c64; 0x4c45; 0x3ca2; 0x2c83; 0x1ce0; 0x0cc1;
   0xef1f; 0xff3e; 0xcf5d; 0xdf7c; 0xaf9b; 0xbfba; 0x8fd9; 0x9ff8; 0x6e17; 0x7e36; 0x4e55; 0x5e74;
   0x2e93; 0x3eb2; 0x0ed1; 0x1ef0].

(** The loop; [pData] is what is left of the data.  The index of the code is an [int]: of a
    length beyond INT_MAX, where it overflows, nothing is said. *)
Fixpoint crc_loop (n : nat) (pData : list Z) (crc : Z) : option Z :=
  match n with
  | O => Some crc
  | S n =>
      match pData with
      | [] => None
      | d :: pData =>
          let ushort := Z.land (Z.shiftl crc 8) 0xff00 in
          e ← load Crc16CCITtable (Z.lxor (Z.shiftr crc 8) (Z.land 0xff d));
          crc_loop n pData (Z.lxor ushort e)
      end
  end.

Definition Crc16CCITCalculate (pData : list Z) (lDataLength crc : Z) : option Z := crc_loop (Z.to_nat lDataLength) pData crc.

Definition cal_imx_package_checksum (pData : list Z) (nDataLen : Z) : option Z :=
  if nDataLen <=? zlen pData then
    let u8Data := fold_left (fun s d => u8 (s + d)) (take (Z.to_nat nDataLen) pData) 0 in
    Some (u8 (Z.lnot u8Data + 1))
  else None.

Definition cal_stm8_upgrade_package_checksum (pData : list Z) (nDataLen : Z) : option Z :=
  if nDataLen <=? zlen pData then Some (fold_left Z.lxor (take (Z.to_nat nDataLen) pData) 0) else None.

(** ** Frames *)

Definition UART_DATA_BUFF_LEN : Z := 128.
Definition UART_PROTOCOL_LEN : Z := 9.
Definition UART_PAYLOAD_OFFSET : Z := 8.
Definition HEAD_1 : Z := 0x21.
Definition HEAD_2 : Z := 0x50.
Definition HEAD_3 : Z := 0x53.

Record ImxPackageInfo_t : Type := mkPackage { id : Z; command : Z; Length : Z }.

(** [memcpy(&b\[i\], s, n)] *)
Definition memcpy_in (b : list Z) (i : Z) (s : list Z) (n : Z) : option (list Z) :=
  if (n <=? zlen s) && (i + n <=? zlen b) then Some (bput b i (take (Z.to_nat n) s)) else None.

Definition uart_tx (stPackageInfo : ImxPackageInfo_t) (pData : list Z) : option (list Z) :=
  let c := command stPackageInfo in
  let l := Length stPackageInfo in
  let u8Uart1TxBuf := repeat 0 (Z.to_nat (UART_DATA_BUFF_LEN + UART_PROTOCOL_LEN)) in
  let u8Uart1TxBuf := bput u8Uart1TxBuf 0
    [HEAD_1; HEAD_2; HEAD_3; id stPackageInfo; Z.land c 0xff; Z.land (Z.shiftr c 8) 0xff; Z.land l 0xff; Z.land (Z.shiftr l 8) 0xff] in
  let u8Index := 8 in
  let n := if 128 <? l then 128 else l in
  u8Uart1TxBuf ← memcpy_in u8Uart1TxBuf u8Index pData n;
  let u8Index := u8 (u8Index + n) in
  u8Data ← cal_imx_package_checksum (drop 3 u8Uart1TxBuf) (u8Index - 3);
  u8Uart1TxBuf ← store u8Uart1TxBuf u8Index u8Data;
  let size := UART_PAYLOAD_OFFSET + l + 1 in
  if size <=? zlen u8Uart1TxBuf then Some (take (Z.to_nat size) u8Uart1TxBuf) else None.

(** ** Requests

    [date] is the buffer of the caller, whose contents are not known before. *)

(** The numbers below [n] whose bits are set. *)
Definition set_bits (mask n : Z) : list Z := filter (fun i => Z.land mask (Z.shiftl 1 i) <> 0) (map Z.of_nat (seq 0 (Z.to_nat n))).

Definition read_value_from_ad (ad_id_set : Z) (date : list Z) : option (list Z) :=
  let ids := set_bits ad_id_set 8 in
  uart_tx (mkPackage 0 1 (zlen ids)) (bput date 0 ids).

Definition ad_output_level_set (io_sets ouptut_value : Z) (date : list Z) : option (list Z) :=
  let settings := concat (map (fun i => [i; ouptut_value]) (set_bits io_sets 4)) in
  uart_tx (mkPackage 0 2 (zlen settings)) (bput date 0 settings).

(** What is left of it without the code that is compiled out: the two writes. *)
Definition stm8_upgrade_program : list (list Z) := [[0x21; 0xde]; [0x00; 0x00; 0xa0; 0x00; 0xa0]].

Definition confirm_set_ack (rx_date : list Z) (tx_command : Z) : option Z :=
  b1 ← load rx_date 1; b0 ← load rx_date 0;
  Some (if tx_command =? Z.lor (Z.shiftl b1 8) b0 then 2 else 0).

(** ** The CRC

    The register of CRC-16-CCITT: a bit is shifted out and the polynomial added where it was
    set. *)

Definition bit_step (c : Z) : Z :=
  Z.lxor (u16 (Z.shiftl c 1)) (if Z.testbit c 15 then 0x1021 else 0).
Definition eight (c : Z) : Z := Nat.iter 8 bit_step c.
Definition byte_step (c b : Z) : Z := eight (Z.lxor c (Z.shiftl b 8)).

(** The CRC of the message [m] from the register [c] on. *)
Abbreviation ccitt m c := (fold_left byte_step m c).

Definition is_u8 (b : Z) : Prop := 0 <= b < 2 ^ 8.
Definition is_u16 (b : Z) : Prop := 0 <= b < 2 ^ 16.

Lemma uwrap_bits w z i : 0 <= w -> 0 <= i -> Z.testbit (uwrap w z) i = (i <? w) && Z.testbit z i.
Proof.
  intros Hw Hi. unfold uwrap. destruct (Z.ltb_spec i w); cbn [andb]; [by apply Z.mod_pow2_bits_low|by apply Z.mod_pow2_bits_high].
Qed.

(** Numbers of sixteen bits are equal if these are. *)
Lemma u16_bits x : is_u16 x <-> 0 <= x /\ forall i, 16 <= i -> Z.testbit x i = false.
Proof.
  split.
  - intros Hx. split; [by destruct Hx|]. intros i Hi. destruct (Z.eq_dec x 0) as [->|]; [apply Z.bits_0|].
    apply Z.bits_above_log2; [by destruct Hx|]. assert (Z.log2 x < 16); [|lia]. apply Z.log2_lt_pow2; destruct Hx; lia.
  - intros [H0 Hb]. split; [done|]. destruct (Z.lt_ge_cases x (2 ^ 16)) as [?|Hge]; [done|exfalso].
    assert (Hl : 16 <= Z.log2 x) by (apply Z.log2_le_pow2; lia). specialize (Hb (Z.log2 x) Hl).
    rewrite Z.bit_log2 in Hb by lia. done.
Qed.

Lemma lxor_u16 a b : is_u16 a -> is_u16 b -> is_u16 (Z.lxor a b).
Proof.
  rewrite !u16_bits. intros [Ha Ha'] [Hb Hb']. split; [by apply Z.lxor_nonneg|]. intros i Hi. by rewrite Z.lxor_spec, Ha', Hb'.
Qed.

Lemma bit_step_u16 c : is_u16 (bit_step c).
Proof.
  apply lxor_u16; [apply uwrap_range; lia|]. unfold is_u16. destruct (Z.testbit c 15); lia.
Qed.

Lemma eight_u16 c : is_u16 (eight c).
Proof. apply bit_step_u16. Qed.

Lemma bit_step_lxor a b : bit_step (Z.lxor a b) = Z.lxor (bit_step a) (bit_step b).
Proof.
  unfold bit_step. rewrite Z.lxor_spec. apply Z.bits_inj'. intros i Hi. rewrite !Z.lxor_spec, !uwrap_bits by lia.
  rewrite !Z.shiftl_spec, Z.lxor_spec by lia.
  destruct (Z.testbit a 15), (Z.testbit b 15), (i <? 16), (Z.testbit a (i - 1)), (Z.testbit b (i - 1)); cbn [xorb andb];
    rewrite ?Z.bits_0; by destruct (Z.testbit 0x1021 i).
Qed.

Lemma eight_lxor a b : eight (Z.lxor a b) = Z.lxor (eight a) (eight b).
Proof. unfold eight. generalize 8%nat. induction n as [|n IH]; [done|].
  change (bit_step (Nat.iter n bit_step (Z.lxor a b)) = Z.lxor (bit_step (Nat.iter n bit_step a)) (bit_step (Nat.iter n bit_step b))).
  rewrite IH. apply bit_step_lxor. Qed.

(** The table holds what eight steps make of the upper byte; the lower one is shifted up. *)
Lemma table_values j : 0 <= j < 256 -> load Crc16CCITtable j = Some (eight (Z.shiftl j 8)) /\ eight j = Z.shiftl j 8.
Proof.
  intros Hj. assert (Hall : forallb (fun k => let j := Z.of_nat k in
    bool_decide (load Crc16CCITtable j = Some (eight (Z.shiftl j 8)) /\ eight j = Z.shiftl j 8)) (seq 0 256) = true) by (vm_compute; reflexivity).
  rewrite forallb_forall in Hall. specialize (Hall (Z.to_nat j)). rewrite bool_decide_eq_true, Z2Nat.id in Hall by lia.
  apply Hall, in_seq. lia.
Qed.

(** The two bytes of a register. *)
Lemma u16_halves c : is_u16 c -> is_u8 (Z.shiftr c 8) /\ is_u8 (Z.land c 0xff) /\ c = Z.lxor (Z.shiftl (Z.shiftr c 8) 8) (Z.land c 0xff).
Proof.
  intros Hc. unfold is_u8, is_u16 in *. rewrite Z.shiftr_div_pow2 by lia. change 0xff with (Z.ones 8). rewrite Z.land_ones by lia.
  split; [split; [apply Z.div_pos; lia|apply Z.div_lt_upper_bound; lia]|]. split; [apply Z.mod_pos_bound; lia|].
  rewrite <- Z.add_nocarry_lxor.
  - rewrite Z.shiftl_mul_pow2 by lia. pose proof (Z.div_mod c (2 ^ 8)). lia.
  - apply Z.bits_inj'. intros i Hi. rewrite Z.land_spec, Z.bits_0, Z.shiftl_spec by lia. destruct (Z.ltb_spec i 8).
    + by rewrite Z.testbit_neg_r by lia.
    + by rewrite Z.mod_pow2_bits_high, andb_false_r by lia.
Qed.

Lemma lxor_u8 a b : is_u8 a -> is_u8 b -> is_u8 (Z.lxor a b).
Proof.
  unfold is_u8. intros Ha Hb. split; [apply Z.lxor_nonneg; lia|].
  destruct (Z.eq_dec (Z.lxor a b) 0) as [->|]; [lia|]. apply Z.log2_lt_pow2; [pose proof (proj2 (Z.lxor_nonneg a b)); lia|].
  eapply Z.le_lt_trans; [apply Z.log2_lxor; lia|].
  assert (Hlog : forall x, 0 <= x < 2 ^ 8 -> Z.log2 x < 8); [|apply Z.max_lub_lt; by apply Hlog].
  intros x Hx. destruct (Z.eq_dec x 0) as [->|]; [done|]. apply Z.log2_lt_pow2; lia.
Qed.

Lemma crc_step c b : is_u16 c -> is_u8 b ->
  (e ← load Crc16CCITtable (Z.lxor (Z.shiftr c 8) (Z.land 0xff b)); Some (Z.lxor (Z.land (Z.shiftl c 8) 0xff00) e)) = Some (byte_step c b).
Proof.
  intros Hc Hb. destruct (u16_halves c Hc) as (Hh & Hl & Ec).
  assert (Eb : Z.land 0xff b = b).
  { change 0xff with (Z.ones 8). rewrite Z.land_comm, Z.land_ones by lia. by apply Z.mod_small. }
  rewrite Eb. destruct (table_values (Z.lxor (Z.shiftr c 8) b)) as [-> _]; [by apply lxor_u8|]. cbn [mbind option_bind]. f_equal.
  unfold byte_step. rewrite Ec at 3. replace (Z.lxor (Z.lxor (Z.shiftl (Z.shiftr c 8) 8) (Z.land c 0xff)) (Z.shiftl b 8))
    with (Z.lxor (Z.land c 0xff) (Z.shiftl (Z.lxor (Z.shiftr c 8) b) 8)).
  2: { by rewrite Z.shiftl_lxor, <- Z.lxor_assoc, (Z.lxor_comm (Z.land c 0xff)). }
  rewrite eight_lxor. rewrite (proj2 (table_values (Z.land c 0xff) Hl)). f_equal.
  apply Z.bits_inj'. intros i Hi. rewrite Z.land_spec, !Z.shiftl_spec by lia.
  destruct (Z.ltb_spec i 8).
  { by rewrite (Z.testbit_neg_r c), (Z.testbit_neg_r (Z.land _ _)) by lia. }
  rewrite Z.land_spec.
  change 0xff00 with (Z.shiftl 0xff 8). by rewrite Z.shiftl_spec by lia.
Qed.

Lemma byte_step_eq c b : byte_step c b = eight (Z.lxor c (Z.shiftl b 8)).
Proof. reflexivity. Qed.

Lemma byte_step_u16 c b : is_u16 (byte_step c b).
Proof. rewrite byte_step_eq. apply eight_u16. Qed.

Lemma fold_left_cons {A B} (f : A -> B -> A) b m c : fold_left f (b :: m) c = fold_left f m (f c b).
Proof. reflexivity. Qed.

Lemma crc_loop_cons n b m c :
  crc_loop (S n) (b :: m) c =
  (e ← load Crc16CCITtable (Z.lxor (Z.shiftr c 8) (Z.land 0xff b)); crc_loop n m (Z.lxor (Z.land (Z.shiftl c 8) 0xff00) e)).
Proof. cbn [crc_loop]. reflexivity. Qed.

Lemma crc_loop_ccitt m : forall c rest, is_u16 c -> Forall is_u8 m -> crc_loop (length m) (m ++ rest) c = Some (ccitt m c).
Proof.
  induction m as [|b m IH]; intros c rest Hc Hm; [reflexivity|]. apply Forall_cons_iff in Hm as [Hb Hm].
  pose proof (crc_step c b Hc Hb) as E. apply bind_Some in E as (e & E1 & [= E2]). cbn [length app].
  rewrite fold_left_cons, crc_loop_cons, E1. cbn [mbind option_bind]. rewrite E2. apply IH; [apply byte_step_u16|exact Hm].
Qed.

Lemma crc_loop_all m c : is_u16 c -> Forall is_u8 m -> crc_loop (length m) m c = Some (ccitt m c).
Proof. intros Hc Hm. pose proof (crc_loop_ccitt m c [] Hc Hm) as E. by rewrite app_nil_r in E. Qed.

(** *** Errors are found: the steps lose nothing *)

Lemma bit_step_zero x : is_u16 x -> bit_step x = 0 -> x = 0.
Proof.
  intros Hx E. pose proof (proj1 (u16_bits x) Hx) as [_ Hhi].
  assert (Hb : forall i, 0 <= i -> Z.testbit (bit_step x) i = false) by (intros i _; rewrite E; apply Z.bits_0).
  unfold bit_step in Hb. assert (H15 : Z.testbit x 15 = false).
  { specialize (Hb 0 ltac:(lia)). rewrite Z.lxor_spec, uwrap_bits, Z.shiftl_spec, Z.testbit_neg_r in Hb by lia.
    by destruct (Z.testbit x 15). }
  apply Z.bits_inj'. intros i Hi. rewrite Z.bits_0. destruct (Z.lt_ge_cases i 15) as [Hlt|Hge].
  - specialize (Hb (i + 1) ltac:(lia)). rewrite H15, Z.lxor_0_r, uwrap_bits, Z.shiftl_spec in Hb by lia.
    replace (i + 1 <? 16) with true in Hb by zb. cbn [andb] in Hb. by replace (i + 1 - 1) with i in Hb by lia.
  - destruct (Z.eq_dec i 15) as [->|]; [done|]. apply Hhi. lia.
Qed.

Lemma iter_zero n : forall x, is_u16 x -> Nat.iter n bit_step x = 0 -> x = 0.
Proof.
  induction n as [|n IH]; intros x Hx E; [exact E|]. apply IH; [done|].
  apply bit_step_zero; [|exact E]. destruct n; [exact Hx|]. apply bit_step_u16.
Qed.

Lemma eight_zero x : is_u16 x -> eight x = 0 -> x = 0.
Proof. unfold eight. apply iter_zero. Qed.

Lemma eight_inj a b : is_u16 a -> is_u16 b -> eight a = eight b -> a = b.
Proof.
  intros Ha Hb E. apply Z.lxor_eq, eight_zero; [by apply lxor_u16|]. rewrite eight_lxor, E. apply Z.lxor_nilpotent.
Qed.

Lemma u8_shifted b : is_u8 b -> is_u16 (Z.shiftl b 8).
Proof. unfold is_u8, is_u16. rewrite Z.shiftl_mul_pow2 by lia. lia. Qed.

Lemma lxor_cancel a b c : Z.lxor a c = Z.lxor b c -> a = b.
Proof.
  intros E. rewrite <- (Z.lxor_0_r a), <- (Z.lxor_0_r b), <- (Z.lxor_nilpotent c), <- !Z.lxor_assoc. by rewrite E.
Qed.

Lemma byte_step_inj c c' b : is_u16 c -> is_u16 c' -> is_u8 b -> byte_step c b = byte_step c' b -> c = c'.
Proof.
  intros Hc Hc' Hb E. pose proof (u8_shifted b Hb). apply (lxor_cancel c c' (Z.shiftl b 8)).
  rewrite !byte_step_eq in E. apply eight_inj; [by apply lxor_u16..|exact E].
Qed.

Lemma ccitt_inj q : forall c c', is_u16 c -> is_u16 c' -> Forall is_u8 q -> ccitt q c = ccitt q c' -> c = c'.
Proof.
  induction q as [|b q IH]; intros c c' Hc Hc' Hq; [done|]. apply Forall_cons_iff in Hq as [Hb Hq]. rewrite !fold_left_cons. intros E.
  apply (byte_step_inj c c' b Hc Hc' Hb). apply IH; [apply byte_step_u16..|done|exact E].
Qed.

(** A byte that is added reaches the lower byte of the register. *)
Lemma table_low d : is_u8 d -> Z.land (eight (Z.shiftl d 8)) 0xff = 0 -> d = 0.
Proof.
  intros Hd. assert (Hall : forallb (fun k => let d := Z.of_nat k in
    negb (Z.land (eight (Z.shiftl d 8)) 0xff =? 0) || (d =? 0)) (seq 0 256) = true) by (vm_compute; reflexivity).
  rewrite forallb_forall in Hall. specialize (Hall (Z.to_nat d)). cbv beta zeta in Hall.
  rewrite Z2Nat.id in Hall by (destruct Hd; lia).
  intros E. rewrite E in Hall. apply Z.eqb_eq, Hall, in_seq. unfold is_u8 in Hd. lia.
Qed.

Lemma land_shifted b : Z.land (Z.shiftl b 8) 0xff = 0.
Proof.
  apply Z.bits_inj'. intros i Hi. rewrite Z.land_spec, Z.bits_0, Z.shiftl_spec by lia. destruct (Z.ltb_spec i 8).
  - by rewrite Z.testbit_neg_r by lia.
  - change 0xff with (Z.ones 8). by rewrite Z.ones_spec_high, andb_false_r by lia.
Qed.

Lemma land_lxor a b m : Z.land (Z.lxor a b) m = Z.lxor (Z.land a m) (Z.land b m).
Proof. apply Z.bits_inj'. intros i Hi. rewrite !Z.land_spec, !Z.lxor_spec, !Z.land_spec. by destruct (Z.testbit a i), (Z.testbit b i), (Z.testbit m i). Qed.

Lemma two_bytes_inj c a b a' b' : is_u16 c -> is_u8 a -> is_u8 b -> is_u8 a' -> is_u8 b' ->
  byte_step (byte_step c a) b = byte_step (byte_step c a') b' -> a = a' /\ b = b'.
Proof.
  intros Hc Ha Hb Ha' Hb' E.
  assert (E1 : Z.lxor (byte_step c a) (Z.shiftl b 8) = Z.lxor (byte_step c a') (Z.shiftl b' 8)).
  { rewrite (byte_step_eq (byte_step c a)), (byte_step_eq (byte_step c a')) in E.
    apply eight_inj; [apply lxor_u16; [apply byte_step_u16|by apply u8_shifted]..|exact E]. }
  assert (Hlow : Z.land (byte_step c a) 0xff = Z.land (byte_step c a') 0xff).
  { apply (f_equal (fun x => Z.land x 0xff)) in E1. rewrite !land_lxor, !land_shifted, !Z.lxor_0_r in E1. exact E1. }
  assert (Ed : Z.lxor (byte_step c a) (byte_step c a') = eight (Z.shiftl (Z.lxor a a') 8)).
  { rewrite !byte_step_eq, <- eight_lxor, Z.shiftl_lxor. f_equal.
    rewrite (Z.lxor_comm c (Z.shiftl a 8)), Z.lxor_assoc, <- (Z.lxor_assoc c c), Z.lxor_nilpotent, Z.lxor_0_l. reflexivity. }
  assert (Haa : a = a').
  { apply Z.lxor_eq, table_low; [by apply lxor_u8|]. rewrite <- Ed, land_lxor, Hlow. apply Z.lxor_nilpotent. }
  split; [exact Haa|]. subst a'. rewrite !(Z.lxor_comm (byte_step c a)) in E1. apply lxor_cancel in E1.
  rewrite !Z.shiftl_mul_pow2 in E1 by lia. lia.
Qed.

(** The two bytes of the register, behind the message, bring it to zero. *)
Lemma ccitt_appended r : is_u16 r -> ccitt [Z.shiftr r 8; Z.land r 0xff] r = 0.
Proof.
  intros Hr. destruct (u16_halves r Hr) as (Hh & Hl & Er). rewrite !fold_left_cons. cbn [fold_left].
  assert (E1 : byte_step r (Z.shiftr r 8) = Z.shiftl (Z.land r 0xff) 8).
  { rewrite byte_step_eq. rewrite Er at 1. rewrite (Z.lxor_comm _ (Z.land r 0xff)), Z.lxor_assoc, Z.lxor_nilpotent, Z.lxor_0_r.
    by apply table_values. }
  rewrite E1, byte_step_eq, Z.lxor_nilpotent. apply (proj2 (table_values 0 ltac:(lia))).
Qed.

(** C30. The table-driven CRC is that of the polynomial 0x1021, bit by bit; a message with
    its CRC behind it has the CRC zero; and two messages that differ in two neighbouring
    bytes only never have the same CRC. *)
Theorem crc_is_ccitt m rest c : is_u16 c -> Forall is_u8 m ->
  Crc16CCITCalculate (m ++ rest) (zlen m) c = Some (ccitt m c) /\
  Crc16CCITCalculate (m ++ [Z.shiftr (ccitt m c) 8; Z.land (ccitt m c) 0xff]) (zlen m + 2) c = Some 0 /\
  forall p a b q a' b', m = p ++ a :: b :: q -> is_u8 a' -> is_u8 b' -> (a, b) <> (a', b') ->
    Crc16CCITCalculate (p ++ a' :: b' :: q) (zlen m) c <> Some (ccitt m c).
Proof.
  intros Hc Hm. unfold Crc16CCITCalculate. assert (Hr : is_u16 (ccitt m c)).
  { destruct m as [|x m] using rev_ind; [exact Hc|]. rewrite fold_left_app. apply byte_step_u16. }
  split; [rewrite Nat2Z.id; by apply crc_loop_ccitt|]. split.
  - set (t := [_; _]). replace (Z.to_nat (zlen m + 2)) with (length (m ++ t)) by (rewrite length_app; cbn [length t]; lia).
    destruct (u16_halves _ Hr) as (Hh & Hl & _). rewrite crc_loop_all; [|done|].
    + rewrite fold_left_app. f_equal. by apply ccitt_appended.
    + apply Forall_app. split; [done|]. by repeat constructor; apply Hh || apply Hl.
  - intros p a b q a' b' -> Ha' Hb' Hne. apply Forall_app in Hm as [Hp Hm]. apply Forall_cons_iff in Hm as [Ha Hm].
    apply Forall_cons_iff in Hm as [Hb Hq].
    replace (Z.to_nat (zlen (p ++ a :: b :: q))) with (length (p ++ a' :: b' :: q)) by (rewrite !length_app; cbn [length]; lia).
    rewrite crc_loop_all; [|done|apply Forall_app; split; [done|by constructor; [|constructor]]].
    rewrite !fold_left_app, !fold_left_cons. intros [= E]. apply Hne.
    assert (Hpc : is_u16 (ccitt p c)).
    { destruct p as [|x p] using rev_ind; [exact Hc|]. rewrite fold_left_app. apply byte_step_u16. }
    apply ccitt_inj in E; [|apply byte_step_u16..|done].
    destruct (two_bytes_inj _ _ _ _ _ Hpc Ha' Hb' Ha Hb E) as [-> ->]. done.
Qed.

(** ** Frames *)

(** What goes over the line for a package with the data [d]. *)
Definition frame (info : ImxPackageInfo_t) (d : list Z) : list Z :=
  let body := [id info; Z.land (command info) 0xff; Z.land (Z.shiftr (command info) 8) 0xff;
               Z.land (Length info) 0xff; Z.land (Z.shiftr (Length info) 8) 0xff] ++ d in
  [HEAD_1; HEAD_2; HEAD_3] ++ body ++ [u8 (- fold_left Z.add body 0)].

Lemma sum_u8 l : forall s, fold_left (fun s d => u8 (s + d)) l (u8 s) = u8 (fold_left Z.add l s).
Proof. induction l as [|d l IH]; intros s; [done|]. cbn [fold_left]. by rewrite uwrap_add_l, IH. Qed.

Lemma checksum_spec d rest : cal_imx_package_checksum (d ++ rest) (zlen d) = Some (u8 (- fold_left Z.add d 0)).
Proof.
  unfold cal_imx_package_checksum. rewrite length_app, Nat2Z.id, take_app_length. replace (zlen d <=? _) with true by zb. f_equal.
  pose proof (sum_u8 d 0) as E. change (u8 0) with 0 in E. rewrite E. set (n := fold_left Z.add d 0).
  replace (Z.lnot (u8 n) + 1) with (- u8 n) by (unfold Z.lnot; lia).
  unfold uwrap. by rewrite <- (Z.sub_0_l (n mod _)), Zminus_mod_idemp_r, Z.sub_0_l.
Qed.

(** The frame is built piece by piece in a buffer of zeros. *)
Lemma memcpy_in_spec a t s n i : 0 <= n <= zlen s -> n <= zlen t -> i = zlen a ->
  memcpy_in (a ++ t) i s n = Some (a ++ take (Z.to_nat n) s ++ drop (Z.to_nat n) t).
Proof.
  intros Hn Ht ->. unfold memcpy_in. rewrite length_app. replace (n <=? zlen s) with true by zb.
  replace (_ <=? _) with true by zb. cbn [andb]. f_equal. unfold bput. rewrite Nat2Z.id, take_app_length, length_take, Nat.min_l by lia.
  by rewrite <- drop_drop, drop_app_length.
Qed.

Lemma frame_checks info d : fold_left Z.add (drop 3 (frame info d)) 0 mod 2 ^ 8 = 0.
Proof.
  unfold frame. set (body := _ ++ d). change (drop 3 _) with (body ++ [u8 (- fold_left Z.add body 0)]). rewrite fold_left_app. cbn [fold_left].
  unfold uwrap. rewrite Zplus_mod_idemp_r. by rewrite Z.add_opp_diag_r.
Qed.

(** A package of at most 128 bytes goes out as its frame: the head, the fields in
    little-endian order, the data and a byte that brings the sum of all behind the head to
    zero; for a longer one the write reads past the end of the buffer. *)
Theorem uart_tx_frame info pData : 0 <= Length info <= zlen pData ->
  (Length info <= 128 -> uart_tx info pData = Some (frame info (take (Z.to_nat (Length info)) pData)) /\
    fold_left Z.add (drop 3 (frame info (take (Z.to_nat (Length info)) pData))) 0 mod 2 ^ 8 = 0) /\
  (128 < Length info -> uart_tx info pData = None).
Proof.
  intros Hl. unfold uart_tx. change (Z.to_nat (UART_DATA_BUFF_LEN + UART_PROTOCOL_LEN)) with 137%nat. rewrite bput_zeros.
  set (l := Length info) in *. set (hdr := [_; _; _; _; _; _; _; _]). change (137 - length hdr)%nat with 129%nat. split; intros H128.
  - split; [|apply frame_checks]. replace (128 <? l) with false by zb. set (d := take (Z.to_nat l) pData).
    rewrite memcpy_in_spec by (rewrite ?repeat_length; done || lia). cbn [mbind option_bind]. fold d. rewrite drop_zeros.
    assert (Hd : zlen d = l) by (unfold d; rewrite length_take; lia).
    replace (u8 (8 + l)) with (8 + l) by (symmetry; apply uwrap_small; lia).
    change (drop 3 (hdr ++ ?x)) with (drop 3 hdr ++ x). rewrite (app_assoc (drop 3 hdr)).
    replace (8 + l - 3) with (zlen (drop 3 hdr ++ d)) by (rewrite length_app; change (length (drop 3 hdr)) with 5%nat; lia).
    rewrite checksum_spec. cbn [mbind option_bind].
    replace (129 - Z.to_nat l)%nat with (S (128 - Z.to_nat l)) by lia. cbn [repeat]. rewrite app_assoc, store_at by (rewrite length_app; change (length hdr) with 8%nat; lia).
    cbn [mbind option_bind]. rewrite !length_app. cbn [length]. rewrite repeat_length. change (length hdr) with 8%nat.
    replace (UART_PAYLOAD_OFFSET + l + 1 <=? _) with true by (unfold UART_PAYLOAD_OFFSET; zb). f_equal.
    unfold frame. fold l. change (drop 3 hdr ++ d) with (skipn 3 hdr ++ d). 
    set (ck := u8 _). change (_ :: repeat 0 _) with ([ck] ++ repeat 0 (128 - Z.to_nat l)). rewrite app_assoc.
    rewrite take_app_length'; [by rewrite <- app_assoc|]. rewrite !length_app. change (length hdr) with 8%nat. cbn [length]. unfold UART_PAYLOAD_OFFSET. lia.
  - replace (128 <? l) with true by zb. rewrite memcpy_in_spec by (rewrite ?repeat_length; done || lia). cbn [mbind option_bind].
    destruct (cal_imx_package_checksum _ _) as [ck|]; cbn [mbind option_bind]; [|done].
    destruct (store _ _ _) as [b|] eqn:E; cbn [mbind option_bind]; [|done].
    assert (Hb : zlen b = 137).
    { rewrite (store_length _ _ _ _ E), !length_app, drop_zeros, repeat_length, length_take. change (length hdr) with 8%nat. lia. }
    rewrite Hb. by replace (UART_PAYLOAD_OFFSET + l + 1 <=? 137) with false by (unfold UART_PAYLOAD_OFFSET; zb).
Qed.

(** ** Examples *)

(** The check value of CRC-16/XMODEM: the digits from 1 to 9. *)
Lemma crc_is_ccitt_witness :
  Crc16CCITCalculate (str "123456789") 9 0 = Some 0x31c3 /\
  Crc16CCITCalculate (str "123456798") 9 0 <> Some (fold_left byte_step (str "123456789") 0).
Proof.
  destruct (crc_is_ccitt (str "123456789") [] 0) as (E & _ & H).
  - split; [apply Z.le_refl|reflexivity].
  - apply (bool_decide_unpack _). vm_compute. reflexivity.
  - split.
    + rewrite app_nil_r in E. etransitivity; [exact E|]. vm_compute. reflexivity.
    + apply (H (str "1234567") 56 57 [] 57 56); [reflexivity|split; [discriminate|reflexivity]|split; [discriminate|reflexivity]|discriminate].
Defined.

(** The request that starts the loader of the microcontroller. *)
Lemma uart_tx_frame_witness :
  uart_tx (mkPackage 0 3 1) (1 :: repeat 0 127) = Some [0x21; 0x50; 0x53; 0; 3; 0; 1; 0; 1; 0xfb].
Proof.
  destruct (uart_tx_frame (mkPackage 0 3 1) (1 :: repeat 0 127)) as [H _].
  - cbn [Length]. vm_compute. split; discriminate.
  - destruct H as [H _]; [cbn [Length]; discriminate|]. etransitivity; [exact H|]. vm_compute. reflexivity.
Defined.

(** The requests, for two channels each. *)
Example requests :
  read_value_from_ad 5 (repeat 0 128) = Some [0x21; 0x50; 0x53; 0; 1; 0; 2; 0; 0; 2; 0xfb] /\
  ad_output_level_set 3 1 (repeat 0 128) = Some [0x21; 0x50; 0x53; 0; 2; 0; 4; 0; 0; 1; 1; 1; 0xf7].
Proof. vm_compute. split; reflexivity. Qed.
