(* ===== verification/Subnet.v ===== *)
(** * Addresses and masks (dhcpd_data/dhcp_server_setting.c, ip_info/netmask_to_len.c)

    The checks of a range of addresses for the DHCP server.  The system's [inet_addr],
    [inet_ntoa] and [inet_pton] are parameters; an address in network order is read as a
    number by a little-endian machine.  [unsigned long] has [lw] bits.  A string is the list
    of its bytes, a buffer its block; [None] is an access outside of it, a value that does
    not fit its type, or a shift by the width of the type. *)

From S2P Require Import Prelude CString.
#[local] Open Scope Z_scope.
#[local] Open Scope cint_scope.

(** ** Reading numbers *)

(** The conversion %ld of [sscanf]; [None] if it does not match. *)
Definition scan_ld (s : list Z) : option (Z * list Z) :=
  let s := skip_space s in
  let '(neg, s) := match s with
                   | c :: s' => if c =? 45 then (true, s') else if c =? 43 then (false, s') else (false, s)
                   | [] => (false, [])
                   end in
  let ds := digits_prefix s in
  if bool_decide (ds = []) then None
  else Some (if neg : bool then - dec_val ds else dec_val ds, drop (length ds) s).

(** The directive [c] of a format. *)
Definition scan_char (c : Z) (s : list Z) : option (list Z) :=
  match s with d :: s => if d =? c then Some s else None | [] => None end.

(** [sscanf(s, "%ld.%ld.%ld.%ld", ...)]: the variables that are not matched keep what they
    hold. *)
Fixpoint scan_rest (s : list Z) (old : list Z) (first : bool) : list Z :=
  match old with
  | [] => []
  | o :: old =>
      match (s ← (if first then Some s else scan_char 46 s); scan_ld s) with
      | Some (v, s) => v :: scan_rest s old false
      | None => o :: old
      end
  end.
Definition sscanf4 (s : list Z) (parts : list Z) : list Z := scan_rest s parts true.

(** ** Ranges *)

Section Addresses.
Context (lw : Z).
Context (inet_addr : list Z -> Z) (inet_ntoa : Z -> list Z) (inet_pton : list Z -> Z).

(** [strncpy(b, s, strlen(s))]: without a NUL *)
Definition strncpy_len (b s : list Z) : option (list Z) := if zlen s <=? zlen b then Some (bput b 0 s) else None.

Definition range_start_ip_calc (ip netmask start_ip : list Z) : option (list Z) :=
  let ipv4 := inet_addr ip in
  let ipv4msk := inet_addr netmask in
  let ipv4subnet := Z.land ipv4 ipv4msk in
  let tmp := uwrap lw (Z.shiftr ipv4subnet 24 + 1) in
  let start_ip_int := Z.lor (uwrap lw (Z.shiftl tmp 24)) (Z.land ipv4subnet 0xffffff) in
  strncpy_len start_ip (inet_ntoa (u32 start_ip_int)).

Definition range_end_ip_calc (ip netmask end_ip : list Z) : option (list Z) :=
  let ipv4 := inet_addr ip in
  let ipv4msk := inet_addr netmask in
  let ipv4subnet := Z.land ipv4 ipv4msk in
  let end_ip_int := Z.land (Z.lor ipv4subnet (uwrap lw (Z.lnot ipv4msk))) 0xffffffff in
  let tmp := uwrap lw (Z.shiftr end_ip_int 24 - 1) in
  let end_ip_int := Z.lor (uwrap lw (Z.shiftl tmp 24)) (Z.land end_ip_int 0xffffff) in
  strncpy_len end_ip (inet_ntoa (u32 end_ip_int)).

(** [(part1<<24)|(part2<<16)|(part3<<8)|(part4)] *)
Definition join_parts (parts : list Z) : Z :=
  let p i := uwrap lw (zget parts i) in
  Z.lor (Z.lor (Z.lor (uwrap lw (Z.shiftl (p 0) 24)) (uwrap lw (Z.shiftl (p 1) 16))) (uwrap lw (Z.shiftl (p 2) 8))) (p 3).

(** [parts] is what the four variables hold at first. *)
Definition ip_range_check (parts : list Z) (ip netmask start_ip end_ip : list Z) : option Z :=
  range_start_ip ← range_start_ip_calc ip netmask (repeat 0 32);
  range_end_ip ← range_end_ip_calc ip netmask (repeat 0 32);
  rs ← cstr range_start_ip;
  re ← cstr range_end_ip;
  let parts := sscanf4 rs parts in
  let int_range_start_ip := join_parts parts in
  let parts := sscanf4 re parts in
  let int_range_end_ip := join_parts parts in
  let parts := sscanf4 start_ip parts in
  let int_start_ip := join_parts parts in
  let parts := sscanf4 end_ip parts in
  let int_end_ip := join_parts parts in
  Some (if int_end_ip <? int_start_ip then -1
        else if int_start_ip <? int_range_start_ip then -1
        else if int_range_end_ip <? int_end_ip then -1
        else 0).

(** The older check, on the numbers as [inet_addr] gives them. *)
Definition ipaddr_range_check (subnet netmask ip_addr_start ip_addr_end : list Z) : Z :=
  let subnet_int := inet_addr subnet in
  let netmask_int := inet_addr netmask in
  let ip_start_int := inet_addr ip_addr_start in
  let ip_end_int := inet_addr ip_addr_end in
  let ip_range_end := Z.land (Z.lor subnet_int (uwrap lw (Z.lnot netmask_int))) 0xffffffff in
  if (netmask_int =? 0xffffffff) && (subnet_int =? ip_start_int) && (subnet_int =? ip_end_int) then -2
  else if negb (Z.land ip_start_int netmask_int =? subnet_int) || (ip_start_int <? subnet_int) || (ip_range_end <? ip_start_int) then -1
  else if negb (Z.land ip_end_int netmask_int =? subnet_int) || (ip_end_int <? subnet_int) || (ip_range_end <? ip_end_int) then -1
  else if ip_end_int <? ip_start_int then -1
  else 0.

Definition subnet_calc (ip netmask subnet : list Z) : option (list Z) :=
  let ipv4subnet := Z.land (inet_addr ip) (inet_addr netmask) in
  strncpy_len subnet (inet_ntoa (u32 ipv4subnet)).

(** ** Masks *)

Definition CheckIPAddressFormat (strIPAddress : list Z) : Z := inet_pton strIPAddress.

(** [n] holds garbage before; a part is an [unsigned int]. *)
Definition IsSubnetMask (garbage : list Z) (subnet : list Z) : Z :=
  if negb (CheckIPAddressFormat subnet =? 0) then
    let n := map (uwrap 32) (sscanf4 subnet garbage) in
    let b := fold_left (fun b i => u32 (b + u32 (Z.shiftl (zget n (3 - i)) (i * 8)))) [0; 1; 2; 3] 0 in
    let b := u32 (u32 (Z.lnot b) + 1) in
    if Z.land b (u32 (b - 1)) =? 0 then 1 else -1
  else -1.
End Addresses.

(** The loop of [mask2len]. *)
Fixpoint mask_loop (fuel : nat) (mask bit : Z) : option Z :=
  match fuel with
  | O => None
  | S fuel => if negb (Z.land (u32 (Z.lnot mask)) (Z.shiftl 1 bit) =? 0) then mask_loop fuel mask (bit + 1) else Some bit
  end.

Definition mask2len (mask : Z) : option Z :=
  bit ← mask_loop 33 mask 0;
  let len := 32 - bit in
  if 32 <=? bit then None
  else Some (if negb (Z.shiftr (u32 (Z.lnot mask)) bit =? 0) then -1 else len).
