(* ===== verification/SubnetSpec.v ===== *)
(** * What the checks of addresses decide

    An address is four bytes; its value in host order is the number that the checks are
    meant to compare.  The hypotheses on [inet_addr] and [inet_ntoa] say that they convert
    between the dotted text and the number in network order. *)

From S2P Require Import Prelude CString Subnet.
#[local] Open Scope Z_scope.
#[local] Open Scope cint_scope.

(** ** Numbers of bytes *)

(** The low byte [x] below [y]. *)
Definition cat (x y : Z) : Z := x + 2 ^ 8 * y.
Definition byte (x : Z) : Prop := 0 <= x < 2 ^ 8.

Lemma cat_bits x y i : byte x -> 0 <= i -> Z.testbit (cat x y) i = if i <? 8 then Z.testbit x i else Z.testbit y (i - 8).
Proof.
  intros Hx Hi. unfold cat, byte in *. destruct (Z.ltb_spec i 8).
  - rewrite <- (Z.mod_pow2_bits_low _ 8) by lia. rewrite (Z.mul_comm (2 ^ 8)), Z_mod_plus_full. by rewrite Z.mod_small.
  - replace i with (i - 8 + 8) at 1 by lia. rewrite <- Z.div_pow2_bits by lia. rewrite (Z.mul_comm (2 ^ 8)), Z_div_plus_full by lia.
    by rewrite Z.div_small.
Qed.

(** Operations go byte by byte. *)
Ltac cat_bitwise :=
  let i := fresh "i" in let Hi := fresh "Hi" in
  apply Z.bits_inj'; intros i Hi; rewrite ?Z.land_spec, ?Z.lor_spec, ?cat_bits, ?Z.land_spec, ?Z.lor_spec by done;
  destruct (i <? 8); rewrite ?Z.land_spec, ?Z.lor_spec; done.

Lemma byte_bits x : byte x <-> 0 <= x /\ forall i, 8 <= i -> Z.testbit x i = false.
Proof.
  unfold byte. split.
  - intros Hx. split; [lia|]. intros i Hi. rewrite <- (Z.mod_small x (2 ^ 8)) by done. apply Z.mod_pow2_bits_high. lia.
  - intros [H0 Hb]. split; [done|]. rewrite <- (Z.mod_small x (2 ^ 8)); [apply Z.mod_pos_bound; lia|]. split; [done|].
    destruct (Z.lt_ge_cases x (2 ^ 8)) as [?|Hge]; [done|exfalso]. specialize (Hb (Z.log2 x)). rewrite Z.bit_log2 in Hb by lia.
    assert (8 <= Z.log2 x) by (apply Z.log2_le_pow2; lia). by specialize (Hb H).
Qed.

Lemma land_byte x y : byte x -> byte (Z.land x y).
Proof.
  rewrite !byte_bits. intros [H0 Hb]. split; [apply Z.land_nonneg; by left|]. intros i Hi. by rewrite Z.land_spec, Hb.
Qed.

Lemma lor_byte x y : byte x -> byte y -> byte (Z.lor x y).
Proof.
  rewrite !byte_bits. intros [H0 Hb] [H1 Hc]. split; [by apply Z.lor_nonneg|]. intros i Hi. by rewrite Z.lor_spec, Hb, Hc.
Qed.

Lemma cat_land x y x' y' : byte x -> byte x' -> Z.land (cat x y) (cat x' y') = cat (Z.land x x') (Z.land y y').
Proof. intros Hx Hx'. pose proof (land_byte x x' Hx). cat_bitwise. Qed.

Lemma cat_lor x y x' y' : byte x -> byte x' -> Z.lor (cat x y) (cat x' y') = cat (Z.lor x x') (Z.lor y y').
Proof. intros Hx Hx'. pose proof (lor_byte x x' Hx Hx'). cat_bitwise. Qed.

(** The byte with all bits changed. *)
Definition flip (x : Z) : Z := 255 - x.

Lemma flip_byte x : byte x -> byte (flip x).
Proof. unfold byte, flip. lia. Qed.

(** ** Addresses *)

Record quad : Type := mkQuad { q1 : Z; q2 : Z; q3 : Z; q4 : Z }.
Definition quad_ok (q : quad) : Prop := byte (q1 q) /\ byte (q2 q) /\ byte (q3 q) /\ byte (q4 q).

(** The numbers in network and in host order. *)
Definition net (q : quad) : Z := cat (q1 q) (cat (q2 q) (cat (q3 q) (q4 q))).
Definition host (q : quad) : Z := cat (q4 q) (cat (q3 q) (cat (q2 q) (q1 q))).

Definition zip_quad (f : Z -> Z -> Z) (q m : quad) : quad := mkQuad (f (q1 q) (q1 m)) (f (q2 q) (q2 m)) (f (q3 q) (q3 m)) (f (q4 q) (q4 m)).
Definition subnet (q m : quad) : quad := zip_quad Z.land q m.
Definition broadcast (q m : quad) : quad := zip_quad (fun x y => Z.lor (Z.land x y) (flip y)) q m.

Lemma zip_ok f q m : (forall x y, byte x -> byte y -> byte (f x y)) -> quad_ok q -> quad_ok m -> quad_ok (zip_quad f q m).
Proof. intros Hf (? & ? & ? & ?) (? & ? & ? & ?). repeat split; by apply Hf. Qed.

Lemma subnet_ok q m : quad_ok q -> quad_ok m -> quad_ok (subnet q m).
Proof. apply zip_ok. intros x y Hx _. by apply land_byte. Qed.

Lemma broadcast_ok q m : quad_ok q -> quad_ok m -> quad_ok (broadcast q m).
Proof. apply zip_ok. intros x y Hx Hy. apply lor_byte; [by apply land_byte|by apply flip_byte]. Qed.

Lemma net_land q m : quad_ok q -> quad_ok m -> Z.land (net q) (net m) = net (subnet q m).
Proof. intros (? & ? & ? & ?) (? & ? & ? & ?). unfold net. by rewrite !cat_land by done. Qed.

Lemma host_land q m : quad_ok q -> quad_ok m -> Z.land (host q) (host m) = host (subnet q m).
Proof. intros (? & ? & ? & ?) (? & ? & ? & ?). unfold host. by rewrite !cat_land by done. Qed.

Lemma net_lor q m : quad_ok q -> quad_ok m -> Z.lor (net q) (net m) = net (zip_quad Z.lor q m).
Proof. intros (? & ? & ? & ?) (? & ? & ? & ?). unfold net. by rewrite !cat_lor by done. Qed.

Lemma host_lor q m : quad_ok q -> quad_ok m -> Z.lor (host q) (host m) = host (zip_quad Z.lor q m).
Proof. intros (? & ? & ? & ?) (? & ? & ? & ?). unfold host. by rewrite !cat_lor by done. Qed.

Definition flip_quad (m : quad) : quad := mkQuad (flip (q1 m)) (flip (q2 m)) (flip (q3 m)) (flip (q4 m)).

Lemma flip_ok m : quad_ok m -> quad_ok (flip_quad m).
Proof. intros (? & ? & ? & ?). repeat split; by apply flip_byte. Qed.

Lemma flip_host m : host (flip_quad m) = 2 ^ 32 - 1 - host m.
Proof. unfold host, flip_quad, flip, cat. cbn [q1 q2 q3 q4]. lia. Qed.

Lemma flip_net m : net (flip_quad m) = 2 ^ 32 - 1 - net m.
Proof. unfold net, flip_quad, flip, cat. cbn [q1 q2 q3 q4]. lia. Qed.

Lemma net_range q : quad_ok q -> 0 <= net q < 2 ^ 32.
Proof. unfold quad_ok, byte, net, cat. lia. Qed.

Lemma host_range q : quad_ok q -> 0 <= host q < 2 ^ 32.
Proof. unfold quad_ok, byte, host, cat. lia. Qed.

(** The broadcast address in host order: the bits outside of the mask are set. *)
Lemma host_broadcast q m : quad_ok q -> quad_ok m -> host (broadcast q m) = Z.lor (Z.land (host q) (host m)) (2 ^ 32 - 1 - host m).
Proof.
  intros Hq Hm. rewrite host_land, <- flip_host, host_lor by (done || by apply subnet_ok || by apply flip_ok). done.
Qed.

(** ** The text of an address *)

Definition byte_text (n : Z) : list Z :=
  (if 100 <=? n then [48 + n / 100] else []) ++ (if 10 <=? n then [48 + n / 10 mod 10] else []) ++ [48 + n mod 10].
Definition dotted (q : quad) : list Z :=
  byte_text (q1 q) ++ 46 :: byte_text (q2 q) ++ 46 :: byte_text (q3 q) ++ 46 :: byte_text (q4 q).

Lemma byte_text_ok n : byte n ->
  forallb isdigit (byte_text n) = true /\ dec_val (byte_text n) = n /\ (0 < length (byte_text n) <= 3)%nat.
Proof.
  intros Hn. assert (Hall : forallb (fun k => let n := Z.of_nat k in
    forallb isdigit (byte_text n) && (dec_val (byte_text n) =? n) && (0 <? length (byte_text n))%nat && (length (byte_text n) <=? 3)%nat)
    (seq 0 256) = true) by (vm_compute; reflexivity).
  rewrite forallb_forall in Hall. specialize (Hall (Z.to_nat n)). cbv beta zeta in Hall. rewrite Z2Nat.id in Hall by (destruct Hn; lia).
  assert (Hin : In (Z.to_nat n) (seq 0 256)) by (apply in_seq; destruct Hn; lia). specialize (Hall Hin).
  apply andb_true_iff in Hall as [Hall H4]. apply andb_true_iff in Hall as [Hall H3]. apply andb_true_iff in Hall as [H1 H2].
  apply Z.eqb_eq in H2. apply Nat.ltb_lt in H3. apply Nat.leb_le in H4. done.
Qed.

Lemma digits_prefix_app ds r : forallb isdigit ds = true -> match r with c :: _ => isdigit c = false | [] => True end ->
  digits_prefix (ds ++ r) = ds.
Proof.
  induction ds as [|c ds IH]; cbn.
  - intros _ Hr. destruct r as [|c r]; [done|]. cbn. by rewrite Hr.
  - intros [-> H]%andb_true_iff Hr. by rewrite IH.
Qed.

Lemma scan_byte n r : byte n -> match r with c :: _ => isdigit c = false | [] => True end -> scan_ld (byte_text n ++ r) = Some (n, r).
Proof.
  intros Hn Hr. destruct (byte_text_ok n Hn) as (Hd & Hv & Hl). set (t := byte_text n) in *. clearbody t.
  destruct t as [|c t]; [cbn in Hl; lia|]. unfold scan_ld.
  assert (Hs : skip_space ((c :: t) ++ r) = (c :: t) ++ r /\ (c =? 45) = false /\ (c =? 43) = false).
  { cbn in Hd. apply andb_true_iff in Hd as [Hc _]. unfold isdigit in Hc. apply andb_true_iff in Hc as [Hc1 Hc2].
    apply Z.leb_le in Hc1, Hc2. cbn. unfold isspace. replace (c =? 32) with false by zb. replace (9 <=? c) with true by zb.
    replace (c <=? 13) with false by zb. cbn. repeat split; zb. }
  destruct Hs as (-> & H45 & H43). cbn [app]. rewrite H45, H43. change (c :: t ++ r) with ((c :: t) ++ r).
  rewrite digits_prefix_app by done. rewrite bool_decide_eq_false_2 by done. by rewrite Hv, drop_app_length.
Qed.

Lemma scan_first n r o old : byte n -> match r with c :: _ => isdigit c = false | [] => True end ->
  scan_rest (byte_text n ++ r) (o :: old) true = n :: scan_rest r old false.
Proof. intros Hn Hr. cbn [scan_rest]. cbn iota. cbn [mbind option_bind]. by rewrite scan_byte. Qed.

Lemma scan_next n r o old : byte n -> match r with c :: _ => isdigit c = false | [] => True end ->
  scan_rest (46 :: byte_text n ++ r) (o :: old) false = n :: scan_rest r old false.
Proof.
  intros Hn Hr. cbn [scan_rest scan_char]. change (46 =? 46) with true. cbn iota. cbn [mbind option_bind]. by rewrite scan_byte.
Qed.

Lemma scan_dotted q old : quad_ok q -> length old = 4%nat -> sscanf4 (dotted q) old = [q1 q; q2 q; q3 q; q4 q].
Proof.
  intros (H1 & H2 & H3 & H4) Hl. destruct old as [|o1 [|o2 [|o3 [|o4 [|]]]]]; try done. unfold sscanf4, dotted.
  rewrite scan_first, !scan_next by done. rewrite <- (app_nil_r (byte_text (q4 q))). by rewrite scan_next.
Qed.

Lemma dotted_text q : quad_ok q -> no_nul (dotted q) /\ (length (dotted q) <= 15)%nat.
Proof.
  intros (H1 & H2 & H3 & H4).
  assert (Hn : forall n, byte n -> no_nul (byte_text n)).
  { intros n Hn. destruct (byte_text_ok n Hn) as (Hd & _ & _). rewrite forallb_forall in Hd. apply List.Forall_forall. intros c Hc ->. by apply Hd in Hc. }
  split.
  - unfold dotted. repeat (apply Forall_app; split; [by apply Hn|]; constructor; [done|]). by apply Hn.
  - pose proof (byte_text_ok _ H1) as (_ & _ & L1). pose proof (byte_text_ok _ H2) as (_ & _ & L2).
    pose proof (byte_text_ok _ H3) as (_ & _ & L3). pose proof (byte_text_ok _ H4) as (_ & _ & L4).
    unfold dotted. rewrite !length_app. cbn [length]. rewrite !length_app. cbn [length]. rewrite !length_app. cbn [length]. lia.
Qed.

(** ** Shifted parts *)

Lemma lor_shift x y k : 0 <= k -> 0 <= x < 2 ^ k -> Z.lor (Z.shiftl y k) x = x + 2 ^ k * y.
Proof.
  intros Hk Hx. rewrite Z.shiftl_mul_pow2 by done.
  rewrite <- Z.lxor_lor, <- Z.add_nocarry_lxor; [lia|..];
    (apply Z.bits_inj'; intros i Hi; rewrite Z.land_spec, Z.bits_0; destruct (Z.ltb_spec i k);
      [by rewrite Z.mul_pow2_bits_low by lia|rewrite <- (Z.mod_small x (2 ^ k)) by done; by rewrite Z.mod_pow2_bits_high, andb_false_r by lia]).
Qed.

Section Range.
Context (lw : Z) (lw_ok : lw = 32 \/ lw = 64).

Lemma lw_big x : 0 <= x < 2 ^ 32 -> uwrap lw x = x.
Proof using lw_ok. intros Hx. apply uwrap_small. destruct lw_ok as [-> | ->]; lia. Qed.

Lemma join_host q : quad_ok q -> join_parts lw [q1 q; q2 q; q3 q; q4 q] = host q.
Proof using lw_ok.
  intros (H1 & H2 & H3 & H4). unfold byte in *. unfold join_parts, zget. change (Z.to_nat 0) with 0%nat. change (Z.to_nat 1) with 1%nat.
  change (Z.to_nat 2) with 2%nat. change (Z.to_nat 3) with 3%nat. cbn [nth]. rewrite !(lw_big (_ q)) by lia.
  rewrite !Z.shiftl_mul_pow2 by lia. rewrite !lw_big by lia.
  replace (q1 q * 2 ^ 24) with (Z.shiftl (q1 q) 24) by (by rewrite Z.shiftl_mul_pow2 by lia).
  rewrite lor_shift by lia. replace (q2 q * 2 ^ 16 + 2 ^ 24 * q1 q) with (Z.shiftl (q2 q + 2 ^ 8 * q1 q) 16) by (rewrite Z.shiftl_mul_pow2 by lia; lia).
  rewrite lor_shift by lia. replace (q3 q * 2 ^ 8 + 2 ^ 16 * (q2 q + 2 ^ 8 * q1 q)) with (Z.shiftl (q3 q + 2 ^ 8 * (q2 q + 2 ^ 8 * q1 q)) 8)
    by (rewrite Z.shiftl_mul_pow2 by lia; lia).
  rewrite lor_shift by lia. unfold host, cat. lia.
Qed.

(** The last byte of an address in network order is the highest. *)
Definition with_last (q : quad) (x : Z) : quad := mkQuad (q1 q) (q2 q) (q3 q) x.

Lemma net_last q : quad_ok q -> Z.shiftr (net q) 24 = q4 q.
Proof.
  intros (H1 & H2 & H3 & H4). unfold byte in *. rewrite Z.shiftr_div_pow2 by lia. unfold net, cat.
  symmetry. apply (Z.div_unique _ _ _ (q1 q + 2 ^ 8 * (q2 q + 2 ^ 8 * q3 q))); lia.
Qed.

Lemma net_set_last q x : quad_ok q -> byte x -> Z.lor (uwrap lw (Z.shiftl x 24)) (Z.land (net q) 0xffffff) = net (with_last q x).
Proof using lw_ok.
  intros (H1 & H2 & H3 & H4) Hx. unfold byte in *.
  rewrite lw_big by (rewrite Z.shiftl_mul_pow2 by lia; lia).
  change 0xffffff with (Z.ones 24). rewrite Z.land_ones by lia.
  replace (net q mod 2 ^ 24) with (q1 q + 2 ^ 8 * (q2 q + 2 ^ 8 * q3 q)).
  - rewrite lor_shift by lia. unfold net, with_last, cat. cbn [q1 q2 q3 q4]. lia.
  - apply (Z.mod_unique _ _ (q4 q)); [lia|]. unfold net, cat. lia.
Qed.
Lemma land_le x y : 0 <= x -> 0 <= y -> Z.land x y <= y.
Proof.
  intros Hx Hy. assert (E : y = Z.land x y + Z.ldiff y x).
  { rewrite Z.add_nocarry_lxor.
    - apply Z.bits_inj'. intros i Hi. rewrite Z.lxor_spec, Z.land_spec, Z.ldiff_spec. by destruct (Z.testbit x i), (Z.testbit y i).
    - apply Z.bits_inj'. intros i Hi. rewrite !Z.land_spec, Z.ldiff_spec, Z.bits_0. by destruct (Z.testbit x i), (Z.testbit y i). }
  assert (0 <= Z.ldiff y x); [|lia]. apply Z.ldiff_nonneg. by left.
Qed.

Lemma lor_ge x y : 0 <= x -> 0 <= y -> y <= Z.lor x y.
Proof.
  intros Hx Hy. replace y with (Z.land y (Z.lor x y)) at 1; [apply land_le; [done|by apply Z.lor_nonneg]|].
  apply Z.bits_inj'. intros i Hi. rewrite Z.land_spec, Z.lor_spec. by destruct (Z.testbit x i), (Z.testbit y i).
Qed.

Context (inet_addr : list Z -> Z) (inet_ntoa : Z -> list Z).
Context (inet_addr_ok : forall q, quad_ok q -> inet_addr (dotted q) = net q).
Context (inet_ntoa_ok : forall q, quad_ok q -> inet_ntoa (net q) = dotted q).

(** A text in a buffer of zeros. *)
Lemma text_in_buffer q : quad_ok q -> exists b, strncpy_len (repeat 0 32) (dotted q) = Some b /\ cstr b = Some (dotted q).
Proof.
  intros Hq. destruct (dotted_text q Hq) as [Hn Hl]. unfold strncpy_len. rewrite repeat_length. replace (_ <=? _) with true by zb.
  eexists. split; [done|]. rewrite bput_zeros. destruct (32 - length (dotted q))%nat eqn:E; [lia|]. by apply cstr_app.
Qed.

(** A mask whose last byte leaves room for hosts. *)
Definition has_room (m : quad) : Prop := q4 m <> 255.

Definition first_host (q m : quad) : quad := with_last (subnet q m) (q4 (subnet q m) + 1).
Definition last_host (q m : quad) : quad := with_last (broadcast q m) (q4 (broadcast q m) - 1).

Lemma first_host_ok q m : quad_ok q -> quad_ok m -> has_room m -> quad_ok (first_host q m) /\ host (first_host q m) = host (subnet q m) + 1.
Proof.
  intros Hq Hm Hr. pose proof (subnet_ok q m Hq Hm) as (H1 & H2 & H3 & H4). unfold first_host, has_room in *.
  destruct Hq as (_ & _ & _ & Hq), Hm as (_ & _ & _ & Hm). unfold byte in *. cbn [q1 q2 q3 q4 subnet zip_quad] in *.
  pose proof (land_le (q4 q) (q4 m)).
  split; [|unfold host, cat, with_last, subnet, zip_quad; cbn [q1 q2 q3 q4]; lia].
  unfold quad_ok, byte, with_last, subnet, zip_quad. cbn [q1 q2 q3 q4]. lia.
Qed.

Lemma last_host_ok q m : quad_ok q -> quad_ok m -> has_room m -> quad_ok (last_host q m) /\ host (last_host q m) = host (broadcast q m) - 1.
Proof.
  intros Hq Hm Hr. pose proof (broadcast_ok q m Hq Hm) as (H1 & H2 & H3 & H4). unfold last_host, has_room in *.
  destruct Hq as (_ & _ & _ & Hq), Hm as (_ & _ & _ & Hm). pose proof (land_byte _ (q4 m) Hq) as Hl. pose proof (flip_byte _ Hm) as Hf.
  unfold byte in *. cbn [q1 q2 q3 q4 broadcast zip_quad] in *.
  pose proof (lor_ge (Z.land (q4 q) (q4 m)) (flip (q4 m))) as Hg. unfold flip in *.
  split; [|unfold host, cat, with_last, broadcast, zip_quad, flip; cbn [q1 q2 q3 q4]; lia].
  unfold quad_ok, byte, with_last, broadcast, zip_quad, flip. cbn [q1 q2 q3 q4]. lia.
Qed.

Lemma start_calc q m : quad_ok q -> quad_ok m -> has_room m ->
  exists b, range_start_ip_calc lw inet_addr inet_ntoa (dotted q) (dotted m) (repeat 0 32) = Some b /\ cstr b = Some (dotted (first_host q m)).
Proof using All.
  intros Hq Hm Hr. destruct (first_host_ok q m Hq Hm Hr) as [Hf _]. pose proof (subnet_ok q m Hq Hm) as Hs. unfold range_start_ip_calc.
  rewrite !inet_addr_ok, net_land, net_last by done. pose proof (proj2 (proj2 (proj2 Hf))) as H4.
  change (q4 (first_host q m)) with (q4 (subnet q m) + 1) in H4. rewrite (lw_big (q4 (subnet q m) + 1)) by (unfold byte in H4; lia).
  rewrite net_set_last by done. fold (first_host q m). unfold uwrap at 1. rewrite Z.mod_small by by apply net_range.
  rewrite inet_ntoa_ok by done. by apply text_in_buffer.
Qed.

Lemma complement_bits n : 0 <= n < 2 ^ 32 -> Z.land (uwrap lw (Z.lnot n)) 0xffffffff = 2 ^ 32 - 1 - n.
Proof using lw_ok.
  intros Hn. change 0xffffffff with (Z.ones 32). rewrite Z.land_ones by lia. unfold uwrap.
  rewrite <- Znumtheory.Zmod_div_mod; [|lia|destruct lw_ok as [-> | ->]; lia|].
  - symmetry. apply (Z.mod_unique _ _ (-1)); [lia|]. unfold Z.lnot. lia.
  - destruct lw_ok as [-> | ->]; [by exists 1|by exists (2 ^ 32)].
Qed.

Lemma end_calc q m : quad_ok q -> quad_ok m -> has_room m ->
  exists b, range_end_ip_calc lw inet_addr inet_ntoa (dotted q) (dotted m) (repeat 0 32) = Some b /\ cstr b = Some (dotted (last_host q m)).
Proof using All.
  intros Hq Hm Hr. destruct (last_host_ok q m Hq Hm Hr) as [Hf _]. pose proof (broadcast_ok q m Hq Hm) as Hs. unfold range_end_ip_calc.
  rewrite !inet_addr_ok, net_land by done. rewrite Z.land_lor_distr_l, complement_bits by by apply net_range.
  replace (Z.land (net (subnet q m)) 0xffffffff) with (net (subnet q m)).
  2: { change 0xffffffff with (Z.ones 32). rewrite Z.land_ones by lia. symmetry. apply Z.mod_small. apply net_range. by apply subnet_ok. }
  rewrite <- flip_net, net_lor by (by apply subnet_ok || by apply flip_ok). fold (broadcast q m).
  change (zip_quad Z.lor (subnet q m) (flip_quad m)) with (broadcast q m). rewrite net_last by done.
  pose proof (proj2 (proj2 (proj2 Hf))) as H4. change (q4 (last_host q m)) with (q4 (broadcast q m) - 1) in H4.
  rewrite (lw_big (q4 (broadcast q m) - 1)) by (unfold byte in H4; lia). rewrite net_set_last by done. fold (last_host q m).
  unfold uwrap at 1. rewrite Z.mod_small by by apply net_range. rewrite inet_ntoa_ok by done. by apply text_in_buffer.
Qed.

(** C31. Where the last byte of the mask leaves room, the range is accepted exactly if its
    addresses, as numbers in host order, are in order and lie between the address of the
    network and its broadcast address, without these two; the check never fails. *)
Theorem ip_range_check_correct parts q m s e : quad_ok q -> quad_ok m -> quad_ok s -> quad_ok e -> has_room m -> length parts = 4%nat ->
  exists r, ip_range_check lw inet_addr inet_ntoa parts (dotted q) (dotted m) (dotted s) (dotted e) = Some r /\
    (r = 0 \/ r = -1) /\
    (r = 0 <-> Z.land (host q) (host m) < host s <= host e /\ host e < Z.lor (Z.land (host q) (host m)) (2 ^ 32 - 1 - host m)).
Proof using All.
  intros Hq Hm Hs He Hr Hp. unfold ip_range_check.
  destruct (start_calc q m Hq Hm Hr) as (b1 & -> & E1), (end_calc q m Hq Hm Hr) as (b2 & -> & E2). cbn [mbind option_bind].
  rewrite E1, E2. cbn [mbind option_bind]. destruct (first_host_ok q m Hq Hm Hr) as [Hf Ef], (last_host_ok q m Hq Hm Hr) as [Hl El].
  rewrite (scan_dotted (first_host q m) parts), (scan_dotted (last_host q m)), (scan_dotted s), (scan_dotted e) by done.
  rewrite !join_host by done. rewrite <- host_broadcast, host_land, Ef, El by done.
  destruct (Z.ltb_spec (host e) (host s)); [exists (-1)|destruct (Z.ltb_spec (host s) (host (subnet q m) + 1)); [exists (-1)|
    destruct (Z.ltb_spec (host (broadcast q m) - 1) (host e)); [exists (-1)|exists 0]]];
    (split; [done|]; lia).
Qed.
End Range.

(** ** Masks *)

(** A number whose bits are ones above [k] zeros. *)
Definition contiguous (v k : Z) : Prop := 0 <= k <= 32 /\ v = 2 ^ 32 - 2 ^ k.

Lemma power_test b : 0 < b -> Z.land b (b - 1) = 0 <-> b = 2 ^ Z.log2 b.
Proof.
  intros Hb. pose proof (Z.log2_nonneg b) as Hk. split.
  - intros H. destruct (Z.eq_dec b (2 ^ Z.log2 b)) as [?|Hne]; [done|exfalso].
    pose proof (Z.log2_spec b Hb) as [Hl Hh]. assert (E : Z.log2 (b - 1) = Z.log2 b) by (apply Z.log2_unique; lia).
    apply (f_equal (fun x => Z.testbit x (Z.log2 b))) in H. rewrite Z.land_spec, Z.bit_log2, Z.bits_0 in H by done.
    rewrite <- E in H at 1. rewrite Z.bit_log2 in H; [done|]. assert (2 ^ Z.log2 b > 0) by lia. lia.
  - intros ->. replace (2 ^ Z.log2 b - 1) with (Z.ones (Z.log2 b)) by (rewrite Z.ones_equiv; lia).
    rewrite Z.land_ones by lia. apply Z.mod_same. lia.
Qed.

Lemma mask_of_parts q : quad_ok q ->
  fold_left (fun b i => u32 (b + u32 (Z.shiftl (zget (map (uwrap 32) [q1 q; q2 q; q3 q; q4 q]) (3 - i)) (i * 8)))) [0; 1; 2; 3] 0 = host q.
Proof.
  intros Hq. pose proof (host_range q Hq) as Hr. destruct Hq as (H1 & H2 & H3 & H4). unfold byte, host, cat in *. unfold zget.
  cbn [fold_left map]. change (Z.to_nat (3 - 0)) with 3%nat. change (Z.to_nat (3 - 1)) with 2%nat.
  change (Z.to_nat (3 - 2)) with 1%nat. change (Z.to_nat (3 - 3)) with 0%nat. cbn [nth].
  rewrite !Z.shiftl_mul_pow2 by lia. change (2 ^ (0 * 8)) with 1. change (2 ^ (1 * 8)) with (2 ^ 8).
  change (2 ^ (2 * 8)) with (2 ^ 16). change (2 ^ (3 * 8)) with (2 ^ 24). rewrite (uwrap_small 32 (q1 q)), (uwrap_small 32 (q2 q)), (uwrap_small 32 (q3 q)), (uwrap_small 32 (q4 q)) by lia.
  rewrite (uwrap_small 32 (q4 q * _)), (uwrap_small 32 (q3 q * _)), (uwrap_small 32 (q2 q * _)), (uwrap_small 32 (q1 q * _)) by lia.
  rewrite (uwrap_small 32 (0 + _)), (uwrap_small 32 (_ + q3 q * _)), (uwrap_small 32 (_ + q2 q * _)), (uwrap_small 32 (_ + q1 q * _)) by lia. lia.
Qed.

Lemma not_u32 v : 0 <= v < 2 ^ 32 -> u32 (Z.lnot v) = 2 ^ 32 - 1 - v.
Proof. intros Hv. unfold uwrap, Z.lnot. symmetry. apply (Z.mod_unique _ _ (-1)); lia. Qed.

Lemma neg_wrap v : 0 <= v < 2 ^ 32 -> u32 (u32 (Z.lnot v) + 1) = u32 (2 ^ 32 - v).
Proof. intros Hv. rewrite not_u32 by done. f_equal. lia. Qed.

Lemma land_bit x i : 0 <= i -> (Z.land x (Z.shiftl 1 i) =? 0) = negb (Z.testbit x i).
Proof.
  intros Hi. destruct (Z.testbit x i) eqn:E; cbn [negb].
  - apply Z.eqb_neq. intros H. apply (f_equal (fun y => Z.testbit y i)) in H. rewrite Z.land_spec, E, Z.bits_0, Z.shiftl_spec, Z.sub_diag in H by done. done.
  - apply Z.eqb_eq. apply Z.bits_inj'. intros j Hj. rewrite Z.land_spec, Z.bits_0, Z.shiftl_spec by done.
    destruct (Z.eq_dec j i) as [->|Hne]; [by rewrite E|]. destruct (Z.lt_ge_cases j i).
    + rewrite (Z.testbit_neg_r 1) by lia. apply andb_false_r.
    + change 1 with (2 ^ 0). rewrite Z.pow2_bits_false by lia. apply andb_false_r.
Qed.

Lemma mask_test inet_pton garbage q : quad_ok q -> inet_pton (dotted q) = 1 -> length garbage = 4%nat ->
  IsSubnetMask inet_pton garbage (dotted q) =
  if Z.land (u32 (2 ^ 32 - host q)) (u32 (u32 (2 ^ 32 - host q) - 1)) =? 0 then 1 else -1.
Proof.
  intros Hq Hp Hg. unfold IsSubnetMask, CheckIPAddressFormat. rewrite Hp, scan_dotted, mask_of_parts by done.
  change (negb (1 =? 0)) with true. cbn iota. by rewrite neg_wrap by by apply host_range.
Qed.

Lemma contiguous_power v : 0 <= v < 2 ^ 32 ->
  Z.land (u32 (2 ^ 32 - v)) (u32 (u32 (2 ^ 32 - v) - 1)) = 0 <-> exists k, contiguous v k.
Proof.
  intros Hv. destruct (Z.eq_dec v 0) as [->|Hn].
  - split; [|done]. intros _. exists 32. by split.
  - rewrite (uwrap_small 32 (2 ^ 32 - v)), uwrap_small, power_test by lia. split.
    + intros H. exists (Z.log2 (2 ^ 32 - v)). split; [|lia]. split; [apply Z.log2_nonneg|].
      assert (Z.log2 (2 ^ 32 - v) < 32) by (apply Z.log2_lt_pow2; lia). lia.
    + intros (k & Hk & ->). replace (2 ^ 32 - (2 ^ 32 - 2 ^ k)) with (2 ^ k) by lia. by rewrite Z.log2_pow2 by lia.
Qed.

(** The loop stops at the lowest one of the mask. *)
Lemma mask_loop_spec v fuel bit : 0 <= v < 2 ^ 32 -> 0 <= bit <= 32 -> 33 - bit <= Z.of_nat fuel ->
  exists b, mask_loop fuel v bit = Some b /\ bit <= b <= 32 /\ Z.testbit (2 ^ 32 - 1 - v) b = false /\
    forall i, bit <= i < b -> Z.testbit (2 ^ 32 - 1 - v) i = true.
Proof.
  intros Hv. revert bit. induction fuel as [|fuel IH]; intros bit Hb Hf; [lia|]. cbn [mask_loop].
  rewrite not_u32, land_bit by lia. destruct (Z.testbit (2 ^ 32 - 1 - v) bit) eqn:E; cbn [negb].
  - assert (bit <> 32). { intros ->. rewrite <- (Z.mod_small (2 ^ 32 - 1 - v) (2 ^ 32)), Z.mod_pow2_bits_high in E by lia. done. }
    destruct (IH (bit + 1)) as (b & H1 & H2 & H3 & H4); [lia..|]. exists b. split; [done|]. split; [lia|]. split; [done|].
    intros i Hi. destruct (Z.eq_dec i bit) as [->|]; [done|]. apply H4. lia.
  - exists bit. repeat split; [lia..|done|lia].
Qed.

(** Ones up to [b] and none above are the number [2 ^ b - 1]. *)
Lemma ones_below w b : 0 <= b -> (forall i, 0 <= i < b -> Z.testbit w i = true) -> Z.shiftr w b = 0 -> w = 2 ^ b - 1.
Proof.
  intros Hb H Hs. replace (2 ^ b - 1) with (Z.ones b) by (rewrite Z.ones_equiv; lia). apply Z.bits_inj'. intros i Hi.
  destruct (Z.lt_ge_cases i b).
  - by rewrite H, Z.ones_spec_low by lia.
  - rewrite Z.ones_spec_high by lia. replace i with (i - b + b) by lia. rewrite <- Z.shiftr_spec, Hs by lia. apply Z.bits_0.
Qed.

Lemma mask_length v : 0 <= v < 2 ^ 32 ->
  (forall k, contiguous v k -> v <> 0 -> mask2len v = Some (32 - k)) /\
  ((forall k, ~ contiguous v k) -> mask2len v = Some (-1)) /\
  (v = 0 -> mask2len v = None).
Proof.
  intros Hv. destruct (mask_loop_spec v 33 0 Hv) as (b & E & Hb & Ho & Hl); [lia..|]. unfold mask2len. rewrite E. cbn [mbind option_bind].
  rewrite not_u32 by done.
  assert (Hc : forall k, contiguous v k -> b = k).
  { intros k [Hk ->]. replace (2 ^ 32 - 1 - (2 ^ 32 - 2 ^ k)) with (Z.ones k) in * by (rewrite Z.ones_equiv; lia).
    destruct (Z.lt_trichotomy b k) as [?|[?|?]]; [|done|].
    - by rewrite Z.ones_spec_low in Ho by lia.
    - assert (Hk' : 0 <= k < b) by lia. specialize (Hl k Hk'). by rewrite Z.ones_spec_high in Hl by lia. }
  repeat split.
  - intros k Hk Hv0. pose proof (Hc k Hk) as ->. destruct Hk as [Hk ->]. replace (32 <=? k) with false.
    2: { symmetry. apply Z.leb_gt. destruct (Z.eq_dec k 32) as [->|]; [done|lia]. }
    replace (2 ^ 32 - 1 - (2 ^ 32 - 2 ^ k)) with (2 ^ k - 1) by lia. by rewrite Z.shiftr_div_pow2, Z.div_small by lia.
  - intros Hn. destruct (Z.leb_spec 32 b); [exfalso; apply (Hn 32); split; [lia|]|].
    + assert (b = 32) as -> by lia. assert (2 ^ 32 - 1 - v = 2 ^ 32 - 1); [|lia]. apply ones_below; [lia|done|].
      rewrite Z.shiftr_div_pow2 by lia. apply Z.div_small. lia.
    + destruct (Z.eqb_spec (Z.shiftr (2 ^ 32 - 1 - v) b) 0) as [Hs|]; [|done]. exfalso. apply (Hn b). split; [done|].
      pose proof (ones_below _ b (proj1 Hb) Hl Hs). lia.
  - intros ->. assert (b = 32) as ->; [|done]. apply Hc. by split.
Qed.

(** C32. The test of a mask accepts the text of a dotted quad, whatever the variables hold
    before, exactly if the mask is some ones above some zeros (no ones at all included); the
    length of such a mask with a one is the number of its ones, any other mask has the length
    -1, and for the mask 0 the shift by the width of its type is undefined. *)
Theorem netmask_checks inet_pton garbage q : quad_ok q -> inet_pton (dotted q) = 1 -> length garbage = 4%nat ->
  (IsSubnetMask inet_pton garbage (dotted q) = 1 <-> exists k, contiguous (host q) k) /\
  (IsSubnetMask inet_pton garbage (dotted q) = 1 \/ IsSubnetMask inet_pton garbage (dotted q) = -1) /\
  (forall k, contiguous (host q) k -> host q <> 0 -> mask2len (host q) = Some (32 - k)) /\
  ((forall k, ~ contiguous (host q) k) -> mask2len (host q) = Some (-1)) /\
  (host q = 0 -> mask2len (host q) = None).
Proof.
  intros Hq Hp Hg. pose proof (host_range q Hq) as Hr. rewrite mask_test, <- contiguous_power by done.
  destruct (Z.eqb_spec (Z.land (u32 (2 ^ 32 - host q)) (u32 (u32 (2 ^ 32 - host q) - 1))) 0);
    (split; [done|split; [lia|by apply mask_length]]).
Qed.

(** ** Concrete conversions *)

Definition quad_of_text (s : list Z) : quad :=
  match sscanf4 s [0; 0; 0; 0] with [a; b; c; d] => mkQuad a b c d | _ => mkQuad 0 0 0 0 end.
Definition quad_of_net (n : Z) : quad := mkQuad (n mod 2 ^ 8) (n / 2 ^ 8 mod 2 ^ 8) (n / 2 ^ 16 mod 2 ^ 8) (n / 2 ^ 24 mod 2 ^ 8).
Definition demo_inet_addr (s : list Z) : Z := net (quad_of_text s).
Definition demo_inet_ntoa (n : Z) : list Z := dotted (quad_of_net n).
Definition demo_inet_pton (s : list Z) : Z := if bool_decide (s = dotted (quad_of_text s)) then 1 else 0.

Lemma demo_inet_addr_ok q : quad_ok q -> demo_inet_addr (dotted q) = net q.
Proof. intros Hq. unfold demo_inet_addr, quad_of_text. by rewrite scan_dotted; [destruct q|..]. Qed.

Lemma demo_inet_ntoa_ok q : quad_ok q -> demo_inet_ntoa (net q) = dotted q.
Proof.
  intros (H1 & H2 & H3 & H4). unfold byte in *. unfold demo_inet_ntoa. f_equal. destruct q as [a b c d]. cbn [q1 q2 q3 q4] in *.
  unfold quad_of_net, net, cat. cbn [q1 q2 q3 q4]. f_equal; symmetry.
  - apply (Z.mod_unique _ _ (b + 2 ^ 8 * (c + 2 ^ 8 * d))); lia.
  - rewrite <- (Z.div_unique _ (2 ^ 8) (b + 2 ^ 8 * (c + 2 ^ 8 * d)) a) by lia. apply (Z.mod_unique _ _ (c + 2 ^ 8 * d)); lia.
  - rewrite <- (Z.div_unique _ (2 ^ 16) (c + 2 ^ 8 * d) (a + 2 ^ 8 * b)) by lia. apply (Z.mod_unique _ _ d); lia.
  - rewrite <- (Z.div_unique _ (2 ^ 24) d (a + 2 ^ 8 * (b + 2 ^ 8 * c))) by lia. apply (Z.mod_unique _ _ 0); lia.
Qed.

Lemma ip_range_check_correct_witness :
  exists r, ip_range_check 64 demo_inet_addr demo_inet_ntoa [0; 0; 0; 0] (dotted (mkQuad 192 168 1 1)) (dotted (mkQuad 255 255 255 0))
      (dotted (mkQuad 192 168 1 2)) (dotted (mkQuad 192 168 1 100)) = Some r /\ (r = 0 \/ r = -1) /\
    (r = 0 <-> Z.land (host (mkQuad 192 168 1 1)) (host (mkQuad 255 255 255 0)) < host (mkQuad 192 168 1 2) <= host (mkQuad 192 168 1 100) /\
      host (mkQuad 192 168 1 100) <
        Z.lor (Z.land (host (mkQuad 192 168 1 1)) (host (mkQuad 255 255 255 0))) (2 ^ 32 - 1 - host (mkQuad 255 255 255 0))).
Proof.
  apply (ip_range_check_correct 64 (or_intror eq_refl) demo_inet_addr demo_inet_ntoa demo_inet_addr_ok demo_inet_ntoa_ok);
    first [reflexivity|discriminate|repeat split; discriminate].
Defined.

Lemma netmask_checks_witness :
  (IsSubnetMask demo_inet_pton [7; 7; 7; 7] (dotted (mkQuad 255 255 255 0)) = 1 <-> exists k, contiguous (host (mkQuad 255 255 255 0)) k) /\
  (IsSubnetMask demo_inet_pton [7; 7; 7; 7] (dotted (mkQuad 255 255 255 0)) = 1 \/
   IsSubnetMask demo_inet_pton [7; 7; 7; 7] (dotted (mkQuad 255 255 255 0)) = -1) /\
  (forall k, contiguous (host (mkQuad 255 255 255 0)) k -> host (mkQuad 255 255 255 0) <> 0 ->
    mask2len (host (mkQuad 255 255 255 0)) = Some (32 - k)) /\
  ((forall k, ~ contiguous (host (mkQuad 255 255 255 0)) k) -> mask2len (host (mkQuad 255 255 255 0)) = Some (-1)) /\
  (host (mkQuad 255 255 255 0) = 0 -> mask2len (host (mkQuad 255 255 255 0)) = None).
Proof. apply netmask_checks; first [reflexivity|repeat split; discriminate]. Defined.

(** A network of one address whose last byte is 255: with a [long] of 64 bits the first host
    is above the last byte, and ranges of other addresses are accepted. *)
Example single_address_network :
  ip_range_check 64 demo_inet_addr demo_inet_ntoa [0; 0; 0; 0] (dotted (mkQuad 10 0 0 255)) (dotted (mkQuad 255 255 255 255))
    (dotted (mkQuad 10 0 0 7)) (dotted (mkQuad 10 0 0 9)) = Some 0.
Proof. by vm_compute. Qed.

(** The older check compares numbers in network order: it refuses a range within a /23
    network because the last byte of its end is below that of its start. *)
Example network_order_comparison :
  ipaddr_range_check 64 demo_inet_addr (dotted (mkQuad 10 0 0 0)) (dotted (mkQuad 255 255 254 0))
    (dotted (mkQuad 10 0 0 10)) (dotted (mkQuad 10 0 1 5)) = -1.
Proof. by vm_compute. Qed.
